(* ===== verification/_CoqProject ===== *)
-Q . S2P
Prelude.v
Contracts.v
Scope.v
Dag.v
DagFacts.v
Scheduler.v
Json.v
Store.v
Events.v
Lease.v
RunModels.v
RepairText.v
Orchestrator.v
Recovery.v
Dispatch.v
DispatchFacts.v
Merge.v
Reconcile.v
ReconcileFacts.v
Git.v
Worktree.v
GenerationWorktrees.v
MergeQueue.v
RepairQueue.v
ToyGit.v
QueueExample.v
MergeMessages.v
MergeQueueFacts.v
PyFloat.v
AgentModels.v
TokenBudget.v
TokenBudgetFacts.v
PlanningBudget.v
Budgeted.v
BudgetedFacts.v
Tools.v
ToyFiles.v
ToolsFacts.v
Retention.v
RetentionFacts.v
Developer.v
DeveloperFacts.v
Conflict.v
Classifier.v
HumanGate.v
ConflictFacts.v
ToyGate.v
HumanGateFacts.v
IntegrationRepair.v
RepairRefs.v
ToyRepair.v
IntegrationRepairFacts.v
EvidenceStore.v
Completion.v
WorkPackages.v
WorkPackageFacts.v
PlannerAgent.v
PlannerAgentFacts.v
StoredDag.v
LedgerFacts.v
ToyLedger.v
StoreFacts.v
CompletionFacts.v
RepairBase.v
RepairBaseFacts.v
StoredDagFacts.v
