(* ===== verification/Prelude.v ===== *)
(** * DevFlow (Muti_Agent): a verification development

    DevFlow turns an objective into a graph of bounded coding tasks, gives each
    task to a Developer agent in an isolated Git worktree, checks the result
    with deterministic verification, reviews and repairs it, and integrates the
    commits of the tasks in the order of the graph.  The backend is
    [src/backend/app]; paths below are relative to it.  This development
    translates its control core into Gallina and proves what the core relies
    on: a task is accepted only on evidence, a worker that lost its lease
    cannot write, a task is published to the broker once, branches are
    integrated in dependency order, a run is charged what it reserved, a
    conflict is repaired only with authority and verification, and an agent
    touches only the files of its task.

    ** How the parts interact

    - [MultiTaskPlannerAgent] ([PlannerAgent]) asks the model for work packages
      a bounded number of times; [WorkPackagePlanValidator] ([WorkPackages])
      checks them and derives [TaskContract]s and a [TaskDAG] ([Contracts],
      [Dag]) from the interfaces they produce and consume.  A run is started
      with the normal form of its graph, which is immutable from then on
      ([StoredDag]).  [DAGScheduler] ([Scheduler]) says which tasks are ready.
    - For a durable run, [DAGRunReconciler] ([Reconcile]) reads the stored
      snapshots, derives the Git base of every ready task from accepted
      integration evidence, admits some of the candidates and hands them to the
      [TaskReconciler] ([Dispatch]), which owns the dispatch ledger and
      publishes to the broker.  After a crash [RecoveryStateClassifier]
      ([Recovery]) says what each task needs.
    - A worker takes a lease ([Lease]) and works in a linked worktree
      ([Worktree]) of the managed repository ([Git]).  Inside it,
      [SingleTaskOrchestrator] ([Orchestrator]) drives the Developer, the scope
      check ([Scope]), the verifier, the reviewer and the repair agent until
      the evidence accepts the task or a limit stops it.  An agent sees the
      repository only through [RepositoryToolbox] ([Tools]).
    - Model calls go through [BudgetedAgentDriver] ([Budgeted]), which reserves
      tokens in the run's ledger ([TokenBudget]) before each call; planning
      calls have a ledger of their own ([PlanningBudget]).
    - [TopologicalMergeQueue] ([MergeQueue], [RepairQueue]) merges the task
      commits into the integration ref and leaves an audit trail ([Merge]) in
      its commit messages ([MergeMessages]), from which it recovers.
    - A merge conflict is classified from the output of [git merge-tree]
      ([Classifier], [Conflict]).  The policy or a human decision recorded in
      Git ([HumanGate]) authorises a repair, which [IntegrationRepairService]
      ([IntegrationRepair], [RepairRefs]) runs, verifies and installs with a
      compare-and-swap of the integration ref.
    - Accepted evidence is stored in the ledger ([EvidenceStore]); a run ends
      with SUCCESS or FAILED only against that evidence ([Completion]), and the
      Git base of a later task is read from it, with ([RepairBase]) or without
      ([Reconcile]) repaired conflicts.
    - Every state change appends to the runtime event log ([Events]) over the
      relational store ([Store]).

    ** Files

    - [Prelude]: exceptions, the error and state monads with their weakest
      preconditions and tactics, Python strings, shared lemmas.
    - [Contracts]: the validated value types every component exchanges
      ([models/task.py], [models/failure.py], [models/work_package.py],
      [models/checkpoint.py], [models/context.py]).
    - [Scope]: the write boundary of a task ([workspace/scope.py]).
    - [Dag]: task graphs and their deterministic queries ([models/dag.py]).
    - [DagFacts]: correctness of the task-graph queries of [Dag].
    - [Scheduler]: the DAG scheduler state machine ([runtime/scheduler.py])
      ([models/scheduler.py]).
    - [Json]: JSON payloads, their canonical encoding and their hashes
      ([persistence/serialization.py]).
    - [Store]: the relational store ([persistence/models.py], [database.py]).
    - [Events]: the runtime event log ([models/events.py],
      [persistence/events.py]).
    - [Lease]: task execution leases and write fencing ([models/lease.py],
      [persistence/leases.py], [persistence/fencing.py]).
    - [RunModels]: the evidence types of a task run ([models/developer.py],
      [models/verification.py], [models/review.py], [models/repair.py],
      [models/run.py], [models/context.py], [providers/errors.py],
      [workspace/git.py], [runtime/failure_classifier.py],
      [verification/verifier.py]).
    - [RepairText]: the text computations of the single-task orchestrator
      ([runtime/orchestrator.py]).
    - [Orchestrator]: the evidence-driven loop of one task
      ([runtime/state_machine.py], [runtime/orchestrator.py]).
    - [Recovery]: the diagnosis of a persisted run ([models/dispatch.py],
      [models/checkpoint.py], [models/continuation.py],
      [persistence/types.py], [models/recovery.py], [runtime/recovery.py]).
    - [Dispatch]: durable dispatch attempts and idempotent task reconciliation
      ([models/dispatch_attempt.py], [models/reconciliation.py],
      [persistence/dispatch.py], [persistence/reconciliation.py],
      [runtime/reconciler.py], [dispatch/durable.py]).
    - [DispatchFacts]: what the dispatch ledger guarantees.
    - [Merge]: the audit record of one integration ref ([models/merge.py]).
    - [Reconcile]: the durable scheduling frontier of a run
      ([models/run_reconciliation.py], [runtime/execution_base.py],
      [runtime/run_reconciler.py]).
    - [ReconcileFacts]: the frontier plan, the admission and the Git bases.
    - [Git]: subprocesses, paths and the managed workspace
      ([workspace/git.py]).
    - [Worktree]: one isolated linked worktree per task
      ([workspace/worktree.py]).
    - [GenerationWorktrees]: the worktrees of the dispatched workers
      ([runtime/generation_worktrees.py]).
    - [MergeQueue]: integration of the task commits in DAG order
      ([runtime/merge_queue.py], [models/worker.py]).
    - [RepairQueue]: recovering a queue that has repaired conflicts
      ([runtime/repair_merge_queue.py]).
    - [ToyGit]: a small repository to run the models on.
    - [QueueExample]: a queue at work.
    - [MergeMessages]: the metadata in the queue's commit messages.
    - [MergeQueueFacts]: what the merge queue guarantees.
    - [PyFloat]: Python floats.
    - [AgentModels]: provider-neutral requests and their token estimate
      ([models/agent.py], [models/tools.py], [context/token_estimator.py]).
    - [TokenBudget]: the token ledgers of runs ([models/token_budget.py],
      [persistence/token_budget.py]).
    - [TokenBudgetFacts]: the run ledger is balanced.
    - [PlanningBudget]: the Planner's launch budget
      ([persistence/planning_budget.py], [models/token_budget.py]).
    - [Budgeted]: model calls under a budget ([providers/budgeted.py],
      [providers/planning_budgeted.py], [api/autonomous.py]).
    - [BudgetedFacts]: what budgets promise to model calls.
    - [Tools]: the repository tools of the agents ([tools/repository.py]).
    - [ToyFiles]: a small file system to run the tools on.
    - [ToolsFacts]: what the repository tools let an agent do.
    - [Retention]: the bounded message history of an agent
      ([context/retention.py]).
    - [RetentionFacts]: the history an agent is shown stays valid and bounded.
    - [Developer]: the bounded loop of the coding agent
      ([agents/developer.py]).
    - [DeveloperFacts]: what a run of the Developer agent can do.
    - [Conflict]: the evidence of a merge conflict and the repair policy
      ([models/conflict.py], [models/integration_gate.py],
      [runtime/integration_policy.py]).
    - [Classifier]: reproducing a conflict and reading Git's account of it
      ([runtime/conflict_classifier.py]).
    - [HumanGate]: the gate before the repair of a conflict
      ([runtime/integration_gate.py]).
    - [ConflictFacts]: the repair policy and the reader of conflicts.
    - [ToyGate]: the small repository under the human gate.
    - [HumanGateFacts]: what the human gate guarantees.
    - [IntegrationRepair]: the repair of a conflict a human has authorized
      ([models/integration_repair.py], [runtime/integration_repair.py]).
    - [RepairRefs]: Git's refs under the repair of a conflict
      ([runtime/integration_repair.py]).
    - [ToyRepair]: a small site to run a repair on.
    - [IntegrationRepairFacts]: what an authorized repair guarantees.
    - [EvidenceStore]: the transactional store of runtime evidence
      ([persistence/repository.py], [persistence/serialization.py],
      [trace/persistence.py], [persistence/operator.py]).
    - [Completion]: repair evidence and the end of a multi-task run
      ([persistence/multi_completion.py], [persistence/repair_completion.py]).
    - [WorkPackages]: from a Planner's proposal to a task graph
      ([models/work_package.py], [planning/work_packages.py],
      [planning/complexity.py]).
    - [WorkPackageFacts]: what an accepted proposal becomes.
    - [PlannerAgent]: the bounded loop of the planning agent
      ([agents/dag_planner.py]).
    - [PlannerAgentFacts]: what a planning run can do.
    - [StoredDag]: the immutable graph of a run ([persistence/dag.py]).
    - [LedgerFacts]: what the evidence store guarantees.
    - [ToyLedger]: a small run, for concrete inputs.
    - [StoreFacts]: the guarantees of the evidence store, as theorems.
    - [CompletionFacts]: what a completed run proves.
    - [RepairBase]: execution bases of runs with repaired integrations
      ([runtime/repair_execution_base.py]).
    - [RepairBaseFacts]: execution bases after repairs.
    - [StoredDagFacts]: the graph of a run is immutable and reads back.

    ** Conventions

    - A Python exception is its class and message ([exn]); fallible pure code
      returns [result]; a method that mutates its object or the database runs
      in the state-and-error monad [M], which keeps the writes made before an
      exception; a database transaction ([transaction]) rolls them back.
    - A [*_new] function is a Pydantic constructor: it normalises its fields
      and raises [ValidationError]; its message names the field or rule, not
      Pydantic's full rendering.  How Pydantic reads a JSON text into the
      arguments of a constructor is a parameter.
    - A Python [str] is a [string] with one [ascii] per code point below 256.
      Literals of the source beyond that range occur in messages only and are
      written as their UTF-8 bytes.
    - Python integers are [Z]; an integer column is checked against its 32- or
      64-bit range when the row is written ([Store], [TokenBudget]); floats are
      IEEE binary64 ([PyFloat]) where a computation uses them, and rationals
      with infinities and NaN for lease durations ([Lease]).  A [datetime] is a
      count of microseconds since the epoch.
    - Git, the file system, SHA-256, the message broker, the model provider and
      the clock are parameters (type classes or section variables).  The laws a
      theorem needs of them are its hypotheses, and a concrete instance
      ([ToyGit], [ToyFiles], [ToyGate], [ToyRepair], [ToyLedger] and the
      witnesses) satisfies them.
    - A [while] loop carries fuel.  The bound is a measure of the input and the
      loop is proved not to exhaust it: one more than the number of tasks for
      the graph searches (a task enters a queue at most once), the length of
      the text for the string scans, the repair budget plus one for the repair
      loops of [Orchestrator] ([run_terminates]).

    ** What the theorems show

    - [Orchestrator], [RunModels]: a run ends within its budgets
      ([run_terminates]), with success only on a passed verification and an
      approving review of the final tree ([run_verdict]), every repair is
      verified ([run_repairs_verified]), and the exceptions that can leave it
      are known ([run_exceptions], [long_contracts_break_repair]).
    - [DagFacts], [Scheduler]: the graph validator accepts exactly the acyclic
      graphs, the order is the greedy topological one, a started task has its
      dependencies, and a run can always progress.
    - [Lease], [DispatchFacts]: one live generation per task, stale
      generations are fenced, the ledger refines a publication protocol in
      which a task is published at most once, whatever the interleaving of
      transactions.
    - [ReconcileFacts], [Recovery]: the plan agrees with the specification of
      the frontier, admission keeps to its limits and takes smaller work first,
      bases come from the latest accepted merge snapshot, and two ways in which
      the plan raises are exhibited.
    - [MergeQueueFacts], [MergeMessages], [Merge]: integration refines an
      abstract queue, keeps topological order, and recovery reads back what the
      queue wrote.
    - [ConflictFacts], [HumanGateFacts]: the parser of a conflicted merge
      inverts Git's rendering, a decision is read back as it was written, the
      gate writes one ref and grants a repair only for a conflict that Git
      reproduces and with the authority of the policy or of the decision commit
      it reads.
    - [IntegrationRepairFacts]: under [RefUpdateLaws] (the Git commands of the
      service, in the exact forms it uses, leave the refs), [WorkingGit],
      [CollaboratorLaws] (the workspace resolver, the developer agent, the
      verifier and the scratch directories leave the refs) and [LedgerLaws]
      (the ledger lists what it accepted) a repair moves the integration ref
      only to a verified commit over the recorded conflict, and a repair that
      was interrupted after its evidence was recorded is finished by a retry;
      a repair that was interrupted before is not, and
      [orphan_anchor_blocks_repair] shows it.
    - [StoreFacts], [CompletionFacts], [RepairBaseFacts]: under the interface
      [Pydantic] (what is dumped is read back) the store reads what it wrote,
      whatever its writers did; accepted evidence stays, appends are
      idempotent, finished runs are closed, and a run is completed only with
      the evidence of each of its tasks.  The steps of these theorems are the
      writers of the evidence tables, the lease operations, and any other
      writer that leaves task rows and the core of run rows as they are; the
      display status that [persistence/run_recovery.py] projects is left out.
    - [StoredDagFacts]: under [Pydantic] and [LawfulNodes] the graph a run was
      started with is what every later reader loads, with its hash, and it can
      only be confirmed.
    - [WorkPackageFacts], [PlannerAgentFacts]: an accepted proposal is converted
      package by package into an acyclic graph whose dependencies are the
      producers of what a package consumes, planning makes a bounded number of
      calls and returns only a validated graph, and a valid package whose score
      exceeds the bound of its own model is refused with a bare validation
      error.
    - [TokenBudgetFacts], [BudgetedFacts]: the ledger is balanced, admission is
      exact, a run stays within its total, a call is accounted for on every
      path.
    - [Scope], [Git], [Worktree], [Events], [Contracts]: the globs mean what is
      documented, paths stay inside the workspace, task identities do not
      collide, events hold no secret, contracts are well formed.
    - [ToolsFacts], [RetentionFacts], [DeveloperFacts]: a tool call whose paths
      are spelled without [.] and empty segments ([..] is refused) changes at
      most one file, which the contract opens for writing and which is reached
      through no symbolic link, and answers from visible files only; a patch replaces one occurrence, the
      history shown to the model is valid and bounded, and a run of the
      Developer accounts for every request, spends at most one recovery credit
      and stays in scope.  Concrete runs show that another spelling of a path
      passes the read-only check, and that a blank reply raises.

    ** Not modelled

    HTTP and process entry points ([main], [api/], [core/], [dispatch/] and
    [workers/] actors, [benchmark/], [maintenance/], alembic beyond the table
    constraints, the frontend and the scripts) are glue around the components
    above; so are the polling loops of the product controller and of operator
    recovery.  The model provider ([providers/siliconflow.py]) and GitHub
    publication talk to remote services.  The sandbox, the dependency preflight
    and the project profile of [verification/] run external commands.  Prompts
    of the single-task planner, the reviewer and the repair agent, context
    building ([context/builder.py], [context/relevance.py]) and traces produce
    text for a model or a reader and carry no control state; these agents enter
    the orchestrator and the repair service as parameters.
    [ensure_launch_capacity] of the planner only estimates request sizes.  The
    durable human gate ([runtime/durable_human_gate.py]) puts the gate of
    [HumanGate] and the appends of [EvidenceStore] in sequence; both are
    modelled, the sequence is not.
    Sessions, publications, display projections and credentials read run
    evidence or call libraries and decide nothing about acceptance.  Timeouts,
    time-stamp columns and the value of a subprocess timeout are not modelled.
    The manifest lists each of these parts. *)
From stdpp Require Export base tactics option list gmap strings sorting.
From stdpp Require Import options.
From Stdlib Require Export ZArith Lia.
From Stdlib Require Strings.Ascii.
Export Stdlib.Strings.Ascii (ascii(..), ascii_of_nat, nat_of_ascii).
Export (notations) Stdlib.Strings.Ascii.

(** ** Exceptions

    A Python exception is its class and its message.  [ValidationError] is
    what a Pydantic model raises when one of its fields or validators
    rejects a value; it is a subclass of [ValueError].  The exception of the
    repository tools ([tools/repository.py]) carries the [ToolErrorCode] of
    [models/tools.py]. *)
Inductive ToolErrorCode : Set :=
  | TE_INVALID_ARGUMENTS | TE_PATH_DENIED | TE_NOT_FOUND | TE_AMBIGUOUS_PATCH | TE_IO_ERROR
  | TE_UNKNOWN_TOOL.
#[export] Instance ToolErrorCode_eq_dec : EqDecision ToolErrorCode.
Proof. solve_decision. Defined.

Inductive exn_class : Set :=
  | ValueError
  | ValidationError
  | KeyError
  | IndexError
  | RuntimeError
  | AssertionError
  | TypeError
  | MergeQueueError
  | PersistenceCorruptionError
  | PersistenceConflictError
  | TaskLeaseConflictError
  | TaskLeaseExpiredError
  | StaleRunTokenError
  | RunBudgetExhaustedError
  | IntegrityError
  | OSError
  | WorkspaceGitError
  | TaskWorktreeError
  | TaskWorktreeCollisionError
  | StaleTaskWorktreeError
  | CommitDiffError
  | PersistenceDAGUnavailableError
  | ContextBuildError
  | ProviderError
  | ReviewerOutputError
  | RepairBudgetError
  | TaskDispatchRejectedError
  | TaskDispatchBrokerError
  | BrokerConnectionError
  | TaskExecutionBaseUnavailableError
  | MergeConflictClassificationError
  | IntegrationHumanGateError
  | IntegrationRepairError
  | TokenBudgetReservationError
  | WorkPackageBudgetAllocationError
  | TokenBudgetPlanError
  | PlanningTokenBudgetReservationError
  | WorkPackagePlanError
  | InvalidPlannerOutputError
  | OverflowError
  | NoResultFound
  | AttributeError
  | JSONDecodeError
  | TimeoutError
  | RepositoryToolError (code : ToolErrorCode)
  | FuelExhausted.

Record exn : Set := Exn { exn_kind : exn_class; exn_message : string }.

#[export] Instance exn_class_eq_dec : EqDecision exn_class.
Proof. solve_decision. Defined.
#[export] Instance exn_eq_dec : EqDecision exn.
Proof. solve_decision. Defined.

(** [subclass c d]: an [except d] clause catches an exception of class [c]. *)
Definition subclass (c d : exn_class) : bool :=
  bool_decide (c = d) ||
  match c, d with
  | (ValidationError | JSONDecodeError | WorkPackagePlanError), ValueError => true
  | RepositoryToolError _, RuntimeError => true
  | TaskLeaseConflictError, PersistenceConflictError => true
  | TaskLeaseExpiredError, (TaskLeaseConflictError | PersistenceConflictError) => true
  | StaleRunTokenError, PersistenceConflictError => true
  | (RunBudgetExhaustedError | WorkPackageBudgetAllocationError), TokenBudgetReservationError => true
  | (TaskWorktreeError | TaskWorktreeCollisionError | StaleTaskWorktreeError), WorkspaceGitError => true
  | (TaskWorktreeCollisionError | StaleTaskWorktreeError), TaskWorktreeError => true
  | (MergeQueueError | PersistenceCorruptionError | PersistenceConflictError
    | TaskLeaseConflictError | TaskLeaseExpiredError | StaleRunTokenError
    | RunBudgetExhaustedError | WorkspaceGitError | CommitDiffError | TaskWorktreeError
    | TaskWorktreeCollisionError | StaleTaskWorktreeError
    | PersistenceDAGUnavailableError | ContextBuildError | ProviderError
    | TaskDispatchRejectedError | TaskDispatchBrokerError | TaskExecutionBaseUnavailableError
    | MergeConflictClassificationError | IntegrationHumanGateError | IntegrationRepairError
    | TokenBudgetReservationError
    | WorkPackageBudgetAllocationError | TokenBudgetPlanError
    | PlanningTokenBudgetReservationError),
    RuntimeError => true
  | _, _ => false
  end.

(** ** The error monad *)
Inductive result (A : Type) : Type :=
  | Ok (a : A)
  | Raise (e : exn).
Arguments Ok {_} _.
Arguments Raise {_} _.

#[export] Instance result_eq_dec {A} `{EqDecision A} : EqDecision (result A).
Proof. solve_decision. Defined.
#[export] Instance result_ret : MRet result := @Ok.
#[export] Instance result_bind : MBind result := λ A B f m,
  match m with Ok a => f a | Raise e => Raise e end.

Definition raise {A} (c : exn_class) (msg : string) : result A := Raise (Exn c msg).

(** [check b c msg]: the guard [if not b: raise c(msg)]. *)
Definition check (b : bool) (c : exn_class) (msg : string) : result unit :=
  if b then Ok tt else raise c msg.

Definition is_ok {A} (r : result A) : bool := match r with Ok _ => true | Raise _ => false end.

Definition of_option {A} (e : exn) (o : option A) : result A :=
  match o with Some a => Ok a | None => Raise e end.

(** A [for] loop that threads a value and may raise. *)
Fixpoint fold_result {A B} (f : B → A → result B) (b : B) (l : list A) : result B :=
  match l with
  | [] => Ok b
  | a :: l => b' ← f b a; fold_result f b' l
  end.

(** [map] with a function that may raise, left to right. *)
Fixpoint map_result {A B} (f : A → result B) (l : list A) : result (list B) :=
  match l with
  | [] => Ok []
  | a :: l => b ← f a; bs ← map_result f l; Ok (b :: bs)
  end.

(** ** The state-and-error monad

    A method that mutates an object keeps the mutations it made before it
    raised: the state is returned next to the result. *)
Definition M (S A : Type) : Type := S → result A * S.
#[export] Instance M_ret {S} : MRet (M S) := λ A a s, (Ok a, s).
#[export] Instance M_bind {S} : MBind (M S) := λ A B f m s,
  match m s with
  | (Ok a, s') => f a s'
  | (Raise e, s') => (Raise e, s')
  end.

Definition get {S} : M S S := λ s, (Ok s, s).
Definition gets {S A} (f : S → A) : M S A := λ s, (Ok (f s), s).
Definition modify {S} (f : S → S) : M S unit := λ s, (Ok tt, f s).
Definition lift {S A} (r : result A) : M S A := λ s, (r, s).
Definition throw {S A} (c : exn_class) (msg : string) : M S A := lift (raise c msg).
Definition ensure {S} (b : bool) (c : exn_class) (msg : string) : M S unit := lift (check b c msg).

Fixpoint for_each {S A} (l : list A) (body : A → M S unit) : M S unit :=
  match l with
  | [] => mret tt
  | a :: l => body a ;; for_each l body
  end.

(** [while True:] with a body that returns [Some] to leave the loop.  The
    fuel bounds the number of iterations; [while_fuel] below shows when the
    bound is not observable. *)
Fixpoint while_true {S A} (fuel : nat) (body : M S (option A)) : M S A :=
  match fuel with
  | O => throw FuelExhausted "while True"
  | S fuel =>
      r ← body;
      match r with Some a => mret a | None => while_true fuel body end
  end.

(** A database transaction: an exception rolls every write back. *)
Definition transaction {S A} (m : M S A) : M S A := λ s,
  match m s with
  | (Ok a, s') => (Ok a, s')
  | (Raise e, _) => (Raise e, s)
  end.

(** ** Strings

    A Python [str] is a [string] with one [ascii] per character (code points
    below 256).  Non-ASCII literals of the source appear only inside message
    texts that the code never slices. *)
Definition is_py_space (c : ascii) : bool :=
  let n := nat_of_ascii c in
  ((9 <=? n) && (n <=? 13) || (28 <=? n) && (n <=? 32) || (n =? 133) || (n =? 160))%nat.

Definition chars (s : string) : list ascii := String.list_ascii_of_string s.
Definition of_chars (l : list ascii) : string := String.string_of_list_ascii l.

Fixpoint drop_spaces (l : list ascii) : list ascii :=
  match l with
  | c :: l' => if is_py_space c then drop_spaces l' else l
  | [] => []
  end.

(** [str.strip()] *)
Definition strip (s : string) : string :=
  of_chars (reverse (drop_spaces (reverse (drop_spaces (chars s))))).

(** [str.startswith(p)] *)
Fixpoint startswith (p s : list ascii) : bool :=
  match p, s with
  | [], _ => true
  | c :: p, d :: s => bool_decide (c = d) && startswith p s
  | _, [] => false
  end.
Definition str_startswith (p s : string) : bool := startswith (chars p) (chars s).
Definition str_endswith (p s : string) : bool :=
  startswith (reverse (chars p)) (reverse (chars s)).

(** [str.split(sep)] for a one-character separator. *)
Fixpoint split_chars (sep : ascii) (l : list ascii) : list (list ascii) :=
  match l with
  | [] => [[]]
  | c :: l =>
      if decide (c = sep) then [] :: split_chars sep l
      else match split_chars sep l with
           | w :: ws => (c :: w) :: ws
           | [] => [[c]]
           end
  end.
Definition split_on (sep : ascii) (s : string) : list string :=
  of_chars <$> split_chars sep (chars s).

(** [sep.join(parts)] *)
Fixpoint join (sep : string) (parts : list string) : string :=
  match parts with
  | [] => ""
  | [s] => s
  | s :: rest => s +:+ sep +:+ join sep rest
  end.

(** [str.lower()] *)
Definition lower_char (c : ascii) : ascii :=
  let n := nat_of_ascii c in
  if ((65 <=? n) && (n <=? 90) || (192 <=? n) && (n <=? 222) && negb (n =? 215))%nat
  then ascii_of_nat (n + 32) else c.
Definition lower (s : string) : string := of_chars (lower_char <$> chars s).

Definition str_take (n : nat) (s : string) : string := of_chars (take n (chars s)).
Definition str_len (s : string) : nat := length (chars s).
Definition in_string (c : ascii) (s : string) : bool := bool_decide (c ∈ chars s).

(** [sorted(strings)]: Python compares strings by code point. *)
Definition sorted_strings (l : list string) : list string := merge_sort String.le l.

(** [sorted(set)] *)
Definition sorted_set (X : gset string) : list string := sorted_strings (elements X).

(** [str(int)] *)
Definition digit (n : Z) : ascii := ascii_of_nat (48 + Z.to_nat n).
Fixpoint digits (fuel : nat) (n : Z) : list ascii :=
  match fuel with
  | O => []
  | S fuel =>
      if (n <? 10)%Z then [digit n]
      else digits fuel (n / 10) ++ [digit (n mod 10)]
  end.
Definition str_of_nonneg (n : Z) : string := of_chars (digits (S (Z.to_nat (Z.log2 n))) n).
Definition str_of_Z (n : Z) : string :=
  if (n <? 0)%Z then "-" +:+ str_of_nonneg (- n) else str_of_nonneg n.

(** Round to the nearest integer, ties to even. *)
Definition round_half_even (num : Z) (den : positive) : Z :=
  let f := (num / Zpos den)%Z in
  let r := (num mod Zpos den)%Z in
  match (2 * r ?= Zpos den)%Z with
  | Lt => f
  | Gt => (f + 1)%Z
  | Eq => if Z.even f then f else (f + 1)%Z
  end.

(** Python truthiness of [str | None]. *)
Definition truthy (o : option string) : bool :=
  match o with Some s => negb (bool_decide (s = "")) | None => false end.

(** [len(values) == len(set(values))] *)
Definition no_duplicates {A} `{EqDecision A} (l : list A) : bool := bool_decide (NoDup l).

(** The characters of the identifier patterns used across the models. *)
Definition is_alnum (c : ascii) : bool :=
  let n := nat_of_ascii c in
  ((48 <=? n) && (n <=? 57) || (65 <=? n) && (n <=? 90) || (97 <=? n) && (n <=? 122))%nat.
(** [str.isalnum] on Latin-1: letters, digits and numerals. *)
Definition is_latin1_alnum (c : ascii) : bool :=
  let n := nat_of_ascii c in
  is_alnum c
  || bool_decide (n ∈ [170; 178; 179; 181; 185; 186; 188; 189; 190]%nat)
  || ((192 <=? n) && negb (n =? 215) && negb (n =? 247))%nat.
Definition is_id_tail (c : ascii) : bool :=
  is_alnum c || bool_decide (c = ".")%char || bool_decide (c = "_")%char
  || bool_decide (c = "-")%char.

(** [^[A-Za-z0-9][A-Za-z0-9._-]*$] *)
Definition matches_id_pattern (s : string) : bool :=
  match chars s with
  | [] => false
  | c :: l => is_alnum c && forallb is_id_tail l
  end.

(** [^[0-9a-f]{lo,hi}$] and [^[0-9a-fA-F]{lo,hi}$] *)
Definition is_lower_hex (c : ascii) : bool :=
  let n := nat_of_ascii c in
  ((48 <=? n) && (n <=? 57) || (97 <=? n) && (n <=? 102))%nat.
Definition is_any_hex (c : ascii) : bool :=
  let n := nat_of_ascii c in is_lower_hex c || ((65 <=? n) && (n <=? 70))%nat.
Definition hex_string (ok : ascii → bool) (lo hi : nat) (s : string) : bool :=
  ((lo <=? str_len s) && (str_len s <=? hi))%nat && forallb ok (chars s).

(** ** Lemmas and automation *)
Create HintDb devflow.
Create Rewrite HintDb devflow.

Lemma bind_Ok_inv {A B} (m : result A) (f : A → result B) b :
  (m ≫= f) = Ok b → ∃ a, m = Ok a ∧ f a = Ok b.
Proof. destruct m as [a|e]; [intros H; by exists a|done]. Qed.

Lemma bind_Raise_inv {A B} (m : result A) (f : A → result B) e :
  (m ≫= f) = Raise e → m = Raise e ∨ ∃ a, m = Ok a ∧ f a = Raise e.
Proof. destruct m as [a|e']; cbn; [eauto|intros [= ->]; auto]. Qed.

Lemma bind_Ok_intro {A B} (m : result A) (f : A → result B) a r :
  m = Ok a → f a = r → (m ≫= f) = r.
Proof. by intros ->. Qed.

Lemma check_true b c msg : b = true → check b c msg = Ok tt.
Proof. by intros ->. Qed.

Lemma len_between lo n hi : (lo ≤ n ≤ hi)%nat → ((lo <=? n) && (n <=? hi))%nat = true.
Proof. intros [??]. apply andb_true_iff. by split; apply Nat.leb_le. Qed.

Lemma check_false b c msg : b = false → check b c msg = raise c msg.
Proof. by intros ->. Qed.

Lemma check_Ok b c msg u : check b c msg = Ok u → b = true.
Proof. by destruct b. Qed.

Lemma M_bind_Ok_inv {S A B} (m : M S A) (f : A → M S B) s b s' :
  (m ≫= f) s = (Ok b, s') → ∃ a s1, m s = (Ok a, s1) ∧ f a s1 = (Ok b, s').
Proof. unfold mbind, M_bind. destruct (m s) as [[a|e] s1]; [eauto|done]. Qed.

(** Running a sequence step by step. *)
Lemma M_bind_run {S A B} (m : M S A) (f : A → M S B) s a s' :
  m s = (Ok a, s') → (m ≫= f) s = f a s'.
Proof. unfold mbind, M_bind. by intros ->. Qed.
Lemma M_bind_raise {S A B} (m : M S A) (f : A → M S B) s e s' :
  m s = (Raise e, s') → (m ≫= f) s = (Raise e, s').
Proof. unfold mbind, M_bind. by intros ->. Qed.
Lemma lift_run {S A B} (r : result A) (f : A → M S B) a s :
  r = Ok a → (lift r ≫= f) s = f a s.
Proof. by intros ->. Qed.
Lemma lift_raise {S A B} (r : result A) (f : A → M S B) e s :
  r = Raise e → (lift r ≫= f) s = (Raise e, s).
Proof. by intros ->. Qed.
Lemma ensure_run {S B} b c msg (f : unit → M S B) s :
  b = true → (ensure b c msg ≫= f) s = f tt s.
Proof. by intros ->. Qed.
Lemma ensure_raise {S B} b c msg (f : unit → M S B) s :
  b = false → (ensure b c msg ≫= f) s = (Raise (Exn c msg), s).
Proof. by intros ->. Qed.
Lemma get_run {S B} (f : S → M S B) (s : S) : (get ≫= f) s = f s s.
Proof. done. Qed.
Lemma transaction_Ok {S A} (m : M S A) s a s' :
  m s = (Ok a, s') → transaction m s = (Ok a, s').
Proof. unfold transaction. by intros ->. Qed.
Lemma transaction_raise {S A} (m : M S A) s e s' :
  m s = (Raise e, s') → transaction m s = (Raise e, s).
Proof. unfold transaction. by intros ->. Qed.
Lemma transaction_Ok_inv {S A} (m : M S A) s a s' :
  transaction m s = (Ok a, s') → m s = (Ok a, s').
Proof. unfold transaction. destruct (m s) as [[?|?] ?]; congruence. Qed.
Lemma transaction_raise_same {S A} (m : M S A) s e s' :
  transaction m s = (Raise e, s') → s' = s.
Proof. unfold transaction. destruct (m s) as [[?|?] ?]; congruence. Qed.
Lemma lift_Ok_inv {S A} (r : result A) (s : S) a s' : lift r s = (Ok a, s') → r = Ok a ∧ s' = s.
Proof. by intros [= -> ->]. Qed.
Lemma ensure_Ok_inv {S} b c msg (s : S) u s' : ensure b c msg s = (Ok u, s') → b = true ∧ s' = s.
Proof. intros [= H ->]. by apply check_Ok in H. Qed.

(** An operation that leaves the state unchanged when it raises. *)
Definition rolls_back {S A} (m : M S A) : Prop := ∀ s x s', m s = (Raise x, s') → s' = s.
Lemma rolls_back_transaction {S A} (m : M S A) : rolls_back (transaction m).
Proof. intros s x s'. apply transaction_raise_same. Qed.
Lemma rolls_back_lift_bind {S A B} (r : result A) (f : A → M S B) :
  (∀ a, rolls_back (f a)) → rolls_back (lift r ≫= f).
Proof. intros Hf s x s'. destruct r as [a|e]; cbn; [apply Hf|by intros [= _ ->]]. Qed.

(** *** Weakest preconditions

    [wp m Q E s]: run from [s], [m] returns a value and a state in [Q] or
    raises an exception in a state in [E]. *)
Definition wp {S A} (m : M S A) (Q : A → S → Prop) (E : exn → S → Prop) (s : S) : Prop :=
  match m s with
  | (Ok a, s') => Q a s'
  | (Raise e, s') => E e s'
  end.

Section wp.
Context {S : Type}.
Implicit Types (s : S) (E : exn → S → Prop).

Lemma wp_ret {A} (a : A) (Q : A → S → Prop) E s : Q a s → wp (mret a) Q E s.
Proof. done. Qed.
Lemma wp_bind {A B} (m : M S A) (f : A → M S B) Q E s :
  wp m (λ a s', wp (f a) Q E s') E s → wp (m ≫= f) Q E s.
Proof. unfold wp, mbind, M_bind. by destruct (m s) as [[a|e] s']. Qed.
Lemma wp_lift {A} (r : result A) (Q : A → S → Prop) E s :
  match r with Ok a => Q a s | Raise e => E e s end → wp (lift r) Q E s.
Proof. by destruct r. Qed.
Lemma wp_lift_bind {A B} (r : result A) (f : A → M S B) Q E s :
  (∀ a, r = Ok a → wp (f a) Q E s) → (∀ e, r = Raise e → E e s) → wp (lift r ≫= f) Q E s.
Proof. intros Hok Hraise. apply wp_bind, wp_lift. destruct r; auto. Qed.
Lemma wp_get_bind {B} (f : S → M S B) Q E s : wp (f s) Q E s → wp (get ≫= f) Q E s.
Proof. done. Qed.
Lemma wp_modify_bind {B} (g : S → S) (f : unit → M S B) Q E s :
  wp (f tt) Q E (g s) → wp (modify g ≫= f) Q E s.
Proof. done. Qed.
Lemma wp_mono {A} (m : M S A) (Q Q' : A → S → Prop) (E E' : exn → S → Prop) s :
  wp m Q E s → (∀ a s', Q a s' → Q' a s') → (∀ e s', E e s' → E' e s') → wp m Q' E' s.
Proof. unfold wp. destruct (m s) as [[a|e] s']; auto. Qed.
Lemma wp_frame {A} (m : M S A) (Q : A → S → Prop) E s :
  wp m Q E s → wp m (λ a s', m s = (Ok a, s') ∧ Q a s') E s.
Proof. unfold wp. destruct (m s) as [[a|e] s']; auto. Qed.
Lemma wp_run {A} (m : M S A) Q E s a s' : wp m Q E s → m s = (Ok a, s') → Q a s'.
Proof. unfold wp. intros H Hm. by rewrite Hm in H. Qed.
Lemma wp_run_raise {A} (m : M S A) Q E s e s' : wp m Q E s → m s = (Raise e, s') → E e s'.
Proof. unfold wp. intros H Hm. by rewrite Hm in H. Qed.

(** A loop whose body keeps [I] and decreases [μ] returns through the body. *)
Lemma wp_while {A} (I : S → Prop) (μ : S → nat) (body : M S (option A)) Q E fuel s :
  (∀ s, I s → wp body (λ r s', match r with
                               | Some a => Q a s'
                               | None => I s' ∧ μ s' < μ s
                               end) E s) →
  I s → μ s < fuel → wp (while_true fuel body) Q E s.
Proof.
  intros Hbody. revert s. induction fuel as [|fuel IH]; intros s HI Hlt; [lia|].
  cbn. apply wp_bind. eapply wp_mono; [by apply Hbody| |done].
  intros [a|] s' Hs'; [by apply wp_ret|]. destruct Hs' as [HI' Hμ]. apply IH; [done|lia].
Qed.

(** Then the fuel is not observable: any two sufficient amounts give the
    same run. *)
Lemma while_fuel {A} (I : S → Prop) (μ : S → nat) (body : M S (option A)) fuel fuel' s :
  (∀ s, I s → wp body (λ r s', match r with Some _ => True | None => I s' ∧ μ s' < μ s end)
                (λ _ _, True) s) →
  I s → μ s < fuel → μ s < fuel' → while_true fuel body s = while_true fuel' body s.
Proof.
  intros Hbody. revert fuel' s. induction fuel as [|fuel IH]; intros fuel' s HI H1 H2; [lia|].
  destruct fuel' as [|fuel']; [lia|]. cbn.
  specialize (Hbody s HI) as Hs. unfold wp in Hs. unfold mbind, M_bind.
  destruct (body s) as [[[a|]|e] s']; [done| |done].
  destruct Hs as [HI' Hμ]. apply IH; [done|lia|lia].
Qed.
End wp.

(** *** Relations between the states of a run

    [keeps R m]: every run of [m], successful or not, relates its states by [R]. *)
Definition keeps {S A} (R : S → S → Prop) (m : M S A) : Prop := ∀ s, R s (m s).2.

Section keeps.
Context {S : Type} (R : S → S → Prop) `{HR : !PreOrder R}.
Lemma keeps_ret {A} (a : A) : keeps R (mret a).
Proof using HR. intros s. cbn. reflexivity. Qed.
Lemma keeps_lift {A} (r : result A) : keeps R (lift r).
Proof using HR. intros s. cbn. reflexivity. Qed.
Lemma keeps_bind {A B} (m : M S A) (f : A → M S B) :
  keeps R m → (∀ a, keeps R (f a)) → keeps R (m ≫= f).
Proof using HR.
  intros Hm Hf s. unfold mbind, M_bind. specialize (Hm s).
  destruct (m s) as [[a|e] s']; cbn in *; [by etrans; [|apply Hf]|done].
Qed.
Lemma keeps_get : keeps R get.
Proof using HR. intros s. cbn. reflexivity. Qed.
Lemma keeps_modify (g : S → S) : (∀ s, R s (g s)) → keeps R (modify g).
Proof. intros H s. apply H. Qed.
Lemma keeps_transaction {A} (m : M S A) : keeps R m → keeps R (transaction m).
Proof using HR.
  intros Hm s. specialize (Hm s). unfold transaction.
  destruct (m s) as [[a|e] s']; cbn in *; [done|reflexivity].
Qed.
Lemma keeps_for_each {A} (l : list A) (f : A → M S unit) :
  (∀ a, keeps R (f a)) → keeps R (for_each l f).
Proof using HR. intros Hf. induction l as [|a l IH]; cbn; [apply keeps_ret|by apply keeps_bind]. Qed.
End keeps.

(** [keep_steps] goes through the steps of a program and leaves its
    assignments and its calls. *)
Ltac keep_steps :=
  repeat match goal with
    | |- PreOrder _ => typeclasses eauto
    | |- keeps _ (mret _) => apply keeps_ret
    | |- keeps _ (lift _) => apply keeps_lift
    | |- keeps _ (throw _ _) => apply keeps_lift
    | |- keeps _ (ensure _ _ _) => apply keeps_lift
    | |- keeps _ get => apply keeps_get
    | |- keeps _ (for_each _ _) => apply keeps_for_each
    | |- keeps _ (_ ≫= _) => apply keeps_bind
    | |- keeps _ (match ?x with _ => _ end) => destruct x
    | |- keeps _ (let _ := _ in _) => cbv zeta
    | |- keeps _ _ => solve [auto with devflow]
    | |- ∀ _, _ => intros ?
    end.

(** [inv_monad] opens every successful bind of the context. *)
Ltac inv_monad :=
  repeat match goal with
  | H : Ok _ = Ok _ |- _ => injection H as H; subst
  | H : Raise _ = Ok _ |- _ => discriminate H
  | H : Ok _ = Raise _ |- _ => discriminate H
  | H : raise _ _ = Ok _ |- _ => discriminate H
  | H : mret _ = Ok _ |- _ => injection H as H; subst
  | H : check _ _ _ = Ok _ |- _ => apply check_Ok in H
  | H : lift _ _ = (Ok _, _) |- _ => apply lift_Ok_inv in H as [H ->]
  | H : ensure _ _ _ _ = (Ok _, _) |- _ => apply ensure_Ok_inv in H as [H ->]
  | H : get _ = (Ok _, _) |- _ => injection H as <- <-
  | H : transaction _ _ = (Ok _, _) |- _ => apply transaction_Ok_inv in H
  | H : (let '(_, _) := ?p in _) _ = (Ok _, _) |- _ => destruct p
  | H : (let '(_, _) := ?p in _) = Ok _ |- _ => destruct p
  | H : (_ ≫= _) = Ok _ |- _ =>
      let a := fresh "a" in let H1 := fresh "H" in
      apply bind_Ok_inv in H as (a & H1 & H)
  | H : (_ ≫= _) _ = (Ok _, _) |- _ =>
      let a := fresh "a" in let s := fresh "s" in let H1 := fresh "H" in
      apply M_bind_Ok_inv in H as (a & s & H1 & H)
  end.

(** [inv_raise] follows an exception back to the step that raised it. *)
Lemma check_Raise b c msg e : check b c msg = Raise e → e = Exn c msg.
Proof. destruct b; [done|]. by intros [= <-]. Qed.
Ltac inv_raise :=
  repeat match goal with
  | H : Ok _ = Raise _ |- _ => discriminate H
  | H : mret _ = Raise _ |- _ => discriminate H
  | H : raise _ _ = Raise _ |- _ => injection H as <-
  | H : check _ _ _ = Raise _ |- _ => apply check_Raise in H as ->
  | H : (let '(_, _) := ?p in _) = Raise _ |- _ => destruct p
  | H : (_ ≫= _) = Raise _ |- _ =>
      let a := fresh "a" in let H1 := fresh "H" in
      apply bind_Raise_inv in H as [H|(a & H1 & H)]
  end.

Ltac units := repeat match goal with u : unit |- _ => destruct u end.

(** Boolean guards of the source as propositions. *)
Ltac to_prop :=
  repeat match goal with
  | H : bool_decide _ = true |- _ => apply bool_decide_eq_true in H
  | H : bool_decide _ = false |- _ => apply bool_decide_eq_false in H
  | H : negb _ = true |- _ => apply negb_true_iff in H
  | H : negb _ = false |- _ => apply negb_false_iff in H
  | H : (_ && _) = true |- _ => apply andb_true_iff in H as [? ?]
  | H : (_ || _) = false |- _ => apply orb_false_iff in H as [? ?]
  | H : no_duplicates _ = true |- _ => apply bool_decide_eq_true in H
  | H : (_ <=? _)%Z = true |- _ => apply Z.leb_le in H
  | H : (_ <=? _)%Z = false |- _ => apply Z.leb_gt in H
  | H : (_ <? _)%Z = true |- _ => apply Z.ltb_lt in H
  | H : (_ <? _)%Z = false |- _ => apply Z.ltb_ge in H
  | H : (_ =? _)%Z = true |- _ => apply Z.eqb_eq in H
  | H : (_ =? _)%Z = false |- _ => apply Z.eqb_neq in H
  end.

(** Decide a closed decidable proposition by evaluation. *)
Ltac by_compute :=
  match goal with |- ?P => refine (bool_decide_unpack P _); vm_compute; exact I end.


Lemma sorted_strings_perm l : sorted_strings l ≡ₚ l.
Proof. apply merge_sort_Permutation. Qed.

Lemma elem_of_sorted_strings x l : x ∈ sorted_strings l ↔ x ∈ l.
Proof. by rewrite sorted_strings_perm. Qed.

Lemma sorted_strings_sorted l : StronglySorted String.le (sorted_strings l).
Proof. apply StronglySorted_merge_sort; apply _. Qed.

Lemma NoDup_sorted_strings l : NoDup l → NoDup (sorted_strings l).
Proof. by rewrite sorted_strings_perm. Qed.

(** The order of the elements before sorting is irrelevant. *)
Lemma sorted_strings_proper l k : l ≡ₚ k → sorted_strings l = sorted_strings k.
Proof.
  intros Hp. apply (StronglySorted_unique String.le).
  - apply sorted_strings_sorted.
  - apply sorted_strings_sorted.
  - by rewrite !sorted_strings_perm.
Qed.

Lemma elem_of_sorted_set x X : x ∈ sorted_set X ↔ x ∈ X.
Proof. unfold sorted_set. by rewrite elem_of_sorted_strings, elem_of_elements. Qed.

Lemma NoDup_sorted_set X : NoDup (sorted_set X).
Proof. apply NoDup_sorted_strings, NoDup_elements. Qed.

Lemma sorted_set_sorted X : StronglySorted String.le (sorted_set X).
Proof. apply sorted_strings_sorted. Qed.

#[export] Hint Resolve rolls_back_transaction rolls_back_lift_bind : devflow.
#[export] Hint Resolve NoDup_sorted_set sorted_set_sorted sorted_strings_sorted : devflow.
#[export] Hint Rewrite elem_of_sorted_set elem_of_sorted_strings : devflow.

Lemma map_result_Ok {A B} (f : A → result B) l bs :
  map_result f l = Ok bs ↔ Forall2 (λ a b, f a = Ok b) l bs.
Proof.
  revert bs. induction l as [|a l IH]; intros bs; cbn.
  - split; [intros [= <-]; constructor|]. by inversion 1.
  - split.
    + intros H. inv_monad. constructor; [done|]. by apply IH.
    + inversion 1 as [|? b ? bs' Hb Hbs]; subst. rewrite Hb. cbn.
      by rewrite (proj2 (IH bs') Hbs).
Qed.

Lemma StronglySorted_sublist {A} (R : relation A) l k :
  l `sublist_of` k → StronglySorted R k → StronglySorted R l.
Proof.
  induction 1 as [|x l k Hs IH|x l k Hs IH]; intros H; [done| |].
  - inversion H as [|? ? Hk Hx]; subst. constructor; [by apply IH|].
    apply Forall_forall. intros y Hy. rewrite Forall_forall in Hx. apply Hx.
    by eapply elem_of_submseteq, sublist_submseteq.
  - inversion H; subst. by apply IH.
Qed.

Lemma filter_sublist {A} (P : A → Prop) `{∀ x, Decision (P x)} l k :
  l `sublist_of` k → filter P l `sublist_of` filter P k.
Proof.
  induction 1 as [|x l k _ IH|x l k _ IH]; [done| |]; destruct (decide (P x)) as [Hx|Hx].
  - rewrite !filter_cons_True by done. by apply sublist_skip.
  - by rewrite !filter_cons_False by done.
  - rewrite filter_cons_True by done. by apply sublist_cons.
  - by rewrite filter_cons_False by done.
Qed.

(** [strip] is idempotent. *)
Lemma drop_spaces_head l : match drop_spaces l with c :: _ => is_py_space c = false | [] => True end.
Proof. induction l as [|c l IH]; cbn; [done|]. by destruct (is_py_space c) eqn:?. Qed.

Lemma drop_spaces_fixed l :
  match l with c :: _ => is_py_space c = false | [] => True end → drop_spaces l = l.
Proof. destruct l as [|c l]; cbn; [done|]. by intros ->. Qed.

Lemma drop_spaces_suffix l : ∃ p, l = p ++ drop_spaces l.
Proof.
  induction l as [|c l [p IH]]; cbn; [by exists []|].
  destruct (is_py_space c); [|by exists []]. exists (c :: p). cbn. by rewrite IH at 1.
Qed.

Lemma startswith_prefix p l : startswith p l = true ↔ ∃ k, l = p ++ k.
Proof.
  revert l. induction p as [|c p IH]; intros l; cbn; [split; [by exists l|done]|].
  destruct l as [|d l]; [split; [done|by intros (k & ?)]|].
  rewrite andb_true_iff, bool_decide_eq_true, IH. split.
  - intros (-> & k & ->). by exists k.
  - intros (k & [= -> ->]). eauto.
Qed.
Lemma chars_of_chars l : chars (of_chars l) = l.
Proof. apply String.list_ascii_of_string_of_list_ascii. Qed.

Lemma of_chars_chars s : of_chars (chars s) = s.
Proof. apply String.string_of_list_ascii_of_string. Qed.

Lemma strip_idemp s : strip (strip s) = strip s.
Proof.
  unfold strip. rewrite chars_of_chars. f_equal. f_equal.
  set (l := drop_spaces (chars s)).
  assert (Hl : drop_spaces (reverse (drop_spaces (reverse l))) = reverse (drop_spaces (reverse l))).
  { apply drop_spaces_fixed.
    destruct (drop_spaces_suffix (reverse l)) as [p Hp].
    assert (Hrev : l = reverse (drop_spaces (reverse l)) ++ reverse p).
    { rewrite <- reverse_app, <- Hp. by rewrite reverse_involutive. }
    destruct (reverse (drop_spaces (reverse l))) as [|c r]; [done|].
    pose proof (drop_spaces_head (chars s)) as Hh. fold l in Hh. by rewrite Hrev in Hh. }
  rewrite Hl, reverse_involutive.
  apply drop_spaces_fixed, drop_spaces_head.
Qed.
#[export] Hint Rewrite strip_idemp chars_of_chars of_chars_chars : devflow.

(** ** Lengths *)
Lemma str_len_app s1 s2 : str_len (s1 +:+ s2) = (str_len s1 + str_len s2)%nat.
Proof.
  unfold str_len, chars. induction s1 as [|c s1 IH]; cbn; [done|]. by rewrite <- IH.
Qed.

Lemma chars_app a b : chars (a +:+ b) = chars a ++ chars b.
Proof. unfold chars. induction a as [|c a IH]; cbn; [done|]. by rewrite <- IH. Qed.
Lemma str_app_assoc a b c : (a +:+ b) +:+ c = a +:+ b +:+ c.
Proof.
  induction a as [|x a IH]; [done|].
  change (String x ((a +:+ b) +:+ c) = String x (a +:+ b +:+ c)). by rewrite IH.
Qed.

Lemma str_len_of_chars l : str_len (of_chars l) = length l.
Proof. unfold str_len. by rewrite chars_of_chars. Qed.

Lemma length_digits fuel n : (length (digits fuel n) ≤ fuel)%nat.
Proof.
  revert n. induction fuel as [|fuel IH]; intros n; cbn; [lia|].
  destruct (n <? 10)%Z; [cbn; lia|]. rewrite length_app. specialize (IH (n / 10)%Z). cbn. lia.
Qed.

(** A 32-bit integer prints in at most 33 characters. *)
Lemma str_len_str_of_Z n : (-2147483648 <= n <= 2147483647)%Z → (str_len (str_of_Z n) ≤ 33)%nat.
Proof.
  assert (∀ m, (0 <= m <= 2147483648)%Z → (str_len (str_of_nonneg m) ≤ 32)%nat) as H.
  { intros m Hm. unfold str_of_nonneg. rewrite str_len_of_chars.
    etrans; [apply length_digits|].
    assert (Z.log2 m <= Z.log2 2147483648)%Z by (apply Z.log2_le_mono; lia).
    change (Z.log2 2147483648) with 31%Z in *. lia. }
  intros Hn. unfold str_of_Z. destruct (n <? 0)%Z eqn:Hneg; to_prop.
  - rewrite str_len_app. change (str_len "-") with 1%nat. specialize (H (- n)%Z ltac:(lia)). lia.
  - specialize (H n ltac:(lia)). lia.
Qed.

Lemma str_len_join sep l :
  (str_len (join sep l) ≤ sum_list_with (λ s, str_len s + str_len sep)%nat l)%nat.
Proof.
  induction l as [|s [|s' l] IH]; [done|cbn -[str_len]; lia|].
  change (join sep (s :: s' :: l)) with (s +:+ sep +:+ join sep (s' :: l)).
  rewrite !str_len_app. cbn [sum_list_with] in *. lia.
Qed.

(** A non-empty finite set in which every element has a predecessor contains
    a cycle. *)
Lemma finite_cycle {A} `{Countable A} (X : gset A) :
  ∀ R : relation A,
  X ≠ ∅ → (∀ x, x ∈ X → ∃ y, y ∈ X ∧ R y x) → ∃ z, z ∈ X ∧ tc R z z.
Proof.
  induction (set_wf X) as [X _ IH]. intros R HX Hpred.
  apply set_choose_L in HX as [x Hx].
  destruct (Hpred x Hx) as (w & Hw & Hwx).
  destruct (decide (w = x)) as [->|Hne]; [exists x; split; [done|by apply tc_once]|].
  destruct (IH (X ∖ {[x]})) with (R := λ y z, R y z ∨ (R y x ∧ R x z)) as (z & Hz & Hcyc).
  - split; [set_solver|]. intros Hs. specialize (Hs x Hx). set_solver.
  - intros He. apply (not_elem_of_empty (C:=gset A) w). rewrite <- He. set_solver.
  - intros z Hz. destruct (Hpred z) as (y & Hy & Hyz); [set_solver|].
    destruct (decide (y = x)) as [->|].
    + exists w. split; [set_solver|by right].
    + exists y. split; [set_solver|by left].
  - exists z. split; [set_solver|].
    enough (Hsub : ∀ a b, tc (λ y z, R y z ∨ (R y x ∧ R x z)) a b → tc R a b) by auto.
    clear. induction 1 as [a b Hab|a b c Hab _ IH].
    + destruct Hab as [?|[? ?]]; [by apply tc_once|by eapply tc_l, tc_once].
    + destruct Hab as [?|[? ?]]; [by eapply tc_l|by eapply tc_l, tc_l].
Qed.

(** The keys of a filtered dict are unique. *)
Lemma NoDup_filter_keys {A} (P : string * A → Prop) `{∀ x, Decision (P x)} (m : gmap string A) :
  NoDup (fst <$> filter P (map_to_list m)).
Proof.
  apply (sublist_NoDup _ (fst <$> map_to_list m)); [apply NoDup_fst_map_to_list|].
  apply fmap_sublist, sublist_filter.
Qed.
#[export] Hint Resolve NoDup_filter_keys : devflow.

(** [not any(...)] *)
Lemma existsb_false_forall {A} (f : A → bool) l :
  existsb f l = false ↔ ∀ a, a ∈ l → f a = false.
Proof.
  induction l as [|b l IH]; cbn; [by split; [intros _ a ?%not_elem_of_nil|]|].
  rewrite orb_false_iff, IH. split.
  - intros [Hb Hl] a [->|Ha]%elem_of_cons; auto.
  - intros H. split; [apply H; by left|intros a Ha; apply H; by right].
Qed.

Lemma NoDup_fmap_eq {A B} (f : A → B) (l : list A) a b :
  NoDup (f <$> l) → a ∈ l → b ∈ l → f a = f b → a = b.
Proof.
  induction l as [|x l IH]; [intros _ Ha; by apply not_elem_of_nil in Ha|].
  cbn. rewrite NoDup_cons. intros [Hx Hl] Ha Hb Hf.
  apply elem_of_cons in Ha as [->|Ha], Hb as [->|Hb]; auto.
  - destruct Hx. rewrite Hf. by apply list_elem_of_fmap_2.
  - destruct Hx. rewrite <- Hf. by apply list_elem_of_fmap_2.
Qed.

(** What every step keeps holds at the end of a fold. *)
Lemma fold_result_inv {A B} (P : B → Prop) (f : B → A → result B) (l : list A) b b' :
  (∀ b a b', a ∈ l → P b → f b a = Ok b' → P b') → P b → fold_result f b l = Ok b' → P b'.
Proof.
  revert b. induction l as [|a l IH]; intros b Hstep Hb; cbn [fold_result]; [by intros [= <-]|].
  intros (b1 & Hf & H)%bind_Ok_inv. eapply IH; [|eapply Hstep; [by left|exact Hb|exact Hf]|exact H].
  intros x y z Hy. apply Hstep. by right.
Qed.

(** *** Lists of results *)
Lemma map_result_each {A B} (f : A → result B) (l : list A) :
  (∀ a, a ∈ l → ∃ b, f a = Ok b) → ∃ bs, map_result f l = Ok bs ∧ Forall2 (λ a b, f a = Ok b) l bs.
Proof.
  intros Hl. enough (∃ bs, Forall2 (λ a b, f a = Ok b) l bs) as (bs & Hbs).
  { exists bs. split; [by apply map_result_Ok|done]. }
  induction l as [|a l IH]; [by exists []|]. destruct (Hl a) as [b Hb]; [by left|].
  destruct IH as [bs Hbs]; [intros x Hx; apply Hl; by right|]. exists (b :: bs). by constructor.
Qed.
(** Checks in a row: either all pass, or one raises. *)
Definition checks {A} (c : exn_class) (f : A → result unit) : Prop :=
  ∀ a, f a = Ok tt ∨ ∃ msg, f a = raise c msg.
Lemma fold_checks {A} c (f : A → result unit) l : checks c f →
  (fold_result (λ _, f) tt l = Ok tt ∧ ∀ a, a ∈ l → f a = Ok tt)
  ∨ (∃ msg, fold_result (λ _, f) tt l = raise c msg) ∧ ∃ a, a ∈ l ∧ f a ≠ Ok tt.
Proof.
  intros Hf. induction l as [|a l IH]; cbn; [left; split; [done|by intros a ?%elem_of_nil]|].
  destruct (Hf a) as [Ha|[msg Ha]]; rewrite Ha; cbn.
  - destruct IH as [[Hl Hall]|[[msg Hl] (b & Hb & Hn)]]; [left|right].
    + split; [done|]. intros b [->|Hb]%elem_of_cons; auto.
    + split; [by exists msg|]. exists b. split; [by right|done].
  - right. split; [by exists msg|]. exists a. split; [by left|]. by rewrite Ha.
Qed.
Lemma checks_bind {A} c (f g : A → result unit) : checks c f → checks c g → checks c (λ a, f a ;; g a).
Proof.
  intros Hf Hg a. destruct (Hf a) as [->|[msg ->]]; cbn; [apply Hg|right; by exists msg].
Qed.

Lemma map_result_raises {A B} c (f : A → result B) (l : list A) a :
  (∀ a, (∃ b, f a = Ok b) ∨ ∃ msg, f a = raise c msg) → a ∈ l → (∀ b, f a ≠ Ok b) →
  ∃ msg, map_result f l = raise c msg.
Proof.
  intros Hf Ha Hn. induction l as [|x l IH]; [by apply not_elem_of_nil in Ha|]. cbn.
  destruct (Hf x) as [[b Hb]|[msg Hb]]; rewrite Hb; cbn; [|by exists msg].
  apply elem_of_cons in Ha as [<-|Ha]; [by destruct (Hn b)|]. destruct (IH Ha) as [msg ->]. by exists msg.
Qed.

(** A text with a character that is no white space is not blank. *)
Lemma drop_spaces_keeps c l : c ∈ l → is_py_space c = false → c ∈ drop_spaces l.
Proof.
  intros Hc Hs. induction l as [|d l IH]; [by apply not_elem_of_nil in Hc|]. cbn.
  destruct (is_py_space d) eqn:Hd; [|done]. apply elem_of_cons in Hc as [->|Hc]; [congruence|auto].
Qed.
Lemma strip_nonempty c s : c ∈ chars s → is_py_space c = false → strip s ≠ "".
Proof.
  intros Hc Hs Hn. apply (f_equal chars) in Hn. unfold strip in Hn. rewrite chars_of_chars in Hn.
  assert (c ∈ chars "") as Hx; [|by apply not_elem_of_nil in Hx]. rewrite <- Hn. apply elem_of_reverse.
  apply drop_spaces_keeps; [|done]. apply elem_of_reverse. by apply drop_spaces_keeps.
Qed.
