(* ===== verification/Contracts.v ===== *)
(** * Contracts: the validated value types every component exchanges

    [models/task.py] (the execution contract of a task), [models/failure.py]
    (normalised failure evidence), and the planning and checkpoint facts a
    task node carries ([models/work_package.py], [models/checkpoint.py],
    [models/context.py]).  A [*_new] function is the Pydantic constructor: it
    normalises its fields and raises [ValidationError]. *)
From stdpp Require Import options.
From S2P Require Import Prelude.

Definition invalid {A} (msg : string) : result A := raise ValidationError msg.
Definition valid_if (b : bool) (msg : string) : result unit := check b ValidationError msg.

(** A UUID, as its 128-bit integer. *)
Definition UUID := N.

(** ** [models/task.py] *)
Definition _normalize_scope_pattern (value : string) : result string :=
  let pattern := strip value in
  valid_if (negb (bool_decide (pattern = ""))) "scope patterns must not be empty" ;;
  valid_if (negb (str_startswith "/" pattern || str_startswith "\" pattern))
    "scope patterns must be repository-relative" ;;
  valid_if (negb (in_string "\"%char pattern))
    "scope patterns must use POSIX-style '/' separators" ;;
  valid_if (negb (bool_decide (chars pattern !! 1%nat = Some ":"%char)))
    "scope patterns must not contain Windows drive prefixes" ;;
  valid_if (negb (existsb (λ part, bool_decide (part = "..")) (split_on "/"%char pattern)))
    "scope patterns must not traverse outside the repository" ;;
  valid_if (negb (bool_decide (pattern = ".")))
    "scope patterns must identify files or subdirectories" ;;
  Ok pattern.

Definition _normalize_non_empty_text (value : string) : result string :=
  let normalized := strip value in
  valid_if (negb (bool_decide (normalized = ""))) "value must not be empty" ;;
  Ok normalized.

Record TaskContract : Set := {
  tc_task_id : string;
  tc_objective : string;
  tc_readable_files : list string;
  tc_writable_files : list string;
  tc_readonly_files : list string;
  tc_acceptance_criteria : list string;
  tc_verification_commands : list string;
  tc_max_retries : Z;
}.

#[export] Instance TaskContract_eq_dec : EqDecision TaskContract.
Proof. solve_decision. Defined.

Definition validate_scope_patterns (values : list string) : result (list string) :=
  normalized ← map_result _normalize_scope_pattern values;
  valid_if (no_duplicates normalized) "scope patterns must not contain duplicates" ;;
  Ok normalized.

Definition validate_non_empty_items (values : list string) : result (list string) :=
  normalized ← map_result _normalize_non_empty_text values;
  valid_if (no_duplicates normalized) "list items must not contain duplicates" ;;
  Ok normalized.

Definition min_length {A} (n : nat) (l : list A) : bool := (n <=? length l)%nat.

(** [validate_scope_boundaries] *)
Definition validate_scope_boundaries (self : TaskContract) : result TaskContract :=
  let overlap := (list_to_set (tc_writable_files self) : gset string)
                 ∩ list_to_set (tc_readonly_files self) in
  valid_if (bool_decide (overlap = ∅))
    ("writable_files and readonly_files overlap: " +:+ join ", " (sorted_set overlap)) ;;
  Ok self.

(** [TaskContract(...)]: field constraints, field validators, model validator. *)
Definition TaskContract_new (raw : TaskContract) : result TaskContract :=
  valid_if (((1 <=? str_len (tc_task_id raw)) && (str_len (tc_task_id raw) <=? 128))%nat
            && matches_id_pattern (tc_task_id raw)) "task_id" ;;
  valid_if ((1 <=? str_len (tc_objective raw)) && (str_len (tc_objective raw) <=? 4000))%nat
    "objective" ;;
  objective ← _normalize_non_empty_text (tc_objective raw);
  readable ← validate_scope_patterns (tc_readable_files raw);
  valid_if (min_length 1 (tc_writable_files raw)) "writable_files" ;;
  writable ← validate_scope_patterns (tc_writable_files raw);
  readonly ← validate_scope_patterns (tc_readonly_files raw);
  valid_if (min_length 1 (tc_acceptance_criteria raw)) "acceptance_criteria" ;;
  criteria ← validate_non_empty_items (tc_acceptance_criteria raw);
  valid_if (min_length 1 (tc_verification_commands raw)) "verification_commands" ;;
  commands ← validate_non_empty_items (tc_verification_commands raw);
  valid_if ((0 <=? tc_max_retries raw) && (tc_max_retries raw <=? 5))%Z "max_retries" ;;
  validate_scope_boundaries {|
    tc_task_id := tc_task_id raw;
    tc_objective := objective;
    tc_readable_files := readable;
    tc_writable_files := writable;
    tc_readonly_files := readonly;
    tc_acceptance_criteria := criteria;
    tc_verification_commands := commands;
    tc_max_retries := tc_max_retries raw;
  |}.

(** ** [models/failure.py] *)
Inductive FailureType : Set :=
  | MODEL_TIMEOUT | AGENT_TIME_LIMIT | RATE_LIMIT | INVALID_AGENT_OUTPUT
  | INVALID_TOOL_ARGUMENTS | PROVIDER_REQUEST_REJECTED | TOOL_FAILURE
  | SCOPE_VIOLATION | TEST_FAILURE | LINT_FAILURE | REVIEW_REJECTED
  | CONTEXT_OVERFLOW | MERGE_CONFLICT | SANDBOX_TIMEOUT
  | VERIFICATION_ENV_UNAVAILABLE | TOKEN_BUDGET_EXHAUSTED
  | WORK_PACKAGE_BUDGET_ALLOCATION_BLOCKED | INTERFACE_CONTRACT_UNMET.
#[export] Instance FailureType_eq_dec : EqDecision FailureType.
Proof. solve_decision. Defined.

Inductive FailureSource : Set := PROVIDER | TOOL | VERIFICATION | REVIEW | RUNTIME.
#[export] Instance FailureSource_eq_dec : EqDecision FailureSource.
Proof. solve_decision. Defined.

(** The [StrEnum] values. *)
Definition FailureType_value (t : FailureType) : string :=
  match t with
  | MODEL_TIMEOUT => "MODEL_TIMEOUT"
  | AGENT_TIME_LIMIT => "AGENT_TIME_LIMIT"
  | RATE_LIMIT => "RATE_LIMIT"
  | INVALID_AGENT_OUTPUT => "INVALID_AGENT_OUTPUT"
  | INVALID_TOOL_ARGUMENTS => "INVALID_TOOL_ARGUMENTS"
  | PROVIDER_REQUEST_REJECTED => "PROVIDER_REQUEST_REJECTED"
  | TOOL_FAILURE => "TOOL_FAILURE"
  | SCOPE_VIOLATION => "SCOPE_VIOLATION"
  | TEST_FAILURE => "TEST_FAILURE"
  | LINT_FAILURE => "LINT_FAILURE"
  | REVIEW_REJECTED => "REVIEW_REJECTED"
  | CONTEXT_OVERFLOW => "CONTEXT_OVERFLOW"
  | MERGE_CONFLICT => "MERGE_CONFLICT"
  | SANDBOX_TIMEOUT => "SANDBOX_TIMEOUT"
  | VERIFICATION_ENV_UNAVAILABLE => "VERIFICATION_ENV_UNAVAILABLE"
  | TOKEN_BUDGET_EXHAUSTED => "TOKEN_BUDGET_EXHAUSTED"
  | WORK_PACKAGE_BUDGET_ALLOCATION_BLOCKED => "WORK_PACKAGE_BUDGET_ALLOCATION_BLOCKED"
  | INTERFACE_CONTRACT_UNMET => "INTERFACE_CONTRACT_UNMET"
  end.
Definition FailureSource_value (s : FailureSource) : string :=
  match s with
  | PROVIDER => "provider"
  | TOOL => "tool"
  | VERIFICATION => "verification"
  | REVIEW => "review"
  | RUNTIME => "runtime"
  end.

Record FailureReport : Set := {
  failure_type : FailureType;
  source : FailureSource;
  message : string;
  retryable : bool;
  evidence : list string;
}.
#[export] Instance FailureReport_eq_dec : EqDecision FailureReport.
Proof. solve_decision. Defined.

Definition normalize_message (value : string) : result string :=
  let normalized := strip value in
  valid_if (negb (bool_decide (normalized = ""))) "failure message must not be empty" ;;
  Ok normalized.

Definition normalize_evidence (values : list string) : result (list string) :=
  let normalized := strip <$> values in
  valid_if (negb (existsb (λ v, bool_decide (v = "")) normalized))
    "failure evidence entries must not be empty" ;;
  Ok normalized.

(** [FailureReport(...)] *)
Definition FailureReport_new (raw : FailureReport) : result FailureReport :=
  valid_if ((1 <=? str_len (message raw)) && (str_len (message raw) <=? 4000))%nat "message" ;;
  msg ← normalize_message (message raw);
  ev ← normalize_evidence (evidence raw);
  Ok {| failure_type := failure_type raw; source := source raw; message := msg;
        retryable := retryable raw; evidence := ev |}.

(** ** [models/work_package.py]: planning facts carried by a task node *)
Inductive PlanningComplexity : Set := LOW | MEDIUM | HIGH.
#[export] Instance PlanningComplexity_eq_dec : EqDecision PlanningComplexity.
Proof. solve_decision. Defined.

Record TaskBudgetAllocation : Set := {
  tba_package_id : string;
  tba_recommended_token_budget : Z;
}.
Record PlanningComplexityAssessment : Set := {
  pca_package_id : string;
  pca_complexity : PlanningComplexity;
  pca_score : Z;
  pca_reasons : list string;
}.

(** ** [models/workflow.py] *)
Inductive WorkflowExecutionMode : Set := WORKFLOW | AGENT | HYBRID.
#[export] Instance WorkflowExecutionMode_eq_dec : EqDecision WorkflowExecutionMode.
Proof. solve_decision. Defined.

(** ** [models/context.py] and [models/checkpoint.py] *)
Record ContextFileDigest : Set := { cfd_path : string; cfd_source_sha256 : string }.

Record ContextContinuationState : Set := {
  ccs_summary_version : string;
  ccs_repository_head : string;
  ccs_read_files : list ContextFileDigest;
  ccs_changed_files : list string;
  ccs_changed_file_hashes : list ContextFileDigest;
  ccs_completed_summary : string;
  ccs_remaining_summary : string;
  ccs_verification_summary : string;
  ccs_failure_summary : string;
}.

Inductive CheckpointResumeStrategy : Set := CONTINUE_DEVELOPMENT | VERIFY_THEN_REPAIR.

Record TaskResumeContext : Set := {
  trc_source_run_id : UUID;
  trc_checkpoint_commit_sha : string;
  trc_strategy : CheckpointResumeStrategy;
  trc_context_state : option ContextContinuationState;
  trc_verification_summary : string;
  trc_failure_summary : string;
  trc_remaining_summary : string;
}.

(** ** Lemmas *)

Lemma valid_if_Ok b msg u : valid_if b msg = Ok u → b = true.
Proof. apply check_Ok. Qed.

Lemma valid_if_true b msg : b = true → valid_if b msg = Ok tt.
Proof. apply check_true. Qed.

Lemma valid_if_false b msg : b = false → valid_if b msg = invalid msg.
Proof. by intros ->. Qed.

Lemma raises_iff_false b msg e : valid_if b msg = Raise e → b = false.
Proof. by destruct b. Qed.

(** Open a successful validation: every guard held. *)
Ltac inv_valid :=
  repeat (inv_monad;
          match goal with H : valid_if _ _ = Ok _ |- _ => apply valid_if_Ok in H end);
  inv_monad.

(** What an accepted pattern looks like. *)
Record safe_pattern (p : string) : Prop := {
  sp_stripped : strip p = p;
  sp_nonempty : p ≠ "";
  sp_relative : str_startswith "/" p = false;
  sp_posix : in_string "\"%char p = false;
  sp_no_parent : ".." ∉ split_on "/"%char p;
}.

Lemma normalize_scope_pattern_safe v p :
  _normalize_scope_pattern v = Ok p → safe_pattern p ∧ p = strip v.
Proof.
  unfold _normalize_scope_pattern. intros H. inv_valid. to_prop. split; [|done].
  split; [apply strip_idemp|done..|].
  intros Hin.
  assert (Hex : existsb (λ part, bool_decide (part = "..")) (split_on "/"%char (strip v)) = true).
  { apply existsb_exists. exists "..". split; [by apply list_elem_of_In|done]. }
  congruence.
Qed.

Lemma normalize_scope_pattern_fixed v p :
  _normalize_scope_pattern v = Ok p → _normalize_scope_pattern p = Ok p.
Proof.
  intros H. destruct (normalize_scope_pattern_safe _ _ H) as [_ ->].
  revert H. unfold _normalize_scope_pattern. by rewrite strip_idemp.
Qed.

Lemma normalize_text_fixed v p :
  _normalize_non_empty_text v = Ok p → _normalize_non_empty_text p = Ok p ∧ p = strip v.
Proof.
  unfold _normalize_non_empty_text. intros H.
  assert (p = strip v) as ->. { by inv_valid. }
  by rewrite strip_idemp, H.
Qed.

(** A normaliser whose results are fixed points maps lists to fixed points. *)
Lemma map_result_fixed {A} (f : A → result A) l k :
  (∀ a b, f a = Ok b → f b = Ok b) → map_result f l = Ok k → map_result f k = Ok k.
Proof.
  intros Hf Hl. apply map_result_Ok in Hl. apply map_result_Ok.
  induction Hl; constructor; eauto.
Qed.

Lemma validate_scope_patterns_fixed l k :
  validate_scope_patterns l = Ok k → validate_scope_patterns k = Ok k.
Proof.
  unfold validate_scope_patterns. intros H. inv_valid.
  rewrite (map_result_fixed _ _ _ normalize_scope_pattern_fixed H0). cbn.
  by rewrite H1.
Qed.

Lemma validate_non_empty_items_fixed l k :
  validate_non_empty_items l = Ok k → validate_non_empty_items k = Ok k.
Proof.
  unfold validate_non_empty_items. intros H. inv_valid.
  erewrite map_result_fixed; [|intros v w Hvw; by apply (normalize_text_fixed v)|done].
  cbn. by rewrite H1.
Qed.

Lemma validate_scope_patterns_safe l k :
  validate_scope_patterns l = Ok k → NoDup k ∧ Forall safe_pattern k ∧ length k = length l.
Proof.
  unfold validate_scope_patterns. intros H. inv_valid. to_prop.
  apply map_result_Ok in H0. split; [done|]. split; [|by erewrite <- Forall2_length].
  clear H1. induction H0 as [|? ? ? ? Hx]; constructor; [|done].
  by apply normalize_scope_pattern_safe in Hx as [? _].
Qed.

Lemma length_drop_spaces l : (length (drop_spaces l) ≤ length l)%nat.
Proof. destruct (drop_spaces_suffix l) as [p Hp]. rewrite Hp at 2. rewrite length_app. lia. Qed.

Lemma str_len_strip s : (str_len (strip s) ≤ str_len s)%nat.
Proof.
  unfold str_len, strip. rewrite chars_of_chars, length_reverse.
  etrans; [apply length_drop_spaces|]. rewrite length_reverse. apply length_drop_spaces.
Qed.

Lemma str_len_nonempty s : s ≠ "" → (1 ≤ str_len s)%nat.
Proof. destruct s; [done|]. cbn. lia. Qed.

Lemma normalize_text_nonempty v p : _normalize_non_empty_text v = Ok p → p ≠ "".
Proof. unfold _normalize_non_empty_text. intros H. inv_valid. by to_prop. Qed.

Lemma validate_non_empty_items_length l k :
  validate_non_empty_items l = Ok k → NoDup k ∧ length k = length l.
Proof.
  unfold validate_non_empty_items. intros H. inv_valid. to_prop.
  apply map_result_Ok, Forall2_length in H0. by split.
Qed.

Lemma normalized_objective_bounds v p :
  ((1 <=? str_len v) && (str_len v <=? 4000))%nat = true →
  _normalize_non_empty_text v = Ok p →
  ((1 <=? str_len p) && (str_len p <=? 4000))%nat = true.
Proof.
  intros Hb Hp. destruct (normalize_text_fixed _ _ Hp) as [_ Heq].
  pose proof (str_len_nonempty _ (normalize_text_nonempty _ _ Hp)).
  pose proof (str_len_strip v). rewrite <- Heq in *.
  apply andb_true_iff in Hb as [? ?%Nat.leb_le].
  apply andb_true_iff. split; apply Nat.leb_le; lia.
Qed.

Lemma min_length_same {A B} n (l : list A) (k : list B) :
  length k = length l → min_length n l = true → min_length n k = true.
Proof. unfold min_length. by intros ->. Qed.

(** The shape of every accepted contract. *)
Record contract_wf (t : TaskContract) : Prop := {
  cw_task_id : matches_id_pattern (tc_task_id t) = true;
  cw_writable : tc_writable_files t ≠ [] ∧ NoDup (tc_writable_files t)
                ∧ Forall safe_pattern (tc_writable_files t);
  cw_readonly : NoDup (tc_readonly_files t) ∧ Forall safe_pattern (tc_readonly_files t);
  cw_readable : NoDup (tc_readable_files t) ∧ Forall safe_pattern (tc_readable_files t);
  cw_disjoint : ∀ p, p ∈ tc_writable_files t → p ∉ tc_readonly_files t;
  cw_retries : (0 ≤ tc_max_retries t ≤ 5)%Z;
}.

Lemma validate_scope_boundaries_Ok t u :
  validate_scope_boundaries t = Ok u →
  u = t ∧ ∀ p, p ∈ tc_writable_files t → p ∉ tc_readonly_files t.
Proof.
  unfold validate_scope_boundaries. intros H. inv_valid. to_prop.
  split; [done|]. intros p Hw Hr. eapply (not_elem_of_empty (C:=gset string) p).
  rewrite <- H0. apply elem_of_intersection. by rewrite !elem_of_list_to_set.
Qed.

Lemma min_length_nonempty {A} (l : list A) : min_length 1 l = true → l ≠ [].
Proof. by destruct l. Qed.

(** C40.  The constructor accepts only contracts that are well formed:
    identifier syntax, repository-relative scope patterns without ".." or
    duplicates, at least one writable pattern, writable and read-only scopes
    disjoint, at most five retries. *)
Theorem TaskContract_new_wf raw t : TaskContract_new raw = Ok t → contract_wf t.
Proof.
  unfold TaskContract_new. intros H. inv_valid. to_prop.
  apply validate_scope_boundaries_Ok in H as [-> Hdisj].
  repeat match goal with
  | H : validate_scope_patterns _ = Ok _ |- _ =>
      apply validate_scope_patterns_safe in H as (? & ? & ?)
  | H : min_length 1 _ = true |- _ => apply min_length_nonempty in H
  end.
  split; cbn in *; try done.
  split_and!; try done. intros ->. by destruct (tc_writable_files raw).
Qed.

(** Normalisation is stable: an accepted contract is accepted again and
    is not changed by a second validation (a contract survives being stored
    and reloaded). *)
Theorem TaskContract_new_stable raw t : TaskContract_new raw = Ok t → TaskContract_new t = Ok t.
Proof.
  unfold TaskContract_new. intros H. inv_valid.
  pose proof (validate_scope_boundaries_Ok _ _ H) as [-> _].
  cbn [tc_task_id tc_objective tc_readable_files tc_writable_files tc_readonly_files
       tc_acceptance_criteria tc_verification_commands tc_max_retries].
  repeat match goal with
  | Hb : (_ && _)%nat = true, Hn : _normalize_non_empty_text ?x = Ok ?y |- _ =>
      assert_fails (constr_eq x y);
      pose proof (normalized_objective_bounds _ _ Hb Hn);
      apply normalize_text_fixed in Hn as [Hn _]
  | Hv : validate_scope_patterns ?x = Ok ?y |- _ =>
      assert_fails (constr_eq x y);
      pose proof (proj2 (proj2 (validate_scope_patterns_safe _ _ Hv)));
      apply validate_scope_patterns_fixed in Hv
  | Hv : validate_non_empty_items ?x = Ok ?y |- _ =>
      assert_fails (constr_eq x y);
      pose proof (proj2 (validate_non_empty_items_length _ _ Hv));
      apply validate_non_empty_items_fixed in Hv
  end.
  repeat first
    [ exact H
    | eapply bind_Ok_intro;
      [eassumption || (apply valid_if_true; eauto using min_length_same)|cbv beta] ].
Qed.

(** ** A concrete contract *)
Definition raw_contract : TaskContract := {|
  tc_task_id := "task-1";
  tc_objective := "  implement the parser ";
  tc_readable_files := ["src/**"; " docs/*.md "];
  tc_writable_files := [" src/parser.py"];
  tc_readonly_files := ["src/lexer.py"];
  tc_acceptance_criteria := ["tests pass"];
  tc_verification_commands := [" pytest -q "];
  tc_max_retries := 2;
|}.
Definition accepted_contract : TaskContract := {|
  tc_task_id := "task-1";
  tc_objective := "implement the parser";
  tc_readable_files := ["src/**"; "docs/*.md"];
  tc_writable_files := ["src/parser.py"];
  tc_readonly_files := ["src/lexer.py"];
  tc_acceptance_criteria := ["tests pass"];
  tc_verification_commands := ["pytest -q"];
  tc_max_retries := 2;
|}.

Lemma TaskContract_new_wf_witness : contract_wf accepted_contract.
Proof. apply (TaskContract_new_wf raw_contract accepted_contract). vm_compute. reflexivity. Defined.

Lemma TaskContract_new_stable_witness : TaskContract_new accepted_contract = Ok accepted_contract.
Proof. apply (TaskContract_new_stable raw_contract accepted_contract). vm_compute. reflexivity. Defined.
