(* ===== verification/Scope.v ===== *)
(** * Scope: the write boundary of a task

    [workspace/scope.py]: the translation of repository globs to regular
    expressions, [re.fullmatch] on them (by derivatives, with the language of
    the expressions as its specification), and [ScopeEnforcer.check], which
    compares the changed files of a worktree with the scopes of a contract. *)
From stdpp Require Import options.
From S2P Require Import Prelude Contracts.

(** ** Regular expressions: the constructs [_glob_regex] writes *)
Inductive regex : Set :=
  | Nothing                 (* no text *)
  | Empty                   (* the empty text *)
  | Char (c : ascii)        (* [re.escape(char)] *)
  | Dot                     (* [.], without DOTALL: any character but a newline *)
  | NotSlash                (* [[^/]] *)
  | Seq (r1 r2 : regex)
  | Alt (r1 r2 : regex)
  | Star (r : regex).       (* [r*] *)
(** [(?:r)?] *)
Definition Opt (r : regex) : regex := Alt r Empty.

Definition newline : ascii := ascii_of_nat 10.
Definition slash : ascii := "/"%char.

Definition class_of (r : regex) (c : ascii) : bool :=
  match r with
  | Char d => bool_decide (c = d)
  | Dot => negb (bool_decide (c = newline))
  | NotSlash => negb (bool_decide (c = slash))
  | _ => false
  end.

(** The texts a regular expression matches as a whole. *)
Inductive full_match : regex → list ascii → Prop :=
  | match_empty : full_match Empty []
  | match_class r c : class_of r c = true → full_match r [c]
  | match_seq r1 r2 a b : full_match r1 a → full_match r2 b → full_match (Seq r1 r2) (a ++ b)
  | match_alt_l r1 r2 a : full_match r1 a → full_match (Alt r1 r2) a
  | match_alt_r r1 r2 a : full_match r2 a → full_match (Alt r1 r2) a
  | match_star_nil r : full_match (Star r) []
  | match_star_app r a b : full_match r a → full_match (Star r) b → full_match (Star r) (a ++ b).

(** [re.fullmatch], by derivatives. *)
Fixpoint nullable (r : regex) : bool :=
  match r with
  | Empty | Star _ => true
  | Seq r1 r2 => nullable r1 && nullable r2
  | Alt r1 r2 => nullable r1 || nullable r2
  | _ => false
  end.
Fixpoint derive (c : ascii) (r : regex) : regex :=
  match r with
  | Seq r1 r2 => let d := Seq (derive c r1) r2 in
                 if nullable r1 then Alt d (derive c r2) else d
  | Alt r1 r2 => Alt (derive c r1) (derive c r2)
  | Star r1 => Seq (derive c r1) (Star r1)
  | _ => if class_of r c then Empty else Nothing
  end.
Fixpoint fullmatch (r : regex) (s : list ascii) : bool :=
  match s with [] => nullable r | c :: s => fullmatch (derive c r) s end.

Lemma nullable_spec r : nullable r = true ↔ full_match r [].
Proof.
  split.
  - induction r; cbn; intros H; try done; try by constructor.
    + apply andb_true_iff in H as [H1 H2]. apply (match_seq r1 r2 [] []); auto.
    + apply orb_true_iff in H as [H|H]; [apply match_alt_l|apply match_alt_r]; auto.
  - intros H. remember [] as s eqn:Hs. induction H; cbn; try done.
    + apply app_eq_nil in Hs as [-> ->]. by rewrite IHfull_match1, IHfull_match2.
    + by rewrite IHfull_match.
    + by rewrite IHfull_match, orb_true_r.
Qed.

Lemma star_cons r c s :
  full_match (Star r) (c :: s) → ∃ a b, s = a ++ b ∧ full_match r (c :: a) ∧ full_match (Star r) b.
Proof.
  intros H. remember (Star r) as q eqn:Hq. remember (c :: s) as t eqn:Ht.
  revert c s Ht. induction H as [|? ? Hcls| | | | |r' a b Ha _ Hb IH]; intros c0 s0 Ht; try done.
  - by subst.
  - injection Hq as ->. destruct a as [|d a]; cbn in Ht; [by apply IH|].
    injection Ht as -> <-. by exists a, b.
Qed.

Lemma class_match (b : bool) s : full_match (if b then Empty else Nothing) s ↔ b = true ∧ s = [].
Proof.
  split; [|intros [-> ->]; constructor].
  destruct b; inversion 1; subst; done.
Qed.

Definition is_leaf (r : regex) : bool :=
  match r with Seq _ _ | Alt _ _ | Star _ => false | _ => true end.
Lemma leaf_match r c s : is_leaf r = true → full_match r (c :: s) ↔ class_of r c = true ∧ s = [].
Proof.
  intros Hr. split; [|intros [? ->]; by constructor].
  intros H. inversion H; subst; done.
Qed.

Lemma derive_spec c r s : full_match (derive c r) s ↔ full_match r (c :: s).
Proof.
  revert s. induction r as [| | | | |r1 IH1 r2 IH2|r1 IH1 r2 IH2|r IH]; intros s;
    try (cbn [derive]; by rewrite class_match, leaf_match by done).
  - assert (full_match (Seq (derive c r1) r2) s ↔
            ∃ a b, s = a ++ b ∧ full_match r1 (c :: a) ∧ full_match r2 b) as Hd.
    { split; [inversion 1; subst; [done|]|].
      - eexists _, _. split; [done|]. by rewrite <- IH1.
      - intros (a & b & -> & Ha & Hb). constructor; [by apply IH1|done]. }
    cbn [derive]. transitivity (full_match (Seq (derive c r1) r2) s
      ∨ (nullable r1 = true ∧ full_match (derive c r2) s)).
    { destruct (nullable r1).
      - split; [inversion 1; subst; [done| |]; auto|].
        intros [?|[_ ?]]; [by apply match_alt_l|by apply match_alt_r].
      - split; [auto|]. by intros [?|[? _]]. }
    rewrite Hd, IH2, nullable_spec. split.
    + intros [(a & b & -> & Ha & Hb)|[Hn H2]].
      * by apply (match_seq r1 r2 (c :: a) b).
      * by apply (match_seq r1 r2 [] (c :: s)).
    + inversion 1 as [|? ? Hc| ? ? a b Ha Hb Heq Hs| | | |]; subst; [done|].
      destruct a as [|d a]; cbn in Hs; [right; by subst b|].
      injection Hs as -> <-. left. by exists a, b.
  - cbn [derive]. split.
    + inversion 1; subst; [done| |]; [apply match_alt_l; by apply IH1|apply match_alt_r; by apply IH2].
    + inversion 1; subst; [done| |]; [apply match_alt_l; by apply IH1|apply match_alt_r; by apply IH2].
  - cbn [derive]. split.
    + inversion 1; subst; [done|].
      match goal with H : full_match (derive c r) ?a |- _ =>
        apply IH in H; by apply (match_star_app r (c :: a)) end.
    + intros (a & b & -> & Ha & Hb)%star_cons. constructor; [by apply IH|done].
Qed.

Lemma fullmatch_spec r s : fullmatch r s = true ↔ full_match r s.
Proof.
  revert r. induction s as [|c s IH]; intros r; cbn; [apply nullable_spec|].
  by rewrite IH, derive_spec.
Qed.

(** ** [ScopeEnforcer._glob_regex] *)
Fixpoint _glob_regex (pattern : list ascii) : regex :=
  match pattern with
  | [] => Empty
  | "*"%char :: "*"%char :: "/"%char :: rest =>
      Seq (Opt (Seq (Star Dot) (Char slash))) (_glob_regex rest)
  | "*"%char :: "*"%char :: rest => Seq (Star Dot) (_glob_regex rest)
  | "*"%char :: rest => Seq (Star NotSlash) (_glob_regex rest)
  | "?"%char :: rest => Seq NotSlash (_glob_regex rest)
  | c :: rest => Seq (Char c) (_glob_regex rest)
  end.

Definition matches (path pattern : string) : bool := fullmatch (_glob_regex (chars pattern)) (chars path).

(** ** [ScopeEnforcer.check] *)
Inductive ScopeViolationKind : Set := READ_ONLY | OUT_OF_SCOPE.
#[export] Instance ScopeViolationKind_eq_dec : EqDecision ScopeViolationKind.
Proof. solve_decision. Defined.
Definition ScopeViolationKind_value (k : ScopeViolationKind) : string :=
  match k with READ_ONLY => "READ_ONLY" | OUT_OF_SCOPE => "OUT_OF_SCOPE" end.
Record ScopeViolation : Set := {
  sv_path : string;
  sv_kind : ScopeViolationKind;
  sv_matched_pattern : option string;
}.
Definition ScopeViolation_new (raw : ScopeViolation) : result ScopeViolation :=
  valid_if (1 <=? str_len (sv_path raw))%nat "path" ;;
  Ok raw.
Record ScopeCheckResult : Set := {
  sc_changed_files : list string;
  sc_allowed_files : list string;
  sc_violations : list ScopeViolation;
}.
Definition passed (self : ScopeCheckResult) : bool := bool_decide (sc_violations self = []).

Definition to_failure_report (self : ScopeCheckResult) : result (option FailureReport) :=
  match sc_violations self with
  | [] => Ok None
  | violations =>
      report ← FailureReport_new {|
        failure_type := SCOPE_VIOLATION;
        source := RUNTIME;
        message := "Repository changes violated the task write-scope contract.";
        retryable := false;
        evidence := (λ v, ScopeViolationKind_value (sv_kind v) +:+ ":" +:+ sv_path v
                          +:+ match sv_matched_pattern v with
                              | Some p => ":matched=" +:+ p
                              | None => ""
                              end) <$> violations;
      |};
      Ok (Some report)
  end.

Definition _normalize_changed_path (path : string) : result string :=
  let normalized := strip path in
  check (negb (bool_decide (normalized = ""))) ValueError "changed path must not be empty" ;;
  check (negb (str_startswith "/" normalized || str_startswith "\" normalized
               || in_string "\"%char normalized)) ValueError
    "changed path must be repository-relative POSIX style" ;;
  check (negb (existsb (λ part, bool_decide (part = "..")) (split_on "/"%char normalized))) ValueError
    "changed path must not traverse outside the repository" ;;
  Ok normalized.

Definition _first_match (path : string) (patterns : list string) : option string :=
  find (matches path) patterns.

(** One path of the loop of [check]. *)
Definition check_path (task : TaskContract) (acc : list string * list ScopeViolation)
    (path : string) : result (list string * list ScopeViolation) :=
  let '(allowed, violations) := acc in
  match _first_match path (tc_readonly_files task) with
  | Some readonly_pattern =>
      v ← ScopeViolation_new {| sv_path := path; sv_kind := READ_ONLY;
                                sv_matched_pattern := Some readonly_pattern |};
      Ok (allowed, violations ++ [v])
  | None =>
      match _first_match path (tc_writable_files task) with
      | None =>
          v ← ScopeViolation_new {| sv_path := path; sv_kind := OUT_OF_SCOPE;
                                    sv_matched_pattern := None |};
          Ok (allowed, violations ++ [v])
      | Some _ => Ok (allowed ++ [path], violations)
      end
  end.
Definition scope_check (task : TaskContract) (changed_files : list string)
    : result ScopeCheckResult :=
  paths ← map_result _normalize_changed_path changed_files;
  let normalized_changed := sorted_set (list_to_set paths) in
  '(allowed, violations) ← fold_result (check_path task) ([], []) normalized_changed;
  Ok {| sc_changed_files := normalized_changed; sc_allowed_files := allowed;
        sc_violations := violations |}.

Example matches_examples :
  (matches "src/app/main.py" "src/**/*.py", matches "src/main.py" "src/**/*.py",
   matches "src/app/main.py" "src/*.py", matches "a.py" "?.py", matches "docs/x/y" "docs/**",
   matches "adocs" "docs/**", matches "a+b" "a+b", matches "aab" "a+b")
  = (true, true, false, true, true, false, true, false).
Proof. vm_compute. reflexivity. Qed.

(** ** What a glob means *)

(** The documented reading of a pattern: [**/] stands for any number of
    directories, [**] for any text, [*] for any text within a segment, [?]
    for one character other than a slash. *)
Inductive documented : list ascii → list ascii → Prop :=
  | doc_nil : documented [] []
  | doc_no_dirs p s : documented p s → documented ("*" :: "*" :: "/" :: p)%char s
  | doc_dirs d p s : documented p s → documented ("*" :: "*" :: "/" :: p)%char (d ++ slash :: s)
  | doc_any d p s : head p ≠ Some slash → documented p s → documented ("*" :: "*" :: p)%char (d ++ s)
  | doc_star d p s : head p ≠ Some "*"%char → slash ∉ d → documented p s →
      documented ("*"%char :: p) (d ++ s)
  | doc_one c p s : c ≠ slash → documented p s → documented ("?"%char :: p) (c :: s)
  | doc_char c p s : c ≠ "*"%char → c ≠ "?"%char → documented p s → documented (c :: p) (c :: s).
(** What the regular expression accepts: the text that [**] stands for has no
    newline. *)
Inductive glob_match : list ascii → list ascii → Prop :=
  | glob_nil : glob_match [] []
  | glob_no_dirs p s : glob_match p s → glob_match ("*" :: "*" :: "/" :: p)%char s
  | glob_dirs d p s : newline ∉ d → glob_match p s →
      glob_match ("*" :: "*" :: "/" :: p)%char (d ++ slash :: s)
  | glob_any d p s : head p ≠ Some slash → newline ∉ d → glob_match p s →
      glob_match ("*" :: "*" :: p)%char (d ++ s)
  | glob_star d p s : head p ≠ Some "*"%char → slash ∉ d → glob_match p s →
      glob_match ("*"%char :: p) (d ++ s)
  | glob_one c p s : c ≠ slash → glob_match p s → glob_match ("?"%char :: p) (c :: s)
  | glob_char c p s : c ≠ "*"%char → c ≠ "?"%char → glob_match p s →
      glob_match (c :: p) (c :: s).

Lemma star_class r s :
  (∀ c, class_of r c = true ∨ class_of r c = false) → is_leaf r = true → r ≠ Empty →
  full_match (Star r) s ↔ Forall (λ c, class_of r c = true) s.
Proof.
  intros _ Hleaf Hne. split.
  - intros H. remember (Star r) as q eqn:Hq. induction H; try done; [by subst|].
    injection Hq as ->. apply Forall_app. split; [|by apply IHfull_match2].
    match goal with H : full_match r ?a |- _ => destruct a as [|c a]; [constructor|];
      apply leaf_match in H as [? ->]; [by repeat constructor|done] end.
  - induction 1 as [|c s Hc Hs IH]; [constructor|].
    apply (match_star_app r [c] s); [by constructor|done].
Qed.
Lemma star_dot s : full_match (Star Dot) s ↔ newline ∉ s.
Proof.
  rewrite star_class; [|intros c; destruct (class_of Dot c); auto|done|done].
  rewrite Forall_forall. cbn. split.
  - intros H Hin. specialize (H _ Hin). by rewrite bool_decide_true in H.
  - intros H c Hc. apply negb_true_iff, bool_decide_eq_false. by intros ->.
Qed.
Lemma star_not_slash s : full_match (Star NotSlash) s ↔ slash ∉ s.
Proof.
  rewrite star_class; [|intros c; destruct (class_of NotSlash c); auto|done|done].
  rewrite Forall_forall. cbn. split.
  - intros H Hin. specialize (H _ Hin). by rewrite bool_decide_true in H.
  - intros H c Hc. apply negb_true_iff, bool_decide_eq_false. by intros ->.
Qed.
Lemma seq_match r1 r2 s :
  full_match (Seq r1 r2) s ↔ ∃ a b, s = a ++ b ∧ full_match r1 a ∧ full_match r2 b.
Proof.
  split; [inversion 1; subst; [done|]; eauto 10|]. intros (a & b & -> & ? & ?). by constructor.
Qed.
Lemma class_full r s :
  is_leaf r = true → r ≠ Empty → full_match r s ↔ ∃ c, s = [c] ∧ class_of r c = true.
Proof.
  intros Hl Hne. split.
  - intros H. inversion H; subst; try done; eauto.
  - intros (c & -> & Hc). by constructor.
Qed.
Lemma char_match c s : full_match (Char c) s ↔ s = [c].
Proof.
  rewrite class_full by done. cbn. split.
  - intros (d & -> & Hd). apply bool_decide_eq_true in Hd. by subst.
  - intros ->. exists c. split; [done|]. by apply bool_decide_eq_true.
Qed.
Lemma opt_dirs s :
  full_match (Opt (Seq (Star Dot) (Char slash))) s ↔ s = [] ∨ ∃ d, s = d ++ [slash] ∧ newline ∉ d.
Proof.
  unfold Opt. split.
  - inversion 1 as [|? ? Hc| | ? ? ? H1| ? ? ? H1| |]; subst; [done| |].
    + apply seq_match in H1 as (a & b & -> & Ha & Hb). apply star_dot in Ha.
      apply char_match in Hb as ->. eauto.
    + left. by inversion H1.
  - intros [->|(d & -> & Hd)]; [apply match_alt_r; constructor|]. apply match_alt_l.
    constructor; [by apply star_dot|by apply char_match].
Qed.

Lemma glob_regex_any p :
  head p ≠ Some slash → _glob_regex ("*" :: "*" :: p)%char = Seq (Star Dot) (_glob_regex p).
Proof.
  destruct p as [|[[] [] [] [] [] [] [] []] p]; intros H; try reflexivity. by destruct H.
Qed.
Lemma glob_regex_star p :
  head p ≠ Some "*"%char → _glob_regex ("*"%char :: p) = Seq (Star NotSlash) (_glob_regex p).
Proof.
  destruct p as [|[[] [] [] [] [] [] [] []] p]; intros H; try reflexivity. by destruct H.
Qed.
Lemma glob_regex_char c p :
  c ≠ "*"%char → c ≠ "?"%char → _glob_regex (c :: p) = Seq (Char c) (_glob_regex p).
Proof. destruct c as [[] [] [] [] [] [] [] []]; intros H1 H2; try reflexivity; by destruct H1 || by destruct H2. Qed.

Lemma glob_regex_spec p s : full_match (_glob_regex p) s ↔ glob_match p s.
Proof.
  remember (length p) as n eqn:Hn. revert p s Hn.
  induction n as [n IH] using (well_founded_induction lt_wf). intros p s ->.
  assert (∀ p' s', length p' < length p → full_match (_glob_regex p') s' ↔ glob_match p' s')%nat as IH'
    by (intros p' s' Hlt; by apply (IH (length p'))).
  clear IH. destruct p as [|c p].
  { cbn. split; [inversion 1; subst; [constructor|done]|inversion 1; subst; constructor]. }
  destruct (decide (c = "*"%char)) as [->|Hstar].
  2:{ destruct (decide (c = "?"%char)) as [->|Hone].
      - change (_glob_regex ("?"%char :: p)) with (Seq NotSlash (_glob_regex p)).
        rewrite seq_match. split.
        + intros (a & b & -> & (d & -> & Hd)%class_full & Hb); [|done|done].
          apply IH' in Hb; [|cbn; lia]. cbn. constructor; [|done].
          cbn in Hd. by apply negb_true_iff, bool_decide_eq_false in Hd.
        + inversion 1; subst; [|done]. exists [c], s0. split; [done|]. split; [|apply IH'; [cbn; lia|done]].
          apply class_full; [done|done|]. exists c. split; [done|]. cbn.
          by apply negb_true_iff, bool_decide_eq_false.
      - rewrite glob_regex_char, seq_match by done. split.
        + intros (a & b & -> & ->%char_match & Hb). apply IH' in Hb; [|cbn; lia].
          by apply glob_char.
        + inversion 1; subst; try done. exists [c], s0. split; [done|].
          split; [by apply char_match|]. apply IH'; [cbn; lia|done]. }
  destruct (decide (head p = Some "*"%char)) as [Hp|Hp].
  - destruct p as [|c p]; [done|]. injection Hp as ->.
    destruct (decide (head p = Some slash)) as [Hs|Hs].
    + destruct p as [|c p]; [done|]. injection Hs as ->.
      change (_glob_regex ("*" :: "*" :: slash :: p)%char)
        with (Seq (Opt (Seq (Star Dot) (Char slash))) (_glob_regex p)).
      rewrite seq_match. split.
      * intros (a & b & -> & Ha & Hb). apply IH' in Hb; [|cbn; lia].
        apply opt_dirs in Ha as [->|(d & -> & Hd)]; [by apply glob_no_dirs|].
        rewrite <- app_assoc. by apply glob_dirs.
      * inversion 1; subst; try done.
        -- exists [], s. split; [done|]. split; [apply opt_dirs; by left|]. apply IH'; [cbn; lia|done].
        -- exists (d ++ [slash]), s0. split; [by rewrite <- app_assoc|].
           split; [apply opt_dirs; eauto|]. apply IH'; [cbn; lia|done].
    + rewrite glob_regex_any, seq_match by done. split.
      * intros (a & b & -> & Ha%star_dot & Hb). apply IH' in Hb; [|cbn; lia]. by apply glob_any.
      * inversion 1; subst; try done. exists d, s0. split; [done|].
        split; [by apply star_dot|]. apply IH'; [cbn; lia|done].
  - rewrite glob_regex_star, seq_match by done. split.
    + intros (a & b & -> & Ha%star_not_slash & Hb). apply IH' in Hb; [|cbn; lia]. by apply glob_star.
    + inversion 1; subst; try done. exists d, s0. split; [done|].
      split; [by apply star_not_slash|]. apply IH'; [cbn; lia|done].
Qed.

Lemma matches_spec path pattern :
  matches path pattern = true ↔ glob_match (chars pattern) (chars path).
Proof. unfold matches. by rewrite fullmatch_spec, glob_regex_spec. Qed.

Lemma glob_documented p s : glob_match p s → documented p s.
Proof. induction 1; by constructor. Qed.
Lemma documented_glob p s : documented p s → newline ∉ s → glob_match p s.
Proof.
  induction 1 as [|p s _ IH|d p s _ IH|d p s Hh _ IH|d p s Hh Hd _ IH|c p s Hc _ IH|c p s Hc Hq _ IH]; intros Hn.
  - constructor.
  - constructor. by apply IH.
  - apply glob_dirs; [|apply IH]; set_solver.
  - apply glob_any; [done| |apply IH]; set_solver.
  - apply glob_star; [done|done|apply IH]; set_solver.
  - apply glob_one; [done|apply IH]; set_solver.
  - apply glob_char; [done|done|apply IH]; set_solver.
Qed.
(** C36.  Matching a path against a scope pattern decides the documented glob
    semantics: the translation to a regular expression, with its priorities
    between [**/], [**] and [*] and its escapes, and the match of the whole
    path accept only texts the pattern denotes, and every such text that has
    no newline. *)
Theorem matches_correct path pattern :
  (matches path pattern = true → documented (chars pattern) (chars path))
  ∧ (newline ∉ chars path → documented (chars pattern) (chars path) → matches path pattern = true).
Proof.
  rewrite matches_spec. split; [apply glob_documented|]. intros Hn Hd. by apply documented_glob.
Qed.
Lemma matches_correct_witness :
  documented (chars "src/**/*.py") (chars "src/app/main.py") ∧ ¬ documented (chars "src/*.py") (chars "src/app/main.py").
Proof.
  split.
  - apply (matches_correct "src/app/main.py" "src/**/*.py"). vm_compute. reflexivity.
  - intros Hd. apply (matches_correct "src/app/main.py" "src/*.py") in Hd; [vm_compute in Hd; discriminate Hd|].
    apply (bool_decide_eq_false (newline ∈ chars "src/app/main.py")). vm_compute. reflexivity.
Defined.

(** ** What the check decides *)

(** [path] is in the write scope of [task]. *)
Definition in_scopes (patterns : list string) (path : string) : Prop :=
  ∃ pattern, pattern ∈ patterns ∧ glob_match (chars pattern) (chars path).
Definition may_write (task : TaskContract) (path : string) : Prop :=
  in_scopes (tc_writable_files task) path ∧ ¬ in_scopes (tc_readonly_files task) path.

(** The verdict on one path. *)
Definition violation_of (task : TaskContract) (path : string) : option ScopeViolation :=
  match _first_match path (tc_readonly_files task) with
  | Some p => Some {| sv_path := path; sv_kind := READ_ONLY; sv_matched_pattern := Some p |}
  | None =>
      match _first_match path (tc_writable_files task) with
      | Some _ => None
      | None => Some {| sv_path := path; sv_kind := OUT_OF_SCOPE; sv_matched_pattern := None |}
      end
  end.

Lemma first_match_Some path patterns p :
  _first_match path patterns = Some p → p ∈ patterns ∧ glob_match (chars p) (chars path).
Proof.
  intros [Hin Hm]%find_some. split; [by apply list_elem_of_In|by apply matches_spec].
Qed.
Lemma first_match_None path patterns :
  _first_match path patterns = None ↔ ¬ in_scopes patterns path.
Proof.
  split.
  - intros H (p & Hin & Hm). apply matches_spec in Hm.
    pose proof (find_none _ _ H p ltac:(by apply list_elem_of_In)). congruence.
  - intros H. destruct (_first_match path patterns) as [p|] eqn:Hp; [|done].
    exfalso. apply H. exists p. by apply first_match_Some.
Qed.
Lemma violation_None task path : violation_of task path = None ↔ may_write task path.
Proof.
  unfold violation_of, may_write. destruct (_first_match path (tc_readonly_files task)) eqn:Hr.
  - split; [done|]. intros [_ H]. exfalso. apply H. exists s. by apply first_match_Some.
  - apply first_match_None in Hr. destruct (_first_match path (tc_writable_files task)) eqn:Hw.
    + split; [|done]. intros _. split; [|done]. exists s. by apply first_match_Some.
    + split; [done|]. apply first_match_None in Hw. by intros [? _].
Qed.

Lemma check_path_verdict task a v p :
  p ≠ "" →
  check_path task (a, v) p
  = Ok (match violation_of task p with None => (a ++ [p], v) | Some x => (a, v ++ [x]) end).
Proof.
  intros Hp. assert ((1 <=? str_len p)%nat = true) as Hlen.
  { apply Nat.leb_le. destruct p; [done|]. unfold str_len. cbn. lia. }
  unfold check_path, violation_of, ScopeViolation_new. cbn [sv_path].
  rewrite (valid_if_true (1 <=? str_len p)%nat) by done.
  by destruct (_first_match p (tc_readonly_files task)), (_first_match p (tc_writable_files task)).
Qed.
Lemma check_path_loop task paths a v :
  Forall (λ p, p ≠ "") paths →
  fold_result (check_path task) (a, v) paths
  = Ok (a ++ filter (λ p, violation_of task p = None) paths, v ++ omap (violation_of task) paths).
Proof.
  intros Hne. revert a v. induction Hne as [|p ps Hp _ IH]; intros a v; [by rewrite !app_nil_r|].
  cbn [fold_result]. rewrite check_path_verdict by done. cbn [mbind result_bind].
  rewrite filter_cons. cbn [omap list_omap]. destruct (violation_of task p) eqn:Hv.
  - rewrite IH, <- app_assoc. by rewrite decide_False by congruence.
  - rewrite IH, <- app_assoc. by rewrite decide_True.
Qed.

Lemma normalize_changed_path_Ok path p :
  _normalize_changed_path path = Ok p →
  p = strip path ∧ p ≠ "" ∧ ".." ∉ split_on "/"%char p ∧ str_startswith "/" p = false.
Proof.
  unfold _normalize_changed_path. intros H. inv_monad. to_prop.
  split; [done|]. split; [done|]. split; [|done].
  intros Hin. apply list_elem_of_In in Hin.
  assert (existsb (λ part, bool_decide (part = "..")) (split_on "/"%char (strip path)) = true) as He
    by (apply existsb_exists; exists ".."; split; [done|by rewrite bool_decide_true]).
  congruence.
Qed.

(** The check of one path. *)
Lemma sorted_set_single p : sorted_set (list_to_set [p]) = [p].
Proof.
  unfold sorted_set. assert (list_to_set [p] =@{gset string} {[p]}) as -> by set_solver.
  by rewrite elements_singleton.
Qed.
Lemma scope_check_one task path r :
  scope_check task [path] = Ok r →
  _normalize_changed_path path = Ok (strip path)
  ∧ sc_violations r = match violation_of task (strip path) with Some v => [v] | None => [] end.
Proof.
  unfold scope_check. cbn [map_result].
  destruct (_normalize_changed_path path) as [p|e] eqn:Hp; [|done].
  apply normalize_changed_path_Ok in Hp as Hq. destruct Hq as (-> & Hne & _). cbn [mbind result_bind].
  rewrite sorted_set_single, check_path_loop by (by repeat constructor). intros [= <-]. cbn.
  by destruct (violation_of task (strip path)).
Qed.
Lemma map_result_Raise {A B} (f : A → result B) l e :
  map_result f l = Raise e → ∃ a, a ∈ l ∧ f a = Raise e.
Proof.
  induction l as [|a l IH]; cbn; [done|]. intros [H|(b & _ & H)]%bind_Raise_inv.
  - exists a. split; [by left|done].
  - apply bind_Raise_inv in H as [H|(bs & _ & H)]; [|done].
    destruct (IH H) as (c & Hc & Hraise). exists c. split; [by right|done].
Qed.
Lemma normalized_nonempty changed paths :
  map_result _normalize_changed_path changed = Ok paths →
  Forall (λ p, p ≠ "") (sorted_set (list_to_set paths)).
Proof.
  intros H%map_result_Ok. apply Forall_forall. intros p Hp.
  rewrite elem_of_sorted_set, elem_of_list_to_set in Hp.
  apply list_elem_of_lookup in Hp as [i Hi].
  destruct (Forall2_lookup_r _ _ _ _ _ H Hi) as (q & _ & Hq).
  by apply normalize_changed_path_Ok in Hq as (_ & ? & _).
Qed.
(** The check raises on the spelling of a path only. *)
Lemma scope_check_raise task changed e :
  scope_check task changed = Raise e →
  exn_kind e = ValueError
  ∧ ∃ path, path ∈ changed ∧ is_ok (_normalize_changed_path path) = false.
Proof.
  unfold scope_check. intros [H|(paths & Hpaths & H)]%bind_Raise_inv.
  - apply map_result_Raise in H as (path & Hin & Hp). split.
    + unfold _normalize_changed_path in Hp. by inv_raise.
    + exists path. by rewrite Hp.
  - rewrite check_path_loop in H by (by eapply normalized_nonempty). done.
Qed.
Lemma scope_check_one_raise task path e :
  scope_check task [path] = Raise e → exn_kind e = ValueError.
Proof. by intros [H _]%scope_check_raise. Qed.

(** The check passes iff every changed path may be written. *)
Lemma scope_check_paths task changed r :
  scope_check task changed = Ok r →
  ∃ paths, map_result _normalize_changed_path changed = Ok paths
  ∧ (∀ p, p ∈ sorted_set (list_to_set paths) ↔ p ∈ paths)
  ∧ r = {| sc_changed_files := sorted_set (list_to_set paths);
           sc_allowed_files :=
             filter (λ p, violation_of task p = None) (sorted_set (list_to_set paths));
           sc_violations := omap (violation_of task) (sorted_set (list_to_set paths)) |}.
Proof.
  unfold scope_check. intros H. inv_monad. rename a into paths. exists paths. split; [done|].
  assert (∀ p, p ∈ sorted_set (list_to_set paths) ↔ p ∈ paths) as Hin.
  { intros p. by rewrite elem_of_sorted_set, elem_of_list_to_set. }
  split; [done|]. rewrite check_path_loop in H1 by (by eapply normalized_nonempty).
  by injection H1 as <- <-.
Qed.
Lemma passed_spec task changed r paths :
  scope_check task changed = Ok r → map_result _normalize_changed_path changed = Ok paths →
  passed r = true ↔ ∀ p, p ∈ paths → may_write task p.
Proof.
  intros H Hp. apply scope_check_paths in H as (paths' & Hp' & Hin & ->).
  rewrite Hp in Hp'. injection Hp' as <-.
  unfold passed. cbn [sc_violations]. rewrite bool_decide_eq_true. split.
  - intros Hnil p Hpin. destruct (violation_of task p) as [v|] eqn:Hv; [|by apply violation_None].
    assert (v ∈ omap (violation_of task) (sorted_set (list_to_set paths))) as Hin'.
    { apply list_elem_of_omap. exists p. by rewrite Hin. }
    rewrite Hnil in Hin'. by apply not_elem_of_nil in Hin'.
  - intros Hall. destruct (omap _ _) as [|v vs] eqn:Ho; [done|]. exfalso.
    assert (v ∈ omap (violation_of task) (sorted_set (list_to_set paths))) as Hv
      by (rewrite Ho; by left).
    apply list_elem_of_omap in Hv as (p & Hpin & Hv). apply Hin in Hpin.
    apply Hall, violation_None in Hpin. congruence.
Qed.


(** A literal prefix of a pattern matches itself. *)
Definition literal (c : ascii) : Prop := c ≠ "*"%char ∧ c ≠ "?"%char.
Lemma glob_literal dir p s :
  Forall literal dir → glob_match (dir ++ p) s → ∃ s', s = dir ++ s' ∧ glob_match p s'.
Proof.
  intros Hdir. revert s. induction Hdir as [|c dir [H1 H2] _ IH]; intros s H; [by exists s|].
  cbn in H. inversion H; subst; try done. destruct (IH s0) as (s' & -> & Hs'); [done|].
  by exists s'.
Qed.

(** A contract that protects a directory and opens another pattern. *)
Definition scope_task : TaskContract := {|
  tc_task_id := "t1"; tc_objective := "edit"; tc_readable_files := [];
  tc_writable_files := ["*/*"; "src/**"]; tc_readonly_files := ["secrets/**"];
  tc_acceptance_criteria := ["works"]; tc_verification_commands := ["pytest -q"];
  tc_max_retries := 1%Z;
|}.
Definition newline_path : string := "secrets/a" +:+ of_chars [newline] +:+ "b".

(** A directory scope [dir/**] does not cover the files below [dir]
    whose name contains a newline, because [.] is compiled without DOTALL.
    So a changed file under a read-only directory passes the check of a valid
    contract when another pattern opens it. *)
Theorem newline_escapes_scope :
  (∀ dir rest, Forall literal (chars dir) → newline ∈ chars rest →
     matches (dir +:+ rest) (dir +:+ "**") = false)
  ∧ TaskContract_new scope_task = Ok scope_task
  ∧ scope_check scope_task [newline_path; "src/a.py"]
    = Ok {| sc_changed_files := [newline_path; "src/a.py"];
            sc_allowed_files := [newline_path; "src/a.py"]; sc_violations := [] |}.
Proof.
  split; [|split; vm_compute; reflexivity].
  intros dir rest Hdir Hnl. apply not_true_iff_false. intros H%matches_spec.
  rewrite !chars_app in H. destruct (glob_literal _ _ _ Hdir H) as (s' & Hs & Hg).
  apply app_inv_head in Hs as Hs'. rewrite <- Hs' in Hg.
  change (chars "**") with ["*"; "*"]%char in Hg.
  remember ["*"; "*"]%char as p eqn:Hp. destruct Hg; try done.
  - injection Hp as ->. match goal with H : glob_match [] _ |- _ => inversion H; subst end.
    by rewrite app_nil_r in Hnl.
  - by injection Hp as ->.
  - by injection Hp as -> _.
Qed.

(** The check of a mixed change set. *)
Definition scope_changes : list string := [" src/a.py"; "secrets/key"; "README"].
Definition scope_result : ScopeCheckResult := {|
  sc_changed_files := ["README"; "secrets/key"; "src/a.py"];
  sc_allowed_files := ["src/a.py"];
  sc_violations := [
    {| sv_path := "README"; sv_kind := OUT_OF_SCOPE; sv_matched_pattern := None |};
    {| sv_path := "secrets/key"; sv_kind := READ_ONLY; sv_matched_pattern := Some "secrets/**" |}];
|}.
