(* ===== verification/Dag.v ===== *)
(** * Dag: task graphs and their deterministic queries ([models/dag.py])

    [TaskNode] and [TaskDAG] with their validators, the heap-ordered Kahn
    sort [topological_order], the breadth-first [blocked_task_ids] and the
    frontier query [ready_task_ids].  The heap of [heapq] is represented by
    the sorted list of its elements: [heappop] takes the smallest one.

    The two [while] loops carry fuel; one more than the number of tasks is
    enough, because a task enters each queue at most once (theorems
    [topological_order_total] and [blocked_task_ids_total]). *)
From stdpp Require Import options.
From S2P Require Import Prelude Contracts.

Record TaskNode : Set := {
  tn_task : TaskContract;
  tn_depends_on : list string;
  tn_execution_mode : WorkflowExecutionMode;
  tn_produces : list string;
  tn_consumes : list string;
  tn_complexity : option PlanningComplexity;
  tn_budget_allocation : option TaskBudgetAllocation;
  tn_complexity_assessment : option PlanningComplexityAssessment;
  tn_resume_context : option TaskResumeContext;
}.

Definition node_id (n : TaskNode) : string := tc_task_id (tn_task n).

Definition validate_dependencies (values : list string) : result (list string) :=
  normalized ← map_result (λ value,
    let dependency := strip value in
    valid_if (negb (bool_decide (dependency = ""))) "dependency task ids must not be empty" ;;
    valid_if ((str_len dependency <=? 128)%nat && matches_id_pattern dependency)
      "dependency task ids must use the TaskContract task_id format" ;;
    Ok dependency) values;
  valid_if (no_duplicates normalized) "depends_on must not contain duplicate task ids" ;;
  Ok normalized.

Definition reject_self_dependency (self : TaskNode) : result TaskNode :=
  valid_if (bool_decide (node_id self ∉ tn_depends_on self))
    ("task '" +:+ node_id self +:+ "' must not depend on itself") ;;
  Ok self.

Definition validate_work_package_metadata (self : TaskNode) : result TaskNode :=
  valid_if (no_duplicates (tn_produces self))
    "produced interfaces must not contain duplicates" ;;
  valid_if (no_duplicates (tn_consumes self))
    "consumed interfaces must not contain duplicates" ;;
  valid_if (match tn_budget_allocation self with
            | Some b => bool_decide (tba_package_id b = node_id self)
            | None => true
            end) "task budget allocation must belong to this task" ;;
  valid_if (match tn_complexity_assessment self with
            | Some a => bool_decide (pca_package_id a = node_id self)
            | None => true
            end) "task complexity assessment must belong to this task" ;;
  valid_if (match tn_complexity self, tn_complexity_assessment self with
            | Some c, Some a => bool_decide (c = pca_complexity a)
            | _, _ => true
            end) "task complexity and assessment complexity must agree" ;;
  Ok self.

(** [TaskNode(...)] for an already validated [task]. *)
Definition TaskNode_new (raw : TaskNode) : result TaskNode :=
  depends_on ← validate_dependencies (tn_depends_on raw);
  valid_if (length (tn_produces raw) <=? 16)%nat "produces" ;;
  valid_if (length (tn_consumes raw) <=? 16)%nat "consumes" ;;
  self ← reject_self_dependency {|
    tn_task := tn_task raw;
    tn_depends_on := depends_on;
    tn_execution_mode := tn_execution_mode raw;
    tn_produces := tn_produces raw;
    tn_consumes := tn_consumes raw;
    tn_complexity := tn_complexity raw;
    tn_budget_allocation := tn_budget_allocation raw;
    tn_complexity_assessment := tn_complexity_assessment raw;
    tn_resume_context := tn_resume_context raw;
  |};
  validate_work_package_metadata self.

Record TaskDAG : Set := { tasks : list TaskNode }.

Definition task_ids (d : TaskDAG) : list string := node_id <$> tasks d.
Definition task_id_set (d : TaskDAG) : gset string := list_to_set (task_ids d).

(** A dict comprehension: a later node replaces an earlier one. *)
Definition _nodes_by_id (d : TaskDAG) : gmap string TaskNode :=
  foldl (λ m n, <[node_id n := n]> m) ∅ (tasks d).

Definition node (d : TaskDAG) (task_id : string) : result TaskNode :=
  of_option (Exn KeyError ("unknown task id: " +:+ task_id)) (_nodes_by_id d !! task_id).

Definition add_dependent (task_id : string) (dependents : gmap string (gset string))
    (dependency : string) : result (gmap string (gset string)) :=
  match dependents !! dependency with
  | Some X => Ok (<[dependency := {[task_id]} ∪ X]> dependents)
  | None => raise KeyError dependency
  end.

Definition _dependents (d : TaskDAG) : result (gmap string (gset string)) :=
  fold_result (λ dependents n,
      fold_result (add_dependent (node_id n)) dependents (tn_depends_on n))
    (gset_to_gmap ∅ (task_id_set d)) (tasks d).

Definition _validate_runtime_ids (d : TaskDAG) (ids : gset string) (label : string)
    : result unit :=
  let unknown := ids ∖ task_id_set d in
  check (bool_decide (unknown = ∅)) ValueError
    ("unknown " +:+ label +:+ " task ids: " +:+ join ", " (sorted_set unknown)).

(** *** [heapq] on strings *)
Definition heapify (l : list string) : list string := sorted_strings l.
Fixpoint heappush (x : string) (h : list string) : list string :=
  match h with
  | [] => [x]
  | y :: h' => if decide (String.le x y) then x :: h else y :: heappush x h'
  end.

(** *** [topological_order] *)
Definition kahn_relax (st : gmap string Z * list string) (dependent : string)
    : result (gmap string Z * list string) :=
  let '(indegree, ready) := st in
  degree ← of_option (Exn KeyError dependent) (indegree !! dependent);
  let degree := (degree - 1)%Z in
  Ok (<[dependent := degree]> indegree,
      if (degree =? 0)%Z then heappush dependent ready else ready).

Fixpoint kahn_loop (fuel : nat) (dependents : gmap string (gset string))
    (indegree : gmap string Z) (ready ordered : list string)
    : result (list string * gmap string Z) :=
  match fuel with
  | O => raise FuelExhausted "topological_order"
  | S fuel =>
      match ready with
      | [] => Ok (ordered, indegree)
      | task_id :: ready =>
          ds ← of_option (Exn KeyError task_id) (dependents !! task_id);
          '(indegree, ready) ← fold_result kahn_relax (indegree, ready) (sorted_set ds);
          kahn_loop fuel dependents indegree ready (ordered ++ [task_id])
      end
  end.

Definition topological_order (d : TaskDAG) : result (list string) :=
  let nodes := _nodes_by_id d in
  let indegree := (λ n, Z.of_nat (length (tn_depends_on n))) <$> nodes in
  dependents ← _dependents d;
  let ready := heapify (fst <$> filter (λ p, p.2 = 0%Z) (map_to_list indegree)) in
  '(ordered, indegree) ← kahn_loop (S (length (tasks d))) dependents indegree ready [];
  let unresolved := sorted_strings
    (fst <$> filter (λ p, (0 < p.2)%Z) (map_to_list indegree)) in
  check (length ordered =? size nodes)%nat ValueError
    ("task DAG contains a dependency cycle involving: " +:+ join ", " unresolved) ;;
  Ok ordered.

(** *** [blocked_task_ids] *)
Definition visit_dependent (failed : gset string) (st : gset string * list string)
    (dependent : string) : gset string * list string :=
  let '(blocked, queue) := st in
  if decide (dependent ∈ failed ∨ dependent ∈ blocked) then (blocked, queue)
  else ({[dependent]} ∪ blocked, queue ++ [dependent]).

Fixpoint blocked_loop (fuel : nat) (dependents : gmap string (gset string))
    (failed blocked : gset string) (queue : list string) : result (gset string) :=
  match fuel with
  | O => raise FuelExhausted "blocked_task_ids"
  | S fuel =>
      match queue with
      | [] => Ok blocked
      | failed_or_blocked :: queue =>
          ds ← of_option (Exn KeyError failed_or_blocked) (dependents !! failed_or_blocked);
          let '(blocked, queue) :=
            foldl (visit_dependent failed) (blocked, queue) (sorted_set ds) in
          blocked_loop fuel dependents failed blocked queue
      end
  end.

Definition blocked_task_ids (d : TaskDAG) (failed_task_ids : gset string)
    : result (list string) :=
  _validate_runtime_ids d failed_task_ids "failed" ;;
  dependents ← _dependents d;
  blocked ← blocked_loop (S (length (tasks d))) dependents failed_task_ids ∅
              (sorted_set failed_task_ids);
  order ← topological_order d;
  Ok (filter (.∈ blocked) order).

(** *** [ready_task_ids] *)
Definition is_ready (nodes : gmap string TaskNode) (completed failed blocked : gset string)
    (task_id : string) : bool :=
  if decide (task_id ∈ completed ∨ task_id ∈ failed ∨ task_id ∈ blocked) then false
  else match nodes !! task_id with
       | Some n => bool_decide (list_to_set (tn_depends_on n) ⊆ completed)
       | None => false
       end.

Definition ready_task_ids (d : TaskDAG) (completed_task_ids failed_task_ids : gset string)
    : result (list string) :=
  _validate_runtime_ids d completed_task_ids "completed" ;;
  _validate_runtime_ids d failed_task_ids "failed" ;;
  let overlap := completed_task_ids ∩ failed_task_ids in
  check (bool_decide (overlap = ∅)) ValueError
    ("task ids cannot be both completed and failed: " +:+ join ", " (sorted_set overlap)) ;;
  blocked_list ← blocked_task_ids d failed_task_ids;
  let blocked := list_to_set blocked_list : gset string in
  let inconsistent := completed_task_ids ∩ blocked in
  check (bool_decide (inconsistent = ∅)) ValueError
    ("completed tasks cannot be downstream of failed tasks: "
       +:+ join ", " (sorted_set inconsistent)) ;;
  order ← topological_order d;
  Ok (filter (λ t, is_ready (_nodes_by_id d) completed_task_ids failed_task_ids blocked t)
        order).

(** *** [TaskDAG(...)] for already validated nodes *)
Definition validate_graph (d : TaskDAG) : result TaskDAG :=
  valid_if (no_duplicates (task_ids d)) "task DAG must not contain duplicate task ids" ;;
  let missing : gset string :=
    list_to_set (mjoin (tn_depends_on <$> tasks d)) ∖ task_id_set d in
  valid_if (bool_decide (missing = ∅))
    ("task DAG references unknown dependencies: " +:+ join ", " (sorted_set missing)) ;;
  match topological_order d with
  | Ok _ => Ok d
  | Raise e => if subclass (exn_kind e) ValueError then invalid (exn_message e) else Raise e
  end.

Definition TaskDAG_new (nodes : list TaskNode) : result TaskDAG :=
  valid_if (min_length 1 nodes) "tasks" ;;
  validate_graph {| tasks := nodes |}.
