(* ===== verification/DagFacts.v ===== *)
(** * DagFacts: correctness of the task-graph queries of [Dag]

    Specification of the adjacency maps, of the heap-ordered Kahn sort (it
    returns the greedy topological order exactly when the graph has no
    cycle), of the breadth-first descendant search and of the frontier
    query; and [ValidDag], the interface through which the scheduler and the
    reconciler use an accepted graph. *)
From stdpp Require Import options.
From S2P Require Import Prelude Contracts Dag.

(** Well-formedness: what [TaskNode] and the first two checks of
    [validate_graph] establish. *)
Record graph_wf (d : TaskDAG) : Prop := {
  wf_ids : NoDup (task_ids d);
  wf_deps : ∀ n, n ∈ tasks d → NoDup (tn_depends_on n);
  wf_known : ∀ n dep, n ∈ tasks d → dep ∈ tn_depends_on n → dep ∈ task_ids d;
}.

(** The dependencies of a task. *)
Definition deps (d : TaskDAG) (t : string) : gset string :=
  match _nodes_by_id d !! t with
  | Some n => list_to_set (tn_depends_on n)
  | None => ∅
  end.

(** [edge d u t]: task [t] depends on task [u]. *)
Definition edge (d : TaskDAG) (u t : string) : Prop := u ∈ deps d t.
#[export] Instance edge_dec d : RelDecision (edge d).
Proof. intros u t. unfold edge. apply _. Defined.
(** [downstream d u t]: [t] is a transitive dependent of [u]. *)
Definition downstream (d : TaskDAG) : relation string := tc (edge d).

(** [available d done t]: [t] can be placed after the tasks [done]. *)
Definition available (d : TaskDAG) (placed : list string) (t : string) : Prop :=
  t ∈ task_ids d ∧ t ∉ placed ∧ ∀ u, u ∈ deps d t → u ∈ placed.

(** The greedy order: every position holds the least available task. *)
Definition greedy (d : TaskDAG) (l : list string) : Prop :=
  ∀ l1 t l2, l = l1 ++ (t :: l2) →
    available d l1 t ∧ ∀ u, available d l1 u → String.le t u.

Lemma unknown_empty (X Y : gset string) : X ∖ Y = ∅ ↔ X ⊆ Y.
Proof. split; [intros H x ?; destruct (decide (x ∈ Y)); [done|]; set_solver|set_solver]. Qed.

Lemma overlap_empty (X Y : gset string) : X ∩ Y = ∅ ↔ X ## Y.
Proof. set_solver. Qed.

(** ** The node map and the adjacency map *)
Lemma foldl_nodes_lookup l (m : gmap string TaskNode) t n :
  NoDup (node_id <$> l) →
  foldl (λ m n, <[node_id n := n]> m) m l !! t = Some n ↔
  (n ∈ l ∧ node_id n = t) ∨ (t ∉ (node_id <$> l) ∧ m !! t = Some n).
Proof.
  revert m. induction l as [|x l IH]; intros m; cbn.
  { intros _. set_solver. }
  rewrite NoDup_cons. intros [Hx Hl]. rewrite IH by done.
  rewrite !list_elem_of_fmap in *. destruct (decide (node_id x = t)) as [<-|Hne].
  - rewrite lookup_insert_eq. set_solver.
  - rewrite lookup_insert_ne by done. set_solver.
Qed.

Lemma add_dependent_fold id l m :
  (∀ dep, dep ∈ l → is_Some (m !! dep)) →
  ∃ m', fold_result (add_dependent id) m l = Ok m' ∧
    (∀ k, is_Some (m' !! k) ↔ is_Some (m !! k)) ∧
    ∀ k X, m !! k = Some X → ∃ Y, m' !! k = Some Y ∧
      ∀ u, u ∈ Y ↔ u ∈ X ∨ (u = id ∧ k ∈ l).
Proof.
  revert m. induction l as [|dep l IH]; intros m Hm; cbn.
  { exists m. split_and!; [done..|]. intros k X HX. exists X. set_solver. }
  destruct (Hm dep) as [X HX]; [by left|].
  assert (add_dependent id m dep = Ok (<[dep := {[id]} ∪ X]> m)) as ->
    by (unfold add_dependent; by rewrite HX).
  cbn.
  destruct (IH (<[dep := {[id]} ∪ X]> m)) as (m' & Hf & Hdom & Hspec).
  { intros k Hk. destruct (decide (dep = k)) as [<-|]; simplify_map_eq; [done|].
    apply Hm. by right. }
  exists m'. split_and!; [done| |].
  - intros k. rewrite Hdom. destruct (decide (dep = k)) as [<-|]; simplify_map_eq; [|done].
    split; eauto.
  - intros k Z HZ. destruct (decide (dep = k)) as [<-|Hne].
    + assert (Z = X) as -> by congruence.
      destruct (Hspec dep ({[id]} ∪ X)) as (Y & HY & HYs);
        [by simplify_map_eq|]. exists Y. set_solver.
    + destruct (Hspec k Z) as (Y & HY & HYs); [by simplify_map_eq|]. exists Y. set_solver.
Qed.

Lemma dependents_fold l m :
  (∀ n dep, n ∈ l → dep ∈ tn_depends_on n → is_Some (m !! dep)) →
  ∃ m', fold_result (λ m n, fold_result (add_dependent (node_id n)) m (tn_depends_on n)) m l
        = Ok m' ∧
    (∀ k, is_Some (m' !! k) ↔ is_Some (m !! k)) ∧
    ∀ k X, m !! k = Some X → ∃ Y, m' !! k = Some Y ∧
      ∀ u, u ∈ Y ↔ u ∈ X ∨ ∃ n, n ∈ l ∧ node_id n = u ∧ k ∈ tn_depends_on n.
Proof.
  revert m. induction l as [|x l IH]; intros m Hm; cbn.
  { exists m. split_and!; [done..|]. intros k X HX. exists X. set_solver. }
  destruct (add_dependent_fold (node_id x) (tn_depends_on x) m) as (m1 & Hf1 & Hd1 & Hs1).
  { intros dep. apply Hm. by left. }
  rewrite Hf1. cbn. destruct (IH m1) as (m' & Hf & Hdom & Hspec).
  { intros n dep Hn Hdep. apply Hd1. eapply Hm; [by right|done]. }
  exists m'. split_and!; [done| |].
  - intros k. by rewrite Hdom, Hd1.
  - intros k X HX. destruct (Hs1 k X HX) as (Y1 & HY1 & Hs).
    destruct (Hspec k Y1 HY1) as (Y & HY & HYs). exists Y. split; [done|].
    intros u. rewrite HYs, Hs. set_solver.
Qed.

Section facts.
Context (d : TaskDAG) (Hwf : graph_wf d).

Lemma nodes_lookup t n : _nodes_by_id d !! t = Some n ↔ n ∈ tasks d ∧ node_id n = t.
Proof using Hwf.
  unfold _nodes_by_id. rewrite foldl_nodes_lookup by apply Hwf.
  rewrite lookup_empty. naive_solver.
Qed.

Lemma nodes_is_Some t : is_Some (_nodes_by_id d !! t) ↔ t ∈ task_ids d.
Proof using Hwf.
  unfold task_ids. rewrite list_elem_of_fmap. split.
  - intros [n [? <-]%nodes_lookup]. eauto.
  - intros (n & -> & ?). exists n. by apply nodes_lookup.
Qed.

Lemma node_deps n : n ∈ tasks d → deps d (node_id n) = list_to_set (tn_depends_on n).
Proof using Hwf.
  intros Hn. unfold deps. by rewrite (proj2 (nodes_lookup (node_id n) n) (conj Hn eq_refl)).
Qed.

Lemma deps_known t u : u ∈ deps d t → u ∈ task_ids d ∧ t ∈ task_ids d.
Proof using Hwf.
  unfold deps. destruct (_nodes_by_id d !! t) as [n|] eqn:Hn; [|set_solver].
  rewrite elem_of_list_to_set. intros Hu. split.
  - apply nodes_lookup in Hn as [? _]. by eapply (wf_known d).
  - apply nodes_is_Some. eauto.
Qed.

Lemma size_nodes : size (_nodes_by_id d) = length (tasks d).
Proof using Hwf.
  rewrite <- size_dom.
  assert (dom (_nodes_by_id d) = list_to_set (task_ids d)) as ->.
  { apply set_eq. intros t. by rewrite elem_of_dom, nodes_is_Some, elem_of_list_to_set. }
  rewrite size_list_to_set by apply Hwf. unfold task_ids. apply length_fmap.
Qed.

(** The adjacency map is total on the tasks and is the converse of [deps]. *)
Lemma dependents_spec :
  ∃ m, _dependents d = Ok m ∧
    ∀ t, t ∈ task_ids d → ∃ X, m !! t = Some X ∧ ∀ u, u ∈ X ↔ edge d t u.
Proof using Hwf.
  unfold _dependents.
  destruct (dependents_fold (tasks d) (gset_to_gmap ∅ (task_id_set d)))
    as (m & Hf & _ & Hspec).
  { intros n dep Hn Hdep. exists ∅. apply lookup_gset_to_gmap_Some. split; [|done].
    unfold task_id_set. rewrite elem_of_list_to_set. by eapply (wf_known d). }
  exists m. split; [done|]. intros t Ht.
  destruct (Hspec t ∅) as (Y & HY & HYs).
  { apply lookup_gset_to_gmap_Some. split; [|done].
    unfold task_id_set. by rewrite elem_of_list_to_set. }
  exists Y. split; [done|]. intros u. rewrite HYs. unfold edge, deps. split.
  - intros [?|(n & Hn & <- & Hk)]; [set_solver|].
    rewrite (proj2 (nodes_lookup _ n) (conj Hn eq_refl)). by rewrite elem_of_list_to_set.
  - destruct (_nodes_by_id d !! u) as [n|] eqn:Hu; [|set_solver].
    apply nodes_lookup in Hu as [? ?]. rewrite elem_of_list_to_set. eauto.
Qed.
End facts.

(** ** The priority queue *)
Lemma heappush_perm x h : heappush x h ≡ₚ x :: h.
Proof.
  induction h as [|y h IH]; cbn; [done|]. case_decide; [done|].
  rewrite IH. apply Permutation_swap.
Qed.

Lemma heappush_sorted x h :
  StronglySorted String.le h → StronglySorted String.le (heappush x h).
Proof.
  induction 1 as [|y h Hh IH Hy]; cbn; [by repeat constructor|].
  case_decide as Hxy.
  - constructor; [by constructor|]. constructor; [done|].
    eapply Forall_impl; [done|]. intros z. by etrans.
  - constructor; [done|]. rewrite heappush_perm. constructor; [|done].
    by destruct (total String.le x y).
Qed.

Lemma elem_of_heapify x l : x ∈ heapify l ↔ x ∈ l.
Proof. apply elem_of_sorted_strings. Qed.

(** ** Greedy orders *)
Lemma greedy_nil d : greedy d [].
Proof. intros l1 t l2. by destruct l1. Qed.

Lemma greedy_app_l d l k : greedy d (l ++ k) → greedy d l.
Proof. intros Hg l1 t l2 ->. apply (Hg l1 t (l2 ++ k)). by rewrite <- app_assoc. Qed.

Lemma greedy_snoc d l t :
  greedy d l → available d l t → (∀ u, available d l u → String.le t u) → greedy d (l ++ [t]).
Proof.
  intros Hg Ht Hmin l1 x l2 Heq.
  destruct l2 as [|y l2 _] using rev_ind.
  - apply app_inj_tail in Heq as [<- <-]. done.
  - rewrite app_comm_cons, app_assoc in Heq. apply app_inj_tail in Heq as [-> _]. by apply (Hg l1 x l2).
Qed.

Lemma greedy_known d l t : greedy d l → t ∈ l → t ∈ task_ids d ∧ ∀ u, u ∈ deps d t → u ∈ l.
Proof.
  intros Hg (l1 & l2 & ->)%list_elem_of_split.
  destruct (Hg l1 t l2 eq_refl) as [(? & ? & Hd) _]. split; [done|].
  intros u Hu. apply elem_of_app. left. by apply Hd.
Qed.

Lemma greedy_NoDup d l : greedy d l → NoDup l.
Proof.
  induction l as [|t l IH] using rev_ind; intros Hg; [constructor|].
  rewrite NoDup_app. destruct (Hg l t [] eq_refl) as [(_ & ? & _) _].
  split_and!; [by eapply IH, greedy_app_l|set_solver|apply NoDup_singleton].
Qed.

(** A greedy order is determined by its length. *)
Lemma greedy_prefix d l k : greedy d l → greedy d k → (length l ≤ length k)%nat → l `prefix_of` k.
Proof.
  intros Hl Hk. induction l as [|t l IH] using rev_ind; [intros; apply prefix_nil|].
  rewrite length_app. cbn. intros Hlen.
  destruct IH as [k' ->]; [by eapply greedy_app_l|lia|].
  destruct k' as [|u k']; [rewrite app_nil_r in Hlen; lia|].
  destruct (Hl l t [] eq_refl) as [Ht Htmin], (Hk l u k' eq_refl) as [Hu Humin].
  assert (t = u) as -> by (apply (anti_symm String.le); auto).
  exists k'. by rewrite <- app_assoc.
Qed.

(** ** The loop invariant of [kahn_loop] *)
Record kahn_inv (d : TaskDAG) (ordered ready : list string) (indegree : gmap string Z) : Prop := {
  ki_greedy : greedy d ordered;
  ki_sorted : StronglySorted String.le ready;
  ki_NoDup : NoDup ready;
  ki_ready : ∀ u, u ∈ ready ↔ available d ordered u;
  ki_degree : ∀ u, u ∈ task_ids d →
    indegree !! u = Some (Z.of_nat (size (deps d u ∖ list_to_set ordered)));
  ki_dom : ∀ u, is_Some (indegree !! u) → u ∈ task_ids d;
}.

Lemma kahn_relax_Some indegree ready x k :
  indegree !! x = Some k →
  kahn_relax (indegree, ready) x =
    Ok (<[x := (k - 1)%Z]> indegree, if (k - 1 =? 0)%Z then heappush x ready else ready).
Proof. unfold kahn_relax. by intros ->. Qed.

Lemma kahn_relax_fold (f : string → Z) l indegree ready :
  NoDup l → (∀ u, u ∈ l → indegree !! u = Some (f u)) →
  ∃ indegree' ready',
    fold_result kahn_relax (indegree, ready) l = Ok (indegree', ready') ∧
    (∀ u, u ∈ l → indegree' !! u = Some (f u - 1)%Z) ∧
    (∀ u, u ∉ l → indegree' !! u = indegree !! u) ∧
    ready' ≡ₚ filter (λ u, f u = 1%Z) l ++ ready ∧
    (StronglySorted String.le ready → StronglySorted String.le ready').
Proof.
  revert indegree ready. induction l as [|x l IH]; intros indegree ready.
  { intros _ _. exists indegree, ready. set_solver. }
  rewrite NoDup_cons. intros [Hx Hl] Hf.
  assert (fold_result kahn_relax (indegree, ready) (x :: l) =
    fold_result kahn_relax (<[x := (f x - 1)%Z]> indegree,
      if (f x - 1 =? 0)%Z then heappush x ready else ready) l) as ->.
  { cbn [fold_result]. by rewrite (kahn_relax_Some _ _ _ (f x)) by (apply Hf; by left). }
  edestruct (IH (<[x := (f x - 1)%Z]> indegree)) as (i' & r' & Hr & Hin & Hout & Hp & Hs);
    [done| |].
  { intros u Hu. rewrite lookup_insert_ne by set_solver. apply Hf. by right. }
  exists i', r'. split_and!; [exact Hr| | | |].
  - intros u [->|Hu]%elem_of_cons; [|by apply Hin].
    rewrite Hout by done. apply lookup_insert_eq.
  - intros u [? ?]%not_elem_of_cons. rewrite Hout by done. by apply lookup_insert_ne.
  - rewrite Hp, filter_cons. destruct (Z.eqb_spec (f x - 1) 0); case_decide; try lia; [|done].
    rewrite heappush_perm. by rewrite <- Permutation_middle.
  - intros Hsr. apply Hs. case_match; [by apply heappush_sorted|done].
Qed.

Section kahn.
Context (d : TaskDAG) (Hwf : graph_wf d).

Lemma available_after ordered t u :
  greedy d ordered → available d ordered t →
  available d (ordered ++ [t]) u ↔
  (available d ordered u ∧ u ≠ t) ∨ (edge d t u ∧ size (deps d u ∖ list_to_set ordered) = 1%nat).
Proof using Hwf.
  intros Hg (Ht & Hnt & Hdt). unfold available, edge.
  setoid_rewrite elem_of_app. setoid_rewrite list_elem_of_singleton. split.
  - intros (Hu & Hnu & Hdu). destruct (decide (t ∈ deps d u)) as [Htu|Htu].
    + right. split; [done|].
      assert (deps d u ∖ list_to_set ordered = {[t]}) as ->; [|apply size_singleton].
      apply set_eq. intros x.
      rewrite elem_of_difference, elem_of_list_to_set, elem_of_singleton. naive_solver.
    + left. split_and!; [done|tauto| |naive_solver].
      intros x Hx. destruct (Hdu x Hx) as [?| ->]; done.
  - intros [((? & ? & ?) & ?)|[Htu Hsz]]; [naive_solver|].
    destruct (deps_known d Hwf _ _ Htu) as [_ Hu].
    apply size_1_elem_of in Hsz as [x Hx].
    assert (Hx' : ∀ y, y ∈ deps d u ∧ y ∉ ordered ↔ y = x).
    { intros y. specialize (Hx y).
      by rewrite elem_of_difference, elem_of_list_to_set, elem_of_singleton in Hx. }
    assert (t = x) as <- by (by apply Hx').
    split_and!; [done| |].
    + intros [Hin| ->]; [|naive_solver].
      destruct (greedy_known _ _ _ Hg Hin) as [_ Hd]. naive_solver.
    + intros y Hy. destruct (decide (y ∈ ordered)); [by left|right; by apply Hx'].
Qed.

(** One iteration: pop the least ready task and relax its dependents. *)
Lemma kahn_step (dm : gmap string (gset string)) ordered t ready indegree X :
  kahn_inv d ordered (t :: ready) indegree →
  dm !! t = Some X → (∀ u, u ∈ X ↔ edge d t u) →
  ∃ indegree' ready',
    fold_result kahn_relax (indegree, ready) (sorted_set X) = Ok (indegree', ready') ∧
    kahn_inv d (ordered ++ [t]) ready' indegree'.
Proof using Hwf.
  intros [Hg Hs Hnd Hready Hdeg Hdom] HX HXs.
  assert (Ht : available d ordered t) by (apply Hready; by left).
  apply NoDup_cons in Hnd as [Hnt Hnd].
  apply StronglySorted_inv in Hs as [Hs Hmin].
  set (f u := Z.of_nat (size (deps d u ∖ list_to_set ordered))).
  destruct (kahn_relax_fold f (sorted_set X) indegree ready)
    as (i' & r' & Hr & Hin & Hout & Hp & Hsr).
  { apply NoDup_sorted_set. }
  { intros u. rewrite elem_of_sorted_set, HXs. intros Hu. apply Hdeg.
    by apply (deps_known d Hwf) in Hu as [_ ?]. }
  exists i', r'. split; [done|].
  assert (Hmem : ∀ u, u ∈ r' ↔ available d (ordered ++ [t]) u).
  { intros u. rewrite Hp, elem_of_app, list_elem_of_filter, elem_of_sorted_set, HXs.
    rewrite available_after by done. rewrite <- Hready, elem_of_cons. subst f. cbn.
    split; [intros [[? ?]|?]; [right; split; [done|lia]|left; set_solver]|].
    intros [[[->|?] ?]|[? ?]]; [done|by right|left; split; [lia|done]]. }
  split; [| |rewrite Hp; apply NoDup_app; split_and!| | |].
  - apply greedy_snoc; [done..|]. intros u Hu. apply Hready, elem_of_cons in Hu as [->|Hu]; [done|].
    rewrite Forall_forall in Hmin. by apply Hmin.
  - by apply Hsr.
  - apply NoDup_filter, NoDup_sorted_set.
  - intros u [_ Hu]%list_elem_of_filter Hur. rewrite elem_of_sorted_set, HXs in Hu.
    destruct Ht as (_ & ? & _). assert (Hau : available d ordered u) by (apply Hready; by right).
    destruct Hau as (_ & _ & Hau). by apply H, Hau.
  - done.
  - exact Hmem.
  - intros u Hu. destruct Ht as (_ & Hto & _).
    destruct (decide (edge d t u)) as [He|He]; unfold edge in He.
    + rewrite Hin by (by rewrite elem_of_sorted_set, HXs). subst f. cbn. f_equal.
      rewrite list_to_set_app_L. cbn.
      assert (deps d u ∖ list_to_set ordered =
              {[t]} ∪ deps d u ∖ (list_to_set ordered ∪ ({[t]} ∪ ∅))) as Heq.
      { apply set_eq. intros x. rewrite elem_of_union, !elem_of_difference, !elem_of_union,
          !elem_of_list_to_set, elem_of_singleton.
        destruct (decide (x = t)) as [->|]; set_solver. }
      rewrite Heq, size_union, size_singleton by set_solver. lia.
    + rewrite Hout by (by rewrite elem_of_sorted_set, HXs). rewrite Hdeg by done.
      do 3 f_equal. rewrite list_to_set_app_L. cbn. apply set_eq. intros x.
      rewrite !elem_of_difference, !elem_of_union, !elem_of_list_to_set, elem_of_singleton.
      destruct (decide (x = t)) as [->|]; set_solver.
  - intros u. destruct (decide (u ∈ sorted_set X)) as [Hu|Hu].
    + rewrite elem_of_sorted_set, HXs in Hu. by apply (deps_known d Hwf) in Hu as [_ ?].
    + rewrite Hout by done. apply Hdom.
Qed.

(** Fuel: every iteration places one more task. *)
Lemma kahn_loop_spec (dm : gmap string (gset string)) fuel ordered ready indegree :
  (∀ t, t ∈ task_ids d → ∃ X, dm !! t = Some X ∧ ∀ u, u ∈ X ↔ edge d t u) →
  kahn_inv d ordered ready indegree →
  (length (tasks d) < fuel + length ordered)%nat →
  ∃ ordered' indegree', kahn_loop fuel dm indegree ready ordered = Ok (ordered', indegree') ∧
    kahn_inv d ordered' [] indegree'.
Proof using Hwf.
  intros Hdm. revert ordered ready indegree.
  induction fuel as [|fuel IH]; intros ordered ready indegree Hinv Hfuel.
  { exfalso.
    assert (length ordered ≤ length (task_ids d))%nat.
    { apply submseteq_length, NoDup_submseteq; [by eapply greedy_NoDup, ki_greedy|].
      intros t Ht. by apply (greedy_known d ordered t (ki_greedy _ _ _ _ Hinv)). }
    unfold task_ids in *. rewrite length_fmap in *. lia. }
  destruct ready as [|t ready]; cbn; [eauto|].
  assert (Ht : available d ordered t) by (eapply ki_ready; [done|by left]).
  destruct (Hdm t) as (X & HX & HXs); [apply Ht|]. rewrite HX. cbn.
  destruct (kahn_step dm _ _ _ _ _ Hinv HX HXs) as (i' & r' & -> & Hinv'). cbn.
  apply IH; [done|]. rewrite length_app. cbn. lia.
Qed.
End kahn.

Section topo.
Context (d : TaskDAG) (Hwf : graph_wf d).

Lemma kahn_init :
  let indegree := (λ n, Z.of_nat (length (tn_depends_on n))) <$> _nodes_by_id d in
  kahn_inv d [] (heapify (fst <$> filter (λ p, p.2 = 0%Z) (map_to_list indegree))) indegree.
Proof using Hwf.
  intros indegree.
  assert (Hdeg : ∀ u, u ∈ task_ids d → indegree !! u = Some (Z.of_nat (size (deps d u)))).
  { intros u Hu. subst indegree. rewrite lookup_fmap. unfold deps.
    apply (nodes_is_Some d Hwf) in Hu as [n Hn]. rewrite Hn. cbn. do 2 f_equal.
    rewrite size_list_to_set; [done|]. apply (nodes_lookup d Hwf) in Hn as [? _].
    by apply (wf_deps d). }
  split.
  - apply greedy_nil.
  - apply sorted_strings_sorted.
  - apply NoDup_sorted_strings, NoDup_filter_keys.
  - intros u. rewrite elem_of_heapify, list_elem_of_fmap. unfold available. split.
    + intros ([? k] & -> & [Hk Hin]%list_elem_of_filter). cbn in *. subst k.
      apply elem_of_map_to_list in Hin. pose proof Hin as Hin'.
      subst indegree. rewrite lookup_fmap in Hin'. apply fmap_Some in Hin' as (n & Hn & _).
      assert (s ∈ task_ids d) as Hs by (apply (nodes_is_Some d Hwf); eauto).
      rewrite Hdeg in Hin by done. split_and!; [done|set_solver|].
      assert (size (deps d s) = 0%nat) as Hz by (injection Hin; lia).
      apply size_empty_inv in Hz. set_solver.
    + intros (Hu & _ & Hd). exists (u, 0%Z). split; [done|].
      apply list_elem_of_filter. split; [done|]. apply elem_of_map_to_list.
      rewrite Hdeg by done. assert (deps d u = ∅) as -> by set_solver. done.
  - intros u Hu. rewrite Hdeg by done. do 3 f_equal. set_solver.
  - intros u. subst indegree. rewrite lookup_fmap, fmap_is_Some. by apply nodes_is_Some.
Qed.

Lemma unresolved_spec ordered indegree :
  kahn_inv d ordered [] indegree →
  (fst <$> filter (λ p, (0 < p.2)%Z) (map_to_list indegree))
    ≡ₚ filter (.∉ ordered) (task_ids d).
Proof using Hwf.
  intros [Hg _ _ Hready Hdeg Hdom]. apply NoDup_Permutation.
  - apply NoDup_filter_keys.
  - apply NoDup_filter, Hwf.
  - intros u. rewrite list_elem_of_fmap, list_elem_of_filter. split.
    + intros ([v k] & -> & [Hk Hin%elem_of_map_to_list]%list_elem_of_filter). cbn in *.
      assert (Hv : v ∈ task_ids d) by eauto. split; [|done].
      intros Ho. rewrite Hdeg in Hin by done.
      destruct (greedy_known _ _ _ Hg Ho) as [_ Hd].
      assert (deps d v ∖ list_to_set ordered = ∅) as Hz.
      { apply set_eq. intros x. rewrite elem_of_difference, elem_of_list_to_set. set_solver. }
      rewrite Hz, size_empty in Hin. injection Hin. lia.
    + intros [Ho Hu]. eexists (u, _). split; [done|]. apply list_elem_of_filter.
      split; [|by apply elem_of_map_to_list, Hdeg]. cbn.
      enough (size (deps d u ∖ list_to_set ordered) ≠ 0%nat) by lia.
      intros Hz%size_empty_inv. assert (Hav : u ∈ []); [|set_solver].
      apply Hready. split_and!; [done..|]. intros x Hx.
      destruct (decide (x ∈ ordered)) as [|Hn]; [done|]. exfalso.
      apply (not_elem_of_empty (C:=gset string) x), Hz.
      by rewrite elem_of_difference, elem_of_list_to_set.
Qed.

(** The result of the sort in terms of the maximal greedy order. *)
Lemma topological_order_cases :
  ∃ ordered, greedy d ordered ∧ (∀ u, ¬ available d ordered u) ∧
    topological_order d =
      if (length ordered =? length (tasks d))%nat then Ok ordered
      else raise ValueError
        ("task DAG contains a dependency cycle involving: " +:+
           join ", " (sorted_strings (filter (.∉ ordered) (task_ids d)))).
Proof using Hwf.
  unfold topological_order. destruct (dependents_spec d Hwf) as (dm & -> & Hdm).
  cbn [mbind result_bind].
  destruct (kahn_loop_spec d Hwf dm (S (length (tasks d))) [] _ _ Hdm kahn_init)
    as (ordered & i' & -> & Hinv); [cbn; lia|].
  exists ordered. split; [apply Hinv|].
  assert (Hstuck : ∀ u, ¬ available d ordered u).
  { intros u Hu. apply (ki_ready _ _ _ _ Hinv) in Hu. set_solver. }
  split; [done|]. cbn [mbind result_bind].
  rewrite (size_nodes d Hwf). destruct (_ =? _)%nat; cbn; [done|].
  by rewrite (sorted_strings_proper _ _ (unresolved_spec _ _ Hinv)).
Qed.

Lemma greedy_complete ordered :
  greedy d ordered → (length ordered =? length (tasks d))%nat = true → ordered ≡ₚ task_ids d.
Proof using Hwf.
  intros Hg Hlen%Nat.eqb_eq. apply submseteq_length_Permutation.
  - apply NoDup_submseteq; [by eapply greedy_NoDup|].
    intros t Ht. by apply (greedy_known d ordered t Hg).
  - unfold task_ids. rewrite length_fmap. lia.
Qed.

Lemma topological_order_Ok l :
  topological_order d = Ok l → l ≡ₚ task_ids d ∧ greedy d l.
Proof using Hwf.
  destruct topological_order_cases as (ordered & Hg & _ & ->).
  destruct (_ =? _)%nat eqn:Hlen; [|done]. intros [= <-].
  split; [by apply greedy_complete|done].
Qed.

(** Position in a greedy order is a rank. *)
Lemma greedy_edge l u t : greedy d l → t ∈ l → edge d u t →
  ∃ l1 l2, l = l1 ++ (t :: l2) ∧ u ∈ l1.
Proof using.
  intros Hg (l1 & l2 & ->)%list_elem_of_split Hu. exists l1, l2. split; [done|].
  destruct (Hg l1 t l2 eq_refl) as [(_ & _ & Hd) _]. by apply Hd.
Qed.

Lemma greedy_acyclic l t : greedy d l → t ∈ l → ¬ downstream d t t.
Proof using.
  intros Hg Ht Hc.
  assert (Hdown : ∀ u v, downstream d u v → ∀ l1 l2, l = l1 ++ (v :: l2) → u ∈ l1).
  { induction 1 as [u v Huv|u w v Huw Hwv IH]; intros l1 l2 ->.
    - destruct (Hg l1 v l2 eq_refl) as [(_ & _ & Hd) _]. by apply Hd.
    - specialize (IH l1 l2 eq_refl). apply list_elem_of_split in IH as (k1 & k2 & ->).
      destruct (Hg k1 w (k2 ++ v :: l2)) as [(_ & _ & Hd) _]; [by rewrite <- app_assoc|].
      apply elem_of_app. left. by apply Hd. }
  pose proof Ht as (l1 & l2 & ->)%list_elem_of_split.
  specialize (Hdown _ _ Hc l1 l2 eq_refl).
  apply greedy_NoDup, NoDup_app in Hg as (_ & Hd & _). apply (Hd t Hdown). by left.
Qed.

Lemma stuck_cycle ordered :
  greedy d ordered → (∀ u, ¬ available d ordered u) →
  (length ordered =? length (tasks d))%nat = false → ∃ t, downstream d t t.
Proof using Hwf.
  intros Hg Hstuck Hlen%Nat.eqb_neq.
  set (X := task_id_set d ∖ list_to_set ordered).
  assert (HX : ∀ u, u ∈ X ↔ u ∈ task_ids d ∧ u ∉ ordered).
  { intros u. unfold X, task_id_set. by rewrite elem_of_difference, !elem_of_list_to_set. }
  destruct (finite_cycle X (edge d)) as (z & _ & Hz); [| |by exists z].
  - intros He. apply Hlen. apply Nat.le_antisymm.
    + rewrite <- (length_fmap node_id (tasks d)).
      apply submseteq_length, NoDup_submseteq; [by eapply greedy_NoDup|].
      intros t Ht. by apply (greedy_known d ordered t Hg).
    + rewrite <- (length_fmap node_id (tasks d)).
      apply submseteq_length, NoDup_submseteq; [apply Hwf|]. intros t Ht.
      destruct (decide (t ∈ ordered)) as [|Hn]; [done|]. exfalso.
      assert (t ∈ X) by (by apply HX). set_solver.
  - intros t [Ht Hnt]%HX. destruct (decide (Forall (.∈ ordered) (elements (deps d t)))) as [Hall|Hex].
    + exfalso. apply (Hstuck t). split_and!; [done..|]. intros u Hu.
      rewrite Forall_forall in Hall. by apply Hall, elem_of_elements.
    + apply not_Forall_Exists, Exists_exists in Hex as (u & Hu & Hno); [|apply _].
      apply elem_of_elements in Hu. exists u. split; [|done].
      apply HX. split; [|done]. by apply (deps_known d Hwf) in Hu as [? _].
Qed.

Lemma topological_order_acyclic :
  is_ok (topological_order d) = true ↔ ∀ t, ¬ downstream d t t.
Proof using Hwf.
  destruct topological_order_cases as (ordered & Hg & Hstuck & ->).
  destruct (_ =? _)%nat eqn:Hlen; cbn; split; try done.
  - intros _ t Ht. apply (greedy_acyclic ordered t Hg); [|done].
    apply (greedy_complete ordered Hg) in Hlen. rewrite Hlen.
    clear -Ht Hwf. unfold downstream in Ht.
    assert (∃ u, edge d t u) as [u Hu] by (inversion Ht; eauto).
    by apply (deps_known d Hwf) in Hu as [? ?].
  - intros Hac. destruct (stuck_cycle ordered Hg Hstuck Hlen) as [t Ht]. by destruct (Hac t).
Qed.
End topo.

(** ** The descendant search *)

(** [u] is a transitive dependent of a failed task and has not failed. *)
Definition blocked_by (d : TaskDAG) (failed : gset string) (u : string) : Prop :=
  u ∉ failed ∧ ∃ f, f ∈ failed ∧ downstream d f u.

Lemma visit_fold failed l blocked queue :
  ∃ new, foldl (visit_dependent failed) (blocked, queue) l
         = (blocked ∪ list_to_set new, queue ++ new) ∧ NoDup new ∧
    ∀ u, u ∈ new ↔ u ∈ l ∧ u ∉ failed ∧ u ∉ blocked.
Proof.
  revert blocked queue. induction l as [|x l IH]; intros blocked queue; cbn.
  { exists []. rewrite app_nil_r. split_and!; [f_equal; set_solver|constructor|set_solver]. }
  case_decide as Hx.
  - destruct (IH blocked queue) as (new & -> & Hnd & Hnew). exists new.
    split_and!; [done..|]. intros u. rewrite Hnew, elem_of_cons. naive_solver.
  - destruct (IH ({[x]} ∪ blocked) (queue ++ [x])) as (new & -> & Hnd & Hnew).
    assert (Hx' : x ∉ new) by (rewrite Hnew; set_solver).
    exists (x :: new). rewrite <- app_assoc. split_and!.
    + f_equal. cbn. set_solver.
    + by constructor.
    + intros u. rewrite elem_of_cons, Hnew, elem_of_cons, elem_of_union, elem_of_singleton.
      destruct (decide (u = x)) as [->|]; naive_solver.
Qed.

Record blocked_inv (d : TaskDAG) (failed blocked : gset string) (queue : list string) : Prop := {
  bi_queue : ∀ u, u ∈ queue → u ∈ failed ∪ blocked;
  bi_known : failed ∪ blocked ⊆ task_id_set d;
  bi_sound : ∀ u, u ∈ blocked → blocked_by d failed u;
  bi_closed : ∀ x u, x ∈ failed ∪ blocked → x ∉ queue → edge d x u → u ∈ failed ∪ blocked;
}.

Section blocked.
Context (d : TaskDAG) (Hwf : graph_wf d).

Lemma downstream_step failed x u :
  x ∈ failed ∨ blocked_by d failed x → edge d x u → u ∉ failed → blocked_by d failed u.
Proof using.
  intros Hx Hu Hn. split; [done|]. destruct Hx as [Hx|(_ & f & Hf & Hfx)].
  - exists x. split; [done|by apply tc_once].
  - exists f. split; [done|by eapply tc_r].
Qed.

Lemma blocked_step failed blocked x queue X :
  (∀ u, u ∈ X ↔ edge d x u) → blocked_inv d failed blocked (x :: queue) →
  ∃ blocked' queue',
    foldl (visit_dependent failed) (blocked, queue) (sorted_set X) = (blocked', queue') ∧
    blocked_inv d failed blocked' queue' ∧
    (length queue' + size (task_id_set d ∖ (failed ∪ blocked'))
      = length queue + size (task_id_set d ∖ (failed ∪ blocked)))%nat.
Proof using Hwf.
  intros HX [Hq Hk Hs Hc].
  destruct (visit_fold failed (sorted_set X) blocked queue) as (new & -> & Hnd & Hnew).
  setoid_rewrite elem_of_sorted_set in Hnew. setoid_rewrite HX in Hnew.
  exists (blocked ∪ list_to_set new), (queue ++ new). split; [done|].
  assert (Hx : x ∈ failed ∨ blocked_by d failed x).
  { destruct (proj1 (elem_of_union _ _ _) (Hq x (list_elem_of_here _ _))); eauto. }
  assert (Hnk : list_to_set new ⊆ task_id_set d ∖ (failed ∪ blocked)).
  { intros u. rewrite elem_of_list_to_set, Hnew. intros (He & ? & ?).
    apply (deps_known d Hwf) in He as [_ He]. unfold task_id_set.
    rewrite elem_of_difference, elem_of_list_to_set. set_solver. }
  split; [split|].
  - intros u. rewrite elem_of_app. intros [?|?]; [|set_solver].
    specialize (Hq u). set_solver.
  - set_solver.
  - intros u. rewrite elem_of_union, elem_of_list_to_set, Hnew. intros [?|(? & ? & _)]; [auto|].
    by eapply downstream_step.
  - intros y u Hy Hny He. rewrite elem_of_app in Hny.
    destruct (decide (u ∈ failed ∪ blocked)) as [|Hu]; [set_solver|].
    assert (y = x) as ->.
    { destruct (decide (y = x)); [done|]. destruct Hu. apply (Hc y u); [set_solver|set_solver|done]. }
    rewrite !elem_of_union, elem_of_list_to_set, Hnew. set_solver.
  - rewrite length_app.
    replace (task_id_set d ∖ (failed ∪ (blocked ∪ list_to_set new)))
      with ((task_id_set d ∖ (failed ∪ blocked)) ∖ list_to_set new) by set_solver.
    rewrite size_difference by done. rewrite size_list_to_set by done.
    pose proof (subseteq_size _ _ Hnk) as Hle. rewrite size_list_to_set in Hle by done. lia.
Qed.

Lemma blocked_loop_spec (dm : gmap string (gset string)) failed fuel blocked queue :
  (∀ t, t ∈ task_ids d → ∃ X, dm !! t = Some X ∧ ∀ u, u ∈ X ↔ edge d t u) →
  blocked_inv d failed blocked queue →
  (length queue + size (task_id_set d ∖ (failed ∪ blocked)) < fuel)%nat →
  ∃ B, blocked_loop fuel dm failed blocked queue = Ok B ∧ ∀ u, u ∈ B ↔ blocked_by d failed u.
Proof using Hwf.
  intros Hdm. revert blocked queue.
  induction fuel as [|fuel IH]; intros blocked queue Hinv Hfuel; [lia|].
  destruct queue as [|x queue]; cbn [blocked_loop].
  - exists blocked. split; [done|]. intros u. split; [apply Hinv|].
    intros (Hn & f & Hf & Hd). enough (u ∈ failed ∪ blocked) by set_solver.
    assert (Hf' : f ∈ failed ∪ blocked) by set_solver. clear Hf Hn Hfuel.
    induction Hd as [f u He|f y u He _ IHd]; [|apply IHd].
    all: eapply bi_closed; [done|done|apply not_elem_of_nil|done].
  - assert (Hx : x ∈ task_ids d).
    { rewrite <- (elem_of_list_to_set (C:=gset string)).
      eapply bi_known; [done|]. eapply bi_queue; [done|by left]. }
    destruct (Hdm x Hx) as (X & -> & HX). cbn [of_option mbind result_bind].
    destruct (blocked_step _ _ _ _ X HX Hinv) as (b' & q' & -> & Hinv' & Hsize).
    apply IH; [done|]. cbn in Hfuel. lia.
Qed.

Lemma blocked_task_ids_spec order failed :
  topological_order d = Ok order → failed ⊆ task_id_set d →
  ∃ l, blocked_task_ids d failed = Ok l ∧ l `sublist_of` order ∧
    ∀ u, u ∈ l ↔ blocked_by d failed u.
Proof using Hwf.
  intros Horder Hfailed. unfold blocked_task_ids, _validate_runtime_ids.
  rewrite check_true by (apply bool_decide_eq_true; set_solver). cbn [mbind result_bind].
  destruct (dependents_spec d Hwf) as (dm & -> & Hdm). cbn [mbind result_bind].
  destruct (blocked_loop_spec dm failed (S (length (tasks d))) ∅ (sorted_set failed) Hdm)
    as (B & -> & HB).
  { split; [|set_solver|set_solver|].
    - intros u. rewrite elem_of_sorted_set. set_solver.
    - intros x u Hx. rewrite elem_of_sorted_set. set_solver. }
  { unfold sorted_set. rewrite sorted_strings_perm.
    change (length (elements failed)) with (size failed).
    rewrite (right_id_L ∅ (∪)), size_difference by done.
    pose proof (subseteq_size _ _ Hfailed) as Hle.
    assert (size (task_id_set d) ≤ length (tasks d))%nat.
    { unfold task_id_set. rewrite size_list_to_set by apply Hwf.
      unfold task_ids. by rewrite length_fmap. }
    lia. }
  cbn [mbind result_bind]. rewrite Horder. cbn [mbind result_bind].
  exists (filter (.∈ B) order). split_and!; [done|apply sublist_filter|].
  intros u. rewrite list_elem_of_filter, HB. split; [by intros [? _]|].
  intros Hb. split; [done|].
  destruct (topological_order_Ok d Hwf _ Horder) as [Hperm _]. rewrite Hperm.
  destruct Hb as (_ & f & _ & Hd).
  assert (∃ w, edge d w u) as [w Hw].
  { clear -Hd. unfold downstream in Hd. induction Hd; eauto. }
  by apply (deps_known d Hwf) in Hw as [_ ?].
Qed.
End blocked.

(** ** The frontier *)
Section ready.
Context (d : TaskDAG) (Hwf : graph_wf d).

Definition ready_spec (completed failed : gset string) (t : string) : Prop :=
  t ∈ task_ids d ∧ t ∉ completed ∧ t ∉ failed ∧ ¬ blocked_by d failed t ∧
  deps d t ⊆ completed.

Lemma is_ready_true completed failed (blocked : gset string) t :
  t ∈ task_ids d →
  is_ready (_nodes_by_id d) completed failed blocked t = true ↔
  t ∉ completed ∧ t ∉ failed ∧ t ∉ blocked ∧ deps d t ⊆ completed.
Proof using Hwf.
  intros Ht. unfold is_ready, deps. apply (nodes_is_Some d Hwf) in Ht as [n ->].
  case_decide as Hc; [split; [done|]; naive_solver|].
  rewrite bool_decide_eq_true. naive_solver.
Qed.

Lemma ready_task_ids_spec order (completed failed : gset string) :
  topological_order d = Ok order →
  completed ⊆ task_id_set d → failed ⊆ task_id_set d → completed ## failed →
  (∀ t, t ∈ completed → ¬ blocked_by d failed t) →
  ∃ l, ready_task_ids d completed failed = Ok l ∧ l `sublist_of` order ∧
    ∀ t, t ∈ l ↔ ready_spec completed failed t.
Proof using Hwf.
  intros Horder Hc Hf Hdisj Hcons. unfold ready_task_ids, _validate_runtime_ids.
  rewrite !check_true by (apply bool_decide_eq_true; set_solver). cbn [mbind result_bind].
  destruct (blocked_task_ids_spec d Hwf order failed Horder Hf) as (b & -> & Hsub & Hb).
  cbn [mbind result_bind].
  rewrite check_true.
  2: { apply bool_decide_eq_true. apply elem_of_equiv_empty_L. intros t.
       rewrite elem_of_intersection, elem_of_list_to_set, Hb. intros [? ?]. by eapply Hcons. }
  rewrite Horder. cbn [mbind result_bind].
  eexists. split_and!; [done|apply sublist_filter|].
  destruct (topological_order_Ok d Hwf _ Horder) as [Hperm _].
  intros t. rewrite list_elem_of_filter, Hperm. unfold ready_spec. split.
  - intros [Hr Ht]. apply Is_true_true in Hr.
    apply is_ready_true in Hr as (? & ? & Hnb & ?); [|done].
    rewrite elem_of_list_to_set, Hb in Hnb. done.
  - intros (Ht & ? & ? & ? & ?). split; [|done]. apply Is_true_true, is_ready_true; [done|].
    by rewrite elem_of_list_to_set, Hb.
Qed.
End ready.

(** ** The interface of an accepted graph

    What the scheduler, the reconciler and the merge queue rely on. *)
Class ValidDag (d : TaskDAG) := {
  vd_order : list string;
  vd_topological : topological_order d = Ok vd_order;
  vd_wf : graph_wf d;
}.
Arguments vd_order d {_}.

Section interface.
Context (d : TaskDAG) `{Hd : ValidDag d}.

Lemma vd_perm : vd_order d ≡ₚ task_ids d.
Proof using Hd. apply topological_order_Ok; [apply vd_wf|apply vd_topological]. Qed.

Lemma vd_elem t : t ∈ vd_order d ↔ t ∈ task_ids d.
Proof using Hd. by rewrite vd_perm. Qed.

Lemma vd_nodup : NoDup (vd_order d).
Proof using Hd. rewrite vd_perm. apply vd_wf. Qed.

Lemma vd_greedy : greedy d (vd_order d).
Proof using Hd. apply topological_order_Ok; [apply vd_wf|apply vd_topological]. Qed.

Lemma vd_edge u t l1 l2 : edge d u t → vd_order d = l1 ++ (t :: l2) → u ∈ l1.
Proof using Hd.
  intros Hu Heq. destruct (vd_greedy l1 t l2 Heq) as [(_ & _ & Hall) _]. by apply Hall.
Qed.

Lemma vd_edge_known u t : edge d u t → u ∈ task_ids d ∧ t ∈ task_ids d.
Proof using Hd. intros Hu. by apply (deps_known d vd_wf) in Hu. Qed.

Lemma vd_acyclic t : ¬ downstream d t t.
Proof using Hd.
  assert (is_ok (topological_order d) = true) as Hok by by rewrite vd_topological.
  by apply topological_order_acyclic; [apply vd_wf|].
Qed.

Lemma vd_blocked failed :
  failed ⊆ task_id_set d →
  ∃ l, blocked_task_ids d failed = Ok l ∧ l `sublist_of` vd_order d ∧
    ∀ u, u ∈ l ↔ blocked_by d failed u.
Proof using Hd. apply blocked_task_ids_spec; [apply vd_wf|apply vd_topological]. Qed.

Lemma vd_ready (completed failed : gset string) :
  completed ⊆ task_id_set d → failed ⊆ task_id_set d → completed ## failed →
  (∀ t, t ∈ completed → ¬ blocked_by d failed t) →
  ∃ l, ready_task_ids d completed failed = Ok l ∧ l `sublist_of` vd_order d ∧
    ∀ t, t ∈ l ↔ ready_spec d completed failed t.
Proof using Hd. apply ready_task_ids_spec; [apply vd_wf|apply vd_topological]. Qed.

(** The first task of the order outside a set whose complement is closed
    under dependencies: every task set has a minimal element. *)
Lemma vd_minimal (P : string → Prop) `{!∀ t, Decision (P t)} :
  (∃ t, t ∈ task_ids d ∧ P t) →
  ∃ t, t ∈ task_ids d ∧ P t ∧ ∀ u, edge d u t → ¬ P u.
Proof using Hd.
  intros (t & Ht & HPt). apply vd_elem in Ht.
  destruct (list_find P (vd_order d)) as [[i x]|] eqn:Hfind.
  - apply list_find_Some in Hfind as (Hi & HPx & Hmin).
    exists x. split_and!; [apply vd_elem; by eapply list_elem_of_lookup_2|done|].
    intros u Hu HPu.
    pose proof (take_drop_middle _ _ _ Hi) as Heq. symmetry in Heq.
    apply (vd_edge _ _ _ _ Hu) in Heq as (j & Hj)%list_elem_of_lookup_1.
    apply lookup_take_Some in Hj as [Hj ?]. by eapply Hmin.
  - apply list_find_None in Hfind. rewrite Forall_forall in Hfind. by destruct (Hfind t).
Qed.
End interface.

(** What [TaskDAG(...)] accepts. *)
Lemma known_deps_missing nodes :
  let d := {| tasks := nodes |} in
  (list_to_set (mjoin (tn_depends_on <$> nodes)) ∖ task_id_set d : gset string) = ∅ ↔
  ∀ n dep, n ∈ nodes → dep ∈ tn_depends_on n → dep ∈ task_ids d.
Proof.
  intros d. rewrite elem_of_equiv_empty_L. unfold task_id_set.
  setoid_rewrite elem_of_difference. setoid_rewrite elem_of_list_to_set.
  setoid_rewrite list_elem_of_join. split.
  - intros H n dep Hn Hdep. destruct (decide (dep ∈ task_ids d)) as [|Hx]; [done|].
    destruct (H dep). split; [|done]. exists (tn_depends_on n). split; [done|].
    apply list_elem_of_fmap. eauto.
  - intros H dep [(ds & Hdep & (n & -> & Hn)%list_elem_of_fmap) Hnot]. by eapply Hnot, H.
Qed.

Lemma TaskDAG_new_cases nodes :
  Forall (λ n, NoDup (tn_depends_on n)) nodes →
  let d := {| tasks := nodes |} in
  (TaskDAG_new nodes = Ok d ∧ nodes ≠ [] ∧ graph_wf d ∧ is_ok (topological_order d) = true) ∨
  (∃ msg, TaskDAG_new nodes = Raise (Exn ValidationError msg) ∧
   ¬ (nodes ≠ [] ∧ graph_wf d ∧ is_ok (topological_order d) = true)).
Proof.
  intros Hnd d. subst d. unfold TaskDAG_new, validate_graph. set (d := {| tasks := nodes |}).
  destruct (min_length 1 nodes) eqn:Hmin.
  2: { right. rewrite (valid_if_false false) by done. eexists. split; [done|].
       intros (? & _). by destruct nodes. }
  rewrite (valid_if_true true) by done. cbn [mbind result_bind].
  destruct (no_duplicates (task_ids d)) eqn:Hdup; to_prop.
  2: { right. rewrite (valid_if_false false) by done. eexists. split; [done|].
       intros (_ & Hwf & _). apply bool_decide_eq_false in Hdup. apply Hdup, Hwf. }
  rewrite (valid_if_true true) by done. cbn [mbind result_bind].
  destruct (bool_decide (list_to_set (mjoin (tn_depends_on <$> tasks d)) ∖ task_id_set d = ∅))
    eqn:Hmiss; to_prop.
  2: { right. rewrite (valid_if_false false) by done. eexists. split; [done|]. intros (_ & Hwf & _).
       apply Hmiss, known_deps_missing. apply Hwf. }
  rewrite (valid_if_true true) by done. cbn [mbind result_bind].
  assert (Hwf : graph_wf d).
  { split; [done|by apply Forall_forall|by apply known_deps_missing]. }
  destruct (topological_order_cases d Hwf) as (ordered & _ & _ & ->).
  destruct (_ =? _)%nat; [left|right].
  - split_and!; [done|by destruct nodes|done|done].
  - eexists. split; [done|]. by intros (_ & _ & ?).
Qed.

Lemma TaskDAG_new_inv nodes d :
  Forall (λ n, NoDup (tn_depends_on n)) nodes → TaskDAG_new nodes = Ok d →
  d = {| tasks := nodes |} ∧ graph_wf d ∧ is_ok (topological_order d) = true.
Proof.
  intros Hnd Hnew.
  destruct (TaskDAG_new_cases nodes Hnd) as [(Hok & _ & ? & ?)|(msg & Hr & _)]; [|congruence].
  rewrite Hok in Hnew. by injection Hnew as <-.
Qed.

Lemma TaskNode_new_nodup raw n : TaskNode_new raw = Ok n → NoDup (tn_depends_on n).
Proof.
  unfold TaskNode_new, validate_dependencies, reject_self_dependency,
    validate_work_package_metadata. intros H. inv_valid. by to_prop.
Qed.

Definition valid_dag_of (d : TaskDAG) (Hwf : graph_wf d) l
  (Hl : topological_order d = Ok l) : ValidDag d :=
  {| vd_order := l; vd_topological := Hl; vd_wf := Hwf |}.

(** ** Properties *)

(** C6.  Deterministic scheduling order: for every graph [TaskDAG(...)]
    accepts, [topological_order] terminates without an error, lists every
    task exactly once, places each task after all of its dependencies and
    breaks ties by name: every position holds the least task whose
    dependencies are already placed. *)
Theorem topological_order_correct nodes d
    (Hnodes : Forall (λ n, NoDup (tn_depends_on n)) nodes) (Hd : TaskDAG_new nodes = Ok d) :
  ∃ l, topological_order d = Ok l ∧ NoDup l ∧ l ≡ₚ node_id <$> nodes ∧
    (∀ u t l1 l2, edge d u t → l = l1 ++ (t :: l2) → u ∈ l1) ∧ greedy d l.
Proof.
  destruct (TaskDAG_new_inv _ _ Hnodes Hd) as (-> & Hwf & Hok).
  destruct (topological_order _) as [l|] eqn:Hl; [|done].
  pose (V := valid_dag_of _ Hwf l Hl). exists l.
  split_and!; [done|apply (vd_nodup _ (Hd:=V))|apply (vd_perm _ (Hd:=V))| |apply (vd_greedy _ (Hd:=V))].
  intros u t l1 l2. apply (vd_edge _ (Hd:=V)).
Qed.

(** Cycle detection is exact: [TaskDAG(...)] accepts a list of nodes
    exactly when it is not empty, its task ids are distinct, every dependency
    names a node and no task is a transitive dependency of itself; every
    other list is refused with a [ValidationError]. *)
Theorem TaskDAG_new_accepts nodes (Hnodes : Forall (λ n, NoDup (tn_depends_on n)) nodes) :
  let d := {| tasks := nodes |} in
  (nodes ≠ [] ∧ NoDup (task_ids d) ∧
   (∀ n dep, n ∈ nodes → dep ∈ tn_depends_on n → dep ∈ task_ids d) ∧
   (∀ t, ¬ downstream d t t)
   → TaskDAG_new nodes = Ok d) ∧
  (¬ (nodes ≠ [] ∧ NoDup (task_ids d) ∧
      (∀ n dep, n ∈ nodes → dep ∈ tn_depends_on n → dep ∈ task_ids d) ∧
      (∀ t, ¬ downstream d t t))
   → ∃ msg, TaskDAG_new nodes = Raise (Exn ValidationError msg)).
Proof.
  intros d.
  assert (Hiff : (nodes ≠ [] ∧ NoDup (task_ids d) ∧
     (∀ n dep, n ∈ nodes → dep ∈ tn_depends_on n → dep ∈ task_ids d) ∧
     (∀ t, ¬ downstream d t t)) ↔
     nodes ≠ [] ∧ graph_wf d ∧ is_ok (topological_order d) = true).
  { split.
    - intros (? & ? & ? & ?).
      assert (graph_wf d) by (split; [done|by apply Forall_forall|done]).
      split_and!; [done..|by apply topological_order_acyclic].
    - intros (? & Hwf & ?).
      split_and!; [done|apply Hwf|apply Hwf|by apply topological_order_acyclic]. }
  rewrite Hiff.
  destruct (TaskDAG_new_cases nodes Hnodes) as [(Hok & Hall)|(msg & Hr & Hall)].
  - split; [by intros _|]. intros Hn. by destruct Hn.
  - split; [|by exists msg]. intros Hy. by destruct Hall.
Qed.

(** The order does not depend on how the nodes are listed: two accepted
    graphs over the same nodes have the same dependencies and the same
    order. *)
Theorem topological_order_declaration_order nodes nodes' d d'
    (Hnodes : Forall (λ n, NoDup (tn_depends_on n)) nodes) (Hperm : nodes ≡ₚ nodes')
    (Hd : TaskDAG_new nodes = Ok d) (Hd' : TaskDAG_new nodes' = Ok d') :
  topological_order d = topological_order d' ∧ ∀ t, deps d t = deps d' t.
Proof.
  assert (Hnodes' : Forall (λ n, NoDup (tn_depends_on n)) nodes') by by rewrite <- Hperm.
  destruct (TaskDAG_new_inv _ _ Hnodes Hd) as (-> & Hwf & Hok).
  destruct (TaskDAG_new_inv _ _ Hnodes' Hd') as (-> & Hwf' & Hok').
  destruct (topological_order _) as [l|] eqn:Hl; [|done].
  destruct (topological_order {| tasks := nodes' |}) as [l'|] eqn:Hl'; [|done].
  apply topological_order_Ok in Hl as [Hp Hg]; [|done].
  apply topological_order_Ok in Hl' as [Hp' Hg']; [|done].
  assert (Hids : task_ids {| tasks := nodes |} ≡ₚ task_ids {| tasks := nodes' |})
    by (unfold task_ids; cbn; by rewrite Hperm).
  assert (Hdeps : ∀ t, deps {| tasks := nodes |} t = deps {| tasks := nodes' |} t).
  { intros t. unfold deps. enough (_nodes_by_id {| tasks := nodes |} = _nodes_by_id {| tasks := nodes' |}) as -> by done.
    apply map_eq. intros k. apply option_eq. intros n.
    rewrite !nodes_lookup by done. cbn. by rewrite Hperm. }
  split; [|exact Hdeps]. f_equal.
  assert (Hav : ∀ l t, available {| tasks := nodes |} l t ↔ available {| tasks := nodes' |} l t).
  { intros k t. unfold available. by rewrite Hdeps, Hids. }
  assert (Hg2 : greedy {| tasks := nodes |} l').
  { intros l1 t l2 Heq. destruct (Hg' l1 t l2 Heq) as [? Hmin].
    split; [by apply Hav|]. intros u Hu. by apply Hmin, Hav. }
  assert (length l = length l') as Hlen by by rewrite Hp, Hp', Hids.
  apply prefix_length_eq; [|lia].
  apply (greedy_prefix _ _ _ Hg Hg2). lia.
Qed.

(** Failure propagation: for known failed ids, [blocked_task_ids]
    returns, in topological order and without repetition, exactly the tasks
    that have not failed themselves and transitively depend on a failed one;
    an unknown id is a [ValueError]. *)
Theorem blocked_task_ids_correct d (Hd : ValidDag d) failed :
  (failed ⊆ task_id_set d →
   ∃ l, blocked_task_ids d failed = Ok l ∧ l `sublist_of` vd_order d ∧ NoDup l ∧
     ∀ u, u ∈ l ↔ u ∉ failed ∧ ∃ f, f ∈ failed ∧ downstream d f u) ∧
  (¬ failed ⊆ task_id_set d →
   ∃ msg, blocked_task_ids d failed = Raise (Exn ValueError msg)).
Proof.
  split.
  - intros Hf. destruct (vd_blocked d failed Hf) as (l & Hl & Hsub & Hspec).
    exists l. split_and!; [done|done| |done].
    exact (sublist_NoDup _ _ (vd_nodup d) Hsub).
  - intros Hf. unfold blocked_task_ids, _validate_runtime_ids, check.
    rewrite bool_decide_false; [eauto|]. by rewrite unknown_empty.
Qed.

(** The frontier: for consistent progress facts, [ready_task_ids]
    returns in topological order exactly the tasks that are not completed,
    not failed, not blocked by a failure and whose dependencies are all
    completed; inconsistent facts (unknown ids, a task both completed and
    failed, a completed task below a failed one) are [ValueError]s. *)
Theorem ready_task_ids_correct d (Hd : ValidDag d) (completed failed : gset string) :
  (completed ⊆ task_id_set d ∧ failed ⊆ task_id_set d ∧ completed ## failed ∧
   (∀ t f, t ∈ completed → f ∈ failed → ¬ downstream d f t) →
   ∃ l, ready_task_ids d completed failed = Ok l ∧ l `sublist_of` vd_order d ∧
     ∀ t, t ∈ l ↔ t ∈ task_ids d ∧ t ∉ completed ∧ t ∉ failed ∧
                  (∀ f, f ∈ failed → ¬ downstream d f t) ∧ deps d t ⊆ completed) ∧
  (¬ (completed ⊆ task_id_set d ∧ failed ⊆ task_id_set d ∧ completed ## failed ∧
      (∀ t f, t ∈ completed → f ∈ failed → ¬ downstream d f t)) →
   ∃ msg, ready_task_ids d completed failed = Raise (Exn ValueError msg)).
Proof.
  assert (Hblk : ∀ t, t ∉ failed → blocked_by d failed t ↔ ∃ f, f ∈ failed ∧ downstream d f t)
    by (unfold blocked_by; naive_solver).
  split.
  - intros (Hc & Hf & Hdisj & Hcons).
    destruct (vd_ready d completed failed Hc Hf Hdisj) as (l & Hl & Hsub & Hspec).
    { intros t Ht (_ & f & Hff & Hd'). by eapply Hcons. }
    exists l. split_and!; [done|done|]. intros t. rewrite Hspec. unfold ready_spec.
    split; intros (? & ? & Hn & Hb & ?); specialize (Hblk t Hn); split_and!; try done.
    + intros f Hff Hdn. apply Hb, Hblk. by exists f.
    + intros (f & Hff & Hdn)%Hblk. by apply (Hb f).
  - intros Hbad. unfold ready_task_ids, _validate_runtime_ids.
    destruct (decide (completed ⊆ task_id_set d)) as [Hc|Hc].
    2: { rewrite (check_false (bool_decide (completed ∖ task_id_set d = ∅)));
           [by eexists|].
         apply bool_decide_eq_false. by intros ?%unknown_empty. }
    rewrite (check_true (bool_decide (completed ∖ task_id_set d = ∅))) by (apply bool_decide_eq_true; set_solver).
    cbn [mbind result_bind]. destruct (decide (failed ⊆ task_id_set d)) as [Hf|Hf].
    2: { rewrite (check_false (bool_decide (failed ∖ task_id_set d = ∅)));
           [by eexists|].
         apply bool_decide_eq_false. by intros ?%unknown_empty. }
    rewrite (check_true (bool_decide (failed ∖ task_id_set d = ∅))) by (apply bool_decide_eq_true; set_solver).
    cbn [mbind result_bind]. destruct (decide (completed ## failed)) as [Hdj|Hdj].
    2: { rewrite (check_false (bool_decide (completed ∩ failed = ∅)));
           [by eexists|].
         apply bool_decide_eq_false. by intros ?%overlap_empty. }
    rewrite (check_true (bool_decide (completed ∩ failed = ∅))) by (apply bool_decide_eq_true; set_solver).
    cbn [mbind result_bind].
    destruct (vd_blocked d failed Hf) as (b & -> & _ & Hb). cbn [mbind result_bind].
    rewrite check_false; [by eexists|apply bool_decide_eq_false].
    intros Hemp. apply Hbad. split_and!; [done..|]. intros t f Ht Hff Hdn.
    eapply (not_elem_of_empty (C:=gset string) t). rewrite <- Hemp.
    apply elem_of_intersection. rewrite elem_of_list_to_set, Hb. split; [done|].
    split; [set_solver|]. eauto.
Qed.

(** ** Concrete graphs *)
Definition sample_contract (id : string) : TaskContract := {|
  tc_task_id := id;
  tc_objective := "objective";
  tc_readable_files := [];
  tc_writable_files := ["src/**"];
  tc_readonly_files := [];
  tc_acceptance_criteria := ["done"];
  tc_verification_commands := ["pytest"];
  tc_max_retries := 1;
|}.
Definition sample_node (id : string) (depends_on : list string) : TaskNode := {|
  tn_task := sample_contract id;
  tn_depends_on := depends_on;
  tn_execution_mode := AGENT;
  tn_produces := [];
  tn_consumes := [];
  tn_complexity := None;
  tn_budget_allocation := None;
  tn_complexity_assessment := None;
  tn_resume_context := None;
|}.
(** A diamond [a → b, c → d] next to an independent task [e]. *)
Definition diamond : TaskDAG := {|
  tasks := [sample_node "d" ["b"; "c"]; sample_node "c" ["a"]; sample_node "e" [];
            sample_node "b" ["a"]; sample_node "a" []];
|}.

Lemma nodup_by_compute (l : list TaskNode) :
  forallb (λ n, no_duplicates (tn_depends_on n)) l = true →
  Forall (λ n, NoDup (tn_depends_on n)) l.
Proof.
  intros H. apply Forall_forall. intros n Hn. apply list_elem_of_In in Hn.
  eapply forallb_forall in H; [|done]. by to_prop.
Qed.

Lemma diamond_wf : graph_wf diamond.
Proof.
  apply (TaskDAG_new_inv (tasks diamond) diamond).
  - by apply nodup_by_compute.
  - by vm_compute.
Qed.
#[export] Instance diamond_valid : ValidDag diamond.
Proof.
  apply (valid_dag_of diamond diamond_wf ["a"; "b"; "c"; "d"; "e"]). vm_compute. reflexivity.
Defined.

Lemma topological_order_correct_witness :
  TaskDAG_new (tasks diamond) = Ok diamond ∧
  ∃ l, topological_order diamond = Ok l ∧ NoDup l ∧ l ≡ₚ node_id <$> tasks diamond ∧
    (∀ u t l1 l2, edge diamond u t → l = l1 ++ (t :: l2) → u ∈ l1) ∧ greedy diamond l.
Proof.
  split; [vm_compute; reflexivity|].
  apply (topological_order_correct (tasks diamond) diamond).
  - apply nodup_by_compute. vm_compute. reflexivity.
  - vm_compute. reflexivity.
Defined.

Lemma TaskDAG_new_accepts_witness :
  let nodes := [sample_node "a" ["b"]; sample_node "b" ["a"]] in
  ¬ (nodes ≠ [] ∧ NoDup (task_ids {| tasks := nodes |}) ∧
     (∀ n dep, n ∈ nodes → dep ∈ tn_depends_on n → dep ∈ task_ids {| tasks := nodes |}) ∧
     (∀ t, ¬ downstream {| tasks := nodes |} t t)) ∧
  ∃ msg, TaskDAG_new nodes = Raise (Exn ValidationError msg).
Proof.
  intros nodes.
  assert (¬ (nodes ≠ [] ∧ NoDup (task_ids {| tasks := nodes |}) ∧
     (∀ n dep, n ∈ nodes → dep ∈ tn_depends_on n → dep ∈ task_ids {| tasks := nodes |}) ∧
     (∀ t, ¬ downstream {| tasks := nodes |} t t))) as Hcyc.
  { intros (_ & _ & _ & H). apply (H "a"). apply tc_l with "b"; [|apply tc_once].
    - by_compute.
    - by_compute. }
  split; [exact Hcyc|].
  refine (proj2 (TaskDAG_new_accepts nodes _) Hcyc).
  apply nodup_by_compute. vm_compute. reflexivity.
Defined.

Lemma topological_order_declaration_order_witness :
  topological_order diamond = topological_order {| tasks := reverse (tasks diamond) |}.
Proof.
  refine (proj1 (topological_order_declaration_order (tasks diamond) (reverse (tasks diamond)) _ _ _ _ _ _)).
  - apply nodup_by_compute. vm_compute. reflexivity.
  - symmetry. apply reverse_Permutation.
  - vm_compute. reflexivity.
  - vm_compute. reflexivity.
Defined.

Lemma blocked_task_ids_correct_witness :
  ∃ l, blocked_task_ids diamond {["b"]} = Ok l ∧ l `sublist_of` vd_order diamond ∧ NoDup l ∧
    ∀ u, u ∈ l ↔ u ∉ ({["b"]} : gset string) ∧
      ∃ f, f ∈ ({["b"]} : gset string) ∧ downstream diamond f u.
Proof.
  refine (proj1 (blocked_task_ids_correct diamond diamond_valid {["b"]}) _).
  by_compute.
Defined.

Lemma ready_task_ids_correct_witness :
  ∃ l, ready_task_ids diamond {["a"]} ∅ = Ok l ∧ l `sublist_of` vd_order diamond ∧
    ∀ t, t ∈ l ↔ t ∈ task_ids diamond ∧ t ∉ ({["a"]} : gset string) ∧ t ∉ (∅ : gset string) ∧
      (∀ f, f ∈ (∅ : gset string) → ¬ downstream diamond f t) ∧ deps diamond t ⊆ {["a"]}.
Proof.
  refine (proj1 (ready_task_ids_correct diamond diamond_valid {["a"]} ∅) _).
  split_and!.
  - by_compute.
  - by_compute.
  - by_compute.
  - intros t f _ Hf. set_solver.
Defined.
