(* ===== verification/Scheduler.v ===== *)
(** * Scheduler: the DAG scheduler state machine ([runtime/scheduler.py])

    [DAGScheduler] keeps one [TaskScheduleState] per task and the log of its
    transitions.  Its methods run in the state-and-error monad [M], so that a
    method that raises half-way leaves the mutations it made.  The records
    of [models/scheduler.py] come first, with their validators.

    The theorems: the constructor and the operations never fail on a task in
    the state they require and change exactly the states they should, an
    operation refused leaves the scheduler as it was; in every reachable
    scheduler a task that left [PENDING] has all its dependencies
    [SUCCEEDED], [BLOCKED] means downstream of a failure, some task can
    always make progress until every task is terminal, a run has at most two
    operations per task, and the event log replays to the states. *)
From stdpp Require Import options.
From S2P Require Import Prelude Contracts Dag DagFacts.

(** ** [models/scheduler.py] *)
Inductive TaskScheduleState : Set :=
  | PENDING | READY | RUNNING | SUCCEEDED | FAILED | BLOCKED.
#[export] Instance TaskScheduleState_eq_dec : EqDecision TaskScheduleState.
Proof. solve_decision. Defined.

Definition TaskScheduleState_value (s : TaskScheduleState) : string :=
  match s with
  | PENDING => "PENDING" | READY => "READY" | RUNNING => "RUNNING"
  | SUCCEEDED => "SUCCEEDED" | FAILED => "FAILED" | BLOCKED => "BLOCKED"
  end.

Record TaskScheduleRecord : Set := {
  tsr_task_id : string;
  tsr_state : TaskScheduleState;
}.
Definition TaskScheduleRecord_new (raw : TaskScheduleRecord) : result TaskScheduleRecord :=
  valid_if ((1 <=? str_len (tsr_task_id raw)) && (str_len (tsr_task_id raw) <=? 128))%nat
    "task_id" ;;
  Ok raw.

Record SchedulerEvent : Set := {
  se_sequence : Z;
  se_task_id : string;
  se_from_state : TaskScheduleState;
  se_to_state : TaskScheduleState;
  se_detail : string;
}.
Definition reject_noop_transition (self : SchedulerEvent) : result SchedulerEvent :=
  valid_if (negb (bool_decide (se_from_state self = se_to_state self)))
    "scheduler events must represent a real state transition" ;;
  Ok self.
Definition SchedulerEvent_new (raw : SchedulerEvent) : result SchedulerEvent :=
  valid_if (0 <=? se_sequence raw)%Z "sequence" ;;
  valid_if ((1 <=? str_len (se_task_id raw)) && (str_len (se_task_id raw) <=? 128))%nat
    "task_id" ;;
  valid_if ((1 <=? str_len (se_detail raw)) && (str_len (se_detail raw) <=? 2000))%nat
    "detail" ;;
  reject_noop_transition raw.

Record SchedulerSnapshot : Set := {
  ss_tasks : list TaskScheduleRecord;
  ss_events : list SchedulerEvent;
}.
Definition SchedulerSnapshot_new (raw : SchedulerSnapshot) : result SchedulerSnapshot :=
  valid_if (no_duplicates (tsr_task_id <$> ss_tasks raw))
    "scheduler snapshot must contain each task exactly once" ;;
  Ok raw.

(** ** [runtime/scheduler.py] *)
Definition _TERMINAL_STATES : list TaskScheduleState := [SUCCEEDED; FAILED; BLOCKED].

Definition _ALLOWED_TRANSITIONS (s : TaskScheduleState) : list TaskScheduleState :=
  match s with
  | PENDING => [READY; BLOCKED]
  | READY => [RUNNING]
  | RUNNING => [SUCCEEDED; FAILED]
  | SUCCEEDED => []
  | FAILED => []
  | BLOCKED => []
  end.

Record DAGScheduler : Set := {
  _dag : TaskDAG;
  _states : gmap string TaskScheduleState;
  _events : list SchedulerEvent;
}.

Definition set_state (t : string) (st : TaskScheduleState) (s : DAGScheduler) : DAGScheduler :=
  {| _dag := _dag s; _states := <[t := st]> (_states s); _events := _events s |}.
Definition append_event (e : SchedulerEvent) (s : DAGScheduler) : DAGScheduler :=
  {| _dag := _dag s; _states := _states s; _events := _events s ++ [e] |}.

Definition _require_task (task_id : string) : M DAGScheduler TaskScheduleState := λ s,
  (of_option (Exn KeyError ("unknown task id: " +:+ task_id)) (_states s !! task_id), s).

(** [self._states[task_id]] *)
Definition state_at (task_id : string) : M DAGScheduler TaskScheduleState := λ s,
  (of_option (Exn KeyError task_id) (_states s !! task_id), s).

Definition state (task_id : string) : M DAGScheduler TaskScheduleState := _require_task task_id.

Definition _require_state (task_id : string) (expected : TaskScheduleState)
    : M DAGScheduler unit :=
  current ← _require_task task_id;
  ensure (bool_decide (current = expected)) ValueError
    ("task " +:+ task_id +:+ " must be " +:+ TaskScheduleState_value expected +:+
     " before this transition; current state is " +:+ TaskScheduleState_value current).

Definition _task_ids_with_state (st : TaskScheduleState) (s : DAGScheduler) : gset string :=
  dom (filter (λ p, p.2 = st) (_states s)).

Definition _transition (task_id : string) (next_state : TaskScheduleState) (detail : string)
    : M DAGScheduler unit :=
  current ← _require_task task_id;
  ensure (bool_decide (next_state ∈ _ALLOWED_TRANSITIONS current)) ValueError
    ("invalid DAG scheduler transition: " +:+ TaskScheduleState_value current +:+ " -> " +:+
     TaskScheduleState_value next_state +:+ " for " +:+ task_id) ;;
  modify (set_state task_id next_state) ;;
  events ← gets _events;
  event ← lift (SchedulerEvent_new {|
    se_sequence := Z.of_nat (length events);
    se_task_id := task_id;
    se_from_state := current;
    se_to_state := next_state;
    se_detail := detail;
  |});
  modify (append_event event).

Definition refresh_one (detail : string) (task_id : string) : M DAGScheduler unit :=
  st ← state_at task_id;
  if decide (st = PENDING) then _transition task_id READY detail else mret tt.

Definition _refresh_ready (detail : string) : M DAGScheduler unit :=
  dag ← gets _dag;
  completed ← gets (_task_ids_with_state SUCCEEDED);
  failed ← gets (_task_ids_with_state FAILED);
  ready ← lift (ready_task_ids dag completed failed);
  for_each ready (refresh_one detail).

(** [DAGScheduler(dag)] *)
Definition DAGScheduler_init (dag : TaskDAG) : result DAGScheduler :=
  let '(r, s) := _refresh_ready "All dependencies are satisfied at scheduler initialization."
    {| _dag := dag; _states := gset_to_gmap PENDING (task_id_set dag); _events := [] |} in
  r ;; Ok s.

Definition is_terminal (s : DAGScheduler) : bool :=
  forallb (λ p, bool_decide (p.2 ∈ _TERMINAL_STATES)) (map_to_list (_states s)).

Fixpoint states_of (s : DAGScheduler) (order : list string)
    : result (list (string * TaskScheduleState)) :=
  match order with
  | [] => Ok []
  | t :: order =>
      st ← of_option (Exn KeyError t) (_states s !! t);
      rest ← states_of s order;
      Ok ((t, st) :: rest)
  end.

Definition pick (st : TaskScheduleState) (rows : list (string * TaskScheduleState)) : list string :=
  fst <$> filter (λ p, p.2 = st) rows.

Definition task_ids_in_state (st : TaskScheduleState) (s : DAGScheduler)
    : result (list string) :=
  order ← topological_order (_dag s);
  rows ← states_of s order;
  Ok (pick st rows).

Definition scheduler_ready_task_ids (s : DAGScheduler) : result (list string) :=
  task_ids_in_state READY s.

Definition start (task_id : string) : M DAGScheduler unit :=
  _require_state task_id READY ;;
  _transition task_id RUNNING "Task execution started.".

Definition succeed (task_id : string) : M DAGScheduler unit :=
  _require_state task_id RUNNING ;;
  _transition task_id SUCCEEDED "Task execution completed successfully." ;;
  _refresh_ready ("Dependencies satisfied after " +:+ task_id +:+ " succeeded.").

(** The [invalid] list of [_assert_blockable]. *)
Fixpoint unblockable (s : DAGScheduler) (l : list string) : result (list string) :=
  match l with
  | [] => Ok []
  | t :: l =>
      st ← of_option (Exn KeyError t) (_states s !! t);
      rest ← unblockable s l;
      Ok (if decide (st = PENDING ∨ st = BLOCKED) then rest
          else (t +:+ "=" +:+ TaskScheduleState_value st) :: rest)
  end.

Definition _assert_blockable (blocked_task_ids : gset string) : M DAGScheduler unit :=
  s ← get;
  invalid_ids ← lift (unblockable s (sorted_set blocked_task_ids));
  ensure (bool_decide (invalid_ids = [])) RuntimeError
    ("scheduler invariant violation: failed dependency would block "
     +:+ "a ready/active/terminal task: " +:+ join ", " invalid_ids).

Definition block_one (blocked : gset string) (task_id : string) : M DAGScheduler unit :=
  if decide (task_id ∉ blocked) then mret tt else
  st ← state_at task_id;
  if decide (st = BLOCKED) then mret tt
  else _transition task_id BLOCKED "Blocked by a failed upstream dependency.".

Definition fail (task_id : string) : M DAGScheduler unit :=
  _require_state task_id RUNNING ;;
  dag ← gets _dag;
  failed ← gets (_task_ids_with_state FAILED);
  blocked_list ← lift (blocked_task_ids dag (failed ∪ {[task_id]}));
  let blocked_after_transition := list_to_set blocked_list : gset string in
  _assert_blockable blocked_after_transition ;;
  _transition task_id FAILED "Task execution failed." ;;
  order ← lift (topological_order dag);
  for_each order (block_one blocked_after_transition).

Definition snapshot (s : DAGScheduler) : result SchedulerSnapshot :=
  order ← topological_order (_dag s);
  rows ← states_of s order;
  records ← map_result (λ p, TaskScheduleRecord_new
               {| tsr_task_id := p.1; tsr_state := p.2 |}) rows;
  SchedulerSnapshot_new {| ss_tasks := records; ss_events := _events s |}.

(** ** Runs of a scheduler *)
Inductive operation : Set := OpStart (t : string) | OpSucceed (t : string) | OpFail (t : string).
Definition run_operation (op : operation) : M DAGScheduler unit :=
  match op with OpStart t => start t | OpSucceed t => succeed t | OpFail t => fail t end.

(** The schedulers reachable from the constructor, with the operations that
    returned normally; one that raised leaves the state it had reached. *)
Inductive reachable (d : TaskDAG) : list operation → DAGScheduler → Prop :=
  | reachable_init s : DAGScheduler_init d = Ok s → reachable d [] s
  | reachable_ok ops s op s' :
      reachable d ops s → run_operation op s = (Ok tt, s') → reachable d (ops ++ [op]) s'
  | reachable_raise ops s op e s' :
      reachable d ops s → run_operation op s = (Raise e, s') → reachable d ops s'.

(** ** The event log *)
Definition apply_event (m : option (gmap string TaskScheduleState)) (e : SchedulerEvent)
    : option (gmap string TaskScheduleState) :=
  states ← m;
  current ← states !! se_task_id e;
  if decide (current = se_from_state e ∧ se_to_state e ∈ _ALLOWED_TRANSITIONS current)
  then Some (<[se_task_id e := se_to_state e]> states)
  else None.

(** Replaying the log from the initial states. *)
Definition replay (d : TaskDAG) (events : list SchedulerEvent)
    : option (gmap string TaskScheduleState) :=
  foldl apply_event (Some (gset_to_gmap PENDING (task_id_set d))) events.

Definition log_ok (d : TaskDAG) (s : DAGScheduler) : Prop :=
  replay d (_events s) = Some (_states s) ∧
  ∀ i e, _events s !! i = Some e → se_sequence e = Z.of_nat i.

(** ** Single transitions and loops of transitions *)
Definition moved (t : string) (cur next : TaskScheduleState) (detail : string)
    (s : DAGScheduler) : DAGScheduler :=
  append_event {| se_sequence := Z.of_nat (length (_events s)); se_task_id := t;
                  se_from_state := cur; se_to_state := next; se_detail := detail |}
    (set_state t next s).

Definition id_ok (t : string) : Prop := (1 ≤ str_len t ≤ 128)%nat.
Definition detail_ok (t : string) : Prop := (1 ≤ str_len t ≤ 2000)%nat.

Lemma SchedulerEvent_new_Ok e :
  (0 ≤ se_sequence e)%Z → id_ok (se_task_id e) → detail_ok (se_detail e) →
  se_from_state e ≠ se_to_state e → SchedulerEvent_new e = Ok e.
Proof.
  intros Hseq Hid Hdet Hne. unfold SchedulerEvent_new, reject_noop_transition.
  rewrite (valid_if_true _ "sequence") by by apply Z.leb_le.
  rewrite (valid_if_true _ "task_id") by by apply len_between.
  rewrite (valid_if_true _ "detail") by by apply len_between.
  cbn [mbind result_bind]. by rewrite valid_if_true by by rewrite bool_decide_false.
Qed.

Lemma transition_spec t cur next detail s :
  _states s !! t = Some cur → next ∈ _ALLOWED_TRANSITIONS cur → id_ok t → detail_ok detail →
  _transition t next detail s = (Ok tt, moved t cur next detail s).
Proof.
  intros Hcur Hnext Hid Hdet.
  unfold _transition, _require_task, mbind, M_bind. rewrite Hcur. cbn -[SchedulerEvent_new].
  rewrite bool_decide_true by done. cbn -[SchedulerEvent_new].
  unfold lift. rewrite SchedulerEvent_new_Ok; [done|cbn; lia|done|done|].
  cbn. intros ->. revert Hnext. destruct next; cbn; set_solver.
Qed.

Lemma moved_log d t cur next detail s :
  _states s !! t = Some cur → next ∈ _ALLOWED_TRANSITIONS cur → log_ok d s →
  log_ok d (moved t cur next detail s).
Proof.
  intros Hcur Hnext [Hrep Hseq]. split.
  - cbn. unfold replay in *. rewrite foldl_app, Hrep. cbn. rewrite Hcur. cbn.
    by rewrite decide_True.
  - cbn. intros i e [[? Hi]|[-> <-]]%lookup_snoc_Some; [by apply Hseq|done].
Qed.

(** A loop that moves every pending task satisfying [cond] to [next]. *)
Lemma loop_spec d next detail cond body l s :
  next ∈ _ALLOWED_TRANSITIONS PENDING → detail_ok detail → NoDup l →
  (∀ t s', t ∈ l → is_Some (_states s' !! t) →
     body t s' = if (cond t (_states s' !! t) : bool) then _transition t next detail s'
                 else (Ok tt, s')) →
  (∀ t, t ∈ l → id_ok t ∧ is_Some (_states s !! t)) →
  (∀ t, t ∈ l → cond t (_states s !! t) = true → _states s !! t = Some PENDING) →
  log_ok d s →
  ∃ s', for_each l body s = (Ok tt, s') ∧ _dag s' = _dag s ∧ log_ok d s' ∧
    ∀ k, _states s' !! k =
      if decide (k ∈ l ∧ cond k (_states s !! k) = true) then Some next else _states s !! k.
Proof.
  intros Hnext Hdet Hnd Hbody. revert s Hnd.
  induction l as [|t l IH]; intros s Hnd Hknown Hpend Hlog.
  { exists s. split_and!; [done..|]. intros k. rewrite decide_False; [done|set_solver]. }
  apply NoDup_cons in Hnd as [Ht Hnd].
  destruct (Hknown t) as [Hid Hsome]; [by left|].
  cbn [for_each]. unfold mbind, M_bind.
  rewrite (Hbody t s (list_elem_of_here _ _) Hsome).
  destruct (cond t (_states s !! t)) eqn:Hc.
  - pose proof (Hpend t (list_elem_of_here _ _) Hc) as Hp.
    rewrite (transition_spec t PENDING) by done.
    destruct (IH ltac:(intros; apply Hbody; [by right|done]) (moved t PENDING next detail s))
      as (s' & Hs' & Hdag & Hlog' & Hst).
    + done.
    + intros k Hk. cbn. rewrite lookup_insert_ne by (by intros ->). apply Hknown. by right.
    + intros k Hk. cbn. rewrite lookup_insert_ne by (by intros ->). apply Hpend. by right.
    + by apply moved_log.
    + exists s'. split_and!; [done|done|done|]. intros k. rewrite Hst. cbn.
      destruct (decide (k = t)) as [->|Hne].
      * rewrite lookup_insert_eq. rewrite decide_False by tauto.
        rewrite decide_True; [done|]. split; [by left|done].
      * rewrite lookup_insert_ne by done. apply decide_ext. set_solver.
  - destruct (IH ltac:(intros; apply Hbody; [by right|done]) s) as (s' & Hs' & Hdag & Hlog' & Hst).
    + done.
    + intros k Hk. apply Hknown. by right.
    + intros k Hk. apply Hpend. by right.
    + done.
    + exists s'. split_and!; [done..|]. intros k. rewrite Hst. apply decide_ext.
      rewrite elem_of_cons. destruct (decide (k = t)) as [->|]; [|tauto].
      rewrite Hc. naive_solver.
Qed.

(** ** Invariants *)
Notation has s t st := (_states s !! t = Some st).

(** [core d s]: everything but the completeness of the frontier. *)
Record core (d : TaskDAG) (s : DAGScheduler) : Prop := {
  c_dag : _dag s = d;
  c_dom : ∀ t, is_Some (_states s !! t) ↔ t ∈ task_ids d;
  c_deps : ∀ t u, ¬ has s t PENDING → ¬ has s t BLOCKED → edge d u t → has s u SUCCEEDED;
  c_blocked : ∀ t, has s t BLOCKED ↔ blocked_by d (_task_ids_with_state FAILED s) t;
  c_log : log_ok d s;
}.
(** [frontier d s]: no pending task has all its dependencies done. *)
Definition frontier (d : TaskDAG) (s : DAGScheduler) : Prop :=
  ∀ t, has s t PENDING → ∃ u, edge d u t ∧ ¬ has s u SUCCEEDED.
Definition sched_inv (d : TaskDAG) (s : DAGScheduler) : Prop := core d s ∧ frontier d s.

Lemma elem_of_with_state st s t : t ∈ _task_ids_with_state st s ↔ has s t st.
Proof.
  unfold _task_ids_with_state. rewrite elem_of_dom. unfold is_Some.
  setoid_rewrite map_lookup_filter_Some. naive_solver.
Qed.

Section invariant.
Context (d : TaskDAG) `{Hd : ValidDag d}.
Context (Hids : ∀ t, t ∈ task_ids d → id_ok t).

Lemma known_with_state st s : core d s → _task_ids_with_state st s ⊆ task_id_set d.
Proof using.
  intros Hc t. rewrite elem_of_with_state. intros Ht. unfold task_id_set.
  rewrite elem_of_list_to_set. apply (c_dom d s Hc). by rewrite Ht.
Qed.

(** Below a task that has not succeeded everything waits. *)
Lemma below_unfinished s x u :
  core d s → ¬ has s x SUCCEEDED → downstream d x u → has s u PENDING ∨ has s u BLOCKED.
Proof using.
  intros Hc Hx Hxu. revert Hx. induction Hxu as [x u He|x y u He _ IH]; intros Hx.
  - destruct (decide (has s u PENDING)); [auto|].
    destruct (decide (has s u BLOCKED)); [auto|].
    by destruct Hx; eapply c_deps.
  - apply IH. intros Hy. apply Hx. eapply c_deps; [done|..|done]; congruence.
Qed.

Lemma succeeded_not_blocked s t :
  core d s → has s t SUCCEEDED → ¬ blocked_by d (_task_ids_with_state FAILED s) t.
Proof using.
  intros Hc Ht Hb. apply (c_blocked d s Hc) in Hb. congruence.
Qed.

Lemma refresh_spec detail s :
  core d s → detail_ok detail →
  ∃ s', _refresh_ready detail s = (Ok tt, s') ∧ sched_inv d s' ∧
    ∀ t, _states s' !! t =
      if decide (has s t PENDING ∧ ∀ u, u ∈ deps d t → has s u SUCCEEDED)
      then Some READY else _states s !! t.
Proof using Hd Hids.
  intros Hc Hdet.
  destruct (vd_ready d (_task_ids_with_state SUCCEEDED s) (_task_ids_with_state FAILED s))
    as (l & Hl & Hsub & Hspec).
  { by apply known_with_state. }
  { by apply known_with_state. }
  { intros t. rewrite !elem_of_with_state. congruence. }
  { intros t. rewrite elem_of_with_state. by apply succeeded_not_blocked. }
  assert (Hl' : ∀ t, t ∈ l ∧ bool_decide (has s t PENDING) = true ↔
                has s t PENDING ∧ ∀ u, u ∈ deps d t → has s u SUCCEEDED).
  { intros t. rewrite Hspec, bool_decide_eq_true. unfold ready_spec.
    rewrite !elem_of_with_state. unfold subseteq, set_subseteq_instance.
    setoid_rewrite elem_of_with_state. split; [tauto|]. intros [Hp Hdp].
    split_and!; [| | | |done|done]; try congruence.
    - apply (c_dom d s Hc). by rewrite Hp.
    - intros Hb. apply (c_blocked d s Hc) in Hb. congruence. }
  destruct (loop_spec d READY detail (λ t st, bool_decide (st = Some PENDING))
              (refresh_one detail) l s) as (s' & Hs' & Hdag & Hlog & Hst).
  { cbn. set_solver. }
  { done. }
  { exact (sublist_NoDup _ _ (vd_nodup d) Hsub). }
  { intros t s0 _ [st Hst]. unfold refresh_one, state_at, mbind, M_bind. rewrite Hst. cbn.
    destruct (decide (st = PENDING)) as [->|]; [by rewrite bool_decide_true|].
    rewrite bool_decide_false; [done|congruence]. }
  { intros t [Ht _]%Hspec. split; [by apply Hids|]. by apply c_dom with d. }
  { intros t _ Hb. by apply bool_decide_eq_true in Hb. }
  { apply Hc. }
  assert (Hst' : ∀ t, _states s' !! t =
      if decide (has s t PENDING ∧ ∀ u, u ∈ deps d t → has s u SUCCEEDED)
      then Some READY else _states s !! t).
  { intros t. rewrite Hst. by apply decide_ext. }
  exists s'. split; [|split; [|done]].
  { unfold _refresh_ready, gets, lift, mbind, M_bind.
    rewrite (c_dag d s Hc), Hl. exact Hs'. }
  assert (Hsame : ∀ t st, st ≠ PENDING → st ≠ READY → has s' t st ↔ has s t st).
  { intros t st ??. rewrite Hst'. case_decide as Hr; [|done].
    destruct Hr as [-> _]. split; congruence. }
  split; [split|].
  - rewrite Hdag. apply Hc.
  - intros t. rewrite Hst', <- (c_dom d s Hc). case_decide as Hr; [|done].
    destruct Hr as [-> _]. split; eauto.
  - intros t u. rewrite (Hsame _ BLOCKED), (Hsame _ SUCCEEDED) by done.
    rewrite Hst'. case_decide as Hr; [intros _ _ Hu; by apply Hr|]. apply (c_deps d s Hc).
  - intros t. rewrite Hsame by done. rewrite (c_blocked d s Hc).
    enough (_task_ids_with_state FAILED s' = _task_ids_with_state FAILED s) as -> by done.
    apply set_eq. intros x. by rewrite !elem_of_with_state, Hsame.
  - done.
  - intros t. rewrite Hst'. case_decide as Hr; [done|]. intros Hp.
    destruct (decide (Exists (λ u, ¬ has s u SUCCEEDED) (elements (deps d t)))) as [Hex|Hno].
    + apply Exists_exists in Hex as (u & Hu%elem_of_elements & Hn). exists u. split; [done|].
      by rewrite Hsame.
    + destruct Hr. split; [done|]. intros u Hu.
      destruct (decide (has s u SUCCEEDED)); [done|]. destruct Hno. apply Exists_exists.
      exists u. by rewrite elem_of_elements.
Qed.

(** *** The constructor *)
Lemma init_spec :
  ∃ s, DAGScheduler_init d = Ok s ∧ sched_inv d s ∧
    ∀ t, t ∈ task_ids d → _states s !! t = Some (if decide (deps d t = ∅) then READY else PENDING).
Proof using Hd Hids.
  set (s0 := {| _dag := d; _states := gset_to_gmap PENDING (task_id_set d); _events := [] |}).
  assert (Hst : ∀ t, _states s0 !! t = if decide (t ∈ task_ids d) then Some PENDING else None).
  { intros t. cbn. unfold task_id_set. case_decide as Hin.
    - by apply lookup_gset_to_gmap_Some; rewrite elem_of_list_to_set.
    - by apply lookup_gset_to_gmap_None; rewrite elem_of_list_to_set. }
  assert (Hno : ∀ t st, has s0 t st → st = PENDING).
  { intros t st. rewrite Hst. by case_decide; intros [= <-]. }
  assert (Hc : core d s0).
  { split; [done| | | |].
    - intros t. rewrite Hst. case_decide; split; [done|by eexists|by intros [??]|done].
    - intros t u Hnp _ Hu. destruct Hnp. rewrite Hst.
      apply (vd_edge_known d) in Hu as [_ Hu]. by rewrite decide_True.
    - intros t. split; [by intros ?%Hno|]. intros (_ & f & Hf & _).
      apply elem_of_with_state in Hf. by apply Hno in Hf.
    - split; [done|]. by intros i e. }
  destruct (refresh_spec "All dependencies are satisfied at scheduler initialization." s0 Hc)
    as (s & Hs & Hinv & Hstates); [by vm_compute; split; lia|].
  exists s. split_and!; [|done|].
  - unfold DAGScheduler_init. fold s0. by rewrite Hs.
  - intros t Ht. rewrite Hstates, !Hst, !(decide_True _ _ Ht).
    destruct (decide (deps d t = ∅)) as [He|Hne].
    + rewrite decide_True; [done|]. split; [done|]. rewrite He. set_solver.
    + rewrite decide_False; [done|]. intros [_ Hall].
      apply set_choose_L in Hne as [u Hu]. specialize (Hall u Hu). by apply Hno in Hall.
Qed.

(** *** Preservation by one transition *)
Lemma moved_core s t cur next detail :
  core d s → has s t cur → next ∈ _ALLOWED_TRANSITIONS cur →
  next ≠ BLOCKED → next ≠ FAILED →
  (∀ u, edge d u t → has s u SUCCEEDED) →
  core d (moved t cur next detail s).
Proof using.
  intros Hc Hcur Hnext Hnb Hnf Hdeps.
  assert (Hsucc : cur ≠ SUCCEEDED ∧ cur ≠ FAILED ∧ cur ≠ BLOCKED)
    by (split_and!; intros ->; by apply not_elem_of_nil in Hnext).
  assert (Hkeep : ∀ u, has s u SUCCEEDED → has (moved t cur next detail s) u SUCCEEDED).
  { intros u Hu. cbn. rewrite lookup_insert_ne; [done|]. intros ->. naive_solver. }
  split.
  - apply Hc.
  - intros u. cbn. rewrite lookup_insert_is_Some, <- (c_dom d s Hc).
    destruct (decide (t = u)) as [->|]; [rewrite Hcur|]; naive_solver.
  - intros u w. cbn. intros Hu Hu' Hw. apply Hkeep. destruct (decide (t = u)) as [->|Hne]; [by apply Hdeps|].
    rewrite lookup_insert_ne in Hu, Hu' by done. by eapply c_deps.
  - intros u. assert (_task_ids_with_state FAILED (moved t cur next detail s)
                      = _task_ids_with_state FAILED s) as Hf.
    { apply set_eq. intros x. rewrite !elem_of_with_state. cbn.
      destruct (decide (t = x)) as [->|]; simplify_map_eq; naive_solver. }
    rewrite Hf, <- (c_blocked d s Hc). cbn.
    destruct (decide (t = u)) as [->|]; simplify_map_eq; naive_solver.
  - apply (moved_log d _ _ _ _ _ Hcur Hnext), Hc.
Qed.

Lemma require_state_ok t st s : has s t st → _require_state t st s = (Ok tt, s).
Proof using.
  intros Ht. unfold _require_state, _require_task, ensure, lift, mbind, M_bind. rewrite Ht.
  cbn. by rewrite bool_decide_true.
Qed.

Lemma moved_frontier s t cur next detail :
  frontier d s → has s t cur → cur ≠ SUCCEEDED → next ≠ PENDING → next ≠ SUCCEEDED →
  frontier d (moved t cur next detail s).
Proof using.
  intros Hf Hcur Hcs Hnp Hns u. cbn. destruct (decide (t = u)) as [->|Hne]; simplify_map_eq.
  { congruence. }
  intros (w & Hw & Hwn)%Hf. exists w. split; [done|].
  destruct (decide (t = w)) as [->|]; simplify_map_eq; congruence.
Qed.

Lemma start_spec s t :
  sched_inv d s → has s t READY →
  start t s = (Ok tt, moved t READY RUNNING "Task execution started." s) ∧
  sched_inv d (moved t READY RUNNING "Task execution started." s).
Proof using Hids.
  intros [Hc Hf] Ht.
  assert (id_ok t) by (apply Hids, (c_dom d s Hc); by rewrite Ht).
  split; [|split].
  - unfold start, mbind, M_bind. rewrite (require_state_ok t READY s Ht).
    apply transition_spec; [done|by left|done|by vm_compute; split; lia].
  - apply moved_core; try done; [by left|]. intros u Hu. eapply c_deps; [done|..|done]; congruence.
  - by apply moved_frontier.
Qed.

Lemma succeed_spec s t :
  sched_inv d s → has s t RUNNING →
  ∃ s', succeed t s = (Ok tt, s') ∧ sched_inv d s' ∧
    ∀ u, _states s' !! u =
      if decide (u = t) then Some SUCCEEDED
      else if decide (has s u PENDING ∧ ∀ w, w ∈ deps d u → w = t ∨ has s w SUCCEEDED)
      then Some READY else _states s !! u.
Proof using Hd Hids.
  intros [Hc Hf] Ht.
  assert (id_ok t) as Hid by (apply Hids, (c_dom d s Hc); by rewrite Ht).
  set (det := "Task execution completed successfully.").
  assert (Hm : core d (moved t RUNNING SUCCEEDED det s)).
  { apply moved_core; try done; [by left|]. intros u Hu. eapply c_deps; [done|..|done]; congruence. }
  destruct (refresh_spec ("Dependencies satisfied after " +:+ t +:+ " succeeded.") _ Hm)
    as (s' & Hs' & Hinv & Hst).
  { unfold detail_ok. rewrite !str_len_app. unfold id_ok in Hid. cbn. lia. }
  exists s'. split_and!; [|done|].
  - unfold succeed, mbind, M_bind. rewrite (require_state_ok t RUNNING s Ht).
    rewrite (transition_spec t RUNNING) by (done || (by left) || (by vm_compute; split; lia)).
    exact Hs'.
  - intros u. rewrite Hst. cbn. destruct (decide (u = t)) as [->|Hne].
    + rewrite lookup_insert_eq. by rewrite decide_False by (intros [? _]; done).
    + rewrite lookup_insert_ne by done. apply decide_ext.
      apply and_iff_compat_l. apply forall_proper. intros w.
      destruct (decide (t = w)) as [->|]; simplify_map_eq; naive_solver.
Qed.

(** Which tasks a failure of [t] blocks. *)
Lemma blocked_after s t u :
  core d s → has s t RUNNING →
  blocked_by d (_task_ids_with_state FAILED s ∪ {[t]}) u ↔
  has s u BLOCKED ∨ downstream d t u.
Proof using.
  intros Hc Ht. rewrite (c_blocked d s Hc). unfold blocked_by.
  setoid_rewrite elem_of_union. setoid_rewrite elem_of_singleton.
  assert (Hdn : downstream d t u → u ≠ t ∧ u ∉ _task_ids_with_state FAILED s).
  { intros Htu. rewrite elem_of_with_state.
    destruct (below_unfinished s t u Hc) as [Hu|Hu]; [congruence|done|..]; split; congruence. }
  assert (Hb : u ∉ _task_ids_with_state FAILED s →
    (∃ f, f ∈ _task_ids_with_state FAILED s ∧ downstream d f u) → u ≠ t).
  { intros Hn Hex ->. assert (has s t BLOCKED) by by apply (c_blocked d s Hc). congruence. }
  split.
  - intros (Hn & f & [Hf| ->] & Hfu); [left; split; [tauto|eauto]|by right].
  - intros [(Hn & f & Hf & Hfu)|Htu].
    + split; [|eauto]. intros [?|?]; [done|]. eapply Hb; eauto.
    + specialize (Hdn Htu). split; [tauto|eauto].
Qed.

Lemma unblockable_nil s l :
  (∀ u, u ∈ l → has s u PENDING ∨ has s u BLOCKED) → unblockable s l = Ok [].
Proof using.
  induction l as [|u l IH]; intros Hl; [done|]. cbn.
  rewrite IH by (intros; apply Hl; by right).
  by destruct (Hl u) as [-> | ->]; [by left|..].
Qed.

Lemma block_loop s t (B : gset string) :
  core d s → has s t RUNNING →
  (∀ u, u ∈ B ↔ has s u BLOCKED ∨ downstream d t u) →
  let s1 := moved t RUNNING FAILED "Task execution failed." s in
  ∃ s', for_each (vd_order d) (block_one B) s1 = (Ok tt, s') ∧ _dag s' = d ∧ log_ok d s' ∧
    ∀ u, _states s' !! u =
      if decide (u = t) then Some FAILED
      else if decide (u ∈ B) then Some BLOCKED else _states s !! u.
Proof using Hd Hids.
  intros Hc Ht HB s1.
  assert (HtB : t ∉ B).
  { rewrite HB. intros [?|Htt]; [congruence|]. by eapply vd_acyclic. }
  destruct (loop_spec d BLOCKED "Blocked by a failed upstream dependency."
              (λ u st, bool_decide (u ∈ B ∧ st ≠ Some BLOCKED)) (block_one B) (vd_order d) s1)
    as (s' & Hs' & Hdag & Hlog & Hst).
  { cbn. set_solver. }
  { vm_compute. split; lia. }
  { apply vd_nodup. }
  { intros u s0 _ [st Hu]. unfold block_one, state_at, mbind, M_bind. rewrite Hu. cbn.
    destruct (decide (u ∈ B)) as [HuB|HuB].
    - rewrite decide_False by tauto. rewrite Hu. cbn. destruct (decide (st = BLOCKED)) as [->|Hne].
      + by rewrite bool_decide_false by (intros [_ ?]; done).
      + rewrite bool_decide_true; [done|]. split; congruence.
    - rewrite decide_True by done. by rewrite bool_decide_false by (intros [? _]; done). }
  { intros u Hu%(vd_elem d). split; [by apply Hids|]. cbn. apply lookup_insert_is_Some'.
    right. by apply (c_dom d s Hc). }
  { intros u _ [HuB Hub]%bool_decide_eq_true. revert Hub. cbn.
    rewrite lookup_insert_ne by congruence. intros Hub.
    apply HB in HuB as [?|HuB]; [done|].
    by destruct (below_unfinished s t u Hc) as [?|?]; [congruence|..]. }
  { apply moved_log; [done|cbn; set_solver|apply Hc]. }
  exists s'. split_and!; [done|by rewrite Hdag; apply Hc|done|].
  intros u. rewrite Hst. cbn.
  destruct (decide (u = t)) as [->|Hne].
  { rewrite lookup_insert_eq. rewrite decide_False; [done|]. by intros [_ [? _]%bool_decide_eq_true]. }
  rewrite lookup_insert_ne by done.
  destruct (decide (u ∈ B)) as [HuB|HuB].
  2: { rewrite decide_False; [done|]. by intros [_ [? _]%bool_decide_eq_true]. }
  destruct (decide (has s u BLOCKED)) as [Hb|Hb]; [by case_decide|].
  rewrite decide_True; [done|]. split; [|by apply bool_decide_eq_true].
  apply (vd_elem d), (c_dom d s Hc). apply HB in HuB as [?|HuB]; [done|].
  by destruct (below_unfinished s t u Hc) as [->| ->]; [congruence|..].
Qed.

Lemma fail_inv s t (B : gset string) s' :
  sched_inv d s → has s t RUNNING →
  (∀ u, u ∈ B ↔ has s u BLOCKED ∨ downstream d t u) →
  _dag s' = d → log_ok d s' →
  (∀ u, _states s' !! u =
      if decide (u = t) then Some FAILED
      else if decide (u ∈ B) then Some BLOCKED else _states s !! u) →
  sched_inv d s'.
Proof using Hd Hids.
  intros [Hc Hf] Ht HB Hdag Hlog Hst.
  assert (Hwait : ∀ u, u ∈ B → has s u PENDING ∨ has s u BLOCKED).
  { intros u [?|Hu]%HB; [by right|]. apply (below_unfinished s t u Hc); [congruence|done]. }
  assert (HtB : t ∉ B) by (intros []%Hwait; congruence).
  assert (Hsucc : ∀ u, has s' u SUCCEEDED ↔ has s u SUCCEEDED).
  { intros u. rewrite Hst. case_decide as Hut; [subst; rewrite Ht; split; congruence|].
    case_decide as HuB; [|done]. split; [done|]. destruct (Hwait u HuB); congruence. }
  assert (Hfailed : _task_ids_with_state FAILED s' = _task_ids_with_state FAILED s ∪ {[t]}).
  { apply set_eq. intros u. rewrite elem_of_union, elem_of_singleton, !elem_of_with_state, Hst.
    case_decide as Hut; [tauto|]. case_decide as HuB; [|tauto].
    split; [done|]. intros [?|?]; [|done]. destruct (Hwait u HuB); congruence. }
  split; [split|].
  - done.
  - intros u. rewrite Hst, <- (c_dom d s Hc). case_decide as Hut.
    { subst. rewrite Ht. split; eauto. }
    case_decide as HuB; [|done]. split; [|eauto]. by destruct (Hwait u HuB) as [->| ->].
  - intros u w. rewrite Hsucc, Hst. case_decide as Hut.
    { intros _ _ Hw. subst. eapply c_deps; [done|..|done]; congruence. }
    case_decide as HuB; [done|]. apply (c_deps d s Hc).
  - intros u. rewrite Hfailed, (blocked_after s t u) by done. rewrite <- HB, Hst.
    case_decide as Hut; [subst; split; [done|tauto]|]. case_decide as HuB; [done|].
    split; [|done]. intros ?. apply HB. by left.
  - done.
  - intros u. rewrite Hst. case_decide; [done|]. case_decide; [done|].
    intros (w & Hw & Hn)%Hf. exists w. by rewrite Hsucc.
Qed.

Lemma fail_spec s t :
  sched_inv d s → has s t RUNNING →
  ∃ s' (B : gset string), fail t s = (Ok tt, s') ∧ sched_inv d s' ∧
    (∀ u, u ∈ B ↔ has s u BLOCKED ∨ downstream d t u) ∧
    ∀ u, _states s' !! u =
      if decide (u = t) then Some FAILED
      else if decide (u ∈ B) then Some BLOCKED else _states s !! u.
Proof using Hd Hids.
  intros Hinv Ht. pose proof Hinv as [Hc _].
  assert (Hfids : _task_ids_with_state FAILED s ∪ {[t]} ⊆ task_id_set d).
  { intros u. rewrite elem_of_union, elem_of_singleton. intros [Hu| ->].
    - by apply (known_with_state FAILED s Hc).
    - unfold task_id_set. rewrite elem_of_list_to_set. apply (c_dom d s Hc). by rewrite Ht. }
  destruct (vd_blocked d _ Hfids) as (l & Hl & _ & Hspec).
  assert (HB : ∀ u, u ∈ (list_to_set l : gset string) ↔ has s u BLOCKED ∨ downstream d t u).
  { intros u. by rewrite elem_of_list_to_set, Hspec, blocked_after. }
  destruct (block_loop s t (list_to_set l) Hc Ht HB) as (s' & Hs' & Hdag & Hlog & Hst).
  exists s', (list_to_set l). split_and!; [|by eapply fail_inv|done|done].
  unfold fail, gets, lift, mbind, M_bind. rewrite (require_state_ok t RUNNING s Ht).
  rewrite (c_dag d s Hc), Hl. unfold _assert_blockable, get, lift, mbind, M_bind.
  rewrite unblockable_nil.
  2: { intros u. rewrite elem_of_sorted_set, HB. intros [?|Hu]; [by right|].
       apply (below_unfinished s t u Hc); [congruence|done]. }
  rewrite bool_decide_true by done. unfold ensure, lift, check.
  rewrite transition_spec with (cur := RUNNING).
  - rewrite (vd_topological (d:=d)). exact Hs'.
  - done.
  - cbn. set_solver.
  - apply Hids, (c_dom d s Hc). by rewrite Ht.
  - vm_compute. split; lia.
Qed.

(** *** Operations in general *)
Definition required (op : operation) : string * TaskScheduleState :=
  match op with
  | OpStart t => (t, READY)
  | OpSucceed t => (t, RUNNING)
  | OpFail t => (t, RUNNING)
  end.

Lemma run_operation_refused op s :
  ¬ has s (required op).1 (required op).2 →
  ∃ e, run_operation op s = (Raise e, s) ∧
    exn_kind e = (if decide (is_Some (_states s !! (required op).1)) then ValueError else KeyError).
Proof using.
  assert (H : ∀ t st (k : M DAGScheduler unit), ¬ has s t st →
    ∃ e, (_require_state t st ≫= λ _, k) s = (Raise e, s) ∧
      exn_kind e = (if decide (is_Some (_states s !! t)) then ValueError else KeyError)).
  { intros t st k Hn. unfold _require_state, _require_task, ensure, lift, mbind, M_bind.
    destruct (_states s !! t) as [cur|]; cbn; [|by eexists].
    rewrite bool_decide_false by congruence. cbn. by eexists. }
  destruct op; cbn; intros Hn.
  - apply (H _ _ _ Hn).
  - apply (H _ _ _ Hn).
  - apply (H _ _ _ Hn).
Qed.

Definition weight (st : option TaskScheduleState) : nat :=
  match st with
  | Some (PENDING | READY) | None => 0
  | Some RUNNING => 1
  | Some _ => 2
  end.
Definition total_weight (s : DAGScheduler) : nat :=
  sum_list_with (λ t, weight (_states s !! t)) (vd_order d).

Lemma sum_weight_lt (f g : string → nat) t l :
  (∀ u, f u ≤ g u)%nat → t ∈ l → (f t < g t)%nat → (sum_list_with f l < sum_list_with g l)%nat.
Proof using.
  intros Hle Ht Hlt.
  assert (Hl : ∀ k, (sum_list_with f k ≤ sum_list_with g k)%nat).
  { induction k as [|u k IH]; cbn; [lia|]. specialize (Hle u). lia. }
  apply list_elem_of_split in Ht as (l1 & l2 & ->). rewrite !sum_list_with_app. cbn.
  pose proof (Hl l1). pose proof (Hl l2). lia.
Qed.

Lemma run_operation_ok op s :
  sched_inv d s → has s (required op).1 (required op).2 →
  ∃ s', run_operation op s = (Ok tt, s') ∧ sched_inv d s' ∧
    (total_weight s < total_weight s')%nat.
Proof using Hd Hids.
  intros Hinv Hreq. pose proof Hinv as [Hc _].
  assert (Hin : (required op).1 ∈ vd_order d).
  { apply (vd_elem d), (c_dom d s Hc). by rewrite Hreq. }
  assert (Hlt : ∀ s', (∀ u, weight (_states s !! u) ≤ weight (_states s' !! u))%nat →
    (weight (_states s !! (required op).1) < weight (_states s' !! (required op).1))%nat →
    (total_weight s < total_weight s')%nat).
  { intros s' Hle Hl. exact (sum_weight_lt _ _ _ _ Hle Hin Hl). }
  destruct op as [t|t|t]; cbn [required fst snd run_operation] in *.
  - destruct (start_spec s t Hinv Hreq) as [Hs Hi]. eexists. split_and!; [done|done|].
    apply Hlt; cbn; [|by rewrite lookup_insert_eq, Hreq; cbn; lia].
    intros u. destruct (decide (t = u)) as [->|]; simplify_map_eq; cbn; lia.
  - destruct (succeed_spec s t Hinv Hreq) as (s' & Hs & Hi & Hst). exists s'.
    split_and!; [done|done|]. apply Hlt.
    + intros u. rewrite Hst. case_decide; [subst; rewrite Hreq; cbn; lia|].
      case_decide as Hp; [|lia]. destruct Hp as [-> _]. cbn. lia.
    + rewrite Hst, decide_True, Hreq by done. cbn. lia.
  - destruct (fail_spec s t Hinv Hreq) as (s' & B & Hs & Hi & HB & Hst). exists s'.
    split_and!; [done|done|]. apply Hlt.
    + intros u. rewrite Hst. case_decide; [subst; rewrite Hreq; cbn; lia|].
      case_decide as Hp; [|lia]. by destruct (_states s !! u) as [[]|]; cbn; lia.
    + rewrite Hst, decide_True, Hreq by done. cbn. lia.
Qed.

Lemma run_operation_inv op s r s' :
  sched_inv d s → run_operation op s = (r, s') →
  sched_inv d s' ∧ (r = Ok tt → total_weight s < total_weight s')%nat ∧ (r ≠ Ok tt → s' = s).
Proof using Hd Hids.
  intros Hinv Hrun.
  destruct (decide (has s (required op).1 (required op).2)) as [Hreq|Hreq].
  - destruct (run_operation_ok op s Hinv Hreq) as (s1 & Hs1 & Hi & Hw).
    rewrite Hs1 in Hrun. by injection Hrun as <- <-.
  - destruct (run_operation_refused op s Hreq) as (e & He & _).
    rewrite He in Hrun. by injection Hrun as <- <-.
Qed.

(** A terminal state is final. *)
Lemma terminal_stable op s r s' u st :
  sched_inv d s → run_operation op s = (r, s') → has s u st → st ∈ _TERMINAL_STATES → has s' u st.
Proof using Hd Hids.
  intros Hinv Hrun Hu Hst. pose proof Hinv as [Hc _].
  assert (st ≠ PENDING ∧ st ≠ READY ∧ st ≠ RUNNING) as (Hp & Hr & Hn)
    by (unfold _TERMINAL_STATES in Hst; set_solver).
  destruct (decide (has s (required op).1 (required op).2)) as [Hreq|Hreq].
  2: { destruct (run_operation_refused op s Hreq) as (e & He & _).
       rewrite He in Hrun. by injection Hrun as _ <-. }
  destruct op as [t|t|t]; cbn [required fst snd run_operation] in *;
    assert (u ≠ t) as Hne by congruence.
  - destruct (start_spec s t Hinv Hreq) as [Hs _]. rewrite Hs in Hrun. injection Hrun as _ <-.
    cbn. by rewrite lookup_insert_ne.
  - destruct (succeed_spec s t Hinv Hreq) as (s1 & Hs & _ & Hst1). rewrite Hs in Hrun.
    injection Hrun as _ <-. rewrite Hst1, decide_False by done.
    rewrite decide_False; [done|]. intros [? _]. congruence.
  - destruct (fail_spec s t Hinv Hreq) as (s1 & B & Hs & _ & HB & Hst1). rewrite Hs in Hrun.
    injection Hrun as _ <-. rewrite Hst1, decide_False by done.
    case_decide as Hin; [|done]. apply HB in Hin as [Hin|Hin]; [congruence|].
    destruct (below_unfinished s t u Hc) as [?|Hbl]; [congruence|done|congruence|].
    congruence.
Qed.

Lemma reachable_inv ops s :
  reachable d ops s → sched_inv d s ∧ (length ops ≤ total_weight s)%nat.
Proof using Hd Hids.
  induction 1 as [s Hs|ops s op s' _ [IH Hlen] Hrun|ops s op e s' _ [IH Hlen] Hrun].
  - destruct init_spec as (s0 & Hs0 & Hinv & _).
    assert (s = s0) as -> by congruence. split; [done|cbn; lia].
  - destruct (run_operation_inv op s _ _ IH Hrun) as (? & Hw & _). split; [done|].
    rewrite length_app. cbn. specialize (Hw eq_refl). lia.
  - destruct (run_operation_inv op s _ _ IH Hrun) as (? & _ & Heq).
    by rewrite Heq.
Qed.

Lemma total_weight_bound s : (total_weight s ≤ 2 * length (tasks d))%nat.
Proof using.
  assert (length (tasks d) = length (vd_order d)) as ->
    by (rewrite (vd_perm d); unfold task_ids; by rewrite length_fmap).
  unfold total_weight. induction (vd_order d) as [|t l IH]; cbn; [lia|].
  assert (weight (_states s !! t) ≤ 2)%nat by (destruct (_states s !! t) as [[]|]; cbn; lia).
  lia.
Qed.

(** *** Deadlock freedom *)
Lemma progress_lemma s :
  sched_inv d s → is_terminal s = false → ∃ t, has s t READY ∨ has s t RUNNING.
Proof using Hd Hids.
  intros [Hc Hf] Hterm.
  destruct (decide (Exists (λ t, has s t READY ∨ has s t RUNNING) (task_ids d))) as [Hex|Hno].
  { apply Exists_exists in Hex as (t & _ & Ht). eauto. }
  assert (Hnone : ∀ t, ¬ has s t READY ∧ ¬ has s t RUNNING).
  { intros t. rewrite Exists_exists in Hno.
    assert (t ∈ task_ids d ∨ _states s !! t = None) as [Hin| ->]; [|naive_solver|done].
    destruct (_states s !! t) eqn:Hs; [left; apply (c_dom d s Hc); by rewrite Hs|by right]. }
  exfalso.
  assert (∃ t, has s t PENDING) as [t Ht].
  { unfold is_terminal in Hterm. apply not_true_iff_false in Hterm.
    rewrite forallb_forall in Hterm.
    destruct (decide (Exists (λ p, p.2 = PENDING) (map_to_list (_states s)))) as [Hp|Hp].
    - apply Exists_exists in Hp as ([t st] & Hin & Hst). exists t.
      apply elem_of_map_to_list in Hin. cbn in Hst. congruence.
    - destruct Hterm. intros [t st] Hin%list_elem_of_In. apply bool_decide_eq_true. cbn.
      assert (st ≠ PENDING) by (intros ->; apply Hp, Exists_exists; by exists (t, PENDING)).
      apply elem_of_map_to_list in Hin. destruct (Hnone t).
      destruct st; cbn; set_solver. }
  destruct (vd_minimal d (λ t, has s t PENDING)) as (u & Hu & Hup & Hmin).
  { exists t. split; [|done]. apply (c_dom d s Hc). by rewrite Ht. }
  destruct (Hf u Hup) as (w & Hw & Hws). specialize (Hmin w Hw).
  enough (has s u BLOCKED) by congruence.
  assert (is_Some (_states s !! w)) as [st Hst].
  { apply (c_dom d s Hc). by apply (vd_edge_known d) in Hw as [? _]. }
  apply (c_blocked d s Hc). split; [rewrite elem_of_with_state; congruence|].
  destruct (Hnone w) as [Hr1 Hr2].
  destruct st; try congruence.
  - exists w. split; [by apply elem_of_with_state|by apply tc_once].
  - apply (c_blocked d s Hc) in Hst as (_ & f & Hff & Hfw). exists f. split; [done|].
    by eapply tc_r.
Qed.

Lemma states_of_spec s order :
  (∀ t, t ∈ order → is_Some (_states s !! t)) →
  ∃ rows, states_of s order = Ok rows ∧ rows.*1 = order ∧
    Forall (λ p, has s p.1 p.2) rows.
Proof using.
  induction order as [|t order IH]; intros Hk; cbn; [by exists []|].
  destruct (Hk t) as [st Hst]; [by left|]. rewrite Hst. cbn.
  destruct IH as (rows & -> & Hfst & Hall); [intros; apply Hk; by right|]. cbn.
  exists ((t, st) :: rows). cbn. by rewrite Hfst; auto.
Qed.
End invariant.

(** ** Properties *)

(** C7.  Safety: in every reachable scheduler a task that is [READY],
    [RUNNING], [SUCCEEDED] or [FAILED] has all its dependencies [SUCCEEDED];
    [BLOCKED] is exactly "transitively dependent on a [FAILED] task"; and a
    [PENDING] task still has a dependency that has not succeeded. *)
Theorem scheduler_safety d (Hd : ValidDag d) (Hids : ∀ t, t ∈ task_ids d → id_ok t) ops s
    (Hs : reachable d ops s) :
  (∀ t u st, has s t st → st ∈ [READY; RUNNING; SUCCEEDED; FAILED] → edge d u t →
     has s u SUCCEEDED) ∧
  (∀ t, has s t BLOCKED ↔ ∃ f, has s f FAILED ∧ downstream d f t) ∧
  (∀ t, has s t PENDING → ∃ u, edge d u t ∧ ¬ has s u SUCCEEDED).
Proof.
  destruct (reachable_inv d Hids ops s Hs) as [[Hc Hf] _]. split_and!; [|..|exact Hf].
  - intros t u st Ht Hst Hu. eapply c_deps; [done|..|done]; rewrite Ht; intros [= ->];
      revert Hst; set_solver.
  - intros t. rewrite (c_blocked d s Hc). unfold blocked_by.
    setoid_rewrite elem_of_with_state. split; [naive_solver|].
    intros (f & Hff & Hft). split; [|eauto].
    destruct (below_unfinished d s f t Hc) as [?|?]; [congruence|done|..]; congruence.
Qed.

(** The constructor succeeds and makes exactly the tasks without
    dependencies [READY], all others [PENDING]. *)
Theorem scheduler_init_correct d (Hd : ValidDag d) (Hids : ∀ t, t ∈ task_ids d → id_ok t) :
  ∃ s, DAGScheduler_init d = Ok s ∧
    (∀ t, is_Some (_states s !! t) ↔ t ∈ task_ids d) ∧
    ∀ t, t ∈ task_ids d →
      _states s !! t = Some (if decide (deps d t = ∅) then READY else PENDING).
Proof.
  destruct (init_spec d Hids) as (s & Hs & [Hc _] & Hst). exists s.
  split_and!; [done|apply Hc|done].
Qed.

(** [succeed] on a [RUNNING] task of a reachable scheduler returns
    normally; it makes that task [SUCCEEDED] and exactly the [PENDING] tasks
    whose dependencies have now all succeeded [READY], and nothing else
    changes. *)
Theorem succeed_correct d (Hd : ValidDag d) (Hids : ∀ t, t ∈ task_ids d → id_ok t) ops s t
    (Hs : reachable d ops s) (Ht : has s t RUNNING) :
  ∃ s', succeed t s = (Ok tt, s') ∧
    ∀ u, _states s' !! u =
      if decide (u = t) then Some SUCCEEDED
      else if decide (has s u PENDING ∧ ∀ w, w ∈ deps d u → w = t ∨ has s w SUCCEEDED)
      then Some READY else _states s !! u.
Proof.
  destruct (reachable_inv d Hids ops s Hs) as [Hinv _].
  destruct (succeed_spec d Hids s t Hinv Ht) as (s' & ? & _ & ?). by exists s'.
Qed.

(** [fail] on a [RUNNING] task of a reachable scheduler returns normally
    (in particular [_assert_blockable] never raises its invariant violation);
    it makes that task [FAILED] and exactly its transitive dependents
    [BLOCKED], and nothing else changes. *)
Theorem fail_correct d (Hd : ValidDag d) (Hids : ∀ t, t ∈ task_ids d → id_ok t) ops s t
    (Hs : reachable d ops s) (Ht : has s t RUNNING) :
  ∃ s', fail t s = (Ok tt, s') ∧ has s' t FAILED ∧
    (∀ u, downstream d t u → has s' u BLOCKED) ∧
    (∀ u, u ≠ t → ¬ downstream d t u → _states s' !! u = _states s !! u).
Proof.
  destruct (reachable_inv d Hids ops s Hs) as [Hinv _].
  destruct (fail_spec d Hids s t Hinv Ht) as (s' & B & ? & _ & HB & Hst). exists s'.
  split_and!; [done|by rewrite Hst, decide_True|..].
  - intros u Hu. rewrite Hst, decide_False, decide_True; [done|by apply HB; right|].
    intros ->. by eapply vd_acyclic.
  - intros u Hne Hu. rewrite Hst, decide_False by done.
    case_decide as HuB; [|done]. by apply HB in HuB as [->|?].
Qed.

(** Operations are refused exactly outside their required state: an
    unknown task is a [KeyError], a task in another state a [ValueError], and
    a refused operation leaves the scheduler unchanged; in the required state
    every operation succeeds. *)
Theorem operations_guarded d (Hd : ValidDag d) (Hids : ∀ t, t ∈ task_ids d → id_ok t) ops s op
    (Hs : reachable d ops s) :
  (has s (required op).1 (required op).2 → ∃ s', run_operation op s = (Ok tt, s')) ∧
  (¬ has s (required op).1 (required op).2 →
   ∃ e, run_operation op s = (Raise e, s) ∧
     exn_kind e = (if decide (is_Some (_states s !! (required op).1)) then ValueError else KeyError)).
Proof.
  destruct (reachable_inv d Hids ops s Hs) as [Hinv _]. split.
  - intros Hreq. destruct (run_operation_ok d Hids op s Hinv Hreq) as (s' & ? & _). by exists s'.
  - apply run_operation_refused.
Qed.

(** Deadlock freedom: a reachable scheduler that is not terminal has a
    task that can be started, or one that is running and can be finished. *)
Theorem scheduler_progress d (Hd : ValidDag d) (Hids : ∀ t, t ∈ task_ids d → id_ok t) ops s
    (Hs : reachable d ops s) (Hterm : is_terminal s = false) :
  ∃ op s', run_operation op s = (Ok tt, s').
Proof.
  destruct (reachable_inv d Hids ops s Hs) as [Hinv _].
  destruct (progress_lemma d Hids s Hinv Hterm) as (t & [Ht|Ht]).
  - destruct (run_operation_ok d Hids (OpStart t) s Hinv Ht) as (s' & ? & _). eauto.
  - destruct (run_operation_ok d Hids (OpSucceed t) s Hinv Ht) as (s' & ? & _). eauto.
Qed.

(** Termination: whatever a caller does, at most two operations per
    task can succeed over the life of a scheduler. *)
Theorem scheduler_runs_bounded d (Hd : ValidDag d) (Hids : ∀ t, t ∈ task_ids d → id_ok t) ops s
    (Hs : reachable d ops s) :
  (length ops ≤ 2 * length (tasks d))%nat.
Proof.
  destruct (reachable_inv d Hids ops s Hs) as [_ Hlen].
  pose proof (total_weight_bound d s). lia.
Qed.

(** The event log is a faithful audit trail: its sequence numbers are
    contiguous from zero, and replaying it over the initial states (each
    event an allowed transition from the state the log has reached) gives
    exactly the current states. *)
Theorem event_log_replays d (Hd : ValidDag d) (Hids : ∀ t, t ∈ task_ids d → id_ok t) ops s
    (Hs : reachable d ops s) :
  replay d (_events s) = Some (_states s) ∧
  ∀ i e, _events s !! i = Some e → se_sequence e = Z.of_nat i.
Proof. by destruct (reachable_inv d Hids ops s Hs) as [[Hc _] _]; apply (c_log d s Hc). Qed.

(** [snapshot] never fails: it lists every task once, in topological
    order, with its state, and the whole event log. *)
Theorem snapshot_correct d (Hd : ValidDag d) (Hids : ∀ t, t ∈ task_ids d → id_ok t) ops s
    (Hs : reachable d ops s) :
  ∃ snap, snapshot s = Ok snap ∧ tsr_task_id <$> ss_tasks snap = vd_order d ∧
    Forall (λ r, has s (tsr_task_id r) (tsr_state r)) (ss_tasks snap) ∧
    ss_events snap = _events s.
Proof.
  destruct (reachable_inv d Hids ops s Hs) as [[Hc _] _].
  destruct (states_of_spec s (vd_order d)) as (rows & Hrows & Hfst & Hall).
  { intros t Ht. by apply (c_dom d s Hc), (vd_elem d). }
  set (mk := λ p : string * TaskScheduleState, {| tsr_task_id := p.1; tsr_state := p.2 |}).
  assert (Hids' : tsr_task_id <$> (mk <$> rows) = vd_order d).
  { rewrite <- Hfst, <- list_fmap_compose. done. }
  exists {| ss_tasks := mk <$> rows; ss_events := _events s |}. split_and!; [|done| |done].
  - unfold snapshot. rewrite (c_dag d s Hc), (vd_topological (d:=d)). cbn [mbind result_bind].
    rewrite Hrows. cbn [mbind result_bind].
    rewrite (proj2 (map_result_Ok _ _ (mk <$> rows))); cbn [mbind result_bind].
    + unfold SchedulerSnapshot_new. rewrite valid_if_true; [done|].
      apply bool_decide_eq_true. cbn [ss_tasks]. rewrite Hids'. apply (vd_nodup d).
    + apply Forall2_fmap_r, Forall_Forall2_diag, Forall_forall. intros [t st] Hin.
      unfold TaskScheduleRecord_new. cbn [tsr_task_id fst snd]. rewrite valid_if_true; [done|].
      apply len_between, Hids, (vd_elem d). rewrite <- Hfst. apply list_elem_of_fmap. by exists (t, st).
  - cbn [ss_tasks]. apply Forall_fmap. exact Hall.
Qed.

(** ** A concrete run *)
Lemma diamond_ids t : t ∈ task_ids diamond → id_ok t.
Proof.
  revert t. apply Forall_forall. unfold id_ok, task_ids. cbn.
  repeat constructor; cbn; lia.
Qed.

Definition fresh : DAGScheduler :=
  match DAGScheduler_init diamond with
  | Ok s => s
  | Raise _ => {| _dag := diamond; _states := ∅; _events := [] |}
  end.
Definition after (s : DAGScheduler) (ops : list operation) : DAGScheduler :=
  foldl (λ s op, (run_operation op s).2) s ops.

Definition run1 : list operation := [OpStart "a"; OpSucceed "a"; OpStart "b"].
Lemma run1_reachable : reachable diamond run1 (after fresh run1).
Proof.
  apply (reachable_ok _ [OpStart "a"; OpSucceed "a"] (after fresh [OpStart "a"; OpSucceed "a"]));
    [|vm_compute; reflexivity].
  apply (reachable_ok _ [OpStart "a"] (after fresh [OpStart "a"])); [|vm_compute; reflexivity].
  apply (reachable_ok _ [] fresh); [|vm_compute; reflexivity].
  apply reachable_init. vm_compute. reflexivity.
Qed.

Lemma scheduler_safety_witness :
  has (after fresh run1) "a" SUCCEEDED.
Proof.
  apply (proj1 (scheduler_safety diamond diamond_valid diamond_ids run1 _ run1_reachable)
           "b" "a" RUNNING); [vm_compute; reflexivity|set_solver|by_compute].
Defined.

Lemma scheduler_init_correct_witness :
  ∃ s, DAGScheduler_init diamond = Ok s ∧
    (∀ t, is_Some (_states s !! t) ↔ t ∈ task_ids diamond) ∧
    ∀ t, t ∈ task_ids diamond →
      _states s !! t = Some (if decide (deps diamond t = ∅) then READY else PENDING).
Proof. exact (scheduler_init_correct diamond diamond_valid diamond_ids). Defined.

Lemma succeed_correct_witness :
  ∃ s', succeed "b" (after fresh run1) = (Ok tt, s') ∧ has s' "b" SUCCEEDED.
Proof.
  destruct (succeed_correct diamond diamond_valid diamond_ids run1 _ "b" run1_reachable)
    as (s' & Hs & Hst); [vm_compute; reflexivity|].
  exists s'. split; [exact Hs|]. rewrite Hst. by rewrite decide_True.
Defined.

Lemma fail_correct_witness :
  ∃ s', fail "b" (after fresh run1) = (Ok tt, s') ∧ has s' "d" BLOCKED.
Proof.
  destruct (fail_correct diamond diamond_valid diamond_ids run1 _ "b" run1_reachable)
    as (s' & Hs & _ & Hb & _); [vm_compute; reflexivity|].
  exists s'. split; [exact Hs|]. apply Hb, tc_once. by_compute.
Defined.

Lemma operations_guarded_witness :
  ∃ e, run_operation (OpStart "d") (after fresh run1) = (Raise e, after fresh run1) ∧
    exn_kind e = ValueError.
Proof.
  refine (proj2 (operations_guarded diamond diamond_valid diamond_ids run1 _ (OpStart "d")
                   run1_reachable) _).
  vm_compute. discriminate.
Defined.

Lemma scheduler_progress_witness :
  ∃ op s', run_operation op (after fresh run1) = (Ok tt, s').
Proof.
  apply (scheduler_progress diamond diamond_valid diamond_ids run1 _ run1_reachable).
  vm_compute. reflexivity.
Defined.

Lemma scheduler_runs_bounded_witness : (length run1 ≤ 2 * length (tasks diamond))%nat.
Proof.
  exact (scheduler_runs_bounded diamond diamond_valid diamond_ids run1 _ run1_reachable).
Defined.

Lemma event_log_replays_witness :
  replay diamond (_events (after fresh run1)) = Some (_states (after fresh run1)).
Proof.
  exact (proj1 (event_log_replays diamond diamond_valid diamond_ids run1 _ run1_reachable)).
Defined.

Lemma snapshot_correct_witness :
  ∃ snap, snapshot (after fresh run1) = Ok snap ∧
    tsr_task_id <$> ss_tasks snap = vd_order diamond ∧
    Forall (λ r, has (after fresh run1) (tsr_task_id r) (tsr_state r)) (ss_tasks snap) ∧
    ss_events snap = _events (after fresh run1).
Proof.
  exact (snapshot_correct diamond diamond_valid diamond_ids run1 _ run1_reachable).
Defined.
