(* ===== verification/Json.v ===== *)
(** * Json: JSON payloads, their canonical encoding and their hashes

    JSON values as the persistence layer stores them (objects keep their
    insertion order; numbers are integers, the only numbers the modelled
    code puts into payloads), [json.dumps] with the options of
    [payload_sha256] in [persistence/serialization.py], and UTC timestamps
    ([datetime] as microseconds since the epoch) with [isoformat].  SHA-256
    is a parameter. *)
From stdpp Require Import options.
From S2P Require Import Prelude Contracts.

Inductive JSON : Set :=
  | JNull
  | JBool (b : bool)
  | JInt (n : Z)
  | JStr (s : string)
  | JList (l : list JSON)
  | JObj (fields : list (string * JSON)).

(** Induction that reaches into lists and objects. *)
Section induction.
Context (P : JSON → Prop).
Context (Hnull : P JNull) (Hbool : ∀ b, P (JBool b)) (Hint : ∀ n, P (JInt n))
  (Hstr : ∀ s, P (JStr s))
  (Hlist : ∀ l, Forall P l → P (JList l))
  (Hobj : ∀ fields, Forall (λ f, P f.2) fields → P (JObj fields)).

Fixpoint JSON_nested_ind (j : JSON) : P j :=
  match j with
  | JNull => Hnull
  | JBool b => Hbool b
  | JInt n => Hint n
  | JStr s => Hstr s
  | JList l => Hlist l ((fix go l : Forall P l :=
      match l with [] => Forall_nil_2 _ | x :: l => Forall_cons_2 _ _ _ (JSON_nested_ind x) (go l) end) l)
  | JObj fs => Hobj fs ((fix go fs : Forall (λ f, P f.2) fs :=
      match fs with [] => Forall_nil_2 _ | x :: fs => Forall_cons_2 _ _ _ (JSON_nested_ind x.2) (go fs) end) fs)
  end.
End induction.

(** ** [json.dumps(value, ensure_ascii=False, sort_keys=True, separators=(",", ":"))] *)
Definition hex_digit (n : nat) : ascii :=
  ascii_of_nat (if (n <? 10)%nat then 48 + n else 87 + n)%nat.
Definition quote_char : ascii := ascii_of_nat 34.

Definition escape_char (c : ascii) : list ascii :=
  let n := nat_of_ascii c in
  if (n =? 34)%nat then ["\"%char; quote_char]
  else if (n =? 92)%nat then ["\"%char; "\"%char]
  else if (n =? 10)%nat then ["\"%char; "n"%char]
  else if (n =? 13)%nat then ["\"%char; "r"%char]
  else if (n =? 9)%nat then ["\"%char; "t"%char]
  else if (n =? 12)%nat then ["\"%char; "f"%char]
  else if (n =? 8)%nat then ["\"%char; "b"%char]
  else if (n <? 32)%nat
  then ["\"%char; "u"%char; "0"%char; "0"%char; hex_digit (n / 16); hex_digit (n mod 16)]
  else [c].

Definition quoted (s : string) : string :=
  of_chars (quote_char :: mjoin (escape_char <$> chars s) ++ [quote_char]).

(** [sorted(d.items())]: the keys of an object are distinct. *)
Definition key_le {A} (f g : string * A) : Prop := String.le f.1 g.1.
#[export] Instance key_le_dec {A} : RelDecision (@key_le A).
Proof. intros f g. unfold key_le. apply _. Defined.

Fixpoint dumps (j : JSON) : string :=
  match j with
  | JNull => "null"
  | JBool true => "true"
  | JBool false => "false"
  | JInt n => str_of_Z n
  | JStr s => quoted s
  | JList l => "[" +:+ join "," (dumps <$> l) +:+ "]"
  | JObj fs =>
      let encoded := (λ f, (f.1, dumps f.2)) <$> fs in
      "{" +:+ join "," ((λ f, quoted f.1 +:+ ":" +:+ f.2) <$> merge_sort key_le encoded) +:+ "}"
  end.

(** [s.encode("utf-8")]: a character from 128 on takes two bytes. *)
Definition utf8_char (c : ascii) : list ascii :=
  let n := nat_of_ascii c in
  if (n <? 128)%nat then [c]
  else [ascii_of_nat (192 + n / 64); ascii_of_nat (128 + n mod 64)].
Definition encode_utf8 (s : string) : string := of_chars (mjoin (utf8_char <$> chars s)).

(** [dict.get(key)] *)
Definition get_field (key : string) (fs : list (string * JSON)) : option JSON :=
  snd <$> find (λ f, bool_decide (f.1 = key)) fs.

(** ** [persistence/serialization.py] *)
Section hashing.
(** [hashlib.sha256(data).hexdigest()] *)
Context (sha256 : string → string).

Definition payload_sha256 (payload : JSON) : string := sha256 (encode_utf8 (dumps payload)).

Definition verify_payload_hash (payload : JSON) (expected_sha256 label : string) : result unit :=
  let actual := payload_sha256 payload in
  check (bool_decide (actual = expected_sha256)) PersistenceCorruptionError
    (label +:+ " payload hash mismatch: expected " +:+ expected_sha256 +:+ ", got " +:+ actual).
End hashing.

(** What the code relies on: a digest is 64 lower-case hexadecimal digits. *)
Definition is_sha256_hex (s : string) : bool := hex_string is_lower_hex 64 64 s.

(** ** [datetime.isoformat] for UTC *)
Fixpoint padded (k : nat) (n : Z) : list ascii :=
  match k with
  | O => []
  | S k => padded k (n / 10) ++ [digit (n mod 10)]
  end.

(** Proleptic Gregorian date of a day count since 1970-01-01. *)
Definition civil_from_days (days : Z) : Z * Z * Z :=
  let z := (days + 719468)%Z in
  let era := (z / 146097)%Z in
  let doe := (z - era * 146097)%Z in
  let yoe := ((doe - doe / 1460 + doe / 36524 - doe / 146096) / 365)%Z in
  let doy := (doe - (365 * yoe + yoe / 4 - yoe / 100))%Z in
  let mp := ((5 * doy + 2) / 153)%Z in
  let d := (doy - (153 * mp + 2) / 5 + 1)%Z in
  let m := (if mp <? 10 then mp + 3 else mp - 9)%Z in
  (yoe + era * 400 + (if m <=? 2 then 1 else 0), m, d)%Z.

Definition isoformat (us : Z) : string :=
  let secs := (us / 1000000)%Z in
  let '(y, m, d) := civil_from_days (secs / 86400)%Z in
  let tod := (secs mod 86400)%Z in
  let frac := (us mod 1000000)%Z in
  of_chars (padded 4 y ++ ["-"%char] ++ padded 2 m ++ ["-"%char] ++ padded 2 d ++ ["T"%char]
    ++ padded 2 (tod / 3600) ++ [":"%char] ++ padded 2 (tod / 60 mod 60) ++ [":"%char]
    ++ padded 2 (tod mod 60)
    ++ (if (frac =? 0)%Z then [] else "."%char :: padded 6 frac)
    ++ chars "+00:00").

Lemma length_padded k n : length (padded k n) = k.
Proof. revert n. induction k as [|k IH]; intros n; cbn; [done|]. rewrite length_app, IH. cbn. lia. Qed.

Lemma str_len_isoformat us : (25 ≤ str_len (isoformat us) ≤ 32)%nat.
Proof.
  unfold isoformat. destruct (civil_from_days _) as [[y m] d].
  unfold str_len. rewrite chars_of_chars. rewrite !length_app, !length_padded.
  destruct (_ =? _)%Z; cbn [length]; rewrite ?length_padded; cbn; lia.
Qed.

(** *** Sizes *)
Lemma length_escape c : (length (escape_char c) ≤ 6)%nat.
Proof. unfold escape_char. repeat case_match; cbn; lia. Qed.

Lemma length_mjoin_bound {A B} (f : A → list B) k l :
  (∀ a, length (f a) ≤ k)%nat → (length (mjoin (f <$> l)) ≤ k * length l)%nat.
Proof.
  intros Hf. induction l as [|a l IH]; [cbn; lia|].
  change (mjoin (f <$> a :: l)) with (f a ++ mjoin (f <$> l)).
  rewrite length_app. specialize (Hf a). cbn [length]. lia.
Qed.

Lemma str_len_quoted s : (str_len (quoted s) ≤ 6 * str_len s + 2)%nat.
Proof.
  unfold quoted. rewrite str_len_of_chars. cbn. rewrite length_app. cbn.
  pose proof (length_mjoin_bound escape_char 6 (chars s) length_escape). unfold str_len. lia.
Qed.

Lemma str_len_encode_utf8 s : (str_len (encode_utf8 s) ≤ 2 * str_len s)%nat.
Proof.
  unfold encode_utf8. rewrite str_len_of_chars.
  apply length_mjoin_bound. intros c. unfold utf8_char. case_match; cbn; lia.
Qed.

Lemma sum_list_with_perm {A} (f : A → nat) l k :
  l ≡ₚ k → sum_list_with f l = sum_list_with f k.
Proof. induction 1; cbn; lia. Qed.

Lemma sum_list_with_fmap {A B} (f : B → nat) (g : A → B) l :
  sum_list_with f (g <$> l) = sum_list_with (λ a, f (g a)) l.
Proof. induction l; cbn; congruence. Qed.

Lemma sum_list_with_mono {A} (f g : A → nat) l :
  (∀ a, f a ≤ g a)%nat → (sum_list_with f l ≤ sum_list_with g l)%nat.
Proof. intros H. induction l as [|a l IH]; cbn; [lia|]. specialize (H a). lia. Qed.

Lemma str_len_dumps_obj fs :
  (str_len (dumps (JObj fs)) ≤
   2 + sum_list_with (λ f, 6 * str_len f.1 + str_len (dumps f.2) + 4) fs)%nat.
Proof.
  cbn [dumps]. rewrite !str_len_app. change (str_len "{") with 1%nat. change (str_len "}") with 1%nat.
  match goal with |- context [str_len (join "," ?l)] => pose proof (str_len_join "," l) as H end.
  rewrite sum_list_with_fmap in H.
  rewrite (sum_list_with_perm _ _ _ (merge_sort_Permutation key_le _)), sum_list_with_fmap in H.
  cbn [fst snd] in H.
  pose proof (sum_list_with_mono
    (λ a, str_len (quoted a.1 +:+ ":" +:+ dumps a.2) + str_len ",")%nat
    (λ f, 6 * str_len f.1 + str_len (dumps f.2) + 4)%nat fs) as H2.
  assert (∀ a : string * JSON, (str_len (quoted a.1 +:+ ":" +:+ dumps a.2) + str_len "," ≤
     6 * str_len a.1 + str_len (dumps a.2) + 4)%nat) as H3.
  { intros a. rewrite !str_len_app. pose proof (str_len_quoted a.1).
    change (str_len ":") with 1%nat. change (str_len ",") with 1%nat. lia. }
  specialize (H2 H3). lia.
Qed.

Example isoformat_example : isoformat 1709210096000123 = "2024-02-29T12:34:56.000123+00:00".
Proof. vm_compute. reflexivity. Qed.
Example dumps_example :
  dumps (JObj [("b", JList [JInt (-3); JNull]); ("a", JStr "x\y")]) =
    of_chars (chars "{" ++ [quote_char] ++ chars "a" ++ [quote_char] ++ chars ":" ++ [quote_char]
      ++ chars "x\\y" ++ [quote_char] ++ chars "," ++ [quote_char] ++ chars "b" ++ [quote_char]
      ++ chars ":[-3,null]}").
Proof. vm_compute. reflexivity. Qed.
