(* ===== verification/Store.v ===== *)
(** * Store: the relational store ([persistence/models.py], [database.py])

    The rows of the tables the modelled code reads and writes, and the
    operations a session performs on them: lookup by primary key, update with
    the table's CHECK and UNIQUE constraints, insertion of runtime events.
    A session transaction is [Prelude.transaction]: it runs under the row
    locks its statements take and is atomic, so the interleavings of several
    workers are sequences of transactions.

    Time and identifiers come from an [Env]: what [clock_timestamp()] returned
    during the transaction, its start time [now()], and the values [uuid4()]
    produced in it. *)
From stdpp Require Import options.
From S2P Require Import Prelude Contracts Json.

(** What [session.scalar(select(func.clock_timestamp()))] can hold. *)
Inductive clock_value : Set :=
  | Timestamptz (us : Z)
  | NaiveTimestamp (us : Z)
  | NotADatetime.

Record Env : Set := {
  env_clock : clock_value;
  env_now : Z;
  env_uuid4 : nat → UUID;
}.

(** ** Rows *)
Record RunRow : Set := {
  rr_id : UUID;
  rr_project_id : UUID;
  rr_base_commit : string;
  rr_status : string;
  rr_display_status : string;
  rr_recovery_reason : option string;
  rr_recovery_checked_at : option Z;
  rr_recovery_run_id : option UUID;
  rr_visibility_status : string;
  rr_event_sequence : Z;
  rr_dag_sha256 : option string;
  rr_terminal_result : option JSON;
  rr_terminal_result_sha256 : option string;
  rr_started_at : Z;
  rr_finished_at : option Z;
}.

Record TaskRow : Set := {
  tr_run_id : UUID;
  tr_task_id : string;
  tr_contract : JSON;
  tr_contract_sha256 : string;
  tr_depends_on : option (list string);
  tr_node_metadata : option JSON;
  lease_owner : option string;
  lease_dispatch_id : option UUID;
  lease_generation : Z;
  run_token : option UUID;
  lease_acquired_at : option Z;
  heartbeat_at : option Z;
  lease_until : option Z;
  lease_released_at : option Z;
  tr_created_at : Z;
}.

Record RuntimeEventRow : Set := {
  er_id : Z;
  er_event_id : UUID;
  er_run_id : UUID;
  er_sequence : Z;
  er_event_key : string;
  er_kind : string;
  er_source : string;
  er_level : string;
  er_task_id : option string;
  er_dispatch_id : option UUID;
  er_generation : option Z;
  er_message : string;
  er_schema_version : Z;
  er_attributes : JSON;
  er_attributes_sha256 : string;
  er_created_at : Z;
}.

Record Database : Set := {
  db_runs : gmap UUID RunRow;
  db_tasks : gmap (UUID * string) TaskRow;
  db_events : list RuntimeEventRow;
  db_next_event_id : Z;
}.

Definition DB := M Database.

(** The [display_status]-independent part: replace the event counter. *)
Definition with_event_sequence (n : Z) (r : RunRow) : RunRow := {|
  rr_id := rr_id r; rr_project_id := rr_project_id r; rr_base_commit := rr_base_commit r;
  rr_status := rr_status r; rr_display_status := rr_display_status r;
  rr_recovery_reason := rr_recovery_reason r; rr_recovery_checked_at := rr_recovery_checked_at r;
  rr_recovery_run_id := rr_recovery_run_id r; rr_visibility_status := rr_visibility_status r;
  rr_event_sequence := n; rr_dag_sha256 := rr_dag_sha256 r;
  rr_terminal_result := rr_terminal_result r;
  rr_terminal_result_sha256 := rr_terminal_result_sha256 r;
  rr_started_at := rr_started_at r; rr_finished_at := rr_finished_at r;
|}.

(** ** Constraints *)

(** [ck_tasks_lease_shape] *)
Definition ck_tasks_lease_shape (t : TaskRow) : bool :=
  (bool_decide (lease_owner t = None) && bool_decide (lease_dispatch_id t = None)
   && bool_decide (lease_acquired_at t = None) && bool_decide (heartbeat_at t = None)
   && bool_decide (lease_until t = None) && bool_decide (lease_released_at t = None)
   && bool_decide (run_token t = None) && (lease_generation t =? 0)%Z)
  || (bool_decide (is_Some (lease_owner t)) && bool_decide (is_Some (lease_dispatch_id t))
      && bool_decide (is_Some (lease_acquired_at t)) && bool_decide (is_Some (heartbeat_at t))
      && bool_decide (is_Some (lease_until t)) && bool_decide (is_Some (run_token t))
      && (1 <=? lease_generation t)%Z).

(** [uq_tasks_run_token]: NULLs are distinct. *)
Definition uq_tasks_run_token (key : UUID * string) (t : TaskRow)
    (tasks : gmap (UUID * string) TaskRow) : bool :=
  match run_token t with
  | None => true
  | Some k => forallb (λ p, bool_decide (p.1 = key) || negb (bool_decide (run_token p.2 = Some k)))
                (map_to_list tasks)
  end.

Definition check_sql (b : bool) (constraint : string) : DB unit :=
  ensure b IntegrityError constraint.

(** ** Statements *)
Definition set_tasks (ts : gmap (UUID * string) TaskRow) (db : Database) : Database :=
  {| db_runs := db_runs db; db_tasks := ts; db_events := db_events db;
     db_next_event_id := db_next_event_id db |}.
Definition set_runs (rs : gmap UUID RunRow) (db : Database) : Database :=
  {| db_runs := rs; db_tasks := db_tasks db; db_events := db_events db;
     db_next_event_id := db_next_event_id db |}.
Definition add_event_row (e : RuntimeEventRow) (db : Database) : Database :=
  {| db_runs := db_runs db; db_tasks := db_tasks db; db_events := db_events db ++ [e];
     db_next_event_id := (db_next_event_id db + 1)%Z |}.

(** PostgreSQL [Integer] columns hold 32-bit signed integers. *)
Definition int4 (n : Z) : bool := ((-2147483648 <=? n) && (n <=? 2147483647))%Z.

(** Write a modified task row back ([session.flush()]). *)
Definition update_task (t : TaskRow) : DB unit :=
  db ← get;
  check_sql (int4 (lease_generation t)) "integer out of range" ;;
  check_sql (ck_tasks_lease_shape t) "ck_tasks_lease_shape" ;;
  check_sql (uq_tasks_run_token (tr_run_id t, tr_task_id t) t (db_tasks db))
    "uq_tasks_run_token" ;;
  modify (set_tasks (<[(tr_run_id t, tr_task_id t) := t]> (db_tasks db))).

Definition update_run (r : RunRow) : DB unit :=
  db ← get;
  check_sql (int4 (rr_event_sequence r)) "integer out of range" ;;
  check_sql (0 <=? rr_event_sequence r)%Z "ck_runs_event_sequence_nonnegative" ;;
  modify (set_runs (<[rr_id r := r]> (db_runs db))).

(** The constraints of [runtime_events]. *)
Definition event_row_ok (e : RuntimeEventRow) (db : Database) : bool :=
  forallb (λ x, negb (bool_decide (er_event_id x = er_event_id e))) (db_events db)
  && forallb (λ x, negb (bool_decide (er_run_id x = er_run_id e ∧ er_event_key x = er_event_key e)))
       (db_events db)
  && forallb (λ x, negb (bool_decide (er_run_id x = er_run_id e ∧ er_sequence x = er_sequence e)))
       (db_events db)
  && bool_decide (is_Some (db_runs db !! er_run_id e))
  && match er_task_id e with
     | Some t => bool_decide (is_Some (db_tasks db !! (er_run_id e, t)))
     | None => true
     end
  && match er_generation e with Some g => (1 <=? g)%Z | None => true end
  && (1 <=? er_schema_version e)%Z
  && (bool_decide (is_Some (er_task_id e))
      || bool_decide (er_dispatch_id e = None) && bool_decide (er_generation e = None)).

Definition insert_event (e : RuntimeEventRow) : DB unit :=
  db ← get;
  check_sql (event_row_ok e db) "runtime_events" ;;
  modify (add_event_row e).

(** A row the session already holds. *)
Definition run_row (run_id : UUID) : DB RunRow := λ db,
  (of_option (Exn AssertionError "run row") (db_runs db !! run_id), db).
