(* ===== verification/Events.v ===== *)
(** * Events: the runtime event log ([models/events.py], [persistence/events.py])

    Drafts of events and their validator (which keeps secrets out of the
    attributes at every depth), the idempotent append under the run row
    lock, and the decoding of stored rows. *)
From stdpp Require Import options.
From S2P Require Import Prelude Contracts Json Store.

Inductive RuntimeEventLevel : Set := INFO | WARNING | ERROR.
Inductive RuntimeEventSource : Set :=
  | SRC_PERSISTENCE | SRC_LEASE | SRC_DISPATCH | SRC_WORKER | SRC_RUNTIME
  | SRC_AGENT | SRC_VERIFICATION | SRC_REVIEW | SRC_REPAIR | SRC_INTEGRATION.
Inductive RuntimeEventKind : Set :=
  | RUN_STARTED | RUN_FINALIZED | LEASE_ACQUIRED | LEASE_TAKEN_OVER
  | LEASE_HEARTBEAT | LEASE_RELEASED | EVIDENCE_RECORDED.
#[export] Instance RuntimeEventKind_eq_dec : EqDecision RuntimeEventKind.
Proof. solve_decision. Defined.

Definition level_value (l : RuntimeEventLevel) : string :=
  match l with INFO => "INFO" | WARNING => "WARNING" | ERROR => "ERROR" end.
Definition source_value (s : RuntimeEventSource) : string :=
  match s with
  | SRC_PERSISTENCE => "PERSISTENCE" | SRC_LEASE => "LEASE" | SRC_DISPATCH => "DISPATCH"
  | SRC_WORKER => "WORKER" | SRC_RUNTIME => "RUNTIME" | SRC_AGENT => "AGENT"
  | SRC_VERIFICATION => "VERIFICATION" | SRC_REVIEW => "REVIEW" | SRC_REPAIR => "REPAIR"
  | SRC_INTEGRATION => "INTEGRATION"
  end.
Definition kind_value (k : RuntimeEventKind) : string :=
  match k with
  | RUN_STARTED => "RUN_STARTED" | RUN_FINALIZED => "RUN_FINALIZED"
  | LEASE_ACQUIRED => "LEASE_ACQUIRED" | LEASE_TAKEN_OVER => "LEASE_TAKEN_OVER"
  | LEASE_HEARTBEAT => "LEASE_HEARTBEAT" | LEASE_RELEASED => "LEASE_RELEASED"
  | EVIDENCE_RECORDED => "EVIDENCE_RECORDED"
  end.
Definition all_levels : list RuntimeEventLevel := [INFO; WARNING; ERROR].
Definition all_sources : list RuntimeEventSource :=
  [SRC_PERSISTENCE; SRC_LEASE; SRC_DISPATCH; SRC_WORKER; SRC_RUNTIME;
   SRC_AGENT; SRC_VERIFICATION; SRC_REVIEW; SRC_REPAIR; SRC_INTEGRATION].
Definition all_kinds : list RuntimeEventKind :=
  [RUN_STARTED; RUN_FINALIZED; LEASE_ACQUIRED; LEASE_TAKEN_OVER;
   LEASE_HEARTBEAT; LEASE_RELEASED; EVIDENCE_RECORDED].

(** [StrEnum(value)] *)
Definition enum_of {A} (all : list A) (value_of : A → string) (s : string) : result A :=
  of_option (Exn ValueError (s +:+ " is not a valid value"))
    (find (λ a, bool_decide (value_of a = s)) all).

Definition _SENSITIVE_ATTRIBUTE_KEYS : list string :=
  ["access_token"; "api_key"; "authorization"; "bearer_token"; "password"; "refresh_token";
   "run_token"; "secret"; "siliconflow_api_key"].
Definition _MAX_ATTRIBUTES_BYTES : Z := 16384.

Record RuntimeEventDraft : Set := {
  ed_event_key : string;
  ed_kind : RuntimeEventKind;
  ed_source : RuntimeEventSource;
  ed_level : RuntimeEventLevel;
  ed_task_id : option string;
  ed_dispatch_id : option UUID;
  ed_generation : option Z;
  ed_message : string;
  ed_attributes : list (string * JSON);
}.

Definition sensitive (raw_key : string) : bool :=
  let key := lower (strip raw_key) in
  bool_decide (key ∈ _SENSITIVE_ATTRIBUTE_KEYS) || str_endswith "_api_key" key.

Fixpoint _validate_attributes (value : JSON) : result unit :=
  match value with
  | JObj fields =>
      fold_result (λ _ f,
        valid_if (negb (sensitive f.1)) ("runtime event attribute " +:+ f.1 +:+ " is sensitive") ;;
        _validate_attributes f.2) tt fields
  | JList l => fold_result (λ _ nested, _validate_attributes nested) tt l
  | _ => Ok tt
  end.

Definition validate_structure (self : RuntimeEventDraft) : result RuntimeEventDraft :=
  valid_if (negb (bool_decide (ed_task_id self = None)
                  && (bool_decide (is_Some (ed_dispatch_id self))
                      || bool_decide (is_Some (ed_generation self)))))
    "dispatch_id and generation require task_id correlation" ;;
  _validate_attributes (JObj (ed_attributes self)) ;;
  let encoded := encode_utf8 (dumps (JObj (ed_attributes self))) in
  valid_if (Z.of_nat (str_len encoded) <=? _MAX_ATTRIBUTES_BYTES)%Z
    "runtime event attributes exceed 16384 UTF-8 bytes" ;;
  Ok self.

Definition opt_text_ok (lo hi : nat) (o : option string) : bool :=
  match o with
  | Some s => ((lo <=? str_len s) && (str_len s <=? hi))%nat
  | None => true
  end.
Definition opt_ge (lo : Z) (o : option Z) : bool :=
  match o with Some n => (lo <=? n)%Z | None => true end.

Definition RuntimeEventDraft_new (raw : RuntimeEventDraft) : result RuntimeEventDraft :=
  valid_if ((1 <=? str_len (ed_event_key raw)) && (str_len (ed_event_key raw) <=? 255))%nat
    "event_key" ;;
  valid_if (opt_text_ok 1 128 (ed_task_id raw)) "task_id" ;;
  valid_if (opt_ge 1 (ed_generation raw)) "generation" ;;
  valid_if ((1 <=? str_len (ed_message raw)) && (str_len (ed_message raw) <=? 1000))%nat
    "message" ;;
  validate_structure raw.

Record PersistedRuntimeEvent : Set := {
  pe_id : Z;
  pe_event_id : UUID;
  pe_run_id : UUID;
  pe_sequence : Z;
  pe_event_key : string;
  pe_kind : RuntimeEventKind;
  pe_source : RuntimeEventSource;
  pe_level : RuntimeEventLevel;
  pe_task_id : option string;
  pe_dispatch_id : option UUID;
  pe_generation : option Z;
  pe_message : string;
  pe_schema_version : Z;
  pe_attributes : JSON;
  pe_attributes_sha256 : string;
  pe_created_at : Z;
}.
Definition is_dict (j : JSON) : bool := match j with JObj _ => true | _ => false end.
Definition PersistedRuntimeEvent_new (raw : PersistedRuntimeEvent)
    : result PersistedRuntimeEvent :=
  valid_if (1 <=? pe_id raw)%Z "id" ;;
  valid_if (1 <=? pe_sequence raw)%Z "sequence" ;;
  valid_if ((1 <=? str_len (pe_event_key raw)) && (str_len (pe_event_key raw) <=? 255))%nat
    "event_key" ;;
  valid_if (opt_text_ok 1 128 (pe_task_id raw)) "task_id" ;;
  valid_if (opt_ge 1 (pe_generation raw)) "generation" ;;
  valid_if ((1 <=? str_len (pe_message raw)) && (str_len (pe_message raw) <=? 1000))%nat
    "message" ;;
  valid_if (1 <=? pe_schema_version raw)%Z "schema_version" ;;
  valid_if (is_dict (pe_attributes raw)) "attributes" ;;
  valid_if (is_sha256_hex (pe_attributes_sha256 raw)) "attributes_sha256" ;;
  Ok raw.

Record RuntimeEventAggregate : Set := {
  total_events : Z;
  warning_events : Z;
  error_events : Z;
  lease_acquisitions : Z;
  lease_takeovers : Z;
  lease_releases : Z;
  latest_sequence : Z;
}.
Definition validate_aggregate (self : RuntimeEventAggregate) : result RuntimeEventAggregate :=
  let bounded_counts := [warning_events self; error_events self; lease_acquisitions self;
                         lease_takeovers self; lease_releases self] in
  valid_if (negb (existsb (λ value, (total_events self <? value)%Z) bounded_counts))
    "runtime event aggregate counters cannot exceed total events" ;;
  valid_if (negb ((total_events self =? 0)%Z && negb (latest_sequence self =? 0)%Z))
    "empty runtime event aggregates must have latest_sequence zero" ;;
  valid_if (negb ((0 <? total_events self)%Z && negb (latest_sequence self =? total_events self)%Z))
    "runtime event sequence must remain contiguous from one" ;;
  Ok self.

(** ** [persistence/events.py] *)
Definition _EVENT_SCHEMA_VERSION : Z := 1.

Section log.
Context (sha256 : string → string).

Definition _same_event (row : RuntimeEventRow) (draft : RuntimeEventDraft)
    (attributes_sha256 : string) : bool :=
  bool_decide (er_kind row = kind_value (ed_kind draft))
  && bool_decide (er_source row = source_value (ed_source draft))
  && bool_decide (er_level row = level_value (ed_level draft))
  && bool_decide (er_task_id row = ed_task_id draft)
  && bool_decide (er_dispatch_id row = ed_dispatch_id draft)
  && bool_decide (er_generation row = ed_generation draft)
  && bool_decide (er_message row = ed_message draft)
  && (er_schema_version row =? _EVENT_SCHEMA_VERSION)%Z
  && bool_decide (er_attributes_sha256 row = attributes_sha256).

(** [except ValueError: raise PersistenceCorruptionError] *)
Definition corruption {A} (msg : string) (r : result A) : result A :=
  match r with
  | Ok a => Ok a
  | Raise e => if subclass (exn_kind e) ValueError
               then raise PersistenceCorruptionError msg else Raise e
  end.

Definition decode_runtime_event (row : RuntimeEventRow) : result PersistedRuntimeEvent :=
  check (er_schema_version row =? _EVENT_SCHEMA_VERSION)%Z PersistenceCorruptionError
    ("unsupported runtime event schema version " +:+ str_of_Z (er_schema_version row)) ;;
  verify_payload_hash sha256 (er_attributes row) (er_attributes_sha256 row)
    ("runtime event " +:+ str_of_Z (er_id row) +:+ " attributes") ;;
  '(kind, source, level) ← corruption
     ("persisted runtime event " +:+ str_of_Z (er_id row) +:+ " contains an unknown enum value")
     (kind ← enum_of all_kinds kind_value (er_kind row);
      source ← enum_of all_sources source_value (er_source row);
      level ← enum_of all_levels level_value (er_level row);
      Ok (kind, source, level));
  corruption
    ("persisted runtime event " +:+ str_of_Z (er_id row) +:+ " failed schema validation")
    (PersistedRuntimeEvent_new {|
       pe_id := er_id row;
       pe_event_id := er_event_id row;
       pe_run_id := er_run_id row;
       pe_sequence := er_sequence row;
       pe_event_key := er_event_key row;
       pe_kind := kind;
       pe_source := source;
       pe_level := level;
       pe_task_id := er_task_id row;
       pe_dispatch_id := er_dispatch_id row;
       pe_generation := er_generation row;
       pe_message := er_message row;
       pe_schema_version := er_schema_version row;
       pe_attributes := er_attributes row;
       pe_attributes_sha256 := er_attributes_sha256 row;
       pe_created_at := er_created_at row;
     |}).

Definition find_event (run_id : UUID) (key : string) (l : list RuntimeEventRow)
    : option RuntimeEventRow :=
  find (λ e, bool_decide (er_run_id e = run_id ∧ er_event_key e = key)) l.

(** [event_id] is the value of the [uuid4()] call, [created_at] the
    server default [now()]. *)
Definition append_runtime_event (event_id : UUID) (created_at : Z) (run_id : UUID)
    (draft : RuntimeEventDraft) : DB PersistedRuntimeEvent :=
  let attributes_sha256 := payload_sha256 sha256 (JObj (ed_attributes draft)) in
  db ← get;
  match find_event run_id (ed_event_key draft) (db_events db) with
  | Some existing =>
      if _same_event existing draft attributes_sha256
      then lift (decode_runtime_event existing)
      else throw PersistenceConflictError
        ("runtime event key '" +:+ ed_event_key draft
           +:+ "' was reused for different event data")
  | None =>
      run ← run_row run_id;
      let run := with_event_sequence (rr_event_sequence run + 1) run in
      let row := {|
        er_id := db_next_event_id db;
        er_event_id := event_id;
        er_run_id := rr_id run;
        er_sequence := rr_event_sequence run;
        er_event_key := ed_event_key draft;
        er_kind := kind_value (ed_kind draft);
        er_source := source_value (ed_source draft);
        er_level := level_value (ed_level draft);
        er_task_id := ed_task_id draft;
        er_dispatch_id := ed_dispatch_id draft;
        er_generation := ed_generation draft;
        er_message := ed_message draft;
        er_schema_version := _EVENT_SCHEMA_VERSION;
        er_attributes := JObj (ed_attributes draft);
        er_attributes_sha256 := attributes_sha256;
        er_created_at := created_at;
      |} in
      update_run run ;;
      insert_event row ;;
      lift (decode_runtime_event row)
  end.
End log.

(** ** No secret reaches the log *)

(** [key_inside k j]: some object inside [j], at any depth, has the key [k]. *)
Inductive key_inside (k : string) : JSON → Prop :=
  | key_here v fs : (k, v) ∈ fs → key_inside k (JObj fs)
  | key_field f v fs : (f, v) ∈ fs → key_inside k v → key_inside k (JObj fs)
  | key_item v l : v ∈ l → key_inside k v → key_inside k (JList l).

Lemma fold_unit_Ok {A} (f : A → result unit) l u :
  fold_result (λ _ a, f a) u l = Ok tt → ∀ a, a ∈ l → f a = Ok tt.
Proof.
  revert u. induction l as [|a l IH]; intros u H b Hb; [by apply elem_of_nil in Hb|].
  cbn in H. inv_monad. destruct a0. apply elem_of_cons in Hb as [->|Hb]; [done|eauto].
Qed.

Lemma validate_attributes_safe j k :
  _validate_attributes j = Ok tt → key_inside k j → sensitive k = false.
Proof.
  induction j as [| | | |l IH|fs IH] using JSON_nested_ind; cbn; intros Hv Hk;
    inversion Hk as [v fs' Hin|f v fs' Hin Hk'|v l' Hin Hk']; subst.
  - pose proof (fold_unit_Ok _ _ _ Hv v Hin) as Hv'. rewrite Forall_forall in IH. eauto.
  - pose proof (fold_unit_Ok _ _ _ Hv _ Hin) as Hv'. cbn in Hv'. inv_valid. by to_prop.
  - pose proof (fold_unit_Ok _ _ _ Hv _ Hin) as Hv'. cbn in Hv'. inv_valid.
    rewrite Forall_forall in IH. by apply (IH (f, v)).
Qed.

Lemma validate_structure_Ok raw draft :
  validate_structure raw = Ok draft →
  draft = raw ∧ _validate_attributes (JObj (ed_attributes raw)) = Ok tt.
Proof. unfold validate_structure. intros H. inv_valid. by units. Qed.

Lemma RuntimeEventDraft_new_Ok raw draft : RuntimeEventDraft_new raw = Ok draft → draft = raw.
Proof. unfold RuntimeEventDraft_new. intros H. inv_valid. by apply validate_structure_Ok in H as [-> _]. Qed.

(** ** Decoding inverts writing *)
Lemma enum_of_kind k : enum_of all_kinds kind_value (kind_value k) = Ok k.
Proof. by destruct k. Qed.
Lemma enum_of_source k : enum_of all_sources source_value (source_value k) = Ok k.
Proof. by destruct k. Qed.
Lemma enum_of_level k : enum_of all_levels level_value (level_value k) = Ok k.
Proof. by destruct k. Qed.

(** What the event says, apart from what the database assigned. *)
Definition carries (sha256 : string → string) (draft : RuntimeEventDraft)
    (e : PersistedRuntimeEvent) : Prop :=
  pe_event_key e = ed_event_key draft ∧ pe_kind e = ed_kind draft ∧
  pe_source e = ed_source draft ∧ pe_level e = ed_level draft ∧
  pe_task_id e = ed_task_id draft ∧ pe_dispatch_id e = ed_dispatch_id draft ∧
  pe_generation e = ed_generation draft ∧ pe_message e = ed_message draft ∧
  pe_attributes e = JObj (ed_attributes draft) ∧
  pe_attributes_sha256 e = payload_sha256 sha256 (JObj (ed_attributes draft)).

Section log_facts.
Context (sha256 : string → string) (Hsha : ∀ s, is_sha256_hex (sha256 s) = true).

Definition new_row (event_id : UUID) (created_at id run_seq : Z) (run_id : UUID)
    (draft : RuntimeEventDraft) : RuntimeEventRow := {|
  er_id := id; er_event_id := event_id; er_run_id := run_id; er_sequence := run_seq;
  er_event_key := ed_event_key draft; er_kind := kind_value (ed_kind draft);
  er_source := source_value (ed_source draft); er_level := level_value (ed_level draft);
  er_task_id := ed_task_id draft; er_dispatch_id := ed_dispatch_id draft;
  er_generation := ed_generation draft; er_message := ed_message draft;
  er_schema_version := _EVENT_SCHEMA_VERSION; er_attributes := JObj (ed_attributes draft);
  er_attributes_sha256 := payload_sha256 sha256 (JObj (ed_attributes draft));
  er_created_at := created_at;
|}.

Lemma decode_new_row eid at_ id sq run_id draft raw :
  RuntimeEventDraft_new raw = Ok draft → (1 ≤ id)%Z → (1 ≤ sq)%Z →
  ∃ e, decode_runtime_event sha256 (new_row eid at_ id sq run_id draft) = Ok e ∧
    carries sha256 draft e ∧ pe_sequence e = sq ∧ pe_id e = id ∧ pe_run_id e = run_id ∧
    pe_event_id e = eid.
Proof using Hsha.
  intros Hd Hid Hsq. pose proof (RuntimeEventDraft_new_Ok _ _ Hd) as ->.
  unfold RuntimeEventDraft_new in Hd. inv_valid. clear Hd.
  unfold decode_runtime_event, verify_payload_hash. cbn -[PersistedRuntimeEvent_new all_kinds all_sources all_levels].
  rewrite bool_decide_true by done. cbn -[PersistedRuntimeEvent_new all_kinds all_sources all_levels].
  rewrite enum_of_kind, enum_of_source, enum_of_level. cbn -[PersistedRuntimeEvent_new].
  match goal with |- context [PersistedRuntimeEvent_new ?x] => set (ev := x) end.
  assert (PersistedRuntimeEvent_new ev = Ok ev) as Hev.
  { unfold PersistedRuntimeEvent_new.
    repeat (rewrite valid_if_true; [cbn [mbind result_bind]|]; [|subst ev; cbn -[is_sha256_hex]; try done]);
      [done| | |]; try (apply Z.leb_le; done). apply Hsha. }
  exists ev. rewrite Hev. cbn. by split_and!.
Qed.

Definition run_events (r : UUID) (db : Database) : list RuntimeEventRow :=
  filter (λ e, er_run_id e = r) (db_events db).

(** The event log is well formed: the events of a run are numbered
    contiguously from one up to the counter of the run row, keys do not
    repeat within a run and every row was written from an accepted draft. *)
Record log_wf (db : Database) : Prop := {
  lw_runs : ∀ r run, db_runs db !! r = Some run → rr_id run = r ∧
    er_sequence <$> run_events r db = Z.of_nat <$> seq 1 (Z.to_nat (rr_event_sequence run)) ∧
    (0 ≤ rr_event_sequence run)%Z;
  lw_next : (1 ≤ db_next_event_id db)%Z;
  lw_keys : NoDup ((λ e, (er_run_id e, er_event_key e)) <$> db_events db);
  lw_rows : ∀ e, e ∈ db_events db → ∃ raw draft eid at_ id sq,
    RuntimeEventDraft_new raw = Ok draft ∧ (1 ≤ id)%Z ∧ (1 ≤ sq)%Z ∧
    e = new_row eid at_ id sq (er_run_id e) draft;
}.

Definition logged (event_id : UUID) (created_at : Z) (run : RunRow)
    (draft : RuntimeEventDraft) (db : Database) : Database :=
  add_event_row (new_row event_id created_at (db_next_event_id db)
                   (rr_event_sequence run + 1) (rr_id run) draft)
    (set_runs (<[rr_id run := with_event_sequence (rr_event_sequence run + 1) run]> (db_runs db)) db).

Lemma find_event_None r key l :
  find_event r key l = None ↔ ∀ e, e ∈ l → ¬ (er_run_id e = r ∧ er_event_key e = key).
Proof using.
  unfold find_event. split.
  - intros Hn e He Heq. apply list_elem_of_In in He. apply (find_none _ _ Hn) in He.
    by rewrite bool_decide_true in He.
  - intros H. destruct (find _ l) as [e|] eqn:Hf; [|done].
    apply find_some in Hf as [He%list_elem_of_In Hb%bool_decide_eq_true]. by destruct (H e He).
Qed.

Lemma run_events_bound db r run e :
  log_wf db → db_runs db !! r = Some run → e ∈ db_events db → er_run_id e = r →
  (er_sequence e ≤ rr_event_sequence run)%Z.
Proof using.
  intros Hw Hr He Her. destruct (lw_runs db Hw r run Hr) as (_ & Hseq & Hge).
  assert (er_sequence e ∈ (er_sequence <$> run_events r db)) as Hin.
  { apply list_elem_of_fmap. exists e. split; [done|]. by apply list_elem_of_filter. }
  rewrite Hseq in Hin. apply list_elem_of_fmap in Hin as (n & -> & Hn%elem_of_seq). lia.
Qed.

Definition fresh_event_id (eid : UUID) (db : Database) : Prop :=
  ∀ e, e ∈ db_events db → er_event_id e ≠ eid.

Definition task_known (run_id : UUID) (t : option string) (db : Database) : Prop :=
  ∀ x, t = Some x → is_Some (db_tasks db !! (run_id, x)).

Lemma new_row_constraints eid at_ run raw draft db :
  log_wf db → db_runs db !! rr_id run = Some run → RuntimeEventDraft_new raw = Ok draft →
  task_known (rr_id run) (ed_task_id draft) db → fresh_event_id eid db →
  find_event (rr_id run) (ed_event_key draft) (db_events db) = None →
  ∀ run', event_row_ok
    (new_row eid at_ (db_next_event_id db) (rr_event_sequence run + 1) (rr_id run) draft)
    (set_runs (<[rr_id run := run']> (db_runs db)) db) = true.
Proof using.
  intros Hw Hr Hd Htask Hfresh Hkey run'. rewrite find_event_None in Hkey.
  pose proof (RuntimeEventDraft_new_Ok _ _ Hd) as ->.
  unfold RuntimeEventDraft_new, validate_structure in Hd. inv_valid. clear Hd.
  unfold event_row_ok. cbn [db_events set_runs db_runs db_tasks er_event_id er_run_id
    er_event_key er_sequence er_task_id er_generation er_schema_version er_dispatch_id new_row].
  rewrite !andb_true_iff. split_and!.
  - apply forallb_forall. intros e He%list_elem_of_In.
    apply negb_true_iff, bool_decide_eq_false. by apply Hfresh.
  - apply forallb_forall. intros e He%list_elem_of_In.
    apply negb_true_iff, bool_decide_eq_false. by apply Hkey.
  - apply forallb_forall. intros e He%list_elem_of_In.
    apply negb_true_iff, bool_decide_eq_false. intros [Her Hes].
    pose proof (run_events_bound db _ run e Hw Hr He Her). lia.
  - apply bool_decide_eq_true. rewrite lookup_insert_eq. by eexists.
  - destruct (ed_task_id raw) as [t|] eqn:Ht; [|done].
    apply bool_decide_eq_true. by apply Htask.
  - done.
  - done.
  - revert H3. destruct (ed_task_id raw), (ed_dispatch_id raw), (ed_generation raw); done.
Qed.

Lemma append_new eid at_ run raw draft db :
  log_wf db → db_runs db !! rr_id run = Some run → RuntimeEventDraft_new raw = Ok draft →
  task_known (rr_id run) (ed_task_id draft) db → fresh_event_id eid db →
  find_event (rr_id run) (ed_event_key draft) (db_events db) = None →
  (rr_event_sequence run < 2147483647)%Z →
  ∃ e, append_runtime_event sha256 eid at_ (rr_id run) draft db
         = (Ok e, logged eid at_ run draft db) ∧
    carries sha256 draft e ∧ pe_sequence e = (rr_event_sequence run + 1)%Z ∧
    pe_event_id e = eid ∧ pe_run_id e = rr_id run.
Proof using Hsha.
  intros Hw Hr Hd Htask Hfresh Hkey Hmax.
  destruct (lw_runs db Hw _ _ Hr) as (_ & _ & Hge). pose proof (lw_next db Hw).
  destruct (decode_new_row eid at_ (db_next_event_id db) (rr_event_sequence run + 1)
              (rr_id run) draft raw Hd) as (e & He & Hc & Hs & _ & Hrun & Heid); [lia..|].
  exists e. split_and!; [|done..].
  unfold append_runtime_event, get, run_row, update_run, insert_event, check_sql, ensure, lift,
    modify, mbind, M_bind. rewrite Hkey, Hr. cbn -[decode_runtime_event event_row_ok].
  assert (int4 (rr_event_sequence run + 1) = true) as ->.
  { unfold int4. apply andb_true_iff. split; apply Z.leb_le; lia. }
  cbn -[decode_runtime_event event_row_ok].
  rewrite (proj2 (Z.leb_le _ _)) by lia. cbn -[decode_runtime_event event_row_ok].
  erewrite (new_row_constraints eid at_ run raw draft db) by done.
  cbn -[decode_runtime_event].
  match goal with |- context [decode_runtime_event _ ?row] =>
    change row with (new_row eid at_ (db_next_event_id db) (rr_event_sequence run + 1)
                       (rr_id run) draft) end.
  by rewrite He.
Qed.

Lemma run_events_logged eid at_ run draft db r :
  run_events r (logged eid at_ run draft db) = run_events r db ++
    (if decide (rr_id run = r)
     then [new_row eid at_ (db_next_event_id db) (rr_event_sequence run + 1) (rr_id run) draft]
     else []).
Proof using.
  unfold run_events, logged. cbn -[new_row]. rewrite filter_app. f_equal.
Qed.

Lemma logged_wf eid at_ run raw draft db :
  log_wf db → db_runs db !! rr_id run = Some run → RuntimeEventDraft_new raw = Ok draft →
  find_event (rr_id run) (ed_event_key draft) (db_events db) = None →
  log_wf (logged eid at_ run draft db).
Proof using.
  intros Hw Hr Hd Hkey. pose proof (lw_next db Hw).
  destruct (lw_runs db Hw _ _ Hr) as (_ & Hseq & Hge). split.
  - intros r run'. rewrite run_events_logged. cbn -[new_row]. rewrite fmap_app.
    destruct (decide (rr_id run = r)) as [<-|Hne].
    + rewrite lookup_insert_eq. intros [= <-]. cbn -[seq Z.to_nat].
      split_and!; [done| |lia]. rewrite Hseq.
      replace (Z.to_nat (rr_event_sequence run + 1)) with (Z.to_nat (rr_event_sequence run) + 1)%nat by lia.
      rewrite seq_app, fmap_app. f_equal. cbn. f_equal. lia.
    + rewrite lookup_insert_ne by done. rewrite app_nil_r. apply (lw_runs db Hw).
  - cbn. lia.
  - cbn -[new_row]. rewrite fmap_app. apply NoDup_app. split_and!; [apply (lw_keys db Hw)| |].
    + intros p (e & -> & He)%list_elem_of_fmap. cbn. rewrite list_elem_of_singleton.
      intros [= Her Hek]. rewrite find_event_None in Hkey. by destruct (Hkey e He).
    + apply NoDup_singleton.
  - cbn -[new_row]. intros e. rewrite elem_of_app, list_elem_of_singleton.
    intros [He| ->]; [by apply (lw_rows db Hw)|].
    do 6 eexists. split_and!; [exact Hd| | |reflexivity]; lia.
Qed.

(** The same draft again: the stored event is returned, nothing changes. *)
Lemma append_same eid at_ run raw draft db eid' at_' :
  log_wf db → db_runs db !! rr_id run = Some run → RuntimeEventDraft_new raw = Ok draft →
  find_event (rr_id run) (ed_event_key draft) (db_events db) = None →
  ∃ e, decode_runtime_event sha256 (new_row eid at_ (db_next_event_id db)
         (rr_event_sequence run + 1) (rr_id run) draft) = Ok e ∧
    append_runtime_event sha256 eid' at_' (rr_id run) draft (logged eid at_ run draft db)
    = (Ok e, logged eid at_ run draft db).
Proof using Hsha.
  intros Hw Hr Hd Hkey. pose proof (lw_next db Hw).
  destruct (lw_runs db Hw _ _ Hr) as (_ & _ & Hge).
  destruct (decode_new_row eid at_ (db_next_event_id db) (rr_event_sequence run + 1)
              (rr_id run) draft raw Hd) as (e & He & _); [lia..|].
  exists e. split; [done|].
  unfold append_runtime_event, get, mbind, M_bind.
  assert (Hfind : find_event (rr_id run) (ed_event_key draft)
            (db_events db ++ [new_row eid at_ (db_next_event_id db)
                                (rr_event_sequence run + 1) (rr_id run) draft]) =
          Some (new_row eid at_ (db_next_event_id db) (rr_event_sequence run + 1) (rr_id run) draft)).
  { revert Hkey. unfold find_event.
    induction (db_events db) as [|x l IH]; cbn -[new_row].
    - by rewrite bool_decide_true by done.
    - by case_match. }
  change (db_events (logged eid at_ run draft db)) with
    (db_events db ++ [new_row eid at_ (db_next_event_id db)
                        (rr_event_sequence run + 1) (rr_id run) draft]).
  rewrite Hfind.
  assert (_same_event (new_row eid at_ (db_next_event_id db) (rr_event_sequence run + 1)
            (rr_id run) draft) draft (payload_sha256 sha256 (JObj (ed_attributes draft))) = true) as ->.
  { unfold _same_event. cbn -[payload_sha256]. by rewrite !bool_decide_true by done. }
  unfold lift. by rewrite He.
Qed.
End log_facts.

(** ** Properties *)

(** Events never carry secrets: the attributes of an accepted draft hold
    no sensitive key ([api_key], [run_token], [*_api_key], ...) in any object
    at any depth. *)
Theorem draft_attributes_hold_no_secret raw draft k
    (Hd : RuntimeEventDraft_new raw = Ok draft) (Hk : key_inside k (JObj (ed_attributes draft))) :
  sensitive k = false.
Proof.
  pose proof (RuntimeEventDraft_new_Ok _ _ Hd) as ->.
  unfold RuntimeEventDraft_new in Hd. inv_valid.
  apply validate_structure_Ok in Hd as [_ Hv]. by eapply validate_attributes_safe.
Qed.

(** The event log is append-only, gap-free and idempotent: appending an
    accepted draft with a new key returns the event it describes with the
    next sequence number of the run (a 32-bit column) and keeps the log well
    formed; appending
    the same draft again returns the stored event and changes nothing. *)
Theorem append_runtime_event_correct (sha256 : string → string)
    (Hsha : ∀ s, is_sha256_hex (sha256 s) = true) db run raw draft eid at_ eid' at_'
    (Hwf : log_wf sha256 db) (Hrun : db_runs db !! rr_id run = Some run)
    (Hd : RuntimeEventDraft_new raw = Ok draft)
    (Htask : task_known (rr_id run) (ed_task_id draft) db)
    (Hfresh : fresh_event_id eid db)
    (Hkey : find_event (rr_id run) (ed_event_key draft) (db_events db) = None)
    (Hmax : (rr_event_sequence run < 2147483647)%Z) :
  ∃ e db', append_runtime_event sha256 eid at_ (rr_id run) draft db = (Ok e, db') ∧
    carries sha256 draft e ∧ pe_sequence e = (rr_event_sequence run + 1)%Z ∧
    (∃ row, db_events db' = db_events db ++ [row]) ∧ log_wf sha256 db' ∧
    append_runtime_event sha256 eid' at_' (rr_id run) draft db' = (Ok e, db').
Proof.
  destruct (append_new sha256 Hsha eid at_ run raw draft db Hwf Hrun Hd Htask Hfresh Hkey Hmax)
    as (e & He & Hc & Hs & Heid & _).
  destruct (append_same sha256 Hsha eid at_ run raw draft db eid' at_' Hwf Hrun Hd Hkey)
    as (e' & Hdec & Hsame).
  exists e, (logged sha256 eid at_ run draft db). split_and!; [done|done|done| | |].
  - by eexists.
  - by eapply logged_wf.
  - rewrite Hsame. f_equal.
    destruct (decode_new_row sha256 Hsha eid at_ (db_next_event_id db) (rr_event_sequence run + 1)
                (rr_id run) draft raw Hd) as (e2 & He2 & _).
    { apply (lw_next _ _ Hwf). }
    { destruct (lw_runs _ _ Hwf _ _ Hrun) as (_ & _ & ?). lia. }
    revert He. unfold append_runtime_event, get, run_row, update_run, insert_event, check_sql,
      ensure, lift, modify, mbind, M_bind. rewrite Hkey, Hrun.
    cbn -[decode_runtime_event event_row_ok]. repeat case_match; try done.
    intros [= He _].
    match type of He with decode_runtime_event _ ?row = _ =>
      change row with (new_row sha256 eid at_ (db_next_event_id db) (rr_event_sequence run + 1)
                         (rr_id run) draft) in He end.
    congruence.
Qed.

(** A key cannot be reused for different data: if the stored event under
    the draft's key says something else, the append is refused with a
    [PersistenceConflictError] and the database is unchanged. *)
Theorem reused_event_key_conflicts (sha256 : string → string) db run_id draft eid at_ row
    (Hrow : find_event run_id (ed_event_key draft) (db_events db) = Some row)
    (Hdiff : er_kind row ≠ kind_value (ed_kind draft) ∨ er_message row ≠ ed_message draft ∨
      er_task_id row ≠ ed_task_id draft ∨ er_dispatch_id row ≠ ed_dispatch_id draft ∨
      er_generation row ≠ ed_generation draft ∨
      er_attributes_sha256 row ≠ payload_sha256 sha256 (JObj (ed_attributes draft))) :
  ∃ msg, append_runtime_event sha256 eid at_ run_id draft db
    = (Raise (Exn PersistenceConflictError msg), db).
Proof.
  unfold append_runtime_event, get, mbind, M_bind. rewrite Hrow.
  assert (_same_event row draft (payload_sha256 sha256 (JObj (ed_attributes draft))) = false) as ->.
  { apply not_true_iff_false. unfold _same_event. intros H. to_prop. naive_solver. }
  by eexists.
Qed.

(** ** Concrete runs *)
Definition sample_sha256 (_ : string) : string :=
  of_chars (replicate 64 "0"%char).
Definition sample_run (id : UUID) : RunRow := {|
  rr_id := id; rr_project_id := 7%N; rr_base_commit := of_chars (replicate 40 "a"%char);
  rr_status := "RUNNING"; rr_display_status := "RUNNING"; rr_recovery_reason := None;
  rr_recovery_checked_at := None; rr_recovery_run_id := None; rr_visibility_status := "VISIBLE";
  rr_event_sequence := 0; rr_dag_sha256 := None; rr_terminal_result := None;
  rr_terminal_result_sha256 := None; rr_started_at := 0; rr_finished_at := None;
|}.
Definition sample_task (run_id : UUID) (task_id : string) : TaskRow := {|
  tr_run_id := run_id; tr_task_id := task_id; tr_contract := JObj [];
  tr_contract_sha256 := sample_sha256 ""; tr_depends_on := None; tr_node_metadata := None;
  lease_owner := None; lease_dispatch_id := None; lease_generation := 0; run_token := None;
  lease_acquired_at := None; heartbeat_at := None; lease_until := None;
  lease_released_at := None; tr_created_at := 0;
|}.
Definition sample_db : Database := {|
  db_runs := {[ 1%N := sample_run 1%N ]};
  db_tasks := {[ (1%N, "a") := sample_task 1%N "a" ]};
  db_events := [];
  db_next_event_id := 1;
|}.
Definition sample_draft : RuntimeEventDraft := {|
  ed_event_key := "run:started"; ed_kind := RUN_STARTED; ed_source := SRC_PERSISTENCE;
  ed_level := INFO; ed_task_id := Some "a"; ed_dispatch_id := None; ed_generation := None;
  ed_message := "started"; ed_attributes := [("owner", JObj [("name", JStr "w")])];
|}.

Lemma sample_sha256_hex s : is_sha256_hex (sample_sha256 s) = true.
Proof. vm_compute. reflexivity. Qed.

Lemma sample_db_wf : log_wf sample_sha256 sample_db.
Proof.
  split.
  - intros r run. cbn. intros [<- <-]%lookup_singleton_Some. by vm_compute.
  - done.
  - constructor.
  - intros e He. by apply not_elem_of_nil in He.
Qed.

Lemma draft_attributes_hold_no_secret_witness : sensitive "name" = false.
Proof.
  apply (draft_attributes_hold_no_secret sample_draft sample_draft "name").
  - vm_compute. reflexivity.
  - eapply key_field; [by left|]. eapply key_here. by left.
Defined.

Lemma append_runtime_event_correct_witness :
  ∃ e db', append_runtime_event sample_sha256 9%N 5 1%N sample_draft sample_db = (Ok e, db') ∧
    carries sample_sha256 sample_draft e ∧ pe_sequence e = 1%Z ∧
    (∃ row, db_events db' = [row]) ∧ log_wf sample_sha256 db' ∧
    append_runtime_event sample_sha256 10%N 6 1%N sample_draft db' = (Ok e, db').
Proof.
  apply (append_runtime_event_correct sample_sha256 sample_sha256_hex sample_db (sample_run 1%N)
           sample_draft sample_draft 9%N 5 10%N 6).
  - exact sample_db_wf.
  - vm_compute. reflexivity.
  - vm_compute. reflexivity.
  - intros x Hx. injection Hx as <-. by eexists.
  - intros e He. by apply not_elem_of_nil in He.
  - vm_compute. reflexivity.
  - vm_compute. reflexivity.
Defined.

Definition other_draft : RuntimeEventDraft := {|
  ed_event_key := "run:started"; ed_kind := RUN_FINALIZED; ed_source := SRC_PERSISTENCE;
  ed_level := INFO; ed_task_id := Some "a"; ed_dispatch_id := None; ed_generation := None;
  ed_message := "started"; ed_attributes := [];
|}.
Lemma reused_event_key_conflicts_witness :
  let db := logged sample_sha256 9%N 5 (sample_run 1%N) sample_draft sample_db in
  ∃ msg, append_runtime_event sample_sha256 10%N 6 1%N other_draft db
    = (Raise (Exn PersistenceConflictError msg), db).
Proof.
  eapply reused_event_key_conflicts.
  - vm_compute. reflexivity.
  - left. vm_compute. discriminate.
Defined.
