(* ===== verification/Lease.v ===== *)
(** * Lease: task execution leases and write fencing
    ([models/lease.py], [persistence/leases.py], [persistence/fencing.py])

    [PostgresTaskLeaseStore] over the [Store] database: acquisition and
    takeover, heartbeat renewal, release, the guard of Git mutations and the
    read-only queries, each with every check in the order of the source and
    inside its transaction.  [lease_seconds] is a Python float: a rational, an
    infinity or NaN; [timedelta(seconds=...)] rounds it half-even to
    microseconds. *)
From Stdlib Require Import QArith.
From stdpp Require Import options.
From S2P Require Import Prelude Contracts Json Store Events.
Open Scope Z_scope.

(** ** [models/lease.py] *)
Inductive TaskLeaseState : Set := UNOWNED | ACTIVE | EXPIRED | RELEASED.
#[export] Instance TaskLeaseState_eq_dec : EqDecision TaskLeaseState.
Proof. solve_decision. Defined.

Record TaskLeaseSnapshot : Set := {
  ls_run_id : UUID;
  ls_task_id : string;
  ls_state : TaskLeaseState;
  ls_generation : Z;
  ls_owner_id : option string;
  ls_dispatch_id : option UUID;
  ls_acquired_at : option Z;
  ls_heartbeat_at : option Z;
  ls_lease_until : option Z;
  ls_released_at : option Z;
  ls_observed_at : Z;
}.

Definition abandoned (s : TaskLeaseSnapshot) : bool := bool_decide (ls_state s = EXPIRED).

Definition is_none {A} (o : option A) : bool := match o with None => true | Some _ => false end.

(** [TaskLeaseSnapshot.validate_shape] *)
Definition validate_shape (self : TaskLeaseSnapshot) : result TaskLeaseSnapshot :=
  let missing := is_none (ls_owner_id self) || is_none (ls_dispatch_id self)
                 || is_none (ls_acquired_at self) || is_none (ls_heartbeat_at self)
                 || is_none (ls_lease_until self) in
  let all_none := is_none (ls_owner_id self) && is_none (ls_dispatch_id self)
                  && is_none (ls_acquired_at self) && is_none (ls_heartbeat_at self)
                  && is_none (ls_lease_until self) && is_none (ls_released_at self) in
  if decide (ls_state self = UNOWNED) then
    valid_if (ls_generation self =? 0) "UNOWNED leases must use generation zero" ;;
    valid_if all_none "UNOWNED leases must not contain ownership timestamps or identity" ;;
    Ok self
  else
    valid_if (1 <=? ls_generation self) "owned lease states require a positive generation" ;;
    valid_if (negb missing)
      "owned lease states require owner, dispatch, acquire, heartbeat and expiry" ;;
    lease_until ← of_option (Exn AssertionError "") (ls_lease_until self);
    heartbeat_at ← of_option (Exn AssertionError "") (ls_heartbeat_at self);
    acquired_at ← of_option (Exn AssertionError "") (ls_acquired_at self);
    valid_if (acquired_at <=? heartbeat_at) "lease heartbeat cannot precede acquisition" ;;
    valid_if (heartbeat_at <? lease_until) "lease expiry must follow the latest heartbeat" ;;
    if decide (ls_state self = RELEASED) then
      match ls_released_at self with
      | None => invalid "RELEASED leases require released_at"
      | Some released_at =>
          valid_if (acquired_at <=? released_at) "lease release cannot precede acquisition" ;;
          Ok self
      end
    else
      valid_if (is_none (ls_released_at self))
        "ACTIVE and EXPIRED leases must not contain released_at" ;;
      valid_if (negb (bool_decide (ls_state self = ACTIVE) && (lease_until <=? ls_observed_at self)))
        "ACTIVE leases must expire after observed_at" ;;
      valid_if (negb (bool_decide (ls_state self = EXPIRED) && (ls_observed_at self <? lease_until)))
        "EXPIRED leases must expire at or before observed_at" ;;
      Ok self.

Definition TaskLeaseSnapshot_new (raw : TaskLeaseSnapshot) : result TaskLeaseSnapshot :=
  valid_if ((1 <=? str_len (ls_task_id raw)) && (str_len (ls_task_id raw) <=? 128))%nat "task_id" ;;
  valid_if (0 <=? ls_generation raw) "generation" ;;
  valid_if (opt_text_ok 1 255 (ls_owner_id raw)) "owner_id" ;;
  validate_shape raw.

Record TaskLeaseGrant : Set := {
  tlg_snapshot : TaskLeaseSnapshot;
  tlg_run_token : UUID;
}.
(** [validate_live_grant] *)
Definition TaskLeaseGrant_new (raw : TaskLeaseGrant) : result TaskLeaseGrant :=
  valid_if (bool_decide (ls_state (tlg_snapshot raw) = ACTIVE))
    "task lease grants require an ACTIVE snapshot" ;;
  valid_if (1 <=? ls_generation (tlg_snapshot raw))
    "task lease grants require a positive generation" ;;
  Ok raw.

(** ** [persistence/fencing.py] *)
Definition database_time (e : Env) : result Z :=
  match env_clock e with
  | NotADatetime =>
      raise RuntimeError "PostgreSQL did not return a timezone-aware fencing timestamp"
  | NaiveTimestamp _ =>
      raise RuntimeError "PostgreSQL fencing timestamp must include timezone information"
  | Timestamptz us => Ok us
  end.

Definition assert_current_run_token (task : TaskRow) (token : option UUID) : result unit :=
  check (negb (is_none (run_token task))) StaleRunTokenError
    "task does not have a fenced execution generation" ;;
  check (negb (is_none token)) StaleRunTokenError
    "current run_token is required for this task write" ;;
  check (bool_decide (run_token task = token)) StaleRunTokenError
    "run_token is stale for the current task execution generation".

Definition assert_live_current_run_token (task : TaskRow) (token : option UUID)
    (observed_at : Z) : result unit :=
  assert_current_run_token task token ;;
  check (is_none (lease_released_at task)) StaleRunTokenError
    "released task generations cannot authorize mutable writes" ;;
  check (match lease_until task with Some u => observed_at <? u | None => false end)
    StaleRunTokenError "expired task generations cannot authorize mutable writes".

(** ** [persistence/leases.py] *)

(** A Python float. *)
Inductive py_float : Set := PFinite (q : Q) | PInf (negative : bool) | PNaN.

(** [timedelta(seconds=value)], in microseconds. *)
Definition timedelta_seconds (q : Q) : Z := round_half_even (Qnum q * 1000000) (Qden q).

Definition _lease_duration (value : py_float) : result Z :=
  match value with
  | PFinite q =>
      check (negb (Qle_bool q 0 || negb (Qle_bool q 86400))) ValueError
        "lease_seconds must be greater than zero and at most 86400" ;;
      Ok (timedelta_seconds q)
  | PInf _ => raise ValueError "lease_seconds must be greater than zero and at most 86400"
  | PNaN => raise ValueError "cannot convert float NaN to integer"
  end.

Definition _required_text (value name : string) (max_length : nat) : result string :=
  let normalized := strip value in
  check (negb (bool_decide (normalized = ""))) ValueError (name +:+ " must not be empty") ;;
  check (str_len normalized <=? max_length)%nat ValueError
    (name +:+ " exceeds maximum length " +:+ str_of_Z (Z.of_nat max_length)) ;;
  Ok normalized.

Definition _locked_run (run_id : UUID) : DB RunRow := λ db,
  (of_option (Exn ValueError "unknown persistence run") (db_runs db !! run_id), db).

Definition _locked_task (run_id : UUID) (task_id : string) : DB TaskRow := λ db,
  (of_option (Exn ValueError ("unknown persisted task '" +:+ task_id +:+ "'"))
     (db_tasks db !! (run_id, task_id)), db).

Definition _assert_identity (task : TaskRow) (owner_id : string) (dispatch_id token : UUID)
    : result unit :=
  check (negb (is_none (lease_owner task))) TaskLeaseConflictError
    "task does not have an acquired lease" ;;
  assert_current_run_token task (Some token) ;;
  check (bool_decide (lease_owner task = Some owner_id)
         && bool_decide (lease_dispatch_id task = Some dispatch_id)) TaskLeaseConflictError
    "task lease is owned by a different worker or dispatch".

Definition _snapshot (task : TaskRow) (observed_at : Z) : result TaskLeaseSnapshot :=
  state ← (if is_none (lease_owner task) then Ok UNOWNED
           else if negb (is_none (lease_released_at task)) then Ok RELEASED
           else lease_until ← of_option (Exn AssertionError "") (lease_until task);
                Ok (if lease_until <=? observed_at then EXPIRED else ACTIVE));
  TaskLeaseSnapshot_new {|
    ls_run_id := tr_run_id task;
    ls_task_id := tr_task_id task;
    ls_state := state;
    ls_generation := lease_generation task;
    ls_owner_id := lease_owner task;
    ls_dispatch_id := lease_dispatch_id task;
    ls_acquired_at := lease_acquired_at task;
    ls_heartbeat_at := heartbeat_at task;
    ls_lease_until := lease_until task;
    ls_released_at := lease_released_at task;
    ls_observed_at := observed_at;
  |}.

(** The lease columns of a task row. *)
Definition with_lease (owner : string) (dispatch : UUID) (generation : Z) (token : UUID)
    (acquired heartbeat until : Z) (released : option Z) (t : TaskRow) : TaskRow := {|
  tr_run_id := tr_run_id t; tr_task_id := tr_task_id t; tr_contract := tr_contract t;
  tr_contract_sha256 := tr_contract_sha256 t; tr_depends_on := tr_depends_on t;
  tr_node_metadata := tr_node_metadata t;
  lease_owner := Some owner; lease_dispatch_id := Some dispatch;
  lease_generation := generation; run_token := Some token;
  lease_acquired_at := Some acquired; heartbeat_at := Some heartbeat;
  lease_until := Some until; lease_released_at := released;
  tr_created_at := tr_created_at t;
|}.
Definition with_heartbeat (heartbeat until : Z) (t : TaskRow) : TaskRow := {|
  tr_run_id := tr_run_id t; tr_task_id := tr_task_id t; tr_contract := tr_contract t;
  tr_contract_sha256 := tr_contract_sha256 t; tr_depends_on := tr_depends_on t;
  tr_node_metadata := tr_node_metadata t;
  lease_owner := lease_owner t; lease_dispatch_id := lease_dispatch_id t;
  lease_generation := lease_generation t; run_token := run_token t;
  lease_acquired_at := lease_acquired_at t; heartbeat_at := Some heartbeat;
  lease_until := Some until; lease_released_at := lease_released_at t;
  tr_created_at := tr_created_at t;
|}.
Definition with_release (released : Z) (t : TaskRow) : TaskRow := {|
  tr_run_id := tr_run_id t; tr_task_id := tr_task_id t; tr_contract := tr_contract t;
  tr_contract_sha256 := tr_contract_sha256 t; tr_depends_on := tr_depends_on t;
  tr_node_metadata := tr_node_metadata t;
  lease_owner := lease_owner t; lease_dispatch_id := lease_dispatch_id t;
  lease_generation := lease_generation t; run_token := run_token t;
  lease_acquired_at := lease_acquired_at t; heartbeat_at := heartbeat_at t;
  lease_until := lease_until t; lease_released_at := Some released;
  tr_created_at := tr_created_at t;
|}.

Section store.
Context (sha256 : string → string).

(** Which generation an acquisition installs: (previous, next). *)
Definition next_generation (task : TaskRow) (dispatch_id : UUID) (observed_at : Z)
    : result (option Z * Z) :=
  if is_none (lease_owner task) then Ok (None, 1)
  else
    existing ← _snapshot task observed_at;
    check (negb (bool_decide (ls_state existing = ACTIVE))) TaskLeaseConflictError
      "task already has an ACTIVE execution generation" ;;
    check (negb (bool_decide (ls_state existing = RELEASED))) TaskLeaseConflictError
      "released task generations are terminal ownership history and cannot be reused" ;;
    check (bool_decide (ls_state existing = EXPIRED)) TaskLeaseConflictError
      "task lease state cannot be safely acquired" ;;
    check (negb (bool_decide (lease_dispatch_id task = Some dispatch_id)))
      TaskLeaseConflictError "expired-owner takeover requires a fresh dispatch_id" ;;
    Ok (Some (lease_generation task), lease_generation task + 1).

Definition acquired_draft (task_name owner : string) (dispatch_id : UUID)
    (previous : option Z) (next until : Z) : RuntimeEventDraft := {|
  ed_event_key := "lease:" +:+ task_name +:+ ":generation:" +:+ str_of_Z next +:+ ":acquired";
  ed_kind := if is_none previous then LEASE_ACQUIRED else LEASE_TAKEN_OVER;
  ed_source := SRC_LEASE;
  ed_level := INFO;
  ed_task_id := Some task_name;
  ed_dispatch_id := Some dispatch_id;
  ed_generation := Some next;
  ed_message := if is_none previous then "Task lease generation acquired."
                else "Expired task generation was replaced by a new fenced owner.";
  ed_attributes := [
    ("owner_id", JStr owner);
    ("previous_generation", match previous with Some g => JInt g | None => JNull end);
    ("lease_until", JStr (isoformat until))];
|}.

Definition acquire_task_lease (e : Env) (run_id : UUID) (task_id owner_id : string)
    (dispatch_id : UUID) (lease_seconds : py_float) : DB TaskLeaseGrant :=
  task_name ← lift (_required_text task_id "task_id" 128);
  owner ← lift (_required_text owner_id "owner_id" 255);
  duration ← lift (_lease_duration lease_seconds);
  transaction (
    run ← _locked_run run_id;
    ensure (bool_decide (rr_status run = "RUNNING")) TaskLeaseConflictError
      "task leases can be acquired only for RUNNING runs" ;;
    task ← _locked_task run_id task_name;
    observed_at ← lift (database_time e);
    '(previous, next) ← lift (next_generation task dispatch_id observed_at);
    let token := env_uuid4 e 0 in
    let task := with_lease owner dispatch_id next token observed_at observed_at
                  (observed_at + duration) None task in
    update_task task ;;
    draft ← lift (RuntimeEventDraft_new
      (acquired_draft task_name owner dispatch_id previous next (observed_at + duration)));
    append_runtime_event sha256 (env_uuid4 e 1) (env_now e) run_id draft ;;
    snapshot ← lift (_snapshot task observed_at);
    lift (TaskLeaseGrant_new {| tlg_snapshot := snapshot; tlg_run_token := token |})).

Definition heartbeat_draft (task_name owner : string) (dispatch_id : UUID)
    (generation observed_at until : Z) : RuntimeEventDraft := {|
  ed_event_key := "lease:" +:+ task_name +:+ ":generation:" +:+ str_of_Z generation
                  +:+ ":heartbeat:" +:+ isoformat observed_at;
  ed_kind := LEASE_HEARTBEAT;
  ed_source := SRC_LEASE;
  ed_level := INFO;
  ed_task_id := Some task_name;
  ed_dispatch_id := Some dispatch_id;
  ed_generation := Some generation;
  ed_message := "Task lease heartbeat renewed.";
  ed_attributes := [("owner_id", JStr owner); ("lease_until", JStr (isoformat until))];
|}.

(** [assert task.lease_until is not None], then the expiry check. *)
Definition require_unexpired (task : TaskRow) (observed_at : Z) (msg : string) : DB unit :=
  until ← lift (of_option (Exn AssertionError "") (lease_until task));
  ensure (observed_at <? until) TaskLeaseExpiredError msg.

Definition renew_task_lease (e : Env) (run_id : UUID) (task_id owner_id : string)
    (dispatch_id token : UUID) (lease_seconds : py_float) : DB TaskLeaseSnapshot :=
  task_name ← lift (_required_text task_id "task_id" 128);
  owner ← lift (_required_text owner_id "owner_id" 255);
  duration ← lift (_lease_duration lease_seconds);
  transaction (
    run ← _locked_run run_id;
    task ← _locked_task run_id task_name;
    observed_at ← lift (database_time e);
    lift (_assert_identity task owner dispatch_id token) ;;
    ensure (is_none (lease_released_at task)) TaskLeaseConflictError
      "released task leases cannot be renewed" ;;
    require_unexpired task observed_at
      "expired task generations cannot be resurrected by heartbeat" ;;
    let task := with_heartbeat observed_at (observed_at + duration) task in
    update_task task ;;
    draft ← lift (RuntimeEventDraft_new
      (heartbeat_draft task_name owner dispatch_id (lease_generation task) observed_at
         (observed_at + duration)));
    append_runtime_event sha256 (env_uuid4 e 0) (env_now e) run_id draft ;;
    lift (_snapshot task observed_at)).

Definition released_draft (task_name owner : string) (dispatch_id : UUID)
    (generation observed_at : Z) : RuntimeEventDraft := {|
  ed_event_key := "lease:" +:+ task_name +:+ ":generation:" +:+ str_of_Z generation
                  +:+ ":released";
  ed_kind := LEASE_RELEASED;
  ed_source := SRC_LEASE;
  ed_level := INFO;
  ed_task_id := Some task_name;
  ed_dispatch_id := Some dispatch_id;
  ed_generation := Some generation;
  ed_message := "Task lease generation released.";
  ed_attributes := [("owner_id", JStr owner); ("released_at", JStr (isoformat observed_at))];
|}.

Definition release_task_lease (e : Env) (run_id : UUID) (task_id owner_id : string)
    (dispatch_id token : UUID) : DB TaskLeaseSnapshot :=
  task_name ← lift (_required_text task_id "task_id" 128);
  owner ← lift (_required_text owner_id "owner_id" 255);
  transaction (
    run ← _locked_run run_id;
    task ← _locked_task run_id task_name;
    observed_at ← lift (database_time e);
    lift (_assert_identity task owner dispatch_id token) ;;
    if negb (is_none (lease_released_at task)) then lift (_snapshot task observed_at)
    else
      require_unexpired task observed_at
        "expired task generations remain EXPIRED and cannot be rewritten as RELEASED" ;;
      let task := with_release observed_at task in
      update_task task ;;
      draft ← lift (RuntimeEventDraft_new
        (released_draft task_name owner dispatch_id (lease_generation task) observed_at));
      append_runtime_event sha256 (env_uuid4 e 0) (env_now e) run_id draft ;;
      lift (_snapshot task observed_at)).

(** [guard_task_git_mutation]: [body] is the Git mutation the caller runs
    under the row lock, with the snapshot the guard yields. *)
Definition guard_task_git_mutation {A} (e : Env) (run_id : UUID) (task_id : string)
    (dispatch_id token : UUID) (body : TaskLeaseSnapshot → DB A) : DB A :=
  task_name ← lift (_required_text task_id "task_id" 128);
  transaction (
    run ← _locked_run run_id;
    ensure (bool_decide (rr_status run = "RUNNING")) TaskLeaseConflictError
      "Git mutation requires a RUNNING persisted run" ;;
    task ← _locked_task run_id task_name;
    observed_at ← lift (database_time e);
    lift (assert_live_current_run_token task (Some token) observed_at) ;;
    ensure (bool_decide (lease_dispatch_id task = Some dispatch_id)) TaskLeaseConflictError
      "Git mutation dispatch does not own this task" ;;
    snapshot ← lift (_snapshot task observed_at);
    body snapshot).

Definition inspect_task_lease (e : Env) (run_id : UUID) (task_id : string)
    : DB TaskLeaseSnapshot :=
  task_name ← lift (_required_text task_id "task_id" 128);
  task ← _locked_task run_id task_name;
  observed_at ← lift (database_time e);
  lift (_snapshot task observed_at).

(** [ORDER BY run_id, task_id] *)
Definition row_key (t : TaskRow) : UUID * string := (tr_run_id t, tr_task_id t).
Definition row_le (s t : TaskRow) : Prop :=
  (tr_run_id s < tr_run_id t)%N ∨
  (tr_run_id s = tr_run_id t ∧ String.le (tr_task_id s) (tr_task_id t)).
#[global] Instance row_le_dec : RelDecision row_le.
Proof. intros s t. unfold row_le. apply _. Defined.

Definition select_tasks (P : TaskRow → bool) (db : Database) : list TaskRow :=
  merge_sort row_le (filter P (snd <$> map_to_list (db_tasks db))).

Definition list_task_leases (e : Env) (run_id : UUID) : DB (list TaskLeaseSnapshot) :=
  db ← get;
  ensure (bool_decide (is_Some (db_runs db !! run_id))) ValueError "unknown persistence run" ;;
  observed_at ← lift (database_time e);
  lift (map_result (λ t, _snapshot t observed_at)
          (select_tasks (λ t, bool_decide (tr_run_id t = run_id)) db)).

(** The WHERE clause of [list_expired_task_leases]; comparisons with NULL
    are not true. *)
Definition expired_row (run_id : option UUID) (observed_at : Z) (db : Database)
    (t : TaskRow) : bool :=
  match db_runs db !! tr_run_id t with
  | Some run => bool_decide (rr_status run = "RUNNING")
  | None => false
  end
  && negb (is_none (lease_owner t)) && is_none (lease_released_at t)
  && match lease_until t with Some u => u <=? observed_at | None => false end
  && match run_id with Some r => bool_decide (tr_run_id t = r) | None => true end.

Definition list_expired_task_leases (e : Env) (run_id : option UUID)
    : DB (list TaskLeaseSnapshot) :=
  observed_at ← lift (database_time e);
  db ← get;
  lift (map_result (λ t, _snapshot t observed_at)
          (select_tasks (expired_row run_id observed_at db) db)).
End store.

(** ** Row invariants *)

(** The lease columns of a row an acquisition wrote, at a time [now]. *)
Record owned (now : Z) (t : TaskRow) (owner : string) (dispatch : UUID) (token : UUID)
    (acquired heartbeat until : Z) : Prop := {
  ow_owner : lease_owner t = Some owner;
  ow_dispatch : lease_dispatch_id t = Some dispatch;
  ow_token : run_token t = Some token;
  ow_acquired : lease_acquired_at t = Some acquired;
  ow_heartbeat : heartbeat_at t = Some heartbeat;
  ow_until : lease_until t = Some until;
  ow_gen : 1 ≤ lease_generation t;
  ow_len : (1 ≤ str_len owner ≤ 255)%nat;
  ow_times : acquired ≤ heartbeat ∧ heartbeat ≤ now ∧ heartbeat < until;
  ow_released : ∀ r, lease_released_at t = Some r → acquired ≤ r ≤ now;
}.

Definition unowned (t : TaskRow) : Prop :=
  lease_owner t = None ∧ lease_dispatch_id t = None ∧ run_token t = None ∧
  lease_acquired_at t = None ∧ heartbeat_at t = None ∧ lease_until t = None ∧
  lease_released_at t = None ∧ lease_generation t = 0.

Definition row_ok (now : Z) (t : TaskRow) : Prop :=
  (1 ≤ str_len (tr_task_id t) ≤ 128)%nat ∧
  (unowned t ∨ ∃ o d k a h u, owned now t o d k a h u).

(** What the lease columns mean at [observed_at]. *)
Definition classify (t : TaskRow) (observed_at : Z) : TaskLeaseState :=
  match lease_owner t, lease_released_at t, lease_until t with
  | None, _, _ => UNOWNED
  | Some _, Some _, _ => RELEASED
  | Some _, None, Some u => if u <=? observed_at then EXPIRED else ACTIVE
  | Some _, None, None => EXPIRED
  end.

Lemma row_ok_later now now' t : now ≤ now' → row_ok now t → row_ok now' t.
Proof.
  intros Hle [Hlen [Hu|(o & d & k & a & h & u & Ho)]]; split; [done|by left|done|right].
  exists o, d, k, a, h, u. destruct Ho as [? ? ? ? ? ? ? ? Ht Hr]. split; try done; [lia|].
  intros r Hr'. specialize (Hr r Hr'). lia.
Qed.

Definition snapshot_of (t : TaskRow) (observed_at : Z) : TaskLeaseSnapshot := {|
  ls_run_id := tr_run_id t; ls_task_id := tr_task_id t; ls_state := classify t observed_at;
  ls_generation := lease_generation t; ls_owner_id := lease_owner t;
  ls_dispatch_id := lease_dispatch_id t; ls_acquired_at := lease_acquired_at t;
  ls_heartbeat_at := heartbeat_at t; ls_lease_until := lease_until t;
  ls_released_at := lease_released_at t; ls_observed_at := observed_at;
|}.

Lemma snapshot_unowned t obs :
  (1 ≤ str_len (tr_task_id t) ≤ 128)%nat → unowned t → _snapshot t obs = Ok (snapshot_of t obs).
Proof.
  intros Hlen (Ho & Hd & Hk & Ha & Hh & Hu & Hr & Hg).
  unfold _snapshot, snapshot_of, classify. rewrite Ho, Hd, Ha, Hh, Hu, Hr, Hg.
  cbn [is_none mbind result_bind]. unfold TaskLeaseSnapshot_new.
  rewrite (valid_if_true _ "task_id") by by apply len_between. done.
Qed.

Lemma snapshot_owned now t o d k a h u obs :
  (1 ≤ str_len (tr_task_id t) ≤ 128)%nat → owned now t o d k a h u → now ≤ obs →
  _snapshot t obs = Ok (snapshot_of t obs).
Proof.
  intros Hlen [Ho Hd Hk Ha Hh Hu Hg Hol [Ht1 [Ht2 Ht3]] Hr] Hobs.
  unfold _snapshot, snapshot_of, classify. rewrite Ho, Hd, Ha, Hh, Hu. cbn [is_none].
  unfold TaskLeaseSnapshot_new, validate_shape.
  cbn [ls_task_id ls_generation ls_owner_id ls_state ls_dispatch_id ls_acquired_at ls_heartbeat_at
       ls_lease_until ls_released_at ls_observed_at is_none opt_text_ok].
  assert (Hids : valid_if ((1 <=? str_len (tr_task_id t)) && (str_len (tr_task_id t) <=? 128))%nat
            "task_id" = Ok tt) by by apply valid_if_true, len_between.
  assert (Hown : valid_if ((1 <=? str_len o) && (str_len o <=? 255))%nat "owner_id" = Ok tt)
    by by apply valid_if_true, len_between.
  assert (Hg0 : (0 <=? lease_generation t) = true) by (apply Z.leb_le; lia).
  assert (Hg1 : (1 <=? lease_generation t) = true) by by apply Z.leb_le.
  assert (Hah : (a <=? h) = true) by by apply Z.leb_le.
  assert (Hhu : (h <? u) = true) by by apply Z.ltb_lt.
  destruct (lease_released_at t) as [r|] eqn:Hrel; cbn [is_none negb mbind result_bind of_option].
  - rewrite Hids, Hown, Hg0, Hg1. cbn. rewrite Hah, Hhu. cbn.
    by rewrite (proj2 (Z.leb_le _ _)) by (specialize (Hr r eq_refl); lia).
  - rewrite Hids, Hown, Hg0, Hg1. cbn.
    destruct (u <=? obs) eqn:Huo; cbn; rewrite Hah, Hhu; cbn.
    + by rewrite (proj2 (Z.ltb_ge _ _)) by by apply Z.leb_le.
    + done.
Qed.

(** The snapshot validator accepts every row the store can hold. *)
Lemma snapshot_total now t obs :
  row_ok now t → now ≤ obs → _snapshot t obs = Ok (snapshot_of t obs).
Proof.
  intros [Hlen [Hu|(o & d & k & a & h & u & Ho)]] Hobs.
  - by apply snapshot_unowned.
  - by eapply snapshot_owned.
Qed.

(** What a successful snapshot says about the columns. *)
Lemma snapshot_inv t obs s :
  _snapshot t obs = Ok s → s = snapshot_of t obs ∧
    (is_none (lease_owner t) = false → ∃ h u, heartbeat_at t = Some h ∧ lease_until t = Some u ∧ h < u).
Proof.
  unfold _snapshot. intros H. apply bind_Ok_inv in H as (st & Hst & H).
  assert (Hst' : st = classify t obs).
  { unfold classify. destruct (lease_owner t); cbn in Hst; [|congruence].
    destruct (lease_released_at t); cbn in Hst; [congruence|].
    destruct (lease_until t); cbn in Hst; congruence. }
  subst st. unfold TaskLeaseSnapshot_new in H. fold (snapshot_of t obs) in H. inv_valid.
  unfold validate_shape in H. case_decide as Hun.
  - inv_valid. split; [done|]. intros Ho. exfalso. revert Hun Ho. cbn. unfold classify.
    destruct (lease_owner t); [|done]. by repeat case_match.
  - apply bind_Ok_inv in H as (? & _ & H). apply bind_Ok_inv in H as (? & _ & H).
    apply bind_Ok_inv in H as (u & Hu & H). apply bind_Ok_inv in H as (h & Hh & H).
    apply bind_Ok_inv in H as (a' & _ & H). apply bind_Ok_inv in H as (? & _ & H).
    apply bind_Ok_inv in H as (? & Hhu & H). apply valid_if_Ok in Hhu. to_prop. split.
    + case_decide; [|by inv_valid]. by destruct (ls_released_at _); inv_valid.
    + intros _. exists h, u. cbn in Hu, Hh.
      destruct (lease_until t), (heartbeat_at t); cbn in *; naive_solver.
Qed.

(** ** The operations *)
Lemma required_text_inv value name n s :
  _required_text value name n = Ok s → s = strip value ∧ (1 ≤ str_len s ≤ n)%nat.
Proof.
  unfold _required_text. intros H. inv_monad. to_prop. apply Nat.leb_le in H1.
  split; [done|]. split; [|done]. by apply str_len_nonempty.
Qed.

Lemma lease_duration_bound f d : _lease_duration f = Ok d → 0 ≤ d ≤ 86400000000.
Proof.
  destruct f as [q| |]; cbn; try done.
  destruct (Qle_bool q 0) eqn:H1; cbn; [done|].
  destruct (Qle_bool q 86400) eqn:H2; cbn; [|done]. intros [= <-].
  apply Qle_bool_iff in H2.
  assert (Hpos : 0 < Qnum q).
  { destruct (Qlt_le_dec 0 q) as [Hq|Hq]; [unfold Qlt in Hq; cbn in Hq; lia|].
    apply Qle_bool_iff in Hq. congruence. }
  unfold Qle in H2. cbn in H2. unfold timedelta_seconds, round_half_even.
  set (n := Qnum q * 1000000). set (k := Z.pos (Qden q)).
  assert (Hk : 0 < k) by lia.
  pose proof (Z.div_mod n k ltac:(lia)) as Hdm.
  pose proof (Z.mod_pos_bound n k Hk) as Hmod.
  assert (Hn : 0 <= n <= 86400000000 * k) by lia.
  assert (Hf : 0 <= n / k) by (apply Z.div_pos; lia).
  assert (Hle : n / k <= 86400000000) by (apply Z.div_le_upper_bound; lia).
  destruct (2 * (n mod k) ?= k) eqn:Hc.
  - apply Z.compare_eq in Hc. destruct (Z.even _); [lia|]. split; [lia|]. nia.
  - lia.
  - apply Z.compare_gt_iff in Hc. split; [lia|]. nia.
Qed.

Section operations.
Context (sha256 : string → string) (Hsha : ∀ s, is_sha256_hex (sha256 s) = true).

(** *** The drafts are accepted *)
Lemma attributes_ok fs :
  _validate_attributes (JObj fs) = Ok tt →
  Z.of_nat (sum_list_with (λ f, 6 * str_len f.1 + str_len (dumps f.2) + 4)%nat fs) <= 8190 →
  ∀ kind msg key t d g,
    (1 ≤ str_len key ≤ 255)%nat → (1 ≤ str_len msg ≤ 1000)%nat → (1 ≤ str_len t ≤ 128)%nat →
    1 ≤ g →
    let draft := {| ed_event_key := key; ed_kind := kind; ed_source := SRC_LEASE;
                    ed_level := INFO; ed_task_id := Some t; ed_dispatch_id := Some d;
                    ed_generation := Some g; ed_message := msg; ed_attributes := fs |} in
    RuntimeEventDraft_new draft = Ok draft.
Proof using.
  intros Hv Hlen kind msg key t d g Hkey Hmsg Ht Hg draft.
  unfold RuntimeEventDraft_new, validate_structure.
  rewrite (valid_if_true _ "event_key") by by apply len_between.
  rewrite (valid_if_true _ "task_id") by by apply len_between.
  rewrite (valid_if_true _ "generation") by by apply Z.leb_le.
  rewrite (valid_if_true _ "message") by by apply len_between.
  cbn [ed_attributes draft]. rewrite Hv. cbn [mbind result_bind].
  rewrite valid_if_true; [done|]. apply Z.leb_le. unfold _MAX_ATTRIBUTES_BYTES.
  pose proof (str_len_encode_utf8 (dumps (JObj fs))). pose proof (str_len_dumps_obj fs). lia.
Qed.

Lemma dumps_str s : (str_len (dumps (JStr s)) ≤ 6 * str_len s + 2)%nat.
Proof using. apply str_len_quoted. Qed.

Lemma dumps_timestamp us : (str_len (dumps (JStr (isoformat us))) ≤ 194)%nat.
Proof using. pose proof (dumps_str (isoformat us)). pose proof (str_len_isoformat us). lia. Qed.

Lemma dumps_opt_int (o : option Z) :
  (∀ g, o = Some g → 1 ≤ g ≤ 2147483647) →
  (str_len (dumps match o with Some g => JInt g | None => JNull end) ≤ 33)%nat.
Proof using.
  destruct o as [g|]; intros Hg; [|cbn; lia]. specialize (Hg g eq_refl).
  apply str_len_str_of_Z. lia.
Qed.

Section drafts.
Context (name owner : string) (d : UUID) (obs : Z).
Context (Hname : (1 ≤ str_len name ≤ 128)%nat) (Howner : (1 ≤ str_len owner ≤ 255)%nat).

Lemma acquired_draft_ok prev next :
  (∀ g, prev = Some g → 1 ≤ g ≤ 2147483647) → 1 ≤ next ≤ 2147483647 →
  RuntimeEventDraft_new (acquired_draft name owner d prev next obs)
  = Ok (acquired_draft name owner d prev next obs).
Proof using Hname Howner.
  intros Hp Hn. apply attributes_ok; try done.
  - by destruct prev.
  - cbn [sum_list_with fst snd]. pose proof (dumps_str owner). pose proof (dumps_timestamp obs).
    pose proof (dumps_opt_int prev Hp).
    change (str_len "owner_id") with 8%nat. change (str_len "previous_generation") with 19%nat.
    change (str_len "lease_until") with 11%nat. lia.
  - rewrite !str_len_app. pose proof (str_len_str_of_Z next ltac:(lia)).
    change (str_len "lease:") with 6%nat. change (str_len ":generation:") with 12%nat.
    change (str_len ":acquired") with 9%nat. lia.
  - destruct prev; vm_compute; split; lia.
  - lia.
Qed.

Lemma heartbeat_draft_ok g until :
  1 ≤ g ≤ 2147483647 →
  RuntimeEventDraft_new (heartbeat_draft name owner d g obs until)
  = Ok (heartbeat_draft name owner d g obs until).
Proof using Hname Howner.
  intros Hn. apply attributes_ok; try done.
  - cbn [sum_list_with fst snd]. pose proof (dumps_str owner). pose proof (dumps_timestamp until).
    change (str_len "owner_id") with 8%nat. change (str_len "lease_until") with 11%nat. lia.
  - rewrite !str_len_app. pose proof (str_len_str_of_Z g ltac:(lia)).
    pose proof (str_len_isoformat obs).
    change (str_len "lease:") with 6%nat. change (str_len ":generation:") with 12%nat.
    change (str_len ":heartbeat:") with 11%nat. lia.
  - vm_compute; split; lia.
  - lia.
Qed.

Lemma released_draft_ok g :
  1 ≤ g ≤ 2147483647 →
  RuntimeEventDraft_new (released_draft name owner d g obs)
  = Ok (released_draft name owner d g obs).
Proof using Hname Howner.
  intros Hn. apply attributes_ok; try done.
  - cbn [sum_list_with fst snd]. pose proof (dumps_str owner). pose proof (dumps_timestamp obs).
    change (str_len "owner_id") with 8%nat. change (str_len "released_at") with 11%nat. lia.
  - rewrite !str_len_app. pose proof (str_len_str_of_Z g ltac:(lia)).
    change (str_len "lease:") with 6%nat. change (str_len ":generation:") with 12%nat.
    change (str_len ":released") with 9%nat. lia.
  - vm_compute; split; lia.
  - lia.
Qed.
End drafts.

(** *** Appending touches no task *)
Lemma append_tasks eid at_ run_id draft db e db' :
  append_runtime_event sha256 eid at_ run_id draft db = (Ok e, db') →
  db_tasks db' = db_tasks db.
Proof using.
  unfold append_runtime_event. rewrite get_run.
  destruct (find_event _ _ _); [destruct (_same_event _ _ _); intros H; by inv_monad|].
  unfold run_row, update_run, insert_event, check_sql, ensure, modify, lift, get, mbind, M_bind.
  intros H. repeat (case_match; simplify_eq; try done).
Qed.

(** *** Acquisition *)

(** A task row that [dispatch_id] may take at [obs]. *)
Definition acquirable (t : TaskRow) (dispatch_id : UUID) (obs : Z) : Prop :=
  unowned t ∨ (classify t obs = EXPIRED ∧ lease_dispatch_id t ≠ Some dispatch_id).

Lemma next_generation_ok now t d obs :
  row_ok now t → now ≤ obs → acquirable t d obs →
  ∃ prev, next_generation t d obs = Ok (prev, lease_generation t + 1) ∧
    is_none prev = is_none (lease_owner t) ∧ (∀ g, prev = Some g → g = lease_generation t ∧ 1 ≤ g).
Proof using.
  intros Hrow Hobs Hacq. unfold next_generation.
  destruct Hacq as [(Ho & _ & _ & _ & _ & _ & _ & Hg)|[Hc Hd]].
  - rewrite Ho, Hg. cbn. exists None. by split_and!.
  - destruct (lease_owner t) as [o|] eqn:Ho; [|by unfold classify in Hc; rewrite Ho in Hc].
    cbn [is_none]. rewrite (snapshot_total now) by done. cbn [mbind result_bind].
    change (ls_state (snapshot_of t obs)) with (classify t obs). rewrite Hc. cbn.
    rewrite bool_decide_false by done. cbn. exists (Some (lease_generation t)).
    split_and!; [done|done|]. intros g [= <-]. split; [done|].
    destruct Hrow as [_ [(Ho' & _)|(? & ? & ? & ? & ? & ? & Hown)]]; [congruence|apply Hown].
Qed.

Lemma next_generation_refused now t d obs :
  row_ok now t → now ≤ obs → ¬ acquirable t d obs →
  ∃ msg, next_generation t d obs = raise TaskLeaseConflictError msg.
Proof using.
  intros Hrow Hobs Hacq. unfold next_generation.
  destruct (lease_owner t) as [o|] eqn:Ho; cbn [is_none].
  - rewrite (snapshot_total now) by done. cbn [mbind result_bind].
    change (ls_state (snapshot_of t obs)) with (classify t obs).
    destruct (classify t obs) eqn:Hc; cbn; try by eexists.
    destruct (decide (lease_dispatch_id t = Some d)) as [Heq|Hne].
    + rewrite bool_decide_true by done. by eexists.
    + destruct Hacq. by right.
  - destruct Hacq. left. destruct Hrow as [_ [?|(? & ? & ? & ? & ? & ? & Hown)]]; [done|].
    destruct Hown. congruence.
Qed.

Definition acquired_row (owner : string) (d token : UUID) (obs dur : Z) (t : TaskRow) : TaskRow :=
  with_lease owner d (lease_generation t + 1) token obs obs (obs + dur) None t.

Lemma update_task_ok t db :
  (int4 (lease_generation t) = true) → ck_tasks_lease_shape t = true →
  (∀ k t', db_tasks db !! k = Some t' → k ≠ row_key t → run_token t = None ∨ run_token t' ≠ run_token t) →
  update_task t db = (Ok tt, set_tasks (<[row_key t := t]> (db_tasks db)) db).
Proof using.
  intros Hi Hs Hu. unfold update_task. rewrite get_run. unfold check_sql.
  rewrite ensure_run, ensure_run by done. rewrite ensure_run; [done|].
  unfold uq_tasks_run_token. destruct (run_token t) as [k|] eqn:Hk; [|done].
  apply forallb_forall. intros [k' t'] Hin%list_elem_of_In%elem_of_map_to_list. cbn.
  destruct (decide (k' = (tr_run_id t, tr_task_id t))) as [->|Hne].
  - by rewrite bool_decide_true.
  - apply orb_true_iff. right. apply negb_true_iff, bool_decide_eq_false.
    by destruct (Hu k' t' Hin Hne).
Qed.

Lemma acquired_owned owner d token obs dur t :
  0 ≤ lease_generation t → (1 ≤ str_len owner ≤ 255)%nat → 1 ≤ dur →
  owned obs (acquired_row owner d token obs dur t) owner d token obs obs (obs + dur).
Proof using. intros Hg Ho Hd. split; cbn; try done; lia. Qed.

Lemma row_ok_gen now t : row_ok now t → 0 ≤ lease_generation t.
Proof using.
  intros [_ [(_ & _ & _ & _ & _ & _ & _ & ->)|(? & ? & ? & ? & ? & ? & Hown)]]; [lia|].
  destruct Hown. lia.
Qed.

Lemma acquire_spec e run_id task_id owner_id d ls name owner dur run t now obs db :
  log_wf sha256 db →
  _required_text task_id "task_id" 128 = Ok name →
  _required_text owner_id "owner_id" 255 = Ok owner →
  _lease_duration ls = Ok dur → 1 ≤ dur →
  db_runs db !! run_id = Some run → rr_status run = "RUNNING" →
  db_tasks db !! (run_id, name) = Some t → row_key t = (run_id, name) → row_ok now t →
  env_clock e = Timestamptz obs → now ≤ obs → acquirable t d obs →
  lease_generation t < 2147483647 → rr_event_sequence run < 2147483647 →
  (∀ k t', db_tasks db !! k = Some t' → run_token t' ≠ Some (env_uuid4 e 0)) →
  fresh_event_id (env_uuid4 e 1) db →
  find_event run_id ("lease:" +:+ name +:+ ":generation:" +:+ str_of_Z (lease_generation t + 1)
                     +:+ ":acquired") (db_events db) = None →
  let t' := acquired_row owner d (env_uuid4 e 0) obs dur t in
  ∃ db', acquire_task_lease sha256 e run_id task_id owner_id d ls db =
      (Ok {| tlg_snapshot := snapshot_of t' obs; tlg_run_token := env_uuid4 e 0 |}, db') ∧
    db_tasks db' = <[(run_id, name) := t']> (db_tasks db) ∧
    (∃ row, db_events db' = db_events db ++ [row] ∧
       er_kind row = kind_value (if is_none (lease_owner t) then LEASE_ACQUIRED
                                 else LEASE_TAKEN_OVER)) ∧
    log_wf sha256 db'.
Proof using Hsha.
  intros Hlog Hname Howner Hdur Hdur1 Hrun Hstatus Ht Hkey Hrow Hclock Hobs Hacq Hgmax Hsmax
    Htok Hfresh Hev t'.
  destruct (required_text_inv _ _ _ _ Hname) as [_ Hnl].
  destruct (required_text_inv _ _ _ _ Howner) as [_ Hol].
  destruct (lw_runs _ _ Hlog _ _ Hrun) as (Hrid & _ & Hseq). subst run_id.
  destruct (next_generation_ok now t d obs Hrow Hobs Hacq) as (prev & Hgen & Hprev & Hpg).
  pose proof (row_ok_gen _ _ Hrow) as Hg0.
  pose proof (acquired_owned owner d (env_uuid4 e 0) obs dur t Hg0 Hol Hdur1) as Hown.
  fold t' in Hown.
  assert (Hkey' : row_key t' = (rr_id run, name)) by exact Hkey.
  assert (Hsnap : _snapshot t' obs = Ok (snapshot_of t' obs)).
  { eapply snapshot_owned; [|exact Hown|lia]. apply Hrow. }
  set (draft := acquired_draft name owner d prev (lease_generation t + 1) (obs + dur)).
  assert (Hdraft : RuntimeEventDraft_new draft = Ok draft).
  { apply acquired_draft_ok; [done|done| |lia]. intros g Hg. destruct (Hpg g Hg). lia. }
  set (db1 := set_tasks (<[(rr_id run, name) := t']> (db_tasks db)) db).
  assert (Hlog1 : log_wf sha256 db1) by (destruct Hlog; by split).
  assert (Hup : update_task t' db = (Ok tt, db1)).
  { unfold db1. rewrite <- Hkey'. apply update_task_ok.
    - unfold int4. cbn. apply andb_true_iff. split; apply Z.leb_le; lia.
    - cbn -[Z.leb]. apply Z.leb_le. lia.
    - intros k r Hk _. right. cbn. by eapply Htok. }
  destruct (append_new sha256 Hsha (env_uuid4 e 1) (env_now e) run draft draft db1 Hlog1)
    as (ev & Happ & _); [done|done| |done|done|done|].
  { intros x [= <-]. unfold db1. cbn [db_tasks set_tasks]. rewrite lookup_insert_eq. by eexists. }
  exists (logged sha256 (env_uuid4 e 1) (env_now e) run draft db1). split_and!.
  - unfold acquire_task_lease.
    rewrite (lift_run _ _ name), (lift_run _ _ owner), (lift_run _ _ dur) by done.
    apply transaction_Ok.
    rewrite (M_bind_run _ _ db run db) by (unfold _locked_run; by rewrite Hrun).
    rewrite ensure_run by by apply bool_decide_eq_true.
    rewrite (M_bind_run _ _ db t db) by (unfold _locked_task; by rewrite Ht).
    rewrite (lift_run _ _ obs) by (unfold database_time; by rewrite Hclock).
    rewrite (lift_run _ _ (prev, lease_generation t + 1)) by done. cbn beta iota zeta.
    rewrite (M_bind_run _ _ db tt db1) by exact Hup.
    rewrite (lift_run _ _ draft) by exact Hdraft.
    rewrite (M_bind_run _ _ db1 ev _) by exact Happ.
    rewrite (lift_run _ _ (snapshot_of t' obs)) by exact Hsnap.
    unfold lift, TaskLeaseGrant_new. cbn [tlg_snapshot ls_generation ls_state snapshot_of].
    rewrite !valid_if_true; [done| |cbn -[Z.leb]; apply Z.leb_le; lia].
    apply bool_decide_eq_true. unfold classify. cbn -[Z.leb].
    by rewrite (proj2 (Z.leb_gt _ _)) by lia.
  - done.
  - eexists. split; [done|]. cbn. by rewrite Hprev.
  - by eapply logged_wf.
Qed.

(** *** What a successful operation did *)
Lemma update_task_inv t db u db' :
  update_task t db = (Ok u, db') →
  db_tasks db' = <[row_key t := t]> (db_tasks db) ∧ db_runs db' = db_runs db ∧
  db_events db' = db_events db.
Proof using.
  unfold update_task, check_sql. intros H. inv_monad. by injection H as _ <-.
Qed.

Lemma locked_task_inv run_id name db t db' :
  _locked_task run_id name db = (Ok t, db') → db' = db ∧ db_tasks db !! (run_id, name) = Some t.
Proof using. unfold _locked_task. destruct (db_tasks db !! _) eqn:Ht; intros [= -> ->]; done. Qed.

Lemma locked_run_inv run_id db r db' :
  _locked_run run_id db = (Ok r, db') → db' = db ∧ db_runs db !! run_id = Some r.
Proof using. unfold _locked_run. destruct (db_runs db !! _) eqn:Ht; intros [= -> ->]; done. Qed.

Lemma database_time_inv e obs : database_time e = Ok obs → env_clock e = Timestamptz obs.
Proof using. unfold database_time. destruct (env_clock e); by intros [= ->]. Qed.

Ltac inv_store :=
  repeat (inv_monad;
    match goal with
    | H : _locked_task _ _ _ = (Ok _, _) |- _ => apply locked_task_inv in H as [-> H]
    | H : _locked_run _ _ = (Ok _, _) |- _ => apply locked_run_inv in H as [-> H]
    | H : database_time _ = Ok _ |- _ => apply database_time_inv in H
    | H : _required_text _ _ _ = Ok _ |- _ => apply required_text_inv in H as [-> H]
    | H : update_task _ _ = (Ok _, _) |- _ =>
        let H2 := fresh "Hrs" in let H3 := fresh "Hes" in
        apply update_task_inv in H as (H & H2 & H3)
    | H : append_runtime_event _ _ _ _ _ _ = (Ok _, _) |- _ => apply append_tasks in H
    | H : _snapshot _ _ = Ok _ |- _ =>
        let H2 := fresh "Hhu" in apply snapshot_inv in H as [-> H2]
    end); inv_monad.

Lemma acquire_inv e run_id task_id owner_id d ls db g db' :
  acquire_task_lease sha256 e run_id task_id owner_id d ls db = (Ok g, db') →
  ∃ run t prev next dur obs,
    let t' := with_lease (strip owner_id) d next (env_uuid4 e 0) obs obs (obs + dur) None t in
    (1 ≤ str_len (strip owner_id) ≤ 255)%nat ∧ 1 ≤ dur ∧
    db_runs db !! run_id = Some run ∧ rr_status run = "RUNNING" ∧
    db_tasks db !! (run_id, strip task_id) = Some t ∧ env_clock e = Timestamptz obs ∧
    next_generation t d obs = Ok (prev, next) ∧
    db_tasks db' = <[row_key t := t']> (db_tasks db) ∧
    g = {| tlg_snapshot := snapshot_of t' obs; tlg_run_token := env_uuid4 e 0 |}.
Proof using.
  unfold acquire_task_lease. intros H. inv_store. to_prop.
  destruct Hhu as (h & u & [= <-] & [= <-] & Hlt); [done|].
  unfold TaskLeaseGrant_new in H. inv_valid.
  match goal with
  | Hn : next_generation ?t _ ?obs = Ok (?p, ?n), Hr : db_runs db !! run_id = Some ?r,
    Hdur : _lease_duration _ = Ok ?dur |- _ => exists r, t, p, n, dur, obs
  end.
  split_and!; try done; try lia. etrans; eassumption.
Qed.

Lemma renew_inv e run_id task_id owner_id d token ls db s db' :
  renew_task_lease sha256 e run_id task_id owner_id d token ls db = (Ok s, db') →
  ∃ t dur obs u,
    let t' := with_heartbeat obs (obs + dur) t in
    1 ≤ dur ∧ db_tasks db !! (run_id, strip task_id) = Some t ∧
    env_clock e = Timestamptz obs ∧ lease_owner t = Some (strip owner_id) ∧
    lease_dispatch_id t = Some d ∧ run_token t = Some token ∧
    lease_released_at t = None ∧ lease_until t = Some u ∧ obs < u ∧
    db_tasks db' = <[row_key t := t']> (db_tasks db) ∧ s = snapshot_of t' obs.
Proof using.
  unfold renew_task_lease, _assert_identity, assert_current_run_token, require_unexpired.
  intros H. inv_store. to_prop.
  destruct Hhu as (h & u' & [= <-] & [= <-] & Hlt); [cbn; by destruct (lease_owner _)|].
  match goal with
  | Ht : db_tasks db !! _ = Some ?t, Hc : env_clock e = Timestamptz ?obs,
    Hdur : _lease_duration _ = Ok ?dur, Hu : of_option _ (lease_until ?t) = Ok ?u |- _ =>
      exists t, dur, obs, u; destruct (lease_until t); [|done]; injection Hu as <-
  end.
  split_and!; try done; try lia.
  - by destruct (lease_released_at _).
  - etrans; eassumption.
Qed.

Lemma release_inv e run_id task_id owner_id d token db s db' :
  release_task_lease sha256 e run_id task_id owner_id d token db = (Ok s, db') →
  ∃ t obs,
    db_tasks db !! (run_id, strip task_id) = Some t ∧ env_clock e = Timestamptz obs ∧
    lease_owner t = Some (strip owner_id) ∧ lease_dispatch_id t = Some d ∧
    run_token t = Some token ∧
    ((is_Some (lease_released_at t) ∧ db' = db ∧ s = snapshot_of t obs) ∨
     (lease_released_at t = None ∧ ∃ u, lease_until t = Some u ∧ obs < u ∧
      db_tasks db' = <[row_key t := with_release obs t]> (db_tasks db) ∧
      s = snapshot_of (with_release obs t) obs)).
Proof using.
  unfold release_task_lease, _assert_identity, assert_current_run_token, require_unexpired.
  intros H. inv_store. to_prop.
  match goal with
  | Ht : db_tasks db !! _ = Some ?t, Hc : env_clock e = Timestamptz ?obs |- _ =>
      exists t, obs; destruct (lease_released_at t) eqn:Hrel
  end; cbn [is_none negb] in H; inv_store; to_prop.
  - split_and!; try done. left. by eauto.
  - split_and!; try done. right. split; [done|].
    match goal with Hu : of_option _ (lease_until ?t) = Ok ?u |- _ =>
      exists u; destruct (lease_until t); [|done]; injection Hu as <- end.
    split_and!; try done. etrans; eassumption.
Qed.

(** *** Histories of a store

    [grants] records every acquisition that returned (its task, generation
    and token), [now] the latest database time.  Other transactions may
    change anything except the lease columns; an operation that raises is
    rolled back and so changes nothing. *)
Record grant : Set := { gr_key : UUID * string; gr_generation : Z; gr_token : UUID }.

Inductive history : Database → list grant → Z → Prop :=
  | h_start db now :
      (∀ k t, db_tasks db !! k = Some t →
         row_key t = k ∧ (1 ≤ str_len (tr_task_id t) ≤ 128)%nat ∧ unowned t) →
      history db [] now
  | h_acquire db gs now e obs run_id task_id owner_id d ls g db' :
      history db gs now → env_clock e = Timestamptz obs → now ≤ obs →
      env_uuid4 e 0 ∉ gr_token <$> gs →
      acquire_task_lease sha256 e run_id task_id owner_id d ls db = (Ok g, db') →
      history db' (gs ++ [{| gr_key := (run_id, strip task_id);
                             gr_generation := ls_generation (tlg_snapshot g);
                             gr_token := tlg_run_token g |}]) obs
  | h_renew db gs now e obs run_id task_id owner_id d token ls s db' :
      history db gs now → env_clock e = Timestamptz obs → now ≤ obs →
      renew_task_lease sha256 e run_id task_id owner_id d token ls db = (Ok s, db') →
      history db' gs obs
  | h_release db gs now e obs run_id task_id owner_id d token s db' :
      history db gs now → env_clock e = Timestamptz obs → now ≤ obs →
      release_task_lease sha256 e run_id task_id owner_id d token db = (Ok s, db') →
      history db' gs obs
  | h_other db gs now db' now' :
      history db gs now → now ≤ now' → db_tasks db' = db_tasks db → history db' gs now'.

Definition of_key (k : UUID * string) (gs : list grant) : list grant :=
  filter (λ g, gr_key g = k) gs.

Record history_inv (db : Database) (gs : list grant) (now : Z) : Prop := {
  hi_rows : ∀ k t, db_tasks db !! k = Some t → row_key t = k ∧ row_ok now t;
  hi_gens : ∀ k t, db_tasks db !! k = Some t →
    lease_generation t = Z.of_nat (length (of_key k gs)) ∧
    run_token t = gr_token <$> last (of_key k gs);
  hi_numbered : ∀ k, gr_generation <$> of_key k gs = Z.of_nat <$> seq 1 (length (of_key k gs));
  hi_tokens : NoDup (gr_token <$> gs);
}.

Lemma next_generation_inv now t d obs p n :
  row_ok now t → now ≤ obs → next_generation t d obs = Ok (p, n) →
  acquirable t d obs ∧ n = lease_generation t + 1.
Proof using.
  intros Hrow Hobs Hn.
  assert (Ha : acquirable t d obs ∨ ¬ acquirable t d obs).
  { unfold acquirable, unowned. destruct (decide (classify t obs = EXPIRED)) as [Hc|Hc];
      destruct (decide (lease_dispatch_id t = Some d)) as [Hd|Hd];
      destruct (decide (lease_owner t = None ∧ lease_dispatch_id t = None ∧ run_token t = None ∧
        lease_acquired_at t = None ∧ heartbeat_at t = None ∧ lease_until t = None ∧
        lease_released_at t = None ∧ lease_generation t = 0)) as [Hu|Hu]; tauto. }
  destruct Ha as [Ha|Ha].
  - destruct (next_generation_ok now t d obs Hrow Hobs Ha) as (p' & Hn' & _).
    rewrite Hn' in Hn. by injection Hn as <- <-.
  - destruct (next_generation_refused now t d obs Hrow Hobs Ha) as (msg & Hn'). by rewrite Hn' in Hn.
Qed.

Lemma of_key_snoc k gs g :
  of_key k (gs ++ [g]) = of_key k gs ++ (if decide (gr_key g = k) then [g] else []).
Proof using. unfold of_key. by rewrite filter_app. Qed.

Lemma replace_row db db' gs now obs k t t' :
  history_inv db gs now → now ≤ obs → db_tasks db !! k = Some t →
  db_tasks db' = <[row_key t := t']> (db_tasks db) →
  row_key t' = row_key t → lease_generation t' = lease_generation t →
  run_token t' = run_token t → row_ok obs t' → history_inv db' gs obs.
Proof using.
  intros [Hr Hg Hn Ht] Hobs Hk Hdb Hkey Hgen Htok Hrow.
  destruct (Hr k t Hk) as [Hkt _]. split; [| |done|done].
  - intros k' r. rewrite Hdb. intros [[<- <-]|[Hne Hr']]%lookup_insert_Some; [done|].
    destruct (Hr k' r Hr'). split; [done|]. by eapply row_ok_later.
  - intros k' r. rewrite Hdb. intros [[<- <-]|[Hne Hr']]%lookup_insert_Some; [|by apply Hg].
    rewrite Hgen, Htok, Hkt. by apply Hg.
Qed.

Lemma renewed_row_ok now obs dur t u :
  row_ok now t → now ≤ obs → 1 ≤ dur → is_Some (lease_owner t) →
  lease_until t = Some u → row_ok obs (with_heartbeat obs (obs + dur) t).
Proof using.
  intros [Hlen [(Hu & _)|(o & d & k & a & h & u' & Ho)]] Hobs Hdur [o' Ho'] _; [congruence|].
  split; [done|]. right. exists o, d, k, a, obs, (obs + dur).
  destruct Ho as [? ? ? ? ? ? ? ? Ht Hr]. split; cbn; try done; [lia|].
  intros r Hr'. specialize (Hr r Hr'). lia.
Qed.

Lemma released_row_ok now obs t :
  row_ok now t → now ≤ obs → is_Some (lease_owner t) → row_ok obs (with_release obs t).
Proof using.
  intros [Hlen [(Hu & _)|(o & d & k & a & h & u' & Ho)]] Hobs [o' Ho']; [congruence|].
  split; [done|]. right. exists o, d, k, a, h, u'.
  destruct Ho as [? ? ? ? ? ? ? ? Ht Hr]. split; cbn; try done; [lia|].
  intros r [= <-]. lia.
Qed.

Lemma history_invariant db gs now : history db gs now → history_inv db gs now.
Proof using.
  induction 1 as [db now Hrows|db gs now e obs run_id task_id owner_id d ls g db' Hh IH Hc Ho Hf Ha
    |db gs now e obs run_id task_id owner_id d token ls s db' Hh IH Hc Ho Ha
    |db gs now e obs run_id task_id owner_id d token s db' Hh IH Hc Ho Ha
    |db gs now db' now' Hh IH Hnow Hdb].
  - split; [| |done|constructor].
    + intros k t Hk. destruct (Hrows k t Hk) as (? & ? & ?). split; [done|]. by split; [|left].
    + intros k t Hk. destruct (Hrows k t Hk) as (_ & _ & (_ & _ & Htk & _ & _ & _ & _ & Hg)). done.
  - apply acquire_inv in Ha as (run & t & prev & next & dur & obs' & Hol & Hdur & _ & _ & Ht & Hc' & Hn & Hdb & ->).
    assert (obs' = obs) as -> by congruence.
    destruct (hi_rows _ _ _ IH _ _ Ht) as [Hkey Hrow].
    destruct (next_generation_inv now t d obs prev next Hrow Ho Hn) as [_ ->].
    cbn [tlg_snapshot tlg_run_token snapshot_of ls_generation with_lease lease_generation].
    destruct (hi_gens _ _ _ IH _ _ Ht) as [Hgen Htok].
    split.
    + intros k r. rewrite Hdb. intros [[<- <-]|[Hne Hr]]%lookup_insert_Some.
      * split; [done|]. split; [apply Hrow|]. right. do 6 eexists.
        apply acquired_owned; [by eapply row_ok_gen|done|done].
      * destruct (hi_rows _ _ _ IH _ _ Hr). split; [done|]. by eapply row_ok_later.
    + intros k r. rewrite Hdb, of_key_snoc. cbn [gr_key].
      intros [[<- <-]|[Hne Hr]]%lookup_insert_Some.
      * rewrite Hkey, decide_True by done. rewrite length_app, last_snoc. cbn.
        split; [|done]. lia.
      * rewrite decide_False by congruence. rewrite app_nil_r. by apply IH.
    + intros k. rewrite of_key_snoc. cbn [gr_key].
      case_decide as Hk; [|rewrite app_nil_r; apply IH]. subst k.
      rewrite fmap_app, length_app, seq_app, fmap_app, (hi_numbered _ _ _ IH). f_equal.
      cbn. f_equal. lia.
    + rewrite fmap_app. apply NoDup_app. split_and!; [apply IH| |apply NoDup_singleton].
      intros x Hx. cbn. rewrite list_elem_of_singleton. by intros ->.
  - apply renew_inv in Ha as (t & dur & obs' & u & Hdur & Ht & Hc' & Hown & _ & _ & _ & Hu & _ & Hdb & _).
    assert (obs' = obs) as -> by congruence.
    eapply (replace_row db db' gs now obs _ t); try done.
    eapply renewed_row_ok; [by eapply (hi_rows _ _ _ IH)|done|done|by eexists|done].
  - apply release_inv in Ha as (t & obs' & Ht & Hc' & Hown & _ & _ & [(_ & -> & _)|(_ & u & Hu & _ & Hdb & _)]).
    + destruct IH as [Hr ? ? ?]. split; try done. intros k r Hk. destruct (Hr k r Hk).
      split; [done|]. by eapply row_ok_later.
    + assert (obs' = obs) as -> by congruence.
      eapply (replace_row db db' gs now obs _ t); try done.
      eapply released_row_ok; [by eapply (hi_rows _ _ _ IH)|done|by eexists].
  - destruct IH as [Hr Hg Hn Ht]. split; [|by rewrite Hdb|done|done].
    intros k r. rewrite Hdb. intros Hk. destruct (Hr k r Hk). split; [done|]. by eapply row_ok_later.
Qed.

(** *** Tokens and generations *)
Lemma last_generation db gs now k g :
  history_inv db gs now → last (of_key k gs) = Some g →
  gr_generation g = Z.of_nat (length (of_key k gs)).
Proof using.
  intros Hinv Hl. pose proof (hi_numbered _ _ _ Hinv k) as Hn.
  destruct (of_key k gs) as [|g' l] using rev_ind; [done|]. clear IHl.
  rewrite last_snoc in Hl. injection Hl as ->.
  rewrite fmap_app, length_app, seq_app, fmap_app in Hn. cbn in Hn.
  apply app_inj_tail in Hn as [_ Hn]. rewrite length_app. cbn. lia.
Qed.

Lemma grant_bound db gs now g :
  history_inv db gs now → g ∈ gs →
  1 ≤ gr_generation g ≤ Z.of_nat (length (of_key (gr_key g) gs)).
Proof using.
  intros Hinv Hg.
  assert (Hin : gr_generation g ∈ (gr_generation <$> of_key (gr_key g) gs)).
  { apply list_elem_of_fmap. exists g. split; [done|]. by apply list_elem_of_filter. }
  rewrite (hi_numbered _ _ _ Hinv) in Hin.
  apply list_elem_of_fmap in Hin as (n & -> & Hn%elem_of_seq). lia.
Qed.

(** Only the token of the newest grant is the row's token. *)
Lemma current_token db gs now g t :
  history_inv db gs now → g ∈ gs → db_tasks db !! gr_key g = Some t →
  run_token t = Some (gr_token g) → gr_generation g = lease_generation t.
Proof using.
  intros Hinv Hg Ht Htok. destruct (hi_gens _ _ _ Hinv _ _ Ht) as [Hgen Hlast].
  rewrite Htok in Hlast. destruct (last (of_key (gr_key g) gs)) as [g'|] eqn:Hl; [|done].
  injection Hlast as Heq.
  assert (Hg' : g' ∈ gs).
  { apply last_Some_elem_of in Hl. by apply list_elem_of_filter in Hl as [_ ?]. }
  assert (g = g') as <- by by eapply NoDup_fmap_eq; [apply Hinv|..].
  rewrite Hgen. by eapply last_generation.
Qed.

(** *** Refused operations change nothing *)
Lemma acquire_rolls_back e run_id task_id owner_id d ls :
  rolls_back (acquire_task_lease sha256 e run_id task_id owner_id d ls).
Proof using. unfold acquire_task_lease. auto with devflow. Qed.
Lemma renew_rolls_back e run_id task_id owner_id d token ls :
  rolls_back (renew_task_lease sha256 e run_id task_id owner_id d token ls).
Proof using. unfold renew_task_lease. auto with devflow. Qed.
Lemma release_rolls_back e run_id task_id owner_id d token :
  rolls_back (release_task_lease sha256 e run_id task_id owner_id d token).
Proof using. unfold release_task_lease. auto with devflow. Qed.
Lemma guard_rolls_back {A} e run_id task_id d token (body : TaskLeaseSnapshot → DB A) :
  rolls_back (guard_task_git_mutation e run_id task_id d token body).
Proof using. unfold guard_task_git_mutation. auto with devflow. Qed.

Lemma guard_inv {A} e run_id task_id d token (body : TaskLeaseSnapshot → DB A) db a db' :
  guard_task_git_mutation e run_id task_id d token body db = (Ok a, db') →
  ∃ run t obs u,
    db_runs db !! run_id = Some run ∧ rr_status run = "RUNNING" ∧
    db_tasks db !! (run_id, strip task_id) = Some t ∧ env_clock e = Timestamptz obs ∧
    run_token t = Some token ∧ lease_dispatch_id t = Some d ∧
    lease_released_at t = None ∧ lease_until t = Some u ∧ obs < u ∧
    body (snapshot_of t obs) db = (Ok a, db').
Proof using.
  unfold guard_task_git_mutation, assert_live_current_run_token, assert_current_run_token.
  intros H. inv_store. to_prop.
  match goal with
  | Hr : db_runs db !! _ = Some ?run, Ht : db_tasks db !! _ = Some ?t,
    Hc : env_clock e = Timestamptz ?obs |- _ =>
      exists run, t, obs; destruct (lease_until t) as [u|]; [exists u|done];
      destruct (lease_released_at t) eqn:Hrel; [done|]
  end. to_prop. split_and!; done.
Qed.

Definition refused {A} (m : DB A) (db : Database) : Prop := ∃ x, m db = (Raise x, db).

Lemma refused_intro {A} (m : DB A) db :
  rolls_back m → (∀ a db', m db ≠ (Ok a, db')) → refused m db.
Proof using.
  intros Hsame Hno. unfold refused. destruct (m db) as [[a|x] db'] eqn:Hm.
  - by destruct (Hno a db').
  - specialize (Hsame db x db' Hm) as ->. by exists x.
Qed.

Lemma fenced db run_id task_id t token :
  db_tasks db !! (run_id, strip task_id) = Some t → run_token t ≠ Some token →
  (∀ e owner d ls, refused (renew_task_lease sha256 e run_id task_id owner d token ls) db) ∧
  (∀ e owner d, refused (release_task_lease sha256 e run_id task_id owner d token) db) ∧
  (∀ A e d (body : TaskLeaseSnapshot → DB A),
     refused (guard_task_git_mutation e run_id task_id d token body) db).
Proof using.
  intros Ht Htok. split_and!.
  - intros e owner d ls. apply refused_intro; [apply renew_rolls_back|].
    intros s db' H. apply renew_inv in H as (t' & ? & ? & ? & _ & Ht' & _ & _ & _ & Hk & _).
    congruence.
  - intros e owner d. apply refused_intro; [apply release_rolls_back|].
    intros s db' H. apply release_inv in H as (t' & ? & Ht' & _ & _ & _ & Hk & _). congruence.
  - intros A e d body. apply refused_intro; [apply guard_rolls_back|].
    intros s db' H. apply guard_inv in H as (? & t' & ? & ? & _ & _ & Ht' & _ & Hk & _). congruence.
Qed.
End operations.

(** ** Properties *)

(** C9.  Fencing: once generation [N+1] of a task has been granted, the token
    of any earlier generation authorises nothing: every renewal, release and
    guarded Git mutation with it raises and leaves the database unchanged. *)
Theorem stale_generation_fenced (sha256 : string → string) db gs now g t run_id task_id
    (Hh : history sha256 db gs now) (Hg : g ∈ gs)
    (Hkey : gr_key g = (run_id, strip task_id)) (Ht : db_tasks db !! gr_key g = Some t)
    (Hold : gr_generation g < lease_generation t) :
  (∀ e owner d ls, refused (renew_task_lease sha256 e run_id task_id owner d (gr_token g) ls) db) ∧
  (∀ e owner d, refused (release_task_lease sha256 e run_id task_id owner d (gr_token g)) db) ∧
  (∀ A e d (body : TaskLeaseSnapshot → DB A),
     refused (guard_task_git_mutation e run_id task_id d (gr_token g) body) db).
Proof.
  apply history_invariant in Hh. rewrite Hkey in Ht. apply (fenced _ _ _ _ t); [done|].
  intros Htok. rewrite <- Hkey in Ht.
  pose proof (current_token db gs now g t Hh Hg Ht Htok). lia.
Qed.

(** C10.  Exclusive ownership: the grants of a task are numbered 1, 2, 3, ...
    with distinct tokens, and at any moment at most one of them authorises
    writes ([assert_live_current_run_token]). *)
Theorem one_live_generation (sha256 : string → string) db gs now k t obs
    (Hh : history sha256 db gs now) (Ht : db_tasks db !! k = Some t) :
  gr_generation <$> of_key k gs = Z.of_nat <$> seq 1 (length (of_key k gs)) ∧
  NoDup (gr_token <$> gs) ∧
  ∀ g g', g ∈ of_key k gs → g' ∈ of_key k gs →
    assert_live_current_run_token t (Some (gr_token g)) obs = Ok tt →
    assert_live_current_run_token t (Some (gr_token g')) obs = Ok tt → g = g'.
Proof.
  apply history_invariant in Hh. split_and!; [apply Hh|apply Hh|].
  intros g g' [_ Hg]%list_elem_of_filter [_ Hg']%list_elem_of_filter.
  unfold assert_live_current_run_token, assert_current_run_token. intros Hl Hl'.
  inv_monad. to_prop. eapply NoDup_fmap_eq; [apply Hh|done|done|]. congruence.
Qed.

(** Acquisition: a worker may take a task of a RUNNING run exactly when
    the task was never owned, or its last generation has expired unreleased
    and the dispatch is a new one; it then holds the next generation, until
    [duration] after the database time, under a fresh token, and one event
    records it.  (The remaining hypotheses say that identifiers are fresh,
    counters fit their 32-bit columns and the event key is unused.) *)
Theorem acquire_correct (sha256 : string → string) (Hsha : ∀ s, is_sha256_hex (sha256 s) = true)
    e run_id task_id owner_id d ls name owner dur run t gs now obs db
    (Hh : history sha256 db gs now) (Hlog : log_wf sha256 db)
    (Hname : _required_text task_id "task_id" 128 = Ok name)
    (Howner : _required_text owner_id "owner_id" 255 = Ok owner)
    (Hdur : _lease_duration ls = Ok dur) (Hdur1 : 1 ≤ dur)
    (Hrun : db_runs db !! run_id = Some run) (Hstatus : rr_status run = "RUNNING")
    (Ht : db_tasks db !! (run_id, name) = Some t)
    (Hclock : env_clock e = Timestamptz obs) (Hobs : now ≤ obs)
    (Hgmax : lease_generation t < 2147483647) (Hsmax : rr_event_sequence run < 2147483647)
    (Htok : ∀ k t', db_tasks db !! k = Some t' → run_token t' ≠ Some (env_uuid4 e 0))
    (Hfresh : fresh_event_id (env_uuid4 e 1) db)
    (Hev : find_event run_id ("lease:" +:+ name +:+ ":generation:"
              +:+ str_of_Z (lease_generation t + 1) +:+ ":acquired") (db_events db) = None) :
  let t' := acquired_row owner d (env_uuid4 e 0) obs dur t in
  (acquirable t d obs →
   ∃ db', acquire_task_lease sha256 e run_id task_id owner_id d ls db =
       (Ok {| tlg_snapshot := snapshot_of t' obs; tlg_run_token := env_uuid4 e 0 |}, db') ∧
     db_tasks db' = <[(run_id, name) := t']> (db_tasks db) ∧
     (∃ row, db_events db' = db_events db ++ [row] ∧
        er_kind row = kind_value (if is_none (lease_owner t) then LEASE_ACQUIRED
                                  else LEASE_TAKEN_OVER)) ∧
     log_wf sha256 db') ∧
  (¬ acquirable t d obs →
   ∃ msg, acquire_task_lease sha256 e run_id task_id owner_id d ls db
     = (Raise (Exn TaskLeaseConflictError msg), db)).
Proof.
  intros t'. apply history_invariant in Hh.
  destruct (hi_rows _ _ _ Hh _ _ Ht) as [Hkey Hrow]. split.
  - intros Hacq. by eapply acquire_spec.
  - intros Hacq. destruct (next_generation_refused now t d obs Hrow Hobs Hacq) as (msg & Hn).
    exists msg. unfold acquire_task_lease.
    rewrite (lift_run _ _ name), (lift_run _ _ owner), (lift_run _ _ dur) by done.
    eapply transaction_raise.
    rewrite (M_bind_run _ _ db run db) by (unfold _locked_run; by rewrite Hrun).
    rewrite ensure_run by by apply bool_decide_eq_true.
    rewrite (M_bind_run _ _ db t db) by (unfold _locked_task; by rewrite Ht).
    rewrite (lift_run _ _ obs) by (unfold database_time; by rewrite Hclock).
    by rewrite (lift_raise _ _ (Exn TaskLeaseConflictError msg)).
Qed.

(** A generation that has expired or was released stays dead: it can be
    neither renewed nor used for a guarded mutation, whatever token and
    identity are presented; an expired one cannot be rewritten as released,
    and a released task can never be acquired again. *)
Theorem dead_generation_stays_dead (sha256 : string → string) db gs now e obs run_id task_id t
    (Hh : history sha256 db gs now) (Ht : db_tasks db !! (run_id, strip task_id) = Some t)
    (Hclock : env_clock e = Timestamptz obs) (Hobs : now ≤ obs) :
  (classify t obs = EXPIRED ∨ classify t obs = RELEASED →
   (∀ owner d token ls,
      refused (renew_task_lease sha256 e run_id task_id owner d token ls) db) ∧
   (∀ A d token (body : TaskLeaseSnapshot → DB A),
      refused (guard_task_git_mutation e run_id task_id d token body) db)) ∧
  (classify t obs = EXPIRED →
   ∀ owner d token, refused (release_task_lease sha256 e run_id task_id owner d token) db) ∧
  (classify t obs = RELEASED →
   ∀ owner d ls, refused (acquire_task_lease sha256 e run_id task_id owner d ls) db).
Proof.
  apply history_invariant in Hh. destruct (hi_rows _ _ _ Hh _ _ Ht) as [_ Hrow].
  assert (Hlive : ∀ u, lease_released_at t = None → lease_until t = Some u → obs < u →
                       ¬ (classify t obs = EXPIRED ∨ classify t obs = RELEASED)).
  { intros u Hr Hu Hlt. unfold classify. rewrite Hr, Hu.
    rewrite (proj2 (Z.leb_gt u obs)) by lia. destruct (lease_owner t); intros [?|?]; done. }
  split_and!.
  - intros Hdead. split.
    + intros owner d token ls. apply refused_intro; [apply renew_rolls_back|].
      intros s db' H. apply renew_inv in H
        as (t' & ? & obs' & u & _ & Ht' & Hc & _ & _ & _ & Hr & Hu & Hlt & _).
      assert (t' = t) as -> by congruence. assert (obs' = obs) as -> by congruence.
      by eapply Hlive.
    + intros A d token body. apply refused_intro; [apply guard_rolls_back|].
      intros s db' H. apply guard_inv in H
        as (? & t' & obs' & u & _ & _ & Ht' & Hc & _ & _ & Hr & Hu & Hlt & _).
      assert (t' = t) as -> by congruence. assert (obs' = obs) as -> by congruence.
      by eapply Hlive.
  - intros Hexp owner d token. apply refused_intro; [apply release_rolls_back|].
    intros s db' H. apply release_inv in H
      as (t' & obs' & Ht' & Hc & Ho & _ & _ & Hcases).
    assert (t' = t) as -> by congruence. assert (obs' = obs) as -> by congruence.
    destruct Hcases as [([r Hr] & _)|(Hr & u & Hu & Hlt & _)].
    + revert Hexp. unfold classify. by rewrite Ho, Hr.
    + eapply Hlive; eauto.
  - intros Hrel owner d ls. apply refused_intro; [apply acquire_rolls_back|].
    intros g db' H. apply acquire_inv in H
      as (? & t' & prev & next & ? & obs' & _ & _ & _ & _ & Ht' & Hc & Hn & _).
    assert (t' = t) as -> by congruence. assert (obs' = obs) as -> by congruence.
    apply (next_generation_inv now) in Hn as [[Hu|[He _]] _]; [| |done|done].
    + destruct Hu as (Ho & _). revert Hrel. unfold classify. by rewrite Ho.
    + congruence.
Qed.

(** Observability never fails: at any time not before the last write,
    [inspect_task_lease] of a known task succeeds and reports the true state,
    and [list_expired_task_leases] returns exactly the expired, unreleased
    leases of RUNNING runs. *)
Theorem lease_queries_total (sha256 : string → string) db gs now e obs run_id task_id name t
    (Hh : history sha256 db gs now) (Hclock : env_clock e = Timestamptz obs) (Hobs : now ≤ obs)
    (Hname : _required_text task_id "task_id" 128 = Ok name)
    (Ht : db_tasks db !! (run_id, name) = Some t) :
  inspect_task_lease e run_id task_id db = (Ok (snapshot_of t obs), db) ∧
  ∃ l, list_expired_task_leases e None db = (Ok l, db) ∧
    ∀ s, s ∈ l ↔ ∃ k t run, db_tasks db !! k = Some t ∧ db_runs db !! k.1 = Some run ∧
      rr_status run = "RUNNING" ∧ classify t obs = EXPIRED ∧ s = snapshot_of t obs.
Proof.
  apply history_invariant in Hh. split.
  - destruct (hi_rows _ _ _ Hh _ _ Ht) as [_ Hrow]. unfold inspect_task_lease.
    rewrite (lift_run _ _ name) by done.
    rewrite (M_bind_run _ _ db t db) by (unfold _locked_task; by rewrite Ht).
    rewrite (lift_run _ _ obs) by (unfold database_time; by rewrite Hclock).
    unfold lift. by rewrite (snapshot_total now).
  - set (rows := select_tasks (expired_row None obs db) db).
    assert (Hrows : ∀ r, r ∈ rows ↔ expired_row None obs db r = true ∧ ∃ k, db_tasks db !! k = Some r).
    { intros r. unfold rows, select_tasks. rewrite merge_sort_Permutation, list_elem_of_filter.
      rewrite Is_true_true, list_elem_of_fmap.
      split; intros [? H]; (split; [done|]).
      - destruct H as ([k r'] & -> & Hin). apply elem_of_map_to_list in Hin. by exists k.
      - destruct H as [k Hk]. exists (k, r). split; [done|]. by apply elem_of_map_to_list. }
    exists ((λ t, snapshot_of t obs) <$> rows). split.
    + unfold list_expired_task_leases.
      rewrite (lift_run _ _ obs) by (unfold database_time; by rewrite Hclock).
      rewrite get_run. unfold lift. f_equal. fold rows. apply map_result_Ok.
      apply Forall2_fmap_r, Forall_Forall2_diag, Forall_forall. intros r [_ [k Hr]]%Hrows.
      apply (snapshot_total now); [|done]. by apply (hi_rows _ _ _ Hh k).
    + intros s. rewrite list_elem_of_fmap. split.
      * intros (r & -> & [Hexp [k Hr]]%Hrows). destruct (hi_rows _ _ _ Hh _ _ Hr) as [Hk _].
        unfold expired_row in Hexp. to_prop.
        destruct (db_runs db !! tr_run_id r) as [run|] eqn:Hrun; [|done]. to_prop.
        exists k, r, run. subst k. split_and!; try done.
        unfold classify. destruct (lease_owner r); [|done]. destruct (lease_released_at r); [done|].
        destruct (lease_until r); [|done].
        match goal with H : (_ <=? _) = true |- _ => by rewrite H end.
      * intros (k & r & run & Hr & Hrun & Hstat & Hc & ->). exists r. split; [done|].
        apply Hrows. split; [|by exists k]. destruct (hi_rows _ _ _ Hh _ _ Hr) as [Hk Hok].
        unfold expired_row. subst k. cbn in Hrun. rewrite Hrun, Hstat.
        rewrite bool_decide_true by done. unfold classify in Hc.
        destruct (lease_owner r) eqn:Ho; [|done]. destruct (lease_released_at r); [done|]. cbn.
        destruct Hok as [_ [(? & _)|(? & ? & ? & ? & ? & ? & [])]]; [congruence|].
        destruct (lease_until r); [|done]. by destruct (_ <=? _).
Qed.

(** Durations: an accepted [lease_seconds] is at most 86400 s in whole
    microseconds; a positive value of at most half a microsecond passes the
    "greater than zero" guard as the duration zero, with which no acquisition
    and no renewal succeeds. *)
Theorem lease_duration_bounds (sha256 : string → string) f d
    (Hd : _lease_duration f = Ok d) :
  0 ≤ d ≤ 86400000000 ∧
  (∀ q, f = PFinite q → (q <= 1 # 2000000)%Q → d = 0) ∧
  (d = 0 → ∀ e run_id task_id owner disp token db,
     refused (acquire_task_lease sha256 e run_id task_id owner disp f) db ∧
     refused (renew_task_lease sha256 e run_id task_id owner disp token f) db).
Proof.
  split_and!; [by eapply lease_duration_bound..| |].
  - intros q -> Hq. cbn in Hd. destruct (Qle_bool q 0) eqn:Hz; [done|].
    destruct (Qle_bool q 86400); [|done]. injection Hd as <-.
    assert (Hpos : 0 < Qnum q).
    { destruct (Qlt_le_dec 0 q) as [Hlt|Hle]; [unfold Qlt in Hlt; cbn in Hlt; lia|].
      apply Qle_bool_iff in Hle. congruence. }
    unfold Qle in Hq. cbn in Hq. unfold timedelta_seconds, round_half_even.
    rewrite Z.div_small, Z.mod_small by lia.
    destruct (2 * (Qnum q * 1000000) ?= Z.pos (Qden q)) eqn:Hc; [done|done|].
    apply Z.compare_gt_iff in Hc. lia.
  - intros -> e run_id task_id owner disp token db. split.
    + apply refused_intro; [apply acquire_rolls_back|]. intros g db' H.
      unfold acquire_task_lease in H.
      apply M_bind_Ok_inv in H as (xa1 & xs1 & [Hx ->]%lift_Ok_inv & H); clear Hx.
      apply M_bind_Ok_inv in H as (xa2 & xs2 & [Hx ->]%lift_Ok_inv & H); clear Hx.
      rewrite (lift_run _ _ 0) in H by done. inv_monad.
      match goal with Hx : _snapshot _ _ = Ok _ |- _ => apply snapshot_inv in Hx as [_ Hs] end.
      destruct Hs as (h & u & [= <-] & [= <-] & Hlt); [done|]. lia.
    + apply refused_intro; [apply renew_rolls_back|]. intros g db' H.
      unfold renew_task_lease, _assert_identity in H.
      apply M_bind_Ok_inv in H as (xa3 & xs3 & [Hx ->]%lift_Ok_inv & H); clear Hx.
      apply M_bind_Ok_inv in H as (xa4 & xs4 & [Hx ->]%lift_Ok_inv & H); clear Hx.
      rewrite (lift_run _ _ 0) in H by done. inv_monad.
      match goal with Hx : _snapshot _ _ = Ok _ |- _ => apply snapshot_inv in Hx as [_ Hs] end.
      destruct Hs as (h & u & [= <-] & [= <-] & Hlt); [|lia].
      cbn. to_prop. by destruct (lease_owner _).
Qed.

(** ** A concrete history: an acquisition and a takeover *)
Definition lease_env (us : Z) (u0 u1 : UUID) : Env := {|
  env_clock := Timestamptz us;
  env_now := us;
  env_uuid4 := λ n, match n with O => u0 | _ => u1 end;
|}.
Definition ten_seconds : py_float := PFinite 10.
Definition first_acquire : DB TaskLeaseGrant :=
  acquire_task_lease sample_sha256 (lease_env 1000000 1001%N 2001%N) 1%N " a " "worker-1" 100%N
    ten_seconds.
Definition takeover : DB TaskLeaseGrant :=
  acquire_task_lease sample_sha256 (lease_env 20000000 1002%N 2002%N) 1%N "a" "worker-2" 101%N
    ten_seconds.
Definition db_after1 : Database := (first_acquire sample_db).2.
Definition db_after2 : Database := (takeover db_after1).2.
Definition grant1 : grant := {| gr_key := (1%N, "a"); gr_generation := 1; gr_token := 1001%N |}.
Definition grant2 : grant := {| gr_key := (1%N, "a"); gr_generation := 2; gr_token := 1002%N |}.

Definition row_after (db : Database) : TaskRow :=
  match db_tasks db !! (1%N, "a") with Some t => t | None => sample_task 1%N "a" end.

Lemma sample_history1 : history sample_sha256 db_after1 [grant1] 1000000.
Proof.
  eapply (h_acquire sample_sha256 sample_db [] 0 (lease_env 1000000 1001%N 2001%N) 1000000
            1%N " a " "worker-1" 100%N ten_seconds
            {| tlg_snapshot := snapshot_of (row_after db_after1) 1000000; tlg_run_token := 1001%N |}).
  - apply h_start. intros k t Hk. cbn in Hk. apply lookup_singleton_Some in Hk as [<- <-]. split; [done|].
    split; [vm_compute; split; lia|]. by split_and!.
  - done.
  - done.
  - apply not_elem_of_nil.
  - vm_compute. reflexivity.
Qed.
Lemma sample_history2 : history sample_sha256 db_after2 [grant1; grant2] 20000000.
Proof.
  eapply (h_acquire sample_sha256 db_after1 [grant1] 1000000 (lease_env 20000000 1002%N 2002%N)
            20000000 1%N "a" "worker-2" 101%N ten_seconds
            {| tlg_snapshot := snapshot_of (row_after db_after2) 20000000; tlg_run_token := 1002%N |}).
  - exact sample_history1.
  - done.
  - done.
  - cbn. rewrite list_elem_of_singleton. done.
  - vm_compute. reflexivity.
Qed.

Lemma stale_generation_fenced_witness :
  refused (renew_task_lease sample_sha256 (lease_env 21000000 7%N 8%N) 1%N "a" "worker-1" 100%N
             (gr_token grant1) ten_seconds) db_after2.
Proof.
  refine (proj1 (stale_generation_fenced sample_sha256 db_after2 [grant1; grant2] 20000000 grant1
           (row_after db_after2) 1%N "a" sample_history2 _ _ _ _)
           (lease_env 21000000 7%N 8%N) "worker-1" 100%N ten_seconds).
  - by left.
  - vm_compute. reflexivity.
  - vm_compute. reflexivity.
  - vm_compute. reflexivity.
Defined.

Lemma one_live_generation_witness :
  gr_generation <$> of_key (1%N, "a") [grant1; grant2]
    = Z.of_nat <$> seq 1 (length (of_key (1%N, "a") [grant1; grant2])).
Proof.
  refine (proj1 (one_live_generation sample_sha256 db_after2 [grant1; grant2] 20000000 (1%N, "a")
    (row_after db_after2) 21000000 sample_history2 _)).
  vm_compute. reflexivity.
Defined.

Lemma db_after1_log : log_wf sample_sha256 db_after1.
Proof.
  edestruct (acquire_spec sample_sha256 sample_sha256_hex (lease_env 1000000 1001%N 2001%N) 1%N
    " a " "worker-1" 100%N ten_seconds "a" "worker-1" 10000000 (sample_run 1%N)
    (sample_task 1%N "a") 0 1000000 sample_db) as (db' & H & _ & _ & Hl).
  - exact sample_db_wf.
  - vm_compute. reflexivity.
  - vm_compute. reflexivity.
  - vm_compute. reflexivity.
  - lia.
  - vm_compute. reflexivity.
  - reflexivity.
  - vm_compute. reflexivity.
  - reflexivity.
  - split; [vm_compute; split; lia|left; by split_and!].
  - reflexivity.
  - lia.
  - left. by split_and!.
  - reflexivity.
  - reflexivity.
  - intros k t Hk. cbn in Hk. apply lookup_singleton_Some in Hk as [<- <-]. done.
  - intros x Hx. by apply not_elem_of_nil in Hx.
  - vm_compute. reflexivity.
  - assert (db_after1 = db') as ->; [|exact Hl].
    unfold db_after1, first_acquire. by rewrite H.
Qed.

Lemma db_after1_tasks k t :
  db_tasks db_after1 !! k = Some t → k = (1%N, "a") ∧ t = row_after db_after1.
Proof.
  assert (Hdb : db_tasks db_after1 = {[ (1%N, "a") := row_after db_after1 ]})
    by (vm_compute; reflexivity).
  rewrite Hdb. intros Hl. apply lookup_singleton_Some in Hl as [Hk Ht].
  split; symmetry; assumption.
Qed.

Lemma acquire_correct_witness :
  ∃ msg, acquire_task_lease sample_sha256 (lease_env 2000000 1003%N 2003%N) 1%N "a" "worker-3" 102%N
    ten_seconds db_after1 = (Raise (Exn TaskLeaseConflictError msg), db_after1).
Proof.
  refine (proj2 (acquire_correct sample_sha256 sample_sha256_hex (lease_env 2000000 1003%N 2003%N)
    1%N "a" "worker-3" 102%N ten_seconds "a" "worker-3" 10000000
    (with_event_sequence 1 (sample_run 1%N)) (row_after db_after1) [grant1] 1000000 2000000 db_after1
    sample_history1 db_after1_log _ _ _ _ _ _ _ _ _ _ _ _ _ _) _).
  - vm_compute. reflexivity.
  - vm_compute. reflexivity.
  - vm_compute. reflexivity.
  - lia.
  - vm_compute. reflexivity.
  - reflexivity.
  - vm_compute. reflexivity.
  - reflexivity.
  - lia.
  - vm_compute. reflexivity.
  - vm_compute. reflexivity.
  - intros k t [-> ->]%db_after1_tasks. vm_compute. discriminate.
  - intros x Hx. assert (er_event_id x = 2001%N) as ->; [|done].
    revert x Hx. apply Forall_forall. vm_compute. repeat constructor.
  - vm_compute. reflexivity.
  - intros [(Ho & _)|[Hc _]].
    + revert Ho. vm_compute. discriminate.
    + revert Hc. vm_compute. discriminate.
Defined.

Lemma dead_generation_stays_dead_witness :
  refused (renew_task_lease sample_sha256 (lease_env 12000000 7%N 8%N) 1%N "a" "worker-1" 100%N
             1001%N ten_seconds) db_after1.
Proof.
  refine (proj1 (proj1 (dead_generation_stays_dead sample_sha256 db_after1 [grant1] 1000000
    (lease_env 12000000 7%N 8%N) 12000000 1%N "a" (row_after db_after1) sample_history1 _ _ _) _)
    "worker-1" 100%N 1001%N ten_seconds).
  - vm_compute. reflexivity.
  - reflexivity.
  - lia.
  - left. vm_compute. reflexivity.
Defined.

Lemma lease_queries_total_witness :
  inspect_task_lease (lease_env 12000000 7%N 8%N) 1%N "a" db_after1
    = (Ok (snapshot_of (row_after db_after1) 12000000), db_after1).
Proof.
  refine (proj1 (lease_queries_total sample_sha256 db_after1 [grant1] 1000000
    (lease_env 12000000 7%N 8%N) 12000000 1%N "a" "a" (row_after db_after1) sample_history1 _ _ _ _)).
  - reflexivity.
  - lia.
  - vm_compute. reflexivity.
  - vm_compute. reflexivity.
Defined.

Lemma lease_duration_bounds_witness :
  refused (acquire_task_lease sample_sha256 (lease_env 1000000 1001%N 2001%N) 1%N "a" "worker-1" 100%N
             (PFinite (1 # 10000000))) sample_db.
Proof.
  exact (proj1 (proj2 (proj2 (lease_duration_bounds sample_sha256 (PFinite (1 # 10000000)) 0
    ltac:(vm_compute; reflexivity))) eq_refl (lease_env 1000000 1001%N 2001%N) 1%N "a" "worker-1"
    100%N 0%N sample_db)).
Defined.
