(* ===== verification/RunModels.v ===== *)
(** * RunModels: the evidence types of a task run

    [models/developer.py], [models/verification.py], [models/review.py],
    [models/repair.py], [models/run.py], the continuation state of
    [models/context.py], the provider error of [providers/errors.py], the
    workspace snapshot of [workspace/git.py], and the two pure functions that
    turn evidence into failure reports: [FailureClassifier]
    ([runtime/failure_classifier.py]) and
    [DeterministicVerifier.failure_reports] ([verification/verifier.py]). *)
From Stdlib Require Import QArith.
From stdpp Require Import options.
From S2P Require Import Prelude Contracts.
Open Scope Z_scope.

(** [Field(min_length=lo, max_length=hi)] on a string. *)
Definition text_ok (lo hi : nat) (s : string) : bool :=
  ((lo <=? str_len s) && (str_len s <=? hi))%nat.
Definition opt_str_ok (hi : nat) (o : option string) : bool :=
  match o with Some s => (str_len s <=? hi)%nat | None => true end.

(** ** [models/agent.py] *)
Inductive AgentRole : Set := ROLE_PLANNER | ROLE_DEVELOPER | ROLE_REVIEWER | ROLE_REPAIR.
#[export] Instance AgentRole_eq_dec : EqDecision AgentRole.
Proof. solve_decision. Defined.

Record TokenUsage : Set := {
  prompt_tokens : Z;
  completion_tokens : Z;
  total_tokens : Z;
}.
Definition TokenUsage_new (raw : TokenUsage) : result TokenUsage :=
  valid_if (0 <=? prompt_tokens raw) "prompt_tokens" ;;
  valid_if (0 <=? completion_tokens raw) "completion_tokens" ;;
  valid_if (0 <=? total_tokens raw) "total_tokens" ;;
  Ok raw.

(** ** [models/developer.py] *)
Inductive DeveloperStopReason : Set :=
  | DEV_MODEL_STOP | DEV_ITERATION_LIMIT | DEV_TIME_LIMIT | DEV_TOOL_CALL_LIMIT
  | DEV_REPEATED_TOOL_FAILURE.
#[export] Instance DeveloperStopReason_eq_dec : EqDecision DeveloperStopReason.
Proof. solve_decision. Defined.
Definition DeveloperStopReason_value (r : DeveloperStopReason) : string :=
  match r with
  | DEV_MODEL_STOP => "MODEL_STOP"
  | DEV_ITERATION_LIMIT => "ITERATION_LIMIT"
  | DEV_TIME_LIMIT => "TIME_LIMIT"
  | DEV_TOOL_CALL_LIMIT => "TOOL_CALL_LIMIT"
  | DEV_REPEATED_TOOL_FAILURE => "REPEATED_TOOL_FAILURE"
  end.

Record DeveloperExecutionBudget : Set := {
  max_iterations : Z;
  max_duration_seconds : Q;
  max_model_turn_seconds : Q;
}.
Record DeveloperRunResult : Set := {
  dr_stop_reason : DeveloperStopReason;
  dr_iterations : Z;
  dr_tool_calls : Z;
  dr_final_message : string;
  dr_changed_files : list string;
  dr_usage : TokenUsage;
  dr_latency_ms : Z;
  dr_execution_budget : option DeveloperExecutionBudget;
  dr_tool_failure_evidence : list string;
}.

(** ** [models/verification.py] *)
Inductive CheckType : Set := CT_SCOPE | CT_TEST | CT_LINT | CT_TYPE_CHECK | CT_BUILD | CT_CUSTOM.
Inductive VerificationBackend : Set := HOST | DOCKER.
Definition VerificationBackend_value (b : VerificationBackend) : string :=
  match b with HOST => "host" | DOCKER => "docker" end.

Record CheckResult : Set := {
  cr_check_type : CheckType;
  cr_name : string;
  cr_command : option string;
  cr_passed : bool;
  cr_exit_code : option Z;
  cr_stdout : string;
  cr_stderr : string;
  cr_duration_ms : Z;
  cr_failure_type : option FailureType;
  cr_execution_backend : option VerificationBackend;
  cr_execution_details : list string;
}.

Definition validate_execution_details (values : list string) : result (list string) :=
  let normalized := strip <$> values in
  valid_if (negb (existsb (λ v, bool_decide (v = "")) normalized))
    "execution details must not contain blank entries" ;;
  valid_if (no_duplicates normalized) "execution details must be unique" ;;
  Ok normalized.

Definition validate_check_consistency (self : CheckResult) : result CheckResult :=
  valid_if (negb (cr_passed self
                  && negb (match cr_exit_code self with None => true | Some c => c =? 0 end)))
    "passed checks cannot have a non-zero exit code" ;;
  valid_if (negb (cr_passed self && bool_decide (is_Some (cr_failure_type self))))
    "passed checks cannot have a failure_type" ;;
  valid_if (negb (negb (cr_passed self) && bool_decide (cr_failure_type self = None)))
    "failed checks require a failure_type" ;;
  valid_if (match cr_execution_backend self with
            | None => bool_decide (cr_execution_details self = [])
            | Some _ => true
            end) "execution details require an execution backend" ;;
  Ok self.

Definition CheckResult_new (raw : CheckResult) : result CheckResult :=
  valid_if (text_ok 1 256 (cr_name raw)) "name" ;;
  valid_if (0 <=? cr_duration_ms raw) "duration_ms" ;;
  details ← validate_execution_details (cr_execution_details raw);
  validate_check_consistency {|
    cr_check_type := cr_check_type raw; cr_name := cr_name raw; cr_command := cr_command raw;
    cr_passed := cr_passed raw; cr_exit_code := cr_exit_code raw; cr_stdout := cr_stdout raw;
    cr_stderr := cr_stderr raw; cr_duration_ms := cr_duration_ms raw;
    cr_failure_type := cr_failure_type raw; cr_execution_backend := cr_execution_backend raw;
    cr_execution_details := details;
  |}.

Record VerificationResult : Set := {
  vr_passed : bool;
  vr_checks : list CheckResult;
}.
Definition validate_aggregate_result (self : VerificationResult) : result VerificationResult :=
  let expected := forallb cr_passed (vr_checks self) in
  valid_if (eqb (vr_passed self) expected)
    "verification passed flag must match all check results" ;;
  Ok self.
Definition VerificationResult_new (raw : VerificationResult) : result VerificationResult :=
  valid_if (min_length 1 (vr_checks raw)) "checks" ;;
  validate_aggregate_result raw.

(** ** [models/review.py] *)
Inductive ReviewOutcome : Set := PASS | CHANGES_REQUESTED.
#[export] Instance ReviewOutcome_eq_dec : EqDecision ReviewOutcome.
Proof. solve_decision. Defined.
Inductive ReviewSeverity : Set := SEV_LOW | SEV_MEDIUM | SEV_HIGH | SEV_CRITICAL.
Definition ReviewSeverity_value (s : ReviewSeverity) : string :=
  match s with
  | SEV_LOW => "low" | SEV_MEDIUM => "medium" | SEV_HIGH => "high" | SEV_CRITICAL => "critical"
  end.
Record ReviewIssue : Set := {
  ri_severity : ReviewSeverity;
  ri_message : string;
  ri_file : option string;
  ri_line : option Z;
}.
Definition ReviewIssue_new (raw : ReviewIssue) : result ReviewIssue :=
  valid_if (text_ok 1 4000 (ri_message raw)) "message" ;;
  let message := strip (ri_message raw) in
  valid_if (negb (bool_decide (message = ""))) "review issue message must not be empty" ;;
  valid_if (match ri_line raw with Some n => 1 <=? n | None => true end) "line" ;;
  Ok {| ri_severity := ri_severity raw; ri_message := message; ri_file := ri_file raw;
        ri_line := ri_line raw |}.

Record ReviewDecision : Set := {
  rd_decision : ReviewOutcome;
  rd_summary : string;
  rd_issues : list ReviewIssue;
}.
Definition validate_decision_consistency (self : ReviewDecision) : result ReviewDecision :=
  valid_if (match rd_decision self, rd_issues self with PASS, _ :: _ => false | _, _ => true end)
    "PASS review decisions must not contain issues" ;;
  valid_if (match rd_decision self, rd_issues self with
            | CHANGES_REQUESTED, [] => false
            | _, _ => true
            end) "CHANGES_REQUESTED review decisions require at least one issue" ;;
  Ok self.
Definition ReviewDecision_new (raw : ReviewDecision) : result ReviewDecision :=
  valid_if (text_ok 1 4000 (rd_summary raw)) "summary" ;;
  let summary := strip (rd_summary raw) in
  valid_if (negb (bool_decide (summary = ""))) "review summary must not be empty" ;;
  validate_decision_consistency {|
    rd_decision := rd_decision raw; rd_summary := summary; rd_issues := rd_issues raw |}.

(** ** [models/repair.py] *)
Inductive RepairFailureKind : Set := IMPORT_SYMBOL_MISSING.

Record RepairFailureDigest : Set := {
  rfd_failure_type : FailureType;
  rfd_source : FailureSource;
  rfd_message : string;
  rfd_evidence : list string;
}.
Definition RepairFailureDigest_new (raw : RepairFailureDigest) : result RepairFailureDigest :=
  valid_if (text_ok 1 2000 (rfd_message raw)) "message" ;;
  valid_if (length (rfd_evidence raw) <=? 8)%nat "evidence" ;;
  Ok raw.

Record RepairHandoff : Set := {
  rh_task_id : string;
  rh_objective : string;
  rh_repository_head : string;
  rh_acceptance_criteria : list string;
  rh_verification_commands : list string;
  rh_writable_files : list string;
  rh_readonly_files : list string;
  rh_changed_files : list string;
  rh_relevant_paths : list string;
  rh_failure_kind : option RepairFailureKind;
  rh_suspected_path : option string;
  rh_suspected_symbol : option string;
  rh_failures : list RepairFailureDigest;
}.
(** [^[A-Za-z_][A-Za-z0-9_]*$] *)
Definition is_ident_start (c : ascii) : bool :=
  let n := nat_of_ascii c in
  ((65 <=? n) && (n <=? 90) || (97 <=? n) && (n <=? 122) || (n =? 95))%nat.
Definition is_ident_char (c : ascii) : bool :=
  is_ident_start c || ((48 <=? nat_of_ascii c) && (nat_of_ascii c <=? 57))%nat.
Definition is_identifier (s : string) : bool :=
  match chars s with [] => false | c :: l => is_ident_start c && forallb is_ident_char l end.

Definition RepairHandoff_new (raw : RepairHandoff) : result RepairHandoff :=
  valid_if (text_ok 1 128 (rh_task_id raw)) "task_id" ;;
  valid_if (text_ok 1 4000 (rh_objective raw)) "objective" ;;
  valid_if (hex_string is_lower_hex 40 64 (rh_repository_head raw)) "repository_head" ;;
  valid_if ((1 <=? length (rh_acceptance_criteria raw))
            && (length (rh_acceptance_criteria raw) <=? 32))%nat "acceptance_criteria" ;;
  valid_if (length (rh_verification_commands raw) <=? 32)%nat "verification_commands" ;;
  valid_if (length (rh_writable_files raw) <=? 256)%nat "writable_files" ;;
  valid_if (length (rh_readonly_files raw) <=? 256)%nat "readonly_files" ;;
  valid_if (length (rh_changed_files raw) <=? 256)%nat "changed_files" ;;
  valid_if (length (rh_relevant_paths raw) <=? 16)%nat "relevant_paths" ;;
  valid_if (opt_str_ok 500 (rh_suspected_path raw)) "suspected_path" ;;
  valid_if (match rh_suspected_symbol raw with
            | Some s => is_identifier s && (str_len s <=? 256)%nat
            | None => true
            end) "suspected_symbol" ;;
  valid_if ((1 <=? length (rh_failures raw)) && (length (rh_failures raw) <=? 8))%nat "failures" ;;
  Ok raw.

Inductive RepairStopReason : Set :=
  | REP_MODEL_STOP | REP_NO_PROGRESS | REP_EXPLICIT_BLOCKER | REP_ITERATION_LIMIT
  | REP_TIME_LIMIT | REP_TOOL_CALL_LIMIT.
#[export] Instance RepairStopReason_eq_dec : EqDecision RepairStopReason.
Proof. solve_decision. Defined.
Definition RepairStopReason_value (r : RepairStopReason) : string :=
  match r with
  | REP_MODEL_STOP => "MODEL_STOP"
  | REP_NO_PROGRESS => "NO_PROGRESS"
  | REP_EXPLICIT_BLOCKER => "EXPLICIT_BLOCKER"
  | REP_ITERATION_LIMIT => "ITERATION_LIMIT"
  | REP_TIME_LIMIT => "TIME_LIMIT"
  | REP_TOOL_CALL_LIMIT => "TOOL_CALL_LIMIT"
  end.

Inductive RepairProgressStatus : Set :=
  | PATCH_PRODUCED | NO_PATCH_PRODUCED | PROGRESS_MADE | REPAIR_INEFFECTIVE | REPAIRED.
#[export] Instance RepairProgressStatus_eq_dec : EqDecision RepairProgressStatus.
Proof. solve_decision. Defined.
Definition RepairProgressStatus_value (s : RepairProgressStatus) : string :=
  match s with
  | PATCH_PRODUCED => "PATCH_PRODUCED"
  | NO_PATCH_PRODUCED => "NO_PATCH_PRODUCED"
  | PROGRESS_MADE => "PROGRESS_MADE"
  | REPAIR_INEFFECTIVE => "REPAIR_INEFFECTIVE"
  | REPAIRED => "REPAIRED"
  end.

Record RepairProgressEvidence : Set := {
  rp_status : RepairProgressStatus;
  rp_has_patch : bool;
  rp_files_changed : list string;
  rp_patch_hash_before : string;
  rp_patch_hash_after : string;
  rp_failure_signature_before : option string;
  rp_failure_signature_after : option string;
  rp_validation_executed : bool;
  rp_validation_commands : list string;
}.
Definition opt_sha256_ok (o : option string) : bool :=
  match o with Some s => hex_string is_lower_hex 64 64 s | None => true end.
Definition RepairProgressEvidence_new (raw : RepairProgressEvidence)
    : result RepairProgressEvidence :=
  valid_if (hex_string is_lower_hex 64 64 (rp_patch_hash_before raw)) "patch_hash_before" ;;
  valid_if (hex_string is_lower_hex 64 64 (rp_patch_hash_after raw)) "patch_hash_after" ;;
  valid_if (opt_sha256_ok (rp_failure_signature_before raw)) "failure_signature_before" ;;
  valid_if (opt_sha256_ok (rp_failure_signature_after raw)) "failure_signature_after" ;;
  Ok raw.

Record RepairRunResult : Set := {
  rpr_attempt : Z;
  rpr_failure_types : list FailureType;
  rpr_stop_reason : RepairStopReason;
  rpr_iterations : Z;
  rpr_tool_calls : Z;
  rpr_final_message : string;
  rpr_changed_files : list string;
  rpr_progress : option RepairProgressEvidence;
  rpr_usage : TokenUsage;
  rpr_latency_ms : Z;
}.

(** ** [models/run.py] *)
Inductive TaskRunState : Set :=
  | RUN_PENDING | RUN_RUNNING | RUN_VERIFYING | RUN_REVIEWING | RUN_REPAIRING
  | RUN_SUCCEEDED | RUN_FAILED.
#[export] Instance TaskRunState_eq_dec : EqDecision TaskRunState.
Proof. solve_decision. Defined.
Definition TaskRunState_value (s : TaskRunState) : string :=
  match s with
  | RUN_PENDING => "PENDING" | RUN_RUNNING => "RUNNING" | RUN_VERIFYING => "VERIFYING"
  | RUN_REVIEWING => "REVIEWING" | RUN_REPAIRING => "REPAIRING"
  | RUN_SUCCEEDED => "SUCCEEDED" | RUN_FAILED => "FAILED"
  end.

Record RunEvent : Set := {
  re_sequence : Z;
  re_state : TaskRunState;
  re_detail : string;
}.
Definition RunEvent_new (raw : RunEvent) : result RunEvent :=
  valid_if (0 <=? re_sequence raw) "sequence" ;;
  valid_if (text_ok 1 2000 (re_detail raw)) "detail" ;;
  Ok raw.

Record AgentUsageSummary : Set := {
  us_role : AgentRole;
  us_model : string;
  us_calls : Z;
  us_usage : TokenUsage;
  us_latency_ms : Z;
  us_enable_thinking : bool;
}.
Definition AgentUsageSummary_new (raw : AgentUsageSummary) : result AgentUsageSummary :=
  valid_if (text_ok 1 500 (us_model raw)) "model" ;;
  valid_if (0 <=? us_calls raw) "calls" ;;
  valid_if (0 <=? us_latency_ms raw) "latency_ms" ;;
  Ok raw.

Record SingleTaskRunResult : Set := {
  sr_task_id : string;
  sr_status : TaskRunState;
  sr_events : list RunEvent;
  sr_developer : option DeveloperRunResult;
  sr_verifications : list VerificationResult;
  sr_reviews : list ReviewDecision;
  sr_repairs : list RepairRunResult;
  sr_failures : list FailureReport;
  sr_changed_files : list string;
  sr_repair_attempts : Z;
  sr_agent_models : list (AgentRole * string);
  sr_agent_usage : list AgentUsageSummary;
  sr_context_state : option ContextContinuationState;
}.

Definition validate_terminal_consistency (self : SingleTaskRunResult)
    : result SingleTaskRunResult :=
  valid_if (bool_decide (sr_status self = RUN_SUCCEEDED ∨ sr_status self = RUN_FAILED))
    "SingleTaskRunResult status must be terminal" ;;
  valid_if (bool_decide (re_state <$> last (sr_events self) = Some (sr_status self)))
    "final run event must match terminal status" ;;
  valid_if (negb (bool_decide (sr_status self = RUN_SUCCEEDED)
                  && negb (bool_decide (sr_failures self = []))))
    "successful runs must not contain terminal failures" ;;
  valid_if (negb (bool_decide (sr_status self = RUN_FAILED)
                  && bool_decide (sr_failures self = [])))
    "failed runs require at least one terminal failure" ;;
  valid_if (sr_repair_attempts self =? Z.of_nat (length (sr_repairs self)))
    "repair_attempts must equal the number of repair run records" ;;
  valid_if (negb (existsb (λ m, bool_decide (strip m.2 = "")) (sr_agent_models self)))
    "agent model identifiers must not be empty" ;;
  Ok self.

Definition SingleTaskRunResult_new (raw : SingleTaskRunResult) : result SingleTaskRunResult :=
  valid_if (text_ok 1 128 (sr_task_id raw)) "task_id" ;;
  valid_if (min_length 2 (sr_events raw)) "events" ;;
  valid_if (0 <=? sr_repair_attempts raw) "repair_attempts" ;;
  validate_terminal_consistency raw.

(** ** [models/context.py]: paths and the continuation state *)
Definition _normalize_repository_path (value : string) : result string :=
  let normalized := strip value in
  valid_if (negb (bool_decide (normalized = ""))) "repository path must not be empty" ;;
  valid_if (negb (str_startswith "/" normalized || str_startswith "\" normalized
                  || in_string "\"%char normalized))
    "repository path must be repository-relative POSIX style" ;;
  valid_if (negb (bool_decide (chars normalized !! 1%nat = Some ":"%char)))
    "repository path must not use a Windows drive prefix" ;;
  valid_if (negb (existsb (λ part, bool_decide (part = "..")) (split_on "/"%char normalized)))
    "repository path must remain inside the repository" ;;
  valid_if (negb (bool_decide (normalized = ".git") || str_startswith ".git/" normalized))
    "repository path must not expose .git internals" ;;
  Ok normalized.

Definition ContextFileDigest_new (raw : ContextFileDigest) : result ContextFileDigest :=
  valid_if (text_ok 1 1000 (cfd_path raw)) "path" ;;
  path ← _normalize_repository_path (cfd_path raw);
  valid_if (hex_string is_lower_hex 64 64 (cfd_source_sha256 raw)) "source_sha256" ;;
  Ok {| cfd_path := path; cfd_source_sha256 := cfd_source_sha256 raw |}.

Definition validate_changed_paths (values : list string) : result (list string) :=
  normalized ← map_result _normalize_repository_path values;
  valid_if (bool_decide (normalized = sorted_set (list_to_set normalized)))
    "continuation changed_files must be sorted and unique" ;;
  Ok normalized.

Definition validate_unique_read_files (self : ContextContinuationState)
    : result ContextContinuationState :=
  valid_if (no_duplicates (cfd_path <$> ccs_read_files self))
    "continuation read_files must not contain duplicate paths" ;;
  valid_if (no_duplicates (cfd_path <$> ccs_changed_file_hashes self))
    "continuation changed_file_hashes must not contain duplicate paths" ;;
  valid_if (forallb (λ p, bool_decide (p ∈ ccs_changed_files self))
              (cfd_path <$> ccs_changed_file_hashes self))
    "continuation changed_file_hashes must describe changed_files only" ;;
  Ok self.

Definition ContextContinuationState_new (raw : ContextContinuationState)
    : result ContextContinuationState :=
  valid_if (text_ok 1 64 (ccs_summary_version raw)) "summary_version" ;;
  valid_if (hex_string is_lower_hex 40 64 (ccs_repository_head raw)) "repository_head" ;;
  valid_if (length (ccs_read_files raw) <=? 100)%nat "read_files" ;;
  valid_if (length (ccs_changed_files raw) <=? 512)%nat "changed_files" ;;
  changed ← validate_changed_paths (ccs_changed_files raw);
  valid_if (length (ccs_changed_file_hashes raw) <=? 512)%nat "changed_file_hashes" ;;
  valid_if (str_len (ccs_completed_summary raw) <=? 512)%nat "completed_summary" ;;
  valid_if (str_len (ccs_remaining_summary raw) <=? 512)%nat "remaining_summary" ;;
  valid_if (str_len (ccs_verification_summary raw) <=? 512)%nat "verification_summary" ;;
  valid_if (str_len (ccs_failure_summary raw) <=? 512)%nat "failure_summary" ;;
  validate_unique_read_files {|
    ccs_summary_version := ccs_summary_version raw;
    ccs_repository_head := ccs_repository_head raw;
    ccs_read_files := ccs_read_files raw;
    ccs_changed_files := changed;
    ccs_changed_file_hashes := ccs_changed_file_hashes raw;
    ccs_completed_summary := ccs_completed_summary raw;
    ccs_remaining_summary := ccs_remaining_summary raw;
    ccs_verification_summary := ccs_verification_summary raw;
    ccs_failure_summary := ccs_failure_summary raw;
  |}.

(** ** [workspace/git.py]: [WorkspaceChangeSnapshot] *)
Record WorkspaceChangeSnapshot : Set := {
  wcs_changed_files : list string;
  wcs_patch_hash : string;
  wcs_file_hashes : list (string * string);
}.
(** [dict(pairs)]: a later pair replaces an earlier one. *)
Definition dict_of {A} (l : list (string * A)) : gmap string A :=
  foldl (λ m p, <[p.1 := p.2]> m) ∅ l.
Definition files_changed_since (self before : WorkspaceChangeSnapshot) : list string :=
  let previous := dict_of (wcs_file_hashes before) in
  let current := dict_of (wcs_file_hashes self) in
  sorted_strings (filter (λ path, previous !! path ≠ current !! path)
                    (elements (dom previous ∪ dom current : gset string))).

(** ** [providers/errors.py] *)
Inductive ProviderErrorCode : Set :=
  | TIMEOUT | PE_RATE_LIMIT | AUTHENTICATION | PERMISSION | BAD_REQUEST | INVALID_REQUEST
  | CONNECTION | UNAVAILABLE | PE_TOKEN_BUDGET_EXHAUSTED
  | PE_WORK_PACKAGE_BUDGET_ALLOCATION_BLOCKED | UNKNOWN.
#[export] Instance ProviderErrorCode_eq_dec : EqDecision ProviderErrorCode.
Proof. solve_decision. Defined.
Definition ProviderErrorCode_value (c : ProviderErrorCode) : string :=
  match c with
  | TIMEOUT => "timeout" | PE_RATE_LIMIT => "rate_limit" | AUTHENTICATION => "authentication"
  | PERMISSION => "permission" | BAD_REQUEST => "bad_request"
  | INVALID_REQUEST => "invalid_request" | CONNECTION => "connection"
  | UNAVAILABLE => "unavailable" | PE_TOKEN_BUDGET_EXHAUSTED => "token_budget_exhausted"
  | PE_WORK_PACKAGE_BUDGET_ALLOCATION_BLOCKED => "work_package_budget_allocation_blocked"
  | UNKNOWN => "unknown"
  end.
Record AgentProviderError : Set := {
  ape_provider : string;
  ape_code : ProviderErrorCode;
  ape_message : string;
  ape_retryable : bool;
  ape_status_code : option Z;
  ape_evidence : list string;
  ape_failure_source : option FailureSource;
}.
Definition provider_failure_type (c : ProviderErrorCode) : FailureType :=
  match c with
  | TIMEOUT => MODEL_TIMEOUT
  | PE_RATE_LIMIT => RATE_LIMIT
  | PE_TOKEN_BUDGET_EXHAUSTED => TOKEN_BUDGET_EXHAUSTED
  | PE_WORK_PACKAGE_BUDGET_ALLOCATION_BLOCKED => WORK_PACKAGE_BUDGET_ALLOCATION_BLOCKED
  | BAD_REQUEST | INVALID_REQUEST => PROVIDER_REQUEST_REJECTED
  | _ => TOOL_FAILURE
  end.
Definition to_failure_report (self : AgentProviderError) : result FailureReport :=
  FailureReport_new {|
    failure_type := provider_failure_type (ape_code self);
    source := match ape_failure_source self with
              | Some s => s
              | None => if decide (ape_code self = PE_WORK_PACKAGE_BUDGET_ALLOCATION_BLOCKED)
                        then RUNTIME else PROVIDER
              end;
    message := ape_message self;
    retryable := ape_retryable self;
    evidence := ["provider=" +:+ ape_provider self;
                 "code=" +:+ ProviderErrorCode_value (ape_code self)] ++ ape_evidence self
                ++ match ape_status_code self with
                   | Some c => ["status_code=" +:+ str_of_Z c]
                   | None => []
                   end;
  |}.

(** ** [verification/verifier.py]: [DeterministicVerifier.failure_reports] *)

(** [sub in s] *)
Fixpoint contains_chars (sub s : list ascii) : bool :=
  startswith sub s || match s with [] => false | _ :: s => contains_chars sub s end.
Definition contains (sub s : string) : bool := contains_chars (chars sub) (chars s).

Definition _failure_message (check : CheckResult) : string :=
  match cr_failure_type check with
  | Some SCOPE_VIOLATION =>
      if decide (cr_name check = "git_scope_post_verification")
      then "Verification commands produced out-of-scope repository changes."
      else "Git scope integrity check failed before deterministic verification."
  | Some TEST_FAILURE =>
      if decide (cr_name check = "custom") then "Deterministic custom verification failed."
      else "Deterministic pytest verification failed."
  | Some LINT_FAILURE => "Deterministic Ruff verification failed."
  | Some SANDBOX_TIMEOUT => "Docker verification sandbox exceeded its execution deadline."
  | Some VERIFICATION_ENV_UNAVAILABLE =>
      if contains "验证环境缺少 Node.js" (cr_stderr check)
      then "验证环境缺少 Node.js，无法执行当前 JavaScript 验证命令。"
      else if contains "验证环境缺少 Python" (cr_stderr check)
      then "验证环境缺少 Python，无法执行当前验证命令。"
      else "验证环境不可用，无法安全执行当前验证命令。"
  | _ => "Deterministic verification could not complete safely."
  end.

Definition check_evidence (check : CheckResult) : list string :=
  ["check=" +:+ cr_name check]
  ++ match cr_command check with
     | Some c => if bool_decide (c = "") then [] else ["command=" +:+ c]
     | None => []
     end
  ++ match cr_exit_code check with Some c => ["exit_code=" +:+ str_of_Z c] | None => [] end
  ++ match cr_execution_backend check with
     | Some b => ["execution_backend=" +:+ VerificationBackend_value b]
     | None => []
     end
  ++ ((λ detail, "execution=" +:+ detail) <$> cr_execution_details check)
  ++ (if negb (bool_decide (cr_stderr check = "")) then ["stderr=" +:+ cr_stderr check]
      else if negb (bool_decide (cr_stdout check = "")) then ["stdout=" +:+ cr_stdout check]
      else []).

Fixpoint check_failure_reports (checks : list CheckResult) : result (list FailureReport) :=
  match checks with
  | [] => Ok []
  | check :: checks =>
      match cr_passed check, cr_failure_type check with
      | false, Some t =>
          report ← FailureReport_new {|
            failure_type := t;
            source := VERIFICATION;
            message := _failure_message check;
            retryable := bool_decide (t = TEST_FAILURE ∨ t = LINT_FAILURE);
            evidence := check_evidence check;
          |};
          reports ← check_failure_reports checks;
          Ok (report :: reports)
      | _, _ => check_failure_reports checks
      end
  end.
Definition failure_reports (result : VerificationResult) : Prelude.result (list FailureReport) :=
  check_failure_reports (vr_checks result).

(** ** [runtime/failure_classifier.py] *)
Definition _REPAIRABLE_FAILURES : list FailureType := [TEST_FAILURE; LINT_FAILURE; REVIEW_REJECTED].

Definition from_verification := failure_reports.

Definition issue_evidence (index : nat) (issue : ReviewIssue) : string :=
  let location := match ri_file issue with
                  | Some f => if bool_decide (f = "") then "unknown" else f
                  | None => "unknown"
                  end in
  let location := match ri_line issue with
                  | Some n => location +:+ ":" +:+ str_of_Z n
                  | None => location
                  end in
  "issue_" +:+ str_of_Z (Z.of_nat index + 1) +:+ "=severity:"
  +:+ ReviewSeverity_value (ri_severity issue) +:+ ";location:" +:+ location +:+ ";message:"
  +:+ ri_message issue.

Definition from_review (decision : ReviewDecision) : result (list FailureReport) :=
  if decide (rd_decision decision = PASS) then Ok [] else
  report ← FailureReport_new {|
    failure_type := REVIEW_REJECTED;
    source := REVIEW;
    message := "Independent semantic review requested targeted changes.";
    retryable := true;
    evidence := ("review_summary=" +:+ rd_summary decision)
                :: imap issue_evidence (rd_issues decision);
  |};
  Ok [report].

Definition repairable (reports : list FailureReport) : list FailureReport :=
  if existsb (λ r, negb (retryable r) || bool_decide (failure_type r ∉ _REPAIRABLE_FAILURES)) reports
  then [] else reports.

(** [report.model_copy(update=...)] does not validate. *)
Definition terminalize (reports : list FailureReport) (max_retries : Z) : list FailureReport :=
  (λ r, {|
     failure_type := failure_type r;
     source := source r;
     message := message r +:+ " Repair retry budget was exhausted.";
     retryable := false;
     evidence := evidence r ++ ["repair_attempts_exhausted=" +:+ str_of_Z max_retries];
   |}) <$> reports.
