(* ===== verification/RepairText.v ===== *)
(** * RepairText: the text computations of the single-task orchestrator

    The pure helpers of [SingleTaskOrchestrator] ([runtime/orchestrator.py])
    that read or write failure text: [_normalize_failure_text] (a regular
    expression substitution and a whitespace split), [_failure_signature]
    (a hash of the failures that ignores their order, their addresses and
    their white space), [_repair_failure_hint] (a regular expression search),
    and the [:g] format of the Developer limits. *)
From Stdlib Require Import QArith.
From stdpp Require Import options.
From S2P Require Import Prelude Contracts Json RunModels.
Open Scope Z_scope.

(** The newline separator. *)
Definition nl : string := of_chars [ascii_of_nat 10].

(** ** [_normalize_failure_text] *)

(** [re.sub(r"0x[0-9a-fA-F]+", "0x<address>", value)], one character at a
    time: copying, at the ["x"] of an address, or among its digits. *)
Inductive sub_mode : Set := Copying | AtX | InDigits.
Definition starts_address (l : list ascii) : bool :=
  match l with
  | "0"%char :: "x"%char :: h :: _ => is_any_hex h
  | _ => false
  end.
Fixpoint sub_addresses (m : sub_mode) (l : list ascii) : list ascii :=
  match l with
  | [] => []
  | c :: l' =>
      let copy := if starts_address l then chars "0x<address>" ++ sub_addresses AtX l'
                  else c :: sub_addresses Copying l' in
      match m with
      | Copying => copy
      | AtX => sub_addresses InDigits l'
      | InDigits => if is_any_hex c then sub_addresses InDigits l' else copy
      end
  end.

(** [value.split()]: [cur] is the word being read, reversed. *)
Fixpoint split_ws (cur l : list ascii) : list (list ascii) :=
  let flush := match cur with [] => [] | _ => [reverse cur] end in
  match l with
  | [] => flush
  | c :: l => if is_py_space c then flush ++ split_ws [] l else split_ws (c :: cur) l
  end.

Definition _normalize_failure_text (value : string) : string :=
  let without_addresses := sub_addresses Copying (chars value) in
  join " " (of_chars <$> split_ws [] without_addresses).

(** ** [_failure_signature] *)
Section signature.
Context (sha256 : string → string).

Definition normalized_failure (failure : FailureReport) : string :=
  join nl [FailureType_value (failure_type failure);
           FailureSource_value (source failure);
           _normalize_failure_text (message failure);
           join nl (_normalize_failure_text <$> evidence failure)].

Definition _failure_signature (failures : list FailureReport) : string :=
  sha256 (encode_utf8 (join (nl +:+ nl) (sorted_strings (normalized_failure <$> failures)))).
End signature.

(** ** [_repair_failure_hint] *)
Definition is_quote (c : ascii) : bool :=
  ((nat_of_ascii c =? 39) || (nat_of_ascii c =? 34))%nat.
Definition is_module_char (c : ascii) : bool := is_ident_char c || bool_decide (c = ".")%char.

Fixpoint strip_prefix (p l : list ascii) : option (list ascii) :=
  match p, l with
  | [], _ => Some l
  | c :: p, d :: l => if decide (c = d) then strip_prefix p l else None
  | _, [] => None
  end.
Definition one_char (ok : ascii → bool) (l : list ascii) : option (list ascii) :=
  match l with c :: l => if ok c then Some l else None | [] => None end.
Fixpoint span_chars (ok : ascii → bool) (l : list ascii) : list ascii * list ascii :=
  match l with
  | c :: l' => if ok c then let '(a, b) := span_chars ok l' in (c :: a, b) else ([], l)
  | [] => ([], [])
  end.
(** A quoted name: a quote, a first character, the rest, a quote. *)
Definition quoted_name (ok : ascii → bool) (l : list ascii) : option (string * list ascii) :=
  l ← one_char is_quote l;
  _ ← one_char is_ident_start l;
  let '(name, l) := span_chars ok l in
  l ← one_char is_quote l;
  Some (of_chars name, l).

(** The pattern at the head of the text. *)
Definition match_import_error (l : list ascii) : option (string * string) :=
  l ← strip_prefix (chars "ImportError:") l;
  l ← strip_prefix (chars "cannot import name ") (drop_spaces l);
  '(symbol, l) ← quoted_name is_ident_char l;
  l ← one_char is_py_space l;
  l ← strip_prefix (chars "from") (drop_spaces l);
  l ← one_char is_py_space l;
  '(module, _) ← quoted_name is_module_char (drop_spaces l);
  Some (symbol, module).

(** [re.search]: the leftmost match. *)
Fixpoint search_import_error (l : list ascii) : option (string * string) :=
  match match_import_error l with
  | Some r => Some r
  | None => match l with [] => None | _ :: l => search_import_error l end
  end.

(** [s.replace(".", "/")] *)
Definition dots_to_slashes (s : string) : string :=
  of_chars ((λ c, if decide (c = "."%char) then "/"%char else c) <$> chars s).

Definition _repair_failure_hint (failures : list FailureReport)
    : option RepairFailureKind * option string * option string :=
  let flattened := join nl (mjoin ((λ f, message f :: evidence f) <$> failures)) in
  match search_import_error (chars flattened) with
  | None => (None, None, None)
  | Some (symbol, module) =>
      (Some IMPORT_SYMBOL_MISSING, Some (dots_to_slashes module +:+ ".py"), Some symbol)
  end.

(** ** [f"{value:g}"] for a float between 1 and 999999: six significant
    digits without trailing zeros. *)
Fixpoint drop_zeros (l : list ascii) : list ascii :=
  match l with
  | c :: l' => if decide (c = "0"%char) then drop_zeros l' else l
  | [] => []
  end.
Definition format_g (q : Q) : string :=
  let decimals := (6 - str_len (str_of_Z (Qnum q / Zpos (Qden q))))%nat in
  let scale := 10 ^ Z.of_nat decimals in
  let scaled := round_half_even (Qnum q * scale) (Qden q) in
  let fraction := reverse (drop_zeros (reverse (padded decimals (scaled mod scale)))) in
  str_of_Z (scaled / scale)
  +:+ match fraction with [] => "" | _ => of_chars ("."%char :: fraction) end.

Example format_g_examples :
  format_g 120 = "120" ∧ format_g (3 # 2) = "1.5" ∧ format_g (1 # 1) = "1"
  ∧ format_g (1234567 # 10000) = "123.457" ∧ format_g (99999996 # 10000000) = "10".
Proof. by_compute. Qed.

Example normalize_failure_text_example :
  _normalize_failure_text "  at 0xDEADbeef1z   0x <obj 0x1>" = "at 0x<address>z 0x <obj 0x<address>>".
Proof. by_compute. Qed.

Definition import_error_report : FailureReport := {|
  failure_type := TEST_FAILURE; source := VERIFICATION; message := "pytest failed";
  retryable := true;
  evidence := ["stderr=ImportError:  cannot import name 'load_v2' from 'app.core.cfg'"];
|}.
Example repair_failure_hint_example :
  _repair_failure_hint [import_error_report]
  = (Some IMPORT_SYMBOL_MISSING, Some "app/core/cfg.py", Some "load_v2").
Proof. vm_compute. reflexivity. Qed.

(** ** Normalisation is a projection *)

(** No address is left in the text. *)
Fixpoint clean (l : list ascii) : bool :=
  match l with [] => true | _ :: l' => negb (starts_address l) && clean l' end.

Lemma starts_address_spec l :
  starts_address l = true ↔
  ∃ h r, l = "0"%char :: "x"%char :: h :: r ∧ is_any_hex h = true.
Proof.
  split.
  - intros H. destruct l as [|c [|d [|h r]]]; try (cbn in H; repeat case_match; done).
    cbn in H. repeat (case_match; try done). by exists h, r.
  - by intros (h & r & -> & H).
Qed.

Lemma starts_address_app a b : starts_address a = true → starts_address (a ++ b) = true.
Proof.
  rewrite !starts_address_spec. intros (h & r & -> & H). by exists h, (r ++ b).
Qed.

Lemma clean_app a b : clean (a ++ b) = true → clean a = true ∧ clean b = true.
Proof.
  induction a as [|c a IH]; [done|]. cbn -[starts_address]. intros H. to_prop.
  destruct IH as [IHa IHb]; [done|]. split; [|done].
  destruct (starts_address (c :: a)) eqn:Hs; [|done].
  apply (starts_address_app _ b) in Hs. cbn [app] in Hs. congruence.
Qed.

Lemma clean_join a c b :
  is_any_hex c = false → c ≠ "x"%char →
  clean a = true → clean b = true → clean (a ++ c :: b) = true.
Proof.
  intros Hc Hx. induction a as [|d a IH]; intros Ha Hb.
  - cbn -[starts_address]. rewrite Hb, andb_true_r, negb_true_iff.
    apply not_true_iff_false. rewrite starts_address_spec. intros (h & r & [= -> _] & _). done.
  - cbn -[starts_address] in *. to_prop. rewrite IH, andb_true_r, negb_true_iff by done.
    apply not_true_iff_false. rewrite starts_address_spec.
    intros (h & r & [= -> He] & Hh). destruct a as [|e [|f a]]; cbn in He.
    + by injection He as -> _.
    + injection He as -> -> _. congruence.
    + injection He as -> -> _. cbn in H. by rewrite Hh in H.
Qed.

(** The substitution keeps the first character. *)
Lemma head_sub_addresses l : head (sub_addresses Copying l) = head l.
Proof.
  destruct l as [|c l]; [done|]. cbn -[starts_address chars].
  destruct (starts_address (c :: l)) eqn:Hs; [|done].
  by apply starts_address_spec in Hs as (h & r & [= -> _] & _).
Qed.

Lemma sub_addresses_keeps c l :
  starts_address (c :: l) = false → starts_address (c :: sub_addresses Copying l) = false.
Proof.
  intros H. apply not_true_iff_false. rewrite starts_address_spec.
  intros (h & r & [= -> Hl] & Hh).
  pose proof (head_sub_addresses l) as Hx. rewrite Hl in Hx. destruct l as [|x l]; [done|].
  cbn in Hx. injection Hx as <-.
  assert (sub_addresses Copying ("x"%char :: l) = "x"%char :: sub_addresses Copying l) as E by done.
  rewrite E in Hl. injection Hl as Hl.
  pose proof (head_sub_addresses l) as Hy. rewrite Hl in Hy. destruct l as [|y l]; [done|].
  cbn in Hy. injection Hy as <-. cbn in H. congruence.
Qed.

Lemma clean_sub_addresses m l : clean (sub_addresses m l) = true.
Proof.
  revert m. induction l as [|c l IH]; intros m; [done|].
  assert (clean (if starts_address (c :: l)
                 then chars "0x<address>" ++ sub_addresses AtX l
                 else c :: sub_addresses Copying l) = true) as Hcopy.
  { destruct (starts_address (c :: l)) eqn:Hs.
    - change (chars "0x<address>") with (chars "0x<address" ++ [">"%char]).
      rewrite <- app_assoc. cbn [app]. by apply clean_join.
    - cbn -[starts_address]. by rewrite sub_addresses_keeps, IH. }
  destruct m; cbn -[starts_address chars]; [done|done|]. by destruct (is_any_hex c).
Qed.

Lemma sub_addresses_clean l : clean l = true → sub_addresses Copying l = l.
Proof.
  induction l as [|c l IH]; [done|]. cbn -[starts_address chars]. intros H. to_prop.
  rewrite H. by rewrite IH.
Qed.

(** Words are non-empty and hold no white space. *)
Definition word (w : list ascii) : Prop := w ≠ [] ∧ Forall (λ c, is_py_space c = false) w.

Lemma split_ws_words cur l :
  Forall (λ c, is_py_space c = false) cur → clean (reverse cur ++ l) = true →
  Forall (λ w, word w ∧ clean w = true) (split_ws cur l).
Proof.
  assert (∀ c cur, Forall (λ c, is_py_space c = false) (c :: cur) → word (reverse (c :: cur))) as Hw.
  { intros c k Hk. split; [|by apply Forall_reverse].
    intros E. by apply (f_equal length) in E; rewrite length_reverse in E. }
  revert cur. induction l as [|c l IH]; intros cur Hcur Hclean; cbn.
  - rewrite app_nil_r in Hclean. destruct cur; repeat constructor; auto; by apply Hw.
  - destruct (is_py_space c) eqn:Hc.
    + apply Forall_app. split.
      * apply clean_app in Hclean as [? _]. destruct cur; repeat constructor; auto; by apply Hw.
      * apply IH; [done|]. by apply clean_app in Hclean as [_ [_ ?]%(clean_app [c])].
    + apply IH; [by constructor|]. rewrite reverse_cons, <- app_assoc. done.
Qed.

Lemma split_ws_word cur w :
  Forall (λ c, is_py_space c = false) w →
  ∀ r, split_ws cur (w ++ r) = split_ws (reverse w ++ cur) r.
Proof.
  intros Hw r. revert cur. induction Hw as [|c w Hc Hw IH]; intros cur; [done|].
  rewrite reverse_cons, <- app_assoc. cbn [app split_ws]. rewrite Hc. apply IH.
Qed.

Lemma join_cons sep w ws : ws ≠ [] → join sep (w :: ws) = w +:+ sep +:+ join sep ws.
Proof. by destruct ws. Qed.

Lemma split_join_words ws :
  Forall (λ w, word w ∧ clean w = true) ws →
  split_ws [] (chars (join " " (of_chars <$> ws))) = ws
  ∧ clean (chars (join " " (of_chars <$> ws))) = true.
Proof.
  induction 1 as [|w ws [[Hne Hw] Hc] Hws [IH1 IH2]]; [done|].
  assert (∀ r, split_ws [] (w ++ r) = split_ws (reverse w) r) as Hsw.
  { intros r. by rewrite split_ws_word, app_nil_r. }
  assert (∀ A (a b : A), match reverse w with [] => a | _ => b end = b) as Hrw.
  { intros A a b. destruct (reverse w) eqn:E; [|done].
    apply (f_equal reverse) in E. rewrite reverse_involutive in E. done. }
  destruct ws as [|w' ws'].
  - cbn [fmap list_fmap join]. rewrite chars_of_chars. split; [|done].
    rewrite <- (app_nil_r w) at 1. rewrite Hsw. cbn. by rewrite Hrw, reverse_involutive.
  - rewrite fmap_cons, join_cons by done. rewrite !chars_app, chars_of_chars.
    change (chars " ") with [" "%char]. cbn [app].
    generalize dependent (chars (join " " (of_chars <$> w' :: ws'))). intros t IH1 IH2. split; [|by apply clean_join].
    rewrite Hsw. cbn. rewrite Hrw, reverse_involutive. cbn. by rewrite IH1.
Qed.

Lemma normalize_idemp s :
  _normalize_failure_text (_normalize_failure_text s) = _normalize_failure_text s.
Proof.
  unfold _normalize_failure_text at 1.
  pose proof (split_ws_words [] (sub_addresses Copying (chars s)) ltac:(done)
    (clean_sub_addresses _ _)) as Hw.
  destruct (split_join_words _ Hw) as [H1 H2].
  unfold _normalize_failure_text. by rewrite (sub_addresses_clean _ H2), H1.
Qed.

(** Normalising failure text is a projection: the addresses it replaces
    never read as addresses again, and white space collapses to the single
    spaces that normalisation keeps. *)
Theorem normalize_failure_text_idempotent s :
  _normalize_failure_text (_normalize_failure_text s) = _normalize_failure_text s.
Proof. apply normalize_idemp. Qed.

(** A report whose texts were normalised beforehand. *)
Definition normalized_report (f : FailureReport) : FailureReport := {|
  failure_type := failure_type f; source := source f;
  message := _normalize_failure_text (message f); retryable := retryable f;
  evidence := _normalize_failure_text <$> evidence f;
|}.

Lemma normalize_normalized f : normalized_failure (normalized_report f) = normalized_failure f.
Proof.
  unfold normalized_failure, normalized_report. cbn [message evidence failure_type source].
  rewrite normalize_idemp, <- list_fmap_compose. do 4 f_equal. f_equal. f_equal.
  apply list_fmap_ext. intros i s _. apply normalize_idemp.
Qed.

(** The failure signature that decides whether a repair was ineffective
    depends neither on the order of the failures, nor on memory addresses
    and white space, nor on the retry flag: reports in any order, with their
    texts normalised or not, have the same signature. *)
Theorem failure_signature_stable sha256 (fs gs : list FailureReport) :
  gs ≡ₚ normalized_report <$> fs →
  _failure_signature sha256 gs = _failure_signature sha256 fs.
Proof.
  intros Hp. unfold _failure_signature. do 3 f_equal.
  rewrite (sorted_strings_proper _ (normalized_failure <$> (normalized_report <$> fs))).
  - rewrite <- list_fmap_compose. f_equal. apply list_fmap_ext.
    intros i f _. apply normalize_normalized.
  - by apply fmap_Permutation.
Qed.

(** ** The regular expression of the repair hint *)

(** What the pattern matches at the head of a text. *)
Definition import_error_text (l : list ascii) (symbol module : string) : Prop :=
  ∃ ws1 q1 q2 s1 ws2 s2 ws3 q3 q4 rest,
    l = chars "ImportError:" ++ ws1 ++ chars "cannot import name " ++ q1 :: chars symbol
        ++ q2 :: (s1 :: ws2) ++ chars "from" ++ (s2 :: ws3) ++ q3 :: chars module ++ q4 :: rest
    ∧ Forall is_py_space (ws1 ++ s1 :: ws2 ++ s2 :: ws3)
    ∧ Forall is_quote [q1; q2; q3; q4]
    ∧ is_identifier symbol = true
    ∧ (∃ c name, chars module = c :: name ∧ is_ident_start c = true ∧ forallb is_module_char name = true).

Lemma strip_prefix_spec p l r : strip_prefix p l = Some r ↔ l = p ++ r.
Proof.
  revert l. induction p as [|c p IH]; intros l; cbn; [split; [by intros [= ->]|by intros ->]|].
  destruct l as [|d l]; [done|]. destruct (decide (c = d)) as [->|Hne].
  - rewrite IH. split; [by intros ->|by intros [= ->]].
  - split; [done|]. by intros [= ->].
Qed.

Lemma one_char_spec ok l r : one_char ok l = Some r ↔ ∃ c, l = c :: r ∧ ok c = true.
Proof.
  destruct l as [|c l]; cbn; [split; [done|by intros (? & ? & ?)]|].
  destruct (ok c) eqn:Hc.
  - split; [intros [= ->]; eauto|]. by intros (? & [= -> ->] & _).
  - split; [done|]. intros (? & [= -> ->] & ?). congruence.
Qed.

Lemma span_chars_spec ok l a b :
  span_chars ok l = (a, b) ↔
  l = a ++ b ∧ forallb ok a = true ∧ match b with c :: _ => ok c = false | [] => True end.
Proof.
  revert a b. induction l as [|c l IH]; intros a b; cbn.
  - split; [by intros [= <- <-]|]. intros (H & _). symmetry in H.
    by apply app_eq_nil in H as [-> ->].
  - destruct (ok c) eqn:Hc.
    + destruct (span_chars ok l) as [a' b'] eqn:Hs. split.
      * intros [= <- <-]. destruct (proj1 (IH a' b') eq_refl) as (-> & Ha & Hb).
        cbn. by rewrite Hc, Ha.
      * intros (Hl & Ha & Hb). destruct a as [|d a]; cbn in Hl.
        { rewrite <- Hl in Hb. congruence. }
        injection Hl as -> Hl. cbn in Ha. to_prop.
        pose proof (proj2 (IH a b) (conj Hl (conj H0 Hb))) as E. injection E as -> ->. done.
    + split.
      * intros [= <- <-]. done.
      * intros (Hl & Ha & Hb). destruct a as [|d a]; cbn in Hl; [by rewrite <- Hl|].
        injection Hl as -> Hl. cbn in Ha. to_prop. congruence.
Qed.

Lemma drop_spaces_spec l r :
  drop_spaces l = r ↔
  ∃ ws, l = ws ++ r ∧ Forall is_py_space ws ∧ match r with c :: _ => is_py_space c = false | [] => True end.
Proof.
  split.
  - intros <-. induction l as [|c l (ws & Hl & Hws & Hr)]; [by exists []|]. cbn.
    destruct (is_py_space c) eqn:Hc; [|by exists []].
    exists (c :: ws). split; [cbn; by rewrite Hl at 1|]. split; [|done]. constructor; [|done].
    by rewrite Hc.
  - intros (ws & -> & Hws & Hr). induction Hws as [|c ws Hc _ IH]; [by apply drop_spaces_fixed|].
    cbn. destruct (is_py_space c); [done|by destruct Hc].
Qed.

Lemma quoted_name_spec ok l name r :
  (∀ c, is_ident_start c = true → ok c = true) → (∀ c, is_quote c = true → ok c = false) →
  quoted_name ok l = Some (name, r) ↔
  ∃ q q' c n, l = q :: chars name ++ q' :: r ∧ is_quote q = true ∧ is_quote q' = true
    ∧ chars name = c :: n ∧ is_ident_start c = true ∧ forallb ok n = true.
Proof.
  intros Hstart Hquote. unfold quoted_name. split.
  - intros H. apply bind_Some in H as (l1 & H1 & H). apply bind_Some in H as (l2 & H2 & H).
    apply one_char_spec in H1 as (q & -> & Hq), H2 as (c & -> & Hc).
    destruct (span_chars ok (c :: l2)) as [a b] eqn:Hs.
    apply bind_Some in H as (l3 & H3 & [= <- <-]). apply one_char_spec in H3 as (q' & -> & Hq').
    apply span_chars_spec in Hs as (Hl & Ha & Hb).
    destruct a as [|d a]; cbn in Hl.
    { injection Hl as -> _. by rewrite (Hstart _ Hc) in Hb. }
    injection Hl as -> ->. cbn in Ha. to_prop.
    exists q, q', d, a. by rewrite chars_of_chars.
  - intros (q & q' & c & n & -> & Hq & Hq' & Hn & Hc & Hok).
    rewrite (proj2 (one_char_spec is_quote (q :: chars name ++ q' :: r) (chars name ++ q' :: r)))
      by eauto. cbn [mbind option_bind].
    rewrite Hn. cbn [app].
    rewrite (proj2 (one_char_spec is_ident_start (c :: n ++ q' :: r) (n ++ q' :: r))) by eauto.
    cbn [mbind option_bind].
    rewrite (proj2 (span_chars_spec ok (c :: n ++ q' :: r) (c :: n) (q' :: r))).
    + rewrite (proj2 (one_char_spec is_quote (q' :: r) r)) by eauto. cbn [mbind option_bind].
      by rewrite <- Hn, of_chars_chars.
    + split; [done|]. split; [|auto]. cbn. by rewrite (Hstart _ Hc), Hok.
Qed.

Lemma ident_start_char c : is_ident_start c = true → is_ident_char c = true.
Proof. unfold is_ident_char. by intros ->. Qed.
Lemma ident_start_module_char c : is_ident_start c = true → is_module_char c = true.
Proof. intros H. unfold is_module_char. by rewrite ident_start_char. Qed.
Lemma quote_inv c : is_quote c = true → c = ascii_of_nat 39 ∨ c = ascii_of_nat 34.
Proof.
  unfold is_quote. intros [H|H]%orb_true_iff; apply Nat.eqb_eq in H;
    rewrite <- (Stdlib.Strings.Ascii.ascii_nat_embedding c), H; auto.
Qed.
Lemma quote_not_ident c : is_quote c = true → is_ident_char c = false.
Proof. by intros [-> | ->]%quote_inv. Qed.
Lemma quote_not_module c : is_quote c = true → is_module_char c = false.
Proof. by intros [-> | ->]%quote_inv. Qed.
Lemma quote_not_space c : is_quote c = true → is_py_space c = false.
Proof. by intros [-> | ->]%quote_inv. Qed.

Lemma is_identifier_spec s :
  is_identifier s = true ↔
  ∃ c n, chars s = c :: n ∧ is_ident_start c = true ∧ forallb is_ident_char n = true.
Proof.
  unfold is_identifier. destruct (chars s) as [|c n]; split.
  - done.
  - by intros (? & ? & ? & _).
  - intros H. to_prop. by exists c, n.
  - intros (? & ? & [= <- <-] & -> & ->). done.
Qed.

(** The recogniser decides the pattern, and its groups are determined. *)
Lemma match_import_error_spec l symbol module :
  match_import_error l = Some (symbol, module) ↔ import_error_text l symbol module.
Proof.
  unfold match_import_error. split.
  - intros H.
    apply bind_Some in H as (l1 & H1 & H). apply bind_Some in H as (l2 & H2 & H).
    apply bind_Some in H as ([sym l3] & H3 & H). apply bind_Some in H as (l4 & H4 & H).
    apply bind_Some in H as (l5 & H5 & H). apply bind_Some in H as (l6 & H6 & H).
    apply bind_Some in H as ([md l7] & H7 & [= -> ->]).
    apply strip_prefix_spec in H1 as ->, H2, H5.
    apply drop_spaces_spec in H2 as (ws1 & -> & Hws1 & _), H5 as (ws2 & -> & Hws2 & _).
    apply quoted_name_spec in H3 as (q1 & q2 & c & n & -> & Hq1 & Hq2 & Hs);
      [|apply ident_start_char|apply quote_not_ident].
    apply quoted_name_spec in H7 as (q3 & q4 & c' & n' & H7 & Hq3 & Hq4 & Hm);
      [|apply ident_start_module_char|apply quote_not_module].
    apply drop_spaces_spec in H7 as (ws3 & -> & Hws3 & _).
    apply one_char_spec in H4 as (s1 & -> & Hs1), H6 as (s2 & -> & Hs2).
    exists ws1, q1, q2, s1, ws2, s2, ws3, q3, q4, l7. split; [done|].
    rewrite is_identifier_spec. split.
    { rewrite Forall_app, Forall_cons, Forall_app, Forall_cons.
      by rewrite Hs1, Hs2. }
    split; [by rewrite !Forall_cons, Hq1, Hq2, Hq3, Hq4|]. split; eauto.
  - intros (ws1 & q1 & q2 & s1 & ws2 & s2 & ws3 & q3 & q4 & rest & -> & Hws & Hq & Hs & Hm).
    rewrite Forall_app, Forall_cons, Forall_app, Forall_cons in Hws.
    destruct Hws as (Hws1 & Hs1 & Hws2 & Hs2 & Hws3).
    rewrite !Forall_cons in Hq. destruct Hq as (Hq1 & Hq2 & Hq3 & Hq4 & _).
    apply Is_true_true in Hs1, Hs2, Hq1, Hq2, Hq3, Hq4.
    apply is_identifier_spec in Hs as (c & n & Hsym). destruct Hm as (c' & n' & Hmod).
    rewrite (proj2 (strip_prefix_spec _ _ _)) by done. cbn [mbind option_bind].
    erewrite (proj2 (drop_spaces_spec _ _)) by (exists ws1; split; [done|]; split; [done|]; reflexivity).
    rewrite (proj2 (strip_prefix_spec _ _ _)) by done. cbn [mbind option_bind].
    erewrite (proj2 (quoted_name_spec is_ident_char _ symbol _ ident_start_char quote_not_ident))
      by (exists q1, q2, c, n; by destruct Hsym).
    cbn [mbind option_bind app].
    erewrite (proj2 (one_char_spec _ _ _)) by eauto. cbn [mbind option_bind].
    erewrite (proj2 (drop_spaces_spec _ _)) by (exists ws2; split; [done|]; split; [done|]; reflexivity).
    rewrite (proj2 (strip_prefix_spec _ _ _)) by done. cbn [mbind option_bind].
    erewrite (proj2 (one_char_spec _ _ _)) by eauto. cbn [mbind option_bind].
    erewrite (proj2 (drop_spaces_spec _ _))
      by (exists ws3; split; [done|]; split; [done|]; by apply quote_not_space).
    erewrite (proj2 (quoted_name_spec is_module_char _ module _ ident_start_module_char quote_not_module))
      by (exists q3, q4, c', n'; by destruct Hmod).
    done.
Qed.

Lemma search_import_error_spec l :
  match search_import_error l with
  | Some (symbol, module) => ∃ pre suf, l = pre ++ suf ∧ import_error_text suf symbol module
      ∧ ∀ pre' suf' s m, l = pre' ++ suf' → (length pre' < length pre)%nat →
          ¬ import_error_text suf' s m
  | None => ∀ pre suf s m, l = pre ++ suf → ¬ import_error_text suf s m
  end.
Proof.
  assert (∀ l, match_import_error l = None → ∀ s m, ¬ import_error_text l s m) as Hnone.
  { intros k Hk s m Ht%match_import_error_spec. congruence. }
  induction l as [|c l IH]; cbn [search_import_error].
  - change (match_import_error []) with (@None (string * string)).
    intros pre suf s m Hnil. symmetry in Hnil. apply app_eq_nil in Hnil as [_ ->].
    by apply Hnone.
  - destruct (match_import_error (c :: l)) as [[s m]|] eqn:Hm.
    { exists [], (c :: l). split; [done|]. split; [by apply match_import_error_spec|].
      cbn. lia. }
    destruct (search_import_error l) as [[s m]|].
    + destruct IH as (pre & suf & -> & Ht & Hleft). exists (c :: pre), suf.
      split; [done|]. split; [done|]. intros pre' suf' s' m' Heq Hlt.
      destruct pre' as [|c' pre']; cbn in Heq; [subst suf'; by apply Hnone|].
      injection Heq as -> Heq. eapply Hleft; [done|]. cbn in Hlt. lia.
    + intros pre suf s m Heq. destruct pre as [|c' pre]; cbn in Heq; [subst suf; by apply Hnone|].
      injection Heq as -> Heq. by eapply IH.
Qed.

(** The text the hint is searched in. *)
Definition failure_text (failures : list FailureReport) : list ascii :=
  chars (join nl (mjoin ((λ f, message f :: evidence f) <$> failures))).

(** The repair hint is decided by the leftmost occurrence of
    "ImportError: cannot import name 'symbol' from 'module'" in the messages
    and the evidence: when there is one, the handoff names its symbol (a
    Python identifier) and the module's file; when there is none, the handoff
    has no hint. *)
Theorem repair_failure_hint_correct (failures : list FailureReport) :
  (∃ pre suf symbol module,
     failure_text failures = pre ++ suf ∧ import_error_text suf symbol module
     ∧ (∀ pre' suf' s m, failure_text failures = pre' ++ suf' →
          (length pre' < length pre)%nat → ¬ import_error_text suf' s m)
     ∧ is_identifier symbol = true
     ∧ _repair_failure_hint failures
       = (Some IMPORT_SYMBOL_MISSING, Some (dots_to_slashes module +:+ ".py"), Some symbol))
  ∨ ((∀ pre suf symbol module, failure_text failures = pre ++ suf →
        ¬ import_error_text suf symbol module)
     ∧ _repair_failure_hint failures = (None, None, None)).
Proof.
  unfold _repair_failure_hint. fold (failure_text failures).
  pose proof (search_import_error_spec (failure_text failures)) as H.
  destruct (search_import_error _) as [[symbol module]|]; [left|by right].
  destruct H as (pre & suf & Heq & Ht & Hleft). exists pre, suf, symbol, module.
  split; [done|]. split; [done|]. split; [done|]. split; [|done].
  by destruct Ht as (? & ? & ? & ? & ? & ? & ? & ? & ? & ? & _ & _ & _ & ? & _).
Qed.

(** Two reports in the other order, with another address and other spaces. *)
Definition sample_reports : list FailureReport := [
  import_error_report;
  {| failure_type := LINT_FAILURE; source := VERIFICATION; message := "ruff  at 0xA1";
     retryable := true; evidence := ["E501 "] |}].
Lemma failure_signature_stable_witness :
  _failure_signature (λ s, s) (reverse (normalized_report <$> sample_reports))
  = _failure_signature (λ s, s) sample_reports.
Proof.
  apply (failure_signature_stable (λ s, s) sample_reports). apply reverse_Permutation.
Defined.
