(* ===== verification/Orchestrator.v ===== *)
(** * Orchestrator: the evidence-driven loop of one task

    [runtime/state_machine.py] and [runtime/orchestrator.py].  The agents,
    the verifier, the context builder and the workspace are the operations of
    the class [Components] over a world they may change; the orchestrator's
    own state is the state machine, the evidence lists, and the latest
    context packet.  [run] is modelled without a trace collector (which only
    observes), and with a repair agent that takes the handoff. *)
From Stdlib Require Import QArith.
From stdpp Require Import options.
From S2P Require Import Prelude Contracts Json RunModels RepairText.
Open Scope Z_scope.

(** ** [runtime/state_machine.py] *)
Definition _ALLOWED_TRANSITIONS (s : TaskRunState) : list TaskRunState :=
  match s with
  | RUN_PENDING => [RUN_RUNNING; RUN_FAILED]
  | RUN_RUNNING => [RUN_VERIFYING; RUN_FAILED]
  | RUN_VERIFYING => [RUN_REVIEWING; RUN_REPAIRING; RUN_FAILED]
  | RUN_REVIEWING => [RUN_SUCCEEDED; RUN_REPAIRING; RUN_FAILED]
  | RUN_REPAIRING => [RUN_REPAIRING; RUN_VERIFYING; RUN_FAILED]
  | RUN_SUCCEEDED => []
  | RUN_FAILED => []
  end.

Record TaskStateMachine : Set := {
  _state : TaskRunState;
  _events : list RunEvent;
}.
Definition TaskStateMachine_init : TaskStateMachine := {|
  _state := RUN_PENDING;
  _events := [{| re_sequence := 0; re_state := RUN_PENDING; re_detail := "Task run created." |}];
|}.

(** ** The components of a run

    An exception of a component: a plain one, or one of the three whose
    payload the orchestrator reads. *)
Inductive component_exn : Set :=
  | PlainExn (x : exn)
  | AgentProviderExn (e : AgentProviderError)
  | InvalidReviewerOutputExn (failure : FailureReport)
  | RepairBudgetExhaustedExn (failures : list FailureReport).
(** What a caller of [run] sees when the orchestrator does not catch it. *)
Definition escaping (x : component_exn) : exn :=
  match x with
  | PlainExn x => x
  | AgentProviderExn e => Exn ProviderError (ape_message e)
  | InvalidReviewerOutputExn f => Exn ReviewerOutputError (message f)
  | RepairBudgetExhaustedExn _ => Exn RepairBudgetError "repair retry budget was exhausted"
  end.

Class Components := {
  World : Type;
  (** [ContextPacket]: the orchestrator reads three of its fields *)
  ContextPacket : Type;
  cp_summary_version : ContextPacket → string;
  cp_repository_head : ContextPacket → string;
  cp_selected_files : ContextPacket → list (string * string);
  (** [ContextPacketBuilder.build] *)
  build : TaskContract → option ContextContinuationState → World →
          (component_exn + ContextPacket) * World;
  (** [DeveloperAgent.run] *)
  develop : TaskContract → ContextPacket → World → (component_exn + DeveloperRunResult) * World;
  (** [DeterministicVerifier.verify] *)
  verify : TaskContract → World → (component_exn + VerificationResult) * World;
  (** [ReviewerAgent.review] *)
  review : TaskContract → VerificationResult → ContextPacket → World →
           (component_exn + ReviewDecision) * World;
  (** [RepairAgent.repair] *)
  repair : TaskContract → list FailureReport → Z → RepairHandoff → World →
           (component_exn + RepairRunResult) * World;
  (** [LocalGitWorkspace]: reads of the worktree *)
  changed_files : World → result (list string);
  head_commit : World → result string;
  change_snapshot : World → result WorkspaceChangeSnapshot;
  (** [hashlib.sha256(...).hexdigest()] *)
  sha256 : string → string;
}.

(** [SingleTaskOrchestrator.__init__] *)
Record SingleTaskOrchestrator : Set := {
  _minimum_repair_attempts : Z;
  _models : list (AgentRole * string);
}.
Definition _normalize_model (value role : string) : result string :=
  let normalized := strip value in
  check (negb (bool_decide (normalized = ""))) ValueError (role +:+ " model must not be empty") ;;
  Ok normalized.
Definition SingleTaskOrchestrator_init (developer_model reviewer_model repair_model : string)
    (minimum_repair_attempts : Z) : result SingleTaskOrchestrator :=
  check ((0 <=? minimum_repair_attempts) && (minimum_repair_attempts <=? 5)) ValueError
    "minimum_repair_attempts must be between 0 and 5" ;;
  developer ← _normalize_model developer_model "developer";
  reviewer ← _normalize_model reviewer_model "reviewer";
  repair ← _normalize_model repair_model "repair";
  Ok {| _minimum_repair_attempts := minimum_repair_attempts;
        _models := [(ROLE_DEVELOPER, developer); (ROLE_REVIEWER, reviewer);
                    (ROLE_REPAIR, repair)] |}.
(** [self._models[role]] *)
Definition model_of (self : SingleTaskOrchestrator) (role : AgentRole) : result string :=
  of_option (Exn KeyError "agent role") (snd <$> find (λ m, bool_decide (m.1 = role)) (_models self)).

(** ** Failure reports the orchestrator writes itself *)
Definition _runtime_failure (message : string) (evidence : list string) : result FailureReport :=
  FailureReport_new {| failure_type := TOOL_FAILURE; source := RUNTIME; message := message;
                       retryable := false; evidence := evidence |}.
Definition _empty_failure_evidence : result FailureReport :=
  _runtime_failure "Verification failed without structured failure evidence." [].
(** [stage.capitalize()] of the two stages the code names. *)
Inductive context_stage : Set := StageDeveloper | StageReviewer.
Definition capitalized (stage : context_stage) : string :=
  match stage with StageDeveloper => "Developer" | StageReviewer => "Reviewer" end.
Definition _context_failure (exc : string) (stage : context_stage) : result FailureReport :=
  FailureReport_new {|
    failure_type := TOOL_FAILURE; source := RUNTIME;
    message := capitalized stage +:+ " ContextPacket construction failed.";
    retryable := false; evidence := ["context_error=" +:+ exc] |}.

Definition _developer_stop_failure (developer_result : DeveloperRunResult) : result FailureReport :=
  let evidence :=
    ["stop_reason=" +:+ DeveloperStopReason_value (dr_stop_reason developer_result)]
    ++ match dr_execution_budget developer_result with
       | Some budget =>
           ["developer_max_iterations=" +:+ str_of_Z (max_iterations budget);
            "developer_max_duration_seconds=" +:+ format_g (max_duration_seconds budget);
            "developer_max_model_turn_seconds=" +:+ format_g (max_model_turn_seconds budget)]
       | None => []
       end
    ++ ["developer_model_latency_ms=" +:+ str_of_Z (dr_latency_ms developer_result)]
    ++ dr_tool_failure_evidence developer_result in
  match dr_stop_reason developer_result with
  | DEV_REPEATED_TOOL_FAILURE => FailureReport_new {|
      failure_type := INVALID_TOOL_ARGUMENTS; source := TOOL;
      message := "开发智能体连续两次以无效参数调用同一仓库工具，已停止当前开发切片，未继续请求模型。";
      retryable := false; evidence := evidence |}
  | DEV_TIME_LIMIT => FailureReport_new {|
      failure_type := AGENT_TIME_LIMIT; source := RUNTIME;
      message := "开发智能体时间预算耗尽，未能在限制内完成代码修改。";
      retryable := false; evidence := evidence |}
  | _ => FailureReport_new {|
      failure_type := TOOL_FAILURE; source := RUNTIME;
      message := "Developer Agent did not reach a normal bounded completion.";
      retryable := false; evidence := evidence |}
  end.

(** ** Repair evidence *)
Definition _validation_commands (verification : VerificationResult) : list string :=
  filter (λ c, c ≠ "") (omap cr_command (vr_checks verification)).

(** The progress of a repair once its patch was verified. *)
Definition verified_progress (progress : RepairProgressEvidence)
    (verification : VerificationResult) (failure_signature : option string)
    : RepairProgressEvidence := {|
  rp_status :=
    if vr_passed verification then REPAIRED
    else if bool_decide (rp_failure_signature_before progress = failure_signature)
    then REPAIR_INEFFECTIVE else PROGRESS_MADE;
  rp_has_patch := rp_has_patch progress;
  rp_files_changed := rp_files_changed progress;
  rp_patch_hash_before := rp_patch_hash_before progress;
  rp_patch_hash_after := rp_patch_hash_after progress;
  rp_failure_signature_before := rp_failure_signature_before progress;
  rp_failure_signature_after := failure_signature;
  rp_validation_executed := true;
  rp_validation_commands := _validation_commands verification;
|}.

(** [repair.model_copy(update={"progress": progress, "changed_files": files})] *)
Definition with_progress (r : RepairRunResult) (files : list string)
    (progress : RepairProgressEvidence) : RepairRunResult := {|
  rpr_attempt := rpr_attempt r; rpr_failure_types := rpr_failure_types r;
  rpr_stop_reason := rpr_stop_reason r; rpr_iterations := rpr_iterations r;
  rpr_tool_calls := rpr_tool_calls r; rpr_final_message := rpr_final_message r;
  rpr_changed_files := files; rpr_progress := Some progress;
  rpr_usage := rpr_usage r; rpr_latency_ms := rpr_latency_ms r;
|}.

(** [_record_repair_verification]: rewrites [repairs[-1]]. *)
Definition record_last (last : RepairRunResult) (verification : VerificationResult)
    (failure_signature : option string) : RepairRunResult :=
  match rpr_progress last with
  | Some progress =>
      if decide (rp_status progress = PATCH_PRODUCED)
      then with_progress last (rpr_changed_files last)
             (verified_progress progress verification failure_signature)
      else last
  | None => last
  end.
Fixpoint _record_repair_verification (repairs : list RepairRunResult)
    (verification : VerificationResult) (failure_signature : option string)
    : list RepairRunResult :=
  match repairs with
  | [] => []
  | [last] => [record_last last verification failure_signature]
  | r :: repairs => r :: _record_repair_verification repairs verification failure_signature
  end.

(** [f"{value}"] of an optional string *)
Definition fmt_opt (o : option string) : string := default "None" o.

Definition with_evidence (f : FailureReport) (extra : list string) : FailureReport := {|
  failure_type := failure_type f; source := source f; message := message f;
  retryable := retryable f; evidence := evidence f ++ extra;
|}.

Definition _repair_evidence_for_next_attempt (failures : list FailureReport)
    (repairs : list RepairRunResult) : list FailureReport :=
  match last repairs with
  | Some repair =>
      match rpr_progress repair with
      | Some progress =>
          let extra :=
            ["previous_repair_progress=" +:+ RepairProgressStatus_value (rp_status progress);
             "previous_repair_stop_reason=" +:+ RepairStopReason_value (rpr_stop_reason repair);
             "previous_patch_hash=" +:+ rp_patch_hash_after progress;
             "previous_failure_signature_before=" +:+ fmt_opt (rp_failure_signature_before progress);
             "previous_failure_signature_after=" +:+ fmt_opt (rp_failure_signature_after progress)]
            ++ (if bool_decide (rpr_final_message repair = "") then []
                else ["previous_repair_summary="
                      +:+ str_take 512 (_normalize_failure_text (rpr_final_message repair))])
            ++ (if bool_decide (rp_files_changed progress = []) then []
                else ["previous_files_changed=" +:+ join "," (rp_files_changed progress)]) in
          (λ f, with_evidence f extra) <$> failures
      | None => failures
      end
  | None => failures
  end.

Definition _repair_verification_detail (repair_result : RepairRunResult) : string :=
  let attempt := "Repair attempt " +:+ str_of_Z (rpr_attempt repair_result) in
  match rpr_stop_reason repair_result with
  | REP_TIME_LIMIT => attempt +:+
      " reached its time limit; hard gate reruns before a bounded continuation."
  | REP_ITERATION_LIMIT => attempt +:+
      " reached its iteration limit; hard gate reruns before deciding whether another repair is needed."
  | REP_TOOL_CALL_LIMIT => attempt +:+
      " reached its tool-call limit; hard gate reruns before deciding whether another repair is needed."
  | _ => attempt +:+ " completed; hard gate reruns."
  end.

Definition _sum_usage (usages : list TokenUsage) : result TokenUsage :=
  TokenUsage_new {|
    prompt_tokens := foldr (λ u n, prompt_tokens u + n) 0 usages;
    completion_tokens := foldr (λ u n, completion_tokens u + n) 0 usages;
    total_tokens := foldr (λ u n, total_tokens u + n) 0 usages;
  |}.

(** ** The state of a run: the locals [run] shares with its helpers, and the
    world of the components. *)
Section orchestrator.
Context `{C : Components}.

Record RunState := {
  machine : TaskStateMachine;
  verifications : list VerificationResult;
  reviews : list ReviewDecision;
  repairs : list RepairRunResult;
  _latest_context_packet : option ContextPacket;
  world : World;
}.
Definition set_machine (m : TaskStateMachine) (s : RunState) : RunState := {|
  machine := m; verifications := verifications s; reviews := reviews s; repairs := repairs s;
  _latest_context_packet := _latest_context_packet s; world := world s |}.
Definition add_verification (v : VerificationResult) (s : RunState) : RunState := {|
  machine := machine s; verifications := verifications s ++ [v]; reviews := reviews s;
  repairs := repairs s; _latest_context_packet := _latest_context_packet s; world := world s |}.
Definition add_review (d : ReviewDecision) (s : RunState) : RunState := {|
  machine := machine s; verifications := verifications s; reviews := reviews s ++ [d];
  repairs := repairs s; _latest_context_packet := _latest_context_packet s; world := world s |}.
Definition set_repairs (rs : list RepairRunResult) (s : RunState) : RunState := {|
  machine := machine s; verifications := verifications s; reviews := reviews s; repairs := rs;
  _latest_context_packet := _latest_context_packet s; world := world s |}.
Definition set_packet (p : ContextPacket) (s : RunState) : RunState := {|
  machine := machine s; verifications := verifications s; reviews := reviews s;
  repairs := repairs s; _latest_context_packet := Some p; world := world s |}.
Definition set_world (w : World) (s : RunState) : RunState := {|
  machine := machine s; verifications := verifications s; reviews := reviews s;
  repairs := repairs s; _latest_context_packet := _latest_context_packet s; world := w |}.

Definition run_state_init (w : World) : RunState := {|
  machine := TaskStateMachine_init; verifications := []; reviews := []; repairs := [];
  _latest_context_packet := None; world := w |}.

(** [machine.transition(next_state, detail=detail)] *)
Definition transition (next_state : TaskRunState) (detail : string) : M RunState unit :=
  s ← get;
  let m := machine s in
  ensure (bool_decide (next_state ∈ _ALLOWED_TRANSITIONS (_state m))) ValueError
    ("invalid task-state transition: " +:+ TaskRunState_value (_state m) +:+ " -> "
     +:+ TaskRunState_value next_state) ;;
  modify (set_machine {| _state := next_state; _events := _events m |}) ;;
  event ← lift (RunEvent_new {| re_sequence := Z.of_nat (length (_events m));
                                re_state := next_state; re_detail := detail |});
  modify (set_machine {| _state := next_state; _events := _events m ++ [event] |}).

(** A call of a component: its exception is a value for the [except] clauses
    around the call. *)
Definition call {A} (op : World → (component_exn + A) * World) : M RunState (component_exn + A) :=
  λ s, let '(r, w) := op (world s) in (Ok r, set_world w s).
(** A read of the workspace outside any [try]. *)
Definition read {A} (f : World → result A) : M RunState A := s ← get; lift (f (world s)).

(** ** The result *)
Definition summary_text (developer : option DeveloperRunResult) : string :=
  match developer with
  | Some d => if bool_decide (dr_final_message d = "")
              then "已完成当前切片的受控代码修改。" else str_take 512 (dr_final_message d)
  | None => "已完成当前切片的受控代码修改。"
  end.
Definition first_message (failures : list FailureReport) (otherwise : string) : string :=
  match failures with f :: _ => str_take 512 (message f) | [] => otherwise end.

Definition _current_context_state (developer : option DeveloperRunResult)
    (failures : list FailureReport) (s : RunState) : result (option ContextContinuationState) :=
  match _latest_context_packet s with
  | None => Ok None
  | Some packet =>
      let verification_summary :=
        match last (verifications s) with
        | Some v => "已执行 " +:+ str_of_Z (Z.of_nat (length (verifications s)))
                    +:+ " 次验证；最近结果=" +:+ (if vr_passed v then "通过" else "失败") +:+ "。"
        | None => ""
        end in
      read_files ← map_result (λ f, ContextFileDigest_new
                     {| cfd_path := f.1; cfd_source_sha256 := f.2 |}) (cp_selected_files packet);
      changed ← changed_files (world s);
      snapshot ← change_snapshot (world s);
      hashes ← map_result (λ f, ContextFileDigest_new
                     {| cfd_path := f.1; cfd_source_sha256 := f.2 |})
                 (filter (λ f, f.2 ≠ "<missing>") (wcs_file_hashes snapshot));
      state ← ContextContinuationState_new {|
        ccs_summary_version := cp_summary_version packet;
        ccs_repository_head := cp_repository_head packet;
        ccs_read_files := read_files;
        ccs_changed_files := changed;
        ccs_changed_file_hashes := hashes;
        ccs_completed_summary := summary_text developer;
        ccs_remaining_summary := first_message failures "继续完成尚未满足的验收条件。";
        ccs_verification_summary := verification_summary;
        ccs_failure_summary := first_message failures "";
      |};
      Ok (Some state)
  end.

Context (self : SingleTaskOrchestrator) (task : TaskContract).

Definition developer_usage (developer : option DeveloperRunResult)
    : Prelude.result (list AgentUsageSummary) :=
  match developer with
  | Some d =>
      model ← model_of self ROLE_DEVELOPER;
      u ← AgentUsageSummary_new {|
        us_role := ROLE_DEVELOPER; us_model := model; us_calls := dr_iterations d;
        us_usage := dr_usage d; us_latency_ms := dr_latency_ms d; us_enable_thinking := false |};
      Ok [u]
  | None => Ok []
  end.
Definition repair_usage (rs : list RepairRunResult) : Prelude.result (list AgentUsageSummary) :=
  match rs with
  | [] => Ok []
  | _ =>
      model ← model_of self ROLE_REPAIR;
      usage ← _sum_usage (rpr_usage <$> rs);
      u ← AgentUsageSummary_new {|
        us_role := ROLE_REPAIR; us_model := model;
        us_calls := foldr (λ r n, rpr_iterations r + n) 0 rs;
        us_usage := usage;
        us_latency_ms := foldr (λ r n, rpr_latency_ms r + n) 0 rs;
        us_enable_thinking := false |};
      Ok [u]
  end.

Definition _result (developer : option DeveloperRunResult) (failures : list FailureReport)
    : M RunState SingleTaskRunResult :=
  s ← get;
  usage1 ← lift (developer_usage developer);
  usage2 ← lift (repair_usage (repairs s));
  changed ← lift (changed_files (world s));
  context_state ← lift (_current_context_state developer failures s);
  lift (SingleTaskRunResult_new {|
    sr_task_id := tc_task_id task;
    sr_status := _state (machine s);
    sr_events := _events (machine s);
    sr_developer := developer;
    sr_verifications := verifications s;
    sr_reviews := reviews s;
    sr_repairs := repairs s;
    sr_failures := failures;
    sr_changed_files := changed;
    sr_repair_attempts := Z.of_nat (length (repairs s));
    sr_agent_models := _models self;
    sr_agent_usage := usage1 ++ usage2;
    sr_context_state := context_state;
  |}).

(** [machine.transition(FAILED, detail=detail); return self._result(...)] *)
Definition fail_run (developer : option DeveloperRunResult) (detail : string)
    (failures : Prelude.result (list FailureReport)) : M RunState SingleTaskRunResult :=
  transition RUN_FAILED detail ;;
  failures ← lift failures;
  _result developer failures.

(** [[f]] where building [f] may raise *)
Definition one {A} (r : Prelude.result A) : Prelude.result (list A) := a ← r; Ok [a].

(** [_build_context]: [inl msg] is a [ContextBuildError]. *)
Definition _build_context (resume : option ContextContinuationState)
    : M RunState (string + ContextPacket) :=
  r ← call (build task resume);
  match r with
  | inr packet => modify (set_packet packet) ;; mret (inr packet)
  | inl x =>
      let e := escaping x in
      if subclass (exn_kind e) ContextBuildError then mret (inl (exn_message e))
      else if subclass (exn_kind e) OSError || subclass (exn_kind e) ValueError
      then mret (inl ("ContextPacket validation/read failed: " +:+ exn_message e))
      else lift (Raise e)
  end.

(** ** Repairing *)
Definition is_glob (path : string) : bool :=
  existsb (λ c, in_string c path) ["*"%char; "?"%char; "["%char].
Definition add_relevant (relevant_paths : list string) (path : string) : list string :=
  if is_glob path then relevant_paths
  else if bool_decide (path ∈ relevant_paths) then relevant_paths
  else relevant_paths ++ [path].

Definition _repair_handoff (repair_task : TaskContract) (failures : list FailureReport)
    (w : World) : Prelude.result RepairHandoff :=
  changed ← changed_files w;
  let '(failure_kind, suspected_path, suspected_symbol) := _repair_failure_hint failures in
  let hinted_paths := match suspected_path with
                      | Some p => if bool_decide (p = "") then [] else [p]
                      | None => []
                      end in
  let relevant_paths :=
    foldl add_relevant [] (changed ++ hinted_paths ++ tc_writable_files repair_task) in
  head ← head_commit w;
  digests ← map_result (λ f, RepairFailureDigest_new {|
      rfd_failure_type := failure_type f; rfd_source := source f;
      rfd_message := str_take 2000 (message f);
      rfd_evidence := str_take 1200 <$> take 8 (evidence f) |}) (take 8 failures);
  RepairHandoff_new {|
    rh_task_id := tc_task_id repair_task;
    rh_objective := tc_objective repair_task;
    rh_repository_head := head;
    rh_acceptance_criteria := tc_acceptance_criteria repair_task;
    rh_verification_commands := tc_verification_commands repair_task;
    rh_writable_files := tc_writable_files repair_task;
    rh_readonly_files := tc_readonly_files repair_task;
    rh_changed_files := changed;
    rh_relevant_paths := take 16 relevant_paths;
    rh_failure_kind := failure_kind;
    rh_suspected_path := suspected_path;
    rh_suspected_symbol := suspected_symbol;
    rh_failures := digests;
  |}.

(** [task.model_copy(update={"max_retries": n})] *)
Definition with_max_retries (t : TaskContract) (n : Z) : TaskContract := {|
  tc_task_id := tc_task_id t; tc_objective := tc_objective t;
  tc_readable_files := tc_readable_files t; tc_writable_files := tc_writable_files t;
  tc_readonly_files := tc_readonly_files t; tc_acceptance_criteria := tc_acceptance_criteria t;
  tc_verification_commands := tc_verification_commands t; tc_max_retries := n;
|}.
Definition repair_budget : Z := tc_max_retries task `max` _minimum_repair_attempts self.

(** The evidence around one repair: the workspace before and after it. *)
Definition repair_progress (before after : WorkspaceChangeSnapshot) (signature : string)
    : Prelude.result RepairProgressEvidence :=
  let has_patch := negb (bool_decide (wcs_patch_hash before = wcs_patch_hash after)) in
  RepairProgressEvidence_new {|
    rp_status := if has_patch then PATCH_PRODUCED else NO_PATCH_PRODUCED;
    rp_has_patch := has_patch;
    rp_files_changed := files_changed_since after before;
    rp_patch_hash_before := wcs_patch_hash before;
    rp_patch_hash_after := wcs_patch_hash after;
    rp_failure_signature_before := Some signature;
    rp_failure_signature_after := None;
    rp_validation_executed := false;
    rp_validation_commands := [];
  |}.

(** The [except] clauses of [_repair_once]. *)
Definition repair_failed (developer : option DeveloperRunResult) (x : component_exn)
    : M RunState SingleTaskRunResult :=
  match x with
  | RepairBudgetExhaustedExn failures =>
      fail_run developer "Repair Agent rejected exhausted budget." (Ok failures)
  | AgentProviderExn e =>
      fail_run developer
        (if decide (ape_code e = PE_WORK_PACKAGE_BUDGET_ALLOCATION_BLOCKED)
         then "Repair work-package budget allocation was blocked; recovery can reuse the persisted DAG."
         else "Repair model provider failed.")
        (one (to_failure_report e))
  | _ =>
      let e := escaping x in
      if subclass (exn_kind e) ValueError
      then fail_run developer "Repair evidence gate failed." (one (_runtime_failure (exn_message e) []))
      else lift (Raise e)
  end.

Definition _repair_once (developer : option DeveloperRunResult) (failures : list FailureReport)
    (failure_signature_before : string) (attempt : Z)
    : M RunState (SingleTaskRunResult + RepairRunResult) :=
  let repair_task := with_max_retries task repair_budget in
  if repair_budget <? attempt then
    r ← fail_run developer "Repair retry budget was exhausted."
          (Ok (terminalize failures repair_budget));
    mret (inl r)
  else
    transition RUN_REPAIRING ("Fresh targeted repair attempt " +:+ str_of_Z attempt +:+ " started.") ;;
    handoff ← read (_repair_handoff repair_task failures);
    before ← call (λ w, (match change_snapshot w with
                         | Ok v => inr v
                         | Raise x => inl (PlainExn x)
                         end, w));
    match before with
    | inl x => r ← repair_failed developer x; mret (inl r)
    | inr before_state =>
        r ← call (repair repair_task failures attempt handoff);
        match r with
        | inl x => r ← repair_failed developer x; mret (inl r)
        | inr repair_result =>
            after_state ← read change_snapshot;
            progress ← lift (repair_progress before_state after_state failure_signature_before);
            mret (inr (with_progress repair_result (wcs_changed_files after_state) progress))
        end
    end.

Definition no_progress_failure (repair_result : RepairRunResult)
    (progress : RepairProgressEvidence) (f : FailureReport) : FailureReport := {|
  failure_type := failure_type f; source := source f;
  message := message f
    +:+ " Repair Agent produced no candidate patch; downstream verification was not rerun.";
  retryable := false;
  evidence := evidence f ++
    ["repair_progress=" +:+ RepairProgressStatus_value (rp_status progress);
     "patch_produced=false";
     "repair_stop_reason=" +:+ RepairStopReason_value (rpr_stop_reason repair_result);
     "patch_hash_before=" +:+ rp_patch_hash_before progress;
     "patch_hash_after=" +:+ rp_patch_hash_after progress;
     "failure_signature_before=" +:+ fmt_opt (rp_failure_signature_before progress);
     "validation_executed=false"];
|}.
Definition _finish_no_progress (developer : option DeveloperRunResult)
    (failures : list FailureReport) (repair_result : RepairRunResult)
    : M RunState SingleTaskRunResult :=
  progress ← lift (of_option (Exn AssertionError "repair_result.progress is not None")
                     (rpr_progress repair_result));
  fail_run developer
    "Repair Agent produced no workspace patch; downstream verification was skipped."
    (Ok (no_progress_failure repair_result progress <$> failures)).

(** The body of the loop of [_repair_until_patch]. *)
Definition repair_step (developer : option DeveloperRunResult) (failures : list FailureReport)
    (failure_signature_before : string)
    : M RunState (option (SingleTaskRunResult + RepairRunResult)) :=
  s ← get;
  r ← _repair_once developer (_repair_evidence_for_next_attempt failures (repairs s))
        failure_signature_before (Z.of_nat (length (repairs s)) + 1);
  match r with
  | inl result => mret (Some (inl result))
  | inr repair_result =>
      s ← get;
      let repairs' := repairs s ++ [repair_result] in
      modify (set_repairs repairs') ;;
      match rpr_progress repair_result with
      | None => mret (Some (inr repair_result))
      | Some progress =>
          if rp_has_patch progress then mret (Some (inr repair_result))
          else if bool_decide (rpr_stop_reason repair_result = REP_EXPLICIT_BLOCKER)
                  || (repair_budget <=? Z.of_nat (length repairs'))
          then r ← _finish_no_progress developer failures repair_result; mret (Some (inl r))
          else mret None
      end
  end.
Definition _repair_until_patch (fuel : nat) (developer : option DeveloperRunResult)
    (failures : list FailureReport) (failure_signature_before : string)
    : M RunState (SingleTaskRunResult + RepairRunResult) :=
  while_true fuel (repair_step developer failures failure_signature_before).

(** ** The main loop *)

(** Repair, then verify again: [None] continues the loop. *)
Definition repair_and_reverify (fuel : nat) (developer : option DeveloperRunResult)
    (failures : list FailureReport) (signature : string)
    : M RunState (option SingleTaskRunResult) :=
  r ← _repair_until_patch fuel developer failures signature;
  match r with
  | inl result => mret (Some result)
  | inr repair_result =>
      transition RUN_VERIFYING (_repair_verification_detail repair_result) ;;
      mret None
  end.

(** The [except] clauses around the review. *)
Definition review_failed (developer : option DeveloperRunResult) (x : component_exn)
    : M RunState SingleTaskRunResult :=
  match x with
  | InvalidReviewerOutputExn failure =>
      fail_run developer "Reviewer output failed its structured-output gate." (Ok [failure])
  | AgentProviderExn e =>
      fail_run developer "Reviewer model provider failed." (one (to_failure_report e))
  | _ =>
      let e := escaping x in
      if subclass (exn_kind e) ValueError
      then fail_run developer "Reviewer evidence gate failed." (one (_runtime_failure (exn_message e) []))
      else lift (Raise e)
  end.

(** The hard gate failed. *)
Definition verification_failed (fuel : nat) (developer : option DeveloperRunResult)
    (verification : VerificationResult) : M RunState (option SingleTaskRunResult) :=
  failures ← lift (from_verification verification);
  let failure_signature := _failure_signature sha256 failures in
  s ← get;
  modify (set_repairs
    (_record_repair_verification (repairs s) verification (Some failure_signature))) ;;
  match repairable failures with
  | [] =>
      r ← fail_run developer "Hard gate produced a non-repairable failure."
            (match failures with [] => one _empty_failure_evidence | _ => Ok failures end);
      mret (Some r)
  | repairable => repair_and_reverify fuel developer repairable failure_signature
  end.

(** The hard gate passed: the independent review. *)
Definition verification_passed (fuel : nat) (developer : option DeveloperRunResult)
    (verification : VerificationResult) : M RunState (option SingleTaskRunResult) :=
  s ← get;
  modify (set_repairs (_record_repair_verification (repairs s) verification None)) ;;
  transition RUN_REVIEWING "Hard gate passed; independent semantic review started." ;;
  reviewer_context ← _build_context None;
  match reviewer_context with
  | inl msg =>
      r ← fail_run developer "Reviewer ContextPacket construction failed."
            (one (_context_failure msg StageReviewer));
      mret (Some r)
  | inr packet =>
      d ← call (review task verification packet);
      match d with
      | inl x => r ← review_failed developer x; mret (Some r)
      | inr decision =>
          modify (add_review decision) ;;
          if decide (rd_decision decision = PASS) then
            transition RUN_SUCCEEDED "Hard evidence and independent semantic review both passed." ;;
            r ← _result developer [];
            mret (Some r)
          else
            failures ← lift (from_review decision);
            repair_and_reverify fuel developer failures (_failure_signature sha256 failures)
      end
  end.

Definition main_step (fuel : nat) (developer : option DeveloperRunResult)
    : M RunState (option SingleTaskRunResult) :=
  v ← call (verify task);
  match v with
  | inl x => lift (Raise (escaping x))
  | inr verification =>
      modify (add_verification verification) ;;
      if vr_passed verification
      then verification_passed fuel developer verification
      else verification_failed fuel developer verification
  end.

(** ** The Developer phase: [inl] is a terminal result, [inr] the Developer's
    result when verification starts. *)
Definition develop_failed (x : component_exn) : M RunState SingleTaskRunResult :=
  match x with
  | AgentProviderExn e =>
      fail_run None "Developer model provider failed." (one (to_failure_report e))
  | _ =>
      let e := escaping x in
      if subclass (exn_kind e) ValueError
      then fail_run None "Developer context gate failed." (one (_runtime_failure (exn_message e) []))
      else lift (Raise e)
  end.

Definition developer_phase (continuation_context : option ContextContinuationState)
    : M RunState (SingleTaskRunResult + DeveloperRunResult) :=
  developer_context ← _build_context continuation_context;
  match developer_context with
  | inl msg =>
      r ← fail_run None "Developer ContextPacket construction failed."
            (one (_context_failure msg StageDeveloper));
      mret (inl r)
  | inr packet =>
      d ← call (develop task packet);
      match d with
      | inl x => r ← develop_failed x; mret (inl r)
      | inr developer =>
          changed ← read changed_files;
          match changed with
          | [] =>
              if decide (dr_stop_reason developer = DEV_MODEL_STOP) then
                r ← fail_run (Some developer) "Developer produced no Git changes."
                      (one (_runtime_failure
                        "Developer Agent completed without producing repository changes."
                        ["changed_files=0"]));
                mret (inl r)
              else
                r ← fail_run (Some developer)
                      "Developer Agent stopped before a normal model completion."
                      (one (_developer_stop_failure developer));
                mret (inl r)
          | _ =>
              transition RUN_VERIFYING
                (if decide (dr_stop_reason developer = DEV_MODEL_STOP)
                 then "Developer 正常完成；确定性验证开始。"
                 else "Developer 受控 Slice 已结束且存在改动；跳过额外模型调用并进入确定性验证。") ;;
              mret (inr developer)
          end
      end
  end.

(** [run]; [fuel] bounds the iterations of both loops. *)
Definition run_fuel (fuel : nat) (continuation_context : option ContextContinuationState)
    (resume_verification_first : bool) : M RunState SingleTaskRunResult :=
  transition RUN_RUNNING
    (if resume_verification_first then "从验证失败检查点恢复；先执行确定性验证。"
     else "Developer Agent started initial work.") ;;
  if resume_verification_first then
    transition RUN_VERIFYING "Checkpoint Commit 已装载；确定性验证开始。" ;;
    while_true fuel (main_step fuel None)
  else
    d ← developer_phase continuation_context;
    match d with
    | inl r => mret r
    | inr developer => while_true fuel (main_step fuel (Some developer))
    end.
Definition run (continuation_context : option ContextContinuationState)
    (resume_verification_first : bool) (w : World)
    : Prelude.result SingleTaskRunResult * RunState :=
  run_fuel (Z.to_nat repair_budget + 2) continuation_context resume_verification_first
    (run_state_init w).
End orchestrator.

(** ** Exceptions *)

(** A computation that only raises exceptions in [P]. *)
Definition raises_only {A} (P : exn → Prop) (r : Prelude.result A) : Prop :=
  ∀ e, r = Raise e → P e.
Definition is_validation_error (e : exn) : Prop := exn_kind e = ValidationError.

Section raises.
Context (P : exn → Prop) (HP : ∀ e, is_validation_error e → P e).

Lemma raises_Ok {A} (a : A) : raises_only P (Ok a).
Proof using. done. Qed.
Lemma raises_bind {A B} (m : Prelude.result A) (f : A → Prelude.result B) :
  raises_only P m → (∀ a, m = Ok a → raises_only P (f a)) → raises_only P (m ≫= f).
Proof using.
  intros Hm Hf e. destruct m as [a|x]; cbn; [by apply Hf|]. intros [= <-]. by apply Hm.
Qed.
Lemma raises_valid_if b msg : raises_only P (valid_if b msg).
Proof using HP. intros e. unfold valid_if, check. destruct b; [done|]. intros [= <-]. by apply HP. Qed.
Lemma raises_map {A B} (f : A → Prelude.result B) l :
  (∀ a, raises_only P (f a)) → raises_only P (map_result f l).
Proof using.
  intros Hf. induction l as [|a l IH]; [apply raises_Ok|]. cbn [map_result].
  apply raises_bind; [apply Hf|]. intros b _. apply raises_bind; [done|]. intros; apply raises_Ok.
Qed.
End raises.

Ltac raises :=
  repeat first
    [ done
    | progress intros
    | apply raises_Ok
    | apply raises_valid_if
    | apply raises_map
    | apply raises_bind
    | match goal with
      | |- raises_only _ (let '(_, _) := ?p in _) => destruct p
      | |- raises_only _ (match ?x with _ => _ end) => destruct x
      end ].

(** The constructors of the models only raise [ValidationError]. *)
Section constructors.
Context (P : exn → Prop) (HP : ∀ e, is_validation_error e → P e).

Lemma raises_FailureReport raw : raises_only P (FailureReport_new raw).
Proof using HP. unfold FailureReport_new, normalize_message, normalize_evidence. raises. Qed.
Lemma raises_runtime_failure m ev : raises_only P (_runtime_failure m ev).
Proof using HP. apply raises_FailureReport. Qed.
Lemma raises_context_failure m st : raises_only P (_context_failure m st).
Proof using HP. apply raises_FailureReport. Qed.
Lemma raises_developer_stop d : raises_only P (_developer_stop_failure d).
Proof using HP. unfold _developer_stop_failure. destruct (dr_stop_reason d); apply raises_FailureReport. Qed.
Lemma raises_provider e : raises_only P (to_failure_report e).
Proof using HP. apply raises_FailureReport. Qed.
Lemma raises_one {A} (r : Prelude.result A) : raises_only P r → raises_only P (one r).
Proof using. intros H. unfold one. raises. Qed.
Lemma raises_from_verification v : raises_only P (from_verification v).
Proof using HP.
  unfold from_verification, failure_reports. induction (vr_checks v) as [|c l IH]; [raises|].
  cbn [check_failure_reports]. destruct (cr_passed c), (cr_failure_type c); try done.
  apply raises_bind; [by apply raises_FailureReport|]. raises.
Qed.
Lemma raises_from_review d : raises_only P (from_review d).
Proof using HP.
  unfold from_review. destruct (decide _); [raises|].
  apply raises_bind; [by apply raises_FailureReport|]. raises.
Qed.
Lemma raises_path v : raises_only P (_normalize_repository_path v).
Proof using HP. unfold _normalize_repository_path. raises. Qed.
Lemma raises_digest raw : raises_only P (ContextFileDigest_new raw).
Proof using HP.
  unfold ContextFileDigest_new. apply raises_bind; [raises|]. intros _ _.
  apply raises_bind; [apply raises_path|]. raises.
Qed.
Lemma raises_continuation raw : raises_only P (ContextContinuationState_new raw).
Proof using HP.
  unfold ContextContinuationState_new, validate_changed_paths, validate_unique_read_files.
  raises.
Qed.
Lemma raises_usage raw : raises_only P (AgentUsageSummary_new raw).
Proof using HP. unfold AgentUsageSummary_new. raises. Qed.
Lemma raises_tokens raw : raises_only P (TokenUsage_new raw).
Proof using HP. unfold TokenUsage_new. raises. Qed.
Lemma raises_event raw : raises_only P (RunEvent_new raw).
Proof using HP. unfold RunEvent_new. raises. Qed.
Lemma raises_result raw : raises_only P (SingleTaskRunResult_new raw).
Proof using HP. unfold SingleTaskRunResult_new, validate_terminal_consistency. raises. Qed.
Lemma raises_failure_digest raw : raises_only P (RepairFailureDigest_new raw).
Proof using HP. unfold RepairFailureDigest_new. raises. Qed.
Lemma raises_handoff raw : raises_only P (RepairHandoff_new raw).
Proof using HP. unfold RepairHandoff_new. raises. Qed.
Lemma raises_progress b a sg : raises_only P (repair_progress b a sg).
Proof using HP. unfold repair_progress, RepairProgressEvidence_new. raises. Qed.
End constructors.

Create HintDb raises.
#[local] Hint Resolve raises_FailureReport raises_runtime_failure raises_context_failure
  raises_developer_stop raises_provider raises_one raises_from_verification raises_from_review
  raises_path raises_digest raises_continuation raises_usage raises_tokens raises_event
  raises_result raises_failure_digest raises_handoff raises_progress raises_Ok : raises.

(** The [except] clauses around the components. *)
Definition is_value_error (x : component_exn) : bool := subclass (exn_kind (escaping x)) ValueError.
Definition caught_by_build (x : component_exn) : bool :=
  subclass (exn_kind (escaping x)) ContextBuildError
  || (subclass (exn_kind (escaping x)) OSError || is_value_error x).
Definition caught_by_developer (x : component_exn) : bool :=
  match x with AgentProviderExn _ => true | _ => is_value_error x end.
Definition caught_by_reviewer (x : component_exn) : bool :=
  match x with AgentProviderExn _ | InvalidReviewerOutputExn _ => true | _ => is_value_error x end.
Definition caught_by_repair (x : component_exn) : bool :=
  match x with AgentProviderExn _ | RepairBudgetExhaustedExn _ => true | _ => is_value_error x end.

(** Every exception of a component that no [except] clause catches
    satisfies [P]. *)
Record components_raise `{C : Components} (P : exn → Prop) : Prop := {
  build_raises t r w x w' : build t r w = (inl x, w') → caught_by_build x = false → P (escaping x);
  develop_raises t p w x w' :
    develop t p w = (inl x, w') → caught_by_developer x = false → P (escaping x);
  verify_raises t w x w' : verify t w = (inl x, w') → P (escaping x);
  review_raises t v p w x w' :
    review t v p w = (inl x, w') → caught_by_reviewer x = false → P (escaping x);
  repair_raises t fs n h w x w' :
    repair t fs n h w = (inl x, w') → caught_by_repair x = false → P (escaping x);
  changed_files_raises w : raises_only P (changed_files w);
  head_commit_raises w : raises_only P (head_commit w);
  change_snapshot_raises w : raises_only P (change_snapshot w);
}.

(** ** Well-formed machines *)

(** Numbered events, from PENDING, along allowed transitions, to [st]. *)
Definition legal_events (events : list RunEvent) (st : TaskRunState) : Prop :=
  (re_sequence <$> events = Z.of_nat <$> seq 0 (length events))
  ∧ re_state <$> head events = Some RUN_PENDING
  ∧ re_state <$> last events = Some st
  ∧ ∀ i a b, events !! i = Some a → events !! S i = Some b →
      re_state b ∈ _ALLOWED_TRANSITIONS (re_state a).
Definition machine_ok (m : TaskStateMachine) : Prop := legal_events (_events m) (_state m).

Lemma machine_ok_init : machine_ok TaskStateMachine_init.
Proof. do 3 (split; [done|]). intros i a b _. by destruct i. Qed.

Lemma legal_snoc events st ev :
  legal_events events st → re_sequence ev = Z.of_nat (length events) →
  re_state ev ∈ _ALLOWED_TRANSITIONS st → legal_events (events ++ [ev]) (re_state ev).
Proof.
  intros (Hseq & Hhead & Hlast & Hstep) Hn Hal.
  destruct events as [|e0 events]; [done|].
  split; [|split; [by rewrite <- Hhead|split]].
  - rewrite fmap_app, Hseq, length_app. change (length [ev]) with 1%nat.
    rewrite Nat.add_1_r, seq_S, fmap_app. f_equal. by rewrite list_fmap_singleton, Hn.
  - by rewrite last_snoc.
  - intros i a b Ha Hb. destruct (decide (S i = length (e0 :: events))) as [Hi|Hi].
    + rewrite lookup_app_r, Hi, Nat.sub_diag in Hb by lia. injection Hb as <-.
      rewrite lookup_app_l in Ha by lia. rewrite last_lookup in Hlast.
      replace (Init.Nat.pred (length (e0 :: events))) with i in Hlast by (cbn in *; lia).
      rewrite Ha in Hlast. injection Hlast as ->. done.
    + apply lookup_lt_Some in Hb as Hlt. rewrite length_app in Hlt. cbn [length] in Hlt, Hi.
      rewrite lookup_app_l in Ha, Hb by (cbn; lia). by eapply Hstep.
Qed.

(** ** Repair records *)

(** The verification of a repair's patch, or its absence, is on record. *)
Definition settled (r : RepairRunResult) : Prop :=
  ∃ p, rpr_progress r = Some p ∧ rp_status p ≠ PATCH_PRODUCED
       ∧ rp_validation_executed p = rp_has_patch p.
(** A patch that awaits its verification. *)
Definition pending (r : RepairRunResult) : Prop :=
  ∃ p, rpr_progress r = Some p ∧ rp_status p = PATCH_PRODUCED ∧ rp_has_patch p = true.
Definition repairs_ok (rs : list RepairRunResult) : Prop :=
  Forall settled rs ∨ ∃ init r, rs = init ++ [r] ∧ Forall settled init ∧ pending r.

Lemma record_snoc init r v sg :
  _record_repair_verification (init ++ [r]) v sg = init ++ [record_last r v sg].
Proof. induction init as [|a [|b init] IH]; [done|done|]. cbn in *. by rewrite IH. Qed.

Lemma record_last_settled r v sg : settled r → record_last r v sg = r.
Proof.
  intros (p & Hp & Hs & _). unfold record_last. rewrite Hp. by rewrite decide_False.
Qed.

Lemma record_settles rs v sg :
  repairs_ok rs → Forall settled (_record_repair_verification rs v sg)
    ∧ length (_record_repair_verification rs v sg) = length rs.
Proof.
  intros [H|(init & r & -> & Hinit & p & Hp & Hst & Hpatch)].
  - enough (_record_repair_verification rs v sg = rs) as -> by done.
    destruct rs as [|r rs _] using rev_ind; [done|]. rewrite record_snoc.
    apply Forall_app in H as [_ H]. inversion_clear H. by rewrite record_last_settled.
  - rewrite record_snoc, !length_app. split; [|done]. apply Forall_app. split; [done|].
    constructor; [|done]. unfold record_last. rewrite Hp, decide_True by done.
    eexists. split; [done|]. cbn. rewrite Hpatch. split; [|done].
    destruct (vr_passed v); [done|]. by case_match.
Qed.

(** ** The contracts of the steps *)
Section contracts.
Context `{C : Components} (P : exn → Prop) (HC : components_raise P).
Context (self : SingleTaskOrchestrator) (task : TaskContract).
Context (Hself : ∃ d r p n, SingleTaskOrchestrator_init d r p n = Ok self).

(** The exceptions that may escape, and the bounds that hold even then. *)
Definition escapes (e : exn) : Prop := P e ∨ is_validation_error e.
Definition attempts : nat := Z.to_nat (repair_budget self task).
Definition bounded (s : RunState) : Prop :=
  (length (repairs s) ≤ attempts ∧ length (verifications s) ≤ S (length (repairs s))
   ∧ length (reviews s) ≤ length (filter vr_passed (verifications s)))%nat.
Definition stopped (e : exn) (s : RunState) : Prop := escapes e ∧ bounded s.

Definition at_state (st : TaskRunState) (s : RunState) : Prop :=
  machine_ok (machine s) ∧ _state (machine s) = st ∧ bounded s.
(** Only the world and the context packet changed. *)
Definition frame (s s' : RunState) : Prop :=
  machine s' = machine s ∧ verifications s' = verifications s
  ∧ reviews s' = reviews s ∧ repairs s' = repairs s.

(** The result reports the state of the run. *)
Definition reports (developer : option DeveloperRunResult) (r : SingleTaskRunResult)
    (s : RunState) : Prop :=
  sr_developer r = developer ∧ sr_verifications r = verifications s
  ∧ sr_reviews r = reviews s ∧ sr_repairs r = repairs s
  ∧ sr_events r = _events (machine s) ∧ sr_status r = _state (machine s).
Definition both_passed (s : RunState) : Prop :=
  (∃ v, last (verifications s) = Some v ∧ vr_passed v = true)
  ∧ ∃ d, last (reviews s) = Some d ∧ rd_decision d = PASS.
Definition run_ok (developer : option DeveloperRunResult) (r : SingleTaskRunResult)
    (s : RunState) : Prop :=
  reports developer r s ∧ at_state (sr_status r) s ∧ Forall settled (repairs s)
  ∧ (sr_status r = RUN_SUCCEEDED ∧ sr_failures r = [] ∧ both_passed s
     ∨ sr_status r = RUN_FAILED ∧ sr_failures r ≠ []).

Lemma escapes_validation e : is_validation_error e → escapes e.
Proof using. by right. Qed.
#[local] Hint Resolve escapes_validation : raises.
Lemma escapes_component {A} (r : Prelude.result A) : raises_only P r → raises_only escapes r.
Proof using. intros H e He. left. by apply H. Qed.

Lemma frame_at st s s' : frame s s' → at_state st s → at_state st s'.
Proof using.
  intros (Hm & Hv & Hr & Hp) (H1 & H2 & H3). unfold at_state, bounded.
  rewrite Hm, Hv, Hr, Hp. done.
Qed.

Lemma model_of_ok role : role ≠ ROLE_PLANNER → ∃ m, model_of self role = Ok m.
Proof using Hself.
  destruct Hself as (d & r & p & n & H). unfold SingleTaskOrchestrator_init in H. inv_monad.
  destruct role; [done| | |]; eexists; reflexivity.
Qed.

Lemma wp_transition (Q : unit → RunState → Prop) st st' detail s :
  at_state st s → st' ∈ _ALLOWED_TRANSITIONS st →
  (∀ s', at_state st' s' → verifications s' = verifications s → reviews s' = reviews s →
         repairs s' = repairs s → Q tt s') →
  wp (transition st' detail) Q stopped s.
Proof using.
  intros (Hm & Hst & Hb) Hal HQ. unfold transition. apply wp_get_bind.
  unfold ensure. rewrite (check_true (bool_decide _)) by (rewrite Hst; by apply bool_decide_eq_true).
  apply wp_lift_bind; [|done]. intros _ _. apply wp_modify_bind.
  apply wp_lift_bind.
  - intros ev Hev. unfold modify, wp. apply HQ; [|done|done|done].
    assert (re_state ev = st' ∧ re_sequence ev = Z.of_nat (length (_events (machine s))))
      as [He Hsq].
    { unfold RunEvent_new in Hev. inv_valid. done. }
    split; [|by split]. unfold machine_ok. cbn. rewrite <- He. unfold machine_ok in Hm.
    rewrite Hst in Hm. apply (legal_snoc _ st); [done|done|by rewrite He].
  - intros e He. split; [|done]. by apply (raises_event escapes escapes_validation _ e He).
Qed.

Lemma wp_call {A} (op : World → (component_exn + A) * World) Q E s :
  (∀ r w, op (world s) = (r, w) → Q r (set_world w s)) → wp (call op) Q E s.
Proof using. unfold call, wp. intros H. destruct (op (world s)) as [r w]. by apply H. Qed.

Lemma wp_read {A} (f : World → Prelude.result A) (Q : A → RunState → Prop) s :
  raises_only escapes (f (world s)) → bounded s → (∀ a, Q a s) → wp (read f) Q stopped s.
Proof using.
  intros Hf Hb HQ. unfold read. apply wp_get_bind, wp_lift.
  destruct (f (world s)) as [a|e]; [done|]. split; [by apply Hf|done].
Qed.

Lemma raise_context_state developer failures s :
  raises_only escapes (_current_context_state developer failures s).
Proof using HC.
  unfold _current_context_state. destruct (_latest_context_packet s); [|apply raises_Ok].
  apply raises_bind; [apply raises_map; eauto with raises|]. intros ? _.
  apply raises_bind; [apply escapes_component, (changed_files_raises P HC)|]. intros ? _.
  apply raises_bind; [apply escapes_component, (change_snapshot_raises P HC)|]. intros ? _.
  apply raises_bind; [apply raises_map; eauto with raises|]. intros ? _.
  apply raises_bind; eauto with raises.
Qed.

Lemma result_new_inv raw r :
  SingleTaskRunResult_new raw = Ok r →
  r = raw ∧ (sr_status r = RUN_SUCCEEDED ∧ sr_failures r = []
             ∨ sr_status r = RUN_FAILED ∧ sr_failures r ≠ []).
Proof using.
  intros H. unfold SingleTaskRunResult_new, validate_terminal_consistency in H. inv_valid. to_prop.
  split; [done|].
  match goal with H : _ ∨ _ |- _ => destruct H as [Hs|Hs] end; rewrite Hs in *.
  - left. split; [done|].
    match goal with H : bool_decide (?x = ?x) && _ = false |- _ =>
      rewrite (bool_decide_true (x = x)) in H by done; cbn [andb] in H; by to_prop end.
  - right. split; [done|].
    match goal with H : bool_decide (?x = ?x) && _ = false |- _ =>
      rewrite (bool_decide_true (x = x)) in H by done; cbn [andb] in H; by to_prop end.
Qed.

Lemma raise_developer_usage developer : raises_only escapes (developer_usage self developer).
Proof using Hself.
  destruct developer; [|apply raises_Ok]. unfold developer_usage.
  destruct (model_of_ok ROLE_DEVELOPER ltac:(done)) as [m ->]. cbn [mbind result_bind].
  apply raises_bind; eauto with raises.
Qed.
Lemma raise_repair_usage rs : raises_only escapes (repair_usage self rs).
Proof using Hself.
  unfold repair_usage. destruct rs; [apply raises_Ok|].
  destruct (model_of_ok ROLE_REPAIR ltac:(done)) as [m ->]. cbn [mbind result_bind].
  apply raises_bind; [unfold _sum_usage; eauto with raises|]. intros ? _.
  apply raises_bind; eauto with raises.
Qed.

Lemma wp_result (Q : SingleTaskRunResult → RunState → Prop) developer failures st s :
  at_state st s →
  (∀ r, reports developer r s → sr_status r = st →
        (st = RUN_SUCCEEDED ∧ sr_failures r = [] ∨ st = RUN_FAILED ∧ sr_failures r ≠ []) → Q r s) →
  wp (_result self task developer failures) Q stopped s.
Proof using HC Hself.
  intros (Hm & Hst & Hb) HQ. unfold _result. apply wp_get_bind.
  apply wp_lift_bind; [|intros e He; split; [by apply (raise_developer_usage _ e He)|done]].
  intros u1 _.
  apply wp_lift_bind; [|intros e He; split; [by apply (raise_repair_usage _ e He)|done]].
  intros u2 _.
  apply wp_lift_bind; [|intros e He; split; [left; by apply (changed_files_raises P HC _ e He)|done]].
  intros files _.
  apply wp_lift_bind; [|intros e He; split; [by apply (raise_context_state _ _ _ e He)|done]].
  intros cs _. apply wp_lift. destruct (SingleTaskRunResult_new _) as [r|e] eqn:Hr.
  - apply result_new_inv in Hr as [-> Hr]. cbn in Hr. apply HQ; [done|done|].
    by rewrite Hst in Hr.
  - split; [|done]. by apply (raises_result escapes escapes_validation _ e Hr).
Qed.

Lemma wp_fail_run (Q : SingleTaskRunResult → RunState → Prop) developer detail failures st s :
  at_state st s → RUN_FAILED ∈ _ALLOWED_TRANSITIONS st → Forall settled (repairs s) →
  raises_only escapes failures →
  (∀ r s', run_ok developer r s' → Q r s') →
  wp (fail_run self task developer detail failures) Q stopped s.
Proof using HC Hself.
  intros Hat Hal Hset Hf HQ. unfold fail_run. apply wp_bind.
  apply (wp_transition _ st); [done|done|]. intros s' Hat' Hv Hr Hp.
  apply wp_lift_bind; [|intros e He; split; [by apply Hf|by destruct Hat' as (_ & _ & ?)]].
  intros fs _. apply (wp_result _ _ _ RUN_FAILED); [done|].
  intros r Hrep Hst Hcase. apply HQ. unfold run_ok. rewrite Hst, Hp.
  split; [done|]. split; [done|]. split; [done|]. destruct Hcase as [[? _]|[_ ?]]; [done|auto].
Qed.

Lemma wp_build_context (Q : string + ContextPacket → RunState → Prop) resume s :
  bounded s → (∀ r s', frame s s' → Q r s') → wp (_build_context task resume) Q stopped s.
Proof using HC.
  intros Hb HQ. unfold _build_context. apply wp_bind, wp_call. intros r w Hw.
  destruct r as [x|packet].
  - destruct (subclass _ ContextBuildError) eqn:H1; [apply wp_ret; by apply HQ|].
    destruct (subclass _ _ || subclass _ _) eqn:H2; [apply wp_ret; by apply HQ|].
    apply wp_lift. split; [left; apply (build_raises P HC _ _ _ _ _ Hw)|done].
    unfold caught_by_build, is_value_error. by rewrite H1, H2.
  - apply wp_modify_bind, wp_ret. by apply HQ.
Qed.

Lemma raise_handoff repair_task failures w : raises_only escapes (_repair_handoff repair_task failures w).
Proof using HC.
  unfold _repair_handoff.
  apply raises_bind; [apply escapes_component, (changed_files_raises P HC)|]. intros ? _.
  destruct (_repair_failure_hint failures) as [[kind path] symbol].
  apply raises_bind; [apply escapes_component, (head_commit_raises P HC)|]. intros ? _.
  apply raises_bind; [apply raises_map; eauto with raises|]. intros ? _. eauto with raises.
Qed.

Lemma wp_repair_failed (Q : SingleTaskRunResult → RunState → Prop) developer x st s :
  at_state st s → RUN_FAILED ∈ _ALLOWED_TRANSITIONS st → Forall settled (repairs s) →
  (caught_by_repair x = false → P (escaping x)) → (∀ r s', run_ok developer r s' → Q r s') →
  wp (repair_failed self task developer x) Q stopped s.
Proof using HC Hself.
  intros Hat Hal Hset Hx HQ.
  assert (caught_by_repair x = false → stopped (escaping x) s) as Hstop
    by (intros; split; [left; auto|apply Hat]).
  destruct x; cbn [repair_failed];
    try (destruct (subclass _ ValueError) eqn:Hve; [|by apply wp_lift, Hstop]);
    apply (wp_fail_run _ _ _ _ st); try done; eauto with raises.
Qed.

Lemma wp_repair_once (Q : SingleTaskRunResult + RepairRunResult → RunState → Prop)
    developer failures signature st s :
  at_state st s → RUN_FAILED ∈ _ALLOWED_TRANSITIONS st → RUN_REPAIRING ∈ _ALLOWED_TRANSITIONS st →
  Forall settled (repairs s) →
  (∀ r s', run_ok developer r s' → Q (inl r) s') →
  (∀ rp p s', at_state RUN_REPAIRING s' → verifications s' = verifications s →
     reviews s' = reviews s → repairs s' = repairs s → (length (repairs s) < attempts)%nat →
     rpr_progress rp = Some p →
     (if rp_has_patch p then pending rp else settled rp) → Q (inr rp) s') →
  wp (_repair_once self task developer failures signature (Z.of_nat (length (repairs s)) + 1))
    Q stopped s.
Proof using HC Hself.
  intros Hat Hal1 Hal2 Hset HQ1 HQ2. unfold _repair_once. destruct (_ <? _) eqn:Hattempt.
  { apply wp_bind, (wp_fail_run _ _ _ _ st); [done|done|done|apply raises_Ok|].
    intros r s' Hr. by apply wp_ret, HQ1. }
  to_prop. apply wp_bind, (wp_transition _ st); [done|done|]. intros s1 Hat1 Hv1 Hr1 Hp1.
  assert (bounded s1) as Hb1 by apply Hat1.
  apply wp_bind, wp_read; [apply raise_handoff|done|]. intros handoff.
  apply wp_bind, wp_call. intros before w Hbefore.
  assert (w = world s1 ∧ match before with inl x => P (escaping x) | inr _ => True end) as [-> Hx].
  { injection Hbefore as <- <-. split; [done|].
    destruct (change_snapshot (world s1)) eqn:Hs; [done|].
    by apply (change_snapshot_raises P HC _ _ Hs). }
  assert (at_state RUN_REPAIRING (set_world (world s1) s1)) as Hat2 by done.
  destruct before as [x|before_state].
  { apply wp_bind, (wp_repair_failed _ _ _ RUN_REPAIRING); [done|by compute_done|by cbn; rewrite Hp1|done|].
    intros r s' Hr. by apply wp_ret, HQ1. }
  apply wp_bind, wp_call. intros r w Hw. destruct r as [x|repair_result].
  { apply wp_bind, (wp_repair_failed _ _ _ RUN_REPAIRING);
      [done|by compute_done|by cbn; rewrite Hp1|by apply (repair_raises P HC _ _ _ _ _ _ _ Hw)|].
    intros r s' Hr. by apply wp_ret, HQ1. }
  apply wp_bind, wp_read; [apply escapes_component, (change_snapshot_raises P HC)|done|].
  intros after_state. apply wp_lift_bind.
  2:{ intros e He. split; [by apply (raises_progress escapes escapes_validation _ _ _ e He)|done]. }
  intros progress Hprogress. apply wp_ret.
  unfold repair_progress, RepairProgressEvidence_new in Hprogress. inv_valid.
  eapply HQ2; [done|done|done|done| |reflexivity|].
  - unfold attempts. lia.
  - cbn. destruct (negb _); eexists; (split; [reflexivity|]); done.
Qed.

(** What holds while the repair loop runs, with the evidence it started
    from; and what holds when it hands a patch over for verification. *)
Definition repairing vs rs n0 (s : RunState) : Prop :=
  ∃ st, at_state st s ∧ RUN_FAILED ∈ _ALLOWED_TRANSITIONS st
        ∧ RUN_REPAIRING ∈ _ALLOWED_TRANSITIONS st ∧ Forall settled (repairs s)
        ∧ verifications s = vs ∧ reviews s = rs ∧ (n0 ≤ length (repairs s))%nat.
Definition patched vs rs n0 (s : RunState) : Prop :=
  at_state RUN_REPAIRING s ∧ repairs_ok (repairs s)
  ∧ verifications s = vs ∧ reviews s = rs ∧ (n0 < length (repairs s))%nat.
Definition remaining (s : RunState) : nat := attempts - length (repairs s).

Lemma wp_repair_step developer failures signature vs rs n0 s :
  repairing vs rs n0 s →
  wp (repair_step self task developer failures signature)
    (λ r s', match r with
             | Some (inl r) => run_ok developer r s'
             | Some (inr _) => patched vs rs n0 s'
             | None => repairing vs rs n0 s' ∧ (remaining s' < remaining s)%nat
             end) stopped s.
Proof using HC Hself.
  intros (st & Hat & Hal1 & Hal2 & Hset & Hv & Hr & Hn). unfold repair_step. apply wp_get_bind.
  apply wp_bind, (wp_repair_once _ _ _ _ st); [done|done|done|done| |].
  { intros r s' Hok. by apply wp_ret. }
  intros rp p s1 Hat1 Hv1 Hr1 Hp1 Hlt Hp Hcase. apply wp_get_bind. apply wp_modify_bind.
  rewrite Hp. set (s2 := set_repairs _ s1).
  assert (length (repairs s2) = S (length (repairs s))) as Hlen
    by (cbn; rewrite length_app, Hp1; cbn; lia).
  assert (at_state RUN_REPAIRING s2) as Hat2.
  { destruct Hat1 as (? & ? & _ & Hb2 & Hb3). split; [done|split; [done|]].
    unfold bounded in *. rewrite Hlen. cbn. rewrite Hp1 in Hb2. split; [lia|split; [lia|done]]. }
  assert (rp_has_patch p = false → Forall settled (repairs s2)) as Hset2.
  { intros Hf. rewrite Hf in Hcase. cbn. rewrite Hp1. apply Forall_app; auto. }
  destruct (rp_has_patch p) eqn:Hpatch.
  { apply wp_ret. split; [done|]. split; [|by rewrite Hlen, <- Hv, <- Hr; auto with lia].
    right. exists (repairs s), rp. cbn. rewrite Hp1. done. }
  destruct (bool_decide _ || _) eqn:Hstop.
  - apply wp_bind. unfold _finish_no_progress. rewrite Hp. cbn [of_option].
    apply wp_lift_bind; [|done]. intros p' _.
    apply (wp_fail_run _ _ _ _ RUN_REPAIRING); [done|by compute_done|auto|apply raises_Ok|].
    intros r s' Hok. by apply wp_ret.
  - apply wp_ret. apply orb_false_iff in Hstop as [_ Hstop]. to_prop.
    split; [|unfold remaining, attempts in *; lia].
    exists RUN_REPAIRING. split; [done|]. split; [by compute_done|]. split; [by compute_done|].
    split; [auto|]. split; [by cbn; rewrite Hv1|]. split; [by cbn; rewrite Hr1|]. lia.
Qed.

Definition enough (fuel : nat) : Prop := (attempts < fuel)%nat.
Lemma remaining_lt fuel s : enough fuel → (remaining s < fuel)%nat.
Proof using. unfold enough, remaining. lia. Qed.

Lemma wp_repair_until_patch developer failures signature vs rs n0 fuel s :
  enough fuel → repairing vs rs n0 s →
  wp (_repair_until_patch self task fuel developer failures signature)
    (λ r s', match r with inl r => run_ok developer r s' | inr _ => patched vs rs n0 s' end)
    stopped s.
Proof using HC Hself.
  intros Hf Hs. apply (wp_while (repairing vs rs n0) remaining); [|done|by apply remaining_lt].
  intros s' Hs'. eapply wp_mono; [by apply wp_repair_step| |done].
  by intros [[r|rp]|] s2 H.
Qed.

(** The head of the main loop. *)
Definition verifying (s : RunState) : Prop :=
  at_state RUN_VERIFYING s ∧ repairs_ok (repairs s)
  ∧ (length (verifications s) ≤ length (repairs s))%nat.
Definition main_post developer (s : RunState) (r : option SingleTaskRunResult) (s' : RunState) : Prop :=
  match r with
  | Some r => run_ok developer r s'
  | None => verifying s' ∧ (remaining s' < remaining s)%nat
  end.

Lemma wp_repair_and_reverify developer failures signature fuel st s s0 :
  enough fuel → at_state st s → RUN_FAILED ∈ _ALLOWED_TRANSITIONS st →
  RUN_REPAIRING ∈ _ALLOWED_TRANSITIONS st → Forall settled (repairs s) →
  length (repairs s) = length (repairs s0) →
  wp (repair_and_reverify self task fuel developer failures signature) (main_post developer s0)
    stopped s.
Proof using HC Hself.
  intros Hf Hat Hal1 Hal2 Hset Hlen. unfold repair_and_reverify. apply wp_bind.
  eapply wp_mono; [apply (wp_repair_until_patch _ _ _ (verifications s) (reviews s)
    (length (repairs s)) _ _ Hf); by exists st| |done].
  intros [r|rp] s1 H1; [by apply wp_ret|]. destruct H1 as (Hat1 & Hok & Hv & Hr & Hn).
  apply wp_bind, (wp_transition _ RUN_REPAIRING); [done|by compute_done|].
  intros s2 Hat2 Hv2 Hr2 Hp2. apply wp_ret. destruct Hat as (_ & _ & _ & Hb & _).
  pose proof Hat2 as (_ & _ & Hb2). unfold main_post, verifying, remaining.
  unfold bounded in Hb2. rewrite Hp2, Hv2, Hv in *.
  split; [split; [done|split; [done|lia]]|lia].
Qed.

Lemma wp_review_failed developer x s0 s :
  at_state RUN_REVIEWING s → Forall settled (repairs s) →
  (caught_by_reviewer x = false → P (escaping x)) →
  wp (review_failed self task developer x) (λ r, main_post developer s0 (Some r)) stopped s.
Proof using HC Hself.
  intros Hat Hset Hx.
  assert (caught_by_reviewer x = false → stopped (escaping x) s) as Hstop
    by (intros; split; [left; auto|apply Hat]).
  destruct x; cbn [review_failed];
    try (destruct (subclass _ ValueError) eqn:Hve; [|by apply wp_lift, Hstop]);
    apply (wp_fail_run _ _ _ _ RUN_REVIEWING); try (by compute_done); try done; eauto with raises.
Qed.

(** The state once the verification and its effect on the repairs are recorded. *)
Lemma verified_state v sg s :
  verifying s →
  let s1 := set_repairs (_record_repair_verification (repairs s) v sg) (add_verification v s) in
  at_state RUN_VERIFYING s1 ∧ Forall settled (repairs s1)
  ∧ length (repairs s1) = length (repairs s)
  ∧ (vr_passed v = true → length (reviews s) < length (filter vr_passed (verifications s1)))%nat
  ∧ last (verifications s1) = Some v.
Proof using.
  intros ((Hm & Hst & Hb1 & Hb2 & Hb3) & Hrs & Hlen). cbn.
  destruct (record_settles (repairs s) v sg Hrs) as [Hset Hl].
  assert (length (filter vr_passed (verifications s ++ [v]))
          = length (filter vr_passed (verifications s)) + if vr_passed v then 1 else 0)%nat as Hfil.
  { rewrite filter_app, length_app. f_equal. rewrite filter_cons, filter_nil.
    by destruct (vr_passed v). }
  split.
  { split; [done|split; [done|]]. unfold bounded. cbn. rewrite Hl, length_app, Hfil. cbn.
    destruct (vr_passed v); lia. }
  split; [done|]. split; [done|]. split; [|by rewrite last_snoc].
  intros Hp. rewrite Hfil, Hp. lia.
Qed.

Lemma wp_verification_failed fuel developer v s :
  enough fuel → verifying s → vr_passed v = false →
  wp (verification_failed self task fuel developer v) (main_post developer s) stopped
    (add_verification v s).
Proof using HC Hself.
  intros Hf Hs Hv. unfold verification_failed.
  assert (bounded (add_verification v s)) as Hb.
  { destruct Hs as ((_ & _ & Hb1 & Hb2 & Hb3) & _ & Hlen). unfold bounded. cbn.
    rewrite filter_app, !length_app. cbn. lia. }
  apply wp_lift_bind.
  2:{ intros e He. split; [|done]. by apply (raises_from_verification escapes escapes_validation _ e He). }
  intros failures _. apply wp_get_bind. apply wp_modify_bind.
  destruct (verified_state v (Some (_failure_signature sha256 failures)) s Hs)
    as (Hat & Hset & Hlen & _ & _).
  destruct (repairable failures) as [|f fs].
  - apply wp_bind, (wp_fail_run _ _ _ _ RUN_VERIFYING); [done|by compute_done|done| |].
    + destruct failures; [|apply raises_Ok]. unfold _empty_failure_evidence. eauto with raises.
    + intros r s' Hr. by apply wp_ret.
  - apply (wp_repair_and_reverify _ _ _ _ RUN_VERIFYING); [done|done|by compute_done|by compute_done|done|done].
Qed.

Lemma wp_verification_passed fuel developer v s :
  enough fuel → verifying s → vr_passed v = true →
  wp (verification_passed self task fuel developer v) (main_post developer s) stopped
    (add_verification v s).
Proof using HC Hself.
  intros Hf Hs Hv. unfold verification_passed. apply wp_get_bind. apply wp_modify_bind.
  destruct (verified_state v None s Hs) as (Hat & Hset & Hlen & Hrev & Hlast).
  cbn [repairs add_verification] in *.
  set (s1 := set_repairs _ _) in *. specialize (Hrev Hv).
  apply wp_bind, (wp_transition _ RUN_VERIFYING); [done|by compute_done|].
  intros s2 Hat2 Hv2 Hr2 Hp2. apply wp_bind, wp_build_context; [apply Hat2|].
  intros ctx s3 Hfr. pose proof (frame_at _ _ _ Hfr Hat2) as Hat3.
  destruct Hfr as (_ & Hv3 & Hr3 & Hp3). rewrite Hv2 in Hv3. rewrite Hr2 in Hr3. rewrite Hp2 in Hp3.
  destruct ctx as [msg|packet].
  { apply wp_bind, (wp_fail_run _ _ _ _ RUN_REVIEWING); [done|by compute_done|by rewrite Hp3| |].
    - eauto with raises.
    - intros r s' Hr. by apply wp_ret. }
  apply wp_bind, wp_call. intros d w Hw. destruct d as [x|decision].
  { apply wp_bind. eapply wp_mono; [apply (wp_review_failed developer x s)| |done].
    - done.
    - cbn. by rewrite Hp3.
    - by apply (review_raises P HC _ _ _ _ _ _ Hw).
    - intros r s' Hr. by apply wp_ret. }
  apply wp_modify_bind. set (s4 := add_review _ _).
  assert (at_state RUN_REVIEWING s4) as Hat4.
  { destruct Hat3 as (? & ? & ? & ? & _). split; [done|split; [done|]]. unfold bounded. cbn.
    rewrite Hv3, Hr3, length_app in *. split; [done|split; [done|]]. cbn in *. lia. }
  destruct (decide (rd_decision decision = PASS)) as [Hpass|_].
  - apply wp_bind, (wp_transition _ RUN_REVIEWING); [done|by compute_done|].
    intros s5 Hat5 Hv5 Hr5 Hp5. apply wp_bind, (wp_result _ _ _ RUN_SUCCEEDED); [done|].
    intros r Hrep Hst Hcase. apply wp_ret. split; [done|]. rewrite Hst. split; [done|].
    split; [rewrite Hp5; cbn; by rewrite Hp3|]. left. destruct Hcase as [[_ Hfs]|[? _]]; [|done].
    split; [done|]. split; [done|]. split.
    + exists v. rewrite Hv5. cbn. by rewrite Hv3.
    + exists decision. rewrite Hr5. cbn. by rewrite last_snoc.
  - apply wp_lift_bind.
    2:{ intros e He. split; [by apply (raises_from_review escapes escapes_validation _ e He)|apply Hat4]. }
    intros failures _.
    apply (wp_repair_and_reverify _ _ _ _ RUN_REVIEWING); [done|done|by compute_done|by compute_done| |].
    + cbn. by rewrite Hp3.
    + cbn. by rewrite Hp3.
Qed.

Lemma wp_main_step fuel developer s :
  enough fuel → verifying s →
  wp (main_step self task fuel developer) (main_post developer s) stopped s.
Proof using HC Hself.
  intros Hf Hs. unfold main_step. apply wp_bind, wp_call. intros v w Hw. destruct v as [x|v].
  { apply wp_lift. split; [left; by apply (verify_raises P HC _ _ _ _ Hw)|].
    by destruct Hs as ((_ & _ & ?) & _). }
  apply wp_modify_bind.
  assert (verifying (set_world w s)) as Hs' by done.
  destruct (vr_passed v) eqn:Hp.
  - by apply (wp_verification_passed fuel developer v (set_world w s)).
  - by apply (wp_verification_failed fuel developer v (set_world w s)).
Qed.

Lemma wp_main_loop fuel developer s :
  enough fuel → verifying s →
  wp (while_true fuel (main_step self task fuel developer)) (run_ok developer) stopped s.
Proof using HC Hself.
  intros Hf Hs. apply (wp_while verifying remaining); [|done|by apply remaining_lt].
  intros s' Hs'. eapply wp_mono; [by apply wp_main_step| |done]. by intros [r|] s2 H.
Qed.

Lemma wp_develop_failed (Q : SingleTaskRunResult → RunState → Prop) x s :
  at_state RUN_RUNNING s → Forall settled (repairs s) →
  (caught_by_developer x = false → P (escaping x)) → (∀ r s', run_ok None r s' → Q r s') →
  wp (develop_failed self task x) Q stopped s.
Proof using HC Hself.
  intros Hat Hset Hx HQ.
  assert (caught_by_developer x = false → stopped (escaping x) s) as Hstop
    by (intros; split; [left; auto|apply Hat]).
  destruct x; cbn [develop_failed];
    try (destruct (subclass _ ValueError) eqn:Hve; [|by apply wp_lift, Hstop]);
    apply (wp_fail_run _ _ _ _ RUN_RUNNING); try (by compute_done); try done; eauto with raises.
Qed.

Lemma wp_developer_phase resume s :
  at_state RUN_RUNNING s → repairs s = [] → verifications s = [] → reviews s = [] →
  wp (developer_phase self task resume)
    (λ r s', match r with inl r => ∃ developer, run_ok developer r s' | inr _ => verifying s' end)
    stopped s.
Proof using HC Hself.
  intros Hat Hp0 Hv0 Hr0. unfold developer_phase.
  apply wp_bind, wp_build_context; [apply Hat|]. intros ctx s1 Hfr.
  pose proof (frame_at _ _ _ Hfr Hat) as Hat1. destruct Hfr as (_ & Hv1 & Hr1 & Hp1).
  rewrite Hv0 in Hv1. rewrite Hr0 in Hr1. rewrite Hp0 in Hp1.
  assert (Forall settled (repairs s1)) as Hset by by rewrite Hp1.
  destruct ctx as [msg|packet].
  { apply wp_bind, (wp_fail_run _ _ _ _ RUN_RUNNING); [done|by compute_done|done|eauto with raises|].
    intros r s' Hr. apply wp_ret. by exists None. }
  apply wp_bind, wp_call. intros d w Hw. destruct d as [x|developer].
  { apply wp_bind, wp_develop_failed; [done|done|by apply (develop_raises P HC _ _ _ _ _ Hw)|].
    intros r s' Hr. apply wp_ret. by exists None. }
  apply wp_bind, wp_read; [apply escapes_component, (changed_files_raises P HC)|apply Hat1|].
  intros changed. destruct changed as [|f changed].
  - destruct (decide _); (apply wp_bind, (wp_fail_run _ _ _ _ RUN_RUNNING);
      [done|by compute_done|done|eauto with raises|
       intros r s' Hr; apply wp_ret; by exists (Some developer)]).
  - apply wp_bind, (wp_transition _ RUN_RUNNING); [done|by compute_done|].
    intros s2 Hat2 Hv2 Hr2 Hp2. apply wp_ret. cbn in Hv2, Hp2. split; [done|].
    rewrite Hp2, Hp1, Hv2, Hv1. split; [by left|done].
Qed.

Lemma wp_run_fuel fuel resume first w :
  enough fuel →
  wp (run_fuel self task fuel resume first)
    (λ r s', ∃ developer, run_ok developer r s' ∧ (first = true → developer = None)) stopped
    (run_state_init w).
Proof using HC Hself.
  intros Hf. unfold run_fuel.
  assert (at_state RUN_PENDING (run_state_init w)) as Hat0.
  { split; [apply machine_ok_init|split; [done|]]. unfold bounded. cbn. lia. }
  apply wp_bind, (wp_transition _ RUN_PENDING); [done|by compute_done|].
  intros s1 Hat1 Hv1 Hr1 Hp1. cbn in Hv1, Hr1, Hp1. destruct first.
  - apply wp_bind, (wp_transition _ RUN_RUNNING); [done|by compute_done|].
    intros s2 Hat2 Hv2 Hr2 Hp2. eapply wp_mono; [apply wp_main_loop; [done|]| |done].
    + split; [done|]. rewrite Hp2, Hv2, Hp1, Hv1. split; [by left|done].
    + intros r s' Hr. by exists None.
  - apply wp_bind. eapply wp_mono; [by apply wp_developer_phase| |done].
    intros [r|developer] s2 H2.
    + destruct H2 as [developer H2]. apply wp_ret. by exists developer.
    + eapply wp_mono; [by apply wp_main_loop| |done]. intros r s' Hr. by exists (Some developer).
Qed.

Lemma run_contract resume first w :
  match run self task resume first w with
  | (Ok r, s') => ∃ developer, run_ok developer r s' ∧ (first = true → developer = None)
  | (Raise e, s') => stopped e s'
  end.
Proof using HC Hself. apply (wp_run_fuel _ resume first w). unfold enough, attempts. lia. Qed.
End contracts.

(** ** A concrete run: the world counts the edits; the hard gate passes from
    the second edit on. *)
Definition zeros (n : nat) : string := of_chars (replicate n "0"%char).
Definition sample_check (ok : bool) : CheckResult := {|
  cr_check_type := CT_TEST; cr_name := "pytest"; cr_command := Some "pytest -q";
  cr_passed := ok; cr_exit_code := Some (if ok then 0 else 1); cr_stdout := "";
  cr_stderr := if ok then "" else "1 failed"; cr_duration_ms := 5;
  cr_failure_type := if ok then None else Some TEST_FAILURE;
  cr_execution_backend := None; cr_execution_details := [];
|}.
#[local] Instance sample_components : Components := {|
  World := Z;
  ContextPacket := unit;
  cp_summary_version _ := "repository_summary_v1";
  cp_repository_head _ := zeros 40;
  cp_selected_files _ := [("app/a.py", zeros 64)];
  build _ _ w := (inr tt, w);
  develop _ _ w := (inr {|
    dr_stop_reason := DEV_MODEL_STOP; dr_iterations := 2; dr_tool_calls := 3;
    dr_final_message := "edited"; dr_changed_files := ["app/a.py"];
    dr_usage := {| prompt_tokens := 10; completion_tokens := 5; total_tokens := 15 |};
    dr_latency_ms := 7; dr_execution_budget := None; dr_tool_failure_evidence := [] |}, w + 1);
  verify _ w := (inr {| vr_passed := 2 <=? w; vr_checks := [sample_check (2 <=? w)] |}, w);
  review _ _ _ w := (inr {| rd_decision := PASS; rd_summary := "ok"; rd_issues := [] |}, w);
  repair _ _ attempt _ w := (inr {|
    rpr_attempt := attempt; rpr_failure_types := [TEST_FAILURE]; rpr_stop_reason := REP_MODEL_STOP;
    rpr_iterations := 1; rpr_tool_calls := 1; rpr_final_message := "fixed"; rpr_changed_files := [];
    rpr_progress := None;
    rpr_usage := {| prompt_tokens := 4; completion_tokens := 1; total_tokens := 5 |};
    rpr_latency_ms := 3 |}, w + 1);
  changed_files w := Ok (if w =? 0 then [] else ["app/a.py"]);
  head_commit _ := Ok (zeros 40);
  change_snapshot w := Ok {|
    wcs_changed_files := if w =? 0 then [] else ["app/a.py"];
    wcs_patch_hash := zeros 63 +:+ str_of_Z w;
    wcs_file_hashes := [("app/a.py", zeros 63 +:+ str_of_Z w)] |};
  sha256 _ := zeros 64;
|}.
Definition sample_orchestrator : SingleTaskOrchestrator := {|
  _minimum_repair_attempts := 0;
  _models := [(ROLE_DEVELOPER, "dev"); (ROLE_REVIEWER, "rev"); (ROLE_REPAIR, "rep")];
|}.
Definition sample_run_task (criteria : list string) : TaskContract := {|
  tc_task_id := "t1"; tc_objective := "edit"; tc_readable_files := []; tc_writable_files := ["app/*.py"];
  tc_readonly_files := []; tc_acceptance_criteria := criteria;
  tc_verification_commands := ["pytest -q"]; tc_max_retries := 2;
|}.
#[local] Notation sample_result := (run sample_orchestrator (sample_run_task ["works"]) None false (0%Z : @World sample_components)).

Lemma sample_init : ∃ d r p n, SingleTaskOrchestrator_init d r p n = Ok sample_orchestrator.
Proof. exists "dev", " rev", "rep ", 0. vm_compute. reflexivity. Defined.
Lemma sample_raises (P : exn → Prop) : components_raise P.
Proof. by split. Defined.

(** The run of the example: one repair, two verifications, a PASS. *)
Example sample_run_path :
  match sample_result with
  | (Ok r, _) => (re_state <$> sr_events r, length (sr_repairs r), length (sr_verifications r))
                 = ([RUN_PENDING; RUN_RUNNING; RUN_VERIFYING; RUN_REPAIRING; RUN_VERIFYING;
                     RUN_REVIEWING; RUN_SUCCEEDED], 1%nat, 2%nat)
  | _ => False
  end.
Proof. vm_compute. reflexivity. Qed.

(** C2.  The evidence-driven loop always ends, with success, a failure
    report or an exception: the iteration bound of the model is never
    reached.  Even when an exception escapes, at most
    [max(max_retries, minimum_repair_attempts)] repairs were made, every
    verification but the first followed a repair, and the reviewer was only
    asked about verifications that passed. *)
Theorem run_terminates `{C : Components} self task resume first w :
  (∃ d r p n, SingleTaskOrchestrator_init d r p n = Ok self) →
  components_raise (λ e, exn_kind e ≠ FuelExhausted) →
  let '(outcome, s) := run self task resume first w in
  (∀ e, outcome = Raise e → exn_kind e ≠ FuelExhausted)
  ∧ (Z.of_nat (length (repairs s)) ≤ 0 `max` repair_budget self task)
  ∧ (length (verifications s) ≤ S (length (repairs s)))%nat
  ∧ (length (reviews s) ≤ length (filter vr_passed (verifications s)))%nat.
Proof.
  intros Hself HC. pose proof (run_contract _ HC self task Hself resume first w) as H.
  destruct (run self task resume first w) as [[r|e] s].
  - destruct H as (developer & (_ & (_ & _ & Hb1 & Hb2 & Hb3) & _) & _).
    split; [done|]. unfold attempts in Hb1. split; [lia|done].
  - destruct H as (Hesc & Hb1 & Hb2 & Hb3). split.
    + intros e' [= <-]. destruct Hesc as [H|H]; [done|]. unfold is_validation_error in H.
      by rewrite H.
    + unfold attempts in Hb1. split; [lia|done].
Qed.

Lemma run_terminates_witness :
  let '(outcome, s) := sample_result in
  (∀ e, outcome = Raise e → exn_kind e ≠ FuelExhausted)
  ∧ (Z.of_nat (length (repairs s)) ≤ 0 `max` repair_budget sample_orchestrator (sample_run_task ["works"]))
  ∧ (length (verifications s) ≤ S (length (repairs s)))%nat
  ∧ (length (reviews s) ≤ length (filter vr_passed (verifications s)))%nat.
Proof.
  exact (run_terminates sample_orchestrator (sample_run_task ["works"]) None false (0%Z : @World sample_components)
           sample_init (sample_raises _)).
Defined.

(** C3.  An exception that escapes [run] is a [ValidationError] of one of
    the model constructors, or one that a component raised and that no
    [except] clause covers.  In particular the state machine never refuses a
    transition, [repair_result.progress is not None] holds, and provider
    errors, reviewer-output errors, exhausted budgets and [ValueError]s of
    the agents become failure reports. *)
Theorem run_exceptions `{C : Components} self task resume first w (P : exn → Prop) e s :
  (∃ d r p n, SingleTaskOrchestrator_init d r p n = Ok self) →
  components_raise P →
  run self task resume first w = (Raise e, s) →
  P e ∨ exn_kind e = ValidationError.
Proof.
  intros Hself HC Hrun. pose proof (run_contract _ HC self task Hself resume first w) as H.
  rewrite Hrun in H. apply H.
Qed.

(** C1.  A run ends SUCCEEDED only with hard and semantic evidence: its last
    verification passed, its last review is a PASS, and it reports no
    failure; a FAILED run reports at least one.  Its events are numbered from
    0 and follow allowed transitions from PENDING to its status.  A run
    resumed at verification has no Developer evidence. *)
Theorem run_verdict `{C : Components} self task resume first w r s :
  (∃ d r p n, SingleTaskOrchestrator_init d r p n = Ok self) →
  run self task resume first w = (Ok r, s) →
  (sr_status r = RUN_SUCCEEDED ∧ sr_failures r = []
     ∧ (∃ v, last (sr_verifications r) = Some v ∧ vr_passed v = true)
     ∧ (∃ d, last (sr_reviews r) = Some d ∧ rd_decision d = PASS)
   ∨ sr_status r = RUN_FAILED ∧ sr_failures r ≠ [])
  ∧ legal_events (sr_events r) (sr_status r)
  ∧ (Z.of_nat (length (sr_repairs r)) ≤ 0 `max` repair_budget self task)
  ∧ (length (sr_reviews r) ≤ length (filter vr_passed (sr_verifications r)))%nat
  ∧ (first = true → sr_developer r = None).
Proof.
  intros Hself Hrun.
  assert (components_raise (λ _, True)) as HC by by split.
  pose proof (run_contract _ HC self task Hself resume first w) as H. rewrite Hrun in H.
  destruct H as (developer & ((Hd & Hv & Hr & Hp & He & Hs) & (Hm & Hst & Hb1 & Hb2 & Hb3)
    & Hset & Hcase) & Hfirst).
  unfold machine_ok in Hm. rewrite Hd, Hv, Hr, Hp, He.
  split; [|split; [by rewrite Hs|split; [unfold attempts in Hb1; lia|by split]]].
  destruct Hcase as [(? & ? & ?)|?]; [left|by right]. done.
Qed.

Lemma run_verdict_witness :
  match sample_result with
  | (Ok r, _) => legal_events (sr_events r) (sr_status r)
  | _ => False
  end.
Proof.
  destruct sample_result as [[r|e] s] eqn:Hr; [|vm_compute in Hr; discriminate Hr].
  exact (proj1 (proj2 (run_verdict sample_orchestrator (sample_run_task ["works"]) None false (0%Z : @World sample_components) r s sample_init Hr))).
Defined.

(** No patch goes unverified: in the result of a run, every repair that
    changed the workspace records that deterministic validation ran on its
    patch (as repaired, ineffective, or progress), and every repair without
    a patch records that it did not. *)
Theorem run_repairs_verified `{C : Components} self task resume first w r s :
  (∃ d r p n, SingleTaskOrchestrator_init d r p n = Ok self) →
  run self task resume first w = (Ok r, s) →
  Forall (λ rp, ∃ p, rpr_progress rp = Some p ∧ rp_status p ≠ PATCH_PRODUCED
                     ∧ rp_validation_executed p = rp_has_patch p) (sr_repairs r).
Proof.
  intros Hself Hrun.
  assert (components_raise (λ _, True)) as HC by by split.
  pose proof (run_contract _ HC self task Hself resume first w) as H. rewrite Hrun in H.
  destruct H as (developer & ((_ & _ & _ & Hp & _) & _ & Hset & _) & _). by rewrite Hp.
Qed.
Lemma run_repairs_verified_witness :
  match sample_result with
  | (Ok r, _) => Forall (λ rp, ∃ p, rpr_progress rp = Some p ∧ rp_status p ≠ PATCH_PRODUCED
                     ∧ rp_validation_executed p = rp_has_patch p) (sr_repairs r)
  | _ => False
  end.
Proof.
  destruct sample_result as [[r|e] s] eqn:Hr; [|vm_compute in Hr; discriminate Hr].
  exact (run_repairs_verified sample_orchestrator (sample_run_task ["works"]) None false (0%Z : @World sample_components) r s sample_init Hr).
Defined.

(** A contract with 33 acceptance criteria, which [TaskContract] accepts. *)
Definition many_criteria : list string := (λ n, "criterion " +:+ str_of_Z (Z.of_nat n)) <$> seq 1 33.
Definition long_task : TaskContract := sample_run_task many_criteria.
#[local] Notation long_run := (run sample_orchestrator long_task None false (0%Z : @World sample_components)).

Lemma run_exceptions_witness :
  match long_run with
  | (Raise e, _) => False ∨ exn_kind e = ValidationError
  | _ => False
  end.
Proof.
  destruct long_run as [[r|e] s] eqn:Hr; [vm_compute in Hr; discriminate Hr|].
  exact (run_exceptions sample_orchestrator long_task None false (0%Z : @World sample_components) (λ _, False) e s sample_init (sample_raises _) Hr).
Defined.

Lemma read_bind `{C : Components} {A B} (f : World → Prelude.result A) (k : A → M RunState B) s :
  (read f ≫= k) s = match f (world s) with Ok a => k a s | Raise e => (Raise e, s) end.
Proof. unfold read, lift, get, mbind, M_bind. by destruct (f (world s)). Qed.

(** The repair handoff holds at most 32 acceptance criteria, a
    [TaskContract] any number: for a contract with more, the first repair
    attempt raises [ValidationError] outside the [try] of [_repair_once],
    after the machine entered REPAIRING, so [run] neither repairs nor
    returns a failure report. *)
Theorem long_contracts_break_repair `{C : Components} self task raw developer failures signature
    (s : RunState) files head :
  TaskContract_new raw = Ok task →
  (32 < length (tc_acceptance_criteria task))%nat →
  Z.of_nat (length (repairs s)) < repair_budget self task →
  machine_ok (machine s) → RUN_REPAIRING ∈ _ALLOWED_TRANSITIONS (_state (machine s)) →
  changed_files (world s) = Ok files → head_commit (world s) = Ok head →
  ∃ e s', _repair_once self task developer failures signature
            (Z.of_nat (length (repairs s)) + 1) s = (Raise e, s')
    ∧ exn_kind e = ValidationError ∧ world s' = world s ∧ repairs s' = repairs s.
Proof.
  intros Hraw Hlong Hbudget Hm Hal Hfiles Hhead. unfold _repair_once.
  rewrite (proj2 (Z.ltb_ge _ _)) by lia.
  set (detail := "Fresh targeted repair attempt " +:+ _ +:+ " started.").
  destruct (transition RUN_REPAIRING detail s) as [[[]|e] s1] eqn:Ht.
  - assert (world s1 = world s ∧ repairs s1 = repairs s) as [Hw Hr].
    { unfold transition in Ht. inv_monad. unfold modify in *. by simplify_eq. }
    rewrite (M_bind_run _ _ _ _ _ Ht). cbn beta iota. rewrite read_bind, Hw.
    destruct (_repair_handoff _ _ (world s)) as [h|e] eqn:Hh.
    + exfalso. unfold _repair_handoff in Hh. rewrite Hfiles in Hh. cbn [mbind result_bind] in Hh.
      destruct (_repair_failure_hint failures) as [[kind path] symbol].
      rewrite Hhead in Hh. cbn [mbind result_bind] in Hh. inv_monad.
      unfold RepairHandoff_new in Hh. inv_valid. to_prop. cbn in *.
      match goal with H : (length _ <=? 32)%nat = true |- _ => apply Nat.leb_le in H; lia end.
    + exists e, s1. split; [done|]. split; [|done].
      unfold _repair_handoff in Hh. rewrite Hfiles in Hh. cbn [mbind result_bind] in Hh.
      destruct (_repair_failure_hint failures) as [[kind path] symbol].
      rewrite Hhead in Hh. cbn [mbind result_bind] in Hh.
      refine (raises_bind is_validation_error _ _ _ _ e Hh).
      * apply raises_map. intros f. by apply raises_failure_digest.
      * intros ds _. by apply raises_handoff.
  - rewrite (M_bind_raise _ _ _ _ _ Ht). exists e, s1. split; [done|].
    unfold transition in Ht. rewrite get_run, ensure_run in Ht by by apply bool_decide_eq_true.
    unfold modify, lift, mbind, M_bind in Ht.
    destruct (RunEvent_new _) as [ev|x] eqn:Hev; [done|]. injection Ht as -> <-. split; [|done].
    by apply (raises_event is_validation_error (λ e H, H) _ _ Hev).
Qed.

Definition long_state : @RunState sample_components :=
  set_machine {| _state := RUN_VERIFYING;
                 _events := [{| re_sequence := 0; re_state := RUN_PENDING; re_detail := "c" |};
                             {| re_sequence := 1; re_state := RUN_RUNNING; re_detail := "r" |};
                             {| re_sequence := 2; re_state := RUN_VERIFYING; re_detail := "v" |}] |}
    (run_state_init (1 : @World sample_components)).
Lemma long_contracts_break_repair_witness :
  ∃ e s', _repair_once sample_orchestrator long_task None [import_error_report] (zeros 64)
            (Z.of_nat (length (repairs long_state)) + 1) long_state = (Raise e, s')
    ∧ exn_kind e = ValidationError ∧ world s' = world long_state ∧ repairs s' = repairs long_state.
Proof.
  apply (long_contracts_break_repair sample_orchestrator long_task long_task None
           [import_error_report] (zeros 64) long_state ["app/a.py"] (zeros 40)).
  - vm_compute. reflexivity.
  - vm_compute. lia.
  - vm_compute. reflexivity.
  - do 3 (split; [vm_compute; reflexivity|]).
    intros [|[|[|i]]] a b [= <-] [= <-]; by_compute.
  - by_compute.
  - vm_compute. reflexivity.
  - vm_compute. reflexivity.
Defined.
