(* ===== verification/Recovery.v ===== *)
(** * Recovery: the diagnosis of a persisted run

    [models/dispatch.py], [models/checkpoint.py], [models/continuation.py],
    [persistence/types.py], [models/recovery.py] and [runtime/recovery.py]:
    from a persisted snapshot and the leases of its tasks,
    [RecoveryStateClassifier] derives one disposition per task.  Evidence
    payloads are JSON; how Pydantic reads a JSON object into the fields of a
    model is a parameter, the validators of the models are not.  Error
    messages name the violated rule without the identifiers of the source. *)
From Stdlib Require Import QArith.
From stdpp Require Import options.
From S2P Require Import Prelude Contracts Json RunModels Lease.
Open Scope Z_scope.

(** ** [models/checkpoint.py], [models/continuation.py] *)
Inductive CheckpointReason : Set :=
  | CR_TIME_LIMIT | CR_ITERATION_LIMIT | CR_TOOL_CALL_LIMIT | CR_RUN_TOKEN_BUDGET_EXHAUSTED
  | CR_VERIFICATION_FAILURE.
Record TaskCheckpoint : Set := {
  cpt_task_id : string;
  cpt_base_commit : string;
  cpt_commit_sha : string;
  cpt_changed_files : list string;
  cpt_reason : CheckpointReason;
  cpt_summary : string;
  cpt_slice_index : Z;
  cpt_max_slices : Z;
  cpt_elapsed_ms : Z;
  cpt_resume_from_commit : option string;
  cpt_completed_summary : string;
  cpt_remaining_summary : string;
  cpt_verification_summary : string;
  cpt_failure_summary : string;
  cpt_completed_interfaces : list string;
  cpt_remaining_interfaces : list string;
  cpt_remaining_budget_tokens : option Z;
  cpt_context_state : option ContextContinuationState;
}.
Record TaskContinuationSummary : Set := {
  tcs_slices_started : Z;
  tcs_max_slices : Z;
  tcs_total_budget_seconds : Q;
  tcs_elapsed_ms : Z;
  tcs_complexity_score : Z;
  tcs_resumed_from_commits : list string;
  tcs_stop_reason : string;
}.

(** ** [models/dispatch.py] *)
Inductive WorkerExecutionStatus : Set := WE_SUCCEEDED | WE_FAILED.
#[export] Instance WorkerExecutionStatus_eq_dec : EqDecision WorkerExecutionStatus.
Proof. solve_decision. Defined.
Inductive WorkerDispatchPhase : Set := RECEIVED | COMPLETED.
#[export] Instance WorkerDispatchPhase_eq_dec : EqDecision WorkerDispatchPhase.
Proof. solve_decision. Defined.

Record TaskDispatchReceipt : Set := {
  tdr_dispatch_id : UUID;
  tdr_run_id : UUID;
  tdr_task_id : string;
  tdr_broker_message_id : string;
  tdr_queue_name : string;
}.

Record WorkerDispatchEvent : Set := {
  wde_dispatch_id : UUID;
  wde_run_id : UUID;
  wde_task_id : string;
  wde_phase : WorkerDispatchPhase;
  wde_outcome : option WorkerExecutionStatus;
}.
Definition validate_phase_shape (self : WorkerDispatchEvent) : result WorkerDispatchEvent :=
  valid_if (negb (bool_decide (wde_phase self = RECEIVED) && negb (is_none (wde_outcome self))))
    "RECEIVED dispatch events must not claim an execution outcome" ;;
  valid_if (negb (bool_decide (wde_phase self = COMPLETED) && is_none (wde_outcome self)))
    "COMPLETED dispatch events require an execution outcome" ;;
  Ok self.
Definition WorkerDispatchEvent_new (raw : WorkerDispatchEvent) : result WorkerDispatchEvent :=
  valid_if (text_ok 1 128 (wde_task_id raw)) "task_id" ;;
  validate_phase_shape raw.

Record WorkerExecutionEvidence : Set := {
  we_dispatch_id : UUID;
  we_run_id : UUID;
  we_task_id : string;
  we_status : WorkerExecutionStatus;
  we_base_commit : string;
  we_branch_name : option string;
  we_commit_sha : option string;
  we_checkpoint : option TaskCheckpoint;
  we_continuation : option TaskContinuationSummary;
  we_run_result : option SingleTaskRunResult;
  we_failures : list FailureReport;
  we_duration_ms : Z;
}.
Definition validate_terminal_shape (self : WorkerExecutionEvidence) : result WorkerExecutionEvidence :=
  valid_if (match we_run_result self with
            | Some r => bool_decide (sr_task_id r = we_task_id self)
            | None => true
            end) "worker execution evidence must match the nested task run id" ;;
  match we_status self with
  | WE_SUCCEEDED =>
      valid_if (match we_run_result self with
                | Some r => bool_decide (sr_status r = RUN_SUCCEEDED)
                | None => false
                end) "successful worker execution requires successful runtime evidence" ;;
      valid_if (bool_decide (we_failures self = []))
        "successful worker execution must not contain failures" ;;
      valid_if (negb (is_none (we_commit_sha self)))
        "successful worker execution requires a task commit" ;;
      valid_if (is_none (we_checkpoint self))
        "successful worker execution must not contain a continuation checkpoint" ;;
      Ok self
  | WE_FAILED =>
      valid_if (is_none (we_commit_sha self))
        "failed worker execution must not publish a successful task commit" ;;
      valid_if (match we_checkpoint self with
                | Some c => bool_decide (cpt_task_id c = we_task_id self)
                | None => true
                end) "worker checkpoint must match the failed task" ;;
      valid_if (negb (bool_decide (we_failures self = [])
                      && match we_run_result self with
                         | Some r => negb (bool_decide (sr_status r = RUN_FAILED))
                         | None => true
                         end)) "failed worker execution requires explicit failure evidence" ;;
      Ok self
  end.
Definition WorkerExecutionEvidence_new (raw : WorkerExecutionEvidence)
    : result WorkerExecutionEvidence :=
  valid_if (text_ok 1 128 (we_task_id raw)) "task_id" ;;
  valid_if (hex_string is_lower_hex 40 64 (we_base_commit raw)) "base_commit" ;;
  valid_if (match we_branch_name raw with Some b => text_ok 1 255 b | None => true end)
    "branch_name" ;;
  valid_if (match we_commit_sha raw with Some c => hex_string is_lower_hex 40 64 c | None => true end)
    "commit_sha" ;;
  valid_if (0 <=? we_duration_ms raw) "duration_ms" ;;
  validate_terminal_shape raw.

(** ** [persistence/types.py] *)
Inductive PersistenceEvidenceKind : Set :=
  | STATE_TRANSITION | DEVELOPER_RUN | VERIFICATION_RESULT | REVIEW_DECISION | REPAIR_RUN
  | FAILURE_REPORT | MERGE_QUEUE_SNAPSHOT | EK_MERGE_CONFLICT | INTEGRATION_GATE | HUMAN_DECISION
  | INTEGRATION_REPAIR | CONTEXT_REFERENCE | DISPATCH_EVENT | WORKER_EXECUTION | TRACE_BATCH
  | OPERATOR_ACTION | TASK_CHECKPOINT | WORKFLOW_MATCH | WORKFLOW_EXECUTION.
#[export] Instance PersistenceEvidenceKind_eq_dec : EqDecision PersistenceEvidenceKind.
Proof. solve_decision. Defined.

Inductive PersistedRunStatus : Set := PRS_RUNNING | PRS_SUCCEEDED | PRS_FAILED.
#[export] Instance PersistedRunStatus_eq_dec : EqDecision PersistedRunStatus.
Proof. solve_decision. Defined.
Definition PersistedRunStatus_value (s : PersistedRunStatus) : string :=
  match s with
  | PRS_RUNNING => "RUNNING" | PRS_SUCCEEDED => "SUCCEEDED" | PRS_FAILED => "FAILED"
  end.
Definition from_task_state (state : TaskRunState) : result PersistedRunStatus :=
  match state with
  | RUN_SUCCEEDED => Ok PRS_SUCCEEDED
  | RUN_FAILED => Ok PRS_FAILED
  | _ => raise ValueError "only terminal task states can finalize a persisted run"
  end.

Record PersistedTask : Set := {
  pt_task : TaskContract;
  pt_contract_sha256 : string;
  pt_created_at : Z;
}.
Record PersistedEvidence : Set := {
  pe_id : Z;
  pe_run_id : UUID;
  pe_task_id : option string;
  pe_evidence_key : string;
  pe_kind : PersistenceEvidenceKind;
  pe_stage : option string;
  pe_sequence : option Z;
  pe_schema_version : Z;
  pe_payload : JSON;
  pe_payload_sha256 : string;
  pe_created_at : Z;
}.
Record PersistedRunSnapshot : Set := {
  prs_run_id : UUID;
  prs_project_id : UUID;
  prs_repository_url : string;
  prs_default_branch : string;
  prs_base_commit : string;
  prs_status : PersistedRunStatus;
  prs_display_status : string;
  prs_recovery_reason : option string;
  prs_recovery_checked_at : option Z;
  prs_tasks : list PersistedTask;
  prs_evidence : list PersistedEvidence;
  prs_terminal_result : option JSON;
  prs_terminal_result_sha256 : option string;
  prs_started_at : Z;
  prs_finished_at : option Z;
}.
Definition snapshot_task_ids (s : PersistedRunSnapshot) : list string :=
  (λ t, tc_task_id (pt_task t)) <$> prs_tasks s.
(** [PersistedRunSnapshot.validate_terminal_shape] *)
Definition PersistedRunSnapshot_new (raw : PersistedRunSnapshot) : result PersistedRunSnapshot :=
  valid_if (text_ok 1 2000 (prs_repository_url raw)) "repository_url" ;;
  valid_if (text_ok 1 255 (prs_default_branch raw)) "default_branch" ;;
  valid_if (hex_string is_lower_hex 40 64 (prs_base_commit raw)) "base_commit" ;;
  valid_if (opt_str_ok 1024 (prs_recovery_reason raw)) "recovery_reason" ;;
  valid_if (min_length 1 (prs_tasks raw)) "tasks" ;;
  valid_if (opt_sha256_ok (prs_terminal_result_sha256 raw)) "terminal_result_sha256" ;;
  valid_if (no_duplicates (snapshot_task_ids raw)) "persisted run tasks must have unique task ids" ;;
  if decide (prs_status raw = PRS_RUNNING) then
    valid_if (is_none (prs_terminal_result raw) && is_none (prs_terminal_result_sha256 raw))
      "running persisted runs must not contain terminal result evidence" ;;
    valid_if (is_none (prs_finished_at raw)) "running persisted runs must not have finished_at" ;;
    Ok raw
  else
    valid_if (negb (is_none (prs_terminal_result raw) || is_none (prs_terminal_result_sha256 raw)))
      "terminal persisted runs require terminal result evidence" ;;
    valid_if (negb (is_none (prs_finished_at raw))) "terminal persisted runs require finished_at" ;;
    Ok raw.

(** ** [models/recovery.py] *)
Inductive RecoveryDisposition : Set :=
  | NO_ACTION_RUN_TERMINAL | WAIT_ACTIVE_OWNER | RESUME_FROM_TERMINAL_EVIDENCE
  | REDISPATCH_CANDIDATE_EXPIRED_GENERATION | BLOCKED_UNOWNED_DISPATCH_AMBIGUITY
  | BLOCKED_RELEASED_EVIDENCE_GAP.
#[export] Instance RecoveryDisposition_eq_dec : EqDecision RecoveryDisposition.
Proof. solve_decision. Defined.

Record TaskRecoveryAssessment : Set := {
  tra_run_id : UUID;
  tra_task_id : string;
  tra_disposition : RecoveryDisposition;
  tra_lease_state : TaskLeaseState;
  tra_lease_generation : Z;
  tra_lease_dispatch_id : option UUID;
  tra_observed_at : Z;
  tra_worker_execution_status : option WorkerExecutionStatus;
  tra_worker_execution_evidence_id : option Z;
  tra_reason : string;
}.
Definition validate_recovery_shape (self : TaskRecoveryAssessment) : result TaskRecoveryAssessment :=
  let status := tra_worker_execution_status self in
  valid_if (eqb (is_none status) (is_none (tra_worker_execution_evidence_id self)))
    "worker execution status and evidence id must either both be present or both be absent" ;;
  (if decide (tra_lease_state self = UNOWNED) then
     valid_if ((tra_lease_generation self =? 0) && is_none (tra_lease_dispatch_id self))
       "UNOWNED recovery assessments require generation zero and no dispatch"
   else
     valid_if (negb ((tra_lease_generation self <? 1) || is_none (tra_lease_dispatch_id self)))
       "owned recovery assessments require generation and dispatch identity") ;;
  match tra_disposition self with
  | NO_ACTION_RUN_TERMINAL => Ok self
  | WAIT_ACTIVE_OWNER =>
      valid_if (bool_decide (tra_lease_state self = ACTIVE))
        "WAIT_ACTIVE_OWNER requires an ACTIVE lease" ;;
      Ok self
  | RESUME_FROM_TERMINAL_EVIDENCE =>
      valid_if (negb (is_none status))
        "RESUME_FROM_TERMINAL_EVIDENCE requires accepted worker execution evidence" ;;
      Ok self
  | REDISPATCH_CANDIDATE_EXPIRED_GENERATION =>
      valid_if (bool_decide (tra_lease_state self = EXPIRED))
        "REDISPATCH_CANDIDATE_EXPIRED_GENERATION requires an EXPIRED lease" ;;
      valid_if (is_none status)
        "redispatch candidates must not already have terminal worker evidence" ;;
      Ok self
  | BLOCKED_UNOWNED_DISPATCH_AMBIGUITY =>
      valid_if (bool_decide (tra_lease_state self = UNOWNED))
        "unowned dispatch ambiguity requires an UNOWNED lease" ;;
      Ok self
  | BLOCKED_RELEASED_EVIDENCE_GAP =>
      valid_if (bool_decide (tra_lease_state self = RELEASED))
        "released evidence gap requires a RELEASED lease" ;;
      valid_if (is_none status) "released evidence gaps must not claim terminal worker evidence" ;;
      Ok self
  end.
Definition TaskRecoveryAssessment_new (raw : TaskRecoveryAssessment) : result TaskRecoveryAssessment :=
  valid_if (text_ok 1 128 (tra_task_id raw)) "task_id" ;;
  valid_if (0 <=? tra_lease_generation raw) "lease_generation" ;;
  valid_if (match tra_worker_execution_evidence_id raw with Some n => 1 <=? n | None => true end)
    "worker_execution_evidence_id" ;;
  valid_if (text_ok 1 1000 (tra_reason raw)) "reason" ;;
  validate_recovery_shape raw.

Record RunRecoveryPlan : Set := {
  rrp_run_id : UUID;
  rrp_run_status : PersistedRunStatus;
  rrp_observed_at : Z;
  rrp_tasks : list TaskRecoveryAssessment;
}.
(** [validate_plan_shape] *)
Definition RunRecoveryPlan_new (raw : RunRecoveryPlan) : result RunRecoveryPlan :=
  valid_if (min_length 1 (rrp_tasks raw)) "tasks" ;;
  valid_if (forallb (λ t, bool_decide (tra_run_id t = rrp_run_id raw)) (rrp_tasks raw))
    "recovery plan tasks must belong to the plan Run" ;;
  valid_if (forallb (λ t, bool_decide (tra_observed_at t = rrp_observed_at raw)) (rrp_tasks raw))
    "recovery plan tasks must share one observation time" ;;
  valid_if (no_duplicates (tra_task_id <$> rrp_tasks raw))
    "recovery plan tasks must have unique task ids" ;;
  Ok raw.

(** ** [runtime/recovery.py] *)
Definition corrupt {A} (msg : string) : result A := raise PersistenceCorruptionError msg.
Definition sound_if (b : bool) (msg : string) : result unit := check b PersistenceCorruptionError msg.

(** The dicts of [_decode_worker_side_evidence]: executions by task and
    dispatch, evidence ids by task, dispatch and phase. *)
Notation Executions := (gmap (string * UUID) (Z * WorkerExecutionEvidence)).
Notation Dispatches := (gmap (string * UUID * bool) Z).
Definition is_completed (p : WorkerDispatchPhase) : bool := bool_decide (p = COMPLETED).

Section classifier.
(** How Pydantic reads the fields of the two payload models. *)
Context (read_execution : JSON → result WorkerExecutionEvidence).
Context (read_dispatch : JSON → result WorkerDispatchEvent).

(** [WorkerExecutionEvidence.model_validate(payload)] *)
Definition validate_execution (payload : JSON) : result WorkerExecutionEvidence :=
  raw ← read_execution payload; WorkerExecutionEvidence_new raw.
Definition validate_dispatch (payload : JSON) : result WorkerDispatchEvent :=
  raw ← read_dispatch payload; WorkerDispatchEvent_new raw.

(** [_validate_leases]: the leases by task. *)
Definition add_lease (snapshot : PersistedRunSnapshot) (observed_at : Z)
    (acc : gmap string TaskLeaseSnapshot) (lease : TaskLeaseSnapshot)
    : result (gmap string TaskLeaseSnapshot) :=
  sound_if (bool_decide (ls_run_id lease = prs_run_id snapshot))
    "recovery lease run identity disagrees with persisted Run" ;;
  sound_if (bool_decide (acc !! ls_task_id lease = None))
    "recovery snapshot contains duplicate lease for task" ;;
  sound_if (ls_observed_at lease =? observed_at)
    "recovery lease snapshots must share one database observation time" ;;
  Ok (<[ls_task_id lease := lease]> acc).
(** The observation time of the first lease. *)
Definition first_observation (leases : list TaskLeaseSnapshot) : Z :=
  match leases with l :: _ => ls_observed_at l | [] => 0 end.
Definition _validate_leases (snapshot : PersistedRunSnapshot) (task_ids : list string)
    (leases : list TaskLeaseSnapshot) : result (gmap string TaskLeaseSnapshot) :=
  lease_by_task ← fold_result (add_lease snapshot (first_observation leases)) ∅ leases;
  sound_if (bool_decide (dom lease_by_task = (list_to_set task_ids : gset string)))
    "recovery lease/task identities disagree" ;;
  Ok lease_by_task.

Definition _validated_task_scope (snapshot : PersistedRunSnapshot) (evidence : PersistedEvidence)
    (known_task_ids : list string) : result string :=
  sound_if (bool_decide (pe_run_id evidence = prs_run_id snapshot))
    "persisted evidence disagrees with recovery Run identity" ;;
  match pe_task_id evidence with
  | Some t =>
      sound_if (bool_decide (t ∈ known_task_ids))
        "worker-side evidence is not bound to a known persisted task" ;;
      Ok t
  | None => corrupt "worker-side evidence is not bound to a known persisted task"
  end.

Definition _validate_payload_identity (snapshot : PersistedRunSnapshot)
    (evidence : PersistedEvidence) (payload_run_id : UUID) (payload_task_id : string) : result unit :=
  sound_if (bool_decide (payload_run_id = prs_run_id snapshot)
            && bool_decide (payload_run_id = pe_run_id evidence))
    "worker-side evidence payload Run identity mismatch" ;;
  sound_if (bool_decide (Some payload_task_id = pe_task_id evidence))
    "worker-side evidence payload Task identity mismatch".

(** One row of the loop of [_decode_worker_side_evidence]. *)
Definition decode_row (snapshot : PersistedRunSnapshot) (known_task_ids : list string)
    (acc : Executions * Dispatches) (evidence : PersistedEvidence)
    : result (Executions * Dispatches) :=
  let '(workers, dispatches) := acc in
  match pe_kind evidence with
  | WORKER_EXECUTION =>
      task_id ← _validated_task_scope snapshot evidence known_task_ids;
      execution ← validate_execution (pe_payload evidence);
      _validate_payload_identity snapshot evidence (we_run_id execution) (we_task_id execution) ;;
      sound_if (bool_decide (workers !! (task_id, we_dispatch_id execution) = None))
        "multiple terminal WORKER_EXECUTION evidence rows exist for one dispatch" ;;
      Ok (<[(task_id, we_dispatch_id execution) := (pe_id evidence, execution)]> workers, dispatches)
  | DISPATCH_EVENT =>
      task_id ← _validated_task_scope snapshot evidence known_task_ids;
      dispatch ← validate_dispatch (pe_payload evidence);
      _validate_payload_identity snapshot evidence (wde_run_id dispatch) (wde_task_id dispatch) ;;
      let key := (task_id, wde_dispatch_id dispatch, is_completed (wde_phase dispatch)) in
      sound_if (bool_decide (dispatches !! key = None))
        "duplicate worker dispatch phase evidence exists for dispatch" ;;
      Ok (workers, <[key := pe_id evidence]> dispatches)
  | _ => Ok acc
  end.
Definition _decode_worker_side_evidence (snapshot : PersistedRunSnapshot)
    (known_task_ids : list string) : result (Executions * Dispatches) :=
  '(workers, dispatches) ← fold_result (decode_row snapshot known_task_ids) (∅, ∅)
                             (prs_evidence snapshot);
  sound_if (forallb (λ k, negb k.1.2 || bool_decide (is_Some (workers !! k.1.1)))
              (map_to_list dispatches))
    "COMPLETED dispatch evidence exists without terminal WORKER_EXECUTION evidence" ;;
  Ok (workers, dispatches).

(** The evidence of one task, [worker_evidence.get(task_id)] being truthy. *)
Definition has_worker_evidence (task_id : string) (workers : Executions) (dispatches : Dispatches) : bool :=
  existsb (λ k, bool_decide (k.1.1 = task_id)) (map_to_list workers)
  || existsb (λ k, bool_decide (k.1.1.1 = task_id)) (map_to_list dispatches).

Definition _validate_unowned_worker_evidence (leases : list TaskLeaseSnapshot)
    (workers : Executions) (dispatches : Dispatches) : result unit :=
  sound_if (forallb (λ l, negb (bool_decide (ls_state l = UNOWNED)
                                && has_worker_evidence (ls_task_id l) workers dispatches)) leases)
    "UNOWNED task contains worker-side evidence".

Definition _assessment (snapshot : PersistedRunSnapshot) (lease : TaskLeaseSnapshot)
    (disposition : RecoveryDisposition) (reason : string)
    (worker : option (Z * WorkerExecutionEvidence)) : result TaskRecoveryAssessment :=
  TaskRecoveryAssessment_new {|
    tra_run_id := prs_run_id snapshot;
    tra_task_id := ls_task_id lease;
    tra_disposition := disposition;
    tra_lease_state := ls_state lease;
    tra_lease_generation := ls_generation lease;
    tra_lease_dispatch_id := ls_dispatch_id lease;
    tra_observed_at := ls_observed_at lease;
    tra_worker_execution_status := (λ w, we_status w.2) <$> worker;
    tra_worker_execution_evidence_id := fst <$> worker;
    tra_reason := reason;
  |}.

Definition _classify_task (snapshot : PersistedRunSnapshot) (lease : TaskLeaseSnapshot)
    (workers : Executions) (dispatches : Dispatches) : result TaskRecoveryAssessment :=
  if negb (bool_decide (prs_status snapshot = PRS_RUNNING)) then
    _assessment snapshot lease NO_ACTION_RUN_TERMINAL
      "Persisted Run is terminal; recovery must not reopen it." None
  else if bool_decide (ls_state lease = UNOWNED) then
    sound_if (negb (has_worker_evidence (ls_task_id lease) workers dispatches))
      "UNOWNED task contains worker-side evidence" ;;
    _assessment snapshot lease BLOCKED_UNOWNED_DISPATCH_AMBIGUITY
      "Task is UNOWNED, but V1.0 has no durable dispatcher-intent ledger to prove whether a broker message is absent or merely awaiting lease acquisition."
      None
  else
    dispatch_id ← of_option (Exn AssertionError "lease.dispatch_id is not None") (ls_dispatch_id lease);
    let current_worker := workers !! (ls_task_id lease, dispatch_id) in
    match ls_state lease, current_worker with
    | ACTIVE, _ =>
        _assessment snapshot lease WAIT_ACTIVE_OWNER
          "Current lease generation is ACTIVE under database time; recovery must not race the live fenced owner."
          current_worker
    | _, Some _ =>
        _assessment snapshot lease RESUME_FROM_TERMINAL_EVIDENCE
          "Accepted terminal WORKER_EXECUTION evidence already exists for the current dispatch; downstream recovery should resume from that evidence instead of rerunning agent/tool execution."
          current_worker
    | EXPIRED, None =>
        _assessment snapshot lease REDISPATCH_CANDIDATE_EXPIRED_GENERATION
          "Current generation is EXPIRED and has no terminal WORKER_EXECUTION evidence. This is a redispatch candidate only; mutation still requires fresh locked revalidation."
          None
    | RELEASED, None =>
        _assessment snapshot lease BLOCKED_RELEASED_EVIDENCE_GAP
          "Lease ownership was RELEASED without terminal WORKER_EXECUTION evidence. Released generations are durable ownership history and cannot be silently reacquired by recovery."
          None
    | UNOWNED, None => corrupt "unsupported task lease state in recovery classifier"
    end.

(** [RecoveryStateClassifier.classify] *)
Definition classify (snapshot : PersistedRunSnapshot) (leases : list TaskLeaseSnapshot)
    : result RunRecoveryPlan :=
  let task_ids := snapshot_task_ids snapshot in
  lease_by_task ← _validate_leases snapshot task_ids leases;
  '(workers, dispatches) ← _decode_worker_side_evidence snapshot task_ids;
  _validate_unowned_worker_evidence leases workers dispatches ;;
  assessments ← map_result (λ task_id,
      lease ← of_option (Exn KeyError task_id) (lease_by_task !! task_id);
      _classify_task snapshot lease workers dispatches) task_ids;
  RunRecoveryPlan_new {|
    rrp_run_id := prs_run_id snapshot;
    rrp_run_status := prs_status snapshot;
    rrp_observed_at := first_observation leases;
    rrp_tasks := assessments;
  |}.
End classifier.

(** ** What the classifier concludes *)
Section facts.
Context (read_execution : JSON → result WorkerExecutionEvidence).
Context (read_dispatch : JSON → result WorkerDispatchEvent).
#[local] Notation validate_execution := (validate_execution read_execution).
#[local] Notation validate_dispatch := (validate_dispatch read_dispatch).
#[local] Notation decode_row := (decode_row read_execution read_dispatch).

(** Terminal worker evidence [i], [x] of dispatch [d] of task [t] is persisted. *)
Definition accepted_execution (snapshot : PersistedRunSnapshot) (t : string) (d : UUID)
    (i : Z) (x : WorkerExecutionEvidence) : Prop :=
  ∃ e, e ∈ prs_evidence snapshot ∧ pe_kind e = WORKER_EXECUTION ∧ pe_task_id e = Some t
       ∧ pe_id e = i ∧ validate_execution (pe_payload e) = Ok x ∧ we_dispatch_id x = d.

Lemma task_scope_inv snapshot e known t :
  _validated_task_scope snapshot e known = Ok t →
  pe_run_id e = prs_run_id snapshot ∧ pe_task_id e = Some t ∧ t ∈ known.
Proof using.
  unfold _validated_task_scope, sound_if. intros H. inv_monad. destruct (pe_task_id e); [|done].
  inv_monad. by to_prop.
Qed.

Lemma decode_row_inv snapshot known W D e W' D' :
  decode_row snapshot known (W, D) e = Ok (W', D') →
  (∀ t d i x, W' !! (t, d) = Some (i, x) ↔
     W !! (t, d) = Some (i, x)
     ∨ (pe_kind e = WORKER_EXECUTION ∧ pe_task_id e = Some t ∧ pe_id e = i
        ∧ validate_execution (pe_payload e) = Ok x ∧ we_dispatch_id x = d)).
Proof using.
  intros H t d i x. unfold decode_row in H. destruct (pe_kind e);
    try (injection H as <- <-; split; [auto|]; by intros [?|[? _]]).
  { inv_monad. split; [auto|]. by intros [?|[? _]]. }
  inv_monad. unfold sound_if in *. inv_monad.
  apply task_scope_inv in H0 as (_ & Ht & _). to_prop.
  destruct (decide ((a, we_dispatch_id a0) = (t, d))) as [[= -> <-]|Hne].
  - rewrite lookup_insert_eq. split.
    + intros [= <- <-]. right. done.
    + intros [Hc|(_ & _ & <- & Hx & _)]; congruence.
  - rewrite lookup_insert_ne by done. split; [auto|]. intros [?|(_ & Ht' & _ & Hx & Hd)]; [done|].
    exfalso. apply Hne. congruence.
Qed.

Lemma decode_fold_inv snapshot known evs W D W' D' :
  fold_result (decode_row snapshot known) (W, D) evs = Ok (W', D') →
  (∀ t d i x, W' !! (t, d) = Some (i, x) ↔
     W !! (t, d) = Some (i, x)
     ∨ ∃ e, e ∈ evs ∧ pe_kind e = WORKER_EXECUTION ∧ pe_task_id e = Some t ∧ pe_id e = i
        ∧ validate_execution (pe_payload e) = Ok x ∧ we_dispatch_id x = d).
Proof using.
  revert W D. induction evs as [|e evs IH]; intros W D; cbn [fold_result].
  - intros [= <- <-] t d i x. split; [auto|]. intros [?|(e & He & _)]; [done|].
    by apply not_elem_of_nil in He.
  - intros H. apply bind_Ok_inv in H as ([W1 D1] & H1 & H2). intros t d i x.
    rewrite (IH _ _ H2 t d i x), (decode_row_inv _ _ _ _ _ _ _ H1 t d i x).
    setoid_rewrite elem_of_cons. split.
    + intros [[?|?]|(e' & ? & ?)]; [auto|right; exists e; auto|right; exists e'; auto].
    + intros [?|(e' & [->|?] & ?)]; [auto|auto|right; by exists e'].
Qed.

Lemma decode_all_spec snapshot known W D :
  _decode_worker_side_evidence read_execution read_dispatch snapshot known = Ok (W, D) →
  ∀ t d i x, W !! (t, d) = Some (i, x) ↔ accepted_execution snapshot t d i x.
Proof using.
  unfold _decode_worker_side_evidence. intros H. inv_monad.
  intros t d i x. rewrite (decode_fold_inv _ _ _ _ _ _ _ H0 t d i x), lookup_empty.
  split; [by intros [?|?]|auto].
Qed.

(** The leases by task. *)
Lemma add_lease_fold snapshot o leases m m' :
  fold_result (add_lease snapshot o) m leases = Ok m' →
  (∀ t l, m' !! t = Some l ↔ m !! t = Some l ∨ (l ∈ leases ∧ ls_task_id l = t))
  ∧ Forall (λ l, ls_run_id l = prs_run_id snapshot ∧ ls_observed_at l = o) leases.
Proof using.
  revert m. induction leases as [|l0 leases IH]; intros m; cbn [fold_result].
  - intros [= <-]. split; [|done]. intros t l. split; [auto|].
    intros [?|[Hl _]]; [done|by apply not_elem_of_nil in Hl].
  - intros H. apply bind_Ok_inv in H as (m1 & H1 & H2). destruct (IH _ H2) as [IH1 IH2].
    unfold add_lease, sound_if in H1. inv_monad. to_prop.
    split; [|constructor; [done|done]]. intros t l. rewrite IH1, elem_of_cons.
    destruct (decide (ls_task_id l0 = t)) as [<-|Hne].
    + rewrite lookup_insert_eq. split.
      * intros [[= <-]|[? ?]]; auto.
      * intros [?|[[->|?] ?]]; [congruence|auto|auto].
    + rewrite lookup_insert_ne by done. split.
      * intros [?|[? ?]]; auto.
      * intros [?|[[->|?] ?]]; [auto|done|auto].
Qed.

Lemma validate_leases_inv snapshot ids leases m :
  _validate_leases snapshot ids leases = Ok m →
  (∀ t l, m !! t = Some l ↔ l ∈ leases ∧ ls_task_id l = t)
  ∧ Forall (λ l, ls_run_id l = prs_run_id snapshot ∧ ls_observed_at l = first_observation leases) leases.
Proof using.
  unfold _validate_leases, sound_if. intros H. inv_monad.
  destruct (add_lease_fold _ _ _ _ _ H0) as [G1 G2]. split; [|done].
  intros t l. rewrite G1, lookup_empty. split; [by intros [?|?]|auto].
Qed.

Lemma assessment_inv snapshot lease disp reason w a :
  _assessment snapshot lease disp reason w = Ok a →
  tra_run_id a = prs_run_id snapshot ∧ tra_task_id a = ls_task_id lease ∧ tra_disposition a = disp
  ∧ tra_lease_state a = ls_state lease ∧ tra_lease_generation a = ls_generation lease
  ∧ tra_lease_dispatch_id a = ls_dispatch_id lease ∧ tra_observed_at a = ls_observed_at lease
  ∧ tra_worker_execution_status a = (λ w, we_status w.2) <$> w
  ∧ tra_worker_execution_evidence_id a = fst <$> w.
Proof using.
  unfold _assessment, TaskRecoveryAssessment_new, validate_recovery_shape. intros H. inv_valid.
  cbn in H. destruct disp; inv_valid; done.
Qed.

(** The table of the classifier. *)
Definition expected (status : PersistedRunStatus) (state : TaskLeaseState) (evidence : bool)
    : RecoveryDisposition :=
  match status, state, evidence with
  | PRS_RUNNING, UNOWNED, _ => BLOCKED_UNOWNED_DISPATCH_AMBIGUITY
  | PRS_RUNNING, ACTIVE, _ => WAIT_ACTIVE_OWNER
  | PRS_RUNNING, _, true => RESUME_FROM_TERMINAL_EVIDENCE
  | PRS_RUNNING, EXPIRED, false => REDISPATCH_CANDIDATE_EXPIRED_GENERATION
  | PRS_RUNNING, RELEASED, false => BLOCKED_RELEASED_EVIDENCE_GAP
  | _, _, _ => NO_ACTION_RUN_TERMINAL
  end.
(** The accepted evidence an assessment may report. *)
Definition reported (status : PersistedRunStatus) (lease : TaskLeaseSnapshot) (W : Executions)
    : option (Z * WorkerExecutionEvidence) :=
  match status, ls_state lease, ls_dispatch_id lease with
  | PRS_RUNNING, (ACTIVE | EXPIRED | RELEASED), Some d => W !! (ls_task_id lease, d)
  | _, _, _ => None
  end.

Lemma classify_task_inv snapshot lease W D a :
  _classify_task snapshot lease W D = Ok a →
  tra_run_id a = prs_run_id snapshot ∧ tra_task_id a = ls_task_id lease
  ∧ tra_lease_state a = ls_state lease ∧ tra_lease_generation a = ls_generation lease
  ∧ tra_lease_dispatch_id a = ls_dispatch_id lease ∧ tra_observed_at a = ls_observed_at lease
  ∧ tra_disposition a = expected (prs_status snapshot) (ls_state lease)
      (negb (is_none (reported (prs_status snapshot) lease W)))
  ∧ tra_worker_execution_status a = (λ w, we_status w.2) <$> reported (prs_status snapshot) lease W
  ∧ tra_worker_execution_evidence_id a = fst <$> reported (prs_status snapshot) lease W.
Proof using.
  unfold _classify_task, reported, sound_if. intros H.
  destruct (prs_status snapshot) eqn:Hs; cbn [negb bool_decide] in H;
    [|apply assessment_inv in H as (? & ? & ? & ? & ? & ? & ? & ? & ?); done..].
  rewrite bool_decide_true in H by done. cbn [negb] in H.
  destruct (ls_state lease) eqn:Hl.
  1:{ rewrite bool_decide_true in H by done. inv_monad.
      apply assessment_inv in H as (? & ? & ? & ? & ? & ? & ? & ? & ?). by rewrite Hl in *. }
  all: rewrite bool_decide_false in H by done.
  all: destruct (ls_dispatch_id lease) as [d|] eqn:Hd; [cbn [of_option mbind result_bind] in H|done].
  all: destruct (W !! (ls_task_id lease, d)) as [[i x]|] eqn:Hw.
  all: apply assessment_inv in H as (? & ? & ? & ? & ? & ? & ? & ? & ?).
  all: rewrite ?Hl, ?Hd in *; done.
Qed.
End facts.

Section plan.
Context (read_execution : JSON → result WorkerExecutionEvidence).
Context (read_dispatch : JSON → result WorkerDispatchEvent).

Lemma classify_inv snapshot leases plan :
  classify read_execution read_dispatch snapshot leases = Ok plan →
  ∃ W D m, _decode_worker_side_evidence read_execution read_dispatch snapshot (snapshot_task_ids snapshot) = Ok (W, D)
  ∧ _validate_leases snapshot (snapshot_task_ids snapshot) leases = Ok m
  ∧ Forall2 (λ t a, ∃ l, m !! t = Some l ∧ _classify_task snapshot l W D = Ok a)
      (snapshot_task_ids snapshot) (rrp_tasks plan)
  ∧ rrp_run_id plan = prs_run_id snapshot ∧ rrp_run_status plan = prs_status snapshot
  ∧ NoDup (tra_task_id <$> rrp_tasks plan).
Proof using.
  unfold classify. intros H. apply bind_Ok_inv in H as (m & Hm & H).
  apply bind_Ok_inv in H as ([W D] & HWD & H). apply bind_Ok_inv in H as (u & _ & H).
  apply bind_Ok_inv in H as (as_ & Has & H).
  unfold RunRecoveryPlan_new in H. inv_valid. to_prop. cbn in *.
  exists W, D, m. split; [done|]. split; [done|]. split; [|done].
  apply map_result_Ok in Has. eapply Forall2_impl; [exact Has|]. cbn. intros t b Hb.
  apply bind_Ok_inv in Hb as (l & Hl & Hb). exists l. split; [|done].
  by destruct (m !! t); [injection Hl as ->|].
Qed.

(** The assessments of a plan, as specified. *)
Definition assessed (snapshot : PersistedRunSnapshot) (l : TaskLeaseSnapshot)
    (a : TaskRecoveryAssessment) : Prop :=
  let current i x := ∃ d, ls_dispatch_id l = Some d
    ∧ accepted_execution read_execution snapshot (ls_task_id l) d i x in
  let owned := prs_status snapshot = PRS_RUNNING ∧ ls_state l ≠ UNOWNED in
  tra_run_id a = prs_run_id snapshot ∧ tra_task_id a = ls_task_id l
  ∧ tra_lease_state a = ls_state l ∧ tra_lease_generation a = ls_generation l
  ∧ tra_lease_dispatch_id a = ls_dispatch_id l ∧ tra_observed_at a = ls_observed_at l
  ∧ (∀ st i, tra_worker_execution_status a = Some st ∧ tra_worker_execution_evidence_id a = Some i ↔
       owned ∧ ∃ x, current i x ∧ we_status x = st)
  ∧ ∃ evidence : bool, tra_disposition a = expected (prs_status snapshot) (ls_state l) evidence
      ∧ (owned → (evidence = true ↔ ∃ i x, current i x)).

Lemma classify_task_assessed snapshot l W D a :
  _classify_task snapshot l W D = Ok a →
  (∀ t d i x, W !! (t, d) = Some (i, x) ↔ accepted_execution read_execution snapshot t d i x) →
  assessed snapshot l a.
Proof using.
  intros H HW. apply classify_task_inv in H as (? & ? & ? & ? & ? & ? & Hdisp & Hst & Hid).
  assert (∀ i x, reported (prs_status snapshot) l W = Some (i, x) ↔
    (prs_status snapshot = PRS_RUNNING ∧ ls_state l ≠ UNOWNED)
    ∧ ∃ d, ls_dispatch_id l = Some d ∧ accepted_execution read_execution snapshot (ls_task_id l) d i x)
    as Hrep.
  { intros i x. setoid_rewrite <- HW. unfold reported. split.
    - destruct (prs_status snapshot), (ls_state l), (ls_dispatch_id l); try done; eauto 10.
    - intros [[-> Hu] (d & -> & Hx)]. by destruct (ls_state l). }
  do 6 (split; [done|]). split.
  - intros st i. rewrite Hst, Hid. split.
    + intros [G1 G2]. destruct (reported _ _ _) as [[i' x]|] eqn:Hr; [|done].
      cbn in G1, G2. simplify_eq. destruct (proj1 (Hrep _ _) eq_refl) as [? ?]. eauto.
    + intros [Ho (x & Hx & <-)]. assert (reported (prs_status snapshot) l W = Some (i, x)) as ->
        by by apply Hrep. done.
  - exists (negb (is_none (reported (prs_status snapshot) l W))). split; [done|]. intros Ho. split.
    + destruct (reported _ _ _) as [[i x]|] eqn:Hr; [|done]. intros _.
      destruct (proj1 (Hrep _ _) eq_refl) as [_ ?]. eauto.
    + intros (i & x & Hx). assert (reported (prs_status snapshot) l W = Some (i, x)) as ->
        by by apply Hrep. done.
Qed.
End plan.

(** C39.  The recovery plan of a run has one assessment per persisted task, in
    task order, taken from that task's lease, with the disposition of the
    decision table: nothing for a terminal run; waiting for an ACTIVE owner;
    resuming exactly when terminal worker evidence of the lease's dispatch is
    persisted; redispatching exactly an EXPIRED generation without such
    evidence; blocking an UNOWNED task, and a RELEASED one without evidence.
    It reports a worker outcome iff that evidence is persisted. *)
Theorem classify_correct read_execution read_dispatch snapshot leases plan :
  classify read_execution read_dispatch snapshot leases = Ok plan →
  rrp_run_id plan = prs_run_id snapshot ∧ rrp_run_status plan = prs_status snapshot
  ∧ tra_task_id <$> rrp_tasks plan = snapshot_task_ids snapshot
  ∧ Forall (λ a, ∃ l, l ∈ leases ∧ assessed read_execution snapshot l a
                      ∧ ls_observed_at l = first_observation leases) (rrp_tasks plan).
Proof.
  intros H. destruct (classify_inv _ _ _ _ _ H) as (W & D & m & HW & Hm & Has & Hid & Hst & _).
  destruct (validate_leases_inv _ _ _ _ Hm) as [Hl Hobs].
  pose proof (decode_all_spec _ _ _ _ _ _ HW) as Hacc.
  split; [done|]. split; [done|].
  assert (Forall2 (λ t a, ∃ l, l ∈ leases ∧ ls_task_id l = t ∧ assessed read_execution snapshot l a)
            (snapshot_task_ids snapshot) (rrp_tasks plan)) as Hall.
  { eapply Forall2_impl; [exact Has|]. cbn. intros t a (l & Hlk & Ha).
    apply Hl in Hlk as [Hin Ht]. exists l. split; [done|]. split; [done|].
    by eapply classify_task_assessed. }
  split.
  - clear -Hall. induction Hall as [|t a ts as_ (l & _ & Ht & (_ & Ha & _)) _ IH]; [done|].
    cbn. rewrite IH. congruence.
  - apply Forall_forall. intros a Ha. apply list_elem_of_lookup in Ha as [i Hi].
    destruct (Forall2_lookup_r _ _ _ _ _ Hall Hi) as (t & _ & l & Hin & _ & Hassd).
    exists l. split; [done|]. split; [done|]. rewrite Forall_forall in Hobs. by apply Hobs.
Qed.

(** ** Consistent snapshots are always diagnosed *)
Section total.
Context (read_execution : JSON → result WorkerExecutionEvidence).
Context (read_dispatch : JSON → result WorkerDispatchEvent).

(** The worker-side key of a row: the execution of a dispatch, or one of its
    phases. *)
Inductive row_key : Set :=
  | ExecutionKey (t : string) (d : UUID)
  | PhaseKey (t : string) (d : UUID) (completed : bool).
Definition key_of (e : PersistedEvidence) : option row_key :=
  match pe_kind e, pe_task_id e with
  | WORKER_EXECUTION, Some t =>
      match validate_execution read_execution (pe_payload e) with
      | Ok x => Some (ExecutionKey t (we_dispatch_id x))
      | Raise _ => None
      end
  | DISPATCH_EVENT, Some t =>
      match validate_dispatch read_dispatch (pe_payload e) with
      | Ok x => Some (PhaseKey t (wde_dispatch_id x) (is_completed (wde_phase x)))
      | Raise _ => None
      end
  | _, _ => None
  end.

Definition keys_of (e : PersistedEvidence) : list row_key :=
  match key_of e with Some k => [k] | None => [] end.

(** A worker-side row belongs to the run and to a task, and its payload says so. *)
Definition row_sound (snapshot : PersistedRunSnapshot) (e : PersistedEvidence) : Prop :=
  (pe_kind e = WORKER_EXECUTION ∨ pe_kind e = DISPATCH_EVENT) →
  pe_run_id e = prs_run_id snapshot ∧ 1 <= pe_id e
  ∧ ∃ t, pe_task_id e = Some t ∧ t ∈ snapshot_task_ids snapshot
  ∧ (pe_kind e = WORKER_EXECUTION → ∃ x, validate_execution read_execution (pe_payload e) = Ok x
       ∧ we_run_id x = prs_run_id snapshot ∧ we_task_id x = t)
  ∧ (pe_kind e = DISPATCH_EVENT → ∃ x, validate_dispatch read_dispatch (pe_payload e) = Ok x
       ∧ wde_run_id x = prs_run_id snapshot ∧ wde_task_id x = t).

Record consistent (snapshot : PersistedRunSnapshot) (leases : list TaskLeaseSnapshot) : Prop := {
  cs_tasks : NoDup (snapshot_task_ids snapshot) ∧ snapshot_task_ids snapshot ≠ []
             ∧ Forall (λ t, text_ok 1 128 t = true) (snapshot_task_ids snapshot);
  cs_leases : ls_task_id <$> leases ≡ₚ snapshot_task_ids snapshot;
  cs_run : Forall (λ l, ls_run_id l = prs_run_id snapshot
                        ∧ ls_observed_at l = first_observation leases
                        ∧ TaskLeaseSnapshot_new l = Ok l) leases;
  cs_rows : Forall (row_sound snapshot) (prs_evidence snapshot);
  cs_unique : NoDup (omap key_of (prs_evidence snapshot));
  cs_completed t d : PhaseKey t d true ∈ omap key_of (prs_evidence snapshot) →
                     ExecutionKey t d ∈ omap key_of (prs_evidence snapshot);
  cs_unowned : Forall (λ l, ls_state l = UNOWNED → ∀ k, k ∈ omap key_of (prs_evidence snapshot) →
                 match k with ExecutionKey t _ | PhaseKey t _ _ => t ≠ ls_task_id l end) leases;
}.

(** The dicts hold exactly the keys of the rows read so far. *)
Definition dicts_hold (W : Executions) (D : Dispatches) (keys : list row_key) : Prop :=
  (∀ t d, is_Some (W !! (t, d)) ↔ ExecutionKey t d ∈ keys)
  ∧ (∀ t d c, is_Some (D !! (t, d, c)) ↔ PhaseKey t d c ∈ keys)
  ∧ (∀ k i x, W !! k = Some (i, x) → 1 <= i).

Lemma task_scope_ok snapshot e t :
  pe_run_id e = prs_run_id snapshot → pe_task_id e = Some t → t ∈ snapshot_task_ids snapshot →
  _validated_task_scope snapshot e (snapshot_task_ids snapshot) = Ok t.
Proof using.
  intros Hrun Ht Hin. unfold _validated_task_scope, sound_if. rewrite Ht.
  rewrite (check_true (bool_decide (pe_run_id e = _))) by by apply bool_decide_eq_true.
  cbn [mbind result_bind]. by rewrite (check_true (bool_decide (t ∈ _))) by by apply bool_decide_eq_true.
Qed.
Lemma payload_identity_ok snapshot e r t :
  r = prs_run_id snapshot → pe_run_id e = prs_run_id snapshot → pe_task_id e = Some t →
  _validate_payload_identity snapshot e r t = Ok tt.
Proof using.
  intros -> Hrun Ht. unfold _validate_payload_identity, sound_if.
  by rewrite Hrun, Ht, !bool_decide_true.
Qed.

Lemma decode_row_total snapshot W D keys e :
  row_sound snapshot e → dicts_hold W D keys →
  match key_of e with Some k => k ∉ keys | None => True end →
  ∃ W' D', decode_row read_execution read_dispatch snapshot (snapshot_task_ids snapshot) (W, D) e = Ok (W', D')
    ∧ dicts_hold W' D' (keys ++ keys_of e).
Proof using.
  intros Hs Hd Hk. unfold keys_of, key_of, decode_row in *. unfold row_sound in Hs.
  destruct (pe_kind e) eqn:Hkind;
    try (exists W, D; split; [done|]; by rewrite app_nil_r).
  all: destruct Hs as (Hrun & Hid & t & Ht & Hin & Hexec & Hdisp); [auto|].
  all: rewrite (task_scope_ok _ _ t) by done; rewrite Ht in *; cbn [mbind result_bind].
  all: destruct Hd as (Hd1 & Hd2 & Hd3).
  - destruct Hdisp as (x & Hx & Hxr & Hxt); [done|]. rewrite Hx in *. cbn [mbind result_bind].
    rewrite payload_identity_ok by (done || by rewrite Hxt). cbn [mbind result_bind]. unfold sound_if.
    assert (D !! (t, wde_dispatch_id x, is_completed (wde_phase x)) = None) as Hnone
      by (apply eq_None_not_Some; by rewrite Hd2).
    rewrite (check_true (bool_decide (D !! _ = None))) by by apply bool_decide_eq_true.
    eexists _, _. split; [reflexivity|]. split; [|split; [|done]].
    + intros t' d'. rewrite Hd1, elem_of_app, list_elem_of_singleton. split; [auto|]. by intros [?|?].
    + intros t' d' c'. rewrite lookup_insert_is_Some', Hd2, elem_of_app, list_elem_of_singleton.
      split; [intros [[= -> -> ->]|?]; auto|]. intros [?|[= -> -> ->]]; auto.
  - destruct Hexec as (x & Hx & Hxr & Hxt); [done|]. rewrite Hx in *. cbn [mbind result_bind].
    rewrite payload_identity_ok by (done || by rewrite Hxt). cbn [mbind result_bind]. unfold sound_if.
    assert (W !! (t, we_dispatch_id x) = None) as Hnone by (apply eq_None_not_Some; by rewrite Hd1).
    rewrite (check_true (bool_decide (W !! _ = None))) by by apply bool_decide_eq_true.
    eexists _, _. split; [reflexivity|]. split; [|split].
    + intros t' d'. rewrite lookup_insert_is_Some', Hd1, elem_of_app, list_elem_of_singleton.
      split; [intros [[= -> ->]|?]; auto|]. intros [?|[= -> ->]]; auto.
    + intros t' d' c'. rewrite Hd2, elem_of_app, list_elem_of_singleton. split; [auto|]. by intros [?|?].
    + intros k i y [[_ [= <- <-]]|[_ Hy]]%lookup_insert_Some; [done|by eapply Hd3].
Qed.

Lemma decode_fold_total snapshot evs W D keys :
  Forall (row_sound snapshot) evs → dicts_hold W D keys → NoDup (keys ++ omap key_of evs) →
  ∃ W' D', fold_result (decode_row read_execution read_dispatch snapshot (snapshot_task_ids snapshot)) (W, D) evs
           = Ok (W', D')
    ∧ dicts_hold W' D' (keys ++ omap key_of evs).
Proof using.
  intros Hs. revert W D keys. induction Hs as [|e evs He _ IH]; intros W D keys Hd Hnd.
  - exists W, D. by rewrite app_nil_r.
  - assert (omap key_of (e :: evs) = keys_of e ++ omap key_of evs) as Ho.
    { unfold keys_of. cbn. by destruct (key_of e). }
    rewrite Ho, app_assoc in *.
    destruct (decode_row_total snapshot W D keys e He Hd) as (W1 & D1 & H1 & Hd1).
    { unfold keys_of in Hnd. destruct (key_of e) as [k|]; [|done].
      rewrite !NoDup_app in Hnd. destruct Hnd as ((_ & Hnd & _) & _). intros Hk.
      by apply (Hnd _ Hk), list_elem_of_singleton. }
    destruct (IH W1 D1 _ Hd1 Hnd) as (W2 & D2 & H2 & Hd2). exists W2, D2.
    split; [|done]. cbn [fold_result]. by rewrite H1.
Qed.

Lemma add_lease_total snapshot o leases m :
  Forall (λ l, ls_run_id l = prs_run_id snapshot ∧ ls_observed_at l = o) leases →
  NoDup (ls_task_id <$> leases) → (∀ t, t ∈ ls_task_id <$> leases → m !! t = None) →
  ∃ m', fold_result (add_lease snapshot o) m leases = Ok m'
    ∧ dom m' = dom m ∪ list_to_set (ls_task_id <$> leases).
Proof using.
  intros Hs. revert m. induction Hs as [|l leases [Hr Ho] _ IH]; intros m Hnd Hm.
  - exists m. split; [done|]. cbn. set_solver.
  - rewrite fmap_cons, NoDup_cons in Hnd. destruct Hnd as [Hl Hnd].
    assert (add_lease snapshot o m l = Ok (<[ls_task_id l := l]> m)) as Hadd.
    { unfold add_lease, sound_if. rewrite !check_true; [done|by apply bool_decide_eq_true| |by apply Z.eqb_eq].
      apply bool_decide_eq_true, Hm. by left. }
    destruct (IH (<[ls_task_id l := l]> m)) as (m' & Hm' & Hdom); [done| |].
    { intros t Ht. rewrite lookup_insert_ne by (intros <-; done). apply Hm. by right. }
    exists m'. split; [cbn [fold_result]; by rewrite Hadd|]. rewrite Hdom, dom_insert_L. cbn. set_solver.
Qed.

(** The owned shapes [TaskLeaseSnapshot] enforces. *)
Lemma lease_shape l :
  TaskLeaseSnapshot_new l = Ok l →
  0 <= ls_generation l
  ∧ if decide (ls_state l = UNOWNED) then ls_generation l = 0 ∧ ls_dispatch_id l = None
    else 1 <= ls_generation l ∧ is_Some (ls_dispatch_id l).
Proof using.
  unfold TaskLeaseSnapshot_new, validate_shape. intros H. inv_valid. to_prop. split; [done|].
  destruct (decide (ls_state l = UNOWNED)); inv_valid; to_prop; units.
  - split; [done|]. by destruct (ls_dispatch_id l).
  - split; [done|]. destruct (ls_dispatch_id l); [by eexists|done].
Qed.

Lemma assessment_ok snapshot l disp reason w :
  text_ok 1 128 (ls_task_id l) = true → TaskLeaseSnapshot_new l = Ok l →
  text_ok 1 1000 reason = true → (∀ i x, w = Some (i, x) → 1 <= i) →
  match disp with
  | NO_ACTION_RUN_TERMINAL => True
  | WAIT_ACTIVE_OWNER => ls_state l = ACTIVE
  | RESUME_FROM_TERMINAL_EVIDENCE => is_Some w
  | REDISPATCH_CANDIDATE_EXPIRED_GENERATION => ls_state l = EXPIRED ∧ w = None
  | BLOCKED_UNOWNED_DISPATCH_AMBIGUITY => ls_state l = UNOWNED
  | BLOCKED_RELEASED_EVIDENCE_GAP => ls_state l = RELEASED ∧ w = None
  end →
  is_ok (_assessment snapshot l disp reason w).
Proof using.
  intros Ht Hl Hr Hw Hd. destruct (lease_shape l Hl) as [Hg Hshape].
  unfold _assessment, TaskRecoveryAssessment_new, validate_recovery_shape.
  cbn [tra_task_id tra_lease_generation tra_worker_execution_evidence_id tra_reason tra_lease_state
       tra_lease_dispatch_id tra_worker_execution_status tra_disposition].
  rewrite (valid_if_true (text_ok 1 128 _)) by done. cbn [mbind result_bind].
  rewrite (valid_if_true (0 <=? _)) by by apply Z.leb_le. cbn [mbind result_bind].
  rewrite (valid_if_true (match fst <$> w with Some n => 1 <=? n | None => true end))
    by (destruct w as [[i x]|]; [apply Z.leb_le; by eapply Hw|done]).
  cbn [mbind result_bind]. rewrite (valid_if_true (text_ok 1 1000 _)) by done. cbn [mbind result_bind].
  rewrite (valid_if_true (eqb _ _)) by by destruct w. cbn [mbind result_bind].
  destruct (decide (ls_state l = UNOWNED)) as [Hu|Hu].
  - destruct Hshape as [-> ->]. rewrite (valid_if_true (_ && _)) by done. cbn [mbind result_bind].
    destruct disp; try rewrite Hd; try done; destruct Hd as [Hd ->] || destruct Hd as [? ->]; try done; congruence.
  - destruct Hshape as [Hge [d ->]].
    rewrite (valid_if_true (negb (_ || _))) by (rewrite (proj2 (Z.ltb_ge _ _)) by done; done).
    cbn [mbind result_bind].
    destruct disp; try rewrite Hd; try done; destruct Hd as [Hd ->] || destruct Hd as [? ->];
      try rewrite Hd; done.
Qed.

Lemma no_worker_evidence W D keys t :
  dicts_hold W D keys →
  (∀ k, k ∈ keys → match k with ExecutionKey t' _ | PhaseKey t' _ _ => t' ≠ t end) →
  has_worker_evidence t W D = false.
Proof using.
  intros (Hd1 & Hd2 & _) Hk. unfold has_worker_evidence. apply orb_false_iff.
  split; apply not_true_iff_false; intros (((k1 & k2) & v) & Hin & Heq)%existsb_exists;
    apply list_elem_of_In, elem_of_map_to_list in Hin; apply bool_decide_eq_true in Heq; cbn in Heq.
  - subst k1. specialize (Hk (ExecutionKey t k2)). apply Hk; [|done]. apply Hd1. by eexists.
  - destruct k1 as [k1 d]. cbn in Heq. subst k1. specialize (Hk (PhaseKey t d k2)).
    apply Hk; [|done]. apply Hd2. by eexists.
Qed.

Lemma classify_task_total snapshot l W D keys :
  dicts_hold W D keys → TaskLeaseSnapshot_new l = Ok l → text_ok 1 128 (ls_task_id l) = true →
  (ls_state l = UNOWNED → has_worker_evidence (ls_task_id l) W D = false) →
  is_ok (_classify_task snapshot l W D).
Proof using.
  intros (_ & _ & Hids) Hl Ht Hu. unfold _classify_task, sound_if.
  destruct (lease_shape l Hl) as [_ Hshape].
  destruct (negb _) eqn:Hs; [by apply assessment_ok|].
  destruct (bool_decide (ls_state l = UNOWNED)) eqn:Hb; to_prop.
  - rewrite (check_true (negb _)) by by rewrite Hu. cbn [mbind result_bind]. by apply assessment_ok.
  - rewrite decide_False in Hshape by done. destruct Hshape as [_ [d Hd]]. rewrite Hd.
    cbn [of_option mbind result_bind].
    assert (∀ i x, W !! (ls_task_id l, d) = Some (i, x) → 1 <= i) as Hi by (intros; by eapply Hids).
    destruct (ls_state l) eqn:Hst; [done| | |]; destruct (W !! (ls_task_id l, d)) as [[i x]|] eqn:Hw;
      apply assessment_ok; try done; intros ? ? [= <- <-]; by eapply Hids.
Qed.

Lemma map_result_total {A B} (f : A → result B) l :
  (∀ a, a ∈ l → is_ok (f a)) → ∃ bs, map_result f l = Ok bs.
Proof using.
  induction l as [|a l IH]; intros Hf; [by exists []|].
  destruct IH as [bs Hbs]; [intros b Hb; apply Hf; by right|].
  pose proof (Hf a ltac:(by left)) as Ha. destruct (f a) as [b|] eqn:Hb; [|done].
  exists (b :: bs). cbn. rewrite Hb. cbn. by rewrite Hbs.
Qed.

Lemma decode_total snapshot leases :
  consistent snapshot leases →
  ∃ W D, _decode_worker_side_evidence read_execution read_dispatch snapshot (snapshot_task_ids snapshot)
         = Ok (W, D)
    ∧ dicts_hold W D (omap key_of (prs_evidence snapshot)).
Proof using.
  intros [_ _ _ Hrows Huniq Hcomp _].
  destruct (decode_fold_total snapshot (prs_evidence snapshot) ∅ ∅ [] Hrows) as (W & D & Hf & Hd);
    [|done|].
  { split; [|split]; [| |by intros k i x; rewrite lookup_empty].
    all: intros; rewrite lookup_empty, elem_of_nil; split; [by intros [? ?]|done]. }
  exists W, D. split; [|done]. unfold _decode_worker_side_evidence. rewrite Hf.
  cbn [mbind result_bind]. unfold sound_if. rewrite check_true; [done|].
  apply forallb_forall. intros [[[t d] c] v] Hin%list_elem_of_In%elem_of_map_to_list. cbn.
  destruct c; [|done]. cbn. apply bool_decide_eq_true. destruct Hd as (Hd1 & Hd2 & _).
  apply Hd1, Hcomp, Hd2. by eexists.
Qed.
Lemma recovery_plan_ok run status o ids as_ :
  NoDup ids → ids ≠ [] →
  Forall2 (λ t a, tra_task_id a = t ∧ tra_run_id a = run ∧ tra_observed_at a = o) ids as_ →
  ∃ plan, RunRecoveryPlan_new {| rrp_run_id := run; rrp_run_status := status;
            rrp_observed_at := o; rrp_tasks := as_ |} = Ok plan.
Proof using.
  intros Hnd Hne Hall.
  unfold RunRecoveryPlan_new. cbn [rrp_tasks rrp_run_id rrp_observed_at].
  assert (length as_ = length (ids)) as Hlen by (symmetry; by eapply Forall2_length).
  rewrite (valid_if_true (min_length 1 _)).
  2:{ unfold min_length. apply Nat.leb_le. rewrite Hlen. destruct (ids); [done|cbn; lia]. }
  cbn [mbind result_bind]. rewrite (valid_if_true (forallb _ _)).
  2:{ apply forallb_forall. intros a Ha%list_elem_of_In. apply list_elem_of_lookup in Ha as [i Hi].
      destruct (Forall2_lookup_r _ _ _ _ _ Hall Hi) as (t & _ & _ & _ & H). by apply bool_decide_eq_true. }
  cbn [mbind result_bind]. rewrite (valid_if_true (forallb _ _)).
  2:{ apply forallb_forall. intros a Ha%list_elem_of_In. apply list_elem_of_lookup in Ha as [i Hi].
      destruct (Forall2_lookup_r _ _ _ _ _ Hall Hi) as (t & _ & _ & H & _). by apply bool_decide_eq_true. }
  cbn [mbind result_bind]. rewrite (valid_if_true (no_duplicates _)).
  2:{ unfold no_duplicates. apply bool_decide_eq_true.
      replace (tra_task_id <$> as_) with (ids); [done|].
      clear -Hall. induction Hall as [|t a ts as_ [<- _] _ IH]; [done|]. cbn. by rewrite <- IH. }
  eexists. reflexivity.
Qed.
End total.

(** Every consistent snapshot is diagnosed: when the leases are those of
    the tasks, read at one time and well formed, the worker-side rows belong
    to the run and name their task and payload, no dispatch has two outcomes
    or repeats a phase, completed dispatches have their outcome and unowned
    tasks have no worker-side rows, then [classify] returns a plan. *)
Theorem classify_total read_execution read_dispatch snapshot leases :
  consistent read_execution read_dispatch snapshot leases →
  ∃ plan, classify read_execution read_dispatch snapshot leases = Ok plan.
Proof.
  intros Hc. destruct (decode_total _ _ _ _ Hc) as (W & D & Hdec & Hd).
  destruct Hc as [[Hnd [Hne Htext]] Hleases Hrun _ _ _ Hunowned].
  assert (NoDup (ls_task_id <$> leases)) as Hndl by by rewrite Hleases.
  destruct (add_lease_total snapshot (first_observation leases) leases ∅) as (m & Hm & Hdom).
  { eapply Forall_impl; [exact Hrun|]. cbn. tauto. }
  { done. }
  { intros. apply lookup_empty. }
  assert (_validate_leases snapshot (snapshot_task_ids snapshot) leases = Ok m) as Hval.
  { unfold _validate_leases. rewrite Hm. cbn [mbind result_bind]. unfold sound_if.
    rewrite check_true; [done|]. apply bool_decide_eq_true. rewrite Hdom, dom_empty_L, Hleases. set_solver. }
  destruct (validate_leases_inv _ _ _ _ Hval) as [Hlk _].
  rewrite Forall_forall in Hrun. rewrite Forall_forall in Hunowned. rewrite Forall_forall in Htext.
  assert (∀ l, l ∈ leases → ls_state l = UNOWNED → has_worker_evidence (ls_task_id l) W D = false) as Hno.
  { intros l Hl Hs. eapply no_worker_evidence; [done|]. by apply Hunowned. }
  destruct (map_result_total (λ task_id,
      lease ← of_option (Exn KeyError task_id) (m !! task_id);
      _classify_task snapshot lease W D) (snapshot_task_ids snapshot)) as [as_ Has].
  { intros t Ht. assert (is_Some (m !! t)) as [l Hl].
    { apply elem_of_dom. rewrite Hdom, dom_empty_L, Hleases. set_solver. }
    rewrite Hl. cbn [of_option mbind result_bind]. apply Hlk in Hl as [Hin <-].
    destruct (Hrun _ Hin) as (_ & _ & Hshape).
    eapply classify_task_total; [done|done|by apply Htext|by apply Hno]. }
  unfold classify. rewrite Hval. cbn [mbind result_bind]. rewrite Hdec. cbn [mbind result_bind].
  unfold _validate_unowned_worker_evidence, sound_if. rewrite check_true.
  2:{ apply forallb_forall. intros l Hl%list_elem_of_In. apply negb_true_iff, andb_false_iff.
      destruct (decide (ls_state l = UNOWNED)); [right; by apply Hno|left; by apply bool_decide_eq_false]. }
  cbn [mbind result_bind]. rewrite Has. cbn [mbind result_bind].
  apply map_result_Ok in Has.
  assert (Forall2 (λ t a, tra_task_id a = t ∧ tra_run_id a = prs_run_id snapshot
                         ∧ tra_observed_at a = first_observation leases) (snapshot_task_ids snapshot) as_) as Hall.
  { eapply Forall2_impl; [exact Has|]. cbn. intros t a Ha. apply bind_Ok_inv in Ha as (l & Hl & Ha).
    destruct (m !! t) as [l'|] eqn:Hml; [|done]. injection Hl as ->.
    apply Hlk in Hml as [Hin <-]. apply classify_task_inv in Ha as (H1 & H2 & _ & _ & _ & H3 & _).
    destruct (Hrun _ Hin) as (_ & Ho & _). by rewrite H1, H2, H3, Ho. }
  by apply (recovery_plan_ok _ _ _ (snapshot_task_ids snapshot)).
Qed.


(** Task t1 was left by an expired owner whose outcome is persisted, task t2
    by one without an outcome. *)
Definition sample_read (payload : JSON) : result WorkerExecutionEvidence :=
  match payload with
  | JObj [(_, JStr t); (_, JInt d)] => Ok {|
      we_dispatch_id := Z.to_N d; we_run_id := 1%N; we_task_id := t; we_status := WE_FAILED;
      we_base_commit := of_chars (replicate 40 "a"%char); we_branch_name := None;
      we_commit_sha := None; we_checkpoint := None; we_continuation := None; we_run_result := None;
      we_failures := [{| failure_type := TEST_FAILURE; source := VERIFICATION; message := "failed";
                         retryable := true; evidence := [] |}];
      we_duration_ms := 5 |}
  | _ => invalid "WorkerExecutionEvidence"
  end.
Definition sample_read_dispatch (_ : JSON) : result WorkerDispatchEvent :=
  invalid "WorkerDispatchEvent".
Definition recovery_task (id : string) : PersistedTask := {|
  pt_task := {| tc_task_id := id; tc_objective := "o"; tc_readable_files := [];
                tc_writable_files := ["src/**"]; tc_readonly_files := [];
                tc_acceptance_criteria := ["works"]; tc_verification_commands := ["pytest -q"];
                tc_max_retries := 1 |};
  pt_contract_sha256 := of_chars (replicate 64 "0"%char); pt_created_at := 0 |}.
Definition expired_lease (id : string) (d : UUID) : TaskLeaseSnapshot := {|
  ls_run_id := 1%N; ls_task_id := id; ls_state := EXPIRED; ls_generation := 1;
  ls_owner_id := Some "w"; ls_dispatch_id := Some d; ls_acquired_at := Some 10;
  ls_heartbeat_at := Some 10; ls_lease_until := Some 20; ls_released_at := None;
  ls_observed_at := 50 |}.
Definition recovery_snapshot : PersistedRunSnapshot := {|
  prs_run_id := 1%N; prs_project_id := 2%N; prs_repository_url := "r"; prs_default_branch := "main";
  prs_base_commit := of_chars (replicate 40 "a"%char); prs_status := PRS_RUNNING;
  prs_display_status := "RUNNING"; prs_recovery_reason := None; prs_recovery_checked_at := None;
  prs_tasks := [recovery_task "t1"; recovery_task "t2"];
  prs_evidence := [{| pe_id := 7; pe_run_id := 1%N; pe_task_id := Some "t1"; pe_evidence_key := "k";
                      pe_kind := WORKER_EXECUTION; pe_stage := None; pe_sequence := None;
                      pe_schema_version := 1;
                      pe_payload := JObj [("task_id", JStr "t1"); ("dispatch_id", JInt 5)];
                      pe_payload_sha256 := of_chars (replicate 64 "0"%char); pe_created_at := 30 |}];
  prs_terminal_result := None; prs_terminal_result_sha256 := None; prs_started_at := 0;
  prs_finished_at := None |}.
Definition recovery_leases : list TaskLeaseSnapshot := [expired_lease "t1" 5%N; expired_lease "t2" 6%N].

Example classify_example :
  (λ p, (λ a, (tra_disposition a, tra_worker_execution_evidence_id a)) <$> rrp_tasks p)
    <$> (match classify sample_read sample_read_dispatch recovery_snapshot recovery_leases with
         | Ok p => Some p | Raise _ => None end)
  = Some [(RESUME_FROM_TERMINAL_EVIDENCE, Some 7); (REDISPATCH_CANDIDATE_EXPIRED_GENERATION, None)].
Proof. vm_compute. reflexivity. Qed.

Lemma recovery_consistent : consistent sample_read sample_read_dispatch recovery_snapshot recovery_leases.
Proof.
  split.
  - split; [by_compute|]. split; [discriminate|]. repeat constructor.
  - reflexivity.
  - repeat constructor.
  - constructor; [|constructor]. intros _. split; [done|]. split; [done|]. exists "t1".
    split; [done|]. split; [by_compute|]. split; [|done]. intros _. eexists. split; [vm_compute; reflexivity|]. done.
  - vm_compute. apply NoDup_singleton.
  - intros t d H. vm_compute in H. apply list_elem_of_singleton in H. done.
  - repeat constructor; done.
Defined.
Lemma classify_total_witness :
  ∃ plan, classify sample_read sample_read_dispatch recovery_snapshot recovery_leases = Ok plan.
Proof. exact (classify_total _ _ _ _ recovery_consistent). Defined.
Lemma classify_correct_witness :
  match classify sample_read sample_read_dispatch recovery_snapshot recovery_leases with
  | Ok plan => tra_task_id <$> rrp_tasks plan = ["t1"; "t2"]
  | Raise _ => False
  end.
Proof.
  destruct (classify sample_read sample_read_dispatch recovery_snapshot recovery_leases) as [plan|e] eqn:H;
    [|vm_compute in H; discriminate H].
  exact (proj1 (proj2 (proj2 (classify_correct _ _ _ _ _ H)))).
Defined.
