(* ===== verification/Dispatch.v ===== *)
(** * Dispatch: durable dispatch attempts and idempotent task reconciliation

    [models/dispatch_attempt.py], [models/reconciliation.py],
    [persistence/dispatch.py], [persistence/reconciliation.py],
    [runtime/reconciler.py] and [dispatch/durable.py]: the ledger of broker
    publications of a task, the two writers that extend it, and the locked
    decision which of them may publish.

    A [World] is the relational store with the two tables this component adds
    and the sequence of envelopes handed to [Actor.send].  A transaction
    ([session]) rolls the tables back when it raises; a message already handed
    to the broker stays handed over.  What the broker answers is an argument
    of each publication. *)
From stdpp Require Import options.
From S2P Require Import Prelude Contracts Json Store Events Lease RunModels Recovery.
Open Scope Z_scope.

(** ** [models/dispatch_attempt.py] *)
Inductive DispatchAttemptState : Set := REQUESTED | ENQUEUED | PUBLISH_FAILED.
#[export] Instance DispatchAttemptState_eq_dec : EqDecision DispatchAttemptState.
Proof. solve_decision. Defined.
Definition DispatchAttemptState_value (s : DispatchAttemptState) : string :=
  match s with
  | REQUESTED => "REQUESTED" | ENQUEUED => "ENQUEUED" | PUBLISH_FAILED => "PUBLISH_FAILED"
  end.
(** [DispatchAttemptState(value)] *)
Definition DispatchAttemptState_of (value : string) : result DispatchAttemptState :=
  if decide (value = "REQUESTED") then Ok REQUESTED
  else if decide (value = "ENQUEUED") then Ok ENQUEUED
  else if decide (value = "PUBLISH_FAILED") then Ok PUBLISH_FAILED
  else raise ValueError ("'" +:+ value +:+ "' is not a valid DispatchAttemptState").

Record PersistedDispatchAttempt : Set := {
  pda_dispatch_id : UUID;
  pda_run_id : UUID;
  pda_task_id : string;
  pda_attempt_number : Z;
  pda_state : DispatchAttemptState;
  pda_broker_message_id : option string;
  pda_queue_name : option string;
  pda_error_code : option string;
  pda_error_message : option string;
  pda_requested_at : Z;
  pda_resolved_at : option Z;
  pda_updated_at : Z;
}.
#[export] Instance PersistedDispatchAttempt_eq_dec : EqDecision PersistedDispatchAttempt.
Proof. solve_decision. Defined.

Definition validate_state_shape (self : PersistedDispatchAttempt)
    : result PersistedDispatchAttempt :=
  let any_broker := negb (is_none (pda_broker_message_id self))
                    || negb (is_none (pda_queue_name self)) in
  let all_broker := negb (is_none (pda_broker_message_id self))
                    && negb (is_none (pda_queue_name self)) in
  let any_failure := negb (is_none (pda_error_code self))
                     || negb (is_none (pda_error_message self)) in
  let all_failure := negb (is_none (pda_error_code self))
                     && negb (is_none (pda_error_message self)) in
  valid_if (pda_requested_at self <=? pda_updated_at self)
    "dispatch attempt updated_at cannot precede requested_at" ;;
  valid_if (match pda_resolved_at self with
            | Some r => pda_requested_at self <=? r
            | None => true
            end) "dispatch attempt resolved_at cannot precede requested_at" ;;
  match pda_state self with
  | REQUESTED =>
      valid_if (negb (any_broker || any_failure))
        "REQUESTED dispatch attempts cannot claim a publication outcome" ;;
      valid_if (is_none (pda_resolved_at self))
        "REQUESTED dispatch attempts must remain unresolved" ;;
      Ok self
  | ENQUEUED =>
      valid_if (negb (is_none (pda_resolved_at self)))
        "resolved dispatch attempts require resolved_at" ;;
      valid_if all_broker "ENQUEUED dispatch attempts require broker acknowledgement facts" ;;
      valid_if (negb any_failure) "ENQUEUED dispatch attempts cannot retain failure facts" ;;
      Ok self
  | PUBLISH_FAILED =>
      valid_if (negb (is_none (pda_resolved_at self)))
        "resolved dispatch attempts require resolved_at" ;;
      valid_if (negb any_broker)
        "PUBLISH_FAILED attempts cannot claim broker acknowledgement facts" ;;
      valid_if all_failure "PUBLISH_FAILED attempts require bounded error facts" ;;
      Ok self
  end.
Definition PersistedDispatchAttempt_new (raw : PersistedDispatchAttempt)
    : result PersistedDispatchAttempt :=
  valid_if (text_ok 1 128 (pda_task_id raw)) "task_id" ;;
  valid_if (1 <=? pda_attempt_number raw) "attempt_number" ;;
  valid_if (opt_text_ok 1 128 (pda_broker_message_id raw)) "broker_message_id" ;;
  valid_if (opt_text_ok 1 128 (pda_queue_name raw)) "queue_name" ;;
  valid_if (opt_text_ok 1 64 (pda_error_code raw)) "error_code" ;;
  valid_if (opt_text_ok 1 512 (pda_error_message raw)) "error_message" ;;
  validate_state_shape raw.

(** ** [models/dispatch.py]: the queue payload *)
Record TaskDispatchEnvelope : Set := {
  tde_dispatch_id : UUID;
  tde_run_id : UUID;
  tde_task_id : string;
}.
Definition TaskDispatchEnvelope_new (raw : TaskDispatchEnvelope) : result TaskDispatchEnvelope :=
  valid_if (text_ok 1 128 (tde_task_id raw)) "task_id" ;; Ok raw.
Definition TaskDispatchReceipt_new (raw : TaskDispatchReceipt) : result TaskDispatchReceipt :=
  valid_if (text_ok 1 128 (tdr_task_id raw)) "task_id" ;;
  valid_if (text_ok 1 128 (tdr_broker_message_id raw)) "broker_message_id" ;;
  valid_if (text_ok 1 128 (tdr_queue_name raw)) "queue_name" ;;
  Ok raw.

(** ** [models/reconciliation.py] *)
Inductive TaskReconciliationAction : Set :=
  | ACT_NO_ACTION_RUN_TERMINAL | ACT_WAIT_ACTIVE_OWNER | ACT_RESUME_TERMINAL_EVIDENCE
  | ACT_WAIT_EXISTING_DISPATCH | ACT_BLOCKED_PUBLISH_FAILED
  | ACT_BLOCKED_RELEASED_EVIDENCE_GAP | ACT_PREPARED_DISPATCH.
#[export] Instance TaskReconciliationAction_eq_dec : EqDecision TaskReconciliationAction.
Proof. solve_decision. Defined.

Record TaskReconciliationDecision : Set := {
  trd_run_id : UUID;
  trd_task_id : string;
  trd_observed_at : Z;
  trd_action : TaskReconciliationAction;
  trd_reason : string;
  trd_lease_generation : Z;
  trd_current_dispatch_id : option UUID;
  trd_terminal_worker_evidence_id : option Z;
  trd_dispatch_attempt : option PersistedDispatchAttempt;
  trd_publish_allowed : bool;
  trd_recovery_attempt : bool;
}.
Definition validate_decision_shape (self : TaskReconciliationDecision)
    : result TaskReconciliationDecision :=
  if decide (trd_action self = ACT_PREPARED_DISPATCH) then
    valid_if (negb (is_none (trd_dispatch_attempt self) || negb (trd_publish_allowed self)))
      "prepared reconciliation requires one publishable dispatch attempt" ;;
    attempt ← of_option (Exn AssertionError "") (trd_dispatch_attempt self);
    valid_if (bool_decide (pda_run_id attempt = trd_run_id self))
      "prepared dispatch Run identity must match reconciliation decision" ;;
    valid_if (bool_decide (pda_task_id attempt = trd_task_id self))
      "prepared dispatch Task identity must match reconciliation decision" ;;
    valid_if (is_none (trd_terminal_worker_evidence_id self))
      "prepared dispatch cannot coexist with terminal worker evidence" ;;
    Ok self
  else
    valid_if (negb (trd_publish_allowed self))
      "only a newly PREPARED_DISPATCH may authorize broker publication" ;;
    valid_if (negb (trd_recovery_attempt self))
      "only a newly PREPARED_DISPATCH may be marked as a recovery attempt" ;;
    Ok self.
Definition TaskReconciliationDecision_new (raw : TaskReconciliationDecision)
    : result TaskReconciliationDecision :=
  valid_if (text_ok 1 128 (trd_task_id raw)) "task_id" ;;
  valid_if (text_ok 1 1000 (trd_reason raw)) "reason" ;;
  valid_if (0 <=? trd_lease_generation raw) "lease_generation" ;;
  valid_if (match trd_terminal_worker_evidence_id raw with Some n => 1 <=? n | None => true end)
    "terminal_worker_evidence_id" ;;
  validate_decision_shape raw.

Record TaskReconciliationOutcome : Set := {
  tro_decision : TaskReconciliationDecision;
  tro_receipt : option TaskDispatchReceipt;
}.
(** [validate_outcome] *)
Definition TaskReconciliationOutcome_new (raw : TaskReconciliationOutcome)
    : result TaskReconciliationOutcome :=
  let decision := tro_decision raw in
  match tro_receipt raw with
  | None => Ok raw
  | Some receipt =>
      valid_if (bool_decide (trd_action decision = ACT_PREPARED_DISPATCH))
        "only PREPARED_DISPATCH reconciliation may return a broker receipt" ;;
      valid_if (bool_decide (tdr_run_id receipt = trd_run_id decision))
        "reconciliation receipt Run identity mismatch" ;;
      valid_if (bool_decide (tdr_task_id receipt = trd_task_id decision))
        "reconciliation receipt Task identity mismatch" ;;
      valid_if (match trd_dispatch_attempt decision with
                | Some attempt => bool_decide (tdr_dispatch_id receipt = pda_dispatch_id attempt)
                | None => false
                end) "reconciliation receipt dispatch identity mismatch" ;;
      Ok raw
  end.

(** ** The tables, the broker and the transactions *)
Record DispatchAttemptRow : Set := {
  dar_dispatch_id : UUID;
  dar_run_id : UUID;
  dar_task_id : string;
  dar_attempt_number : Z;
  dar_state : string;
  dar_broker_message_id : option string;
  dar_queue_name : option string;
  dar_error_code : option string;
  dar_error_message : option string;
  dar_requested_at : Z;
  dar_resolved_at : option Z;
  dar_updated_at : Z;
}.
#[export] Instance DispatchAttemptRow_eq_dec : EqDecision DispatchAttemptRow.
Proof. solve_decision. Defined.
Record EvidenceRow : Set := {
  evr_id : Z;
  evr_run_id : UUID;
  evr_task_id : option string;
  evr_evidence_key : string;
  evr_kind : string;
  evr_stage : option string;
  evr_sequence : option Z;
  evr_schema_version : Z;
  evr_payload : JSON;
  evr_payload_sha256 : string;
  evr_created_at : Z;
}.
Record World : Set := {
  w_db : Database;
  w_attempts : gmap UUID DispatchAttemptRow;
  w_evidence : list EvidenceRow;
  w_sent : list TaskDispatchEnvelope;
}.
Definition set_db (db : Database) (w : World) : World :=
  {| w_db := db; w_attempts := w_attempts w; w_evidence := w_evidence w; w_sent := w_sent w |}.
Definition set_attempts (m : gmap UUID DispatchAttemptRow) (w : World) : World :=
  {| w_db := w_db w; w_attempts := m; w_evidence := w_evidence w; w_sent := w_sent w |}.
Definition set_sent (l : list TaskDispatchEnvelope) (w : World) : World :=
  {| w_db := w_db w; w_attempts := w_attempts w; w_evidence := w_evidence w; w_sent := l |}.

Definition on_db {A} (m : DB A) : M World A := λ w,
  let '(r, db) := m (w_db w) in (r, set_db db w).
(** [session_factory.begin()]: an exception rolls the tables back. *)
Definition session {A} (m : M World A) : M World A := λ w,
  match m w with
  | (Ok a, w') => (Ok a, w')
  | (Raise e, w') => (Raise e, set_sent (w_sent w') w)
  end.

(** What one call of [Actor.send] does: the broker accepts the message, the
    connection fails, or the call raises something else. *)
Inductive broker_reply : Set :=
  | Accepted (message_id : string)
  | Unreachable
  | Broken (e : exn).
Definition send (reply : broker_reply) (envelope : TaskDispatchEnvelope) : M World string :=
  modify (λ w, set_sent (w_sent w ++ [envelope]) w) ;;
  match reply with
  | Accepted message_id => mret message_id
  | Unreachable => throw BrokerConnectionError ""
  | Broken e => lift (Raise e)
  end.

(** [try: a = m / except x: .. / else: ..] *)
Definition try_else {A B} (m : M World A) (orelse : A → M World B) (except : exn → M World B)
    : M World B := λ w,
  match m w with
  | (Ok a, w') => orelse a w'
  | (Raise x, w') => except x w'
  end.

(** The constraints of [dispatch_attempts]. *)
Definition ck_dispatch_attempts_state_shape (r : DispatchAttemptRow) : bool :=
  (bool_decide (dar_state r = "REQUESTED") && is_none (dar_broker_message_id r)
   && is_none (dar_queue_name r) && is_none (dar_error_code r) && is_none (dar_error_message r)
   && is_none (dar_resolved_at r))
  || (bool_decide (dar_state r = "ENQUEUED") && negb (is_none (dar_broker_message_id r))
      && negb (is_none (dar_queue_name r)) && is_none (dar_error_code r)
      && is_none (dar_error_message r) && negb (is_none (dar_resolved_at r)))
  || (bool_decide (dar_state r = "PUBLISH_FAILED") && is_none (dar_broker_message_id r)
      && is_none (dar_queue_name r) && negb (is_none (dar_error_code r))
      && negb (is_none (dar_error_message r)) && negb (is_none (dar_resolved_at r))).
Definition attempt_of_task (run_id : UUID) (task_id : string) (r : DispatchAttemptRow) : bool :=
  bool_decide (dar_run_id r = run_id) && bool_decide (dar_task_id r = task_id).
Definition attempt_row_ok (r : DispatchAttemptRow) (w : World) : bool :=
  int4 (dar_attempt_number r) && (1 <=? dar_attempt_number r)
  && ck_dispatch_attempts_state_shape r
  && bool_decide (is_Some (db_tasks (w_db w) !! (dar_run_id r, dar_task_id r)))
  && forallb (λ p, bool_decide (p.1 = dar_dispatch_id r)
                   || negb (attempt_of_task (dar_run_id r) (dar_task_id r) p.2
                            && (dar_attempt_number p.2 =? dar_attempt_number r)))
       (map_to_list (w_attempts w)).
Definition insert_attempt_row (r : DispatchAttemptRow) : M World unit :=
  w ← get;
  ensure (bool_decide (w_attempts w !! dar_dispatch_id r = None)) IntegrityError
    "dispatch_attempts_pkey" ;;
  ensure (attempt_row_ok r w) IntegrityError "dispatch_attempts" ;;
  modify (set_attempts (<[dar_dispatch_id r := r]> (w_attempts w))).
Definition update_attempt_row (r : DispatchAttemptRow) : M World unit :=
  w ← get;
  ensure (attempt_row_ok r w) IntegrityError "dispatch_attempts" ;;
  modify (set_attempts (<[dar_dispatch_id r := r]> (w_attempts w))).

(** ** [persistence/dispatch.py] *)
(** [PostgresDispatchAttemptStore._decode] *)
Definition decode_attempt (row : DispatchAttemptRow) : result PersistedDispatchAttempt :=
  match
    state ← DispatchAttemptState_of (dar_state row);
    PersistedDispatchAttempt_new {|
      pda_dispatch_id := dar_dispatch_id row;
      pda_run_id := dar_run_id row;
      pda_task_id := dar_task_id row;
      pda_attempt_number := dar_attempt_number row;
      pda_state := state;
      pda_broker_message_id := dar_broker_message_id row;
      pda_queue_name := dar_queue_name row;
      pda_error_code := dar_error_code row;
      pda_error_message := dar_error_message row;
      pda_requested_at := dar_requested_at row;
      pda_resolved_at := dar_resolved_at row;
      pda_updated_at := dar_updated_at row;
    |}
  with
  | Ok attempt => Ok attempt
  | Raise e =>
      if subclass (exn_kind e) ValueError then
        corrupt ("dispatch attempt failed durable validation: " +:+ exn_message e)
      else Raise e
  end.

Definition _locked_attempt (dispatch_id : UUID) : M World DispatchAttemptRow := λ w,
  (of_option (Exn PersistenceConflictError
     "dispatch attempt must be durably REQUESTED before recording broker outcome")
     (w_attempts w !! dispatch_id), w).

(** [_assert_identity] *)
Definition assert_attempt_identity (current : PersistedDispatchAttempt) (run_id : UUID)
    (task_id : string) : result unit :=
  check (bool_decide (pda_run_id current = run_id) && bool_decide (pda_task_id current = task_id))
    PersistenceConflictError
    "dispatch publication result does not match durable Run/Task identity".

(** A fresh [DispatchAttemptRow(state=REQUESTED, ...)]. *)
Definition requested_row (dispatch_id run_id : UUID) (task_id : string) (n observed_at : Z)
    : DispatchAttemptRow := {|
  dar_dispatch_id := dispatch_id; dar_run_id := run_id; dar_task_id := task_id;
  dar_attempt_number := n; dar_state := "REQUESTED"; dar_broker_message_id := None;
  dar_queue_name := None; dar_error_code := None; dar_error_message := None;
  dar_requested_at := observed_at; dar_resolved_at := None; dar_updated_at := observed_at;
|}.
(** The assignments of the two resolutions to a row. *)
Definition enqueued_row (message_id queue : string) (observed_at : Z) (row : DispatchAttemptRow)
    : DispatchAttemptRow := {|
  dar_dispatch_id := dar_dispatch_id row; dar_run_id := dar_run_id row;
  dar_task_id := dar_task_id row; dar_attempt_number := dar_attempt_number row;
  dar_state := "ENQUEUED"; dar_broker_message_id := Some message_id;
  dar_queue_name := Some queue; dar_error_code := None; dar_error_message := None;
  dar_requested_at := dar_requested_at row; dar_resolved_at := Some observed_at;
  dar_updated_at := observed_at;
|}.
Definition failed_row (code message : string) (observed_at : Z) (row : DispatchAttemptRow)
    : DispatchAttemptRow := {|
  dar_dispatch_id := dar_dispatch_id row; dar_run_id := dar_run_id row;
  dar_task_id := dar_task_id row; dar_attempt_number := dar_attempt_number row;
  dar_state := "PUBLISH_FAILED"; dar_broker_message_id := None;
  dar_queue_name := None; dar_error_code := Some code; dar_error_message := Some message;
  dar_requested_at := dar_requested_at row; dar_resolved_at := Some observed_at;
  dar_updated_at := observed_at;
|}.

Definition begin_initial_attempt (e : Env) (dispatch_id run_id : UUID) (task_id : string)
    : M World (PersistedDispatchAttempt * bool) :=
  task_name ← lift (_required_text task_id "task_id" 128);
  session (
    run ← on_db (_locked_run run_id);
    ensure (bool_decide (rr_status run = "RUNNING")) PersistenceConflictError
      "dispatch attempts may be created only for RUNNING persisted Runs" ;;
    on_db (_locked_task run_id task_name) ;;
    w ← get;
    match w_attempts w !! dispatch_id with
    | Some existing =>
        current ← lift (decode_attempt existing);
        ensure (bool_decide (pda_run_id current = run_id)
                && bool_decide (pda_task_id current = task_name)) PersistenceConflictError
          "dispatch_id is already bound to a different persisted Run/Task" ;;
        ensure (pda_attempt_number current =? 1) PersistenceCorruptionError
          "ordinary dispatch_id unexpectedly refers to a recovery attempt" ;;
        mret (current, false)
    | None =>
        ensure (forallb (λ p, negb (attempt_of_task run_id task_name p.2))
                  (map_to_list (w_attempts w))) PersistenceConflictError
          "task already has a durable dispatch attempt; recovery must decide any retry" ;;
        observed_at ← lift (database_time e);
        let row := requested_row dispatch_id run_id task_name 1 observed_at in
        insert_attempt_row row ;;
        attempt ← lift (decode_attempt row);
        mret (attempt, true)
    end).

Definition mark_enqueued (e : Env) (dispatch_id run_id : UUID)
    (task_id broker_message_id queue_name : string) : M World PersistedDispatchAttempt :=
  message_id ← lift (_required_text broker_message_id "broker_message_id" 128);
  queue ← lift (_required_text queue_name "queue_name" 128);
  task_name ← lift (_required_text task_id "task_id" 128);
  session (
    row ← _locked_attempt dispatch_id;
    current ← lift (decode_attempt row);
    lift (assert_attempt_identity current run_id task_name) ;;
    if decide (pda_state current = ENQUEUED) then
      ensure (bool_decide (pda_broker_message_id current = Some message_id)
              && bool_decide (pda_queue_name current = Some queue)) PersistenceConflictError
        "ENQUEUED dispatch acknowledgement cannot be replaced by different facts" ;;
      mret current
    else
      ensure (bool_decide (pda_state current = REQUESTED)) PersistenceConflictError
        "PUBLISH_FAILED dispatch attempts cannot be rewritten as ENQUEUED" ;;
      observed_at ← lift (database_time e);
      let row := enqueued_row message_id queue observed_at row in
      update_attempt_row row ;;
      lift (decode_attempt row)).

Definition mark_publish_failed (e : Env) (dispatch_id run_id : UUID)
    (task_id error_code error_message : string) : M World PersistedDispatchAttempt :=
  code ← lift (_required_text error_code "error_code" 64);
  message ← lift (_required_text error_message "error_message" 512);
  task_name ← lift (_required_text task_id "task_id" 128);
  session (
    row ← _locked_attempt dispatch_id;
    current ← lift (decode_attempt row);
    lift (assert_attempt_identity current run_id task_name) ;;
    if decide (pda_state current = PUBLISH_FAILED) then
      ensure (bool_decide (pda_error_code current = Some code)
              && bool_decide (pda_error_message current = Some message)) PersistenceConflictError
        "PUBLISH_FAILED dispatch observation cannot be replaced by different facts" ;;
      mret current
    else
      ensure (bool_decide (pda_state current = REQUESTED)) PersistenceConflictError
        "ENQUEUED dispatch attempts cannot be rewritten as PUBLISH_FAILED" ;;
      observed_at ← lift (database_time e);
      let row := failed_row code message observed_at row in
      update_attempt_row row ;;
      lift (decode_attempt row)).

(** ** [persistence/reconciliation.py] *)

(** [_required_text] of this module. *)
Definition required_label (value label : string) (max_length : nat) : result string :=
  let normalized := strip value in
  check (negb (bool_decide (normalized = "")) && (str_len normalized <=? max_length)%nat) ValueError
    (label +:+ " must contain 1-" +:+ str_of_Z (Z.of_nat max_length) +:+ " characters") ;;
  Ok normalized.

Record PreparedDispatchPublication : Set := {
  pdp_row : DispatchAttemptRow;
  pdp_resolved : bool;
}.
Definition publication_open (p : PreparedDispatchPublication) : bool :=
  negb (pdp_resolved p) && bool_decide (dar_state (pdp_row p) = "REQUESTED").
(** [PreparedDispatchPublication.mark_enqueued]: the attempt and the object
    after the call. *)
Definition publication_mark_enqueued (e : Env) (self : PreparedDispatchPublication)
    (broker_message_id queue_name : string)
    : M World (PersistedDispatchAttempt * PreparedDispatchPublication) :=
  ensure (publication_open self) PersistenceConflictError
    "prepared dispatch publication is already resolved" ;;
  message_id ← lift (required_label broker_message_id "broker_message_id" 128);
  queue ← lift (required_label queue_name "queue_name" 128);
  observed_at ← lift (database_time e);
  let row := enqueued_row message_id queue observed_at (pdp_row self) in
  update_attempt_row row ;;
  attempt ← lift (decode_attempt row);
  mret (attempt, {| pdp_row := row; pdp_resolved := true |}).
Definition publication_mark_publish_failed (e : Env) (self : PreparedDispatchPublication)
    (error_code error_message : string)
    : M World (PersistedDispatchAttempt * PreparedDispatchPublication) :=
  ensure (publication_open self) PersistenceConflictError
    "prepared dispatch publication is already resolved" ;;
  code ← lift (required_label error_code "error_code" 64);
  message ← lift (required_label error_message "error_message" 512);
  observed_at ← lift (database_time e);
  let row := failed_row code message observed_at (pdp_row self) in
  update_attempt_row row ;;
  attempt ← lift (decode_attempt row);
  mret (attempt, {| pdp_row := row; pdp_resolved := true |}).

(** [ORDER BY attempt_number]; numbers are unique within a task. *)
Definition attempt_le (r s : DispatchAttemptRow) : Prop := dar_attempt_number r ≤ dar_attempt_number s.
#[export] Instance attempt_le_dec : RelDecision attempt_le.
Proof. intros r s. unfold attempt_le. apply _. Defined.
Definition _locked_attempt_rows (run_id : UUID) (task_id : string) (w : World)
    : list DispatchAttemptRow :=
  merge_sort attempt_le
    (filter (attempt_of_task run_id task_id) (snd <$> map_to_list (w_attempts w))).

Definition _validate_attempt_history (attempts : list PersistedDispatchAttempt) : result unit :=
  sound_if (bool_decide (pda_attempt_number <$> attempts = seqZ 1 (Z.of_nat (length attempts))))
    "dispatch attempt numbers must be contiguous from one".

Definition _attempt_for_dispatch (attempts : list PersistedDispatchAttempt) (dispatch_id : UUID)
    : option PersistedDispatchAttempt :=
  find (λ a, bool_decide (pda_dispatch_id a = dispatch_id)) attempts.

Definition _assert_worker_identity (payload_run_id : UUID) (payload_task_id : string)
    (payload_dispatch_id run_id : UUID) (task_id : string) (known_dispatches : list UUID)
    : result unit :=
  sound_if (bool_decide (payload_run_id = run_id) && bool_decide (payload_task_id = task_id))
    "worker-side evidence payload identity disagrees with locked Run/Task" ;;
  sound_if (bool_decide (payload_dispatch_id ∈ known_dispatches))
    "worker-side evidence refers to a dispatch missing from the durable ledger".

Definition _validate_task_lease_shape (task : TaskRow) : result unit :=
  if is_none (lease_owner task) then
    sound_if (is_none (lease_dispatch_id task) && is_none (run_token task)
              && is_none (lease_acquired_at task) && is_none (heartbeat_at task)
              && is_none (lease_until task) && is_none (lease_released_at task)
              && (lease_generation task =? 0)) "UNOWNED task row has impossible lease fields"
  else
    sound_if (negb (is_none (lease_dispatch_id task) || is_none (run_token task)
                    || is_none (lease_acquired_at task) || is_none (heartbeat_at task)
                    || is_none (lease_until task) || (lease_generation task <? 1)))
      "owned task row has incomplete lease authority".

Definition _decision (run_id : UUID) (task : TaskRow) (observed_at : Z)
    (action : TaskReconciliationAction) (reason : string) (evidence_id : option Z)
    (attempt : option PersistedDispatchAttempt) (publish_allowed recovery_attempt : bool)
    : result TaskReconciliationDecision :=
  TaskReconciliationDecision_new {|
    trd_run_id := run_id;
    trd_task_id := tr_task_id task;
    trd_observed_at := observed_at;
    trd_action := action;
    trd_reason := reason;
    trd_lease_generation := lease_generation task;
    trd_current_dispatch_id := lease_dispatch_id task;
    trd_terminal_worker_evidence_id := evidence_id;
    trd_dispatch_attempt := attempt;
    trd_publish_allowed := publish_allowed;
    trd_recovery_attempt := recovery_attempt;
  |}.

Definition _existing_dispatch_decision (run_id : UUID) (task : TaskRow) (observed_at : Z)
    (attempt : PersistedDispatchAttempt) (reason_prefix : string)
    : result TaskReconciliationDecision :=
  if decide (pda_state attempt = PUBLISH_FAILED) then
    _decision run_id task observed_at ACT_BLOCKED_PUBLISH_FAILED
      (reason_prefix +:+ "; PUBLISH_FAILED is an observed broker error, not proof of non-delivery, so automatic redispatch remains blocked.")
      None (Some attempt) false false
  else
    _decision run_id task observed_at ACT_WAIT_EXISTING_DISPATCH
      (reason_prefix +:+ "; " +:+ DispatchAttemptState_value (pda_state attempt)
         +:+ " must settle through the existing dispatch identity rather than another broker publication.")
      None (Some attempt) false false.

Definition _insert_attempt (e : Env) (run_id : UUID) (task_id : string) (attempt_number observed_at : Z)
    : M World PersistedDispatchAttempt :=
  let row := requested_row (env_uuid4 e 0) run_id task_id attempt_number observed_at in
  insert_attempt_row row ;;
  lift (decode_attempt row).

(** The worker-side evidence of one task: executions by dispatch, phases by
    dispatch. *)
Notation TaskWorkers := (gmap UUID (Z * WorkerExecutionEvidence)).
Notation TaskPhases := (gmap (UUID * bool) Z).
Definition has_dispatch_event (d : UUID) (dispatches : TaskPhases) : bool :=
  existsb (λ p, bool_decide (p.1.1 = d)) (map_to_list dispatches).

Section store.
Context (sha256 : string → string).
Context (read_execution : JSON → result WorkerExecutionEvidence).
Context (read_dispatch : JSON → result WorkerDispatchEvent).

Definition evidence_le (r s : EvidenceRow) : Prop := evr_id r ≤ evr_id s.
#[global] Instance evidence_le_dec : RelDecision evidence_le.
Proof. intros r s. unfold evidence_le. apply _. Defined.
Definition select_evidence (run_id : UUID) (task_id : string) (w : World) : list EvidenceRow :=
  merge_sort evidence_le
    (filter (λ r, evr_run_id r = run_id ∧ evr_task_id r = Some task_id
                  ∧ (evr_kind r = "WORKER_EXECUTION" ∨ evr_kind r = "DISPATCH_EVENT"))
       (w_evidence w)).

(** The [try] block of one row. *)
Definition decode_side_row (run_id : UUID) (task_id : string) (known_dispatches : list UUID)
    (workers : TaskWorkers) (dispatches : TaskPhases) (row : EvidenceRow)
    : result (TaskWorkers * TaskPhases) :=
  if decide (evr_kind row = "WORKER_EXECUTION") then
    payload ← validate_execution read_execution (evr_payload row);
    _assert_worker_identity (we_run_id payload) (we_task_id payload) (we_dispatch_id payload)
      run_id task_id known_dispatches ;;
    sound_if (bool_decide (workers !! we_dispatch_id payload = None))
      "multiple terminal WORKER_EXECUTION rows exist for one dispatch" ;;
    Ok (<[we_dispatch_id payload := (evr_id row, payload)]> workers, dispatches)
  else
    dispatch ← validate_dispatch read_dispatch (evr_payload row);
    _assert_worker_identity (wde_run_id dispatch) (wde_task_id dispatch) (wde_dispatch_id dispatch)
      run_id task_id known_dispatches ;;
    let key := (wde_dispatch_id dispatch, is_completed (wde_phase dispatch)) in
    sound_if (bool_decide (dispatches !! key = None))
      "duplicate worker dispatch phase evidence exists for one dispatch" ;;
    Ok (workers, <[key := evr_id row]> dispatches).
Definition side_row (run_id : UUID) (task_id : string) (known_dispatches : list UUID)
    (acc : TaskWorkers * TaskPhases) (row : EvidenceRow) : result (TaskWorkers * TaskPhases) :=
  verify_payload_hash sha256 (evr_payload row) (evr_payload_sha256 row)
    "reconciliation worker-side evidence" ;;
  match decode_side_row run_id task_id known_dispatches acc.1 acc.2 row with
  | Ok acc => Ok acc
  | Raise x =>
      if subclass (exn_kind x) ValueError then
        corrupt ("worker-side evidence failed reconciliation validation: " +:+ exn_message x)
      else Raise x
  end.
Definition _validated_worker_side_evidence (run_id : UUID) (task_id : string)
    (attempts : list PersistedDispatchAttempt) (w : World) : result (TaskWorkers * TaskPhases) :=
  '(workers, dispatches) ← fold_result
    (side_row run_id task_id (pda_dispatch_id <$> attempts)) (∅, ∅)
    (select_evidence run_id task_id w);
  sound_if (forallb (λ p, negb p.1.2 || bool_decide (is_Some (workers !! p.1.1)))
              (map_to_list dispatches))
    "COMPLETED dispatch evidence exists without terminal WORKER_EXECUTION evidence" ;;
  Ok (workers, dispatches).

(** [prepare_task] after the evidence is read, for a RUNNING run. *)
Definition prepare_unowned (e : Env) (run_id : UUID) (task_name : string) (task : TaskRow)
    (observed_at : Z) (attempts : list PersistedDispatchAttempt)
    (workers : TaskWorkers) (dispatches : TaskPhases) : M World TaskReconciliationDecision :=
  ensure (bool_decide (workers = ∅) && bool_decide (dispatches = ∅)) PersistenceCorruptionError
    "UNOWNED task contains worker-side evidence" ;;
  match last attempts with
  | Some attempt =>
      lift (_existing_dispatch_decision run_id task observed_at attempt
              "UNOWNED task already has durable dispatch intent")
  | None =>
      attempt ← _insert_attempt e run_id task_name 1 observed_at;
      lift (_decision run_id task observed_at ACT_PREPARED_DISPATCH
        "UNOWNED task has no durable dispatch history; locked reconciliation prepared the first dispatch attempt."
        None (Some attempt) true false)
  end.
Definition prepare_owned (e : Env) (run_id : UUID) (task_name : string) (task : TaskRow)
    (observed_at : Z) (attempts : list PersistedDispatchAttempt) (workers : TaskWorkers)
    : M World TaskReconciliationDecision :=
  dispatch_id ← lift (of_option (Exn AssertionError "") (lease_dispatch_id task));
  current_attempt ← lift (of_option
    (Exn PersistenceCorruptionError
       "owned V1.1 task lease refers to a dispatch missing from the durable ledger")
    (_attempt_for_dispatch attempts dispatch_id));
  match workers !! dispatch_id with
  | Some (evidence_id, _) =>
      lift (_decision run_id task observed_at ACT_RESUME_TERMINAL_EVIDENCE
        "Terminal WORKER_EXECUTION evidence exists for the current dispatch; reconciliation must resume downstream instead of rerunning the task."
        (Some evidence_id) (Some current_attempt) false false)
  | None =>
      if negb (is_none (lease_released_at task)) then
        lift (_decision run_id task observed_at ACT_BLOCKED_RELEASED_EVIDENCE_GAP
          "Current lease generation is RELEASED without terminal worker evidence; reconciliation cannot silently reopen released ownership history."
          None (Some current_attempt) false false)
      else
        until ← lift (of_option (Exn AssertionError "") (lease_until task));
        if observed_at <? until then
          lift (_decision run_id task observed_at ACT_WAIT_ACTIVE_OWNER
            "Current lease generation is ACTIVE under fresh database time; reconciliation must not race the live owner."
            None (Some current_attempt) false false)
        else
          match filter (λ a, pda_attempt_number current_attempt < pda_attempt_number a) attempts with
          | _ :: _ :: _ =>
              throw PersistenceCorruptionError
                "multiple dispatch attempts exist beyond the current lease generation"
          | [newer] =>
              lift (_existing_dispatch_decision run_id task observed_at newer
                "Expired generation already has a newer durable dispatch attempt")
          | [] =>
              newest ← lift (of_option (Exn IndexError "attempts[-1]") (last attempts));
              attempt ← _insert_attempt e run_id task_name (pda_attempt_number newest + 1) observed_at;
              lift (_decision run_id task observed_at ACT_PREPARED_DISPATCH
                "Current lease generation is EXPIRED with no terminal worker evidence and no newer dispatch; locked reconciliation prepared one fresh recovery attempt."
                None (Some attempt) true true)
          end
  end.

Definition prepare_task (e : Env) (run_id : UUID) (task_id : string)
    : M World TaskReconciliationDecision :=
  task_name ← lift (required_label task_id "task_id" 128);
  session (
    run ← on_db (_locked_run run_id);
    task ← on_db (_locked_task run_id task_name);
    observed_at ← lift (database_time e);
    lift (_validate_task_lease_shape task) ;;
    if negb (bool_decide (rr_status run = "RUNNING")) then
      lift (_decision run_id task observed_at ACT_NO_ACTION_RUN_TERMINAL
        "Persisted Run is terminal; reconciliation cannot reopen it." None None false false)
    else
      w ← get;
      attempts ← lift (map_result decode_attempt (_locked_attempt_rows run_id task_name w));
      lift (_validate_attempt_history attempts) ;;
      evidence ← lift (_validated_worker_side_evidence run_id task_name attempts w);
      if is_none (lease_owner task) then
        prepare_unowned e run_id task_name task observed_at attempts evidence.1 evidence.2
      else prepare_owned e run_id task_name task observed_at attempts evidence.1).

(** The owned branch of the guard's revalidation. *)
Definition revalidate_owned (task : TaskRow) (observed_at : Z)
    (attempts : list PersistedDispatchAttempt) (workers : TaskWorkers)
    (target : PersistedDispatchAttempt) : result unit :=
  dispatch_id ← of_option (Exn AssertionError "") (lease_dispatch_id task);
  current_attempt ← of_option
    (Exn PersistenceCorruptionError
       "owned task lease refers to a dispatch missing from the durable ledger")
    (_attempt_for_dispatch attempts dispatch_id);
  check (bool_decide (workers !! dispatch_id = None)) PersistenceConflictError
    "terminal worker evidence arrived after recovery prepare; rerun is forbidden" ;;
  check (is_none (lease_released_at task)) PersistenceConflictError
    "prepared recovery became stale because lease ownership is RELEASED" ;;
  until ← of_option (Exn AssertionError "") (lease_until task);
  check (negb (observed_at <? until)) PersistenceConflictError
    "prepared recovery became stale because the prior generation is ACTIVE" ;;
  check (pda_attempt_number target =? pda_attempt_number current_attempt + 1)
    PersistenceConflictError
    "prepared recovery attempt is not exactly one generation-attempt ahead" ;;
  match filter (λ a, pda_attempt_number current_attempt < pda_attempt_number a) attempts with
  | [newer] =>
      check (bool_decide (pda_dispatch_id newer = pda_dispatch_id target)) PersistenceConflictError
        "prepared recovery no longer uniquely represents the next dispatch attempt"
  | _ => raise PersistenceConflictError
        "prepared recovery no longer uniquely represents the next dispatch attempt"
  end.

(** The checks of [guard_prepared_publication] under the locks: the row that
    may be published. *)
Definition revalidate_prepared (e : Env) (run_id : UUID) (task_name : string) (dispatch_id : UUID)
    : M World PreparedDispatchPublication :=
  run ← on_db (_locked_run run_id);
  task ← on_db (_locked_task run_id task_name);
  observed_at ← lift (database_time e);
  lift (_validate_task_lease_shape task) ;;
  ensure (bool_decide (rr_status run = "RUNNING")) PersistenceConflictError
    "prepared reconciliation became stale because the Run is no longer RUNNING" ;;
  w ← get;
  let rows := _locked_attempt_rows run_id task_name w in
  attempts ← lift (map_result decode_attempt rows);
  lift (_validate_attempt_history attempts) ;;
  match last rows, last attempts with
  | Some target_row, Some target =>
      ensure (bool_decide (dar_dispatch_id target_row = dispatch_id)) PersistenceConflictError
        "prepared reconciliation is stale because a different latest dispatch exists" ;;
      ensure (bool_decide (pda_state target = REQUESTED)) PersistenceConflictError
        "prepared reconciliation dispatch is no longer unresolved REQUESTED intent" ;;
      evidence ← lift (_validated_worker_side_evidence run_id task_name attempts w);
      let '(workers, dispatches) := evidence in
      ensure (bool_decide (workers !! pda_dispatch_id target = None)
              && negb (has_dispatch_event (pda_dispatch_id target) dispatches))
        PersistenceConflictError
        "prepared dispatch already has worker-side evidence and cannot be published again" ;;
      (if is_none (lease_owner task) then
         ensure (bool_decide (workers = ∅) && bool_decide (dispatches = ∅))
           PersistenceCorruptionError "UNOWNED task contains worker-side evidence" ;;
         ensure ((length attempts =? 1)%nat && (pda_attempt_number target =? 1))
           PersistenceConflictError
           "UNOWNED publication guard requires the unique initial dispatch attempt"
       else lift (revalidate_owned task observed_at attempts workers target)) ;;
      mret {| pdp_row := target_row; pdp_resolved := false |}
  | _, _ =>
      throw PersistenceConflictError
        "prepared reconciliation is stale because a different latest dispatch exists"
  end.
Definition guard_prepared_publication {A} (e : Env) (run_id : UUID) (task_id : string)
    (dispatch_id : UUID) (body : PreparedDispatchPublication → M World A) : M World A :=
  task_name ← lift (required_label task_id "task_id" 128);
  session (
    publication ← revalidate_prepared e run_id task_name dispatch_id;
    body publication).

(** ** [runtime/reconciler.py] *)
Definition _BROKER_ERROR_CODE : string := "BROKER_CONNECTION_ERROR".
Definition _BROKER_ERROR_MESSAGE : string :=
  "Dramatiq broker could not accept reconciliation dispatch".

(** The body of the [async with]: the receipt, or [None] when the broker
    refused the message and the refusal is recorded. *)
Definition publish_body (e : Env) (reply : broker_reply) (queue_name : string)
    (run_id : UUID) (task_id : string) (dispatch_id : UUID)
    (publication : PreparedDispatchPublication) : M World (option TaskDispatchReceipt) :=
  ensure (bool_decide (dar_dispatch_id (pdp_row publication) = dispatch_id)) RuntimeError
    "locked publication dispatch identity changed unexpectedly" ;;
  envelope ← lift (TaskDispatchEnvelope_new
    {| tde_dispatch_id := dispatch_id; tde_run_id := run_id; tde_task_id := task_id |});
  try_else (send reply envelope)
    (λ message_id,
      enqueued ← publication_mark_enqueued e publication message_id queue_name;
      receipt ← lift (TaskDispatchReceipt_new {|
        tdr_dispatch_id := pda_dispatch_id enqueued.1;
        tdr_run_id := pda_run_id enqueued.1;
        tdr_task_id := pda_task_id enqueued.1;
        tdr_broker_message_id := default "" (pda_broker_message_id enqueued.1);
        tdr_queue_name := default "" (pda_queue_name enqueued.1);
      |});
      mret (Some receipt))
    (λ x,
      if decide (exn_kind x = BrokerConnectionError) then
        publication_mark_publish_failed e publication _BROKER_ERROR_CODE _BROKER_ERROR_MESSAGE ;;
        mret None
      else lift (Raise x)).
Definition publish_prepared (eg em : Env) (reply : broker_reply) (queue_name : string)
    (run_id : UUID) (task_id : string) (attempt : PersistedDispatchAttempt)
    : M World (option TaskDispatchReceipt) :=
  guard_prepared_publication eg run_id task_id (pda_dispatch_id attempt)
    (publish_body em reply queue_name run_id task_id (pda_dispatch_id attempt)).

(** [IdempotentTaskReconciler.reconcile]; the environments are those of the
    preparing transaction, the guard and the resolution. *)
Definition reconcile (ep eg em : Env) (reply : broker_reply) (queue_name : string)
    (run_id : UUID) (task_id : string) : M World TaskReconciliationOutcome :=
  decision ← prepare_task ep run_id task_id;
  if negb (bool_decide (trd_action decision = ACT_PREPARED_DISPATCH)) then
    lift (TaskReconciliationOutcome_new {| tro_decision := decision; tro_receipt := None |})
  else
    match trd_dispatch_attempt decision, trd_publish_allowed decision with
    | Some attempt, true =>
        receipt ← publish_prepared eg em reply queue_name run_id task_id attempt;
        match receipt with
        | None => throw TaskDispatchBrokerError _BROKER_ERROR_MESSAGE
        | Some receipt =>
            lift (TaskReconciliationOutcome_new
                    {| tro_decision := decision; tro_receipt := Some receipt |})
        end
    | _, _ => throw RuntimeError
                "prepared reconciliation is missing durable publication authority"
    end.
End store.

(** ** [dispatch/durable.py] *)

(** [PostgresRunStore.load_run]: it reads. *)
Class RunReader : Type := {
  load_run : UUID → M World PersistedRunSnapshot;
  load_run_reads : ∀ run_id w, (load_run run_id w).2 = w;
}.

Section durable.
Context `{RunReader}.

Definition _receipt_from_attempt (attempt : PersistedDispatchAttempt) : result TaskDispatchReceipt :=
  check (bool_decide (pda_state attempt = ENQUEUED)) TaskDispatchRejectedError
    "only durably ENQUEUED dispatch attempts can produce queue receipts" ;;
  broker_message_id ← of_option (Exn AssertionError "") (pda_broker_message_id attempt);
  queue_name ← of_option (Exn AssertionError "") (pda_queue_name attempt);
  TaskDispatchReceipt_new {|
    tdr_dispatch_id := pda_dispatch_id attempt;
    tdr_run_id := pda_run_id attempt;
    tdr_task_id := pda_task_id attempt;
    tdr_broker_message_id := broker_message_id;
    tdr_queue_name := queue_name;
  |}.

Definition durable_BROKER_ERROR_MESSAGE : string := "Dramatiq broker could not accept task dispatch".

(** What [dispatch] does up to the durable intent: a receipt it may return
    at once, or the envelope it must publish. *)
Definition dispatch_intent (e : Env) (run_id : UUID) (task_id : string) (dispatch_id : option UUID)
    : M World (TaskDispatchReceipt + TaskDispatchEnvelope) :=
  snapshot ← load_run run_id;
  ensure (bool_decide (prs_status snapshot = PRS_RUNNING)) TaskDispatchRejectedError
    "only persisted RUNNING runs may dispatch tasks" ;;
  ensure (bool_decide (task_id ∈ snapshot_task_ids snapshot)) TaskDispatchRejectedError
    "task does not belong to persisted run" ;;
  envelope ← lift (TaskDispatchEnvelope_new {|
    tde_dispatch_id := default (env_uuid4 e 0) dispatch_id;
    tde_run_id := run_id; tde_task_id := task_id |});
  begun ← begin_initial_attempt e (tde_dispatch_id envelope) run_id task_id;
  let '(attempt, created) := begun in
  if negb created then
    if decide (pda_state attempt = ENQUEUED) then
      receipt ← lift (_receipt_from_attempt attempt);
      mret (inl receipt)
    else
      throw TaskDispatchRejectedError
        "durable dispatch attempt is unresolved or failed; recovery must decide any retry"
  else mret (inr envelope).

(** [DurableDramatiqTaskDispatcher.dispatch] *)
Definition dispatch (e em : Env) (reply : broker_reply) (queue_name : string)
    (run_id : UUID) (task_id : string) (dispatch_id : option UUID) : M World TaskDispatchReceipt :=
  intent ← dispatch_intent e run_id task_id dispatch_id;
  match intent with
  | inl receipt => mret receipt
  | inr envelope =>
      try_else (send reply envelope)
        (λ message_id,
          enqueued ← mark_enqueued em (tde_dispatch_id envelope) (tde_run_id envelope)
                       (tde_task_id envelope) message_id queue_name;
          lift (_receipt_from_attempt enqueued))
        (λ x,
          if decide (exn_kind x = BrokerConnectionError) then
            mark_publish_failed em (tde_dispatch_id envelope) (tde_run_id envelope)
              (tde_task_id envelope) _BROKER_ERROR_CODE durable_BROKER_ERROR_MESSAGE ;;
            throw TaskDispatchBrokerError durable_BROKER_ERROR_MESSAGE
          else lift (Raise x))
  end.
End durable.
