(* ===== verification/DispatchFacts.v ===== *)
(** * DispatchFacts: what the dispatch ledger guarantees

    The decision of [prepare_task] on every branch, the four effects the
    operations of [Dispatch] have on ledger and broker, the publication
    protocol they refine, and the system of interleaved transactions over
    which the refinement and the at-most-once publication are proved. *)
From stdpp Require Import options.
From S2P Require Import Prelude Contracts Json Store Events Lease RunModels Recovery Dispatch.
Open Scope Z_scope.

(** ** Transactions and the tables *)
Lemma set_sent_id w : set_sent (w_sent w) w = w.
Proof. by destruct w. Qed.
Lemma set_db_id w : set_db (w_db w) w = w.
Proof. by destruct w. Qed.

(** Statements that hand nothing to the broker. *)
Definition quiet {A} (m : M World A) : Prop := ∀ w, w_sent (m w).2 = w_sent w.
Lemma quiet_bind {A B} (m : M World A) (f : A → M World B) :
  quiet m → (∀ a, quiet (f a)) → quiet (m ≫= f).
Proof.
  intros Hm Hf w. unfold mbind, M_bind. specialize (Hm w).
  destruct (m w) as [[a|x] w'] eqn:E; cbn in *; [|done]. by rewrite Hf.
Qed.
Lemma quiet_lift {A} (r : result A) : quiet (lift r).
Proof. done. Qed.
Lemma quiet_ret {A} (a : A) : quiet (mret a).
Proof. done. Qed.
Lemma quiet_ensure b c msg : quiet (ensure b c msg).
Proof. done. Qed.
Lemma quiet_get : quiet get.
Proof. done. Qed.
Lemma quiet_attempts f : quiet (modify (λ w, set_attempts (f w) w)).
Proof. done. Qed.
Lemma quiet_on_db {A} (m : DB A) : quiet (on_db m).
Proof. intros w. unfold on_db. by destruct (m (w_db w)). Qed.
Lemma quiet_locked d : quiet (_locked_attempt d).
Proof. done. Qed.
Lemma quiet_insert r : quiet (insert_attempt_row r).
Proof.
  intros w. unfold insert_attempt_row, mbind, M_bind, get, ensure, lift, check.
  by repeat case_match; simplify_eq.
Qed.
Lemma quiet_update r : quiet (update_attempt_row r).
Proof.
  intros w. unfold update_attempt_row, mbind, M_bind, get, ensure, lift, check.
  by repeat case_match; simplify_eq.
Qed.
Create HintDb quiet.
#[export] Hint Resolve quiet_bind quiet_lift quiet_ret quiet_ensure quiet_get quiet_on_db
  quiet_locked quiet_insert quiet_update : quiet.
#[export] Hint Unfold throw : quiet.
Ltac solve_quiet :=
  repeat first
    [ progress intros
    | apply quiet_bind
    | apply quiet_lift | apply quiet_ret | apply quiet_ensure | apply quiet_get
    | apply quiet_on_db | apply quiet_locked | apply quiet_insert | apply quiet_update
    | unfold throw; apply quiet_lift
    | case_match ].

Lemma session_Ok {A} (m : M World A) w a w' : session m w = (Ok a, w') → m w = (Ok a, w').
Proof. unfold session. destruct (m w) as [[]]; congruence. Qed.
Lemma session_raise {A} (m : M World A) w x w' :
  quiet m → session m w = (Raise x, w') → w' = w.
Proof.
  intros Hq. specialize (Hq w). unfold session. destruct (m w) as [[] w1] eqn:E; [congruence|].
  intros [= <- <-]. cbn in Hq. rewrite Hq. apply set_sent_id.
Qed.

(** The rows and the uniqueness the table guarantees. *)
Record table_wf (m : gmap UUID DispatchAttemptRow) : Prop := {
  tw_key : ∀ d r, m !! d = Some r → dar_dispatch_id r = d;
  tw_number : ∀ d1 r1 d2 r2, m !! d1 = Some r1 → m !! d2 = Some r2 →
    dar_run_id r1 = dar_run_id r2 → dar_task_id r1 = dar_task_id r2 →
    dar_attempt_number r1 = dar_attempt_number r2 → d1 = d2;
}.

Lemma attempt_of_task_true run task r :
  attempt_of_task run task r = true ↔ dar_run_id r = run ∧ dar_task_id r = task.
Proof. unfold attempt_of_task. by rewrite andb_true_iff, !bool_decide_eq_true. Qed.

Lemma attempt_le_trans : Transitive attempt_le.
Proof. intros a b c. unfold attempt_le. lia. Qed.
Lemma attempt_le_total : Total attempt_le.
Proof. intros a b. unfold attempt_le. lia. Qed.

Lemma rows_perm run task w :
  _locked_attempt_rows run task w
  ≡ₚ filter (attempt_of_task run task) (snd <$> map_to_list (w_attempts w)).
Proof. apply merge_sort_Permutation. Qed.
Lemma rows_sorted run task w : StronglySorted attempt_le (_locked_attempt_rows run task w).
Proof. apply StronglySorted_merge_sort; [apply attempt_le_trans|apply attempt_le_total]. Qed.

Lemma elem_of_rows run task w r :
  r ∈ _locked_attempt_rows run task w ↔
  dar_run_id r = run ∧ dar_task_id r = task ∧ ∃ d, w_attempts w !! d = Some r.
Proof.
  rewrite rows_perm, list_elem_of_filter, Is_true_true, attempt_of_task_true, list_elem_of_fmap.
  split.
  - intros [[??] ([d r'] & -> & Hin)]. apply elem_of_map_to_list in Hin. eauto.
  - intros (? & ? & d & Hd). split; [done|]. exists (d, r). by rewrite elem_of_map_to_list.
Qed.

(** Sorted lists of rows with the same elements are equal. *)
Lemma rows_unique w l run task :
  table_wf (w_attempts w) →
  StronglySorted attempt_le l → l ≡ₚ _locked_attempt_rows run task w →
  l = _locked_attempt_rows run task w.
Proof.
  intros [Hk Hn] Hs Hp. eapply StronglySorted_unique_strong; [|done|apply rows_sorted|done].
  intros r s Hr Hs' H1 H2. rewrite Hp in Hr.
  apply elem_of_rows in Hr as (? & ? & d1 & Hd1). apply elem_of_rows in Hs' as (? & ? & d2 & Hd2).
  unfold attempt_le in *. assert (d1 = d2) as -> by (eapply Hn; try done; [congruence..|lia]).
  congruence.
Qed.

Lemma fmap_ext_in {A B} (f g : A → B) (l : list A) :
  (∀ x, x ∈ l → f x = g x) → f <$> l = g <$> l.
Proof. intros H. apply list_fmap_ext. intros i x Hx%list_elem_of_lookup_2. by apply H. Qed.
Lemma fmap_fixed {A} (f : A → A) (l : list A) : (∀ x, x ∈ l → f x = x) → f <$> l = l.
Proof.
  induction l as [|x l IH]; intros H; [done|]. rewrite fmap_cons, (H x), IH; [done| |by left].
  intros y Hy. apply H. by right.
Qed.

Lemma rows_insert_new w r :
  w_attempts w !! dar_dispatch_id r = None →
  table_wf (<[dar_dispatch_id r := r]> (w_attempts w)) →
  Forall (λ x, dar_attempt_number x < dar_attempt_number r)
    (_locked_attempt_rows (dar_run_id r) (dar_task_id r) w) →
  ∀ run task,
  _locked_attempt_rows run task (set_attempts (<[dar_dispatch_id r := r]> (w_attempts w)) w)
  = _locked_attempt_rows run task w
    ++ (if attempt_of_task run task r then [r] else []).
Proof.
  intros Hnew Hwf Hlt run task. symmetry. apply rows_unique; [done| |].
  - destruct (attempt_of_task run task r) eqn:Hr; [|rewrite app_nil_r; apply rows_sorted].
    apply attempt_of_task_true in Hr as [<- <-].
    apply StronglySorted_app_2; [|apply rows_sorted|repeat constructor].
    intros x y Hx ->%list_elem_of_singleton. unfold attempt_le.
    rewrite Forall_forall in Hlt. by specialize (Hlt _ Hx); lia.
  - rewrite !rows_perm. cbn [w_attempts set_attempts]. rewrite map_to_list_insert by done.
    rewrite fmap_cons, filter_cons. cbn.
    destruct (attempt_of_task run task r); cbn; [|by rewrite app_nil_r].
    by rewrite Permutation_app_comm.
Qed.

(** Replacing a row of the table. *)
Definition replace_row (r x : DispatchAttemptRow) : DispatchAttemptRow :=
  if decide (dar_dispatch_id x = dar_dispatch_id r) then r else x.
Definition same_place (r0 r : DispatchAttemptRow) : Prop :=
  dar_dispatch_id r = dar_dispatch_id r0 ∧ dar_run_id r = dar_run_id r0
  ∧ dar_task_id r = dar_task_id r0 ∧ dar_attempt_number r = dar_attempt_number r0.

Lemma table_wf_replace m r0 r :
  table_wf m → m !! dar_dispatch_id r0 = Some r0 → same_place r0 r →
  table_wf (<[dar_dispatch_id r := r]> m).
Proof.
  intros [Hk Hn] H0 (Hd & Hr & Ht & Hnum). split.
  - intros d x. rewrite lookup_insert_Some. intros [[<- ->]|[_ ?]]; eauto.
  - intros d1 r1 d2 r2. rewrite !lookup_insert_Some, Hd.
    intros [[<- ->]|[? H1]] [[<- ->]|[? H2]]; [done|..|by eauto];
      intros ???; [|symmetry]; eapply (Hn _ _ _ _); try done; congruence.
Qed.
Lemma rows_replace w r0 r :
  table_wf (w_attempts w) → w_attempts w !! dar_dispatch_id r0 = Some r0 → same_place r0 r →
  ∀ run task,
  _locked_attempt_rows run task (set_attempts (<[dar_dispatch_id r := r]> (w_attempts w)) w)
  = replace_row r <$> _locked_attempt_rows run task w.
Proof.
  intros Hwf H0 Hp run task. pose proof (table_wf_replace _ _ _ Hwf H0 Hp) as Hwf'.
  pose proof Hp as (Hd & Hr & Ht & Hnum). destruct Hwf as [Hk Hn].
  symmetry. apply rows_unique; [done| |].
  - pose proof (rows_sorted run task w) as Hs.
    assert (∀ x, x ∈ _locked_attempt_rows run task w →
      dar_attempt_number (replace_row r x) = dar_attempt_number x) as Heq.
    { intros x (? & ? & d & Hx)%elem_of_rows. unfold replace_row. case_decide; [|done].
      pose proof (Hk _ _ Hx). assert (x = r0) as -> by congruence. congruence. }
    induction Hs as [|x l Hs IH Hall]; [constructor|]. rewrite fmap_cons. constructor.
    + apply IH. intros y Hy. apply Heq. by right.
    + rewrite Forall_fmap. rewrite Forall_forall in *. intros y Hy. unfold attempt_le. cbn.
      rewrite !Heq by (by constructor). by apply Hall.
  - rewrite !rows_perm. cbn [w_attempts set_attempts].
    rewrite Hd. rewrite <- (insert_delete_id (w_attempts w) _ _ H0) at 1.
    rewrite map_to_list_insert by apply lookup_delete_eq.
    rewrite <- insert_delete_eq, map_to_list_insert by apply lookup_delete_eq.
    assert (attempt_of_task run task r = attempt_of_task run task r0) as Hsame
      by (unfold attempt_of_task; by rewrite Hr, Ht).
    rewrite !fmap_cons, !filter_cons. cbn. rewrite Hsame.
    assert (replace_row r <$> filter (attempt_of_task run task)
              (snd <$> map_to_list (delete (dar_dispatch_id r0) (w_attempts w)))
            = filter (attempt_of_task run task)
              (snd <$> map_to_list (delete (dar_dispatch_id r0) (w_attempts w)))) as Hid.
    { apply fmap_fixed. intros x. rewrite list_elem_of_filter, list_elem_of_fmap.
      intros [_ ([d y] & -> & [Hne Hy]%elem_of_map_to_list%lookup_delete_Some)]. cbn.
      unfold replace_row. rewrite decide_False; [done|]. rewrite Hd, (Hk _ _ Hy). congruence. }
    case_decide; [|by rewrite Hid].
    rewrite fmap_cons, Hid. unfold replace_row at 1. by rewrite decide_True by done.
Qed.

Lemma insert_row_Ok r w u w' :
  insert_attempt_row r w = (Ok u, w') →
  w_attempts w !! dar_dispatch_id r = None ∧ attempt_row_ok r w = true
  ∧ w' = set_attempts (<[dar_dispatch_id r := r]> (w_attempts w)) w.
Proof. unfold insert_attempt_row. intros H. inv_monad. to_prop. injection H as <-. done. Qed.
Lemma update_row_Ok r w u w' :
  update_attempt_row r w = (Ok u, w') →
  attempt_row_ok r w = true ∧ w' = set_attempts (<[dar_dispatch_id r := r]> (w_attempts w)) w.
Proof. unfold update_attempt_row. intros H. inv_monad. injection H as <-. done. Qed.
Lemma row_ok_number r w d x :
  attempt_row_ok r w = true → w_attempts w !! d = Some x →
  dar_run_id x = dar_run_id r → dar_task_id x = dar_task_id r →
  dar_attempt_number x = dar_attempt_number r → d = dar_dispatch_id r.
Proof.
  unfold attempt_row_ok. rewrite !andb_true_iff. intros [_ Hall] Hx Hr Ht Hn.
  rewrite forallb_forall in Hall.
  specialize (Hall (d, x)). cbn in Hall. rewrite orb_true_iff, bool_decide_eq_true in Hall.
  destruct Hall as [|Hall]; [|done|].
  - by apply list_elem_of_In, elem_of_map_to_list.
  - apply negb_true_iff, andb_false_iff in Hall. destruct Hall as [Hall|Hall].
    + apply not_true_iff_false in Hall. destruct Hall. by apply attempt_of_task_true.
    + to_prop. done.
Qed.
Lemma table_wf_insert r w :
  table_wf (w_attempts w) → attempt_row_ok r w = true →
  table_wf (<[dar_dispatch_id r := r]> (w_attempts w)).
Proof.
  intros [Hk Hn] Hok. split.
  - intros d x. rewrite lookup_insert_Some. intros [[<- ->]|[_ ?]]; eauto.
  - intros d1 r1 d2 r2. rewrite !lookup_insert_Some.
    intros [[<- ->]|[? H1]] [[<- ->]|[? H2]]; [done|..|by eauto]; intros ???; [symmetry|];
      by eapply row_ok_number.
Qed.

Lemma state_of_value v s : DispatchAttemptState_of v = Ok s → DispatchAttemptState_value s = v.
Proof. unfold DispatchAttemptState_of. repeat case_decide; intros; simplify_eq; done. Qed.
Lemma state_shape_id s a : validate_state_shape s = Ok a → a = s.
Proof.
  unfold validate_state_shape. intros H. inv_valid. destruct (pda_state s); by inv_valid.
Qed.
Lemma decode_attempt_id r a :
  decode_attempt r = Ok a →
  pda_dispatch_id a = dar_dispatch_id r ∧ pda_run_id a = dar_run_id r
  ∧ pda_task_id a = dar_task_id r ∧ pda_attempt_number a = dar_attempt_number r
  ∧ DispatchAttemptState_value (pda_state a) = dar_state r.
Proof.
  unfold decode_attempt. destruct (_ ≫= _) as [x|x] eqn:E; [|by case_match].
  intros [= ->]. apply bind_Ok_inv in E as (s & Hs%state_of_value & E).
  unfold PersistedDispatchAttempt_new in E. inv_valid. by apply state_shape_id in E as ->.
Qed.
Lemma decode_rows_ids rows attempts :
  map_result decode_attempt rows = Ok attempts →
  Forall2 (λ r a, decode_attempt r = Ok a) rows attempts.
Proof. apply map_result_Ok. Qed.
Lemma NoDup_fmap_filter {A B} (f : A → B) (P : A → bool) (l : list A) :
  NoDup (f <$> l) → NoDup (f <$> filter P l).
Proof.
  induction l as [|x l IH]; [done|]. rewrite fmap_cons, NoDup_cons, filter_cons. intros [Hx Hl].
  destruct (decide (P x)); [|by apply IH]. rewrite fmap_cons. constructor; [|by apply IH].
  intros (y & Hfy & [_ Hy]%list_elem_of_filter)%list_elem_of_fmap.
  apply Hx, list_elem_of_fmap. eauto.
Qed.
Lemma rows_ids_NoDup run task w :
  table_wf (w_attempts w) → NoDup (dar_dispatch_id <$> _locked_attempt_rows run task w).
Proof.
  intros [Hk _]. rewrite rows_perm.
  assert (dar_dispatch_id <$> (snd <$> map_to_list (w_attempts w)) = (map_to_list (w_attempts w)).*1) as E.
  { rewrite <- list_fmap_compose. apply list_fmap_ext. intros i [d r] Hd.
    apply (Hk d r), elem_of_map_to_list, list_elem_of_lookup. by exists i. }
  pose proof (NoDup_fst_map_to_list (w_attempts w)) as Hnd. rewrite <- E in Hnd.
  by apply NoDup_fmap_filter.
Qed.

(** ** What [prepare_task] decides *)
Lemma validate_decision_id s d : validate_decision_shape s = Ok d → d = s.
Proof. unfold validate_decision_shape. case_decide; intros G; by inv_valid. Qed.
Lemma decision_Ok run task t act reason ev att pub rec d :
  _decision run task t act reason ev att pub rec = Ok d →
  trd_action d = act ∧ trd_terminal_worker_evidence_id d = ev ∧ trd_dispatch_attempt d = att
  ∧ trd_publish_allowed d = pub ∧ trd_recovery_attempt d = rec
  ∧ trd_run_id d = run ∧ trd_task_id d = tr_task_id task.
Proof.
  unfold _decision, TaskReconciliationDecision_new. intros H. inv_valid.
  by apply validate_decision_id in H as ->.
Qed.

(** The decision that settles through an existing attempt. *)
Definition settles (a : PersistedDispatchAttempt) (d : TaskReconciliationDecision) : Prop :=
  trd_action d = (if decide (pda_state a = PUBLISH_FAILED) then ACT_BLOCKED_PUBLISH_FAILED
                  else ACT_WAIT_EXISTING_DISPATCH)
  ∧ trd_dispatch_attempt d = Some a ∧ trd_publish_allowed d = false.
Lemma existing_Ok run task t a reason d :
  _existing_dispatch_decision run task t a reason = Ok d → settles a d.
Proof.
  unfold _existing_dispatch_decision, settles.
  case_decide; intros (? & _ & ? & ? & _)%decision_Ok; done.
Qed.

(** One fresh REQUESTED attempt is inserted and handed to the caller. *)
Record authorised (e : Env) (run : UUID) (task : string) (n : Z) (recovery : bool)
    (d : TaskReconciliationDecision) (w w' : World) : Prop := {
  au_row : ∃ t, let row := requested_row (env_uuid4 e 0) run task n t in
    w_attempts w !! env_uuid4 e 0 = None ∧ attempt_row_ok row w = true
    ∧ w' = set_attempts (<[env_uuid4 e 0 := row]> (w_attempts w)) w
    ∧ ∃ a, decode_attempt row = Ok a ∧ trd_dispatch_attempt d = Some a;
  au_action : trd_action d = ACT_PREPARED_DISPATCH;
  au_allowed : trd_publish_allowed d = true;
  au_recovery : trd_recovery_attempt d = recovery;
}.
Lemma insert_decision_Ok e run name task n t reason rec w d w' :
  (attempt ← _insert_attempt e run name n t;
   lift (_decision run task t ACT_PREPARED_DISPATCH reason None (Some attempt) true rec)) w
  = (Ok d, w') →
  authorised e run name n rec d w w'.
Proof.
  intros H. unfold _insert_attempt in H. inv_monad. cbn in *.
  match goal with H : insert_attempt_row _ _ = _ |- _ => apply insert_row_Ok in H as (? & ? & ->) end.
  match goal with H : _decision _ _ _ _ _ _ _ _ _ = _ |- _ =>
    apply decision_Ok in H as (? & _ & ? & ? & ? & _) end.
  split; [|done..]. exists t. eauto 10.
Qed.

Lemma prepare_unowned_Ok e run name task t attempts W D w d w' :
  prepare_unowned e run name task t attempts W D w = (Ok d, w') →
  (∃ a, last attempts = Some a ∧ settles a d ∧ w' = w)
  ∨ (attempts = [] ∧ authorised e run name 1 false d w w').
Proof.
  unfold prepare_unowned. intros H. apply M_bind_Ok_inv in H as (u & s & Hc & H).
  apply ensure_Ok_inv in Hc as [_ ->].
  destruct (last attempts) as [a|] eqn:Hl.
  - apply lift_Ok_inv in H as [H%existing_Ok ->]. eauto.
  - right. split; [by apply last_None|]. by eapply insert_decision_Ok.
Qed.

(** The ledger position of the lease's dispatch. *)
Definition current_of (task : TaskRow) (attempts : list PersistedDispatchAttempt)
    (c : PersistedDispatchAttempt) : Prop :=
  c ∈ attempts ∧ lease_dispatch_id task = Some (pda_dispatch_id c).
Lemma attempt_for_dispatch_Some attempts d c :
  _attempt_for_dispatch attempts d = Some c → c ∈ attempts ∧ pda_dispatch_id c = d.
Proof.
  unfold _attempt_for_dispatch. intros [Hin Hd]%find_some.
  split; [by apply list_elem_of_In|by to_prop].
Qed.

Inductive owned_decision (e : Env) (run : UUID) (name : string) (task : TaskRow) (t : Z)
    (attempts : list PersistedDispatchAttempt) (W : TaskWorkers) (c : PersistedDispatchAttempt)
    (d : TaskReconciliationDecision) (w w' : World) : Prop :=
  | od_resume id x : W !! pda_dispatch_id c = Some (id, x) →
      trd_action d = ACT_RESUME_TERMINAL_EVIDENCE → trd_terminal_worker_evidence_id d = Some id →
      trd_publish_allowed d = false → w' = w → owned_decision e run name task t attempts W c d w w'
  | od_released : W !! pda_dispatch_id c = None → lease_released_at task ≠ None →
      trd_action d = ACT_BLOCKED_RELEASED_EVIDENCE_GAP →
      trd_publish_allowed d = false → w' = w → owned_decision e run name task t attempts W c d w w'
  | od_active until : W !! pda_dispatch_id c = None → lease_released_at task = None →
      lease_until task = Some until → t < until → trd_action d = ACT_WAIT_ACTIVE_OWNER →
      trd_publish_allowed d = false → w' = w → owned_decision e run name task t attempts W c d w w'
  | od_newer until a : W !! pda_dispatch_id c = None → lease_released_at task = None →
      lease_until task = Some until → until ≤ t →
      a ∈ attempts → pda_attempt_number c < pda_attempt_number a → settles a d → w' = w →
      owned_decision e run name task t attempts W c d w w'
  | od_prepare until newest : W !! pda_dispatch_id c = None → lease_released_at task = None →
      lease_until task = Some until → until ≤ t →
      Forall (λ a, pda_attempt_number a ≤ pda_attempt_number c) attempts →
      last attempts = Some newest →
      authorised e run name (pda_attempt_number newest + 1) true d w w' →
      owned_decision e run name task t attempts W c d w w'.

Lemma prepare_owned_Ok e run name task t attempts W w d w' :
  prepare_owned e run name task t attempts W w = (Ok d, w') →
  ∃ c, current_of task attempts c ∧ owned_decision e run name task t attempts W c d w w'.
Proof.
  unfold prepare_owned. intros H.
  apply M_bind_Ok_inv in H as (dd & s & Hd & H). apply lift_Ok_inv in Hd as [Hd ->].
  apply M_bind_Ok_inv in H as (c & s & Hc & H). apply lift_Ok_inv in Hc as [Hc ->].
  destruct (lease_dispatch_id task) as [dd'|] eqn:Hld; [|done]. injection Hd as ->.
  destruct (_attempt_for_dispatch attempts dd) as [c'|] eqn:Hf; [|done]. injection Hc as ->.
  apply attempt_for_dispatch_Some in Hf as [Hin <-]. exists c. split; [done|].
  destruct (W !! pda_dispatch_id c) as [[i x]|] eqn:HW.
  { apply lift_Ok_inv in H as [(? & ? & ? & ? & ?)%decision_Ok ->]. by eapply od_resume. }
  destruct (lease_released_at task) eqn:Hr; cbn [is_none negb] in H.
  { apply lift_Ok_inv in H as [(? & ? & ? & ? & ?)%decision_Ok ->]. by eapply od_released; [|rewrite Hr|..]. }
  apply M_bind_Ok_inv in H as (until & s & Hu & H). apply lift_Ok_inv in Hu as [Hu ->].
  destruct (lease_until task) as [u|] eqn:Hlu; [|done]. injection Hu as ->.
  destruct (t <? until) eqn:Ht; to_prop.
  { apply lift_Ok_inv in H as [(? & ? & ? & ? & ?)%decision_Ok ->]. by eapply od_active. }
  destruct (filter _ attempts) as [|a [|? ?]] eqn:Hfl; [..|done].
  - apply M_bind_Ok_inv in H as (newest & s & Hn & H). apply lift_Ok_inv in Hn as [Hn ->].
    destruct (last attempts) as [n|] eqn:Hl; [|done]. injection Hn as ->.
    eapply od_prepare; try done; [|by eapply insert_decision_Ok].
    apply Forall_forall. intros a Ha. destruct (decide (pda_attempt_number c < pda_attempt_number a)); [|lia].
    exfalso. apply (not_elem_of_nil a). rewrite <- Hfl. by apply list_elem_of_filter.
  - apply lift_Ok_inv in H as [H%existing_Ok ->].
    assert (a ∈ filter (λ a, pda_attempt_number c < pda_attempt_number a) attempts) as Ha
      by (rewrite Hfl; by left).
    apply list_elem_of_filter in Ha as [? ?]. by eapply od_newer.
Qed.

Section prepare.
Context (sha256 : string → string).
Context (read_execution : JSON → result WorkerExecutionEvidence).
Context (read_dispatch : JSON → result WorkerDispatchEvent).
#[local] Notation prepare := (prepare_task sha256 read_execution read_dispatch).
#[local] Notation side_evidence := (_validated_worker_side_evidence sha256 read_execution read_dispatch).

(** What [prepare_task] reads of one task of a RUNNING run. *)
Record ledger_view (run : UUID) (name : string) (w : World)
    (attempts : list PersistedDispatchAttempt) (W : TaskWorkers) : Prop := {
  lv_attempts : map_result decode_attempt (_locked_attempt_rows run name w) = Ok attempts;
  lv_numbers : pda_attempt_number <$> attempts = seqZ 1 (Z.of_nat (length attempts));
  lv_evidence : ∃ D, side_evidence run name attempts w = Ok (W, D);
}.
Record task_view (e : Env) (run : UUID) (name : string) (w : World)
    (r : RunRow) (t : TaskRow) (now : Z) : Prop := {
  tv_run : db_runs (w_db w) !! run = Some r;
  tv_task : db_tasks (w_db w) !! (run, name) = Some t;
  tv_now : database_time e = Ok now;
}.

Lemma required_label_Ok v l n name : required_label v l n = Ok name → name = strip v ∧ name ≠ "".
Proof. unfold required_label. intros H. inv_monad. by to_prop. Qed.
Lemma locked_run_Ok run w r w' : on_db (_locked_run run) w = (Ok r, w') →
  db_runs (w_db w) !! run = Some r ∧ w' = w.
Proof.
  unfold on_db, _locked_run. destruct (db_runs _ !! run); intros [= <- <-]. by rewrite set_db_id.
Qed.
Lemma locked_task_Ok run name w t w' : on_db (_locked_task run name) w = (Ok t, w') →
  db_tasks (w_db w) !! (run, name) = Some t ∧ w' = w.
Proof.
  unfold on_db, _locked_task. destruct (db_tasks _ !! _); intros [= <- <-]. by rewrite set_db_id.
Qed.

Lemma prepare_task_inv e run task w d w' :
  prepare e run task w = (Ok d, w') →
  ∃ r t now, strip task ≠ "" ∧ task_view e run (strip task) w r t now ∧
  ((rr_status r ≠ "RUNNING" ∧ trd_action d = ACT_NO_ACTION_RUN_TERMINAL
    ∧ trd_publish_allowed d = false ∧ w' = w)
   ∨ (rr_status r = "RUNNING" ∧ ∃ attempts W, ledger_view run (strip task) w attempts W ∧
      ((lease_owner t = None ∧
        ((∃ a, last attempts = Some a ∧ settles a d ∧ w' = w)
         ∨ (attempts = [] ∧ authorised e run (strip task) 1 false d w w')))
       ∨ (lease_owner t ≠ None ∧ ∃ c, current_of t attempts c
          ∧ owned_decision e run (strip task) t now attempts W c d w w')))).
Proof.
  unfold prepare_task. intros H.
  apply M_bind_Ok_inv in H as (name & s & Hn & H). apply lift_Ok_inv in Hn as [Hn ->].
  apply required_label_Ok in Hn as [-> Hne]. apply session_Ok in H.
  apply M_bind_Ok_inv in H as (r & s & Hr & H). apply locked_run_Ok in Hr as [Hr ->].
  apply M_bind_Ok_inv in H as (t & s & Ht & H). apply locked_task_Ok in Ht as [Ht ->].
  apply M_bind_Ok_inv in H as (now & s & Hnow & H). apply lift_Ok_inv in Hnow as [Hnow ->].
  apply M_bind_Ok_inv in H as (u & s & Hs & H). apply lift_Ok_inv in Hs as [_ ->].
  exists r, t, now. split; [done|]. split; [done|].
  case_bool_decide as Hrun; cbn [negb] in H.
  - right. split; [done|].
    apply M_bind_Ok_inv in H as (w0 & s & Hg & H). injection Hg as <- <-.
    apply M_bind_Ok_inv in H as (attempts & s & Ha & H). apply lift_Ok_inv in Ha as [Ha ->].
    apply M_bind_Ok_inv in H as (u1 & s & Hh & H). apply lift_Ok_inv in Hh as [Hh ->].
    apply M_bind_Ok_inv in H as ([W D] & s & He & H). apply lift_Ok_inv in He as [He ->].
    cbn [fst snd] in H. apply check_Ok, bool_decide_eq_true in Hh.
    exists attempts, W. split; [by split; [..|by exists D]|].
    destruct (lease_owner t) eqn:Ho; cbn [is_none] in H.
    + right. split; [done|]. by eapply prepare_owned_Ok.
    + left. split; [done|]. by eapply prepare_unowned_Ok.
  - left. apply lift_Ok_inv in H as [(? & ? & ? & ? & ?)%decision_Ok ->]. done.
Qed.

(** When a publication may be prepared: the first one of an UNOWNED task, or
    the one after an expired, unreleased generation whose dispatch is the
    newest of the ledger and has no terminal evidence. *)
Definition may_publish (r : RunRow) (t : TaskRow) (now : Z)
    (attempts : list PersistedDispatchAttempt) (W : TaskWorkers) : Prop :=
  rr_status r = "RUNNING" ∧
  ((lease_owner t = None ∧ attempts = [])
   ∨ (lease_owner t ≠ None ∧ lease_released_at t = None ∧ (∃ until, lease_until t = Some until ∧ until ≤ now)
      ∧ ∃ c, last attempts = Some c ∧ lease_dispatch_id t = Some (pda_dispatch_id c)
             ∧ W !! pda_dispatch_id c = None)).

Lemma numbered_lookup (attempts : list PersistedDispatchAttempt) i a :
  pda_attempt_number <$> attempts = seqZ 1 (Z.of_nat (length attempts)) →
  attempts !! i = Some a → pda_attempt_number a = 1 + Z.of_nat i.
Proof.
  intros Hn Hi. assert ((pda_attempt_number <$> attempts) !! i = Some (pda_attempt_number a)) as H
    by (by rewrite list_lookup_fmap, Hi).
  rewrite Hn in H. apply lookup_seqZ in H. lia.
Qed.
Lemma numbered_last attempts n :
  pda_attempt_number <$> attempts = seqZ 1 (Z.of_nat (length attempts)) →
  last attempts = Some n → pda_attempt_number n = Z.of_nat (length attempts).
Proof.
  intros Hn Hl. rewrite last_lookup in Hl. pose proof (lookup_lt_Some _ _ _ Hl).
  rewrite (numbered_lookup _ _ _ Hn Hl). lia.
Qed.
Lemma numbered_top attempts n c :
  pda_attempt_number <$> attempts = seqZ 1 (Z.of_nat (length attempts)) →
  last attempts = Some n → c ∈ attempts → pda_attempt_number n ≤ pda_attempt_number c → c = n.
Proof.
  intros Hn Hl [i Hi]%list_elem_of_lookup Hle.
  rewrite (numbered_last _ _ Hn Hl), (numbered_lookup _ _ _ Hn Hi) in Hle.
  pose proof (lookup_lt_Some _ _ _ Hi). rewrite last_lookup in Hl.
  replace (pred (length attempts)) with i in Hl by lia. congruence.
Qed.
Lemma ledger_ids_NoDup run name w attempts W :
  table_wf (w_attempts w) → ledger_view run name w attempts W → NoDup (pda_dispatch_id <$> attempts).
Proof.
  intros Hwf [Ha _ _]. apply decode_rows_ids in Ha.
  replace (pda_dispatch_id <$> attempts)
    with (dar_dispatch_id <$> _locked_attempt_rows run name w); [by apply rows_ids_NoDup|].
  induction Ha as [|r a rows l Hr _ IH]; [done|]. rewrite !fmap_cons, IH.
  by rewrite (proj1 (decode_attempt_id _ _ Hr)).
Qed.
Lemma same_dispatch run name w attempts W a c :
  table_wf (w_attempts w) → ledger_view run name w attempts W →
  a ∈ attempts → c ∈ attempts → pda_dispatch_id a = pda_dispatch_id c → a = c.
Proof.
  intros Hwf Hv [i Hi]%list_elem_of_lookup [j Hj]%list_elem_of_lookup Heq.
  pose proof (ledger_ids_NoDup _ _ _ _ _ Hwf Hv) as Hnd.
  assert (i = j) as ->; [|congruence].
  eapply (NoDup_lookup _ _ _ (pda_dispatch_id a)); [exact Hnd|by rewrite list_lookup_fmap, Hi|].
  by rewrite list_lookup_fmap, Hj, Heq.
Qed.

Lemma owned_may_publish e run name w r t now attempts W c d w' :
  table_wf (w_attempts w) → rr_status r = "RUNNING" → ledger_view run name w attempts W →
  lease_owner t ≠ None → current_of t attempts c →
  owned_decision e run name t now attempts W c d w w' →
  (trd_action d = ACT_PREPARED_DISPATCH ↔ may_publish r t now attempts W)
  ∧ (trd_action d = ACT_PREPARED_DISPATCH →
     authorised e run name (Z.of_nat (length attempts) + 1) true d w w')
  ∧ (trd_action d ≠ ACT_PREPARED_DISPATCH → w' = w ∧ trd_publish_allowed d = false).
Proof.
  intros Hwf Hrun Hv Ho [Hc Hd] Hdec. pose proof (lv_numbers _ _ _ _ _ Hv) as Hn.
  assert (∀ c', last attempts = Some c' → lease_dispatch_id t = Some (pda_dispatch_id c') → c' = c)
    as Hlast.
  { intros c' Hl Hd'. eapply same_dispatch; [exact Hwf|exact Hv|..|congruence]; [|done].
    rewrite last_lookup in Hl. by eapply list_elem_of_lookup_2. }
  destruct Hdec as [i x HW Ha _ Hp ->|HW Hr Ha Hp ->|u HW Hr Hu Hlt Ha Hp ->
                   |u a HW Hr Hu Hle Hin Hlt (Ha & _ & Hp) ->|u n HW Hr Hu Hle Hall Hl Hau].
  5: { assert (c = n) as -> by (eapply numbered_top; try done; rewrite Forall_forall in Hall;
         apply Hall; rewrite last_lookup in Hl; by eapply list_elem_of_lookup_2).
       rewrite <- (numbered_last _ _ Hn Hl).
       pose proof (au_action _ _ _ _ _ _ _ _ Hau) as Hact. split; [|done].
       split; [|done]. intros _. split; [done|]. right. eauto 10. }
  all: split; [|split; [by rewrite Ha; repeat case_decide|done]].
  all: split; [by rewrite Ha; repeat case_decide|].
  all: intros (_ & [[? _]|(_ & Hr' & (u' & Hu' & Hle') & c' & Hl & Hd' & HW')]); [done|].
  all: pose proof (Hlast _ Hl Hd') as ->; simplify_eq; try lia.
  - rewrite (numbered_last _ _ Hn Hl) in Hlt. apply list_elem_of_lookup in Hin as [j Hj].
    rewrite (numbered_lookup _ _ _ Hn Hj) in Hlt. pose proof (lookup_lt_Some _ _ _ Hj). lia.
Qed.
End prepare.


(** ** The protocol the ledger implements

    What a reader of the ledger relies on: the attempts of a task are only
    appended, each under a new identity, handed to the broker at most once,
    and settled once, after that. *)
Inductive dispatch_phase : Set := Intended | Published | Acknowledged | Refused.
Inductive protocol_step : list (UUID * dispatch_phase) → list (UUID * dispatch_phase) → Prop :=
  | proto_intend l d : d ∉ l.*1 → protocol_step l (l ++ [(d, Intended)])
  | proto_publish l1 d l2 :
      protocol_step (l1 ++ (d, Intended) :: l2) (l1 ++ (d, Published) :: l2)
  | proto_settle l1 d p l2 : p = Acknowledged ∨ p = Refused →
      protocol_step (l1 ++ (d, Published) :: l2) (l1 ++ (d, p) :: l2).

Definition sent_ids (w : World) : list UUID := tde_dispatch_id <$> w_sent w.
Definition phase_of (w : World) (r : DispatchAttemptRow) : dispatch_phase :=
  if decide (dar_state r = "REQUESTED") then
    if decide (dar_dispatch_id r ∈ sent_ids w) then Published else Intended
  else if decide (dar_state r = "ENQUEUED") then Acknowledged else Refused.
(** The abstraction of one task's ledger. *)
Definition protocol (w : World) (run : UUID) (task : string) : list (UUID * dispatch_phase) :=
  (λ r, (dar_dispatch_id r, phase_of w r)) <$> _locked_attempt_rows run task w.

(** What holds of the tables and the broker between steps. *)
Record world_inv (w : World) : Prop := {
  wi_table : table_wf (w_attempts w);
  wi_once : NoDup (sent_ids w);
  wi_rows : ∀ v, v ∈ w_sent w → ∃ r, w_attempts w !! tde_dispatch_id v = Some r
    ∧ dar_run_id r = tde_run_id v ∧ dar_task_id r = strip (tde_task_id v);
  wi_settled : ∀ d r, w_attempts w !! d = Some r → dar_state r ≠ "REQUESTED" → d ∈ sent_ids w;
}.

(** The four atomic effects on ledger and broker. *)
Definition publish_to (v : TaskDispatchEnvelope) (w : World) : World :=
  set_sent (w_sent w ++ [v]) w.
Definition store_row (r : DispatchAttemptRow) (w : World) : World :=
  set_attempts (<[dar_dispatch_id r := r]> (w_attempts w)) w.
Inductive effect : World → World → Prop :=
  | ef_frame w w' : w_attempts w' = w_attempts w → w_sent w' = w_sent w → effect w w'
  | ef_intend r w : w_attempts w !! dar_dispatch_id r = None → attempt_row_ok r w = true →
      dar_state r = "REQUESTED" →
      Forall (λ x, dar_attempt_number x < dar_attempt_number r)
        (_locked_attempt_rows (dar_run_id r) (dar_task_id r) w) →
      effect w (store_row r w)
  | ef_publish v r w : w_attempts w !! tde_dispatch_id v = Some r →
      dar_run_id r = tde_run_id v → dar_task_id r = strip (tde_task_id v) →
      tde_dispatch_id v ∉ sent_ids w → effect w (publish_to v w)
  | ef_settle r0 r w : w_attempts w !! dar_dispatch_id r0 = Some r0 → same_place r0 r →
      dar_state r0 = "REQUESTED" → dar_state r ≠ "REQUESTED" →
      dar_dispatch_id r0 ∈ sent_ids w → effect w (store_row r w).

Lemma same_place_row r0 r : same_place r0 r → dar_dispatch_id r = dar_dispatch_id r0.
Proof. by intros [? _]. Qed.
Lemma effect_inv w w' : world_inv w → effect w w' → world_inv w'.
Proof.
  intros [Ht Ho Hr Hs] He. destruct He as [w w' Ha Hsent|r w Hn Hok Hst Hlt|v r w Hv H1 H2 Hnew|r0 r w H0 Hp Hst Hst' Hin].
  - split; unfold sent_ids in *; rewrite ?Ha, ?Hsent; done.
  - split; cbn; [by apply table_wf_insert|done|..].
    + intros v Hv. destruct (Hr v Hv) as (x & Hx & ?). exists x. split; [|done].
      rewrite lookup_insert_ne; [done|congruence].
    + intros d x [[<- <-]|[_ ?]]%lookup_insert_Some; [done|by eapply Hs].
  - split; cbn; [done|..].
    + unfold sent_ids. cbn. rewrite fmap_app. apply NoDup_app. split; [done|].
      split; [|apply NoDup_singleton]. intros d Hd ->%list_elem_of_singleton. done.
    + intros v' [Hv'| ->%list_elem_of_singleton]%elem_of_app; [by apply Hr|eauto].
    + intros d x Hx Hne. unfold sent_ids. cbn. rewrite fmap_app. apply elem_of_app. left. by eapply Hs.
  - pose proof (same_place_row _ _ Hp) as Hd. split; cbn; [by eapply table_wf_replace|done|..].
    + intros v Hv. destruct (Hr v Hv) as (x & Hx & ? & ?).
      destruct (decide (dar_dispatch_id r = tde_dispatch_id v)) as [E|E].
      * exists r. rewrite E, lookup_insert_eq. split; [done|].
        destruct Hp as (_ & -> & -> & _). rewrite <- E, Hd in Hx. by simplify_eq.
      * exists x. by rewrite lookup_insert_ne.
    + intros d x [[<- <-]|[_ ?]]%lookup_insert_Some; [by rewrite Hd|by eapply Hs].
Qed.

(** Two functions that differ at one row only. *)
Lemma fmap_one_row {B} (f g : DispatchAttemptRow → B) rows r0 :
  NoDup (dar_dispatch_id <$> rows) → r0 ∈ rows →
  (∀ x, x ∈ rows → dar_dispatch_id x ≠ dar_dispatch_id r0 → f x = g x) →
  ∃ l1 l2, f <$> rows = l1 ++ f r0 :: l2 ∧ g <$> rows = l1 ++ g r0 :: l2.
Proof.
  intros Hnd (l1 & l2 & ->)%list_elem_of_split Hfg.
  rewrite fmap_app, fmap_cons in Hnd. apply NoDup_app in Hnd as (_ & Hl1 & Hl2).
  apply NoDup_cons in Hl2 as [Hl2 _].
  exists (f <$> l1), (f <$> l2). rewrite !fmap_app, !fmap_cons. split; [done|].
  assert (g <$> l1 = f <$> l1) as ->; [|assert (g <$> l2 = f <$> l2) as ->; [|done]];
    apply list_fmap_ext; intros i x Hx%list_elem_of_lookup_2; symmetry; apply Hfg;
    [set_solver|intros E|set_solver|intros E].
  - apply (Hl1 (dar_dispatch_id x)); [by apply list_elem_of_fmap; eauto|]. rewrite E. by left.
  - apply Hl2. rewrite <- E. apply list_elem_of_fmap. eauto.
Qed.

(** The row of an identity of the ledger. *)
Lemma row_by_id w run task x r :
  table_wf (w_attempts w) → x ∈ _locked_attempt_rows run task w →
  w_attempts w !! dar_dispatch_id x = Some r → x = r.
Proof.
  intros Ht (_ & _ & d & Hd)%elem_of_rows Hr. pose proof (tw_key _ Ht _ _ Hd). congruence.
Qed.

Lemma protocol_intend r w run task :
  world_inv w → w_attempts w !! dar_dispatch_id r = None → attempt_row_ok r w = true →
  dar_state r = "REQUESTED" →
  Forall (λ x, dar_attempt_number x < dar_attempt_number r)
    (_locked_attempt_rows (dar_run_id r) (dar_task_id r) w) →
  rtc protocol_step (protocol w run task) (protocol (store_row r w) run task).
Proof.
  intros [Ht Ho Hr Hs] Hn Hok Hst Hlt.
  unfold protocol, store_row. rewrite rows_insert_new by (by try apply table_wf_insert).
  rewrite fmap_app. destruct (attempt_of_task run task r); [|by rewrite app_nil_r].
  apply rtc_once. cbn. unfold phase_of at 3. cbn. rewrite (decide_True _ _ Hst), decide_False.
  - constructor. rewrite <- list_fmap_compose. intros (x & Hx & Hin)%list_elem_of_fmap. cbn in Hx.
    apply elem_of_rows in Hin as (_ & _ & d & Hd). rewrite (tw_key _ Ht _ _ Hd) in Hx. congruence.
  - intros (v & Hv & Hin)%list_elem_of_fmap. destruct (Hr v Hin) as (x & Hx & _). congruence.
Qed.

Lemma phase_published v w x :
  dar_dispatch_id x ≠ tde_dispatch_id v → phase_of (publish_to v w) x = phase_of w x.
Proof.
  intros Hne. unfold phase_of, sent_ids. cbn. rewrite fmap_app. case_decide; [|done].
  apply decide_ext. rewrite elem_of_app. cbn. rewrite list_elem_of_singleton. tauto.
Qed.
Lemma protocol_publish v r w run task :
  world_inv w → w_attempts w !! tde_dispatch_id v = Some r → tde_dispatch_id v ∉ sent_ids w →
  rtc protocol_step (protocol w run task) (protocol (publish_to v w) run task).
Proof.
  intros [Ht Ho Hr Hs] Hv Hnew. pose proof (rows_ids_NoDup run task w Ht) as Hnd.
  unfold protocol. change (_locked_attempt_rows run task (publish_to v w))
    with (_locked_attempt_rows run task w).
  destruct (decide (r ∈ _locked_attempt_rows run task w)) as [Hin|Hout].
  - destruct (fmap_one_row (λ x, (dar_dispatch_id x, phase_of w x))
                (λ x, (dar_dispatch_id x, phase_of (publish_to v w) x)) _ r Hnd Hin)
      as (l1 & l2 & -> & ->).
    { intros x _ Hne. by rewrite phase_published by (by rewrite <- (tw_key _ Ht _ _ Hv)). }
    apply rtc_once. unfold phase_of, sent_ids. cbn. rewrite (tw_key _ Ht _ _ Hv), fmap_app.
    destruct (decide (dar_state r = "REQUESTED")) as [_|Hne]; [|destruct Hnew; by eapply Hs].
    rewrite decide_False by done. rewrite decide_True by (apply elem_of_app; right; by left).
    constructor.
  - rewrite (fmap_ext_in (λ x, (dar_dispatch_id x, phase_of (publish_to v w) x))
               (λ x, (dar_dispatch_id x, phase_of w x))); [done|].
    intros x Hx. rewrite phase_published; [done|]. intros E. destruct Hout.
    rewrite <- E in Hv. by rewrite <- (row_by_id _ _ _ _ _ Ht Hx Hv).
Qed.

Lemma protocol_settle r0 r w run task :
  world_inv w → w_attempts w !! dar_dispatch_id r0 = Some r0 → same_place r0 r →
  dar_state r0 = "REQUESTED" → dar_state r ≠ "REQUESTED" → dar_dispatch_id r0 ∈ sent_ids w →
  rtc protocol_step (protocol w run task) (protocol (store_row r w) run task).
Proof.
  intros [Ht Ho Hr Hs] H0 Hp Hst Hst' Hin. pose proof (rows_ids_NoDup run task w Ht) as Hnd.
  pose proof (same_place_row _ _ Hp) as Hd.
  set (f := λ x, (dar_dispatch_id x, phase_of w x)).
  assert (protocol (store_row r w) run task
          = (λ x, f (replace_row r x)) <$> _locked_attempt_rows run task w) as ->.
  { unfold protocol, store_row. erewrite rows_replace by done. by rewrite <- list_fmap_compose. }
  change (protocol w run task) with (f <$> _locked_attempt_rows run task w).
  destruct (decide (r0 ∈ _locked_attempt_rows run task w)) as [Hrow|Hout].
  - destruct (fmap_one_row f (λ x, f (replace_row r x)) _ r0 Hnd Hrow) as (l1 & l2 & -> & ->).
    { intros x _ Hne. unfold replace_row. by rewrite decide_False by congruence. }
    apply rtc_once. unfold replace_row. rewrite decide_True by done. unfold f, phase_of.
    rewrite (decide_True _ _ Hst), (decide_True _ _ Hin), (decide_False _ _ Hst'), Hd.
    constructor. case_decide; auto.
  - rewrite (fmap_ext_in (λ x, f (replace_row r x)) f); [done|].
    intros x Hx. unfold replace_row. rewrite decide_False; [done|].
    intros E. destruct Hout. rewrite <- (row_by_id _ _ _ _ r0 Ht Hx); [done|congruence].
Qed.

Lemma effect_protocol w w' run task :
  world_inv w → effect w w' → rtc protocol_step (protocol w run task) (protocol w' run task).
Proof.
  intros Hi He. destruct He as [w w' Ha Hsent| | |].
  - assert (protocol w' run task = protocol w run task) as ->; [|done].
    unfold protocol, phase_of, sent_ids, _locked_attempt_rows. by rewrite Ha, Hsent.
  - by apply protocol_intend.
  - by eapply protocol_publish.
  - by eapply protocol_settle.
Qed.

(** ** The effects of the operations *)
Lemma rows_below run name w attempts :
  map_result decode_attempt (_locked_attempt_rows run name w) = Ok attempts →
  pda_attempt_number <$> attempts = seqZ 1 (Z.of_nat (length attempts)) →
  Forall (λ x, dar_attempt_number x < Z.of_nat (length attempts) + 1) (_locked_attempt_rows run name w).
Proof.
  intros Ha%decode_rows_ids Hn. apply Forall_forall. intros x [i Hi]%list_elem_of_lookup.
  destruct (Forall2_lookup_l _ _ _ _ _ Ha Hi) as (a & Hl & Hd).
  destruct (decode_attempt_id _ _ Hd) as (_ & _ & _ & <- & _).
  rewrite (numbered_lookup _ _ _ Hn Hl). pose proof (lookup_lt_Some _ _ _ Hl). lia.
Qed.
Lemma authorised_effect e run name n rec d w w' :
  authorised e run name n rec d w w' →
  Forall (λ x, dar_attempt_number x < n) (_locked_attempt_rows run name w) →
  ∃ t a, let row := requested_row (env_uuid4 e 0) run name n t in
    w' = store_row row w ∧ effect w w' ∧ w_attempts w !! env_uuid4 e 0 = None
    ∧ trd_dispatch_attempt d = Some a ∧ pda_dispatch_id a = env_uuid4 e 0.
Proof.
  intros [(t & Hnew & Hok & -> & a & Ha & Hd) _ _ _] Hlt. exists t, a.
  split; [done|]. split; [by apply (ef_intend (requested_row _ _ _ _ _))|].
  destruct (decode_attempt_id _ _ Ha) as (? & _). done.
Qed.

(** The processes of the system: between the transactions of [reconcile] and
    of [dispatch]. *)
Inductive proc : Set :=
  | P_prepared (run : UUID) (task : string) (attempt : PersistedDispatchAttempt)
  | P_intending (v : TaskDispatchEnvelope)
  | P_settling (v : TaskDispatchEnvelope) (acknowledged : option string).
Definition proc_id (p : proc) : UUID :=
  match p with
  | P_prepared _ _ a => pda_dispatch_id a
  | P_intending v | P_settling v _ => tde_dispatch_id v
  end.
Definition proc_ok (w : World) (p : proc) : Prop :=
  ∃ r, w_attempts w !! proc_id p = Some r ∧
  match p with
  | P_prepared _ _ _ => proc_id p ∉ sent_ids w
  | P_intending v => proc_id p ∉ sent_ids w
      ∧ dar_run_id r = tde_run_id v ∧ dar_task_id r = strip (tde_task_id v)
  | P_settling _ _ => proc_id p ∈ sent_ids w
  end.
Definition prepared_proc (run : UUID) (task : string) (r : result TaskReconciliationDecision)
    : list proc :=
  match r with
  | Ok d => match trd_dispatch_attempt d, trd_publish_allowed d with
            | Some a, true => [P_prepared run task a]
            | _, _ => []
            end
  | Raise _ => []
  end.
Definition intending_proc (r : result (TaskDispatchReceipt + TaskDispatchEnvelope)) : list proc :=
  match r with Ok (inr v) => [P_intending v] | _ => [] end.
(** After [send]: the outcome to record. *)
Definition settling_proc (v : TaskDispatchEnvelope) (r : result string) : list proc :=
  match r with
  | Ok message_id => [P_settling v (Some message_id)]
  | Raise x => if decide (exn_kind x = BrokerConnectionError) then [P_settling v None] else []
  end.
Definition settle (em : Env) (queue_name : string) (v : TaskDispatchEnvelope)
    (acknowledged : option string) : M World PersistedDispatchAttempt :=
  match acknowledged with
  | Some message_id => mark_enqueued em (tde_dispatch_id v) (tde_run_id v) (tde_task_id v)
                         message_id queue_name
  | None => mark_publish_failed em (tde_dispatch_id v) (tde_run_id v) (tde_task_id v)
              _BROKER_ERROR_CODE durable_BROKER_ERROR_MESSAGE
  end.

(** The transaction the two resolutions share. *)
Definition resolution (e : Env) (d run : UUID) (task : string) (final : DispatchAttemptState)
    (stop : PersistedDispatchAttempt → M World PersistedDispatchAttempt) (msg : string)
    (f : Z → DispatchAttemptRow → DispatchAttemptRow) : M World PersistedDispatchAttempt :=
  row ← _locked_attempt d;
  current ← lift (decode_attempt row);
  lift (assert_attempt_identity current run task) ;;
  if decide (pda_state current = final) then stop current
  else
    ensure (bool_decide (pda_state current = REQUESTED)) PersistenceConflictError msg ;;
    observed_at ← lift (database_time e);
    update_attempt_row (f observed_at row) ;;
    lift (decode_attempt (f observed_at row)).
Definition resolves (f : Z → DispatchAttemptRow → DispatchAttemptRow) : Prop :=
  ∀ t row, same_place row (f t row) ∧ dar_state (f t row) ≠ "REQUESTED".
Lemma enqueued_resolves id q : resolves (enqueued_row id q).
Proof. done. Qed.
Lemma failed_resolves c m : resolves (failed_row c m).
Proof. done. Qed.

Lemma quiet_resolution e d run task final stop msg f :
  (∀ c w, (stop c w).2 = w) → quiet (resolution e d run task final stop msg f).
Proof. intros Hstop. unfold resolution. solve_quiet. intros w. by rewrite Hstop. Qed.
Lemma resolution_effect e d run task final stop msg f w r w' :
  resolves f → (∀ c w, (stop c w).2 = w) → d ∈ sent_ids w → world_inv w →
  session (resolution e d run task final stop msg f) w = (r, w') →
  effect w w' ∧ sent_ids w' = sent_ids w.
Proof.
  intros Hf Hstop Hin Hi H. pose proof (quiet_resolution e d run task final stop msg f Hstop) as Hq.
  destruct r as [a|x]; [|apply session_raise in H as ->; [|done]; split; [by constructor|done]].
  apply session_Ok in H. unfold sent_ids. specialize (Hq w). rewrite H in Hq. cbn in Hq.
  split; [|by rewrite Hq]. unfold resolution in H.
  apply M_bind_Ok_inv in H as (row & s & Hrow & H). unfold _locked_attempt in Hrow.
  destruct (w_attempts w !! d) as [row'|] eqn:Hd; [|done]. injection Hrow as -> <-.
  apply M_bind_Ok_inv in H as (c & s & Hc & H). apply lift_Ok_inv in Hc as [Hc ->].
  apply M_bind_Ok_inv in H as (u & s & Hu & H). apply lift_Ok_inv in Hu as [_ ->].
  pose proof (tw_key _ (wi_table _ Hi) _ _ Hd) as Hkey. case_decide as HS.
  { specialize (Hstop c w). rewrite H in Hstop. cbn in Hstop. subst. by constructor. }
  apply M_bind_Ok_inv in H as (u' & s & Hu' & H). apply ensure_Ok_inv in Hu' as [Hreq%bool_decide_eq_true ->].
  apply M_bind_Ok_inv in H as (t & s & Ht & H). apply lift_Ok_inv in Ht as [_ ->].
  apply M_bind_Ok_inv in H as (u2 & s & Hup & H). apply update_row_Ok in Hup as [_ ->].
  apply lift_Ok_inv in H as [_ ->]. destruct (Hf t row) as [Hp Hne].
  destruct (decode_attempt_id _ _ Hc) as (_ & _ & _ & _ & Hst).
  apply (ef_settle row (f t row)); subst; [done..| |done|done]. by rewrite <- Hst, Hreq.
Qed.
Lemma settle_effect em q v ack w r w' :
  tde_dispatch_id v ∈ sent_ids w → world_inv w → settle em q v ack w = (r, w') →
  effect w w' ∧ sent_ids w' = sent_ids w.
Proof.
  intros Hin Hi H.
  assert (∀ (A : Type) (res : result A) (k : A → M World PersistedDispatchAttempt),
    (lift res ≫= k) w = (r, w') → (∀ a, k a w = (r, w') → effect w w' ∧ sent_ids w' = sent_ids w) →
    effect w w' ∧ sent_ids w' = sent_ids w) as Hlift.
  { intros A [a|x] k Hk Hall; [by apply (Hall a)|]. injection Hk as <- <-. split; [by constructor|done]. }
  destruct ack as [id|]; unfold settle, mark_enqueued, mark_publish_failed in H.
  all: apply Hlift in H; [done|intros message G; clear H].
  all: apply Hlift in G; [done|intros queue H; clear G].
  all: apply Hlift in H; [done|intros name G; clear H].
  - eapply (resolution_effect em _ _ _ ENQUEUED _ _ (enqueued_row message queue));
      [apply enqueued_resolves| |done|done|exact G].
    intros c w0. unfold mbind, M_bind, ensure, lift, check. by case_match.
  - eapply (resolution_effect em _ _ _ PUBLISH_FAILED _ _ (failed_row message queue));
      [apply failed_resolves| |done|done|exact G].
    intros c w0. unfold mbind, M_bind, ensure, lift, check. by case_match.
Qed.

(** Operations that write nothing. *)
Definition reads {A} (m : M World A) : Prop := ∀ w, (m w).2 = w.
Lemma reads_bind {A B} (m : M World A) (f : A → M World B) :
  reads m → (∀ a, reads (f a)) → reads (m ≫= f).
Proof.
  intros Hm Hf w. unfold mbind, M_bind. specialize (Hm w).
  destruct (m w) as [[a|x] w'] eqn:E; cbn in *; subst; [apply Hf|done].
Qed.
Lemma reads_lift {A} (r : result A) : reads (lift r).
Proof. done. Qed.
Lemma reads_run run : reads (on_db (_locked_run run)).
Proof. intros w. unfold on_db, _locked_run. cbn. apply set_db_id. Qed.
Lemma reads_task run name : reads (on_db (_locked_task run name)).
Proof. intros w. unfold on_db, _locked_task. cbn. apply set_db_id. Qed.
Ltac solve_reads :=
  repeat first
    [ progress intros
    | apply reads_bind | apply reads_lift | apply reads_run | apply reads_task
    | unfold throw, ensure; apply reads_lift
    | (intro; reflexivity)
    | case_match ].

Section publication.
Context (sha256 : string → string).
Context (read_execution : JSON → result WorkerExecutionEvidence).
Context (read_dispatch : JSON → result WorkerDispatchEvent).
#[local] Notation revalidate := (revalidate_prepared sha256 read_execution read_dispatch).
#[local] Notation publish := (publish_prepared sha256 read_execution read_dispatch).
#[local] Notation prepare := (prepare_task sha256 read_execution read_dispatch).

Lemma revalidate_reads e run name d : reads (revalidate e run name d).
Proof. unfold revalidate_prepared. solve_reads. Qed.
Lemma revalidate_Ok e run name d w p w' :
  revalidate e run name d w = (Ok p, w') →
  w' = w ∧ publication_open p = true ∧ dar_dispatch_id (pdp_row p) = d
  ∧ pdp_row p ∈ _locked_attempt_rows run name w.
Proof.
  intros H. pose proof (revalidate_reads e run name d w) as Hw. rewrite H in Hw. cbn in Hw.
  split; [done|]. subst w'. unfold revalidate_prepared in H.
  apply M_bind_Ok_inv in H as (r & s & Hr & H). apply locked_run_Ok in Hr as [Hr ->].
  apply M_bind_Ok_inv in H as (t & s & Ht & H). apply locked_task_Ok in Ht as [Ht ->].
  apply M_bind_Ok_inv in H as (now & s & Hnow & H). apply lift_Ok_inv in Hnow as [Hnow ->].
  apply M_bind_Ok_inv in H as (u & s & Hs & H). apply lift_Ok_inv in Hs as [_ ->].
  apply M_bind_Ok_inv in H as (u' & s & Hs & H). apply ensure_Ok_inv in Hs as [_ ->].
  apply M_bind_Ok_inv in H as (w0 & s & Hg & H). injection Hg as <- <-.
  apply M_bind_Ok_inv in H as (attempts & s & Ha & H). apply lift_Ok_inv in Ha as [Ha%decode_rows_ids ->].
  apply M_bind_Ok_inv in H as (u2 & s & Hs & H). apply lift_Ok_inv in Hs as [_ ->].
  destruct (last (_locked_attempt_rows run name w)) as [row|] eqn:Hrow; [|done].
  destruct (last attempts) as [target|] eqn:Htarget; [|done].
  apply M_bind_Ok_inv in H as (u3 & s & Hs & H). apply ensure_Ok_inv in Hs as [Hd%bool_decide_eq_true ->].
  apply M_bind_Ok_inv in H as (u4 & s & Hs & H). apply ensure_Ok_inv in Hs as [Hreq%bool_decide_eq_true ->].
  apply M_bind_Ok_inv in H as ([W D] & s & _ & H).
  apply M_bind_Ok_inv in H as (u5 & s' & _ & H).
  apply M_bind_Ok_inv in H as (u6 & s'' & _ & H). injection H as <- _. cbn.
  assert (decode_attempt row = Ok target) as Hdec.
  { rewrite last_lookup in Hrow. rewrite last_lookup in Htarget. rewrite <- (Forall2_length _ _ _ Ha) in Htarget.
    destruct (Forall2_lookup_l _ _ _ _ _ Ha Hrow) as (a & Hl & Hdec). congruence. }
  destruct (decode_attempt_id _ _ Hdec) as (_ & _ & _ & _ & Hst). rewrite Hreq in Hst.
  unfold publication_open. cbn. rewrite <- Hst. split; [done|]. split; [done|].
  rewrite last_lookup in Hrow. by eapply list_elem_of_lookup_2.
Qed.

(** The two resolutions of an open publication. *)
Definition settled_row (p : PreparedDispatchPublication) (w w' : World) : Prop :=
  ∃ row, same_place (pdp_row p) row ∧ dar_state row ≠ "REQUESTED" ∧ w' = store_row row w.
Lemma publication_enqueued_Ok em p id q w x w' :
  publication_mark_enqueued em p id q w = (Ok x, w') → settled_row p w w'.
Proof.
  unfold publication_mark_enqueued. intros H. inv_monad. cbn in *.
  match goal with H : update_attempt_row _ _ = _ |- _ => apply update_row_Ok in H as [_ ->] end.
  injection H as _ <-. eexists (enqueued_row _ _ _ _). by repeat split.
Qed.
Lemma publication_failed_Ok em p c m w x w' :
  publication_mark_publish_failed em p c m w = (Ok x, w') → settled_row p w w'.
Proof.
  unfold publication_mark_publish_failed. intros H. inv_monad. cbn in *.
  match goal with H : update_attempt_row _ _ = _ |- _ => apply update_row_Ok in H as [_ ->] end.
  injection H as _ <-. eexists (failed_row _ _ _ _). by repeat split.
Qed.
Lemma quiet_run {A} (m : M World A) w r w' : quiet m → m w = (r, w') → w_sent w' = w_sent w.
Proof. intros Hq H. specialize (Hq w). by rewrite H in Hq. Qed.

(** One publication window: nothing is handed over, or one envelope is; then
    the outcome is recorded or the attempt stays REQUESTED. *)
Lemma publish_body_cases em reply q run task d p w r w' :
  publish_body em reply q run task d p w = (r, w') →
  (w_sent w' = w_sent w ∧ ∃ x, r = Raise x)
  ∨ (dar_dispatch_id (pdp_row p) = d ∧
     let v := {| tde_dispatch_id := d; tde_run_id := run; tde_task_id := task |} in
     w_sent w' = w_sent w ++ [v] ∧ (∀ y, r = Ok y → settled_row p (publish_to v w) w')).
Proof.
  intros H. unfold publish_body in H.
  unfold mbind at 1, M_bind at 1 in H. destruct (ensure _ _ _ w) as [[[]|x] s] eqn:He;
    [|injection H as <- <-; left; unfold ensure, lift in He; injection He as _ <-; eauto].
  apply ensure_Ok_inv in He as [Hd%bool_decide_eq_true ->].
  unfold mbind at 1, M_bind at 1 in H. destruct (lift _ w) as [[v|x] s] eqn:He;
    [|injection H as <- <-; left; unfold lift in He; injection He as _ <-; eauto].
  apply lift_Ok_inv in He as [Hv ->]. unfold TaskDispatchEnvelope_new in Hv. inv_valid.
  right. split; [done|]. cbn zeta.
  match goal with H : try_else (send _ ?e) _ _ _ = _ |- _ => set (v := e) in * end.
  change (w_sent w ++ [v]) with (w_sent (publish_to v w)).
  unfold try_else, send, mbind at 1, M_bind at 1, modify in H.
  change (set_sent (w_sent w ++ [v]) w) with (publish_to v w) in H.
  destruct reply as [id| |x].
  - unfold mret at 1, M_ret at 1 in H. split.
    + eapply quiet_run, H. unfold publication_mark_enqueued. solve_quiet.
    + intros y ->. apply M_bind_Ok_inv in H as (c & s & Hc & H).
      apply M_bind_Ok_inv in H as (rc & s' & Hrc & H). apply lift_Ok_inv in Hrc as [_ ->].
      injection H as _ <-. by eapply publication_enqueued_Ok.
  - unfold throw, lift, raise in H. cbn [exn_kind] in H. rewrite decide_True in H by done. split.
    + eapply quiet_run, H. unfold publication_mark_publish_failed. solve_quiet.
    + intros y ->. apply M_bind_Ok_inv in H as (c & s & Hc & H).
      injection H as _ <-. by eapply publication_failed_Ok.
  - unfold lift at 1 in H. case_decide.
    + split.
      * eapply quiet_run, H. unfold publication_mark_publish_failed. solve_quiet.
      * intros y ->. apply M_bind_Ok_inv in H as (c & s & Hc & H).
        injection H as _ <-. by eapply publication_failed_Ok.
    + unfold lift in H. injection H as <- <-. done.
Qed.

(** What a guarded publication does to ledger and broker. *)
Lemma publish_effects eg em reply q run task a w r w' :
  world_inv w → pda_dispatch_id a ∉ sent_ids w → publish eg em reply q run task a w = (r, w') →
  w' = w ∨ ∃ v, tde_dispatch_id v = pda_dispatch_id a ∧ effect w (publish_to v w)
    ∧ effect (publish_to v w) w' ∧ sent_ids w' = sent_ids w ++ [pda_dispatch_id a].
Proof.
  intros Hi Hnew H. unfold publish_prepared, guard_prepared_publication in H.
  unfold mbind at 1, M_bind at 1 in H. destruct (lift _ w) as [[name|x] s] eqn:He;
    [|injection H as <- <-; left; unfold lift in He; by injection He as _ <-].
  apply lift_Ok_inv in He as [[-> _]%required_label_Ok ->].
  unfold session, mbind, M_bind in H.
  destruct (revalidate eg run (strip task) (pda_dispatch_id a) w) as [[p|x] s] eqn:Hre.
  2: { pose proof (revalidate_reads eg run (strip task) (pda_dispatch_id a) w) as Hw. rewrite Hre in Hw.
       cbn in Hw. subst s. injection H as <- <-. left. apply set_sent_id. }
  apply revalidate_Ok in Hre as (-> & Hopen & Hd & Hrow).
  apply elem_of_rows in Hrow as (Hr1 & Hr2 & d & Hlk). pose proof (tw_key _ (wi_table _ Hi) _ _ Hlk) as Hk.
  destruct (publish_body _ _ _ _ _ _ _ w) as [r1 w1] eqn:Hb.
  apply publish_body_cases in Hb as [[Hs [x ->]]|(_ & Hs & Hset)].
  { injection H as <- <-. left. rewrite Hs. apply set_sent_id. }
  match type of Hs with _ = _ ++ [?e] => set (v := e) in * end.
  right. exists v. split; [done|].
  assert (effect w (publish_to v w)) as Hpub
    by (eapply (ef_publish v (pdp_row p));
        [by change (tde_dispatch_id v) with (pda_dispatch_id a); rewrite <- Hd, Hk|done..]).
  split; [done|]. destruct r1 as [y|x]; injection H as <- <-.
  - destruct (Hset y eq_refl) as (row & Hp & Hne & ->). split.
    + apply (ef_settle (pdp_row p) row); [by rewrite Hk|done|..|done|].
      * unfold publication_open in Hopen. to_prop. done.
      * unfold sent_ids. cbn. rewrite Hd, fmap_app. apply elem_of_app. right. by left.
    + unfold sent_ids. cbn. by rewrite fmap_app.
  - split; [by constructor|]. unfold sent_ids. cbn. by rewrite Hs, fmap_app.
Qed.

(** A prepared attempt is the only change [prepare_task] makes. *)
Lemma quiet_prepare_owned e run name t now attempts W :
  quiet (prepare_owned e run name t now attempts W).
Proof. unfold prepare_owned, _insert_attempt. solve_quiet. Qed.
Lemma quiet_prepare_unowned e run name t now attempts W D :
  quiet (prepare_unowned e run name t now attempts W D).
Proof. unfold prepare_unowned, _insert_attempt. solve_quiet. Qed.
Lemma prepare_raise e run task w x w' : prepare e run task w = (Raise x, w') → w' = w.
Proof.
  unfold prepare_task. unfold mbind at 1, M_bind at 1.
  destruct (lift _ w) as [[name|y] s] eqn:He; [|intros [= <- <-]; unfold lift in He; congruence].
  apply lift_Ok_inv in He as [_ ->]. apply session_raise.
  solve_quiet; auto using quiet_prepare_owned, quiet_prepare_unowned.
Qed.
Definition new_attempt (w w' : World) (d : UUID) : Prop :=
  effect w w' ∧ w_attempts w !! d = None ∧ is_Some (w_attempts w' !! d)
  ∧ w_sent w' = w_sent w.
Lemma prepare_effects e run task w r w' :
  prepare e run task w = (r, w') →
  (w' = w ∧ prepared_proc run task r = [])
  ∨ ∃ a, prepared_proc run task r = [P_prepared run task a] ∧ new_attempt w w' (pda_dispatch_id a).
Proof.
  intros H. destruct r as [d|x]; [|left; split; [by eapply prepare_raise|done]].
  assert (∀ n rec, authorised e run (strip task) n rec d w w' →
    Forall (λ x, dar_attempt_number x < n) (_locked_attempt_rows run (strip task) w) →
    ∃ a, prepared_proc run task (Ok d) = [P_prepared run task a]
         ∧ new_attempt w w' (pda_dispatch_id a)) as Hau.
  { intros n rec Hau Hlt. pose proof (au_allowed _ _ _ _ _ _ _ _ Hau) as Hall.
    destruct (authorised_effect _ _ _ _ _ _ _ _ Hau Hlt) as (t & a & -> & He & Hn & Ha & Hid).
    exists a. cbn. rewrite Ha, Hall, Hid. split; [done|]. split; [done|]. split; [done|].
    split; [|done]. cbn. rewrite lookup_insert_eq. by eexists. }
  apply prepare_task_inv in H as (r & t & now & _ & _ & H).
  assert (trd_publish_allowed d = false → prepared_proc run task (Ok d) = []) as Hno.
  { intros Hp. cbn. rewrite Hp. by destruct (trd_dispatch_attempt d). }
  destruct H as [(_ & _ & Hp & ->)|(_ & attempts & W & Hl & H)]; [by auto|].
  pose proof (rows_below _ _ _ _ (lv_attempts _ _ _ _ _ _ _ _ Hl) (lv_numbers _ _ _ _ _ _ _ _ Hl)) as Hlt.
  destruct H as [(_ & [(a & _ & (_ & _ & Hp) & ->)|(-> & H)])|(_ & c & _ & H)]; [by auto| |].
  - right. by eapply Hau.
  - destruct H as [? ? ? ? ? Hp ->|? ? ? Hp ->|? ? ? ? ? ? Hp ->|? ? ? ? ? ? ? ? (_ & _ & Hp) ->
                  |u n _ _ _ _ _ Hla H]; [by auto..|].
    right. eapply Hau; [done|]. by rewrite (numbered_last _ _ (lv_numbers _ _ _ _ _ _ _ _ Hl) Hla).
Qed.

Context `{RunReader}.
Lemma begin_initial_Ok e d run task w a c w' :
  begin_initial_attempt e d run task w = (Ok (a, c), w') →
  (c = false ∧ w' = w)
  ∨ (c = true ∧ ∃ t, let row := requested_row d run (strip task) 1 t in
     w_attempts w !! d = None ∧ attempt_row_ok row w = true
     ∧ _locked_attempt_rows run (strip task) w = [] ∧ w' = store_row row w).
Proof.
  unfold begin_initial_attempt. intros G.
  apply M_bind_Ok_inv in G as (name & s & Hn & G). apply lift_Ok_inv in Hn as [Hn ->].
  assert (name = strip task) as -> by (unfold _required_text in Hn; by inv_monad).
  apply session_Ok in G.
  apply M_bind_Ok_inv in G as (r & s & Hr & G). apply locked_run_Ok in Hr as [Hr ->].
  apply M_bind_Ok_inv in G as (u & s & Hu & G). apply ensure_Ok_inv in Hu as [_ ->].
  apply M_bind_Ok_inv in G as (t & s & Ht & G). apply locked_task_Ok in Ht as [Ht ->].
  apply M_bind_Ok_inv in G as (w0 & s & Hg & G). injection Hg as <- <-.
  destruct (w_attempts w !! d) as [row|] eqn:Hd.
  { left. inv_monad. by injection G as _ <- <-. }
  right. apply M_bind_Ok_inv in G as (u1 & s & Hu & G). apply ensure_Ok_inv in Hu as [Hall ->].
  apply M_bind_Ok_inv in G as (now & s & Hu & G). apply lift_Ok_inv in Hu as [_ ->].
  apply M_bind_Ok_inv in G as (u2 & s & Hi & G). apply insert_row_Ok in Hi as (_ & Hok & ->).
  apply M_bind_Ok_inv in G as (at' & s & Hu & G). apply lift_Ok_inv in Hu as [_ ->].
  injection G as _ <- <-. split; [done|]. exists now. split; [done|]. split; [done|]. split; [|done].
  destruct (_locked_attempt_rows run (strip task) w) as [|x l] eqn:E; [done|].
  assert (x ∈ _locked_attempt_rows run (strip task) w) as (H1 & H2 & dx & Hdx)%elem_of_rows
    by (rewrite E; by left).
  rewrite forallb_forall in Hall. specialize (Hall (dx, x)). cbn in Hall.
  rewrite (proj2 (attempt_of_task_true _ _ _)) in Hall by done. discriminate Hall.
  by apply list_elem_of_In, elem_of_map_to_list.
Qed.
Lemma begin_initial_raise e d run task w x w' :
  begin_initial_attempt e d run task w = (Raise x, w') → w' = w.
Proof.
  unfold begin_initial_attempt. unfold mbind at 1, M_bind at 1.
  destruct (lift _ w) as [[name|y] s] eqn:He; [|intros [= <- <-]; unfold lift in He; congruence].
  apply lift_Ok_inv in He as [_ ->]. apply session_raise. solve_quiet.
Qed.
Lemma intent_effects e run task did w r w' :
  dispatch_intent e run task did w = (r, w') →
  (w' = w ∧ intending_proc r = [])
  ∨ ∃ v row, intending_proc r = [P_intending v] ∧ new_attempt w w' (tde_dispatch_id v)
      ∧ w_attempts w' !! tde_dispatch_id v = Some row
      ∧ dar_run_id row = tde_run_id v ∧ dar_task_id row = strip (tde_task_id v).
Proof.
  intros G. unfold dispatch_intent in G.
  unfold mbind at 1, M_bind at 1 in G. pose proof (load_run_reads run w) as Hread.
  destruct (load_run run w) as [[snap|x] s] eqn:Hload; cbn in Hread; subst s;
    [|injection G as <- <-; by left].
  unfold mbind at 1, M_bind at 1, ensure at 1, lift at 1 in G.
  destruct (check _ _ _); [|injection G as <- <-; by left].
  unfold mbind at 1, M_bind at 1, ensure at 1, lift at 1 in G.
  destruct (check _ _ _); [|injection G as <- <-; by left].
  unfold mbind at 1, M_bind at 1, lift at 1 in G.
  destruct (TaskDispatchEnvelope_new _) as [v|x] eqn:Hv; [|injection G as <- <-; by left].
  unfold TaskDispatchEnvelope_new in Hv. inv_valid. cbn [tde_dispatch_id] in G.
  unfold mbind at 1, M_bind at 1 in G.
  destruct (begin_initial_attempt _ _ _ _ w) as [[[att c]|x] s] eqn:Hb;
    [|apply begin_initial_raise in Hb as ->; injection G as <- <-; by left].
  apply begin_initial_Ok in Hb as [[-> ->]|(-> & t & Hn & Hok & Hrows & ->)]; cbn [negb] in G.
  - left. case_decide; [|by injection G as <- <-].
    unfold mbind, M_bind, lift in G. destruct (_receipt_from_attempt att); by injection G as <- <-.
  - right. injection G as <- <-. eexists _, _. split; [reflexivity|].
    cbn [tde_dispatch_id tde_run_id tde_task_id].
    split; [|split; [cbn; by rewrite lookup_insert_eq|done]].
    split; [apply (ef_intend (requested_row _ _ _ _ _)); [done..|]|split; [done|split; [|done]]].
    + cbn [dar_run_id dar_task_id requested_row]. by rewrite Hrows.
    + cbn. rewrite lookup_insert_eq. by eexists.
Qed.
End publication.

(** ** The system: any interleaving of the transactions

    Reconcilers and dispatchers run concurrently; each of their transactions
    is one step, as is a hand-over to the broker outside a transaction.  A
    process may crash between its steps, and any other component may change
    the remaining tables at any time. *)
Record sys : Set := Sys { s_world : World; s_procs : list proc }.
Section system.
Context (sha256 : string → string).
Context (read_execution : JSON → result WorkerExecutionEvidence).
Context (read_dispatch : JSON → result WorkerDispatchEvent).
Context `{RunReader}.
#[local] Notation publish := (publish_prepared sha256 read_execution read_dispatch).
#[local] Notation prepare := (prepare_task sha256 read_execution read_dispatch).

Inductive sys_step : sys → sys → Prop :=
  | st_prepare e run task w ps r w' : prepare e run task w = (r, w') →
      sys_step (Sys w ps) (Sys w' (prepared_proc run task r ++ ps))
  | st_publish eg em reply q run task a ps1 ps2 w r w' :
      publish eg em reply q run task a w = (r, w') →
      sys_step (Sys w (ps1 ++ P_prepared run task a :: ps2)) (Sys w' (ps1 ++ ps2))
  | st_intend e run task did w ps r w' : dispatch_intent e run task did w = (r, w') →
      sys_step (Sys w ps) (Sys w' (intending_proc r ++ ps))
  | st_send reply v ps1 ps2 w r w' : send reply v w = (r, w') →
      sys_step (Sys w (ps1 ++ P_intending v :: ps2)) (Sys w' (ps1 ++ settling_proc v r ++ ps2))
  | st_settle em q v ack ps1 ps2 w r w' : settle em q v ack w = (r, w') →
      sys_step (Sys w (ps1 ++ P_settling v ack :: ps2)) (Sys w' (ps1 ++ ps2))
  | st_crash p ps1 ps2 w : sys_step (Sys w (ps1 ++ p :: ps2)) (Sys w (ps1 ++ ps2))
  | st_other w w' ps : w_attempts w' = w_attempts w → w_sent w' = w_sent w →
      sys_step (Sys w ps) (Sys w' ps).

Record sys_inv (s : sys) : Prop := {
  si_world : world_inv (s_world s);
  si_ids : NoDup (proc_id <$> s_procs s);
  si_procs : Forall (proc_ok (s_world s)) (s_procs s);
}.

Lemma effect_keeps w w' d r :
  world_inv w → effect w w' → w_attempts w !! d = Some r →
  ∃ r', w_attempts w' !! d = Some r' ∧ dar_run_id r' = dar_run_id r ∧ dar_task_id r' = dar_task_id r.
Proof.
  intros Hi He Hd. destruct He as [w w' Ha _|r1 w Hn _ _ _|v r1 w _ _ _ _|r0 r1 w H0 Hp _ _ _]; cbn.
  - rewrite Ha. eauto.
  - rewrite lookup_insert_ne by congruence. eauto.
  - eauto.
  - pose proof (same_place_row _ _ Hp) as E. destruct (decide (dar_dispatch_id r1 = d)) as [<-|Hne].
    + rewrite lookup_insert_eq. rewrite E, H0 in Hd. injection Hd as <-.
      destruct Hp as (_ & ? & ? & _). eauto.
    + rewrite lookup_insert_ne by done. eauto.
Qed.
Lemma proc_ok_effect w w' p :
  world_inv w → effect w w' → (proc_id p ∈ sent_ids w' ↔ proc_id p ∈ sent_ids w) →
  proc_ok w p → proc_ok w' p.
Proof.
  intros Hi He Hs (r & Hr & Hp). destruct (effect_keeps _ _ _ _ Hi He Hr) as (r' & Hr' & H1 & H2).
  exists r'. split; [done|]. destruct p; rewrite ?Hs, ?H1, ?H2; done.
Qed.
Lemma procs_effect w w' ps :
  world_inv w → effect w w' → sent_ids w' = sent_ids w → Forall (proc_ok w) ps → Forall (proc_ok w') ps.
Proof.
  intros Hi He Hs Hall. eapply Forall_impl; [exact Hall|]. intros p. apply proc_ok_effect; [done..|].
  by rewrite Hs.
Qed.
Lemma procs_publish w w' d ps :
  world_inv w → effect w w' → sent_ids w' = sent_ids w ++ [d] → d ∉ proc_id <$> ps →
  Forall (proc_ok w) ps → Forall (proc_ok w') ps.
Proof.
  intros Hi He Hs Hd Hall. rewrite Forall_forall in *. intros p Hp.
  eapply proc_ok_effect; [done..| |by apply Hall]. rewrite Hs, elem_of_app, list_elem_of_singleton.
  split; [|by left]. intros [?|<-]; [done|]. destruct Hd. apply list_elem_of_fmap. eauto.
Qed.
(** A new process over a new attempt. *)
Lemma inv_new_attempt w w' p ps :
  sys_inv (Sys w ps) → new_attempt w w' (proc_id p) → proc_ok w' p → sys_inv (Sys w' (p :: ps)).
Proof.
  intros [Hi Hnd Hps] (He & Hn & _ & Hs) Hp. cbn in *.
  split; cbn; [by eapply effect_inv| |].
  - constructor; [|done]. intros (q & Hq & Hin)%list_elem_of_fmap.
    rewrite Forall_forall in Hps. destruct (Hps q Hin) as (r & Hr & _). congruence.
  - constructor; [done|]. eapply procs_effect; [done..| |done]. unfold sent_ids. by rewrite Hs.
Qed.
Lemma new_not_sent w w' d : world_inv w → new_attempt w w' d → d ∉ sent_ids w'.
Proof.
  intros Hi (_ & Hn & _ & Hs) (v & -> & Hin)%list_elem_of_fmap. rewrite Hs in Hin.
  destruct (wi_rows _ Hi v Hin) as (r & Hr & _). congruence.
Qed.

(** The order of the processes does not matter. *)
Lemma sys_inv_perm w ps ps' : ps ≡ₚ ps' → sys_inv (Sys w ps) → sys_inv (Sys w ps').
Proof. intros Hp [Hi Hnd Hps]. cbn in *. split; cbn; [done|by rewrite <- Hp|by rewrite <- Hp]. Qed.
Lemma drop_proc w ps1 p ps2 :
  sys_inv (Sys w (ps1 ++ p :: ps2)) →
  sys_inv (Sys w (ps1 ++ ps2)) ∧ proc_ok w p ∧ proc_id p ∉ proc_id <$> (ps1 ++ ps2).
Proof.
  intros Hi. apply (sys_inv_perm _ _ (p :: ps1 ++ ps2)) in Hi; [|by rewrite Permutation_middle].
  destruct Hi as [Hi Hnd Hps]. cbn in *. apply NoDup_cons in Hnd as [Hp Hnd].
  apply Forall_cons in Hps as [Hok Hps]. done.
Qed.
(** A process that keeps its attempt and becomes another one. *)
Lemma inv_replace_proc w w' p ps1 ps2 :
  world_inv w' → Forall (proc_ok w') (ps1 ++ ps2) → NoDup (proc_id <$> (ps1 ++ ps2)) →
  proc_id p ∉ proc_id <$> (ps1 ++ ps2) → proc_ok w' p → w = w' →
  sys_inv (Sys w (ps1 ++ [p] ++ ps2)).
Proof.
  intros Hi Hps Hnd Hp Hok ->. apply (sys_inv_perm _ (p :: ps1 ++ ps2)).
  { by rewrite Permutation_middle. }
  split; cbn; [done|by constructor|by constructor].
Qed.

Lemma step_prepare_inv w w' ps new :
  sys_inv (Sys w ps) →
  (w' = w ∧ new = []) ∨ (∃ p, new = [p] ∧ new_attempt w w' (proc_id p) ∧ proc_ok w' p) →
  sys_inv (Sys w' (new ++ ps)) ∧ rtc effect w w'.
Proof.
  intros Hi [[-> ->]|(p & -> & Hn & Hp)]; [done|]. cbn. split; [by eapply inv_new_attempt|].
  by apply rtc_once, Hn.
Qed.
Lemma step_send_inv reply v ps1 ps2 w r w' :
  sys_inv (Sys w (ps1 ++ P_intending v :: ps2)) → send reply v w = (r, w') →
  sys_inv (Sys w' (ps1 ++ settling_proc v r ++ ps2)) ∧ rtc effect w w'.
Proof.
  intros Hi Hs. apply drop_proc in Hi as ([Hi Hnd Hps] & (row & Hrow & Hnew & H1 & H2) & Hid).
  cbn in *. assert (w' = publish_to v w) as -> by (destruct reply; by injection Hs as _ <-).
  assert (effect w (publish_to v w)) as He by (by eapply ef_publish).
  assert (sent_ids (publish_to v w) = sent_ids w ++ [tde_dispatch_id v]) as Hids
    by (unfold sent_ids; cbn; by rewrite fmap_app).
  split; [|by apply rtc_once]. pose proof (effect_inv _ _ Hi He) as Hi'.
  pose proof (procs_publish _ _ _ _ Hi He Hids Hid Hps) as Hps'.
  assert (∀ ack, sys_inv (Sys (publish_to v w) (ps1 ++ [P_settling v ack] ++ ps2))) as Hsettle.
  { intros ack. eapply inv_replace_proc; [done..| |done]. exists row. split; [done|].
    change (tde_dispatch_id v ∈ sent_ids (publish_to v w)). rewrite Hids. apply elem_of_app. right. by left. }
  destruct r as [id|x]; cbn [settling_proc]; [apply Hsettle|].
  case_decide; [apply Hsettle|]. by split.
Qed.
Lemma sys_step_inv s s' :
  sys_inv s → sys_step s s' → sys_inv s' ∧ rtc effect (s_world s) (s_world s').
Proof.
  intros Hi Hst. destruct Hst as [e run task w ps r w' Hp|eg em reply q run task a ps1 ps2 w r w' Hp
    |e run task did w ps r w' Hp|reply v ps1 ps2 w r w' Hp|em q v ack ps1 ps2 w r w' Hp|p ps1 ps2 w
    |w w' ps Ha Hs]; cbn.
  - apply step_prepare_inv; [done|].
    apply prepare_effects in Hp as [?|(a & Hp & Hn)]; [by left|right].
    exists (P_prepared run task a). split; [done|]. split; [done|].
    pose proof (new_not_sent _ _ _ (si_world _ Hi) Hn). destruct Hn as (_ & _ & [row Hrow] & _).
    by exists row.
  - apply drop_proc in Hi as ([Hi Hnd Hps] & (row & Hrow & Hnew) & Hid). cbn in *.
    apply publish_effects in Hp as [->|(v & Hv & He1 & He2 & Hids)]; [split; [by split|done]| |done..].
    pose proof (effect_inv _ _ Hi He1) as Hi1. split; [|by eapply rtc_l, rtc_once].
    assert (sent_ids (publish_to v w) = sent_ids w ++ [pda_dispatch_id a]) as Hids1
      by (unfold sent_ids; cbn; by rewrite fmap_app, <- Hv).
    split; cbn; [by eapply effect_inv|done|]. eapply procs_effect; [exact Hi1|done|congruence|].
    by eapply (procs_publish w); [..|exact Hids1| |].
  - apply step_prepare_inv; [done|].
    apply intent_effects in Hp as [?|(v & row & Hp & Hn & Hrow & ?)]; [by left|right].
    exists (P_intending v). split; [done|]. split; [done|]. exists row. split; [done|].
    split; [|done]. by eapply new_not_sent, Hn; apply Hi.
  - by eapply step_send_inv.
  - apply drop_proc in Hi as ([Hi Hnd Hps] & (row & Hrow & Hin) & Hid). cbn in *.
    apply settle_effect in Hp as [He Hids]; [|done..]. split; [|by apply rtc_once].
    split; cbn; [by eapply effect_inv|done|by eapply procs_effect].
  - apply drop_proc in Hi as (Hi & _). done.
  - assert (effect w w') as He by (by constructor). split; [|by apply rtc_once].
    destruct Hi as [Hi Hnd Hps]. cbn in *.
    split; cbn; [by eapply effect_inv|done|]. eapply procs_effect; [done..| |done].
    unfold sent_ids. by rewrite Hs.
Qed.
Lemma sys_run_inv s s' :
  sys_inv s → rtc sys_step s s' → sys_inv s' ∧ rtc effect (s_world s) (s_world s').
Proof.
  intros Hi Hst. revert Hi. induction Hst as [|s s1 s' H1 _ IH]; [done|]. intros Hi.
  destruct (sys_step_inv _ _ Hi H1) as [Hi1 He]. destruct (IH Hi1) as [? ?].
  split; [done|]. by etrans.
Qed.

(** The calls of the source are runs of the system. *)
#[local] Notation reconcile_call := (reconcile sha256 read_execution read_dispatch).
Lemma reconcile_runs ep eg em reply q run task w r w' ps :
  reconcile_call ep eg em reply q run task w = (r, w') →
  rtc sys_step (Sys w ps) (Sys w' ps).
Proof.
  unfold reconcile. unfold mbind at 1, M_bind at 1.
  destruct (prepare ep run task w) as [[d|x] w1] eqn:Hp; intros G;
    apply (st_prepare _ _ _ _ ps) in Hp; (eapply rtc_l; [exact Hp|]); clear Hp; cbn in *;
    [|by injection G as _ <-].
  assert (∀ l, (l = [] ∨ ∃ p, l = [p]) → rtc sys_step (Sys w1 (l ++ ps)) (Sys w1 ps)) as Hdrop.
  { intros l [->|[p ->]]; [done|]. apply rtc_once, (st_crash p []). }
  destruct (negb _).
  { unfold lift in G. injection G as _ <-. apply Hdrop.
    repeat case_match; eauto. }
  destruct (trd_dispatch_attempt d) as [a|]; [|injection G as _ <-; done].
  destruct (trd_publish_allowed d); [|injection G as _ <-; done].
  unfold mbind, M_bind in G. destruct (publish eg em reply q run task a w1) as [rc w2] eqn:Hpub.
  apply (st_publish _ _ _ _ _ _ _ [] ps) in Hpub. eapply rtc_l; [exact Hpub|]. cbn.
  destruct rc as [[rc|]|x]; by injection G as _ <-.
Qed.
Lemma dispatch_runs e em reply q run task did w r w' ps :
  dispatch e em reply q run task did w = (r, w') → rtc sys_step (Sys w ps) (Sys w' ps).
Proof.
  unfold dispatch. unfold mbind at 1, M_bind at 1. intros G.
  destruct (dispatch_intent e run task did w) as [[[rc|v]|x] w1] eqn:Hp;
    apply (st_intend _ _ _ _ _ ps) in Hp; (eapply rtc_l; [exact Hp|]); clear Hp; cbn in *;
    try by injection G as _ <-.
  unfold try_else in G. destruct (send reply v w1) as [[id|x] w2] eqn:Hs;
    apply (st_send _ _ [] ps) in Hs; (eapply rtc_l; [exact Hs|]); clear Hs; cbn in *.
  - unfold mbind, M_bind in G. change (mark_enqueued _ _ _ _ _ _) with (settle em q v (Some id)) in G.
    destruct (settle em q v (Some id) w2) as [rc w3] eqn:Hset.
    apply (st_settle _ _ _ _ [] ps) in Hset. eapply rtc_l; [exact Hset|].
    destruct rc; by injection G as _ <-.
  - case_decide as Hx; [|by injection G as _ <-].
    unfold mbind, M_bind in G. change (mark_publish_failed _ _ _ _ _ _) with (settle em q v None) in G.
    destruct (settle em q v None w2) as [rc w3] eqn:Hset.
    apply (st_settle _ _ _ _ [] ps) in Hset. eapply rtc_l; [exact Hset|].
    destruct rc; by injection G as _ <-.
Qed.

(** An empty ledger, and what is reachable from one. *)
Definition initial (w : World) : Prop := w_attempts w = ∅ ∧ w_sent w = [].
Definition reachable (s : sys) : Prop := ∃ w, initial w ∧ rtc sys_step (Sys w []) s.
Lemma initial_inv w : initial w → sys_inv (Sys w []).
Proof.
  intros [Ha Hs]. split; cbn; [|constructor|constructor].
  split; unfold sent_ids; rewrite ?Ha, ?Hs; [|constructor|intros v Hv; inversion Hv|done].
  by split.
Qed.
Lemma sys_reachable_inv s : reachable s → sys_inv s.
Proof. intros (w & Hw%initial_inv & H1). by eapply sys_run_inv. Qed.
Lemma effects_protocol w w' run task :
  world_inv w → rtc effect w w' → rtc protocol_step (protocol w run task) (protocol w' run task).
Proof.
  intros Hi He. revert Hi. induction He as [|w w1 w' H1 _ IH]; [done|]. intros Hi.
  etrans; [by eapply effect_protocol|]. apply IH. by eapply effect_inv.
Qed.
Lemma initial_protocol w run task : initial w → protocol w run task = [].
Proof.
  intros [Ha _]. unfold protocol. destruct (_locked_attempt_rows run task w) as [|r l] eqn:E; [done|].
  assert (r ∈ _locked_attempt_rows run task w) as (_ & _ & d & Hd)%elem_of_rows by (rewrite E; by left).
  by rewrite Ha in Hd.
Qed.
End system.

(** [prepare_task] authorises a broker publication exactly when the run is
    RUNNING and either the task is UNOWNED and its ledger empty, or its
    current generation expired unreleased, that generation's dispatch is the
    newest attempt of the ledger and has no terminal evidence.  It then
    appends exactly one REQUESTED attempt, numbered one past the ledger, under
    an identity not used before; any other decision changes nothing and
    allows no publication. *)
Theorem prepare_task_correct sha256 read_execution read_dispatch e run task w d w' :
  table_wf (w_attempts w) →
  prepare_task sha256 read_execution read_dispatch e run task w = (Ok d, w') →
  ∃ r t now, task_view e run (strip task) w r t now ∧
  (rr_status r ≠ "RUNNING" → trd_action d ≠ ACT_PREPARED_DISPATCH) ∧
  (rr_status r = "RUNNING" → ∃ attempts W,
     ledger_view sha256 read_execution read_dispatch run (strip task) w attempts W ∧
     (trd_action d = ACT_PREPARED_DISPATCH ↔ may_publish r t now attempts W) ∧
     (trd_action d = ACT_PREPARED_DISPATCH →
      authorised e run (strip task) (Z.of_nat (length attempts) + 1)
        (bool_decide (lease_owner t ≠ None)) d w w')) ∧
  (trd_action d ≠ ACT_PREPARED_DISPATCH → w' = w ∧ trd_publish_allowed d = false).
Proof.
  intros Hwf H. apply prepare_task_inv in H as (r & t & now & _ & Hv & H).
  exists r, t, now. split; [done|].
  destruct H as [(Hr & Ha & Hp & ->)|(Hr & attempts & W & Hl & H)].
  { split; [by rewrite Ha|]. done. }
  split; [done|].
  destruct H as [(Ho & H)|(Ho & c & Hc & H)].
  - destruct H as [(a & Hla & (Ha & _ & Hp) & ->)|(-> & Hau)].
    + split; [|done]. intros _. exists attempts, W. split; [done|].
      split; [|by rewrite Ha; case_decide].
      split; [by rewrite Ha; case_decide|]. by intros (_ & [[_ ->]|[? _]]).
    + pose proof (au_action _ _ _ _ _ _ _ _ Hau) as Hact. split; [|done].
      intros _. exists [], W. split; [done|]. rewrite bool_decide_eq_false_2 by (rewrite Ho; tauto).
      split; [|done]. split; [|done]. intros _. split; [done|]. by left.
  - destruct (owned_may_publish _ _ _ _ _ _ _ _ _ _ _ _ _ _ _ Hwf Hr Hl Ho Hc H) as (H1 & H2 & H3).
    split; [|done]. intros _. exists attempts, W. by rewrite bool_decide_eq_true_2.
Qed.

(** C12.  Whatever reconcilers and dispatchers run, however their transactions
    interleave and wherever they crash, the ledger of every task follows the
    publication protocol: attempts are only appended, under identities not in
    the ledger; an attempt is handed to the broker at most once and only
    while it is REQUESTED; it is settled at most once, after that, and a
    settled attempt never changes.  Every reachable ledger is a run of the
    protocol from the empty one, and every step of the system is a run of the
    protocol. *)
Theorem ledger_refines_protocol sha256 read_execution read_dispatch `{RunReader} s run task :
  reachable sha256 read_execution read_dispatch s →
  rtc protocol_step [] (protocol (s_world s) run task)
  ∧ ∀ s', sys_step sha256 read_execution read_dispatch s s' →
    rtc protocol_step (protocol (s_world s) run task) (protocol (s_world s') run task).
Proof.
  intros Hs. split.
  - destruct Hs as (w & Hw & Hst).
    destruct (sys_run_inv _ _ _ _ _ (initial_inv _ Hw) Hst) as [_ He]. cbn in He.
    rewrite <- (initial_protocol w run task Hw). eapply effects_protocol; [|done].
    by apply initial_inv in Hw as [].
  - intros s' Hst. apply sys_reachable_inv in Hs as Hi.
    destruct (sys_step_inv _ _ _ _ _ Hi Hst) as [_ He]. by eapply effects_protocol; [apply Hi|].
Qed.

(** C11.  No dispatch identity is ever handed to the broker twice, by whatever
    interleaving of reconciliations and initial dispatches, crashes included;
    every envelope handed over has its attempt in the ledger, under the run
    and task it names; and a call of [reconcile] or [dispatch] from a
    reachable state ends in a reachable state, whether it returns or raises. *)
Theorem published_at_most_once sha256 read_execution read_dispatch `{RunReader} w ps :
  reachable sha256 read_execution read_dispatch (Sys w ps) →
  NoDup (tde_dispatch_id <$> w_sent w)
  ∧ (∀ v, v ∈ w_sent w → ∃ r, w_attempts w !! tde_dispatch_id v = Some r
       ∧ dar_run_id r = tde_run_id v ∧ dar_task_id r = strip (tde_task_id v))
  ∧ (∀ ep eg em reply q run task r w',
       reconcile sha256 read_execution read_dispatch ep eg em reply q run task w = (r, w') →
       reachable sha256 read_execution read_dispatch (Sys w' ps))
  ∧ (∀ e em reply q run task did r w', dispatch e em reply q run task did w = (r, w') →
       reachable sha256 read_execution read_dispatch (Sys w' ps)).
Proof.
  intros Hr. apply sys_reachable_inv in Hr as Hi. destruct Hi as [[_ Ho Hrows _] _ _].
  destruct Hr as (w0 & Hw0 & Hst). split; [done|]. split; [done|]. split.
  - intros * Hc. exists w0. split; [done|]. etrans; [done|]. by eapply reconcile_runs.
  - intros * Hc. exists w0. split; [done|]. etrans; [done|]. by eapply dispatch_runs.
Qed.

(** *** Concrete runs *)
#[export] Instance sample_reader : RunReader := {|
  load_run := λ _ w, (Ok recovery_snapshot, w);
  load_run_reads := λ _ _, eq_refl;
|}.
Definition sample_world : World :=
  {| w_db := sample_db; w_attempts := ∅; w_evidence := []; w_sent := [] |}.
#[local] Notation sample_prepare :=
  (prepare_task sample_sha256 sample_read sample_read_dispatch (lease_env 5 77%N 78%N) 1%N " a "
     sample_world).
#[local] Notation sample_call :=
  (reconcile sample_sha256 sample_read sample_read_dispatch (lease_env 5 77%N 78%N)
     (lease_env 6 79%N 80%N) (lease_env 7 81%N 82%N) (Accepted "m-1") "tasks" 1%N "a" sample_world).

Lemma prepare_task_correct_witness : ∃ d w', sample_prepare = (Ok d, w')
  ∧ (∃ r t now, task_view (lease_env 5 77%N 78%N) 1%N "a" sample_world r t now)
  ∧ (trd_action d ≠ ACT_PREPARED_DISPATCH → w' = sample_world ∧ trd_publish_allowed d = false).
Proof.
  destruct sample_prepare as [[d|x] w'] eqn:H; [|vm_compute in H; discriminate H].
  destruct (prepare_task_correct sample_sha256 sample_read sample_read_dispatch
              (lease_env 5 77%N 78%N) 1%N " a " sample_world d w') as (r & t & now & Hv & _ & _ & Hno);
    [|exact H|].
  { split; cbn; intros *; rewrite lookup_empty; discriminate. }
  exists d, w'. split; [reflexivity|]. split; [exists r, t, now; exact Hv|exact Hno].
Defined.

Lemma sample_reachable w' :
  sample_call.2 = w' → reachable sample_sha256 sample_read sample_read_dispatch (Sys w' []).
Proof.
  intros <-. exists sample_world. split; [done|].
  eapply reconcile_runs. apply surjective_pairing.
Qed.
Lemma ledger_refines_protocol_witness :
  protocol sample_call.2 1%N "a" = [(77%N, Acknowledged)]
  ∧ rtc protocol_step [] [(77%N, Acknowledged)].
Proof.
  assert (protocol sample_call.2 1%N "a" = [(77%N, Acknowledged)]) as E by (vm_compute; reflexivity).
  split; [exact E|]. rewrite <- E.
  apply (ledger_refines_protocol sample_sha256 sample_read sample_read_dispatch
           (Sys sample_call.2 []) 1%N "a"). by apply sample_reachable.
Defined.
Lemma published_at_most_once_witness :
  (tde_dispatch_id <$> w_sent sample_call.2) = [77%N] ∧ NoDup (tde_dispatch_id <$> w_sent sample_call.2).
Proof.
  split; [vm_compute; reflexivity|].
  apply (published_at_most_once sample_sha256 sample_read sample_read_dispatch sample_call.2 []).
  by apply sample_reachable.
Defined.
