(* ===== verification/Merge.v ===== *)
(** * Merge: the audit record of one integration ref

    [models/merge.py]: [MergeQueueAttempt] and [MergeQueueSnapshot] with their
    validators, and what a validated snapshot is: a chain of integrations from
    the run base, with at most one unresolved conflict, at its end. *)
From stdpp Require Import options.
From S2P Require Import Prelude Contracts RunModels Lease.
Open Scope Z_scope.

Inductive MergeAttemptOutcome : Set := INTEGRATED | CONFLICT | REPAIRED.
#[export] Instance MergeAttemptOutcome_eq_dec : EqDecision MergeAttemptOutcome.
Proof. solve_decision. Defined.

Record MergeQueueAttempt : Set := {
  mqa_sequence : Z;
  mqa_task_id : string;
  mqa_task_branch : string;
  mqa_task_base_commit : string;
  mqa_task_commit : string;
  mqa_previous_integration_commit : string;
  mqa_outcome : MergeAttemptOutcome;
  mqa_integration_commit : option string;
  mqa_failure : option FailureReport;
  mqa_conflict_marker_commit : option string;
  mqa_conflict_evidence_fingerprint : option string;
  mqa_policy_fingerprint : option string;
  mqa_human_decision_commit : option string;
}.
#[export] Instance MergeQueueAttempt_eq_dec : EqDecision MergeQueueAttempt.
Proof. solve_decision. Defined.

Definition oid_ok (s : string) : bool := hex_string is_lower_hex 40 64 s.
Definition opt_oid_ok (o : option string) : bool := match o with Some s => oid_ok s | None => true end.

Definition repair_fields (self : MergeQueueAttempt) : list (option string) :=
  [mqa_conflict_marker_commit self; mqa_conflict_evidence_fingerprint self;
   mqa_policy_fingerprint self; mqa_human_decision_commit self].
Definition validate_outcome_consistency (self : MergeQueueAttempt) : result MergeQueueAttempt :=
  match mqa_outcome self with
  | INTEGRATED =>
      valid_if (negb (is_none (mqa_integration_commit self)))
        "integrated merge attempts require an integration commit" ;;
      valid_if (is_none (mqa_failure self))
        "integrated merge attempts must not contain failure evidence" ;;
      valid_if (forallb is_none (repair_fields self))
        "naturally clean integrations cannot contain repair metadata" ;;
      Ok self
  | CONFLICT =>
      valid_if (is_none (mqa_integration_commit self))
        "conflicted merge attempts must not advance integration commit" ;;
      valid_if (match mqa_failure self with
                | Some f => bool_decide (failure_type f = MERGE_CONFLICT)
                | None => false
                end) "conflicted merge attempts require MERGE_CONFLICT evidence" ;;
      valid_if (forallb is_none (repair_fields self))
        "unresolved conflict attempts cannot claim repair metadata" ;;
      Ok self
  | REPAIRED =>
      valid_if (negb (is_none (mqa_integration_commit self)))
        "repaired merge attempts require an integration commit" ;;
      valid_if (is_none (mqa_failure self))
        "repaired merge attempts must not contain failure evidence" ;;
      valid_if (forallb (λ o, negb (is_none o)) (repair_fields self))
        "repaired merge attempts require complete Human Gate metadata" ;;
      Ok self
  end.
Definition MergeQueueAttempt_new (raw : MergeQueueAttempt) : result MergeQueueAttempt :=
  valid_if (0 <=? mqa_sequence raw) "sequence" ;;
  valid_if (text_ok 1 128 (mqa_task_id raw)) "task_id" ;;
  valid_if (text_ok 1 512 (mqa_task_branch raw)) "task_branch" ;;
  valid_if (text_ok 40 64 (mqa_task_base_commit raw)) "task_base_commit" ;;
  valid_if (text_ok 40 64 (mqa_task_commit raw)) "task_commit" ;;
  valid_if (text_ok 40 64 (mqa_previous_integration_commit raw)) "previous_integration_commit" ;;
  valid_if (match mqa_integration_commit raw with Some c => text_ok 40 64 c | None => true end)
    "integration_commit" ;;
  valid_if (opt_oid_ok (mqa_conflict_marker_commit raw)) "conflict_marker_commit" ;;
  valid_if (opt_sha256_ok (mqa_conflict_evidence_fingerprint raw)) "conflict_evidence_fingerprint" ;;
  valid_if (opt_sha256_ok (mqa_policy_fingerprint raw)) "policy_fingerprint" ;;
  valid_if (opt_oid_ok (mqa_human_decision_commit raw)) "human_decision_commit" ;;
  validate_outcome_consistency raw.

Record MergeQueueSnapshot : Set := {
  mqs_integration_ref : string;
  mqs_run_base_commit : string;
  mqs_head_commit : string;
  mqs_integrated_task_ids : list string;
  mqs_attempts : list MergeQueueAttempt;
  mqs_stopped : bool;
}.
#[export] Instance MergeQueueSnapshot_eq_dec : EqDecision MergeQueueSnapshot.
Proof. solve_decision. Defined.

Definition advances (attempt : MergeQueueAttempt) : bool :=
  bool_decide (mqa_outcome attempt = INTEGRATED) || bool_decide (mqa_outcome attempt = REPAIRED).
(** [attempt.sequence == index] for every attempt. *)
Fixpoint contiguous (index : Z) (attempts : list MergeQueueAttempt) : bool :=
  match attempts with
  | [] => true
  | a :: attempts => (mqa_sequence a =? index) && contiguous (index + 1) attempts
  end.
(** The loop over the attempts: the tasks integrated and the conflict pending. *)
Definition follow_attempt (st : gset string * option MergeQueueAttempt)
    (attempt : MergeQueueAttempt) : result (gset string * option MergeQueueAttempt) :=
  let '(completed, pending_conflict) := st in
  let complete :=
    valid_if (bool_decide (mqa_task_id attempt ∉ completed)) "a task may be integrated only once" ;;
    Ok ({[mqa_task_id attempt]} ∪ completed, None) in
  match mqa_outcome attempt with
  | CONFLICT =>
      valid_if (is_none pending_conflict)
        "a second conflict cannot begin before the first is resolved" ;;
      valid_if (bool_decide (mqa_task_id attempt ∉ completed))
        "an already integrated task cannot conflict again" ;;
      Ok (completed, Some attempt)
  | REPAIRED =>
      match pending_conflict with
      | None => invalid "repaired integration must immediately resolve its task conflict"
      | Some pending =>
          valid_if (bool_decide (mqa_task_id pending = mqa_task_id attempt))
            "repaired integration must immediately resolve its task conflict" ;;
          valid_if (bool_decide (mqa_previous_integration_commit pending
                                 = mqa_previous_integration_commit attempt))
            "repair must chain from the same pre-conflict integration head" ;;
          complete
      end
  | INTEGRATED =>
      valid_if (is_none pending_conflict)
        "unresolved conflict must be repaired before another task integrates" ;;
      complete
  end.
(** The loop over the integration heads. *)
Definition chain_attempt (expected_head : string) (attempt : MergeQueueAttempt) : result string :=
  valid_if (bool_decide (mqa_previous_integration_commit attempt = expected_head))
    "merge attempt must chain from the previous integration head" ;;
  Ok (if advances attempt then
        match mqa_integration_commit attempt with
        | Some c => if bool_decide (c = "") then expected_head else c
        | None => expected_head
        end
      else expected_head).
(** [validate_snapshot_consistency]; an attempt of a contiguous sequence is
    identified by its number. *)
Definition validate_snapshot_consistency (self : MergeQueueSnapshot) : result MergeQueueSnapshot :=
  valid_if (no_duplicates (mqs_integrated_task_ids self)) "integrated_task_ids must be unique" ;;
  valid_if (contiguous 0 (mqs_attempts self))
    "merge queue attempt sequence must be contiguous from zero" ;;
  valid_if (bool_decide (mqa_task_id <$> filter advances (mqs_attempts self)
                         = mqs_integrated_task_ids self))
    "integrated task ids must match successful merge attempts" ;;
  '(_, pending_conflict) ← fold_result follow_attempt (∅, None) (mqs_attempts self);
  valid_if (eqb (mqs_stopped self) (negb (is_none pending_conflict)))
    "merge queue stopped flag must match unresolved terminal conflict" ;;
  valid_if (match pending_conflict with
            | Some pending =>
                bool_decide (mqa_sequence <$> last (mqs_attempts self) = Some (mqa_sequence pending))
            | None => true
            end) "unresolved merge conflict must be the final queue attempt" ;;
  expected_head ← fold_result chain_attempt (mqs_run_base_commit self) (mqs_attempts self);
  valid_if (bool_decide (mqs_head_commit self = expected_head))
    "snapshot head must match the last successful integration commit" ;;
  Ok self.
Definition MergeQueueSnapshot_new (raw : MergeQueueSnapshot) : result MergeQueueSnapshot :=
  valid_if (text_ok 1 512 (mqs_integration_ref raw)) "integration_ref" ;;
  valid_if (text_ok 40 64 (mqs_run_base_commit raw)) "run_base_commit" ;;
  valid_if (text_ok 40 64 (mqs_head_commit raw)) "head_commit" ;;
  validate_snapshot_consistency raw.
(** [MergeQueueSnapshot.model_validate]: the nested attempts are validated first. *)
Definition MergeQueueSnapshot_validate (raw : MergeQueueSnapshot) : result MergeQueueSnapshot :=
  map_result MergeQueueAttempt_new (mqs_attempts raw) ;;
  MergeQueueSnapshot_new raw.

(** ** What a validated snapshot is

    [history base attempts integrated head pending]: the attempts, oldest
    first, of a queue that started at [base]; each one chains from the head
    that the previous ones left, advances it or not, and a conflict is the
    only attempt that may be repaired, by the one that follows it. *)
Inductive history (base : string)
    : list MergeQueueAttempt → list string → string → option MergeQueueAttempt → Prop :=
  | history_nil : history base [] [] base None
  | history_integrated l ids head a c :
      history base l ids head None →
      mqa_outcome a = INTEGRATED → mqa_sequence a = Z.of_nat (length l) →
      mqa_previous_integration_commit a = head → mqa_integration_commit a = Some c →
      mqa_task_id a ∉ ids →
      history base (l ++ [a]) (ids ++ [mqa_task_id a]) c None
  | history_conflict l ids head a :
      history base l ids head None →
      mqa_outcome a = CONFLICT → mqa_sequence a = Z.of_nat (length l) →
      mqa_previous_integration_commit a = head → mqa_task_id a ∉ ids →
      history base (l ++ [a]) ids head (Some a)
  | history_repaired l ids head p a c :
      history base l ids head (Some p) →
      mqa_outcome a = REPAIRED → mqa_sequence a = Z.of_nat (length l) →
      mqa_task_id p = mqa_task_id a → mqa_previous_integration_commit a = head →
      mqa_integration_commit a = Some c →
      history base (l ++ [a]) (ids ++ [mqa_task_id a]) c None.

Lemma fold_result_app {A B} (f : B → A → result B) b l k :
  fold_result f b (l ++ k) = (b' ← fold_result f b l; fold_result f b' k).
Proof.
  revert b. induction l as [|a l IH]; intros b; [done|]. cbn. destruct (f b a); cbn; auto.
Qed.

Lemma contiguous_snoc n l a :
  contiguous n (l ++ [a]) = contiguous n l && (mqa_sequence a =? n + Z.of_nat (length l)).
Proof.
  revert n. induction l as [|b l IH]; intros n; cbn.
  - by rewrite andb_true_r, Z.add_0_r.
  - rewrite IH, andb_assoc. f_equal. f_equal. lia.
Qed.

(** What the validator of an attempt establishes. *)
Lemma attempt_new_inv raw a :
  MergeQueueAttempt_new raw = Ok a →
  raw = a ∧ 0 <= mqa_sequence a
  ∧ match mqa_outcome a with
    | CONFLICT => mqa_integration_commit a = None
                  ∧ ∃ f, mqa_failure a = Some f ∧ failure_type f = MERGE_CONFLICT
    | _ => mqa_failure a = None
           ∧ ∃ c, mqa_integration_commit a = Some c ∧ text_ok 40 64 c = true
    end.
Proof.
  unfold MergeQueueAttempt_new, validate_outcome_consistency. intros H. inv_valid. to_prop.
  assert (raw = a) as <-. { by destruct (mqa_outcome raw); inv_valid. }
  split_and!; [done|done|].
  destruct (mqa_outcome raw) eqn:Ho; inv_valid; to_prop.
  - destruct (mqa_integration_commit raw) as [c|], (mqa_failure raw); naive_solver.
  - destruct (mqa_integration_commit raw) as [c|], (mqa_failure raw) as [f|]; try done.
    to_prop. naive_solver.
  - destruct (mqa_integration_commit raw) as [c|], (mqa_failure raw); naive_solver.
Qed.

Definition attempt_ok (a : MergeQueueAttempt) : Prop := MergeQueueAttempt_new a = Ok a.

(** The two loops of the validator, together, follow [history]. *)
Definition scanned (base : string) (l : list MergeQueueAttempt) (ids : list string)
    (head : string) (pending : option MergeQueueAttempt) : Prop :=
  contiguous 0 l = true ∧ mqa_task_id <$> filter advances l = ids
  ∧ (∃ done, fold_result follow_attempt (∅, None) l = Ok (done, pending) ∧ done = list_to_set ids)
  ∧ fold_result chain_attempt base l = Ok head.

Lemma advances_ok a : attempt_ok a → advances a = true →
  ∃ c, mqa_integration_commit a = Some c ∧ c ≠ "" ∧ ∀ h, mqa_previous_integration_commit a = h →
    chain_attempt h a = Ok c.
Proof.
  intros Ha Hadv. apply attempt_new_inv in Ha as (_ & _ & Ho).
  unfold chain_attempt. unfold advances in *.
  destruct (mqa_outcome a); [|done|]; destruct Ho as (_ & c & Hc & Hlen); exists c.
  all: assert (c ≠ "") as Hne by (intros ->; done).
  all: split_and!; [done|done|]; intros h ->; rewrite Hc.
  all: rewrite valid_if_true by (by apply bool_decide_eq_true); cbn.
  all: by rewrite (bool_decide_eq_false_2 (c = "")).
Qed.

Lemma Forall_snoc {A} (P : A → Prop) l a : Forall P (l ++ [a]) ↔ Forall P l ∧ P a.
Proof. by rewrite Forall_app, Forall_singleton. Qed.

Lemma history_scanned base l ids head pending :
  Forall attempt_ok l → history base l ids head pending → scanned base l ids head pending.
Proof.
  intros Hok H. induction H as
    [|l ids head a c H IH Ho Hs Hp Hc Hn|l ids head a H IH Ho Hs Hp Hn
     |l ids head p a c H IH Ho Hs Ht Hp Hc].
  - repeat split; try done. by eexists.
  - apply Forall_snoc in Hok as [Hok Ha].
    destruct (IH Hok) as (H1 & H2 & (dn & H3 & Hdn) & H4). unfold scanned.
    assert (advances a = true) as Hadv. { unfold advances. by rewrite Ho. }
    destruct (advances_ok a Ha Hadv) as (c' & Hc' & _ & Hch). assert (c' = c) as -> by congruence.
    rewrite contiguous_snoc, H1, filter_app, fmap_app, H2, !fold_result_app, H3, H4. cbn.
    rewrite Hch by done. rewrite decide_True by by rewrite Hadv. unfold follow_attempt. rewrite Ho. cbn.
    rewrite valid_if_true by (apply bool_decide_eq_true; subst dn; set_solver).
    cbn. split_and!; [by apply Z.eqb_eq|done| |done].
    eexists. split; [done|]. subst dn. set_solver.
  - apply Forall_snoc in Hok as [Hok Ha].
    destruct (IH Hok) as (H1 & H2 & (dn & H3 & Hdn) & H4). unfold scanned.
    assert (advances a = false) as Hadv. { unfold advances. by rewrite Ho. }
    rewrite contiguous_snoc, H1, filter_app, fmap_app, H2, !fold_result_app, H3, H4. cbn.
    rewrite decide_False by (rewrite Hadv; intros []). unfold follow_attempt, chain_attempt. rewrite Ho, Hadv. cbn.
    rewrite !valid_if_true by (try done; apply bool_decide_eq_true; subst dn; set_solver).
    cbn. rewrite app_nil_r. split_and!; [by apply Z.eqb_eq|done| |done].
    eexists. by split.
  - apply Forall_snoc in Hok as [Hok Ha].
    destruct (IH Hok) as (H1 & H2 & (dn & H3 & Hdn) & H4). unfold scanned.
    assert (advances a = true) as Hadv. { unfold advances. by rewrite Ho. }
    destruct (advances_ok a Ha Hadv) as (c' & Hc' & _ & Hch). assert (c' = c) as -> by congruence.
    assert (mqa_task_id p ∉ ids ∧ mqa_previous_integration_commit p = head) as [Hpn Hph].
    { inversion H; subst; done. }
    rewrite contiguous_snoc, H1, filter_app, fmap_app, H2, !fold_result_app, H3, H4. cbn.
    rewrite Hch by done. rewrite decide_True by by rewrite Hadv. unfold follow_attempt. rewrite Ho. cbn.
    rewrite !valid_if_true by (apply bool_decide_eq_true; subst dn; rewrite <-?Ht; set_solver).
    cbn. split_and!; [by apply Z.eqb_eq|done| |done].
    eexists. split; [done|]. subst dn. set_solver.
Qed.

Lemma follow_fold_snoc st l a r :
  fold_result follow_attempt st (l ++ [a]) = Ok r →
  ∃ st', fold_result follow_attempt st l = Ok st' ∧ follow_attempt st' a = Ok r.
Proof.
  rewrite fold_result_app. intros H. apply bind_Ok_inv in H as (st' & H1 & H). cbn in H.
  apply bind_Ok_inv in H as (r' & H2 & [= <-]). eauto.
Qed.
Lemma chain_fold_snoc h l a h' :
  fold_result chain_attempt h (l ++ [a]) = Ok h' →
  ∃ h1, fold_result chain_attempt h l = Ok h1 ∧ mqa_previous_integration_commit a = h1
  ∧ chain_attempt h1 a = Ok h'.
Proof.
  rewrite fold_result_app. intros H. apply bind_Ok_inv in H as (h1 & H1 & H). cbn in H.
  apply bind_Ok_inv in H as (r' & H2 & [= <-]). exists h1. split_and!; [done| |done].
  unfold chain_attempt in H2. inv_valid. by to_prop.
Qed.

(** The completed tasks are those that advanced the head. *)
Lemma follow_completed l dn pd :
  fold_result follow_attempt (∅, None) l = Ok (dn, pd) →
  dn = list_to_set (mqa_task_id <$> filter advances l).
Proof.
  revert dn pd. induction l as [|a l IH] using rev_ind; intros dn pd; [by intros [= <- <-]|].
  intros H. apply follow_fold_snoc in H as ([dn0 pd0] & H3 & H5).
  apply IH in H3. rewrite filter_app, fmap_app, list_to_set_app_L, <- H3. cbn.
  unfold follow_attempt in H5. unfold advances.
  destruct (mqa_outcome a); [|inv_valid; set_solver|destruct pd0; [|done]]; inv_valid; set_solver.
Qed.

Lemma scanned_history base l ids head pending :
  Forall attempt_ok l → scanned base l ids head pending → history base l ids head pending.
Proof.
  revert ids head pending. induction l as [|a l IH] using rev_ind; intros ids head pending Hok.
  { intros (_ & <- & (dn & [= <- <-] & _) & [= <-]). constructor. }
  apply Forall_snoc in Hok as [Hok Ha].
  intros (H1 & H2 & (dn & H3 & _) & H4).
  rewrite contiguous_snoc in H1. to_prop. rewrite Z.add_0_l in H0.
  apply follow_fold_snoc in H3 as ([dn0 pd0] & H3 & H5).
  apply chain_fold_snoc in H4 as (h1 & H4 & Hprev & H6).
  rewrite filter_app, fmap_app in H2.
  set (ids0 := mqa_task_id <$> filter advances l) in *.
  pose proof (follow_completed _ _ _ H3) as Hd. fold ids0 in Hd.
  assert (Hmid : history base l ids0 h1 pd0).
  { apply IH; [done|]. repeat split; eauto. }
  assert (Hadv : advances a = true →
    ids = ids0 ++ [mqa_task_id a] ∧ mqa_integration_commit a = Some head).
  { intros Hadv. destruct (advances_ok a Ha Hadv) as (c & Hc & _ & Hch).
    rewrite (Hch h1 Hprev) in H6. injection H6 as ->. split; [|done].
    rewrite <- H2. cbn. by rewrite decide_True by by rewrite Hadv. }
  unfold follow_attempt in H5. destruct (mqa_outcome a) eqn:Ho.
  - inv_valid. to_prop. destruct pd0; [done|].
    destruct Hadv as [-> Hc]; [by unfold advances; rewrite Ho|].
    econstructor; try done. set_solver.
  - inv_valid. to_prop. destruct pd0; [done|].
    assert (advances a = false) as Hadv'. { unfold advances. by rewrite Ho. }
    unfold chain_attempt in H6. rewrite Hadv' in H6. inv_valid.
    cbn. try (rewrite decide_False by (rewrite Hadv'; intros [])). rewrite ?app_nil_r.
    apply history_conflict; try done. set_solver.
  - destruct pd0 as [pd|]; [|done]. inv_valid. to_prop.
    destruct Hadv as [-> Hc]; [by unfold advances; rewrite Ho|].
    eapply history_repaired; eauto.
Qed.

Lemma pending_last base l ids head p :
  history base l ids head (Some p) → last l = Some p.
Proof. inversion 1; subst. apply last_snoc. Qed.

Lemma history_NoDup base l ids head pending : history base l ids head pending →
  NoDup ids ∧ ∀ p, pending = Some p → mqa_task_id p ∉ ids ∧ mqa_previous_integration_commit p = head.
Proof.
  assert (∀ (ids : list string) t, NoDup ids → t ∉ ids → NoDup (ids ++ [t])) as Hs.
  { intros ids' t Hn Ht. apply NoDup_app. split_and!; [done|set_solver|apply NoDup_singleton]. }
  induction 1 as [|l ids head a c H [IH _] Ho Hq Hp Hc Hn|l ids head a H [IH _] Ho Hq Hp Hn
     |l ids head p a c H [IH IHp] Ho Hq Ht Hp Hc].
  - split; [constructor|done].
  - split; [by apply Hs|done].
  - split; [done|]. by intros p [= <-].
  - split; [|done]. apply Hs; [done|]. rewrite <- Ht. by apply IHp.
Qed.

(** In a history without repairs every attempt but a pending conflict
    integrated its task. *)
Lemma history_no_repair base l ids head pending : history base l ids head pending →
  NoDup (mqa_task_id <$> l) →
  mqa_task_id <$> l = ids ++ match pending with Some p => [mqa_task_id p] | None => [] end.
Proof.
  induction 1 as [|l ids head a c H IH Ho Hq Hp Hc Hn|l ids head a H IH Ho Hq Hp Hn
     |l ids head p a c H IH Ho Hq Ht Hp Hc]; [done|..]; rewrite fmap_app; cbn; intros Hnd;
    apply NoDup_app in Hnd as (Hl & Hd & _); rewrite (IH Hl), ?app_nil_r; try done.
  exfalso. apply (Hd (mqa_task_id p)); [|rewrite Ht; by left].
  rewrite (IH Hl). apply elem_of_app. right. by left.
Qed.

Lemma snapshot_new_inv raw s : MergeQueueSnapshot_new raw = Ok s → raw = s.
Proof. unfold MergeQueueSnapshot_new, validate_snapshot_consistency. intros H. by inv_valid. Qed.

Lemma map_result_same {A} (f : A → result A) l l' :
  (∀ a b, f a = Ok b → a = b) → map_result f l = Ok l' → l = l' ∧ Forall (λ a, f a = Ok a) l.
Proof.
  intros Hf H. apply map_result_Ok in H. induction H as [|a b l l' Hab _ [-> IH]]; [done|].
  specialize (Hf _ _ Hab) as Heq. subst b. by split; [|constructor].
Qed.

(** The history behind an accepted snapshot. *)
Lemma snapshot_new_history s :
  Forall attempt_ok (mqs_attempts s) → MergeQueueSnapshot_new s = Ok s →
  ∃ pending, history (mqs_run_base_commit s) (mqs_attempts s) (mqs_integrated_task_ids s)
               (mqs_head_commit s) pending
    ∧ mqs_stopped s = negb (is_none pending).
Proof.
  unfold MergeQueueSnapshot_new, validate_snapshot_consistency. intros Hok H. inv_valid. to_prop.
  exists o. split; [|by apply eqb_prop].
  apply scanned_history; [done|]. repeat split; [done|done| |by subst].
  eexists. split; [done|]. rewrite <- H5. by eapply follow_completed.
Qed.

(** A history is accepted. *)
Lemma history_snapshot s pending :
  Forall attempt_ok (mqs_attempts s) →
  text_ok 1 512 (mqs_integration_ref s) = true → text_ok 40 64 (mqs_run_base_commit s) = true →
  text_ok 40 64 (mqs_head_commit s) = true →
  history (mqs_run_base_commit s) (mqs_attempts s) (mqs_integrated_task_ids s)
    (mqs_head_commit s) pending →
  mqs_stopped s = negb (is_none pending) → MergeQueueSnapshot_new s = Ok s.
Proof.
  unfold MergeQueueSnapshot_new, validate_snapshot_consistency.
  intros Hok -> -> -> Hh Hst. cbn.
  destruct (history_NoDup _ _ _ _ _ Hh) as [Hn _].
  destruct (history_scanned _ _ _ _ _ Hok Hh) as (H1 & H2 & (dn & H3 & _) & H4).
  rewrite valid_if_true by by apply bool_decide_eq_true. cbn.
  rewrite H1. cbn. rewrite valid_if_true by by apply bool_decide_eq_true. cbn.
  rewrite H3. cbn [mbind result_bind]. rewrite Hst, (valid_if_true (eqb _ _)) by apply eqb_reflx.
  cbn [mbind result_bind].
  rewrite valid_if_true.
  - cbn. rewrite H4. cbn. by rewrite valid_if_true by by apply bool_decide_eq_true.
  - destruct pending; [|done]. apply bool_decide_eq_true.
    by rewrite (pending_last _ _ _ _ _ Hh).
Qed.

(** The validator of [MergeQueueSnapshot] accepts exactly the records of
    an integration history over validated attempts: bounded names, attempts
    that chain from the run base and leave the recorded head, the integrated
    tasks in order and without repetition, and [stopped] exactly when the last
    attempt is an unresolved conflict. *)
Theorem snapshot_accepts_histories s (Hok : Forall attempt_ok (mqs_attempts s)) :
  MergeQueueSnapshot_new s = Ok s ↔
  text_ok 1 512 (mqs_integration_ref s) = true ∧ text_ok 40 64 (mqs_run_base_commit s) = true
  ∧ text_ok 40 64 (mqs_head_commit s) = true
  ∧ ∃ pending, history (mqs_run_base_commit s) (mqs_attempts s) (mqs_integrated_task_ids s)
                 (mqs_head_commit s) pending
    ∧ mqs_stopped s = negb (is_none pending).
Proof.
  split.
  - intros H. pose proof (snapshot_new_history s Hok H). unfold MergeQueueSnapshot_new in H.
    inv_valid. done.
  - intros (? & ? & ? & pending & ? & ?). by apply (history_snapshot s pending).
Qed.

(** A task integrates, a second one conflicts and is repaired, a third one
    conflicts. *)
Definition commit_id (n : nat) : string := of_chars (replicate 39 "0"%char ++ chars (str_of_Z (Z.of_nat n))).
Definition sample_attempt (n : Z) (t : string) (prev : string) (o : MergeAttemptOutcome)
    (c : option string) : MergeQueueAttempt := {|
  mqa_sequence := n; mqa_task_id := t; mqa_task_branch := "devflow/r/" +:+ t;
  mqa_task_base_commit := commit_id 1; mqa_task_commit := commit_id 2;
  mqa_previous_integration_commit := prev; mqa_outcome := o; mqa_integration_commit := c;
  mqa_failure := if decide (o = CONFLICT) then
      Some {| failure_type := MERGE_CONFLICT; source := RUNTIME; message := "conflict";
              retryable := false; evidence := [] |} else None;
  mqa_conflict_marker_commit := if decide (o = REPAIRED) then Some (commit_id 3) else None;
  mqa_conflict_evidence_fingerprint :=
    if decide (o = REPAIRED) then Some (of_chars (replicate 64 "a"%char)) else None;
  mqa_policy_fingerprint :=
    if decide (o = REPAIRED) then Some (of_chars (replicate 64 "b"%char)) else None;
  mqa_human_decision_commit := if decide (o = REPAIRED) then Some (commit_id 4) else None;
|}.
Definition sample_merge_snapshot : MergeQueueSnapshot := {|
  mqs_integration_ref := "refs/devflow/integration/r"; mqs_run_base_commit := commit_id 1;
  mqs_head_commit := commit_id 6; mqs_integrated_task_ids := ["a"; "b"];
  mqs_attempts := [
    sample_attempt 0 "a" (commit_id 1) INTEGRATED (Some (commit_id 5));
    sample_attempt 1 "b" (commit_id 5) CONFLICT None;
    sample_attempt 2 "b" (commit_id 5) REPAIRED (Some (commit_id 6));
    sample_attempt 3 "c" (commit_id 6) CONFLICT None];
  mqs_stopped := true;
|}.
Lemma snapshot_accepts_histories_witness :
  ∃ pending, history (commit_id 1) (mqs_attempts sample_merge_snapshot) ["a"; "b"] (commit_id 6) pending
             ∧ true = negb (is_none pending).
Proof.
  apply (snapshot_accepts_histories sample_merge_snapshot); [|by_compute].
  repeat constructor; by_compute.
Defined.
