(* ===== verification/Reconcile.v ===== *)
(** * Reconcile: the durable scheduling frontier of a run

    [models/run_reconciliation.py], [runtime/execution_base.py] and
    [runtime/run_reconciler.py]: the Git base of a task derived from accepted
    evidence, the recovery frontier of a task graph, and the admission of its
    candidates to the task reconciler.  The readers and the task reconciler
    are the [Protocol]s of the source, operations of a record over a state
    that only the task reconciler changes.  Git is the parameter
    [commit_parents].  Error messages name the violated rule without the
    identifiers of the source, except where the length of a message matters. *)
From stdpp Require Import options.
From S2P Require Import Prelude Contracts Dag Json RunModels Lease Recovery Dispatch Merge.
Open Scope Z_scope.

(** ** [models/run_reconciliation.py] *)
Inductive TaskExecutionBaseBasis : Set := RUN_BASE | TEB_MERGE_QUEUE_SNAPSHOT.
#[export] Instance TaskExecutionBaseBasis_eq_dec : EqDecision TaskExecutionBaseBasis.
Proof. solve_decision. Defined.
Record TaskExecutionBase : Set := {
  teb_run_id : UUID;
  teb_task_id : string;
  teb_commit_sha : string;
  teb_basis : TaskExecutionBaseBasis;
  teb_source_evidence_id : option Z;
  teb_source_evidence_sha256 : option string;
  teb_integration_ref : option string;
}.
#[export] Instance TaskExecutionBase_eq_dec : EqDecision TaskExecutionBase.
Proof. solve_decision. Defined.
Definition validate_provenance (self : TaskExecutionBase) : result TaskExecutionBase :=
  let any := negb (is_none (teb_source_evidence_id self))
             || negb (is_none (teb_source_evidence_sha256 self))
             || negb (is_none (teb_integration_ref self)) in
  let missing := is_none (teb_source_evidence_id self)
                 || is_none (teb_source_evidence_sha256 self)
                 || is_none (teb_integration_ref self) in
  if decide (teb_basis self = RUN_BASE) then
    valid_if (negb any) "RUN_BASE execution bases must not claim merge evidence" ;; Ok self
  else
    valid_if (negb missing) "MERGE_QUEUE_SNAPSHOT execution bases require complete provenance" ;;
    Ok self.
Definition TaskExecutionBase_new (raw : TaskExecutionBase) : result TaskExecutionBase :=
  valid_if (text_ok 1 128 (teb_task_id raw)) "task_id" ;;
  valid_if (oid_ok (teb_commit_sha raw)) "commit_sha" ;;
  valid_if (match teb_source_evidence_id raw with Some n => 1 <=? n | None => true end)
    "source_evidence_id" ;;
  valid_if (opt_sha256_ok (teb_source_evidence_sha256 raw)) "source_evidence_sha256" ;;
  valid_if (match teb_integration_ref raw with Some r => text_ok 1 512 r | None => true end)
    "integration_ref" ;;
  validate_provenance raw.

Inductive DAGTaskFrontierState : Set :=
  | DF_RUN_TERMINAL | DF_SUCCEEDED | DF_FAILED | DF_BLOCKED_UPSTREAM_FAILURE | DF_WAIT_DEPENDENCIES
  | DF_WAIT_ACTIVE_OWNER | DF_BLOCKED_RECOVERY_GAP | DF_WAIT_INTEGRATION_BASE
  | DF_RECONCILE_CANDIDATE.
#[export] Instance DAGTaskFrontierState_eq_dec : EqDecision DAGTaskFrontierState.
Proof. solve_decision. Defined.

Record DAGTaskReconciliationRecord : Set := {
  dtr_run_id : UUID;
  dtr_task_id : string;
  dtr_depends_on : list string;
  dtr_topological_index : Z;
  dtr_frontier_state : DAGTaskFrontierState;
  dtr_lease_state : TaskLeaseState;
  dtr_lease_generation : Z;
  dtr_lease_dispatch_id : option UUID;
  dtr_worker_execution_status : option WorkerExecutionStatus;
  dtr_worker_execution_evidence_id : option Z;
  dtr_execution_base : option TaskExecutionBase;
  dtr_reason : string;
}.
Definition validate_record (self : DAGTaskReconciliationRecord)
    : result DAGTaskReconciliationRecord :=
  let status := dtr_worker_execution_status self in
  valid_if (eqb (is_none status) (is_none (dtr_worker_execution_evidence_id self)))
    "worker terminal status and evidence id must appear together" ;;
  valid_if (match dtr_execution_base self with
            | Some b => bool_decide (teb_run_id b = dtr_run_id self)
                        && bool_decide (teb_task_id b = dtr_task_id self)
            | None => true
            end) "execution-base identity must match the frontier task" ;;
  match dtr_frontier_state self with
  | DF_SUCCEEDED =>
      valid_if (bool_decide (status = Some WE_SUCCEEDED))
        "SUCCEEDED frontier tasks require successful worker evidence" ;;
      Ok self
  | DF_FAILED =>
      valid_if (bool_decide (status = Some WE_FAILED))
        "FAILED frontier tasks require failed worker evidence" ;;
      Ok self
  | DF_RECONCILE_CANDIDATE =>
      valid_if (negb (is_none (dtr_execution_base self)))
        "reconcile candidates require an evidence-bound execution base" ;;
      valid_if (is_none status) "reconcile candidates must not already be terminal" ;;
      Ok self
  | _ => Ok self
  end.
Definition DAGTaskReconciliationRecord_new (raw : DAGTaskReconciliationRecord)
    : result DAGTaskReconciliationRecord :=
  valid_if (text_ok 1 128 (dtr_task_id raw)) "task_id" ;;
  valid_if (0 <=? dtr_topological_index raw) "topological_index" ;;
  valid_if (0 <=? dtr_lease_generation raw) "lease_generation" ;;
  valid_if (match dtr_worker_execution_evidence_id raw with Some n => 1 <=? n | None => true end)
    "worker_execution_evidence_id" ;;
  valid_if (text_ok 1 1200 (dtr_reason raw)) "reason" ;;
  validate_record raw.

(** [persistence/dag.py]: the read model of a task graph *)
Inductive PersistedDAGSource : Set := PERSISTED | IMPLICIT_SINGLE_TASK.
Record PersistedDAGSnapshot : Set := {
  pds_run_id : UUID;
  pds_dag : TaskDAG;
  pds_dag_sha256 : string;
  pds_source : PersistedDAGSource;
}.

Record DAGRunReconciliationPlan : Set := {
  drp_run_id : UUID;
  drp_run_status : PersistedRunStatus;
  drp_dag_sha256 : string;
  drp_topology_source : PersistedDAGSource;
  drp_observed_at : Z;
  drp_topological_order : list string;
  drp_completed_task_ids : list string;
  drp_failed_task_ids : list string;
  drp_blocked_task_ids : list string;
  drp_ready_task_ids : list string;
  drp_reconcile_task_ids : list string;
  drp_tasks : list DAGTaskReconciliationRecord;
}.
Definition set_of (l : list string) : gset string := list_to_set l.
(** One entry of the loop over [named_sets]. *)
Definition validate_named (known : gset string) (task_ids : list string) (label : string)
    : result unit :=
  valid_if (no_duplicates task_ids) (label +:+ " task ids must be unique") ;;
  valid_if (bool_decide (set_of task_ids ⊆ known))
    (label +:+ " task ids are not present in the DAG").
Definition validate_plan (self : DAGRunReconciliationPlan) : result DAGRunReconciliationPlan :=
  let order := drp_topological_order self in
  valid_if (no_duplicates order) "topological_order must contain unique task ids" ;;
  valid_if (bool_decide (dtr_task_id <$> drp_tasks self = order))
    "frontier task records must follow the complete topological order" ;;
  valid_if (forallb (λ r, bool_decide (dtr_run_id r = drp_run_id self)) (drp_tasks self))
    "frontier task records must belong to the plan Run" ;;
  let known := set_of order in
  validate_named known (drp_completed_task_ids self) "completed" ;;
  validate_named known (drp_failed_task_ids self) "failed" ;;
  validate_named known (drp_blocked_task_ids self) "blocked" ;;
  validate_named known (drp_ready_task_ids self) "ready" ;;
  validate_named known (drp_reconcile_task_ids self) "reconcile" ;;
  valid_if (bool_decide (set_of (drp_completed_task_ids self) ## set_of (drp_failed_task_ids self)))
    "completed and failed task ids must not overlap" ;;
  valid_if (bool_decide (set_of (drp_reconcile_task_ids self) ⊆ set_of (drp_ready_task_ids self)))
    "only DAG-ready tasks may become reconciliation candidates" ;;
  Ok self.
Definition DAGRunReconciliationPlan_new (raw : DAGRunReconciliationPlan)
    : result DAGRunReconciliationPlan :=
  valid_if (hex_string is_lower_hex 64 64 (drp_dag_sha256 raw)) "dag_sha256" ;;
  valid_if (min_length 1 (drp_topological_order raw)) "topological_order" ;;
  valid_if (min_length 1 (drp_tasks raw)) "tasks" ;;
  validate_plan raw.

Record DAGRunReconciliationOutcome : Set := {
  dro_plan : DAGRunReconciliationPlan;
  dro_task_outcomes : list TaskReconciliationOutcome;
}.
Definition outcome_task_id (o : TaskReconciliationOutcome) : string := trd_task_id (tro_decision o).
(** [validate_outcomes] *)
Definition DAGRunReconciliationOutcome_new (raw : DAGRunReconciliationOutcome)
    : result DAGRunReconciliationOutcome :=
  valid_if (bool_decide (outcome_task_id <$> dro_task_outcomes raw
                         = drp_reconcile_task_ids (dro_plan raw)))
    "successful DAG reconciliation must return one Step 5.3 outcome per candidate" ;;
  Ok raw.

(** ** [runtime/execution_base.py] *)
Definition _MAX_MERGE_ATTEMPTS : nat := 1024.
Definition _require_oid (value label : string) : result unit :=
  sound_if (oid_ok value) (label +:+ " is not a full lowercase Git object id").

Section execution_base.
(** How Pydantic reads the fields of the two evidence payloads. *)
Context (read_execution : JSON → result WorkerExecutionEvidence).
Context (read_merge_snapshot : JSON → result MergeQueueSnapshot).
(** [model_validate] raises [ValidationError], reported as corruption. *)
Definition validated {A B} (read : JSON → result A) (new : A → result B) (msg : string)
    (payload : JSON) : result B :=
  match raw ← read payload; new raw with
  | Ok b => Ok b
  | Raise e => if decide (exn_kind e = ValidationError) then corrupt msg else Raise e
  end.

(** One row of [_successful_worker_pairs]. *)
Definition worker_pair (snapshot : PersistedRunSnapshot) (known_task_ids : list string)
    (pairs : gmap string (string * string)) (evidence : PersistedEvidence)
    : result (gmap string (string * string)) :=
  if negb (bool_decide (pe_kind evidence = WORKER_EXECUTION)) then Ok pairs
  else
    sound_if (match pe_task_id evidence with
              | Some t => bool_decide (t ∈ known_task_ids)
              | None => false
              end) "worker execution evidence is not bound to a known DAG task" ;;
    execution ← validated read_execution WorkerExecutionEvidence_new
                  "worker execution evidence failed schema validation" (pe_payload evidence);
    sound_if (bool_decide (we_run_id execution = prs_run_id snapshot)
              && bool_decide (Some (we_task_id execution) = pe_task_id evidence))
      "worker execution evidence has mismatched identity" ;;
    if negb (bool_decide (we_status execution = WE_SUCCEEDED)) then Ok pairs
    else
      commit_sha ← of_option (Exn PersistenceCorruptionError
                      "successful worker evidence lacks task commit") (we_commit_sha execution);
      _require_oid (we_base_commit execution) "worker task base" ;;
      _require_oid commit_sha "worker task commit" ;;
      let pair := (we_base_commit execution, commit_sha) in
      sound_if (match pairs !! we_task_id execution with
                | Some existing => bool_decide (existing = pair)
                | None => true
                end) "successful worker evidence defines conflicting commits" ;;
      Ok (<[we_task_id execution := pair]> pairs).
Definition _successful_worker_pairs (snapshot : PersistedRunSnapshot) (known_task_ids : list string)
    : result (gmap string (string * string)) :=
  fold_result (worker_pair snapshot known_task_ids) ∅ (prs_evidence snapshot).

(** [{task_id: index for index, task_id in enumerate(order)}] *)
Definition order_index (order : list string) : gmap string Z :=
  list_to_map (imap (λ i t, (t, Z.of_nat i)) order).

(** The variables of the loop of [_validate_merge_history]. *)
Record HistoryScan : Set := {
  hs_integrated : gset string;
  hs_heads : gmap string (gset string);
  hs_last_index : Z;
}.
Definition scan_attempt (dag : TaskDAG) (order_index : gmap string Z)
    (successful_workers : gmap string (string * string)) (run_base_commit : string)
    (st : HistoryScan) (attempt : MergeQueueAttempt) : result HistoryScan :=
  _require_oid (mqa_task_base_commit attempt) "merge task base" ;;
  _require_oid (mqa_task_commit attempt) "merge task commit" ;;
  _require_oid (mqa_previous_integration_commit attempt) "previous integration commit" ;;
  index ← of_option (Exn PersistenceCorruptionError
                       "merge queue snapshot references an unknown DAG task")
            (order_index !! mqa_task_id attempt);
  sound_if (hs_last_index st <? index)
    "merge queue snapshot violates deterministic topological task order" ;;
  node ← Dag.node dag (mqa_task_id attempt);
  let depends_on := set_of (tn_depends_on node) in
  sound_if (bool_decide (depends_on ⊆ hs_integrated st))
    "merge attempt precedes integrated dependencies" ;;
  sound_if (bool_decide (successful_workers !! mqa_task_id attempt
                         = Some (mqa_task_base_commit attempt, mqa_task_commit attempt)))
    "merge attempt lacks matching successful worker evidence" ;;
  sound_if (if decide (tn_depends_on node = []) then
              bool_decide (mqa_task_base_commit attempt = run_base_commit)
            else match hs_heads st !! mqa_task_base_commit attempt with
                 | Some base_integrated => bool_decide (depends_on ⊆ base_integrated)
                 | None => false
                 end) "task base is not a prior integration head containing its dependencies" ;;
  if decide (mqa_outcome attempt = INTEGRATED) then
    commit ← of_option (Exn PersistenceCorruptionError
                          "integrated merge attempt lacks integration commit")
               (mqa_integration_commit attempt);
    _require_oid commit "integration commit" ;;
    let integrated := {[mqa_task_id attempt]} ∪ hs_integrated st in
    Ok {| hs_integrated := integrated; hs_heads := <[commit := integrated]> (hs_heads st);
          hs_last_index := index |}
  else Ok {| hs_integrated := hs_integrated st; hs_heads := hs_heads st; hs_last_index := index |}.
Definition _validate_merge_history (merge_snapshot : MergeQueueSnapshot) (dag : TaskDAG)
    (order_index : gmap string Z) (successful_workers : gmap string (string * string))
    (run_base_commit : string) : result HistoryScan :=
  fold_result (scan_attempt dag order_index successful_workers run_base_commit)
    {| hs_integrated := ∅; hs_heads := {[run_base_commit := ∅]}; hs_last_index := -1 |}
    (mqs_attempts merge_snapshot).

(** One row of the decoding loop of [_validated_merge_snapshots], for a
    validation of the history. *)
Definition decode_merge_by (validate_history : MergeQueueSnapshot → result unit)
    (snapshot : PersistedRunSnapshot)
    (decoded : list (PersistedEvidence * MergeQueueSnapshot)) (evidence : PersistedEvidence)
    : result (list (PersistedEvidence * MergeQueueSnapshot)) :=
  if negb (bool_decide (pe_kind evidence = MERGE_QUEUE_SNAPSHOT)) then Ok decoded
  else
    merge_snapshot ← validated read_merge_snapshot MergeQueueSnapshot_validate
                       "merge queue evidence failed schema validation" (pe_payload evidence);
    sound_if (bool_decide (mqs_run_base_commit merge_snapshot = prs_base_commit snapshot))
      "merge queue snapshot does not match the persisted Run base" ;;
    sound_if (length (mqs_attempts merge_snapshot) <=? _MAX_MERGE_ATTEMPTS)%nat
      "merge queue evidence exceeds bounded attempt scan" ;;
    validate_history merge_snapshot ;;
    Ok (decoded ++ [(evidence, merge_snapshot)]).
Definition decode_merge (snapshot : PersistedRunSnapshot) (dag : TaskDAG) (index : gmap string Z)
    (successful_workers : gmap string (string * string)) :=
  decode_merge_by (λ merge_snapshot,
    _validate_merge_history merge_snapshot dag index successful_workers (prs_base_commit snapshot) ;;
    Ok tt) snapshot.
(** The second loop: each snapshot extends the previous one; [resumed] checks
    the one that follows a stopped snapshot. *)
Definition extends_previous_by (resumed : MergeQueueSnapshot → MergeQueueSnapshot → result unit)
    (previous : option MergeQueueSnapshot)
    (row : PersistedEvidence * MergeQueueSnapshot) : result (option MergeQueueSnapshot) :=
  let current := row.2 in
  match previous with
  | None => Ok (Some current)
  | Some previous =>
      let n := length (mqs_attempts previous) in
      sound_if (bool_decide (mqs_integration_ref current = mqs_integration_ref previous))
        "one Run contains conflicting integration-ref histories" ;;
      sound_if (n <=? length (mqs_attempts current))%nat "merge queue snapshot history regressed" ;;
      sound_if (bool_decide (take n (mqs_attempts current) = mqs_attempts previous))
        "merge queue snapshot history diverged" ;;
      sound_if (negb ((length (mqs_attempts current) =? n)%nat
                      && negb (bool_decide (current = previous))))
        "merge queue snapshot changed without extending its attempt history" ;;
      (if mqs_stopped previous && negb (bool_decide (current = previous))
       then resumed previous current else Ok tt) ;;
      Ok (Some current)
  end.
Definition extends_previous := extends_previous_by (λ _ _,
  corrupt "merge queue history advanced after an unresolved terminal conflict").
Definition _validated_merge_snapshots (snapshot : PersistedRunSnapshot)
    (persisted_dag : PersistedDAGSnapshot) (successful_workers : gmap string (string * string))
    : result (list (PersistedEvidence * MergeQueueSnapshot)) :=
  order ← topological_order (pds_dag persisted_dag);
  decoded ← fold_result (decode_merge snapshot (pds_dag persisted_dag) (order_index order)
                           successful_workers) [] (prs_evidence snapshot);
  fold_result extends_previous None decoded ;;
  Ok decoded.

Definition missing_message (task_id : string) (missing : gset string) : string :=
  "dependent task '" +:+ task_id +:+ "' is waiting for integrated dependencies: "
    +:+ join ", " (sorted_set missing).
Definition select_base_by
    (validated_merge_snapshots : PersistedRunSnapshot → PersistedDAGSnapshot
       → gmap string (string * string) → result (list (PersistedEvidence * MergeQueueSnapshot)))
    (snapshot : PersistedRunSnapshot) (persisted_dag : PersistedDAGSnapshot) (task_id : string)
    : result (TaskExecutionBase * option MergeQueueSnapshot) :=
  let dag := pds_dag persisted_dag in
  node ← match Dag.node dag task_id with
         | Ok n => Ok n
         | Raise e => if subclass (exn_kind e) KeyError
                      then raise ValueError "task does not belong to run" else Raise e
         end;
  if decide (tn_depends_on node = []) then
    _require_oid (prs_base_commit snapshot) "Run base commit" ;;
    base ← TaskExecutionBase_new {|
      teb_run_id := prs_run_id snapshot; teb_task_id := task_id;
      teb_commit_sha := prs_base_commit snapshot; teb_basis := RUN_BASE;
      teb_source_evidence_id := None; teb_source_evidence_sha256 := None;
      teb_integration_ref := None |};
    Ok (base, None)
  else
    workers ← _successful_worker_pairs snapshot (Dag.task_ids dag);
    snapshots ← validated_merge_snapshots snapshot persisted_dag workers;
    match last snapshots with
    | None => raise TaskExecutionBaseUnavailableError
                ("dependent task '" +:+ task_id +:+ "' has no accepted integration history")
    | Some (evidence, latest) =>
        check (negb (mqs_stopped latest)) TaskExecutionBaseUnavailableError
          "integration queue is stopped by unresolved conflict; downstream dispatch is blocked" ;;
        let missing := set_of (tn_depends_on node) ∖ set_of (mqs_integrated_task_ids latest) in
        check (bool_decide (missing = ∅)) TaskExecutionBaseUnavailableError
          (missing_message task_id missing) ;;
        _require_oid (mqs_head_commit latest) "integration head" ;;
        base ← TaskExecutionBase_new {|
          teb_run_id := prs_run_id snapshot; teb_task_id := task_id;
          teb_commit_sha := mqs_head_commit latest; teb_basis := TEB_MERGE_QUEUE_SNAPSHOT;
          teb_source_evidence_id := Some (pe_id evidence);
          teb_source_evidence_sha256 := Some (pe_payload_sha256 evidence);
          teb_integration_ref := Some (mqs_integration_ref latest) |};
        Ok (base, Some latest)
    end.
Definition _select_base := select_base_by _validated_merge_snapshots.

(** [ReadOnlyCommitDiffReader.commit_parents] of a workspace. *)
Definition verify_attempt (commit_parents : string → result (list string))
    (_ : unit) (attempt : MergeQueueAttempt) : result unit :=
  task_parents ← commit_parents (mqa_task_commit attempt);
  sound_if (bool_decide (task_parents = [mqa_task_base_commit attempt]))
    "persisted task commit no longer matches its evidence-bound task base" ;;
  if decide (mqa_outcome attempt = INTEGRATED) then
    integration_commit ← of_option (Exn AssertionError "") (mqa_integration_commit attempt);
    integration_parents ← commit_parents integration_commit;
    sound_if (bool_decide (integration_parents
                           = [mqa_previous_integration_commit attempt; mqa_task_commit attempt]))
      "persisted integration commit no longer matches its parent evidence"
  else Ok tt.
Definition verify_git_by (verify_attempt : unit → MergeQueueAttempt → result unit)
    (commit_parents : string → result (list string)) (run_base_commit : string)
    (merge_snapshot : option MergeQueueSnapshot) (selected_commit : string) : result unit :=
  commit_parents run_base_commit ;;
  match merge_snapshot with
  | Some s => fold_result verify_attempt tt (mqs_attempts s)
  | None => Ok tt
  end ;;
  commit_parents selected_commit ;;
  Ok tt.
Definition _verify_git (commit_parents : string → result (list string)) :=
  verify_git_by (verify_attempt commit_parents) commit_parents.

(** [EvidenceBoundTaskExecutionBaseResolver.resolve]; [load_dag] and the
    workspaces are read.  A subclass overrides the selection and the check. *)
Definition resolve_by
    (select_base : PersistedRunSnapshot → PersistedDAGSnapshot → string
       → result (TaskExecutionBase * option MergeQueueSnapshot))
    (verify_git : (string → result (list string)) → string → option MergeQueueSnapshot → string
       → result unit)
    (load_dag : UUID → result PersistedDAGSnapshot)
    (workspace_resolver : option (UUID → result (string → result (list string))))
    (snapshot : PersistedRunSnapshot) (task_id : string) : result TaskExecutionBase :=
  persisted_dag ← load_dag (prs_run_id snapshot);
  sound_if (bool_decide (pds_run_id persisted_dag = prs_run_id snapshot))
    "execution-base DAG Run identity mismatch" ;;
  '(base, merge_snapshot) ← select_base snapshot persisted_dag task_id;
  match workspace_resolver with
  | None => Ok base
  | Some workspaces =>
      match commit_parents ← workspaces (prs_project_id snapshot);
            verify_git commit_parents (prs_base_commit snapshot) merge_snapshot (teb_commit_sha base)
      with
      | Ok _ => Ok base
      | Raise e =>
          if subclass (exn_kind e) ValueError || subclass (exn_kind e) WorkspaceGitError
             || subclass (exn_kind e) CommitDiffError
          then corrupt "execution-base evidence cannot be reproduced from managed Git"
          else Raise e
      end
  end.
Definition resolve := resolve_by _select_base _verify_git.
End execution_base.

(** ** [runtime/run_reconciler.py]: the plan *)
Definition _validate_identity (snapshot : PersistedRunSnapshot)
    (persisted_dag : PersistedDAGSnapshot) (recovery : RunRecoveryPlan) : result unit :=
  sound_if (bool_decide (pds_run_id persisted_dag = prs_run_id snapshot)
            && bool_decide (rrp_run_id recovery = prs_run_id snapshot))
    "DAG reconciliation Run identities disagree" ;;
  sound_if (bool_decide (rrp_run_status recovery = prs_status snapshot))
    "recovery plan Run status disagrees with persisted Run" ;;
  sound_if (bool_decide (set_of (snapshot_task_ids snapshot) = task_id_set (pds_dag persisted_dag))
            && bool_decide (set_of (snapshot_task_ids snapshot)
                            = set_of (tra_task_id <$> rrp_tasks recovery)))
    "persisted Run, DAG, and recovery task identities must match exactly".

Definition assessments_of (recovery : RunRecoveryPlan) : gmap string TaskRecoveryAssessment :=
  foldl (λ m a, <[tra_task_id a := a]> m) ∅ (rrp_tasks recovery).
(** The tasks whose terminal worker evidence has the given status. *)
Definition with_status (st : WorkerExecutionStatus)
    (assessments : gmap string TaskRecoveryAssessment) : gset string :=
  dom (filter (λ p, tra_worker_execution_status p.2 = Some st) assessments).
Definition advanced (a : TaskRecoveryAssessment) : bool :=
  negb (is_none (tra_worker_execution_status a)) || negb (bool_decide (tra_lease_state a = UNOWNED)).

Section planner.
(** [execution_base_resolver.resolve(snapshot=snapshot, task_id=...)] *)
Context (resolve : string → result TaskExecutionBase).

(** The [if]-chain of the loop: the state, the reason and the base of a task. *)
Definition frontier_of (running : bool) (completed failed blocked ready : gset string)
    (assessment : TaskRecoveryAssessment) (task_id : string)
    : result (DAGTaskFrontierState * string * option TaskExecutionBase) :=
  if negb running then
    Ok (DF_RUN_TERMINAL, "Persisted Run is terminal; DAG reconciliation cannot reopen it.", None)
  else if bool_decide (task_id ∈ completed) then
    Ok (DF_SUCCEEDED, "Accepted successful WORKER_EXECUTION evidence is terminal task truth; reconciliation must not rerun it.", None)
  else if bool_decide (task_id ∈ failed) then
    Ok (DF_FAILED, "Accepted failed WORKER_EXECUTION evidence is terminal task truth; recovery does not relabel semantic/runtime failure as crash retry.", None)
  else if bool_decide (task_id ∈ blocked) then
    Ok (DF_BLOCKED_UPSTREAM_FAILURE, "Validated DAG dependencies place this task downstream of failed work.", None)
  else if negb (bool_decide (task_id ∈ ready)) then
    Ok (DF_WAIT_DEPENDENCIES, "One or more validated DAG dependencies lack successful terminal evidence.", None)
  else
    match tra_lease_state assessment with
    | ACTIVE =>
        sound_if (bool_decide (tra_disposition assessment = WAIT_ACTIVE_OWNER))
          "ACTIVE task has inconsistent recovery disposition" ;;
        Ok (DF_WAIT_ACTIVE_OWNER, "Task is DAG-ready but its current fenced generation is still ACTIVE under database time.", None)
    | RELEASED =>
        sound_if (bool_decide (tra_disposition assessment = BLOCKED_RELEASED_EVIDENCE_GAP))
          "RELEASED task has inconsistent recovery disposition" ;;
        Ok (DF_BLOCKED_RECOVERY_GAP, "Released ownership lacks terminal worker evidence; DAG recovery cannot silently reacquire it.", None)
    | UNOWNED | EXPIRED =>
        match resolve task_id with
        | Ok base =>
            Ok (DF_RECONCILE_CANDIDATE, "DAG dependencies and execution base are accepted; Step 5.3 must freshly revalidate ownership and dispatch history before any broker publication.", Some base)
        | Raise e =>
            if subclass (exn_kind e) TaskExecutionBaseUnavailableError
            then Ok (DF_WAIT_INTEGRATION_BASE, exn_message e, None)
            else Raise e
        end
    end.

(** One iteration: the record of the task. *)
Definition build_record (snapshot : PersistedRunSnapshot) (dag : TaskDAG)
    (assessments : gmap string TaskRecoveryAssessment) (completed failed blocked ready : gset string)
    (entry : nat * string) : result DAGTaskReconciliationRecord :=
  let '(index, task_id) := entry in
  assessment ← of_option (Exn KeyError task_id) (assessments !! task_id);
  node ← Dag.node dag task_id;
  '(state, reason, execution_base) ←
    frontier_of (bool_decide (prs_status snapshot = PRS_RUNNING)) completed failed blocked ready
      assessment task_id;
  DAGTaskReconciliationRecord_new {|
    dtr_run_id := prs_run_id snapshot;
    dtr_task_id := task_id;
    dtr_depends_on := tn_depends_on node;
    dtr_topological_index := Z.of_nat index;
    dtr_frontier_state := state;
    dtr_lease_state := tra_lease_state assessment;
    dtr_lease_generation := tra_lease_generation assessment;
    dtr_lease_dispatch_id := tra_lease_dispatch_id assessment;
    dtr_worker_execution_status := tra_worker_execution_status assessment;
    dtr_worker_execution_evidence_id := tra_worker_execution_evidence_id assessment;
    dtr_execution_base := execution_base;
    dtr_reason := reason;
  |}.
Definition is_candidate (r : DAGTaskReconciliationRecord) : bool :=
  bool_decide (dtr_frontier_state r = DF_RECONCILE_CANDIDATE).

(** [DAGRunReconciliationPlanner.build_plan] *)
Definition build_plan (snapshot : PersistedRunSnapshot) (persisted_dag : PersistedDAGSnapshot)
    (recovery : RunRecoveryPlan) : result DAGRunReconciliationPlan :=
  _validate_identity snapshot persisted_dag recovery ;;
  let dag := pds_dag persisted_dag in
  order ← topological_order dag;
  let assessments := assessments_of recovery in
  let completed := with_status WE_SUCCEEDED assessments in
  let failed := with_status WE_FAILED assessments in
  '(blocked_list, ready_list) ←
    match b ← blocked_task_ids dag failed; r ← ready_task_ids dag completed failed; Ok (b, r) with
    | Ok p => Ok p
    | Raise e => if subclass (exn_kind e) ValueError
                 then corrupt "persisted DAG terminal evidence is inconsistent" else Raise e
    end;
  let blocked := set_of blocked_list in
  let ready := set_of ready_list in
  (if decide (prs_status snapshot = PRS_RUNNING) then
     flags ← map_result (λ t, a ← of_option (Exn KeyError t) (assessments !! t); Ok (advanced a))
               (elements blocked);
     sound_if (negb (existsb (λ b, b) flags))
       "tasks downstream of accepted failure already contain execution ownership"
   else Ok tt) ;;
  records ← map_result (build_record snapshot dag assessments completed failed blocked ready)
              (imap (λ i t, (i, t)) order);
  DAGRunReconciliationPlan_new {|
    drp_run_id := prs_run_id snapshot;
    drp_run_status := prs_status snapshot;
    drp_dag_sha256 := pds_dag_sha256 persisted_dag;
    drp_topology_source := pds_source persisted_dag;
    drp_observed_at := rrp_observed_at recovery;
    drp_topological_order := order;
    drp_completed_task_ids := filter (.∈ completed) order;
    drp_failed_task_ids := filter (.∈ failed) order;
    drp_blocked_task_ids := filter (.∈ blocked) order;
    drp_ready_task_ids := filter (.∈ ready) order;
    drp_reconcile_task_ids := dtr_task_id <$> filter is_candidate records;
    drp_tasks := records;
  |}.
End planner.

(** ** [runtime/run_reconciler.py]: admission and delegation *)
Definition complexity_rank (c : option PlanningComplexity) : Z :=
  match c with Some LOW => 1 | Some MEDIUM => 2 | Some HIGH => 3 | None => 2 end.
Definition node_rank (n : TaskNode) : Z :=
  if decide (tn_execution_mode n = WORKFLOW) then 0 else complexity_rank (tn_complexity n).
Definition is_high (n : TaskNode) : bool := bool_decide (tn_complexity n = Some HIGH).
(** [list.index] *)
Definition index_of (order : list string) (t : string) : result Z :=
  of_option (Exn ValueError (t +:+ " is not in list")) (order_index order !! t).
(** The sort key of a candidate. *)
Definition sort_key (dag : TaskDAG) (order : list string) (task_id : string)
    : result ((Z * Z) * string) :=
  n ← Dag.node dag task_id;
  i ← index_of order task_id;
  Ok ((node_rank n, i), task_id).
Definition keyed_le (x y : (Z * Z) * string) : Prop :=
  x.1.1 < y.1.1 ∨ (x.1.1 = y.1.1 ∧ x.1.2 <= y.1.2).
#[export] Instance keyed_le_dec : RelDecision keyed_le.
Proof. intros x y. unfold keyed_le. apply _. Defined.
Definition is_active (l : TaskLeaseSnapshot) : bool := bool_decide (ls_state l = ACTIVE).
(** [any(...)], stopping at the first hit. *)
Fixpoint active_high (dag : TaskDAG) (leases : list TaskLeaseSnapshot) : result bool :=
  match leases with
  | [] => Ok false
  | l :: leases =>
      if is_active l then
        n ← Dag.node dag (ls_task_id l);
        if is_high n then Ok true else active_high dag leases
      else active_high dag leases
  end.
(** The loop that keeps the first HIGH candidate. *)
Definition limit_high (dag : TaskDAG) (st : bool * list string) (task_id : string)
    : result (bool * list string) :=
  let '(high_seen, limited) := st in
  n ← Dag.node dag task_id;
  if is_high n then
    if high_seen then Ok (high_seen, limited) else Ok (true, limited ++ [task_id])
  else Ok (high_seen, limited ++ [task_id]).
(** The candidates in dispatch order, before the contract gate. *)
Definition ranked_candidates (dag : TaskDAG) (leases : list TaskLeaseSnapshot)
    (reconcile_task_ids : list string) : result (list string) :=
  order ← topological_order dag;
  keyed ← map_result (sort_key dag order) reconcile_task_ids;
  let candidates := snd <$> merge_sort keyed_le keyed in
  high ← active_high dag leases;
  if (high : bool) then
    flags ← map_result (λ t, n ← Dag.node dag t; Ok (is_high n)) candidates;
    Ok (fst <$> filter (λ p, p.2 = false) (zip candidates flags))
  else
    '(_, limited) ← fold_result (limit_high dag) (false, []) candidates;
    Ok limited.
Definition available_slots (max_concurrent_tasks : option Z) (leases : list TaskLeaseSnapshot)
    (reconcile_task_ids : list string) : Z :=
  match max_concurrent_tasks with
  | None => Z.of_nat (length reconcile_task_ids)
  | Some limit => Z.max 0 (limit - Z.of_nat (length (filter is_active leases)))
  end.

(** The collaborators of [DAGRunReconciler]. *)
Record Reconciler (S : Type) : Type := {
  dr_load_run : UUID → S → result PersistedRunSnapshot;
  dr_load_dag : UUID → S → result PersistedDAGSnapshot;
  dr_list_task_leases : UUID → S → result (list TaskLeaseSnapshot);
  dr_resolve : PersistedRunSnapshot → string → S → result TaskExecutionBase;
  dr_read_execution : JSON → result WorkerExecutionEvidence;
  dr_read_dispatch : JSON → result WorkerDispatchEvent;
  dr_reconcile : UUID → string → M S TaskReconciliationOutcome;
  dr_gate_allowed : option (UUID → string → S → result bool);
  dr_max_concurrent_tasks : option Z;
}.
Arguments dr_load_run {S} _ _ _.
Arguments dr_load_dag {S} _ _ _.
Arguments dr_list_task_leases {S} _ _ _.
Arguments dr_resolve {S} _ _ _ _.
Arguments dr_read_execution {S} _ _.
Arguments dr_read_dispatch {S} _ _.
Arguments dr_reconcile {S} _ _ _ _.
Arguments dr_gate_allowed {S} _.
Arguments dr_max_concurrent_tasks {S} _.

Section reconciler.
Context {S : Type}.
Implicit Types (self : Reconciler S).

(** [DAGRunReconciler.__init__] *)
Definition Reconciler_init self : result (Reconciler S) :=
  check (match dr_max_concurrent_tasks self with Some n => 1 <=? n | None => true end) ValueError
    "max_concurrent_tasks must be at least one when configured" ;;
  Ok self.

Definition reading {A} (f : S → result A) : M S A := λ s, (f s, s).

Fixpoint gated (allowed : UUID → string → S → result bool) (run_id : UUID)
    (candidates : list string) (s : S) : result (list string) :=
  match candidates with
  | [] => Ok []
  | task_id :: candidates =>
      gate ← allowed run_id task_id s;
      admitted ← gated allowed run_id candidates s;
      Ok (if (gate : bool) then task_id :: admitted else admitted)
  end.

(** The plan and the tasks to delegate, in order. *)
Definition admission self (run_id : UUID) (s : S)
    : result (DAGRunReconciliationPlan * list string) :=
  snapshot ← dr_load_run self run_id s;
  persisted_dag ← dr_load_dag self run_id s;
  leases ← dr_list_task_leases self run_id s;
  recovery ← classify (dr_read_execution self) (dr_read_dispatch self) snapshot leases;
  plan ← build_plan (λ t, dr_resolve self snapshot t s) snapshot persisted_dag recovery;
  let slots := available_slots (dr_max_concurrent_tasks self) leases (drp_reconcile_task_ids plan) in
  candidates ← ranked_candidates (pds_dag persisted_dag) leases (drp_reconcile_task_ids plan);
  candidates ← match dr_gate_allowed self with
               | Some allowed => gated allowed run_id candidates s
               | None => Ok candidates
               end;
  Ok (plan, take (Z.to_nat slots) candidates).

Fixpoint reconcile_each self (run_id : UUID) (task_ids : list string)
    : M S (list TaskReconciliationOutcome) :=
  match task_ids with
  | [] => mret []
  | task_id :: task_ids =>
      outcome ← dr_reconcile self run_id task_id;
      outcomes ← reconcile_each self run_id task_ids;
      mret (outcome :: outcomes)
  end.

(** [DAGRunReconciler.reconcile_run] *)
Definition reconcile_run self (run_id : UUID) : M S DAGRunReconciliationOutcome :=
  admitted ← reading (admission self run_id);
  outcomes ← reconcile_each self run_id admitted.2;
  lift (DAGRunReconciliationOutcome_new
          {| dro_plan := admitted.1; dro_task_outcomes := outcomes |}).
End reconciler.
