(* ===== verification/ReconcileFacts.v ===== *)
(** * ReconcileFacts: the frontier plan, the admission and the Git bases

    The plan of [build_plan] agrees with the specification of the frontier
    over the task graph; the admission keeps to the concurrency limit and to
    one HIGH task; an execution base is the run base or the head of an
    accepted integration history that holds the dependencies of the task. *)
From stdpp Require Import options.
From S2P Require Import Prelude Contracts Dag DagFacts Json Store Events RunModels Lease Recovery Dispatch DispatchFacts Merge Reconcile.
Open Scope Z_scope.

(** The dict built from a list with distinct keys. *)
Lemma foldl_insert_lookup {A} (key : A → string) l (m : gmap string A) t a :
  NoDup (key <$> l) →
  foldl (λ m x, <[key x := x]> m) m l !! t = Some a ↔
  (a ∈ l ∧ key a = t) ∨ (t ∉ (key <$> l) ∧ m !! t = Some a).
Proof.
  revert m. induction l as [|x l IH]; intros m; cbn; [set_solver|].
  rewrite NoDup_cons. intros [Hx Hl]. rewrite IH, !list_elem_of_fmap in * by done.
  destruct (decide (key x = t)) as [<-|Hne].
  - rewrite lookup_insert_eq. set_solver.
  - rewrite lookup_insert_ne by done. set_solver.
Qed.

Lemma Forall2_imap {A B} (P : nat * A → B → Prop) (l : list A) k :
  Forall2 P (imap (λ i x, (i, x)) l) k →
  length l = length k ∧ ∀ i x y, l !! i = Some x → k !! i = Some y → P (i, x) y.
Proof.
  intros H. split.
  - apply Forall2_length in H. by rewrite length_imap in H.
  - intros i x y Hx Hy. eapply Forall2_lookup_lr; [exact H| |exact Hy].
    by rewrite list_lookup_imap, Hx.
Qed.

(** ** The graph queries *)
Section queries.
Context (d : TaskDAG).

(** What success of the two graph queries says. *)
Lemma queries_inv `{Hd : ValidDag d} (completed failed : gset string) b r :
  blocked_task_ids d failed = Ok b → ready_task_ids d completed failed = Ok r →
  (∀ t, t ∈ b ↔ blocked_by d failed t) ∧ (∀ t, t ∈ r ↔ ready_spec d completed failed t)
  ∧ completed ## failed ∧ ∀ t, t ∈ completed → ¬ blocked_by d failed t.
Proof.
  intros Hb Hr. pose proof Hr as Hr'. unfold ready_task_ids, _validate_runtime_ids in Hr'. inv_monad.
  to_prop. rewrite unknown_empty in *. rewrite overlap_empty in *.
  destruct (vd_blocked d failed) as (b' & Hb' & _ & Hspec); [done|].
  assert (b' = b) as -> by congruence. assert (a2 = b) as -> by congruence.
  assert (Hcons : ∀ t, t ∈ completed → ¬ blocked_by d failed t) by set_solver.
  destruct (vd_ready d completed failed) as (r' & Hr2 & _ & Hready); [done..|].
  rewrite Hr2 in Hr. injection Hr as Hr. by rewrite <- Hr.
Qed.

(** A task whose dependencies are completed is not below a failure. *)
Lemma deps_completed_below (completed failed : gset string) t :
  completed ## failed → (∀ u, u ∈ completed → ¬ blocked_by d failed u) →
  deps d t ⊆ completed → ∀ f, f ∈ failed → ¬ downstream d f t.
Proof.
  intros Hdj Hcons Hdeps f Hf Hdn. revert Hdeps.
  refine (tc_ind_r (λ t, deps d t ⊆ completed → False) f _ _ t Hdn).
  - intros u Hu Hdeps. apply Hdeps in Hu. set_solver.
  - intros u v Hfu Huv _ Hdeps. apply Hdeps in Huv. apply (Hcons u Huv). split; [set_solver|]. by exists f.
Qed.
End queries.

(** ** The frontier *)
Section frontier.
Context (d : TaskDAG) (recovery : RunRecoveryPlan).

(** The recovery assessment of a task. *)
Definition assessment_of (t : string) (a : TaskRecoveryAssessment) : Prop :=
  a ∈ rrp_tasks recovery ∧ tra_task_id a = t.
Definition terminal (st : WorkerExecutionStatus) (t : string) : Prop :=
  ∃ a, assessment_of t a ∧ tra_worker_execution_status a = Some st.
Definition deps_completed (t : string) : Prop := ∀ u, edge d u t → terminal WE_SUCCEEDED u.
Definition below_failure (t : string) : Prop := ∃ f, terminal WE_FAILED f ∧ downstream d f t.
Definition redispatchable (a : TaskRecoveryAssessment) : Prop :=
  tra_lease_state a = UNOWNED ∨ tra_lease_state a = EXPIRED.

Context (Hnd : NoDup (tra_task_id <$> rrp_tasks recovery)).

Lemma assessments_lookup t a : assessments_of recovery !! t = Some a ↔ assessment_of t a.
Proof using Hnd.
  unfold assessments_of. rewrite foldl_insert_lookup by done. rewrite lookup_empty.
  unfold assessment_of. naive_solver.
Qed.
Lemma elem_of_with_status st t : t ∈ with_status st (assessments_of recovery) ↔ terminal st t.
Proof using Hnd.
  unfold with_status. rewrite elem_of_dom. unfold is_Some. setoid_rewrite map_lookup_filter_Some.
  setoid_rewrite assessments_lookup. unfold terminal. naive_solver.
Qed.
Lemma assessment_unique t a b : assessment_of t a → assessment_of t b → a = b.
Proof using Hnd. rewrite <- !assessments_lookup. congruence. Qed.
Lemma terminal_status t a st : assessment_of t a → terminal st t ↔ tra_worker_execution_status a = Some st.
Proof using Hnd.
  intros Ha. split; [|by exists a]. intros (b & Hb & Hst). by rewrite (assessment_unique _ _ _ Ha Hb).
Qed.

Context (snapshot : PersistedRunSnapshot) (resolve : string → result TaskExecutionBase).
(** The state the frontier gives to a task, with its base and reason. *)
Definition frontier_spec (t : string) (a : TaskRecoveryAssessment)
    (st : DAGTaskFrontierState) (base : option TaskExecutionBase) (reason : string) : Prop :=
  let status := tra_worker_execution_status a in
  match st with
  | DF_RUN_TERMINAL => prs_status snapshot ≠ PRS_RUNNING ∧ base = None
  | _ => prs_status snapshot = PRS_RUNNING
  end ∧
  match st with
  | DF_RUN_TERMINAL => True
  | DF_SUCCEEDED => status = Some WE_SUCCEEDED ∧ base = None
  | DF_FAILED => status = Some WE_FAILED ∧ base = None
  | _ => status = None
  end ∧
  match st with
  | DF_RUN_TERMINAL | DF_SUCCEEDED | DF_FAILED => True
  | DF_BLOCKED_UPSTREAM_FAILURE => below_failure t ∧ tra_lease_state a = UNOWNED ∧ base = None
  | DF_WAIT_DEPENDENCIES => ¬ below_failure t ∧ ¬ deps_completed t ∧ base = None
  | DF_WAIT_ACTIVE_OWNER => deps_completed t ∧ tra_lease_state a = ACTIVE ∧ base = None
  | DF_BLOCKED_RECOVERY_GAP => deps_completed t ∧ tra_lease_state a = RELEASED ∧ base = None
  | DF_WAIT_INTEGRATION_BASE =>
      deps_completed t ∧ redispatchable a ∧ base = None
      ∧ resolve t = Raise (Exn TaskExecutionBaseUnavailableError reason)
  | DF_RECONCILE_CANDIDATE =>
      deps_completed t ∧ redispatchable a ∧ ∃ b, resolve t = Ok b ∧ base = Some b
  end.


(** The loop body computes the specification. *)
Lemma frontier_of_inv `{Hd : ValidDag d} b r t a st reason base :
  let completed := with_status WE_SUCCEEDED (assessments_of recovery) in
  let failed := with_status WE_FAILED (assessments_of recovery) in
  blocked_task_ids d failed = Ok b → ready_task_ids d completed failed = Ok r →
  assessment_of t a → t ∈ task_ids d →
  (prs_status snapshot = PRS_RUNNING → t ∈ b → advanced a = false) →
  frontier_of resolve (bool_decide (prs_status snapshot = PRS_RUNNING)) completed failed
    (set_of b) (set_of r) a t = Ok (st, reason, base) →
  frontier_spec t a st base reason.
Proof using Hnd.
  intros completed failed Hb Hr Ha Ht Hadv H.
  destruct (queries_inv d _ _ _ _ Hb Hr) as (Hbs & Hrs & Hdj & Hcons).
  assert (Hc : t ∈ completed ↔ tra_worker_execution_status a = Some WE_SUCCEEDED).
  { unfold completed. by rewrite elem_of_with_status, terminal_status. }
  assert (Hf : t ∈ failed ↔ tra_worker_execution_status a = Some WE_FAILED).
  { unfold failed. by rewrite elem_of_with_status, terminal_status. }
  assert (Hbelow : ∀ u, below_failure u ↔ ∃ f, f ∈ failed ∧ downstream d f u).
  { intros u. unfold below_failure, failed. by setoid_rewrite elem_of_with_status. }
  assert (Hdeps : ∀ u, deps_completed u ↔ deps d u ⊆ completed).
  { intros u. unfold deps_completed, edge, completed. rewrite elem_of_subseteq.
    by setoid_rewrite elem_of_with_status. }
  unfold frontier_of in H. unfold frontier_spec.
  destruct (decide (prs_status snapshot = PRS_RUNNING)) as [Hs|Hs].
  2: { rewrite bool_decide_eq_false_2 in H by done. cbn in H. by inv_monad. }
  rewrite bool_decide_eq_true_2 in H by done. cbn [negb] in H.
  case_bool_decide as Hct; [inv_monad; naive_solver|].
  case_bool_decide as Hft; [inv_monad; naive_solver|].
  assert (Hnone : tra_worker_execution_status a = None).
  { destruct (tra_worker_execution_status a) as [[]|]; naive_solver. }
  case_bool_decide as Hbt; unfold set_of in Hbt; rewrite elem_of_list_to_set in Hbt.
  { inv_monad. specialize (Hadv Hs Hbt). unfold advanced in Hadv. to_prop.
    rewrite Hbs in Hbt. destruct Hbt as [_ Hbt].
    split_and!; try done. by apply Hbelow. }
  case_bool_decide as Hrt; unfold set_of in Hrt; rewrite elem_of_list_to_set in Hrt.
  2: { cbn in H. inv_monad. rewrite Hrs in Hrt. rewrite Hbs in Hbt. unfold ready_spec, blocked_by in *.
       split_and!; try done.
       - rewrite Hbelow. intros Hx. apply Hbt. done.
       - rewrite Hdeps. intros Hx. apply Hrt. done. }
  cbn in H. rewrite Hrs in Hrt. destruct Hrt as (_ & _ & _ & _ & Hdc). apply Hdeps in Hdc.
  unfold sound_if in H.
  destruct (tra_lease_state a) eqn:Hl; inv_monad; try (by split_and!).
  all: destruct (resolve t) as [bs|e] eqn:Hres; [inv_monad|destruct subclass eqn:Hsub; [inv_monad|done]].
  all: split_and!; try done; try (by left); try (by right); try (by eexists).
  all: destruct e as [[] msg]; vm_compute in Hsub; by try discriminate Hsub.
Qed.

(** The record of a task in the plan. *)
Record record_ok (i : nat) (t : string) (r : DAGTaskReconciliationRecord) : Prop := {
  ro_task : dtr_task_id r = t;
  ro_index : dtr_topological_index r = Z.of_nat i;
  ro_assessed : ∃ a, assessment_of t a
    ∧ dtr_lease_state r = tra_lease_state a ∧ dtr_lease_generation r = tra_lease_generation a
    ∧ dtr_worker_execution_status r = tra_worker_execution_status a
    ∧ frontier_spec t a (dtr_frontier_state r) (dtr_execution_base r) (dtr_reason r);
  ro_reason : text_ok 1 1200 (dtr_reason r) = true;
}.

Lemma record_new_inv raw r : DAGTaskReconciliationRecord_new raw = Ok r →
  raw = r ∧ text_ok 1 1200 (dtr_reason r) = true.
Proof using.
  unfold DAGTaskReconciliationRecord_new, validate_record. intros H. inv_valid.
  assert (raw = r) as <-; [|done]. by destruct (dtr_frontier_state raw); inv_valid.
Qed.

(** The ids of a plan: the ready tasks of the order that may be delegated. *)
Definition delegable (t : string) : Prop :=
  prs_status snapshot = PRS_RUNNING ∧ deps_completed t ∧
  ∃ a, assessment_of t a ∧ tra_worker_execution_status a = None ∧ redispatchable a ∧
  ∃ b, resolve t = Ok b.

Lemma candidate_delegable i t r :
  (∀ t, deps_completed t → ¬ below_failure t) → record_ok i t r → is_candidate r = true ↔ delegable t.
Proof using Hnd.
  intros Hsep [_ _ (a & Ha & _ & _ & _ & H1 & H2 & H3) _]. unfold is_candidate.
  rewrite bool_decide_eq_true. split.
  - intros Hst. rewrite Hst in *. destruct H3 as (? & ? & b & ? & ?). split; [done|]. split; [done|].
    exists a. split_and!; [done..|]. by exists b.
  - intros (Hrun & Hdc & a' & Ha' & Hn & Hrd & b & Hb).
    rewrite (assessment_unique _ _ _ Ha' Ha) in *. clear a' Ha'.
    unfold redispatchable in *. pose proof (Hsep t Hdc).
    destruct (dtr_frontier_state r); naive_solver congruence.
Qed.
End frontier.

Lemma plan_new_inv raw plan : DAGRunReconciliationPlan_new raw = Ok plan →
  raw = plan ∧ validate_plan plan = Ok plan.
Proof.
  unfold DAGRunReconciliationPlan_new. intros H. inv_valid.
  assert (raw = plan) as <-; [|done]. unfold validate_plan in H. by inv_valid.
Qed.
(** What success of [build_plan] says, step by step. *)
Lemma build_plan_inv resolve snapshot pd recovery plan :
  build_plan resolve snapshot pd recovery = Ok plan →
  let d := pds_dag pd in
  let completed := with_status WE_SUCCEEDED (assessments_of recovery) in
  let failed := with_status WE_FAILED (assessments_of recovery) in
  ∃ order b r records,
    topological_order d = Ok order ∧ blocked_task_ids d failed = Ok b
    ∧ ready_task_ids d completed failed = Ok r
    ∧ set_of (tra_task_id <$> rrp_tasks recovery) = task_id_set d
    ∧ (prs_status snapshot = PRS_RUNNING →
       ∀ t a, t ∈ b → assessments_of recovery !! t = Some a → advanced a = false)
    ∧ map_result (build_record resolve snapshot d (assessments_of recovery) completed failed
        (set_of b) (set_of r)) (imap (λ i t, (i, t)) order) = Ok records
    ∧ drp_run_id plan = prs_run_id snapshot ∧ drp_run_status plan = prs_status snapshot
    ∧ drp_topological_order plan = order ∧ drp_tasks plan = records
    ∧ drp_completed_task_ids plan = filter (.∈ completed) order
    ∧ drp_failed_task_ids plan = filter (.∈ failed) order
    ∧ drp_reconcile_task_ids plan = dtr_task_id <$> filter is_candidate records.
Proof.
  unfold build_plan, _validate_identity, sound_if. intros H.
  apply bind_Ok_inv in H as (u & Hid & H).
  apply bind_Ok_inv in H as (order & Horder & H). apply bind_Ok_inv in H as ([b r] & Hq & H).
  apply bind_Ok_inv in H as (u' & Hadv & H). apply bind_Ok_inv in H as (records & Hrec & H).
  exists order, b, r, records.
  assert (Hbr : blocked_task_ids (pds_dag pd) (with_status WE_FAILED (assessments_of recovery)) = Ok b
    ∧ ready_task_ids (pds_dag pd) (with_status WE_SUCCEEDED (assessments_of recovery))
        (with_status WE_FAILED (assessments_of recovery)) = Ok r).
  { destruct (blocked_task_ids _ _) as [b'|e] eqn:Hb; cbn in Hq.
    - destruct (ready_task_ids _ _ _) as [r'|e] eqn:Hr; cbn in Hq; [by injection Hq as -> ->|].
      by destruct (subclass _ _).
    - by destruct (subclass _ _). }
  apply plan_new_inv in H as [<- _]. destruct Hbr. inv_monad. to_prop.
  split_and!; try done; [congruence|]. intros Hrun t0 x0 Ht0 Hx0.
  rewrite decide_True in Hadv by done. inv_monad. to_prop.
  match goal with Hm : map_result _ (elements _) = Ok ?l |- _ => rename Hm into Hflags; rename l into flags end.
  apply map_result_Ok in Hflags.
  assert (t0 ∈ elements (set_of b)) as Hel by (apply elem_of_elements; set_solver).
  apply list_elem_of_lookup_1 in Hel as [j Hj].
  destruct (Forall2_lookup_l _ _ _ _ _ Hflags Hj) as (f & Hf & Hfl). rewrite Hx0 in Hfl.
  injection Hfl as Hfl. destruct f; [|done].
  match goal with Hn : existsb _ flags = false |- _ => rename Hn into Hnone end.
  exfalso. apply not_true_iff_false in Hnone. apply Hnone. apply existsb_exists. exists true.
  split; [|done]. apply list_elem_of_In. by eapply list_elem_of_lookup_2.
Qed.

Lemma build_record_inv resolve snapshot d recovery b r i t rec `{Hd : ValidDag d} :
  let completed := with_status WE_SUCCEEDED (assessments_of recovery) in
  let failed := with_status WE_FAILED (assessments_of recovery) in
  NoDup (tra_task_id <$> rrp_tasks recovery) →
  blocked_task_ids d failed = Ok b → ready_task_ids d completed failed = Ok r → t ∈ task_ids d →
  (prs_status snapshot = PRS_RUNNING →
   ∀ t a, t ∈ b → assessments_of recovery !! t = Some a → advanced a = false) →
  build_record resolve snapshot d (assessments_of recovery) completed failed (set_of b) (set_of r)
    (i, t) = Ok rec →
  record_ok d recovery snapshot resolve i t rec.
Proof.
  intros completed failed Hnd Hb Hr Ht Hadv H. unfold build_record in H.
  apply bind_Ok_inv in H as (a & Ha & H). apply bind_Ok_inv in H as (n & Hn & H).
  apply bind_Ok_inv in H as ([[st reason] base] & Hfr & H).
  apply record_new_inv in H as [<- Hreason].
  destruct (assessments_of recovery !! t) as [a'|] eqn:Hlook; [injection Ha as ->|done].
  pose proof Hlook as Has. rewrite assessments_lookup in Has by done.
  split; cbn; [done|done| |done].
  exists a. split_and!; [done..|].
  eapply frontier_of_inv; eauto.
Qed.

(** The records of a plan follow the order and the specification; the
    candidates are among them. *)
Lemma plan_records resolve snapshot pd recovery plan (Hd : ValidDag (pds_dag pd))
    (Hnd : NoDup (tra_task_id <$> rrp_tasks recovery))
    (H : build_plan resolve snapshot pd recovery = Ok plan) :
  drp_topological_order plan = vd_order (pds_dag pd)
  ∧ length (vd_order (pds_dag pd)) = length (drp_tasks plan)
  ∧ (∀ i t r, vd_order (pds_dag pd) !! i = Some t → drp_tasks plan !! i = Some r →
       record_ok (pds_dag pd) recovery snapshot resolve i t r)
  ∧ drp_reconcile_task_ids plan = dtr_task_id <$> filter is_candidate (drp_tasks plan)
  ∧ ∀ t, deps_completed (pds_dag pd) recovery t → ¬ below_failure (pds_dag pd) recovery t.
Proof.
  apply build_plan_inv in H as
    (order & b & r & records & Ho & Hb & Hr & Hids & Hadv & Hrec & _ & _ & Hord & Htasks & _ & _ & Hre).
  rewrite (vd_topological (d := pds_dag pd)) in Ho. injection Ho as <-.
  rewrite Htasks, Hre, Hord. apply map_result_Ok, Forall2_imap in Hrec as [Hlen Hrec].
  split_and!; [done|done| |done|].
  - intros i t rc Hi Hrc. eapply build_record_inv; eauto.
    apply (vd_elem (pds_dag pd)). by eapply list_elem_of_lookup_2.
  - destruct (queries_inv (pds_dag pd) _ _ _ _ Hb Hr) as (_ & _ & Hdj & Hcons).
    intros u Hu (f & Hf & Hdn). rewrite <- elem_of_with_status in Hf by done.
    eapply (deps_completed_below (pds_dag pd) _ _ u Hdj Hcons); [|done|done].
    intros v Hv. apply elem_of_with_status; [done|]. by apply Hu.
Qed.

(** C13.  The plan of a run is its scheduling frontier.  Every task of the
    graph has one record, in topological order: the run is terminal; or the
    task has accepted terminal evidence; or it is below a failed task and was
    never owned; or a dependency is not completed; or, all dependencies being
    completed, its lease says wait or released without evidence; or it has no
    execution base yet; or it is a candidate, with the base the resolver
    returned.  The candidates are exactly the tasks of a RUNNING run without
    terminal evidence whose dependencies have all succeeded, whose lease is
    UNOWNED or EXPIRED and whose execution base resolves. *)
Theorem build_plan_correct resolve snapshot pd recovery plan (Hd : ValidDag (pds_dag pd))
    (Hnd : NoDup (tra_task_id <$> rrp_tasks recovery))
    (H : build_plan resolve snapshot pd recovery = Ok plan) :
  drp_topological_order plan = vd_order (pds_dag pd)
  ∧ length (drp_tasks plan) = length (vd_order (pds_dag pd))
  ∧ (∀ i t r, vd_order (pds_dag pd) !! i = Some t → drp_tasks plan !! i = Some r →
       record_ok (pds_dag pd) recovery snapshot resolve i t r)
  ∧ drp_reconcile_task_ids plan `sublist_of` vd_order (pds_dag pd)
  ∧ ∀ t, t ∈ drp_reconcile_task_ids plan ↔
      t ∈ task_ids (pds_dag pd) ∧ delegable (pds_dag pd) recovery snapshot resolve t.
Proof.
  destruct (plan_records _ _ _ _ _ Hd Hnd H) as (Hord & Hlen & Hok & Hre & Hsep).
  rewrite Hre, Hord. clear Hre. set (records := drp_tasks plan) in *.
  assert (Hnames : dtr_task_id <$> records = vd_order (pds_dag pd)).
  { apply list_eq. intros i. rewrite list_lookup_fmap.
    destruct (records !! i) as [rc|] eqn:Hi; cbn.
    - destruct (lookup_lt_is_Some_2 (vd_order (pds_dag pd)) i) as [t Ht].
      { rewrite Hlen. by eapply lookup_lt_Some. }
      rewrite Ht. f_equal. by destruct (Hok i t rc Ht Hi).
    - symmetry. apply lookup_ge_None. rewrite Hlen. by apply lookup_ge_None. }
  split_and!; [done|done|done| |].
  - rewrite <- Hnames. apply fmap_sublist, sublist_filter.
  - intros t. rewrite list_elem_of_fmap.
    split.
    + intros (rc & -> & [Hc Hin]%list_elem_of_filter).
      apply list_elem_of_lookup_1 in Hin as [i Hi].
      destruct (lookup_lt_is_Some_2 (vd_order (pds_dag pd)) i) as [t Ht].
      { rewrite Hlen. by eapply lookup_lt_Some. }
      pose proof (Hok i t rc Ht Hi) as Hrc. rewrite (ro_task _ _ _ _ _ _ _ Hrc).
      split; [apply (vd_elem (pds_dag pd)); by eapply list_elem_of_lookup_2|].
      eapply candidate_delegable; [done..|]. by apply Is_true_true.
    + intros [Ht Hdel]. apply (vd_elem (pds_dag pd)) in Ht. apply list_elem_of_lookup_1 in Ht as [i Hi].
      destruct (lookup_lt_is_Some_2 records i) as [rc Hrc].
      { rewrite <- Hlen. by eapply lookup_lt_Some. }
      pose proof (Hok i t rc Hi Hrc) as Hk. exists rc.
      split; [by destruct Hk|]. apply list_elem_of_filter.
      split; [|by eapply list_elem_of_lookup_2]. apply Is_true_true.
      by eapply candidate_delegable.
Qed.

(** A task that waits for the integration of many dependencies breaks the
    reconciliation of its run: the reason recorded for it lists them all, a
    record holds at most 1200 characters, so no plan is ever built. *)
Theorem long_waits_break_plan resolve snapshot pd recovery t a missing (Hd : ValidDag (pds_dag pd))
    (Hnd : NoDup (tra_task_id <$> rrp_tasks recovery))
    (Hrun : prs_status snapshot = PRS_RUNNING) (Ht : t ∈ task_ids (pds_dag pd))
    (Ha : assessment_of recovery t a) (Hnone : tra_worker_execution_status a = None)
    (Hdeps : deps_completed (pds_dag pd) recovery t) (Hfree : redispatchable a)
    (Hres : resolve t = Raise (Exn TaskExecutionBaseUnavailableError (missing_message t missing)))
    (Hlong : (1200 < str_len (missing_message t missing))%nat) :
  ∃ e, build_plan resolve snapshot pd recovery = Raise e.
Proof.
  destruct (build_plan resolve snapshot pd recovery) as [plan|e] eqn:H; [exfalso|by eexists].
  destruct (plan_records _ _ _ _ _ Hd Hnd H) as (_ & Hlen & Hok & _ & Hsep).
  apply (vd_elem (pds_dag pd)), list_elem_of_lookup_1 in Ht as [i Hi].
  destruct (lookup_lt_is_Some_2 (drp_tasks plan) i) as [r Hr].
  { rewrite <- Hlen. by eapply lookup_lt_Some. }
  destruct (Hok i t r Hi Hr) as [_ _ (a' & Ha' & _ & _ & _ & H1 & H2 & H3) Hreason].
  rewrite (assessment_unique _ Hnd _ _ _ Ha' Ha) in *. specialize (Hsep t Hdeps).
  unfold redispatchable in *. unfold text_ok in Hreason. apply andb_true_iff in Hreason as [_ Hle].
  apply Nat.leb_le in Hle.
  destruct (dtr_frontier_state r); try naive_solver congruence.
  destruct H3 as (_ & _ & _ & H3). rewrite Hres in H3. injection H3 as H3. rewrite <- H3 in Hle. lia.
Qed.

(** ** The admission *)
Definition task_high (d : TaskDAG) (t : string) : bool :=
  match Dag.node d t with Ok n => is_high n | Raise _ => false end.
Definition task_rank (d : TaskDAG) (t : string) : Z :=
  match Dag.node d t with Ok n => node_rank n | Raise _ => 0 end.
Definition high_active (d : TaskDAG) (leases : list TaskLeaseSnapshot) : Prop :=
  ∃ l, l ∈ leases ∧ ls_state l = ACTIVE ∧ task_high d (ls_task_id l) = true.
(** [t] goes before [u]: smaller work first, then topological order. *)
Definition goes_before (d : TaskDAG) (order : list string) (t u : string) : Prop :=
  task_rank d t < task_rank d u
  ∨ task_rank d t = task_rank d u ∧ ∃ i j, order !! i = Some t ∧ order !! j = Some u ∧ (i <= j)%nat.
Notation highs d l := (filter (λ t, task_high d t = true) l).

Lemma active_high_spec d leases b : active_high d leases = Ok b → b = true ↔ high_active d leases.
Proof.
  unfold high_active, task_high. induction leases as [|l leases IH]; cbn.
  - intros [= <-]. split; [done|]. intros (l & Hl & _). by apply not_elem_of_nil in Hl.
  - unfold is_active. setoid_rewrite elem_of_cons. case_bool_decide as Ha.
    + intros H. apply bind_Ok_inv in H as (n & Hn & H). destruct (is_high n) eqn:Hh.
      * injection H as <-. split; [|done]. intros _. exists l. rewrite Hn. auto.
      * rewrite (IH H). split; [naive_solver|].
        intros (l' & [->|Hl'] & Hst & Hx); [rewrite Hn in Hx; congruence|eauto].
    + intros H. rewrite (IH H). naive_solver.
Qed.

Lemma limit_high_fold (R : string → string → Prop) d l seen acc r :
  StronglySorted R l → fold_result (limit_high d) (seen, acc) l = Ok r →
  ∃ new, r.2 = acc ++ new ∧ new `sublist_of` l
  ∧ (length (highs d new) + (if seen then 1 else 0) <= 1)%nat
  ∧ ∀ t, t ∈ l → t ∉ new → task_high d t = true ∧ (seen = true ∨ ∃ u, u ∈ highs d new ∧ R u t).
Proof.
  intros Hs. revert seen acc. induction Hs as [|t l _ IH Hall]; intros seen acc; cbn.
  { intros [= <-]. exists []. rewrite app_nil_r. split_and!; [done|done|destruct seen; cbn; lia|].
    intros t Ht. by apply not_elem_of_nil in Ht. }
  rewrite Forall_forall in Hall. intros H. apply bind_Ok_inv in H as ([seen1 acc1] & H1 & H). apply bind_Ok_inv in H1 as (n & Hn & H1).
  assert (Ht : task_high d t = is_high n) by (unfold task_high; by rewrite Hn).
  destruct (is_high n) eqn:Hh; [destruct seen|]; injection H1 as <- <-;
    destruct (IH _ _ H) as (new & Hr & Hsub & Hlen & Hmiss).
  - exists new. split_and!; [done|by apply sublist_cons|done|].
    intros u [->|Hu]%elem_of_cons Hn'; [split; [done|by left]|by apply Hmiss].
  - exists (t :: new). rewrite Hr, <- app_assoc. cbn [app].
    split_and!; [done|by apply sublist_skip| |].
    + rewrite filter_cons_True by by rewrite Ht. cbn. lia.
    + intros u [->|Hu]%elem_of_cons Hn'; [set_solver|]. split; [apply Hmiss; set_solver|].
      right. exists t. split; [|by apply Hall]. rewrite filter_cons_True by by rewrite Ht. by left.
  - exists (t :: new). rewrite Hr, <- app_assoc. cbn [app].
    split_and!; [done|by apply sublist_skip| |].
    + by rewrite filter_cons_False by by rewrite Ht.
    + intros u [->|Hu]%elem_of_cons Hn'; [set_solver|].
      rewrite filter_cons_False by by rewrite Ht. apply Hmiss; set_solver.
Qed.

Lemma order_index_lookup order t i : order_index order !! t = Some i → order !! Z.to_nat i = Some t ∧ 0 <= i.
Proof.
  unfold order_index. intros H. apply elem_of_list_to_map_2 in H.
  apply elem_of_lookup_imap in H as (j & u & [= -> ->] & Hj). rewrite Nat2Z.id. split; [done|lia].
Qed.

#[local] Instance keyed_le_trans : Transitive keyed_le.
Proof. intros x y z. unfold keyed_le. lia. Qed.
#[local] Instance keyed_le_total : Total keyed_le.
Proof. intros x y. unfold keyed_le. lia. Qed.

Lemma sorted_goes_before d order l :
  Forall (λ k, sort_key d order k.2 = Ok k) l → StronglySorted keyed_le l →
  StronglySorted (goes_before d order) (snd <$> l).
Proof.
  intros Hk Hs. induction Hs as [|k l Hs IH Hall]; [constructor|].
  apply Forall_cons in Hk as [Hk Hl]. cbn. constructor; [by apply IH|].
  apply Forall_fmap. rewrite Forall_forall in *. intros k' Hk'. cbn.
  specialize (Hall _ Hk'). specialize (Hl _ Hk').
  assert (Hinv : ∀ k, sort_key d order k.2 = Ok k →
    task_rank d k.2 = k.1.1 ∧ order !! Z.to_nat k.1.2 = Some k.2 ∧ 0 <= k.1.2).
  { clear. intros [[r i] t]. cbn. unfold sort_key, index_of, task_rank. intros H.
    apply bind_Ok_inv in H as (n & -> & H). apply bind_Ok_inv in H as (j & Hj & H).
    injection H as -> ->. split; [done|]. apply order_index_lookup.
    by destruct (order_index order !! t); [injection Hj as ->|]. }
  destruct (Hinv _ Hk) as (Hr1 & Hi1 & ?), (Hinv _ Hl) as (Hr2 & Hi2 & ?).
  unfold goes_before. rewrite Hr1, Hr2. destruct Hall as [?|[? ?]]; [by left|right].
  split; [done|]. eexists _, _. split_and!; [done|done|lia].
Qed.

Lemma zip_filter {A} (l : list A) (flags : list bool) f :
  Forall2 (λ a b, f a = b) l flags →
  fst <$> filter (λ p, p.2 = false) (zip l flags) = filter (λ a, f a = false) l.
Proof.
  induction 1 as [|a b l flags Hab Hl IH]; [done|]. cbn [zip zip_with].
  destruct b; rewrite ?filter_cons_False, ?filter_cons_True by (cbn; congruence);
    cbn [fmap list_fmap fst]; by rewrite ?IH.
Qed.

Lemma ranked_candidates_inv d leases ids cs order :
  topological_order d = Ok order → ranked_candidates d leases ids = Ok cs →
  (∃ sorted, sorted ≡ₚ ids ∧ cs `sublist_of` sorted ∧ StronglySorted (goes_before d order) sorted)
  ∧ (length (highs d cs) <= 1)%nat ∧ (high_active d leases → highs d cs = [])
  ∧ ∀ t, t ∈ ids → t ∉ cs → task_high d t = true
      ∧ (high_active d leases ∨ ∃ u, u ∈ highs d cs ∧ goes_before d order u t).
Proof.
  intros Ho H. unfold ranked_candidates in H. rewrite Ho in H. cbn [mbind result_bind] in H.
  apply bind_Ok_inv in H as (keyed & Hk & H). apply bind_Ok_inv in H as (high & Hh & H).
  apply active_high_spec in Hh.
  apply map_result_Ok in Hk.
  assert (snd <$> keyed = ids ∧ Forall (λ k, sort_key d order k.2 = Ok k) keyed) as [Hids Hkey].
  { clear H. induction Hk as [|t k ids keyed Htk _ [IH1 IH2]]; [done|].
    assert (k.2 = t) as Hkt. { unfold sort_key in Htk. inv_monad. done. }
    split; [by rewrite fmap_cons, IH1, Hkt|]. constructor; [by rewrite Hkt|done]. }
  set (sorted := snd <$> merge_sort keyed_le keyed) in *.
  assert (Hperm : sorted ≡ₚ ids). { unfold sorted. by rewrite merge_sort_Permutation, Hids. }
  assert (Hsorted : StronglySorted (goes_before d order) sorted).
  { apply sorted_goes_before; [|apply StronglySorted_merge_sort; apply _].
    by rewrite merge_sort_Permutation. }
  destruct high.
  - apply bind_Ok_inv in H as (flags & Hf & H). injection H as <-. apply map_result_Ok in Hf.
    rewrite (zip_filter _ _ (task_high d)).
    2: { eapply Forall2_impl; [exact Hf|]. cbn. intros t b Hb.
         unfold task_high. apply bind_Ok_inv in Hb as (n & -> & [= <-]). done. }
    assert (Hnil : highs d (filter (λ a, task_high d a = false) sorted) = []).
    { clear. induction sorted as [|a l IH]; [done|].
      destruct (task_high d a) eqn:Ha.
      - by rewrite (filter_cons_False (λ a, task_high d a = false)) by congruence.
      - rewrite (filter_cons_True (λ a, task_high d a = false)) by done.
        by rewrite (filter_cons_False (λ a, task_high d a = true)) by congruence. }
    split_and!.
    + exists sorted. split_and!; [done|apply sublist_filter|done].
    + rewrite Hnil. cbn. lia.
    + done.
    + intros t Ht Hn. rewrite list_elem_of_filter, Hperm in Hn.
      destruct (task_high d t) eqn:Hx; [|tauto]. split; [done|]. left. by apply Hh.
  - apply bind_Ok_inv in H as ([seen limited] & Hl & H). injection H as <-.
    apply (limit_high_fold (goes_before d order)) in Hl as (new & Hr & Hsub & Hlen & Hmiss); [|done].
    cbn in Hr. subst limited.
    split_and!.
    + exists sorted. done.
    + lia.
    + intros Hx. apply Hh in Hx. done.
    + intros t Ht Hn. rewrite <- Hperm in Ht. destruct (Hmiss t Ht Hn) as [? [?|?]]; [done|].
      split; [done|by right].
Qed.

(** What [admission] computed. *)
Record admitted_from {S} (self : Reconciler S) (run_id : UUID) (s : S)
    (snapshot : PersistedRunSnapshot) (pd : PersistedDAGSnapshot) (leases : list TaskLeaseSnapshot)
    (recovery : RunRecoveryPlan) (plan : DAGRunReconciliationPlan) : Prop := {
  af_snapshot : dr_load_run self run_id s = Ok snapshot;
  af_dag : dr_load_dag self run_id s = Ok pd;
  af_leases : dr_list_task_leases self run_id s = Ok leases;
  af_recovery : classify (dr_read_execution self) (dr_read_dispatch self) snapshot leases = Ok recovery;
  af_plan : build_plan (λ t, dr_resolve self snapshot t s) snapshot pd recovery = Ok plan;
}.
Lemma gated_sublist {S} (allowed : UUID → string → S → result bool) run_id l s l' :
  gated allowed run_id l s = Ok l' →
  l' `sublist_of` l ∧ ∀ t, t ∈ l → t ∉ l' → allowed run_id t s = Ok false.
Proof.
  revert l'. induction l as [|t l IH]; intros l'; cbn.
  { intros [= <-]. split; [done|]. intros t Ht. by apply not_elem_of_nil in Ht. }
  intros H. apply bind_Ok_inv in H as (g & Hg & H). apply bind_Ok_inv in H as (k & Hk & [= <-]).
  destruct (IH _ Hk) as [Hsub Hd]. destruct g; split.
  - by apply sublist_skip.
  - intros u [->|Hu]%elem_of_cons Hn; [set_solver|]. apply Hd; set_solver.
  - by apply sublist_cons.
  - intros u [->|Hu]%elem_of_cons Hn; [done|by apply Hd].
Qed.
Lemma admission_inv {S} (self : Reconciler S) run_id s plan admitted :
  admission self run_id s = Ok (plan, admitted) →
  ∃ snapshot pd leases recovery candidates eligible,
    admitted_from self run_id s snapshot pd leases recovery plan
    ∧ ranked_candidates (pds_dag pd) leases (drp_reconcile_task_ids plan) = Ok candidates
    ∧ eligible `sublist_of` candidates
    ∧ (∀ t, t ∈ candidates → t ∉ eligible →
         ∃ allowed, dr_gate_allowed self = Some allowed ∧ allowed run_id t s = Ok false)
    ∧ admitted = take (Z.to_nat (available_slots (dr_max_concurrent_tasks self) leases
                                   (drp_reconcile_task_ids plan))) eligible.
Proof.
  unfold admission. intros H. apply bind_Ok_inv in H as (snapshot & H1 & H).
  apply bind_Ok_inv in H as (pd & H2 & H). apply bind_Ok_inv in H as (leases & H3 & H).
  apply bind_Ok_inv in H as (recovery & H4 & H). apply bind_Ok_inv in H as (plan' & H5 & H).
  apply bind_Ok_inv in H as (candidates & H6 & H). apply bind_Ok_inv in H as (eligible & H7 & H).
  injection H as <- <-. exists snapshot, pd, leases, recovery, candidates, eligible.
  split; [done|]. split; [done|].
  destruct (dr_gate_allowed self) as [allowed|] eqn:Hg.
  - destruct (gated_sublist _ _ _ _ _ H7) as [? Hd]. split_and!; [done| |done].
    intros t Ht Hn. exists allowed. split; [done|by apply Hd].
  - injection H7 as ->. done.
Qed.

Lemma sorted_take {A} (R : A → A → Prop) n (l : list A) x y :
  StronglySorted R l → x ∈ take n l → y ∈ l → y ∉ take n l → R x y.
Proof.
  intros Hs. revert n. induction Hs as [|a l _ IH Hall]; intros [|n]; cbn; [by intros ?%not_elem_of_nil..|].
  rewrite Forall_forall in Hall. intros [->|Hx]%elem_of_cons [->|Hy]%elem_of_cons Hn; [set_solver|by apply Hall|set_solver|].
  apply (IH n); [done|done|set_solver].
Qed.

(** C14.  What one reconciliation hands to the task reconciler: candidates of
    the plan, each at most once, never more than the free slots, and at most
    one HIGH task, none while a HIGH task is ACTIVE; in order of their rank,
    ties in topological order.  Smaller work goes first: a candidate is left
    out only when the slots are used up by tasks that all go before it, the
    contract gate denied it, or it is HIGH and another HIGH task is active or
    goes before it. *)
Theorem admission_correct {S} (self : Reconciler S) run_id s plan admitted
    (H : admission self run_id s = Ok (plan, admitted)) :
  ∃ snapshot pd leases recovery, admitted_from self run_id s snapshot pd leases recovery plan ∧
  let d := pds_dag pd in let ids := drp_reconcile_task_ids plan in
  let slots := available_slots (dr_max_concurrent_tasks self) leases ids in
  ∀ (Hd : ValidDag d),
  admitted ⊆+ ids ∧ Z.of_nat (length admitted) <= slots
  ∧ (length (highs d admitted) <= 1)%nat ∧ (high_active d leases → highs d admitted = [])
  ∧ StronglySorted (goes_before d (vd_order d)) admitted
  ∧ ∀ t, t ∈ ids → t ∉ admitted →
      Z.of_nat (length admitted) = slots ∧ Forall (λ u, goes_before d (vd_order d) u t) admitted
      ∨ (∃ allowed, dr_gate_allowed self = Some allowed ∧ allowed run_id t s = Ok false)
      ∨ task_high d t = true
        ∧ (high_active d leases ∨ ∃ u, u ∈ ids ∧ u ≠ t ∧ task_high d u = true ∧ goes_before d (vd_order d) u t).
Proof.
  apply admission_inv in H as (snapshot & pd & leases & recovery & cs & el & Haf & Hr & Hsub & Hgate & ->).
  exists snapshot, pd, leases, recovery. split; [done|]. intros d ids slots Hd.
  assert (Hslots : 0 <= slots) by (unfold slots, available_slots; destruct (dr_max_concurrent_tasks self); lia).
  destruct (ranked_candidates_inv _ _ _ _ _ (vd_topological (d := d)) Hr)
    as ((sorted & Hperm & Hcs & Hsorted) & Hone & Hact & Hmiss).
  fold ids slots. set (n := Z.to_nat slots). assert (Htk : take n el `sublist_of` el) by apply sublist_take.
  assert (Hall : take n el `sublist_of` sorted) by (etrans; [done|by etrans]).
  assert (Hhigh : highs d (take n el) `sublist_of` highs d cs).
  { apply filter_sublist. by transitivity el. }
  split_and!.
  - transitivity sorted; [by apply sublist_submseteq|by apply Permutation_submseteq].
  - rewrite length_take. lia.
  - apply sublist_length in Hhigh. lia.
  - intros Hx. rewrite (Hact Hx) in Hhigh. by apply sublist_nil_r in Hhigh.
  - by eapply StronglySorted_sublist.
  - intros t Ht Hn. destruct (decide (t ∈ cs)) as [Hc|Hc].
    + destruct (decide (t ∈ el)) as [He|He]; [left|right; left; by apply Hgate].
      assert (n < length el)%nat as Hlt.
      { destruct (decide (n < length el)%nat) as [?|Hge]; [done|]. rewrite take_ge in Hn by lia. done. }
      split; [rewrite length_take; lia|]. apply Forall_forall. intros u Hu.
      eapply sorted_take; [|exact Hu|done|done]. eapply StronglySorted_sublist; [|done]. by transitivity cs.
    + right; right. destruct (Hmiss t Ht Hc) as [? [?|(u & Hu & Hbefore)]]; [by split; [|left]|].
      split; [done|right]. apply list_elem_of_filter in Hu as [Hu1 Hu2].
      exists u. split_and!; [|by intros ->|done|done].
      apply (elem_of_Permutation_proper u _ _ Hperm). by eapply elem_of_submseteq, sublist_submseteq.
Qed.

(** The outcome record of a reconciliation demands one outcome per
    candidate of the plan, in plan order, although admission may drop and
    reorder candidates.  When the task reconciler returns an outcome for every
    admitted task, [reconcile_run] therefore succeeds only if everything was
    admitted in plan order; otherwise it raises [ValidationError] after the
    admitted tasks have been dispatched. *)
Theorem partial_admission_raises {S} (self : Reconciler S) run_id s plan admitted outcomes s'
    (Hadm : admission self run_id s = Ok (plan, admitted))
    (Hrec : reconcile_each self run_id admitted s = (Ok outcomes, s'))
    (Hids : outcome_task_id <$> outcomes = admitted) :
  (admitted = drp_reconcile_task_ids plan →
   reconcile_run self run_id s = (Ok {| dro_plan := plan; dro_task_outcomes := outcomes |}, s'))
  ∧ (admitted ≠ drp_reconcile_task_ids plan →
     ∃ msg, reconcile_run self run_id s = (Raise (Exn ValidationError msg), s')).
Proof.
  unfold reconcile_run, reading. unfold mbind, M_bind. rewrite Hadm. cbn [snd fst]. rewrite Hrec.
  unfold lift, DAGRunReconciliationOutcome_new. cbn [dro_plan dro_task_outcomes]. rewrite Hids.
  split; intros H.
  - by rewrite valid_if_true by by apply bool_decide_eq_true.
  - rewrite valid_if_false by by apply bool_decide_eq_false. by eexists.
Qed.

(** The task reconciler of production. *)
Section durable.
Context (sha256 : string → string).
Context (read_execution : JSON → result WorkerExecutionEvidence).
Context (read_dispatch : JSON → result WorkerDispatchEvent).
Context `{RunReader}.
(** What each call of [reconcile] finds: the environments of its transactions
    and the answer of the broker. *)
Context (attempt_env : UUID → string → Env * Env * Env * broker_reply) (queue_name : string).
Definition durable_reconcile (run_id : UUID) (task_id : string) : M World TaskReconciliationOutcome :=
  let '(ep, eg, em, reply) := attempt_env run_id task_id in
  Dispatch.reconcile sha256 read_execution read_dispatch ep eg em reply queue_name run_id task_id.

Lemma reconcile_each_runs (self : Reconciler World) run ids ps w r w' :
  dr_reconcile self = durable_reconcile → reconcile_each self run ids w = (r, w') →
  rtc (sys_step sha256 read_execution read_dispatch) (Sys w ps) (Sys w' ps).
Proof.
  intros Hself. revert w r w'. induction ids as [|t ids IH]; intros w r w'.
  { by intros [= _ <-]. }
  cbn [reconcile_each]. rewrite Hself. unfold mbind, M_bind.
  destruct (durable_reconcile run t w) as [ro w1] eqn:Hro. intros Hrest.
  assert (Hstep : rtc (sys_step sha256 read_execution read_dispatch) (Sys w ps) (Sys w1 ps)).
  { unfold durable_reconcile in Hro. destruct (attempt_env run t) as [[[ep eg] em] reply].
    by eapply reconcile_runs. }
  destruct ro; [|by injection Hrest as _ <-]. etrans; [exact Hstep|].
  destruct (reconcile_each self run ids w1) as [ro w2] eqn:Hw2. apply IH in Hw2.
  destruct ro; by injection Hrest as _ <-.
Qed.
End durable.

(** Reconciling a run with the durable task reconciler, however its
    broker calls end and whether it returns or raises, keeps the dispatch
    system in a reachable state: no dispatch identity is published twice. *)
Theorem run_reconciliation_publishes_once sha256 read_execution read_dispatch `{RunReader}
    attempt_env queue_name (self : Reconciler World) run_id w ps r w' :
  dr_reconcile self = durable_reconcile sha256 read_execution read_dispatch attempt_env queue_name →
  reachable sha256 read_execution read_dispatch (Sys w ps) →
  reconcile_run self run_id w = (r, w') →
  reachable sha256 read_execution read_dispatch (Sys w' ps) ∧ NoDup (tde_dispatch_id <$> w_sent w').
Proof.
  intros Hself (w0 & Hw0 & Hst) Hrun. assert (Hr : reachable sha256 read_execution read_dispatch (Sys w' ps)).
  { exists w0. split; [done|]. etrans; [exact Hst|].
    unfold reconcile_run, reading in Hrun. unfold mbind, M_bind in Hrun.
    destruct (admission self run_id w) as [[plan adm]|e]; [|by injection Hrun as _ <-].
    destruct (reconcile_each self run_id (plan, adm).2 w) as [ro w1] eqn:Hw1.
    eapply reconcile_each_runs in Hw1; [|done]. destruct ro; by injection Hrun as _ <-. }
  split; [done|]. apply sys_reachable_inv in Hr as [[] _ _]. done.
Qed.

(** ** The execution bases *)
Section execution_base.
Context (read_execution : JSON → result WorkerExecutionEvidence).
Context (read_merge_snapshot : JSON → result MergeQueueSnapshot).

Lemma validated_inv {A B} (read : JSON → result A) (new : A → result B) msg j b :
  validated read new msg j = Ok b → ∃ a, read j = Ok a ∧ new a = Ok b.
Proof using.
  unfold validated. destruct (read j) as [a|e]; cbn; [|by case_decide].
  destruct (new a) eqn:Hn; [|by case_decide]. intros [= ->]. by exists a.
Qed.

(** Accepted evidence that [t] succeeded with [commit] on top of [base]. *)
Definition worker_success (snapshot : PersistedRunSnapshot) (t base commit : string) : Prop :=
  ∃ e raw x, e ∈ prs_evidence snapshot ∧ pe_kind e = WORKER_EXECUTION ∧ pe_task_id e = Some t
    ∧ read_execution (pe_payload e) = Ok raw ∧ WorkerExecutionEvidence_new raw = Ok x
    ∧ we_run_id x = prs_run_id snapshot ∧ we_status x = WE_SUCCEEDED
    ∧ we_base_commit x = base ∧ we_commit_sha x = Some commit.

Lemma worker_pair_inv snapshot known pairs e pairs' t b c :
  e ∈ prs_evidence snapshot → worker_pair read_execution snapshot known pairs e = Ok pairs' →
  pairs' !! t = Some (b, c) → pairs !! t = Some (b, c) ∨ worker_success snapshot t b c.
Proof using.
  intros He. unfold worker_pair, sound_if. case_bool_decide as Hk; cbn [negb]; [|intros [= <-]; auto].
  intros H. apply bind_Ok_inv in H as (u & _ & H). apply bind_Ok_inv in H as (x & Hx & H).
  apply validated_inv in Hx as (raw & Hraw & Hx).
  apply bind_Ok_inv in H as (u1 & Hid & H). inv_monad. to_prop.
  case_bool_decide as Hst; cbn [negb] in H; [|injection H as <-; auto].
  apply bind_Ok_inv in H as (c' & Hc & H). apply bind_Ok_inv in H as (u2 & _ & H).
  apply bind_Ok_inv in H as (u3 & _ & H). apply bind_Ok_inv in H as (u4 & _ & [= <-]).
  destruct (decide (we_task_id x = t)) as [<-|Hne].
  - rewrite lookup_insert_eq. intros [= <- <-]. right. exists e, raw, x.
    split_and!; try done. by destruct (we_commit_sha x); [injection Hc as ->|].
  - rewrite lookup_insert_ne by done. auto.
Qed.
Lemma worker_pairs_inv snapshot known pairs t b c :
  _successful_worker_pairs read_execution snapshot known = Ok pairs →
  pairs !! t = Some (b, c) → worker_success snapshot t b c.
Proof using.
  unfold _successful_worker_pairs. intros H Hl.
  assert (Hgen : ∀ l acc, l ⊆ prs_evidence snapshot →
    fold_result (worker_pair read_execution snapshot known) acc l = Ok pairs →
    acc !! t = Some (b, c) ∨ worker_success snapshot t b c).
  { clear H. induction l as [|e l IH]; intros acc Hsub; cbn [fold_result].
    - intros [= ->]. by left.
    - intros H. apply bind_Ok_inv in H as (acc1 & H1 & H). 
      destruct (IH acc1) as [Hacc|?]; [set_solver|done| |by right].
      eapply worker_pair_inv; [|done|done]. apply Hsub. by left. }
  destruct (Hgen _ _ (reflexivity _) H) as [Hx|?]; [by rewrite lookup_empty in Hx|done].
Qed.

(** The scan of a history goes through the tasks in topological order. *)
Lemma scan_fold d order workers base l st :
  fold_result (scan_attempt d (order_index order) workers base)
    {| hs_integrated := ∅; hs_heads := {[base := ∅]}; hs_last_index := -1 |} l = Ok st →
  mqa_task_id <$> l `sublist_of` take (Z.to_nat (hs_last_index st + 1)) order
  ∧ -1 <= hs_last_index st
  ∧ Forall (λ a, workers !! mqa_task_id a = Some (mqa_task_base_commit a, mqa_task_commit a)) l.
Proof using.
  revert st. induction l as [|a l IH] using rev_ind; intros st.
  { intros [= <-]. cbn. split_and!; [apply sublist_nil_l|lia|done]. }
  rewrite fold_result_app. intros H. apply bind_Ok_inv in H as (st0 & H0 & H).
  destruct (IH _ H0) as (Hs & Hge & Hw). clear IH H0. cbn [fold_result] in H.
  apply bind_Ok_inv in H as (st1 & H & [= ->]).
  unfold scan_attempt, sound_if, _require_oid, sound_if in H.
  apply bind_Ok_inv in H as (u1 & _ & H). apply bind_Ok_inv in H as (u2 & _ & H).
  apply bind_Ok_inv in H as (u3 & _ & H). apply bind_Ok_inv in H as (i & Hi & H).
  apply bind_Ok_inv in H as (u4 & Hlt & H). apply bind_Ok_inv in H as (n & Hn & H).
  apply bind_Ok_inv in H as (u5 & _ & H). apply bind_Ok_inv in H as (u6 & Hp & H).
  apply bind_Ok_inv in H as (u7 & _ & H). apply check_Ok in Hlt, Hp. to_prop.
  assert (hs_last_index st = i) as Hsi.
  { case_decide; [|by injection H as <-]. apply bind_Ok_inv in H as (c & _ & H).
    apply bind_Ok_inv in H as (u8 & _ & H). by injection H as <-. }
  assert (order_index order !! mqa_task_id a = Some i) as Hix.
  { by destruct (order_index order !! mqa_task_id a); [injection Hi as ->|]. }
  apply order_index_lookup in Hix as [Hix Hi0]. rewrite Hsi.
  split_and!; [|lia|by apply Forall_snoc].
  rewrite fmap_app. cbn. replace (Z.to_nat (i + 1)) with (S (Z.to_nat i)) by lia.
  rewrite (take_S_r _ _ _ Hix). apply sublist_app; [|done].
  transitivity (take (Z.to_nat (hs_last_index st0 + 1)) order); [done|].
  replace (take (Z.to_nat (hs_last_index st0 + 1)) order)
    with (take (Z.to_nat (hs_last_index st0 + 1)) (take (Z.to_nat i) order))
    by (rewrite take_take; f_equal; lia).
  apply sublist_take.
Qed.

Lemma decode_merge_inv validate snapshot acc l decoded :
  fold_result (decode_merge_by read_merge_snapshot validate snapshot) acc l = Ok decoded →
  ∀ e s, (e, s) ∈ decoded → (e, s) ∈ acc ∨
    (e ∈ l ∧ pe_kind e = MERGE_QUEUE_SNAPSHOT ∧ (∃ raw, read_merge_snapshot (pe_payload e) = Ok raw
      ∧ MergeQueueSnapshot_validate raw = Ok s)
     ∧ mqs_run_base_commit s = prs_base_commit snapshot
     ∧ validate s = Ok tt).
Proof using.
  revert acc. induction l as [|e0 l IH]; intros acc; cbn [fold_result]; [intros [= ->]; auto|].
  intros H. apply bind_Ok_inv in H as (acc1 & H1 & H). intros e s Hin.
  destruct (IH _ H e s Hin) as [Hacc|(He & Hrest)]; [|right; split; [by right|done]].
  unfold decode_merge_by, sound_if in H1. case_bool_decide as Hk; cbn [negb] in H1;
    [|injection H1 as <-; auto].
  apply bind_Ok_inv in H1 as (s0 & Hs0 & H1). apply validated_inv in Hs0 as (raw & Hraw & Hval).
  apply bind_Ok_inv in H1 as (u1 & Hb & H1). apply bind_Ok_inv in H1 as (u2 & _ & H1).
  apply bind_Ok_inv in H1 as ([] & Hst & [= <-]). apply check_Ok in Hb. to_prop.
  apply elem_of_app in Hacc as [?|Hx]; [by left|]. apply list_elem_of_singleton in Hx as [= -> ->].
  right. split; [by left|]. split; [done|]. split; [by exists raw|]. by split.
Qed.
(** The rows of the decoded snapshots are the accepted ones, in order. *)
Definition is_merge_row (e : PersistedEvidence) : Prop := pe_kind e = MERGE_QUEUE_SNAPSHOT.
#[export] Instance is_merge_row_dec e : Decision (is_merge_row e).
Proof. unfold is_merge_row. apply _. Defined.
Lemma decode_merge_rows validate snapshot acc l decoded :
  fold_result (decode_merge_by read_merge_snapshot validate snapshot) acc l = Ok decoded →
  fst <$> decoded = (fst <$> acc) ++ filter is_merge_row l.
Proof using.
  revert acc. induction l as [|e0 l IH]; intros acc; cbn [fold_result].
  { intros [= ->]. by rewrite filter_nil, app_nil_r. }
  intros H. apply bind_Ok_inv in H as (acc1 & H1 & H). rewrite (IH _ H). unfold decode_merge_by in H1.
  case_bool_decide as Hk; cbn [negb] in H1; [|injection H1 as <-; by rewrite filter_cons_False].
  apply bind_Ok_inv in H1 as (s0 & _ & H1). apply bind_Ok_inv in H1 as (u1 & _ & H1).
  apply bind_Ok_inv in H1 as (u2 & _ & H1). apply bind_Ok_inv in H1 as (u3 & _ & [= <-]).
  by rewrite filter_cons_True, fmap_app, <- app_assoc.
Qed.
(** The latest accepted merge snapshot. *)
Definition latest_merge_row (snapshot : PersistedRunSnapshot) (e : PersistedEvidence) : Prop :=
  last (filter is_merge_row (prs_evidence snapshot)) = Some e.
Lemma decode_merge_latest validate snapshot decoded e s :
  fold_result (decode_merge_by read_merge_snapshot validate snapshot) [] (prs_evidence snapshot) = Ok decoded →
  last decoded = Some (e, s) → latest_merge_row snapshot e.
Proof using.
  intros H%decode_merge_rows Hl. unfold latest_merge_row. cbn [fmap list_fmap app] in H.
  by rewrite <- H, fmap_last, Hl.
Qed.
End execution_base.

(** The accepted history behind an execution base. *)
Record accepted_history read_execution read_merge_snapshot (snapshot : PersistedRunSnapshot)
    (order : list string) (e : PersistedEvidence) (s : MergeQueueSnapshot) : Prop := {
  ah_row : e ∈ prs_evidence snapshot ∧ pe_kind e = MERGE_QUEUE_SNAPSHOT;
  ah_read : ∃ raw, read_merge_snapshot (pe_payload e) = Ok raw
    ∧ MergeQueueSnapshot_validate raw = Ok s;
  ah_history : history (prs_base_commit snapshot) (mqs_attempts s) (mqs_integrated_task_ids s)
    (mqs_head_commit s) None;
  ah_order : mqs_integrated_task_ids s `sublist_of` order;
  ah_workers : ∀ a, a ∈ mqs_attempts s → mqa_task_id a ∈ mqs_integrated_task_ids s
    ∧ worker_success read_execution snapshot (mqa_task_id a) (mqa_task_base_commit a) (mqa_task_commit a);
}.

Lemma snapshot_validate_history raw s : MergeQueueSnapshot_validate raw = Ok s →
  ∃ pending,
    history (mqs_run_base_commit s) (mqs_attempts s) (mqs_integrated_task_ids s)
      (mqs_head_commit s) pending ∧ mqs_stopped s = negb (is_none pending).
Proof.
  unfold MergeQueueSnapshot_validate. intros H. apply bind_Ok_inv in H as (l & Hl & H).
  apply snapshot_new_inv in H as Heq. subst s. apply map_result_same in Hl as [_ Hok].
  - by apply snapshot_new_history.
  - intros a b Hab. by apply attempt_new_inv in Hab as [-> _].
Qed.

Lemma base_new_inv raw b : TaskExecutionBase_new raw = Ok b → raw = b.
Proof.
  unfold TaskExecutionBase_new, validate_provenance. intros H. inv_valid.
  case_decide; by inv_valid.
Qed.

Lemma merge_snapshots_history read_execution read_merge_snapshot snapshot pd workers decoded e s order :
  _successful_worker_pairs read_execution snapshot (Dag.task_ids (pds_dag pd)) = Ok workers →
  _validated_merge_snapshots read_merge_snapshot snapshot pd workers = Ok decoded →
  (e, s) ∈ decoded → mqs_stopped s = false →
  topological_order (pds_dag pd) = Ok order → NoDup order →
  accepted_history read_execution read_merge_snapshot snapshot order e s.
Proof.
  intros Hw Hd Hin Hst Ho Hnd. unfold _validated_merge_snapshots in Hd.
  apply bind_Ok_inv in Hd as (order' & Ho' & Hd). assert (order' = order) as -> by congruence.
  apply bind_Ok_inv in Hd as (decoded' & Hd & H). apply bind_Ok_inv in H as (u & _ & [= ->]).
  destruct (decode_merge_inv _ _ _ _ _ _ Hd e s Hin) as [Hx|(He & Hk & Hraw & Hb & Hscan)].
  { by apply not_elem_of_nil in Hx. }
  destruct Hraw as (raw & Hraw & Hval).
  destruct (snapshot_validate_history _ _ Hval) as (pending & Hh & Hstop).
  rewrite Hst in Hstop. destruct pending; [done|]. rewrite Hb in Hh.
  apply bind_Ok_inv in Hscan as (st & Hscan & _).
  unfold _validate_merge_history in Hscan. apply scan_fold in Hscan as (Hsub & _ & Hworkers).
  assert (Hord : mqa_task_id <$> mqs_attempts s `sublist_of` order).
  { etrans; [exact Hsub|apply sublist_take]. }
  assert (Hids : mqa_task_id <$> mqs_attempts s = mqs_integrated_task_ids s).
  { rewrite (history_no_repair _ _ _ _ _ Hh), app_nil_r; [done|]. by eapply sublist_NoDup. }
  split.
  - done.
  - by exists raw.
  - done.
  - by rewrite <- Hids.
  - intros a Ha. rewrite <- Hids. split; [by apply list_elem_of_fmap_2|].
    rewrite Forall_forall in Hworkers. by eapply worker_pairs_inv, Hworkers.
Qed.

(** What [resolve_by] gives, whatever the methods it calls. *)
Lemma resolve_by_inv {validated verify read_execution load_dag workspaces} snapshot t base :
  resolve_by (select_base_by read_execution validated) verify load_dag workspaces snapshot t = Ok base →
  ∃ pd n, load_dag (prs_run_id snapshot) = Ok pd ∧ Dag.node (pds_dag pd) t = Ok n
  ∧ teb_run_id base = prs_run_id snapshot ∧ teb_task_id base = t
  ∧ (tn_depends_on n = [] ∧ teb_basis base = RUN_BASE ∧ teb_commit_sha base = prs_base_commit snapshot
     ∨ ∃ workers decoded e s,
       _successful_worker_pairs read_execution snapshot (Dag.task_ids (pds_dag pd)) = Ok workers
       ∧ validated snapshot pd workers = Ok decoded ∧ last decoded = Some (e, s)
       ∧ tn_depends_on n ≠ [] ∧ teb_basis base = TEB_MERGE_QUEUE_SNAPSHOT ∧ mqs_stopped s = false
       ∧ (∀ u, u ∈ tn_depends_on n → u ∈ mqs_integrated_task_ids s)
       ∧ teb_commit_sha base = mqs_head_commit s ∧ teb_source_evidence_id base = Some (pe_id e)
       ∧ teb_integration_ref base = Some (mqs_integration_ref s)
       ∧ ∀ resolver, workspaces = Some resolver → ∃ parents, resolver (prs_project_id snapshot) = Ok parents
           ∧ verify parents (prs_base_commit snapshot) (Some s) (mqs_head_commit s) = Ok tt).
Proof.
  intros H. unfold resolve_by in H. apply bind_Ok_inv in H as (pd & Hpd & H).
  apply bind_Ok_inv in H as (u & _ & H). apply bind_Ok_inv in H as ([b m] & Hsel & H).
  assert (b = base ∧ ∀ resolver, workspaces = Some resolver →
    ∃ parents, resolver (prs_project_id snapshot) = Ok parents
    ∧ verify parents (prs_base_commit snapshot) m (teb_commit_sha b) = Ok tt) as [-> Hgit].
  { destruct workspaces as [ws|]; [|by injection H as ->].
    destruct (ws (prs_project_id snapshot)) as [parents|x] eqn:Hp; cbn [mbind result_bind] in H.
    - destruct (verify _ _ _ _) as [[]|x] eqn:Hv; [injection H as ->|by destruct (_ || _)].
      split; [done|]. intros ? [= <-]. eauto.
    - by destruct (_ || _). }
  clear H. unfold select_base_by in Hsel. apply bind_Ok_inv in Hsel as (n & Hn & H).
  destruct (Dag.node (pds_dag pd) t) as [n'|x] eqn:Hnode; [injection Hn as ->|by destruct (subclass _ _)].
  exists pd, n. split; [done|]. split; [done|]. case_decide as Hdeps.
  - apply bind_Ok_inv in H as (u1 & _ & H). apply bind_Ok_inv in H as (b1 & Hb & [= <- <-]).
    apply base_new_inv in Hb as <-. cbn. split_and!; [done..|]. by left.
  - apply bind_Ok_inv in H as (workers & Hw & H). apply bind_Ok_inv in H as (decoded & Hdec & H).
    destruct (last decoded) as [[e s]|] eqn:Hlast; [|done].
    apply bind_Ok_inv in H as (u1 & Hst & H). apply bind_Ok_inv in H as (u2 & Hmiss & H).
    apply bind_Ok_inv in H as (u3 & _ & H). apply bind_Ok_inv in H as (b1 & Hb & [= <- <-]).
    apply base_new_inv in Hb as <-. cbn in *. apply check_Ok in Hst, Hmiss. to_prop.
    split_and!; [done..|]. right. exists workers, decoded, e, s. split_and!; try done.
    intros v Hv. unfold set_of in Hmiss. set_solver.
Qed.

(** C15.  The Git base a task starts from.  A task without dependencies starts
    at the base of the run.  Any other task starts at the head of the latest
    accepted merge snapshot, which is not stopped: that head ends an
    integration history from the run base which holds every dependency of the
    task, integrated the tasks in topological order, each from a commit that
    accepted worker evidence names; the base carries the identity of that
    snapshot's evidence.  With a workspace resolver, Git's commit parents
    were checked as well. *)
Theorem execution_base_correct read_execution read_merge_snapshot load_dag workspaces snapshot t base
    (H : resolve read_execution read_merge_snapshot load_dag workspaces snapshot t = Ok base) :
  ∃ pd n, load_dag (prs_run_id snapshot) = Ok pd ∧ Dag.node (pds_dag pd) t = Ok n
  ∧ teb_run_id base = prs_run_id snapshot ∧ teb_task_id base = t
  ∧ (tn_depends_on n = [] ∧ teb_basis base = RUN_BASE ∧ teb_commit_sha base = prs_base_commit snapshot
     ∨ ∃ order e s, topological_order (pds_dag pd) = Ok order
       ∧ tn_depends_on n ≠ [] ∧ teb_basis base = TEB_MERGE_QUEUE_SNAPSHOT
       ∧ latest_merge_row snapshot e
       ∧ (NoDup order → accepted_history read_execution read_merge_snapshot snapshot order e s)
       ∧ (∀ u, u ∈ tn_depends_on n → u ∈ mqs_integrated_task_ids s)
       ∧ teb_commit_sha base = mqs_head_commit s ∧ teb_source_evidence_id base = Some (pe_id e)
       ∧ teb_integration_ref base = Some (mqs_integration_ref s)
       ∧ ∀ resolver, workspaces = Some resolver → ∃ parents, resolver (prs_project_id snapshot) = Ok parents
           ∧ _verify_git parents (prs_base_commit snapshot) (Some s) (mqs_head_commit s) = Ok tt).
Proof.
  apply resolve_by_inv in H as (pd & n & Hpd & Hn & Hrun & Ht & Hcase). exists pd, n. split_and!; try done.
  destruct Hcase as [?|(workers & decoded & e & s & Hw & Hdec & Hlast & Hne & Hbasis & Hst & Hrest)]; [by left|].
  right. pose proof Hdec as Hord. unfold _validated_merge_snapshots in Hord.
  apply bind_Ok_inv in Hord as (order & Hord & Hfold). destruct Hrest as (? & ? & ? & ? & ?).
  apply bind_Ok_inv in Hfold as (decoded' & Hfold & Hext). apply bind_Ok_inv in Hext as (u & _ & [= ->]).
  exists order, e, s. split_and!; try done; [by eapply decode_merge_latest|]. intros Hnd.
  eapply merge_snapshots_history; eauto. by apply last_Some_elem_of.
Qed.


(** *** A concrete run

    Three unowned tasks: [a] is HIGH, [b] is LOW, [c] depends on [a].  One
    task may run at a time. *)
Definition ranked_node (id : string) (deps : list string) (c : PlanningComplexity) : TaskNode := {|
  tn_task := sample_contract id; tn_depends_on := deps; tn_execution_mode := AGENT;
  tn_produces := []; tn_consumes := []; tn_complexity := Some c; tn_budget_allocation := None;
  tn_complexity_assessment := None; tn_resume_context := None |}.
Definition small_dag : TaskDAG :=
  {| tasks := [ranked_node "a" [] HIGH; ranked_node "b" [] LOW; ranked_node "c" ["a"] LOW] |}.
#[export] Instance small_dag_valid : ValidDag small_dag.
Proof.
  apply (valid_dag_of small_dag) with (l := ["a"; "b"; "c"]); [|vm_compute; reflexivity].
  apply (TaskDAG_new_inv (tasks small_dag)); [by apply nodup_by_compute|by vm_compute].
Defined.
Definition frontier_snapshot : PersistedRunSnapshot := {|
  prs_run_id := 1%N; prs_project_id := 2%N; prs_repository_url := "r"; prs_default_branch := "main";
  prs_base_commit := commit_id 1; prs_status := PRS_RUNNING;
  prs_display_status := "RUNNING"; prs_recovery_reason := None; prs_recovery_checked_at := None;
  prs_tasks := recovery_task <$> ["a"; "b"; "c"]; prs_evidence := [];
  prs_terminal_result := None; prs_terminal_result_sha256 := None; prs_started_at := 0;
  prs_finished_at := None |}.
Definition small_pd : PersistedDAGSnapshot := {|
  pds_run_id := 1%N; pds_dag := small_dag; pds_dag_sha256 := of_chars (replicate 64 "0"%char);
  pds_source := PERSISTED |}.
Definition frontier_world : World :=
  {| w_db := {| db_runs := {[ 1%N := sample_run 1%N ]};
                db_tasks := list_to_map ((λ t, ((1%N, t), sample_task 1%N t)) <$> ["a"; "b"; "c"]);
                db_events := []; db_next_event_id := 1 |};
     w_attempts := ∅; w_evidence := []; w_sent := [] |}.
Definition sample_merge_read (_ : JSON) : result MergeQueueSnapshot := invalid "MergeQueueSnapshot".
Definition attempt_env (_ : UUID) (_ : string) : Env * Env * Env * broker_reply :=
  (lease_env 5 77%N 78%N, lease_env 6 79%N 80%N, lease_env 7 81%N 82%N, Accepted "m-1").
Definition small_reconciler : Reconciler World := {|
  dr_load_run := λ _ _, Ok frontier_snapshot;
  dr_load_dag := λ _ _, Ok small_pd;
  dr_list_task_leases := λ run w, (list_task_leases (lease_env 4 1%N 2%N) run (w_db w)).1;
  dr_resolve := λ snapshot t _,
    resolve sample_read sample_merge_read (λ _, Ok small_pd) None snapshot t;
  dr_read_execution := sample_read; dr_read_dispatch := sample_read_dispatch;
  dr_reconcile := durable_reconcile sample_sha256 sample_read sample_read_dispatch attempt_env "tasks";
  dr_gate_allowed := None; dr_max_concurrent_tasks := Some 1 |}.
#[local] Notation small_admission := (admission small_reconciler 1%N frontier_world).

Example small_admission_example :
  match small_admission with
  | Ok (plan, admitted) => drp_reconcile_task_ids plan = ["a"; "b"] ∧ admitted = ["b"]
  | Raise _ => False
  end.
Proof. vm_compute. done. Qed.

(** Witnesses over it. *)
Lemma small_recovery :
  ∃ leases recovery, dr_list_task_leases small_reconciler 1%N frontier_world = Ok leases
  ∧ classify sample_read sample_read_dispatch frontier_snapshot leases = Ok recovery
  ∧ NoDup (tra_task_id <$> rrp_tasks recovery)
  ∧ ∃ plan, build_plan (λ t, dr_resolve small_reconciler frontier_snapshot t frontier_world)
              frontier_snapshot small_pd recovery = Ok plan ∧ drp_reconcile_task_ids plan = ["a"; "b"].
Proof.
  destruct (dr_list_task_leases small_reconciler 1%N frontier_world) as [leases|e] eqn:H1;
    [|vm_compute in H1; discriminate H1].
  exists leases. vm_compute in H1. injection H1 as <-.
  match goal with |- ∃ r, _ ∧ ?c = _ ∧ _ => destruct c as [recovery|e] eqn:H2 end;
    [|vm_compute in H2; discriminate H2].
  exists recovery. vm_compute in H2. injection H2 as <-. split; [reflexivity|]. split; [reflexivity|].
  split; [by_compute|]. eexists. split; vm_compute; reflexivity.
Defined.
Lemma build_plan_correct_witness :
  ∃ recovery, NoDup (tra_task_id <$> rrp_tasks recovery)
  ∧ delegable small_dag recovery frontier_snapshot
      (λ t, dr_resolve small_reconciler frontier_snapshot t frontier_world) "b".
Proof.
  destruct small_recovery as (leases & recovery & _ & _ & Hnd & plan & H & Hids).
  exists recovery. split; [exact Hnd|].
  apply (build_plan_correct _ _ small_pd recovery plan small_dag_valid Hnd H).
  rewrite Hids. by_compute.
Defined.
Lemma admission_correct_witness :
  ∃ plan, small_admission = Ok (plan, ["b"]) ∧ (length (highs small_dag ["b"]) <= 1)%nat.
Proof.
  destruct small_admission as [[plan admitted]|e] eqn:H; [|vm_compute in H; discriminate H].
  assert (admitted = ["b"]) as ->. { vm_compute in H. congruence. }
  exists plan. split; [reflexivity|].
  destruct (admission_correct small_reconciler 1%N frontier_world plan ["b"] H)
    as (snapshot & pd & leases & recovery & [_ Hpd _ _ _] & Hall).
  cbn in Hpd. injection Hpd as <-. apply (Hall small_dag_valid).
Defined.
#[local] Notation small_outcomes :=
  (reconcile_each small_reconciler 1%N ["b"] frontier_world).
Lemma partial_admission_raises_witness :
  ∃ msg, reconcile_run small_reconciler 1%N frontier_world = (Raise (Exn ValidationError msg), small_outcomes.2)
  ∧ (tde_task_id <$> w_sent small_outcomes.2) = ["b"].
Proof.
  destruct small_admission as [[plan admitted]|e] eqn:H; [|vm_compute in H; discriminate H].
  assert (admitted = ["b"] ∧ drp_reconcile_task_ids plan = ["a"; "b"]) as [-> Hp].
  { vm_compute in H. injection H as <- <-. done. }
  destruct small_outcomes as [[outcomes|e] w] eqn:H2; [|vm_compute in H2; discriminate H2].
  destruct (partial_admission_raises small_reconciler 1%N frontier_world plan ["b"] outcomes w H H2)
    as [_ Hraise].
  { vm_compute in H2. injection H2 as <- _. reflexivity. }
  destruct Hraise as [msg Hm]; [by rewrite Hp|]. exists msg. split; [exact Hm|].
  vm_compute in H2. injection H2 as _ <-. reflexivity.
Defined.
Lemma run_reconciliation_publishes_once_witness :
  NoDup (tde_dispatch_id <$> w_sent (reconcile_run small_reconciler 1%N frontier_world).2).
Proof.
  apply (run_reconciliation_publishes_once sample_sha256 sample_read sample_read_dispatch attempt_env
    "tasks" small_reconciler 1%N frontier_world [] (reconcile_run small_reconciler 1%N frontier_world).1);
    [reflexivity| |apply surjective_pairing].
  exists frontier_world. split; [done|constructor].
Defined.

(** Ten roots with long names, all succeeded, and a task that depends on them;
    the accepted integration history is still empty. *)
Definition long_id (n : nat) : string := of_chars (replicate 119 "x"%char) +:+ str_of_Z (Z.of_nat n).
Definition long_ids : list string := long_id <$> seq 0 10.
Definition wide_dag : TaskDAG :=
  {| tasks := ((λ t, ranked_node t [] LOW) <$> long_ids) ++ [ranked_node "z" long_ids LOW] |}.
#[export] Instance wide_dag_valid : ValidDag wide_dag.
Proof.
  apply (valid_dag_of wide_dag) with (l := long_ids ++ ["z"]); [|vm_compute; reflexivity].
  apply (TaskDAG_new_inv (tasks wide_dag)); [by apply nodup_by_compute|by vm_compute].
Defined.
Definition evidence_row (id : Z) (t : option string) (k : PersistenceEvidenceKind) (payload : JSON)
    : PersistedEvidence := {|
  pe_id := id; pe_run_id := 1%N; pe_task_id := t; pe_evidence_key := "k"; pe_kind := k;
  pe_stage := None; pe_sequence := None; pe_schema_version := 1; pe_payload := payload;
  pe_payload_sha256 := of_chars (replicate 64 "0"%char); pe_created_at := 30 |}.
Definition with_history (evidence : list PersistedEvidence) : PersistedRunSnapshot := {|
  prs_run_id := 1%N; prs_project_id := 2%N; prs_repository_url := "r"; prs_default_branch := "main";
  prs_base_commit := commit_id 1; prs_status := PRS_RUNNING;
  prs_display_status := "RUNNING"; prs_recovery_reason := None; prs_recovery_checked_at := None;
  prs_tasks := recovery_task <$> ["a"; "b"; "c"]; prs_evidence := evidence;
  prs_terminal_result := None; prs_terminal_result_sha256 := None; prs_started_at := 0;
  prs_finished_at := None |}.
Definition empty_history : MergeQueueSnapshot := {|
  mqs_integration_ref := "refs/devflow/integration/r"; mqs_run_base_commit := commit_id 1;
  mqs_head_commit := commit_id 1; mqs_integrated_task_ids := []; mqs_attempts := [];
  mqs_stopped := false |}.
Definition wide_pd : PersistedDAGSnapshot := {|
  pds_run_id := 1%N; pds_dag := wide_dag; pds_dag_sha256 := of_chars (replicate 64 "0"%char);
  pds_source := PERSISTED |}.
Definition wide_snapshot : PersistedRunSnapshot := with_history [evidence_row 1 None MERGE_QUEUE_SNAPSHOT JNull].
Definition assess (st : option WorkerExecutionStatus) (t : string) : TaskRecoveryAssessment := {|
  tra_run_id := 1%N; tra_task_id := t; tra_disposition := BLOCKED_UNOWNED_DISPATCH_AMBIGUITY;
  tra_lease_state := UNOWNED; tra_lease_generation := 0; tra_lease_dispatch_id := None;
  tra_observed_at := 5; tra_worker_execution_status := st;
  tra_worker_execution_evidence_id := (λ _, 1) <$> st; tra_reason := "r" |}.
Definition wide_recovery : RunRecoveryPlan := {|
  rrp_run_id := 1%N; rrp_run_status := PRS_RUNNING; rrp_observed_at := 5;
  rrp_tasks := (assess (Some WE_SUCCEEDED) <$> long_ids) ++ [assess None "z"] |}.
Definition wide_resolve : string → result TaskExecutionBase :=
  resolve sample_read (λ _, Ok empty_history) (λ _, Ok wide_pd) None wide_snapshot.
Lemma long_waits_break_plan_witness : ∃ e, build_plan wide_resolve wide_snapshot wide_pd wide_recovery = Raise e.
Proof.
  apply (long_waits_break_plan wide_resolve wide_snapshot wide_pd wide_recovery "z" (assess None "z")
           (set_of long_ids) wide_dag_valid); try by_compute.
  - split; [|reflexivity]. apply elem_of_app. right. by left.
  - intros u Hu. exists (assess (Some WE_SUCCEEDED) u). split; [|reflexivity]. split; [|reflexivity].
    apply elem_of_app. left. apply list_elem_of_fmap_2.
    change (u ∈ (list_to_set long_ids : gset string)) in Hu. by apply elem_of_list_to_set in Hu.
Defined.

(** Task [a] succeeded and is integrated; [c] starts from the integration. *)
Definition succeeded_a : WorkerExecutionEvidence := {|
  we_dispatch_id := 5%N; we_run_id := 1%N; we_task_id := "a"; we_status := WE_SUCCEEDED;
  we_base_commit := commit_id 1; we_branch_name := None; we_commit_sha := Some (commit_id 2);
  we_checkpoint := None; we_continuation := None;
  we_run_result := Some {|
    sr_task_id := "a"; sr_status := RUN_SUCCEEDED; sr_events := []; sr_developer := None;
    sr_verifications := []; sr_reviews := []; sr_repairs := []; sr_failures := [];
    sr_changed_files := []; sr_repair_attempts := 0; sr_agent_models := []; sr_agent_usage := [];
    sr_context_state := None |};
  we_failures := []; we_duration_ms := 5 |}.
Definition a_integrated : MergeQueueSnapshot := {|
  mqs_integration_ref := "refs/devflow/integration/r"; mqs_run_base_commit := commit_id 1;
  mqs_head_commit := commit_id 5; mqs_integrated_task_ids := ["a"];
  mqs_attempts := [sample_attempt 0 "a" (commit_id 1) INTEGRATED (Some (commit_id 5))];
  mqs_stopped := false |}.
Definition a_snapshot : PersistedRunSnapshot :=
  with_history [evidence_row 1 (Some "a") WORKER_EXECUTION JNull;
                evidence_row 2 None MERGE_QUEUE_SNAPSHOT JNull].
#[local] Notation resolve_c :=
  (resolve (λ _, Ok succeeded_a) (λ _, Ok a_integrated) (λ _, Ok small_pd) None a_snapshot "c").
Lemma execution_base_correct_witness :
  ∃ base, resolve_c = Ok base ∧ teb_run_id base = 1%N ∧ teb_task_id base = "c"
  ∧ teb_commit_sha base = commit_id 5.
Proof.
  destruct resolve_c as [base|e] eqn:H; [|vm_compute in H; discriminate H].
  exists base. split; [reflexivity|].
  destruct (execution_base_correct _ _ _ _ _ _ _ H) as (pd & n & _ & _ & Hr & Ht & _).
  split; [exact Hr|]. split; [exact Ht|]. vm_compute in H. injection H as <-. reflexivity.
Defined.
