(* ===== verification/Git.v ===== *)
(** * Git: subprocesses, paths and the managed workspace

    The machine the code runs on is a parameter: what one [git] subprocess
    answers and does, and what the file system says about a path.  On top of
    it, [LocalGitWorkspace] of [workspace/git.py] without the diff text
    ([unified_diff], [change_snapshot]).  Paths are absolute POSIX strings;
    [Path(p).resolve()] is an operation of the machine. *)
From stdpp Require Import options.
From S2P Require Import Prelude Contracts.
Open Scope Z_scope.

(** [subprocess.CompletedProcess], and the ways [subprocess.run] ends. *)
Record CompletedProcess : Set := {
  returncode : Z;
  stdout : string;
  stderr : string;
}.
Inductive process_result : Set :=
  | Finished (c : CompletedProcess)
  | ExecutableNotFound
  | TimeoutExpired.

Class Machine : Type := {
  Host : Type;
  (** [git -C root args] with the given variables added to the environment. *)
  run_git : string → list (string * string) → list string → Host → process_result * Host;
  path_resolve : Host → string → string;
  path_is_symlink : Host → string → bool;
  path_exists : Host → string → bool;
  path_is_dir : Host → string → bool;
}.

(** [str.splitlines()] *)
Definition is_line_break (c : ascii) : bool :=
  let n := nat_of_ascii c in
  ((10 <=? n) && (n <=? 13) || (28 <=? n) && (n <=? 30) || (n =? 133))%nat.
Fixpoint split_lines (cur l : list ascii) : list (list ascii) :=
  match l with
  | [] => match cur with [] => [] | _ => [reverse cur] end
  | c :: l' =>
      if is_line_break c then
        match l' with
        | d :: l'' =>
            if (nat_of_ascii c =? 13)%nat && (nat_of_ascii d =? 10)%nat
            then reverse cur :: split_lines [] l''
            else reverse cur :: split_lines [] l'
        | [] => [reverse cur]
        end
      else split_lines (c :: cur) l'
  end.
Definition splitlines (s : string) : list string := of_chars <$> split_lines [] (chars s).
(** [str.split()] *)
Fixpoint split_space (cur l : list ascii) : list (list ascii) :=
  let flush := match cur with [] => [] | _ => [reverse cur] end in
  match l with
  | [] => flush
  | c :: l => if is_py_space c then flush ++ split_space [] l else split_space (c :: cur) l
  end.
Definition split (s : string) : list string := of_chars <$> split_space [] (chars s).

(** [PurePosixPath(p).parts] of a relative path, and [relative_to]. *)
Definition path_parts (p : string) : list string :=
  filter (λ s, negb (bool_decide (s = "") || bool_decide (s = "."))) (split_on "/" p).
Definition path_join (p part : string) : string := p +:+ "/" +:+ part.
Definition is_relative_to (p root : string) : bool :=
  bool_decide (take (length (path_parts root)) (path_parts p) = path_parts root).

Section workspace.
Context `{Machine}.

(** The common shape of the [_git] helpers: the two failures to run at all
    have messages of their own. *)
Definition git_command (error : exn_class) (missing timeout root : string)
    (env : list (string * string)) (arguments : list string) : M Host CompletedProcess := λ h,
  match run_git root env arguments h with
  | (Finished c, h') => (Ok c, h')
  | (ExecutableNotFound, h') => (raise error missing, h')
  | (TimeoutExpired, h') => (raise error timeout, h')
  end.

Definition reading_host {A} (f : Host → A) : M Host A := λ h, (Ok (f h), h).

(** ** [LocalGitWorkspace] *)
Record LocalGitWorkspace : Set := { ws_root : string }.
Implicit Types self : LocalGitWorkspace.

Definition _git_completed self (arguments : list string) : M Host CompletedProcess :=
  git_command WorkspaceGitError "git executable is not available"
    "git command exceeded the workspace timeout" (ws_root self) [] arguments.
Definition workspace_git self (arguments : list string) (must_succeed : bool) : M Host string :=
  completed ← _git_completed self arguments;
  if must_succeed && negb (returncode completed =? 0) then
    let text := strip (stderr completed) in
    throw WorkspaceGitError
      ("git command failed: " +:+ (if bool_decide (text = "") then "unknown git error" else text))
  else mret (stdout completed).
Definition nul : ascii := ascii_of_nat 0.
Definition _split_nul (value : string) : list string :=
  filter (λ s, s ≠ "") (split_on nul value).

Definition _assert_repository self : M Host unit :=
  inside ← workspace_git self ["rev-parse"; "--is-inside-work-tree"] false;
  ensure (bool_decide (strip inside = "true")) WorkspaceGitError
    "workspace root is not inside a Git working tree" ;;
  output ← workspace_git self ["rev-parse"; "--show-toplevel"] false;
  let top_level := strip output in
  resolved ← reading_host (λ h, path_resolve h top_level);
  ensure (negb (bool_decide (top_level = "")) && bool_decide (resolved = ws_root self))
    WorkspaceGitError "workspace root must be the Git repository top level".
Definition _assert_head self : M Host unit :=
  result ← workspace_git self ["rev-parse"; "--verify"; "HEAD"] false;
  ensure (negb (bool_decide (strip result = ""))) WorkspaceGitError
    "workspace repository must have a valid HEAD commit".
(** [LocalGitWorkspace(root)] for a path already expanded. *)
Definition LocalGitWorkspace_init (root : string) : M Host LocalGitWorkspace :=
  resolved_root ← reading_host (λ h, path_resolve h root);
  directory ← reading_host (λ h, path_is_dir h resolved_root);
  ensure directory ValueError "workspace root must be an existing directory" ;;
  let self := {| ws_root := resolved_root |} in
  _assert_repository self ;;
  _assert_head self ;;
  mret self.

(** The loop of [resolve_path] over the parts of the path. *)
Fixpoint walk_parts (h : Host) (current : string) (parts : list string) : result string :=
  match parts with
  | [] => Ok current
  | part :: parts =>
      let current := path_join current part in
      check (negb (path_is_symlink h current)) ValueError
        "repository path resolves outside the trusted path boundary or traverses symbolic links" ;;
      walk_parts h current parts
  end.
Definition resolve_path self (repository_path : string) (h : Host) : result string :=
  let normalized := strip repository_path in
  check (negb (bool_decide (normalized = ""))) ValueError "repository path must not be empty" ;;
  check (negb (in_string "\"%char normalized)) ValueError
    "repository path must use POSIX-style '/' separators" ;;
  check (negb (bool_decide (chars normalized !! 1%nat = Some ":"%char))) ValueError
    "repository path must not contain a Windows drive prefix" ;;
  check (negb (str_startswith "/" normalized)) ValueError "repository path must be relative" ;;
  let parts := path_parts normalized in
  check (negb (bool_decide (normalized = ".") || bool_decide (".." ∈ parts))) ValueError
    "repository path must remain inside the workspace" ;;
  check (negb (bool_decide (head parts = Some ".git"))) ValueError
    "repository path must not access .git internals" ;;
  current ← walk_parts h (ws_root self) parts;
  let candidate := path_resolve h current in
  check (is_relative_to candidate (ws_root self)) ValueError
    "repository path resolves outside the workspace" ;;
  Ok candidate.

Definition head_commit self : M Host string :=
  output ← workspace_git self ["rev-parse"; "--verify"; "HEAD"] true;
  let commit := strip output in
  ensure (negb (bool_decide (commit = ""))) WorkspaceGitError
    "workspace repository does not have a resolvable HEAD commit" ;;
  mret commit.
Definition has_commit self (commit : string) : M Host bool :=
  let normalized := lower (strip commit) in
  if negb (hex_string is_lower_hex 40 64 normalized) then mret false
  else
    completed ← _git_completed self ["cat-file"; "-e"; normalized +:+ "^{commit}"];
    mret (returncode completed =? 0).
Definition untracked_files self : M Host (list string) :=
  output ← workspace_git self ["ls-files"; "--others"; "--exclude-standard"; "-z"; "--"] true;
  mret (_split_nul output).
Definition tracked_files self : M Host (list string) :=
  output ← workspace_git self ["ls-files"; "-z"; "--cached"; "--"] true;
  mret (sorted_set (list_to_set (_split_nul output))).
Definition repository_files self : M Host (list string) :=
  tracked ← tracked_files self;
  untracked ← untracked_files self;
  mret (sorted_set (list_to_set tracked ∪ list_to_set untracked)).
Definition changed_files self : M Host (list string) :=
  output ← workspace_git self ["diff"; "--no-renames"; "--name-only"; "-z"; "HEAD"; "--"] true;
  untracked ← untracked_files self;
  mret (sorted_set (list_to_set (_split_nul output) ∪ list_to_set untracked)).
End workspace.

(** ** Paths stay inside the workspace *)
Lemma split_chars_sep sep a b : split_chars sep (a ++ sep :: b) = split_chars sep a ++ split_chars sep b.
Proof.
  induction a as [|c a IH]; cbn; [by destruct (decide _)|]. rewrite IH. destruct (decide (c = sep)); [done|].
  destruct (split_chars sep a) as [|w ws] eqn:E; [|done].
  by destruct a as [|d a]; cbn in E; [|destruct (decide _); [|destruct (split_chars sep a)]].
Qed.
Lemma path_parts_slash p q : path_parts (p +:+ "/" +:+ q) = path_parts p ++ path_parts q.
Proof.
  unfold path_parts, split_on. rewrite <- filter_app, <- fmap_app, <- split_chars_sep.
  by rewrite !chars_app.
Qed.
Definition joined (root : string) (parts : list string) : string := foldl path_join root parts.

(** A part of a path is a path of one part. *)
Definition one_part (s : string) : Prop := path_parts s = [s].
Lemma split_chars_no_sep sep l : Forall (λ w, sep ∉ w) (split_chars sep l).
Proof.
  induction l as [|c l IH]; cbn; [by repeat constructor; apply not_elem_of_nil|].
  destruct (decide (c = sep)); [constructor; [apply not_elem_of_nil|done]|].
  destruct (split_chars sep l) as [|w ws]; [repeat constructor; set_solver|].
  apply Forall_cons in IH as [? ?]. constructor; [set_solver|done].
Qed.
Lemma split_chars_none sep w : sep ∉ w → split_chars sep w = [w].
Proof.
  induction w as [|c w IH]; cbn; [done|]. intros Hw. rewrite decide_False by set_solver.
  by rewrite IH by set_solver.
Qed.
Lemma path_parts_one text : Forall one_part (path_parts text).
Proof.
  apply Forall_forall. intros s. unfold path_parts at 1. intros [Hs Hin]%list_elem_of_filter.
  unfold split_on in Hin. apply list_elem_of_fmap in Hin as (w & -> & Hw).
  pose proof (split_chars_no_sep "/" (chars text)) as Hall. rewrite Forall_forall in Hall.
  unfold one_part, path_parts, split_on. rewrite chars_of_chars, split_chars_none by by apply Hall.
  cbn [fmap list_fmap]. by rewrite filter_cons_True.
Qed.
Lemma path_parts_joined root parts : Forall one_part parts → path_parts (joined root parts) = path_parts root ++ parts.
Proof.
  unfold joined. revert root. induction parts as [|s parts IH]; intros root; cbn [foldl]; [by rewrite app_nil_r|].
  intros [Hs Hall]%Forall_cons. rewrite IH by done. unfold path_join. rewrite path_parts_slash, Hs, <- (assoc_L (++)). done.
Qed.
Lemma path_parts_join parts : Forall one_part parts → path_parts (join "/" parts) = parts.
Proof.
  induction 1 as [|s parts Hs Hall IH]; [done|]. destruct parts as [|t parts]; [exact Hs|].
  cbn [join]. cbn [join] in IH. rewrite path_parts_slash, Hs. f_equal. exact IH.
Qed.

Lemma walk_parts_spec `{Machine} h parts : ∀ current,
  (walk_parts h current parts = Ok (joined current parts)
   ∧ ∀ k, (k < length parts)%nat → path_is_symlink h (joined current (take (S k) parts)) = false)
  ∨ (∃ e, walk_parts h current parts = Raise e ∧ exn_kind e = ValueError
     ∧ ∃ k, (k < length parts)%nat ∧ path_is_symlink h (joined current (take (S k) parts)) = true).
Proof.
  induction parts as [|p parts IH]; intros current; cbn [walk_parts].
  { left. split; [done|]. cbn. lia. }
  destruct (path_is_symlink h (path_join current p)) eqn:Hp; cbn.
  { right. eexists. split_and!; [done|done|]. exists 0%nat. split; [lia|done]. }
  destruct (IH (path_join current p)) as [[Hw Hl]|(e & Hw & He & k & Hk & Hl)].
  - left. split; [done|]. intros [|k] Hk; [done|]. apply Hl. lia.
  - right. exists e. split_and!; [done|done|]. exists (S k). split; [lia|done].
Qed.

Ltac step := cbn [negb andb orb check mbind result_bind raise exn_kind].

(** The conditions on the text of a path. *)
Definition path_text_ok (text : string) : bool :=
  negb (bool_decide (text = "")) && negb (in_string "\"%char text)
  && negb (bool_decide (chars text !! 1%nat = Some ":"%char)) && negb (str_startswith "/" text)
  && negb (bool_decide (text = ".")) && negb (bool_decide (".." ∈ path_parts text))
  && negb (bool_decide (head (path_parts text) = Some ".git")).

Lemma resolve_path_spec `{Machine} self path h :
  match resolve_path self path h with
  | Ok candidate =>
      path_text_ok (strip path) = true
      ∧ (∀ k, (k < length (path_parts (strip path)))%nat →
           path_is_symlink h (joined (ws_root self) (take (S k) (path_parts (strip path)))) = false)
      ∧ candidate = path_resolve h (joined (ws_root self) (path_parts (strip path)))
      ∧ is_relative_to candidate (ws_root self) = true
  | Raise e =>
      exn_kind e = ValueError
      ∧ (path_text_ok (strip path) = false
         ∨ (∃ k, (k < length (path_parts (strip path)))%nat
              ∧ path_is_symlink h (joined (ws_root self) (take (S k) (path_parts (strip path)))) = true)
         ∨ is_relative_to (path_resolve h (joined (ws_root self) (path_parts (strip path))))
             (ws_root self) = false)
  end.
Proof.
  unfold resolve_path, path_text_ok. set (text := strip path).
  destruct (bool_decide (text = "")); step; [by auto|].
  destruct (in_string "\"%char text); step; [by auto|].
  destruct (bool_decide (chars text !! 1%nat = Some ":"%char)); step; [by auto|].
  destruct (str_startswith "/" text); step; [by auto|].
  destruct (bool_decide (text = ".")); step; [by auto|].
  destruct (bool_decide (".." ∈ path_parts text)); step; [by auto|].
  destruct (bool_decide (head (path_parts text) = Some ".git")); step; [by auto|].
  destruct (walk_parts_spec h (path_parts text) (ws_root self)) as [[-> Hl]|(e & -> & He & Hl)];
    step; [|by eauto].
  destruct (is_relative_to _ _) eqn:Hr; step; [by auto|]. by auto.
Qed.

(** What an accepted path is. *)
Lemma resolve_path_Ok `{Machine} self path h candidate :
  resolve_path self path h = Ok candidate →
  path_text_ok (strip path) = true
  ∧ (∀ k, (k < length (path_parts (strip path)))%nat →
       path_is_symlink h (joined (ws_root self) (take (S k) (path_parts (strip path)))) = false)
  ∧ candidate = path_resolve h (joined (ws_root self) (path_parts (strip path)))
  ∧ is_relative_to candidate (ws_root self) = true.
Proof.
  intros Hr. pose proof (resolve_path_spec self path h) as Hs. rewrite Hr in Hs. tauto.
Qed.
Lemma resolve_path_Raise `{Machine} self path h e :
  resolve_path self path h = Raise e → exn_kind e = ValueError.
Proof.
  intros Hr. pose proof (resolve_path_spec self path h) as Hs. rewrite Hr in Hs. tauto.
Qed.

(** [resolve_path] accepts a path exactly when its text is a relative
    POSIX path without [..], outside [.git] and without a drive prefix, no
    component on the way is a symbolic link, and the resolved path lies inside
    the workspace; it then returns the resolved path, and otherwise raises
    [ValueError]. *)
Theorem resolve_path_correct `{Machine} self path h :
  match resolve_path self path h with
  | Ok candidate =>
      path_text_ok (strip path) = true
      ∧ (∀ k, (k < length (path_parts (strip path)))%nat →
           path_is_symlink h (joined (ws_root self) (take (S k) (path_parts (strip path)))) = false)
      ∧ candidate = path_resolve h (joined (ws_root self) (path_parts (strip path)))
      ∧ is_relative_to candidate (ws_root self) = true
  | Raise e =>
      exn_kind e = ValueError
      ∧ (path_text_ok (strip path) = false
         ∨ (∃ k, (k < length (path_parts (strip path)))%nat
              ∧ path_is_symlink h (joined (ws_root self) (take (S k) (path_parts (strip path)))) = true)
         ∨ is_relative_to (path_resolve h (joined (ws_root self) (path_parts (strip path))))
             (ws_root self) = false)
  end.
Proof. apply resolve_path_spec. Qed.
