(* ===== verification/Worktree.v ===== *)
(** * Worktree: one isolated linked worktree per task

    [workspace/worktree.py]: [TaskWorktreeManager] over the machine of [Git].
    The branch and the path of a task are a function of its id alone.
    Creating the root directory and the checks on it in [__init__] concern
    the file system only and are not modelled; SHA-256 is a parameter. *)
From stdpp Require Import options.
From S2P Require Import Prelude Contracts RunModels Git.
Open Scope Z_scope.

Record TaskWorktreeRecord : Set := {
  twr_task_id : string;
  twr_base_commit : string;
  twr_branch_name : string;
  twr_path : string;
}.
Record _RegisteredWorktree : Set := {
  rw_path : string;
  rw_head : option string;
  rw_branch_ref : option string;
  rw_locked_reason : option string;
  rw_prunable_reason : option string;
}.
Record TaskWorktreeManager : Set := {
  twm_base_workspace : LocalGitWorkspace;
  twm_root : string;
  twm_base_commit : string;
}.

Definition full_commit (s : string) : bool := hex_string is_any_hex 40 64 s.
Definition _BRANCH_NAMESPACE : string := "devflow/task".
Definition _validate_task_id (task_id : string) : result string :=
  check (negb (bool_decide (task_id = "")) && bool_decide (task_id = strip task_id)
         && (str_len task_id <=? 128)%nat && matches_id_pattern task_id) ValueError
    "task_id must use the TaskContract task_id format" ;;
  Ok task_id.

(** [re.sub(r"[^A-Za-z0-9_-]+", "-", s)] *)
Definition is_slug_char (c : ascii) : bool :=
  is_alnum c || bool_decide (c = "_"%char) || bool_decide (c = "-"%char).
Fixpoint sub_runs (in_run : bool) (l : list ascii) : list ascii :=
  match l with
  | [] => []
  | c :: l =>
      if is_slug_char c then c :: sub_runs false l
      else if in_run then sub_runs true l else "-"%char :: sub_runs true l
  end.
(** [s.strip("-_")] *)
Fixpoint drop_dashes (l : list ascii) : list ascii :=
  match l with
  | c :: l' => if bool_decide (c = "-"%char) || bool_decide (c = "_"%char) then drop_dashes l' else l
  | [] => []
  end.
Definition strip_dashes (l : list ascii) : list ascii :=
  reverse (drop_dashes (reverse (drop_dashes l))).
Definition task_slug (normalized : string) : string :=
  let slug := lower (of_chars (strip_dashes (sub_runs false (chars normalized)))) in
  str_take 48 (if bool_decide (slug = "") then "task" else slug).

(** What the merge queue uses of a worktree manager: the run base and the
    identity of a task's branch and path.  [TaskWorktreeManager] and
    [GenerationBoundWorktreeView] provide it; both promise branch names that
    fit an integration record. *)
Record WorktreeView `{Machine} : Type := {
  view_base_commit : string;
  view_record_for : string → option string → M Host TaskWorktreeRecord;
}.
Class WorktreeViewLaws `{Machine} (v : WorktreeView) : Prop := {
  view_base_ok : text_ok 40 64 (view_base_commit v) = true;
  view_branch_ok t base h record h' :
    view_record_for v t base h = (Ok record, h') → text_ok 1 512 (twr_branch_name record) = true;
}.

Section manager.
Context `{Machine}.
Context (sha256 : string → string).
Implicit Types self : TaskWorktreeManager.

Definition task_digest (normalized : string) : string := str_take 12 (sha256 normalized).
Definition branch_for (task_id : string) : string :=
  _BRANCH_NAMESPACE +:+ "/" +:+ task_slug task_id +:+ "-" +:+ task_digest task_id.

Definition worktree_git_at (root : string) (env : list (string * string)) (arguments : list string)
    (must_succeed : bool) : M Host CompletedProcess :=
  completed ← git_command TaskWorktreeError "git executable is not available"
                "git worktree command exceeded the configured timeout" root env arguments;
  if must_succeed && negb (returncode completed =? 0) then
    let err := strip (Git.stderr completed) in
    let out := strip (Git.stdout completed) in
    throw TaskWorktreeError ("git worktree command failed: "
      +:+ (if negb (bool_decide (err = "")) then err
           else if negb (bool_decide (out = "")) then out else "unknown git error"))
  else mret completed.
Definition worktree_git self (arguments : list string) (must_succeed : bool) : M Host CompletedProcess :=
  worktree_git_at (ws_root (twm_base_workspace self)) [] arguments must_succeed.
Definition _commit_environment : list (string * string) :=
  [("GIT_AUTHOR_NAME", "DevFlow"); ("GIT_AUTHOR_EMAIL", "devflow@local.invalid");
   ("GIT_COMMITTER_NAME", "DevFlow"); ("GIT_COMMITTER_EMAIL", "devflow@local.invalid")].

(** The part of [__init__] that talks to Git. *)
Definition _freeze_base_commit (base_workspace : LocalGitWorkspace) (current_head : string)
    (requested : option string) : M Host string :=
  match requested with
  | None => mret current_head
  | Some requested =>
      let git args := worktree_git_at (ws_root base_workspace) [] args false in
      ensure (full_commit requested) ValueError
        "frozen base commit must be a full 40-64 character hexadecimal id" ;;
      resolved ← git ["rev-parse"; "--verify"; requested +:+ "^{commit}"];
      let canonical := strip (Git.stdout resolved) in
      ensure ((returncode resolved =? 0) && full_commit canonical) TaskWorktreeError
        "frozen base commit does not exist in the repository" ;;
      ancestor ← git ["merge-base"; "--is-ancestor"; canonical; current_head];
      if returncode ancestor =? 0 then mret canonical
      else
        ensure (returncode ancestor =? 1) TaskWorktreeError
          "Git could not validate frozen base ancestry" ;;
        descendant ← git ["merge-base"; "--is-ancestor"; current_head; canonical];
        if returncode descendant =? 0 then mret canonical
        else
          ensure (returncode descendant =? 1) TaskWorktreeError
            "Git could not validate frozen base ancestry" ;;
          throw TaskWorktreeError
            "frozen base commit must remain on the managed repository HEAD ancestry"
  end.
Definition TaskWorktreeManager_init (base_workspace : LocalGitWorkspace) (resolved_root : string)
    (frozen_base_commit : option string) : M Host TaskWorktreeManager :=
  dirty ← changed_files base_workspace;
  ensure (bool_decide (dirty = [])) TaskWorktreeError
    "base workspace must be clean before freezing a worktree base" ;;
  ensure (negb (is_relative_to resolved_root (ws_root base_workspace))) ValueError
    "worktree root must be outside the base repository" ;;
  head ← worktree_git_at (ws_root base_workspace) [] ["rev-parse"; "--verify"; "HEAD^{commit}"] true;
  let current_head := strip (Git.stdout head) in
  ensure (full_commit current_head) TaskWorktreeError
    "Git did not return a full immutable base commit id" ;;
  base_commit ← _freeze_base_commit base_workspace current_head frozen_base_commit;
  mret {| twm_base_workspace := base_workspace; twm_root := resolved_root;
          twm_base_commit := base_commit |}.

Definition _resolve_task_base self (requested : option string) : M Host string :=
  match requested with
  | None => mret (twm_base_commit self)
  | Some requested =>
      ensure (full_commit requested) ValueError
        "task base commit must be a full 40-64 character hexadecimal id" ;;
      resolved ← worktree_git self ["rev-parse"; "--verify"; requested +:+ "^{commit}"] false;
      let canonical := strip (Git.stdout resolved) in
      ensure ((returncode resolved =? 0) && full_commit canonical) TaskWorktreeError
        "requested task base commit does not exist in the repository" ;;
      ancestry ← worktree_git self
        ["merge-base"; "--is-ancestor"; twm_base_commit self; canonical] false;
      ensure (negb (returncode ancestry =? 1)) TaskWorktreeError
        "requested task base commit must descend from the frozen run base" ;;
      ensure (returncode ancestry =? 0) TaskWorktreeError
        "Git could not validate the requested task base ancestry" ;;
      mret canonical
  end.
Definition _validate_branch_name self (branch_name : string) : M Host unit :=
  result ← worktree_git self ["check-ref-format"; "--branch"; branch_name] false;
  ensure (returncode result =? 0) TaskWorktreeError
    ("generated invalid Git task branch name: " +:+ branch_name).
Definition record_for self (task_id : string) (base_commit : option string)
    : M Host TaskWorktreeRecord :=
  normalized ← lift (_validate_task_id task_id);
  task_base ← _resolve_task_base self base_commit;
  let branch_name := branch_for normalized in
  let path := path_join (twm_root self) (task_slug normalized +:+ "-" +:+ task_digest normalized) in
  _validate_branch_name self branch_name ;;
  mret {| twr_task_id := normalized; twr_base_commit := task_base; twr_branch_name := branch_name;
          twr_path := path |}.

Definition manager_view self : WorktreeView :=
  {| view_base_commit := twm_base_commit self; view_record_for := record_for self |}.
Lemma str_len_take n s : (str_len (str_take n s) ≤ n)%nat.
Proof. unfold str_take. rewrite str_len_of_chars, length_take. lia. Qed.
Lemma branch_for_length t : (1 ≤ str_len (branch_for t) ≤ 74)%nat.
Proof.
  unfold branch_for, task_slug, task_digest. rewrite !str_len_app.
  pose proof (str_len_take 12 (sha256 t)).
  change (str_len _BRANCH_NAMESPACE) with 12%nat. change (str_len "/") with 1%nat.
  change (str_len "-") with 1%nat.
  match goal with |- context [str_take 48 ?s] => pose proof (str_len_take 48 s) end. lia.
Qed.
(** What a record says. *)
Lemma record_for_inv self t base h record h' :
  record_for self t base h = (Ok record, h') →
  _validate_task_id t = Ok t ∧ twr_task_id record = t ∧ twr_branch_name record = branch_for t
  ∧ twr_path record = path_join (twm_root self) (task_slug t +:+ "-" +:+ task_digest t).
Proof.
  intros Hr. unfold record_for in Hr. inv_monad.
  assert (a = t) as ->. { unfold _validate_task_id in H0. inv_monad. done. }
  injection Hr as <- <-. done.
Qed.
#[export] Instance manager_view_laws self :
  full_commit (twm_base_commit self) = true → WorktreeViewLaws (manager_view self).
Proof.
  intros Hb. constructor.
  - unfold full_commit, hex_string in Hb. by apply andb_true_iff in Hb as [? _].
  - intros t base h record h' Hr. cbn in Hr. apply record_for_inv in Hr as (_ & _ & -> & _).
    apply len_between. pose proof (branch_for_length t). lia.
Qed.

(** *** The worktree registry *)
(** [flush()] of [_registered_worktrees]. *)
Definition flush_worktree (h : Host) (records : list _RegisteredWorktree) (current : gmap string string)
    : list _RegisteredWorktree :=
  match current !! "worktree" with
  | None => records
  | Some path =>
      records ++ [{| rw_path := path_resolve h path; rw_head := current !! "HEAD";
                     rw_branch_ref := current !! "branch"; rw_locked_reason := current !! "locked";
                     rw_prunable_reason := current !! "prunable" |}]
  end.
(** [field.partition(" ")] *)
Fixpoint partition_space (l : list ascii) : list ascii * list ascii :=
  match l with
  | [] => ([], [])
  | c :: l => if bool_decide (c = " "%char) then ([], l)
              else let '(k, v) := partition_space l in (c :: k, v)
  end.
Fixpoint parse_worktrees (h : Host) (records : list _RegisteredWorktree)
    (current : gmap string string) (fields : list string) : list _RegisteredWorktree :=
  match fields with
  | [] => flush_worktree h records current
  | field :: fields =>
      if bool_decide (field = "") then parse_worktrees h records current fields
      else
        let '(k, v) := partition_space (chars field) in
        let key := of_chars k in
        let flush := bool_decide (key = "worktree") && bool_decide (is_Some (current !! "worktree")) in
        let records := if flush then flush_worktree h records current else records in
        let current := if flush then ∅ else current in
        parse_worktrees h records (<[key := of_chars v]> current) fields
  end.
Definition _registered_worktrees self : M Host (list _RegisteredWorktree) :=
  raw ← worktree_git self ["worktree"; "list"; "--porcelain"; "-z"] true;
  reading_host (λ h, parse_worktrees h [] ∅ (split_on nul (Git.stdout raw))).
Definition _find_registered_path (h : Host) (path : string) (entries : list _RegisteredWorktree)
    : option _RegisteredWorktree :=
  let resolved := path_resolve h path in
  head (filter (λ e, rw_path e = resolved) entries).
Definition find_registered (path : string) (entries : list _RegisteredWorktree)
    : M Host (option _RegisteredWorktree) :=
  reading_host (λ h, _find_registered_path h path entries).
Definition _branch_exists self (branch_name : string) : M Host bool :=
  result ← worktree_git self
    ["show-ref"; "--verify"; "--quiet"; "refs/heads/" +:+ branch_name] false;
  mret (returncode result =? 0).
Definition _assert_owned_registration (record : TaskWorktreeRecord) (entry : _RegisteredWorktree)
    : result unit :=
  let expected_ref := "refs/heads/" +:+ twr_branch_name record in
  check (bool_decide (rw_branch_ref entry = Some expected_ref)) TaskWorktreeCollisionError
    ("worktree path is registered to an unexpected branch: expected " +:+ expected_ref +:+ ", got "
       +:+ match rw_branch_ref entry with
           | Some b => if bool_decide (b = "") then "<detached>" else b
           | None => "<detached>"
           end).
Definition is_some {A} (o : option A) : bool := match o with Some _ => true | None => false end.
Definition exists_path (path : string) : M Host bool := reading_host (λ h, path_exists h path).

(** *** The lifecycle *)
Definition _verify_created self (record : TaskWorktreeRecord) : M Host unit :=
  registered ← _registered_worktrees self;
  entry ← find_registered (twr_path record) registered;
  match entry with
  | None => throw TaskWorktreeError "created worktree is missing from Git worktree metadata"
  | Some entry =>
      lift (_assert_owned_registration record entry) ;;
      ensure (is_some (rw_locked_reason entry)) TaskWorktreeError
        "created task worktree must remain locked" ;;
      workspace ← LocalGitWorkspace_init (twr_path record);
      changed ← changed_files workspace;
      ensure (bool_decide (changed = [])) TaskWorktreeError "new task worktree must start clean" ;;
      head ← worktree_git_at (twr_path record) [] ["rev-parse"; "--verify"; "HEAD^{commit}"] true;
      ensure (bool_decide (strip (Git.stdout head) = twr_base_commit record)) TaskWorktreeError
        "new task worktree does not point at its requested base commit" ;;
      branch ← worktree_git_at (twr_path record) [] ["symbolic-ref"; "--quiet"; "--short"; "HEAD"] true;
      ensure (bool_decide (strip (Git.stdout branch) = twr_branch_name record)) TaskWorktreeError
        "new task worktree is not checked out on its reserved task branch"
  end.
Definition create self (task_id : string) (base_commit : option string)
    : M Host TaskWorktreeRecord :=
  dirty ← changed_files (twm_base_workspace self);
  ensure (bool_decide (dirty = [])) TaskWorktreeError
    "base workspace became dirty after the worktree base was frozen" ;;
  record ← record_for self task_id base_commit;
  registered ← _registered_worktrees self;
  existing ← find_registered (twr_path record) registered;
  present ← exists_path (twr_path record);
  match existing with
  | Some entry =>
      if negb present || is_some (rw_prunable_reason entry) then
        throw StaleTaskWorktreeError
          ("stale Git worktree registration exists for task " +:+ twr_task_id record)
      else throw TaskWorktreeCollisionError
        ("task worktree is already registered at " +:+ twr_path record)
  | None =>
      ensure (negb present) TaskWorktreeCollisionError
        ("task worktree path already exists but is not registered: " +:+ twr_path record) ;;
      taken ← _branch_exists self (twr_branch_name record);
      ensure (negb taken) TaskWorktreeCollisionError
        ("task branch already exists: " +:+ twr_branch_name record) ;;
      worktree_git self ["worktree"; "add"; "--lock"; "--reason"; "DevFlow task " +:+ twr_task_id record;
        "-b"; twr_branch_name record; twr_path record; twr_base_commit record] true ;;
      _verify_created self record ;;
      mret record
  end.
Definition open_workspace self (task_id : string) : M Host LocalGitWorkspace :=
  record ← record_for self task_id None;
  registered ← _registered_worktrees self;
  entry ← find_registered (twr_path record) registered;
  match entry with
  | None => throw TaskWorktreeError ("task worktree is not registered: " +:+ twr_task_id record)
  | Some entry =>
      lift (_assert_owned_registration record entry) ;;
      present ← exists_path (twr_path record);
      ensure present StaleTaskWorktreeError
        ("registered task worktree directory is missing: " +:+ twr_path record) ;;
      LocalGitWorkspace_init (twr_path record)
  end.
Definition commit_task_changes self (task_id : string) : M Host string :=
  record ← record_for self task_id None;
  registered ← _registered_worktrees self;
  entry ← find_registered (twr_path record) registered;
  match entry with
  | None => throw TaskWorktreeError ("task worktree is not registered: " +:+ twr_task_id record)
  | Some entry =>
      lift (_assert_owned_registration record entry) ;;
      present ← exists_path (twr_path record);
      ensure (present && negb (is_some (rw_prunable_reason entry))) StaleTaskWorktreeError
        ("cannot finalize stale task worktree registration: " +:+ twr_task_id record) ;;
      workspace ← LocalGitWorkspace_init (twr_path record);
      changed ← changed_files workspace;
      ensure (negb (bool_decide (changed = []))) TaskWorktreeError
        "successful task worktree has no changes to commit" ;;
      let git args := worktree_git_at (twr_path record) [] args true in
      branch ← git ["symbolic-ref"; "--quiet"; "--short"; "HEAD"];
      ensure (bool_decide (strip (Git.stdout branch) = twr_branch_name record))
        TaskWorktreeCollisionError "task worktree changed branches before successful finalization" ;;
      parent ← git ["rev-parse"; "--verify"; "HEAD^{commit}"];
      git ["add"; "--all"] ;;
      tree ← git ["write-tree"];
      made ← worktree_git_at (twr_path record) _commit_environment
        ["commit-tree"; strip (Git.stdout tree); "-p"; strip (Git.stdout parent); "-m";
         "DevFlow task " +:+ twr_task_id record] true;
      let commit := strip (Git.stdout made) in
      ensure (full_commit commit) TaskWorktreeError "Git did not return a full task commit id" ;;
      git ["update-ref"; "refs/heads/" +:+ twr_branch_name record; commit; strip (Git.stdout parent)] ;;
      left ← changed_files workspace;
      ensure (bool_decide (left = [])) TaskWorktreeError
        "task worktree must be clean after successful finalization" ;;
      branch_head ← git ["rev-parse"; "--verify"; "refs/heads/" +:+ twr_branch_name record +:+ "^{commit}"];
      ensure (bool_decide (strip (Git.stdout branch_head) = commit)) TaskWorktreeError
        "task branch does not point at the finalized task commit" ;;
      mret commit
  end.
(** The [try] of [remove]: a failed removal restores the lock. *)
Definition remove_registered self (record : TaskWorktreeRecord) (was_locked force : bool)
    : M Host unit := λ h,
  match worktree_git self (["worktree"; "remove"] ++ (if force then ["--force"] else [])
                             ++ [twr_path record]) true h with
  | (Ok _, h') => (Ok tt, h')
  | (Raise e, h') =>
      if was_locked && path_exists h' (twr_path record) then
        match worktree_git self ["worktree"; "lock"; "--reason"; "DevFlow task " +:+ twr_task_id record;
                                 twr_path record] false h' with
        | (Ok _, h'') => (Raise e, h'')
        | (Raise e', h'') => (Raise e', h'')
        end
      else (Raise e, h')
  end.
Definition remove self (task_id : string) (force : bool) : M Host bool :=
  record ← record_for self task_id None;
  registered ← _registered_worktrees self;
  entry ← find_registered (twr_path record) registered;
  present ← exists_path (twr_path record);
  match entry with
  | None =>
      ensure (negb present) TaskWorktreeCollisionError
        ("unregistered path exists at the task worktree location: " +:+ twr_path record) ;;
      mret false
  | Some entry =>
      lift (_assert_owned_registration record entry) ;;
      ensure (present && negb (is_some (rw_prunable_reason entry))) StaleTaskWorktreeError
        ("cannot safely remove stale task worktree registration: " +:+ twr_task_id record) ;;
      workspace ← LocalGitWorkspace_init (twr_path record);
      changed ← changed_files workspace;
      ensure (bool_decide (changed = []) || force) TaskWorktreeError
        ("refusing to remove dirty task worktree without force=True: " +:+ join ", " changed) ;;
      let was_locked := is_some (rw_locked_reason entry) in
      (if was_locked then worktree_git self ["worktree"; "unlock"; twr_path record] true ;; mret tt
       else mret tt) ;;
      remove_registered self record was_locked force ;;
      still ← exists_path (twr_path record);
      ensure (negb still) TaskWorktreeError
        "Git reported removal success but the worktree path still exists" ;;
      registered ← _registered_worktrees self;
      entry ← find_registered (twr_path record) registered;
      ensure (negb (is_some entry)) TaskWorktreeError
        "Git reported removal success but worktree metadata still exists" ;;
      mret true
  end.
End manager.

Example slug_example : task_slug "Fix..Login__page-" = "fix-login__page".
Proof. reflexivity. Qed.
Example slug_empty_example : task_slug "0-" = "0".
Proof. reflexivity. Qed.

(** Two tasks share a branch, or a worktree path, only if the first twelve
    hexadecimal digits of their SHA-256 collide: the readable part of the name
    never confuses two tasks by itself. *)
Theorem task_identity (sha256 : string → string) (Hsha : ∀ s, str_len (sha256 s) = 64%nat) t t' :
  (branch_for sha256 t = branch_for sha256 t' → task_digest sha256 t = task_digest sha256 t')
  ∧ ∀ root, path_join root (task_slug t +:+ "-" +:+ task_digest sha256 t)
            = path_join root (task_slug t' +:+ "-" +:+ task_digest sha256 t') →
      task_digest sha256 t = task_digest sha256 t'.
Proof.
  assert (Hlen : ∀ s, length (chars (task_digest sha256 s)) = 12%nat).
  { intros s. unfold task_digest, str_take. rewrite chars_of_chars, length_take.
    unfold str_len in Hsha. rewrite Hsha. done. }
  assert (Hinj : ∀ a b, a +:+ task_digest sha256 t = b +:+ task_digest sha256 t' →
    task_digest sha256 t = task_digest sha256 t').
  { intros a b Heq. apply (f_equal chars) in Heq. rewrite !chars_app in Heq.
    apply app_inj_2 in Heq as [_ Heq]; [|by rewrite !Hlen].
    by rewrite <- (of_chars_chars (task_digest sha256 t)), Heq, of_chars_chars. }
  unfold branch_for, path_join. split.
  - rewrite <- !str_app_assoc. apply Hinj.
  - intros root. rewrite <- !str_app_assoc. apply Hinj.
Qed.
Lemma task_identity_witness :
  let sha256 := λ _ : string, of_chars (replicate 64 "a"%char) in
  task_digest sha256 "fix.login" = task_digest sha256 "fix-login".
Proof.
  apply (task_identity (λ _, of_chars (replicate 64 "a"%char))); [intros _; reflexivity|].
  vm_compute. reflexivity.
Defined.
