(* ===== verification/GenerationWorktrees.v ===== *)
(** * GenerationWorktrees: the worktrees of the dispatched workers

    [runtime/generation_worktrees.py]: [GenerationBoundWorktreeView] answers
    the merge queue's questions from accepted worker evidence and Git's
    worktree registry. *)
From stdpp Require Import options.
From S2P Require Import Prelude Contracts Store RunModels Recovery Git Worktree.
Open Scope Z_scope.

Record _RegisteredGenerationWorktree : Set := {
  rg_path : string;
  rg_head : option string;
  rg_branch_ref : option string;
}.

Section view.
Context `{Machine}.

Record GenerationBoundWorktreeView : Set := {
  gv_workspace : LocalGitWorkspace;
  gv_base_commit : string;
  gv_executions : gmap string WorkerExecutionEvidence;
}.
Implicit Types self : GenerationBoundWorktreeView.

Definition generation_git self (arguments : list string) : M Host CompletedProcess :=
  completed ← git_command PersistenceCorruptionError "git executable is unavailable"
                "Git worktree registry inspection exceeded its bounded timeout"
                (ws_root (gv_workspace self)) [] arguments;
  ensure (returncode completed =? 0) PersistenceCorruptionError
    ("Git worktree registry inspection failed: exit_code=" +:+ str_of_Z (returncode completed)) ;;
  mret completed.
(** A blank line ends an entry. *)
Definition end_entry (h : Host) (records : list _RegisteredGenerationWorktree)
    (current : gmap string string) : result (list _RegisteredGenerationWorktree) :=
  if decide (current = ∅) then Ok records
  else
    path ← of_option (Exn PersistenceCorruptionError
                        "Git worktree registry returned an entry without a path")
             (current !! "worktree");
    Ok (records ++ [{| rg_path := path_resolve h path; rg_head := current !! "HEAD";
                       rg_branch_ref := current !! "branch" |}]).
Definition scan_line (h : Host) (st : list _RegisteredGenerationWorktree * gmap string string)
    (line : string) : result (list _RegisteredGenerationWorktree * gmap string string) :=
  let '(records, current) := st in
  if bool_decide (line = "") then
    records ← end_entry h records current;
    Ok (records, ∅)
  else
    let '(k, v) := partition_space (chars line) in
    let key := of_chars k in
    if bool_decide (" "%char ∈ chars line) && bool_decide (key ∈ ["worktree"; "HEAD"; "branch"])
    then Ok (records, <[key := of_chars v]> current) else Ok (records, current).
Definition parse_registry (lines : list string)
    : M Host (list _RegisteredGenerationWorktree * gmap string string) := λ h,
  (fold_result (scan_line h) ([], ∅) lines, h).
Definition generation_registered_worktrees self : M Host (list _RegisteredGenerationWorktree) :=
  result ← generation_git self ["worktree"; "list"; "--porcelain"];
  scanned ← parse_registry (splitlines (Git.stdout result) ++ [""]);
  mret (fst scanned).

Definition quoted (s : string) : string := "'" +:+ s +:+ "'".
Definition generation_record_for self (task_id : string) (base_commit : option string)
    : M Host TaskWorktreeRecord :=
  execution ← lift (of_option
    (Exn PersistenceCorruptionError
       ("integration requested unavailable worker evidence for task " +:+ quoted task_id))
    (gv_executions self !! task_id));
  ensure (bool_decide (we_status execution = WE_SUCCEEDED)) PersistenceCorruptionError
    ("integration requested non-successful worker evidence for task " +:+ quoted task_id) ;;
  match we_branch_name execution, we_commit_sha execution with
  | Some branch_name, Some commit_sha =>
      ensure (match base_commit with
              | Some base => bool_decide (base = we_base_commit execution)
              | None => true
              end) PersistenceCorruptionError
        ("integration base for " +:+ quoted task_id +:+ " disagrees with worker evidence") ;;
      registered ← generation_registered_worktrees self;
      match filter (λ item, rg_branch_ref item = Some ("refs/heads/" +:+ branch_name)) registered with
      | [registered] =>
          ensure (bool_decide (rg_head registered = Some commit_sha)) PersistenceCorruptionError
            ("registered worktree HEAD for " +:+ quoted task_id
             +:+ " moved after terminal evidence") ;;
          present ← exists_path (rg_path registered);
          ensure present PersistenceCorruptionError
            ("registered generation worktree for " +:+ quoted task_id +:+ " is missing on disk") ;;
          mret {| twr_task_id := task_id; twr_base_commit := we_base_commit execution;
                  twr_branch_name := branch_name; twr_path := rg_path registered |}
      | matches =>
          throw PersistenceCorruptionError
            ("expected exactly one registered generation worktree for " +:+ quoted task_id
             +:+ "; found " +:+ str_of_Z (Z.of_nat (length matches)))
      end
  | _, _ =>
      throw PersistenceCorruptionError
        ("successful worker evidence for " +:+ quoted task_id +:+ " lacks Git identity")
  end.
Definition generation_view self : WorktreeView :=
  {| view_base_commit := gv_base_commit self; view_record_for := generation_record_for self |}.

(** Validated evidence makes the view one the merge queue can trust. *)
#[export] Instance generation_view_laws self :
  text_ok 40 64 (gv_base_commit self) = true →
  (∀ t e b, gv_executions self !! t = Some e → we_branch_name e = Some b → text_ok 1 255 b = true) →
  WorktreeViewLaws (generation_view self).
Proof.
  intros Hb Hok. constructor; [done|]. intros t base h record h' Hr. cbn in Hr. unfold generation_record_for in Hr.
  inv_monad. destruct (gv_executions self !! t) as [e|] eqn:He; [|done]. injection H0 as <-.
  destruct (we_branch_name e) as [b|] eqn:Hbr; [|done].
  destruct (we_commit_sha e) as [c|] eqn:Hc; [|done].
  inv_monad. destruct (filter _ _) as [|g [|]]; try done. inv_monad. injection Hr as <- <-. cbn.
  specialize (Hok _ _ _ He Hbr). unfold text_ok in *. to_prop. apply len_between.
  rewrite !Nat.leb_le in *. lia.
Qed.
End view.
