(* ===== verification/MergeQueue.v ===== *)
(** * MergeQueue: integration of the task commits in DAG order

    [runtime/merge_queue.py]: [TopologicalMergeQueue] over the machine of
    [Git], and the worker evidence it consumes ([models/worker.py]).  The
    methods that only read the queue run in [M Host] with the queue as
    argument; those that change it run in [M (TopologicalMergeQueue * Host)],
    so that a method that raises half-way leaves what it had written in the
    queue and in the repository.  The scheduler is shared with the rest of
    the run and only read here: it is an argument of each call.  The value of
    the timeout (a float) is not modelled. *)
From stdpp Require Import options.
From S2P Require Import Prelude Contracts Dag Scheduler RunModels Merge Reconcile Git Worktree.
Open Scope Z_scope.

(** ** [models/worker.py] *)
Record WorkerTaskResult : Set := {
  wtr_task_id : string;
  wtr_scheduler_state : TaskScheduleState;
  wtr_worktree_path : option string;
  wtr_branch_name : option string;
  wtr_base_commit : option string;
  wtr_commit_sha : option string;
  wtr_run_result : option SingleTaskRunResult;
  wtr_failures : list FailureReport;
  wtr_duration_ms : Z;
}.
Definition run_has_status (status : TaskRunState) (run : option SingleTaskRunResult) : bool :=
  match run with Some r => bool_decide (sr_status r = status) | None => false end.
Definition validate_terminal_consistency (self : WorkerTaskResult) : result WorkerTaskResult :=
  valid_if (bool_decide (wtr_scheduler_state self ∈ [Scheduler.SUCCEEDED; Scheduler.FAILED]))
    "worker task result requires a SUCCEEDED or FAILED scheduler state" ;;
  valid_if (match wtr_run_result self with
            | Some r => bool_decide (sr_task_id r = wtr_task_id self)
            | None => true
            end) "worker task result must match the nested single-task run id" ;;
  if decide (wtr_scheduler_state self = Scheduler.SUCCEEDED) then
    valid_if (run_has_status RUN_SUCCEEDED (wtr_run_result self))
      "successful worker tasks require successful V0.1 run evidence" ;;
    valid_if (bool_decide (wtr_failures self = []))
      "successful worker tasks must not contain worker failures" ;;
    valid_if (truthy (wtr_commit_sha self))
      "successful worker tasks require a committed task-branch SHA" ;;
    Ok self
  else
    valid_if (negb (bool_decide (wtr_failures self = []))
              || run_has_status RUN_FAILED (wtr_run_result self))
      "failed worker tasks require explicit failure evidence" ;;
    Ok self.
Definition WorkerTaskResult_new (raw : WorkerTaskResult) : result WorkerTaskResult :=
  valid_if (text_ok 1 128 (wtr_task_id raw)) "task_id" ;;
  valid_if (0 <=? wtr_duration_ms raw) "duration_ms" ;;
  validate_terminal_consistency raw.

Record ParallelWorkerWaveResult : Set := {
  pww_scheduled_task_ids : list string;
  pww_task_results : list WorkerTaskResult;
  pww_next_ready_task_ids : list string;
  pww_scheduler_snapshot : SchedulerSnapshot;
  pww_max_concurrency : Z;
  pww_peak_concurrency : Z;
}.
Definition validate_wave_consistency (self : ParallelWorkerWaveResult)
    : result ParallelWorkerWaveResult :=
  valid_if (no_duplicates (pww_scheduled_task_ids self)) "scheduled_task_ids must be unique" ;;
  valid_if (bool_decide (wtr_task_id <$> pww_task_results self = pww_scheduled_task_ids self))
    "worker results must preserve the deterministic scheduled task order" ;;
  valid_if (pww_peak_concurrency self <=? pww_max_concurrency self)
    "peak worker concurrency must not exceed the configured limit" ;;
  valid_if (bool_decide (pww_scheduled_task_ids self = []) || (1 <=? pww_peak_concurrency self))
    "non-empty worker waves must observe at least one active worker" ;;
  Ok self.
Definition ParallelWorkerWaveResult_new (raw : ParallelWorkerWaveResult)
    : result ParallelWorkerWaveResult :=
  valid_if (1 <=? pww_max_concurrency raw) "max_concurrency" ;;
  valid_if (0 <=? pww_peak_concurrency raw) "peak_concurrency" ;;
  validate_wave_consistency raw.

Definition _require_full_oid (value label : string) : result unit :=
  check (full_commit value) MergeQueueError
    (label +:+ " must be a full 40-64 character hexadecimal id").
Definition _TERMINAL_NON_SUCCESS : list TaskScheduleState := [Scheduler.FAILED; Scheduler.BLOCKED].
Definition _CONFLICT_EVIDENCE_LIMIT : nat := 8000.
Definition newline : string := String "010" "".

(** An attempt without the metadata of a repair. *)
Definition plain_attempt (sequence : Z)
    (task_id task_branch task_base task_commit previous : string) (outcome : MergeAttemptOutcome)
    (integration_commit : option string) (failure : option FailureReport) : MergeQueueAttempt := {|
  mqa_sequence := sequence; mqa_task_id := task_id; mqa_task_branch := task_branch;
  mqa_task_base_commit := task_base; mqa_task_commit := task_commit;
  mqa_previous_integration_commit := previous; mqa_outcome := outcome;
  mqa_integration_commit := integration_commit; mqa_failure := failure;
  mqa_conflict_marker_commit := None; mqa_conflict_evidence_fingerprint := None;
  mqa_policy_fingerprint := None; mqa_human_decision_commit := None;
|}.

(** ** Commit messages *)
(** An f-string prints [None]. *)
Definition shown (o : option string) : string := default "None" o.
Definition _integration_message (result : WorkerTaskResult) : string :=
  "DevFlow integrate " +:+ wtr_task_id result +:+ newline +:+ newline
  +:+ "DevFlow-Task: " +:+ wtr_task_id result +:+ newline
  +:+ "DevFlow-Task-Branch: " +:+ shown (wtr_branch_name result) +:+ newline
  +:+ "DevFlow-Task-Base: " +:+ shown (wtr_base_commit result) +:+ newline
  +:+ "DevFlow-Task-Commit: " +:+ shown (wtr_commit_sha result).
Definition _conflict_message (result : WorkerTaskResult) (integration_head : string) : string :=
  "DevFlow integration conflict for " +:+ wtr_task_id result +:+ newline +:+ newline
  +:+ "DevFlow-Conflict-Task: " +:+ wtr_task_id result +:+ newline
  +:+ "DevFlow-Conflict-Branch: " +:+ shown (wtr_branch_name result) +:+ newline
  +:+ "DevFlow-Conflict-Base: " +:+ shown (wtr_base_commit result) +:+ newline
  +:+ "DevFlow-Conflict-Commit: " +:+ shown (wtr_commit_sha result) +:+ newline
  +:+ "DevFlow-Conflict-Integration-Head: " +:+ integration_head.

(** The two loops of [_parse_metadata], and its check that every field was
    read.  The readers of other commits differ in the exceptions. *)
Definition read_prefix (duplicate : exn) (line : string) (metadata : gmap string string)
    (prefix_key : string * string) : result (gmap string string) :=
  let '(prefix, key) := prefix_key in
  if negb (str_startswith prefix line) then Ok metadata
  else if bool_decide (metadata !! key = None) then
    Ok (<[key := strip (of_chars (drop (str_len prefix) (chars line)))]> metadata)
  else Raise duplicate.
Definition read_line (duplicate : exn) (prefixes : list (string * string))
    (metadata : gmap string string) (line : string) : result (gmap string string) :=
  fold_result (read_prefix duplicate line) metadata prefixes.
Definition read_fields (duplicate missing : exn) (prefixes : list (string * string))
    (lines : list string) : result (gmap string string) :=
  metadata ← fold_result (read_line duplicate prefixes) ∅ lines;
  if bool_decide (dom metadata = list_to_set (snd <$> prefixes)) then Ok metadata
  else Raise missing.
Definition metadata_of (label : string) (prefixes : list (string * string)) (message : string)
    : result (gmap string string) :=
  metadata ← read_fields
    (Exn MergeQueueError (label +:+ " contains duplicate DevFlow metadata"))
    (Exn MergeQueueError (label +:+ " is missing required DevFlow metadata"))
    prefixes (splitlines message);
  base ← of_option (Exn KeyError "base") (metadata !! "base");
  _require_full_oid base "recorded task base" ;;
  commit ← of_option (Exn KeyError "commit") (metadata !! "commit");
  _require_full_oid commit "recorded task commit" ;;
  Ok metadata.
Definition integration_prefixes : list (string * string) :=
  [("DevFlow-Task: ", "task"); ("DevFlow-Task-Branch: ", "branch");
   ("DevFlow-Task-Base: ", "base"); ("DevFlow-Task-Commit: ", "commit")].
Definition conflict_prefixes : list (string * string) :=
  [("DevFlow-Conflict-Task: ", "task"); ("DevFlow-Conflict-Branch: ", "branch");
   ("DevFlow-Conflict-Base: ", "base"); ("DevFlow-Conflict-Commit: ", "commit");
   ("DevFlow-Conflict-Integration-Head: ", "integration_head")].
Definition field_of (metadata : gmap string string) (key : string) : result string :=
  of_option (Exn KeyError key) (metadata !! key).

(** [_merge_conflict_failure] *)
Definition _merge_conflict_failure
    (task_id integration_head task_commit conflict_ref marker_commit out err : string)
    : result FailureReport :=
  let raw := join newline (filter (λ s, s ≠ "") (strip <$> [out; err])) in
  let raw := if (_CONFLICT_EVIDENCE_LIMIT <? str_len raw)%nat
             then str_take _CONFLICT_EVIDENCE_LIMIT raw +:+ newline +:+ "...[truncated]" else raw in
  FailureReport_new {|
    failure_type := MERGE_CONFLICT; source := RUNTIME;
    message := "Git reported a merge conflict while integrating the task commit.";
    retryable := false;
    evidence :=
      ["task_id=" +:+ task_id; "integration_head=" +:+ integration_head;
       "task_commit=" +:+ task_commit; "conflict_ref=" +:+ conflict_ref;
       "conflict_marker=" +:+ marker_commit; "git_merge_tree_exit_code=1"]
      ++ (if bool_decide (raw = "") then [] else ["git_merge_tree_output=" +:+ raw]) |}.

Section queue.
Context `{Machine}.

(** ** The queue *)
Record TopologicalMergeQueue : Type := {
  q_worktrees : WorktreeView;
  q_base_workspace : LocalGitWorkspace;
  q_run_base : string;
  q_integration_ref : string;
  q_conflict_ref : string;
  q_order : list string;
  q_attempts : list MergeQueueAttempt;
  q_integrated : list string;
  q_stopped : bool;
  q_head : string;
}.
Definition with_progress (q : TopologicalMergeQueue) (attempts : list MergeQueueAttempt)
    (integrated : list string) (stopped : bool) (head : string) : TopologicalMergeQueue := {|
  q_worktrees := q_worktrees q; q_base_workspace := q_base_workspace q;
  q_run_base := q_run_base q; q_integration_ref := q_integration_ref q;
  q_conflict_ref := q_conflict_ref q; q_order := q_order q;
  q_attempts := attempts; q_integrated := integrated; q_stopped := stopped; q_head := head;
|}.
Definition set_head (head : string) (q : TopologicalMergeQueue) : TopologicalMergeQueue :=
  with_progress q (q_attempts q) (q_integrated q) (q_stopped q) head.
Definition add_integrated (task_id : string) (q : TopologicalMergeQueue) : TopologicalMergeQueue :=
  with_progress q (q_attempts q) (q_integrated q ++ [task_id]) (q_stopped q) (q_head q).
Definition add_attempt (a : MergeQueueAttempt) (q : TopologicalMergeQueue) : TopologicalMergeQueue :=
  with_progress q (q_attempts q ++ [a]) (q_integrated q) (q_stopped q) (q_head q).
Definition set_stopped (q : TopologicalMergeQueue) : TopologicalMergeQueue :=
  with_progress q (q_attempts q) (q_integrated q) true (q_head q).

Implicit Types self : TopologicalMergeQueue.
(** [snapshot]; the attempts were validated when they were made. *)
Definition queue_snapshot (q : TopologicalMergeQueue) : result MergeQueueSnapshot :=
  MergeQueueSnapshot_new {|
    mqs_integration_ref := q_integration_ref q; mqs_run_base_commit := q_run_base q;
    mqs_head_commit := q_head q; mqs_integrated_task_ids := q_integrated q;
    mqs_attempts := q_attempts q; mqs_stopped := q_stopped q |}.


(** ** Git evidence *)
Definition queue_git self (env : list (string * string)) (arguments : list string)
    (must_succeed : bool) : M Host CompletedProcess :=
  completed ← git_command MergeQueueError "git executable is not available"
                "git integration command exceeded the configured timeout"
                (ws_root (q_base_workspace self)) env arguments;
  if must_succeed && negb (returncode completed =? 0) then
    throw MergeQueueError ("git integration command failed: exit_code="
      +:+ str_of_Z (returncode completed) +:+ ", operation=" +:+ default "" (head arguments))
  else mret completed.

Definition resolve_object (self : TopologicalMergeQueue) (spec error : string) : M Host string :=
  result ← queue_git self [] ["rev-parse"; "--verify"; spec] false;
  let resolved := strip (Git.stdout result) in
  ensure ((returncode result =? 0) && full_commit resolved) MergeQueueError error ;;
  mret resolved.
Definition _resolve_commit self (ref label : string) : M Host string :=
  resolve_object self (ref +:+ "^{commit}") (label +:+ " does not resolve to a full commit id").
Definition _resolve_tree self (ref : string) : M Host string :=
  resolve_object self (ref +:+ "^{tree}") "Git reference does not resolve to a full tree id".
Definition _commit_parents self (commit : string) : M Host (list string) :=
  output ← queue_git self [] ["rev-list"; "--parents"; "-n"; "1"; commit] true;
  match split (strip (Git.stdout output)) with
  | v :: values =>
      ensure (bool_decide (v = commit)) MergeQueueError
        "Git returned inconsistent commit-parent evidence" ;;
      mret values
  | [] => throw MergeQueueError "Git returned inconsistent commit-parent evidence"
  end.
Definition _first_oid_line (output label : string) : result string :=
  let first := default "" (head (filter (λ s, s ≠ "") (strip <$> splitlines output))) in
  _require_full_oid first label ;;
  Ok first.
Definition _validate_ref_name self (ref_name : string) : M Host unit :=
  result ← queue_git self [] ["check-ref-format"; ref_name] false;
  ensure (returncode result =? 0) ValueError "generated integration ref is not a valid Git ref".
Definition _assert_ref_head self : M Host unit :=
  current ← _resolve_commit self (q_integration_ref self) "integration ref";
  ensure (bool_decide (current = q_head self)) MergeQueueError
    "integration ref moved outside the merge queue".
Definition _assert_base_clean self : M Host unit :=
  changed ← changed_files (q_base_workspace self);
  ensure (bool_decide (changed = [])) MergeQueueError
    "integration operation unexpectedly dirtied the base workspace".
Definition merge_tree self (ours theirs : string) : M Host CompletedProcess :=
  queue_git self [] ["merge-tree"; "--write-tree"; ours; theirs] false.
Definition _parse_metadata self (commit : string) (prefixes : list (string * string))
    (label : string) : M Host (gmap string string) :=
  output ← queue_git self [] ["show"; "-s"; "--format=%B"; commit] true;
  lift (metadata_of label prefixes (Git.stdout output)).
Definition _parse_integration_message self (commit : string) : M Host (gmap string string) :=
  _parse_metadata self commit integration_prefixes "integration commit".
Definition _parse_conflict_message self (commit : string) : M Host (gmap string string) :=
  metadata ← _parse_metadata self commit conflict_prefixes "integration conflict marker";
  head ← lift (field_of metadata "integration_head");
  lift (_require_full_oid head "recorded integration head") ;;
  mret metadata.
Definition _verify_integration_commit self (commit previous_head task_commit : string)
    : M Host unit :=
  parents ← _commit_parents self commit;
  ensure (bool_decide (parents = [previous_head; task_commit])) MergeQueueError
    "integration commit does not preserve the expected two-parent history" ;;
  merge ← merge_tree self previous_head task_commit;
  ensure (returncode merge =? 0) MergeQueueError
    "integration commit cannot reproduce a clean deterministic merge" ;;
  expected_tree ← lift (_first_oid_line (Git.stdout merge) "recomputed merged tree");
  tree ← _resolve_tree self commit;
  ensure (bool_decide (tree = expected_tree)) MergeQueueError
    "integration commit tree does not match deterministic Git merge".
(** [show-ref --verify --quiet ref] *)
Definition ref_status self (ref : string) : M Host Z :=
  existing ← queue_git self [] ["show-ref"; "--verify"; "--quiet"; ref] false;
  mret (returncode existing).
Definition zeros (n : nat) : string := of_chars (replicate n "0"%char).

(** ** Gates *)
Definition not_yet_integrated (scheduler : DAGScheduler) (simulated_integrated : gset string)
    (task_id earlier_task_id : string) : result unit :=
  if decide (earlier_task_id ∈ simulated_integrated) then Ok tt
  else
    st ← fst (state earlier_task_id scheduler);
    if decide (st ∈ _TERMINAL_NON_SUCCESS) then Ok tt
    else raise MergeQueueError
      ("task " +:+ task_id +:+ " cannot integrate before earlier topological task "
       +:+ earlier_task_id +:+ " is integrated or reaches FAILED/BLOCKED").
Definition _assert_global_topological_gate (scheduler : DAGScheduler) (order : list string)
    (task_id : string) (simulated_integrated : gset string) : result unit :=
  index ← of_option (Exn KeyError task_id) (order_index order !! task_id);
  map_result (not_yet_integrated scheduler simulated_integrated task_id)
    (take (Z.to_nat index) order) ;;
  Ok tt.

Definition _validate_worker_result (scheduler : DAGScheduler) self (result : WorkerTaskResult)
    : M Host unit :=
  let t := wtr_task_id result in
  ensure (bool_decide (wtr_scheduler_state result = Scheduler.SUCCEEDED)) MergeQueueError
    ("only successful worker results may integrate: " +:+ t) ;;
  st ← lift (fst (state t scheduler));
  ensure (bool_decide (st = Scheduler.SUCCEEDED)) MergeQueueError
    ("scheduler task must still be SUCCEEDED before integration: " +:+ t) ;;
  ensure (truthy (wtr_branch_name result) && truthy (wtr_base_commit result)
          && truthy (wtr_commit_sha result)) MergeQueueError
    ("successful worker result lacks branch/base/commit evidence: " +:+ t) ;;
  ensure (truthy (wtr_worktree_path result)) MergeQueueError
    ("successful worker result lacks deterministic worktree identity: " +:+ t) ;;
  let base := default "" (wtr_base_commit result) in
  let commit := default "" (wtr_commit_sha result) in
  lift (_require_full_oid base "task base commit") ;;
  lift (_require_full_oid commit "task commit") ;;
  record ← view_record_for (q_worktrees self) t (Some base);
  ensure (bool_decide (wtr_branch_name result = Some (twr_branch_name record))) MergeQueueError
    ("worker branch does not match the manager-owned task branch: " +:+ t) ;;
  worker_path ← reading_host (λ h, path_resolve h (default "" (wtr_worktree_path result)));
  record_path ← reading_host (λ h, path_resolve h (twr_path record));
  ensure (bool_decide (worker_path = record_path)) MergeQueueError
    ("worker path does not match the manager-owned task worktree: " +:+ t) ;;
  branch_commit ← _resolve_commit self ("refs/heads/" +:+ twr_branch_name record)
                    ("task branch for " +:+ t);
  ensure (bool_decide (branch_commit = commit)) MergeQueueError
    ("task branch moved after worker finalization: " +:+ t) ;;
  parents ← _commit_parents self commit;
  ensure (bool_decide (parents = [base])) MergeQueueError
    ("task commit must have exactly its assigned task base as parent: " +:+ t).

Definition _persist_conflict_marker self (result : WorkerTaskResult) (integration_head : string)
    : M Host string :=
  existing ← ref_status self (q_conflict_ref self);
  ensure (negb (existing =? 0)) MergeQueueError "integration conflict marker already exists" ;;
  ensure (existing =? 1) MergeQueueError "Git could not validate conflict-marker availability" ;;
  tree ← _resolve_tree self integration_head;
  made ← queue_git self _commit_environment
    ["commit-tree"; tree; "-p"; integration_head; "-m"; _conflict_message result integration_head]
    true;
  let marker := strip (Git.stdout made) in
  lift (_require_full_oid marker "integration conflict marker") ;;
  update ← queue_git self []
    ["update-ref"; q_conflict_ref self; marker; zeros (str_len marker)] false;
  ensure (returncode update =? 0) MergeQueueError
    "integration conflict marker could not be created atomically" ;;
  resolved ← _resolve_commit self (q_conflict_ref self) "conflict marker ref";
  ensure (bool_decide (resolved = marker)) MergeQueueError
    "integration conflict marker ref does not match its commit" ;;
  mret marker.

(** ** The operations that change the queue *)
Notation Q := (M (TopologicalMergeQueue * Host)).
Definition on_host {A} (f : TopologicalMergeQueue → M Host A) : Q A := λ s,
  let '(r, h) := f s.1 s.2 in (r, (s.1, h)).
Definition queue : Q TopologicalMergeQueue := gets fst.
Definition update (f : TopologicalMergeQueue → TopologicalMergeQueue) : Q unit :=
  modify (λ s, (f s.1, s.2)).
(** [self._attempts.append(MergeQueueAttempt(sequence=len(self._attempts), ...))] *)
Definition append_attempt (make : Z → MergeQueueAttempt) : Q unit :=
  self ← queue;
  attempt ← lift (MergeQueueAttempt_new (make (Z.of_nat (length (q_attempts self)))));
  update (add_attempt attempt).

Definition integrate_conflict (result : WorkerTaskResult) (previous_head : string)
    (merge : CompletedProcess) : Q bool :=
  marker_commit ← on_host (λ self, _persist_conflict_marker self result previous_head);
  self ← queue;
  let task_commit := default "" (wtr_commit_sha result) in
  failure ← lift (_merge_conflict_failure (wtr_task_id result) previous_head task_commit
                    (q_conflict_ref self) marker_commit (Git.stdout merge) (Git.stderr merge));
  append_attempt (λ n, plain_attempt n (wtr_task_id result) (default "" (wtr_branch_name result))
    (default "" (wtr_base_commit result)) task_commit previous_head CONFLICT None (Some failure)) ;;
  update set_stopped ;;
  on_host _assert_ref_head ;;
  on_host _assert_base_clean ;;
  mret false.
Definition integrate_clean (result : WorkerTaskResult) (previous_head : string)
    (merge : CompletedProcess) : Q bool :=
  let t := wtr_task_id result in
  let task_commit := default "" (wtr_commit_sha result) in
  tree ← lift (_first_oid_line (Git.stdout merge) "merged tree");
  made ← on_host (λ self, queue_git self _commit_environment
    ["commit-tree"; tree; "-p"; previous_head; "-p"; task_commit; "-m"; _integration_message result]
    true);
  let commit := strip (Git.stdout made) in
  lift (_require_full_oid commit "integration commit") ;;
  updated ← on_host (λ self, queue_git self []
    ["update-ref"; "-m"; "DevFlow integrate " +:+ t; q_integration_ref self; commit; previous_head]
    false);
  ensure (returncode updated =? 0) MergeQueueError
    "integration ref changed concurrently or could not be atomically advanced" ;;
  resolved ← on_host (λ self, _resolve_commit self (q_integration_ref self) "integration ref");
  ensure (bool_decide (resolved = commit)) MergeQueueError
    "integration ref does not point at the newly created commit" ;;
  on_host (λ self, _verify_integration_commit self commit previous_head task_commit) ;;
  update (set_head commit) ;;
  update (add_integrated t) ;;
  append_attempt (λ n, plain_attempt n t (default "" (wtr_branch_name result))
    (default "" (wtr_base_commit result)) task_commit previous_head INTEGRATED (Some commit) None) ;;
  on_host _assert_base_clean ;;
  mret true.
Definition _integrate_one (scheduler : DAGScheduler) (result : WorkerTaskResult) : Q bool :=
  on_host (λ self, _validate_worker_result scheduler self result) ;;
  on_host _assert_ref_head ;;
  self ← queue;
  let previous_head := q_head self in
  merge ← on_host (λ self, merge_tree self previous_head (default "" (wtr_commit_sha result)));
  if returncode merge =? 1 then integrate_conflict result previous_head merge
  else
    ensure (returncode merge =? 0) MergeQueueError
      ("git merge-tree failed before producing a trustworthy integration result: exit_code="
       +:+ str_of_Z (returncode merge)) ;;
    integrate_clean result previous_head merge.

(** The first loop of [integrate]: every result is admissible given the ones
    before it. *)
Definition admit_result (scheduler : DAGScheduler) (simulated_integrated : gset string)
    (result : WorkerTaskResult) : Q (gset string) :=
  let t := wtr_task_id result in
  on_host (λ self, _validate_worker_result scheduler self result) ;;
  ensure (bool_decide (t ∉ simulated_integrated)) MergeQueueError
    ("task is already integrated: " +:+ t) ;;
  n ← lift (node (_dag scheduler) t);
  let missing_dependencies := (list_to_set (tn_depends_on n) : gset string) ∖ simulated_integrated in
  ensure (bool_decide (missing_dependencies = ∅)) MergeQueueError
    ("task " +:+ t +:+ " cannot integrate before dependencies: "
     +:+ join ", " (sorted_set missing_dependencies)) ;;
  self ← queue;
  lift (_assert_global_topological_gate scheduler (q_order self) t simulated_integrated) ;;
  mret ({[t]} ∪ simulated_integrated).
Fixpoint admit_all (scheduler : DAGScheduler) (simulated_integrated : gset string)
    (ordered : list WorkerTaskResult) : Q unit :=
  match ordered with
  | [] => mret tt
  | result :: ordered =>
      simulated_integrated ← admit_result scheduler simulated_integrated result;
      admit_all scheduler simulated_integrated ordered
  end.
(** The second loop: stop at the first conflict. *)
Fixpoint integrate_each (scheduler : DAGScheduler) (ordered : list WorkerTaskResult) : Q unit :=
  match ordered with
  | [] => mret tt
  | result :: ordered =>
      ok ← _integrate_one scheduler result;
      if (ok : bool) then integrate_each scheduler ordered else mret tt
  end.
(** [sorted(candidates, key=lambda item: self._order_index[item.task_id])] *)
Definition index_key (order : list string) (r : WorkerTaskResult) : result (Z * WorkerTaskResult) :=
  i ← of_option (Exn ValueError ("worker result references unknown DAG task: " +:+ wtr_task_id r))
        (order_index order !! wtr_task_id r);
  Ok (i, r).
Definition index_le (x y : Z * WorkerTaskResult) : Prop := x.1 <= y.1.
#[local] Instance index_le_dec : RelDecision index_le.
Proof. intros x y. unfold index_le. apply _. Defined.
Definition in_order (order : list string) (candidates : list WorkerTaskResult)
    : result (list WorkerTaskResult) :=
  keyed ← map_result (index_key order) candidates;
  Ok (snd <$> merge_sort index_le keyed).
Definition integrate (scheduler : DAGScheduler) (results : list WorkerTaskResult)
    : Q MergeQueueSnapshot :=
  self ← queue;
  ensure (negb (q_stopped self)) MergeQueueError
    "merge queue is stopped after an unresolved integration conflict" ;;
  changed ← on_host (λ self, changed_files (q_base_workspace self));
  ensure (bool_decide (changed = [])) MergeQueueError
    "base workspace became dirty before integration" ;;
  on_host _assert_ref_head ;;
  match results with
  | [] => self ← queue; lift (queue_snapshot self)
  | _ =>
      ensure (no_duplicates (wtr_task_id <$> results)) ValueError
        "worker integration results must not contain duplicate task ids" ;;
      ordered ← lift (in_order (q_order self) results);
      admit_all scheduler (list_to_set (q_integrated self)) ordered ;;
      integrate_each scheduler ordered ;;
      self ← queue;
      lift (queue_snapshot self)
  end.
Definition base_commit_for (scheduler : DAGScheduler) (task_id : string) : Q (option string) :=
  n ← lift (node (_dag scheduler) task_id);
  if bool_decide (tn_depends_on n = []) then mret None
  else
    st ← lift (fst (state task_id scheduler));
    if negb (bool_decide (st = Scheduler.READY)) then mret None
    else
      self ← queue;
      if negb (bool_decide ((list_to_set (tn_depends_on n) : gset string)
                            ⊆ list_to_set (q_integrated self))) then mret None
      else if q_stopped self then mret None
      else
        on_host _assert_ref_head ;;
        mret (Some (q_head self)).

(** ** Construction and recovery

    A subclass overrides how a recovered commit is accepted and how the
    conflict marker is recovered; the rest is written against the two. *)
Record RecoveredTask : Set := {
  rt_task_id : string;
  rt_branch : string;
  rt_base : string;
  rt_commit : string;
  rt_index : Z;
}.
(** The checks of the loop body that do not depend on the kind of commit. *)
Definition recover_header (dag : TaskDAG) (expected_previous : string) (recovered : gset string)
    (last_index : Z) (commit : string) : Q RecoveredTask :=
  self ← queue;
  parents ← on_host (λ self, _commit_parents self commit);
  ensure (bool_decide (length parents = 2%nat) && bool_decide (head parents = Some expected_previous))
    MergeQueueError "existing integration history has an unexpected parent chain" ;;
  metadata ← on_host (λ self, _parse_integration_message self commit);
  task_id ← lift (field_of metadata "task");
  task_branch ← lift (field_of metadata "branch");
  task_base ← lift (field_of metadata "base");
  task_commit ← lift (field_of metadata "commit");
  index ← lift (of_option
    (Exn MergeQueueError "existing integration history references an unknown DAG task")
    (order_index (q_order self) !! task_id));
  ensure (bool_decide (task_id ∉ recovered)) MergeQueueError
    "existing integration history integrates a task more than once" ;;
  ensure (last_index <? index) MergeQueueError
    "existing integration history violates deterministic DAG order" ;;
  ensure (bool_decide (parents !! 1%nat = Some task_commit)) MergeQueueError
    "existing integration history task parent does not match metadata" ;;
  record ← on_host (λ self, view_record_for (q_worktrees self) task_id (Some task_base));
  ensure (bool_decide (task_branch = twr_branch_name record)) MergeQueueError
    "existing integration history records an unexpected task branch" ;;
  task_parents ← on_host (λ self, _commit_parents self task_commit);
  ensure (bool_decide (task_parents = [task_base])) MergeQueueError
    "recovered task commit does not match its recorded task base" ;;
  n ← lift (node dag task_id);
  ensure (bool_decide ((list_to_set (tn_depends_on n) : gset string) ⊆ recovered))
    MergeQueueError "existing integration history violates task dependencies" ;;
  mret {| rt_task_id := task_id; rt_branch := task_branch; rt_base := task_base;
          rt_commit := task_commit; rt_index := index |}.
Definition accept_clean (task : RecoveredTask) (expected_previous commit : string) : Q unit :=
  on_host (λ self, _verify_integration_commit self commit expected_previous (rt_commit task)) ;;
  append_attempt (λ n, plain_attempt n (rt_task_id task) (rt_branch task) (rt_base task)
    (rt_commit task) expected_previous INTEGRATED (Some commit) None).
(** The loop over the commits; its result is the last one. *)
Fixpoint recover_commits (accept : RecoveredTask → string → string → Q unit) (dag : TaskDAG)
    (expected_previous : string) (recovered : gset string) (last_index : Z) (commits : list string)
    : Q string :=
  match commits with
  | [] => mret expected_previous
  | commit :: commits =>
      task ← recover_header dag expected_previous recovered last_index commit;
      accept task expected_previous commit ;;
      update (add_integrated (rt_task_id task)) ;;
      recover_commits accept dag commit ({[rt_task_id task]} ∪ recovered) (rt_index task) commits
  end.
Definition _recover_successful_history (accept : RecoveredTask → string → string → Q unit)
    (dag : TaskDAG) (head : string) : Q unit :=
  self ← queue;
  if bool_decide (head = q_run_base self) then mret tt
  else
    output ← on_host (λ self, queue_git self []
      ["rev-list"; "--first-parent"; "--reverse"; q_run_base self +:+ ".." +:+ head] true);
    let commits := filter (λ s, s ≠ "") (splitlines (Git.stdout output)) in
    last ← recover_commits accept dag (q_run_base self) ∅ (-1) commits;
    ensure (bool_decide (last = head)) MergeQueueError
      "existing integration history could not recover its final head".
Definition _initialize_or_recover_ref (accept : RecoveredTask → string → string → Q unit)
    (dag : TaskDAG) : Q string :=
  self ← queue;
  existing ← on_host (λ self, ref_status self (q_integration_ref self));
  if existing =? 1 then
    created ← on_host (λ self, queue_git self []
      ["update-ref"; q_integration_ref self; q_run_base self; zeros (str_len (q_run_base self))]
      false);
    ensure (returncode created =? 0) MergeQueueError
      "integration ref could not be created atomically" ;;
    mret (q_run_base self)
  else
    ensure (existing =? 0) MergeQueueError "Git could not determine integration-ref existence" ;;
    head ← on_host (λ self, _resolve_commit self (q_integration_ref self) "existing integration ref");
    ancestry ← on_host (λ self, queue_git self []
      ["merge-base"; "--is-ancestor"; q_run_base self; head] false);
    ensure (returncode ancestry =? 0) MergeQueueError
      "existing integration ref does not descend from the frozen run base" ;;
    _recover_successful_history accept dag head ;;
    mret head.
Definition recover_marker (scheduler : DAGScheduler) : Q unit :=
  self ← queue;
  let head := q_head self in
  marker_commit ← on_host (λ self,
    _resolve_commit self (q_conflict_ref self) "integration conflict marker");
  parents ← on_host (λ self, _commit_parents self marker_commit);
  ensure (bool_decide (parents = [head])) MergeQueueError
    "integration conflict marker has an unexpected parent" ;;
  marker_tree ← on_host (λ self, _resolve_tree self marker_commit);
  head_tree ← on_host (λ self, _resolve_tree self head);
  ensure (bool_decide (marker_tree = head_tree)) MergeQueueError
    "integration conflict marker unexpectedly changes repository tree" ;;
  metadata ← on_host (λ self, _parse_conflict_message self marker_commit);
  task_id ← lift (field_of metadata "task");
  task_branch ← lift (field_of metadata "branch");
  task_base ← lift (field_of metadata "base");
  task_commit ← lift (field_of metadata "commit");
  integration_head ← lift (field_of metadata "integration_head");
  ensure (bool_decide (integration_head = head)) MergeQueueError
    "integration conflict marker references an unexpected head" ;;
  ensure (bool_decide (is_Some (order_index (q_order self) !! task_id))
          && bool_decide (task_id ∉ q_integrated self)) MergeQueueError
    "integration conflict marker references an invalid task" ;;
  record ← on_host (λ self, view_record_for (q_worktrees self) task_id (Some task_base));
  ensure (bool_decide (task_branch = twr_branch_name record)) MergeQueueError
    "integration conflict marker records an unexpected task branch" ;;
  task_parents ← on_host (λ self, _commit_parents self task_commit);
  ensure (bool_decide (task_parents = [task_base])) MergeQueueError
    "conflicted task commit does not match its recorded task base" ;;
  n ← lift (node (_dag scheduler) task_id);
  ensure (bool_decide ((list_to_set (tn_depends_on n) : gset string)
                       ⊆ list_to_set (q_integrated self))) MergeQueueError
    "integration conflict marker violates task dependencies" ;;
  lift (_assert_global_topological_gate scheduler (q_order self) task_id
          (list_to_set (q_integrated self))) ;;
  merge ← on_host (λ self, merge_tree self head task_commit);
  ensure (returncode merge =? 1) MergeQueueError
    "integration conflict marker cannot reproduce a Git conflict" ;;
  failure ← lift (_merge_conflict_failure task_id head task_commit (q_conflict_ref self)
                    marker_commit (Git.stdout merge) (Git.stderr merge));
  append_attempt (λ n, plain_attempt n task_id task_branch task_base task_commit head CONFLICT None
                    (Some failure)) ;;
  update set_stopped.
Definition _recover_conflict_marker (scheduler : DAGScheduler) : Q unit :=
  existing ← on_host (λ self, ref_status self (q_conflict_ref self));
  if existing =? 1 then mret tt
  else
    ensure (existing =? 0) MergeQueueError
      "Git could not determine integration-conflict ref existence" ;;
    recover_marker scheduler.

(** [^[A-Za-z0-9][A-Za-z0-9._-]{0,127}$] *)
Definition integration_id_ok (s : string) : bool := matches_id_pattern s && (str_len s <=? 128)%nat.
(** The object [__init__] fills; [_head] is not read before it is assigned. *)
Definition blank_queue (worktrees : WorktreeView) (base_workspace : LocalGitWorkspace)
    (integration_id : string) (order : list string) : TopologicalMergeQueue := {|
  q_worktrees := worktrees; q_base_workspace := base_workspace;
  q_run_base := view_base_commit worktrees;
  q_integration_ref := "refs/devflow/integration/" +:+ integration_id;
  q_conflict_ref := "refs/devflow/integration-conflicts/" +:+ integration_id;
  q_order := order; q_attempts := []; q_integrated := []; q_stopped := false;
  q_head := view_base_commit worktrees |}.
Definition start_queue (accept : RecoveredTask → string → string → Q unit)
    (recover_conflict : DAGScheduler → Q unit) (scheduler : DAGScheduler) : Q unit :=
  on_host (λ self, _resolve_commit self (q_run_base self) "frozen run base") ;;
  on_host (λ self, _validate_ref_name self (q_integration_ref self)) ;;
  on_host (λ self, _validate_ref_name self (q_conflict_ref self)) ;;
  head ← _initialize_or_recover_ref accept (_dag scheduler);
  update (set_head head) ;;
  recover_conflict scheduler.
(** [__init__]: the object is dropped when the constructor raises. *)
Definition constructed (blank : TopologicalMergeQueue) (body : Q unit) : M Host TopologicalMergeQueue :=
  λ h, match body (blank, h) with
       | (Ok _, (q, h')) => (Ok q, h')
       | (Raise e, (_, h')) => (Raise e, h')
       end.
Definition queue_init (accept : RecoveredTask → string → string → Q unit)
    (recover_conflict : DAGScheduler → Q unit) (scheduler : DAGScheduler)
    (worktrees : WorktreeView) (base_workspace : LocalGitWorkspace) (integration_id : string)
    : M Host TopologicalMergeQueue :=
  ensure (integration_id_ok integration_id) ValueError
    ("integration_id must start with an alphanumeric character and contain only "
     +:+ "letters, digits, '.', '_', or '-'") ;;
  changed ← changed_files base_workspace;
  ensure (bool_decide (changed = [])) MergeQueueError
    "base workspace must be clean before integration starts" ;;
  order ← lift (topological_order (_dag scheduler));
  constructed (blank_queue worktrees base_workspace integration_id order)
    (start_queue accept recover_conflict scheduler).
(** [TopologicalMergeQueue(...)] *)
Definition TopologicalMergeQueue_init : DAGScheduler → WorktreeView → LocalGitWorkspace →
    string → M Host TopologicalMergeQueue :=
  queue_init accept_clean _recover_conflict_marker.
End queue.
