(* ===== verification/RepairQueue.v ===== *)
(** * RepairQueue: recovering a queue that has repaired conflicts

    [runtime/repair_merge_queue.py]: [RepairAwareTopologicalMergeQueue]
    overrides how a recovered commit is accepted, when its message says that it
    repairs a conflict, and lets a conflict marker that was repaired pass. *)
From stdpp Require Import options.
From S2P Require Import Prelude Contracts Dag Scheduler RunModels Lease Merge Reconcile Git Worktree MergeQueue.
Open Scope Z_scope.

Definition _REPAIR_FLAG : string := "DevFlow-Integration-Repair: true".
Definition _REPAIR_PREFIXES : list (string * string) :=
  [("DevFlow-Conflict-Marker: ", "conflict_marker");
   ("DevFlow-Conflict-Evidence-Fingerprint: ", "evidence_fingerprint");
   ("DevFlow-Policy-Fingerprint: ", "policy_fingerprint");
   ("DevFlow-Human-Decision-Commit: ", "human_decision_commit")].

(** [_parse_repair_metadata] of a message: [None] for a clean integration. *)
Definition repair_metadata_of (message : string) : result (option (gmap string string)) :=
  let lines := splitlines message in
  if decide (_REPAIR_FLAG ∈ lines) then
    metadata ← read_fields
      (Exn MergeQueueError "integration repair commit contains duplicate metadata")
      (Exn MergeQueueError "integration repair commit is missing required metadata")
      _REPAIR_PREFIXES lines;
    Ok (Some metadata)
  else
    check (negb (existsb (λ line, existsb (λ p, str_startswith p.1 line) _REPAIR_PREFIXES) lines))
      MergeQueueError "integration commit contains incomplete repair metadata" ;;
    Ok None.
Definition _require_sha256 (value label : string) : result unit :=
  check (hex_string is_lower_hex 64 64 value) MergeQueueError
    (label +:+ " is not a lowercase SHA-256 digest").
(** The loop over [expected_marker]. *)
Definition marker_matches (marker_metadata : gmap string string) (u : unit)
    (expected : string * string) : result unit :=
  value ← field_of marker_metadata expected.1;
  check (bool_decide (value = expected.2)) MergeQueueError
    ("repair conflict marker metadata mismatch: " +:+ expected.1).

Section repair_queue.
Context `{Machine}.
Notation Q := (M (TopologicalMergeQueue * Host)).

Definition _parse_repair_metadata (self : TopologicalMergeQueue) (commit : string)
    : M Host (option (gmap string string)) :=
  output ← queue_git self [] ["show"; "-s"; "--format=%B"; commit] true;
  lift (repair_metadata_of (Git.stdout output)).
Definition repaired_attempt (task : RecoveredTask) (previous_head commit marker evidence policy
    decision : string) (n : Z) : MergeQueueAttempt := {|
  mqa_sequence := n; mqa_task_id := rt_task_id task; mqa_task_branch := rt_branch task;
  mqa_task_base_commit := rt_base task; mqa_task_commit := rt_commit task;
  mqa_previous_integration_commit := previous_head; mqa_outcome := REPAIRED;
  mqa_integration_commit := Some commit; mqa_failure := None;
  mqa_conflict_marker_commit := Some marker; mqa_conflict_evidence_fingerprint := Some evidence;
  mqa_policy_fingerprint := Some policy; mqa_human_decision_commit := Some decision |}.
(** [self._resolve_tree(a) != self._resolve_tree(b)] *)
Definition same_tree (a b error : string) : Q unit :=
  left_tree ← on_host (λ self, _resolve_tree self a);
  right_tree ← on_host (λ self, _resolve_tree self b);
  ensure (bool_decide (left_tree = right_tree)) MergeQueueError error.
Definition only_parent (commit parent error : string) : Q unit :=
  parents ← on_host (λ self, _commit_parents self commit);
  ensure (bool_decide (parents = [parent])) MergeQueueError error.
Definition _recover_repaired_attempt (task : RecoveredTask) (previous_head commit : string)
    (repair : gmap string string) : Q unit :=
  merge ← on_host (λ self, merge_tree self previous_head (rt_commit task));
  ensure (returncode merge =? 1) MergeQueueError
    "repair-marked integration no longer reproduces the conflict it claims to repair" ;;
  marker ← lift (field_of repair "conflict_marker");
  lift (_require_full_oid marker "repair conflict marker") ;;
  only_parent marker previous_head "repair conflict marker has an unexpected parent" ;;
  same_tree marker previous_head "repair conflict marker unexpectedly changes repository tree" ;;
  marker_metadata ← on_host (λ self, _parse_conflict_message self marker);
  lift (fold_result (marker_matches marker_metadata) tt
    [("task", rt_task_id task); ("branch", rt_branch task); ("base", rt_base task);
     ("commit", rt_commit task); ("integration_head", previous_head)]) ;;
  evidence ← lift (field_of repair "evidence_fingerprint");
  lift (_require_sha256 evidence "conflict evidence fingerprint") ;;
  policy ← lift (field_of repair "policy_fingerprint");
  lift (_require_sha256 policy "policy fingerprint") ;;
  decision_commit ← lift (field_of repair "human_decision_commit");
  lift (_require_full_oid decision_commit "human decision commit") ;;
  only_parent decision_commit marker
    "repair human decision commit is not bound to the conflict marker" ;;
  same_tree decision_commit marker
    "repair human decision commit unexpectedly changes tree state" ;;
  self ← queue;
  failure ← lift (_merge_conflict_failure (rt_task_id task) previous_head (rt_commit task)
                    (q_conflict_ref self) marker (Git.stdout merge) (Git.stderr merge));
  append_attempt (λ n, plain_attempt n (rt_task_id task) (rt_branch task) (rt_base task)
    (rt_commit task) previous_head CONFLICT None (Some failure)) ;;
  append_attempt (repaired_attempt task previous_head commit marker evidence policy decision_commit).
(** The loop body of the overriding [_recover_successful_history] after the
    checks it shares with the base class. *)
Definition accept_repaired (task : RecoveredTask) (expected_previous commit : string) : Q unit :=
  repair ← on_host (λ self, _parse_repair_metadata self commit);
  match repair with
  | None => accept_clean task expected_previous commit
  | Some repair => _recover_repaired_attempt task expected_previous commit repair
  end.
(** The overriding [_recover_successful_history]. *)
Definition repair_recover_successful_history : TaskDAG → string → Q unit :=
  _recover_successful_history accept_repaired.
(** The most recent repair of [marker]. *)
Definition repaired_by (marker : string) (attempts : list MergeQueueAttempt)
    : option MergeQueueAttempt :=
  last (filter (λ a, mqa_outcome a = REPAIRED ∧ mqa_conflict_marker_commit a = Some marker) attempts).
Definition recover_repaired_marker (scheduler : DAGScheduler) : Q unit :=
  existing ← on_host (λ self, ref_status self (q_conflict_ref self));
  if existing =? 1 then mret tt
  else
    ensure (existing =? 0) MergeQueueError
      "Git could not determine integration-conflict ref existence" ;;
    marker ← on_host (λ self,
      _resolve_commit self (q_conflict_ref self) "integration conflict marker");
    self ← queue;
    match repaired_by marker (q_attempts self) with
    | Some repaired =>
        only_parent marker (mqa_previous_integration_commit repaired)
          "resolved conflict marker parent changed after repair" ;;
        same_tree marker (mqa_previous_integration_commit repaired)
          "resolved conflict marker tree changed after repair"
    | None => _recover_conflict_marker scheduler
    end.
(** [RepairAwareTopologicalMergeQueue(...)] *)
Definition RepairAwareTopologicalMergeQueue_init : DAGScheduler → WorktreeView →
    LocalGitWorkspace → string → M Host TopologicalMergeQueue :=
  queue_init accept_repaired recover_repaired_marker.
End repair_queue.
