(* ===== verification/ToyGit.v ===== *)
(** * ToyGit: a small repository to run the models on

    An instance of [Machine] that implements the Git commands the queue uses,
    over commits with trees of files, three-way merges and refs.  It serves the
    witnesses: the theorems hold for every machine, and here is one on which
    their hypotheses hold and the programs run to their end. *)
From stdpp Require Import options.
From S2P Require Import Prelude Git.
Open Scope Z_scope.

Notation toy_tree := (gmap string string).
Record toy_commit : Set := {
  tc_tree : nat;
  tc_parents : list nat;
  tc_message : string;
}.
Record toy_repo : Set := {
  tr_trees : list toy_tree;
  tr_commits : list toy_commit;
  tr_refs : gmap string nat;
}.

Definition toy_oid (tag : ascii) (k : nat) : string :=
  of_chars (tag :: replicate 37 "0"%char
              ++ [digit (Z.of_nat k / 10); digit (Z.of_nat k mod 10)]).
Definition commit_oid : nat → string := toy_oid "c".
Definition tree_oid : nat → string := toy_oid "7".
Definition index_where (p : nat → bool) (n : nat) : option nat := head (List.filter p (seq 0 n)).
Definition commit_named (repo : toy_repo) (s : string) : option nat :=
  match tr_refs repo !! s with
  | Some k => Some k
  | None => index_where (λ k, bool_decide (commit_oid k = s)) (length (tr_commits repo))
  end.
(** [name^{commit}] *)
Definition peeled (s : string) : string := default "" (head (split_on "^" s)).
Definition wants_tree (s : string) : bool := bool_decide (split_on "^" s !! 1%nat = Some "{tree}").

Definition add_tree (t : toy_tree) (repo : toy_repo) : nat * toy_repo :=
  match index_where (λ k, bool_decide (tr_trees repo !! k = Some t)) (length (tr_trees repo)) with
  | Some k => (k, repo)
  | None => (length (tr_trees repo),
             {| tr_trees := tr_trees repo ++ [t]; tr_commits := tr_commits repo;
                tr_refs := tr_refs repo |})
  end.
Definition add_commit (c : toy_commit) (repo : toy_repo) : nat * toy_repo :=
  (length (tr_commits repo),
   {| tr_trees := tr_trees repo; tr_commits := tr_commits repo ++ [c]; tr_refs := tr_refs repo |}).
Definition set_ref (ref : string) (k : nat) (repo : toy_repo) : toy_repo :=
  {| tr_trees := tr_trees repo; tr_commits := tr_commits repo; tr_refs := <[ref := k]> (tr_refs repo) |}.
Definition parents_of (repo : toy_repo) (k : nat) : list nat :=
  match tr_commits repo !! k with Some c => tc_parents c | None => [] end.
Definition tree_index (repo : toy_repo) (k : nat) : nat :=
  match tr_commits repo !! k with Some c => tc_tree c | None => 0%nat end.
Definition tree_of (repo : toy_repo) (k : nat) : toy_tree :=
  default ∅ (tr_trees repo !! tree_index repo k).
(** The commits reachable from [k]; parents are older. *)
Fixpoint reaches (repo : toy_repo) (fuel : nat) (k target : nat) : bool :=
  bool_decide (k = target) ||
  match fuel with
  | O => false
  | S fuel => existsb (λ p, reaches repo fuel p target) (parents_of repo k)
  end.
Fixpoint first_parents (repo : toy_repo) (fuel : nat) (k stop : nat) : list nat :=
  match fuel with
  | O => []
  | S fuel =>
      if bool_decide (k = stop) then []
      else match parents_of repo k with
           | p :: _ => first_parents repo fuel p stop ++ [k]
           | [] => [k]
           end
  end.
(** A three-way merge of two commits from the first parent of the second. *)
Definition merge_file (b o t : option string) : option (option string) :=
  if bool_decide (t = b) || bool_decide (o = t) then Some o
  else if bool_decide (o = b) then Some t else None.
Fixpoint merge_files (base ours theirs : toy_tree) (files : list string) : option toy_tree :=
  match files with
  | [] => Some ∅
  | f :: files =>
      match merge_file (base !! f) (ours !! f) (theirs !! f), merge_files base ours theirs files with
      | Some (Some v), Some m => Some (<[f := v]> m)
      | Some None, Some m => Some m
      | _, _ => None
      end
  end.
Definition merge_commits (repo : toy_repo) (ours theirs : nat) : option toy_tree :=
  let base := match parents_of repo theirs with p :: _ => tree_of repo p | [] => ∅ end in
  merge_files base (tree_of repo ours) (tree_of repo theirs)
    (elements (dom base ∪ dom (tree_of repo ours) ∪ dom (tree_of repo theirs))).

(** ** The commands *)
Definition answer (code : Z) (out : string) (repo : toy_repo) : process_result * toy_repo :=
  (Finished {| returncode := code; stdout := out; stderr := "" |}, repo).
Definition line_feed : string := String "010" "".
Definition print (s : string) (repo : toy_repo) : process_result * toy_repo :=
  answer 0 (s +:+ line_feed) repo.
Definition fails (repo : toy_repo) : process_result * toy_repo := answer 128 "" repo.

Definition rev_parse (spec : string) (repo : toy_repo) : process_result * toy_repo :=
  match commit_named repo (peeled spec) with
  | Some k => print (if wants_tree spec then tree_oid (tree_index repo k) else commit_oid k) repo
  | None => fails repo
  end.
Definition update_ref (ref new old : string) (repo : toy_repo) : process_result * toy_repo :=
  let current := match tr_refs repo !! ref with
                 | Some k => commit_oid k
                 | None => of_chars (replicate (str_len old) "0"%char)
                 end in
  match commit_named repo new with
  | Some k => if bool_decide (current = old) then answer 0 "" (set_ref ref k repo) else fails repo
  | None => fails repo
  end.
Fixpoint commit_args (repo : toy_repo) (parents : list nat) (args : list string)
    : option (list nat * string) :=
  match args with
  | flag :: value :: args =>
      if bool_decide (flag = "-p") then
        match commit_named repo value with
        | Some k => commit_args repo (parents ++ [k]) args
        | None => None
        end
      else Some (parents, value)
  | _ => None
  end.
Definition commit_tree (tree : string) (args : list string) (repo : toy_repo)
    : process_result * toy_repo :=
  match index_where (λ k, bool_decide (tree_oid k = tree)) (length (tr_trees repo)),
        commit_args repo [] args with
  | Some t, Some (parents, message) =>
      let '(k, repo) := add_commit {| tc_tree := t; tc_parents := parents; tc_message := message |} repo in
      print (commit_oid k) repo
  | _, _ => fails repo
  end.
Definition merge_tree_command (ours theirs : string) (repo : toy_repo) : process_result * toy_repo :=
  match commit_named repo ours, commit_named repo theirs with
  | Some o, Some t =>
      match merge_commits repo o t with
      | Some tree => let '(k, repo) := add_tree tree repo in print (tree_oid k) repo
      | None => answer 1 ("CONFLICT" +:+ line_feed) repo
      end
  | _, _ => fails repo
  end.
Definition is_ancestor (a b : string) (repo : toy_repo) : process_result * toy_repo :=
  match commit_named repo a, commit_named repo b with
  | Some a, Some b => answer (if reaches repo (length (tr_commits repo)) b a then 0 else 1) "" repo
  | _, _ => fails repo
  end.
Definition rev_list (args : list string) (repo : toy_repo) : process_result * toy_repo :=
  match args with
  | [_; _; _; c] =>
      match commit_named repo c with
      | Some k => print (join " " (commit_oid <$> k :: parents_of repo k)) repo
      | None => fails repo
      end
  | [_; _; range] =>
      match split_on "." range with
      | [a; _; b] =>
          match commit_named repo a, commit_named repo b with
          | Some a, Some b =>
              answer 0 (join line_feed (commit_oid <$> first_parents repo (length (tr_commits repo)) b a))
                repo
          | _, _ => fails repo
          end
      | _ => fails repo
      end
  | _ => fails repo
  end.
(** A blob is named by the first characters of its text. *)
Definition blob_oid (content : string) : string :=
  of_chars ("b"%char :: take 39 (mjoin ((λ c, let n := nat_of_ascii c in
      [ascii_of_nat (97 + n / 64); digit (Z.of_nat (n / 8 mod 8)); digit (Z.of_nat (n mod 8))])
    <$> chars content) ++ replicate 39 "0"%char)).
Definition blob_named (repo : toy_repo) (oid : string) : option string :=
  head (List.filter (λ content, bool_decide (blob_oid content = oid))
    (mjoin ((λ t : toy_tree, (map_to_list t).*2) <$> tr_trees repo))).
Definition cat_file (kind oid : string) (repo : toy_repo) : process_result * toy_repo :=
  match blob_named repo oid with
  | Some content =>
      if bool_decide (kind = "-s") then print (str_of_Z (Z.of_nat (str_len content))) repo
      else answer 0 content repo
  | None => fails repo
  end.
Definition toy_git (args : list string) (repo : toy_repo) : process_result * toy_repo :=
  match args with
  | [] => fails repo
  | command :: rest =>
      if bool_decide (command = "show-ref") then
        answer (if bool_decide (is_Some (tr_refs repo !! List.last rest "")) then 0 else 1) "" repo
      else if bool_decide (command = "rev-parse") then rev_parse (List.last rest "") repo
      else if bool_decide (command = "check-ref-format") then answer 0 "" repo
      else if bool_decide (command ∈ ["diff"; "ls-files"]) then answer 0 "" repo
      else if bool_decide (command = "rev-list") then rev_list rest repo
      else if bool_decide (command = "show") then
        match commit_named repo (List.last rest "") ≫= λ k, tr_commits repo !! k with
        | Some c => print (tc_message c) repo
        | None => fails repo
        end
      else if bool_decide (command = "cat-file") then
        cat_file (default "" (rest !! 0%nat)) (List.last rest "") repo
      else match rest with
           | [_; ours; theirs] =>
               if bool_decide (command = "merge-tree") then merge_tree_command ours theirs repo
               else if bool_decide (command = "merge-base") then is_ancestor ours theirs repo
               else if bool_decide (command = "update-ref") then
                 let '(ref, new, old) := (default "" (rest !! 0%nat), ours, theirs) in
                 update_ref ref new old repo
               else fails repo
           | [_; _; ref; new; old] =>
               if bool_decide (command = "update-ref") then update_ref ref new old repo
               else commit_tree (default "" (rest !! 0%nat)) (drop 1 rest) repo
           | tree :: args => commit_tree tree args repo
           | [] => fails repo
           end
  end.
#[export] Instance toy_machine : Machine := {|
  Host := toy_repo;
  run_git _ _ args repo := toy_git args repo;
  path_resolve _ p := p;
  path_is_symlink _ _ := false;
  path_exists _ _ := true;
  path_is_dir _ _ := true;
|}.
