(* ===== verification/QueueExample.v ===== *)
(** * QueueExample: a queue at work

    The merge queue on the small repository of [ToyGit]: three tasks of a
    diamond, the second and third of which change the same file.  Its states
    are the inputs of the witnesses. *)
From stdpp Require Import options.
From S2P Require Import Prelude Contracts Dag DagFacts Scheduler RunModels Merge Git Worktree MergeQueue RepairQueue ToyGit.
Open Scope Z_scope.

Definition toy_sha256 (_ : string) : string := of_chars (replicate 64 "a"%char).
Definition toy_file (name content : string) : toy_tree := {[name := content]}.
Definition task_ref (t : string) : string := "refs/heads/" +:+ branch_for toy_sha256 t.
(** The run base and one commit per task. *)
Definition example_repo : toy_repo := {|
  tr_trees := [toy_file "src/x.py" "0"; <["src/y.py" := "a"]> (toy_file "src/x.py" "0");
               toy_file "src/x.py" "b"; toy_file "src/x.py" "c"];
  tr_commits := [
    {| tc_tree := 0; tc_parents := []; tc_message := "base" |};
    {| tc_tree := 1; tc_parents := [0%nat]; tc_message := "DevFlow task a" |};
    {| tc_tree := 2; tc_parents := [0%nat]; tc_message := "DevFlow task b" |};
    {| tc_tree := 3; tc_parents := [0%nat]; tc_message := "DevFlow task c" |}];
  tr_refs := <["HEAD" := 0%nat]> (<[task_ref "a" := 1%nat]> (<[task_ref "b" := 2%nat]>
               {[task_ref "c" := 3%nat]}));
|}.
Definition example_workspace : LocalGitWorkspace := {| ws_root := "/repo" |}.
Definition example_manager : TaskWorktreeManager := {|
  twm_base_workspace := example_workspace; twm_root := "/worktrees"; twm_base_commit := commit_oid 0 |}.
Definition example_view : WorktreeView := manager_view toy_sha256 example_manager.

Definition example_operations : list operation :=
  [OpStart "a"; OpSucceed "a"; OpStart "b"; OpStart "c"; OpSucceed "c"; OpSucceed "b"].
Definition example_scheduler : DAGScheduler := after fresh example_operations.
Definition example_run (t : string) : SingleTaskRunResult := {|
  sr_task_id := t; sr_status := RUN_SUCCEEDED; sr_events := []; sr_developer := None;
  sr_verifications := []; sr_reviews := []; sr_repairs := []; sr_failures := [];
  sr_changed_files := []; sr_repair_attempts := 0; sr_agent_models := []; sr_agent_usage := [];
  sr_context_state := None |}.
Definition example_result (t : string) (k : nat) : WorkerTaskResult := {|
  wtr_task_id := t; wtr_scheduler_state := Scheduler.SUCCEEDED;
  wtr_worktree_path := Some ("/worktrees/" +:+ task_slug t +:+ "-" +:+ task_digest toy_sha256 t);
  wtr_branch_name := Some (branch_for toy_sha256 t); wtr_base_commit := Some (commit_oid 0);
  wtr_commit_sha := Some (commit_oid k); wtr_run_result := Some (example_run t);
  wtr_failures := []; wtr_duration_ms := 5 |}.
(** The three results, as the workers finished. *)
Definition example_results : list WorkerTaskResult :=
  [example_result "c" 3; example_result "a" 1; example_result "b" 2].

Definition blank : TopologicalMergeQueue :=
  blank_queue example_view example_workspace "run-1" (vd_order diamond).
Definition queue_or_blank {A} (x : result A * (TopologicalMergeQueue * Host)) := x.2.
(** The queue on the fresh repository. *)
Definition first_queue : TopologicalMergeQueue * Host :=
  match TopologicalMergeQueue_init example_scheduler example_view example_workspace "run-1" example_repo with
  | (Ok q, h) => (q, h)
  | (Raise _, h) => (blank, h)
  end.
(** After the wave: [a] and [b] are integrated, [c] conflicts with [b]. *)
Definition second_queue : TopologicalMergeQueue * Host :=
  (integrate example_scheduler example_results first_queue).2.

Example first_queue_made :
  is_ok (TopologicalMergeQueue_init example_scheduler example_view example_workspace "run-1"
           example_repo).1 = true.
Proof. vm_compute. reflexivity. Qed.
Example wave_outcome :
  is_ok (integrate example_scheduler example_results first_queue).1 = true
  ∧ q_integrated second_queue.1 = ["a"; "b"] ∧ q_stopped second_queue.1 = true.
Proof. vm_compute. auto. Qed.
(** A process that starts again on the repository recovers the same record. *)
Example wave_recovered :
  (q ← (TopologicalMergeQueue_init example_scheduler example_view example_workspace "run-1"
          second_queue.2).1; queue_snapshot q) = queue_snapshot second_queue.1.
Proof. vm_compute. reflexivity. Qed.
