(* ===== verification/MergeMessages.v ===== *)
(** * MergeMessages: the metadata in the queue's commit messages

    The queue writes what it did into the messages of its commits
    ([_integration_message], [_conflict_message]) and a later process reads it
    back ([_parse_metadata]).  Reading what was written gives the same fields. *)
From stdpp Require Import options.
From S2P Require Import Prelude Contracts RunModels Merge Git Worktree MergeQueue RepairQueue ToyGit QueueExample.
Open Scope Z_scope.

(** ** Text without white space *)
Definition no_space (s : string) : bool := forallb (λ c, negb (is_py_space c)) (chars s).

Lemma no_space_char s c : no_space s = true → c ∈ chars s → is_py_space c = false.
Proof.
  unfold no_space. rewrite forallb_forall. intros Hs Hc%list_elem_of_In. apply negb_true_iff. auto.
Qed.
Lemma line_break_space c : is_py_space c = false → is_line_break c = false.
Proof. destruct c as [[] [] [] [] [] [] [] []]; vm_compute; congruence. Qed.
Lemma id_tail_space c : is_id_tail c = true → is_py_space c = false.
Proof. destruct c as [[] [] [] [] [] [] [] []]; vm_compute; congruence. Qed.
Lemma hex_space c : is_any_hex c = true → is_py_space c = false.
Proof. destruct c as [[] [] [] [] [] [] [] []]; vm_compute; congruence. Qed.

Lemma no_space_Forall s : (∀ c, c ∈ chars s → is_py_space c = false) → no_space s = true.
Proof.
  intros Hs. unfold no_space. apply forallb_forall. intros c Hc%list_elem_of_In.
  by rewrite (Hs c Hc).
Qed.
Lemma no_space_id s : matches_id_pattern s = true → no_space s = true.
Proof.
  intros Hs. apply no_space_Forall. intros c Hc. apply id_tail_space. unfold matches_id_pattern in Hs.
  destruct (chars s) as [|a l]; [done|]. apply andb_true_iff in Hs as [Ha Hl].
  apply elem_of_cons in Hc as [->|Hc]; [unfold is_id_tail; by rewrite Ha|].
  rewrite forallb_forall in Hl. by apply Hl, list_elem_of_In.
Qed.
Lemma no_space_commit s : full_commit s = true → no_space s = true.
Proof.
  intros [_ Hs]%andb_true_iff. apply no_space_Forall. intros c Hc. apply hex_space.
  rewrite forallb_forall in Hs. by apply Hs, list_elem_of_In.
Qed.

Lemma drop_spaces_none l : (∀ c, c ∈ l → is_py_space c = false) → drop_spaces l = l.
Proof. intros Hl. apply drop_spaces_fixed. destruct l; [done|]. apply Hl. by left. Qed.
Lemma strip_no_space s : no_space s = true → strip s = s.
Proof.
  intros Hs. unfold strip.
  assert (Hc : ∀ c, c ∈ chars s → is_py_space c = false) by (intros c; by apply no_space_char).
  rewrite (drop_spaces_none (chars s)) by done.
  rewrite (drop_spaces_none (reverse (chars s))) by (intros c; rewrite elem_of_reverse; apply Hc).
  by rewrite reverse_involutive, of_chars_chars.
Qed.

(** ** Lines *)
Lemma split_lines_newline cur a l :
  (∀ c, c ∈ a → is_line_break c = false) →
  split_lines cur (a ++ ascii_of_nat 10 :: l) = (reverse cur ++ a) :: split_lines [] l.
Proof.
  revert cur. induction a as [|c a IH]; intros cur Ha.
  - rewrite app_nil_r. cbn. by destruct l.
  - cbn [app split_lines]. rewrite (Ha c) by set_solver. rewrite IH by set_solver.
    by rewrite reverse_cons, <- app_assoc.
Qed.
Lemma splitlines_newline a s :
  forallb (λ c, negb (is_line_break c)) (chars a) = true →
  splitlines (a +:+ newline +:+ s) = a :: splitlines s.
Proof.
  intros Ha. unfold splitlines. rewrite !chars_app. change (chars newline) with [ascii_of_nat 10].
  cbn [app]. rewrite split_lines_newline.
  - cbn. by rewrite of_chars_chars.
  - intros c Hc. rewrite forallb_forall in Ha. apply negb_true_iff, Ha, list_elem_of_In, Hc.
Qed.
Lemma one_line_app a b : forallb (λ c, negb (is_line_break c)) (chars a) = true → no_space b = true →
  forallb (λ c, negb (is_line_break c)) (chars (a +:+ b)) = true.
Proof.
  intros Ha Hb. rewrite chars_app, forallb_app, Ha. apply forallb_forall. intros c Hc%list_elem_of_In.
  by rewrite (line_break_space c) by by eapply no_space_char.
Qed.

(** ** Prefixes *)
(** [p] and [q] disagree before either ends. *)
Fixpoint differ (p q : list ascii) : bool :=
  match p, q with
  | c :: p, d :: q => if Ascii.eqb c d then differ p q else true
  | _, _ => false
  end.
Lemma differ_startswith p q v : differ p q = true → startswith p (q ++ v) = false.
Proof.
  revert q. induction p as [|c p IH]; intros [|d q]; cbn; try done.
  destruct (Ascii.eqb_spec c d) as [->|Hne]; intros Hd; [by rewrite IH, andb_false_r|].
  by rewrite bool_decide_eq_false_2.
Qed.
Lemma startswith_app p v : startswith p (p ++ v) = true.
Proof. induction p as [|c p IH]; [done|]. cbn. by rewrite bool_decide_eq_true_2. Qed.

Definition other_prefixes (q : string) (prefixes : list (string * string)) : bool :=
  forallb (λ p, differ (chars p.1) (chars q)) prefixes.

(** A line of another kind is skipped. *)
Lemma read_line_other duplicate prefixes md q v :
  other_prefixes q prefixes = true → read_line duplicate prefixes md (q +:+ v) = Ok md.
Proof.
  unfold read_line, other_prefixes. induction prefixes as [|[p k] ps IH]; [done|]. cbn.
  intros [Hd Hps]%andb_true_iff. unfold str_startswith.
  rewrite chars_app, (differ_startswith _ _ _ Hd). cbn. by apply IH.
Qed.
Lemma read_line_empty duplicate prefixes md :
  forallb (λ p, negb (bool_decide (p.1 = ""))) prefixes = true → read_line duplicate prefixes md "" = Ok md.
Proof.
  unfold read_line. induction prefixes as [|[p k] ps IH]; [done|]. cbn [forallb fst].
  intros [Hp Hps]%andb_true_iff. to_prop. cbn. destruct p as [|c p]; [done|]. cbn. by apply IH.
Qed.
(** A line with the prefix of a field that was not read yet adds the field. *)
Lemma read_line_text duplicate ps qs p k md v :
  other_prefixes p ps = true → other_prefixes p qs = true → md !! k = None → strip v = v →
  read_line duplicate (ps ++ (p, k) :: qs) md (p +:+ v) = Ok (<[k := v]> md).
Proof.
  intros Hps Hqs Hk Hv. unfold read_line. rewrite fold_result_app.
  pose proof (read_line_other duplicate ps md p v Hps) as Hskip. unfold read_line in Hskip. rewrite Hskip.
  cbn. unfold str_startswith. rewrite chars_app, startswith_app, Hk. cbn.
  rewrite drop_app_length', of_chars_chars, Hv by done.
  apply (read_line_other duplicate qs _ p v Hqs).
Qed.
Lemma read_line_field duplicate ps qs p k md v :
  other_prefixes p ps = true → other_prefixes p qs = true → md !! k = None → no_space v = true →
  read_line duplicate (ps ++ (p, k) :: qs) md (p +:+ v) = Ok (<[k := v]> md).
Proof. intros ? ? ? Hv%strip_no_space. by apply read_line_text. Qed.
Lemma read_fields_intro duplicate missing prefixes lines md :
  fold_result (read_line duplicate prefixes) ∅ lines = Ok md →
  dom md = list_to_set (snd <$> prefixes) →
  read_fields duplicate missing prefixes lines = Ok md.
Proof. intros Hf Hd. unfold read_fields. rewrite Hf. cbn. by rewrite bool_decide_eq_true_2. Qed.

(** Blank lines at the end of the message. *)
Fixpoint newlines (n : nat) : string :=
  match n with O => "" | S n => newline +:+ newlines n end.
Lemma splitlines_last a n :
  a ≠ "" → forallb (λ c, negb (is_line_break c)) (chars a) = true →
  splitlines (a +:+ newlines n) = a :: replicate (Nat.pred n) "".
Proof.
  intros Hne Ha.
  assert (Hs : ∀ n, splitlines (newlines n) = replicate n "").
  { clear. induction n as [|n IH]; [done|]. cbn [newlines].
    change (newline +:+ newlines n) with ("" +:+ newline +:+ newlines n).
    by rewrite splitlines_newline, IH. }
  destruct n as [|n]; cbn [newlines].
  - assert (Hl : ∀ cur l, (∀ c, c ∈ l → is_line_break c = false) → cur ++ l ≠ [] →
      split_lines cur l = [reverse cur ++ l]).
    { clear. intros cur l. revert cur. induction l as [|c l IH]; intros cur Hl Hne.
      - rewrite app_nil_r in *. by destruct cur.
      - cbn. rewrite (Hl c) by set_solver. rewrite IH; [by rewrite reverse_cons, <- app_assoc|set_solver|done]. }
    unfold splitlines. rewrite chars_app. cbn [chars String.list_ascii_of_string]. rewrite app_nil_r, Hl.
    + cbn. by rewrite of_chars_chars.
    + intros c Hc. rewrite forallb_forall in Ha. apply negb_true_iff, Ha, list_elem_of_In, Hc.
    + cbn. intros Hn. apply Hne. by rewrite <- (of_chars_chars a), Hn.
  - by rewrite splitlines_newline, Hs.
Qed.

Definition one_line (p : string) : bool := forallb (λ c, negb (is_line_break c)) (chars p).
Lemma splitlines_field p v s : one_line p = true → no_space v = true →
  splitlines (p +:+ v +:+ newline +:+ s) = (p +:+ v) :: splitlines s.
Proof. intros Hp Hv. rewrite <- str_app_assoc. by apply splitlines_newline, one_line_app. Qed.
Lemma splitlines_final p v n : p ≠ "" → one_line p = true → no_space v = true →
  splitlines (p +:+ v +:+ newlines n) = (p +:+ v) :: replicate (Nat.pred n) "".
Proof.
  intros Hne Hp Hv. rewrite <- str_app_assoc. apply splitlines_last; [|by apply one_line_app].
  by destruct p.
Qed.

Lemma read_blank_lines duplicate prefixes md n :
  forallb (λ p, negb (bool_decide (p.1 = ""))) prefixes = true →
  fold_result (read_line duplicate prefixes) md (replicate n "") = Ok md.
Proof. intros Hp. induction n as [|n IH]; [done|]. cbn. by rewrite read_line_empty. Qed.

(** *** The lines of the two messages *)
Section messages.
Context (r : WorkerTaskResult) (b base c head : string) (n : nat).
Context (Ht : matches_id_pattern (wtr_task_id r) = true) (Hb : no_space b = true)
  (Hbase : full_commit base = true) (Hc : full_commit c = true) (Hhead : full_commit head = true)
  (Eb : wtr_branch_name r = Some b) (Ebase : wtr_base_commit r = Some base)
  (Ec : wtr_commit_sha r = Some c).
Notation t := (wtr_task_id r).

Lemma integration_lines :
  splitlines (_integration_message r +:+ newlines n) =
  ["DevFlow integrate " +:+ t; ""; "DevFlow-Task: " +:+ t; "DevFlow-Task-Branch: " +:+ b;
   "DevFlow-Task-Base: " +:+ base; "DevFlow-Task-Commit: " +:+ c] ++ replicate (Nat.pred n) "".
Proof using Ht Hb Hbase Hc Eb Ebase Ec.
  apply no_space_id in Ht. apply no_space_commit in Hbase, Hc.
  unfold _integration_message. rewrite Eb, Ebase, Ec, !str_app_assoc. cbn [shown default].
  rewrite splitlines_field by done.
  change (newline +:+ ?s) with ("" +:+ newline +:+ s). rewrite (splitlines_newline "") by done.
  rewrite !splitlines_field by done. by rewrite splitlines_final by done.
Qed.
Lemma conflict_lines :
  splitlines (_conflict_message r head +:+ newlines n) =
  ["DevFlow integration conflict for " +:+ t; ""; "DevFlow-Conflict-Task: " +:+ t;
   "DevFlow-Conflict-Branch: " +:+ b; "DevFlow-Conflict-Base: " +:+ base;
   "DevFlow-Conflict-Commit: " +:+ c; "DevFlow-Conflict-Integration-Head: " +:+ head]
  ++ replicate (Nat.pred n) "".
Proof using Ht Hb Hbase Hc Hhead Eb Ebase Ec.
  apply no_space_id in Ht. apply no_space_commit in Hbase, Hc, Hhead.
  unfold _conflict_message. rewrite Eb, Ebase, Ec, !str_app_assoc. cbn [shown default].
  rewrite splitlines_field by done.
  change (newline +:+ ?s) with ("" +:+ newline +:+ s). rewrite (splitlines_newline "") by done.
  rewrite !splitlines_field by done. by rewrite splitlines_final by done.
Qed.
End messages.

(** Read the next field of a message: the prefix is decided by evaluation. *)
Ltac read_field ps qs :=
  etrans; [eapply bind_Ok_intro; [apply (read_line_field _ ps qs); [vm_compute; reflexivity..|
    simplify_map_eq; reflexivity|assumption]|reflexivity]|].
Ltac skip_line :=
  etrans; [eapply bind_Ok_intro; [apply read_line_other; vm_compute; reflexivity|reflexivity]|].
Ltac skip_blank :=
  etrans; [eapply bind_Ok_intro; [apply read_line_empty; vm_compute; reflexivity|reflexivity]|].

Definition written_fields (t b base c : string) : gmap string string :=
  <["commit" := c]> (<["base" := base]> (<["branch" := b]> {["task" := t]})).

Section reading.
Context (r : WorkerTaskResult) (b base c head : string) (n : nat).
Context (Ht : matches_id_pattern (wtr_task_id r) = true) (Hb : no_space b = true)
  (Hbase : full_commit base = true) (Hc : full_commit c = true) (Hhead : full_commit head = true)
  (Eb : wtr_branch_name r = Some b) (Ebase : wtr_base_commit r = Some base)
  (Ec : wtr_commit_sha r = Some c).
Notation t := (wtr_task_id r).

Lemma read_integration label :
  metadata_of label integration_prefixes (_integration_message r +:+ newlines n)
  = Ok (written_fields t b base c).
Proof using Ht Hb Hbase Hc Eb Ebase Ec.
  pose proof (no_space_id _ Ht). pose proof (no_space_commit _ Hbase). pose proof (no_space_commit _ Hc).
  unfold metadata_of. rewrite (integration_lines r b base c n) by done.
  eapply bind_Ok_intro.
  { apply read_fields_intro.
    { rewrite fold_result_app. eapply bind_Ok_intro; [|by apply read_blank_lines].
      cbn [fold_result]. skip_line. skip_blank.
    read_field (take 0 integration_prefixes) (drop 1 integration_prefixes).
    read_field (take 1 integration_prefixes) (drop 2 integration_prefixes).
    read_field (take 2 integration_prefixes) (drop 3 integration_prefixes).
    read_field (take 3 integration_prefixes) (drop 4 integration_prefixes).
    reflexivity. }
    rewrite !dom_insert_L, dom_empty_L. cbn. set_solver. }
  rewrite !lookup_insert_eq, lookup_insert_ne, lookup_insert_eq by done. cbn.
  unfold _require_full_oid. by rewrite Hbase, Hc.
Qed.
Lemma read_conflict label :
  metadata_of label conflict_prefixes (_conflict_message r head +:+ newlines n)
  = Ok (<["integration_head" := head]> (written_fields t b base c)).
Proof using Ht Hb Hbase Hc Hhead Eb Ebase Ec.
  pose proof (no_space_id _ Ht). pose proof (no_space_commit _ Hbase). pose proof (no_space_commit _ Hc).
  pose proof (no_space_commit _ Hhead).
  unfold metadata_of. rewrite (conflict_lines r b base c head n) by done.
  eapply bind_Ok_intro.
  { apply read_fields_intro.
    { rewrite fold_result_app. eapply bind_Ok_intro; [|by apply read_blank_lines].
      cbn [fold_result]. skip_line. skip_blank.
    read_field (take 0 conflict_prefixes) (drop 1 conflict_prefixes).
    read_field (take 1 conflict_prefixes) (drop 2 conflict_prefixes).
    read_field (take 2 conflict_prefixes) (drop 3 conflict_prefixes).
    read_field (take 3 conflict_prefixes) (drop 4 conflict_prefixes).
    read_field (take 4 conflict_prefixes) (drop 5 conflict_prefixes).
    reflexivity. }
    rewrite !dom_insert_L, dom_empty_L. cbn. set_solver. }
  rewrite !(lookup_insert_ne _ "integration_head") by done.
  rewrite !lookup_insert_eq, lookup_insert_ne, lookup_insert_eq by done. cbn.
  unfold _require_full_oid. by rewrite Hbase, Hc.
Qed.

(** A line that starts with [q] is not the repair flag and has none of the
    repair prefixes. *)
Definition plain_line (line : string) : Prop :=
  line ≠ _REPAIR_FLAG ∧ existsb (λ p, str_startswith p.1 line) _REPAIR_PREFIXES = false.
Lemma plain_line_app q v :
  differ (chars q) (chars _REPAIR_FLAG) && other_prefixes q _REPAIR_PREFIXES = true →
  plain_line (q +:+ v).
Proof using.
  intros [Hd Ho]%andb_true_iff. split.
  - intros Heq. assert (Hs : startswith (chars q) (chars _REPAIR_FLAG ++ []) = false)
      by by apply differ_startswith.
    rewrite app_nil_r, <- Heq, chars_app, startswith_app in Hs. done.
  - unfold other_prefixes in Ho. rewrite forallb_forall in Ho.
    apply not_true_iff_false. intros ([p k] & Hp & Hs)%existsb_exists.
    specialize (Ho _ Hp). unfold str_startswith in Hs.
    rewrite chars_app, (differ_startswith _ _ _ Ho) in Hs. done.
Qed.
Lemma integration_not_repair : repair_metadata_of (_integration_message r +:+ newlines n) = Ok None.
Proof using Ht Hb Hbase Hc Eb Ebase Ec.
  unfold repair_metadata_of. rewrite (integration_lines r b base c n) by done.
  assert (Hplain : Forall plain_line (["DevFlow integrate " +:+ t; ""; "DevFlow-Task: " +:+ t;
    "DevFlow-Task-Branch: " +:+ b; "DevFlow-Task-Base: " +:+ base; "DevFlow-Task-Commit: " +:+ c]
    ++ replicate (Nat.pred n) "")).
  { apply Forall_app. split; [|by apply Forall_replicate].
    repeat (apply Forall_cons; split; [first [by apply plain_line_app|done]|]). constructor. }
  rewrite Forall_forall in Hplain. case_decide as Hin; [by apply Hplain in Hin as [[] _]|].
  apply bind_Ok_intro with (a := tt); [|done]. apply check_true, negb_true_iff, not_true_iff_false.
  intros (line & Hl%list_elem_of_In & Hs)%existsb_exists. apply Hplain in Hl as [_ Hl]. congruence.
Qed.
End reading.

(** What the queue writes into the message of an integration commit and of
    a conflict marker, recovery reads back, field by field, whatever blank
    lines Git adds at the end; and a plain integration is never taken for the
    repair of a conflict. *)
Theorem messages_roundtrip r b base c head n label
    (Ht : matches_id_pattern (wtr_task_id r) = true) (Hb : no_space b = true)
    (Hbase : full_commit base = true) (Hc : full_commit c = true) (Hhead : full_commit head = true)
    (Eb : wtr_branch_name r = Some b) (Ebase : wtr_base_commit r = Some base)
    (Ec : wtr_commit_sha r = Some c) :
  metadata_of label integration_prefixes (_integration_message r +:+ newlines n)
    = Ok (written_fields (wtr_task_id r) b base c)
  ∧ repair_metadata_of (_integration_message r +:+ newlines n) = Ok None
  ∧ metadata_of label conflict_prefixes (_conflict_message r head +:+ newlines n)
    = Ok (<["integration_head" := head]> (written_fields (wtr_task_id r) b base c)).
Proof.
  split_and!; [by apply read_integration|by apply (integration_not_repair r b base c n)|by apply read_conflict].
Qed.

Lemma messages_roundtrip_witness :
  metadata_of "integration commit" integration_prefixes
    (_integration_message (example_result "b" 2) +:+ newlines 2)
  = Ok (written_fields "b" (branch_for toy_sha256 "b") (commit_oid 0) (commit_oid 2)).
Proof.
  apply (messages_roundtrip (example_result "b" 2) (branch_for toy_sha256 "b") (commit_oid 0)
    (commit_oid 2) (commit_oid 0) 2 "integration commit"); vm_compute; reflexivity.
Defined.
