(* ===== verification/MergeQueueFacts.v ===== *)
(** * MergeQueueFacts: what the merge queue guarantees

    Whatever Git answers, the queue's own record is always a history that a
    snapshot accepts; each call of [integrate] is a run of an abstract queue
    that only knows the integrated tasks; over the life of a scheduler the
    integrated tasks are in topological order and closed under dependencies;
    a recovered queue is one that such a run could have left; and the commit
    messages carry the metadata that recovery reads back. *)
From stdpp Require Import options.
From S2P Require Import Prelude Contracts Dag DagFacts Scheduler RunModels Lease Merge Reconcile ReconcileFacts Git Worktree MergeQueue RepairQueue ToyGit QueueExample.
Open Scope Z_scope.

(** ** Rules for the monad of the queue *)
Section rules.
Context `{Machine}.
Notation QS := (TopologicalMergeQueue * Host)%type.
Implicit Types (s : QS) (E : exn → QS → Prop).

(** A step that only talks to the host keeps the queue. *)
Lemma wp_host_bind {A B} (f : TopologicalMergeQueue → M Host A) (k : A → M QS B) Q E s :
  (∀ a h', f s.1 s.2 = (Ok a, h') → wp (k a) Q E (s.1, h')) →
  (∀ e h', E e (s.1, h')) → wp (on_host f ≫= k) Q E s.
Proof.
  intros Hk HE. apply wp_bind. unfold wp at 1, on_host.
  destruct (f s.1 s.2) as [[a|e] h'] eqn:Hf; [by apply Hk|apply HE].
Qed.
Lemma wp_ensure_bind {B} b c msg (k : unit → M QS B) Q E s :
  (b = true → wp (k tt) Q E s) → (∀ e, E e s) → wp (ensure b c msg ≫= k) Q E s.
Proof. intros Hk HE. apply wp_lift_bind; destruct b; [by intros [] _; apply Hk|done|done|by intros]. Qed.
Lemma wp_ensure b c msg (Q : unit → QS → Prop) E s :
  (b = true → Q tt s) → (∀ e, E e s) → wp (ensure b c msg) Q E s.
Proof. intros HQ HE. apply wp_lift. destruct b; [by apply HQ|apply HE]. Qed.
Lemma wp_queue_bind {B} (k : TopologicalMergeQueue → M QS B) Q E s :
  wp (k s.1) Q E s → wp (queue ≫= k) Q E s.
Proof. done. Qed.
Lemma wp_update_bind {B} f (k : unit → M QS B) Q E s :
  wp (k tt) Q E (f s.1, s.2) → wp (update f ≫= k) Q E s.
Proof. done. Qed.
Lemma wp_append make Q E s :
  let a := make (Z.of_nat (length (q_attempts s.1))) in
  attempt_ok a → Q tt (add_attempt a s.1, s.2) → wp (append_attempt make) Q E s.
Proof.
  cbv zeta. intros Ha Hq. unfold append_attempt. apply wp_queue_bind. rewrite Ha. exact Hq.
Qed.
Lemma wp_append_bind {B} make (k : unit → M QS B) Q E s :
  let a := make (Z.of_nat (length (q_attempts s.1))) in
  attempt_ok a → wp (k tt) Q E (add_attempt a s.1, s.2) → wp (append_attempt make ≫= k) Q E s.
Proof. cbv zeta. intros Ha Hk. by apply wp_bind, wp_append. Qed.
Lemma wp_bind_bind {A B C} (m : M QS A) (f : A → M QS B) (k : B → M QS C) Q E s :
  wp (m ≫= λ a, f a ≫= k) Q E s → wp ((m ≫= f) ≫= k) Q E s.
Proof. unfold wp, mbind, M_bind. by destruct (m s) as [[a|e] s']. Qed.
End rules.

(** [wp_steps]: run the prefix of a method that leaves the queue alone. *)
Ltac wp_step :=
  lazymatch goal with
  | |- wp ((_ ≫= _) ≫= _) _ _ _ => apply wp_bind_bind
  | |- wp (on_host _ ≫= _) _ _ _ =>
      apply wp_host_bind; [intros ? ? _; cbn [fst snd]|by intros; cbn; auto]
  | |- wp (ensure _ _ _ ≫= _) _ _ _ => apply wp_ensure_bind; [intros ?|by intros; cbn; auto]
  | |- wp (queue ≫= _) _ _ _ => apply wp_queue_bind; cbn [fst snd]
  | |- wp (lift _ ≫= _) _ _ _ => apply wp_lift_bind; [intros ? ?|by intros; cbn; auto]
  end.
Ltac wp_steps := repeat wp_step.

(** ** Attempts *)
Lemma full_commit_ok c : full_commit c = true → text_ok 40 64 c = true.
Proof. unfold full_commit, hex_string. by intros [Hl _]%andb_true_iff. Qed.

Lemma clean_attempt_ok n t br base c prev commit :
  0 <= n → text_ok 1 128 t = true → text_ok 1 512 br = true → text_ok 40 64 base = true →
  text_ok 40 64 c = true → text_ok 40 64 prev = true → text_ok 40 64 commit = true →
  attempt_ok (plain_attempt n t br base c prev INTEGRATED (Some commit) None).
Proof.
  unfold attempt_ok, MergeQueueAttempt_new. cbn. intros Hn%Z.leb_le -> -> -> -> -> ->.
  by rewrite Hn.
Qed.
Lemma conflict_attempt_ok n t br base c prev f :
  0 <= n → text_ok 1 128 t = true → text_ok 1 512 br = true → text_ok 40 64 base = true →
  text_ok 40 64 c = true → text_ok 40 64 prev = true → failure_type f = MERGE_CONFLICT →
  attempt_ok (plain_attempt n t br base c prev CONFLICT None (Some f)).
Proof.
  unfold attempt_ok, MergeQueueAttempt_new. cbn. intros Hn%Z.leb_le -> -> -> -> -> Hf. rewrite Hn. cbn. unfold validate_outcome_consistency. cbn.
  rewrite (valid_if_true (bool_decide _)) by by apply bool_decide_eq_true. done.
Qed.
Lemma conflict_failure_type t hd c r m o e f :
  _merge_conflict_failure t hd c r m o e = Ok f → failure_type f = MERGE_CONFLICT.
Proof. unfold _merge_conflict_failure, FailureReport_new. intros Hf. inv_valid. by inv_monad. Qed.

(** ** The invariant of the queue *)
Section invariant.
Context `{Machine}.
Implicit Types q : TopologicalMergeQueue.

Record queue_ok q : Prop := {
  qo_ref : text_ok 1 512 (q_integration_ref q) = true;
  qo_base : text_ok 40 64 (q_run_base q) = true;
  qo_head : text_ok 40 64 (q_head q) = true;
  qo_attempts : Forall attempt_ok (q_attempts q);
  qo_history : ∃ pending, history (q_run_base q) (q_attempts q) (q_integrated q) (q_head q) pending
                 ∧ q_stopped q = negb (is_none pending);
}.
(** What never changes after construction. *)
Definition same_setup q q' : Prop :=
  q_worktrees q' = q_worktrees q ∧ q_base_workspace q' = q_base_workspace q
  ∧ q_run_base q' = q_run_base q ∧ q_integration_ref q' = q_integration_ref q
  ∧ q_conflict_ref q' = q_conflict_ref q ∧ q_order q' = q_order q.
#[export] Instance same_setup_refl : Reflexive same_setup.
Proof. done. Qed.
#[export] Instance same_setup_trans : Transitive same_setup.
Proof. unfold same_setup. intros q1 q2 q3 ??. naive_solver congruence. Qed.

Definition queue_advanced (t : string) q q' : Prop :=
  same_setup q q' ∧ queue_ok q' ∧ q_integrated q' = q_integrated q ++ [t] ∧ q_stopped q' = false.
Definition conflicted q q' : Prop :=
  same_setup q q' ∧ queue_ok q' ∧ q_integrated q' = q_integrated q ∧ q_stopped q' = true
  ∧ q_head q' = q_head q.

Lemma queue_running q : queue_ok q → q_stopped q = false →
  history (q_run_base q) (q_attempts q) (q_integrated q) (q_head q) None.
Proof. intros [????(p & Hp & Hs)] Hst. destruct p; [|done]. by rewrite Hst in Hs. Qed.

Lemma advanced_clean q t br base c commit :
  queue_ok q → q_stopped q = false → t ∉ q_integrated q →
  attempt_ok (plain_attempt (Z.of_nat (length (q_attempts q))) t br base c (q_head q) INTEGRATED
                (Some commit) None) →
  text_ok 40 64 commit = true →
  queue_advanced t q (add_attempt (plain_attempt (Z.of_nat (length (q_attempts q))) t br base c (q_head q)
                  INTEGRATED (Some commit) None) (add_integrated t (set_head commit q))).
Proof.
  intros Hok Hst Ht Ha Hc. pose proof (queue_running q Hok Hst) as Hh. destruct Hok.
  split; [done|]. split; [|by rewrite <- Hst].
  split; cbn; [done..|by apply Forall_snoc|]. exists None. split; [|done].
  by eapply (history_integrated (q_run_base q) (q_attempts q) (q_integrated q) (q_head q)).
Qed.
Lemma conflicted_after q t br base c f :
  queue_ok q → q_stopped q = false → t ∉ q_integrated q →
  attempt_ok (plain_attempt (Z.of_nat (length (q_attempts q))) t br base c (q_head q) CONFLICT None
                (Some f)) →
  conflicted q (set_stopped (add_attempt (plain_attempt (Z.of_nat (length (q_attempts q))) t br base c
                  (q_head q) CONFLICT None (Some f)) q)).
Proof.
  intros Hok Hst Ht Ha. pose proof (queue_running q Hok Hst) as Hh. destruct Hok.
  split; [done|]. split; [|done]. split; cbn; [done..|by apply Forall_snoc|].
  eexists (Some _). split; [|done].
  by apply (history_conflict (q_run_base q) (q_attempts q) (q_integrated q) (q_head q)).
Qed.

(** What a validated worker result establishes. *)
Lemma validate_worker_inv sched q r h u h' :
  WorktreeViewLaws (q_worktrees q) → _validate_worker_result sched q r h = (Ok u, h') →
  fst (state (wtr_task_id r) sched) = Ok Scheduler.SUCCEEDED
  ∧ text_ok 1 512 (default "" (wtr_branch_name r)) = true
  ∧ text_ok 40 64 (default "" (wtr_base_commit r)) = true
  ∧ text_ok 40 64 (default "" (wtr_commit_sha r)) = true.
Proof.
  intros Hv Hr. unfold _validate_worker_result, _require_full_oid in Hr. inv_monad. to_prop.
  subst.
  split_and!; [done| |by apply full_commit_ok..].
  match goal with H : wtr_branch_name r = Some _ |- _ => rewrite H end. cbn.
  by eapply view_branch_ok.
Qed.

(** ** One result *)
Definition stepped (t : string) q q' : Prop := q' = q ∨ queue_advanced t q q' ∨ conflicted q q'.

Lemma integrate_one_spec sched r q h :
  WorktreeViewLaws (q_worktrees q) → queue_ok q → q_stopped q = false →
  wtr_task_id r ∉ q_integrated q → text_ok 1 128 (wtr_task_id r) = true →
  wp (_integrate_one sched r)
    (λ ok s', if (ok : bool) then queue_advanced (wtr_task_id r) q s'.1 else conflicted q s'.1)
    (λ _ s', stepped (wtr_task_id r) q s'.1) (q, h).
Proof.
  intros Hv Hok Hst Hn Ht. unfold _integrate_one.
  apply wp_host_bind; [|by left]. intros u h1 Hval. cbn in Hval.
  apply (validate_worker_inv _ _ _ _ _ _ Hv) in Hval as (_ & Hbr & Hbase & Hc).
  apply wp_host_bind; [|by left]. intros u2 h2 _. apply wp_queue_bind. cbv zeta.
  apply wp_host_bind; [|by left]. intros merge h3 _. cbn [fst].
  assert (0 <= Z.of_nat (length (q_attempts q))) as Hlen by lia.
  pose proof (qo_head q Hok) as Hhead.
  case_match.
  - unfold integrate_conflict. apply wp_host_bind; [|by left]. intros marker h4 _.
    apply wp_queue_bind. cbv zeta. apply wp_lift_bind; [|by left]. intros f Hf.
    apply conflict_failure_type in Hf.
    assert (Ha := conflict_attempt_ok _ _ _ _ _ _ f Hlen Ht Hbr Hbase Hc Hhead Hf).
    pose proof (conflicted_after q _ _ _ _ f Hok Hst Hn Ha) as Hcon.
    apply wp_append_bind; [exact Ha|]. apply wp_update_bind.
    apply wp_host_bind; [intros ???|by right; right].
    apply wp_host_bind; [intros ???|by right; right]. by apply wp_ret.
  - apply wp_ensure_bind; [intros _|by left]. unfold integrate_clean. cbv zeta.
    apply wp_lift_bind; [|by left]. intros tree _.
    apply wp_host_bind; [|by left]. intros made h4 _.
    apply wp_lift_bind; [|by left]. intros u3 Hoid%check_Ok%full_commit_ok.
    apply wp_host_bind; [|by left]. intros updated h5 _.
    apply wp_ensure_bind; [intros _|by left].
    apply wp_host_bind; [|by left]. intros resolved h6 _.
    apply wp_ensure_bind; [intros _|by left].
    apply wp_host_bind; [|by left]. intros u7 h7 _.
    apply wp_update_bind, wp_update_bind.
    assert (Ha := clean_attempt_ok _ _ _ _ _ _ _ Hlen Ht Hbr Hbase Hc Hhead Hoid).
    pose proof (advanced_clean q _ _ _ _ _ Hok Hst Hn Ha Hoid) as Had.
    apply wp_append_bind; [exact Ha|].
    apply wp_host_bind; [intros ???|by right; left]. by apply wp_ret.
Qed.
End invariant.

(** ** The abstract queue

    What the queue promises, without Git: the tasks integrated so far and
    whether a conflict stopped it.  A task is integrated, or found to
    conflict, only when it is admissible. *)
Record abstract_queue : Set := AQ { aq_integrated : list string; aq_stopped : bool }.

Definition given_up (sched : DAGScheduler) (t : string) : Prop :=
  ∃ st, fst (state t sched) = Ok st ∧ st ∈ _TERMINAL_NON_SUCCESS.
Record admissible (sched : DAGScheduler) (order done : list string) (t : string) : Prop := {
  ad_new : t ∉ done;
  ad_succeeded : fst (state t sched) = Ok Scheduler.SUCCEEDED;
  ad_deps : ∃ n, node (_dag sched) t = Ok n ∧ ∀ u, u ∈ tn_depends_on n → u ∈ done;
  ad_gate : ∃ i, order_index order !! t = Some i
              ∧ ∀ u, u ∈ take (Z.to_nat i) order → u ∈ done ∨ given_up sched u;
}.
Inductive queue_step (sched : DAGScheduler) (order : list string)
    : abstract_queue → abstract_queue → Prop :=
  | step_integrate done t :
      admissible sched order done t →
      queue_step sched order (AQ done false) (AQ (done ++ [t]) false)
  | step_conflict done t :
      admissible sched order done t →
      queue_step sched order (AQ done false) (AQ done true).

Lemma map_result_Ok_in {A B} (f : A → result B) l bs a :
  map_result f l = Ok bs → a ∈ l → ∃ b, f a = Ok b.
Proof.
  intros H%map_result_Ok. induction H as [|a' b l bs Hab _ IH].
  - by intros ?%elem_of_nil.
  - intros [->|?]%elem_of_cons; [by exists b|auto].
Qed.

Section refinement.
Context `{Machine}.
Implicit Types q : TopologicalMergeQueue.

Definition abstract q : abstract_queue := AQ (q_integrated q) (q_stopped q).

(** Every result is admissible after those before it. *)
Fixpoint admitted (sched : DAGScheduler) (order done : list string) (rs : list WorkerTaskResult)
    : Prop :=
  match rs with
  | [] => True
  | r :: rs => admissible sched order done (wtr_task_id r)
               ∧ admitted sched order (done ++ [wtr_task_id r]) rs
  end.

Lemma gate_inv sched order t sim u :
  _assert_global_topological_gate sched order t sim = Ok u →
  ∃ i, order_index order !! t = Some i
    ∧ ∀ v, v ∈ take (Z.to_nat i) order → v ∈ sim ∨ given_up sched v.
Proof.
  unfold _assert_global_topological_gate. intros Hg.
  apply bind_Ok_inv in Hg as (i & Hi & Hg). apply bind_Ok_inv in Hg as (bs & Hbs & _).
  exists i. split; [by destruct (order_index order !! t); [injection Hi as ->|]|].
  intros v Hv. destruct (map_result_Ok_in _ _ _ _ Hbs Hv) as (b & Hb).
  unfold not_yet_integrated in Hb. case_decide; [by left|right].
  apply bind_Ok_inv in Hb as (st & Hst & Hb). case_decide; [|done]. by exists st.
Qed.

Lemma admit_all_spec sched rs : ∀ q h (done : list string) (sim : gset string),
  WorktreeViewLaws (q_worktrees q) → (∀ t, t ∈ sim ↔ t ∈ done) →
  wp (admit_all sched sim rs) (λ _ s', s'.1 = q ∧ admitted sched (q_order q) done rs)
    (λ _ s', s'.1 = q) (q, h).
Proof.
  induction rs as [|r rs IH]; intros q h done sim Hv Hsim; [by apply wp_ret|].
  cbn [admit_all]. unfold admit_result. apply wp_bind_bind.
  apply wp_host_bind; [|done]. intros u h1 (Hst & _)%(validate_worker_inv _ _ _ _ _ _ Hv). cbn [fst].
  apply wp_bind_bind, wp_ensure_bind; [intros Hnew|done]. apply bool_decide_eq_true in Hnew.
  apply wp_bind_bind, wp_lift_bind; [|done]. intros n Hn. cbv zeta.
  apply wp_bind_bind, wp_ensure_bind; [intros Hdeps|done]. apply bool_decide_eq_true in Hdeps.
  apply wp_bind_bind, wp_queue_bind. cbn [fst].
  apply wp_bind_bind, wp_lift_bind; [|done]. intros u2 Hg%gate_inv.
  eapply wp_mono; [apply (IH q h1 (done ++ [wtr_task_id r])); [done|set_solver]| |done].
  intros u3 s' [Hs Had]. split; [done|]. split; [|done]. split.
  - by rewrite <- Hsim.
  - done.
  - exists n. split; [done|]. intros v Hv'. apply Hsim. set_solver.
  - destruct Hg as (i & Hi & Hg). exists i. split; [done|]. intros v Hv'.
    rewrite <- Hsim. by apply Hg.
Qed.

(** The postcondition of a run over results in order. *)
Definition ran sched q q' : Prop :=
  same_setup q q' ∧ queue_ok q' ∧ rtc (queue_step sched (q_order q)) (abstract q) (abstract q').

Lemma ran_refl sched q : queue_ok q → ran sched q q.
Proof. intros Hok. split; [done|]. by split; [|apply rtc_refl]. Qed.
Lemma ran_step sched q q' t : queue_ok q → q_stopped q = false →
  admissible sched (q_order q) (q_integrated q) t → stepped t q q' → ran sched q q'.
Proof.
  intros Hok Hst Ha [->|[(Hs & Hok' & Hi & Hst')|(Hs & Hok' & Hi & Hst' & _)]];
    [by apply ran_refl|..]; split_and!; try done; apply rtc_once; unfold abstract; rewrite Hi, Hst, Hst'.
  - by apply step_integrate.
  - by eapply step_conflict.
Qed.
Lemma ran_trans sched q q1 q2 : ran sched q q1 → ran sched q1 q2 → ran sched q q2.
Proof.
  intros (Hs & _ & Hr) (Hs' & Hok & Hr'). split_and!; [by etrans|done|].
  replace (q_order q1) with (q_order q) in Hr' by (symmetry; apply Hs). by etrans.
Qed.

Lemma integrate_each_spec sched rs : ∀ q h,
  WorktreeViewLaws (q_worktrees q) → queue_ok q → q_stopped q = false →
  admitted sched (q_order q) (q_integrated q) rs →
  Forall (λ r, text_ok 1 128 (wtr_task_id r) = true) rs →
  wp (integrate_each sched rs)
    (λ _ s', ran sched q s'.1
             ∧ (q_stopped s'.1 = false → q_integrated s'.1 = q_integrated q ++ (wtr_task_id <$> rs)))
    (λ _ s', ran sched q s'.1) (q, h).
Proof.
  induction rs as [|r rs IH]; intros q h Hv Hok Hst Had Hids.
  { apply wp_ret. cbn. rewrite app_nil_r. split; [by apply ran_refl|done]. }
  destruct Had as [Ha Had]. apply Forall_cons in Hids as [Hid Hids].
  cbn [integrate_each]. apply wp_bind. eapply wp_mono.
  - apply (integrate_one_spec sched r q h Hv Hok Hst); [apply Ha|done].
  - intros [] [q1 h1] Hq1; cbn [fst] in Hq1.
    + pose proof (ran_step sched q q1 _ Hok Hst Ha (or_intror (or_introl Hq1))) as Hran.
      destruct Hq1 as (Hs & Hok1 & Hi1 & Hst1).
      eapply wp_mono.
      * apply (IH q1 h1); [by rewrite (proj1 Hs)|done|done| |done].
        rewrite Hi1. replace (q_order q1) with (q_order q) by (symmetry; apply Hs). exact Had.
      * intros u s' [Hr Hall]. split; [by eapply ran_trans|]. intros Hend.
        rewrite (Hall Hend), Hi1. by rewrite <- app_assoc.
      * intros e s' Hr. by eapply ran_trans.
    + apply wp_ret. split; [apply (ran_step sched q q1 _ Hok Hst Ha); by right; right|].
      intros Hend. destruct Hq1 as (_ & _ & _ & Hst1 & _). cbn in Hend. congruence.
  - intros e s' Hs. by eapply ran_step.
Qed.

Lemma snapshot_of q : queue_ok q → queue_snapshot q = Ok {|
  mqs_integration_ref := q_integration_ref q; mqs_run_base_commit := q_run_base q;
  mqs_head_commit := q_head q; mqs_integrated_task_ids := q_integrated q;
  mqs_attempts := q_attempts q; mqs_stopped := q_stopped q |}.
Proof. intros [???? (p & Hp & Hs)]. by apply (history_snapshot _ p). Qed.
End refinement.

(** ** [integrate] *)
Lemma index_key_inv order r k : index_key order r = Ok k →
  k.2 = r ∧ order_index order !! wtr_task_id r = Some k.1.
Proof.
  unfold index_key. intros Hk. apply bind_Ok_inv in Hk as (i & Hi & [= <-]).
  split; [done|]. by destruct (order_index order !! wtr_task_id r); [injection Hi as ->|].
Qed.

(** The results in the order of the queue. *)
Definition earlier (order : list string) (r r' : WorkerTaskResult) : Prop :=
  ∃ i j, order_index order !! wtr_task_id r = Some i
         ∧ order_index order !! wtr_task_id r' = Some j ∧ i <= j.

#[local] Instance index_le_trans : Transitive index_le.
Proof. intros x y z. unfold index_le. lia. Qed.
#[local] Instance index_le_total : Total index_le.
Proof. intros x y. unfold index_le. lia. Qed.

Lemma sorted_earlier order (l : list (Z * WorkerTaskResult)) :
  Forall (λ k, order_index order !! wtr_task_id k.2 = Some k.1) l → StronglySorted index_le l →
  StronglySorted (earlier order) (snd <$> l).
Proof.
  intros Hk Hs. induction Hs as [|k l Hs IH Hall]; [constructor|].
  apply Forall_cons in Hk as [Hk Hl]. cbn. constructor; [by apply IH|].
  apply Forall_fmap. rewrite Forall_forall in *. intros k' Hk'.
  eexists _, _. split_and!; [exact Hk|by apply Hl|by apply Hall].
Qed.
Lemma in_order_spec order rs ordered :
  in_order order rs = Ok ordered → ordered ≡ₚ rs ∧ StronglySorted (earlier order) ordered.
Proof.
  unfold in_order. intros Ho. apply bind_Ok_inv in Ho as (keyed & Hk & [= <-]).
  apply map_result_Ok in Hk.
  assert (snd <$> keyed = rs ∧ Forall (λ k, order_index order !! wtr_task_id k.2 = Some k.1) keyed)
    as [Hsnd Hkeys].
  { clear -Hk. induction Hk as [|r k rs keyed (Hr & Hi)%index_key_inv _ [IH1 IH2]]; [done|].
    split; [cbn; by rewrite Hr, IH1|]. constructor; [by rewrite Hr|done]. }
  split; [by rewrite merge_sort_Permutation, Hsnd|].
  apply sorted_earlier; [|apply StronglySorted_merge_sort; apply _].
  by rewrite merge_sort_Permutation.
Qed.

Section integrate.
Context `{Machine}.
Implicit Types q : TopologicalMergeQueue.

Definition worker_ok (r : WorkerTaskResult) : Prop := WorkerTaskResult_new r = Ok r.
Lemma worker_ok_id r : worker_ok r → text_ok 1 128 (wtr_task_id r) = true.
Proof. unfold worker_ok, WorkerTaskResult_new. intros Hr. by inv_valid. Qed.

Lemma integrate_spec sched rs q h :
  WorktreeViewLaws (q_worktrees q) → queue_ok q → Forall worker_ok rs →
  wp (integrate sched rs)
    (λ snap s', ran sched q s'.1 ∧ queue_snapshot s'.1 = Ok snap ∧ q_stopped q = false
       ∧ ∃ ordered, ordered ≡ₚ rs ∧ StronglySorted (earlier (q_order q)) ordered
           ∧ (q_stopped s'.1 = false →
                q_integrated s'.1 = q_integrated q ++ (wtr_task_id <$> ordered)))
    (λ _ s', ran sched q s'.1) (q, h).
Proof.
  intros Hv Hok Hrs. pose proof (ran_refl sched q Hok) as Hsame. unfold integrate.
  apply wp_queue_bind, wp_ensure_bind; [intros Hst%negb_true_iff|done].
  apply wp_host_bind; [|done]. intros changed h1 _.
  apply wp_ensure_bind; [intros _|done].
  apply wp_host_bind; [|done]. intros u h2 _. cbn [fst].
  destruct rs as [|r rs].
  { apply wp_queue_bind, wp_lift. cbn [fst]. rewrite (snapshot_of q Hok). split_and!; [done..|].
    exists []. split_and!; [done|constructor|]. intros _. cbn. by rewrite app_nil_r. }
  apply wp_ensure_bind; [intros _|done].
  apply wp_lift_bind; [|done]. intros ordered (Hp & Hs)%in_order_spec.
  apply wp_bind. eapply wp_mono;
    [apply (admit_all_spec sched ordered q h2 (q_integrated q)); [done|set_solver]|
     |by intros e [q1 h3] Hq1; cbn in *; subst].
  intros u1 [q1 h3] [Hq1 Had]. cbn [fst] in Hq1, Had. subst q1. apply wp_bind. eapply wp_mono;
    [apply (integrate_each_spec sched ordered q h3 Hv Hok Hst Had)| |done].
  { rewrite Hp. eapply Forall_impl; [exact Hrs|]. apply worker_ok_id. }
  intros u2 [q2 h4] [Hran Hall]. apply wp_queue_bind, wp_lift. cbn [fst].
  pose proof Hran as (_ & Hok2 & _). rewrite (snapshot_of q2 Hok2).
  split_and!; [done..|]. by exists ordered.
Qed.
End integrate.

(** C16.  Whatever Git answers, a call of [integrate] is a run of the abstract
    queue: every task it integrated, or stopped on, was [SUCCEEDED] in the
    scheduler, new, had all its dependencies integrated and every earlier task
    of the order integrated, [FAILED] or [BLOCKED].  This holds when it raises
    half-way, too; its record stays one that a snapshot accepts.  When it
    returns and no conflict stopped it, all the results are integrated, in
    topological order. *)
Theorem integrate_refines `{Machine} sched rs (q : TopologicalMergeQueue) h r q' h'
    (Hv : WorktreeViewLaws (q_worktrees q)) (Hok : queue_ok q) (Hrs : Forall worker_ok rs)
    (Hrun : integrate sched rs (q, h) = (r, (q', h'))) :
  same_setup q q' ∧ queue_ok q' ∧ is_ok (queue_snapshot q') = true
  ∧ rtc (queue_step sched (q_order q)) (AQ (q_integrated q) (q_stopped q))
      (AQ (q_integrated q') (q_stopped q'))
  ∧ ∀ snap, r = Ok snap → queue_snapshot q' = Ok snap
      ∧ ∃ ordered, ordered ≡ₚ rs ∧ StronglySorted (earlier (q_order q)) ordered
          ∧ (q_stopped q' = false →
               q_integrated q' = q_integrated q ++ (wtr_task_id <$> ordered)).
Proof.
  pose proof (integrate_spec sched rs q h Hv Hok Hrs) as Hwp. unfold wp in Hwp.
  rewrite Hrun in Hwp. destruct r as [snap|e].
  - destruct Hwp as ((Hs & Hok' & Hr) & Hsnap & _ & Hord). cbn [fst] in *.
    split_and!; [done|done|by rewrite Hsnap|done|]. by intros snap' [= <-].
  - destruct Hwp as (Hs & Hok' & Hr). cbn [fst] in *.
    split_and!; [done|done|by rewrite (snapshot_of q' Hok')|done|done].
Qed.

(** ** The order of the integrated tasks *)
Lemma sublist_take {A} (l order : list A) i :
  NoDup order → l `sublist_of` order → (∀ x, x ∈ l → x ∈ take i order) → l `sublist_of` take i order.
Proof.
  intros Hnd Hl Hin. rewrite <- (take_drop i order) in Hl, Hnd.
  apply sublist_app_r in Hl as (l1 & l2 & -> & Hl1 & Hl2).
  destruct l2 as [|x l2]; [by rewrite app_nil_r|exfalso].
  apply NoDup_app in Hnd as (_ & Hd & _). apply (Hd x); [apply Hin; set_solver|].
  eapply elem_of_submseteq; [|by apply sublist_submseteq]. by left.
Qed.
Lemma elem_of_snoc {A} (x y : A) l : x ∈ l ++ [y] ↔ x ∈ l ∨ x = y.
Proof. by rewrite elem_of_app, list_elem_of_singleton. Qed.
Lemma sublist_snoc_take {A} (l order : list A) i x :
  NoDup order → l `sublist_of` order → order !! i = Some x → (∀ y, y ∈ l → y ∈ take i order) →
  (l ++ [x]) `sublist_of` order.
Proof.
  intros Hnd Hl Hi Hin. rewrite <- (take_drop_middle order i x Hi).
  apply sublist_app; [by apply sublist_take|]. apply sublist_skip, sublist_nil_l.
Qed.

Section life.
Context (d : TaskDAG) `{Hd : ValidDag d}.
Notation has s t st := (_states s !! t = Some st).
Notation order := (vd_order d).

(** The integrated tasks of a queue that started empty. *)
Record placed (s : DAGScheduler) (l : list string) : Prop := {
  pl_done : ∀ t, t ∈ l → has s t Scheduler.SUCCEEDED;
  pl_order : l `sublist_of` order;
  pl_deps : ∀ t u, t ∈ l → edge d u t → u ∈ l;
  pl_gate : ∀ t i u, t ∈ l → order !! i = Some t → u ∈ take i order →
    u ∈ l ∨ has s u Scheduler.FAILED ∨ has s u Scheduler.BLOCKED;
}.

Lemma state_Ok s t st : fst (state t s) = Ok st → has s t st.
Proof using. unfold state, _require_task. cbn. destruct (_states s !! t); [by intros [= ->]|done]. Qed.

Lemma node_edges t n : node d t = Ok n → ∀ u, edge d u t ↔ u ∈ tn_depends_on n.
Proof using.
  unfold node, edge, deps. destruct (_nodes_by_id d !! t); [|done]. intros [= ->] u. set_solver.
Qed.

Lemma placed_snoc s l t :
  _dag s = d → placed s l → admissible s order l t → placed s (l ++ [t]).
Proof using Hd.
  intros Hdag [Hdone Hord Hdeps Hgate] [Hnew Hst (n & Hn & Hall) (i & Hi & Hbefore)].
  apply state_Ok in Hst. apply order_index_lookup in Hi as [Hi _].
  rewrite Hdag in Hn.
  assert (Hg : ∀ u, u ∈ take (Z.to_nat i) order →
    u ∈ l ∨ has s u Scheduler.FAILED ∨ has s u Scheduler.BLOCKED).
  { intros u [?|(st & Hs & Hin)]%Hbefore; [by left|right]. apply state_Ok in Hs.
    unfold _TERMINAL_NON_SUCCESS in Hin. set_solver. }
  assert (Hlt : ∀ u, u ∈ l → u ∈ take (Z.to_nat i) order).
  { intros u Hu. assert (u ∈ order) as [j Hj]%list_elem_of_lookup
      by (eapply elem_of_submseteq; [done|by apply sublist_submseteq]).
    destruct (decide (j < Z.to_nat i)%nat) as [|Hge].
    { apply list_elem_of_lookup. exists j. by rewrite lookup_take_lt by done. }
    exfalso. assert (j ≠ Z.to_nat i) as Hne by (intros ->; congruence).
    destruct (Hgate u j t Hu Hj) as [?|[?|?]]; [|done|congruence..].
    apply list_elem_of_lookup. exists (Z.to_nat i). by rewrite lookup_take_lt by lia. }
  split.
  - intros u [?| ->]%elem_of_snoc; auto.
  - eapply sublist_snoc_take; [apply (vd_nodup d)|done..].
  - intros u v [Hu| ->]%elem_of_snoc Huv; apply elem_of_snoc; left; [by eapply Hdeps|].
    apply Hall. by apply (node_edges t).
  - intros u j v [Hu| ->]%elem_of_snoc Hj Hv.
    + destruct (Hgate u j v Hu Hj Hv) as [?|?]; [left; set_solver|by right].
    + assert (j = Z.to_nat i) as -> by (eapply NoDup_lookup; [apply (vd_nodup d)|done..]).
      destruct (Hg v Hv); [left; set_solver|by right].
Qed.

Lemma placed_run s a a' :
  _dag s = d → rtc (queue_step s order) a a' → placed s (aq_integrated a) → placed s (aq_integrated a').
Proof using Hd.
  intros Hdag. induction 1 as [|a a1 a2 Hstep _ IH]; [done|]. intros Hp. apply IH.
  destruct Hstep; [|done]. by apply placed_snoc.
Qed.

Lemma placed_schedule s op r s' l :
  (∀ t, t ∈ task_ids d → id_ok t) → sched_inv d s → run_operation op s = (r, s') → placed s l → placed s' l.
Proof using Hd.
  intros Hids Hinv Hrun [Hdone Hord Hdeps Hgate].
  assert (Hstable : ∀ u st, has s u st → st ∈ _TERMINAL_STATES → has s' u st).
  { intros u st. by eapply (terminal_stable d Hids). }
  split; [|done|done|].
  - intros t Ht%Hdone. apply Hstable; [done|by left].
  - intros t i u Ht Hi Hu. destruct (Hgate t i u Ht Hi Hu) as [?|[Hf|Hb]]; [by left|right..].
    + left. apply Hstable; [done|]. right. by left.
    + right. apply Hstable; [done|]. right. right. by left.
Qed.
End life.

(** A queue and the scheduler it reads, over time: the queue is made for a
    fresh repository, the scheduler moves, results are integrated.  Between two
    calls the repository may change in any way, and calls may raise. *)
Inductive queue_life `{Machine} (d : TaskDAG) : DAGScheduler → TopologicalMergeQueue → Prop :=
  | life_start ops s v ws id h q h' :
      reachable d ops s → WorktreeViewLaws v → TopologicalMergeQueue_init s v ws id h = (Ok q, h') →
      q_integrated q = [] → queue_life d s q
  | life_schedule s q op r s' :
      queue_life d s q → run_operation op s = (r, s') → queue_life d s' q
  | life_integrate s q rs h r q' h' :
      queue_life d s q → Forall worker_ok rs → integrate s rs (q, h) = (r, (q', h')) →
      queue_life d s q'.

(** ** Recovery *)
Section recovery.
Context `{Machine}.
Implicit Types q : TopologicalMergeQueue.
Notation Q := (M (TopologicalMergeQueue * Host)).

(** While the history is recovered: [expected] is the head so far. *)
Record recovering q (expected : string) : Prop := {
  rc_ref : text_ok 1 512 (q_integration_ref q) = true;
  rc_base : text_ok 40 64 (q_run_base q) = true;
  rc_expected : text_ok 40 64 expected = true;
  rc_attempts : Forall attempt_ok (q_attempts q);
  rc_history : history (q_run_base q) (q_attempts q) (q_integrated q) expected None;
  rc_running : q_stopped q = false;
}.
(** What the loop has accepted: tasks by increasing position, each after its
    dependencies. *)
Record in_sequence (dag : TaskDAG) (order : list string) (last_index : Z) (l : list string) : Prop := {
  is_order : l `sublist_of` order;
  is_before : ∀ t, t ∈ l → t ∈ take (Z.to_nat (last_index + 1)) order;
  is_deps : ∀ t n, t ∈ l → node dag t = Ok n → ∀ u, u ∈ tn_depends_on n → u ∈ l;
}.
(** How a commit is accepted. *)
Definition accepting (accept : RecoveredTask → string → string → Q unit) : Prop :=
  ∀ task expected commit q h,
    recovering q expected → rt_task_id task ∉ q_integrated q →
    wp (accept task expected commit)
      (λ _ s', same_setup q s'.1 ∧ q_integrated s'.1 = q_integrated q
               ∧ recovering (add_integrated (rt_task_id task) s'.1) commit)
      (λ _ _, True) (q, h).
Definition marking (recover_conflict : DAGScheduler → Q unit) : Prop :=
  ∀ sched q h, queue_ok q → q_stopped q = false →
    wp (recover_conflict sched) (λ _ s', s'.1 = q ∨ conflicted q s'.1) (λ _ _, True) (q, h).

Lemma wp_append_ok make Q' q h :
  (∀ a, a = make (Z.of_nat (length (q_attempts q))) → attempt_ok a → Q' tt (add_attempt a q, h)) →
  wp (append_attempt make) Q' (λ _ _, True) (q, h).
Proof.
  intros HQ. unfold append_attempt. apply wp_queue_bind, wp_lift_bind; [|done].
  cbn [fst]. intros a Ha. pose proof (attempt_new_inv _ _ Ha) as (Heq & _). rewrite Heq in Ha.
  by apply HQ.
Qed.
Lemma attempt_commit_ok a c : attempt_ok a → mqa_integration_commit a = Some c → text_ok 40 64 c = true.
Proof.
  intros (_ & _ & Ho)%attempt_new_inv Hc. destruct (mqa_outcome a); naive_solver congruence.
Qed.

Lemma accept_clean_ok : accepting accept_clean.
Proof.
  intros task expected commit q h [? ? ? Hats Hh Hrun] Hn. unfold accept_clean.
  apply wp_host_bind; [|done]. intros u h1 _. apply wp_append_ok. intros a -> Ha. cbn [fst snd].
  split; [done|]. split; [done|]. split; cbn; try done.
  - by eapply attempt_commit_ok.
  - by apply Forall_snoc.
  - by eapply (history_integrated (q_run_base q) (q_attempts q) (q_integrated q) expected).
Qed.
Lemma accept_repaired_ok : accepting accept_repaired.
Proof.
  intros task expected commit q h Hrec Hn. unfold accept_repaired.
  apply wp_host_bind; [|done]. intros [repair|] h1 _; [|by apply accept_clean_ok].
  unfold _recover_repaired_attempt, only_parent, same_tree.
  destruct Hrec as [? ? ? Hats Hh Hrun]. cbn [fst]. wp_steps.
  apply wp_bind, wp_append_ok. intros x -> Hx. apply wp_append_ok. intros y -> Hy. cbn [fst snd].
  split; [done|]. split; [done|]. split; cbn; try done.
  - by apply (attempt_commit_ok _ _ Hy).
  - apply Forall_snoc. split; [by apply Forall_snoc|done].
  - eapply (history_repaired (q_run_base q) (q_attempts q ++ [_]) (q_integrated q) expected);
      [by eapply (history_conflict (q_run_base q) (q_attempts q))|done..].
Qed.

(** What the checks of the loop body establish. *)
Definition header_ok (dag : TaskDAG) (order : list string) (recovered : gset string) (last_index : Z)
    (task : RecoveredTask) : Prop :=
  rt_task_id task ∉ recovered ∧ last_index < rt_index task
  ∧ order_index order !! rt_task_id task = Some (rt_index task)
  ∧ ∃ n, node dag (rt_task_id task) = Ok n ∧ ∀ u, u ∈ tn_depends_on n → u ∈ recovered.
Lemma recover_header_ok dag expected recovered last_index commit q h :
  wp (recover_header dag expected recovered last_index commit)
    (λ task s', s'.1 = q ∧ header_ok dag (q_order q) recovered last_index task)
    (λ _ _, True) (q, h).
Proof.
  unfold recover_header. wp_steps. apply wp_ret. cbn [fst]. to_prop. split; [done|].
  split_and!; cbn; [done|done| |].
  - match goal with H : of_option _ ?o = Ok ?a |- ?o = _ => destruct o; [by injection H as ->|done] end.
  - eexists. split; [done|]. set_solver.
Qed.

Lemma take_mono {A} (l : list A) n m x : (n ≤ m)%nat → x ∈ take n l → x ∈ take m l.
Proof.
  intros Hle (i & Hi)%list_elem_of_lookup. apply list_elem_of_lookup. exists i.
  apply lookup_take_Some in Hi as [Hi Hlt]. by rewrite lookup_take_lt by lia.
Qed.
Lemma in_sequence_snoc dag order last_index recovered task l :
  NoDup order → -1 <= last_index → (∀ t, t ∈ recovered ↔ t ∈ l) →
  in_sequence dag order last_index l → header_ok dag order recovered last_index task →
  in_sequence dag order (rt_index task) (l ++ [rt_task_id task]).
Proof.
  intros Hnd Hlast Hrec [Hord Hbefore Hdeps] (Hnew & Hlt & [Hi Hpos]%order_index_lookup & n & Hn & Hall).
  assert (Hb : ∀ t, t ∈ l → t ∈ take (Z.to_nat (rt_index task)) order).
  { intros t Ht. eapply take_mono; [|by apply Hbefore]. lia. }
  split.
  - by eapply sublist_snoc_take.
  - intros t [Ht| ->]%elem_of_snoc; [eapply take_mono; [|by apply Hb]; lia|].
    apply list_elem_of_lookup. exists (Z.to_nat (rt_index task)). by rewrite lookup_take_lt by lia.
  - intros t m [Ht| ->]%elem_of_snoc Hm u Hu; apply elem_of_snoc; left; [by eapply Hdeps|].
    apply Hrec, Hall. by replace n with m by congruence.
Qed.

Lemma recover_commits_ok accept dag commits : accepting accept →
  ∀ expected recovered last_index q h,
  NoDup (q_order q) → -1 <= last_index → (∀ t, t ∈ recovered ↔ t ∈ q_integrated q) →
  recovering q expected → in_sequence dag (q_order q) last_index (q_integrated q) →
  wp (recover_commits accept dag expected recovered last_index commits)
    (λ final s', same_setup q s'.1 ∧ recovering s'.1 final
                 ∧ ∃ last_index, in_sequence dag (q_order q) last_index (q_integrated s'.1))
    (λ _ _, True) (q, h).
Proof.
  intros Hacc. induction commits as [|commit commits IH];
    intros expected recovered last_index q h Hnd Hlast Hrec Hing Hseq.
  { apply wp_ret. split_and!; [done|done|by exists last_index]. }
  cbn [recover_commits]. apply wp_bind. eapply wp_mono; [apply recover_header_ok| |done].
  intros task [q0 h0] [Hq0 Hhead]. cbn [fst] in Hq0, Hhead. subst q0.
  pose proof (in_sequence_snoc _ _ _ _ _ _ Hnd Hlast Hrec Hseq Hhead) as Hseq'.
  apply wp_bind. eapply wp_mono; [apply (Hacc task expected commit q h0 Hing)| |done].
  { rewrite <- Hrec. apply Hhead. }
  intros u [q1 h1] (Hs1 & Hi1 & Hrec1). cbn [fst] in *. apply wp_update_bind. cbn [fst snd].
  assert (Hord : q_order q1 = q_order q) by apply Hs1.
  eapply wp_mono; [apply (IH commit _ _ (add_integrated (rt_task_id task) q1))| |done].
  - cbn. by rewrite Hord.
  - destruct Hhead as (_ & ? & _). lia.
  - cbn. intros t. rewrite Hi1, elem_of_snoc, <- Hrec. set_solver.
  - done.
  - cbn. by rewrite Hord, Hi1.
  - intros final s' (Hs & Hr & Hl). cbn in Hl. rewrite Hord in Hl. split_and!; [|done|done].
    etrans; [exact Hs1|]. exact Hs.
Qed.

(** A queue whose construction was begun: nothing recovered yet. *)
Lemma blank_recovering v ws id order :
  WorktreeViewLaws v → integration_id_ok id = true →
  recovering (blank_queue v ws id order) (view_base_commit v).
Proof.
  intros Hv Hid. pose proof (view_base_ok (v:=v)) as Hb. split; cbn; try done.
  - unfold integration_id_ok in Hid. apply andb_true_iff in Hid as [_ Hlen%Nat.leb_le].
    apply len_between. rewrite str_len_app.
    change (str_len "refs/devflow/integration/") with 25%nat. lia.
  - apply history_nil.
Qed.
Lemma blank_sequence dag order : in_sequence dag order (-1) [].
Proof. split; [apply sublist_nil_l|by intros t ?%elem_of_nil|by intros t n ?%elem_of_nil]. Qed.

Definition recovered_ok dag (q0 : TopologicalMergeQueue) (head : string) q : Prop :=
  same_setup q0 q ∧ recovering q head
  ∧ ∃ last_index, in_sequence dag (q_order q0) last_index (q_integrated q).

Lemma initialize_ok accept dag v ws id order h :
  accepting accept → WorktreeViewLaws v → integration_id_ok id = true → NoDup order →
  wp (_initialize_or_recover_ref accept dag)
    (λ head s', recovered_ok dag (blank_queue v ws id order) head s'.1) (λ _ _, True)
    (blank_queue v ws id order, h).
Proof.
  intros Hacc Hv Hid Hnd. pose proof (blank_recovering v ws id order Hv Hid) as Hb.
  assert (Hnone : recovered_ok dag (blank_queue v ws id order) (view_base_commit v)
                    (blank_queue v ws id order)).
  { split_and!; [done|done|]. exists (-1). apply blank_sequence. }
  unfold _initialize_or_recover_ref. wp_steps. case_match; wp_steps; [by apply wp_ret|].
  apply wp_bind. unfold _recover_successful_history. apply wp_queue_bind. cbn [fst].
  case_bool_decide as Hhead; [subst; apply wp_ret, wp_ret; exact Hnone|]. wp_steps.
  apply wp_bind. eapply wp_mono; [apply (recover_commits_ok accept dag _ Hacc)| |done].
  - done.
  - lia.
  - cbn. set_solver.
  - done.
  - apply blank_sequence.
  - intros final s' Hr. apply wp_ensure; [intros Hf|done].
    to_prop. subst. by apply wp_ret.
Qed.

(** The conflict marker. *)
Lemma recover_conflict_marker_ok : marking _recover_conflict_marker.
Proof.
  intros sched q h Hok Hst. unfold _recover_conflict_marker. wp_steps.
  case_match; [apply wp_ret; by left|]. wp_steps. unfold recover_marker. wp_steps.
  apply wp_bind, wp_append_ok. intros x -> Hx. right. cbn [fst].
  apply (conflicted_after q); [done|done| |exact Hx]. to_prop. done.
Qed.
Lemma recover_repaired_marker_ok : marking recover_repaired_marker.
Proof.
  intros sched q h Hok Hst. unfold recover_repaired_marker, only_parent, same_tree. wp_steps.
  case_match; [apply wp_ret; by left|]. wp_steps.
  destruct (repaired_by _ _) as [repaired|]; [|by apply recover_conflict_marker_ok].
  wp_steps. apply wp_ensure; [by left|done].
Qed.

(** A queue as its constructor returns it. *)
Record constructed_ok (dag : TaskDAG) (v : WorktreeView) q : Prop := {
  co_queue : queue_ok q;
  co_view : q_worktrees q = v;
  co_base : q_run_base q = view_base_commit v;
  co_order : topological_order dag = Ok (q_order q);
  co_sequence : ∃ last_index, in_sequence dag (q_order q) last_index (q_integrated q);
}.
Lemma queue_init_ok accept mark sched v ws id h q h' :
  accepting accept → marking mark → WorktreeViewLaws v →
  (∀ order, topological_order (_dag sched) = Ok order → NoDup order) →
  queue_init accept mark sched v ws id h = (Ok q, h') → constructed_ok (_dag sched) v q.
Proof.
  intros Hacc Hmark Hv Hnd Hrun. unfold queue_init in Hrun.
  apply M_bind_Ok_inv in Hrun as (u & s1 & [Hid ->]%ensure_Ok_inv & Hrun).
  apply M_bind_Ok_inv in Hrun as (ch & h1 & _ & Hrun).
  apply M_bind_Ok_inv in Hrun as (u2 & h2 & [_ ->]%ensure_Ok_inv & Hrun).
  apply M_bind_Ok_inv in Hrun as (order & h2 & [Hord ->]%lift_Ok_inv & Hrun).
  unfold constructed in Hrun.
  destruct (start_queue accept mark sched _) as [[u3|e] [q1 h3]] eqn:Hstart; [|done].
  injection Hrun as <- <-.
  enough (Hwp : wp (start_queue accept mark sched) (λ _ s', constructed_ok (_dag sched) v s'.1)
                  (λ _ _, True) (blank_queue v ws id order, h1)).
  { unfold wp in Hwp. by rewrite Hstart in Hwp. }
  unfold start_queue. wp_steps. apply wp_bind.
  eapply wp_mono; [by apply (initialize_ok accept (_dag sched) v ws id order); auto| |done].
  intros head [q2 h4] (Hs & Hrec & Hseq). cbn [fst] in *. apply wp_update_bind. cbn [fst snd].
  assert (Hq : constructed_ok (_dag sched) v (set_head head q2)).
  { destruct Hrec. destruct Hs as (Hs1 & _ & Hs3 & _ & _ & Hs6). split; cbn.
    - split; cbn; try done. by exists None.
    - by rewrite Hs1.
    - by rewrite Hs3.
    - by rewrite Hs6.
    - by rewrite Hs6. }
  eapply wp_mono; [apply (Hmark sched (set_head head q2)); [apply Hq|apply Hrec]| |done].
  intros u4 [q3 h5] [Heq|(Hs' & Hok & Hi & _)]; cbn [fst] in *; [by subst|].
  destruct Hs' as (Hs1 & _ & Hs3 & _ & _ & Hs6), Hq. split; [done|..].
  - by rewrite Hs1.
  - by rewrite Hs3.
  - by rewrite Hs6.
  - by rewrite Hs6, Hi.
Qed.
End recovery.

Lemma stopped_iff_conflict `{Machine} (q : TopologicalMergeQueue) : queue_ok q →
  (q_stopped q = true ↔ ∃ a, last (q_attempts q) = Some a ∧ mqa_outcome a = CONFLICT).
Proof.
  intros [???? (p & Hh & ->)].
  assert (Hlast : ∀ (l : list MergeQueueAttempt) a, (∃ x, last (l ++ [a]) = Some x ∧ mqa_outcome x = CONFLICT)
            ↔ mqa_outcome a = CONFLICT).
  { intros l a. rewrite last_snoc. split; [by intros (x & [= ->] & ?)|eauto]. }
  destruct Hh as [|l ids head a c _ Ho|l ids head a _ Ho|l ids head p a c _ Ho]; cbn.
  - split; [done|]. by intros (x & ? & _).
  - rewrite Hlast, Ho. done.
  - by rewrite Hlast, Ho.
  - rewrite Hlast, Ho. done.
Qed.

Lemma life_invariant `{Machine} d `{Hd : !ValidDag d} (Hids : ∀ t, t ∈ task_ids d → id_ok t) s q :
  queue_life d s q →
  sched_inv d s ∧ queue_ok q ∧ WorktreeViewLaws (q_worktrees q) ∧ q_order q = vd_order d
  ∧ placed d s (q_integrated q).
Proof.
  induction 1 as [ops s v ws id h q h' Hs Hv Hq He|s q op r s' _ (Hi & Hok & Hv & Ho & Hp) Hrun
                 |s q rs h r q' h' _ (Hi & Hok & Hv & Ho & Hp) Hrs Hrun].
  - apply (reachable_inv d Hids) in Hs as [Hi _]. pose proof (c_dag d s (proj1 Hi)) as Hdag.
    apply (queue_init_ok accept_clean _recover_conflict_marker) in Hq as [Hok Hw _ Ho _];
      [|apply accept_clean_ok|apply recover_conflict_marker_ok|done|].
    2: { intros order. rewrite Hdag, (vd_topological (d:=d)). intros [= <-]. apply vd_nodup. }
    rewrite Hdag, (vd_topological (d:=d)) in Ho. injection Ho as Ho.
    split_and!; [done|done|by rewrite Hw|done|]. rewrite He.
    split; [by intros ? ?%elem_of_nil|apply sublist_nil_l|by intros ?? ?%elem_of_nil
           |by intros ??? ?%elem_of_nil].
  - split_and!; [by eapply (run_operation_inv d Hids)|done..|]. by eapply placed_schedule.
  - pose proof (integrate_spec s rs q h Hv Hok Hrs) as Hwp. unfold wp in Hwp. rewrite Hrun in Hwp.
    assert (Hran : ran s q q') by (destruct r; [by destruct Hwp|done]).
    destruct Hran as (Hs & Hok' & Hr). destruct Hs as (Hs1 & _ & _ & _ & _ & Hs6).
    split_and!; [done|done|by rewrite Hs1|by rewrite Hs6|].
    rewrite Ho in Hr. apply (placed_run d s _ _ (c_dag d s (proj1 Hi)) Hr). done.
Qed.

(** C17.  A queue built by either constructor, on a fresh repository or from the
    commits and the marker an earlier queue left, is well formed whatever Git
    answered: its snapshot is accepted, its order is the topological order of
    the DAG, the recovered tasks follow that order without repetition and each
    one comes after all its dependencies, and it is stopped exactly when its
    last attempt is an unresolved conflict. *)
Theorem recovery_sound `{Machine} (init : DAGScheduler → WorktreeView → LocalGitWorkspace → string →
      M Host TopologicalMergeQueue) sched v ws id h q h' `{Hd : !ValidDag (_dag sched)}
    (Hinit : init = TopologicalMergeQueue_init ∨ init = RepairAwareTopologicalMergeQueue_init)
    (Hv : WorktreeViewLaws v) (Hrun : init sched v ws id h = (Ok q, h')) :
  is_ok (queue_snapshot q) = true ∧ q_run_base q = view_base_commit v
  ∧ q_order q = vd_order (_dag sched) ∧ q_integrated q `sublist_of` vd_order (_dag sched)
  ∧ (∀ t u, t ∈ q_integrated q → edge (_dag sched) u t → u ∈ q_integrated q)
  ∧ (q_stopped q = true ↔ ∃ a, last (q_attempts q) = Some a ∧ mqa_outcome a = CONFLICT).
Proof.
  assert (Hnd : ∀ order, topological_order (_dag sched) = Ok order → NoDup order).
  { intros order Ho. assert (order = vd_order (_dag sched)) as ->
      by (rewrite (vd_topological (d:=_dag sched)) in Ho; congruence). apply vd_nodup. }
  assert (Hco : constructed_ok (_dag sched) v q).
  { destruct Hinit as [-> | ->].
    - exact (queue_init_ok _ _ sched v ws id h q h' accept_clean_ok recover_conflict_marker_ok Hv Hnd Hrun).
    - exact (queue_init_ok _ _ sched v ws id h q h' accept_repaired_ok recover_repaired_marker_ok Hv
               Hnd Hrun). }
  destruct Hco as [Hok _ Hb Hord (last_index & [Hseq _ Hdeps])].
  assert (Heq : q_order q = vd_order (_dag sched))
    by (rewrite (vd_topological (d:=_dag sched)) in Hord; congruence).
  rewrite Heq in Hseq. rewrite (snapshot_of q Hok).
  split_and!; [done|done|done|done| |by apply stopped_iff_conflict].
  intros t u Ht Hu.
  assert (t ∈ task_ids (_dag sched)) as Hin by (by eapply (vd_edge_known (_dag sched))).
  apply nodes_is_Some in Hin as [n Hn]; [|apply vd_wf].
  assert (node (_dag sched) t = Ok n) as Hnode by (unfold node; by rewrite Hn).
  eapply Hdeps; [done|done|]. by apply (node_edges (_dag sched) t).
Qed.

(** Over the life of a queue made for a fresh repository, with the
    scheduler moving, calls of [integrate] that return or raise and the
    repository changing in between: every integrated task is [SUCCEEDED] in the
    scheduler; the integrated tasks are a subsequence of the topological order
    closed under dependencies; and a task that comes earlier than an integrated
    one is integrated, [FAILED] or [BLOCKED]. *)
Theorem integration_order `{Machine} d (Hd : ValidDag d) (Hids : ∀ t, t ∈ task_ids d → id_ok t) s q
    (Hlife : queue_life d s q) :
  queue_ok q ∧ q_integrated q `sublist_of` vd_order d
  ∧ (∀ t, t ∈ q_integrated q → _states s !! t = Some Scheduler.SUCCEEDED)
  ∧ (∀ t u, t ∈ q_integrated q → edge d u t → u ∈ q_integrated q)
  ∧ (∀ t i u, t ∈ q_integrated q → vd_order d !! i = Some t → u ∈ take i (vd_order d) →
       u ∈ q_integrated q ∨ _states s !! u = Some Scheduler.FAILED
       ∨ _states s !! u = Some Scheduler.BLOCKED).
Proof.
  destruct (life_invariant d Hids s q Hlife) as (_ & Hok & _ & _ & [? ? ? ?]). by split_and!.
Qed.

(** ** The example *)
Lemma example_view_laws : WorktreeViewLaws example_view.
Proof. apply manager_view_laws. vm_compute. reflexivity. Qed.
Lemma example_scheduler_reachable : reachable diamond example_operations example_scheduler.
Proof.
  change (reachable diamond (take 6 example_operations) (after fresh (take 6 example_operations))).
  assert (Hstep : ∀ n op, example_operations !! n = Some op →
    (run_operation op (after fresh (take n example_operations))).1 = Ok tt →
    reachable diamond (take n example_operations) (after fresh (take n example_operations)) →
    reachable diamond (take (S n) example_operations) (after fresh (take (S n) example_operations))).
  { intros n op Hop Hok Hr. rewrite (take_S_r _ _ op) by done. unfold after in *. rewrite foldl_app.
    eapply reachable_ok; [exact Hr|]. cbn. by destruct (run_operation op _) as [r s]; cbn in *; subst. }
  do 6 (eapply Hstep; [reflexivity|vm_compute; reflexivity|]).
  apply reachable_init. vm_compute. reflexivity.
Qed.
Lemma example_results_ok : Forall worker_ok example_results.
Proof. repeat constructor. Qed.
Lemma first_queue_init :
  TopologicalMergeQueue_init example_scheduler example_view example_workspace "run-1" example_repo
  = (Ok first_queue.1, first_queue.2).
Proof.
  pose proof first_queue_made as Hok. unfold first_queue.
  by destruct (TopologicalMergeQueue_init _ _ _ _ _) as [[q|e] h].
Qed.
Lemma first_queue_ok : constructed_ok diamond example_view first_queue.1.
Proof.
  apply (queue_init_ok _ _ example_scheduler example_view example_workspace "run-1" example_repo
    first_queue.1 first_queue.2 accept_clean_ok recover_conflict_marker_ok example_view_laws);
    [|exact first_queue_init].
  intros order Ho. assert (order = vd_order diamond) as ->.
  { change (topological_order diamond = Ok order) in Ho. rewrite (vd_topological (d:=diamond)) in Ho. congruence. }
  apply vd_nodup.
Qed.

Lemma first_queue_runs :
  integrate example_scheduler example_results (first_queue.1, first_queue.2)
  = ((integrate example_scheduler example_results first_queue).1, (second_queue.1, second_queue.2)).
Proof.
  rewrite <- (surjective_pairing first_queue). unfold second_queue.
  generalize (integrate example_scheduler example_results first_queue).
  intros [? [? ?]]. reflexivity.
Qed.

Lemma integrate_refines_witness :
  rtc (queue_step example_scheduler (q_order first_queue.1)) (AQ [] false) (AQ ["a"; "b"] true).
Proof.
  destruct (integrate example_scheduler example_results first_queue) as [r [q' h']] eqn:Hrun.
  assert (Hq : (integrate example_scheduler example_results first_queue).2 = (q', h'))
    by (rewrite Hrun; reflexivity).
  rewrite (surjective_pairing first_queue) in Hrun.
  pose proof (integrate_refines example_scheduler example_results first_queue.1 first_queue.2 r q' h'
    ltac:(rewrite (co_view _ _ _ first_queue_ok); exact example_view_laws)
    (co_queue _ _ _ first_queue_ok) example_results_ok Hrun) as (_ & _ & _ & Hsteps & _).
  assert (q_integrated q' = ["a"; "b"] ∧ q_stopped q' = true) as [Hi Hs].
  { destruct wave_outcome as (_ & Hi & Hs). unfold second_queue in Hi, Hs.
    rewrite Hq in Hi. rewrite Hq in Hs. exact (conj Hi Hs). }
  rewrite Hi, Hs in Hsteps. exact Hsteps.
Defined.

Lemma recovery_sound_witness : ["a"; "b"] `sublist_of` vd_order diamond.
Proof.
  destruct (TopologicalMergeQueue_init example_scheduler example_view example_workspace "run-1"
              second_queue.2) as [[q|e] h'] eqn:Hrun.
  - assert (Hi : q_integrated q = ["a"; "b"]).
    { assert (Hq : match (TopologicalMergeQueue_init example_scheduler example_view
          example_workspace "run-1" second_queue.2).1 with
          | Ok q => q_integrated q | Raise _ => [] end = ["a"; "b"]) by (vm_compute; reflexivity).
      rewrite Hrun in Hq. exact Hq. }
    pose proof (recovery_sound TopologicalMergeQueue_init example_scheduler example_view
      example_workspace "run-1" second_queue.2 q h' (Hd := diamond_valid) (or_introl eq_refl)
      example_view_laws Hrun) as (_ & _ & _ & Hsub & _).
    rewrite Hi in Hsub. exact Hsub.
  - exfalso. assert (Hq : is_ok (TopologicalMergeQueue_init example_scheduler example_view
        example_workspace "run-1" second_queue.2).1 = true) by (vm_compute; reflexivity).
    rewrite Hrun in Hq. discriminate Hq.
Defined.

Lemma integration_order_witness :
  q_integrated second_queue.1 `sublist_of` vd_order diamond.
Proof.
  refine (proj1 (proj2 (integration_order diamond diamond_valid diamond_ids example_scheduler
    second_queue.1 _))).
  apply (life_integrate diamond example_scheduler first_queue.1 example_results first_queue.2
    (integrate example_scheduler example_results first_queue).1 second_queue.1 second_queue.2).
  - eapply (life_start diamond example_operations); [exact example_scheduler_reachable
      |exact example_view_laws|exact first_queue_init|vm_compute; reflexivity].
  - exact example_results_ok.
  - exact first_queue_runs.
Defined.
