(* ===== verification/PyFloat.v ===== *)
(** * PyFloat: Python floats

    IEEE 754 binary64 arithmetic as the Standard Library specifies it
    ([SpecFloat], round to nearest, ties to even), with the conversions the
    code uses.  A decimal literal is the binary64 number nearest to it, the
    correctly rounded quotient of two integers. *)
From Stdlib Require Import Floats.SpecFloat.
From stdpp Require Import options.
From S2P Require Import Prelude.
Open Scope Z_scope.

Definition float64 : Set := spec_float.
Definition of_int (n : Z) : float64 := binary_normalize 53 1024 n 0 false.
Definition fmul (x y : float64) : float64 := SFmul 53 1024 x y.
Definition fadd (x y : float64) : float64 := SFadd 53 1024 x y.
Definition fdiv (x y : float64) : float64 := SFdiv 53 1024 x y.
Definition literal (num den : Z) : float64 := fdiv (of_int num) (of_int den).

(** [x <= y] *)
Definition fleb (x y : float64) : bool := SFleb x y.

(** [math.ceil(x)] *)
Definition ceil (x : float64) : result Z :=
  match x with
  | S754_zero _ => Ok 0
  | S754_infinity _ => raise OverflowError "cannot convert float infinity to integer"
  | S754_nan => raise ValueError "cannot convert float NaN to integer"
  | S754_finite s m e =>
      let v := if s then - Z.pos m else Z.pos m in
      Ok (if 0 <=? e then v * 2 ^ e else - ((- v) / 2 ^ (- e)))
  end.
(** [int(x)] *)
Definition trunc (x : float64) : result Z :=
  match x with
  | S754_zero _ => Ok 0
  | S754_infinity _ => raise OverflowError "cannot convert float infinity to integer"
  | S754_nan => raise ValueError "cannot convert float NaN to integer"
  | S754_finite s m e =>
      let v := if s then - Z.pos m else Z.pos m in
      Ok (if 0 <=? e then v * 2 ^ e else Z.quot v (2 ^ (- e)))
  end.

Example ceil_example : ceil (fmul (of_int 1000) (literal 115 100)) = Ok 1150.
Proof. reflexivity. Qed.
Example ceil_rounding_example : ceil (fmul (of_int 100) (literal 115 100)) = Ok 115.
Proof. reflexivity. Qed.
Example trunc_example : trunc (fmul (of_int 4000) (literal 7 10)) = Ok 2800.
Proof. reflexivity. Qed.
