(* ===== verification/AgentModels.v ===== *)
(** * AgentModels: provider-neutral requests and their token estimate

    [models/agent.py] (the messages, the request and the response of one
    model call, with their validators), the [ToolCall], [ToolDefinition] and
    [ToolExecutionResult] of [models/tools.py], and
    [context/token_estimator.py].  The estimator reads code points, so that
    the CJK ranges keep their meaning; a [string] of the model holds the code
    points below 256. *)
From stdpp Require Import options.
From S2P Require Import Prelude Contracts Json RunModels PyFloat.
Open Scope Z_scope.

#[export] Instance AgentRole_countable : Countable AgentRole.
Proof.
  refine (inj_countable'
    (λ r, match r with ROLE_PLANNER => 0 | ROLE_DEVELOPER => 1 | ROLE_REVIEWER => 2
                     | ROLE_REPAIR => 3 end%nat)
    (λ n, match n with 0 => ROLE_PLANNER | 1 => ROLE_DEVELOPER | 2 => ROLE_REVIEWER
                     | _ => ROLE_REPAIR end%nat) _).
  by intros [].
Defined.
Definition AgentRole_value (r : AgentRole) : string :=
  match r with
  | ROLE_PLANNER => "planner"
  | ROLE_DEVELOPER => "developer"
  | ROLE_REVIEWER => "reviewer"
  | ROLE_REPAIR => "repair"
  end.

Inductive LivenessCredit : Set :=
  | LC_NORMAL | LC_INITIAL_STARTUP | LC_TOOL_RECOVERY | LC_VERIFIED_PROGRESS
  | LC_CHECKPOINT_RESUME.
#[export] Instance LivenessCredit_eq_dec : EqDecision LivenessCredit.
Proof. solve_decision. Defined.

Inductive MessageRole : Set := MR_SYSTEM | MR_USER | MR_ASSISTANT | MR_TOOL.
#[export] Instance MessageRole_eq_dec : EqDecision MessageRole.
Proof. solve_decision. Defined.
Definition MessageRole_value (r : MessageRole) : string :=
  match r with
  | MR_SYSTEM => "system"
  | MR_USER => "user"
  | MR_ASSISTANT => "assistant"
  | MR_TOOL => "tool"
  end.

(** ** [models/tools.py] *)
Record ToolCall : Set := {
  call_id : string;
  call_name : string;
  call_arguments : string;
}.
Record ToolDefinition : Set := {
  td_name : string;
  td_description : string;
  td_parameters : JSON;
}.
Record ToolExecutionResult : Set := {
  ter_tool_call_id : string;
  ter_name : string;
  ter_ok : bool;
  ter_content : string;
  ter_error_code : option ToolErrorCode;
}.

(** [^[A-Za-z_][A-Za-z0-9_]*$] *)
Definition is_name_start (c : ascii) : bool :=
  let n := nat_of_ascii c in
  ((65 <=? n) && (n <=? 90) || (97 <=? n) && (n <=? 122) || (n =? 95))%nat.
Definition is_name_tail (c : ascii) : bool :=
  let n := nat_of_ascii c in is_name_start c || ((48 <=? n) && (n <=? 57))%nat.
Definition matches_tool_name (s : string) : bool :=
  match chars s with
  | [] => false
  | c :: l => is_name_start c && forallb is_name_tail l
  end.
Definition str_between (lo hi : nat) (s : string) : bool :=
  ((lo <=? str_len s) && (str_len s <=? hi))%nat.
(** [value.strip()], which must not be empty. *)
Definition normalize_required_text (value : string) : result string :=
  let normalized := strip value in
  valid_if (negb (bool_decide (normalized = ""))) "value must not be empty" ;;
  Ok normalized.

Definition ToolCall_new (raw : ToolCall) : result ToolCall :=
  valid_if (str_between 1 256 (call_id raw)) "id" ;;
  id ← normalize_required_text (call_id raw);
  valid_if (str_between 1 128 (call_name raw) && matches_tool_name (call_name raw)) "name" ;;
  name ← normalize_required_text (call_name raw);
  Ok {| call_id := id; call_name := name; call_arguments := call_arguments raw |}.

Definition ToolDefinition_new (raw : ToolDefinition) : result ToolDefinition :=
  valid_if (str_between 1 128 (td_name raw) && matches_tool_name (td_name raw)) "name" ;;
  name ← normalize_required_text (td_name raw);
  valid_if (str_between 1 2000 (td_description raw)) "description" ;;
  description ← normalize_required_text (td_description raw);
  Ok {| td_name := name; td_description := description; td_parameters := td_parameters raw |}.

Definition ToolExecutionResult_new (raw : ToolExecutionResult) : result ToolExecutionResult :=
  valid_if (str_between 1 256 (ter_tool_call_id raw)) "tool_call_id" ;;
  id ← normalize_required_text (ter_tool_call_id raw);
  valid_if (str_between 1 128 (ter_name raw)) "name" ;;
  name ← normalize_required_text (ter_name raw);
  Ok {| ter_tool_call_id := id; ter_name := name; ter_ok := ter_ok raw;
        ter_content := ter_content raw; ter_error_code := ter_error_code raw |}.

(** ** [models/agent.py] *)
Record AgentMessage : Set := {
  am_role : MessageRole;
  am_content : string;
  am_tool_call_id : option string;
  am_tool_calls : list ToolCall;
}.
Definition normalize_tool_call_id (value : option string) : result (option string) :=
  match value with
  | None => Ok None
  | Some value =>
      let normalized := strip value in
      valid_if (negb (bool_decide (normalized = ""))) "tool_call_id must not be empty" ;;
      Ok (Some normalized)
  end.
Definition validate_role_payload (self : AgentMessage) : result AgentMessage :=
  let has_content := negb (bool_decide (am_content self = "")) in
  let has_calls := negb (bool_decide (length (am_tool_calls self) = 0%nat)) in
  let has_id := bool_decide (is_Some (am_tool_call_id self)) in
  match am_role self with
  | MR_SYSTEM | MR_USER =>
      valid_if has_content "system and user messages require content" ;;
      valid_if (negb (has_id || has_calls))
        "system and user messages cannot contain tool metadata" ;;
      Ok self
  | MR_ASSISTANT =>
      valid_if (negb has_id) "assistant messages cannot contain tool_call_id" ;;
      valid_if (has_content || has_calls) "assistant messages require content or tool_calls" ;;
      Ok self
  | MR_TOOL =>
      valid_if has_id "tool messages require tool_call_id" ;;
      valid_if has_content "tool messages require content" ;;
      valid_if (negb has_calls) "tool messages cannot contain nested tool_calls" ;;
      Ok self
  end.
(** [AgentMessage(...)] with already validated tool calls. *)
Definition AgentMessage_new (raw : AgentMessage) : result AgentMessage :=
  tool_call_id ← normalize_tool_call_id (am_tool_call_id raw);
  validate_role_payload {|
    am_role := am_role raw; am_content := strip (am_content raw);
    am_tool_call_id := tool_call_id; am_tool_calls := am_tool_calls raw |}.

(** [ar_temperature] is only forwarded to the provider. *)
Record AgentRequest : Set := {
  ar_role : AgentRole;
  ar_model : string;
  ar_messages : list AgentMessage;
  ar_temperature : float64;
  ar_max_output_tokens : Z;
  ar_enable_thinking : bool;
  ar_budget_progress : bool;
  ar_context_estimated_tokens : Z;
  ar_execution_iteration : Z;
  ar_liveness_credit : LivenessCredit;
  ar_tools : list ToolDefinition;
}.
Definition validate_unique_tools (self : AgentRequest) : result AgentRequest :=
  valid_if (no_duplicates (td_name <$> ar_tools self)) "tool definitions must have unique names" ;;
  Ok self.
Definition AgentRequest_new (raw : AgentRequest) : result AgentRequest :=
  valid_if (str_between 1 256 (ar_model raw)) "model" ;;
  valid_if (negb (bool_decide (strip (ar_model raw) = ""))) "model must not be empty" ;;
  valid_if (negb (bool_decide (length (ar_messages raw) = 0%nat))) "messages" ;;
  valid_if (fleb (of_int 0) (ar_temperature raw) && fleb (ar_temperature raw) (of_int 2))
    "temperature" ;;
  valid_if ((64 <=? ar_max_output_tokens raw) && (ar_max_output_tokens raw <=? 32768))
    "max_output_tokens" ;;
  valid_if (0 <=? ar_context_estimated_tokens raw) "context_estimated_tokens" ;;
  valid_if ((0 <=? ar_execution_iteration raw) && (ar_execution_iteration raw <=? 100))
    "execution_iteration" ;;
  validate_unique_tools {|
    ar_role := ar_role raw; ar_model := strip (ar_model raw); ar_messages := ar_messages raw;
    ar_temperature := ar_temperature raw; ar_max_output_tokens := ar_max_output_tokens raw;
    ar_enable_thinking := ar_enable_thinking raw; ar_budget_progress := ar_budget_progress raw;
    ar_context_estimated_tokens := ar_context_estimated_tokens raw;
    ar_execution_iteration := ar_execution_iteration raw;
    ar_liveness_credit := ar_liveness_credit raw; ar_tools := ar_tools raw |}.

Record AgentResponse : Set := {
  as_model : string;
  as_content : string;
  as_tool_calls : list ToolCall;
  as_usage : TokenUsage;
  as_latency_ms : Z;
  as_finish_reason : option string;
}.
Definition AgentResponse_new (raw : AgentResponse) : result AgentResponse :=
  valid_if (str_between 1 256 (as_model raw)) "model" ;;
  valid_if (0 <=? as_latency_ms raw) "latency_ms" ;;
  valid_if (negb (bool_decide (as_content raw = "" ∧ length (as_tool_calls raw) = 0%nat)))
    "agent response requires content or tool_calls" ;;
  Ok raw.

(** ** [context/token_estimator.py] *)
Definition _is_cjk (codepoint : Z) : bool :=
  ((13312 <=? codepoint) && (codepoint <=? 19903))
  || ((19968 <=? codepoint) && (codepoint <=? 40959))
  || ((63744 <=? codepoint) && (codepoint <=? 64255))
  || ((12352 <=? codepoint) && (codepoint <=? 12543))
  || ((44032 <=? codepoint) && (codepoint <=? 55215)).

Record TokenEstimator : Set := {
  te_safety_factor : float64;
  te_ascii_chars_per_token : float64;
  te_cjk_tokens_per_char : float64;
}.
(** [__post_init__] *)
Definition TokenEstimator_new (raw : TokenEstimator) : result TokenEstimator :=
  let between lo x hi := fleb (of_int lo) x && fleb x (of_int hi) in
  check (between 1 (te_safety_factor raw) 2) ValueError
    "safety_factor must be between 1.0 and 2.0" ;;
  check (between 2 (te_ascii_chars_per_token raw) 8) ValueError
    "ascii_chars_per_token must be between 2.0 and 8.0" ;;
  check (between 1 (te_cjk_tokens_per_char raw) 2) ValueError
    "cjk_tokens_per_char must be between 1.0 and 2.0" ;;
  Ok raw.
(** [TokenEstimator()] *)
Definition default_estimator : TokenEstimator := {|
  te_safety_factor := literal 115 100;
  te_ascii_chars_per_token := literal 35 10;
  te_cjk_tokens_per_char := literal 12 10;
|}.

(** [len(content.encode("utf-8"))] *)
Definition context_window_units (content : string) : Z := Z.of_nat (str_len (encode_utf8 content)).

Definition code_points (s : string) : list Z := (λ c, Z.of_nat (nat_of_ascii c)) <$> chars s.

Definition billable_token_estimate (self : TokenEstimator) (content : list Z) : result Z :=
  match content with
  | [] => Ok 0
  | _ =>
      let cjk_chars := Z.of_nat (length (filter (λ c, _is_cjk c = true) content)) in
      let non_cjk_chars := Z.of_nat (length content) - cjk_chars in
      let raw := fadd (fmul (of_int cjk_chars) (te_cjk_tokens_per_char self))
                   (fdiv (of_int non_cjk_chars) (te_ascii_chars_per_token self)) in
      n ← trunc (fadd (fmul raw (te_safety_factor self)) (literal 999 1000));
      Ok (Z.max 1 n)
  end.

Definition newline : string := of_chars [ascii_of_nat 10].
Definition estimate_messages (self : TokenEstimator) (contents : list string) : result Z :=
  billable_token_estimate self (code_points (join newline contents)).

Record RequestBreakdown : Set := {
  request_total_tokens : Z;
  metadata_tokens : Z;
  message_tokens : Z;
  historical_tool_call_tokens : Z;
  tool_definition_tokens : Z;
}.
Definition metadata_parts (request : AgentRequest) : list string :=
  ["role=" +:+ AgentRole_value (ar_role request); "model=" +:+ ar_model request].
Definition message_parts (request : AgentRequest) : list string :=
  mjoin ((λ message, [
    "message_role=" +:+ MessageRole_value (am_role message);
    "message_content=" +:+ am_content message;
    "tool_call_id=" +:+ default "" (am_tool_call_id message)]) <$> ar_messages request).
Definition historical_tool_call_parts (request : AgentRequest) : list string :=
  mjoin ((λ message, mjoin ((λ call, [
    "tool_call_id=" +:+ call_id call;
    "tool_call_name=" +:+ call_name call;
    "tool_call_arguments=" +:+ call_arguments call]) <$> am_tool_calls message))
    <$> ar_messages request).
Definition tool_definition_parts (request : AgentRequest) : list string :=
  mjoin ((λ tool, [
    "tool_name=" +:+ td_name tool;
    "tool_description=" +:+ td_description tool;
    "tool_parameters=" +:+ dumps (td_parameters tool)]) <$> ar_tools request).
Definition estimate_agent_request_breakdown (self : TokenEstimator) (request : AgentRequest) :
    result RequestBreakdown :=
  let combined := metadata_parts request ++ message_parts request
                  ++ historical_tool_call_parts request ++ tool_definition_parts request in
  total ← estimate_messages self combined;
  metadata ← estimate_messages self (metadata_parts request);
  message ← estimate_messages self (message_parts request);
  historical ← estimate_messages self (historical_tool_call_parts request);
  definitions ← estimate_messages self (tool_definition_parts request);
  Ok {| request_total_tokens := total; metadata_tokens := metadata; message_tokens := message;
        historical_tool_call_tokens := historical; tool_definition_tokens := definitions |}.
Definition estimate_agent_request (self : TokenEstimator) (request : AgentRequest) : result Z :=
  breakdown ← estimate_agent_request_breakdown self request;
  Ok (request_total_tokens breakdown).
