(* ===== verification/TokenBudget.v ===== *)
(** * TokenBudget: the token ledgers of runs

    [models/token_budget.py] and [persistence/token_budget.py]:
    [PostgresRunTokenBudgetStore] over its tables.  The rows carry the typed
    values of the enum columns, which only the enums' own values are ever
    written to, and leave out the time stamps.  A transaction is atomic (the
    code locks the rows it reads).  SQL statements are the operations at the
    head of the store section: an UPDATE of a missing row changes nothing,
    [GREATEST] is [Z.max], and every written row is checked against the
    constraints of its table, 32-bit column ranges included.  The row ids
    that [gen_random_uuid] and a sequence would give are a parameter
    ([reservation_id]) and the next id of the table.

    What follows the unconditional [return] of [reclaim_unused_task_budget]
    and of the two branches of [_reserve_hierarchy] is unreachable and has no
    counterpart here; nor have the helpers that only such code calls. *)
From stdpp Require Import options.
From S2P Require Import Prelude Contracts Dag Json Store RunModels PyFloat AgentModels.
Open Scope Z_scope.

(** ** [models/token_budget.py] *)
Inductive RunTokenBudgetStatus : Set := BS_NORMAL | BS_WARNING | BS_CRITICAL | BS_EXHAUSTED.
#[export] Instance RunTokenBudgetStatus_eq_dec : EqDecision RunTokenBudgetStatus.
Proof. solve_decision. Defined.
Inductive TokenBudgetStage : Set :=
  | ST_PLANNING | ST_DEVELOPMENT | ST_VERIFICATION_REPAIR | ST_REVIEW_PUBLICATION | ST_FLEX.
#[export] Instance TokenBudgetStage_eq_dec : EqDecision TokenBudgetStage.
Proof. solve_decision. Defined.
#[export] Instance TokenBudgetStage_countable : Countable TokenBudgetStage.
Proof.
  refine (inj_countable'
    (λ r, match r with ST_PLANNING => 0 | ST_DEVELOPMENT => 1 | ST_VERIFICATION_REPAIR => 2
                     | ST_REVIEW_PUBLICATION => 3 | ST_FLEX => 4 end%nat)
    (λ n, match n with 0 => ST_PLANNING | 1 => ST_DEVELOPMENT | 2 => ST_VERIFICATION_REPAIR
                     | 3 => ST_REVIEW_PUBLICATION | _ => ST_FLEX end%nat) _).
  by intros [].
Defined.
Inductive TaskBudgetStatus : Set := TB_ACTIVE | TB_RECLAIMED.

Record StageTokenBudget : Set := {
  stb_stage : TokenBudgetStage;
  stb_total_budget_tokens : Z;
  stb_used_tokens : Z;
  stb_reserved_tokens : Z;
}.
Definition StageTokenBudget_new (raw : StageTokenBudget) : result StageTokenBudget :=
  valid_if (0 <=? stb_total_budget_tokens raw) "total_budget_tokens" ;;
  valid_if (0 <=? stb_used_tokens raw) "used_tokens" ;;
  valid_if (0 <=? stb_reserved_tokens raw) "reserved_tokens" ;;
  Ok raw.

Record RoleTokenUsage : Set := {
  rtu_role : AgentRole;
  rtu_prompt_tokens : Z;
  rtu_completion_tokens : Z;
  rtu_total_tokens : Z;
  rtu_call_count : Z;
}.
Definition RoleTokenUsage_new (raw : RoleTokenUsage) : result RoleTokenUsage :=
  valid_if ((0 <=? rtu_prompt_tokens raw) && (0 <=? rtu_completion_tokens raw)
            && (0 <=? rtu_total_tokens raw) && (0 <=? rtu_call_count raw)) "counters" ;;
  valid_if (rtu_total_tokens raw =? rtu_prompt_tokens raw + rtu_completion_tokens raw)
    "role token total must equal prompt plus completion tokens" ;;
  Ok raw.

(** The developer or the repair figures of a work package. *)
Record PackageShare : Set := {
  ps_budget : Z;
  ps_used : Z;
  ps_reserved : Z;
  ps_borrowed : Z;
  ps_reclaimed : Z;
  ps_observed_prompt : Z;
  ps_predicted_next_input : Z;
  ps_executable_turns : Z;
}.
(** The figures that record the last decision. *)
Record PackageDecision : Set := {
  pd_liveness_credit : LivenessCredit;
  pd_required : Z;
  pd_available : Z;
  pd_flex_available : Z;
  pd_downstream_available : Z;
  pd_borrowed : Z;
  pd_budget_decision : option string;
  pd_budget_reason : option string;
  pd_recovery_action : option string;
}.
(** A row of [run_task_token_budgets], and what [WorkPackageTokenBudget]
    shows of it. *)
Record PackageRow : Set := {
  pk_complexity : string;
  pk_total : Z;
  pk_developer : PackageShare;
  pk_repair : PackageShare;
  pk_startup_reserve : Z;
  pk_complexity_upgrade_count : Z;
  pk_borrow_count : Z;
  pk_tool_recovery_credit_used : bool;
  pk_last : PackageDecision;
  pk_last_cost_prediction_reason : option string;
  pk_status : TaskBudgetStatus;
}.
Record WorkPackageTokenBudget : Set := {
  wp_task_id : string;
  wp_figures : PackageRow;
}.
Definition share_figures (s : PackageShare) : list Z :=
  [ps_budget s; ps_used s; ps_reserved s; ps_borrowed s; ps_reclaimed s; ps_observed_prompt s;
   ps_predicted_next_input s; ps_executable_turns s].
Definition decision_figures (d : PackageDecision) : list Z :=
  [pd_required d; pd_available d; pd_flex_available d; pd_downstream_available d; pd_borrowed d].
Definition package_figures (p : PackageRow) : list Z :=
  pk_total p :: share_figures (pk_developer p) ++ share_figures (pk_repair p)
  ++ [pk_startup_reserve p; pk_complexity_upgrade_count p; pk_borrow_count p]
  ++ decision_figures (pk_last p).
Definition opt_len (n : nat) (o : option string) : bool :=
  match o with Some s => (str_len s <=? n)%nat | None => true end.
Definition is_complexity (s : string) : bool := bool_decide (s ∈ ["LOW"; "MEDIUM"; "HIGH"]).
Definition WorkPackageTokenBudget_new (raw : WorkPackageTokenBudget) :
    result WorkPackageTokenBudget :=
  let p := wp_figures raw in
  valid_if (str_between 1 128 (wp_task_id raw)) "task_id" ;;
  valid_if (is_complexity (pk_complexity p)) "complexity" ;;
  valid_if (forallb (Z.leb 0) (package_figures p)) "figures" ;;
  valid_if (opt_len 64 (pd_budget_decision (pk_last p))) "last_budget_decision" ;;
  valid_if (opt_len 512 (pd_budget_reason (pk_last p))) "last_budget_reason" ;;
  valid_if (opt_len 64 (pd_recovery_action (pk_last p))) "last_recovery_action" ;;
  valid_if (opt_len 512 (pk_last_cost_prediction_reason p)) "last_cost_prediction_reason" ;;
  Ok raw.

Record RunTokenBudget : Set := {
  rtb_total_budget_tokens : Z;
  rtb_used_prompt_tokens : Z;
  rtb_used_completion_tokens : Z;
  rtb_used_total_tokens : Z;
  rtb_reserved_tokens : Z;
  rtb_status : RunTokenBudgetStatus;
  rtb_roles : list RoleTokenUsage;
  rtb_stages : list StageTokenBudget;
  rtb_work_packages : list WorkPackageTokenBudget;
}.
Definition RunTokenBudget_new (raw : RunTokenBudget) : result RunTokenBudget :=
  valid_if (1 <=? rtb_total_budget_tokens raw) "total_budget_tokens" ;;
  valid_if ((0 <=? rtb_used_prompt_tokens raw) && (0 <=? rtb_used_completion_tokens raw)
            && (0 <=? rtb_used_total_tokens raw) && (0 <=? rtb_reserved_tokens raw)) "figures" ;;
  valid_if (rtb_used_total_tokens raw
            =? rtb_used_prompt_tokens raw + rtb_used_completion_tokens raw)
    "run token total must equal prompt plus completion tokens" ;;
  Ok raw.

(** ** The other tables *)
Record RunBudgetRow : Set := {
  rb_total : Z;
  rb_used_prompt : Z;
  rb_used_completion : Z;
  rb_used_total : Z;
  rb_reserved : Z;
  rb_status : RunTokenBudgetStatus;
}.
Record ReservationRow : Set := {
  rv_run_id : UUID;
  rv_task_id : string;
  rv_role : AgentRole;
  rv_input : Z;
  rv_output : Z;
}.
Record RoleUsageRow : Set := {
  ru_prompt : Z;
  ru_completion : Z;
  ru_total : Z;
  ru_calls : Z;
}.
Record StageRow : Set := {
  sg_total : Z;
  sg_used : Z;
  sg_reserved : Z;
}.
Record CostObservation : Set := {
  co_run_id : UUID;
  co_task_id : string;
  co_role : AgentRole;
  co_iteration : Z;
  co_request_estimated : Z;
  co_actual_prompt : Z;
  co_actual_completion : Z;
  co_tool_arguments : Z;
  co_write_patch_arguments : Z;
  co_tool_results : Z;
  co_context_growth : Z;
  co_compacted_arguments : Z;
  co_has_real_progress : bool;
}.

(** [b_db] holds the [runs] and [tasks] rows that foreign keys refer to. *)
Record Budgets : Set := {
  b_db : Database;
  b_runs : gmap UUID RunBudgetRow;
  b_reservations : gmap UUID ReservationRow;
  b_roles : gmap (UUID * AgentRole) RoleUsageRow;
  b_stages : gmap (UUID * TokenBudgetStage) StageRow;
  b_packages : gmap (UUID * string) PackageRow;
  b_observations : gmap Z CostObservation;
  b_next_observation : Z;
}.
Definition set_b_runs (m : gmap UUID RunBudgetRow) (b : Budgets) : Budgets := {|
  b_db := b_db b; b_runs := m; b_reservations := b_reservations b; b_roles := b_roles b;
  b_stages := b_stages b; b_packages := b_packages b; b_observations := b_observations b;
  b_next_observation := b_next_observation b |}.
Definition set_b_reservations (m : gmap UUID ReservationRow) (b : Budgets) : Budgets := {|
  b_db := b_db b; b_runs := b_runs b; b_reservations := m; b_roles := b_roles b;
  b_stages := b_stages b; b_packages := b_packages b; b_observations := b_observations b;
  b_next_observation := b_next_observation b |}.
Definition set_b_roles (m : gmap (UUID * AgentRole) RoleUsageRow) (b : Budgets) : Budgets := {|
  b_db := b_db b; b_runs := b_runs b; b_reservations := b_reservations b; b_roles := m;
  b_stages := b_stages b; b_packages := b_packages b; b_observations := b_observations b;
  b_next_observation := b_next_observation b |}.
Definition set_b_stages (m : gmap (UUID * TokenBudgetStage) StageRow) (b : Budgets) : Budgets := {|
  b_db := b_db b; b_runs := b_runs b; b_reservations := b_reservations b; b_roles := b_roles b;
  b_stages := m; b_packages := b_packages b; b_observations := b_observations b;
  b_next_observation := b_next_observation b |}.
Definition set_b_packages (m : gmap (UUID * string) PackageRow) (b : Budgets) : Budgets := {|
  b_db := b_db b; b_runs := b_runs b; b_reservations := b_reservations b; b_roles := b_roles b;
  b_stages := b_stages b; b_packages := m; b_observations := b_observations b;
  b_next_observation := b_next_observation b |}.
Definition set_b_observations (m : gmap Z CostObservation) (next : Z) (b : Budgets) : Budgets := {|
  b_db := b_db b; b_runs := b_runs b; b_reservations := b_reservations b; b_roles := b_roles b;
  b_stages := b_stages b; b_packages := b_packages b; b_observations := m;
  b_next_observation := next |}.

(** ** Statements *)
Notation BM := (M Budgets).
Definition check_row (b : bool) (constraint : string) : BM unit :=
  ensure b IntegrityError constraint.
Definition int4s (l : list Z) : bool := forallb int4 l.

(** [run_token_budgets] *)
Definition ck_run_budget (r : RunBudgetRow) : bool :=
  int4s [rb_total r; rb_used_prompt r; rb_used_completion r; rb_used_total r; rb_reserved r]
  && (0 <? rb_total r)
  && ((0 <=? rb_used_prompt r) && (0 <=? rb_used_completion r) && (0 <=? rb_used_total r)
      && (0 <=? rb_reserved r))
  && (rb_used_total r =? rb_used_prompt r + rb_used_completion r).
Definition write_run_budget (run_id : UUID) (r : RunBudgetRow) : BM unit :=
  check_row (ck_run_budget r) "run_token_budgets" ;;
  modify (λ b, set_b_runs (<[run_id := r]> (b_runs b)) b).
Definition update_run_budget (run_id : UUID) (f : RunBudgetRow → RunBudgetRow) : BM unit :=
  b ← get;
  match b_runs b !! run_id with
  | None => mret tt
  | Some r => write_run_budget run_id (f r)
  end.
Definition fresh_run_budget (total : Z) : RunBudgetRow := {|
  rb_total := total; rb_used_prompt := 0; rb_used_completion := 0; rb_used_total := 0;
  rb_reserved := 0; rb_status := BS_NORMAL |}.
(** [INSERT ... ON CONFLICT (run_id) DO NOTHING]: CHECK constraints are
    tested before the conflict, the foreign key on an insertion only. *)
Definition insert_run_budget (run_id : UUID) (total : Z) : BM unit :=
  check_row (ck_run_budget (fresh_run_budget total)) "run_token_budgets" ;;
  b ← get;
  match b_runs b !! run_id with
  | Some _ => mret tt
  | None =>
      check_row (bool_decide (is_Some (db_runs (b_db b) !! run_id))) "run_token_budgets_run_id_fkey" ;;
      write_run_budget run_id (fresh_run_budget total)
  end.
(** [.one()] *)
Definition select_run_budget (run_id : UUID) : BM RunBudgetRow :=
  b ← get;
  lift (of_option (Exn NoResultFound "No row was found when one was required") (b_runs b !! run_id)).

Definition with_status (s : RunTokenBudgetStatus) (r : RunBudgetRow) : RunBudgetRow := {|
  rb_total := rb_total r; rb_used_prompt := rb_used_prompt r;
  rb_used_completion := rb_used_completion r; rb_used_total := rb_used_total r;
  rb_reserved := rb_reserved r; rb_status := s |}.

(** [run_token_reservations] *)
Definition ck_reservation (r : ReservationRow) : bool :=
  int4s [rv_input r; rv_output r] && (str_len (rv_task_id r) <=? 128)%nat
  && (0 <=? rv_input r) && (0 <? rv_output r).
Definition insert_reservation (id : UUID) (r : ReservationRow) : BM unit :=
  b ← get;
  check_row (ck_reservation r) "ck_run_token_reservations_values" ;;
  check_row (bool_decide (b_reservations b !! id = None)) "run_token_reservations_pkey" ;;
  check_row (bool_decide (is_Some (db_runs (b_db b) !! rv_run_id r)))
    "run_token_reservations_run_id_fkey" ;;
  modify (λ b, set_b_reservations (<[id := r]> (b_reservations b)) b).
Definition delete_reservation (id : UUID) : BM unit :=
  modify (λ b, set_b_reservations (delete id (b_reservations b)) b).

(** [run_token_role_usage] *)
Definition ck_role_usage (r : RoleUsageRow) : bool :=
  int4s [ru_prompt r; ru_completion r; ru_total r; ru_calls r]
  && ((0 <=? ru_prompt r) && (0 <=? ru_completion r) && (0 <=? ru_total r) && (0 <=? ru_calls r))
  && (ru_total r =? ru_prompt r + ru_completion r).
Definition upsert_role_usage (run_id : UUID) (role : AgentRole) (prompt completion total : Z) :
    BM unit :=
  let excluded := {| ru_prompt := prompt; ru_completion := completion; ru_total := total;
                     ru_calls := 1 |} in
  check_row (ck_role_usage excluded) "run_token_role_usage" ;;
  b ← get;
  let row := match b_roles b !! (run_id, role) with
             | None => excluded
             | Some r => {| ru_prompt := ru_prompt r + prompt;
                            ru_completion := ru_completion r + completion;
                            ru_total := ru_total r + total; ru_calls := ru_calls r + 1 |}
             end in
  check_row (ck_role_usage row) "run_token_role_usage" ;;
  check_row (bool_decide (is_Some (db_runs (b_db b) !! run_id))) "run_token_role_usage_run_id_fkey" ;;
  modify (λ b, set_b_roles (<[(run_id, role) := row]> (b_roles b)) b).

(** [run_stage_token_budgets] *)
Definition ck_stage (r : StageRow) : bool :=
  int4s [sg_total r; sg_used r; sg_reserved r]
  && ((0 <=? sg_total r) && (0 <=? sg_used r) && (0 <=? sg_reserved r)).
Definition insert_stage (run_id : UUID) (stage : TokenBudgetStage) (total : Z) : BM unit :=
  let row := {| sg_total := total; sg_used := 0; sg_reserved := 0 |} in
  check_row (ck_stage row) "ck_run_stage_token_budget_nonnegative" ;;
  b ← get;
  match b_stages b !! (run_id, stage) with
  | Some _ => mret tt
  | None =>
      check_row (bool_decide (is_Some (db_runs (b_db b) !! run_id)))
        "run_stage_token_budgets_run_id_fkey" ;;
      modify (λ b, set_b_stages (<[(run_id, stage) := row]> (b_stages b)) b)
  end.
Definition update_stage (run_id : UUID) (stage : TokenBudgetStage) (f : StageRow → StageRow) :
    BM unit :=
  b ← get;
  match b_stages b !! (run_id, stage) with
  | None => mret tt
  | Some r =>
      check_row (ck_stage (f r)) "ck_run_stage_token_budget_nonnegative" ;;
      modify (λ b, set_b_stages (<[(run_id, stage) := f r]> (b_stages b)) b)
  end.

(** [run_task_token_budgets] *)
Definition ck_package (p : PackageRow) : bool :=
  int4s (package_figures p) && is_complexity (pk_complexity p)
  && ((0 <=? pk_total p) && (0 <=? ps_budget (pk_developer p)) && (0 <=? ps_budget (pk_repair p)))
  && opt_len 64 (pd_budget_decision (pk_last p)) && opt_len 512 (pd_budget_reason (pk_last p))
  && opt_len 64 (pd_recovery_action (pk_last p))
  && opt_len 512 (pk_last_cost_prediction_reason p).
Definition update_package (run_id : UUID) (task_id : string) (f : PackageRow → PackageRow) :
    BM unit :=
  b ← get;
  match b_packages b !! (run_id, task_id) with
  | None => mret tt
  | Some p =>
      check_row (ck_package (f p)) "run_task_token_budgets" ;;
      modify (λ b, set_b_packages (<[(run_id, task_id) := f p]> (b_packages b)) b)
  end.
Definition fresh_share (budget : Z) : PackageShare := {|
  ps_budget := budget; ps_used := 0; ps_reserved := 0; ps_borrowed := 0; ps_reclaimed := 0;
  ps_observed_prompt := 0; ps_predicted_next_input := 0; ps_executable_turns := 0 |}.
Definition no_decision : PackageDecision := {|
  pd_liveness_credit := LC_NORMAL; pd_required := 0; pd_available := 0; pd_flex_available := 0;
  pd_downstream_available := 0; pd_borrowed := 0; pd_budget_decision := None;
  pd_budget_reason := None; pd_recovery_action := None |}.
Definition fresh_package (complexity : string) (total developer repair startup : Z) :
    PackageRow := {|
  pk_complexity := complexity; pk_total := total; pk_developer := fresh_share developer;
  pk_repair := fresh_share repair; pk_startup_reserve := startup;
  pk_complexity_upgrade_count := 0; pk_borrow_count := 0; pk_tool_recovery_credit_used := false;
  pk_last := no_decision; pk_last_cost_prediction_reason := None; pk_status := TB_ACTIVE |}.
Definition insert_package (run_id : UUID) (task_id : string) (p : PackageRow) : BM unit :=
  check_row (ck_package p) "run_task_token_budgets" ;;
  b ← get;
  match b_packages b !! (run_id, task_id) with
  | Some _ => mret tt
  | None =>
      check_row (bool_decide (is_Some (db_tasks (b_db b) !! (run_id, task_id))))
        "run_task_token_budgets_run_id_fkey" ;;
      modify (λ b, set_b_packages (<[(run_id, task_id) := p]> (b_packages b)) b)
  end.

(** The columns that the [{prefix}_] of a statement selects. *)
Definition share_of (role : AgentRole) (p : PackageRow) : PackageShare :=
  match role with ROLE_DEVELOPER => pk_developer p | _ => pk_repair p end.
Definition with_share (role : AgentRole) (s : PackageShare) (p : PackageRow) : PackageRow := {|
  pk_complexity := pk_complexity p; pk_total := pk_total p;
  pk_developer := match role with ROLE_DEVELOPER => s | _ => pk_developer p end;
  pk_repair := match role with ROLE_DEVELOPER => pk_repair p | _ => s end;
  pk_startup_reserve := pk_startup_reserve p;
  pk_complexity_upgrade_count := pk_complexity_upgrade_count p;
  pk_borrow_count := pk_borrow_count p;
  pk_tool_recovery_credit_used := pk_tool_recovery_credit_used p; pk_last := pk_last p;
  pk_last_cost_prediction_reason := pk_last_cost_prediction_reason p; pk_status := pk_status p |}.
Definition with_reserved (n : Z) (s : PackageShare) : PackageShare := {|
  ps_budget := ps_budget s; ps_used := ps_used s; ps_reserved := n; ps_borrowed := ps_borrowed s;
  ps_reclaimed := ps_reclaimed s; ps_observed_prompt := ps_observed_prompt s;
  ps_predicted_next_input := ps_predicted_next_input s;
  ps_executable_turns := ps_executable_turns s |}.
Definition with_prediction (predicted turns : Z) (s : PackageShare) : PackageShare := {|
  ps_budget := ps_budget s; ps_used := ps_used s; ps_reserved := ps_reserved s;
  ps_borrowed := ps_borrowed s; ps_reclaimed := ps_reclaimed s;
  ps_observed_prompt := ps_observed_prompt s;
  ps_predicted_next_input := predicted; ps_executable_turns := turns |}.
Definition with_decision (d : PackageDecision) (credit_used : bool) (p : PackageRow) :
    PackageRow := {|
  pk_complexity := pk_complexity p; pk_total := pk_total p; pk_developer := pk_developer p;
  pk_repair := pk_repair p; pk_startup_reserve := pk_startup_reserve p;
  pk_complexity_upgrade_count := pk_complexity_upgrade_count p;
  pk_borrow_count := pk_borrow_count p; pk_tool_recovery_credit_used := credit_used;
  pk_last := d; pk_last_cost_prediction_reason := pk_last_cost_prediction_reason p;
  pk_status := pk_status p |}.
Definition with_prediction_reason (reason : string) (p : PackageRow) : PackageRow := {|
  pk_complexity := pk_complexity p; pk_total := pk_total p; pk_developer := pk_developer p;
  pk_repair := pk_repair p; pk_startup_reserve := pk_startup_reserve p;
  pk_complexity_upgrade_count := pk_complexity_upgrade_count p;
  pk_borrow_count := pk_borrow_count p;
  pk_tool_recovery_credit_used := pk_tool_recovery_credit_used p;
  pk_last := pk_last p; pk_last_cost_prediction_reason := Some reason;
  pk_status := pk_status p |}.

(** [run_task_cost_observations] *)
Definition ck_observation (o : CostObservation) : bool :=
  let figures := [co_iteration o; co_request_estimated o; co_actual_prompt o;
                  co_actual_completion o; co_tool_arguments o; co_write_patch_arguments o;
                  co_tool_results o; co_context_growth o; co_compacted_arguments o] in
  int4s figures && forallb (Z.leb 0) figures.
(** [INSERT ... RETURNING id] *)
Definition insert_observation (o : CostObservation) : BM Z :=
  b ← get;
  check_row (ck_observation o) "ck_run_task_cost_observation_nonnegative" ;;
  check_row (bool_decide (is_Some (db_tasks (b_db b) !! (co_run_id o, co_task_id o))))
    "run_task_cost_observations_run_id_fkey" ;;
  let id := b_next_observation b in
  modify (λ b, set_b_observations (<[id := o]> (b_observations b)) (id + 1) b) ;;
  mret id.
Definition update_observation (id : Z) (o : CostObservation) : BM unit :=
  check_row (ck_observation o) "ck_run_task_cost_observation_nonnegative" ;;
  modify (λ b, set_b_observations (<[id := o]> (b_observations b)) (b_next_observation b) b).
(** [WHERE ... ORDER BY id DESC LIMIT 1] *)
Definition latest_observation (run_id : UUID) (task_id : string) (role : AgentRole) (b : Budgets) :
    option CostObservation :=
  snd <$> map_fold (λ id o best,
    if bool_decide (co_run_id o = run_id ∧ co_task_id o = task_id ∧ co_role o = role)
    then match best with
         | Some (i, _) => if i <? id then Some (id, o) else best
         | None => Some (id, o)
         end
    else best) None (b_observations b).

(** A transaction whose [inl] outcome is an exception that carries a value
    the caller reads: it rolls back as well. *)
Definition transaction_or {S E A} (m : M S (E + A)) : M S (E + A) := λ s,
  match m s with
  | (Ok (inr a), s') => (Ok (inr a), s')
  | (Ok (inl e), _) => (Ok (inl e), s)
  | (Raise e, _) => (Raise e, s)
  end.

(** ** [RunBudgetExhaustionFacts] *)
Record RunBudgetExhaustionFacts : Set := {
  ef_total_budget_tokens : Z;
  ef_used_total_tokens : Z;
  ef_reserved_tokens : Z;
  ef_next_prompt_tokens : Z;
  ef_completion_limit_tokens : Z;
}.
Definition remaining_tokens (f : RunBudgetExhaustionFacts) : Z :=
  Z.max 0 (ef_total_budget_tokens f - ef_used_total_tokens f - ef_reserved_tokens f).
Definition required_tokens (f : RunBudgetExhaustionFacts) : Z :=
  ef_next_prompt_tokens f + ef_completion_limit_tokens f.
Definition shortfall_tokens (f : RunBudgetExhaustionFacts) : Z :=
  Z.max 0 (required_tokens f - remaining_tokens f).
Definition facts_evidence (f : RunBudgetExhaustionFacts) : list string := [
  "budget_source=runtime-budget";
  "provider_called=false";
  "run_total_budget_tokens=" +:+ str_of_Z (ef_total_budget_tokens f);
  "run_used_total_tokens=" +:+ str_of_Z (ef_used_total_tokens f);
  "run_reserved_tokens=" +:+ str_of_Z (ef_reserved_tokens f);
  "run_remaining_tokens=" +:+ str_of_Z (remaining_tokens f);
  "next_prompt_tokens=" +:+ str_of_Z (ef_next_prompt_tokens f);
  "completion_limit_tokens=" +:+ str_of_Z (ef_completion_limit_tokens f);
  "next_required_tokens=" +:+ str_of_Z (required_tokens f);
  "budget_shortfall_tokens=" +:+ str_of_Z (shortfall_tokens f)].
Definition facts_message (f : RunBudgetExhaustionFacts) : string :=
  "Run 总模型预算不足，未向模型服务发起请求。"
  +:+ "总预算=" +:+ str_of_Z (ef_total_budget_tokens f)
  +:+ "，已使用=" +:+ str_of_Z (ef_used_total_tokens f)
  +:+ "，当前预留=" +:+ str_of_Z (ef_reserved_tokens f)
  +:+ "，剩余=" +:+ str_of_Z (remaining_tokens f)
  +:+ "，下一轮 Prompt 预计=" +:+ str_of_Z (ef_next_prompt_tokens f)
  +:+ "，Completion 上限=" +:+ str_of_Z (ef_completion_limit_tokens f)
  +:+ "，下一轮需要=" +:+ str_of_Z (required_tokens f)
  +:+ "，缺口=" +:+ str_of_Z (shortfall_tokens f) +:+ "。".

Record TokenBudgetReservation : Set := {
  tr_reservation_id : UUID;
  tr_res_run_id : UUID;
  tr_res_role : AgentRole;
  tr_reserved_input_tokens : Z;
  tr_reserved_output_tokens : Z;
}.
Definition tr_reserved_tokens (r : TokenBudgetReservation) : Z :=
  tr_reserved_input_tokens r + tr_reserved_output_tokens r.

(** ** [PostgresRunTokenBudgetStore] *)
Record PostgresRunTokenBudgetStore : Set := {
  _default_total_budget_tokens : Z;
  _adaptive_package_budget_enabled : bool;
  _token_estimate_safety_factor : float64;
}.

Definition initialize (self : PostgresRunTokenBudgetStore) (run_id : UUID)
    (total_budget_tokens : option Z) : BM unit :=
  (* [total_budget_tokens or default]: zero is falsy. *)
  let budget := match total_budget_tokens with
                | Some n => if n =? 0 then _default_total_budget_tokens self else n
                | None => _default_total_budget_tokens self
                end in
  transaction (insert_run_budget run_id budget).

Definition _status_for (consumed_or_reserved total : Z) : RunTokenBudgetStatus :=
  if total <=? consumed_or_reserved then BS_EXHAUSTED
  else if total * 90 <=? consumed_or_reserved * 100 then BS_CRITICAL
  else if total * 70 <=? consumed_or_reserved * 100 then BS_WARNING
  else BS_NORMAL.

Definition _stage_for (role : AgentRole) : TokenBudgetStage :=
  match role with
  | ROLE_PLANNER => ST_PLANNING
  | ROLE_REPAIR => ST_VERIFICATION_REPAIR
  | ROLE_REVIEWER => ST_REVIEW_PUBLICATION
  | ROLE_DEVELOPER => ST_DEVELOPMENT
  end.
Definition has_package_share (role : AgentRole) : bool :=
  bool_decide (role = ROLE_DEVELOPER ∨ role = ROLE_REPAIR).

Definition _update_status (run_id : UUID) (status : RunTokenBudgetStatus) : BM unit :=
  update_run_budget run_id (with_status status).
Definition _persist_run_exhausted_status (run_id : UUID) : BM unit :=
  transaction (update_run_budget run_id (with_status BS_EXHAUSTED)).

(** *** Initial allocation *)
Definition complexity_value (c : option PlanningComplexity) : string :=
  match c with
  | Some LOW => "LOW"
  | Some MEDIUM => "MEDIUM"
  | Some HIGH => "HIGH"
  | None => "MEDIUM"
  end.
Definition _bounded_package_budget (node : TaskNode) : result Z :=
  allocation ← of_option
    (Exn AttributeError "'NoneType' object has no attribute 'recommended_token_budget'")
    (tn_budget_allocation node);
  let recommended := tba_recommended_token_budget allocation in
  let '(lower, upper) := match default MEDIUM (tn_complexity node) with
                         | LOW => (2000, 4000)
                         | MEDIUM => (4000, 8000)
                         | HIGH => (8000, 12000)
                         end in
  Ok (Z.max lower (Z.min upper recommended)).

Definition _initial_package_allocation (self : PostgresRunTokenBudgetStore) (node : TaskNode)
    (developer_max_output_tokens : Z) : result (TaskNode * Z * Z) :=
  if decide (tn_execution_mode node = WORKFLOW) then Ok (node, 0, 0)
  else if negb (_adaptive_package_budget_enabled self) then
    bounded ← _bounded_package_budget node;
    developer ← trunc (fmul (of_int bounded) (literal 7 10));
    Ok (node, developer, bounded - developer)
  else
    objective ← billable_token_estimate default_estimator (code_points (tc_objective (tn_task node)));
    let predicted_input := Z.max 1200
      (700 + objective
       + 150 * Z.of_nat (length (tc_writable_files (tn_task node)))
       + 120 * Z.of_nat (length (tc_acceptance_criteria (tn_task node)))
       + 120 * Z.of_nat (length (tc_verification_commands (tn_task node)))) in
    let startup_turns := 2 in
    let developer := startup_turns * (predicted_input + developer_max_output_tokens) in
    let repair := Z.max 800 (Z.min 1500 predicted_input) in
    Ok (node, developer, repair).

(** The nodes of a DAG that carry a budget allocation. *)
Definition allocated_nodes (dag : TaskDAG) : list TaskNode :=
  filter (λ n, is_Some (tn_budget_allocation n)) (tasks dag).
Definition validate_hierarchy_plan (self : PostgresRunTokenBudgetStore) (dag : TaskDAG)
    (developer_max_output_tokens : Z) : result unit :=
  fold_result (λ _ node,
    _initial_package_allocation self node developer_max_output_tokens ;; Ok tt) tt
    (allocated_nodes dag).

Definition initialize_hierarchy (self : PostgresRunTokenBudgetStore) (run_id : UUID) (dag : TaskDAG)
    (developer_max_output_tokens : Z) : BM unit :=
  let nodes := allocated_nodes dag in
  match nodes with
  | [] => mret tt
  | _ =>
    lift (validate_hierarchy_plan self dag developer_max_output_tokens) ;;
    transaction (
      b ← get;
      let row := b_runs b !! run_id in
      let total := match row with
                   | None => _default_total_budget_tokens self
                   | Some r => rb_total r
                   end in
      (match row with None => insert_run_budget run_id total | Some _ => mret tt end) ;;
      raw ← lift (map_result (λ node,
        _initial_package_allocation self node developer_max_output_tokens) nodes);
      for_each raw (λ '(node, developer, repair),
        let workflow := bool_decide (tn_execution_mode node = WORKFLOW) in
        let developer := if workflow then 0 else developer in
        let repair := if workflow then 0 else repair in
        insert_package run_id (node_id node)
          (fresh_package (complexity_value (tn_complexity node)) (developer + repair)
             developer repair (developer / 2))) ;;
      for_each [(ST_PLANNING, 0); (ST_DEVELOPMENT, total); (ST_VERIFICATION_REPAIR, 0);
                (ST_REVIEW_PUBLICATION, 0); (ST_FLEX, 0)]
        (λ '(stage, amount), insert_stage run_id stage amount))
  end.

(** *** Predictions *)
Definition scaled (self : PostgresRunTokenBudgetStore) (n : Z) : result Z :=
  ceil (fmul (of_int n) (_token_estimate_safety_factor self)).

Definition _next_input_prediction (self : PostgresRunTokenBudgetStore)
    (current_request_estimate observed_prompt_tokens context_growth_tokens tool_argument_tokens
     tool_result_tokens write_patch_argument_tokens : Z) : result Z :=
  observed_floor ← scaled self observed_prompt_tokens;
  growth ← scaled self (Z.max context_growth_tokens (tool_argument_tokens + tool_result_tokens));
  let growth_floor := observed_prompt_tokens + growth in
  write ← scaled self (write_patch_argument_tokens + tool_result_tokens);
  let write_patch_floor := observed_prompt_tokens + write in
  Ok (Z.max (Z.max (Z.max current_request_estimate observed_floor) growth_floor) write_patch_floor).

Definition share_available (s : PackageShare) : Z :=
  Z.max 0 (ps_budget s - ps_used s - ps_reserved s).

Definition _update_cost_prediction (run_id : UUID) (task_id : string) (role : AgentRole)
    (predicted_input_tokens max_output_tokens : Z) (reason : string) : BM unit :=
  b ← get;
  match b_packages b !! (run_id, task_id) with
  | None => mret tt
  | Some p =>
      let remaining := share_available (share_of role p) in
      let next_turn_cost := Z.max 1 (predicted_input_tokens + max_output_tokens) in
      update_package run_id task_id (λ p, with_prediction_reason reason
        (with_share role (with_prediction predicted_input_tokens (remaining / next_turn_cost)
                            (share_of role p)) p))
  end.

Definition _calibrated_input_estimate (self : PostgresRunTokenBudgetStore) (run_id : UUID)
    (task_id : string) (role : AgentRole) (estimated_input_tokens : Z) : BM Z :=
  if negb (has_package_share role) then mret estimated_input_tokens
  else
    b ← get;
    let observed := match b_packages b !! (run_id, task_id) with
                    | None => 0
                    | Some p => ps_observed_prompt (share_of role p)
                    end in
    match latest_observation run_id task_id role b with
    | None =>
        floor ← lift (scaled self observed);
        mret (Z.max estimated_input_tokens floor)
    | Some o =>
        let compacted := co_compacted_arguments o in
        lift (_next_input_prediction self estimated_input_tokens
                (Z.max observed (co_actual_prompt o)) (co_context_growth o)
                (Z.max 0 (co_tool_arguments o - compacted)) (co_tool_results o)
                (Z.max 0 (co_write_patch_arguments o - compacted)))
    end.

(** *** Reservations *)
Definition _record_soft_share_reservation (run_id : UUID) (task_id : string) (role : AgentRole)
    (required : Z) (liveness_credit : LivenessCredit) : BM unit :=
  b ← get;
  match b_packages b !! (run_id, task_id) with
  | None => mret tt
  | Some p =>
      let available := share_available (share_of role p) in
      let soft_share_exceeded := available <? required in
      update_package run_id task_id (λ p,
        with_decision {|
          pd_liveness_credit := liveness_credit;
          pd_required := required;
          pd_available := available;
          pd_flex_available := pd_flex_available (pk_last p);
          pd_downstream_available := pd_downstream_available (pk_last p);
          pd_borrowed := 0;
          pd_budget_decision :=
            Some (if soft_share_exceeded then "SOFT_SHARE_EXCEEDED" else "RESERVED");
          pd_budget_reason := Some
            (if soft_share_exceeded
             then "工作包 soft share 仅用于调度参考；本次调用由 Run 总预算批准。"
             else "工作包 soft share 充足；本次调用由 Run 总预算批准。");
          pd_recovery_action := None |}
          (pk_tool_recovery_credit_used p || bool_decide (liveness_credit = LC_TOOL_RECOVERY))
          (with_share role
             (with_reserved (ps_reserved (share_of role p) + required) (share_of role p)) p))
  end.

Definition stage_reserve (required : Z) (s : StageRow) : StageRow := {|
  sg_total := sg_total s; sg_used := sg_used s; sg_reserved := sg_reserved s + required |}.

Definition _reserve_hierarchy (run_id : UUID) (task_id : string) (role : AgentRole) (required : Z)
    (liveness_credit : LivenessCredit) : BM unit :=
  let stage := _stage_for role in
  (if has_package_share role
   then _record_soft_share_reservation run_id task_id role required liveness_credit
   else mret tt) ;;
  update_stage run_id stage (stage_reserve required).

Definition add_reserved (required : Z) (status : RunTokenBudgetStatus) (r : RunBudgetRow) :
    RunBudgetRow := {|
  rb_total := rb_total r; rb_used_prompt := rb_used_prompt r;
  rb_used_completion := rb_used_completion r; rb_used_total := rb_used_total r;
  rb_reserved := rb_reserved r + required; rb_status := status |}.

(** [reserve]: [inl facts] is the [RunBudgetExhaustedError] that carries
    [facts].  [has_progress] is only read by unreachable code. *)
Definition reserve (self : PostgresRunTokenBudgetStore) (reservation_id run_id : UUID)
    (task_id : string) (role : AgentRole) (estimated_input_tokens max_output_tokens : Z)
    (has_progress : bool) (liveness_credit : LivenessCredit) :
    BM (RunBudgetExhaustionFacts + TokenBudgetReservation) :=
  ensure (negb ((estimated_input_tokens <? 0) || (max_output_tokens <? 1))) ValueError
    "token reservation values must be non-negative and non-empty" ;;
  outcome ← transaction_or (
    estimated_input_tokens ←
      _calibrated_input_estimate self run_id task_id role estimated_input_tokens;
    let required := estimated_input_tokens + max_output_tokens in
    insert_run_budget run_id (_default_total_budget_tokens self) ;;
    row ← select_run_budget run_id;
    let total := rb_total row in
    let used_total := rb_used_total row in
    let reserved_tokens := rb_reserved row in
    let projected := used_total + reserved_tokens + required in
    let status := _status_for projected total in
    if total <? projected then
      _update_status run_id BS_EXHAUSTED ;;
      mret (inl {| ef_total_budget_tokens := total; ef_used_total_tokens := used_total;
                   ef_reserved_tokens := reserved_tokens;
                   ef_next_prompt_tokens := estimated_input_tokens;
                   ef_completion_limit_tokens := max_output_tokens |})
    else
      _reserve_hierarchy run_id task_id role required liveness_credit ;;
      update_run_budget run_id (add_reserved required status) ;;
      insert_reservation reservation_id {|
        rv_run_id := run_id; rv_task_id := task_id; rv_role := role;
        rv_input := estimated_input_tokens; rv_output := max_output_tokens |} ;;
      mret (inr {| tr_reservation_id := reservation_id; tr_res_run_id := run_id;
                   tr_res_role := role; tr_reserved_input_tokens := estimated_input_tokens;
                   tr_reserved_output_tokens := max_output_tokens |}));
  match outcome with
  | inl facts => _persist_run_exhausted_status run_id ;; mret (inl facts)
  | inr reservation => mret (inr reservation)
  end.

Definition _actual_usage (usage : option TokenUsage) (reservation : TokenBudgetReservation) :
    Z * Z :=
  match usage with
  | None => (0, 0)
  | Some usage =>
      if (total_tokens usage =? 0) && (prompt_tokens usage =? 0) && (completion_tokens usage =? 0)
      then (tr_reserved_input_tokens reservation, tr_reserved_output_tokens reservation)
      else (prompt_tokens usage, completion_tokens usage)
  end.

Definition stage_settle (reserved used : Z) (s : StageRow) : StageRow := {|
  sg_total := sg_total s; sg_used := sg_used s + used;
  sg_reserved := Z.max 0 (sg_reserved s - reserved) |}.
Definition share_settle (reserved used prompt : Z) (s : PackageShare) : PackageShare := {|
  ps_budget := ps_budget s; ps_used := ps_used s + used;
  ps_reserved := Z.max 0 (ps_reserved s - reserved); ps_borrowed := ps_borrowed s;
  ps_reclaimed := ps_reclaimed s; ps_observed_prompt := Z.max (ps_observed_prompt s) prompt;
  ps_predicted_next_input := ps_predicted_next_input s;
  ps_executable_turns := ps_executable_turns s |}.
Definition _settle_hierarchy (run_id : UUID) (task_id : string) (role : AgentRole)
    (reserved used prompt_tokens : Z) : BM unit :=
  update_stage run_id (_stage_for role) (stage_settle reserved used) ;;
  if has_package_share role then
    update_package run_id task_id (λ p,
      with_share role (share_settle reserved used prompt_tokens (share_of role p)) p)
  else mret tt.

Definition settle_row (reserved prompt completion total : Z) (status : RunTokenBudgetStatus)
    (r : RunBudgetRow) : RunBudgetRow := {|
  rb_total := rb_total r; rb_used_prompt := rb_used_prompt r + prompt;
  rb_used_completion := rb_used_completion r + completion;
  rb_used_total := rb_used_total r + total;
  rb_reserved := Z.max 0 (rb_reserved r - reserved); rb_status := status |}.

Definition _finish_reservation (reservation : TokenBudgetReservation) (usage : option TokenUsage) :
    BM unit :=
  transaction (
    b ← get;
    match b_reservations b !! tr_reservation_id reservation with
    | None => mret tt
    | Some row =>
        let reserved := rv_input row + rv_output row in
        budget ← select_run_budget (tr_res_run_id reservation);
        let '(prompt, completion) := _actual_usage usage reservation in
        let total := prompt + completion in
        let status := _status_for (rb_used_total budget + total) (rb_total budget) in
        update_run_budget (tr_res_run_id reservation)
          (settle_row reserved prompt completion total status) ;;
        _settle_hierarchy (tr_res_run_id reservation) (rv_task_id row) (rv_role row)
          reserved total prompt ;;
        (match usage with
         | Some _ => upsert_role_usage (tr_res_run_id reservation) (tr_res_role reservation)
                       prompt completion total
         | None => mret tt
         end) ;;
        delete_reservation (tr_reservation_id reservation)
    end).
Definition cancel (reservation : TokenBudgetReservation) : BM unit :=
  _finish_reservation reservation None.
Definition settle (reservation : TokenBudgetReservation) (usage : TokenUsage) : BM unit :=
  _finish_reservation reservation (Some usage).

(** *** Usage and observations *)

(** The [CASE] of [record_usage]: its products are 32-bit, and a branch is
    evaluated only when the ones before it were false. *)
Definition usage_status (used total_budget : Z) (old : RunTokenBudgetStatus) :
    option RunTokenBudgetStatus :=
  if total_budget <=? used then Some BS_EXHAUSTED
  else if negb (int4 (used * 100) && int4 (total_budget * 90)) then None
  else if total_budget * 90 <=? used * 100 then Some BS_CRITICAL
  else if negb (int4 (total_budget * 70)) then None
  else if total_budget * 70 <=? used * 100 then Some BS_WARNING
  else Some old.

Definition _record_stage_usage (run_id : UUID) (role : AgentRole) (total : Z) : BM unit :=
  update_stage run_id (_stage_for role) (λ s,
    {| sg_total := sg_total s; sg_used := sg_used s + total; sg_reserved := sg_reserved s |}).

Definition record_usage (run_id : UUID) (role : AgentRole) (usage : TokenUsage) : BM unit :=
  transaction (
    b ← get;
    (match b_runs b !! run_id with
     | None => mret tt
     | Some r =>
         let used := rb_used_total r + total_tokens usage in
         check_row (int4 used) "integer out of range" ;;
         status ← lift (of_option (Exn IntegrityError "integer out of range")
                          (usage_status used (rb_total r) (rb_status r)));
         write_run_budget run_id {|
           rb_total := rb_total r;
           rb_used_prompt := rb_used_prompt r + prompt_tokens usage;
           rb_used_completion := rb_used_completion r + completion_tokens usage;
           rb_used_total := used; rb_reserved := rb_reserved r; rb_status := status |}
     end) ;;
    _record_stage_usage run_id role (total_tokens usage) ;;
    upsert_role_usage run_id role (prompt_tokens usage) (completion_tokens usage)
      (total_tokens usage)).

Definition record_model_turn_observation (self : PostgresRunTokenBudgetStore) (run_id : UUID)
    (task_id : string) (role : AgentRole) (iteration request_estimated_tokens : Z)
    (usage : TokenUsage) (tool_argument_tokens write_patch_argument_tokens : Z)
    (has_real_progress : bool) (max_output_tokens : Z) : BM (option Z) :=
  if negb (has_package_share role) then mret None
  else transaction (
    b ← get;
    let prior_prompt := match latest_observation run_id task_id role b with
                        | None => 0
                        | Some o => co_actual_prompt o
                        end in
    let growth := Z.max 0 (prompt_tokens usage - prior_prompt) in
    observation_id ← insert_observation {|
      co_run_id := run_id; co_task_id := task_id; co_role := role; co_iteration := iteration;
      co_request_estimated := request_estimated_tokens;
      co_actual_prompt := prompt_tokens usage; co_actual_completion := completion_tokens usage;
      co_tool_arguments := tool_argument_tokens;
      co_write_patch_arguments := write_patch_argument_tokens; co_tool_results := 0;
      co_context_growth := growth; co_compacted_arguments := 0;
      co_has_real_progress := has_real_progress |};
    predicted ← lift (_next_input_prediction self request_estimated_tokens (prompt_tokens usage)
                        growth tool_argument_tokens 0 write_patch_argument_tokens);
    _update_cost_prediction run_id task_id role predicted max_output_tokens
      "当前请求、实际 Prompt、上下文增长和工具参数的最大预测值。" ;;
    mret (Some observation_id)).

Definition record_tool_outcome_observation (self : PostgresRunTokenBudgetStore)
    (observation_id tool_result_tokens : Z) (has_real_progress : bool)
    (max_output_tokens compacted_tool_argument_tokens : Z) : BM unit :=
  transaction (
    b ← get;
    match b_observations b !! observation_id with
    | None => mret tt
    | Some row =>
        update_observation observation_id {|
          co_run_id := co_run_id row; co_task_id := co_task_id row; co_role := co_role row;
          co_iteration := co_iteration row; co_request_estimated := co_request_estimated row;
          co_actual_prompt := co_actual_prompt row;
          co_actual_completion := co_actual_completion row;
          co_tool_arguments := co_tool_arguments row;
          co_write_patch_arguments := co_write_patch_arguments row;
          co_tool_results := tool_result_tokens;
          co_context_growth := co_context_growth row;
          co_compacted_arguments := compacted_tool_argument_tokens;
          co_has_real_progress := co_has_real_progress row || has_real_progress |} ;;
        let retained_tool_arguments :=
          Z.max 0 (co_tool_arguments row - compacted_tool_argument_tokens) in
        let retained_write_patch_arguments :=
          Z.max 0 (co_write_patch_arguments row - compacted_tool_argument_tokens) in
        predicted ← lift (_next_input_prediction self (co_request_estimated row)
                            (co_actual_prompt row) (co_context_growth row)
                            retained_tool_arguments tool_result_tokens
                            retained_write_patch_arguments);
        _update_cost_prediction (co_run_id row) (co_task_id row) (co_role row) predicted
          max_output_tokens
          "当前请求、实际 Prompt、增长率、工具结果与大写入参数的最大预测值。"
    end).

Definition reclaim_unused_task_budget (run_id : UUID) (task_id : string) : BM unit :=
  transaction (update_package run_id task_id (λ p, {|
    pk_complexity := pk_complexity p; pk_total := pk_total p; pk_developer := pk_developer p;
    pk_repair := pk_repair p; pk_startup_reserve := pk_startup_reserve p;
    pk_complexity_upgrade_count := pk_complexity_upgrade_count p;
    pk_borrow_count := pk_borrow_count p;
    pk_tool_recovery_credit_used := pk_tool_recovery_credit_used p;
    pk_last := {|
      pd_liveness_credit := pd_liveness_credit (pk_last p);
      pd_required := pd_required (pk_last p);
      pd_available := pd_available (pk_last p);
      pd_flex_available := pd_flex_available (pk_last p);
      pd_downstream_available := pd_downstream_available (pk_last p);
      pd_borrowed := pd_borrowed (pk_last p);
      pd_budget_decision := Some "SOFT_SHARE_RELEASED";
      pd_budget_reason :=
        Some "工作包额度仅为兼容性 soft share，未发生 FLEX 划拨。";
      pd_recovery_action := pd_recovery_action (pk_last p) |};
    pk_last_cost_prediction_reason := pk_last_cost_prediction_reason p;
    pk_status := TB_RECLAIMED |})).

(** *** [snapshot]

    The roles and the stages in the order of their names, the packages in
    the order of their task ids (by code point, the "C" collation). *)
Definition roles_by_name : list AgentRole :=
  [ROLE_DEVELOPER; ROLE_PLANNER; ROLE_REPAIR; ROLE_REVIEWER].
Definition stages_by_name : list TokenBudgetStage :=
  [ST_DEVELOPMENT; ST_FLEX; ST_PLANNING; ST_REVIEW_PUBLICATION; ST_VERIFICATION_REPAIR].
Definition package_le (x y : string * PackageRow) : Prop := String.le x.1 y.1.
#[export] Instance package_le_dec : RelDecision package_le.
Proof. intros x y. unfold package_le. apply _. Defined.
Definition package_rows (run_id : UUID) (b : Budgets) : list (string * PackageRow) :=
  merge_sort package_le
    (omap (λ '((r, t), p), if bool_decide (r = run_id) then Some (t, p) else None)
       (map_to_list (b_packages b))).

Definition snapshot (self : PostgresRunTokenBudgetStore) (run_id : UUID) (b : Budgets) :
    result RunTokenBudget :=
  match b_runs b !! run_id with
  | None => RunTokenBudget_new {|
      rtb_total_budget_tokens := _default_total_budget_tokens self; rtb_used_prompt_tokens := 0;
      rtb_used_completion_tokens := 0; rtb_used_total_tokens := 0; rtb_reserved_tokens := 0;
      rtb_status := BS_NORMAL; rtb_roles := []; rtb_stages := []; rtb_work_packages := [] |}
  | Some row =>
      roles ← map_result (λ '(role, r), RoleTokenUsage_new {|
        rtu_role := role; rtu_prompt_tokens := ru_prompt r; rtu_completion_tokens := ru_completion r;
        rtu_total_tokens := ru_total r; rtu_call_count := ru_calls r |})
        (omap (λ role, pair role <$> b_roles b !! (run_id, role)) roles_by_name);
      stages ← map_result (λ '(stage, r), StageTokenBudget_new {|
        stb_stage := stage; stb_total_budget_tokens := sg_total r; stb_used_tokens := sg_used r;
        stb_reserved_tokens := sg_reserved r |})
        (omap (λ stage, pair stage <$> b_stages b !! (run_id, stage)) stages_by_name);
      packages ← map_result (λ '(task_id, p), WorkPackageTokenBudget_new {|
        wp_task_id := task_id; wp_figures := p |}) (package_rows run_id b);
      RunTokenBudget_new {|
        rtb_total_budget_tokens := rb_total row; rtb_used_prompt_tokens := rb_used_prompt row;
        rtb_used_completion_tokens := rb_used_completion row;
        rtb_used_total_tokens := rb_used_total row; rtb_reserved_tokens := rb_reserved row;
        rtb_status := rb_status row; rtb_roles := roles; rtb_stages := stages;
        rtb_work_packages := packages |}
  end.
