(* ===== verification/TokenBudgetFacts.v ===== *)
(** * TokenBudgetFacts: the run ledger is balanced

    The reservation ledger of [TokenBudget]: [reserved_tokens] of a run is
    the sum of its open reservations whatever the callers do, a reservation
    is granted exactly when it fits the run's total, it is accounted for
    once, and settled calls that stay within what they reserved never take a
    run over its total. *)
From stdpp Require Import options relations.
From S2P Require Import Prelude Contracts Dag Json Store Events RunModels PyFloat AgentModels TokenBudget.
Open Scope Z_scope.

(** ** Operations that stay away from the ledger *)
Definition same_ledger (b b' : Budgets) : Prop :=
  b_db b' = b_db b ∧ b_runs b' = b_runs b ∧ b_reservations b' = b_reservations b.
#[export] Instance same_ledger_preorder : PreOrder same_ledger.
Proof.
  split; [by intros b|]. intros b1 b2 b3 (?&?&?) (?&?&?). repeat split; congruence.
Qed.

Ltac keeping :=
  repeat match goal with
    | |- PreOrder _ => apply same_ledger_preorder
    | |- keeps _ (mret _) => apply keeps_ret
    | |- keeps _ (lift _) => apply keeps_lift
    | |- keeps _ get => apply keeps_get
    | |- keeps _ (transaction _) => apply keeps_transaction
    | |- keeps _ (for_each _ _) => apply keeps_for_each
    | |- keeps _ (_ ≫= _) => apply keeps_bind
    | |- keeps _ (modify _) => apply keeps_modify; intros ?; repeat split
    | |- keeps _ (check_row _ _) => apply keeps_lift
    | |- keeps _ (ensure _ _ _) => apply keeps_lift
    | |- keeps _ (match ?x with _ => _ end) => destruct x
    | |- keeps _ (let _ := _ in _) => cbv zeta
    | |- keeps _ _ => fail
    | |- ∀ _, _ => intros ?
    end.

Lemma keeps_update_stage run_id stage f : keeps same_ledger (update_stage run_id stage f).
Proof. unfold update_stage. keeping. Qed.
Lemma keeps_insert_stage run_id stage n : keeps same_ledger (insert_stage run_id stage n).
Proof. unfold insert_stage. keeping. Qed.
Lemma keeps_update_package run_id t f : keeps same_ledger (update_package run_id t f).
Proof. unfold update_package. keeping. Qed.
Lemma keeps_insert_package run_id t p : keeps same_ledger (insert_package run_id t p).
Proof. unfold insert_package. keeping. Qed.
Lemma keeps_upsert_role_usage run_id role p c t :
  keeps same_ledger (upsert_role_usage run_id role p c t).
Proof. unfold upsert_role_usage. keeping. Qed.
Lemma keeps_insert_observation o : keeps same_ledger (insert_observation o).
Proof. unfold insert_observation. keeping. Qed.
Lemma keeps_update_observation i o : keeps same_ledger (update_observation i o).
Proof. unfold update_observation. keeping. Qed.

#[export] Hint Resolve keeps_update_stage keeps_insert_stage keeps_update_package
  keeps_insert_package keeps_upsert_role_usage keeps_insert_observation
  keeps_update_observation : devflow.
Ltac keeping_ledger := repeat (keeping; try solve [auto with devflow]).

Lemma keeps_cost_prediction run_id t role p m r :
  keeps same_ledger (_update_cost_prediction run_id t role p m r).
Proof. unfold _update_cost_prediction. keeping_ledger. Qed.
Lemma keeps_reserve_hierarchy run_id t role required credit :
  keeps same_ledger (_reserve_hierarchy run_id t role required credit).
Proof. unfold _reserve_hierarchy, _record_soft_share_reservation. keeping_ledger. Qed.
Lemma keeps_settle_hierarchy run_id t role reserved used prompt :
  keeps same_ledger (_settle_hierarchy run_id t role reserved used prompt).
Proof. unfold _settle_hierarchy. keeping_ledger. Qed.
Lemma keeps_model_turn self run_id t role i e u a w p m :
  keeps same_ledger (record_model_turn_observation self run_id t role i e u a w p m).
Proof.
  unfold record_model_turn_observation. keeping_ledger. apply keeps_cost_prediction.
Qed.
Lemma keeps_tool_outcome self i t p m c :
  keeps same_ledger (record_tool_outcome_observation self i t p m c).
Proof.
  unfold record_tool_outcome_observation. keeping_ledger; apply keeps_cost_prediction.
Qed.
Lemma keeps_reclaim run_id t : keeps same_ledger (reclaim_unused_task_budget run_id t).
Proof. unfold reclaim_unused_task_budget. keeping_ledger. Qed.

(** The estimate only reads. *)
Lemma calibrated_reads self run_id t role e b :
  (_calibrated_input_estimate self run_id t role e b).2 = b.
Proof.
  unfold _calibrated_input_estimate. destruct (negb _); [done|].
  unfold mbind, M_bind. cbn. destruct (latest_observation _ _ _ _); [done|].
  cbn. by destruct (scaled _ _).
Qed.

(** ** The sum of the open reservations *)
Definition tokens_of (r : ReservationRow) : Z := rv_input r + rv_output r.
Definition open_tokens (run_id : UUID) (m : gmap UUID ReservationRow) : Z :=
  map_fold (λ _ r n, (if bool_decide (rv_run_id r = run_id) then tokens_of r else 0) + n) 0 m.

Lemma open_tokens_empty run_id : open_tokens run_id ∅ = 0.
Proof. apply map_fold_empty. Qed.
Lemma open_tokens_insert run_id m id r :
  m !! id = None →
  open_tokens run_id (<[id := r]> m)
  = (if bool_decide (rv_run_id r = run_id) then tokens_of r else 0) + open_tokens run_id m.
Proof. intros H. unfold open_tokens. rewrite map_fold_insert_L; [done| |done]. intros; lia. Qed.
Lemma open_tokens_delete run_id m id r :
  m !! id = Some r →
  open_tokens run_id m
  = (if bool_decide (rv_run_id r = run_id) then tokens_of r else 0)
    + open_tokens run_id (delete id m).
Proof.
  intros H. rewrite <-(insert_delete_id m id r H) at 1.
  rewrite open_tokens_insert; [done|apply lookup_delete_eq].
Qed.

(** The stage and package rows that a call of [role] writes to meet their
    constraints. *)
Definition shares_ok (run_id : UUID) (t : string) (role : AgentRole) (b : Budgets) : Prop :=
  (∀ row, b_stages b !! (run_id, _stage_for role) = Some row → ck_stage row = true)
  ∧ (has_package_share role = true →
     ∀ p, b_packages b !! (run_id, t) = Some p → ck_package p = true).
Lemma update_stage_inv run_id stage f b u b' :
  update_stage run_id stage f b = (Ok u, b') →
  b_packages b' = b_packages b
  ∧ ∀ row, b_stages b' !! (run_id, stage) = Some row → ck_stage row = true.
Proof.
  unfold update_stage. rewrite get_run.
  destruct (b_stages b !! (run_id, stage)) as [row|] eqn:E.
  - unfold check_row. destruct (ck_stage (f row)) eqn:Eck; [rewrite ensure_run by done|
      by rewrite ensure_raise by done].
    intros [= _ <-]. split; [done|]. cbn. intros row'. rewrite lookup_insert_eq. by intros [= <-].
  - intros [= _ <-]. split; [done|]. intros row'. by rewrite E.
Qed.
Lemma update_package_inv run_id t f b u b' :
  update_package run_id t f b = (Ok u, b') →
  ∀ p, b_packages b' !! (run_id, t) = Some p → ck_package p = true.
Proof.
  unfold update_package. rewrite get_run.
  destruct (b_packages b !! (run_id, t)) as [p|] eqn:E.
  - unfold check_row. destruct (ck_package (f p)) eqn:Eck; [rewrite ensure_run by done|
      by rewrite ensure_raise by done].
    intros [= _ <-]. cbn. intros p'. rewrite lookup_insert_eq. by intros [= <-].
  - intros [= _ <-] p'. by rewrite E.
Qed.
Lemma reserve_hierarchy_shares run_id t role required credit b u b' :
  _reserve_hierarchy run_id t role required credit b = (Ok u, b') → shares_ok run_id t role b'.
Proof.
  unfold _reserve_hierarchy. intros H. apply M_bind_Ok_inv in H as (u1 & b1 & H1 & H).
  apply update_stage_inv in H as [Hp Hs]. split; [done|]. rewrite Hp.
  destruct (has_package_share role); [|done]. intros _.
  unfold _record_soft_share_reservation in H1. rewrite get_run in H1.
  destruct (b_packages b !! (run_id, t)) eqn:E.
  - by eapply update_package_inv.
  - injection H1 as _ <-. intros p. by rewrite E.
Qed.

(** ** What the ledger statements do *)
Lemma write_run_budget_run run_id r b :
  write_run_budget run_id r b
  = if ck_run_budget r then (Ok tt, set_b_runs (<[run_id := r]> (b_runs b)) b)
    else (Raise (Exn IntegrityError "run_token_budgets"), b).
Proof. unfold write_run_budget, check_row, ensure. by destruct (ck_run_budget r). Qed.
Lemma update_run_budget_run run_id f b :
  update_run_budget run_id f b
  = match b_runs b !! run_id with
    | None => (Ok tt, b)
    | Some r => write_run_budget run_id (f r) b
    end.
Proof. unfold update_run_budget. rewrite get_run. by destruct (b_runs b !! run_id). Qed.
Lemma select_run_budget_run run_id b :
  select_run_budget run_id b
  = (of_option (Exn NoResultFound "No row was found when one was required") (b_runs b !! run_id), b).
Proof. done. Qed.

(** The row [reserve] reads: the run's, or a fresh one. *)
Definition ledger_row (self : PostgresRunTokenBudgetStore) (run_id : UUID) (b : Budgets) :
    RunBudgetRow :=
  default (fresh_run_budget (_default_total_budget_tokens self)) (b_runs b !! run_id).
Definition with_ledger_row (self : PostgresRunTokenBudgetStore) (run_id : UUID) (b : Budgets) :
    Budgets :=
  match b_runs b !! run_id with
  | Some _ => b
  | None => set_b_runs
      (<[run_id := fresh_run_budget (_default_total_budget_tokens self)]> (b_runs b)) b
  end.
Lemma insert_run_budget_Ok self run_id b u b' :
  insert_run_budget run_id (_default_total_budget_tokens self) b = (Ok u, b') →
  b' = with_ledger_row self run_id b.
Proof.
  unfold insert_run_budget, with_ledger_row. intros H.
  unfold check_row in H. inv_monad.
  destruct (b_runs b !! run_id) as [r|] eqn:E; [by injection H as _ ->|]. inv_monad.
  rewrite write_run_budget_run in H. destruct (ck_run_budget _); congruence.
Qed.
Lemma with_ledger_row_lookup self run_id b :
  b_runs (with_ledger_row self run_id b) !! run_id = Some (ledger_row self run_id b).
Proof.
  unfold with_ledger_row, ledger_row. destruct (b_runs b !! run_id) eqn:E; cbn; [done|].
  by rewrite lookup_insert_eq.
Qed.
Lemma with_ledger_row_insert self run_id b r :
  <[run_id := r]> (b_runs (with_ledger_row self run_id b)) = <[run_id := r]> (b_runs b).
Proof. unfold with_ledger_row. destruct (b_runs b !! run_id); cbn; [done|]. by rewrite insert_insert_eq. Qed.
Lemma with_ledger_row_rest self run_id b :
  b_db (with_ledger_row self run_id b) = b_db b
  ∧ b_reservations (with_ledger_row self run_id b) = b_reservations b.
Proof. unfold with_ledger_row. by destruct (b_runs b !! run_id). Qed.

(** A refused call leaves the status of the run behind, nothing else. *)
Definition exhausted (run_id : UUID) (b : Budgets) : Budgets :=
  match b_runs b !! run_id with
  | None => b
  | Some r => set_b_runs (<[run_id := with_status BS_EXHAUSTED r]> (b_runs b)) b
  end.
Definition reservation_of (id run_id : UUID) (role : AgentRole) (est out : Z) :
    TokenBudgetReservation := {|
  tr_reservation_id := id; tr_res_run_id := run_id; tr_res_role := role;
  tr_reserved_input_tokens := est; tr_reserved_output_tokens := out |}.
Definition reservation_row (run_id : UUID) (t : string) (role : AgentRole) (est out : Z) :
    ReservationRow := {|
  rv_run_id := run_id; rv_task_id := t; rv_role := role; rv_input := est; rv_output := out |}.
Definition facts_of (row : RunBudgetRow) (est out : Z) : RunBudgetExhaustionFacts := {|
  ef_total_budget_tokens := rb_total row; ef_used_total_tokens := rb_used_total row;
  ef_reserved_tokens := rb_reserved row; ef_next_prompt_tokens := est;
  ef_completion_limit_tokens := out |}.
Definition projected (row : RunBudgetRow) (required : Z) : Z :=
  rb_used_total row + rb_reserved row + required.

(** The three ways a call of [reserve] ends. *)
Inductive reserve_outcome (self : PostgresRunTokenBudgetStore) (id run_id : UUID) (t : string)
    (role : AgentRole) (out : Z) (b : Budgets) :
    result (RunBudgetExhaustionFacts + TokenBudgetReservation) → Budgets → Prop :=
  | ro_raise e : reserve_outcome self id run_id t role out b (Raise e) b
  | ro_refused est :
      rb_total (ledger_row self run_id b) < projected (ledger_row self run_id b) (est + out) →
      reserve_outcome self id run_id t role out b
        (Ok (inl (facts_of (ledger_row self run_id b) est out))) (exhausted run_id b)
  | ro_granted est b' :
      let row := add_reserved (est + out)
        (_status_for (projected (ledger_row self run_id b) (est + out))
           (rb_total (ledger_row self run_id b))) (ledger_row self run_id b) in
      projected (ledger_row self run_id b) (est + out) ≤ rb_total (ledger_row self run_id b) →
      ck_run_budget row = true →
      ck_reservation (reservation_row run_id t role est out) = true →
      b_reservations b !! id = None →
      b_db b' = b_db b →
      b_runs b' = <[run_id := row]> (b_runs b) →
      b_reservations b' = <[id := reservation_row run_id t role est out]> (b_reservations b) →
      shares_ok run_id t role b' →
      reserve_outcome self id run_id t role out b
        (Ok (inr (reservation_of id run_id role est out))) b'.

Lemma persist_exhausted_run run_id b r b' :
  _persist_run_exhausted_status run_id b = (r, b') →
  match r with Ok _ => b' = exhausted run_id b | Raise _ => b' = b end.
Proof.
  unfold _persist_run_exhausted_status, transaction, exhausted.
  rewrite update_run_budget_run. destruct (b_runs b !! run_id) as [row|]; [|by intros [= <- <-]].
  rewrite write_run_budget_run. by destruct (ck_run_budget _); intros [= <- <-].
Qed.

Lemma insert_reservation_Ok id r b u b' :
  insert_reservation id r b = (Ok u, b') →
  ck_reservation r = true ∧ b_reservations b !! id = None
  ∧ b' = set_b_reservations (<[id := r]> (b_reservations b)) b.
Proof.
  unfold insert_reservation, check_row. intros H. inv_monad.
  unfold modify in H. injection H as _ <-. by to_prop.
Qed.

(** A granted reservation's writes, from the state that has the run's row. *)
Lemma grant_writes self id run_id t role est out credit b u b' :
  let row := ledger_row self run_id b in
  let s := _status_for (projected row (est + out)) (rb_total row) in
  (_reserve_hierarchy run_id t role (est + out) credit ;;
   update_run_budget run_id (add_reserved (est + out) s) ;;
   insert_reservation id (reservation_row run_id t role est out)) (with_ledger_row self run_id b)
  = (Ok u, b') →
  ck_run_budget (add_reserved (est + out) s row) = true
  ∧ ck_reservation (reservation_row run_id t role est out) = true
  ∧ b_reservations b !! id = None ∧ b_db b' = b_db b
  ∧ b_runs b' = <[run_id := add_reserved (est + out) s row]> (b_runs b)
  ∧ b_reservations b' = <[id := reservation_row run_id t role est out]> (b_reservations b)
  ∧ shares_ok run_id t role b'.
Proof.
  intros row s H. apply M_bind_Ok_inv in H as (u1 & b1 & H1 & H).
  pose proof (reserve_hierarchy_shares _ _ _ _ _ _ _ _ H1) as Hshares.
  pose proof (keeps_reserve_hierarchy run_id t role (est + out) credit
                (with_ledger_row self run_id b)) as (Hdb & Hruns & Hres). rewrite H1 in *. cbn in *.
  apply M_bind_Ok_inv in H as (u2 & b2 & H2 & H).
  rewrite update_run_budget_run, Hruns, with_ledger_row_lookup, write_run_budget_run in H2.
  destruct (ck_run_budget _) eqn:Eck; [|discriminate]. injection H2 as _ <-.
  apply insert_reservation_Ok in H as (Hck & Hfresh & ->). cbn in *.
  destruct (with_ledger_row_rest self run_id b) as [Hdb' Hres'].
  rewrite Hruns, with_ledger_row_insert, Hres, Hres', Hdb, Hdb' in *. done.
Qed.

Lemma reserve_spec self id run_id t role est0 out progress credit b r b' :
  reserve self id run_id t role est0 out progress credit b = (r, b') →
  reserve_outcome self id run_id t role out b r b'.
Proof.
  unfold reserve. destruct (negb _) eqn:Evalid;
    [rewrite ensure_run by done|rewrite ensure_raise by done; intros [= <- <-]; constructor].
  unfold mbind at 1, M_bind at 1. unfold transaction_or at 1.
  match goal with |- context [match ?m b with _ => _ end] => destruct (m b) as [[[f|res]|e] b1] eqn:E end;
    [| |intros [= <- <-]; constructor].
  all: apply M_bind_Ok_inv in E as (est & s1 & E1 & E);
    pose proof (calibrated_reads self run_id t role est0 b) as Hs1; rewrite E1 in Hs1; cbn in Hs1;
    subst s1; cbv zeta in E;
    apply M_bind_Ok_inv in E as (u & s1 & Ei & E); apply insert_run_budget_Ok in Ei as ->;
    apply M_bind_Ok_inv in E as (row & s1 & Es & E);
    rewrite select_run_budget_run, with_ledger_row_lookup in Es; injection Es as <- <-;
    match type of E with context [if ?c then _ else _] => destruct c eqn:Elt end; to_prop.
  - apply M_bind_Ok_inv in E as (u1 & s1 & _ & E). injection E as <- _.
    unfold mbind, M_bind. destruct (_persist_run_exhausted_status run_id b) as [[[]|e] b2] eqn:Ep;
      apply persist_exhausted_run in Ep; subst b2; intros [= <- <-]; [by constructor|constructor].
  - apply M_bind_Ok_inv in E as (u1 & s1 & _ & E).
    apply M_bind_Ok_inv in E as (u2 & s2 & _ & E).
    apply M_bind_Ok_inv in E as (u3 & s3 & _ & E). discriminate.
  - apply M_bind_Ok_inv in E as (u1 & s1 & _ & E). discriminate.
  - intros [= <- <-].
    assert (∃ u, (_reserve_hierarchy run_id t role (est + out) credit ;;
       update_run_budget run_id (add_reserved (est + out)
          (_status_for (projected (ledger_row self run_id b) (est + out))
             (rb_total (ledger_row self run_id b)))) ;;
       insert_reservation id (reservation_row run_id t role est out))
       (with_ledger_row self run_id b) = (Ok u, b1) ∧ res = reservation_of id run_id role est out)
      as (u' & Hw & ->).
    { apply M_bind_Ok_inv in E as (u1 & s1 & E2 & E).
      apply M_bind_Ok_inv in E as (u2 & s2 & E3 & E).
      apply M_bind_Ok_inv in E as (u3 & s3 & E4 & E). injection E as <- <-.
      exists u3. split; [|done].
      rewrite (M_bind_run _ _ _ _ _ E2), (M_bind_run _ _ _ _ _ E3). exact E4. }
    apply grant_writes in Hw as (?&?&?&?&?&?&?). by constructor.
Qed.

(** ** Settling *)
Inductive finish_outcome (reservation : TokenBudgetReservation) (usage : option TokenUsage)
    (b : Budgets) : result unit → Budgets → Prop :=
  | fo_unknown :
      b_reservations b !! tr_reservation_id reservation = None →
      finish_outcome reservation usage b (Ok tt) b
  | fo_raise e : finish_outcome reservation usage b (Raise e) b
  | fo_settled row budget p c b' :
      b_reservations b !! tr_reservation_id reservation = Some row →
      b_runs b !! tr_res_run_id reservation = Some budget →
      (p, c) = _actual_usage usage reservation →
      let row' := settle_row (tokens_of row) p c (p + c)
        (_status_for (rb_used_total budget + (p + c)) (rb_total budget)) budget in
      ck_run_budget row' = true →
      b_db b' = b_db b →
      b_runs b' = <[tr_res_run_id reservation := row']> (b_runs b) →
      b_reservations b' = delete (tr_reservation_id reservation) (b_reservations b) →
      finish_outcome reservation usage b (Ok tt) b'.

Lemma finish_spec reservation usage b r b' :
  _finish_reservation reservation usage b = (r, b') → finish_outcome reservation usage b r b'.
Proof.
  unfold _finish_reservation. destruct r as [u|e];
    [|intros ->%transaction_raise_same; constructor].
  intros H. apply transaction_Ok_inv in H. rewrite get_run in H. destruct u.
  destruct (b_reservations b !! _) as [row|] eqn:Erow; [|injection H as <-; by constructor].
  apply M_bind_Ok_inv in H as (budget & s1 & H1 & H). rewrite select_run_budget_run in H1.
  destruct (b_runs b !! _) as [budget'|] eqn:Ebudget; [|discriminate]. injection H1 as <- <-.
  destruct (_actual_usage usage reservation) as [p c] eqn:Eusage.
  apply M_bind_Ok_inv in H as (u1 & s1 & H1 & H).
  rewrite update_run_budget_run, Ebudget, write_run_budget_run in H1.
  destruct (ck_run_budget _) eqn:Eck; [|discriminate]. injection H1 as _ <-.
  apply M_bind_Ok_inv in H as (u2 & s2 & H2 & H).
  pose proof (keeps_settle_hierarchy (tr_res_run_id reservation) (rv_task_id row) (rv_role row)
    (rv_input row + rv_output row) (p + c) p
    (set_b_runs (<[tr_res_run_id reservation :=
       settle_row (rv_input row + rv_output row) p c (p + c)
         (_status_for (rb_used_total budget' + (p + c)) (rb_total budget')) budget']> (b_runs b)) b))
    as (Hdb2 & Hruns2 & Hres2). rewrite H2 in Hdb2, Hruns2, Hres2. cbn in *.
  apply M_bind_Ok_inv in H as (u3 & s3 & H3 & H).
  assert (same_ledger s2 s3) as (Hdb3 & Hruns3 & Hres3).
  { destruct usage; [|by injection H3 as _ <-].
    pose proof (keeps_upsert_role_usage (tr_res_run_id reservation) (tr_res_role reservation)
                  p c (p + c) s2) as Hk. by rewrite H3 in Hk. }
  injection H as <-. econstructor; [exact Erow|exact Ebudget|by rewrite Eusage|exact Eck|cbn..].
  - congruence.
  - unfold tokens_of. congruence.
  - congruence.
Qed.

(** A settled, cancelled or unknown reservation is not charged again. *)
Lemma finish_unknown reservation usage b :
  b_reservations b !! tr_reservation_id reservation = None →
  _finish_reservation reservation usage b = (Ok tt, b).
Proof. intros H. unfold _finish_reservation, transaction. by rewrite get_run, H. Qed.

(** ** The balance *)
Record ledger (b : Budgets) : Prop := {
  lg_sum run_id row : b_runs b !! run_id = Some row →
    rb_reserved row = open_tokens run_id (b_reservations b);
  lg_open id r : b_reservations b !! id = Some r →
    is_Some (b_runs b !! rv_run_id r) ∧ ck_reservation r = true;
  lg_rows run_id row : b_runs b !! run_id = Some row → ck_run_budget row = true;
}.

Lemma ledger_proper b b' : same_ledger b b' → ledger b → ledger b'.
Proof. intros (_&H1&H2) [Ha Hb Hc]. split; rewrite ?H1, ?H2; auto. Qed.

Lemma ck_reservation_tokens r : ck_reservation r = true → 0 < tokens_of r.
Proof. unfold ck_reservation, tokens_of. intros H. to_prop. lia. Qed.

Lemma no_open_tokens run_id (m : gmap UUID ReservationRow) :
  (∀ id r, m !! id = Some r → rv_run_id r ≠ run_id) → open_tokens run_id m = 0.
Proof.
  induction m as [|id r m Hid IH] using map_ind; intros H; [apply open_tokens_empty|].
  rewrite open_tokens_insert by done.
  rewrite bool_decide_eq_false_2 by (eapply H; apply lookup_insert_eq).
  rewrite IH; [done|]. intros id' r' Hr. apply (H id').
  rewrite lookup_insert_ne; [done|]. by intros ->; rewrite Hid in Hr.
Qed.
Lemma open_tokens_nonneg run_id (m : gmap UUID ReservationRow) :
  (∀ id r, m !! id = Some r → ck_reservation r = true) → 0 ≤ open_tokens run_id m.
Proof.
  induction m as [|id r m Hid IH] using map_ind; intros H; [by rewrite open_tokens_empty|].
  rewrite open_tokens_insert by done.
  assert (0 < tokens_of r) by (eapply ck_reservation_tokens, H, lookup_insert_eq).
  assert (0 ≤ open_tokens run_id m).
  { apply IH. intros id' r' Hr. apply (H id'). rewrite lookup_insert_ne; [done|].
    by intros ->; rewrite Hid in Hr. }
  destruct (bool_decide _); lia.
Qed.

Lemma ledger_row_sum self run_id b :
  ledger b → rb_reserved (ledger_row self run_id b) = open_tokens run_id (b_reservations b).
Proof.
  intros L. unfold ledger_row. destruct (b_runs b !! run_id) as [row|] eqn:E; cbn.
  - by apply (lg_sum b L).
  - symmetry. apply no_open_tokens. intros id r Hr <-.
    destruct (lg_open b L id r Hr) as [[? ?] _]. congruence.
Qed.

(** Rewriting the row of one run without touching the reservations. *)
Lemma ledger_update_row b b' run_id row row' :
  ledger b → b_runs b !! run_id = Some row → rb_reserved row' = rb_reserved row →
  ck_run_budget row' = true →
  b_runs b' = <[run_id := row']> (b_runs b) → b_reservations b' = b_reservations b → ledger b'.
Proof.
  intros L Hrow Hsame Hck Hruns Hres. split; rewrite ?Hruns, ?Hres.
  - intros run row1. destruct (decide (run = run_id)) as [->|Hne].
    + rewrite lookup_insert_eq. intros [= <-]. rewrite Hsame. by apply (lg_sum b L).
    + rewrite lookup_insert_ne by done. apply (lg_sum b L).
  - intros id r Hr. destruct (lg_open b L id r Hr) as [Hrun Hckr]. split; [|done].
    rewrite lookup_insert_is_Some'. auto.
  - intros run row1. destruct (decide (run = run_id)) as [->|Hne].
    + rewrite lookup_insert_eq. by intros [= <-].
    + rewrite lookup_insert_ne by done. apply (lg_rows b L).
Qed.
(** A new run starts with an empty ledger. *)
Lemma ledger_new_row b b' run_id row :
  ledger b → b_runs b !! run_id = None → rb_reserved row = 0 → ck_run_budget row = true →
  b_runs b' = <[run_id := row]> (b_runs b) → b_reservations b' = b_reservations b → ledger b'.
Proof.
  intros L Hnone Hzero Hck Hruns Hres. split; rewrite ?Hruns, ?Hres.
  - intros run row1. destruct (decide (run = run_id)) as [->|Hne].
    + rewrite lookup_insert_eq. intros [= <-]. rewrite Hzero. symmetry.
      apply no_open_tokens. intros id r Hr <-.
      destruct (lg_open b L id r Hr) as [[? ?] _]. congruence.
    + rewrite lookup_insert_ne by done. apply (lg_sum b L).
  - intros id r Hr. destruct (lg_open b L id r Hr) as [Hrun Hckr]. split; [|done].
    rewrite lookup_insert_is_Some'. auto.
  - intros run row1. destruct (decide (run = run_id)) as [->|Hne].
    + rewrite lookup_insert_eq. by intros [= <-].
    + rewrite lookup_insert_ne by done. apply (lg_rows b L).
Qed.

Lemma ledger_exhausted run_id b : ledger b → ledger (exhausted run_id b).
Proof.
  intros L. unfold exhausted. destruct (b_runs b !! run_id) as [row|] eqn:E; [|done].
  pose proof (lg_rows b L run_id row E) as Hck.
  by apply (ledger_update_row b _ run_id row (with_status BS_EXHAUSTED row)).
Qed.

Lemma ledger_reserve self id run_id t role out b r b' :
  ledger b → reserve_outcome self id run_id t role out b r b' → ledger b'.
Proof.
  intros L H. destruct H as [e|est Hlt|est b' row Hle Hck Hckr Hfresh Hdb Hruns Hres _];
    [done|by apply ledger_exhausted|].
  split; rewrite ?Hruns, ?Hres.
  - intros run row1 Hrow. rewrite open_tokens_insert by done. cbn.
    destruct (decide (run = run_id)) as [->|Hne].
    + rewrite lookup_insert_eq in Hrow. injection Hrow as <-.
      rewrite bool_decide_eq_true_2 by done. unfold row, tokens_of. cbn.
      rewrite (ledger_row_sum self run_id b L). lia.
    + rewrite lookup_insert_ne in Hrow by done.
      rewrite bool_decide_eq_false_2 by (intros ->; done). by rewrite (lg_sum b L run row1 Hrow).
  - intros id' r. destruct (decide (id' = id)) as [->|Hne].
    + rewrite lookup_insert_eq. intros [= <-]. split; [|done]. cbn. rewrite lookup_insert_eq. by eexists.
    + rewrite lookup_insert_ne by done. intros Hr.
      destruct (lg_open b L id' r Hr) as [Hrun ?]. split; [|done].
      rewrite lookup_insert_is_Some'. auto.
  - intros run row1. destruct (decide (run = run_id)) as [->|Hne].
    + rewrite lookup_insert_eq. by intros [= <-].
    + rewrite lookup_insert_ne by done. apply (lg_rows b L).
Qed.

Lemma ledger_finish reservation usage b r b' :
  ledger b →
  (∀ row, b_reservations b !! tr_reservation_id reservation = Some row →
     rv_run_id row = tr_res_run_id reservation) →
  finish_outcome reservation usage b r b' → ledger b'.
Proof.
  intros L Hissued H.
  destruct H as [Hnone|e|row budget p c b' Hrow Hbudget Husage row' Hck Hdb Hruns Hres]; [done..|].
  specialize (Hissued row Hrow).
  pose proof (open_tokens_delete (tr_res_run_id reservation) _ _ _ Hrow) as Hsum.
  rewrite bool_decide_eq_true_2 in Hsum by done.
  split; rewrite ?Hruns, ?Hres.
  - intros run row1 H1. destruct (decide (run = tr_res_run_id reservation)) as [->|Hne].
    + rewrite lookup_insert_eq in H1. injection H1 as <-. unfold row'. cbn.
      rewrite (lg_sum b L _ _ Hbudget), Hsum.
      assert (0 ≤ open_tokens (tr_res_run_id reservation)
                (delete (tr_reservation_id reservation) (b_reservations b))); [|lia].
      apply open_tokens_nonneg. intros id r [_ Hr]%lookup_delete_Some. by apply (lg_open b L id).
    + rewrite lookup_insert_ne in H1 by done. rewrite (lg_sum b L _ _ H1).
      rewrite (open_tokens_delete run _ _ _ Hrow).
      rewrite bool_decide_eq_false_2 by congruence. done.
  - intros id r [_ Hr]%lookup_delete_Some. destruct (lg_open b L id r Hr) as [Hrun ?].
    split; [|done]. rewrite lookup_insert_is_Some'. auto.
  - intros run row1. destruct (decide (run = tr_res_run_id reservation)) as [->|Hne].
    + rewrite lookup_insert_eq. by intros [= <-].
    + rewrite lookup_insert_ne by done. apply (lg_rows b L).
Qed.

(** ** Sequences of store operations

    The reservations handed out so far are part of the state: callers settle
    or cancel any of them, in any order and as often as they like, and a new
    reservation has an id that was not used before ([uuid4]).
    [usage_ok] and [recorded_ok] say which usages the callers report. *)
Definition usage_policy : Type :=
  (TokenBudgetReservation → TokenUsage → Prop) * (Budgets → UUID → TokenUsage → Prop).
Inductive budget_step (self : PostgresRunTokenBudgetStore) (policy : usage_policy) :
    Budgets * list TokenBudgetReservation → Budgets * list TokenBudgetReservation → Prop :=
  | bs_initialize b issued run_id total :
      budget_step self policy (b, issued) ((initialize self run_id total b).2, issued)
  | bs_initialize_hierarchy b issued run_id dag out :
      budget_step self policy (b, issued) ((initialize_hierarchy self run_id dag out b).2, issued)
  | bs_granted b issued id run_id t role est out progress credit reservation b' :
      id ∉ (tr_reservation_id <$> issued) →
      reserve self id run_id t role est out progress credit b = (Ok (inr reservation), b') →
      budget_step self policy (b, issued) (b', reservation :: issued)
  | bs_refused b issued id run_id t role est out progress credit b' facts :
      reserve self id run_id t role est out progress credit b = (Ok (inl facts), b') →
      budget_step self policy (b, issued) (b', issued)
  | bs_cancel b issued reservation :
      reservation ∈ issued →
      budget_step self policy (b, issued) ((cancel reservation b).2, issued)
  | bs_settle b issued reservation usage :
      reservation ∈ issued → policy.1 reservation usage →
      budget_step self policy (b, issued) ((settle reservation usage b).2, issued)
  | bs_record_usage b issued run_id role usage :
      policy.2 b run_id usage →
      budget_step self policy (b, issued) ((record_usage run_id role usage b).2, issued)
  | bs_model_turn b issued run_id t role i e usage a w p m :
      budget_step self policy (b, issued)
        ((record_model_turn_observation self run_id t role i e usage a w p m b).2, issued)
  | bs_tool_outcome b issued i t p m c :
      budget_step self policy (b, issued)
        ((record_tool_outcome_observation self i t p m c b).2, issued)
  | bs_reclaim b issued run_id t :
      budget_step self policy (b, issued) ((reclaim_unused_task_budget run_id t b).2, issued).

(** What a handed-out reservation says is what its row says. *)
Definition honoured (b : Budgets) (reservation : TokenBudgetReservation) : Prop :=
  ∀ row, b_reservations b !! tr_reservation_id reservation = Some row →
    rv_run_id row = tr_res_run_id reservation
    ∧ rv_input row = tr_reserved_input_tokens reservation
    ∧ rv_output row = tr_reserved_output_tokens reservation.
Definition within_total (b : Budgets) : Prop :=
  ∀ run_id row, b_runs b !! run_id = Some row → rb_used_total row + rb_reserved row ≤ rb_total row.

(** The new runs a step adds are empty, and rewritten rows respect [Q]. *)
Inductive row_write (b : Budgets) (Q : RunBudgetRow → RunBudgetRow → Prop) (b' : Budgets) : Prop :=
  | rw_same : same_ledger b b' → row_write b Q b'
  | rw_new run_id total :
      b_runs b !! run_id = None → ck_run_budget (fresh_run_budget total) = true →
      b_runs b' = <[run_id := fresh_run_budget total]> (b_runs b) →
      b_reservations b' = b_reservations b → row_write b Q b'
  | rw_update run_id row row' :
      b_runs b !! run_id = Some row → ck_run_budget row' = true → Q row row' →
      b_runs b' = <[run_id := row']> (b_runs b) →
      b_reservations b' = b_reservations b → row_write b Q b'.

Lemma row_write_ledger b Q b' :
  (∀ row row', Q row row' → rb_reserved row' = rb_reserved row) →
  row_write b Q b' → ledger b → ledger b'.
Proof.
  intros HQ [Hs|run total Hn Hck Hr Hs|run row row' Hrow Hck Hq Hr Hs] L.
  - by eapply ledger_proper.
  - by apply (ledger_new_row b b' run (fresh_run_budget total)).
  - apply (ledger_update_row b b' run row row'); auto.
Qed.
Lemma row_write_within b Q b' :
  (∀ row row', Q row row' →
     rb_used_total row + rb_reserved row ≤ rb_total row →
     rb_used_total row' + rb_reserved row' ≤ rb_total row') →
  row_write b Q b' → within_total b → within_total b'.
Proof.
  intros HQ [(_&Hs&_)|run total Hn Hck Hr _|run row row' Hrow Hck Hq Hr _] W run1 row1;
    rewrite ?Hs, ?Hr; [apply W| |];
    (destruct (decide (run1 = run)) as [->|]; [|rewrite lookup_insert_ne by done; apply W]);
    rewrite lookup_insert_eq; intros [= <-]; [|by eapply HQ, W].
  unfold ck_run_budget in Hck. to_prop. cbn in *. lia.
Qed.
Lemma row_write_honoured b Q b' reservation :
  row_write b Q b' → honoured b reservation → honoured b' reservation.
Proof. intros [(_&_&Hs)|? ? _ _ _ Hs|? ? ? _ _ _ _ Hs]; unfold honoured; by rewrite Hs. Qed.

Lemma insert_run_budget_write Q run_id total b b' r :
  insert_run_budget run_id total b = (r, b') → row_write b Q b'.
Proof.
  unfold insert_run_budget, check_row. intros H.
  destruct (ck_run_budget (fresh_run_budget total)) eqn:Eck.
  2: { rewrite ensure_raise in H by done. injection H as <- <-. by apply rw_same. }
  rewrite ensure_run, get_run in H by done.
  destruct (b_runs b !! run_id) as [row|] eqn:E; [injection H as <- <-; by apply rw_same|].
  destruct (bool_decide _) eqn:Ed.
  2: { rewrite ensure_raise in H by done. injection H as <- <-. by apply rw_same. }
  rewrite ensure_run, write_run_budget_run, Eck in H by done. injection H as <- <-.
  by eapply rw_new.
Qed.
Lemma initialize_write Q self run_id total b :
  row_write b Q (initialize self run_id total b).2.
Proof.
  unfold initialize, transaction. destruct (insert_run_budget _ _ b) as [[u|e] b'] eqn:E; cbn.
  - by eapply insert_run_budget_write.
  - by apply rw_same.
Qed.
Lemma row_write_same b Q b1 b' : row_write b Q b1 → same_ledger b1 b' → row_write b Q b'.
Proof.
  intros [Hs|run total Hn Hck Hr Hs|run row row' Hrow Hck Hq Hr Hs] H1.
  - apply rw_same. by etrans.
  - destruct H1 as (_&H1&H2). eapply rw_new; [done..|congruence|congruence].
  - destruct H1 as (_&H1&H2). eapply rw_update; [done..|congruence|congruence].
Qed.
Lemma initialize_hierarchy_write Q self run_id dag out b :
  row_write b Q (initialize_hierarchy self run_id dag out b).2.
Proof.
  unfold initialize_hierarchy. destruct (allocated_nodes dag) as [|n nodes]; [by apply rw_same|].
  unfold mbind at 1, M_bind at 1. cbn. destruct (validate_hierarchy_plan self dag out) as [u|e];
    [|by apply rw_same].
  unfold transaction. match goal with |- row_write b Q (match ?m with _ => _ end).2 =>
    destruct m as [[u'|e] b'] eqn:E end; [cbn|by apply rw_same].
  rewrite get_run in E. apply M_bind_Ok_inv in E as (u1 & b1 & E1 & E).
  assert (row_write b Q b1) as H1.
  { destruct (b_runs b !! run_id); [injection E1 as _ <-; by apply rw_same|].
    by eapply insert_run_budget_write. }
  eapply row_write_same; [exact H1|].
  match type of E with ?m b1 = _ => assert (keeps same_ledger m) as Hk end.
  { keeping_ledger. }
  specialize (Hk b1). by rewrite E in Hk.
Qed.

(** [record_usage] charges a run without releasing anything. *)
Definition recorded (usage : TokenUsage) (row row' : RunBudgetRow) : Prop :=
  rb_total row' = rb_total row ∧ rb_reserved row' = rb_reserved row
  ∧ rb_used_total row' = rb_used_total row + total_tokens usage.
Lemma record_usage_write run_id role usage b :
  row_write b (λ row row', b_runs b !! run_id = Some row ∧ recorded usage row row')
    (record_usage run_id role usage b).2.
Proof.
  unfold record_usage, transaction. match goal with |- row_write b _ (match ?m with _ => _ end).2 =>
    destruct m as [[u'|e] b'] eqn:E end; [cbn|by apply rw_same].
  rewrite get_run in E. apply M_bind_Ok_inv in E as (u1 & b1 & E1 & E).
  assert (keeps same_ledger (_record_stage_usage run_id role (total_tokens usage) ;;
    upsert_role_usage run_id role (prompt_tokens usage) (completion_tokens usage)
      (total_tokens usage))) as Hk.
  { unfold _record_stage_usage. keeping_ledger. }
  specialize (Hk b1). rewrite E in Hk. eapply row_write_same; [|exact Hk].
  destruct (b_runs b !! run_id) as [row|] eqn:Erow; [|injection E1 as _ <-; by apply rw_same].
  unfold check_row in E1. inv_monad. rewrite write_run_budget_run in E1.
  destruct (ck_run_budget _) eqn:Eck; [|discriminate]. injection E1 as _ <-.
  by eapply rw_update.
Qed.

Lemma keeps_write {A} Q (m : BM A) b : keeps same_ledger m → row_write b Q (m b).2.
Proof. intros Hk. apply rw_same, Hk. Qed.

(** A step writes at most one row, or grants or finishes a reservation. *)
Lemma budget_step_cases self policy b issued b' issued' :
  budget_step self policy (b, issued) (b', issued') →
  (∃ run_id usage, policy.2 b run_id usage ∧ issued' = issued ∧
     row_write b (λ row row', b_runs b !! run_id = Some row ∧ recorded usage row row') b')
  ∨ (issued' = issued ∧ row_write b (λ _ _, False) b')
  ∨ (∃ id run_id t role out r, reserve_outcome self id run_id t role out b r b'
     ∧ match r with
       | Ok (inr reservation) => issued' = reservation :: issued
                                 ∧ tr_reservation_id reservation ∉ (tr_reservation_id <$> issued)
       | _ => issued' = issued
       end)
  ∨ (∃ reservation usage r, reservation ∈ issued ∧ issued' = issued
     ∧ finish_outcome reservation usage b r b'
     ∧ match usage with Some u => policy.1 reservation u | None => True end).
Proof.
  intros H. inversion H; subst.
  - right; left. split; [done|]. apply initialize_write.
  - right; left. split; [done|]. apply initialize_hierarchy_write.
  - right; right; left. match goal with H : reserve _ _ _ _ _ _ _ _ _ _ = _ |- _ =>
      pose proof (reserve_spec _ _ _ _ _ _ _ _ _ _ _ _ H) as Ho end.
    do 6 eexists. split; [exact Ho|]. inversion Ho; subst; auto.
  - right; right; left. match goal with H : reserve _ _ _ _ _ _ _ _ _ _ = _ |- _ =>
      pose proof (reserve_spec _ _ _ _ _ _ _ _ _ _ _ _ H) as Ho end.
    do 6 eexists. split; [exact Ho|]. done.
  - right; right; right. eexists reservation, None, _. repeat split; [done|].
    apply finish_spec, surjective_pairing.
  - right; right; right. eexists reservation, (Some usage), _. repeat split; [done| |done].
    apply finish_spec, surjective_pairing.
  - left. do 2 eexists. repeat split; [eassumption|]. apply record_usage_write.
  - right; left. split; [done|]. apply keeps_write, keeps_model_turn.
  - right; left. split; [done|]. apply keeps_write, keeps_tool_outcome.
  - right; left. split; [done|]. apply keeps_write, keeps_reclaim.
Qed.

(** *** The two invariants of a step *)
Definition balanced (st : Budgets * list TokenBudgetReservation) : Prop :=
  ledger st.1 ∧ ∀ reservation, reservation ∈ st.2 → honoured st.1 reservation.

Lemma reserve_honoured self id run_id t role out b r b' reservation :
  reserve_outcome self id run_id t role out b r b' →
  tr_reservation_id reservation ≠ id → honoured b reservation → honoured b' reservation.
Proof.
  intros H Hne Hh. destruct H as [e|est _|est b' row _ _ _ _ _ _ Hres _]; [done| |].
  - unfold exhausted. by destruct (b_runs b !! run_id).
  - unfold honoured. rewrite Hres, lookup_insert_ne by done. exact Hh.
Qed.
Lemma reserve_honours self id run_id t role out b reservation b' :
  reserve_outcome self id run_id t role out b (Ok (inr reservation)) b' →
  honoured b' reservation.
Proof.
  intros H. inversion H as [| |est b1 row Hle _ _ _ _ _ Hres _]; subst. intros row'. cbn.
  rewrite Hres, lookup_insert_eq. by intros [= <-].
Qed.
Lemma finish_honoured reservation usage b r b' other :
  finish_outcome reservation usage b r b' → honoured b other → honoured b' other.
Proof.
  intros H Hh. destruct H as [|e|row budget p c b' _ _ _ row' _ _ _ Hres]; [done..|].
  unfold honoured. rewrite Hres. intros row1 [_ Hr]%lookup_delete_Some. by apply Hh.
Qed.

(** Sequence of steps: what an invariant of the step is. *)
Lemma step_invariant {S} (R : S → S → Prop) (I : S → Prop) s s' :
  (∀ a b, R a b → I a → I b) → rtc R s s' → I s → I s'.
Proof. intros HR H. induction H; eauto. Qed.

Lemma balanced_step self policy st st' :
  budget_step self policy st st' → balanced st → balanced st'.
Proof.
  destruct st as [b issued], st' as [b' issued']. intros H [L Hh]. cbn in *.
  apply budget_step_cases in H as [H|[H|[H|H]]].
  - destruct H as (run_id & usage & _ & -> & Hw). split; cbn.
    + eapply row_write_ledger; [|exact Hw|exact L]. by intros row row' (_&_&?&_).
    + intros res Hres. by eapply row_write_honoured, Hh.
  - destruct H as [-> Hw]. split; cbn.
    + by eapply (row_write_ledger b (λ _ _, False)).
    + intros res Hres. by eapply row_write_honoured, Hh.
  - destruct H as (id & run_id & t & role & out & r & Ho & Hr).
    split; cbn; [by eapply ledger_reserve|]. intros res Hres.
    destruct r as [[f|new]|e]; [subst issued'| |subst issued'].
    + inversion Ho; subst. unfold exhausted. destruct (b_runs b !! run_id); by apply Hh.
    + destruct Hr as [-> Hnew]. apply elem_of_cons in Hres as [->|Hres];
        [by eapply reserve_honours|].
      eapply reserve_honoured; [exact Ho| |by apply Hh].
      inversion Ho; subst. cbn in Hnew. intros <-. apply Hnew, list_elem_of_fmap. by exists res.
    + inversion Ho; subst. by apply Hh.
  - destruct H as (res0 & usage & r & Hin & -> & Ho & _). split; cbn.
    + eapply ledger_finish; [exact L| |exact Ho]. intros row Hrow. by apply (Hh res0).
    + intros res Hres. by eapply finish_honoured, Hh.
Qed.

(** Callers that never report more than they reserved, and record planning
    usage only where it still fits. *)
Definition reported_within (reservation : TokenBudgetReservation) (usage : TokenUsage) : Prop :=
  0 ≤ prompt_tokens usage ≤ tr_reserved_input_tokens reservation
  ∧ 0 ≤ completion_tokens usage ≤ tr_reserved_output_tokens reservation.
Definition recorded_within (b : Budgets) (run_id : UUID) (usage : TokenUsage) : Prop :=
  ∀ row, b_runs b !! run_id = Some row →
    rb_used_total row + rb_reserved row + total_tokens usage ≤ rb_total row.
Definition thrifty : usage_policy := (reported_within, recorded_within).

Lemma within_exhausted run_id b : within_total b → within_total (exhausted run_id b).
Proof.
  intros W. unfold exhausted. destruct (b_runs b !! run_id) as [row|] eqn:E; [|done].
  intros run row'. cbn. destruct (decide (run = run_id)) as [->|].
  - rewrite lookup_insert_eq. intros [= <-]. exact (W run_id row E).
  - rewrite lookup_insert_ne by done. apply W.
Qed.
Lemma within_reserve self id run_id t role out b r b' :
  within_total b → reserve_outcome self id run_id t role out b r b' → within_total b'.
Proof.
  intros W H. destruct H as [e|est _|est b' row Hle _ _ _ _ Hruns _ _];
    [done|by apply within_exhausted|].
  intros run row1. rewrite Hruns. destruct (decide (run = run_id)) as [->|].
  - rewrite lookup_insert_eq. intros [= <-]. unfold projected in Hle. cbn. lia.
  - rewrite lookup_insert_ne by done. apply W.
Qed.
Lemma actual_usage_within reservation usage p c :
  (p, c) = _actual_usage usage reservation →
  match usage with Some u => reported_within reservation u | None => True end →
  0 ≤ tr_reserved_input_tokens reservation → 0 ≤ tr_reserved_output_tokens reservation →
  p + c ≤ tr_reserved_tokens reservation.
Proof.
  unfold tr_reserved_tokens, reported_within. destruct usage as [u|]; cbn.
  - destruct (_ && _ && _); intros [= -> ->] ? ? ?; lia.
  - intros [= -> ->] _ ? ?; lia.
Qed.
Lemma within_finish reservation usage b r b' :
  ledger b → honoured b reservation → within_total b →
  match usage with Some u => reported_within reservation u | None => True end →
  finish_outcome reservation usage b r b' → within_total b'.
Proof.
  intros L Hh W Hok H.
  destruct H as [|e|row budget p c b' Hrow Hbudget Husage row' Hck _ Hruns Hres]; [done..|].
  destruct (Hh row Hrow) as (Hrun & Hin & Hout).
  destruct (lg_open b L _ _ Hrow) as [_ Hckr]. unfold ck_reservation in Hckr. to_prop.
  apply actual_usage_within in Husage; [|done|lia|lia].
  assert (tokens_of row ≤ rb_reserved budget) as Hle.
  { rewrite (lg_sum b L _ _ Hbudget), (open_tokens_delete _ _ _ _ Hrow),
      bool_decide_eq_true_2 by done.
    assert (0 ≤ open_tokens (tr_res_run_id reservation)
              (delete (tr_reservation_id reservation) (b_reservations b))); [|lia].
    apply open_tokens_nonneg. intros id x [_ Hx]%lookup_delete_Some. by apply (lg_open b L id). }
  unfold tr_reserved_tokens, tokens_of in *.
  intros run row1. rewrite Hruns. destruct (decide (run = tr_res_run_id reservation)) as [->|].
  - rewrite lookup_insert_eq. intros [= <-]. unfold row'. cbn.
    pose proof (W _ _ Hbudget). lia.
  - rewrite lookup_insert_ne by done. apply W.
Qed.

Lemma within_step self st st' :
  budget_step self thrifty st st' → balanced st → within_total st.1 → within_total st'.1.
Proof.
  destruct st as [b issued], st' as [b' issued']. intros H [L Hh] W. cbn in *.
  apply budget_step_cases in H as [H|[H|[H|H]]].
  - destruct H as (run_id & usage & Hok & _ & Hw).
    destruct Hw as [(_&Hs&_)|run total Hn Hck Hr Hs|run row row' Hrow Hck [Hrow' Hrec] Hr Hs].
    + intros run row. rewrite Hs. apply W.
    + apply (row_write_within b (λ _ _, False)); [done|by apply (rw_new b _ b' run total)|exact W].
    + intros run1 row1. rewrite Hr. destruct (decide (run1 = run)) as [->|].
      * rewrite lookup_insert_eq. intros [= <-]. destruct Hrec as (Ht & Hres & Hused).
        specialize (Hok row Hrow'). lia.
      * rewrite lookup_insert_ne by done. apply W.
  - destruct H as [_ Hw]. by eapply (row_write_within b (λ _ _, False)).
  - destruct H as (id & run_id & t & role & out & r & Ho & _). by eapply within_reserve.
  - destruct H as (res0 & usage & r & Hin & _ & Ho & Hok). eapply within_finish; eauto.
Qed.

(** ** Admission: when [reserve] goes through *)
Definition max_int4 : Z := 2147483647.
Definition fits32 (n : Z) : Prop := 0 ≤ n ≤ max_int4.
Lemma int4_fits n : fits32 n → int4 n = true.
Proof. unfold fits32, max_int4, int4. intros. apply andb_true_iff. split; apply Z.leb_le; lia. Qed.
Lemma int4s_fits l : Forall fits32 l → int4s l = true.
Proof. unfold int4s. induction 1; cbn; [done|]. by rewrite int4_fits. Qed.

(** The soft shares of the call's stage and work package hold another
    [limit] tokens. *)
Record room (run_id : UUID) (t : string) (role : AgentRole) (limit : Z) (b : Budgets) : Prop := {
  rm_stage row : b_stages b !! (run_id, _stage_for role) = Some row →
    fits32 (sg_total row) ∧ fits32 (sg_used row) ∧ 0 ≤ sg_reserved row
    ∧ sg_reserved row + limit ≤ max_int4;
  rm_package p : b_packages b !! (run_id, t) = Some p →
    ck_package p = true ∧ Forall fits32 (package_figures p)
    ∧ ps_reserved (share_of role p) + limit ≤ max_int4;
}.

Lemma update_stage_Ok run_id stage f b :
  (∀ row, b_stages b !! (run_id, stage) = Some row → ck_stage (f row) = true) →
  ∃ b', update_stage run_id stage f b = (Ok tt, b') ∧ b_packages b' = b_packages b.
Proof.
  intros H. unfold update_stage. rewrite get_run.
  destruct (b_stages b !! (run_id, stage)) as [row|]; [|by eexists].
  unfold check_row. rewrite ensure_run by by apply H. by eexists.
Qed.
Lemma update_package_Ok run_id t f b :
  (∀ p, b_packages b !! (run_id, t) = Some p → ck_package (f p) = true) →
  ∃ b', update_package run_id t f b = (Ok tt, b') ∧ b_stages b' = b_stages b.
Proof.
  intros H. unfold update_package. rewrite get_run.
  destruct (b_packages b !! (run_id, t)) as [p|]; [|by eexists].
  unfold check_row. rewrite ensure_run by by apply H. by eexists.
Qed.

Lemma package_figures_cons p :
  Forall fits32 (package_figures p) ↔
  fits32 (pk_total p) ∧ Forall fits32 (share_figures (pk_developer p))
  ∧ Forall fits32 (share_figures (pk_repair p))
  ∧ Forall fits32 [pk_startup_reserve p; pk_complexity_upgrade_count p; pk_borrow_count p]
  ∧ Forall fits32 (decision_figures (pk_last p)).
Proof. unfold package_figures. by rewrite Forall_cons, !Forall_app. Qed.

(** The row that [_record_soft_share_reservation] writes. *)
Lemma soft_share_row_ok p role required decision used :
  ck_package p = true → Forall fits32 (package_figures p) → 0 ≤ required →
  ps_reserved (share_of role p) + required ≤ max_int4 →
  Forall fits32 (decision_figures decision) → opt_len 64 (pd_budget_decision decision) = true →
  opt_len 512 (pd_budget_reason decision) = true →
  opt_len 64 (pd_recovery_action decision) = true →
  ck_package (with_decision decision used (with_share role
    (with_reserved (ps_reserved (share_of role p) + required) (share_of role p)) p)) = true.
Proof.
  intros Hck Hfig Hpos Hmax Hd H1 H2 H3. unfold ck_package in *. cbn [pk_last with_decision].
  rewrite H1, H2, H3. to_prop. apply package_figures_cons in Hfig as (Ht & Hdev & Hrep & Hrest & _).
  assert (int4s (package_figures (with_decision decision used (with_share role
    (with_reserved (ps_reserved (share_of role p) + required) (share_of role p)) p))) = true) as ->.
  { apply int4s_fits, package_figures_cons. repeat split_and?; [done| | |done|done].
    all: destruct role; cbn in *; try done.
    all: unfold share_figures in *; cbn; decompose_Forall; try done; unfold fits32 in *; lia. }
  destruct role; cbn; repeat (apply andb_true_iff; split); try done;
    apply Z.leb_le; done.
Qed.
Lemma share_available_fits p role :
  Forall fits32 (package_figures p) → fits32 (share_available (share_of role p)).
Proof.
  intros Hfig. apply package_figures_cons in Hfig as (_ & Hdev & Hrep & _).
  unfold share_available, share_figures in *. destruct role; cbn in *;
    decompose_Forall; unfold fits32, max_int4 in *; lia.
Qed.

Lemma reserve_hierarchy_Ok run_id t role required credit limit b :
  0 ≤ required ≤ limit → fits32 required → room run_id t role limit b →
  ∃ b', _reserve_hierarchy run_id t role required credit b = (Ok tt, b').
Proof.
  intros Hle Hfit [Hst Hpk].
  assert (∃ b1, (if has_package_share role
      then _record_soft_share_reservation run_id t role required credit else mret tt) b
      = (Ok tt, b1) ∧ b_stages b1 = b_stages b) as (b1 & H1 & Hs).
  { destruct (has_package_share role); [|by eexists].
    unfold _record_soft_share_reservation. rewrite get_run.
    destruct (b_packages b !! (run_id, t)) as [p|] eqn:Ep; [|by eexists].
    apply update_package_Ok. rewrite Ep. intros p' [= <-].
    destruct (Hpk p eq_refl) as (Hck & Hfig & Hmax).
    apply soft_share_row_ok; [done|done|lia|lia| |by destruct (_ <? _)|by destruct (_ <? _)|done].
    pose proof (share_available_fits p role Hfig).
    apply package_figures_cons in Hfig as (_ & _ & _ & _ & Hd).
    unfold decision_figures in *. cbn. decompose_Forall; try done. }
  unfold _reserve_hierarchy. rewrite (M_bind_run _ _ _ _ _ H1).
  destruct (update_stage_Ok run_id (_stage_for role) (stage_reserve required) b1) as (b' & H2 & _);
    [|by exists b'].
  intros row Hrow. rewrite Hs in Hrow. destruct (Hst row Hrow) as (Ht & Hu & Hr & Hmax).
  unfold ck_stage. cbn. rewrite !int4_fits; [|unfold fits32 in *; lia..]. cbn.
  unfold fits32 in *. repeat (apply andb_true_iff; split); apply Z.leb_le; lia.
Qed.

(** The calibrated estimate never goes below the caller's. *)
Lemma calibrated_ge self run_id t role est0 b est :
  (_calibrated_input_estimate self run_id t role est0 b).1 = Ok est → est0 ≤ est.
Proof.
  unfold _calibrated_input_estimate. destruct (negb _); [intros [= ->]; lia|].
  rewrite get_run. destruct (latest_observation _ _ _ _) as [o|].
  - cbn. unfold _next_input_prediction.
    intros (x & _ & H)%bind_Ok_inv. apply bind_Ok_inv in H as (y & _ & H).
    apply bind_Ok_inv in H as (z & _ & H). injection H as <-. lia.
  - unfold mbind, M_bind. cbn. destruct (scaled _ _); [intros [= <-]; lia|done].
Qed.

Lemma insert_run_budget_run self run_id b :
  ck_run_budget (fresh_run_budget (_default_total_budget_tokens self)) = true →
  is_Some (db_runs (b_db b) !! run_id) →
  insert_run_budget run_id (_default_total_budget_tokens self) b
  = (Ok tt, with_ledger_row self run_id b).
Proof.
  intros Hck Hrun. unfold insert_run_budget, with_ledger_row, check_row.
  rewrite ensure_run by done. rewrite get_run. destruct (b_runs b !! run_id); [done|].
  rewrite ensure_run by by apply bool_decide_eq_true_2. by rewrite write_run_budget_run, Hck.
Qed.

Lemma add_reserved_ck row required status :
  ck_run_budget row = true → 0 ≤ required → projected row required ≤ rb_total row →
  ck_run_budget (add_reserved required status row) = true.
Proof.
  unfold ck_run_budget, projected. cbn. intros H Hpos Hle. to_prop.
  unfold int4 in *. to_prop.
  repeat (apply andb_true_iff; split); try done; try apply Z.leb_le; try apply Z.ltb_lt;
    try apply Z.eqb_eq; lia.
Qed.

Lemma reserve_run_start self id run_id t role est0 out progress credit b est :
  0 ≤ est0 → 1 ≤ out → (_calibrated_input_estimate self run_id t role est0 b).1 = Ok est →
  ck_run_budget (fresh_run_budget (_default_total_budget_tokens self)) = true →
  is_Some (db_runs (b_db b) !! run_id) →
  let row := ledger_row self run_id b in
  reserve self id run_id t role est0 out progress credit b
  = (outcome ← transaction_or (λ _,
       (if rb_total row <? projected row (est + out) then
          _update_status run_id BS_EXHAUSTED ;; mret (inl (facts_of row est out))
        else
          _reserve_hierarchy run_id t role (est + out) credit ;;
          update_run_budget run_id
            (add_reserved (est + out)
               (_status_for (projected row (est + out)) (rb_total row))) ;;
          insert_reservation id (reservation_row run_id t role est out) ;;
          mret (inr (reservation_of id run_id role est out))) (with_ledger_row self run_id b));
     match outcome with
     | inl facts => _persist_run_exhausted_status run_id ;; mret (inl facts)
     | inr reservation => mret (inr reservation)
     end) b.
Proof.
  intros Hest Hout Hcal Hck Hrun row. unfold reserve.
  rewrite ensure_run by (rewrite negb_true_iff, orb_false_iff, !Z.ltb_ge; lia).
  pose proof (calibrated_reads self run_id t role est0 b) as Hreads.
  destruct (_calibrated_input_estimate self run_id t role est0 b) as [r b1] eqn:E. cbn in *. subst.
  unfold mbind at 1, M_bind at 1. unfold mbind at 4, M_bind at 4. unfold transaction_or.
  rewrite (M_bind_run _ _ _ _ _ E), (M_bind_run _ _ _ _ _ (insert_run_budget_run self run_id b Hck Hrun)).
  assert (select_run_budget run_id (with_ledger_row self run_id b)
          = (Ok (ledger_row self run_id b), with_ledger_row self run_id b)) as Hs
    by by rewrite select_run_budget_run, with_ledger_row_lookup.
  by rewrite (M_bind_run _ _ _ _ _ Hs).
Qed.

Lemma ledger_row_ck self run_id b :
  ledger b → ck_run_budget (fresh_run_budget (_default_total_budget_tokens self)) = true →
  ck_run_budget (ledger_row self run_id b) = true.
Proof.
  intros L Hck. unfold ledger_row. destruct (b_runs b !! run_id) as [row|] eqn:E; cbn; [|done].
  exact (lg_rows b L run_id row E).
Qed.
Lemma ck_run_budget_nonneg row :
  ck_run_budget row = true →
  0 < rb_total row ≤ max_int4 ∧ 0 ≤ rb_used_total row ∧ 0 ≤ rb_reserved row.
Proof. unfold ck_run_budget, int4s, max_int4, int4. cbn. intros H. to_prop. lia. Qed.

Lemma room_same run_id t role limit b b' :
  b_stages b' = b_stages b → b_packages b' = b_packages b →
  room run_id t role limit b → room run_id t role limit b'.
Proof. intros H1 H2 [Ha Hb]. split; rewrite ?H1, ?H2; auto. Qed.

Lemma grant_Ok self id run_id t role est out credit b :
  ck_run_budget (ledger_row self run_id b) = true → 0 ≤ est → 1 ≤ out →
  projected (ledger_row self run_id b) (est + out) ≤ rb_total (ledger_row self run_id b) →
  is_Some (db_runs (b_db b) !! run_id) → (str_len t ≤ 128)%nat → b_reservations b !! id = None →
  room run_id t role (rb_total (ledger_row self run_id b)) b →
  let row := ledger_row self run_id b in
  let s := _status_for (projected row (est + out)) (rb_total row) in
  ∃ b', (_reserve_hierarchy run_id t role (est + out) credit ;;
    update_run_budget run_id (add_reserved (est + out) s) ;;
    insert_reservation id (reservation_row run_id t role est out)) (with_ledger_row self run_id b)
    = (Ok tt, b').
Proof.
  intros Hck Hest Hout Hle Hrun Ht Hfresh Hroom row s.
  destruct (ck_run_budget_nonneg _ Hck) as (Htot & Hused & Hresv).
  assert (est + out ≤ rb_total (ledger_row self run_id b)) by (unfold projected in Hle; lia).
  destruct (reserve_hierarchy_Ok run_id t role (est + out) credit (rb_total row)
              (with_ledger_row self run_id b)) as [b1 H1]; [unfold row; lia| | |].
  { unfold fits32. lia. }
  { eapply room_same; [..|exact Hroom]; unfold with_ledger_row; by destruct (b_runs b !! run_id). }
  rewrite (M_bind_run _ _ _ _ _ H1).
  pose proof (keeps_reserve_hierarchy run_id t role (est + out) credit
                (with_ledger_row self run_id b)) as (Hdb & Hruns & Hres). rewrite H1 in *. cbn in *.
  destruct (with_ledger_row_rest self run_id b) as [Hdb' Hres'].
  assert (update_run_budget run_id (add_reserved (est + out) s) b1
    = (Ok tt, set_b_runs (<[run_id := add_reserved (est + out) s row]> (b_runs b1)) b1)) as H2.
  { rewrite update_run_budget_run, Hruns, with_ledger_row_lookup, write_run_budget_run.
    rewrite add_reserved_ck; [by rewrite Hruns|done|lia|done]. }
  rewrite (M_bind_run _ _ _ _ _ H2). unfold insert_reservation, check_row. rewrite get_run.
  rewrite ensure_run.
  2: { unfold ck_reservation. cbn. rewrite !int4_fits by (unfold fits32; lia). cbn.
       repeat (apply andb_true_iff; split); [by apply Nat.leb_le|by apply Z.leb_le|
         apply Z.ltb_lt; lia]. }
  cbn. rewrite Hres, Hres', Hdb, Hdb'.
  rewrite ensure_run by by apply bool_decide_eq_true_2.
  rewrite ensure_run by by apply bool_decide_eq_true_2. by eexists.
Qed.

Lemma transaction_or_inl {S E A} (m : M S (E + A)) s e s' :
  m s = (Ok (inl e), s') → transaction_or m s = (Ok (inl e), s).
Proof. unfold transaction_or. by intros ->. Qed.
Lemma transaction_or_inr {S E A} (m : M S (E + A)) s a s' :
  m s = (Ok (inr a), s') → transaction_or m s = (Ok (inr a), s').
Proof. unfold transaction_or. by intros ->. Qed.

(** Under the conditions of the tables, the call is granted
    when it fits and refused when it does not. *)
Lemma reserve_decides self id run_id t role est0 out progress credit b est :
  ledger b → ck_run_budget (fresh_run_budget (_default_total_budget_tokens self)) = true →
  is_Some (db_runs (b_db b) !! run_id) → (str_len t ≤ 128)%nat → b_reservations b !! id = None →
  room run_id t role (rb_total (ledger_row self run_id b)) b →
  0 ≤ est0 → 1 ≤ out → (_calibrated_input_estimate self run_id t role est0 b).1 = Ok est →
  let row := ledger_row self run_id b in
  if rb_total row <? projected row (est + out)
  then reserve self id run_id t role est0 out progress credit b
       = (Ok (inl (facts_of row est out)), exhausted run_id b)
  else ∃ b', reserve self id run_id t role est0 out progress credit b
             = (Ok (inr (reservation_of id run_id role est out)), b').
Proof.
  intros L Hdef Hrun Ht Hfresh Hroom Hest0 Hout Hcal row.
  pose proof (calibrated_ge _ _ _ _ _ _ _ Hcal) as Hge.
  pose proof (ledger_row_ck self run_id b L Hdef) as Hck.
  rewrite (reserve_run_start _ _ _ _ _ _ _ _ _ _ est) by done. cbv zeta. fold row.
  destruct (rb_total row <? projected row (est + out)) eqn:Elt.
  - assert (_update_status run_id BS_EXHAUSTED (with_ledger_row self run_id b)
      = (Ok tt, set_b_runs (<[run_id := with_status BS_EXHAUSTED row]>
                  (b_runs (with_ledger_row self run_id b))) (with_ledger_row self run_id b))) as Hu.
    { unfold _update_status. rewrite update_run_budget_run, with_ledger_row_lookup,
        write_run_budget_run. fold row.
      by replace (ck_run_budget (with_status BS_EXHAUSTED row)) with true by done. }
    erewrite M_bind_run; [|eapply transaction_or_inl; by rewrite (M_bind_run _ _ _ _ _ Hu)].
    assert (_persist_run_exhausted_status run_id b = (Ok tt, exhausted run_id b)) as Hp.
    { unfold _persist_run_exhausted_status, transaction, exhausted. rewrite update_run_budget_run.
      destruct (b_runs b !! run_id) as [r|] eqn:Er; [|done]. rewrite write_run_budget_run.
      pose proof (lg_rows b L run_id r Er) as Hckr.
      by replace (ck_run_budget (with_status BS_EXHAUSTED r)) with true by done. }
    exact (M_bind_run _ _ _ _ _ Hp).
  - to_prop. destruct (grant_Ok self id run_id t role est out credit b) as [b' Hw];
      [done|lia|done..|].
    fold row in Hw. apply M_bind_Ok_inv in Hw as (u1 & s1 & Hw1 & Hw).
    apply M_bind_Ok_inv in Hw as (u2 & s2 & Hw2 & Hw3).
    exists b'. match goal with |- (transaction_or ?m ≫= _) _ = _ =>
      assert (m b = (Ok (inr (reservation_of id run_id role est out)), b')) as Hm end.
    { by rewrite (M_bind_run _ _ _ _ _ Hw1), (M_bind_run _ _ _ _ _ Hw2),
        (M_bind_run _ _ _ _ _ Hw3). }
    exact (M_bind_run _ _ _ _ _ (transaction_or_inr _ _ _ _ Hm)).
Qed.

Lemma granted_inv self id run_id t role est out b b' :
  reserve_outcome self id run_id t role out b (Ok (inr (reservation_of id run_id role est out))) b' →
  b_runs b' = <[run_id := add_reserved (est + out)
      (_status_for (projected (ledger_row self run_id b) (est + out))
         (rb_total (ledger_row self run_id b))) (ledger_row self run_id b)]> (b_runs b)
  ∧ b_reservations b' = <[id := reservation_row run_id t role est out]> (b_reservations b).
Proof. intros Ho. inversion Ho; subst. done. Qed.

(** ** Giving a reservation back *)
Ltac split_bools := repeat match goal with |- (_ && _) = true => apply andb_true_iff; split end.
Lemma int4_release n reserved : 0 ≤ reserved → int4 n = true → int4 (Z.max 0 (n - reserved)) = true.
Proof. unfold int4. intros Hr H. to_prop. apply andb_true_iff. split; apply Z.leb_le; lia. Qed.
Lemma settle_share_ck p role reserved :
  0 ≤ reserved → ck_package p = true →
  ck_package (with_share role (share_settle reserved 0 0 (share_of role p)) p) = true.
Proof.
  intros Hr. unfold ck_package, int4s, package_figures, share_figures. intros H.
  cbn -[int4 str_len Z.leb] in *. to_prop.
  destruct role; cbn -[int4 str_len Z.leb]; split_bools; rewrite ?Z.add_0_r;
    try done; try (by apply int4_release); try (apply Z.leb_le; lia);
    (destruct (Z.max_spec (ps_observed_prompt (pk_developer p)) 0) as [[_ ->]|[_ ->]]; done)
    || (destruct (Z.max_spec (ps_observed_prompt (pk_repair p)) 0) as [[_ ->]|[_ ->]]; done).
Qed.
Lemma settle_hierarchy_Ok run_id t role reserved b :
  0 ≤ reserved → shares_ok run_id t role b →
  ∃ b', _settle_hierarchy run_id t role reserved 0 0 b = (Ok tt, b').
Proof.
  intros Hr [Hs Hp]. unfold _settle_hierarchy.
  destruct (update_stage_Ok run_id (_stage_for role) (stage_settle reserved 0) b) as (b1 & H1 & Hb1).
  { intros row Hrow. specialize (Hs row Hrow). unfold ck_stage, int4s in *. cbn -[int4 Z.leb Z.ltb Z.eqb] in *.
    to_prop. rewrite Z.add_0_r.
    split_bools; try done; try (by apply int4_release); apply Z.leb_le; lia. }
  rewrite (M_bind_run _ _ _ _ _ H1). destruct (has_package_share role); [|by eexists].
  destruct (update_package_Ok run_id t
    (λ p, with_share role (share_settle reserved 0 0 (share_of role p)) p) b1) as (b2 & H2 & _);
    [|by exists b2].
  rewrite Hb1. intros p Hp'. by apply settle_share_ck, Hp.
Qed.

Definition released (row : RunBudgetRow) (reserved : Z) : RunBudgetRow :=
  settle_row reserved 0 0 0 (_status_for (rb_used_total row + 0) (rb_total row)) row.
Lemma released_ck row reserved :
  0 ≤ reserved → ck_run_budget row = true → ck_run_budget (released row reserved) = true.
Proof.
  intros Hr. unfold ck_run_budget, int4s, released. intros H. cbn -[int4 Z.leb Z.ltb Z.eqb] in *.
  to_prop. rewrite !Z.add_0_r.
  split_bools; try done; try (by apply int4_release);
    first [apply Z.leb_le|apply Z.ltb_lt|apply Z.eqb_eq]; lia.
Qed.

(** The run of [cancel] for an open reservation. *)
Lemma cancel_run reservation row budget b :
  b_reservations b !! tr_reservation_id reservation = Some row →
  b_runs b !! tr_res_run_id reservation = Some budget →
  0 ≤ tokens_of row → ck_run_budget budget = true →
  shares_ok (tr_res_run_id reservation) (rv_task_id row) (rv_role row) b →
  ∃ b', cancel reservation b = (Ok tt, b')
    ∧ b_runs b' = <[tr_res_run_id reservation := released budget (tokens_of row)]> (b_runs b)
    ∧ b_reservations b' = delete (tr_reservation_id reservation) (b_reservations b).
Proof.
  intros Hrow Hbudget Hpos Hck Hsh.
  set (b1 := set_b_runs (<[tr_res_run_id reservation := released budget (tokens_of row)]> (b_runs b)) b).
  destruct (settle_hierarchy_Ok (tr_res_run_id reservation) (rv_task_id row) (rv_role row)
              (tokens_of row) b1) as [b2 H2]; [done|exact Hsh|].
  pose proof (keeps_settle_hierarchy (tr_res_run_id reservation) (rv_task_id row) (rv_role row)
    (tokens_of row) 0 0 b1) as (_ & Hruns & Hres). rewrite H2 in Hruns, Hres. cbn in Hruns, Hres.
  exists (set_b_reservations (delete (tr_reservation_id reservation) (b_reservations b2)) b2).
  split; [|cbn; by rewrite Hruns, Hres].
  unfold cancel, _finish_reservation. apply transaction_Ok. rewrite get_run, Hrow. cbv zeta.
  assert (select_run_budget (tr_res_run_id reservation) b = (Ok budget, b)) as Hs
    by by rewrite select_run_budget_run, Hbudget.
  rewrite (M_bind_run _ _ _ _ _ Hs). cbn [_actual_usage].
  assert (update_run_budget (tr_res_run_id reservation) (settle_row (rv_input row + rv_output row) 0 0
    (0 + 0) (_status_for (rb_used_total budget + (0 + 0)) (rb_total budget))) b = (Ok tt, b1)) as H1.
  { rewrite update_run_budget_run, Hbudget, write_run_budget_run.
    pose proof (released_ck budget (tokens_of row) Hpos Hck) as Hrel.
    unfold released, tokens_of in Hrel. change (0 + 0) with 0. by rewrite Hrel. }
  rewrite (M_bind_run _ _ _ _ _ H1). unfold tokens_of in H2.
  by rewrite (M_bind_run _ _ _ _ _ H2).
Qed.

Lemma granted_cancel self id run_id t role est0 out progress credit b reservation b1 :
  ledger b → reserve self id run_id t role est0 out progress credit b = (Ok (inr reservation), b1) →
  ∃ b2 row, cancel reservation b1 = (Ok tt, b2)
    ∧ b_reservations b2 = b_reservations b
    ∧ b_runs b2 = <[run_id := row]> (b_runs b)
    ∧ rb_total row = rb_total (ledger_row self run_id b)
    ∧ rb_used_total row = rb_used_total (ledger_row self run_id b)
    ∧ rb_reserved row = rb_reserved (ledger_row self run_id b)
    ∧ ∀ usage, _finish_reservation reservation usage b2 = (Ok tt, b2).
Proof.
  intros L H. apply reserve_spec in H.
  inversion H as [| |est b' row Hle Hck Hckr Hfresh Hdb Hruns Hres Hsh]; subst.
  pose proof (ck_reservation_tokens _ Hckr) as Hpos.
  destruct (cancel_run (reservation_of id run_id role est out) (reservation_row run_id t role est out)
    row b1) as (b2 & Hcancel & Hruns2 & Hres2).
  { rewrite Hres. apply lookup_insert_eq. }
  { rewrite Hruns. apply lookup_insert_eq. }
  { lia. }
  { done. }
  { done. }
  cbn in Hruns2, Hres2. rewrite Hruns, insert_insert_eq in Hruns2.
  rewrite Hres, delete_insert_id in Hres2 by done.
  exists b2, (released row (tokens_of (reservation_row run_id t role est out))).
  split_and!; [done..|unfold row; cbn; lia| |].
  - unfold row. cbn. pose proof (ledger_row_sum self run_id b L) as Hsum.
    pose proof (open_tokens_nonneg run_id (b_reservations b)
      (λ id r Hr, proj2 (lg_open b L id r Hr))).
    unfold tokens_of. cbn. lia.
  - intros usage. apply finish_unknown. cbn. by rewrite Hres2.
Qed.

(** ** Concrete ledgers *)
Definition sample_store : PostgresRunTokenBudgetStore := {|
  _default_total_budget_tokens := 1000; _adaptive_package_budget_enabled := true;
  _token_estimate_safety_factor := literal 115 100 |}.
Definition empty_budgets : Budgets := {|
  b_db := sample_db; b_runs := ∅; b_reservations := ∅; b_roles := ∅; b_stages := ∅;
  b_packages := ∅; b_observations := ∅; b_next_observation := 1 |}.
Definition sample_reserve (id : UUID) (est : Z) :
    BM (RunBudgetExhaustionFacts + TokenBudgetReservation) :=
  reserve sample_store id 1%N "a" ROLE_DEVELOPER est 300 false LC_NORMAL.
Definition sample_usage (p c : Z) : TokenUsage := {|
  prompt_tokens := p; completion_tokens := c; total_tokens := p + c |}.

Lemma empty_balanced : balanced (empty_budgets, []).
Proof.
  split; [split|].
  - intros run row. cbn. by rewrite lookup_empty.
  - intros id r. cbn. by rewrite lookup_empty.
  - intros run row. cbn. by rewrite lookup_empty.
  - intros r Hr. cbn in Hr. by apply not_elem_of_nil in Hr.
Qed.
Lemma empty_within : within_total empty_budgets.
Proof. intros run row. cbn. by rewrite lookup_empty. Qed.
Lemma empty_room run_id t role limit : room run_id t role limit empty_budgets.
Proof. split; intros ?; cbn; by rewrite lookup_empty. Qed.

(** Two reservations, the first settled twice, then a refusal. *)
Definition after_first : Budgets := (sample_reserve 11%N 200 empty_budgets).2.
Definition after_second : Budgets := (sample_reserve 12%N 100 after_first).2.
Definition first_reservation : TokenBudgetReservation :=
  reservation_of 11%N 1%N ROLE_DEVELOPER 200 300.
Definition second_reservation : TokenBudgetReservation :=
  reservation_of 12%N 1%N ROLE_DEVELOPER 100 300.
Definition after_settle : Budgets := (settle first_reservation (sample_usage 150 120) after_second).2.
Definition after_settles : Budgets := (settle first_reservation (sample_usage 150 120) after_settle).2.
Definition after_refusal : Budgets := (sample_reserve 13%N 100 after_settles).2.
Definition sample_ledger : list TokenBudgetReservation := [second_reservation; first_reservation].

Lemma sample_steps policy :
  policy.1 first_reservation (sample_usage 150 120) →
  rtc (budget_step sample_store policy) (empty_budgets, []) (after_refusal, sample_ledger).
Proof.
  intros Hok.
  eapply rtc_l.
  { eapply (bs_granted _ _ _ _ 11%N 1%N "a" ROLE_DEVELOPER 200 300 false LC_NORMAL
      first_reservation after_first); [set_solver|vm_compute; reflexivity]. }
  eapply rtc_l.
  { eapply (bs_granted _ _ _ _ 12%N 1%N "a" ROLE_DEVELOPER 100 300 false LC_NORMAL
      second_reservation after_second); [set_solver|vm_compute; reflexivity]. }
  eapply rtc_l; [apply (bs_settle _ _ _ _ first_reservation (sample_usage 150 120));
    [set_solver|exact Hok]|].
  eapply rtc_l; [apply (bs_settle _ _ _ _ first_reservation (sample_usage 150 120));
    [set_solver|exact Hok]|].
  eapply rtc_l; [|reflexivity].
  eapply (bs_refused _ _ _ _ 13%N 1%N "a" ROLE_DEVELOPER 100 300 false LC_NORMAL after_refusal);
    vm_compute; reflexivity.
Qed.
Example sample_row :
  b_runs after_refusal !! 1%N
  = Some {| rb_total := 1000; rb_used_prompt := 150; rb_used_completion := 120;
            rb_used_total := 270; rb_reserved := 400; rb_status := BS_EXHAUSTED |}.
Proof. vm_compute. reflexivity. Qed.

(** ** The properties *)

(** C32.  The ledger is balanced: whatever sequence of initializations,
    reservations, cancellations, settlements (repeated ones included), usage
    records and observations the callers make, with any reported usages, the
    [reserved_tokens] of every run stays the sum of its open reservations,
    every open reservation belongs to a run with a budget, every row meets
    the table's constraints, and the row of an open reservation says what
    the caller was told. *)
Theorem ledger_balanced self policy st st' :
  rtc (budget_step self policy) st st' → balanced st → balanced st'.
Proof. apply step_invariant. intros. by eapply balanced_step. Qed.
Lemma ledger_balanced_witness : balanced (after_refusal, sample_ledger).
Proof.
  apply (ledger_balanced sample_store (λ _ _, True, λ _ _ _, True) (empty_budgets, []));
    [by apply sample_steps|apply empty_balanced].
Defined.

(** C33.  No run goes over its total: callers whose settled usages stay
    within what they reserved, and who record planning usage only where it
    fits, keep [used_total_tokens + reserved_tokens <= total_budget_tokens]
    for every run, however their reservations, settlements and cancellations
    interleave. *)
Theorem run_never_over_total self st st' :
  rtc (budget_step self thrifty) st st' → balanced st → within_total st.1 → within_total st'.1.
Proof.
  intros H HI W. assert (balanced st' ∧ within_total st'.1) as [_ ?]; [|done].
  eapply (step_invariant (budget_step self thrifty) (λ st, balanced st ∧ within_total st.1));
    [|exact H|done].
  intros a b Hs [? ?]. split; [by eapply balanced_step|by eapply within_step].
Qed.
Lemma run_never_over_total_witness : within_total after_refusal.
Proof.
  apply (run_never_over_total sample_store (empty_budgets, []) (after_refusal, sample_ledger));
    [apply sample_steps; cbn; unfold reported_within; cbn; lia|apply empty_balanced|apply empty_within].
Defined.

(** Admission: with [est] the calibrated estimate of the prompt, a call
    of [reserve] is granted exactly when [used + reserved + est + max_output]
    does not exceed the run's total.  A refused call only leaves the
    EXHAUSTED status behind (nothing at all for a run without a budget row)
    and reports a positive shortfall; a granted one adds the tokens to
    [reserved_tokens] and one reservation row. *)
Theorem reserve_admission self id run_id t role est0 out progress credit b est :
  ledger b → ck_run_budget (fresh_run_budget (_default_total_budget_tokens self)) = true →
  is_Some (db_runs (b_db b) !! run_id) → (str_len t ≤ 128)%nat → b_reservations b !! id = None →
  room run_id t role (rb_total (ledger_row self run_id b)) b →
  0 ≤ est0 → 1 ≤ out → (_calibrated_input_estimate self run_id t role est0 b).1 = Ok est →
  let row := ledger_row self run_id b in
  if rb_total row <? projected row (est + out)
  then reserve self id run_id t role est0 out progress credit b
       = (Ok (inl (facts_of row est out)), exhausted run_id b)
       ∧ 0 < shortfall_tokens (facts_of row est out)
  else ∃ b', reserve self id run_id t role est0 out progress credit b
             = (Ok (inr (reservation_of id run_id role est out)), b')
       ∧ b_runs b' = <[run_id := add_reserved (est + out)
                         (_status_for (projected row (est + out)) (rb_total row)) row]> (b_runs b)
       ∧ b_reservations b' = <[id := reservation_row run_id t role est out]> (b_reservations b).
Proof.
  intros L Hdef Hrun Ht Hfresh Hroom Hest0 Hout Hcal row.
  pose proof (reserve_decides self id run_id t role est0 out progress credit b est
    L Hdef Hrun Ht Hfresh Hroom Hest0 Hout Hcal) as Hd. cbv zeta in Hd. fold row in Hd.
  destruct (rb_total row <? projected row (est + out)) eqn:Elt; to_prop.
  - split; [done|]. pose proof (calibrated_ge _ _ _ _ _ _ _ Hcal).
    destruct (ck_run_budget_nonneg _ (ledger_row_ck self run_id b L Hdef)) as (H1&H2&H3).
    fold row in H1, H2, H3.
    unfold shortfall_tokens, required_tokens, remaining_tokens, projected in *. cbn. lia.
  - destruct Hd as [b' Hd]. exists b'. split; [done|].
    exact (granted_inv _ _ _ _ _ _ _ _ _ (reserve_spec _ _ _ _ _ _ _ _ _ _ _ _ Hd)).
Qed.
Lemma reserve_admission_witness :
  ∃ b', sample_reserve 11%N 200 empty_budgets = (Ok (inr first_reservation), b')
    ∧ rb_reserved <$> b_runs b' !! 1%N = Some 500.
Proof.
  assert (∃ b', sample_reserve 11%N 200 empty_budgets = (Ok (inr first_reservation), b')
    ∧ b_runs b' = <[1%N := add_reserved 500 (_status_for 500 1000) (fresh_run_budget 1000)]> ∅
    ∧ b_reservations b' = <[11%N := reservation_row 1%N "a" ROLE_DEVELOPER 200 300]> ∅)
    as (b' & H & Hr & _); [apply (reserve_admission sample_store 11%N 1%N "a" ROLE_DEVELOPER 200 300
      false LC_NORMAL empty_budgets 200)|].
  - exact (proj1 empty_balanced).
  - vm_compute. reflexivity.
  - eexists. vm_compute. reflexivity.
  - cbn. lia.
  - vm_compute. reflexivity.
  - apply empty_room.
  - lia.
  - lia.
  - vm_compute. reflexivity.
  - exists b'. split; [exact H|]. rewrite Hr. vm_compute. reflexivity.
Defined.

(** Giving a reservation back: cancelling a granted reservation cannot
    fail, restores the run's used and reserved tokens and the open
    reservations to what they were before the call, and from then on
    cancelling or settling it again, with any usage, changes nothing. *)
Theorem reserve_cancel self id run_id t role est0 out progress credit b reservation b1 :
  ledger b → reserve self id run_id t role est0 out progress credit b = (Ok (inr reservation), b1) →
  ∃ b2 row, cancel reservation b1 = (Ok tt, b2)
    ∧ b_reservations b2 = b_reservations b
    ∧ b_runs b2 = <[run_id := row]> (b_runs b)
    ∧ rb_total row = rb_total (ledger_row self run_id b)
    ∧ rb_used_total row = rb_used_total (ledger_row self run_id b)
    ∧ rb_reserved row = rb_reserved (ledger_row self run_id b)
    ∧ ∀ usage, _finish_reservation reservation usage b2 = (Ok tt, b2).
Proof. apply granted_cancel. Qed.
Lemma reserve_cancel_witness :
  ∃ b2 row, cancel first_reservation after_first = (Ok tt, b2)
    ∧ b_runs b2 = <[1%N := row]> (b_runs empty_budgets) ∧ rb_reserved row = 0.
Proof.
  destruct (reserve_cancel sample_store 11%N 1%N "a" ROLE_DEVELOPER 200 300 false LC_NORMAL
    empty_budgets first_reservation after_first) as (b2 & row & H1 & _ & H2 & _ & _ & H3 & _).
  - exact (proj1 empty_balanced).
  - vm_compute. reflexivity.
  - exists b2, row. split_and!; [exact H1|exact H2|rewrite H3; vm_compute; reflexivity].
Defined.
