(* ===== verification/PlanningBudget.v ===== *)
(** * PlanningBudget: the Planner's launch budget

    [persistence/planning_budget.py] ([PostgresPlanningTokenBudgetStore]) and
    the [PlanningTokenBudget] view of [models/token_budget.py].  The same
    conventions as for the run ledgers: atomic transactions, constraints
    tested on every written row, ids given by the caller. *)
From stdpp Require Import options.
From S2P Require Import Prelude Contracts Dag Json Store RunModels PyFloat AgentModels TokenBudget.
Open Scope Z_scope.

Record PlanningTokenBudget : Set := {
  ptb_launch_id : UUID;
  ptb_total_budget_tokens : Z;
  ptb_used_prompt_tokens : Z;
  ptb_used_completion_tokens : Z;
  ptb_used_total_tokens : Z;
  ptb_reserved_tokens : Z;
  ptb_attempt_count : Z;
  ptb_max_attempts : Z;
  ptb_enable_thinking : bool;
  ptb_status : RunTokenBudgetStatus;
}.
Definition PlanningTokenBudget_new (raw : PlanningTokenBudget) : result PlanningTokenBudget :=
  valid_if (1 <=? ptb_total_budget_tokens raw) "total_budget_tokens" ;;
  valid_if ((0 <=? ptb_used_prompt_tokens raw) && (0 <=? ptb_used_completion_tokens raw)
            && (0 <=? ptb_used_total_tokens raw) && (0 <=? ptb_reserved_tokens raw)
            && (0 <=? ptb_attempt_count raw)) "figures" ;;
  valid_if (1 <=? ptb_max_attempts raw) "max_attempts" ;;
  valid_if (ptb_used_total_tokens raw
            =? ptb_used_prompt_tokens raw + ptb_used_completion_tokens raw)
    "planning token total must equal prompt plus completion tokens" ;;
  Ok raw.

(** ** Tables *)
Record PlanningRow : Set := {
  pl_project_id : UUID;
  pl_run_id : option UUID;
  pl_total : Z;
  pl_used_prompt : Z;
  pl_used_completion : Z;
  pl_used_total : Z;
  pl_reserved : Z;
  pl_attempt_count : Z;
  pl_max_attempts : Z;
  pl_enable_thinking : bool;
  pl_status : RunTokenBudgetStatus;
}.
Record PlanningReservationRow : Set := {
  pv_launch_id : UUID;
  pv_input : Z;
  pv_output : Z;
}.
(** [p_db] and [p_projects]: what the foreign keys refer to. *)
Record Planning : Set := {
  p_db : Database;
  p_projects : gset UUID;
  p_budgets : gmap UUID PlanningRow;
  p_reservations : gmap UUID PlanningReservationRow;
}.
Notation PM := (M Planning).
Definition set_p_budgets (m : gmap UUID PlanningRow) (p : Planning) : Planning := {|
  p_db := p_db p; p_projects := p_projects p; p_budgets := m;
  p_reservations := p_reservations p |}.
Definition set_p_reservations (m : gmap UUID PlanningReservationRow) (p : Planning) : Planning := {|
  p_db := p_db p; p_projects := p_projects p; p_budgets := p_budgets p; p_reservations := m |}.
Definition check_planning (b : bool) (constraint : string) : PM unit :=
  ensure b IntegrityError constraint.

Definition ck_planning (r : PlanningRow) : bool :=
  int4s [pl_total r; pl_used_prompt r; pl_used_completion r; pl_used_total r; pl_reserved r;
         pl_attempt_count r; pl_max_attempts r]
  && (0 <? pl_total r) && ((0 <? pl_max_attempts r) && (0 <=? pl_attempt_count r))
  && ((0 <=? pl_used_prompt r) && (0 <=? pl_used_completion r) && (0 <=? pl_used_total r)
      && (0 <=? pl_reserved r))
  && (pl_used_total r =? pl_used_prompt r + pl_used_completion r).
(** [uq_planning_token_budgets_run]: NULLs are distinct. *)
Definition uq_planning_run (launch_id : UUID) (r : PlanningRow) (m : gmap UUID PlanningRow) : bool :=
  match pl_run_id r with
  | None => true
  | Some run => forallb (λ p, bool_decide (p.1 = launch_id)
                              || negb (bool_decide (pl_run_id p.2 = Some run))) (map_to_list m)
  end.
Definition fk_planning_run (r : PlanningRow) (p : Planning) : bool :=
  match pl_run_id r with
  | None => true
  | Some run => bool_decide (is_Some (db_runs (p_db p) !! run))
  end.
Definition write_planning (launch_id : UUID) (r : PlanningRow) : PM unit :=
  p ← get;
  check_planning (ck_planning r) "planning_token_budgets" ;;
  check_planning (uq_planning_run launch_id r (p_budgets p)) "uq_planning_token_budgets_run" ;;
  check_planning (fk_planning_run r p) "planning_token_budgets_run_id_fkey" ;;
  modify (λ p, set_p_budgets (<[launch_id := r]> (p_budgets p)) p).
Definition update_planning (launch_id : UUID) (f : PlanningRow → PlanningRow) : PM unit :=
  p ← get;
  match p_budgets p !! launch_id with
  | None => mret tt
  | Some r => write_planning launch_id (f r)
  end.

Record PlanningTokenBudgetReservation : Set := {
  ptr_reservation_id : UUID;
  ptr_launch_id : UUID;
  ptr_input : Z;
  ptr_output : Z;
}.

(** ** [PostgresPlanningTokenBudgetStore] *)
Record PostgresPlanningTokenBudgetStore : Set := {
  _planning_total_budget_tokens : Z;
  _planning_max_attempts : Z;
}.

(** [INSERT ... ON CONFLICT (launch_id) DO NOTHING] *)
Definition initialize (self : PostgresPlanningTokenBudgetStore) (launch_id project_id : UUID)
    (enable_thinking : bool) : PM unit :=
  transaction (
    let row := {|
      pl_project_id := project_id; pl_run_id := None; pl_total := _planning_total_budget_tokens self;
      pl_used_prompt := 0; pl_used_completion := 0; pl_used_total := 0; pl_reserved := 0;
      pl_attempt_count := 0; pl_max_attempts := _planning_max_attempts self;
      pl_enable_thinking := enable_thinking; pl_status := BS_NORMAL |} in
    check_planning (ck_planning row) "planning_token_budgets" ;;
    p ← get;
    match p_budgets p !! launch_id with
    | Some _ => mret tt
    | None =>
        check_planning (bool_decide (project_id ∈ p_projects p))
          "planning_token_budgets_project_id_fkey" ;;
        write_planning launch_id row
    end).

Definition planning_available (row : PlanningRow) : Z :=
  Z.max 0 (pl_total row - pl_used_total row - pl_reserved row).
Definition planning_with_status (s : RunTokenBudgetStatus) (r : PlanningRow) : PlanningRow := {|
  pl_project_id := pl_project_id r; pl_run_id := pl_run_id r; pl_total := pl_total r;
  pl_used_prompt := pl_used_prompt r; pl_used_completion := pl_used_completion r;
  pl_used_total := pl_used_total r; pl_reserved := pl_reserved r;
  pl_attempt_count := pl_attempt_count r; pl_max_attempts := pl_max_attempts r;
  pl_enable_thinking := pl_enable_thinking r; pl_status := s |}.
Definition _mark_exhausted (launch_id : UUID) : PM unit :=
  update_planning launch_id (planning_with_status BS_EXHAUSTED).

(** [_status_for] of this class has the thresholds of the run store's. *)
Definition planning_status_for (consumed_or_reserved total : Z) : RunTokenBudgetStatus :=
  if total <=? consumed_or_reserved then BS_EXHAUSTED
  else if total * 90 <=? consumed_or_reserved * 100 then BS_CRITICAL
  else if total * 70 <=? consumed_or_reserved * 100 then BS_WARNING
  else BS_NORMAL.

Definition planning_grant (required : Z) (status : RunTokenBudgetStatus) (r : PlanningRow) :
    PlanningRow := {|
  pl_project_id := pl_project_id r; pl_run_id := pl_run_id r; pl_total := pl_total r;
  pl_used_prompt := pl_used_prompt r; pl_used_completion := pl_used_completion r;
  pl_used_total := pl_used_total r; pl_reserved := pl_reserved r + required;
  pl_attempt_count := pl_attempt_count r + 1; pl_max_attempts := pl_max_attempts r;
  pl_enable_thinking := pl_enable_thinking r; pl_status := status |}.

Definition insert_planning_reservation (id : UUID) (r : PlanningReservationRow) : PM unit :=
  p ← get;
  check_planning (int4s [pv_input r; pv_output r] && (0 <=? pv_input r) && (0 <? pv_output r))
    "ck_planning_token_reservations_values" ;;
  check_planning (bool_decide (p_reservations p !! id = None)) "planning_token_reservations_pkey" ;;
  check_planning (bool_decide (is_Some (p_budgets p !! pv_launch_id r)))
    "planning_token_reservations_launch_id_fkey" ;;
  modify (λ p, set_p_reservations (<[id := r]> (p_reservations p)) p).

Definition reserve (reservation_id launch_id : UUID)
    (estimated_input_tokens max_output_tokens : Z) : PM PlanningTokenBudgetReservation :=
  ensure (negb ((estimated_input_tokens <? 0) || (max_output_tokens <? 1))) ValueError
    "planning reservation values must be non-negative and non-empty" ;;
  let required := estimated_input_tokens + max_output_tokens in
  transaction (
    p ← get;
    match p_budgets p !! launch_id with
    | None =>
        throw PlanningTokenBudgetReservationError "规划预算记录不存在，未发起模型请求。"
    | Some row =>
        if pl_max_attempts row <=? pl_attempt_count row then
          _mark_exhausted launch_id ;;
          throw PlanningTokenBudgetReservationError
            ("规划模型已达到本次启动的最大调用次数，attempts="
             +:+ str_of_Z (pl_attempt_count row) +:+ "/" +:+ str_of_Z (pl_max_attempts row)
             +:+ "，未向模型服务发起请求。")
        else
          let projected := pl_used_total row + pl_reserved row + required in
          if pl_total row <? projected then
            _mark_exhausted launch_id ;;
            throw PlanningTokenBudgetReservationError
              ("本次启动的规划模型预算已用尽，required_tokens=" +:+ str_of_Z required
               +:+ ", available_tokens=" +:+ str_of_Z (planning_available row)
               +:+ ", budget=" +:+ str_of_Z (pl_total row)
               +:+ "，未向模型服务发起请求。")
          else
            let status := planning_status_for projected (pl_total row) in
            update_planning launch_id (planning_grant required status) ;;
            insert_planning_reservation reservation_id {|
              pv_launch_id := launch_id; pv_input := estimated_input_tokens;
              pv_output := max_output_tokens |} ;;
            mret {| ptr_reservation_id := reservation_id; ptr_launch_id := launch_id;
                    ptr_input := estimated_input_tokens; ptr_output := max_output_tokens |}
    end).

Definition ensure_capacity (launch_id : UUID) (required_tokens required_calls : Z) : PM unit :=
  ensure (negb ((required_tokens <? 1) || (required_calls <? 1))) ValueError
    "planning capacity must include at least one positive call" ;;
  transaction (
    p ← get;
    match p_budgets p !! launch_id with
    | None =>
        throw PlanningTokenBudgetReservationError "规划预算记录不存在，未发起模型请求。"
    | Some row =>
        let available := planning_available row in
        let remaining_calls := pl_max_attempts row - pl_attempt_count row in
        if (remaining_calls <? required_calls) || (available <? required_tokens) then
          throw PlanningTokenBudgetReservationError
            ("启动规划预算不足以覆盖首次规划和一次受控恢复，未向模型服务发起请求。required_tokens="
             +:+ str_of_Z required_tokens +:+ ", available_tokens=" +:+ str_of_Z available
             +:+ ", required_calls=" +:+ str_of_Z required_calls
             +:+ ", available_calls=" +:+ str_of_Z (Z.max 0 remaining_calls)
             +:+ ", budget=" +:+ str_of_Z (pl_total row) +:+ "。")
        else mret tt
    end).

Definition planning_actual_usage (usage : option TokenUsage) (reserved_input reserved_output : Z) :
    Z * Z :=
  match usage with
  | None => (0, 0)
  | Some usage =>
      if (total_tokens usage =? 0) && (prompt_tokens usage =? 0) && (completion_tokens usage =? 0)
      then (reserved_input, reserved_output)
      else (prompt_tokens usage, completion_tokens usage)
  end.
Definition planning_settle (reserved prompt completion : Z) (status : RunTokenBudgetStatus)
    (r : PlanningRow) : PlanningRow := {|
  pl_project_id := pl_project_id r; pl_run_id := pl_run_id r; pl_total := pl_total r;
  pl_used_prompt := pl_used_prompt r + prompt;
  pl_used_completion := pl_used_completion r + completion;
  pl_used_total := pl_used_total r + (prompt + completion);
  pl_reserved := Z.max 0 (pl_reserved r - reserved);
  pl_attempt_count := pl_attempt_count r; pl_max_attempts := pl_max_attempts r;
  pl_enable_thinking := pl_enable_thinking r; pl_status := status |}.
Definition no_row : exn := Exn NoResultFound "No row was found when one was required".
Definition _finish (reservation : PlanningTokenBudgetReservation) (usage : option TokenUsage) :
    PM unit :=
  transaction (
    p ← get;
    match p_reservations p !! ptr_reservation_id reservation with
    | None => mret tt
    | Some row =>
        budget ← lift (of_option no_row (p_budgets p !! ptr_launch_id reservation));
        let '(prompt, completion) := planning_actual_usage usage (pv_input row) (pv_output row) in
        let total := prompt + completion in
        let status := planning_status_for (pl_used_total budget + total) (pl_total budget) in
        update_planning (ptr_launch_id reservation)
          (planning_settle (pv_input row + pv_output row) prompt completion status) ;;
        modify (λ p, set_p_reservations
          (delete (ptr_reservation_id reservation) (p_reservations p)) p)
    end).
Definition settle (reservation : PlanningTokenBudgetReservation) (usage : TokenUsage) : PM unit :=
  _finish reservation (Some usage).
Definition cancel (reservation : PlanningTokenBudgetReservation) : PM unit :=
  _finish reservation None.

Definition snapshot (launch_id : UUID) (p : Planning) : result PlanningTokenBudget :=
  row ← of_option no_row (p_budgets p !! launch_id);
  PlanningTokenBudget_new {|
    ptb_launch_id := launch_id; ptb_total_budget_tokens := pl_total row;
    ptb_used_prompt_tokens := pl_used_prompt row;
    ptb_used_completion_tokens := pl_used_completion row;
    ptb_used_total_tokens := pl_used_total row; ptb_reserved_tokens := pl_reserved row;
    ptb_attempt_count := pl_attempt_count row; ptb_max_attempts := pl_max_attempts row;
    ptb_enable_thinking := pl_enable_thinking row; ptb_status := pl_status row |}.
(** [SELECT launch_id ... WHERE run_id = :run_id]: at most one row, by the
    unique constraint. *)
Definition snapshot_for_run (run_id : UUID) (p : Planning) : result (option PlanningTokenBudget) :=
  match find (λ q, bool_decide (pl_run_id q.2 = Some run_id)) (map_to_list (p_budgets p)) with
  | None => Ok None
  | Some q => s ← snapshot q.1 p; Ok (Some s)
  end.

Definition planning_with_run (run_id : UUID) (r : PlanningRow) : PlanningRow := {|
  pl_project_id := pl_project_id r; pl_run_id := Some run_id; pl_total := pl_total r;
  pl_used_prompt := pl_used_prompt r; pl_used_completion := pl_used_completion r;
  pl_used_total := pl_used_total r; pl_reserved := pl_reserved r;
  pl_attempt_count := pl_attempt_count r; pl_max_attempts := pl_max_attempts r;
  pl_enable_thinking := pl_enable_thinking r; pl_status := pl_status r |}.
Definition link_to_run (launch_id run_id : UUID) : PM TokenUsage :=
  usage ← transaction (
    p ← get;
    row ← lift (of_option no_row (p_budgets p !! launch_id));
    match pl_run_id row with
    | Some existing =>
        ensure (bool_decide (existing = run_id)) ValueError
          "planning launch is already linked to a different Run" ;;
        mret {| prompt_tokens := 0; completion_tokens := 0; total_tokens := 0 |}
    | None =>
        update_planning launch_id (planning_with_run run_id) ;;
        mret {| prompt_tokens := pl_used_prompt row; completion_tokens := pl_used_completion row;
                total_tokens := pl_used_total row |}
    end);
  lift (TokenUsage_new usage).
