(* ===== verification/Budgeted.v ===== *)
(** * Budgeted: model calls under a budget

    [providers/budgeted.py] ([BudgetedAgentDriver]),
    [providers/planning_budgeted.py] ([PlanningBudgetedAgentDriver]) and
    [_transfer_planner_usage] of [api/autonomous.py], which moves the usage of
    a launch to its run.  The wrapped driver is a parameter: it answers or
    raises, and the state may change while it runs, since other workers use
    the same tables.  An [inl] result is a raised [AgentProviderError]. *)
From stdpp Require Import options.
From S2P Require Import Prelude Contracts Dag Json Store RunModels PyFloat AgentModels TokenBudget PlanningBudget.
Open Scope Z_scope.

(** ** [BudgetedAgentDriver] *)
Record BudgetedAgentDriver : Set := {
  bd_store : PostgresRunTokenBudgetStore;
  bd_run_id : UUID;
  bd_task_id : string;
  bd_token_estimator : TokenEstimator;
}.
(** The store's tables and the two dictionaries of the driver object. *)
Record DriverWorld : Set := {
  dw_budgets : Budgets;
  dw_latest_observation_ids : gmap string Z;
  dw_last_max_output_tokens : gmap string Z;
}.
Definition with_budgets (b : Budgets) (w : DriverWorld) : DriverWorld := {|
  dw_budgets := b; dw_latest_observation_ids := dw_latest_observation_ids w;
  dw_last_max_output_tokens := dw_last_max_output_tokens w |}.
(** An operation of the store. *)
Definition on_store {A} (m : BM A) : M DriverWorld A := λ w,
  let '(r, b) := m (dw_budgets w) in (r, with_budgets b w).

Definition fallback_liveness_credit (request : AgentRequest) : LivenessCredit :=
  if decide (ar_liveness_credit request = LC_NORMAL) then
    if ar_execution_iteration request =? 1 then LC_INITIAL_STARTUP
    else if ar_budget_progress request then LC_VERIFIED_PROGRESS
    else LC_NORMAL
  else ar_liveness_credit request.

(** The [AgentProviderError] of a refused reservation. *)
Definition exhausted_error (request : AgentRequest) (breakdown : RequestBreakdown)
    (facts : RunBudgetExhaustionFacts) : AgentProviderError := {|
  ape_provider := "runtime-budget";
  ape_code := PE_TOKEN_BUDGET_EXHAUSTED;
  ape_message := facts_message facts;
  ape_retryable := false;
  ape_status_code := None;
  ape_evidence := facts_evidence facts ++ [
    (if request_total_tokens breakdown <=? ar_context_estimated_tokens request
     then "prompt_estimate_source=context_floor"
     else "prompt_estimate_source=request_payload");
    "prompt_context_floor_tokens=" +:+ str_of_Z (ar_context_estimated_tokens request);
    "prompt_request_payload_tokens=" +:+ str_of_Z (request_total_tokens breakdown);
    "prompt_metadata_tokens=" +:+ str_of_Z (metadata_tokens breakdown);
    "prompt_message_tokens=" +:+ str_of_Z (message_tokens breakdown);
    "prompt_historical_tool_call_tokens=" +:+ str_of_Z (historical_tool_call_tokens breakdown);
    "prompt_tool_definition_tokens=" +:+ str_of_Z (tool_definition_tokens breakdown)];
  ape_failure_source := Some RUNTIME |}.

Definition sum_estimates (estimator : TokenEstimator) (texts : list string) : result Z :=
  fold_result (λ n s, e ← billable_token_estimate estimator (code_points s); Ok (n + e)) 0 texts.
Definition _tool_argument_tokens (calls : list ToolCall) : result Z :=
  sum_estimates default_estimator (call_arguments <$> calls).
Definition is_write_call (call : ToolCall) : bool :=
  bool_decide (call_name call = "write_file" ∨ call_name call = "apply_patch").
Definition _write_patch_argument_tokens (calls : list ToolCall) : result Z :=
  sum_estimates default_estimator (call_arguments <$> filter (λ c, is_write_call c = true) calls).
Definition _max_output_for_role (role : string) (w : DriverWorld) : Z :=
  Z.max 64 (default 1400 (dw_last_max_output_tokens w !! role)).

Section complete.
(** [self._driver.complete(request)] *)
Context (driver : AgentRequest → M DriverWorld AgentResponse).

(** [complete]: [reservation_id] is the [uuid4] of the reservation. *)
Definition complete (self : BudgetedAgentDriver) (reservation_id : UUID) (request : AgentRequest) :
    M DriverWorld (AgentProviderError + AgentResponse) :=
  request_breakdown ← lift (estimate_agent_request_breakdown (bd_token_estimator self) request);
  let request_estimate := request_total_tokens request_breakdown in
  let estimated_input := Z.max (ar_context_estimated_tokens request) request_estimate in
  let liveness_credit := fallback_liveness_credit request in
  outcome ← on_store (TokenBudget.reserve (bd_store self) reservation_id (bd_run_id self) (bd_task_id self)
    (ar_role request) estimated_input (ar_max_output_tokens request) (ar_budget_progress request)
    liveness_credit);
  match outcome with
  | inl facts => mret (inl (exhausted_error request request_breakdown facts))
  | inr reservation =>
      response ← (λ w,
        match driver request w with
        | (Ok response, w') => (Ok response, w')
        | (Raise e, w') => (on_store (TokenBudget.cancel reservation) ;; lift (Raise e)) w'
        end);
      on_store (TokenBudget.settle reservation (as_usage response)) ;;
      tool_arguments ← lift (_tool_argument_tokens (as_tool_calls response));
      write_patch_arguments ← lift (_write_patch_argument_tokens (as_tool_calls response));
      observation_id ← on_store (record_model_turn_observation (bd_store self) (bd_run_id self)
        (bd_task_id self) (ar_role request) (ar_execution_iteration request) estimated_input
        (as_usage response) tool_arguments write_patch_arguments (ar_budget_progress request)
        (ar_max_output_tokens request));
      (match observation_id with
       | None => mret tt
       | Some id => modify (λ w, {|
           dw_budgets := dw_budgets w;
           dw_latest_observation_ids :=
             <[AgentRole_value (ar_role request) := id]> (dw_latest_observation_ids w);
           dw_last_max_output_tokens :=
             <[AgentRole_value (ar_role request) := ar_max_output_tokens request]>
               (dw_last_max_output_tokens w) |})
       end) ;;
      mret (inr response)
  end.
End complete.

Section record_tool_outcome.
(** [result.model_dump_json()] (Pydantic) *)
Context (model_dump_json : ToolExecutionResult → string).

Definition record_tool_outcome (self : BudgetedAgentDriver) (role : string) (calls : list ToolCall)
    (results : list ToolExecutionResult) (has_real_progress compacted_code_mutation : bool) :
    M DriverWorld unit :=
  w ← get;
  match dw_latest_observation_ids w !! role with
  | None => mret tt
  | Some observation_id =>
      result_tokens ← lift (sum_estimates (bd_token_estimator self) (model_dump_json <$> results));
      compacted ← lift (if compacted_code_mutation
                        then sum_estimates (bd_token_estimator self) (call_arguments <$> calls)
                        else Ok 0);
      on_store (record_tool_outcome_observation (bd_store self) observation_id result_tokens
        has_real_progress (_max_output_for_role role w) compacted)
  end.
End record_tool_outcome.

(** ** [PlanningBudgetedAgentDriver] *)
Definition planning_error (message : string) : AgentProviderError := {|
  ape_provider := "devflow-planning-budget"; ape_code := PE_TOKEN_BUDGET_EXHAUSTED;
  ape_message := message; ape_retryable := false; ape_status_code := None; ape_evidence := [];
  ape_failure_source := None |}.
(** [except PlanningTokenBudgetReservationError as exc: raise AgentProviderError(...)] *)
Definition or_planning_error {A} (m : PM A) : PM (AgentProviderError + A) := λ p,
  match m p with
  | (Ok a, p') => (Ok (inr a), p')
  | (Raise e, p') =>
      if subclass (exn_kind e) PlanningTokenBudgetReservationError
      then (Ok (inl (planning_error (exn_message e))), p') else (Raise e, p')
  end.
Definition planning_estimate (estimator : TokenEstimator) (request : AgentRequest) : result Z :=
  n ← estimate_agent_request estimator request;
  Ok (Z.max (ar_context_estimated_tokens request) n).

Section planning.
Context (driver : AgentRequest → PM AgentResponse).

Definition planning_complete (launch_id : UUID) (estimator : TokenEstimator)
    (reservation_id : UUID) (request : AgentRequest) : PM (AgentProviderError + AgentResponse) :=
  estimate ← lift (planning_estimate estimator request);
  outcome ← or_planning_error
    (PlanningBudget.reserve reservation_id launch_id estimate (ar_max_output_tokens request));
  match outcome with
  | inl error => mret (inl error)
  | inr reservation =>
      response ← (λ p,
        match driver request p with
        | (Ok response, p') => (Ok response, p')
        | (Raise e, p') => (PlanningBudget.cancel reservation ;; lift (Raise e)) p'
        end);
      PlanningBudget.settle reservation (as_usage response) ;;
      mret (inr response)
  end.
End planning.

(** [ensure_capacity]: the requests of a first plan and its one recovery. *)
Definition requests_tokens (estimator : TokenEstimator) (requests : list AgentRequest) : result Z :=
  fold_result (λ n request,
    e ← planning_estimate estimator request; Ok (n + (e + ar_max_output_tokens request))) 0 requests.
Definition planning_ensure_capacity (launch_id : UUID) (estimator : TokenEstimator)
    (requests : list AgentRequest) : PM (AgentProviderError + unit) :=
  ensure (negb (bool_decide (length requests = 0%nat))) ValueError
    "planning capacity requires at least one request" ;;
  required_tokens ← lift (requests_tokens estimator requests);
  or_planning_error
    (ensure_capacity launch_id required_tokens (Z.of_nat (length requests))).

(** ** [_transfer_planner_usage] with both stores configured *)
Definition _transfer_planner_usage (launch_id run_id : UUID) : M (Planning * Budgets) unit :=
  usage ← (λ '(p, b), let '(r, p') := link_to_run launch_id run_id p in (r, (p', b)));
  if total_tokens usage =? 0 then mret tt
  else λ '(p, b), let '(r, b') := record_usage run_id ROLE_PLANNER usage b in (r, (p, b')).
