(* ===== verification/BudgetedFacts.v ===== *)
(** * BudgetedFacts: what budgets promise to model calls

    The Planner's capacity check covers the calls it was asked about, a
    launch's usage reaches its run at most once, a refused planning call
    leaves no trace (not even the EXHAUSTED status the code sets), and the
    budgeted driver never contacts a provider without a reservation nor
    leaves one open. *)
From stdpp Require Import options.
From S2P Require Import Prelude Contracts Dag Json Store Events RunModels PyFloat AgentModels TokenBudget TokenBudgetFacts PlanningBudget Budgeted.
Open Scope Z_scope.

(** ** One planning call *)
Lemma update_planning_run launch f row p :
  p_budgets p !! launch = Some row → pl_run_id (f row) = None → ck_planning (f row) = true →
  update_planning launch f p = (Ok tt, set_p_budgets (<[launch := f row]> (p_budgets p)) p).
Proof.
  intros Hrow Hrun Hck. unfold update_planning. rewrite get_run, Hrow.
  unfold write_planning, check_planning, uq_planning_run, fk_planning_run. rewrite get_run, Hrun.
  by rewrite ensure_run.
Qed.

Definition planning_open (launch : UUID) (tokens calls : Z) (p : Planning) : Prop :=
  ∃ row, p_budgets p !! launch = Some row ∧ pl_run_id row = None ∧ ck_planning row = true
    ∧ pl_used_total row + pl_reserved row + tokens ≤ pl_total row
    ∧ pl_attempt_count row + calls ≤ pl_max_attempts row.

Lemma ck_planning_facts row :
  ck_planning row = true ↔
  (0 < pl_total row ≤ max_int4) ∧ (0 < pl_max_attempts row ≤ max_int4)
  ∧ (0 ≤ pl_attempt_count row ≤ max_int4)
  ∧ (0 ≤ pl_used_prompt row ≤ max_int4) ∧ (0 ≤ pl_used_completion row ≤ max_int4)
  ∧ (0 ≤ pl_used_total row ≤ max_int4) ∧ (0 ≤ pl_reserved row ≤ max_int4)
  ∧ pl_used_total row = pl_used_prompt row + pl_used_completion row.
Proof.
  unfold ck_planning, int4s, int4, max_int4. cbn -[Z.leb Z.ltb Z.eqb]. split.
  - intros H. to_prop. lia.
  - intros H. split_bools; first [apply Z.leb_le|apply Z.ltb_lt|apply Z.eqb_eq|done]; lia.
Qed.

Definition planning_reservation (id launch : UUID) (est out : Z) :
    PlanningTokenBudgetReservation := {|
  ptr_reservation_id := id; ptr_launch_id := launch; ptr_input := est; ptr_output := out |}.
Definition planning_call (id launch : UUID) (est out : Z) (usage : option TokenUsage) : PM unit :=
  reservation ← PlanningBudget.reserve id launch est out;
  _finish reservation usage.

(** The row after a granted call that was settled or cancelled. *)
Definition usage_fits (est out : Z) (usage : option TokenUsage) : Prop :=
  match usage with
  | Some u => 0 ≤ prompt_tokens u ≤ est ∧ 0 ≤ completion_tokens u ≤ out
  | None => True
  end.
Lemma planning_usage_fits est out usage :
  0 ≤ est → 0 ≤ out → usage_fits est out usage →
  let '(p, c) := planning_actual_usage usage est out in 0 ≤ p ≤ est ∧ 0 ≤ c ≤ out.
Proof.
  intros H1 H2. destruct usage as [u|]; cbn; [|lia]. destruct (_ && _ && _); cbn; lia.
Qed.

Lemma planning_reserve_run id launch est out row p :
  0 ≤ est → 1 ≤ out → p_budgets p !! launch = Some row → pl_run_id row = None →
  ck_planning row = true →
  pl_used_total row + pl_reserved row + (est + out) ≤ pl_total row →
  pl_attempt_count row < pl_max_attempts row → p_reservations p !! id = None →
  let row' := planning_grant (est + out) (planning_status_for
    (pl_used_total row + pl_reserved row + (est + out)) (pl_total row)) row in
  ck_planning row' = true
  ∧ PlanningBudget.reserve id launch est out p
    = (Ok (planning_reservation id launch est out),
       set_p_reservations (<[id := {| pv_launch_id := launch; pv_input := est; pv_output := out |}]>
         (p_reservations p)) (set_p_budgets (<[launch := row']> (p_budgets p)) p)).
Proof.
  intros Hest Hout Hrow Hrun Hck Hfit Hatt Hfresh row'.
  assert (ck_planning row' = true) as Hck'.
  { apply ck_planning_facts. apply ck_planning_facts in Hck. unfold row'. cbn. lia. }
  split; [done|]. unfold PlanningBudget.reserve.
  rewrite ensure_run by (rewrite negb_true_iff, orb_false_iff, !Z.ltb_ge; lia).
  cbv zeta. apply transaction_Ok. rewrite get_run, Hrow.
  replace (pl_max_attempts row <=? pl_attempt_count row) with false by (symmetry; apply Z.leb_gt; lia).
  replace (pl_total row <? _) with false by (symmetry; apply Z.ltb_ge; lia).
  rewrite (M_bind_run _ _ _ _ _ (update_planning_run launch (planning_grant (est + out) _) row p
    Hrow Hrun Hck')).
  unfold insert_planning_reservation, check_planning.
  apply ck_planning_facts in Hck. unfold max_int4 in Hck.
  unfold mbind, M_bind. cbn -[int4s Z.leb Z.ltb].
  assert (int4s [est; out] && (0 <=? est) && (0 <? out) = true) as ->.
  { unfold int4s, int4. cbn -[Z.leb Z.ltb].
    split_bools; first [apply Z.leb_le|apply Z.ltb_lt|done]; lia. }
  cbn. rewrite bool_decide_eq_true_2 by done. cbn.
  rewrite bool_decide_eq_true_2 by (rewrite lookup_insert_eq; by eexists). done.
Qed.

Lemma planning_finish_run id launch est out usage row p :
  p_reservations p !! id = Some {| pv_launch_id := launch; pv_input := est; pv_output := out |} →
  p_budgets p !! launch = Some row → pl_run_id row = None →
  let '(pr, c) := planning_actual_usage usage est out in
  let row' := planning_settle (est + out) pr c
    (planning_status_for (pl_used_total row + (pr + c)) (pl_total row)) row in
  ck_planning row' = true →
  _finish (planning_reservation id launch est out) usage p
  = (Ok tt, set_p_reservations (delete id (p_reservations p))
              (set_p_budgets (<[launch := row']> (p_budgets p)) p)).
Proof.
  intros Hres Hrow Hrun. destruct (planning_actual_usage usage est out) as [pr c] eqn:Eu.
  intros row' Hck. unfold _finish. apply transaction_Ok. rewrite get_run. cbn [ptr_reservation_id
    planning_reservation ptr_launch_id]. rewrite Hres, Hrow. cbn [pv_input pv_output].
  rewrite (lift_run _ _ row p eq_refl), Eu. cbv zeta.
  by rewrite (M_bind_run _ _ _ _ _ (update_planning_run launch (planning_settle (est + out) pr c _) row p
    Hrow Hrun Hck)).
Qed.

(** One reserved and finished call uses at most what it reserved. *)
Lemma planning_call_run id launch est out usage tokens calls p :
  0 ≤ est → 1 ≤ out → usage_fits est out usage → 0 ≤ tokens → 0 ≤ calls →
  planning_open launch (est + out + tokens) (1 + calls) p → p_reservations p !! id = None →
  ∃ p', planning_call id launch est out usage p = (Ok tt, p')
    ∧ planning_open launch tokens calls p' ∧ p_reservations p' = p_reservations p.
Proof.
  intros Hest Hout Hfits Htok Hcalls (row & Hrow & Hrun & Hck & Hfit & Hatt) Hfresh.
  destruct (planning_reserve_run id launch est out row p) as [Hck1 Hreserve]; [done|done|done|done|done|lia|lia|done|].
  unfold planning_call. rewrite (M_bind_run _ _ _ _ _ Hreserve).
  set (row1 := planning_grant _ _ row) in *.
  pose proof (planning_usage_fits est out usage Hest ltac:(lia) Hfits) as Hu.
  pose proof (planning_finish_run id launch est out usage row1
    (set_p_reservations (<[id := {| pv_launch_id := launch; pv_input := est; pv_output := out |}]>
         (p_reservations p)) (set_p_budgets (<[launch := row1]> (p_budgets p)) p))) as Hf.
  cbn in Hf. rewrite !lookup_insert_eq in Hf. specialize (Hf eq_refl eq_refl Hrun).
  destruct (planning_actual_usage usage est out) as [pr c].
  apply ck_planning_facts in Hck, Hck1.
  rewrite Hf.
  2: { apply ck_planning_facts. unfold row1 in *. cbn in *. lia. }
  eexists. split; [reflexivity|]. split.
  - eexists. cbn. rewrite lookup_insert_eq. split; [reflexivity|]. split; [done|].
    split; [apply ck_planning_facts|]; unfold row1 in *; cbn in *; lia.
  - cbn. by rewrite delete_insert_id.
Qed.

(** ** A whole plan *)
Record PlannedCall : Set := {
  pc_id : UUID;
  pc_estimate : Z;
  pc_max_output : Z;
  pc_usage : option TokenUsage;
}.
Definition pc_tokens (c : PlannedCall) : Z := pc_estimate c + pc_max_output c.
Definition plan_tokens (calls : list PlannedCall) : Z := foldr (λ c n, pc_tokens c + n) 0 calls.
Definition run_plan (launch : UUID) (calls : list PlannedCall) : PM unit :=
  for_each calls (λ c, planning_call (pc_id c) launch (pc_estimate c) (pc_max_output c) (pc_usage c)).
Definition well_formed_call (c : PlannedCall) : Prop :=
  0 ≤ pc_estimate c ∧ 1 ≤ pc_max_output c ∧ usage_fits (pc_estimate c) (pc_max_output c) (pc_usage c).
Lemma plan_tokens_nonneg calls : Forall well_formed_call calls → 0 ≤ plan_tokens calls.
Proof.
  induction 1 as [|c calls (?&?&?) _ IH]; [done|].
  change (0 ≤ pc_tokens c + plan_tokens calls). unfold pc_tokens. lia.
Qed.

Lemma run_plan_runs launch calls p :
  Forall well_formed_call calls →
  planning_open launch (plan_tokens calls) (Z.of_nat (length calls)) p →
  (∀ c, c ∈ calls → p_reservations p !! pc_id c = None) →
  ∃ p', run_plan launch calls p = (Ok tt, p') ∧ p_reservations p' = p_reservations p.
Proof.
  intros Hwf. revert p. induction Hwf as [|c calls (Hest&Hout&Hfits) Hwf IH]; intros p Hopen Hfresh.
  - by exists p.
  - change (plan_tokens (c :: calls)) with (pc_tokens c + plan_tokens calls) in Hopen.
    destruct (planning_call_run (pc_id c) launch (pc_estimate c) (pc_max_output c) (pc_usage c)
      (plan_tokens calls) (Z.of_nat (length calls)) p) as (p1 & H1 & Hopen1 & Hres1);
      [done|done|done|by apply plan_tokens_nonneg|lia| |apply Hfresh; set_solver|].
    { unfold pc_tokens in Hopen. replace (1 + Z.of_nat (length calls))
        with (Z.of_nat (length (c :: calls))) by (cbn [length]; lia). exact Hopen. }
    destruct (IH p1 Hopen1) as (p' & H2 & Hres2).
    { intros c' Hc'. rewrite Hres1. apply Hfresh. set_solver. }
    exists p'. split; [|congruence]. cbn. by rewrite (M_bind_run _ _ _ _ _ H1).
Qed.

Lemma ensure_capacity_open launch tokens calls p row :
  p_budgets p !! launch = Some row → pl_run_id row = None → ck_planning row = true →
  ensure_capacity launch tokens calls p = (Ok tt, p) → planning_open launch tokens calls p.
Proof.
  intros Hrow Hrun Hck H. unfold ensure_capacity in H.
  apply M_bind_Ok_inv in H as (u & s & H1 & H). apply ensure_Ok_inv in H1 as [Hv ->].
  apply transaction_Ok_inv in H. rewrite get_run, Hrow in H.
  apply negb_true_iff in Hv. to_prop.
  destruct (_ || _) eqn:E in H; [discriminate|]. to_prop.
  exists row. unfold planning_available in *. split_and!; try done; lia.
Qed.

(** ** The transfer of a launch's usage *)
Lemma link_to_run_linked launch run_id p row :
  p_budgets p !! launch = Some row → pl_run_id row = Some run_id →
  link_to_run launch run_id p
  = (Ok {| prompt_tokens := 0; completion_tokens := 0; total_tokens := 0 |}, p).
Proof.
  intros Hrow Hrun. unfold link_to_run.
  assert (transaction (p ← get;
    row ← lift (of_option no_row (p_budgets p !! launch));
    match pl_run_id row with
    | Some existing =>
        ensure (bool_decide (existing = run_id)) ValueError
          "planning launch is already linked to a different Run" ;;
        mret {| prompt_tokens := 0; completion_tokens := 0; total_tokens := 0 |}
    | None =>
        update_planning launch (planning_with_run run_id) ;;
        mret {| prompt_tokens := pl_used_prompt row; completion_tokens := pl_used_completion row;
                total_tokens := pl_used_total row |}
    end) p = (Ok {| prompt_tokens := 0; completion_tokens := 0; total_tokens := 0 |}, p)) as H.
  { apply transaction_Ok. rewrite get_run, Hrow, (lift_run _ _ row p eq_refl), Hrun.
    by rewrite ensure_run by by apply bool_decide_eq_true_2. }
  by rewrite (M_bind_run _ _ _ _ _ H).
Qed.

Lemma write_planning_inv launch r p u p' :
  write_planning launch r p = (Ok u, p') → p' = set_p_budgets (<[launch := r]> (p_budgets p)) p.
Proof. unfold write_planning, check_planning. intros H. inv_monad. by injection H as _ <-. Qed.

(** A link that goes through leaves the launch linked; one that fails leaves
    everything as it was, except that the validation of the returned usage
    comes after the commit. *)
Lemma link_to_run_outcome launch run_id p r p' :
  link_to_run launch run_id p = (r, p') →
  p' = p ∨ ∃ row, p_budgets p' !! launch = Some row ∧ pl_run_id row = Some run_id.
Proof.
  unfold link_to_run. intros H. unfold mbind at 1, M_bind at 1 in H.
  match type of H with context [transaction ?m p] =>
    destruct (transaction m p) as [[usage|e] p1] eqn:E end.
  2: { apply transaction_raise_same in E. injection H as _ <-. by left. }
  injection H as _ <-. apply transaction_Ok_inv in E. rewrite get_run in E.
  destruct (p_budgets p !! launch) as [row|] eqn:Erow; [|discriminate].
  rewrite (lift_run _ _ row p eq_refl) in E.
  destruct (pl_run_id row) as [existing|] eqn:Erun.
  - inv_monad. injection E as _ <-. by left.
  - apply M_bind_Ok_inv in E as (u & p2 & E1 & E). injection E as _ <-.
    unfold update_planning in E1. rewrite get_run, Erow in E1.
    apply write_planning_inv in E1 as ->. right. cbn. rewrite lookup_insert_eq. by eexists.
Qed.

Lemma transfer_linked launch run_id p b row :
  p_budgets p !! launch = Some row → pl_run_id row = Some run_id →
  _transfer_planner_usage launch run_id (p, b) = (Ok tt, (p, b)).
Proof.
  intros Hrow Hrun. unfold _transfer_planner_usage, mbind, M_bind.
  by rewrite (link_to_run_linked launch run_id p row).
Qed.

(** ** Refused planning calls *)
Lemma planning_reserve_rolls_back id launch est out :
  rolls_back (PlanningBudget.reserve id launch est out).
Proof.
  unfold PlanningBudget.reserve, ensure. apply rolls_back_lift_bind. intros _.
  apply rolls_back_transaction.
Qed.

(** ** The budgeted driver *)
Lemma on_store_run {A} (m : BM A) w r b :
  m (dw_budgets w) = (r, b) → on_store m w = (r, with_budgets b w).
Proof. unfold on_store. by intros ->. Qed.

(** A driver that answers without touching the tables. *)
Definition quiet (driver : AgentRequest → M DriverWorld AgentResponse) : Prop :=
  ∀ request w, (driver request w).2 = w.

(** The estimate the driver reserves. *)
Definition complete_estimate (self : BudgetedAgentDriver) (request : AgentRequest)
    (breakdown : RequestBreakdown) : Z :=
  Z.max (ar_context_estimated_tokens request) (request_total_tokens breakdown).
Definition complete_reserve (self : BudgetedAgentDriver) (id : UUID) (request : AgentRequest)
    (breakdown : RequestBreakdown) : BM (RunBudgetExhaustionFacts + TokenBudgetReservation) :=
  TokenBudget.reserve (bd_store self) id (bd_run_id self) (bd_task_id self) (ar_role request)
    (complete_estimate self request breakdown) (ar_max_output_tokens request)
    (ar_budget_progress request) (fallback_liveness_credit request).

Section complete.
Context (driver : AgentRequest → M DriverWorld AgentResponse).

Lemma complete_refused self id request breakdown facts w b :
  estimate_agent_request_breakdown (bd_token_estimator self) request = Ok breakdown →
  complete_reserve self id request breakdown (dw_budgets w) = (Ok (inl facts), b) →
  complete driver self id request w
  = (Ok (inl (exhausted_error request breakdown facts)), with_budgets b w).
Proof.
  intros Hb Hr. unfold complete. rewrite (lift_run _ _ _ w Hb).
  exact (M_bind_run _ _ _ _ _ (on_store_run _ w _ _ Hr)).
Qed.

Lemma complete_failed self id request breakdown reservation e w b :
  quiet driver →
  estimate_agent_request_breakdown (bd_token_estimator self) request = Ok breakdown →
  complete_reserve self id request breakdown (dw_budgets w) = (Ok (inr reservation), b) →
  (driver request (with_budgets b w)).1 = Raise e →
  complete driver self id request w
  = (on_store (TokenBudget.cancel reservation) ;; lift (Raise e)) (with_budgets b w).
Proof.
  intros Hq Hb Hr Hd. unfold complete. rewrite (lift_run _ _ _ w Hb).
  etrans; [exact (M_bind_run _ _ _ _ _ (on_store_run _ w _ _ Hr))|].
  specialize (Hq request (with_budgets b w)).
  destruct (driver request (with_budgets b w)) as [r w'] eqn:E. cbn in Hd, Hq. subst r w'.
  unfold mbind at 1, M_bind at 1. rewrite E.
  unfold mbind, M_bind. by destruct (on_store (TokenBudget.cancel reservation) (with_budgets b w))
    as [[[]|e'] w''].
Qed.
End complete.

(** What a successful call leaves open: nothing. *)
Lemma settle_closes reservation usage b u b' :
  TokenBudget.settle reservation usage b = (Ok u, b') →
  b_reservations b' !! tr_reservation_id reservation = None.
Proof.
  intros H. apply finish_spec in H. remember (Ok u) as r eqn:Er.
  destruct H as [Hnone|e|row budget pr c b' _ _ _ row' _ _ _ Hres]; [done|done|].
  rewrite Hres. apply lookup_delete_eq.
Qed.

Lemma on_store_inv {A} (m : BM A) w r w' :
  on_store m w = (r, w') → ∃ b, m (dw_budgets w) = (r, b) ∧ w' = with_budgets b w.
Proof. unfold on_store. destruct (m (dw_budgets w)) as [r1 b]. intros [= <- <-]. by exists b. Qed.

Lemma complete_closes driver self id request breakdown reservation w b response w' :
  estimate_agent_request_breakdown (bd_token_estimator self) request = Ok breakdown →
  complete_reserve self id request breakdown (dw_budgets w) = (Ok (inr reservation), b) →
  complete driver self id request w = (Ok (inr response), w') →
  b_reservations (dw_budgets w') !! tr_reservation_id reservation = None.
Proof.
  intros Hb Hr H. unfold complete in H. rewrite (lift_run _ _ _ w Hb) in H. cbv zeta in H.
  apply M_bind_Ok_inv in H as (outcome & w1 & H1 & H).
  apply on_store_inv in H1 as (b1 & H1 & ->).
  unfold complete_reserve, complete_estimate in Hr. rewrite Hr in H1. injection H1 as <- <-.
  apply M_bind_Ok_inv in H as (response1 & w1 & _ & H).
  apply M_bind_Ok_inv in H as (u & w2 & H2 & H). apply on_store_inv in H2 as (b2 & H2 & ->).
  apply settle_closes in H2.
  apply M_bind_Ok_inv in H as (arguments & w3 & H3 & H). apply lift_Ok_inv in H3 as [_ ->].
  apply M_bind_Ok_inv in H as (patches & w3 & H3 & H). apply lift_Ok_inv in H3 as [_ ->].
  apply M_bind_Ok_inv in H as (observation & w3 & H3 & H). apply on_store_inv in H3 as (b3 & H3 & ->).
  pose proof (keeps_model_turn (bd_store self) (bd_run_id self) (bd_task_id self) (ar_role request)
    (ar_execution_iteration request) (complete_estimate self request breakdown) (as_usage response1)
    arguments patches (ar_budget_progress request) (ar_max_output_tokens request) b2)
    as (_ & _ & Hres). unfold complete_estimate in Hres. cbn in H3. rewrite H3 in Hres. cbn in Hres.
  apply M_bind_Ok_inv in H as (u3 & w4 & H4 & H). injection H as _ <-.
  assert (dw_budgets w4 = b3) as ->; [|by rewrite Hres].
  destruct observation; by injection H4 as _ <-.
Qed.

(** ** The properties *)

(** The capacity check covers the plan: when [ensure_capacity] accepts
    the tokens and the number of the calls of a launch that is not linked to
    a run yet, then reserving and finishing these calls one after the other,
    each settled within what it reserved, settled without a usage payload,
    or cancelled, cannot be refused and leaves no reservation open. *)
Theorem planning_capacity_suffices launch calls row p :
  p_budgets p !! launch = Some row → pl_run_id row = None → ck_planning row = true →
  Forall well_formed_call calls → (∀ c, c ∈ calls → p_reservations p !! pc_id c = None) →
  ensure_capacity launch (plan_tokens calls) (Z.of_nat (length calls)) p = (Ok tt, p) →
  ∃ p', run_plan launch calls p = (Ok tt, p') ∧ p_reservations p' = p_reservations p.
Proof.
  intros Hrow Hrun Hck Hwf Hfresh H. apply run_plan_runs; [done| |done].
  by eapply ensure_capacity_open.
Qed.

Definition sample_planning_row : PlanningRow := {|
  pl_project_id := 7%N; pl_run_id := None; pl_total := 1000; pl_used_prompt := 0;
  pl_used_completion := 0; pl_used_total := 0; pl_reserved := 0; pl_attempt_count := 0;
  pl_max_attempts := 2; pl_enable_thinking := false; pl_status := BS_NORMAL |}.
Definition sample_planning (row : PlanningRow) : Planning := {|
  p_db := sample_db; p_projects := {[ 7%N ]}; p_budgets := {[ 5%N := row ]};
  p_reservations := ∅ |}.
Definition sample_plan : list PlannedCall := [
  {| pc_id := 21%N; pc_estimate := 300; pc_max_output := 200; pc_usage := Some (sample_usage 280 150) |};
  {| pc_id := 22%N; pc_estimate := 300; pc_max_output := 200; pc_usage := Some (sample_usage 0 0) |}].
Lemma planning_capacity_suffices_witness :
  ∃ p', run_plan 5%N sample_plan (sample_planning sample_planning_row) = (Ok tt, p')
    ∧ p_reservations p' = ∅.
Proof.
  apply (planning_capacity_suffices 5%N sample_plan sample_planning_row).
  - vm_compute. reflexivity.
  - reflexivity.
  - vm_compute. reflexivity.
  - repeat constructor; cbn; lia.
  - intros c _. reflexivity.
  - vm_compute. reflexivity.
Defined.

(** The planner's usage reaches its run at most once: however the first
    transfer ended, including a failure after the launch was linked, either
    the planning tables are untouched or every further transfer to the same
    run succeeds and changes nothing, neither in the planning tables nor in
    the run ledger. *)
Theorem planner_usage_transferred_once launch run_id p b r p' b' :
  _transfer_planner_usage launch run_id (p, b) = (r, (p', b')) →
  p' = p ∨ ∀ b'', _transfer_planner_usage launch run_id (p', b'') = (Ok tt, (p', b'')).
Proof.
  intros H. unfold _transfer_planner_usage, mbind at 1, M_bind at 1 in H.
  destruct (link_to_run launch run_id p) as [[usage|e] p1] eqn:E.
  2: { injection H as _ <- _. apply link_to_run_outcome in E as [->|(row & Hrow & Hrun)]; [by left|].
       right. intros b''. by eapply transfer_linked. }
  assert (p' = p1) as ->.
  { destruct (total_tokens usage =? 0); [by injection H|].
    by destruct (record_usage run_id ROLE_PLANNER usage b); injection H. }
  apply link_to_run_outcome in E as [->|(row & Hrow & Hrun)]; [by left|].
  right. intros b''. by eapply transfer_linked.
Qed.
Definition used_planning_row : PlanningRow := {|
  pl_project_id := 7%N; pl_run_id := None; pl_total := 1000; pl_used_prompt := 280;
  pl_used_completion := 150; pl_used_total := 430; pl_reserved := 0; pl_attempt_count := 1;
  pl_max_attempts := 2; pl_enable_thinking := false; pl_status := BS_NORMAL |}.
Definition transferred : result unit * (Planning * Budgets) :=
  _transfer_planner_usage 5%N 1%N (sample_planning used_planning_row, after_first).
Lemma planner_usage_transferred_once_witness :
  _transfer_planner_usage 5%N 1%N transferred.2 = (Ok tt, transferred.2)
  ∧ rb_used_total <$> b_runs transferred.2.2 !! 1%N = Some 430.
Proof.
  split; [|vm_compute; reflexivity].
  destruct (planner_usage_transferred_once 5%N 1%N (sample_planning used_planning_row) after_first
    transferred.1 transferred.2.1 transferred.2.2) as [H|H].
  - vm_compute. reflexivity.
  - exfalso. apply (f_equal (λ p, pl_run_id <$> p_budgets p !! 5%N)) in H.
    vm_compute in H. discriminate.
  - exact (H transferred.2.2).
Defined.

(** A planning call refused for its attempts or its tokens leaves the
    launch's row as it was: the EXHAUSTED status that [reserve] writes just
    before it raises is rolled back with its transaction. *)
Theorem planning_refusal_unmarked id launch est out row p :
  p_budgets p !! launch = Some row → 0 ≤ est → 1 ≤ out → ck_planning row = true →
  pl_run_id row = None →
  pl_max_attempts row ≤ pl_attempt_count row
  ∨ pl_total row < pl_used_total row + pl_reserved row + (est + out) →
  ∃ msg, PlanningBudget.reserve id launch est out p
         = (Raise (Exn PlanningTokenBudgetReservationError msg), p).
Proof.
  intros Hrow Hest Hout Hck Hrun Hrefused. unfold PlanningBudget.reserve.
  rewrite ensure_run by (rewrite negb_true_iff, orb_false_iff, !Z.ltb_ge; lia). cbv zeta.
  assert (ck_planning (planning_with_status BS_EXHAUSTED row) = true) as Hck' by exact Hck.
  pose proof (update_planning_run launch (planning_with_status BS_EXHAUSTED) row p Hrow Hrun Hck')
    as Hu.
  destruct (pl_max_attempts row <=? pl_attempt_count row) eqn:Ea.
  - eexists. eapply transaction_raise. rewrite get_run, Hrow, Ea.
    unfold _mark_exhausted. exact (M_bind_run _ _ _ _ _ Hu).
  - to_prop. destruct Hrefused as [?|Hlt]; [lia|]. apply Z.ltb_lt in Hlt. apply Z.leb_gt in Ea.
    eexists. eapply transaction_raise. rewrite get_run, Hrow, Ea, Hlt.
    unfold _mark_exhausted. exact (M_bind_run _ _ _ _ _ Hu).
Qed.
Lemma planning_refusal_unmarked_witness :
  ∃ msg, PlanningBudget.reserve 23%N 5%N 900 200 (sample_planning sample_planning_row)
         = (Raise (Exn PlanningTokenBudgetReservationError msg), sample_planning sample_planning_row).
Proof.
  apply (planning_refusal_unmarked 23%N 5%N 900 200 sample_planning_row).
  - vm_compute. reflexivity.
  - lia.
  - lia.
  - vm_compute. reflexivity.
  - reflexivity.
  - right. cbn. lia.
Defined.

(** C34.  A model call under a run budget: a refused reservation raises the
    budget error without contacting the provider, whatever the provider is;
    a granted call whose provider raises gives everything back (the open
    reservations and the run's used and reserved tokens are those before the
    call) and passes the exception on; a granted call that returns has
    closed its reservation. *)
Theorem budgeted_call_accounts driver self id request breakdown w :
  quiet driver → ledger (dw_budgets w) →
  estimate_agent_request_breakdown (bd_token_estimator self) request = Ok breakdown →
  match complete_reserve self id request breakdown (dw_budgets w) with
  | (Ok (inl facts), b) =>
      ∀ driver', complete driver' self id request w
        = (Ok (inl (exhausted_error request breakdown facts)), with_budgets b w)
  | (Ok (inr reservation), b) =>
      (∀ e, (driver request (with_budgets b w)).1 = Raise e → ∃ w' row,
         complete driver self id request w = (Raise e, w')
         ∧ b_reservations (dw_budgets w') = b_reservations (dw_budgets w)
         ∧ b_runs (dw_budgets w') = <[bd_run_id self := row]> (b_runs (dw_budgets w))
         ∧ rb_used_total row
           = rb_used_total (ledger_row (bd_store self) (bd_run_id self) (dw_budgets w))
         ∧ rb_reserved row
           = rb_reserved (ledger_row (bd_store self) (bd_run_id self) (dw_budgets w)))
      ∧ (∀ response w', complete driver self id request w = (Ok (inr response), w') →
           b_reservations (dw_budgets w') !! tr_reservation_id reservation = None)
  | (Raise _, _) => True
  end.
Proof.
  intros Hq L Hb. destruct (complete_reserve _ _ _ _ _) as [[[facts|reservation]|e] b] eqn:Hr; [| |done].
  - intros driver'. by eapply complete_refused.
  - split; [|intros response w'; by eapply complete_closes]. intros e He.
    rewrite (complete_failed driver self id request breakdown reservation e w b) by done.
    unfold complete_reserve in Hr.
    destruct (granted_cancel _ _ _ _ _ _ _ _ _ _ _ _ L Hr)
      as (b2 & row & Hcancel & Hres & Hruns & _ & Hused & Hresv & _).
    exists (with_budgets b2 (with_budgets b w)), row.
    split; [|done]. exact (M_bind_run _ _ _ _ _ (on_store_run _ (with_budgets b w) _ _ Hcancel)).
Qed.

Definition sample_request : AgentRequest := {|
  ar_role := ROLE_DEVELOPER; ar_model := "m";
  ar_messages := [{| am_role := MR_USER; am_content := "write a test"; am_tool_call_id := None;
                     am_tool_calls := [] |}];
  ar_temperature := literal 1 10; ar_max_output_tokens := 300; ar_enable_thinking := false;
  ar_budget_progress := false; ar_context_estimated_tokens := 200; ar_execution_iteration := 1;
  ar_liveness_credit := LC_NORMAL; ar_tools := [] |}.
Definition sample_driver : BudgetedAgentDriver := {|
  bd_store := sample_store; bd_run_id := 1%N; bd_task_id := "a";
  bd_token_estimator := default_estimator |}.
Definition failing_provider (_ : AgentRequest) : M DriverWorld AgentResponse :=
  throw ProviderError "Model request timed out.".
Definition sample_world : DriverWorld := {|
  dw_budgets := empty_budgets; dw_latest_observation_ids := ∅; dw_last_max_output_tokens := ∅ |}.
Definition sample_breakdown : RequestBreakdown := {|
  request_total_tokens := 28; metadata_tokens := 8; message_tokens := 20;
  historical_tool_call_tokens := 0; tool_definition_tokens := 0 |}.
Lemma budgeted_call_accounts_witness :
  ∃ w', complete failing_provider sample_driver 11%N sample_request sample_world
        = (Raise (Exn ProviderError "Model request timed out."), w')
    ∧ b_reservations (dw_budgets w') = ∅.
Proof.
  pose proof (budgeted_call_accounts failing_provider sample_driver 11%N sample_request
    sample_breakdown sample_world (λ _ _, eq_refl) (proj1 empty_balanced)
    ltac:(vm_compute; reflexivity)) as H.
  destruct (complete_reserve sample_driver 11%N sample_request sample_breakdown
    (dw_budgets sample_world)) as [r b] eqn:E.
  assert (r = Ok (inr first_reservation)) as ->.
  { apply (f_equal fst) in E. cbn [fst] in E. rewrite <-E. vm_compute. reflexivity. }
  clear E. destruct H as [H _].
  destruct (H (Exn ProviderError "Model request timed out.") eq_refl) as (w' & row & Hc & Hres & _).
  exists w'. exact (conj Hc Hres).
Defined.
