(* ===== verification/Tools.v ===== *)
(** * Tools: the repository tools of the agents

    [tools/repository.py]: [RepositoryToolbox], through which an agent sees
    and changes the repository.  The argument models are read from a decoded
    JSON object, as Pydantic does it ([model_validate]); [json.loads],
    Pydantic's coercion to [int], the JSON schemas and the Python symbol
    resolver are parameters.  The files are a parameter too ([Files]), beside
    the path operations of [Git.Machine]. *)
From stdpp Require Import options.
From S2P Require Import Prelude Contracts Scope Json RunModels AgentModels Git.
Open Scope Z_scope.

(** ** Files

    [decoded_text] is the strict UTF-8 decoding of a file, [None] standing
    for [UnicodeDecodeError]; [read_text] also translates the line ends. *)
Class Files `{Machine} : Type := {
  path_is_file : Host → string → bool;
  (** [sorted(base.rglob("*"))] *)
  sorted_rglob : Host → string → list string;
  (** [path.stat().st_size] *)
  stat_size : Host → string → result Z;
  decoded_text : Host → string → result (option string);
  (** [path.mkdir(parents=True, exist_ok=True)] *)
  make_dirs : string → M Host unit;
  (** [path.write_text(content, encoding="utf-8")] *)
  write_text : string → string → M Host unit;
}.

(** Text mode reading: [\r\n] and [\r] become [\n]. *)
Fixpoint universal_newlines (l : list ascii) : list ascii :=
  match l with
  | [] => []
  | c :: l' =>
      if (nat_of_ascii c =? 13)%nat then
        match l' with
        | d :: l'' =>
            if (nat_of_ascii d =? 10)%nat then Scope.newline :: universal_newlines l''
            else Scope.newline :: universal_newlines l'
        | [] => [Scope.newline]
        end
      else c :: universal_newlines l'
  end.

(** ** Strings *)

(** [str.splitlines(keepends=True)] *)
Fixpoint split_lines_keepends (cur l : list ascii) : list (list ascii) :=
  match l with
  | [] => match cur with [] => [] | _ => [reverse cur] end
  | c :: l' =>
      if is_line_break c then
        match l' with
        | d :: l'' =>
            if (nat_of_ascii c =? 13)%nat && (nat_of_ascii d =? 10)%nat
            then reverse (d :: c :: cur) :: split_lines_keepends [] l''
            else reverse (c :: cur) :: split_lines_keepends [] l'
        | [] => [reverse (c :: cur)]
        end
      else split_lines_keepends (c :: cur) l'
  end.

(** [part in text] *)
Fixpoint contains (part text : list ascii) : bool :=
  startswith part text || match text with [] => false | _ :: text => contains part text end.

(** [text.count(part)] for a [part] that is not empty: occurrences that do not
    overlap, found from the left; [skip] characters belong to the last one. *)
Fixpoint count_from (skip : nat) (part text : list ascii) : nat :=
  match text with
  | [] => 0
  | _ :: text' =>
      match skip with
      | S skip => count_from skip part text'
      | O => if startswith part text then S (count_from (length part - 1) part text')
             else count_from 0 part text'
      end
  end.
Definition str_count (part text : string) : nat := count_from 0 (chars part) (chars text).

(** [text.replace(old, new, 1)] for an [old] that is not empty. *)
Fixpoint replace_first (old new text : list ascii) : list ascii :=
  if startswith old text then new ++ drop (length old) text
  else match text with [] => [] | c :: text => c :: replace_first old new text end.

(** [text.strip("/")] *)
Fixpoint drop_slashes (l : list ascii) : list ascii :=
  match l with
  | c :: l' => if decide (c = slash) then drop_slashes l' else l
  | [] => []
  end.
Definition strip_slashes (s : string) : string :=
  of_chars (reverse (drop_slashes (reverse (drop_slashes (chars s))))).

(** [json.dumps(value, ensure_ascii=False)] *)
Fixpoint json_dumps (j : JSON) : string :=
  match j with
  | JNull => "null"
  | JBool true => "true"
  | JBool false => "false"
  | JInt n => str_of_Z n
  | JStr s => quoted s
  | JList l => "[" +:+ join ", " (json_dumps <$> l) +:+ "]"
  | JObj fs => "{" +:+ join ", " ((λ f, quoted f.1 +:+ ": " +:+ json_dumps f.2) <$> fs) +:+ "}"
  end.

(** [path.relative_to(root).as_posix()] for a path below [root], and
    [path.parent]. *)
Definition relative_posix (root path : string) : string :=
  join "/" (drop (length (path_parts root)) (path_parts path)).
Definition path_parent (path : string) : string :=
  "/" +:+ join "/" (take (length (path_parts path) - 1) (path_parts path)).

Definition _MAX_FILE_BYTES : Z := 1000000.
Definition _MAX_SCAN_FILES : nat := 1000.
Definition _MAX_LIST_ENTRIES : nat := 200.
Definition _MAX_SEARCH_RESULTS : Z := 50.
Definition _MAX_READ_RANGE_LINES : Z := 400.
Definition _DEFAULT_READ_FILE_CHARS : Z := 8000.
Definition _MAX_READ_FILE_CHARS : Z := 12000.
Definition _DEFAULT_READ_FILES_CHARS : Z := 4000.
Definition _MAX_READ_FILES_CHARS : Z := 8000.

(** A Python region of a file, as the relevance extractor describes it. *)
Record SymbolRegion : Set := {
  sr_symbol : string;
  sr_start_line : Z;
  sr_end_line : Z;
}.

Section arguments.
(** Pydantic's coercion of a JSON value to [int]. *)
Context (lax_int : JSON → option Z).

Definition Arguments : Type := list (string * JSON).
Implicit Types fs : Arguments.

(** [extra="forbid"] *)
Definition forbid_extra (keys : list string) fs : result unit :=
  valid_if (forallb (λ f, bool_decide (f.1 ∈ keys)) fs) "Extra inputs are not permitted".
Definition missing {A} (key : string) (default : option A) : result A :=
  match default with
  | Some a => Ok a
  | None => raise ValidationError (key +:+ ": Field required")
  end.
Definition str_field (key : string) (default : option string) (lo hi : Z) fs : result string :=
  match get_field key fs with
  | None => missing key default
  | Some (JStr s) =>
      valid_if ((lo <=? Z.of_nat (str_len s)) && (Z.of_nat (str_len s) <=? hi)) key ;;
      Ok s
  | Some _ => raise ValidationError (key +:+ ": Input should be a valid string")
  end.
Definition int_field (key : string) (default : option Z) (lo : Z) (hi : option Z) fs : result Z :=
  match get_field key fs with
  | None => missing key default
  | Some j =>
      match lax_int j with
      | Some n =>
          valid_if ((lo <=? n) && match hi with Some hi => n <=? hi | None => true end) key ;;
          Ok n
      | None => raise ValidationError (key +:+ ": Input should be a valid integer")
      end
  end.
Definition as_str (key : string) (j : JSON) : result string :=
  match j with
  | JStr s => Ok s
  | _ => raise ValidationError (key +:+ ": Input should be a valid string")
  end.
Definition str_list_field (key : string) (lo hi : nat) fs : result (list string) :=
  match get_field key fs with
  | None => missing key None
  | Some (JList l) =>
      values ← map_result (as_str key) l;
      valid_if ((lo <=? length values) && (length values <=? hi))%nat key ;;
      Ok values
  | Some _ => raise ValidationError (key +:+ ": Input should be a valid list")
  end.

Record ListFilesArgs : Set := { lf_directory : string }.
Definition ListFilesArgs_validate fs : result ListFilesArgs :=
  forbid_extra ["directory"] fs ;;
  directory ← str_field "directory" (Some "") 0 500 fs;
  Ok {| lf_directory := directory |}.

Record ReadFileArgs : Set := { rf_path : string; rf_max_chars : Z }.
Definition ReadFileArgs_validate fs : result ReadFileArgs :=
  forbid_extra ["path"; "max_chars"] fs ;;
  path ← str_field "path" None 1 500 fs;
  max_chars ← int_field "max_chars" (Some _DEFAULT_READ_FILE_CHARS) 1
                (Some _MAX_READ_FILE_CHARS) fs;
  Ok {| rf_path := path; rf_max_chars := max_chars |}.

Record ReadFilesArgs : Set := { rfs_paths : list string; rfs_max_chars_per_file : Z }.
Definition reject_duplicate_paths (values : list string) : result (list string) :=
  let normalized := strip <$> values in
  valid_if (forallb (λ v, negb (bool_decide (v = ""))) normalized)
    "paths must not contain empty values" ;;
  valid_if (no_duplicates normalized) "paths must not contain duplicates" ;;
  Ok normalized.
Definition ReadFilesArgs_validate fs : result ReadFilesArgs :=
  forbid_extra ["paths"; "max_chars_per_file"] fs ;;
  values ← str_list_field "paths" 1 4 fs;
  paths ← reject_duplicate_paths values;
  max_chars ← int_field "max_chars_per_file" (Some _DEFAULT_READ_FILES_CHARS) 1
                (Some _MAX_READ_FILES_CHARS) fs;
  Ok {| rfs_paths := paths; rfs_max_chars_per_file := max_chars |}.

Record SearchCodeArgs : Set := { sa_query : string; sa_directory : string; sa_max_results : Z }.
Definition normalize_query (value : string) : result string :=
  let normalized := strip value in
  valid_if (negb (bool_decide (normalized = ""))) "query must not be empty" ;;
  Ok normalized.
Definition SearchCodeArgs_validate fs : result SearchCodeArgs :=
  forbid_extra ["query"; "directory"; "max_results"] fs ;;
  value ← str_field "query" None 1 500 fs;
  query ← normalize_query value;
  directory ← str_field "directory" (Some "") 0 500 fs;
  max_results ← int_field "max_results" (Some 20) 1 (Some _MAX_SEARCH_RESULTS) fs;
  Ok {| sa_query := query; sa_directory := directory; sa_max_results := max_results |}.

Record ReadRangeArgs : Set := { rr_path : string; rr_start_line : Z; rr_end_line : Z }.
Definition validate_range (self : ReadRangeArgs) : result ReadRangeArgs :=
  valid_if (rr_start_line self <=? rr_end_line self)
    "end_line must be greater than or equal to start_line" ;;
  valid_if (rr_end_line self - rr_start_line self + 1 <=? _MAX_READ_RANGE_LINES)
    ("read_range is limited to " +:+ str_of_Z _MAX_READ_RANGE_LINES +:+ " lines") ;;
  Ok self.
Definition ReadRangeArgs_validate fs : result ReadRangeArgs :=
  forbid_extra ["path"; "start_line"; "end_line"] fs ;;
  path ← str_field "path" None 1 500 fs;
  start_line ← int_field "start_line" None 1 None fs;
  end_line ← int_field "end_line" None 1 None fs;
  validate_range {| rr_path := path; rr_start_line := start_line; rr_end_line := end_line |}.

Record ReadSymbolArgs : Set := { rs_path : string; rs_symbol : string }.
Definition normalize_symbol (value : string) : result string :=
  let normalized := strip value in
  valid_if (negb (bool_decide (normalized = ""))) "symbol must not be empty" ;;
  Ok normalized.
Definition ReadSymbolArgs_validate fs : result ReadSymbolArgs :=
  forbid_extra ["path"; "symbol"] fs ;;
  path ← str_field "path" None 1 500 fs;
  value ← str_field "symbol" None 1 300 fs;
  symbol ← normalize_symbol value;
  Ok {| rs_path := path; rs_symbol := symbol |}.

Record SearchCodeManyArgs : Set := {
  sm_queries : list string;
  sm_directory : string;
  sm_max_results_per_query : Z;
}.
Definition normalize_queries (values : list string) : result (list string) :=
  normalized ← map_result normalize_query values;
  valid_if (no_duplicates normalized) "queries must not contain duplicates" ;;
  Ok normalized.
Definition SearchCodeManyArgs_validate fs : result SearchCodeManyArgs :=
  forbid_extra ["queries"; "directory"; "max_results_per_query"] fs ;;
  values ← str_list_field "queries" 1 6 fs;
  queries ← normalize_queries values;
  directory ← str_field "directory" (Some "") 0 500 fs;
  max_results ← int_field "max_results_per_query" (Some 10) 1 (Some 20) fs;
  Ok {| sm_queries := queries; sm_directory := directory;
        sm_max_results_per_query := max_results |}.

Record WriteFileArgs : Set := { wf_path : string; wf_content : string }.
Definition WriteFileArgs_validate fs : result WriteFileArgs :=
  forbid_extra ["path"; "content"] fs ;;
  path ← str_field "path" None 1 500 fs;
  content ← str_field "content" None 0 _MAX_FILE_BYTES fs;
  Ok {| wf_path := path; wf_content := content |}.

Record ApplyPatchArgs : Set := { ap_path : string; ap_old_text : string; ap_new_text : string }.
Definition ApplyPatchArgs_validate fs : result ApplyPatchArgs :=
  forbid_extra ["path"; "old_text"; "new_text"] fs ;;
  path ← str_field "path" None 1 500 fs;
  old_text ← str_field "old_text" None 1 200000 fs;
  new_text ← str_field "new_text" None 0 200000 fs;
  Ok {| ap_path := path; ap_old_text := old_text; ap_new_text := new_text |}.
End arguments.

(** The six tools that answer without changing anything return from a
    [Host] they only read. *)
Definition reading {S A} (f : S → result A) : M S A := λ s, (f s, s).

(** [RepositoryToolError(code, message)] *)
Definition tool_error {A} (code : ToolErrorCode) (message : string) : result A :=
  raise (RepositoryToolError code) message.
Definition or_tool_error (b : bool) (code : ToolErrorCode) (message : string) : result unit :=
  check b (RepositoryToolError code) message.

(** The names [execute] dispatches on, in the order of [definitions]. *)
Definition handler_names : list string :=
  ["list_files"; "read_file"; "read_files"; "read_range"; "read_symbol"; "search_code";
   "search_code_many"; "write_file"; "apply_patch"].

Definition definitions (schema_of : string → JSON) : list ToolDefinition :=
  (λ '(name, description), {| td_name := name; td_description := description;
                              td_parameters := schema_of name |}) <$>
  [("list_files", "List repository files visible to this task under an optional directory. "
      +:+ "Only readable paths are returned.");
   ("read_file", "Read a UTF-8 repository file that is visible to this task. "
      +:+ "The result may be truncated to the requested character limit.");
   ("read_files", "Read multiple visible UTF-8 repository files in one call. Prefer this "
      +:+ "for initial exploration of related files to reduce model round trips.");
   ("read_range", "Read a bounded line range from one visible UTF-8 repository file. "
      +:+ "Use after search_code to avoid reading a whole file.");
   ("read_symbol", "Read a named Python class, function, or method from one visible file, "
      +:+ "including its import/module preamble when available.");
   ("search_code", "Search visible UTF-8 repository files for an exact text query. "
      +:+ "Returns matching path, line number, and a short line preview.");
   ("search_code_many", "Search visible UTF-8 repository files for multiple exact text queries in "
      +:+ "one repository scan. Prefer this when locating several related symbols.");
   ("write_file", "Create or replace one UTF-8 repository file. The path must be writable and "
      +:+ "must not match a read-only scope.");
   ("apply_patch", "Apply one exact text replacement to an existing UTF-8 file. old_text must "
      +:+ "occur exactly once. The path must be writable and not read-only.")].

Section toolbox.
Context `{Files}.
Context (lax_int : JSON → option Z) (json_loads : string → result JSON)
  (resolve_symbol : string → string → string → option (Z * SymbolRegion)).

Record RepositoryToolbox : Set := {
  tb_workspace : LocalGitWorkspace;
  tb_task : TaskContract;
  tb_max_read_range_lines : Z;
}.
Definition RepositoryToolbox_init (workspace : LocalGitWorkspace) (task : TaskContract)
    (max_read_range_lines : Z) : result RepositoryToolbox :=
  check ((1 <=? max_read_range_lines) && (max_read_range_lines <=? _MAX_READ_RANGE_LINES))
    ValueError
    ("max_read_range_lines must be between 1 and " +:+ str_of_Z _MAX_READ_RANGE_LINES) ;;
  Ok {| tb_workspace := workspace; tb_task := task;
        tb_max_read_range_lines := max_read_range_lines |}.
Implicit Types self : RepositoryToolbox.
Implicit Types h : Host.
Definition root self : string := ws_root (tb_workspace self).

(** *** Paths *)
Definition _is_internal (relative_path : string) : bool :=
  let normalized := strip_slashes (strip relative_path) in
  bool_decide (normalized = ".git") || str_startswith ".git/" normalized.
Definition _assert_not_internal (relative_path : string) : result unit :=
  or_tool_error (negb (_is_internal relative_path)) TE_PATH_DENIED
    "DevFlow repository tools never expose .git internals".
Definition read_patterns (task : TaskContract) : list string :=
  tc_readable_files task ++ tc_writable_files task ++ tc_readonly_files task.
Definition _can_read self (relative_path : string) : bool :=
  existsb (matches relative_path) (read_patterns (tb_task self)).

Definition _resolve_directory self (repository_directory : string) h : result string :=
  let normalized := strip repository_directory in
  if bool_decide (normalized ∈ [""; "."]) then Ok (root self)
  else
    _assert_not_internal normalized ;;
    directory ← resolve_path (tb_workspace self) normalized h;
    or_tool_error (path_exists h directory) TE_NOT_FOUND
      ("Directory does not exist: " +:+ normalized) ;;
    or_tool_error (path_is_dir h directory) TE_INVALID_ARGUMENTS
      ("Path is not a directory: " +:+ normalized) ;;
    Ok directory.

Definition _resolve_file_for_read self (repository_path : string) h : result (string * string) :=
  let relative := strip repository_path in
  _assert_not_internal relative ;;
  path ← resolve_path (tb_workspace self) relative h;
  or_tool_error (_can_read self relative) TE_PATH_DENIED
    ("Read path is outside the task's visible scopes: " +:+ relative) ;;
  or_tool_error (path_is_file h path) TE_NOT_FOUND ("File does not exist: " +:+ relative) ;;
  Ok (relative, path).

Definition _resolve_for_write self (repository_path : string) h : result (string * string) :=
  let relative := strip repository_path in
  _assert_not_internal relative ;;
  path ← resolve_path (tb_workspace self) relative h;
  scope_result ← scope_check (tb_task self) [relative];
  match sc_violations scope_result with
  | violation :: _ =>
      tool_error TE_PATH_DENIED
        ("Write denied by " +:+ ScopeViolationKind_value (sv_kind violation) +:+ ": "
         +:+ relative)
  | [] =>
      or_tool_error (negb (path_exists h path && path_is_dir h path)) TE_INVALID_ARGUMENTS
        ("Write target is a directory: " +:+ relative) ;;
      Ok (relative, path)
  end.

(** The paths [_iter_files] yields: the files below [base] outside [.git] that
    are not links, at most [_MAX_SCAN_FILES] of them. *)
Fixpoint scan_files self h (scanned : nat) (paths : list string) : list string :=
  match paths with
  | [] => []
  | path :: paths =>
      if (_MAX_SCAN_FILES <=? scanned)%nat then []
      else if path_is_symlink h path || negb (path_is_file h path) then
        scan_files self h scanned paths
      else if _is_internal (relative_posix (root self) path) then scan_files self h scanned paths
      else path :: scan_files self h (S scanned) paths
  end.
Definition _iter_files self (base : string) h : list string :=
  scan_files self h 0 (sorted_rglob h base).

(** [path.read_text(encoding="utf-8")], [None] on [UnicodeDecodeError]. *)
Definition read_text (path : string) h : result (option string) :=
  text ← decoded_text h path;
  Ok (match text with
      | Some t => Some (of_chars (universal_newlines (chars t)))
      | None => None
      end).
Definition _read_text_file (path : string) h : result string :=
  size ← stat_size h path;
  or_tool_error (size <=? _MAX_FILE_BYTES) TE_IO_ERROR
    "file exceeds the V0.1 text-file size limit" ;;
  text ← read_text path h;
  match text with
  | Some text => Ok text
  | None => tool_error TE_IO_ERROR "file is not valid UTF-8 text"
  end.

(** *** Listing and reading *)

(** The loop of [_list_files]. *)
Fixpoint list_loop self (files paths : list string) : list string :=
  match paths with
  | [] => files
  | path :: paths =>
      let relative := relative_posix (root self) path in
      let files := if _can_read self relative then files ++ [relative] else files in
      if (_MAX_LIST_ENTRIES <=? length files)%nat then files else list_loop self files paths
  end.
Definition listing (files : list string) (truncated directory_exists : bool) : JSON :=
  JObj [("files", JList (JStr <$> files)); ("truncated", JBool truncated);
        ("directory_exists", JBool directory_exists)].
Definition list_result self (base : string) h : JSON :=
  let files := list_loop self [] (_iter_files self base h) in
  listing files (_MAX_LIST_ENTRIES <=? length files)%nat true.
Definition _list_files self (arguments : Arguments) h : result JSON :=
  args ← ListFilesArgs_validate arguments;
  let normalized_directory := strip (lf_directory args) in
  if bool_decide (normalized_directory ∈ [""; "."]) then Ok (list_result self (root self) h)
  else
    _assert_not_internal normalized_directory ;;
    base ← resolve_path (tb_workspace self) normalized_directory h;
    if negb (path_exists h base) then Ok (listing [] false false)
    else
      or_tool_error (path_is_dir h base) TE_INVALID_ARGUMENTS
        ("Path is not a directory: " +:+ normalized_directory) ;;
      Ok (list_result self base h).

(** One file of the answer of [_read_file] and [_read_files]. *)
Definition file_entry (relative text : string) (max_chars : Z) : JSON :=
  JObj [("path", JStr relative); ("content", JStr (str_take (Z.to_nat max_chars) text));
        ("truncated", JBool (max_chars <? Z.of_nat (str_len text)))].
Definition read_entry self (max_chars : Z) (requested_path : string) h : result JSON :=
  '(relative, path) ← _resolve_file_for_read self requested_path h;
  text ← _read_text_file path h;
  Ok (file_entry relative text max_chars).
Definition _read_file self (arguments : Arguments) h : result JSON :=
  args ← ReadFileArgs_validate lax_int arguments;
  read_entry self (rf_max_chars args) (rf_path args) h.
Definition _read_files self (arguments : Arguments) h : result JSON :=
  args ← ReadFilesArgs_validate lax_int arguments;
  files ← map_result (λ p, read_entry self (rfs_max_chars_per_file args) p h) (rfs_paths args);
  Ok (JObj [("files", JList files)]).

(** [lines[start - 1 : end]] joined, and [content.count("\n")]. *)
Definition line_slice (lines : list (list ascii)) (start_line end_line : Z) : list ascii :=
  mjoin (drop (Z.to_nat (start_line - 1)) (take (Z.to_nat end_line) lines)).
Definition count_newlines (l : list ascii) : Z := Z.of_nat (count_from 0 [Scope.newline] l).

Definition range_answer (path text : string) (start_line end_line : Z) : result JSON :=
  let lines := split_lines_keepends [] (chars text) in
  let total := Z.of_nat (length lines) in
  or_tool_error (start_line <=? total) TE_NOT_FOUND
    ("start_line is outside the file: " +:+ str_of_Z start_line) ;;
  let available_end_line := Z.min end_line total in
  let content := line_slice lines start_line available_end_line in
  let character_truncated := _MAX_READ_FILE_CHARS <? Z.of_nat (length content) in
  let content := if character_truncated then take (Z.to_nat _MAX_READ_FILE_CHARS) content
                 else content in
  let returned_end_line :=
    Z.min available_end_line (start_line + Z.max 0 (count_newlines content)) in
  let truncated := character_truncated || (available_end_line <? end_line) in
  Ok (JObj [("path", JStr path); ("requested_start_line", JInt start_line);
            ("requested_end_line", JInt end_line); ("returned_start_line", JInt start_line);
            ("returned_end_line", JInt returned_end_line); ("content", JStr (of_chars content));
            ("truncated", JBool truncated)]).
Definition _read_range self (arguments : Arguments) h : result JSON :=
  args ← ReadRangeArgs_validate lax_int arguments;
  let requested_lines := rr_end_line args - rr_start_line args + 1 in
  or_tool_error (requested_lines <=? tb_max_read_range_lines self) TE_INVALID_ARGUMENTS
    ("read_range is limited to " +:+ str_of_Z (tb_max_read_range_lines self)
     +:+ " lines for this agent") ;;
  '(relative, path) ← _resolve_file_for_read self (rr_path args) h;
  text ← _read_text_file path h;
  range_answer relative text (rr_start_line args) (rr_end_line args).

Definition symbol_answer (path source : string) (preamble_end : Z) (region : SymbolRegion) : JSON :=
  let lines := split_lines_keepends [] (chars source) in
  let preamble := if preamble_end =? 0 then [] else mjoin (take (Z.to_nat preamble_end) lines) in
  let body := line_slice lines (sr_start_line region) (sr_end_line region) in
  let separator := match preamble, body with _ :: _, _ :: _ => [Scope.newline] | _, _ => [] end in
  let content := preamble ++ separator ++ body in
  let character_truncated := _MAX_READ_FILE_CHARS <? Z.of_nat (length content) in
  let visible_content := take (Z.to_nat _MAX_READ_FILE_CHARS) content in
  let visible_body := drop (length preamble + length separator) visible_content in
  let returned_end_line :=
    Z.min (sr_end_line region) (sr_start_line region + Z.max 0 (count_newlines visible_body)) in
  JObj [("path", JStr path); ("symbol", JStr (sr_symbol region));
        ("requested_start_line", JInt (sr_start_line region));
        ("requested_end_line", JInt (sr_end_line region));
        ("returned_start_line", JInt (sr_start_line region));
        ("returned_end_line", JInt returned_end_line);
        ("content", JStr (of_chars visible_content)); ("truncated", JBool character_truncated)].
Definition _read_symbol self (arguments : Arguments) h : result JSON :=
  args ← ReadSymbolArgs_validate arguments;
  '(relative, path) ← _resolve_file_for_read self (rs_path args) h;
  or_tool_error (str_endswith ".py" relative) TE_INVALID_ARGUMENTS
    "read_symbol currently supports Python files only; use read_range instead" ;;
  source ← _read_text_file path h;
  match resolve_symbol relative source (rs_symbol args) with
  | None =>
      tool_error TE_NOT_FOUND
        ("Python symbol was not found or is ambiguous: " +:+ rs_symbol args)
  | Some (preamble_end, region) => Ok (symbol_answer relative source preamble_end region)
  end.

(** *** Searching *)
Definition match_entry (relative : string) (line_number : Z) (line : list ascii) : JSON :=
  JObj [("path", JStr relative); ("line", JInt line_number);
        ("text", JStr (of_chars (take 300 line)))].

(** The loop over the lines of one file: the matches, and whether
    [max_results] was reached. *)
Fixpoint search_lines (query : list ascii) (relative : string) (max_results line_number : Z)
    (lines : list (list ascii)) (found : list JSON) : list JSON * bool :=
  match lines with
  | [] => (found, false)
  | line :: lines =>
      if negb (contains query line) then
        search_lines query relative max_results (line_number + 1) lines found
      else
        let found := found ++ [match_entry relative line_number line] in
        if max_results <=? Z.of_nat (length found) then (found, true)
        else search_lines query relative max_results (line_number + 1) lines found
  end.
Fixpoint search_files self h (args : SearchCodeArgs) (paths : list string) (found : list JSON)
    : result (list JSON * bool) :=
  match paths with
  | [] => Ok (found, false)
  | path :: paths =>
      let relative := relative_posix (root self) path in
      if negb (_can_read self relative) then search_files self h args paths found
      else
        size ← stat_size h path;
        if _MAX_FILE_BYTES <? size then search_files self h args paths found
        else
          text ← read_text path h;
          match text with
          | None => search_files self h args paths found
          | Some text =>
              let '(found, full) :=
                search_lines (chars (sa_query args)) relative (sa_max_results args) 1
                  (split_lines [] (chars text)) found in
              if full then Ok (found, true) else search_files self h args paths found
          end
  end.
Definition _search_code self (arguments : Arguments) h : result JSON :=
  args ← SearchCodeArgs_validate lax_int arguments;
  base ← _resolve_directory self (sa_directory args) h;
  '(found, truncated) ← search_files self h args (_iter_files self base h) [];
  Ok (JObj [("matches", JList found); ("truncated", JBool truncated)]).

(** The matches and the truncation flag of each query, in the order of the
    queries (the two dictionaries of the source). *)
Definition many_line (relative : string) (max_results line_number : Z) (line : list ascii)
    (entry : string * list JSON * bool) : string * list JSON * bool :=
  let '(query, found, truncated) := entry in
  if negb (contains (chars query) line) then entry
  else if max_results <=? Z.of_nat (length found) then (query, found, true)
  else (query, found ++ [match_entry relative line_number line], truncated).
Fixpoint many_lines (relative : string) (max_results line_number : Z) (lines : list (list ascii))
    (entries : list (string * list JSON * bool)) : list (string * list JSON * bool) :=
  match lines with
  | [] => entries
  | line :: lines =>
      many_lines relative max_results (line_number + 1) lines
        (many_line relative max_results line_number line <$> entries)
  end.
Fixpoint many_files self h (max_results : Z) (paths : list string)
    (entries : list (string * list JSON * bool)) : result (list (string * list JSON * bool)) :=
  match paths with
  | [] => Ok entries
  | path :: paths =>
      let relative := relative_posix (root self) path in
      if negb (_can_read self relative) then many_files self h max_results paths entries
      else
        size ← stat_size h path;
        if _MAX_FILE_BYTES <? size then many_files self h max_results paths entries
        else
          text ← read_text path h;
          match text with
          | None => many_files self h max_results paths entries
          | Some text =>
              many_files self h max_results paths
                (many_lines relative max_results 1 (split_lines [] (chars text)) entries)
          end
  end.
Definition _search_code_many self (arguments : Arguments) h : result JSON :=
  args ← SearchCodeManyArgs_validate lax_int arguments;
  base ← _resolve_directory self (sm_directory args) h;
  entries ← many_files self h (sm_max_results_per_query args) (_iter_files self base h)
              ((λ q, (q, [], false)) <$> sm_queries args);
  Ok (JObj [("results", JList ((λ '(query, found, truncated),
        JObj [("query", JStr query); ("matches", JList found); ("truncated", JBool truncated)])
      <$> entries))]).

(** *** Writing *)
Definition encoded_size (text : string) : Z := Z.of_nat (str_len (encode_utf8 text)).
Definition _write_file self (arguments : Arguments) : M Host JSON :=
  args ← lift (WriteFileArgs_validate arguments);
  '(relative, path) ← reading (_resolve_for_write self (wf_path args));
  let size := encoded_size (wf_content args) in
  lift (or_tool_error (size <=? _MAX_FILE_BYTES) TE_IO_ERROR
    "file content exceeds the V0.1 text-file size limit") ;;
  make_dirs (path_parent path) ;;
  write_text path (wf_content args) ;;
  mret (JObj [("path", JStr relative); ("bytes", JInt size)]).

(** The new text of the file of [_apply_patch]. *)
Definition patched (text old_text new_text : string) : result string :=
  let occurrences := str_count old_text text in
  or_tool_error (negb (occurrences =? 0)%nat) TE_NOT_FOUND
    "old_text was not found in the patch target" ;;
  or_tool_error (occurrences =? 1)%nat TE_AMBIGUOUS_PATCH
    ("old_text must occur exactly once, found " +:+ str_of_Z (Z.of_nat occurrences)
     +:+ " occurrences") ;;
  let updated := of_chars (replace_first (chars old_text) (chars new_text) (chars text)) in
  or_tool_error (encoded_size updated <=? _MAX_FILE_BYTES) TE_IO_ERROR
    "patched file would exceed the V0.1 file-size limit" ;;
  Ok updated.
Definition _apply_patch self (arguments : Arguments) : M Host JSON :=
  args ← lift (ApplyPatchArgs_validate arguments);
  '(relative, path) ← reading (_resolve_for_write self (ap_path args));
  text ← reading (λ h,
    or_tool_error (path_is_file h path) TE_NOT_FOUND
      ("Patch target does not exist: " +:+ relative) ;;
    _read_text_file path h);
  updated ← lift (patched text (ap_old_text args) (ap_new_text args));
  write_text path updated ;;
  mret (JObj [("path", JStr relative); ("replacements", JInt 1)]).

(** *** [execute] *)
Definition handlers self : list (string * (Arguments → M Host JSON)) :=
  [("list_files", λ a, reading (_list_files self a));
   ("read_file", λ a, reading (_read_file self a));
   ("read_files", λ a, reading (_read_files self a));
   ("read_range", λ a, reading (_read_range self a));
   ("read_symbol", λ a, reading (_read_symbol self a));
   ("search_code", λ a, reading (_search_code self a));
   ("search_code_many", λ a, reading (_search_code_many self a));
   ("write_file", _write_file self);
   ("apply_patch", _apply_patch self)].
Definition handler_of self (name : string) : option (Arguments → M Host JSON) :=
  snd <$> find (λ p, bool_decide (p.1 = name)) (handlers self).

Definition _error_result (call : ToolCall) (code : ToolErrorCode) (message : string)
    : result ToolExecutionResult :=
  ToolExecutionResult_new {|
    ter_tool_call_id := call_id call; ter_name := call_name call; ter_ok := false;
    ter_content := message; ter_error_code := Some code |}.

Definition tool_arguments (call : ToolCall) : result Arguments :=
  raw_arguments ← json_loads (if bool_decide (call_arguments call = "") then "{}"
                              else call_arguments call);
  match raw_arguments with
  | JObj fields => Ok fields
  | _ => raise ValueError "tool arguments must be a JSON object"
  end.
(** The [except] clauses of [execute]. *)
Definition handled (call : ToolCall) (e : exn) : result ToolExecutionResult :=
  if subclass (exn_kind e) ValueError then
    _error_result call TE_INVALID_ARGUMENTS (exn_message e)
  else
    match exn_kind e with
    | RepositoryToolError code => _error_result call code (exn_message e)
    | OSError => _error_result call TE_IO_ERROR (exn_message e)
    | _ => Raise e
    end.
Definition execute self (call : ToolCall) : M Host ToolExecutionResult :=
  match handler_of self (call_name call) with
  | None =>
      lift (_error_result call TE_UNKNOWN_TOOL
        ("Unknown repository tool: " +:+ call_name call))
  | Some handler => λ h,
      match (raw_arguments ← lift (tool_arguments call); handler raw_arguments) h with
      | (Ok content, h') =>
          (ToolExecutionResult_new {|
             ter_tool_call_id := call_id call; ter_name := call_name call; ter_ok := true;
             ter_content := json_dumps content; ter_error_code := None |}, h')
      | (Raise e, h') => (handled call e, h')
      end
  end.
End toolbox.

(** ** The laws of the file system

    [path_resolve] follows symbolic links: below a resolved root, a path
    without [..] on which no component is a link resolves to itself, and
    neither writing a file nor making directories changes what a path resolves
    to.  A resolved path is no link, and [rglob] lists paths below its base.
    Paths that resolve differently name different files (the model has no
    hard links); the operations fail with [OSError] only. *)
Class FilesLaws `{Files} : Prop := {
  resolve_plain root text h : path_resolve h root = root → ".." ∉ path_parts text →
    (∀ k, (k < length (path_parts text))%nat →
       path_is_symlink h (joined root (take (S k) (path_parts text))) = false) →
    path_resolve h (joined root (path_parts text)) = joined root (path_parts text);
  resolve_no_link h p : path_resolve h p = p → path_is_symlink h p = false;
  rglob_below h base q : q ∈ sorted_rglob h base →
    ∃ rest, path_parts q = path_parts base ++ rest ∧ ".." ∉ rest;
  make_dirs_text p h q : decoded_text (make_dirs p h).2 q = decoded_text h q;
  make_dirs_resolve p h q : path_resolve (make_dirs p h).2 q = path_resolve h q;
  write_text_other p s h q : path_resolve h q ≠ path_resolve h p →
    decoded_text (write_text p s h).2 q = decoded_text h q;
  write_text_same p s h h' : write_text p s h = (Ok tt, h') → decoded_text h' p = Ok (Some s);
  make_dirs_raise p h e : (make_dirs p h).1 = Raise e → exn_kind e = OSError;
  write_text_raise p s h e : (write_text p s h).1 = Raise e → exn_kind e = OSError;
  stat_size_raise p h e : stat_size h p = Raise e → exn_kind e = OSError;
  decoded_text_raise p h e : decoded_text h p = Raise e → exn_kind e = OSError;
}.
