(* ===== verification/ToyFiles.v ===== *)
(** * ToyFiles: a small file system to run the tools on

    An instance of [Machine] and [Files]: a finite map from absolute paths to
    texts, in which every file is untracked by Git.  It serves the witnesses. *)
From stdpp Require Import options.
From S2P Require Import Prelude Json Git Tools.
Open Scope Z_scope.

Abbreviation toy_files := (gmap string string).
Definition below (base path : string) : bool := str_startswith (base +:+ "/") path.
Definition toy_listing (files : toy_files) (base : string) : list string :=
  sorted_strings (List.filter (λ p, below base p && negb (bool_decide (".." ∈ path_parts p)))
    (map_to_list files).*1).
Definition toy_git (root : string) (files : toy_files) (arguments : list string) : string :=
  match arguments with
  | "ls-files" :: "--others" :: _ =>
      join "" ((λ p, relative_posix root p +:+ of_chars [nul]) <$> toy_listing files root)
  | _ => ""
  end.

Definition toy_is_file (h : toy_files) (p : string) : bool := bool_decide (is_Some (h !! p)).
Definition toy_is_dir (h : toy_files) (p : string) : bool := existsb (below p) (map_to_list h).*1.
Definition toy_exists (h : toy_files) (p : string) : bool := toy_is_file h p || toy_is_dir h p.

Lemma toy_listing_below h base q : q ∈ toy_listing h base →
  ∃ rest, path_parts q = path_parts base ++ rest ∧ ".." ∉ rest.
Proof.
  unfold toy_listing. rewrite sorted_strings_perm. intros [_ Hb]%list_elem_of_In%filter_In.
  apply andb_true_iff in Hb as [Hb Hn%negb_true_iff%bool_decide_eq_false].
  unfold below, str_startswith in Hb. apply startswith_prefix in Hb as (k & Hk).
  assert (Hq : path_parts q = path_parts base ++ path_parts (of_chars k)).
  { rewrite <- path_parts_slash. f_equal. rewrite <- (of_chars_chars q), Hk, chars_app.
    by rewrite <- (of_chars_chars (base +:+ _)), !chars_app, chars_of_chars, (assoc_L (++)). }
  exists (path_parts (of_chars k)). split; [done|]. rewrite Hq in Hn. set_solver.
Qed.
#[export] Instance files_machine : Machine := {|
  Host := toy_files;
  run_git := λ root _ arguments h,
    (Finished {| returncode := 0; stdout := toy_git root h arguments; stderr := "" |}, h);
  path_resolve := λ _ p, p;
  path_is_symlink := λ _ _, false;
  path_exists := toy_exists;
  path_is_dir := toy_is_dir;
|}.
Definition toy_read {A} (f : string → A) (h : toy_files) (p : string) : result A :=
  match h !! p with Some text => Ok (f text) | None => raise OSError "No such file or directory" end.
Definition toy_write (p s : string) : M toy_files unit := λ h, (Ok tt, <[p := s]> h).
#[export] Instance files_files : @Files files_machine :=
  @Build_Files files_machine toy_is_file toy_listing (toy_read encoded_size) (toy_read Some)
    (λ _, mret tt) toy_write.
#[export] Instance files_laws : @FilesLaws files_machine files_files.
Proof.
  split.
  - done.
  - done.
  - intros h base q. cbn. apply toy_listing_below.
  - done.
  - done.
  - intros p s h q Hq. cbn in *. unfold toy_read. by rewrite lookup_insert_ne by congruence.
  - intros p s h h' [= <-]. cbn. unfold toy_read. by rewrite lookup_insert_eq.
  - done.
  - done.
  - intros p h e. cbn. unfold toy_read. destruct (_ !! _); [done|by intros [= <-]].
  - intros p h e. cbn. unfold toy_read. destruct (_ !! _); [done|by intros [= <-]].
Qed.
