(* ===== verification/ToolsFacts.v ===== *)
(** * ToolsFacts: what the repository tools let an agent do

    Whatever arguments a model sends, a tool call changes at most one file,
    one that the contract of the task opens for writing; its answer depends
    only on files the task may see; a rejected call changes nothing; a patch
    replaces one occurrence.  The scope checks read the spelling of a path, so
    that the first two hold for calls that spell their paths plainly; the
    concrete runs at the end show what other spellings reach. *)
From stdpp Require Import options.
From S2P Require Import Prelude Contracts Scope Json RunModels AgentModels Git Tools ToyFiles.
Open Scope Z_scope.

(** ** Counting and replacing a text *)
Lemma count_skip skip part text : count_from skip part text = count_from 0 part (drop skip text).
Proof.
  revert skip. induction text as [|c text IH]; intros [|skip]; try done. cbn [count_from drop]. apply IH.
Qed.
Lemma count_zero part text :
  part ≠ [] → count_from 0 part text = 0%nat ↔ contains part text = false.
Proof.
  intros Hp. induction text as [|c text IH]; cbn [count_from contains].
  - destruct part; [done|]. done.
  - destruct (startswith part (c :: text)); [done|]. cbn. apply IH.
Qed.

(** [old] occurs in [before ++ old ++ after] nowhere before [before] ends, and
    not in [after]. *)
Definition sole_occurrence (old before after : list ascii) : Prop :=
  (∀ k, (k < length before)%nat → startswith old (drop k (before ++ old ++ after)) = false)
  ∧ contains old after = false.

Lemma count_one old new text :
  old ≠ [] → count_from 0 old text = 1%nat →
  ∃ before after, text = before ++ old ++ after ∧ replace_first old new text = before ++ new ++ after
  ∧ sole_occurrence old before after.
Proof.
  intros Hold. induction text as [|c text IH]; intros Hc; [done|]. cbn [count_from] in Hc.
  destruct (startswith old (c :: text)) eqn:Hs.
  - apply startswith_prefix in Hs as Hk. destruct Hk as (k & Hk). exists [], k.
    cbn [replace_first app]. rewrite Hs, Hk, drop_app_length. split; [done|]. split; [done|].
    split; [cbn; lia|]. injection Hc as Hc. rewrite count_skip in Hc.
    destruct old as [|d old]; [done|]. injection Hk as <- ->.
    replace (length (c :: old) - 1)%nat with (length old) in Hc by (cbn; lia).
    rewrite drop_app_length in Hc. by apply count_zero.
  - destruct (IH Hc) as (before & after & -> & Hr & Hb & Ha). exists (c :: before), after.
    cbn [replace_first]. rewrite Hs, Hr. split; [done|]. split; [done|]. split; [|done].
    intros [|k] Hk; [done|]. apply Hb. cbn in Hk. lia.
Qed.
Lemma contains_occurs part text :
  contains part text = true ↔ ∃ before after, text = before ++ part ++ after.
Proof.
  induction text as [|c text IH]; cbn [contains].
  - rewrite orb_false_r, startswith_prefix. split.
    + intros (k & Hk). by exists [], k.
    + intros (b & a & Hba). apply symmetry, app_eq_nil in Hba as [_ Hba]. by exists a.
  - rewrite orb_true_iff, startswith_prefix, IH. split.
    + intros [(k & Hk)|(b & a & ->)]; [by exists [], k|by exists (c :: b), a].
    + intros ([|d b] & a & Hba); [left; by exists a|].
      injection Hba as -> ->. right. by exists b, a.
Qed.

Lemma wp_reading_bind {S A B} (f : S → result A) (g : A → M S B) Q E s :
  (∀ a, f s = Ok a → wp (g a) Q E s) → (∀ e, f s = Raise e → E e s) → wp (reading f ≫= g) Q E s.
Proof.
  intros Hok Hraise. apply wp_bind. unfold wp at 1, reading. destruct (f s) as [a|e]; auto.
Qed.

(** ** The exceptions of a handler *)

(** [execute] turns these exceptions into a result. *)
Definition known (e : exn) : bool :=
  subclass (exn_kind e) ValueError
  || match exn_kind e with RepositoryToolError _ | OSError => true | _ => false end.
Definition known_only {A} (r : result A) : Prop :=
  match r with Ok _ => True | Raise e => known e = true end.

Lemma known_Ok {A} (a : A) : known_only (Ok a).
Proof. done. Qed.
Lemma known_bind {A B} (m : result A) (f : A → result B) :
  known_only m → (∀ a, known_only (f a)) → known_only (m ≫= f).
Proof. destruct m; cbn; auto. Qed.
Lemma known_valid b msg : known_only (valid_if b msg).
Proof. by destruct b. Qed.
Lemma known_tool_error {A} code msg : known_only (tool_error (A:=A) code msg).
Proof. done. Qed.
Lemma known_or_tool_error b code msg : known_only (or_tool_error b code msg).
Proof. by destruct b. Qed.
Lemma known_raise {A} msg : known_only (raise (A:=A) ValidationError msg).
Proof. done. Qed.
Lemma known_map {A B} (f : A → result B) l : (∀ a, known_only (f a)) → known_only (map_result f l).
Proof.
  intros Hf. induction l as [|a l IH]; [done|]. cbn [map_result]. apply known_bind; [done|].
  intros b. by apply known_bind.
Qed.
Lemma known_value {A} (r : result A) : (∀ e, r = Raise e → exn_kind e = ValueError) → known_only r.
Proof. destruct r as [a|e]; cbn; [done|]. intros He. unfold known. by rewrite (He e). Qed.
Lemma known_os {A} (r : result A) : (∀ e, r = Raise e → exn_kind e = OSError) → known_only r.
Proof. destruct r as [a|e]; cbn; [done|]. intros He. unfold known. by rewrite (He e). Qed.
Lemma known_missing {A} key (d : option A) : known_only (missing key d).
Proof. by destruct d. Qed.
Create HintDb tools.
#[local] Hint Resolve known_Ok known_valid known_tool_error known_or_tool_error known_raise
  known_missing : tools.

(** [known_steps] proves it for a sequence of checks. *)
Ltac known_steps :=
  repeat first
    [ progress auto with tools
    | apply known_bind; [|intros ?]
    | apply known_map; intros ?
    | match goal with
      | |- known_only (match ?x with _ => _ end) => destruct x
      | |- known_only (let '(_, _) := ?p in _) => destruct p
      end ].

Section facts.
Context `{Laws : FilesLaws}.
Context (lax_int : JSON → option Z) (json_loads : string → result JSON)
  (resolve_symbol : string → string → string → option (Z * SymbolRegion)).
Implicit Types self : RepositoryToolbox.
Implicit Types h : Host.
Abbreviation execute := (execute lax_int json_loads resolve_symbol).

(** A path as Git and the contract spell it: its parts between single
    slashes. *)
Definition plain (relative : string) : Prop := join "/" (path_parts relative) = relative.
(** The paths that a call asks for. *)
Definition path_texts (args : Arguments) : list string :=
  match get_field "path" args with Some (JStr s) => [s] | _ => [] end
  ++ match get_field "paths" args with
     | Some (JList l) => omap (λ j, match j with JStr s => Some s | _ => None end) l
     | _ => []
     end.
Definition plain_arguments (args : Arguments) : Prop := Forall (λ text, plain (strip text)) (path_texts args).
Definition plain_call (call : ToolCall) : Prop :=
  ∀ args, tool_arguments json_loads call = Ok args → plain_arguments args.

(** [path] is the file [relative] of the workspace: a relative path without
    [..], outside [.git]. *)
Definition names_file self (relative path : string) : Prop :=
  path_text_ok relative = true ∧ _is_internal relative = false
  ∧ path = joined (root self) (path_parts relative).
(** The files that the contract opens for writing: a writable pattern matches
    the path of the file, no read-only one does. *)
Definition writable_file self (path : string) : Prop :=
  ∃ relative, plain relative ∧ names_file self relative path ∧ may_write (tb_task self) relative.

Lemma text_ok_no_parent text : path_text_ok text = true → ".." ∉ path_parts text.
Proof. unfold path_text_ok. intros Ht. apply andb_true_iff in Ht as [Ht _]. apply andb_true_iff in Ht as [_ Ht]. by to_prop. Qed.
(** An accepted path names the file it says. *)
Lemma resolved_names self text h path : path_resolve h (root self) = root self →
  _is_internal (strip text) = false →
  resolve_path (tb_workspace self) (strip text) h = Ok path →
  names_file self (strip text) path ∧ path_resolve h path = path.
Proof using Laws.
  intros Hroot Hint Hp. apply resolve_path_Ok in Hp as (Ht & Hlink & -> & _).
  rewrite strip_idemp in *. change (ws_root (tb_workspace self)) with (root self) in *.
  assert (Hres := resolve_plain (root self) (strip text) h Hroot (text_ok_no_parent _ Ht) Hlink).
  rewrite Hres. split; [by split_and!|done].
Qed.
Lemma resolve_for_write_Ok self text h relative path :
  _resolve_for_write self text h = Ok (relative, path) →
  relative = strip text ∧ may_write (tb_task self) relative ∧ _is_internal relative = false
  ∧ resolve_path (tb_workspace self) relative h = Ok path.
Proof.
  unfold _resolve_for_write. intros Hr.
  apply bind_Ok_inv in Hr as ([] & Hint & Hr). apply check_Ok in Hint.
  apply bind_Ok_inv in Hr as (p & Hp & Hr). apply bind_Ok_inv in Hr as (sr & Hs & Hr).
  destruct (sc_violations sr) as [|v vs] eqn:Hv; [|done].
  apply bind_Ok_inv in Hr as ([] & _ & Hr). injection Hr as <- ->. to_prop.
  apply scope_check_one in Hs as [_ Hs]. rewrite Hv in Hs.
  assert (may_write (tb_task self) (strip text)) as Hm.
  { destruct (violation_of (tb_task self) (strip (strip text))) eqn:Hw; [done|].
    apply violation_None in Hw. by rewrite strip_idemp in Hw. }
  by split_and!.
Qed.
(** What a granted write may touch: a file of the workspace that is reached
    over no link, judged by the spelling of its path. *)
Definition granted self (ok : Prop) h (path : string) : Prop :=
  path_resolve h path = path ∧ ∃ relative, names_file self relative path
    ∧ may_write (tb_task self) relative ∧ (ok → plain relative).
Lemma write_target self text h relative path (ok : Prop) : path_resolve h (root self) = root self →
  _resolve_for_write self text h = Ok (relative, path) → (ok → plain (strip text)) → granted self ok h path.
Proof using Laws.
  intros Hroot (-> & Hm & Hint & Hp)%resolve_for_write_Ok Hplain.
  destruct (resolved_names self text h path) as [Hn Hres]; [done..|]. split; [done|]. by exists (strip text).
Qed.
Lemma granted_writable self (ok : Prop) h path : granted self ok h path → ok → writable_file self path.
Proof. intros (_ & relative & Hn & Hm & Hp) Hok. exists relative. auto. Qed.

Lemma known_str_field key d lo hi fs : known_only (str_field key d lo hi fs).
Proof. unfold str_field. known_steps. Qed.
Lemma known_int_field key d lo hi fs : known_only (int_field lax_int key d lo hi fs).
Proof. unfold int_field. known_steps. Qed.
Lemma known_str_list_field key lo hi fs : known_only (str_list_field key lo hi fs).
Proof. unfold str_list_field, as_str. known_steps. Qed.
Lemma known_forbid keys fs : known_only (forbid_extra keys fs).
Proof. unfold forbid_extra. known_steps. Qed.
#[local] Hint Resolve known_str_field known_int_field known_str_list_field known_forbid : tools.

Lemma known_resolve self text h : known_only (resolve_path (tb_workspace self) text h).
Proof. apply known_value. intros e. apply resolve_path_Raise. Qed.
Lemma known_scope self text : known_only (scope_check (tb_task self) [text]).
Proof. apply known_value. intros e. apply scope_check_one_raise. Qed.
Lemma known_stat h path : known_only (stat_size h path).
Proof using Laws. apply known_os. intros e. apply stat_size_raise. Qed.
Lemma known_decoded h path : known_only (decoded_text h path).
Proof using Laws. apply known_os. intros e. apply decoded_text_raise. Qed.
#[local] Hint Resolve known_resolve known_scope known_stat known_decoded : tools.
Lemma known_read_text h path : known_only (read_text path h).
Proof using Laws. unfold read_text. known_steps. Qed.
#[local] Hint Resolve known_read_text : tools.
Lemma known_read_text_file h path : known_only (_read_text_file path h).
Proof using Laws. unfold _read_text_file. known_steps. Qed.
Lemma known_for_read self text h : known_only (_resolve_file_for_read self text h).
Proof. unfold _resolve_file_for_read, _assert_not_internal. known_steps. Qed.
Lemma known_for_write self text h : known_only (_resolve_for_write self text h).
Proof. unfold _resolve_for_write, _assert_not_internal. known_steps. Qed.
Lemma known_directory self text h : known_only (_resolve_directory self text h).
Proof. unfold _resolve_directory, _assert_not_internal. known_steps. Qed.
#[local] Hint Resolve known_read_text_file known_for_read known_for_write known_directory : tools.

Lemma known_search_files self h args paths found :
  known_only (search_files self h args paths found).
Proof using Laws.
  revert found. induction paths as [|path paths IH]; intros found; [done|]. cbn [search_files].
  known_steps; auto.
Qed.
Lemma known_many_files self h max_results paths entries :
  known_only (many_files self h max_results paths entries).
Proof using Laws.
  revert entries. induction paths as [|path paths IH]; intros entries; [done|]. cbn [many_files].
  known_steps; auto.
Qed.
#[local] Hint Resolve known_search_files known_many_files : tools.

(** The tools that only read, and what they answer. *)
Definition read_tool self (name : string) : option (Arguments → Host → result JSON) :=
  snd <$> find (λ p, bool_decide (p.1 = name))
    [("list_files", _list_files self); ("read_file", _read_file lax_int self);
     ("read_files", _read_files lax_int self); ("read_range", _read_range lax_int self);
     ("read_symbol", _read_symbol resolve_symbol self);
     ("search_code", _search_code lax_int self);
     ("search_code_many", _search_code_many lax_int self)].
Lemma known_read_tool self name f args h :
  read_tool self name = Some f → known_only (f args h).
Proof using Laws.
  unfold read_tool. cbn [find fst]. intros Hf.
  repeat (case_bool_decide; [injection Hf as <-; cbn [snd]|]); [..|done];
    [unfold _list_files, ListFilesArgs_validate, _assert_not_internal
    |unfold _read_file, ReadFileArgs_validate, read_entry
    |unfold _read_files, ReadFilesArgs_validate, reject_duplicate_paths, read_entry
    |unfold _read_range, ReadRangeArgs_validate, validate_range, range_answer
    |unfold _read_symbol, ReadSymbolArgs_validate, normalize_symbol
    |unfold _search_code, SearchCodeArgs_validate, normalize_query
    |unfold _search_code_many, SearchCodeManyArgs_validate, normalize_queries, normalize_query];
    known_steps.
Qed.
Lemma handler_of_cases self name handler :
  handler_of lax_int resolve_symbol self name = Some handler →
  (∃ f, read_tool self name = Some f ∧ handler = λ args, reading (f args))
  ∨ (name = "write_file" ∧ handler = _write_file self)
  ∨ (name = "apply_patch" ∧ handler = _apply_patch self).
Proof.
  unfold handler_of, read_tool, handlers. cbn [find fst]. intros Hf.
  repeat (case_bool_decide; [injection Hf as <-; cbn [snd]; first
    [by left; eexists|by right; left|by right; right]|]).
  done.
Qed.

(** ** The effect of a call *)

(** At most the text of the file that [path] resolves to differs. *)
Definition touches (path : string) h h' : Prop :=
  ∀ q, path_resolve h q ≠ path_resolve h path → decoded_text h' q = decoded_text h q.

(** What a run of a handler that answers [r] may have done: nothing, or an
    attempt to write one file; [ok] says that its path is spelled plainly. *)
Inductive effect (ok : Prop) self h : result JSON → Host → Prop :=
  | effect_none r : known_only r → effect ok self h r h
  | effect_write r path h' : granted self ok h path → touches path h h' →
      match r with Ok _ => True | Raise e => exn_kind e = OSError end → effect ok self h r h'.

Lemma known_exn_spec {A} (r : result A) e : known_only r → r = Raise e → known e = true.
Proof. intros Hr ->. exact Hr. Qed.
Ltac known_exn :=
  intros ? ?; constructor; cbn [known_only]; eapply known_exn_spec; [|eassumption];
  unfold WriteFileArgs_validate, ApplyPatchArgs_validate, patched; known_steps.
(** The [path] argument of a call. *)
Lemma str_field_text key args s default lo hi : str_field key default lo hi args = Ok s →
  get_field key args = Some (JStr s) ∨ get_field key args = None ∧ default = Some s.
Proof.
  unfold str_field. destruct (get_field key args) as [[]|]; try done.
  - intros H1. apply bind_Ok_inv in H1 as ([] & _ & [= ->]). by left.
  - unfold missing. destruct default; [|done]. intros [= ->]. by right.
Qed.
Lemma str_field_plain args s lo hi : str_field "path" None lo hi args = Ok s → plain_arguments args → plain (strip s).
Proof.
  intros [H1|[_ H1]]%str_field_text; [|done]. unfold plain_arguments, path_texts. rewrite H1. cbn.
  by intros [? _]%Forall_cons.
Qed.
Lemma write_args_plain args a : WriteFileArgs_validate args = Ok a → plain_arguments args → plain (strip (wf_path a)).
Proof.
  unfold WriteFileArgs_validate. intros H1. apply bind_Ok_inv in H1 as ([] & _ & H1).
  apply bind_Ok_inv in H1 as (path & Hp & H1). apply bind_Ok_inv in H1 as (c & _ & [= <-]). by eapply str_field_plain.
Qed.
Lemma patch_args_plain args a : ApplyPatchArgs_validate args = Ok a → plain_arguments args → plain (strip (ap_path a)).
Proof.
  unfold ApplyPatchArgs_validate. intros H1. apply bind_Ok_inv in H1 as ([] & _ & H1).
  apply bind_Ok_inv in H1 as (path & Hp & H1). apply bind_Ok_inv in H1 as (o & _ & H1).
  apply bind_Ok_inv in H1 as (n & _ & [= <-]). by eapply str_field_plain.
Qed.
Lemma write_file_effect self args h : path_resolve h (root self) = root self →
  wp (_write_file self args) (λ j, effect (plain_arguments args) self h (Ok j))
    (λ e, effect (plain_arguments args) self h (Raise e)) h.
Proof using Laws.
  intros Hroot. unfold _write_file. apply wp_lift_bind; [|by known_exn]. intros a Ha.
  apply wp_reading_bind; [|by known_exn]. intros [relative path] Hp.
  assert (Hok : granted self (plain_arguments args) h path).
  { eapply write_target; [done|exact Hp|by apply write_args_plain]. }
  apply wp_lift_bind; [|by known_exn]. intros [] _.
  pose proof (make_dirs_text (path_parent path) h) as Ht.
  pose proof (make_dirs_resolve (path_parent path) h) as Hm.
  pose proof (make_dirs_raise (path_parent path) h) as Hd.
  apply wp_bind. unfold wp at 1. destruct (make_dirs (path_parent path) h) as [[[]|e] h1].
  - pose proof (write_text_other path (wf_content a) h1) as Ho.
    pose proof (write_text_raise path (wf_content a) h1) as Hw.
    apply wp_bind. unfold wp at 1. destruct (write_text path (wf_content a) h1) as [[[]|e] h2];
      cbn in *; apply (effect_write _ _ _ _ path); auto; intros q Hq; rewrite Ho, Ht; [done|by rewrite !Hm|done|by rewrite !Hm].
  - cbn in *. apply (effect_write _ _ _ _ path); [done|by intros q _|by apply Hd].
Qed.
Lemma apply_patch_effect self args h : path_resolve h (root self) = root self →
  wp (_apply_patch self args) (λ j, effect (plain_arguments args) self h (Ok j))
    (λ e, effect (plain_arguments args) self h (Raise e)) h.
Proof using Laws.
  intros Hroot. unfold _apply_patch. apply wp_lift_bind; [|by known_exn]. intros a Ha.
  apply wp_reading_bind; [|by known_exn]. intros [relative path] Hp.
  assert (Hok : granted self (plain_arguments args) h path).
  { eapply write_target; [done|exact Hp|by apply patch_args_plain]. }
  apply wp_reading_bind; [|by known_exn]. intros text _.
  apply wp_lift_bind; [|by known_exn]. intros updated _.
  pose proof (write_text_other path updated h) as Ho.
  pose proof (write_text_raise path updated h) as Hw.
  apply wp_bind. unfold wp at 1. destruct (write_text path updated h) as [[[]|e] h2];
    cbn in *; apply (effect_write _ _ _ _ path); auto.
Qed.


(** ** [execute] *)
Lemma tool_result_total raw call ok content code :
  ToolCall_new raw = Ok call →
  ToolExecutionResult_new {|
    ter_tool_call_id := call_id call; ter_name := call_name call; ter_ok := ok;
    ter_content := content; ter_error_code := code |}
  = Ok {| ter_tool_call_id := call_id call; ter_name := call_name call; ter_ok := ok;
          ter_content := content; ter_error_code := code |}.
Proof.
  unfold ToolCall_new. intros Hc. apply bind_Ok_inv in Hc as ([] & Hid & Hc).
  apply bind_Ok_inv in Hc as (id & Hn & Hc). apply bind_Ok_inv in Hc as ([] & Hname & Hc).
  apply bind_Ok_inv in Hc as (name & Hm & Hc). injection Hc as <-.
  assert (∀ v n, normalize_required_text v = Ok n → n = strip v ∧ n ≠ "") as Hnorm.
  { intros v n Hv. unfold normalize_required_text, valid_if in Hv. inv_monad. by to_prop. }
  assert (∀ n, n ≠ "" → (1 ≤ str_len n)%nat) as Hlen.
  { intros n Hne. destruct n; [done|]. unfold str_len. cbn. lia. }
  apply Hnorm in Hn as [-> Hn], Hm as [-> Hm].
  apply check_Ok in Hid, Hname. apply andb_true_iff in Hname as [Hname _].
  pose proof (str_len_strip (call_id raw)). pose proof (str_len_strip (call_name raw)).
  unfold str_between in Hid, Hname.
  apply andb_true_iff in Hid as [_ Hid%Nat.leb_le], Hname as [_ Hname%Nat.leb_le].
  assert (∀ s hi, s ≠ "" → (str_len s ≤ hi)%nat → str_between 1 hi s = true) as Hb.
  { intros s hi Hne Hle. unfold str_between. apply andb_true_iff.
    split; apply Nat.leb_le; [by apply Hlen|done]. }
  unfold ToolExecutionResult_new, normalize_required_text.
  cbn [ter_tool_call_id ter_name ter_ok ter_content ter_error_code call_id call_name].
  rewrite !Hb, !strip_idemp by (done || lia). unfold valid_if.
  by rewrite !(bool_decide_eq_false_2 (strip _ = "")).
Qed.

Lemma handled_known raw call e :
  ToolCall_new raw = Ok call → known e = true →
  ∃ code, handled call e = Ok {|
    ter_tool_call_id := call_id call; ter_name := call_name call; ter_ok := false;
    ter_content := exn_message e; ter_error_code := Some code |}
  ∧ (exn_kind e = OSError → code = TE_IO_ERROR).
Proof.
  intros Hcall Hk. unfold handled, _error_result.
  destruct (subclass (exn_kind e) ValueError) eqn:Hs.
  - eexists. split; [by apply (tool_result_total raw)|]. intros He. by rewrite He in Hs.
  - unfold known in Hk. rewrite Hs in Hk. cbn in Hk.
    destruct (exn_kind e); try done; eexists; (split; [by apply (tool_result_total raw)|done]).
Qed.

(** What a model can do with one call.  [execute] returns a result for every
    validated call whose argument text [json.loads] decodes or rejects; the
    result has an error code exactly when it is not [ok].  The call leaves
    the files as they were, or it is a [write_file] or [apply_patch] that
    succeeded or failed with [IO_ERROR] and changed the text of no file but
    one, which the contract opens for writing if the call spells its path
    plainly. *)
Definition wrote_one self call h h' : Prop :=
  ∃ path, touches path h h' ∧ granted self (plain_call call) h path.
Lemma execute_effect self raw call h :
  ToolCall_new raw = Ok call → path_resolve h (root self) = root self →
  known_only (tool_arguments json_loads call) →
  ∃ result h', execute self call h = (Ok result, h')
  ∧ (ter_ok result = true ↔ ter_error_code result = None)
  ∧ (h' = h
     ∨ (call_name call = "write_file" ∨ call_name call = "apply_patch")
       ∧ (ter_ok result = true ∨ ter_error_code result = Some TE_IO_ERROR)
       ∧ wrote_one self call h h').
Proof using Laws.
  intros Hcall Hroot Hargs. unfold execute, Tools.execute.
  destruct (handler_of lax_int resolve_symbol self (call_name call)) as [handler|] eqn:Hh.
  2:{ eexists _, h. split; [unfold _error_result; rewrite (tool_result_total raw) by done; reflexivity|].
      split; [done|by left]. }
  assert (∀ e, known e = true → ∃ result, handled call e = Ok result
    ∧ ter_ok result = false ∧ is_Some (ter_error_code result)
    ∧ (exn_kind e = OSError → ter_error_code result = Some TE_IO_ERROR)) as Hraise.
  { intros e He. destruct (handled_known raw call e) as (code & -> & Hcode); [done|done|].
    eexists. split; [reflexivity|]. cbn. split; [done|]. split; [done|]. intros Ho. by rewrite Hcode. }
  assert (∀ e h', known e = true → (h' = h ∨ (call_name call = "write_file" ∨ call_name call = "apply_patch")
    ∧ exn_kind e = OSError ∧ wrote_one self call h h') →
    ∃ result h'', (handled call e, h') = (Ok result, h'')
    ∧ (ter_ok result = true ↔ ter_error_code result = None)
    ∧ (h'' = h ∨ (call_name call = "write_file" ∨ call_name call = "apply_patch")
       ∧ (ter_ok result = true ∨ ter_error_code result = Some TE_IO_ERROR)
       ∧ wrote_one self call h h'')) as Hr.
  { intros e h' He Heff. destruct (Hraise e He) as (result & -> & Hok & [code Hcode] & Hos).
    exists result, h'. split; [done|]. split; [by rewrite Hok, Hcode|].
    destruct Heff as [->|(? & Ho & ?)]; [by left|]. right. auto. }
  destruct (tool_arguments json_loads call) as [args|e] eqn:Hta.
  2:{ apply Hr; [done|by left]. }
  assert (Hone : ∀ h' path, touches path h h' →
    granted self (plain_arguments args) h path → wrote_one self call h h').
  { intros h' path Ht (Hres & relative & Hn & Hm & Hp). exists path. split; [done|]. split; [done|].
    exists relative. split_and!; [done|done|]. intros Hplain. by apply Hp, Hplain. }
  rewrite (lift_run _ _ args) by done.
  destruct (handler_of_cases _ _ _ Hh) as [(f & Hf & ->)|Hw].
  - unfold reading. destruct (f args h) as [j|e] eqn:He.
    + rewrite (tool_result_total raw) by done. eexists _, _. split; [done|]. split; [done|by left].
    + apply Hr; [|by left]. eapply known_exn_spec; [by eapply known_read_tool|done].
  - assert (wp (handler args) (λ j, effect (plain_arguments args) self h (Ok j))
      (λ e, effect (plain_arguments args) self h (Raise e)) h) as Hwp.
    { destruct Hw as [[_ ->]|[_ ->]]; [by apply write_file_effect|by apply apply_patch_effect]. }
    assert (call_name call = "write_file" ∨ call_name call = "apply_patch") as Hname by tauto.
    unfold wp in Hwp.
    destruct (handler args h) as [[j|e] h'].
    + rewrite (tool_result_total raw) by done. eexists _, _. split; [done|]. split; [done|].
      inversion Hwp; subst; [by left|]. right. eauto 10.
    + inversion Hwp as [? Hk| ? path ? Hp Ht Ho]; subst; [by apply Hr; [|left]|].
      apply Hr; [unfold known; by rewrite Ho|]. right. eauto.
Qed.

(** ** What the answers depend on *)

(** Two file systems with the same paths. *)
Record same_paths h1 h2 : Prop := {
  sp_resolve p : path_resolve h1 p = path_resolve h2 p;
  sp_symlink p : path_is_symlink h1 p = path_is_symlink h2 p;
  sp_exists p : path_exists h1 p = path_exists h2 p;
  sp_dir p : path_is_dir h1 p = path_is_dir h2 p;
  sp_file p : path_is_file h1 p = path_is_file h2 p;
  sp_rglob p : sorted_rglob h1 p = sorted_rglob h2 p;
}.
(** A file of the workspace, no link and outside [.git], whose path matches a
    scope of the contract. *)
Definition visible self h (path : string) : Prop :=
  path_is_symlink h path = false ∧ ∃ relative, plain relative ∧ ".." ∉ path_parts relative
  ∧ _is_internal relative = false ∧ _can_read self relative = true
  ∧ path_parts path = path_parts (root self) ++ path_parts relative.
Definition same_visible self h1 h2 : Prop :=
  ∀ path, visible self h1 path →
    stat_size h1 path = stat_size h2 path ∧ decoded_text h1 path = decoded_text h2 path.

Section two_hosts.
Context self h1 h2 (Hp : same_paths h1 h2) (Hv : same_visible self h1 h2)
  (Hroot : path_resolve h1 (root self) = root self).

Lemma same_walk parts current : walk_parts h1 current parts = walk_parts h2 current parts.
Proof using Hp.
  revert current. induction parts as [|part parts IH]; intros current; [done|]. cbn [walk_parts].
  by rewrite (sp_symlink _ _ Hp), IH.
Qed.
Lemma same_resolve text :
  resolve_path (tb_workspace self) text h1 = resolve_path (tb_workspace self) text h2.
Proof using Hp.
  unfold resolve_path. do 6 (destruct (check _ _ _); [|done]; cbn [mbind result_bind]).
  rewrite same_walk. destruct (walk_parts _ _ _); [|done]. cbn. by rewrite (sp_resolve _ _ Hp).
Qed.
Lemma same_directory text : _resolve_directory self text h1 = _resolve_directory self text h2.
Proof using Hp.
  unfold _resolve_directory. destruct (bool_decide _); [done|].
  rewrite same_resolve. destruct (_assert_not_internal _); [|done]. cbn.
  destruct (resolve_path _ _ h2) as [p|]; [|done]. cbn.
  by rewrite (sp_exists _ _ Hp), (sp_dir _ _ Hp).
Qed.
Lemma same_iter base : _iter_files self base h1 = _iter_files self base h2.
Proof using Hp.
  unfold _iter_files. rewrite (sp_rglob _ _ Hp). generalize 0%nat.
  induction (sorted_rglob h2 base) as [|p l IH]; intros n; [done|]. cbn [scan_files].
  by rewrite (sp_symlink _ _ Hp), (sp_file _ _ Hp), !IH.
Qed.
Lemma same_for_read text : _resolve_file_for_read self text h1 = _resolve_file_for_read self text h2.
Proof using Hp.
  unfold _resolve_file_for_read. rewrite same_resolve.
  destruct (_assert_not_internal _); [|done]. cbn.
  destruct (resolve_path _ _ h2) as [p|]; [|done]. cbn. by rewrite (sp_file _ _ Hp).
Qed.
Lemma for_read_visible text relative path : plain (strip text) →
  _resolve_file_for_read self text h1 = Ok (relative, path) → visible self h1 path.
Proof using Laws Hroot.
  unfold _resolve_file_for_read. intros Hplain Hr. apply bind_Ok_inv in Hr as ([] & Hint%check_Ok & Hr).
  apply bind_Ok_inv in Hr as (p & Hres & Hr). apply bind_Ok_inv in Hr as ([] & Hc%check_Ok & Hr).
  apply bind_Ok_inv in Hr as ([] & _ & Hr). injection Hr as <- <-. apply negb_true_iff in Hint.
  destruct (resolved_names self text h1 p) as [(Hok & _ & Heq) Hfix]; [done..|].
  split; [by apply resolve_no_link|]. exists (strip text).
  split_and!; [done|by apply text_ok_no_parent|done|done|]. rewrite Heq. apply path_parts_joined, path_parts_one.
Qed.
(** What a scan yields: files below the workspace that are no links. *)
Definition scanned (path : string) : Prop :=
  path_is_symlink h1 path = false ∧ _is_internal (relative_posix (root self) path) = false
  ∧ ∃ rest, path_parts path = path_parts (root self) ++ rest ∧ ".." ∉ rest.
Definition below_root (base : string) : Prop := ∃ rest, path_parts base = path_parts (root self) ++ rest ∧ ".." ∉ rest.
Lemma iter_scanned base : below_root base → Forall scanned (_iter_files self base h1).
Proof using Laws.
  intros (r & Hr & Hn). unfold _iter_files. assert (Hall : Forall (λ p, ∃ rest,
    path_parts p = path_parts (root self) ++ rest ∧ ".." ∉ rest) (sorted_rglob h1 base)).
  { apply Forall_forall. intros q (k & Hk & Hkn)%rglob_below. exists (r ++ k). rewrite Hk, Hr, (assoc_L (++)).
    split; [done|]. intros [?|?]%elem_of_app; [by apply Hn|by apply Hkn]. }
  generalize 0%nat. induction Hall as [|p l Hp' _ IH]; intros n; cbn [scan_files]; [constructor|].
  destruct (_ <=? _)%nat; [constructor|]. destruct (path_is_symlink h1 p) eqn:Hs; cbn [orb]; [apply IH|].
  destruct (negb (path_is_file h1 p)); [apply IH|].
  destruct (_is_internal (relative_posix (root self) p)) eqn:Hi; [apply IH|]. constructor; [by split_and!|apply IH].
Qed.
Lemma directory_below text base : _resolve_directory self text h1 = Ok base → below_root base.
Proof using Laws Hroot.
  unfold _resolve_directory. case_bool_decide.
  - intros [= <-]. exists []. rewrite app_nil_r. split; [done|apply not_elem_of_nil].
  - intros Hr. apply bind_Ok_inv in Hr as ([] & Hint%check_Ok & Hr). apply bind_Ok_inv in Hr as (d & Hd & Hr).
    apply bind_Ok_inv in Hr as ([] & _ & Hr). apply bind_Ok_inv in Hr as ([] & _ & [= <-]).
    apply negb_true_iff in Hint. destruct (resolved_names self text h1 d) as [(Hok & _ & ->) _]; [done..|].
    exists (path_parts (strip text)). split; [apply path_parts_joined, path_parts_one|by apply text_ok_no_parent].
Qed.
Lemma scanned_visible path : scanned path → _can_read self (relative_posix (root self) path) = true →
  visible self h1 path.
Proof.
  intros (Hs & Hi & rest & Hr & Hn) Hc.
  assert (Hone : Forall one_part rest).
  { pose proof (path_parts_one path) as Hall. rewrite Hr in Hall. by apply Forall_app in Hall as [_ ?]. }
  assert (Hrel : relative_posix (root self) path = join "/" rest) by (unfold relative_posix; by rewrite Hr, drop_app_length).
  rewrite Hrel in *. split; [done|]. exists (join "/" rest). unfold plain. rewrite path_parts_join by done.
  by split_and!.
Qed.
Lemma same_text path : visible self h1 path → read_text path h1 = read_text path h2.
Proof using Hv. intros Hvis. unfold read_text. by destruct (Hv path Hvis) as [_ ->]. Qed.
Lemma same_text_file path : visible self h1 path → _read_text_file path h1 = _read_text_file path h2.
Proof using Hv.
  intros Hvis. unfold _read_text_file. rewrite same_text by done. by destruct (Hv path Hvis) as [-> _].
Qed.
(** Reading the file of a request. *)
Lemma same_read {A} text (k : string → string → result A) : plain (strip text) →
  ('(relative, path) ← _resolve_file_for_read self text h1;
   source ← _read_text_file path h1; k relative source)
  = ('(relative, path) ← _resolve_file_for_read self text h2;
     source ← _read_text_file path h2; k relative source).
Proof using Hp Hv Laws Hroot.
  intros Hplain. destruct (_resolve_file_for_read self text h1) as [[relative path]|e] eqn:Hr;
    rewrite <- same_for_read, Hr; [|done].
  cbn. by rewrite same_text_file by by eapply for_read_visible.
Qed.
Lemma same_search args paths found : Forall scanned paths →
  search_files self h1 args paths found = search_files self h2 args paths found.
Proof using Hv.
  intros Hall. revert found. induction Hall as [|path paths Hsc _ IH]; intros found; [done|]. cbn [search_files].
  destruct (_can_read self (relative_posix (root self) path)) eqn:Hc; [|by apply IH]. cbn [negb].
  apply scanned_visible in Hc; [|done]. rewrite same_text by done. destruct (Hv path Hc) as [-> _].
  destruct (stat_size h2 path); [|done]. cbn [mbind result_bind].
  destruct (_ <? _); [by apply IH|]. destruct (read_text path h2) as [[text|]|]; cbn; [|by apply IH|done].
  destruct (search_lines _ _ _ _ _ _) as [? []]; [done|by apply IH].
Qed.
Lemma same_many max_results paths entries : Forall scanned paths →
  many_files self h1 max_results paths entries = many_files self h2 max_results paths entries.
Proof using Hv.
  intros Hall. revert entries. induction Hall as [|path paths Hsc _ IH]; intros entries; [done|]. cbn [many_files].
  destruct (_can_read self (relative_posix (root self) path)) eqn:Hc; [|by apply IH]. cbn [negb].
  apply scanned_visible in Hc; [|done]. rewrite same_text by done. destruct (Hv path Hc) as [-> _].
  destruct (stat_size h2 path); [|done]. cbn [mbind result_bind].
  destruct (_ <? _); [by apply IH|]. destruct (read_text path h2) as [[text|]|]; cbn; [|by apply IH|done].
  apply IH.
Qed.

Lemma read_args_plain args a : ReadFileArgs_validate lax_int args = Ok a → plain_arguments args → plain (strip (rf_path a)).
Proof.
  unfold ReadFileArgs_validate. intros H1. apply bind_Ok_inv in H1 as ([] & _ & H1).
  apply bind_Ok_inv in H1 as (path & Hpath & H1). apply bind_Ok_inv in H1 as (c & _ & [= <-]). by eapply str_field_plain.
Qed.
Lemma range_args_plain args a : ReadRangeArgs_validate lax_int args = Ok a → plain_arguments args → plain (strip (rr_path a)).
Proof.
  unfold ReadRangeArgs_validate, validate_range. intros H1. apply bind_Ok_inv in H1 as ([] & _ & H1).
  apply bind_Ok_inv in H1 as (path & Hpath & H1). apply bind_Ok_inv in H1 as (i & _ & H1).
  apply bind_Ok_inv in H1 as (j & _ & H1). apply bind_Ok_inv in H1 as ([] & _ & H1).
  apply bind_Ok_inv in H1 as ([] & _ & [= <-]). by eapply str_field_plain.
Qed.
Lemma symbol_args_plain args a : ReadSymbolArgs_validate args = Ok a → plain_arguments args → plain (strip (rs_path a)).
Proof.
  unfold ReadSymbolArgs_validate. intros H1. apply bind_Ok_inv in H1 as ([] & _ & H1).
  apply bind_Ok_inv in H1 as (path & Hpath & H1). apply bind_Ok_inv in H1 as (c & _ & H1).
  apply bind_Ok_inv in H1 as (y & _ & [= <-]). by eapply str_field_plain.
Qed.
Lemma files_args_plain args a : ReadFilesArgs_validate lax_int args = Ok a → plain_arguments args →
  Forall (λ p, plain (strip p)) (rfs_paths a).
Proof.
  unfold ReadFilesArgs_validate, reject_duplicate_paths. intros H1 Hplain. apply bind_Ok_inv in H1 as ([] & _ & H1).
  apply bind_Ok_inv in H1 as (values & Hvalues & H1). apply bind_Ok_inv in H1 as (paths & Hpaths & H1).
  apply bind_Ok_inv in H1 as (c & _ & [= <-]). apply bind_Ok_inv in Hpaths as ([] & _ & Hpaths).
  apply bind_Ok_inv in Hpaths as ([] & _ & [= <-]). unfold str_list_field in Hvalues.
  destruct (get_field "paths" args) as [[| | | |l|]|] eqn:Hg; try done.
  apply bind_Ok_inv in Hvalues as (vs & Hvs%map_result_Ok & Hvalues). apply bind_Ok_inv in Hvalues as ([] & _ & [= <-]).
  unfold plain_arguments, path_texts in Hplain. rewrite Hg in Hplain. apply Forall_app in Hplain as [_ Hplain].
  apply Forall_fmap. clear Hg. induction Hvs as [|j v l vs Hjv _ IH]; [constructor|].
  destruct j; try done. injection Hjv as ->. cbn in Hplain. apply Forall_cons in Hplain as [Hv' Hplain].
  constructor; [|by apply IH]. cbn. by rewrite strip_idemp.
Qed.
Lemma same_read_tool name f args : read_tool self name = Some f → plain_arguments args → f args h1 = f args h2.
Proof using Hp Hv Laws Hroot.
  unfold read_tool. cbn [find fst]. intros Hf Hplain.
  repeat (case_bool_decide; [injection Hf as <-; cbn [snd]|]); [..|done].
  - unfold _list_files, list_result. rewrite same_iter. destruct (ListFilesArgs_validate args); [|done].
    cbn [mbind result_bind]. destruct (bool_decide _); [done|]. rewrite same_resolve.
    destruct (_assert_not_internal _); [|done]. cbn.
    destruct (resolve_path _ _ h2) as [p|]; [|done]. cbn.
    by rewrite (sp_exists _ _ Hp), (sp_dir _ _ Hp), same_iter.
  - unfold _read_file, read_entry. destruct (ReadFileArgs_validate lax_int args) eqn:Ha; [|done].
    cbn [mbind result_bind]. apply (same_read _ (λ relative text, Ok (file_entry relative text _))).
    by eapply read_args_plain.
  - unfold _read_files. destruct (ReadFilesArgs_validate lax_int args) as [a|] eqn:Ha; [|done].
    cbn [mbind result_bind]. f_equal. pose proof (files_args_plain _ _ Ha Hplain) as Hall.
    induction Hall as [|p l Hpl _ IH]; [done|]. cbn [map_result].
    rewrite IH. f_equal. by apply (same_read _ (λ relative text, Ok (file_entry relative text _))).
  - unfold _read_range. destruct (ReadRangeArgs_validate lax_int args) as [a|] eqn:Ha; [|done].
    cbn [mbind result_bind]. destruct (or_tool_error _ _ _); [|done].
    apply (same_read _ (λ relative text, range_answer relative text _ _)). by eapply range_args_plain.
  - unfold _read_symbol. destruct (ReadSymbolArgs_validate args) as [a|] eqn:Ha; [|done].
    cbn [mbind result_bind]. rewrite <- same_for_read.
    destruct (_resolve_file_for_read self (rs_path a) h1) as [[relative path]|e] eqn:Hr; [|done].
    cbn [mbind result_bind]. by rewrite same_text_file by (eapply for_read_visible; [by eapply symbol_args_plain|done]).
  - unfold _search_code. destruct (SearchCodeArgs_validate lax_int args) as [a|]; [|done].
    cbn [mbind result_bind]. rewrite <- same_directory.
    destruct (_resolve_directory self (sa_directory a) h1) as [base|] eqn:Hb; [|done].
    cbn [mbind result_bind]. by rewrite <- same_iter, same_search by by eapply iter_scanned, directory_below.
  - unfold _search_code_many. destruct (SearchCodeManyArgs_validate lax_int args) as [a|]; [|done].
    cbn [mbind result_bind]. rewrite <- same_directory.
    destruct (_resolve_directory self (sm_directory a) h1) as [base|] eqn:Hb; [|done].
    cbn [mbind result_bind]. by rewrite <- same_iter, same_many by by eapply iter_scanned, directory_below.
Qed.
End two_hosts.
End facts.

(** ** Patches *)
Lemma read_text_file_Ok `{Files} path h source :
  _read_text_file path h = Ok source →
  ∃ text, decoded_text h path = Ok (Some text)
  ∧ source = of_chars (universal_newlines (chars text)).
Proof.
  unfold _read_text_file, read_text. intros Hr. apply bind_Ok_inv in Hr as (size & _ & Hr).
  apply bind_Ok_inv in Hr as ([] & _ & Hr).
  destruct (decoded_text h path) as [[text|]|]; try done. injection Hr as <-. by exists text.
Qed.
Lemma patched_Ok text old new updated :
  chars old ≠ [] → patched text old new = Ok updated →
  ∃ before after, chars text = before ++ chars old ++ after
  ∧ updated = of_chars (before ++ chars new ++ after)
  ∧ sole_occurrence (chars old) before after
  ∧ encoded_size (of_chars (before ++ chars new ++ after)) <= _MAX_FILE_BYTES.
Proof.
  intros Hold. unfold patched. intros Hr. apply bind_Ok_inv in Hr as ([] & _ & Hr).
  apply bind_Ok_inv in Hr as ([] & Hc & Hr). apply bind_Ok_inv in Hr as ([] & Hs & Hr).
  injection Hr as <-. apply check_Ok in Hc, Hs. apply Nat.eqb_eq in Hc.
  destruct (count_one (chars old) (chars new) (chars text) Hold Hc) as (before & after & Ht & Hr & Hso).
  rewrite Hr in *. exists before, after. split_and!; try done. by apply Z.leb_le.
Qed.
Lemma patch_old_text arguments args :
  ApplyPatchArgs_validate arguments = Ok args → chars (ap_old_text args) ≠ [].
Proof.
  unfold ApplyPatchArgs_validate. intros Hr. apply bind_Ok_inv in Hr as ([] & _ & Hr).
  apply bind_Ok_inv in Hr as (path & _ & Hr). apply bind_Ok_inv in Hr as (old & Hold & Hr).
  apply bind_Ok_inv in Hr as (new & _ & Hr). injection Hr as <-. cbn [ap_old_text].
  unfold str_field in Hold. destruct (get_field _ _) as [[]|]; try done.
  apply bind_Ok_inv in Hold as ([] & Hlen & Hold). injection Hold as ->.
  apply check_Ok, andb_true_iff in Hlen as [Hlen _]. unfold str_len in Hlen.
  intros He. by rewrite He in Hlen.
Qed.

(** ** What the tools guarantee *)

(** C37.  What a model can do with one tool call.  [execute] answers every
    validated call whose argument text [json.loads] decodes or rejects, with an
    error code exactly when the result is not [ok].  The call leaves the files
    as they were, or it is a [write_file] or [apply_patch] that succeeded or
    failed with [IO_ERROR], and it changed the text of no file but one inside
    the workspace, outside [.git] and reached over no symbolic link, whose path
    as the call spells it a writable pattern matches and no read-only one; if
    the call spells it plainly, without [.] or doubled slashes, that is the
    path of the file itself, so that the contract opens the file.  The root of
    the workspace is a resolved path, as its constructor makes it. *)
Theorem execute_confined `{FilesLaws} lax_int json_loads resolve_symbol self raw call h :
  ToolCall_new raw = Ok call → path_resolve h (root self) = root self →
  known_only (tool_arguments json_loads call) →
  ∃ result h', execute lax_int json_loads resolve_symbol self call h = (Ok result, h')
  ∧ (ter_ok result = true ↔ ter_error_code result = None)
  ∧ (h' = h
     ∨ (call_name call = "write_file" ∨ call_name call = "apply_patch")
       ∧ (ter_ok result = true ∨ ter_error_code result = Some TE_IO_ERROR)
       ∧ ∃ path, touches path h h' ∧ path_resolve h path = path
         ∧ (∃ relative, names_file self relative path ∧ may_write (tb_task self) relative)
         ∧ (plain_call json_loads call → writable_file self path)).
Proof.
  intros Hraw Hroot Hknown.
  destruct (execute_effect lax_int json_loads resolve_symbol self raw call h Hraw Hroot Hknown)
    as (result & h' & Hrun & Hcode & Heff).
  exists result, h'. split; [done|]. split; [done|].
  destruct Heff as [?|(Hname & Hok & path & Ht & Hg)]; [by left|right]. split; [done|]. split; [done|].
  exists path. pose proof (granted_writable _ _ _ _ Hg). destruct Hg as (Hres & relative & Hn & Hm & _).
  split_and!; [done|done|by exists relative|done].
Qed.

(** C38.  Confidentiality: the answer of a reading tool is a function of the
    paths of the repository and of the files the contract makes visible: files
    of the workspace, outside [.git], that are no links and whose path matches
    a scope of the contract.  On two repositories that agree on them, every
    call other than [write_file] and [apply_patch] that spells its paths
    plainly gets the same answer, and changes neither. *)
Theorem answers_depend_on_visible `{FilesLaws} lax_int json_loads resolve_symbol self call h1 h2 :
  same_paths h1 h2 → same_visible self h1 h2 → path_resolve h1 (root self) = root self →
  plain_call json_loads call → call_name call ≠ "write_file" → call_name call ≠ "apply_patch" →
  ∃ r, execute lax_int json_loads resolve_symbol self call h1 = (r, h1)
     ∧ execute lax_int json_loads resolve_symbol self call h2 = (r, h2).
Proof.
  intros Hp Hv Hroot Hplain Hw Ha. unfold execute.
  destruct (handler_of lax_int resolve_symbol self (call_name call)) as [handler|] eqn:Hh;
    [|by eexists].
  destruct (handler_of_cases _ _ _ _ _ Hh) as [(f & Hf & ->)|[[? _]|[? _]]]; [|done|done].
  destruct (tool_arguments json_loads call) as [args|e] eqn:Hargs; [|by eexists].
  rewrite !(lift_run _ _ args) by done. unfold reading.
  rewrite (same_read_tool lax_int resolve_symbol self h1 h2 Hp Hv Hroot _ _ _ Hf) by by apply Hplain.
  destruct (f args h2); by eexists.
Qed.

(** What an accepted patch does: [old_text] occurs in the text of the
    file, read with universal newlines, and no second time without overlap;
    the file then holds that text with this occurrence replaced, within the
    size limit, and the text of no other file changed. *)
Theorem apply_patch_correct `{FilesLaws} self arguments h answer h' :
  _apply_patch self arguments h = (Ok answer, h') →
  ∃ args relative path text before after,
    ApplyPatchArgs_validate arguments = Ok args ∧ relative = strip (ap_path args)
    ∧ may_write (tb_task self) relative
    ∧ path = path_resolve h (joined (root self) (path_parts relative))
    ∧ decoded_text h path = Ok (Some text)
    ∧ universal_newlines (chars text) = before ++ chars (ap_old_text args) ++ after
    ∧ sole_occurrence (chars (ap_old_text args)) before after
    ∧ decoded_text h' path
      = Ok (Some (of_chars (before ++ chars (ap_new_text args) ++ after)))
    ∧ encoded_size (of_chars (before ++ chars (ap_new_text args) ++ after)) <= _MAX_FILE_BYTES
    ∧ touches path h h'
    ∧ answer = JObj [("path", JStr relative); ("replacements", JInt 1)].
Proof.
  unfold _apply_patch, reading, lift. intros Hr.
  apply M_bind_Ok_inv in Hr as (args & ? & Hargs & Hr). injection Hargs as Hargs <-.
  apply M_bind_Ok_inv in Hr as ([relative path] & ? & Hpath & Hr). injection Hpath as Hpath <-.
  apply M_bind_Ok_inv in Hr as (source & ? & Htext & Hr). injection Htext as Htext <-.
  apply M_bind_Ok_inv in Hr as (updated & ? & Hup & Hr). injection Hup as Hup <-.
  apply M_bind_Ok_inv in Hr as ([] & ? & Hw & Hr). injection Hr as <- <-.
  apply resolve_for_write_Ok in Hpath as (-> & Hmay & _ & Hres).
  apply resolve_path_Ok in Hres as (_ & _ & Hres & _). rewrite strip_idemp in Hres.
  apply bind_Ok_inv in Htext as ([] & _ & Htext). apply read_text_file_Ok in Htext as (text & Hd & ->).
  apply patched_Ok in Hup as (before & after & Heq & -> & Hsole & Hsize);
    [|by eapply patch_old_text].
  rewrite chars_of_chars in Heq. exists args, (strip (ap_path args)), path, text, before, after.
  split_and!; try done.
  - by apply write_text_same in Hw.
  - intros q Hq. pose proof (write_text_other path (of_chars (before ++ chars (ap_new_text args) ++ after)) h q Hq) as Ho.
    by rewrite Hw in Ho.
Qed.

(** ** Concrete runs *)

(** A contract with a read-only file inside its writable directory. *)
Definition tool_task : TaskContract := {|
  tc_task_id := "t1"; tc_objective := "edit"; tc_readable_files := ["docs/**"];
  tc_writable_files := ["**"]; tc_readonly_files := ["src/config.py"];
  tc_acceptance_criteria := ["works"]; tc_verification_commands := ["pytest -q"];
  tc_max_retries := 1;
|}.
Definition toy_toolbox : RepositoryToolbox := {|
  tb_workspace := {| ws_root := "/w" |}; tb_task := tool_task; tb_max_read_range_lines := 400;
|}.
Definition toy_int (j : JSON) : option Z := match j with JInt n => Some n | _ => None end.
Definition toy_disk : toy_files :=
  list_to_map [("/w/src/config.py", "DEBUG = 0"); ("/w/src/main.py", "import config")].
(** A call with the arguments [fields]. *)
Definition toy_call (name : string) : ToolCall :=
  {| call_id := "call-1"; call_name := name; call_arguments := "{...}" |}.
Definition toy_execute (name : string) (fields : Arguments) : M toy_files ToolExecutionResult :=
  execute toy_int (λ _, Ok (JObj fields)) (λ _ _ _, None) toy_toolbox (toy_call name).
Definition write_arguments (path content : string) : Arguments :=
  [("path", JStr path); ("content", JStr content)].

Lemma execute_confined_witness :
  ∃ result h',
    execute toy_int (λ _, Ok (JObj (write_arguments "src/main.py" "import os"))) (λ _ _ _, None)
      toy_toolbox (toy_call "write_file") toy_disk = (Ok result, h')
    ∧ (ter_ok result = true ↔ ter_error_code result = None).
Proof.
  destruct (@execute_confined files_machine files_files files_laws toy_int (λ _, Ok (JObj (write_arguments "src/main.py" "import os")))
    (λ _ _ _, None) toy_toolbox (toy_call "write_file") (toy_call "write_file") toy_disk)
    as (result & h' & Hr & Hc & _); [reflexivity|reflexivity|exact I|].
  exists result, h'. split; [exact Hr|exact Hc].
Defined.

(** A task that may read [docs] and change one file. *)
Definition read_task : TaskContract := {|
  tc_task_id := "t2"; tc_objective := "read"; tc_readable_files := ["docs/**"];
  tc_writable_files := ["src/main.py"]; tc_readonly_files := []; tc_acceptance_criteria := ["works"];
  tc_verification_commands := ["pytest -q"]; tc_max_retries := 1;
|}.
Definition read_toolbox : RepositoryToolbox := {|
  tb_workspace := {| ws_root := "/w" |}; tb_task := read_task; tb_max_read_range_lines := 400;
|}.

(** The error code of a [write_file] at [path], and the read-only file
    afterwards. *)
Definition after_write (path : string) : option ToolErrorCode * option string :=
  let '(r, files) := toy_execute "write_file" (write_arguments path "DEBUG = 1") toy_disk in
  (match r with Ok r => ter_error_code r | Raise _ => Some TE_IO_ERROR end,
   files !! "/w/src/config.py").

(** The scope rules judge the spelling of a path, not the file it names.
    With [**] writable and [src/config.py] read-only, writing [src/config.py]
    is denied, but writing [./src/config.py] or [src//config.py] is accepted
    and overwrites the read-only file. *)
Theorem spelling_escapes_readonly :
  TaskContract_new tool_task = Ok tool_task
  ∧ after_write "src/config.py" = (Some TE_PATH_DENIED, Some "DEBUG = 0")
  ∧ after_write <$> ["./src/config.py"; "src//config.py"; "src/./config.py"]
    = replicate 3 (None, Some "DEBUG = 1").
Proof. split; [|split]; vm_compute; reflexivity. Qed.

(** The listing stops after a thousand files, read or not, and says nothing
    about it: when none of the first thousand files of the repository is
    visible to the task, [list_files] answers an empty, complete listing,
    whatever files follow. *)
Theorem scan_limit_is_silent `{Files} self h scanned rest :
  sorted_rglob h (root self) = scanned ++ rest → length scanned = _MAX_SCAN_FILES →
  Forall (λ path, path_is_symlink h path = false ∧ path_is_file h path = true
    ∧ _is_internal (relative_posix (root self) path) = false
    ∧ _can_read self (relative_posix (root self) path) = false) scanned →
  _list_files self [] h = Ok (listing [] false true).
Proof.
  intros Hl Hlen Hall.
  assert (∀ n paths, (n + length paths)%nat = _MAX_SCAN_FILES → Forall (λ path,
    path_is_symlink h path = false ∧ path_is_file h path = true
    ∧ _is_internal (relative_posix (root self) path) = false
    ∧ _can_read self (relative_posix (root self) path) = false) paths →
    scan_files self h n (paths ++ rest) = paths) as Hscan.
  { intros n paths Hn Hp. revert n Hn. induction Hp as [|p paths (Hs & Hf & Hi & _) _ IH]; intros n Hn.
    - assert ((_MAX_SCAN_FILES <=? n)%nat = true) as Hle by (apply Nat.leb_le; cbn [length] in Hn; lia).
      destruct rest as [|r rest']; cbn [app scan_files]; [done|]. by rewrite Hle.
    - assert ((_MAX_SCAN_FILES <=? n)%nat = false) as Hle
        by (apply Nat.leb_gt; cbn [length] in Hn; lia).
      cbn [app scan_files]. rewrite Hle, Hs, Hf, Hi. cbn [orb negb]. f_equal. apply IH.
      cbn [length] in Hn. lia. }
  assert (∀ paths files, (length files < _MAX_LIST_ENTRIES)%nat → Forall (λ path,
    path_is_symlink h path = false ∧ path_is_file h path = true
    ∧ _is_internal (relative_posix (root self) path) = false
    ∧ _can_read self (relative_posix (root self) path) = false) paths →
    list_loop self files paths = files) as Hloop.
  { intros paths files Hf Hp. induction Hp as [|p paths (_ & _ & _ & Hc) _ IH]; [done|].
    cbn [list_loop]. rewrite Hc. by rewrite (proj2 (Nat.leb_gt _ _) Hf). }
  unfold _list_files. change (ListFilesArgs_validate []) with (Ok {| lf_directory := "" |}).
  cbn [mbind result_bind lf_directory]. rewrite bool_decide_eq_true_2 by (cbn; left).
  unfold list_result, _iter_files. rewrite Hl, Hscan by done.
  by rewrite Hloop by (done || apply Nat.ltb_lt; reflexivity).
Qed.

(** A thousand files in front of the one that task may read. *)
Definition crowded_disk : toy_files :=
  <["/w/docs/z.md" := "found"]>
    (list_to_map ((λ n, ("/w/a/" +:+ str_of_Z (Z.of_nat n), "")) <$> seq 0 1000)).
Definition scanned_paths : list string := take 1000 (toy_listing crowded_disk "/w").
Lemma scan_limit_is_silent_witness :
  _list_files read_toolbox [] crowded_disk = Ok (listing [] false true)
  ∧ _can_read read_toolbox "docs/z.md" = true.
Proof.
  split; [|vm_compute; reflexivity].
  apply (@scan_limit_is_silent files_machine files_files read_toolbox crowded_disk scanned_paths
    ["/w/docs/z.md"]).
  - vm_compute. reflexivity.
  - vm_compute. reflexivity.
  - by_compute.
Defined.

(** [returned_end_line] of [read_range] counts the line after the last visible
    one when the text is cut right behind a line end: the first line of this
    file fills the 12000 characters. *)
Definition wide_text : string :=
  of_chars (replicate 11999 "x"%char ++ [Scope.newline; "y"%char; Scope.newline]).
Definition range_end (answer : result JSON) : option (JSON * nat * bool) :=
  match answer with
  | Ok (JObj fields) =>
      match get_field "returned_end_line" fields, get_field "content" fields with
      | Some e, Some (JStr s) => Some (e, str_len s, in_string "y"%char s)
      | _, _ => None
      end
  | _ => None
  end.

Example range_end_overshoots :
  range_end (range_answer "a.py" wide_text 1 2) = Some (JInt 2, 12000%nat, false).
Proof. vm_compute. reflexivity. Qed.

(** Two repositories that differ in a file outside the scopes of a task. *)
Definition narrow_task : TaskContract := {|
  tc_task_id := "t3"; tc_objective := "edit"; tc_readable_files := [];
  tc_writable_files := ["src/main.py"]; tc_readonly_files := []; tc_acceptance_criteria := ["works"];
  tc_verification_commands := ["pytest -q"]; tc_max_retries := 1;
|}.
Definition narrow_toolbox : RepositoryToolbox := {|
  tb_workspace := {| ws_root := "/w" |}; tb_task := narrow_task; tb_max_read_range_lines := 400;
|}.
Lemma narrow_reads relative : _can_read narrow_toolbox relative = true → relative = "src/main.py".
Proof.
  unfold _can_read. intros [p [Hp Hm]]%existsb_exists. destruct Hp as [<-|[]].
  apply matches_spec in Hm. apply (glob_literal (chars "src/main.py") []) in Hm as (s' & Hs & Hm).
  - inversion Hm; subst. rewrite app_nil_r in Hs. apply (f_equal of_chars) in Hs.
    by rewrite !of_chars_chars in Hs.
  - repeat constructor; by intros ?.
Qed.
Definition plain_disk : toy_files := {["/w/src/main.py" := "import config"]}.
Definition secret_disk (secret : string) : toy_files := <["/w/secret" := secret]> plain_disk.
Lemma secret_same_paths : @same_paths files_machine files_files (secret_disk "1") (secret_disk "2").
Proof.
  assert (∀ p, is_Some (secret_disk "1" !! p) ↔ is_Some (secret_disk "2" !! p)) as Hd.
  { intros p. unfold secret_disk. rewrite !lookup_insert_is_Some'. done. }
  assert ((map_to_list (secret_disk "1")).*1 = (map_to_list (secret_disk "2")).*1) as Hk
    by (vm_compute; reflexivity).
  assert (∀ p, toy_is_dir (secret_disk "1") p = toy_is_dir (secret_disk "2") p) as Hdir
    by (intros p; unfold toy_is_dir; by rewrite Hk).
  assert (∀ p, toy_is_file (secret_disk "1") p = toy_is_file (secret_disk "2") p) as Hfile
    by (intros p; unfold toy_is_file; by apply bool_decide_ext).
  assert (∀ p, toy_listing (secret_disk "1") p = toy_listing (secret_disk "2") p) as Hlist
    by (intros p; unfold toy_listing; by rewrite Hk).
  assert (∀ p, toy_exists (secret_disk "1") p = toy_exists (secret_disk "2") p) as Hex
    by (intros p; unfold toy_exists; by rewrite Hfile, Hdir).
  exact (@Build_same_paths files_machine files_files (secret_disk "1") (secret_disk "2")
    (λ _, eq_refl) (λ _, eq_refl) Hex Hdir Hfile Hlist).
Qed.
Lemma secret_same_visible :
  @same_visible files_machine files_files narrow_toolbox (secret_disk "1") (secret_disk "2").
Proof.
  intros path (_ & relative & _ & _ & _ & ->%narrow_reads & Hp).
  assert (path ≠ "/w/secret") as Hne by (intros ->; vm_compute in Hp; discriminate Hp).
  cbn. unfold toy_read, secret_disk. by rewrite !lookup_insert_ne by done.
Qed.
Definition search_arguments : Arguments := [("query", JStr "import")].
Lemma answers_depend_on_visible_witness :
  ∃ r,
    execute toy_int (λ _, Ok (JObj search_arguments)) (λ _ _ _, None) narrow_toolbox
      (toy_call "search_code") (secret_disk "1") = (r, secret_disk "1")
    ∧ execute toy_int (λ _, Ok (JObj search_arguments)) (λ _ _ _, None) narrow_toolbox
      (toy_call "search_code") (secret_disk "2") = (r, secret_disk "2").
Proof.
  apply (@answers_depend_on_visible files_machine files_files files_laws);
    [apply secret_same_paths|apply secret_same_visible|reflexivity| |discriminate|discriminate].
  intros args Hargs. vm_compute in Hargs. injection Hargs as <-. constructor.
Defined.

(** A patch of a file with Windows line ends: both lines change. *)
Definition windows_text : string :=
  of_chars (chars "a = 1" ++ [ascii_of_nat 13; Scope.newline] ++ chars "b = 2"
            ++ [ascii_of_nat 13; Scope.newline]).
Definition patch_arguments : Arguments :=
  [("path", JStr "src/main.py"); ("old_text", JStr "a = 1"); ("new_text", JStr "a = 3")].
Definition windows_disk : toy_files := {["/w/src/main.py" := windows_text]}.
Definition patched_disk : toy_files :=
  {["/w/src/main.py" := of_chars (chars "a = 3" ++ [Scope.newline] ++ chars "b = 2"
                                  ++ [Scope.newline])]}.
Definition patch_answer : JSON := JObj [("path", JStr "src/main.py"); ("replacements", JInt 1)].
Lemma apply_patch_correct_witness :
  _apply_patch narrow_toolbox patch_arguments windows_disk = (Ok patch_answer, patched_disk)
  ∧ ∃ path text, decoded_text windows_disk path = Ok (Some text)
    ∧ touches path windows_disk patched_disk.
Proof.
  assert (_apply_patch narrow_toolbox patch_arguments windows_disk
          = (Ok patch_answer, patched_disk)) as Hr by (vm_compute; reflexivity).
  split; [exact Hr|].
  destruct (@apply_patch_correct files_machine files_files files_laws _ _ _ _ _ Hr)
    as (args & relative & path & text & before & after & _ & _ & _ & _ & Ht & _ & _ & _ & _ & Ho & _).
  exists path, text. split; [exact Ht|exact Ho].
Defined.
