(* ===== verification/Retention.v ===== *)
(** * Retention: the bounded message history of an agent

    [context/retention.py]: [AgentContextRetention] keeps the last groups of
    tool calls and results word for word, within token budgets, and folds the
    rest into a working state.  The rendering of the working state
    ([model_dump_json]), [json.loads], [str] of a decoded value and SHA-256
    are parameters. *)
From stdpp Require Import options.
From S2P Require Import Prelude Contracts Json RunModels AgentModels Tools.
Open Scope Z_scope.

(** [json.dumps(value, ensure_ascii=False, separators=(",", ":"))] *)
Fixpoint json_compact (j : JSON) : string :=
  match j with
  | JNull => "null"
  | JBool true => "true"
  | JBool false => "false"
  | JInt n => str_of_Z n
  | JStr s => quoted s
  | JList l => "[" +:+ join "," (json_compact <$> l) +:+ "]"
  | JObj fs => "{" +:+ join "," ((λ f, quoted f.1 +:+ ":" +:+ json_compact f.2) <$> fs) +:+ "}"
  end.

Definition ToolErrorCode_value (c : ToolErrorCode) : string :=
  match c with
  | TE_INVALID_ARGUMENTS => "INVALID_ARGUMENTS"
  | TE_PATH_DENIED => "PATH_DENIED"
  | TE_NOT_FOUND => "NOT_FOUND"
  | TE_AMBIGUOUS_PATCH => "AMBIGUOUS_PATCH"
  | TE_IO_ERROR => "IO_ERROR"
  | TE_UNKNOWN_TOOL => "UNKNOWN_TOOL"
  end.

(** [isinstance(value, int)], which holds of [bool] too, and truthiness. *)
Definition is_int (j : JSON) : bool := match j with JInt _ | JBool _ => true | _ => false end.
Definition json_truthy (j : JSON) : bool :=
  match j with
  | JNull => false
  | JBool b => b
  | JInt n => negb (n =? 0)
  | JStr s => negb (bool_decide (s = ""))
  | JList l => match l with [] => false | _ => true end
  | JObj fs => match fs with [] => false | _ => true end
  end.
Definition str_of_field (key : string) (fs : list (string * JSON)) : option string :=
  match get_field key fs with Some (JStr s) => Some s | _ => None end.

(** ** Records *)
Record ToolObservationDigest : Set := {
  ob_tool : string;
  ob_path : option string;
  ob_symbol : option string;
  ob_requested_range : option string;
  ob_returned_range : option string;
  ob_source_hash : string;
  ob_truncated : bool;
  ob_error : option string;
  ob_search_hits : list string;
}.
Definition at_most (hi : nat) (o : option string) : bool :=
  match o with Some s => (str_len s <=? hi)%nat | None => true end.
Definition ToolObservationDigest_new (raw : ToolObservationDigest) : result ToolObservationDigest :=
  valid_if (str_between 1 128 (ob_tool raw)) "tool" ;;
  valid_if (at_most 500 (ob_path raw)) "path" ;;
  valid_if (at_most 300 (ob_symbol raw)) "symbol" ;;
  valid_if (at_most 64 (ob_requested_range raw)) "requested_range" ;;
  valid_if (at_most 64 (ob_returned_range raw)) "returned_range" ;;
  valid_if (is_sha256_hex (ob_source_hash raw)) "source_hash" ;;
  valid_if (at_most 128 (ob_error raw)) "error" ;;
  valid_if (length (ob_search_hits raw) <=? 5)%nat "search_hits" ;;
  Ok raw.

Record StateBuilder : Type := {
  sb_task_id : string;
  sb_inspected_files : gset string;
  sb_inspected_file_hashes : gmap string string;
  sb_relevant_symbols : gset string;
  sb_observed_ranges : gset string;
  sb_changed_files : gset string;
  sb_confirmed_facts : list string;
  sb_recent_errors : list string;
  sb_observations : list ToolObservationDigest;
}.
Record AgentWorkingState : Set := {
  ws_task_id : string;
  ws_inspected_files : list string;
  ws_inspected_file_hashes : list string;
  ws_relevant_symbols : list string;
  ws_observed_ranges : list string;
  ws_changed_files : list string;
  ws_confirmed_facts : list string;
  ws_pending_actions : list string;
  ws_unresolved_questions : list string;
  ws_recent_errors : list string;
  ws_observations : list ToolObservationDigest;
}.
Definition AgentWorkingState_new (raw : AgentWorkingState) : result AgentWorkingState :=
  valid_if (str_between 1 128 (ws_task_id raw)) "task_id" ;;
  valid_if (forallb (λ l, length l <=? 100)%nat
    [ws_inspected_files raw; ws_inspected_file_hashes raw; ws_relevant_symbols raw;
     ws_observed_ranges raw; ws_changed_files raw]) "inspected_files" ;;
  valid_if (forallb (λ l, length l <=? 30)%nat
    [ws_confirmed_facts raw; ws_pending_actions raw; ws_unresolved_questions raw])
    "confirmed_facts" ;;
  valid_if (length (ws_recent_errors raw) <=? 12)%nat "recent_errors" ;;
  valid_if (length (ws_observations raw) <=? 40)%nat "observations" ;;
  Ok raw.

(** [values[-n:]] for a positive [n]. *)
Definition last_n {A} (n : nat) (l : list A) : list A := drop (length l - n) l.

(** [_StateBuilder.snapshot] *)
Definition snapshot (self : StateBuilder) : result AgentWorkingState :=
  AgentWorkingState_new {|
    ws_task_id := sb_task_id self;
    ws_inspected_files := take 100 (sorted_set (sb_inspected_files self));
    ws_inspected_file_hashes :=
      take 100 ((λ path, path +:+ ":" +:+ default "" (sb_inspected_file_hashes self !! path))
                <$> sorted_set (dom (sb_inspected_file_hashes self)));
    ws_relevant_symbols := take 100 (sorted_set (sb_relevant_symbols self));
    ws_observed_ranges := take 100 (sorted_set (sb_observed_ranges self));
    ws_changed_files := take 100 (sorted_set (sb_changed_files self));
    ws_confirmed_facts := last_n 30 (sb_confirmed_facts self);
    ws_pending_actions := [];
    ws_unresolved_questions := [];
    ws_recent_errors := last_n 12 (sb_recent_errors self);
    ws_observations := last_n 40 (sb_observations self) |}.

Record ToolCallGroup : Set := {
  tg_assistant : AgentMessage;
  tg_results : list AgentMessage;
}.
Record AgentContextRetention : Type := {
  rt_base_messages : list AgentMessage;
  rt_max_retained_tool_groups : Z;
  rt_groups : list ToolCallGroup;
  rt_compacted_code_mutation_group_count : Z;
  rt_compacted_tool_result_group_count : Z;
  rt_tool_result_truncation_count : Z;
  rt_max_single_tool_result_tokens : Z;
  rt_max_tool_results_per_turn_tokens : Z;
  rt_state : StateBuilder;
}.
Definition AgentContextRetention_init (task_id : string) (base_messages : list AgentMessage)
    (max_groups max_single max_turn : Z) : result AgentContextRetention :=
  check ((1 <=? max_groups) && (max_groups <=? 4)) ValueError
    "max_retained_tool_groups must be between 1 and 4" ;;
  check (128 <=? max_single) ValueError "max_single_tool_result_tokens must be at least 128" ;;
  check (max_single <=? max_turn) ValueError
    "per-turn tool-result budget must cover one tool result" ;;
  Ok {| rt_base_messages := base_messages; rt_max_retained_tool_groups := max_groups;
        rt_groups := []; rt_compacted_code_mutation_group_count := 0;
        rt_compacted_tool_result_group_count := 0; rt_tool_result_truncation_count := 0;
        rt_max_single_tool_result_tokens := max_single;
        rt_max_tool_results_per_turn_tokens := max_turn;
        rt_state := {| sb_task_id := task_id; sb_inspected_files := ∅;
                       sb_inspected_file_hashes := ∅; sb_relevant_symbols := ∅;
                       sb_observed_ranges := ∅; sb_changed_files := ∅; sb_confirmed_facts := [];
                       sb_recent_errors := []; sb_observations := [] |} |}.

Abbreviation RM := (M AgentContextRetention).
Implicit Types self : AgentContextRetention.

Definition compacted_group_count self : Z :=
  rt_compacted_code_mutation_group_count self + rt_compacted_tool_result_group_count self
  + Z.max 0 (Z.of_nat (length (rt_groups self)) - rt_max_retained_tool_groups self).

(** The assignments of the methods to the fields. *)
Definition with_state (f : StateBuilder → StateBuilder) : RM unit := modify (λ self, {|
  rt_base_messages := rt_base_messages self;
  rt_max_retained_tool_groups := rt_max_retained_tool_groups self; rt_groups := rt_groups self;
  rt_compacted_code_mutation_group_count := rt_compacted_code_mutation_group_count self;
  rt_compacted_tool_result_group_count := rt_compacted_tool_result_group_count self;
  rt_tool_result_truncation_count := rt_tool_result_truncation_count self;
  rt_max_single_tool_result_tokens := rt_max_single_tool_result_tokens self;
  rt_max_tool_results_per_turn_tokens := rt_max_tool_results_per_turn_tokens self;
  rt_state := f (rt_state self) |}).
(** The counters of code mutations, of result groups and of truncations. *)
Definition count_more (mutations groups truncations : Z) : RM unit := modify (λ self, {|
  rt_base_messages := rt_base_messages self;
  rt_max_retained_tool_groups := rt_max_retained_tool_groups self; rt_groups := rt_groups self;
  rt_compacted_code_mutation_group_count :=
    rt_compacted_code_mutation_group_count self + mutations;
  rt_compacted_tool_result_group_count := rt_compacted_tool_result_group_count self + groups;
  rt_tool_result_truncation_count := rt_tool_result_truncation_count self + truncations;
  rt_max_single_tool_result_tokens := rt_max_single_tool_result_tokens self;
  rt_max_tool_results_per_turn_tokens := rt_max_tool_results_per_turn_tokens self;
  rt_state := rt_state self |}).
Definition append_group (g : ToolCallGroup) : RM unit := modify (λ self, {|
  rt_base_messages := rt_base_messages self;
  rt_max_retained_tool_groups := rt_max_retained_tool_groups self;
  rt_groups := rt_groups self ++ [g];
  rt_compacted_code_mutation_group_count := rt_compacted_code_mutation_group_count self;
  rt_compacted_tool_result_group_count := rt_compacted_tool_result_group_count self;
  rt_tool_result_truncation_count := rt_tool_result_truncation_count self;
  rt_max_single_tool_result_tokens := rt_max_single_tool_result_tokens self;
  rt_max_tool_results_per_turn_tokens := rt_max_tool_results_per_turn_tokens self;
  rt_state := rt_state self |}).

(** [self._token_estimator.billable_token_estimate(text)] *)
Definition estimate (text : string) : result Z :=
  billable_token_estimate default_estimator (code_points text).

Definition preview_suffix : string :=
  of_chars [Scope.newline]
  +:+ "[DevFlow truncated this tool result for the Agent context; "
  +:+ "use a scoped read/search command for more detail.]".
(** The binary search of [_bounded_preview]: the range [low, high] shrinks, so
    its length is fuel enough. *)
Fixpoint preview_search (fuel : nat) (content : string) (limit low high : Z) : result Z :=
  if low <? high then
    match fuel with
    | O => raise FuelExhausted "while low < high"
    | S fuel =>
        let middle := (low + high + 1) / 2 in
        tokens ← estimate (str_take (Z.to_nat middle) content +:+ preview_suffix);
        if tokens <=? limit then preview_search fuel content limit middle high
        else preview_search fuel content limit low (middle - 1)
    end
  else Ok low.
Definition _bounded_preview (content : string) (limit : Z) : result string :=
  low ← preview_search (str_len content) content limit 0 (Z.of_nat (str_len content));
  Ok (if low =? 0 then preview_suffix else str_take (Z.to_nat low) content +:+ preview_suffix).

(** [result.model_dump(mode="json")] with its content replaced. *)
Definition result_payload (r : ToolExecutionResult) (content : string) : JSON :=
  JObj [("tool_call_id", JStr (ter_tool_call_id r)); ("name", JStr (ter_name r));
        ("ok", JBool (ter_ok r)); ("content", JStr content);
        ("error_code", match ter_error_code r with
                       | Some c => JStr (ToolErrorCode_value c)
                       | None => JNull
                       end)].
Definition omitted_text : string :=
  "[DevFlow omitted this tool result from the Agent context because the "
  +:+ "per-turn result budget is exhausted; use a scoped read/search command.]".
Definition result_message (r : ToolExecutionResult) (content : string) : result AgentMessage :=
  AgentMessage_new {| am_role := MR_TOOL; am_content := json_compact (result_payload r content);
                      am_tool_call_id := Some (ter_tool_call_id r); am_tool_calls := [] |}.
Definition _bounded_tool_result_message (r : ToolExecutionResult) (remaining_tokens : Z)
    : RM AgentMessage :=
  self ← get;
  envelope_tokens ← lift (estimate (json_compact (result_payload r "")));
  let content_limit := Z.min (rt_max_single_tool_result_tokens self)
                         (Z.max 0 (remaining_tokens - envelope_tokens)) in
  if content_limit <? 128 then
    count_more 0 0 1 ;;
    lift (result_message r omitted_text)
  else
    original ← lift (estimate (ter_content r));
    if content_limit <? original then
      preview ← lift (_bounded_preview (ter_content r) content_limit);
      count_more 0 0 1 ;;
      lift (result_message r preview)
    else lift (result_message r (ter_content r)).

Definition _is_successful_code_mutation (calls : list ToolCall)
    (results : list ToolExecutionResult) : bool :=
  existsb (λ '(call, r), bool_decide (call_name call ∈ ["write_file"; "apply_patch"]) && ter_ok r)
    (zip calls results).

Section retention.
Context (json_loads : string → result JSON) (py_str : JSON → string) (sha256 : string → string)
  (working_state_json : AgentWorkingState → string).

(** *** Observations *)
Definition _source_hash (call : ToolCall) (r : ToolExecutionResult) : result string :=
  let of_content := sha256 (encode_utf8 (ter_content r)) in
  if ter_ok r && bool_decide (call_name call ∈ ["write_file"; "apply_patch"]) then
    match json_loads (call_arguments call) with
    | Ok (JObj fs) =>
        let source := match get_field "content" fs with
                      | Some j => Some j
                      | None => get_field "new_text" fs
                      end in
        Ok (match source with Some (JStr s) => sha256 (encode_utf8 s) | _ => of_content end)
    | Ok _ => Ok of_content
    | Raise e => if bool_decide (exn_kind e = JSONDecodeError) then Ok of_content else Raise e
    end
  else Ok of_content.
Definition _range (payload : list (string * JSON)) (prefix : string) : option string :=
  match get_field (prefix +:+ "_start_line") payload, get_field (prefix +:+ "_end_line") payload with
  | Some start, Some last =>
      if is_int start && is_int last then Some (py_str start +:+ "-" +:+ py_str last) else None
  | _, _ => None
  end.
Definition search_hit (item : JSON) : option string :=
  match item with
  | JObj fs =>
      match get_field "path" fs with
      | Some (JStr path) => Some (path +:+ ":" +:+ py_str (default (JStr "?") (get_field "line" fs)))
      | _ => None
      end
  | _ => None
  end.
Definition _search_hits (payload : list (string * JSON)) : list string :=
  match get_field "matches" payload with
  | Some (JList l) => omap search_hit (take 5 l)
  | _ => []
  end.

Definition add_fact (fact : string) : StateBuilder → StateBuilder := λ b, {|
  sb_task_id := sb_task_id b; sb_inspected_files := sb_inspected_files b;
  sb_inspected_file_hashes := sb_inspected_file_hashes b;
  sb_relevant_symbols := sb_relevant_symbols b; sb_observed_ranges := sb_observed_ranges b;
  sb_changed_files := sb_changed_files b; sb_confirmed_facts := sb_confirmed_facts b ++ [fact];
  sb_recent_errors := sb_recent_errors b; sb_observations := sb_observations b |}.
Definition add_recent_error (error : string) : StateBuilder → StateBuilder := λ b, {|
  sb_task_id := sb_task_id b; sb_inspected_files := sb_inspected_files b;
  sb_inspected_file_hashes := sb_inspected_file_hashes b;
  sb_relevant_symbols := sb_relevant_symbols b; sb_observed_ranges := sb_observed_ranges b;
  sb_changed_files := sb_changed_files b; sb_confirmed_facts := sb_confirmed_facts b;
  sb_recent_errors := sb_recent_errors b ++ [error]; sb_observations := sb_observations b |}.
Definition add_observation (o : ToolObservationDigest) : StateBuilder → StateBuilder := λ b, {|
  sb_task_id := sb_task_id b; sb_inspected_files := sb_inspected_files b;
  sb_inspected_file_hashes := sb_inspected_file_hashes b;
  sb_relevant_symbols := sb_relevant_symbols b; sb_observed_ranges := sb_observed_ranges b;
  sb_changed_files := sb_changed_files b; sb_confirmed_facts := sb_confirmed_facts b;
  sb_recent_errors := sb_recent_errors b; sb_observations := sb_observations b ++ [o] |}.
Definition add_inspected (path digest : string) : StateBuilder → StateBuilder := λ b, {|
  sb_task_id := sb_task_id b; sb_inspected_files := {[path]} ∪ sb_inspected_files b;
  sb_inspected_file_hashes := <[path := digest]> (sb_inspected_file_hashes b);
  sb_relevant_symbols := sb_relevant_symbols b; sb_observed_ranges := sb_observed_ranges b;
  sb_changed_files := sb_changed_files b; sb_confirmed_facts := sb_confirmed_facts b;
  sb_recent_errors := sb_recent_errors b; sb_observations := sb_observations b |}.
(** The symbols, ranges and changed files of one observation. *)
Definition add_marks (symbols ranges changed : gset string) : StateBuilder → StateBuilder := λ b, {|
  sb_task_id := sb_task_id b; sb_inspected_files := sb_inspected_files b;
  sb_inspected_file_hashes := sb_inspected_file_hashes b;
  sb_relevant_symbols := symbols ∪ sb_relevant_symbols b;
  sb_observed_ranges := ranges ∪ sb_observed_ranges b;
  sb_changed_files := changed ∪ sb_changed_files b; sb_confirmed_facts := sb_confirmed_facts b;
  sb_recent_errors := sb_recent_errors b; sb_observations := sb_observations b |}.

(** A digest without the optional fields. *)
Definition bare_digest (tool source_hash : string) (error : option string) : ToolObservationDigest := {|
  ob_tool := tool; ob_path := None; ob_symbol := None; ob_requested_range := None;
  ob_returned_range := None; ob_source_hash := source_hash; ob_truncated := false;
  ob_error := error; ob_search_hits := [] |}.
Definition observe_digest (raw : ToolObservationDigest) : RM unit :=
  o ← lift (ToolObservationDigest_new raw);
  with_state (add_observation o).

Definition inspect_item (source_hash : string) (item : JSON) : RM unit :=
  match item with
  | JObj fs =>
      match str_of_field "path" fs with
      | Some path => with_state (add_inspected path source_hash)
      | None => mret tt
      end
  | _ => mret tt
  end.
(** The files of an answer: those of [read_files], or its one path. *)
Definition observe_files (name source_hash : string) (payload : list (string * JSON)) : RM unit :=
  if bool_decide (name = "read_files") then
    match get_field "files" payload with
    | Some (JList items) => for_each items (inspect_item source_hash)
    | Some (JNull | JBool _ | JInt _) => throw TypeError "object is not iterable"
    | _ => mret tt
    end
  else
    match str_of_field "path" payload with
    | Some path => with_state (add_inspected path source_hash)
    | None => mret tt
    end.
Definition observed_range (payload : list (string * JSON)) : option string :=
  match get_field "returned_start_line" payload, get_field "returned_end_line" payload with
  | Some start, Some last =>
      if is_int start && is_int last then
        Some (py_str (default (JStr "") (get_field "path" payload)) +:+ ":" +:+ py_str start
              +:+ "-" +:+ py_str last)
      else None
  | _, _ => None
  end.
Definition option_to_gset (o : option string) : gset string :=
  match o with Some s => {[s]} | None => ∅ end.
Definition observe_payload (call : ToolCall) (source_hash : string) (payload : list (string * JSON))
    : RM unit :=
  observe_files (call_name call) source_hash payload ;;
  with_state (add_marks (option_to_gset (str_of_field "symbol" payload))
    (option_to_gset (observed_range payload))
    (if bool_decide (call_name call ∈ ["write_file"; "apply_patch"])
     then option_to_gset (str_of_field "path" payload) else ∅)) ;;
  (if str_startswith "search_code" (call_name call)
   then with_state (add_fact (call_name call +:+ " completed")) else mret tt) ;;
  observe_digest {|
    ob_tool := call_name call; ob_path := str_of_field "path" payload;
    ob_symbol := str_of_field "symbol" payload; ob_requested_range := _range payload "requested";
    ob_returned_range := _range payload "returned"; ob_source_hash := source_hash;
    ob_truncated := json_truthy (default (JBool false) (get_field "truncated" payload));
    ob_error := None; ob_search_hits := _search_hits payload |}.
Definition _observe (call : ToolCall) (r : ToolExecutionResult) : RM unit :=
  source_hash ← lift (_source_hash call r);
  if negb (ter_ok r) then
    let code := match ter_error_code r with Some c => ToolErrorCode_value c | None => "ERROR" end in
    with_state (add_recent_error (call_name call +:+ ": " +:+ code)) ;;
    observe_digest (bare_digest (call_name call) source_hash (Some code))
  else
    match json_loads (ter_content r) with
    | Raise e =>
        if bool_decide (exn_kind e = JSONDecodeError) then
          with_state (add_fact (call_name call +:+ " completed")) ;;
          observe_digest (bare_digest (call_name call) source_hash None)
        else lift (Raise e)
    | Ok (JObj payload) => observe_payload call source_hash payload
    | Ok _ => mret tt
    end.

(** *** Groups *)

(** The loop over the results: each message takes its share of the budget of
    the turn. *)
Fixpoint bounded_messages (remaining : Z) (results : list ToolExecutionResult)
    : RM (list AgentMessage) :=
  match results with
  | [] => mret []
  | r :: results =>
      message ← _bounded_tool_result_message r remaining;
      used ← lift (estimate (am_content message));
      messages ← bounded_messages (Z.max 0 (remaining - used)) results;
      mret (message :: messages)
  end.
Definition sum_estimates (messages : list AgentMessage) : result Z :=
  fold_result (λ total m, n ← estimate (am_content m); Ok (total + n)) 0 messages.
Definition add_group (assistant : AgentMessage) (calls : list ToolCall)
    (results : list ToolExecutionResult) : RM bool :=
  ensure (bool_decide (am_role assistant = MR_ASSISTANT)
          && negb (bool_decide (length (am_tool_calls assistant) = 0%nat))) ValueError
    "a tool group must start with an assistant tool-call message" ;;
  ensure (bool_decide (call_id <$> calls = call_id <$> am_tool_calls assistant)) ValueError
    "tool group calls must match assistant tool calls" ;;
  ensure (bool_decide (ter_tool_call_id <$> results = call_id <$> calls)) ValueError
    "tool group results must match calls in order" ;;
  self ← get;
  messages ← bounded_messages (rt_max_tool_results_per_turn_tokens self) results;
  for_each (zip calls results) (λ '(call, r), _observe call r) ;;
  result_message_tokens ← lift (sum_estimates messages);
  if rt_max_tool_results_per_turn_tokens self <? result_message_tokens then
    count_more 0 1 0 ;; mret true
  else if _is_successful_code_mutation calls results then
    count_more 1 0 0 ;; mret true
  else
    append_group {| tg_assistant := assistant; tg_results := messages |} ;; mret false.

Definition group_messages (g : ToolCallGroup) : list AgentMessage := tg_assistant g :: tg_results g.
Definition messages self : result (list AgentMessage) :=
  let retained := last_n (Z.to_nat (rt_max_retained_tool_groups self)) (rt_groups self) in
  state ← (if compacted_group_count self =? 0 then Ok []
           else
             working ← snapshot (rt_state self);
             m ← AgentMessage_new {|
               am_role := MR_USER;
               am_content := "DevFlow compact working state (runtime metadata, not evidence):"
                             +:+ of_chars [Scope.newline] +:+ working_state_json working;
               am_tool_call_id := None; am_tool_calls := [] |};
             Ok [m]);
  Ok (rt_base_messages self ++ state ++ mjoin (group_messages <$> retained)).
End retention.
