(* ===== verification/RetentionFacts.v ===== *)
(** * RetentionFacts: the history an agent is shown stays valid and bounded

    Whatever the tools answered, the retained groups form a message sequence
    a provider accepts, each within the token budget of a turn, and a
    truncated result fits the budget it was cut for. *)
From stdpp Require Import options.
From S2P Require Import Prelude Contracts Json RunModels AgentModels Tools Retention.
Open Scope Z_scope.

(** ** The preview of a long result *)

(** [n] characters of [content] followed by the note that the rest is cut. *)
Definition preview_of (content : string) (n : Z) : string :=
  str_take (Z.to_nat n) content +:+ preview_suffix.

(** The search finds a prefix that fits, one that cannot be extended by one
    character (unless it is the longest allowed). *)
Lemma preview_search_spec fuel content limit : ∀ low high, 0 <= low <= high →
  high - low <= Z.of_nat fuel →
  (low = 0 ∨ ∃ t, estimate (preview_of content low) = Ok t ∧ t <= limit) →
  match preview_search fuel content limit low high with
  | Ok n => low <= n <= high
      ∧ (n = 0 ∨ ∃ t, estimate (preview_of content n) = Ok t ∧ t <= limit)
      ∧ (n = high ∨ ∃ t, estimate (preview_of content (n + 1)) = Ok t ∧ limit < t)
  | Raise e => ∃ text, estimate text = Raise e
  end.
Proof.
  induction fuel as [|fuel IH]; intros low high Hr Hf Hlow; cbn [preview_search].
  - rewrite (proj2 (Z.ltb_ge _ _)) by lia. split; [lia|]. split; [done|]. left. lia.
  - destruct (low <? high) eqn:Hlt; [|to_prop; split; [lia|]; split; [done|]; left; lia].
    to_prop. set (middle := (low + high + 1) / 2).
    assert (low < middle <= high) as Hm
      by (subst middle; pose proof (Z.div_mod (low + high + 1) 2);
          pose proof (Z.mod_pos_bound (low + high + 1) 2); lia).
    fold (preview_of content middle).
    destruct (estimate (preview_of content middle)) as [t|e] eqn:He; [|by exists (preview_of content middle)].
    cbn [mbind result_bind]. destruct (t <=? limit) eqn:Ht; to_prop.
    + specialize (IH middle high ltac:(lia) ltac:(lia) (or_intror (ex_intro _ t (conj He Ht)))).
      destruct (preview_search fuel content limit middle high) as [n|e]; [|done].
      destruct IH as (? & ? & ?). split; [lia|done].
    + specialize (IH low (middle - 1) ltac:(lia) ltac:(lia) Hlow).
      destruct (preview_search fuel content limit low (middle - 1)) as [n|e]; [|done].
      destruct IH as (? & Hn & Hnext). split; [lia|]. split; [done|]. right.
      destruct Hnext as [->|?]; [|done]. exists t. by rewrite Z.sub_add.
Qed.
Lemma suffix_estimate : estimate preview_suffix = Ok 37.
Proof. vm_compute. reflexivity. Qed.

(** ** The history *)

(** What no method changes but [add_group]'s last step. *)
Record same_history (a b : AgentContextRetention) : Prop := {
  sh_base : rt_base_messages b = rt_base_messages a;
  sh_max : rt_max_retained_tool_groups b = rt_max_retained_tool_groups a;
  sh_groups : rt_groups b = rt_groups a;
  sh_mutations : rt_compacted_code_mutation_group_count a
                 <= rt_compacted_code_mutation_group_count b;
  sh_compacted : rt_compacted_tool_result_group_count a
                 <= rt_compacted_tool_result_group_count b;
  sh_turn : rt_max_tool_results_per_turn_tokens b = rt_max_tool_results_per_turn_tokens a;
}.
#[export] Instance same_history_preorder : PreOrder same_history.
Proof. split; [by intros a|]. intros a b c [] []. split; congruence || lia. Qed.

Lemma keeps_with_state f : keeps same_history (with_state f).
Proof. by intros s. Qed.
Lemma keeps_count_more x y z : 0 <= x → 0 <= y → keeps same_history (count_more x y z).
Proof. intros Hx Hy s. split; cbn; try done; lia. Qed.
#[local] Hint Resolve keeps_with_state : devflow.
#[local] Hint Extern 1 (keeps _ (count_more _ _ _)) => apply keeps_count_more; lia : devflow.

Section facts.
Context (json_loads : string → result JSON) (py_str : JSON → string) (sha256 : string → string)
  (working_state_json : AgentWorkingState → string).
Abbreviation add_group := (add_group json_loads py_str sha256).
Abbreviation messages := (messages working_state_json).
Implicit Types self : AgentContextRetention.

Lemma keeps_observe_digest o : keeps same_history (observe_digest o).
Proof. unfold observe_digest. keep_steps. Qed.
Lemma keeps_inspect_item h item : keeps same_history (inspect_item h item).
Proof. unfold inspect_item. keep_steps. Qed.
#[local] Hint Resolve keeps_observe_digest keeps_inspect_item : devflow.
Lemma keeps_observe_files name h payload : keeps same_history (observe_files name h payload).
Proof. unfold observe_files. keep_steps. Qed.
#[local] Hint Resolve keeps_observe_files : devflow.
Lemma keeps_observe_payload call h payload :
  keeps same_history (observe_payload py_str call h payload).
Proof. unfold observe_payload. keep_steps. Qed.
#[local] Hint Resolve keeps_observe_payload : devflow.
Lemma keeps_observe call r : keeps same_history (_observe json_loads py_str sha256 call r).
Proof. unfold _observe. keep_steps. Qed.
Lemma keeps_bounded_message r remaining :
  keeps same_history (_bounded_tool_result_message r remaining).
Proof. unfold _bounded_tool_result_message. keep_steps. Qed.
#[local] Hint Resolve keeps_observe keeps_bounded_message : devflow.
Lemma keeps_bounded_messages results : ∀ remaining,
  keeps same_history (bounded_messages remaining results).
Proof.
  induction results as [|r results IH]; intros remaining; cbn [bounded_messages]; keep_steps.
Qed.
#[local] Hint Resolve keeps_bounded_messages : devflow.

(** A group a provider accepts: an assistant message with calls, followed by
    one tool message for each call, in order, that together stay within the
    budget of the turn. *)
Definition valid_group (budget : Z) (g : ToolCallGroup) : Prop :=
  am_role (tg_assistant g) = MR_ASSISTANT
  ∧ am_tool_calls (tg_assistant g) ≠ []
  ∧ am_tool_call_id <$> tg_results g = (λ c, Some (call_id c)) <$> am_tool_calls (tg_assistant g)
  ∧ Forall (λ m, am_role m = MR_TOOL) (tg_results g)
  ∧ ∃ n, sum_estimates (tg_results g) = Ok n ∧ n <= budget.

Lemma AgentMessage_new_role raw m : AgentMessage_new raw = Ok m → am_role m = am_role raw.
Proof.
  unfold AgentMessage_new. intros Hm. apply bind_Ok_inv in Hm as (id & _ & Hm).
  unfold validate_role_payload in Hm. cbn [am_role] in Hm.
  destruct (am_role raw) eqn:Hr; repeat (apply bind_Ok_inv in Hm as ([] & _ & Hm));
    by injection Hm as <-.
Qed.
Lemma result_message_Ok r content m :
  result_message r content = Ok m →
  am_role m = MR_TOOL ∧ am_tool_call_id m = Some (strip (ter_tool_call_id r)).
Proof.
  unfold result_message, AgentMessage_new. cbn [am_tool_call_id normalize_tool_call_id am_role].
  intros Hm. apply bind_Ok_inv in Hm as (id & Hid & Hm). apply bind_Ok_inv in Hid as ([] & _ & Hid).
  injection Hid as <-. unfold validate_role_payload in Hm. cbn [am_role] in Hm.
  apply bind_Ok_inv in Hm as ([] & _ & Hm). apply bind_Ok_inv in Hm as ([] & _ & Hm).
  apply bind_Ok_inv in Hm as ([] & _ & Hm). by injection Hm as <-.
Qed.
Lemma bounded_message_Ok r remaining s m s' :
  _bounded_tool_result_message r remaining s = (Ok m, s') →
  am_role m = MR_TOOL ∧ am_tool_call_id m = Some (strip (ter_tool_call_id r)).
Proof.
  intros Hm. enough (∃ content, result_message r content = Ok m) as [content Hc]
    by by eapply result_message_Ok.
  unfold _bounded_tool_result_message in Hm. inv_monad.
  destruct (_ <? 128); inv_monad; [eauto|]. destruct (_ <? _); inv_monad; eauto.
Qed.
Lemma bounded_messages_Ok results : ∀ remaining s ms s',
  bounded_messages remaining results s = (Ok ms, s') →
  Forall (λ m, am_role m = MR_TOOL) ms
  ∧ am_tool_call_id <$> ms = (λ r, Some (strip (ter_tool_call_id r))) <$> results.
Proof.
  induction results as [|r results IH]; intros remaining s ms s' Hm; cbn [bounded_messages] in Hm.
  { by injection Hm as <- <-. }
  apply M_bind_Ok_inv in Hm as (m & s1 & Hr & Hm). apply M_bind_Ok_inv in Hm as (n & s2 & _ & Hm).
  apply M_bind_Ok_inv in Hm as (ms' & s3 & Hms & Hm). injection Hm as <- <-.
  apply IH in Hms as [Hall Hids]. apply bounded_message_Ok in Hr as [Hrole Hid].
  split; [by constructor|]. cbn. by rewrite Hid, <- Hids.
Qed.

Lemma wp_keeps {S A} (R : S → S → Prop) (m : M S A) s :
  keeps R m → wp m (λ a s', m s = (Ok a, s') ∧ R s s') (λ _ s', R s s') s.
Proof. intros Hm. specialize (Hm s). unfold wp. by destruct (m s) as [[a|e] s']. Qed.

(** Ids the validators of [ToolCall] accept have no outer white space. *)
Definition normal_ids (calls : list ToolCall) : Prop :=
  Forall (λ c, strip (call_id c) = call_id c) calls.

Lemma add_group_spec a calls results s :
  normal_ids calls →
  wp (add_group a calls results)
    (λ compacted s',
       if compacted : bool then same_history s s'
       else ∃ g, tg_assistant g = a ∧ valid_group (rt_max_tool_results_per_turn_tokens s) g
         ∧ _is_successful_code_mutation calls results = false
         ∧ ∃ s1, same_history s s1 ∧ s' = (append_group g s1).2)
    (λ _ s', same_history s s') s.
Proof.
  intros Hids. unfold Retention.add_group.
  apply wp_lift_bind; [|by intros]. intros [] Ha. apply check_Ok in Ha.
  apply wp_lift_bind; [|by intros]. intros [] Hc. apply check_Ok in Hc.
  apply wp_lift_bind; [|by intros]. intros [] Hr. apply check_Ok in Hr. to_prop.
  apply wp_get_bind. apply wp_bind.
  eapply wp_mono; [apply (wp_keeps same_history), keeps_bounded_messages| |by intros].
  intros ms s1 [Hms Hs1]. apply bounded_messages_Ok in Hms as [Hrole Hmids].
  apply wp_bind. eapply wp_mono.
  { apply (wp_keeps same_history). apply keeps_for_each; [apply _|]. intros [c r]. apply keeps_observe. }
  2:{ intros e s2 Hs2. by etrans. }
  intros [] s2 [_ Hs2]. assert (same_history s s2) as Hs by by etrans.
  apply wp_lift_bind; [|by intros]. intros n Hn.
  destruct (rt_max_tool_results_per_turn_tokens s <? n) eqn:Hlt;
    [apply wp_modify_bind, wp_ret; etrans; [exact Hs|split; cbn; done || lia]|].
  destruct (_is_successful_code_mutation calls results) eqn:Hmut;
    [apply wp_modify_bind, wp_ret; etrans; [exact Hs|split; cbn; done || lia]|]. to_prop. apply wp_modify_bind, wp_ret.
  exists {| tg_assistant := a; tg_results := ms |}.
  split; [done|]. split; [|split; [done|by exists s2]].
  split; [done|]. cbn [tg_results tg_assistant]. split; [by destruct (am_tool_calls a)|].
  split; [|split; [done|by exists n]].
  rewrite Hmids. transitivity ((λ i, Some (strip i)) <$> (ter_tool_call_id <$> results)).
  { rewrite <- list_fmap_compose. reflexivity. }
  rewrite Hr, <- list_fmap_compose.
  transitivity ((λ c, Some (call_id c)) <$> calls).
  { clear -Hids. induction Hids as [|c l Hc _ IH]; [done|]. cbn. by rewrite Hc, IH. }
  transitivity (Some <$> (call_id <$> calls)); [apply (list_fmap_compose call_id Some)|].
  rewrite Hc. symmetry. apply (list_fmap_compose call_id Some).
Qed.

(** The states an agent session reaches from a new object. *)
Inductive retained (task_id : string) (base : list AgentMessage) (max_groups max_turn : Z) :
    AgentContextRetention → Prop :=
  | retained_init max_single self :
      AgentContextRetention_init task_id base max_groups max_single max_turn = Ok self →
      retained task_id base max_groups max_turn self
  | retained_add self a calls results :
      retained task_id base max_groups max_turn self → normal_ids calls →
      retained task_id base max_groups max_turn (add_group a calls results self).2.

(** What every such state is. *)
Definition history_ok (base : list AgentMessage) (max_groups max_turn : Z) self : Prop :=
  rt_base_messages self = base ∧ rt_max_retained_tool_groups self = max_groups
  ∧ 1 <= max_groups <= 4 ∧ rt_max_tool_results_per_turn_tokens self = max_turn
  ∧ 0 <= rt_compacted_code_mutation_group_count self
  ∧ 0 <= rt_compacted_tool_result_group_count self
  ∧ Forall (valid_group max_turn) (rt_groups self).

Lemma history_same base max_groups max_turn s s' :
  same_history s s' → history_ok base max_groups max_turn s → history_ok base max_groups max_turn s'.
Proof.
  intros [Hb Hm Hg Hx Hy Ht]. unfold history_ok. rewrite Hb, Hm, Hg, Ht.
  intros (? & ? & ? & ? & ? & ? & ?). split_and!; try done; lia.
Qed.
Lemma retained_ok task_id base max_groups max_turn self :
  retained task_id base max_groups max_turn self → history_ok base max_groups max_turn self.
Proof.
  induction 1 as [max_single self Hi|self a calls results _ IH Hids].
  - unfold AgentContextRetention_init in Hi. apply bind_Ok_inv in Hi as ([] & Hg & Hi).
    apply bind_Ok_inv in Hi as ([] & _ & Hi). apply bind_Ok_inv in Hi as ([] & _ & Hi).
    injection Hi as <-. apply check_Ok in Hg. to_prop. unfold history_ok. cbn. split_and!; try done.
  - pose proof (add_group_spec a calls results self Hids) as Hs. unfold wp in Hs.
    destruct (add_group a calls results self) as [[[]|e] s']; cbn [snd];
      [by eapply history_same| |by eapply history_same].
    destruct Hs as (g & _ & Hg & _ & s1 & Hs1 & ->).
    apply (history_same _ _ _ _ s1) in IH; [|done]. destruct IH as (Hb & Hm & Hr & Ht & Hx & Hy & Hall).
    destruct Hs1 as [_ _ _ _ _ Ht1]. rewrite <- Ht1, Ht in Hg.
    unfold history_ok, append_group. cbn. split_and!; try done; try lia.
    apply Forall_app. by split; [|constructor].
Qed.
End facts.

(** The history shown to the model is a message sequence a provider
    accepts, of bounded size: after any sequence of completed and failed
    [add_group] calls, [messages] are the base messages, at most one working
    state, and the groups kept, of which there are at most
    [max_retained_tool_groups] (at most four); each group is an assistant
    message with its calls followed by exactly one tool message per call, in
    order and with the call's id, and its tool messages together stay within
    the token budget of a turn. *)
Theorem history_valid json_loads py_str sha256 working_state_json task_id base max_groups max_turn
    self shown :
  retained json_loads py_str sha256 task_id base max_groups max_turn self →
  messages working_state_json self = Ok shown →
  ∃ state groups, shown = base ++ state ++ mjoin (group_messages <$> groups)
    ∧ (length state ≤ 1)%nat ∧ Forall (λ m, am_role m = MR_USER) state
    ∧ Z.of_nat (length groups) <= max_groups <= 4
    ∧ groups `suffix_of` rt_groups self
    ∧ Forall (valid_group max_turn) groups
    ∧ (state = [] → groups = rt_groups self).
Proof.
  intros Hret Hm. apply retained_ok in Hret as (<- & <- & Hg & <- & Hx & Hy & Hall).
  unfold messages in Hm. apply bind_Ok_inv in Hm as (state & Hs & Hm). injection Hm as <-.
  set (n := Z.to_nat (rt_max_retained_tool_groups self)).
  exists state, (last_n n (rt_groups self)). split; [done|].
  assert (length (last_n n (rt_groups self)) ≤ n)%nat as Hlen
    by (unfold last_n; rewrite length_drop; lia).
  assert (last_n n (rt_groups self) `suffix_of` rt_groups self) as Hsuf.
  { exists (take (length (rt_groups self) - n) (rt_groups self)). unfold last_n. by rewrite take_drop. }
  assert (Forall (valid_group (rt_max_tool_results_per_turn_tokens self)) (last_n n (rt_groups self)))
    as Hf by (by apply Forall_drop).
  destruct (compacted_group_count self =? 0) eqn:Hc; to_prop.
  - injection Hs as <-. split_and!; try done; try (cbn; lia). intros _.
    unfold last_n. unfold compacted_group_count in Hc.
    replace (length (rt_groups self) - n)%nat with 0%nat by lia. done.
  - apply bind_Ok_inv in Hs as (w & _ & Hs). apply bind_Ok_inv in Hs as (m & Hmsg & Hs).
    injection Hs as <-. split_and!; try done; try (cbn; lia).
    constructor; [|done]. by apply AgentMessage_new_role in Hmsg.
Qed.

(** A cut result fits: for the limits in use (at least 128 tokens), the
    binary search of [_bounded_preview] ends, and what it returns is a prefix
    of the content followed by the note, within the limit, that cannot be
    extended by one character; it raises only if the estimator does. *)
Theorem bounded_preview_fits content limit :
  128 <= limit →
  match _bounded_preview content limit with
  | Ok preview => ∃ n t, preview = preview_of content n ∧ 0 <= n <= Z.of_nat (str_len content)
      ∧ estimate preview = Ok t ∧ t <= limit
      ∧ (n = Z.of_nat (str_len content)
         ∨ ∃ t', estimate (preview_of content (n + 1)) = Ok t' ∧ limit < t')
  | Raise e => ∃ text, estimate text = Raise e
  end.
Proof.
  intros Hl. unfold _bounded_preview.
  pose proof (preview_search_spec (str_len content) content limit 0 (Z.of_nat (str_len content))
    ltac:(lia) ltac:(lia) (or_introl eq_refl)) as Hs.
  destruct (preview_search _ _ _ _ _) as [n|e]; [|done]. cbn [mbind result_bind].
  destruct Hs as (Hn & Hfit & Hnext).
  assert (preview_of content 0 = preview_suffix) as H0.
  { unfold preview_of, str_take. by rewrite take_0. }
  destruct (n =? 0) eqn:Hz; to_prop.
  - subst n. exists 0, 37. rewrite <- H0. split; [done|]. split; [lia|]. rewrite H0 at 1.
    split; [apply suffix_estimate|]. split; [lia|done].
  - destruct Hfit as [?|(t & Ht & Hle)]; [done|]. exists n, t. split_and!; try done; lia.
Qed.

(** A long result under the smallest limit. *)
Lemma bounded_preview_fits_witness :
  128 <= 128 ∧
  match _bounded_preview (of_chars (replicate 600 "x"%char)) 128 with
  | Ok preview => ∃ t, estimate preview = Ok t ∧ t <= 128
  | Raise _ => False
  end.
Proof.
  split; [lia|].
  pose proof (bounded_preview_fits (of_chars (replicate 600 "x"%char)) 128 ltac:(lia)) as Hp.
  destruct (_bounded_preview (of_chars (replicate 600 "x"%char)) 128) as [preview|e] eqn:Hr.
  - destruct Hp as (n & t & _ & _ & Ht & Hle & _). exists t. split; [exact Ht|exact Hle].
  - apply (f_equal is_ok) in Hr. vm_compute in Hr. discriminate Hr.
Defined.

(** A session of two reads. *)
Definition session_call (n : nat) : ToolCall :=
  {| call_id := "c" +:+ str_of_Z (Z.of_nat n); call_name := "read_file"; call_arguments := "{}" |}.
Definition session_result (n : nat) : ToolExecutionResult := {|
  ter_tool_call_id := "c" +:+ str_of_Z (Z.of_nat n); ter_name := "read_file"; ter_ok := true;
  ter_content := "text"; ter_error_code := None |}.
Definition session_message (n : nat) : AgentMessage := {|
  am_role := MR_ASSISTANT; am_content := ""; am_tool_call_id := None;
  am_tool_calls := [session_call n] |}.
Definition session_loads (_ : string) : result JSON := Ok (JObj [("path", JStr "src/a.py")]).
Definition session_sha (_ : string) : string := of_chars (replicate 64 "0"%char).
Definition session_start : result AgentContextRetention := AgentContextRetention_init "t1" [] 1 800 1600.
Definition session_add (n : nat) (self : AgentContextRetention) : AgentContextRetention :=
  (add_group session_loads (λ _, "") session_sha (session_message n) [session_call n]
     [session_result n] self).2.
Definition session_messages (self : AgentContextRetention) : result (list AgentMessage) :=
  messages (λ _, "{}") self.
Lemma history_valid_witness :
  match session_start with
  | Ok start =>
      match session_messages (session_add 2 (session_add 1 start)) with
      | Ok shown => ∃ state groups, shown = state ++ mjoin (group_messages <$> groups)
          ∧ (length state ≤ 1)%nat
      | Raise _ => False
      end
  | Raise _ => False
  end.
Proof.
  destruct session_start as [start|e] eqn:Hs; [|vm_compute in Hs; discriminate Hs].
  destruct (session_messages (session_add 2 (session_add 1 start))) as [shown|e] eqn:Hm.
  - destruct (history_valid session_loads (λ _, "") session_sha (λ _, "{}") "t1" [] 1 1600
      (session_add 2 (session_add 1 start)) shown) as (state & groups & Heq & Hlen & _).
    + apply retained_add; [apply retained_add; [apply (retained_init _ _ _ _ _ _ _ 800); exact Hs|]|];
        repeat constructor.
    + exact Hm.
    + exists state, groups. split; [exact Heq|exact Hlen].
  - apply (f_equal is_ok) in Hm. vm_compute in Hs. injection Hs as <-. vm_compute in Hm. discriminate Hm.
Defined.
