(* ===== verification/DeveloperFacts.v ===== *)
(** * DeveloperFacts: what a run of the Developer agent can do

    Whatever the model answers, the run makes at most [max_iterations] model
    requests, accounts for every response, spends at most one recovery credit,
    and changes only files its contract opens for writing.  A reply of white
    space alone makes it raise. *)
From Stdlib Require Import QArith.
From stdpp Require Import options.
From S2P Require Import Prelude Contracts Json RunModels AgentModels PyFloat Git Tools ToyFiles ToolsFacts Retention RetentionFacts Developer.
Open Scope Z_scope.

(** ** The files a run changes *)

(** The effect of a tool call, whatever its arguments. *)
Lemma execute_touches `{FilesLaws} lax_int json_loads resolve_symbol toolbox call h :
  path_resolve h (root toolbox) = root toolbox →
  (execute lax_int json_loads resolve_symbol toolbox call h).2 = h
  ∨ ∃ path, touches path h (execute lax_int json_loads resolve_symbol toolbox call h).2
     ∧ granted toolbox (plain_call json_loads call) h path.
Proof.
  intros Hroot. unfold execute.
  destruct (handler_of lax_int resolve_symbol toolbox (call_name call)) as [handler|] eqn:Hh; [|by left].
  destruct (tool_arguments json_loads call) as [args|e] eqn:Hargs; [|by left].
  rewrite (lift_run _ _ args) by done.
  assert (wp (handler args) (λ j, effect (plain_arguments args) toolbox h (Ok j))
            (λ e, effect (plain_arguments args) toolbox h (Raise e)) h
          ∨ (handler args h).2 = h) as Hwp.
  { destruct (handler_of_cases _ _ _ _ _ Hh) as [(f & _ & ->)|[[_ ->]|[_ ->]]];
      [by right|left; by apply write_file_effect|left; by apply apply_patch_effect]. }
  assert (Hplain : ∀ path, granted toolbox (plain_arguments args) h path →
    granted toolbox (plain_call json_loads call) h path).
  { intros path (Hres & relative & Hn & Hm & Hp). split; [done|]. exists relative.
    split_and!; [done|done|]. intros Hcall. by apply Hp, Hcall. }
  assert ((handler args h).2 = h ∨ ∃ path, touches path h (handler args h).2
    ∧ granted toolbox (plain_call json_loads call) h path) as Heff.
  { destruct Hwp as [Hwp|?]; [|by left]. unfold wp in Hwp.
    destruct (handler args h) as [[j|e] h']; cbn [snd];
      inversion Hwp; subst; [by left|right; eauto|by left|right; eauto]. }
  by destruct (handler args h) as [[j|e] h'].
Qed.
(** A bind whose second program runs only after results of the first. *)
Lemma keeps_bind_post {S A B} (R : S → S → Prop) `{!PreOrder R} (m : M S A) (f : A → M S B) :
  keeps R m → (∀ s a s', m s = (Ok a, s') → keeps R (f a)) → keeps R (m ≫= f).
Proof.
  intros Hm Hf s. unfold mbind, M_bind. specialize (Hm s).
  destruct (m s) as [[a|e] s'] eqn:Hs; cbn in *; [|done]. etrans; [exact Hm|by eapply Hf].
Qed.

Section files.
Context `{Laws : FilesLaws} {R : Type}.
Context (clock : R → Q * R) (complete : AgentRequest → Q → M (World (R:=R)) AgentResponse)
  (tool_deadline : ToolCall → Q → R → option bool)
  (observer : option (string → list ToolCall → list ToolExecutionResult → bool → bool →
                      M (World (R:=R)) unit))
  (lax_int : JSON → option Z) (json_loads : string → result JSON) (py_str : JSON → string)
  (resolve_symbol : string → string → string → option (Z * SymbolRegion))
  (sha256 : string → string) (schema_of : string → JSON)
  (working_state_json : AgentWorkingState → string) (result_json : ToolExecutionResult → string).
Context (toolbox : RepositoryToolbox).

(** The texts of two worlds differ only in files the contract opens; a path
    that a link may lead elsewhere is no file. *)
Definition in_scope (w w' : World (R:=R)) : Prop :=
  ∀ path, (∀ h, path_resolve h path = path) →
    decoded_text (w_host w') path ≠ decoded_text (w_host w) path → writable_file toolbox path.
#[export] Instance in_scope_preorder : PreOrder in_scope.
Proof.
  split; [by intros w path|]. intros w1 w2 w3 H12 H23 path Hreal Hne.
  destruct (decide (decoded_text (w_host w2) path = decoded_text (w_host w1) path)) as [He|He];
    [|by apply H12].
  apply H23; [done|]. congruence.
Qed.
(** Git's queries, the provider and the observer leave the texts alone. *)
Definition texts_kept {A} (m : M (World (R:=R)) A) : Prop :=
  ∀ w path, decoded_text (w_host (m w).2) path = decoded_text (w_host w) path.
Context (workspace : LocalGitWorkspace).
Context (Hroot : ∀ h, path_resolve h (root toolbox) = root toolbox)
  (Hcalls : ∀ request d w response w', complete request d w = (Ok response, w') →
     Forall (plain_call json_loads) (as_tool_calls response)).
Context (Hgit : ∀ h path, decoded_text (changed_files workspace h).2 path = decoded_text h path)
  (Hcomplete : ∀ request d, texts_kept (complete request d))
  (Hobserver : ∀ observe, observer = Some observe →
     ∀ role calls results p c, texts_kept (observe role calls results p c)).

Lemma keeps_texts {A} (m : M (World (R:=R)) A) : texts_kept m → keeps in_scope m.
Proof. intros Hm w path _ Hne. by rewrite Hm in Hne. Qed.
Lemma keeps_complete request d : keeps in_scope (complete request d).
Proof using Hcomplete. apply keeps_texts, Hcomplete. Qed.
Lemma keeps_clock : keeps in_scope (read_clock clock).
Proof. intros w path _ Hne. unfold read_clock in Hne. by destruct (clock (w_rest w)). Qed.
Lemma keeps_timeout {A} (m : M (World (R:=R)) A) : keeps in_scope m → keeps in_scope (unless_timeout m).
Proof.
  intros Hm w. specialize (Hm w). unfold unless_timeout. destruct (m w) as [[a|e] w']; [done|].
  by destruct (bool_decide _).
Qed.
Lemma keeps_execute call : plain_call json_loads call →
  keeps in_scope (on_host (execute lax_int json_loads resolve_symbol toolbox call)).
Proof using Laws Hroot.
  intros Hplain w path Hreal. unfold on_host.
  pose proof (execute_touches lax_int json_loads resolve_symbol toolbox call (w_host w) (Hroot _)) as Ht.
  destruct (execute _ _ _ _ _ _) as [r h']. cbn [snd w_host] in *.
  destruct Ht as [->|(p & Ht & Hg)]; [done|]. intros Hne.
  destruct (decide (path = p)) as [->|Hpath]; [by eapply granted_writable|].
  rewrite Ht in Hne; [done|]. destruct Hg as [-> _]. by rewrite Hreal.
Qed.
Lemma keeps_timed_tool remaining call : plain_call json_loads call →
  keeps in_scope (timed_tool tool_deadline lax_int json_loads resolve_symbol toolbox remaining call).
Proof using Laws Hroot.
  intros Hplain w. unfold timed_tool. pose proof (keeps_execute call Hplain w) as He.
  destruct (tool_deadline _ _ _) as [[]|]; [done|reflexivity|done].
Qed.
Lemma keeps_changes : keeps in_scope (has_changes workspace).
Proof using Hgit.
  apply keeps_bind; [apply _| |intros ?; apply keeps_ret, _].
  apply keeps_texts. intros w path. unfold on_host. pose proof (Hgit (w_host w) path) as Hg.
  by destruct (changed_files workspace (w_host w)).
Qed.
#[local] Hint Resolve keeps_complete keeps_clock keeps_timeout keeps_timed_tool keeps_changes : devflow.
Context (self : DeveloperAgent) (packet : option PacketView) (started_at : Q).
Lemma keeps_read_changes : keeps in_scope (on_host (R:=R) (changed_files workspace)).
Proof using Hgit.
  apply keeps_texts. intros w path. unfold on_host. pose proof (Hgit (w_host w) path) as Hg.
  by destruct (changed_files workspace (w_host w)).
Qed.
#[local] Hint Resolve keeps_read_changes : devflow.
Lemma keeps_result reason n text evidence l :
  keeps in_scope (Developer._result self workspace reason n text evidence l).
Proof using Hgit. unfold Developer._result. keep_steps. Qed.
#[local] Hint Resolve keeps_result : devflow.
Lemma keeps_stop text reason n final l :
  keeps in_scope (stop_at self workspace text reason n final l).
Proof using Hgit. unfold stop_at, _bounded_completion_after_changes. keep_steps. Qed.
#[local] Hint Resolve keeps_stop : devflow.
Lemma keeps_progress l : keeps in_scope (progress_so_far workspace l).
Proof using Hgit. unfold progress_so_far. keep_steps. Qed.
#[local] Hint Resolve keeps_progress : devflow.
Lemma keeps_record calls results c :
  keeps in_scope (_record_tool_cost_outcome observer workspace calls results c).
Proof using Hgit Hobserver.
  unfold _record_tool_cost_outcome. destruct observer as [observe|] eqn:Ho; keep_steps.
  by apply keeps_texts, Hobserver.
Qed.
#[local] Hint Resolve keeps_record : devflow.
Lemma keeps_request iteration l :
  keeps in_scope (turn_request schema_of self workspace packet iteration l).
Proof using Hgit. unfold turn_request. keep_steps. Qed.
Lemma keeps_elapsed : keeps in_scope (elapsed clock started_at).
Proof. unfold elapsed. keep_steps. Qed.
#[local] Hint Resolve keeps_request keeps_elapsed : devflow.
Lemma keeps_tool_loop iteration remaining calls todo : Forall (plain_call json_loads) todo → ∀ results l,
  keeps in_scope (tool_loop tool_deadline observer lax_int json_loads resolve_symbol self workspace
    toolbox iteration remaining calls todo results l).
Proof using Laws Hroot Hgit Hobserver.
  induction 1 as [|call todo Hplain _ IH]; intros results l; cbn [tool_loop];
    unfold call_timed_out, repeated_failure; keep_steps.
Qed.
#[local] Hint Resolve keeps_tool_loop : devflow.
Lemma keeps_record_turn assistant calls results l :
  keeps in_scope (record_turn observer json_loads py_str sha256 working_state_json result_json self
    workspace assistant calls results l).
Proof using Hgit Hobserver. unfold record_turn. keep_steps. Qed.
#[local] Hint Resolve keeps_record_turn : devflow.
Lemma keeps_after_response iteration remaining response l : Forall (plain_call json_loads) (as_tool_calls response) →
  keeps in_scope (after_response clock tool_deadline observer lax_int json_loads py_str resolve_symbol sha256
    working_state_json result_json self workspace toolbox started_at iteration remaining response l).
Proof using Laws Hroot Hgit Hobserver. intros Hplain. unfold after_response. keep_steps. Qed.
Lemma keeps_turn iteration l :
  keeps in_scope (turn clock complete tool_deadline observer lax_int json_loads py_str
    resolve_symbol sha256 schema_of working_state_json result_json self workspace packet toolbox
    started_at iteration l).
Proof using Laws Hroot Hgit Hobserver Hcomplete Hcalls.
  unfold turn. apply keeps_bind; [apply _|auto with devflow|]. intros passed. cbv zeta.
  destruct (Qle_bool _ _); [keep_steps|]. apply keeps_bind; [apply _|auto with devflow|]. intros [request l'].
  apply keeps_bind_post; [apply _|auto with devflow|]. intros w [response|] w' Hw; [|keep_steps].
  apply keeps_after_response. unfold unless_timeout in Hw.
  destruct (complete request _ w) as [[r|e] w1] eqn:Hr; [|by destruct (bool_decide _)].
  injection Hw as -> ->. by eapply Hcalls.
Qed.
#[local] Hint Resolve keeps_turn : devflow.
Lemma keeps_turns n : ∀ iteration l,
  keeps in_scope (turns clock complete tool_deadline observer lax_int json_loads py_str
    resolve_symbol sha256 schema_of working_state_json result_json self workspace packet toolbox
    started_at n iteration l).
Proof using Laws Hroot Hgit Hobserver Hcomplete Hcalls.
  induction n as [|n IH]; intros iteration l; cbn [turns]; keep_steps.
Qed.
End files.

(** The tools of a run. *)
Definition run_toolbox (workspace : LocalGitWorkspace) (task : TaskContract) : RepositoryToolbox :=
  {| tb_workspace := workspace; tb_task := task; tb_max_read_range_lines := _MAX_READ_RANGE_LINES |}.

Lemma run_in_scope `{FilesLaws} {R} clock complete tool_deadline observer lax_int json_loads
    py_str resolve_symbol sha256 schema_of working_state_json result_json self task task_json
    workspace packet (w : World (R:=R)) :
  (∀ h, path_resolve h (ws_root workspace) = ws_root workspace) →
  (∀ request d w response w', complete request d w = (Ok response, w') →
     Forall (plain_call json_loads) (as_tool_calls response)) →
  (∀ h path, decoded_text (changed_files workspace h).2 path = decoded_text h path) →
  (∀ request d, texts_kept (complete request d)) →
  (∀ observe, observer = Some observe →
     ∀ role calls results p c, texts_kept (observe role calls results p c)) →
  in_scope (run_toolbox workspace task) w
    (run clock complete tool_deadline observer lax_int json_loads py_str resolve_symbol sha256
       schema_of working_state_json result_json self task task_json workspace packet w).2.
Proof.
  intros Hroot Hcalls Hgit Hcomplete Hobserver. revert w.
  match goal with |- ∀ w, in_scope ?t w (?m w).2 => change (keeps (in_scope t) m) end.
  intros w. unfold run. destruct (_validate_context_packet task packet) as [[]|e];
    [|intros path _ Hne; by destruct Hne].
  rewrite (lift_run _ _ tt), (lift_run _ _ (run_toolbox workspace task)) by done.
  revert w. match goal with |- ∀ w, in_scope ?t w (?m w).2 => change (keeps (in_scope t) m) end.
  keep_steps; [apply keeps_clock|by apply keeps_changes|by apply keeps_turns].
Qed.

(** ** The account of a run *)

(** The requests made so far, each with its response if there was one. *)
Abbreviation turn_log := (list (AgentRequest * option AgentResponse)).
Definition responses (log : turn_log) : list AgentResponse := omap snd log.
Definition sum_over (f : AgentResponse → Z) (log : turn_log) : Z :=
  foldr (λ r n, f r + n) 0 (responses log).
Definition usage_of (log : turn_log) : TokenUsage := {|
  prompt_tokens := sum_over (λ r, prompt_tokens (as_usage r)) log;
  completion_tokens := sum_over (λ r, completion_tokens (as_usage r)) log;
  total_tokens := sum_over (λ r, total_tokens (as_usage r)) log |}.
Definition recoveries (log : turn_log) : nat :=
  length (List.filter (λ e, bool_decide (ar_liveness_credit e.1 = LC_TOOL_RECOVERY)) log).
(** Requests are numbered from 1 and ask for the ordinary number of output
    tokens, except the one of a recovery. *)
Definition requests_ok (self : DeveloperAgent) (log : turn_log) : Prop :=
  (λ e, ar_execution_iteration e.1) <$> log = seqZ 1 (Z.of_nat (length log))
  ∧ Forall (λ e, ar_max_output_tokens e.1
      = if bool_decide (ar_liveness_credit e.1 = LC_TOOL_RECOVERY)
        then da_invalid_tool_retry_max_output_tokens self else da_max_output_tokens self) log.

(** What a result says of the log. *)
Record accounted (self : DeveloperAgent) (r : DeveloperRunResult) (log : turn_log) : Prop := {
  ac_usage : dr_usage r = usage_of log;
  ac_latency : dr_latency_ms r = sum_over as_latency_ms log;
  ac_iterations : dr_iterations r = Z.of_nat (length (responses log));
  ac_requests : Z.of_nat (length log) <= da_max_iterations self;
  ac_tools : 0 <= dr_tool_calls r <= da_max_tool_calls_per_turn self * dr_iterations r;
  ac_recoveries : (recoveries log ≤ 1)%nat;
  ac_log : requests_ok self log;
}.

Section account.
Context `{Files} {R : Type}.
Context (clock : R → Q * R) (complete : AgentRequest → Q → M (World (R:=R)) AgentResponse)
  (tool_deadline : ToolCall → Q → R → option bool)
  (observer : option (string → list ToolCall → list ToolExecutionResult → bool → bool →
                      M (World (R:=R)) unit))
  (lax_int : JSON → option Z) (json_loads : string → result JSON) (py_str : JSON → string)
  (resolve_symbol : string → string → string → option (Z * SymbolRegion))
  (sha256 : string → string) (schema_of : string → JSON)
  (working_state_json : AgentWorkingState → string) (result_json : ToolExecutionResult → string).
(** A log the provider keeps. *)
Context (log : R → turn_log).
Definition same_log (w w' : World (R:=R)) : Prop := log (w_rest w') = log (w_rest w).
#[export] Instance same_log_preorder : PreOrder same_log.
Proof. split; [by intros w|]. unfold same_log. intros w1 w2 w3 H1 H2. congruence. Qed.
Definition log_laws : Prop :=
  (∀ r, log (clock r).2 = log r)
  ∧ (∀ request d w, log (w_rest (complete request d w).2)
       = log (w_rest w) ++ [(request, match (complete request d w).1 with
                                      | Ok response => Some response
                                      | Raise _ => None
                                      end)])
  ∧ (∀ observe, observer = Some observe →
       ∀ role calls results p c, keeps same_log (observe role calls results p c)).
Context (Hlog : log_laws).
Context (self : DeveloperAgent) (workspace : LocalGitWorkspace) (packet : option PacketView)
  (toolbox : RepositoryToolbox) (started_at : Q).

Lemma logs_clock : keeps same_log (read_clock clock).
Proof using Hlog.
  intros w. unfold read_clock, same_log. destruct Hlog as (Hc & _).
  specialize (Hc (w_rest w)). by destruct (clock (w_rest w)).
Qed.
Lemma logs_on_host {A} (m : M Host A) : keeps same_log (on_host (R:=R) m).
Proof. intros w. unfold on_host, same_log. by destruct (m (w_host w)). Qed.
Lemma logs_timeout {A} (m : M (World (R:=R)) A) : keeps same_log m → keeps same_log (unless_timeout m).
Proof.
  intros Hm w. specialize (Hm w). unfold unless_timeout. destruct (m w) as [[a|e] w']; [done|].
  by destruct (bool_decide _).
Qed.
Lemma logs_timed_tool remaining call :
  keeps same_log (timed_tool tool_deadline lax_int json_loads resolve_symbol toolbox remaining call).
Proof.
  intros w. unfold timed_tool.
  pose proof (logs_on_host (execute lax_int json_loads resolve_symbol toolbox call) w) as He.
  destruct (tool_deadline _ _ _) as [[]|]; [done|reflexivity|done].
Qed.
#[local] Hint Resolve logs_clock logs_on_host logs_timeout logs_timed_tool : devflow.
Lemma logs_changes : keeps same_log (has_changes workspace).
Proof. unfold has_changes. keep_steps. Qed.
#[local] Hint Resolve logs_changes : devflow.
Lemma logs_progress l : keeps same_log (progress_so_far workspace l).
Proof. unfold progress_so_far. keep_steps. Qed.
Lemma logs_record calls results c :
  keeps same_log (_record_tool_cost_outcome observer workspace calls results c).
Proof using Hlog.
  unfold _record_tool_cost_outcome. destruct observer as [observe|] eqn:Ho; keep_steps.
  destruct Hlog as (_ & _ & Hob). by apply Hob.
Qed.
#[local] Hint Resolve logs_progress logs_record : devflow.
Lemma logs_elapsed : keeps same_log (elapsed clock started_at).
Proof using Hlog. unfold elapsed. keep_steps. Qed.

(** *** Results *)
Definition reported (r : DeveloperRunResult) (n : Z) (l : Locals) : Prop :=
  dr_usage r = {| prompt_tokens := l_prompt_tokens l; completion_tokens := l_completion_tokens l;
                  total_tokens := l_total_tokens l |}
  ∧ dr_latency_ms r = l_latency_ms l ∧ dr_iterations r = n ∧ dr_tool_calls r = l_tool_call_count l.
Lemma result_reports reason n text evidence l w :
  wp (Developer._result self workspace reason n text evidence l)
    (λ r w', same_log w w' ∧ reported r n l ∧ dr_stop_reason r = reason) (λ _ _, True) w.
Proof.
  unfold Developer._result. apply wp_lift_bind; [|done]. intros usage Hu.
  apply wp_bind. eapply wp_mono; [apply (wp_keeps same_log), logs_on_host| |done].
  intros changed w' [_ Hw]. apply wp_lift_bind; [|done]. intros budget _.
  apply wp_lift. destruct (DeveloperRunResult_new _) as [r|e] eqn:Hr; [|done].
  unfold DeveloperRunResult_new in Hr.
  repeat (apply bind_Ok_inv in Hr as ([] & _ & Hr)). injection Hr as <-.
  unfold TokenUsage_new in Hu. repeat (apply bind_Ok_inv in Hu as ([] & _ & Hu)).
  injection Hu as <-. done.
Qed.
Lemma stop_reports text reason n final l w :
  wp (stop_at self workspace text reason n final l)
    (λ r w', same_log w w' ∧ reported r n l) (λ _ _, True) w.
Proof.
  unfold stop_at, _bounded_completion_after_changes. apply wp_bind.
  eapply wp_mono; [apply (wp_keeps same_log), logs_changes| |done].
  intros changed w' [_ Hw].
  destruct changed; (eapply wp_mono; [apply result_reports| |done]);
    intros r w2 (Hw2 & Hr & _); split; [by etrans|done|by etrans|done].
Qed.

(** *** The local variables *)

(** A recovery instruction waits exactly while its credit is pending, and only
    before the credit is spent. *)
Definition credit_ok (l : Locals) : Prop :=
  l_tool_recovery_credit_pending l = bool_decide (is_Some (l_tool_recovery_instruction l))
  ∧ (l_tool_recovery_credit_used l = true → l_tool_recovery_instruction l = None).
(** [l'] comes from [l] by at most [k] tool calls. *)
Record advanced (l l' : Locals) (k : nat) : Prop := {
  av_prompt : l_prompt_tokens l' = l_prompt_tokens l;
  av_completion : l_completion_tokens l' = l_completion_tokens l;
  av_total : l_total_tokens l' = l_total_tokens l;
  av_latency : l_latency_ms l' = l_latency_ms l;
  av_used : l_tool_recovery_credit_used l' = l_tool_recovery_credit_used l;
  av_count : l_tool_call_count l <= l_tool_call_count l' <= l_tool_call_count l + Z.of_nat k;
  av_credit : credit_ok l → credit_ok l';
}.
Lemma advanced_refl l k : advanced l l k.
Proof. split; try done. lia. Qed.
Lemma advanced_trans l1 l2 l3 j k : advanced l1 l2 j → advanced l2 l3 k → advanced l1 l3 (j + k).
Proof. intros [] []. split; try congruence; try lia. auto. Qed.
Lemma advanced_call progress failure repeated l : advanced l (after_call progress failure repeated l) 1.
Proof. split; try done. cbn. lia. Qed.
Lemma advanced_grant instruction l :
  l_tool_recovery_credit_used l = false → advanced l (credit_granted instruction l) 0.
Proof.
  intros Hu. split; try done; [cbn; lia|]. intros _.
  split; [symmetry; by apply bool_decide_eq_true_2|]. cbn. by rewrite Hu.
Qed.

Lemma tool_loop_spec iteration remaining calls todo : ∀ results l w,
  wp (tool_loop tool_deadline observer lax_int json_loads resolve_symbol self workspace toolbox
        iteration remaining calls todo results l)
    (λ o w', same_log w w' ∧ match o with
       | inl r => ∃ l', advanced l l' (length todo) ∧ reported r iteration l'
       | inr (_, l') => advanced l l' (length todo)
       end) (λ _ _, True) w.
Proof using Hlog.
  induction todo as [|call todo IH]; intros results l w; cbn [tool_loop].
  { apply wp_ret. split; [done|apply advanced_refl]. }
  assert (∀ l1 results w1, same_log w w1 → advanced l l1 1 →
    wp (tool_loop tool_deadline observer lax_int json_loads resolve_symbol self workspace toolbox
          iteration remaining calls todo results l1)
      (λ o w', same_log w w' ∧ match o with
         | inl r => ∃ l', advanced l l' (length (call :: todo)) ∧ reported r iteration l'
         | inr (_, l') => advanced l l' (length (call :: todo))
         end) (λ _ _, True) w1) as Hgo.
  { intros l1 rs w1 Hw1 Hl1. eapply wp_mono; [apply IH| |done]. intros o w2 [Hw2 Ho].
    split; [by etrans|]. destruct o as [r|[rs' l2]].
    - destruct Ho as (l2 & Hl2 & Hr). exists l2. split; [|done]. by apply (advanced_trans l l1 l2 1).
    - by apply (advanced_trans l l1 l2 1). }
  apply wp_bind. eapply wp_mono; [apply (wp_keeps same_log), logs_timeout, logs_timed_tool| |done].
  intros [r|] w1 [_ Hw1].
  2:{ apply wp_bind. eapply wp_mono; [apply stop_reports| |done]. intros res w2 [Hw2 Hr].
      apply wp_ret. split; [by etrans|]. exists l. split; [apply advanced_refl|done]. }
  destruct (ter_ok r); [apply Hgo; [done|apply advanced_call]|].
  destruct (ter_error_code r) as [code|]; [|apply Hgo; [done|apply advanced_call]].
  apply wp_lift_bind; [|done]. intros shape _.
  set (repeated := if bool_decide _ then _ else _). set (l1 := after_call _ _ repeated l).
  assert (advanced l l1 1) as Hl1 by apply advanced_call.
  destruct (2 <=? repeated).
  - unfold repeated_failure. apply wp_bind, wp_bind.
    eapply wp_mono; [apply (wp_keeps same_log), logs_record| |done]. intros [] w2 [_ Hw2].
    apply wp_lift_bind; [|done]. intros evidence _.
    eapply wp_mono; [apply result_reports| |done]. intros res w3 (Hw3 & Hr & _). apply wp_ret.
    split; [etrans; [done|by etrans]|]. exists l1. split; [|done].
    destruct Hl1. split; try done. cbn [length]. lia.
  - apply Hgo; [done|]. destruct (negb (l_tool_recovery_credit_used l1)) eqn:Hu; [|done]. to_prop.
    destruct (_is_recoverable_tool_error r); [|done]. cbn [andb].
    apply (advanced_trans l l1 _ 1 0); [done|by apply advanced_grant].
Qed.

Lemma record_turn_spec assistant calls results l w :
  wp (record_turn observer json_loads py_str sha256 working_state_json result_json self workspace
        assistant calls results l)
    (λ l' w', same_log w w' ∧ advanced l l' 0) (λ _ _, True) w.
Proof using Hlog.
  unfold record_turn. destruct (da_context_compaction_enabled self).
  - destruct (Retention.add_group _ _ _ _ _ _ _) as [compacted retention].
    apply wp_lift_bind; [|done]. intros c _. apply wp_bind.
    eapply wp_mono; [apply (wp_keeps same_log), logs_record| |done]. intros [] w1 [_ Hw1].
    apply wp_lift_bind; [|done]. intros ms _. apply wp_ret. split; [done|].
    split; try done. cbn. lia.
  - apply wp_bind. eapply wp_mono; [apply (wp_keeps same_log), logs_record| |done].
    intros [] w1 [_ Hw1]. apply wp_lift_bind; [|done]. intros ms _. apply wp_ret. split; [done|].
    split; try done. cbn. lia.
Qed.

Lemma AgentRequest_new_fields raw request :
  AgentRequest_new raw = Ok request →
  ar_execution_iteration request = ar_execution_iteration raw
  ∧ ar_max_output_tokens request = ar_max_output_tokens raw
  ∧ ar_liveness_credit request = ar_liveness_credit raw.
Proof.
  unfold AgentRequest_new, validate_unique_tools. intros Hr.
  repeat (apply bind_Ok_inv in Hr as ([] & _ & Hr)). by injection Hr as <-.
Qed.
Lemma turn_request_spec iteration l w :
  credit_ok l →
  wp (turn_request schema_of self workspace packet iteration l)
    (λ '(request, l') w', same_log w w' ∧ ar_execution_iteration request = iteration
       ∧ (l_tool_recovery_instruction l = None ∧ l' = l
            ∧ ar_liveness_credit request ≠ LC_TOOL_RECOVERY
            ∧ ar_max_output_tokens request = da_max_output_tokens self
          ∨ l_tool_recovery_credit_used l = false ∧ l' = credit_spent l
            ∧ ar_liveness_credit request = LC_TOOL_RECOVERY
            ∧ ar_max_output_tokens request = da_invalid_tool_retry_max_output_tokens self))
    (λ _ _, True) w.
Proof.
  intros [Hp Hu]. unfold turn_request. apply wp_bind.
  eapply wp_mono; [apply (wp_keeps same_log), logs_progress| |done]. intros verified w1 [_ Hw1].
  destruct (l_tool_recovery_instruction l) as [instruction|] eqn:Hi.
  - rewrite bool_decide_true in Hp by done. apply wp_bind, wp_lift_bind; [|done]. intros m _.
    apply wp_ret, wp_bind.
    eapply wp_mono; [apply (wp_keeps same_log), logs_progress| |done]. intros progress w2 [_ Hw2].
    apply wp_lift_bind; [|done]. intros request Hreq. apply AgentRequest_new_fields in Hreq.
    cbn in Hreq. destruct Hreq as (Hn & Hcap & Hc). rewrite Hp in Hc. apply wp_ret.
    split; [by etrans|]. split; [done|]. right. split_and!; try done.
    destruct (l_tool_recovery_credit_used l); [|done]. by specialize (Hu eq_refl).
  - rewrite bool_decide_false in Hp by by intros []. apply wp_bind, wp_ret, wp_bind.
    eapply wp_mono; [apply (wp_keeps same_log), logs_progress| |done]. intros progress w2 [_ Hw2].
    apply wp_lift_bind; [|done]. intros request Hreq. apply AgentRequest_new_fields in Hreq.
    cbn in Hreq. destruct Hreq as (Hn & Hcap & Hc). rewrite Hp in Hc. apply wp_ret.
    split; [by etrans|]. split; [done|]. left. split_and!; try done. rewrite Hc.
    unfold _liveness_credit_for_turn. by repeat case_match.
Qed.

(** *** Turns *)
Context (Hcalls : 0 <= da_max_tool_calls_per_turn self) (Hturns : 0 <= da_max_iterations self).
Record progress (l : Locals) (lg : turn_log) : Prop := {
  pg_usage : usage_of lg = {| prompt_tokens := l_prompt_tokens l;
    completion_tokens := l_completion_tokens l; total_tokens := l_total_tokens l |};
  pg_latency : sum_over as_latency_ms lg = l_latency_ms l;
  pg_tools : 0 <= l_tool_call_count l
             <= da_max_tool_calls_per_turn self * Z.of_nat (length (responses lg));
  pg_credit : credit_ok l;
  pg_recoveries : recoveries lg = if l_tool_recovery_credit_used l then 1%nat else 0%nat;
  pg_log : requests_ok self lg;
}.
Lemma sum_over_app f lg e : sum_over f (lg ++ [e]) = sum_over f lg + match e.2 with Some r => f r | None => 0 end.
Proof.
  unfold sum_over, responses. rewrite omap_app. destruct e as [request [r|]]; cbn.
  - induction (omap snd lg) as [|x l IH]; cbn; [lia|]. rewrite IH. lia.
  - rewrite app_nil_r. lia.
Qed.
Lemma responses_app lg e :
  length (responses (lg ++ [e])) = (length (responses lg) + if e.2 then 1 else 0)%nat.
Proof. unfold responses. rewrite omap_app, length_app. by destruct e as [? []]. Qed.
Lemma recoveries_app lg e :
  recoveries (lg ++ [e])
  = (recoveries lg + if bool_decide (ar_liveness_credit e.1 = LC_TOOL_RECOVERY) then 1 else 0)%nat.
Proof.
  unfold recoveries. rewrite List.filter_app, length_app. cbn. by destruct (bool_decide _).
Qed.
Lemma requests_app lg e :
  requests_ok self lg → ar_execution_iteration e.1 = Z.of_nat (length lg) + 1 →
  ar_max_output_tokens e.1
  = (if bool_decide (ar_liveness_credit e.1 = LC_TOOL_RECOVERY)
     then da_invalid_tool_retry_max_output_tokens self else da_max_output_tokens self) →
  requests_ok self (lg ++ [e]).
Proof.
  intros [Hn Hc] He Hcap. split.
  - rewrite fmap_app, Hn, length_app. cbn [length fmap list_fmap].
    rewrite Nat2Z.inj_add, seqZ_app by lia. f_equal. rewrite He.
    change (Z.of_nat 1) with 1. rewrite seqZ_cons by lia. change (Z.pred 1) with 0. cbn.
    f_equal. lia.
  - apply Forall_app. split; [done|]. by constructor.
Qed.

(** The request of a turn joins the log. *)
Lemma progress_request l l' lg request outcome :
  progress l lg →
  ar_execution_iteration request = Z.of_nat (length lg) + 1 →
  l_tool_recovery_instruction l = None ∧ l' = l
    ∧ ar_liveness_credit request ≠ LC_TOOL_RECOVERY
    ∧ ar_max_output_tokens request = da_max_output_tokens self
  ∨ l_tool_recovery_credit_used l = false ∧ l' = credit_spent l
    ∧ ar_liveness_credit request = LC_TOOL_RECOVERY
    ∧ ar_max_output_tokens request = da_invalid_tool_retry_max_output_tokens self →
  match outcome with
  | Some response => progress (with_usage response l') (lg ++ [(request, Some response)])
      ∧ l_tool_call_count (with_usage response l') = l_tool_call_count l
  | None => progress l' (lg ++ [(request, None)])
  end.
Proof using Hcalls.
  intros [Hu Hl Ht Hc Hr Hlg] Hn Hcase.
  assert (∀ o, requests_ok self (lg ++ [(request, o)])) as Hreq.
  { intros o. apply requests_app; [done|done|]. cbn [fst].
    destruct Hcase as [(_ & _ & Hne & ->)|(_ & _ & -> & ->)];
      [by rewrite bool_decide_eq_false_2|by rewrite bool_decide_eq_true_2]. }
  assert (credit_ok l' ∧ (∀ o, recoveries (lg ++ [(request, o)])
          = if l_tool_recovery_credit_used l' then 1%nat else 0%nat)
          ∧ l_tool_call_count l' = l_tool_call_count l
          ∧ l_prompt_tokens l' = l_prompt_tokens l ∧ l_completion_tokens l' = l_completion_tokens l
          ∧ l_total_tokens l' = l_total_tokens l ∧ l_latency_ms l' = l_latency_ms l)
    as (Hc' & Hr' & Hcnt & H1 & H2 & H3 & H4).
  { destruct Hcase as [(_ & -> & Hne & _)|(Hused & -> & He & _)].
    - split; [done|]. split; [|done]. intros o. rewrite recoveries_app, Hr. cbn [fst].
      rewrite bool_decide_eq_false_2 by done. lia.
    - split; [split; [symmetry; by apply bool_decide_eq_false_2; intros []|done]|].
      split; [|done]. intros o. rewrite recoveries_app, Hr, Hused. cbn [fst].
      by rewrite bool_decide_eq_true_2. }
  injection Hu as Hu1 Hu2 Hu3.
  destruct outcome as [response|].
  - split; [|done]. split; cbn [with_usage l_prompt_tokens l_completion_tokens l_total_tokens
      l_latency_ms l_tool_call_count l_tool_recovery_credit_used]; auto.
    + unfold usage_of. rewrite !sum_over_app. cbn [snd]. by rewrite Hu1, Hu2, Hu3, H1, H2, H3.
    + rewrite sum_over_app. cbn [snd]. by rewrite Hl, H4.
    + rewrite responses_app. cbn [snd]. rewrite Hcnt, Nat2Z.inj_add, Z.mul_add_distr_l. lia.
  - split; auto.
    + unfold usage_of. rewrite !sum_over_app. cbn [snd]. by rewrite !Z.add_0_r, Hu1, Hu2, Hu3, H1, H2, H3.
    + rewrite sum_over_app. cbn [snd]. lia.
    + rewrite responses_app. cbn [snd]. rewrite Hcnt. by rewrite Nat.add_0_r.
Qed.

Lemma progress_calls l l' lg k :
  advanced l l' k → progress l lg →
  l_tool_call_count l + Z.of_nat k
  <= da_max_tool_calls_per_turn self * Z.of_nat (length (responses lg)) →
  progress l' lg.
Proof.
  intros [Hp1 Hp2 Hp3 Hp4 Hused Hcount Hcred] [Hu Hl Ht Hc Hr Hlg] Hk.
  split; [rewrite Hu; f_equal; congruence|congruence|lia|auto|by rewrite Hused|done].
Qed.
Lemma reported_accounted r l lg :
  progress l lg → reported r (Z.of_nat (length (responses lg))) l →
  Z.of_nat (length lg) <= da_max_iterations self → accounted self r lg.
Proof.
  intros [Hu Hl Ht Hc Hr Hlg] (Ru & Rl & Ri & Rt) Hle.
  split; [congruence|congruence|done|done|rewrite Rt, Ri; lia| |done].
  rewrite Hr. destruct (l_tool_recovery_credit_used l); lia.
Qed.

(** The log of a world is what it was at the start of the run, and the
    requests of the run. *)
Context (base : turn_log).
Definition logged (w : World (R:=R)) (lg : turn_log) : Prop := log (w_rest w) = base ++ lg.
Lemma logged_same w w' lg : logged w lg → same_log w w' → logged w' lg.
Proof. unfold logged, same_log. congruence. Qed.
Abbreviation turn_post n := (λ (o : DeveloperRunResult + Locals) w', match o with
  | inl r => ∃ lg, logged w' lg ∧ accounted self r lg
  | inr l' => ∃ lg, logged w' lg ∧ progress l' lg ∧ length lg = n ∧ length (responses lg) = n
  end).

Lemma after_response_spec iteration remaining response l0 l lg w :
  logged w lg → progress (with_usage response l) lg → length (responses lg) = length lg →
  l_tool_call_count l = l_tool_call_count l0 →
  0 <= l_tool_call_count l0
     <= da_max_tool_calls_per_turn self * (Z.of_nat (length (responses lg)) - 1) →
  Z.of_nat (length lg) = iteration → iteration <= da_max_iterations self →
  wp (after_response clock tool_deadline observer lax_int json_loads py_str resolve_symbol sha256
        working_state_json result_json self workspace toolbox started_at iteration remaining
        response l)
    (turn_post (length lg)) (λ _ _, True) w.
Proof using Hlog Hcalls.
  intros Hw Hp Hall Hl Hcount Hn Hmax. unfold after_response. set (l1 := with_usage response l) in *.
  assert (Z.of_nat (length (responses lg)) = iteration) as Hresp by lia.
  apply wp_lift_bind; [|done]. intros assistant _.
  destruct (bool_decide (length (as_tool_calls response) = 0%nat)).
  { apply wp_bind. eapply wp_mono; [apply result_reports| |done]. intros r w1 (Hw1 & Hr & _).
    apply wp_ret. exists lg. split; [by eapply logged_same|].
    apply (reported_accounted _ l1); [done|by rewrite Hresp|lia]. }
  destruct (da_max_tool_calls_per_turn self <? Z.of_nat (length (as_tool_calls response))) eqn:Hlt.
  { apply wp_bind. eapply wp_mono; [apply stop_reports| |done]. intros r w1 (Hw1 & Hr).
    apply wp_ret. exists lg. split; [by eapply logged_same|].
    apply (reported_accounted _ l1); [done|by rewrite Hresp|lia]. }
  to_prop. apply wp_bind. eapply wp_mono; [apply tool_loop_spec| |done]. intros o w1 [Hw1 Ho].
  assert (∀ l2, advanced l1 l2 (length (as_tool_calls response)) → progress l2 lg) as Hadv.
  { intros l2 Hl2. eapply progress_calls; [done|done|]. change (l_tool_call_count l1) with (l_tool_call_count l). nia. }
  destruct o as [r|[results l2]].
  { destruct Ho as (l2 & Hl2 & Hr). apply wp_ret. exists lg. split; [by eapply logged_same|].
    apply (reported_accounted _ l2); [by apply Hadv|by rewrite Hresp|lia]. }
  apply wp_bind. eapply wp_mono; [apply record_turn_spec| |done]. intros l3 w2 [Hw2 Hl3].
  assert (progress l3 lg) as Hp3.
  { apply Hadv. pose proof (advanced_trans _ _ _ _ _ Ho Hl3) as Ha. by rewrite Nat.add_0_r in Ha. }
  apply wp_bind. eapply wp_mono; [apply (wp_keeps same_log), logs_elapsed| |done].
  intros passed w3 [_ Hw3]. assert (logged w3 lg) as Hlg3
    by (eapply logged_same; [eapply logged_same; [by eapply logged_same|done]|done]).
  destruct (Qle_bool (da_max_duration_seconds self) passed).
  - apply wp_bind. eapply wp_mono; [apply stop_reports| |done]. intros r w4 (Hw4 & Hr).
    apply wp_ret. exists lg. split; [by eapply logged_same|].
    apply (reported_accounted _ l3); [done|by rewrite Hresp|lia].
  - apply wp_ret. by exists lg.
Qed.

Lemma turn_spec iteration l lg w :
  logged w lg → progress l lg → length (responses lg) = length lg →
  Z.of_nat (length lg) + 1 = iteration → iteration <= da_max_iterations self →
  wp (turn clock complete tool_deadline observer lax_int json_loads py_str resolve_symbol sha256
        schema_of working_state_json result_json self workspace packet toolbox started_at iteration l)
    (turn_post (S (length lg))) (λ _ _, True) w.
Proof using Hlog Hcalls.
  intros Hw Hp Hall Hn Hmax. unfold turn. apply wp_bind.
  eapply wp_mono; [apply (wp_keeps same_log), logs_elapsed| |done]. intros passed w1 [_ Hw1].
  apply (logged_same _ _ lg) in Hw1; [|done]. destruct (Qle_bool _ 0).
  { apply wp_bind. eapply wp_mono; [apply stop_reports| |done]. intros r w2 (Hw2 & Hr).
    apply wp_ret. exists lg. split; [by eapply logged_same|].
    apply (reported_accounted _ l); [done|by replace (Z.of_nat (length (responses lg))) with (iteration - 1) by lia|lia]. }
  apply wp_bind. eapply wp_mono; [apply turn_request_spec, Hp| |done].
  intros [request l1] w2 (Hw2 & Hiter & Hcase). apply (logged_same _ _ lg) in Hw2; [|done].
  assert (ar_execution_iteration request = Z.of_nat (length lg) + 1) as Hnum by lia.
  set (remaining := (da_max_duration_seconds self - passed)%Q).
  set (d := q_min remaining (da_max_model_turn_seconds self)).
  destruct Hlog as (_ & Hco & _). specialize (Hco request d w2).
  apply wp_bind. unfold wp at 1, unless_timeout.
  destruct (complete request d w2) as [[response|e] w3]; cbn [fst snd] in Hco.
  - assert (logged w3 (lg ++ [(request, Some response)])) as Hw3
      by (unfold logged in *; by rewrite Hco, Hw2, app_assoc).
    destruct (progress_request l l1 lg request (Some response) Hp Hnum Hcase) as [Hp1 Hcnt].
    eapply wp_mono; [apply (after_response_spec iteration remaining response l l1 _ _ Hw3 Hp1)| |done].
    + by rewrite responses_app, length_app, Hall.
    + exact Hcnt.
    + rewrite responses_app. cbn [snd]. pose proof (pg_tools _ _ Hp). rewrite Nat2Z.inj_add.
      replace (Z.of_nat (length (responses lg)) + Z.of_nat 1 - 1) with (Z.of_nat (length (responses lg)))
        by lia. done.
    + rewrite length_app. cbn. lia.
    + done.
    + intros o w4 Ho. rewrite length_app, Nat.add_1_r in Ho. exact Ho.
  - case_bool_decide; [|done]. apply wp_bind.
    eapply wp_mono; [apply stop_reports| |done]. intros r w4 (Hw4 & Hr).
    assert (logged w3 (lg ++ [(request, None)])) as Hw3
      by (unfold logged in *; by rewrite Hco, Hw2, app_assoc).
    pose proof (progress_request l l1 lg request None Hp Hnum Hcase) as Hp1. cbn in Hp1.
    apply wp_ret. eexists. split; [by eapply logged_same|].
    assert (length (responses (lg ++ [(request, None)])) = length (responses lg)) as Hlen
      by (rewrite responses_app; cbn; lia).
    eapply reported_accounted; [done| |].
    + rewrite Hlen. by replace (Z.of_nat (length (responses lg))) with (iteration - 1) by lia.
    + rewrite length_app. cbn. lia.
Qed.
Lemma turns_spec n : ∀ iteration l lg w,
  logged w lg → progress l lg → length (responses lg) = length lg →
  Z.of_nat (length lg) + 1 = iteration → Z.of_nat (length lg) + Z.of_nat n = da_max_iterations self →
  wp (turns clock complete tool_deadline observer lax_int json_loads py_str resolve_symbol sha256
        schema_of working_state_json result_json self workspace packet toolbox started_at n iteration l)
    (λ r w', ∃ lg', logged w' lg' ∧ accounted self r lg') (λ _ _, True) w.
Proof using Hlog Hcalls.
  induction n as [|n IH]; intros iteration l lg w Hw Hp Hall Hn Hmax; cbn [turns].
  - eapply wp_mono; [apply stop_reports| |done]. intros r w1 (Hw1 & Hr). exists lg.
    split; [by eapply logged_same|]. apply (reported_accounted _ l); [done| |lia].
    by replace (Z.of_nat (length (responses lg))) with (da_max_iterations self) by lia.
  - apply wp_bind. eapply wp_mono; [apply (turn_spec iteration l lg); done || lia| |done].
    intros [r|l1] w1; cbn beta iota; [intros Ho; by apply wp_ret|].
    intros (lg1 & Hw1 & Hp1 & Hlen & Hres). apply (IH _ _ lg1); done || lia.
Qed.
End account.

Lemma DeveloperAgent_init_bounds raw self :
  DeveloperAgent_init raw = Ok self →
  1 <= da_max_iterations self <= 20 ∧ 1 <= da_max_tool_calls_per_turn self <= 32.
Proof.
  unfold DeveloperAgent_init. intros Hi. apply bind_Ok_inv in Hi as ([] & _ & Hi).
  apply bind_Ok_inv in Hi as ([] & Hn & Hi). apply bind_Ok_inv in Hi as ([] & _ & Hi).
  apply bind_Ok_inv in Hi as ([] & _ & Hi). apply bind_Ok_inv in Hi as ([] & Hc & Hi).
  repeat (apply bind_Ok_inv in Hi as ([] & _ & Hi)). injection Hi as <-. cbn.
  apply check_Ok in Hn, Hc. to_prop. lia.
Qed.

Lemma run_account `{Files} {R} clock complete tool_deadline observer lax_int json_loads py_str
    resolve_symbol sha256 schema_of working_state_json result_json log raw self task task_json
    workspace packet (w : World (R:=R)) r w' :
  DeveloperAgent_init raw = Ok self →
  log_laws clock complete observer log →
  run clock complete tool_deadline observer lax_int json_loads py_str resolve_symbol sha256
    schema_of working_state_json result_json self task task_json workspace packet w = (Ok r, w') →
  ∃ lg, log (w_rest w') = log (w_rest w) ++ lg ∧ accounted self r lg.
Proof.
  intros [Hi Hc]%DeveloperAgent_init_bounds Hlog Hrun.
  match type of Hrun with ?m w = _ =>
    enough (wp m (λ r w', ∃ lg, log (w_rest w') = log (w_rest w) ++ lg ∧ accounted self r lg)
              (λ _ _, True) w) as Hwp by exact (wp_run _ _ _ _ _ _ Hwp Hrun) end.
  clear Hrun. unfold run. apply wp_lift_bind; [|done]. intros [] _.
  apply wp_lift_bind; [|done]. intros toolbox _. apply wp_lift_bind; [|done]. intros ms _.
  apply wp_lift_bind; [|done]. intros retention _. apply wp_lift_bind; [|done]. intros shown _.
  apply wp_bind. eapply wp_mono; [by apply (wp_keeps (same_log log)), (logs_clock _ complete observer)| |done].
  intros t w1 [_ Hw1]. apply wp_bind.
  eapply wp_mono; [apply (wp_keeps (same_log log)), logs_changes| |done]. intros p w2 [_ Hw2].
  eapply wp_mono; [eapply (turns_spec _ _ _ _ _ _ _ _ _ _ _ _ log Hlog self workspace packet toolbox t
    ltac:(lia) (log (w_rest w)) _ _ _ [])| |done].
  - unfold logged. rewrite app_nil_r. by rewrite Hw2, Hw1.
  - split; try done; cbn; lia.
  - done.
  - done.
  - cbn [length]. lia.
  - intros r2 w3 (lg & Hlg & Hacc). by exists lg.
Qed.

(** ** What a run guarantees *)

(** C4.  Every run that returns accounts for what it did, whatever the model
    answers and the tools do: it made at most [max_iterations] requests, asked
    for in order and numbered from 1; its usage and latency are the sums over
    the responses received, and its iterations are their number; it ran at
    most [max_tool_calls_per_turn] tool calls per response; at most one
    request carries the recovery credit, and only that one asks for the larger
    number of output tokens. *)
Theorem run_accounted `{Files} {R} clock complete tool_deadline observer lax_int json_loads py_str
    resolve_symbol sha256 schema_of working_state_json result_json log raw self task task_json
    workspace packet (w : World (R:=R)) r w' :
  DeveloperAgent_init raw = Ok self →
  log_laws clock complete observer log →
  run clock complete tool_deadline observer lax_int json_loads py_str resolve_symbol sha256
    schema_of working_state_json result_json self task task_json workspace packet w = (Ok r, w') →
  ∃ lg, log (w_rest w') = log (w_rest w) ++ lg ∧ accounted self r lg.
Proof. apply run_account. Qed.

(** C5.  A run, finished or aborted by an exception, changes the text of no
    file but those its contract opens for writing: files of the workspace,
    outside [.git], whose own path a writable pattern matches and no read-only
    one.  The provider, the observer and Git's queries change no file, the
    root of the workspace is a resolved path, and the tool calls that the model
    sends spell their paths plainly (with other spellings a call can reach a
    read-only file). *)
Theorem developer_stays_in_scope `{FilesLaws} {R} clock complete tool_deadline observer lax_int
    json_loads py_str resolve_symbol sha256 schema_of working_state_json result_json self task
    task_json workspace packet (w : World (R:=R)) path :
  (∀ h, path_resolve h (ws_root workspace) = ws_root workspace) →
  (∀ request d w response w', complete request d w = (Ok response, w') →
     Forall (plain_call json_loads) (as_tool_calls response)) →
  (∀ h p, decoded_text (changed_files workspace h).2 p = decoded_text h p) →
  (∀ request d, texts_kept (complete request d)) →
  (∀ observe, observer = Some observe →
     ∀ role calls results p c, texts_kept (observe role calls results p c)) →
  (∀ h, path_resolve h path = path) →
  decoded_text (w_host (run clock complete tool_deadline observer lax_int json_loads py_str
    resolve_symbol sha256 schema_of working_state_json result_json self task task_json workspace
    packet w).2) path ≠ decoded_text (w_host w) path →
  writable_file (run_toolbox workspace task) path.
Proof. intros Hroot Hcalls Hgit Hcomplete Hobserver. by apply run_in_scope. Qed.

(** A reply of white space without tool calls is a valid response, but not
    a valid assistant message: the run raises [ValidationError] instead of
    stopping with [MODEL_STOP], whatever it has done before. *)
Theorem blank_reply_raises `{Files} {R} clock tool_deadline observer lax_int json_loads py_str
    resolve_symbol sha256 working_state_json result_json self workspace toolbox started_at iteration
    remaining response l (w : World (R:=R)) :
  as_content response ≠ "" → strip (as_content response) = "" → as_tool_calls response = [] →
  (AgentResponse_new response = Ok response
   ↔ str_between 1 256 (as_model response) = true ∧ 0 <= as_latency_ms response)
  ∧ after_response clock tool_deadline observer lax_int json_loads py_str resolve_symbol sha256
      working_state_json result_json self workspace toolbox started_at iteration remaining response
      l w
    = (Raise (Exn ValidationError "assistant messages require content or tool_calls"), w).
Proof.
  intros Hne Hblank Hcalls. split.
  - unfold AgentResponse_new. rewrite Hcalls. rewrite bool_decide_eq_false_2 by by intros [? _].
    destruct (str_between 1 256 (as_model response)); cbn; [|split; [done|by intros [? _]]].
    destruct (0 <=? as_latency_ms response) eqn:Hl; to_prop; cbn; split; try done.
    intros [_ ?]. lia.
  - unfold after_response. rewrite Hcalls. cbv zeta.
    rewrite (lift_raise _ _ (Exn ValidationError "assistant messages require content or tool_calls"));
      [done|].
    unfold AgentMessage_new.
    cbn [am_tool_call_id normalize_tool_call_id mbind result_bind am_content am_role].
    by rewrite Hblank.
Qed.

(** ** A run on the small file system *)
Definition toy_agent : DeveloperAgent := {|
  da_model := "m"; da_max_iterations := 3; da_max_duration_seconds := 300%Q;
  da_max_model_turn_seconds := 120%Q; da_max_tool_calls_per_turn := 8;
  da_temperature := literal 1 10; da_max_output_tokens := 1400;
  da_invalid_tool_retry_max_output_tokens := 3200; da_enable_thinking := false;
  da_context_compaction_enabled := true; da_role_context_projection_enabled := true;
  da_max_retained_tool_groups := 1; da_max_single_tool_result_tokens := 800;
  da_max_tool_results_per_turn_tokens := 1600 |}.
Definition toy_response (calls : list ToolCall) (content : string) : AgentResponse := {|
  as_model := "m"; as_content := content; as_tool_calls := calls;
  as_usage := {| prompt_tokens := 100; completion_tokens := 20; total_tokens := 120 |};
  as_latency_ms := 5; as_finish_reason := None |}.
(** The model writes a file, then stops. *)
Definition toy_complete (request : AgentRequest) (_ : Q)
    : M (@World files_machine turn_log) AgentResponse := λ w,
  let response := if bool_decide (length (w_rest w) = 0%nat)
                  then toy_response [toy_call "write_file"] "" else toy_response [] "done" in
  (Ok response, {| w_host := w_host w; w_rest := w_rest w ++ [(request, Some response)] |}).
Definition toy_loads (_ : string) : result JSON :=
  Ok (JObj (write_arguments "src/main.py" "import os")).
Definition toy_run (w : @World files_machine turn_log)
    : result DeveloperRunResult * @World files_machine turn_log :=
  @run files_machine files_files turn_log (λ r, (0%Q, r)) toy_complete (λ _ _ _, None) None toy_int
    toy_loads (λ _, "") (λ _ _ _, None) session_sha (λ _, JNull) (λ _, "{}") (λ _, "{}") toy_agent
    narrow_task "{}" {| ws_root := "/w" |} None w.
Definition toy_world : @World files_machine turn_log := {| w_host := plain_disk; w_rest := [] |}.

Lemma toy_log_laws : @log_laws files_machine turn_log (λ r, (0%Q, r)) toy_complete None id.
Proof. split_and!; [done| |done]. intros request d w. reflexivity. Qed.
Lemma run_accounted_witness :
  ∃ r w' lg, toy_run toy_world = (Ok r, w') ∧ accounted toy_agent r lg.
Proof.
  destruct (toy_run toy_world) as [[r|e] w'] eqn:Hr.
  - destruct (@run_accounted files_machine files_files turn_log (λ r, (0%Q, r)) toy_complete
      (λ _ _ _, None) None toy_int toy_loads (λ _, "") (λ _ _ _, None) session_sha (λ _, JNull)
      (λ _, "{}") (λ _, "{}") id toy_agent toy_agent narrow_task "{}" {| ws_root := "/w" |} None
      toy_world r w') as (lg & _ & Hacc); [vm_compute; reflexivity|exact toy_log_laws|exact Hr|].
    exists r, w', lg. split; [reflexivity|exact Hacc].
  - apply (f_equal (λ p, is_ok p.1)) in Hr. vm_compute in Hr. discriminate Hr.
Defined.
Lemma developer_stays_in_scope_witness :
  writable_file (run_toolbox {| ws_root := "/w" |} narrow_task) "/w/src/main.py".
Proof.
  apply (@developer_stays_in_scope files_machine files_files files_laws turn_log (λ r, (0%Q, r))
    toy_complete (λ _ _ _, None) None toy_int toy_loads (λ _, "") (λ _ _ _, None) session_sha
    (λ _, JNull) (λ _, "{}") (λ _, "{}") toy_agent narrow_task "{}" {| ws_root := "/w" |} None
    toy_world "/w/src/main.py").
  - reflexivity.
  - intros request d w response w' Hw. injection Hw as <- _. destruct (bool_decide _); cbn; [|constructor].
    constructor; [|constructor]. intros args Hargs. vm_compute in Hargs. injection Hargs as <-.
    constructor; [vm_compute; reflexivity|constructor].
  - intros h p. reflexivity.
  - intros request d w p. reflexivity.
  - intros observe Ho. discriminate Ho.
  - reflexivity.
  - vm_compute. discriminate.
Defined.
Definition toy_retention : AgentContextRetention := {|
  rt_base_messages := []; rt_max_retained_tool_groups := 1; rt_groups := [];
  rt_compacted_code_mutation_group_count := 0; rt_compacted_tool_result_group_count := 0;
  rt_tool_result_truncation_count := 0; rt_max_single_tool_result_tokens := 800;
  rt_max_tool_results_per_turn_tokens := 1600;
  rt_state := {| sb_task_id := "t1"; sb_inspected_files := ∅; sb_inspected_file_hashes := ∅;
    sb_relevant_symbols := ∅; sb_observed_ranges := ∅; sb_changed_files := ∅;
    sb_confirmed_facts := []; sb_recent_errors := []; sb_observations := [] |} |}.
Definition toy_locals : Locals := {|
  l_retention := toy_retention; l_messages := []; l_prompt_tokens := 0; l_completion_tokens := 0;
  l_total_tokens := 0; l_latency_ms := 0; l_tool_call_count := 0;
  l_successful_tool_progress := false; l_last_tool_failure := None;
  l_repeated_tool_failure_count := 0; l_tool_recovery_instruction := None;
  l_tool_recovery_credit_pending := false; l_tool_recovery_credit_used := false |}.
Lemma blank_reply_raises_witness :
  ∃ e, @after_response files_machine files_files turn_log (λ r, (0%Q, r)) (λ _ _ _, None) None toy_int
    toy_loads (λ _, "") (λ _ _ _, None) session_sha (λ _, "{}") (λ _, "{}") toy_agent
    {| ws_root := "/w" |} narrow_toolbox 0%Q 1 1%Q (toy_response [] " ") toy_locals toy_world
    = (Raise e, toy_world).
Proof.
  eexists. eapply (@blank_reply_raises files_machine files_files turn_log);
    [discriminate|reflexivity|reflexivity].
Defined.
