(* ===== verification/Conflict.v ===== *)
(** * Conflict: the evidence of a merge conflict and the repair policy

    [models/conflict.py], [models/integration_gate.py] and
    [runtime/integration_policy.py]: the structured evidence of one conflict,
    its fingerprint, the deterministic policy that routes it, and the snapshot
    of the human gate.  The inspection of a blob is a callback of [evaluate]
    that may run in any state. *)
From stdpp Require Import options.
From S2P Require Import Prelude Contracts RunModels Lease Json Git Scope.
Open Scope Z_scope.

(** ** [models/conflict.py] *)
Inductive MergeConflictStageSide : Set := SIDE_BASE | SIDE_INTEGRATION | SIDE_TASK.
#[export] Instance MergeConflictStageSide_eq_dec : EqDecision MergeConflictStageSide.
Proof. solve_decision. Defined.
Definition MergeConflictStageSide_value (s : MergeConflictStageSide) : string :=
  match s with SIDE_BASE => "base" | SIDE_INTEGRATION => "integration" | SIDE_TASK => "task" end.
Inductive MergeConflictStageShape : Set :=
  | THREE_WAY | ADD_ADD | MODIFY_DELETE | DELETE_MODIFY | COMPLEX.
#[export] Instance MergeConflictStageShape_eq_dec : EqDecision MergeConflictStageShape.
Proof. solve_decision. Defined.
Definition MergeConflictStageShape_value (s : MergeConflictStageShape) : string :=
  match s with
  | THREE_WAY => "THREE_WAY" | ADD_ADD => "ADD_ADD" | MODIFY_DELETE => "MODIFY_DELETE"
  | DELETE_MODIFY => "DELETE_MODIFY" | COMPLEX => "COMPLEX"
  end.
(** The dictionaries; [None] is a missing key. *)
Definition _STAGE_SIDE (stage : Z) : option MergeConflictStageSide :=
  if stage =? 1 then Some SIDE_BASE
  else if stage =? 2 then Some SIDE_INTEGRATION
  else if stage =? 3 then Some SIDE_TASK
  else None.
Definition _STAGE_SHAPE (stage_numbers : list Z) : option MergeConflictStageShape :=
  if bool_decide (stage_numbers = [1; 2; 3]) then Some THREE_WAY
  else if bool_decide (stage_numbers = [2; 3]) then Some ADD_ADD
  else if bool_decide (stage_numbers = [1; 2]) then Some MODIFY_DELETE
  else if bool_decide (stage_numbers = [1; 3]) then Some DELETE_MODIFY
  else None.

Definition is_octal (c : ascii) : bool :=
  let n := nat_of_ascii c in ((48 <=? n) && (n <=? 55))%nat.
(** [^[0-7]{6}$] and [^[0-9a-fA-F]{40,64}$] *)
Definition mode_ok (s : string) : bool := (str_len s =? 6)%nat && forallb is_octal (chars s).
Definition any_oid (s : string) : bool := hex_string is_any_hex 40 64 s.

Record MergeConflictStage : Set := {
  mcs_stage : Z;
  mcs_side : MergeConflictStageSide;
  mcs_mode : string;
  mcs_object_id : string;
}.
#[export] Instance MergeConflictStage_eq_dec : EqDecision MergeConflictStage.
Proof. solve_decision. Defined.
Definition validate_stage_side (self : MergeConflictStage) : result MergeConflictStage :=
  valid_if (bool_decide (_STAGE_SIDE (mcs_stage self) = Some (mcs_side self)))
    "conflict stage side must match Git stage semantics" ;;
  Ok self.
Definition MergeConflictStage_new (raw : MergeConflictStage) : result MergeConflictStage :=
  valid_if (bool_decide (mcs_stage raw ∈ [1; 2; 3])) "stage" ;;
  valid_if (mode_ok (mcs_mode raw)) "mode" ;;
  valid_if (any_oid (mcs_object_id raw)) "object_id" ;;
  validate_stage_side raw.

Record MergeConflictFile : Set := {
  mcf_path : string;
  mcf_stages : list MergeConflictStage;
}.
#[export] Instance MergeConflictFile_eq_dec : EqDecision MergeConflictFile.
Proof. solve_decision. Defined.
Definition stage_numbers (self : MergeConflictFile) : list Z := mcs_stage <$> mcf_stages self.
Definition validate_stage_order (self : MergeConflictFile) : result MergeConflictFile :=
  valid_if (no_duplicates (stage_numbers self)) "conflict file stages must be unique" ;;
  valid_if (bool_decide (stage_numbers self = merge_sort Z.le (stage_numbers self)))
    "conflict file stages must be ordered by stage number" ;;
  Ok self.
Definition MergeConflictFile_new (raw : MergeConflictFile) : result MergeConflictFile :=
  valid_if (text_ok 1 4096 (mcf_path raw)) "path" ;;
  valid_if ((1 <=? length (mcf_stages raw)) && (length (mcf_stages raw) <=? 3))%nat "stages" ;;
  validate_stage_order raw.
Definition stage_shape (self : MergeConflictFile) : MergeConflictStageShape :=
  default COMPLEX (_STAGE_SHAPE (stage_numbers self)).

Record MergeConflictMessage : Set := {
  mcm_conflict_type : string;
  mcm_paths : list string;
  mcm_message : string;
}.
#[export] Instance MergeConflictMessage_eq_dec : EqDecision MergeConflictMessage.
Proof. solve_decision. Defined.
Definition MergeConflictMessage_new (raw : MergeConflictMessage) : result MergeConflictMessage :=
  valid_if (text_ok 1 256 (mcm_conflict_type raw)) "conflict_type" ;;
  valid_if (text_ok 1 4096 (mcm_message raw)) "message" ;;
  Ok raw.

Record MergeConflictEvidence : Set := {
  mce_integration_head : string;
  mce_task_commit : string;
  mce_conflict_ref : string;
  mce_marker_commit : string;
  mce_conflicted_tree : string;
  mce_conflicting_paths : list string;
  mce_conflict_types : list string;
  mce_files : list MergeConflictFile;
  mce_messages : list MergeConflictMessage;
  mce_raw_git_evidence : string;
  mce_raw_git_evidence_truncated : bool;
}.
#[export] Instance MergeConflictEvidence_eq_dec : EqDecision MergeConflictEvidence.
Proof. solve_decision. Defined.
Definition validate_evidence_consistency (self : MergeConflictEvidence)
    : result MergeConflictEvidence :=
  let file_paths := mcf_path <$> mce_files self in
  valid_if (no_duplicates file_paths) "conflict files must have unique paths" ;;
  valid_if (bool_decide (mce_conflicting_paths self = file_paths))
    "conflicting_paths must exactly match conflict file order" ;;
  valid_if (no_duplicates (mce_conflict_types self)) "conflict_types must be unique" ;;
  let message_types := mcm_conflict_type <$> mce_messages self in
  valid_if (negb (existsb (λ t, bool_decide (t ∉ message_types)) (mce_conflict_types self)))
    "conflict_types must be backed by merge-tree message records" ;;
  Ok self.
(** The files and messages were validated when they were made. *)
Definition MergeConflictEvidence_new (raw : MergeConflictEvidence) : result MergeConflictEvidence :=
  valid_if (any_oid (mce_integration_head raw)) "integration_head" ;;
  valid_if (any_oid (mce_task_commit raw)) "task_commit" ;;
  valid_if (text_ok 1 512 (mce_conflict_ref raw)) "conflict_ref" ;;
  valid_if (any_oid (mce_marker_commit raw)) "marker_commit" ;;
  valid_if (any_oid (mce_conflicted_tree raw)) "conflicted_tree" ;;
  valid_if (negb (bool_decide (mce_conflicting_paths raw = []))) "conflicting_paths" ;;
  valid_if (negb (bool_decide (mce_files raw = []))) "files" ;;
  valid_if (text_ok 1 16000 (mce_raw_git_evidence raw)) "raw_git_evidence" ;;
  validate_evidence_consistency raw.

(** ** [models/integration_gate.py] *)
Inductive IntegrationPolicyRoute : Set := ROUTE_AUTO_REPAIR_CANDIDATE | HUMAN_REQUIRED.
Inductive HumanGateDecision : Set := AUTHORIZE_REPAIR | ABORT.
Inductive IntegrationGateState : Set :=
  | AUTO_REPAIR_CANDIDATE | AWAITING_HUMAN | REPAIR_AUTHORIZED | ABORTED.
#[export] Instance IntegrationPolicyRoute_eq_dec : EqDecision IntegrationPolicyRoute.
Proof. solve_decision. Defined.
#[export] Instance HumanGateDecision_eq_dec : EqDecision HumanGateDecision.
Proof. solve_decision. Defined.
#[export] Instance IntegrationGateState_eq_dec : EqDecision IntegrationGateState.
Proof. solve_decision. Defined.
Definition IntegrationPolicyRoute_value (r : IntegrationPolicyRoute) : string :=
  match r with
  | ROUTE_AUTO_REPAIR_CANDIDATE => "AUTO_REPAIR_CANDIDATE"
  | HUMAN_REQUIRED => "HUMAN_REQUIRED"
  end.
Definition HumanGateDecision_value (d : HumanGateDecision) : string :=
  match d with AUTHORIZE_REPAIR => "AUTHORIZE_REPAIR" | ABORT => "ABORT" end.
(** [HumanGateDecision(text)] *)
Definition HumanGateDecision_of (text : string) : result HumanGateDecision :=
  if bool_decide (text = "AUTHORIZE_REPAIR") then Ok AUTHORIZE_REPAIR
  else if bool_decide (text = "ABORT") then Ok ABORT
  else raise ValueError (text +:+ " is not a valid HumanGateDecision").

Record IntegrationPolicyDecision : Set := {
  ipd_route : IntegrationPolicyRoute;
  ipd_evidence_fingerprint : string;
  ipd_automatic_repair_enabled : bool;
  ipd_human_repair_authorizable : bool;
  ipd_conflicting_paths : list string;
  ipd_reasons : list string;
}.
#[export] Instance IntegrationPolicyDecision_eq_dec : EqDecision IntegrationPolicyDecision.
Proof. solve_decision. Defined.
Definition validate_route (self : IntegrationPolicyDecision) : result IntegrationPolicyDecision :=
  valid_if (no_duplicates (ipd_conflicting_paths self)) "policy conflicting paths must be unique" ;;
  if decide (ipd_route self = ROUTE_AUTO_REPAIR_CANDIDATE) then
    valid_if (ipd_automatic_repair_enabled self)
      "automatic repair candidate requires the policy to be enabled" ;;
    valid_if (ipd_human_repair_authorizable self)
      "automatic repair candidate must satisfy hard repair boundaries" ;;
    Ok self
  else Ok self.
Definition IntegrationPolicyDecision_new (raw : IntegrationPolicyDecision)
    : result IntegrationPolicyDecision :=
  valid_if (is_sha256_hex (ipd_evidence_fingerprint raw)) "evidence_fingerprint" ;;
  valid_if (negb (bool_decide (ipd_conflicting_paths raw = []))) "conflicting_paths" ;;
  valid_if (negb (bool_decide (ipd_reasons raw = []))) "reasons" ;;
  validate_route raw.

Record HumanIntegrationDecision : Set := {
  hid_decision : HumanGateDecision;
  hid_actor : string;
  hid_note : string;
  hid_decision_ref : string;
  hid_decision_commit : string;
  hid_evidence_fingerprint : string;
  hid_policy_fingerprint : string;
  hid_conflict_marker_commit : string;
}.
#[export] Instance HumanIntegrationDecision_eq_dec : EqDecision HumanIntegrationDecision.
Proof. solve_decision. Defined.
Definition single_line (value : string) : bool :=
  negb (in_string (ascii_of_nat 10) value || in_string (ascii_of_nat 13) value).
Definition require_single_line_metadata (value : string) : result unit :=
  valid_if (single_line value) "human decision metadata must be single-line".
Definition HumanIntegrationDecision_new (raw : HumanIntegrationDecision)
    : result HumanIntegrationDecision :=
  valid_if (text_ok 1 128 (hid_actor raw)) "actor" ;;
  require_single_line_metadata (hid_actor raw) ;;
  valid_if (str_len (hid_note raw) <=? 512)%nat "note" ;;
  require_single_line_metadata (hid_note raw) ;;
  valid_if (text_ok 1 512 (hid_decision_ref raw)) "decision_ref" ;;
  valid_if (any_oid (hid_decision_commit raw)) "decision_commit" ;;
  valid_if (is_sha256_hex (hid_evidence_fingerprint raw)) "evidence_fingerprint" ;;
  valid_if (is_sha256_hex (hid_policy_fingerprint raw)) "policy_fingerprint" ;;
  valid_if (any_oid (hid_conflict_marker_commit raw)) "conflict_marker_commit" ;;
  Ok raw.

(** [integration_may_advance] is the literal [False] and has no field. *)
Record IntegrationGateSnapshot : Set := {
  igs_task_id : string;
  igs_task_branch : string;
  igs_task_commit : string;
  igs_integration_ref : string;
  igs_integration_head : string;
  igs_conflict_ref : string;
  igs_conflict_marker_commit : string;
  igs_evidence_fingerprint : string;
  igs_policy_fingerprint : string;
  igs_policy : IntegrationPolicyDecision;
  igs_state : IntegrationGateState;
  igs_human_decision : option HumanIntegrationDecision;
  igs_repair_may_start : bool;
}.
#[export] Instance IntegrationGateSnapshot_eq_dec : EqDecision IntegrationGateSnapshot.
Proof. solve_decision. Defined.
(** The states after a decision; the dictionary has no other key, but the
    earlier returns leave no other state. *)
Definition expected_decision (s : IntegrationGateState) : result HumanGateDecision :=
  match s with
  | REPAIR_AUTHORIZED => Ok AUTHORIZE_REPAIR
  | ABORTED => Ok ABORT
  | _ => raise KeyError "state"
  end.
Definition validate_decided (self : IntegrationGateSnapshot) : result IntegrationGateSnapshot :=
  match igs_human_decision self with
  | None => invalid "terminal human gate states require a durable human decision"
  | Some d =>
      valid_if (bool_decide (hid_evidence_fingerprint d = igs_evidence_fingerprint self))
        "human decision must reference the same conflict evidence" ;;
      valid_if (bool_decide (hid_policy_fingerprint d = igs_policy_fingerprint self))
        "human decision must reference the same integration policy" ;;
      valid_if (bool_decide (hid_conflict_marker_commit d = igs_conflict_marker_commit self))
        "human decision must reference the same conflict marker" ;;
      expected ← expected_decision (igs_state self);
      valid_if (bool_decide (hid_decision d = expected))
        "human decision is inconsistent with integration gate state" ;;
      valid_if (bool_decide (igs_repair_may_start self
                             = bool_decide (expected = AUTHORIZE_REPAIR)))
        "repair permission must match the explicit human decision" ;;
      valid_if (negb (igs_repair_may_start self
                      && negb (ipd_human_repair_authorizable (igs_policy self))))
        "human authorization cannot bypass hard repair boundaries" ;;
      Ok self
  end.
Definition validate_gate_state (self : IntegrationGateSnapshot) : result IntegrationGateSnapshot :=
  valid_if (bool_decide (ipd_evidence_fingerprint (igs_policy self)
                         = igs_evidence_fingerprint self))
    "policy and gate must reference the same conflict evidence" ;;
  match igs_state self with
  | AUTO_REPAIR_CANDIDATE =>
      valid_if (bool_decide (ipd_route (igs_policy self) = ROUTE_AUTO_REPAIR_CANDIDATE))
        "auto-repair candidate state requires matching policy route" ;;
      valid_if (is_none (igs_human_decision self))
        "auto-repair candidate state must not contain a human decision" ;;
      valid_if (igs_repair_may_start self)
        "auto-repair candidate state must permit a later repair attempt" ;;
      Ok self
  | st =>
      valid_if (bool_decide (ipd_route (igs_policy self) = HUMAN_REQUIRED))
        "human gate states require HUMAN_REQUIRED policy route" ;;
      match st with
      | AWAITING_HUMAN =>
          valid_if (is_none (igs_human_decision self))
            "awaiting-human state must not contain a human decision" ;;
          valid_if (negb (igs_repair_may_start self))
            "repair must remain blocked while awaiting a human decision" ;;
          Ok self
      | _ => validate_decided self
      end
  end.
(** The policy and the decision were validated when they were made. *)
Definition IntegrationGateSnapshot_new (raw : IntegrationGateSnapshot)
    : result IntegrationGateSnapshot :=
  valid_if (text_ok 1 128 (igs_task_id raw)) "task_id" ;;
  valid_if (text_ok 1 512 (igs_task_branch raw)) "task_branch" ;;
  valid_if (any_oid (igs_task_commit raw)) "task_commit" ;;
  valid_if (text_ok 1 512 (igs_integration_ref raw)) "integration_ref" ;;
  valid_if (any_oid (igs_integration_head raw)) "integration_head" ;;
  valid_if (text_ok 1 512 (igs_conflict_ref raw)) "conflict_ref" ;;
  valid_if (any_oid (igs_conflict_marker_commit raw)) "conflict_marker_commit" ;;
  valid_if (is_sha256_hex (igs_evidence_fingerprint raw)) "evidence_fingerprint" ;;
  valid_if (is_sha256_hex (igs_policy_fingerprint raw)) "policy_fingerprint" ;;
  validate_gate_state raw.

(** ** [runtime/integration_policy.py] *)
Definition _DEFAULT_AUTO_REPAIR_SUFFIXES : list string := [".md"; ".py"; ".pyi"; ".rst"; ".txt"].
Definition _DEFAULT_PROTECTED_PREFIXES : list string := [".devflow/"; ".github/"; ".gitlab/"].
Definition _DEFAULT_PROTECTED_DIRECTORY_NAMES : list string :=
  [".devflow"; ".github"; ".gitlab"; "tests"].
Definition _DEFAULT_PROTECTED_BASENAMES : list string :=
  [".env"; "conftest.py"; "package-lock.json"; "package.json"; "pnpm-lock.yaml"; "poetry.lock";
   "pyproject.toml"; "uv.lock"; "yarn.lock"].

(** [json.dumps] with [ensure_ascii=True]: the characters outside the
    printable ASCII range occur in string literals only, so they are escaped
    in the text of the other encoder. *)
Definition ascii_char (c : ascii) : list ascii :=
  let n := nat_of_ascii c in
  if (n <? 127)%nat then [c]
  else ["\"%char; "u"%char; "0"%char; "0"%char; hex_digit (n / 16); hex_digit (n mod 16)].
Definition dumps_ascii (j : JSON) : string := of_chars (mjoin (ascii_char <$> chars (dumps j))).

Definition stage_payload (stage : MergeConflictStage) : JSON :=
  JObj [("stage", JInt (mcs_stage stage));
        ("side", JStr (MergeConflictStageSide_value (mcs_side stage)));
        ("mode", JStr (mcs_mode stage)); ("object_id", JStr (mcs_object_id stage))].
Definition file_payload (file : MergeConflictFile) : JSON :=
  JObj [("path", JStr (mcf_path file));
        ("stage_shape", JStr (MergeConflictStageShape_value (stage_shape file)));
        ("stages", JList (stage_payload <$> mcf_stages file))].
Definition evidence_payload (evidence : MergeConflictEvidence) : JSON :=
  JObj [("integration_head", JStr (mce_integration_head evidence));
        ("task_commit", JStr (mce_task_commit evidence));
        ("conflict_ref", JStr (mce_conflict_ref evidence));
        ("marker_commit", JStr (mce_marker_commit evidence));
        ("conflicted_tree", JStr (mce_conflicted_tree evidence));
        ("conflict_types", JList (JStr <$> mce_conflict_types evidence));
        ("files", JList (file_payload <$> mce_files evidence))].
Definition policy_payload (decision : IntegrationPolicyDecision) : JSON :=
  JObj [("route", JStr (IntegrationPolicyRoute_value (ipd_route decision)));
        ("automatic_repair_enabled", JBool (ipd_automatic_repair_enabled decision));
        ("human_repair_authorizable", JBool (ipd_human_repair_authorizable decision));
        ("conflicting_paths", JList (JStr <$> ipd_conflicting_paths decision))].

(** *** Paths

    [PurePosixPath(path).name] and [.suffix]; the root of an absolute path is
    no name and no protected directory. *)
Definition path_name (path : string) : string := default "" (last (path_parts path)).
Fixpoint rfind (c : ascii) (l : list ascii) : option nat :=
  match l with
  | [] => None
  | d :: l =>
      match rfind c l with
      | Some i => Some (S i)
      | None => if decide (d = c) then Some 0%nat else None
      end
  end.
Definition path_suffix (path : string) : string :=
  let name := chars (path_name path) in
  match rfind "."%char name with
  | Some i => if ((0 <? i) && (i <? length name - 1))%nat then of_chars (drop i name) else ""
  | None => ""
  end.
Example suffixes :
  path_suffix <$> ["a/b.PY"; "a."; ".env"; "a.tar.gz"; ".."; "a..b"; ""; "a.b/c"]
  = [".PY"; ""; ""; ".gz"; ""; ".b"; ""; ""].
Proof. vm_compute. reflexivity. Qed.

Record IntegrationConflictPolicy : Set := {
  icp_automatic_repair_enabled : bool;
  icp_auto_repair_suffixes : list string;
  icp_protected_prefixes : list string;
  icp_protected_basenames : list string;
}.
(** [IntegrationConflictPolicy(...)]; a frozenset is a list that is only
    searched. *)
Definition IntegrationConflictPolicy_init (enabled : bool) (suffixes prefixes basenames : list string)
    : result IntegrationConflictPolicy :=
  check (negb (existsb (λ s, negb (str_startswith "." s) || in_string "/"%char s) suffixes))
    ValueError "auto-repair suffixes must be simple dotted file suffixes" ;;
  check (negb (existsb (λ p, bool_decide (p = "") || str_startswith "/" p) prefixes))
    ValueError "protected prefixes must be non-empty repository-relative prefixes" ;;
  check (negb (existsb (λ n, bool_decide (n = "") || in_string "/"%char n) basenames))
    ValueError "protected basenames must be simple file names" ;;
  Ok {| icp_automatic_repair_enabled := enabled; icp_auto_repair_suffixes := suffixes;
        icp_protected_prefixes := prefixes; icp_protected_basenames := basenames |}.
Definition default_policy (enabled : bool) : IntegrationConflictPolicy := {|
  icp_automatic_repair_enabled := enabled;
  icp_auto_repair_suffixes := _DEFAULT_AUTO_REPAIR_SUFFIXES;
  icp_protected_prefixes := _DEFAULT_PROTECTED_PREFIXES;
  icp_protected_basenames := _DEFAULT_PROTECTED_BASENAMES |}.
Implicit Types self : IntegrationConflictPolicy.

Definition _is_supported_text_path self (path : string) : bool :=
  bool_decide (lower (path_suffix path) ∈ icp_auto_repair_suffixes self).
Definition _is_protected_path self (path : string) : bool :=
  let normalized := if str_startswith "./" path then of_chars (drop 2 (chars path)) else path in
  let parts := path_parts normalized in
  let name := path_name normalized in
  existsb (λ prefix, str_startswith prefix normalized) (icp_protected_prefixes self)
  || existsb (λ part, bool_decide (part ∈ _DEFAULT_PROTECTED_DIRECTORY_NAMES))
       (take (length parts - 1) parts)
  || bool_decide (name ∈ icp_protected_basenames self)
  || str_startswith "test_" name || str_endswith "_test.py" name.

(** *** Routing *)
(** [any(not f(x) for x in l)] *)
Fixpoint any_fails {S A} (f : A → M S bool) (l : list A) : M S bool :=
  match l with
  | [] => mret false
  | a :: l => ok ← f a; if (ok : bool) then any_fails f l else mret true
  end.
Definition blocker (b : bool) (message : string) : list string := if b then [message] else [].

Section policy.
Context (sha256 : string → string).
Definition conflict_evidence_fingerprint (evidence : MergeConflictEvidence) : string :=
  sha256 (encode_utf8 (dumps (evidence_payload evidence))).
Definition integration_policy_fingerprint (decision : IntegrationPolicyDecision) : string :=
  sha256 (encode_utf8 (dumps_ascii (policy_payload decision))).

Context {S : Type}.
(** The loop over the files. *)
Definition file_blockers self (blob_is_safe_text : option (string → M S bool))
    (conflict_file : MergeConflictFile) : M S (list string) :=
  let mode := existsb (λ stage, negb (bool_decide (mcs_mode stage = "100644")))
                (mcf_stages conflict_file) in
  unsafe ← match blob_is_safe_text with
           | None => mret false
           | Some safe => any_fails (λ stage, safe (mcs_object_id stage)) (mcf_stages conflict_file)
           end;
  mret (blocker mode
          (mcf_path conflict_file +:+ ": repair requires regular non-executable file stages")
        ++ blocker (_is_protected_path self (mcf_path conflict_file))
          (mcf_path conflict_file +:+ ": protected path cannot be delegated to Agent Repair")
        ++ blocker unsafe
          (mcf_path conflict_file
           +:+ ": conflicted Git blobs are not safe bounded UTF-8 text")).
Fixpoint files_blockers self (blob_is_safe_text : option (string → M S bool))
    (files : list MergeConflictFile) : M S (list string) :=
  match files with
  | [] => mret []
  | file :: files =>
      b ← file_blockers self blob_is_safe_text file;
      bs ← files_blockers self blob_is_safe_text files;
      mret (b ++ bs)
  end.
Definition automatic_blockers self (evidence : MergeConflictEvidence) : list string :=
  blocker (negb (icp_automatic_repair_enabled self))
    "automatic merge-conflict repair policy is disabled"
  ++ match mce_files evidence with
     | [conflict_file] =>
         blocker (negb (bool_decide (stage_shape conflict_file = THREE_WAY)))
           ("automatic repair requires a THREE_WAY stage shape; observed "
            +:+ MergeConflictStageShape_value (stage_shape conflict_file))
         ++ blocker (negb (_is_supported_text_path self (mcf_path conflict_file)))
           "conflicted path is not in the narrow automatic text-file allowlist"
     | _ => ["automatic repair is limited to exactly one conflicted path"]
     end
  ++ blocker (negb (bool_decide (mce_conflict_types evidence = ["CONFLICT (contents)"])))
       ("automatic repair requires only native CONFLICT (contents); observed "
        +:+ (let observed := join ", " (mce_conflict_types evidence) in
             if bool_decide (observed = "") then "<none>" else observed)).
Definition scope_blockers (scope : ScopeCheckResult) : list string :=
  blocker (negb (passed scope))
    ("conflict path is outside the task repair scope: "
     +:+ join ", " ((λ v, ScopeViolationKind_value (sv_kind v) +:+ ":" +:+ sv_path v)
                      <$> sc_violations scope)).
Definition evaluate self (evidence : MergeConflictEvidence) (task : TaskContract)
    (blob_is_safe_text : option (string → M S bool)) : M S IntegrationPolicyDecision :=
  let fingerprint := conflict_evidence_fingerprint evidence in
  scope ← lift (scope_check task (mce_conflicting_paths evidence));
  let inspection := blocker (is_none blob_is_safe_text)
    "repair authorization requires bounded Git blob text inspection" in
  of_files ← files_blockers self blob_is_safe_text (mce_files evidence);
  let hard_blockers := scope_blockers scope ++ inspection ++ of_files in
  let blockers := hard_blockers ++ automatic_blockers self evidence in
  if bool_decide (blockers = []) then
    lift (IntegrationPolicyDecision_new {|
      ipd_route := ROUTE_AUTO_REPAIR_CANDIDATE; ipd_evidence_fingerprint := fingerprint;
      ipd_automatic_repair_enabled := true; ipd_human_repair_authorizable := true;
      ipd_conflicting_paths := mce_conflicting_paths evidence;
      ipd_reasons :=
        ["policy permits only a later bounded repair attempt; integration remains stopped"] |})
  else
    lift (IntegrationPolicyDecision_new {|
      ipd_route := HUMAN_REQUIRED; ipd_evidence_fingerprint := fingerprint;
      ipd_automatic_repair_enabled := icp_automatic_repair_enabled self;
      ipd_human_repair_authorizable := bool_decide (hard_blockers = []);
      ipd_conflicting_paths := mce_conflicting_paths evidence;
      ipd_reasons := blockers |}).
End policy.
