(* ===== verification/Classifier.v ===== *)
(** * Classifier: reproducing a conflict and reading Git's account of it

    [runtime/conflict_classifier.py]: [GitMergeConflictClassifier] over the
    machine of [Git].  It reads what Git prints as bytes: one [ascii] per byte.
    Text that is not ASCII is decoded by Python's UTF-8 codec with its error
    handlers, which is a parameter ([Codec]), since a [str] of the model has
    the code points below 256 only; strict ASCII and integers are read here. *)
From stdpp Require Import options.
From S2P Require Import Prelude Contracts RunModels Merge Git MergeQueue Conflict.
Open Scope Z_scope.

(** The same subprocess in binary mode, with the bytes for its input. *)
Class GitBytes `{Machine} : Type := {
  run_git_bytes : string → list string → option string → Host → process_result * Host;
}.
(** [os.fsdecode(b)], [b.decode("utf-8", errors="replace")] and
    [b.decode("utf-8", errors="backslashreplace")] *)
Class Codec : Type := {
  fsdecode : string → string;
  decode_replace : string → string;
  decode_backslashreplace : string → string;
}.
Definition ascii_only (bytes : string) : bool :=
  forallb (λ c, nat_of_ascii c <? 128)%nat (chars bytes).
(** All three are the identity on ASCII. *)
Class CodecLaws `{Codec} : Prop := {
  fsdecode_ascii b : ascii_only b = true → fsdecode b = b;
  decode_replace_ascii b : ascii_only b = true → decode_replace b = b;
  decode_backslashreplace_ascii b : ascii_only b = true → decode_backslashreplace b = b;
}.

(** ** Reading bytes *)
(** [b.decode("ascii")], [None] on [UnicodeDecodeError]. *)
Definition decode_ascii (bytes : string) : option string :=
  if ascii_only bytes then Some bytes else None.
Definition is_c_space (c : ascii) : bool :=
  let n := nat_of_ascii c in ((9 <=? n) && (n <=? 13) || (n =? 32))%nat.
(** A word without spaces and NUL, in ASCII: object ids, modes, refs. *)
Definition plain_char (c : ascii) : bool :=
  (nat_of_ascii c <? 128)%nat && negb (is_c_space c) && negb (bool_decide (c = nul)).
Definition plain (s : string) : Prop := s ≠ "" ∧ forallb plain_char (chars s) = true.
(** [bytes.split()] *)
Fixpoint split_bytes_space (cur l : list ascii) : list (list ascii) :=
  let flush := match cur with [] => [] | _ => [reverse cur] end in
  match l with
  | [] => flush
  | c :: l => if is_c_space c then flush ++ split_bytes_space [] l else split_bytes_space (c :: cur) l
  end.
Definition split_bytes (b : string) : list string := of_chars <$> split_bytes_space [] (chars b).
(** [bytes.partition(sep)]: [None] when the separator is missing. *)
Fixpoint partition_chars (sep : ascii) (l : list ascii) : option (list ascii * list ascii) :=
  match l with
  | [] => None
  | c :: l =>
      if decide (c = sep) then Some ([], l)
      else '(a, b) ← partition_chars sep l; Some (c :: a, b)
  end.
Definition partition_on (sep : ascii) (s : string) : option (string * string) :=
  '(a, b) ← partition_chars sep (chars s); Some (of_chars a, of_chars b).

(** [int(s)] of an ASCII string: white space around, a sign, and at most 4300
    digits, which single underscores may separate. *)
Fixpoint drop_c_spaces (l : list ascii) : list ascii :=
  match l with
  | c :: l' => if is_c_space c then drop_c_spaces l' else l
  | [] => []
  end.
Definition is_digit (c : ascii) : bool :=
  let n := nat_of_ascii c in ((48 <=? n) && (n <=? 57))%nat.
Fixpoint int_digits (acc : Z) (after_digit : bool) (l : list ascii) : option Z :=
  match l with
  | [] => if after_digit then Some acc else None
  | c :: l =>
      if is_digit c then int_digits (10 * acc + (Z.of_nat (nat_of_ascii c) - 48)) true l
      else if bool_decide (c = "_"%char) && after_digit then int_digits acc false l
      else None
  end.
Definition python_int (s : string) : option Z :=
  let body := reverse (drop_c_spaces (reverse (drop_c_spaces (chars s)))) in
  let '(negative, l) := match body with
                        | "+"%char :: l => (false, l)
                        | "-"%char :: l => (true, l)
                        | l => (false, l)
                        end in
  if (length (filter (λ c, is_digit c = true) l) <=? 4300)%nat then
    n ← int_digits 0 false l;
    Some (if negative : bool then - n else n)
  else None.
Example ints :
  python_int <$> ["12"; " -3"; "+1"; "1_0"; "_1"; "1__0"; "1_"; "+ 1"; ""; "00_1"]
  = [Some 12; Some (-3); Some 1; Some 10; None; None; None; None; None; Some 1].
Proof. vm_compute. reflexivity. Qed.

Definition conflict_error (message : string) : exn := Exn MergeConflictClassificationError message.
Definition _DEFAULT_RAW_EVIDENCE_LIMIT : nat := 8000.
Definition _INTEGRATION_PREFIX : string := "refs/devflow/integration/".
Definition _CONFLICT_PREFIX : string := "refs/devflow/integration-conflicts/".
Definition starts_of (prefix s : string) : string := of_chars (drop (str_len prefix) (chars s)).

Section parsing.
Context `{Codec}.
Definition _decode_text (value : string) : string := decode_replace value.
Definition _require_oid (value label : string) : result unit :=
  check (any_oid value) MergeConflictClassificationError (label +:+ " is not a full Git object id").
Definition _decode_oid (value label : string) : result string :=
  decoded ← of_option (conflict_error (label +:+ " is not ASCII")) (decode_ascii value);
  _require_oid decoded label ;;
  Ok decoded.
Definition _decode_count (value : string) : result Z :=
  count ← of_option (conflict_error "merge-tree message path count is malformed")
            (text ← decode_ascii value; python_int text);
  check (negb ((count <? 0) || (1000 <? count))) MergeConflictClassificationError
    "merge-tree message path count is outside the supported bound" ;;
  Ok count.

Definition _parse_stage_record (record : string) : result (string * MergeConflictStage) :=
  let boundary := conflict_error "merge-tree conflict stage record has an invalid path boundary" in
  '(metadata, raw_path) ← of_option boundary (partition_on (ascii_of_nat 9) record);
  check (negb (bool_decide (raw_path = ""))) MergeConflictClassificationError
    (exn_message boundary) ;;
  match split_bytes metadata with
  | [mode_bytes; object_bytes; stage_bytes] =>
      '(mode, object_id, stage_number) ← of_option
        (conflict_error "merge-tree conflict stage metadata is malformed")
        (mode ← decode_ascii mode_bytes;
         object_id ← decode_ascii object_bytes;
         stage_text ← decode_ascii stage_bytes;
         stage_number ← python_int stage_text;
         Some (mode, object_id, stage_number));
      side ← of_option (conflict_error ("merge-tree returned unsupported conflict stage: "
                                        +:+ str_of_Z stage_number))
               (_STAGE_SIDE stage_number);
      check (mode_ok mode) MergeConflictClassificationError
        "merge-tree returned an invalid file mode" ;;
      check (any_oid object_id) MergeConflictClassificationError
        "merge-tree returned an invalid stage object id" ;;
      let path := fsdecode raw_path in
      check (negb (bool_decide (path = ""))) MergeConflictClassificationError
        "merge-tree returned an empty conflict path" ;;
      stage ← MergeConflictStage_new {|
        mcs_stage := stage_number; mcs_side := side; mcs_mode := mode;
        mcs_object_id := object_id |};
      Ok (path, stage)
  | _ => raise MergeConflictClassificationError
           "merge-tree conflict stage record must contain mode, object, and stage"
  end.

(** [grouped.setdefault(path, [])] and the append, in the order of the paths. *)
Definition grouped_stages : Set := list (string * list MergeConflictStage).
Fixpoint add_stage (path : string) (stage : MergeConflictStage) (grouped : grouped_stages)
    : result grouped_stages :=
  match grouped with
  | [] => Ok [(path, [stage])]
  | (p, existing) :: grouped =>
      if decide (p = path) then
        check (negb (existsb (λ item, mcs_stage item =? mcs_stage stage) existing))
          MergeConflictClassificationError
          ("merge-tree returned duplicate stage " +:+ str_of_Z (mcs_stage stage) +:+ " for "
           +:+ path) ;;
        Ok ((p, existing ++ [stage]) :: grouped)
      else
        grouped ← add_stage path stage grouped;
        Ok ((p, existing) :: grouped)
  end.
(** The first loop; what it leaves starts with the empty record. *)
Fixpoint read_stages (grouped : grouped_stages) (parts : list string)
    : result (grouped_stages * list string) :=
  match parts with
  | [] => Ok (grouped, [])
  | record :: rest =>
      if bool_decide (record = "") then Ok (grouped, parts)
      else
        '(path, stage) ← _parse_stage_record record;
        grouped ← add_stage path stage grouped;
        read_stages grouped rest
  end.
(** The second loop.  An iteration consumes at least three records, and the
    fuel is their number ([read_messages_fuel]). *)
Fixpoint read_messages (fuel : nat) (parts : list string) : result (list MergeConflictMessage) :=
  match fuel with
  | O => raise FuelExhausted "read_messages"
  | S fuel =>
      match parts with
      | [] | [_] => Ok []
      | record :: rest =>
          if bool_decide (record = "") then
            check (negb (existsb (λ p, negb (bool_decide (p = ""))) parts))
              MergeConflictClassificationError
              "merge-tree output contains unexpected empty message records" ;;
            Ok []
          else
            count ← _decode_count record;
            let path_count := Z.to_nat count in
            check (path_count + 2 <=? length rest)%nat MergeConflictClassificationError
              "merge-tree message record is truncated" ;;
            let conflict_type := strip (_decode_text (nth path_count rest "")) in
            let message := strip (_decode_text (nth (S path_count) rest "")) in
            check (negb (bool_decide (conflict_type = "") || bool_decide (message = "")))
              MergeConflictClassificationError
              "merge-tree message record is missing type or message" ;;
            m ← MergeConflictMessage_new {|
              mcm_conflict_type := conflict_type; mcm_paths := fsdecode <$> take path_count rest;
              mcm_message := message |};
            ms ← read_messages fuel (drop (path_count + 2) rest);
            Ok (m :: ms)
      end
  end.
End parsing.

(** ** From the records to the evidence *)
(** [if t not in ordered_types: ordered_types.append(t)] *)
Definition append_new (ordered_types : list string) (t : string) : list string :=
  if decide (t ∈ ordered_types) then ordered_types else ordered_types ++ [t].
Definition _conflict_types (messages : list MergeConflictMessage) : list string :=
  let all := mcm_conflict_type <$> messages in
  let conflicts := foldl append_new [] (List.filter (str_startswith "CONFLICT") all) in
  if negb (bool_decide (conflicts = [])) then conflicts
  else foldl append_new [] (List.filter (λ t, negb (bool_decide (t = "Auto-merging"))) all).
Definition stage_le (a b : MergeConflictStage) : Prop := mcs_stage a <= mcs_stage b.
#[export] Instance stage_le_dec : RelDecision stage_le.
Proof. intros a b. unfold stage_le. apply _. Defined.
Definition file_of (group : string * list MergeConflictStage) : result MergeConflictFile :=
  MergeConflictFile_new {| mcf_path := group.1; mcf_stages := merge_sort stage_le group.2 |}.
(** [s.replace("\x00", "\\0")] *)
Definition show_nul (c : ascii) : list ascii :=
  if decide (c = nul) then ["\"%char; "0"%char] else [c].

Section classifier.
Context `{Machine, !GitBytes, Codec}.

Record GitMergeConflictClassifier : Set := {
  mcc_workspace : LocalGitWorkspace;
  mcc_raw_evidence_limit : nat;
}.
Definition GitMergeConflictClassifier_init (workspace : LocalGitWorkspace) (raw_evidence_limit : nat)
    : result GitMergeConflictClassifier :=
  check (negb ((raw_evidence_limit <? 256) || (16000 <? raw_evidence_limit)))%nat ValueError
    "raw_evidence_limit must be between 256 and 16000 characters" ;;
  Ok {| mcc_workspace := workspace; mcc_raw_evidence_limit := raw_evidence_limit |}.
Implicit Types self : GitMergeConflictClassifier.

Definition _raw_text (value : string) : string :=
  of_chars (mjoin (show_nul <$> chars (decode_backslashreplace value))).
Definition _bounded_raw_evidence self (stdout stderr : string) : string * bool :=
  let stdout_text := _raw_text stdout in
  let stderr_text := _raw_text stderr in
  let raw := "stdout=" +:+ stdout_text
             +:+ (if bool_decide (stderr_text = "") then "" else newline +:+ "stderr=" +:+ stderr_text) in
  let limit := mcc_raw_evidence_limit self in
  if (str_len raw <=? limit)%nat then (raw, false)
  else
    let suffix := newline +:+ "...[truncated]" in
    (str_take (limit - str_len suffix) raw +:+ suffix, true).

Definition _parse_conflicted_merge_output self (stdout stderr integration_head task_commit
    conflict_ref marker_commit : string) : result MergeConflictEvidence :=
  let parts := split_on nul stdout in
  check ((3 <=? length parts)%nat && bool_decide (last parts = Some ""))
    MergeConflictClassificationError "merge-tree -z output is not NUL terminated" ;;
  conflicted_tree ← _decode_oid (default "" (head parts)) "conflicted tree";
  '(grouped, rest) ← read_stages [] (tail parts);
  check (negb (bool_decide (rest = []))) MergeConflictClassificationError
    "merge-tree output is missing the conflict-message separator" ;;
  messages ← read_messages (S (length rest)) (tail rest);
  check (negb (bool_decide (grouped = []))) MergeConflictClassificationError
    "merge-tree reported a conflict without staged conflict paths" ;;
  files ← map_result file_of grouped;
  let '(raw_git_evidence, truncated) := _bounded_raw_evidence self stdout stderr in
  MergeConflictEvidence_new {|
    mce_integration_head := integration_head; mce_task_commit := task_commit;
    mce_conflict_ref := conflict_ref; mce_marker_commit := marker_commit;
    mce_conflicted_tree := conflicted_tree; mce_conflicting_paths := mcf_path <$> files;
    mce_conflict_types := _conflict_types messages; mce_files := files;
    mce_messages := messages; mce_raw_git_evidence := raw_git_evidence;
    mce_raw_git_evidence_truncated := truncated |}.

(** ** Git evidence *)
(** [_git]; [subprocess.run] with binary output. *)
Definition bytes_command (error : exn_class) (missing timeout root : string)
    (input : option string) (arguments : list string) : M Host CompletedProcess := λ h,
  match run_git_bytes root arguments input h with
  | (Finished c, h') => (Ok c, h')
  | (ExecutableNotFound, h') => (raise error missing, h')
  | (TimeoutExpired, h') => (raise error timeout, h')
  end.
Definition classifier_git self (arguments : list string) (must_succeed : bool)
    : M Host CompletedProcess :=
  completed ← bytes_command MergeConflictClassificationError "git executable is not available"
                "git conflict-classification command exceeded the configured timeout"
                (ws_root (mcc_workspace self)) None arguments;
  if must_succeed && negb (returncode completed =? 0) then
    throw MergeConflictClassificationError
      ("git conflict-classification command failed: exit_code=" +:+ str_of_Z (returncode completed)
       +:+ ", operation=" +:+ default "" (head arguments))
  else mret completed.
Definition classifier_resolve self (spec error : string) : M Host string :=
  result ← classifier_git self ["rev-parse"; "--verify"; spec] false;
  let resolved := strip (_decode_text (Git.stdout result)) in
  ensure ((returncode result =? 0) && any_oid resolved) MergeConflictClassificationError error ;;
  mret resolved.
Definition classifier_resolve_commit self (ref label : string) : M Host string :=
  classifier_resolve self (ref +:+ "^{commit}") (label +:+ " does not resolve to a full commit id").
Definition classifier_resolve_tree self (ref : string) : M Host string :=
  classifier_resolve self (ref +:+ "^{tree}") "Git reference does not resolve to a full tree id".
(** The two halves of [_commit_parents]. *)
Definition parents_line (values : list string) (commit : string) (e : exn) : result (list string) :=
  match values with
  | v :: values => if bool_decide (v = commit) then Ok values else Raise e
  | [] => Raise e
  end.
Definition classifier_commit_parents self (commit : string) : M Host (list string) :=
  result ← classifier_git self ["rev-list"; "--parents"; "-n"; "1"; commit] true;
  lift (parents_line (split (strip (_decode_text (Git.stdout result)))) commit
          (conflict_error "Git returned inconsistent commit-parent evidence")).
(** [_parse_marker_metadata] of a message. *)
Definition marker_metadata_of (text : string) : result (gmap string string) :=
  metadata ← read_fields (conflict_error "conflict marker contains duplicate DevFlow metadata")
    (conflict_error "conflict marker is missing required DevFlow metadata")
    conflict_prefixes (splitlines text);
  base ← field_of metadata "base";
  _require_oid base "conflict marker task base" ;;
  commit ← field_of metadata "commit";
  _require_oid commit "conflict marker task commit" ;;
  integration_head ← field_of metadata "integration_head";
  _require_oid integration_head "conflict marker integration head" ;;
  Ok metadata.
Definition _parse_marker_metadata self (marker_commit : string) : M Host (gmap string string) :=
  message ← classifier_git self ["show"; "-s"; "--format=%B"; marker_commit] true;
  lift (marker_metadata_of (_decode_text (Git.stdout message))).
(** A ref of the run in another namespace: [_derive_conflict_ref]. *)
Definition derived_ref (outside empty : exn) (prefix integration_ref : string) : result string :=
  if negb (str_startswith _INTEGRATION_PREFIX integration_ref) then Raise outside
  else
    let suffix := starts_of _INTEGRATION_PREFIX integration_ref in
    if bool_decide (suffix = "") then Raise empty else Ok (prefix +:+ suffix).
Definition _derive_conflict_ref (integration_ref : string) : result string :=
  derived_ref
    (conflict_error "snapshot integration ref is outside the DevFlow integration namespace")
    (conflict_error "snapshot integration ref has no run identity")
    _CONFLICT_PREFIX integration_ref.

Definition expected_marker (attempt : MergeQueueAttempt) (head : string) : gmap string string :=
  <["task" := mqa_task_id attempt]> (<["branch" := mqa_task_branch attempt]>
    (<["base" := mqa_task_base_commit attempt]> (<["commit" := mqa_task_commit attempt]>
      {["integration_head" := head]}))).
Definition assert_clean self (error : string) : M Host unit :=
  changed ← changed_files (mcc_workspace self);
  ensure (bool_decide (changed = [])) MergeConflictClassificationError error.
(** The checks of [classify] on the refs and on the marker. *)
Definition check_marker self (snapshot : MergeQueueSnapshot) (attempt : MergeQueueAttempt)
    (conflict_ref : string) : M Host string :=
  let head := mqs_head_commit snapshot in
  current_head ← classifier_resolve_commit self (mqs_integration_ref snapshot) "integration ref";
  ensure (bool_decide (current_head = head)) MergeConflictClassificationError
    "integration ref moved after the queue snapshot was captured" ;;
  marker_commit ← classifier_resolve_commit self conflict_ref "conflict marker ref";
  marker_parents ← classifier_commit_parents self marker_commit;
  ensure (bool_decide (marker_parents = [head])) MergeConflictClassificationError
    "conflict marker does not have the integration head as its sole parent" ;;
  marker_tree ← classifier_resolve_tree self marker_commit;
  head_tree ← classifier_resolve_tree self head;
  ensure (bool_decide (marker_tree = head_tree)) MergeConflictClassificationError
    "conflict marker unexpectedly changes the integration tree" ;;
  metadata ← _parse_marker_metadata self marker_commit;
  ensure (bool_decide (metadata = expected_marker attempt head)) MergeConflictClassificationError
    "conflict marker metadata does not match the terminal merge attempt" ;;
  branch_head ← classifier_resolve_commit self ("refs/heads/" +:+ mqa_task_branch attempt)
                  "conflicted task branch";
  ensure (bool_decide (branch_head = mqa_task_commit attempt)) MergeConflictClassificationError
    "conflicted task branch moved after worker finalization" ;;
  task_parents ← classifier_commit_parents self (mqa_task_commit attempt);
  ensure (bool_decide (task_parents = [mqa_task_base_commit attempt]))
    MergeConflictClassificationError
    "conflicted task commit no longer matches its recorded task base" ;;
  mret marker_commit.
Definition terminal_conflict (snapshot : MergeQueueSnapshot) : result MergeQueueAttempt :=
  attempt ← of_option (conflict_error "merge queue snapshot does not contain a terminal conflict")
              (if mqs_stopped snapshot then last (mqs_attempts snapshot) else None);
  check (bool_decide (mqa_outcome attempt = CONFLICT)) MergeConflictClassificationError
    "merge queue terminal attempt is not a conflict" ;;
  check (bool_decide (mqs_head_commit snapshot = mqa_previous_integration_commit attempt))
    MergeConflictClassificationError
    "conflict attempt does not reference the current integration head" ;;
  Ok attempt.
Definition classify self (snapshot : MergeQueueSnapshot) : M Host MergeConflictEvidence :=
  assert_clean self "base workspace must be clean before conflict classification" ;;
  attempt ← lift (terminal_conflict snapshot);
  conflict_ref ← lift (_derive_conflict_ref (mqs_integration_ref snapshot));
  marker_commit ← check_marker self snapshot attempt conflict_ref;
  let head := mqs_head_commit snapshot in
  merge ← classifier_git self
    ["merge-tree"; "--write-tree"; "-z"; "--messages"; head; mqa_task_commit attempt] false;
  ensure (returncode merge =? 1) MergeConflictClassificationError
    "recorded conflict cannot be reproduced by git merge-tree" ;;
  evidence ← lift (_parse_conflicted_merge_output self (Git.stdout merge) (Git.stderr merge) head
                     (mqa_task_commit attempt) conflict_ref marker_commit);
  assert_clean self "conflict classification unexpectedly modified the base workspace" ;;
  mret evidence.
End classifier.
