(* ===== verification/HumanGate.v ===== *)
(** * HumanGate: the gate before the repair of a conflict

    [runtime/integration_gate.py]: [IntegrationHumanGate] over the machine of
    [Git].  The gate reads Git's text output with [run_git] and blobs and the
    ref transaction with [run_git_bytes].  The scheduler is shared with the
    rest of the run and only read: it is an argument of each call.  Reading a
    JSON text is a parameter. *)
From stdpp Require Import options.
From S2P Require Import Prelude Contracts Dag Scheduler RunModels Lease Json Merge Git Scope MergeQueue Conflict Classifier.
Open Scope Z_scope.

Definition _DECISION_PREFIX : string := "refs/devflow/integration-decisions/".
Definition _MAX_AUTO_REPAIR_BLOB_BYTES : Z := 512000.
Definition gate_error (message : string) : exn := Exn IntegrationHumanGateError message.

(** [bytes.decode("utf-8")] does not raise: well-formed UTF-8. *)
Definition byte_in (lo hi : nat) (c : ascii) : bool :=
  let n := nat_of_ascii c in ((lo <=? n) && (n <=? hi))%nat.
Definition cont : ascii → bool := byte_in 128 191.
Fixpoint is_utf8 (l : list ascii) : bool :=
  match l with
  | [] => true
  | a :: l1 =>
      if byte_in 0 127 a then is_utf8 l1
      else match l1 with
      | [] => false
      | b :: l2 =>
          if byte_in 194 223 a then cont b && is_utf8 l2
          else match l2 with
          | [] => false
          | c :: l3 =>
              if byte_in 224 239 a then
                (if byte_in 224 224 a then byte_in 160 191 b
                 else if byte_in 237 237 a then byte_in 128 159 b else cont b)
                && cont c && is_utf8 l3
              else match l3 with
              | [] => false
              | d :: l4 =>
                  byte_in 240 244 a
                  && (if byte_in 240 240 a then byte_in 144 191 b
                      else if byte_in 244 244 a then byte_in 128 143 b else cont b)
                  && cont c && cont d && is_utf8 l4
              end
          end
      end
  end.

Definition decision_prefixes : list (string * string) :=
  [("DevFlow-Human-Decision: ", "decision");
   ("DevFlow-Decision-Actor-JSON: ", "actor_json");
   ("DevFlow-Decision-Note-JSON: ", "note_json");
   ("DevFlow-Evidence-Fingerprint: ", "evidence_fingerprint");
   ("DevFlow-Policy-Fingerprint: ", "policy_fingerprint");
   ("DevFlow-Policy-Route: ", "policy_route");
   ("DevFlow-Conflict-Marker: ", "conflict_marker");
   ("DevFlow-Conflict-Ref: ", "conflict_ref");
   ("DevFlow-Integration-Head: ", "integration_head");
   ("DevFlow-Task: ", "task");
   ("DevFlow-Task-Branch: ", "task_branch");
   ("DevFlow-Task-Commit: ", "task_commit")].
Definition gate_require_oid (value label : string) : result unit :=
  check (any_oid value) IntegrationHumanGateError (label +:+ " must be a full Git object id").
Definition require_oid_field (metadata : gmap string string) (key label : string) : result unit :=
  value ← field_of metadata key;
  gate_require_oid value label.
Definition require_sha_field (metadata : gmap string string) (key error : string) : result unit :=
  value ← field_of metadata key;
  check (is_sha256_hex value) IntegrationHumanGateError error.
(** [_parse_decision_metadata] of a message. *)
Definition decision_metadata_of (message : string) : result (gmap string string) :=
  metadata ← read_fields
    (gate_error "human decision commit contains duplicate DevFlow metadata")
    (gate_error "human decision commit is missing required DevFlow metadata")
    decision_prefixes (splitlines message);
  require_oid_field metadata "conflict_marker" "recorded conflict marker" ;;
  require_oid_field metadata "integration_head" "recorded integration head" ;;
  require_oid_field metadata "task_commit" "recorded task commit" ;;
  require_sha_field metadata "evidence_fingerprint" "recorded evidence fingerprint is malformed" ;;
  require_sha_field metadata "policy_fingerprint" "recorded policy fingerprint is malformed" ;;
  Ok metadata.
(** The loop over [expected]. *)
Definition matches_field (metadata : gmap string string) (u : unit) (expected : string * string)
    : result unit :=
  value ← field_of metadata expected.1;
  check (bool_decide (value = expected.2)) IntegrationHumanGateError
    ("human decision metadata does not match current gate evidence: " +:+ expected.1).
Definition _validate_human_metadata (actor note : string) : result unit :=
  check (negb (bool_decide (actor = "") || (128 <? str_len actor)%nat)) ValueError
    "actor must contain between 1 and 128 characters" ;;
  check (negb (512 <? str_len note)%nat) ValueError "note must contain at most 512 characters" ;;
  check (single_line actor && single_line note) ValueError
    "human decision metadata must be single-line".
Definition gate_derived_ref : string → string → result string :=
  derived_ref (gate_error "integration ref is outside the DevFlow integration namespace")
    (gate_error "integration ref has no run identity").
Definition _derive_decision_ref : string → result string := gate_derived_ref _DECISION_PREFIX.
Definition gate_derive_conflict_ref : string → result string := gate_derived_ref _CONFLICT_PREFIX.
Definition _commit_environment : list (string * string) :=
  [("GIT_AUTHOR_NAME", "DevFlow Human Gate");
   ("GIT_AUTHOR_EMAIL", "devflow-human-gate@local.invalid");
   ("GIT_COMMITTER_NAME", "DevFlow Human Gate");
   ("GIT_COMMITTER_EMAIL", "devflow-human-gate@local.invalid")].
Definition _terminal_attempt (snapshot : MergeQueueSnapshot) : result MergeQueueAttempt :=
  of_option (Exn IndexError "tuple index out of range") (last (mqs_attempts snapshot)).

Record IntegrationHumanGate : Set := {
  ihg_workspace : LocalGitWorkspace;
  ihg_queue_snapshot : MergeQueueSnapshot;
  ihg_evidence : MergeConflictEvidence;
  ihg_policy : IntegrationConflictPolicy;
  ihg_decision_ref : string;
  ihg_task : TaskContract;
  ihg_evidence_fingerprint : string;
  ihg_policy_decision : IntegrationPolicyDecision;
  ihg_policy_fingerprint : string;
}.
Implicit Types self : IntegrationHumanGate.

Definition _decision_message self (attempt : MergeQueueAttempt) (decision : HumanGateDecision)
    (actor note : string) : string :=
  let d := HumanGateDecision_value decision in
  let e := ihg_evidence self in
  "DevFlow human integration decision: " +:+ d +:+ newline +:+ newline
  +:+ "DevFlow-Human-Decision: " +:+ d +:+ newline
  +:+ "DevFlow-Decision-Actor-JSON: " +:+ quoted actor +:+ newline
  +:+ "DevFlow-Decision-Note-JSON: " +:+ quoted note +:+ newline
  +:+ "DevFlow-Evidence-Fingerprint: " +:+ ihg_evidence_fingerprint self +:+ newline
  +:+ "DevFlow-Policy-Fingerprint: " +:+ ihg_policy_fingerprint self +:+ newline
  +:+ "DevFlow-Policy-Route: "
  +:+ IntegrationPolicyRoute_value (ipd_route (ihg_policy_decision self)) +:+ newline
  +:+ "DevFlow-Conflict-Marker: " +:+ mce_marker_commit e +:+ newline
  +:+ "DevFlow-Conflict-Ref: " +:+ mce_conflict_ref e +:+ newline
  +:+ "DevFlow-Integration-Head: " +:+ mce_integration_head e +:+ newline
  +:+ "DevFlow-Task: " +:+ mqa_task_id attempt +:+ newline
  +:+ "DevFlow-Task-Branch: " +:+ mqa_task_branch attempt +:+ newline
  +:+ "DevFlow-Task-Commit: " +:+ mqa_task_commit attempt.
(** The fields a recorded decision must have. *)
Definition expected_fields self (attempt : MergeQueueAttempt) : list (string * string) :=
  let e := ihg_evidence self in
  [("evidence_fingerprint", ihg_evidence_fingerprint self);
   ("policy_fingerprint", ihg_policy_fingerprint self);
   ("policy_route", IntegrationPolicyRoute_value HUMAN_REQUIRED);
   ("conflict_marker", mce_marker_commit e);
   ("conflict_ref", mce_conflict_ref e);
   ("integration_head", mce_integration_head e);
   ("task", tc_task_id (ihg_task self));
   ("task_branch", mqa_task_branch attempt);
   ("task_commit", mce_task_commit e)].

(** [git update-ref --stdin]: the commands of one transaction. *)
Inductive ref_command : Set :=
  | VerifyRef (ref oid : string)
  | CreateRef (ref oid : string).
Definition ref_command_line (c : ref_command) : string :=
  match c with
  | VerifyRef ref oid => "verify " +:+ ref +:+ " " +:+ oid
  | CreateRef ref oid => "create " +:+ ref +:+ " " +:+ oid
  end.
Definition transaction_text (commands : list ref_command) : string :=
  join newline ((ref_command_line <$> commands) ++ [""]).
Definition decision_transaction self (attempt : MergeQueueAttempt) (decision_commit : string)
    : list ref_command :=
  [VerifyRef (mqs_integration_ref (ihg_queue_snapshot self)) (mce_integration_head (ihg_evidence self));
   VerifyRef (mce_conflict_ref (ihg_evidence self)) (mce_marker_commit (ihg_evidence self));
   VerifyRef ("refs/heads/" +:+ mqa_task_branch attempt) (mqa_task_commit attempt);
   CreateRef (ihg_decision_ref self) decision_commit].

(** What the gate relies on: only a ref transaction changes refs, and it is
    all or nothing.  A transaction that is killed by the timeout may have been
    applied. *)
Definition ref_command_plain (c : ref_command) : Prop :=
  match c with VerifyRef ref oid | CreateRef ref oid => plain ref ∧ plain oid end.
Definition apply_command (c : ref_command) (refs : gmap string string) : option (gmap string string) :=
  match c with
  | VerifyRef ref oid => if decide (refs !! ref = Some oid) then Some refs else None
  | CreateRef ref oid => if decide (refs !! ref = None) then Some (<[ref := oid]> refs) else None
  end.
Fixpoint apply_commands (commands : list ref_command) (refs : gmap string string)
    : option (gmap string string) :=
  match commands with
  | [] => Some refs
  | c :: commands => refs ← apply_command c refs; apply_commands commands refs
  end.
Definition reading_commands : list string :=
  ["diff"; "ls-files"; "check-ref-format"; "rev-parse"; "rev-list"; "show-ref"; "show"; "cat-file";
   "merge-tree"; "commit-tree"].
Class Refs `{Machine} : Type := { ref_map : Host → gmap string string }.
Class RefsLaws `{Machine, !GitBytes, !Refs} : Prop := {
  run_git_reads root env command args h : command ∈ reading_commands →
    ref_map (run_git root env (command :: args) h).2 = ref_map h;
  run_git_bytes_reads root command args input h : command ∈ reading_commands →
    ref_map (run_git_bytes root (command :: args) input h).2 = ref_map h;
  ref_transaction root commands h : Forall ref_command_plain commands →
    let after := run_git_bytes root ["update-ref"; "--stdin"]
                   (Some (encode_utf8 (transaction_text commands))) h in
    match after.1 with
    | Finished c =>
        if returncode c =? 0 then apply_commands commands (ref_map h) = Some (ref_map after.2)
        else ref_map after.2 = ref_map h
    | ExecutableNotFound => ref_map after.2 = ref_map h
    | TimeoutExpired =>
        ref_map after.2 = ref_map h ∨ apply_commands commands (ref_map h) = Some (ref_map after.2)
    end;
}.

Section gate.
Context `{Machine, !GitBytes, Codec}.
Context (sha256 : string → string) (json_loads : string → result JSON).

(** ** Subprocesses *)
Definition gate_git (ws : LocalGitWorkspace) (env : list (string * string))
    (arguments : list string) (must_succeed : bool) : M Host CompletedProcess :=
  completed ← git_command IntegrationHumanGateError "git executable is not available"
                "git integration-gate command exceeded the configured timeout"
                (ws_root ws) env arguments;
  if must_succeed && negb (returncode completed =? 0) then
    throw IntegrationHumanGateError
      ("git integration-gate command failed: exit_code=" +:+ str_of_Z (returncode completed)
       +:+ ", operation=" +:+ default "" (head arguments))
  else mret completed.
Definition _git_bytes (ws : LocalGitWorkspace) (arguments : list string) : M Host CompletedProcess :=
  bytes_command IntegrationHumanGateError "git executable is not available"
    "git blob inspection exceeded the configured timeout" (ws_root ws) None arguments.
Definition _git_with_input (ws : LocalGitWorkspace) (arguments : list string) (input_text : string)
    : M Host CompletedProcess :=
  bytes_command IntegrationHumanGateError "git executable is not available"
    "git integration-gate transaction exceeded the configured timeout" (ws_root ws)
    (Some (encode_utf8 input_text)) arguments.
Definition gate_validate_ref_name (ws : LocalGitWorkspace) (ref_name : string) : M Host unit :=
  result ← gate_git ws [] ["check-ref-format"; ref_name] false;
  ensure (returncode result =? 0) IntegrationHumanGateError
    "generated human-decision ref is not a valid Git ref".
Definition gate_resolve (ws : LocalGitWorkspace) (spec error : string) : M Host string :=
  result ← gate_git ws [] ["rev-parse"; "--verify"; spec] false;
  let resolved := strip (Git.stdout result) in
  ensure ((returncode result =? 0) && any_oid resolved) IntegrationHumanGateError error ;;
  mret resolved.
Definition gate_resolve_commit (ws : LocalGitWorkspace) (ref label : string) : M Host string :=
  gate_resolve ws (ref +:+ "^{commit}") (label +:+ " does not resolve to a full commit id").
Definition gate_resolve_tree (ws : LocalGitWorkspace) (ref : string) : M Host string :=
  gate_resolve ws (ref +:+ "^{tree}") "Git reference does not resolve to a full tree id".
Definition gate_commit_parents (ws : LocalGitWorkspace) (commit : string) : M Host (list string) :=
  line ← gate_git ws [] ["rev-list"; "--parents"; "-n"; "1"; commit] true;
  lift (parents_line (split (strip (Git.stdout line))) commit
          (gate_error "Git returned inconsistent decision-parent evidence")).
Definition gate_assert_base_clean (ws : LocalGitWorkspace) (error : string) : M Host unit :=
  changed ← changed_files ws;
  ensure (bool_decide (changed = [])) IntegrationHumanGateError error.
Definition dirtied : string := "integration-gate operation unexpectedly dirtied the base workspace".

Definition _blob_is_safe_text (ws : LocalGitWorkspace) (object_id : string) : M Host bool :=
  size_result ← gate_git ws [] ["cat-file"; "-s"; object_id] false;
  if negb (returncode size_result =? 0) then mret false
  else match python_int (strip (Git.stdout size_result)) with
  | None => mret false
  | Some size =>
      if (size <? 0) || (_MAX_AUTO_REPAIR_BLOB_BYTES <? size) then mret false
      else
        blob ← _git_bytes ws ["cat-file"; "blob"; object_id];
        mret ((returncode blob =? 0) && (Z.of_nat (str_len (Git.stdout blob)) =? size)
              && negb (in_string nul (Git.stdout blob)) && is_utf8 (chars (Git.stdout blob)))
  end.
Definition _evaluate_policy (ws : LocalGitWorkspace) (policy : IntegrationConflictPolicy)
    (task : TaskContract) (evidence : MergeConflictEvidence) : M Host IntegrationPolicyDecision :=
  evaluate sha256 policy evidence task (Some (_blob_is_safe_text ws)).

(** ** Binding to the queue and to the repository *)
Definition _validate_snapshot_binding (scheduler : DAGScheduler) (snapshot : MergeQueueSnapshot)
    (evidence : MergeConflictEvidence) : result MergeQueueAttempt :=
  attempt ← of_option
    (gate_error "integration gate requires a stopped merge queue with terminal conflict evidence")
    (if mqs_stopped snapshot then last (mqs_attempts snapshot) else None);
  check (bool_decide (mqa_outcome attempt = CONFLICT)) IntegrationHumanGateError
    "terminal merge-queue attempt is not a conflict" ;;
  match node (_dag scheduler) (mqa_task_id attempt) with
  | Ok _ => Ok tt
  | Raise e =>
      if subclass (exn_kind e) KeyError then
        raise IntegrationHumanGateError
          "terminal conflicted task is not present in the trusted scheduler DAG"
      else Raise e
  end ;;
  st ← fst (state (mqa_task_id attempt) scheduler);
  check (bool_decide (st = Scheduler.SUCCEEDED)) IntegrationHumanGateError
    "terminal conflicted task must remain SUCCEEDED in the trusted scheduler" ;;
  let head := mqs_head_commit snapshot in
  check (bool_decide (mqa_previous_integration_commit attempt = head)) IntegrationHumanGateError
    "terminal conflict does not chain from the current integration head" ;;
  check (bool_decide (mce_integration_head evidence = head)) IntegrationHumanGateError
    "conflict evidence references a different integration head" ;;
  check (bool_decide (mce_task_commit evidence = mqa_task_commit attempt)) IntegrationHumanGateError
    "conflict evidence references a different task commit" ;;
  expected_conflict_ref ← gate_derive_conflict_ref (mqs_integration_ref snapshot);
  check (bool_decide (mce_conflict_ref evidence = expected_conflict_ref)) IntegrationHumanGateError
    "conflict evidence references an unexpected conflict ref" ;;
  Ok attempt.
Definition _assert_current_evidence (ws : LocalGitWorkspace) (scheduler : DAGScheduler)
    (snapshot : MergeQueueSnapshot) (evidence_fingerprint : string) : M Host MergeConflictEvidence :=
  attempt ← lift (_terminal_attempt snapshot);
  current_state ← lift (fst (state (mqa_task_id attempt) scheduler));
  ensure (bool_decide (current_state = Scheduler.SUCCEEDED)) IntegrationHumanGateError
    "conflicted task scheduler state changed after gate construction" ;;
  classifier ← lift (GitMergeConflictClassifier_init ws _DEFAULT_RAW_EVIDENCE_LIMIT);
  current ← classify classifier snapshot;
  ensure (bool_decide (conflict_evidence_fingerprint sha256 current = evidence_fingerprint))
    IntegrationHumanGateError
    "current reproducible Git evidence no longer matches the gated conflict" ;;
  mret current.
Definition _assert_authoritative_refs self : M Host unit :=
  let ws := ihg_workspace self in
  integration ← gate_resolve_commit ws (mqs_integration_ref (ihg_queue_snapshot self))
                  "integration ref";
  ensure (bool_decide (integration = mce_integration_head (ihg_evidence self)))
    IntegrationHumanGateError "integration ref moved outside the human gate" ;;
  conflict ← gate_resolve_commit ws (mce_conflict_ref (ihg_evidence self)) "conflict ref";
  ensure (bool_decide (conflict = mce_marker_commit (ihg_evidence self)))
    IntegrationHumanGateError "conflict ref moved outside the human gate" ;;
  attempt ← lift (_terminal_attempt (ihg_queue_snapshot self));
  task_head ← gate_resolve_commit ws ("refs/heads/" +:+ mqa_task_branch attempt)
                "conflicted task branch";
  ensure (bool_decide (task_head = mqa_task_commit attempt)) IntegrationHumanGateError
    "conflicted task branch moved outside the human gate".

(** ** The recorded decision *)
Definition show_ref (ws : LocalGitWorkspace) (ref : string) : M Host Z :=
  existing ← gate_git ws [] ["show-ref"; "--verify"; "--quiet"; ref] false;
  mret (returncode existing).
Definition _parse_decision_metadata (ws : LocalGitWorkspace) (commit : string)
    : M Host (gmap string string) :=
  message ← gate_git ws [] ["show"; "-s"; "--format=%B"; commit] true;
  lift (decision_metadata_of (Git.stdout message)).
Definition _decode_json_text (value label : string) : result string :=
  match json_loads value with
  | Ok (JStr s) => Ok s
  | Ok _ => raise IntegrationHumanGateError (label +:+ " metadata must decode to a string")
  | Raise e =>
      if subclass (exn_kind e) JSONDecodeError
      then raise IntegrationHumanGateError (label +:+ " metadata is not valid JSON")
      else Raise e
  end.
(** From the metadata of the decision commit to the decision. *)
Definition decision_record self (attempt : MergeQueueAttempt) (decision_commit : string)
    (metadata : gmap string string) : result HumanIntegrationDecision :=
  fold_result (matches_field metadata) tt (expected_fields self attempt) ;;
  text ← field_of metadata "decision";
  decision ← match HumanGateDecision_of text with
             | Ok d => Ok d
             | Raise _ => raise IntegrationHumanGateError
                            "human decision marker contains an unsupported decision"
             end;
  check (negb (bool_decide (decision = AUTHORIZE_REPAIR)
               && negb (ipd_human_repair_authorizable (ihg_policy_decision self))))
    IntegrationHumanGateError
    "recorded human authorization violates current hard repair boundaries" ;;
  actor_json ← field_of metadata "actor_json";
  actor ← _decode_json_text actor_json "decision actor";
  note_json ← field_of metadata "note_json";
  note ← _decode_json_text note_json "decision note";
  record ← HumanIntegrationDecision_new {|
    hid_decision := decision; hid_actor := actor; hid_note := note;
    hid_decision_ref := ihg_decision_ref self; hid_decision_commit := decision_commit;
    hid_evidence_fingerprint := ihg_evidence_fingerprint self;
    hid_policy_fingerprint := ihg_policy_fingerprint self;
    hid_conflict_marker_commit := mce_marker_commit (ihg_evidence self) |};
  _validate_human_metadata (hid_actor record) (hid_note record) ;;
  Ok record.
Definition read_decision self : M Host HumanIntegrationDecision :=
  let ws := ihg_workspace self in
  let marker := mce_marker_commit (ihg_evidence self) in
  decision_commit ← gate_resolve_commit ws (ihg_decision_ref self) "human decision ref";
  parents ← gate_commit_parents ws decision_commit;
  ensure (bool_decide (parents = [marker])) IntegrationHumanGateError
    "human decision commit must have the exact conflict marker as its sole parent" ;;
  decision_tree ← gate_resolve_tree ws decision_commit;
  marker_tree ← gate_resolve_tree ws marker;
  ensure (bool_decide (decision_tree = marker_tree)) IntegrationHumanGateError
    "human decision commit unexpectedly changes repository tree state" ;;
  metadata ← _parse_decision_metadata ws decision_commit;
  attempt ← lift (_terminal_attempt (ihg_queue_snapshot self));
  lift (decision_record self attempt decision_commit metadata).
Definition _recover_human_decision self (required : bool)
    : M Host (option HumanIntegrationDecision) :=
  existing ← show_ref (ihg_workspace self) (ihg_decision_ref self);
  if existing =? 1 then
    ensure (negb required) IntegrationHumanGateError
      "human decision ref was not durably created" ;;
    mret None
  else
    ensure (existing =? 0) IntegrationHumanGateError
      "Git could not determine decision-ref existence" ;;
    ensure (bool_decide (ipd_route (ihg_policy_decision self) = HUMAN_REQUIRED))
      IntegrationHumanGateError
      "unexpected human decision ref exists for an automatic-repair candidate" ;;
    record ← read_decision self;
    mret (Some record).
Definition _assert_decision_ref_absent self : M Host unit :=
  existing ← show_ref (ihg_workspace self) (ihg_decision_ref self);
  ensure (negb (existing =? 0)) IntegrationHumanGateError
    "a human integration decision already exists" ;;
  ensure (existing =? 1) IntegrationHumanGateError
    "Git could not validate decision-ref availability".
Definition _create_decision_ref_transactionally self (decision_commit : string) : M Host unit :=
  attempt ← lift (_terminal_attempt (ihg_queue_snapshot self));
  result ← _git_with_input (ihg_workspace self) ["update-ref"; "--stdin"]
             (transaction_text (decision_transaction self attempt decision_commit));
  if negb (returncode result =? 0) then
    let detail := strip (decode_replace
      (if bool_decide (Git.stderr result = "") then Git.stdout result else Git.stderr result)) in
    throw IntegrationHumanGateError
      ("human decision could not be recorded atomically against the expected Git refs"
       +:+ (if bool_decide (detail = "") then "" else ": " +:+ detail))
  else mret tt.

(** ** The gate *)
Definition IntegrationHumanGate_init (workspace : LocalGitWorkspace)
    (queue_snapshot : MergeQueueSnapshot) (scheduler : DAGScheduler)
    (evidence : MergeConflictEvidence) (policy : option IntegrationConflictPolicy)
    : M Host IntegrationHumanGate :=
  gate_assert_base_clean workspace
    "base workspace must be clean before integration-gate evaluation" ;;
  let policy := default (default_policy false) policy in
  decision_ref ← lift (_derive_decision_ref (mqs_integration_ref queue_snapshot));
  gate_validate_ref_name workspace decision_ref ;;
  attempt ← lift (_validate_snapshot_binding scheduler queue_snapshot evidence);
  n ← lift (node (_dag scheduler) (mqa_task_id attempt));
  let evidence_fingerprint := conflict_evidence_fingerprint sha256 evidence in
  _assert_current_evidence workspace scheduler queue_snapshot evidence_fingerprint ;;
  policy_decision ← _evaluate_policy workspace policy (tn_task n) evidence;
  ensure (bool_decide (ipd_evidence_fingerprint policy_decision = evidence_fingerprint))
    IntegrationHumanGateError "integration policy returned a mismatched evidence fingerprint" ;;
  let self := {|
    ihg_workspace := workspace; ihg_queue_snapshot := queue_snapshot; ihg_evidence := evidence;
    ihg_policy := policy; ihg_decision_ref := decision_ref; ihg_task := tn_task n;
    ihg_evidence_fingerprint := evidence_fingerprint; ihg_policy_decision := policy_decision;
    ihg_policy_fingerprint := integration_policy_fingerprint sha256 policy_decision |} in
  _recover_human_decision self false ;;
  _assert_authoritative_refs self ;;
  gate_assert_base_clean workspace dirtied ;;
  mret self.

(** The evidence and the policy are computed again; both must be as before. *)
Definition revalidate self (scheduler : DAGScheduler) (policy_error fingerprint_error : string)
    : M Host unit :=
  current_evidence ← _assert_current_evidence (ihg_workspace self) scheduler
                       (ihg_queue_snapshot self) (ihg_evidence_fingerprint self);
  current_policy ← _evaluate_policy (ihg_workspace self) (ihg_policy self) (ihg_task self)
                     current_evidence;
  ensure (bool_decide (current_policy = ihg_policy_decision self)) IntegrationHumanGateError
    policy_error ;;
  ensure (bool_decide (integration_policy_fingerprint sha256 current_policy
                       = ihg_policy_fingerprint self)) IntegrationHumanGateError fingerprint_error.
(** The state of the gate and whether the repair may start. *)
Definition gate_state (route : IntegrationPolicyRoute) (human : option HumanIntegrationDecision)
    : IntegrationGateState * bool :=
  if decide (route = ROUTE_AUTO_REPAIR_CANDIDATE) then (AUTO_REPAIR_CANDIDATE, true)
  else match human with
  | None => (AWAITING_HUMAN, false)
  | Some d =>
      if decide (hid_decision d = AUTHORIZE_REPAIR) then (REPAIR_AUTHORIZED, true)
      else (ABORTED, false)
  end.
Definition gate_snapshot self (scheduler : DAGScheduler) : M Host IntegrationGateSnapshot :=
  revalidate self scheduler "integration policy changed after gate construction"
    "integration policy fingerprint changed after gate construction" ;;
  human_decision ← _recover_human_decision self false;
  _assert_authoritative_refs self ;;
  gate_assert_base_clean (ihg_workspace self) dirtied ;;
  let '(st, repair_may_start) := gate_state (ipd_route (ihg_policy_decision self)) human_decision in
  attempt ← lift (_terminal_attempt (ihg_queue_snapshot self));
  lift (IntegrationGateSnapshot_new {|
    igs_task_id := mqa_task_id attempt; igs_task_branch := mqa_task_branch attempt;
    igs_task_commit := mqa_task_commit attempt;
    igs_integration_ref := mqs_integration_ref (ihg_queue_snapshot self);
    igs_integration_head := mce_integration_head (ihg_evidence self);
    igs_conflict_ref := mce_conflict_ref (ihg_evidence self);
    igs_conflict_marker_commit := mce_marker_commit (ihg_evidence self);
    igs_evidence_fingerprint := ihg_evidence_fingerprint self;
    igs_policy_fingerprint := ihg_policy_fingerprint self;
    igs_policy := ihg_policy_decision self; igs_state := st;
    igs_human_decision := human_decision; igs_repair_may_start := repair_may_start |}).
Definition record_human_decision self (scheduler : DAGScheduler) (decision : HumanGateDecision)
    (actor note : string) : M Host IntegrationGateSnapshot :=
  ensure (bool_decide (ipd_route (ihg_policy_decision self) = HUMAN_REQUIRED))
    IntegrationHumanGateError
    "human decision is not accepted for an automatic-repair policy candidate" ;;
  ensure (negb (bool_decide (decision = AUTHORIZE_REPAIR)
                && negb (ipd_human_repair_authorizable (ihg_policy_decision self))))
    IntegrationHumanGateError "human authorization cannot bypass hard Agent Repair boundaries" ;;
  existing ← _recover_human_decision self false;
  ensure (is_none existing) IntegrationHumanGateError
    "a human integration decision is already recorded" ;;
  let actor := strip actor in
  let note := strip note in
  lift (_validate_human_metadata actor note) ;;
  revalidate self scheduler
    "integration policy changed before the human decision could be recorded"
    "policy fingerprint changed before the human decision could be recorded" ;;
  _assert_decision_ref_absent self ;;
  marker_tree ← gate_resolve_tree (ihg_workspace self) (mce_marker_commit (ihg_evidence self));
  attempt ← lift (_terminal_attempt (ihg_queue_snapshot self));
  created ← gate_git (ihg_workspace self) _commit_environment
    ["commit-tree"; marker_tree; "-p"; mce_marker_commit (ihg_evidence self); "-m";
     _decision_message self attempt decision actor note] true;
  let decision_commit := strip (Git.stdout created) in
  lift (gate_require_oid decision_commit "human decision commit") ;;
  _create_decision_ref_transactionally self decision_commit ;;
  recovered ← _recover_human_decision self true;
  ensure (negb (is_none recovered)) IntegrationHumanGateError
    "human decision was not durably recoverable" ;;
  _assert_authoritative_refs self ;;
  gate_assert_base_clean (ihg_workspace self) dirtied ;;
  gate_snapshot self scheduler.
End gate.
