(* ===== verification/ConflictFacts.v ===== *)
(** * ConflictFacts: the repair policy and the reader of conflicts

    When the policy routes a conflict to an automatic repair, when it lets a
    person authorise one, what a gate snapshot that permits a repair says, and
    that the reader of [git merge-tree -z] recovers what Git printed. *)
From stdpp Require Import options.
From S2P Require Import Prelude Contracts RunModels Lease Json Merge Git Scope MergeQueue ToyGit Conflict Classifier.
Open Scope Z_scope.

(** ** The policy *)
(** What an agent may be given to repair. *)
Definition delegable (policy : IntegrationConflictPolicy) (task : TaskContract)
    (safe : string → bool) (file : MergeConflictFile) : Prop :=
  may_write task (strip (mcf_path file))
  ∧ _is_protected_path policy (mcf_path file) = false
  ∧ Forall (λ stage, mcs_mode stage = "100644" ∧ safe (mcs_object_id stage) = true)
      (mcf_stages file).
(** The conflicts that may be repaired without asking: one text file that
    both sides changed. *)
Definition automatic (policy : IntegrationConflictPolicy) (evidence : MergeConflictEvidence) : Prop :=
  icp_automatic_repair_enabled policy = true
  ∧ (∃ file, mce_files evidence = [file] ∧ stage_numbers file = [1; 2; 3]
       ∧ _is_supported_text_path policy (mcf_path file) = true)
  ∧ mce_conflict_types evidence = ["CONFLICT (contents)"].

Lemma blocker_nil b m : blocker b m = [] ↔ b = false.
Proof. by destruct b. Qed.
Lemma three_way file : stage_shape file = THREE_WAY ↔ stage_numbers file = [1; 2; 3].
Proof.
  unfold stage_shape, _STAGE_SHAPE. repeat case_bool_decide; split; try done; congruence.
Qed.
Lemma automatic_blockers_nil policy e : automatic_blockers policy e = [] ↔ automatic policy e.
Proof.
  unfold automatic_blockers, automatic. split.
  - intros [H1 [H2 H3]%app_eq_nil]%app_eq_nil.
    apply blocker_nil in H1, H3. to_prop. split; [done|]. split; [|done].
    destruct (mce_files e) as [|f [|g fs]]; [done| |done]. exists f.
    apply app_eq_nil in H2 as [Ha%blocker_nil Hb%blocker_nil]. to_prop.
    by rewrite <- three_way.
  - intros (-> & (f & -> & Hs & Ht) & ->). apply three_way in Hs. rewrite Hs, Ht. done.
Qed.

Section policy_facts.
Context {S : Type} (f : string → M S bool) (safe : string → bool).
(** The inspection of a blob has one answer, in whatever state it is made. *)
Definition answers : Prop := ∀ oid s, ∃ s', f oid s = (Ok (safe oid), s').
Context (Hf : answers).

Lemma any_fails_run l : ∀ s, ∃ s',
  any_fails (λ stage : MergeConflictStage, f (mcs_object_id stage)) l s
  = (Ok (existsb (λ stage, negb (safe (mcs_object_id stage))) l), s').
Proof using Hf.
  induction l as [|a l IH]; intros s; [by exists s|]. cbn.
  destruct (Hf (mcs_object_id a) s) as (s1 & H1). destruct (IH s1) as (s2 & H2).
  unfold mbind, M_bind. rewrite H1. destruct (safe (mcs_object_id a)); cbn; eauto.
Qed.
Definition plain_blockers (policy : IntegrationConflictPolicy) (file : MergeConflictFile)
    : list string :=
  blocker (existsb (λ stage, negb (bool_decide (mcs_mode stage = "100644"))) (mcf_stages file))
    (mcf_path file +:+ ": repair requires regular non-executable file stages")
  ++ blocker (_is_protected_path policy (mcf_path file))
    (mcf_path file +:+ ": protected path cannot be delegated to Agent Repair")
  ++ blocker (existsb (λ stage, negb (safe (mcs_object_id stage))) (mcf_stages file))
    (mcf_path file +:+ ": conflicted Git blobs are not safe bounded UTF-8 text").
Lemma files_blockers_run policy files : ∀ s, ∃ s',
  files_blockers policy (Some f) files s = (Ok (mjoin (plain_blockers policy <$> files)), s').
Proof using Hf.
  induction files as [|file files IH]; intros s; [by exists s|]. cbn [files_blockers].
  destruct (any_fails_run (mcf_stages file) s) as (s1 & H1). destruct (IH s1) as (s2 & H2).
  exists s2. unfold file_blockers. erewrite M_bind_run.
  2:{ erewrite M_bind_run by exact H1. reflexivity. }
  by erewrite M_bind_run by exact H2.
Qed.
Lemma plain_blockers_nil policy file :
  plain_blockers policy file = [] ↔
  _is_protected_path policy (mcf_path file) = false
  ∧ Forall (λ stage, mcs_mode stage = "100644" ∧ safe (mcs_object_id stage) = true)
      (mcf_stages file).
Proof using.
  unfold plain_blockers. split.
  - intros [H1%blocker_nil [H2%blocker_nil H3%blocker_nil]%app_eq_nil]%app_eq_nil.
    split; [done|]. apply Forall_forall. intros st Hin.
    rewrite existsb_false_forall in *. split.
    + specialize (H1 st Hin). by to_prop.
    + specialize (H3 st Hin). by to_prop.
  - intros [H2 H3]. rewrite Forall_forall in H3.
    rewrite !(proj2 (existsb_false_forall _ _)), H2; [done|..].
    + intros st Hin. apply negb_false_iff. by apply H3.
    + intros st Hin. apply negb_false_iff, bool_decide_eq_true. by apply H3.
Qed.
End policy_facts.

(** What a validated evidence says. *)
Lemma MergeConflictEvidence_inv raw e : MergeConflictEvidence_new raw = Ok e →
  e = raw ∧ mce_files e ≠ [] ∧ NoDup (mcf_path <$> mce_files e)
  ∧ mce_conflicting_paths e = mcf_path <$> mce_files e.
Proof.
  unfold MergeConflictEvidence_new, validate_evidence_consistency, valid_if. intros H. inv_monad.
  by to_prop.
Qed.
Lemma MergeConflictEvidence_intro raw :
  any_oid (mce_integration_head raw) = true → any_oid (mce_task_commit raw) = true →
  text_ok 1 512 (mce_conflict_ref raw) = true → any_oid (mce_marker_commit raw) = true →
  any_oid (mce_conflicted_tree raw) = true → mce_files raw ≠ [] →
  text_ok 1 16000 (mce_raw_git_evidence raw) = true → NoDup (mcf_path <$> mce_files raw) →
  mce_conflicting_paths raw = mcf_path <$> mce_files raw → NoDup (mce_conflict_types raw) →
  (∀ t, t ∈ mce_conflict_types raw → t ∈ mcm_conflict_type <$> mce_messages raw) →
  MergeConflictEvidence_new raw = Ok raw.
Proof.
  intros H1 H2 H3 H4 H5 H6 H7 H8 H9 H10 H11.
  unfold MergeConflictEvidence_new, validate_evidence_consistency, valid_if.
  rewrite H1, H2, H3, H4, H5, H7, H9. rewrite !check_true; try reflexivity.
  - apply negb_true_iff, bool_decide_eq_false. by destruct (mce_files raw).
  - by apply negb_true_iff, bool_decide_eq_false.
  - by apply bool_decide_eq_true.
  - by apply bool_decide_eq_true.
  - by apply bool_decide_eq_true.
  - apply negb_true_iff, existsb_false_forall. intros t Ht. apply bool_decide_eq_false.
    intros Hn. by apply Hn, H11.
Qed.
Lemma app_nil_iff {A} (l k : list A) : l ++ k = [] ↔ l = [] ∧ k = [].
Proof. split; [apply app_eq_nil|by intros [-> ->]]. Qed.
Lemma mjoin_nil {A B} (g : A → list B) l : mjoin (g <$> l) = [] ↔ Forall (λ a, g a = []) l.
Proof.
  induction l as [|a l IH]; cbn; [by split; [constructor|]|].
  rewrite app_nil_iff, Forall_cons. by rewrite <- IH.
Qed.

Section routing.
Context {S : Type} (sha256 : string → string) (f : string → M S bool) (safe : string → bool).
Context (Hsha : ∀ s, is_sha256_hex (sha256 s) = true) (Hf : answers f safe).
Context (policy : IntegrationConflictPolicy) (evidence : MergeConflictEvidence) (task : TaskContract).
Context (He : MergeConflictEvidence_new evidence = Ok evidence).

Lemma hard_blockers_nil scope :
  scope_check task (mce_conflicting_paths evidence) = Ok scope →
  scope_blockers scope ++ [] ++ mjoin (plain_blockers safe policy <$> mce_files evidence) = []
  ↔ Forall (delegable policy task safe) (mce_files evidence).
Proof using He.
  intros Hscope. apply MergeConflictEvidence_inv in He as (_ & _ & _ & Hpaths).
  pose proof Hscope as (paths & Hn & _ & _)%scope_check_paths.
  pose proof (passed_spec _ _ _ _ Hscope Hn) as Hpass.
  assert (Hstrip : paths = strip ∘ mcf_path <$> mce_files evidence).
  { rewrite list_fmap_compose, <- Hpaths. apply map_result_Ok in Hn. symmetry.
    clear -Hn. induction Hn as [|p q ps qs Hp _ IH]; [done|]. cbn. rewrite IH.
    by apply normalize_changed_path_Ok in Hp as (-> & _). }
  rewrite app_nil_l, app_nil_iff. unfold scope_blockers. rewrite blocker_nil, negb_false_iff, Hpass, mjoin_nil.
  rewrite Hstrip, !Forall_forall. split.
  - intros [Hw Hp] file Hin. specialize (Hp _ Hin). apply plain_blockers_nil in Hp as [Hp1 Hp2].
    split; [apply Hw, (list_elem_of_fmap_2 (strip ∘ mcf_path)), Hin|done].
  - intros H. split.
    + intros p (file & -> & Hin)%list_elem_of_fmap. by apply H.
    + intros file Hin. apply plain_blockers_nil. by apply H.
Qed.

Lemma evaluate_decides scope s :
  scope_check task (mce_conflicting_paths evidence) = Ok scope →
  ∃ d s', evaluate sha256 policy evidence task (Some f) s = (Ok d, s')
  ∧ (ipd_human_repair_authorizable d = true ↔ Forall (delegable policy task safe) (mce_files evidence))
  ∧ (ipd_route d = ROUTE_AUTO_REPAIR_CANDIDATE ↔
       Forall (delegable policy task safe) (mce_files evidence) ∧ automatic policy evidence).
Proof using He Hf Hsha.
  intros Hscope. pose proof (hard_blockers_nil _ Hscope) as Hhard.
  pose proof He as (_ & Hne & Hnd & Hpaths)%MergeConflictEvidence_inv.
  assert (Hcp : mce_conflicting_paths evidence ≠ []) by (rewrite Hpaths; by destruct (mce_files evidence)).
  destruct (files_blockers_run f safe Hf policy (mce_files evidence) s) as (s' & Hfiles).
  unfold evaluate. rewrite (lift_run _ _ _ _ Hscope). cbn [is_none blocker].
  erewrite M_bind_run by exact Hfiles.
  set (hard := scope_blockers scope ++ [] ++ _) in *.
  assert (Hnew : ∀ d, ipd_evidence_fingerprint d = conflict_evidence_fingerprint sha256 evidence →
    ipd_conflicting_paths d = mce_conflicting_paths evidence → ipd_reasons d ≠ [] →
    (ipd_route d = ROUTE_AUTO_REPAIR_CANDIDATE →
       ipd_automatic_repair_enabled d = true ∧ ipd_human_repair_authorizable d = true) →
    IntegrationPolicyDecision_new d = Ok d).
  { intros d H1 H2 H3 H4. unfold IntegrationPolicyDecision_new, validate_route, valid_if.
    rewrite H1, H2. unfold conflict_evidence_fingerprint. rewrite Hsha, Hpaths.
    rewrite !bool_decide_eq_false_2 by (rewrite <- ?Hpaths; done).
    unfold no_duplicates. rewrite (bool_decide_eq_true_2 (NoDup _)) by done. cbn.
    case_decide as Hr; [|done]. destruct (H4 Hr) as [-> ->]. done. }
  case_bool_decide as Hb.
  - apply app_nil_iff in Hb as [Hb1%Hhard Hb2%automatic_blockers_nil].
    unfold lift. rewrite Hnew by done. eexists _, _. split; [reflexivity|]. cbn. tauto.
  - unfold lift. rewrite Hnew by done. eexists _, _. split; [reflexivity|]. cbn.
    rewrite bool_decide_eq_true, Hhard. split; [done|]. split; [done|].
    intros [H1%Hhard H2%automatic_blockers_nil]. destruct Hb. by rewrite H1, H2.
Qed.
End routing.

(** The policy routes a conflict exactly as its conditions say.  A person
    may authorise the repair iff every conflicted path is in the write scope
    of the task, is not protected, and all its stages are regular
    non-executable files with safe text; the conflict is an automatic
    candidate iff moreover automatic repair is enabled and the conflict is a
    three-way content conflict of one supported text file.  The policy always
    decides, unless the name of a path is one the scope check refuses
    ([ValueError]). *)
Theorem policy_routes_exactly {S} sha256 (f : string → M S bool) safe policy evidence task s
    (Hsha : ∀ s, is_sha256_hex (sha256 s) = true)
    (Hf : ∀ oid s, ∃ s', f oid s = (Ok (safe oid), s'))
    (He : MergeConflictEvidence_new evidence = Ok evidence) :
  (∃ d s', evaluate sha256 policy evidence task (Some f) s = (Ok d, s')
   ∧ (ipd_human_repair_authorizable d = true ↔
        Forall (delegable policy task safe) (mce_files evidence))
   ∧ (ipd_route d = ROUTE_AUTO_REPAIR_CANDIDATE ↔
        Forall (delegable policy task safe) (mce_files evidence) ∧ automatic policy evidence))
  ∨ (∃ e, evaluate sha256 policy evidence task (Some f) s = (Raise e, s)
     ∧ exn_kind e = ValueError
     ∧ ∃ path, path ∈ mce_conflicting_paths evidence ∧ is_ok (_normalize_changed_path path) = false).
Proof.
  destruct (scope_check task (mce_conflicting_paths evidence)) as [scope|e] eqn:Hscope.
  - left. by apply (evaluate_decides sha256 f safe Hsha Hf policy evidence task He scope).
  - right. exists e. split; [by unfold evaluate; rewrite (lift_raise _ _ _ _ Hscope)|].
    by eapply scope_check_raise.
Qed.

(** A conflict on one file, and on a protected one. *)
Definition sample_oid (c : ascii) : string := of_chars (replicate 40 c).
Definition sample_stage (n : Z) (side : MergeConflictStageSide) : MergeConflictStage := {|
  mcs_stage := n; mcs_side := side; mcs_mode := "100644"; mcs_object_id := sample_oid "b" |}.
Definition sample_file (path : string) : MergeConflictFile := {|
  mcf_path := path;
  mcf_stages := [sample_stage 1 SIDE_BASE; sample_stage 2 SIDE_INTEGRATION; sample_stage 3 SIDE_TASK] |}.
Definition sample_message (path : string) : MergeConflictMessage := {|
  mcm_conflict_type := "CONFLICT (contents)"; mcm_paths := [path];
  mcm_message := "CONFLICT (content): Merge conflict in " +:+ path |}.
Definition sample_evidence (path : string) : MergeConflictEvidence := {|
  mce_integration_head := sample_oid "a"; mce_task_commit := sample_oid "c";
  mce_conflict_ref := "refs/devflow/integration-conflicts/run-1";
  mce_marker_commit := sample_oid "d"; mce_conflicted_tree := sample_oid "e";
  mce_conflicting_paths := [path]; mce_conflict_types := ["CONFLICT (contents)"];
  mce_files := [sample_file path]; mce_messages := [sample_message path];
  mce_raw_git_evidence := "stdout="; mce_raw_git_evidence_truncated := false |}.
Definition sample_sha256 (_ : string) : string := of_chars (replicate 64 "0"%char).
Definition sample_inspection (_ : string) : M nat bool := λ n, (Ok true, S n).
Definition sample_route (path : string) : option (IntegrationPolicyRoute * bool) :=
  match (evaluate sample_sha256 (default_policy true) (sample_evidence path) scope_task
           (Some sample_inspection) 0%nat).1 with
  | Ok d => Some (ipd_route d, ipd_human_repair_authorizable d)
  | Raise _ => None
  end.
Example sample_routes :
  sample_route <$> ["src/app.py"; "src/app.c"; "src/tests/app.py"; "README"; "../app.py"]
  = [Some (ROUTE_AUTO_REPAIR_CANDIDATE, true); Some (HUMAN_REQUIRED, true);
     Some (HUMAN_REQUIRED, false); Some (HUMAN_REQUIRED, false); None].
Proof. vm_compute. reflexivity. Qed.

Lemma policy_routes_exactly_witness :
  Forall (delegable (default_policy true) scope_task (λ _, true)) (mce_files (sample_evidence "src/app.py"))
  ∧ automatic (default_policy true) (sample_evidence "src/app.py").
Proof.
  destruct (policy_routes_exactly sample_sha256 sample_inspection (λ _, true)
    (default_policy true) (sample_evidence "src/app.py") scope_task 0%nat)
    as [(d & s' & Hd & _ & Hroute)|(e & He & _)].
  - by intros s.
  - intros oid s. by exists (S s).
  - vm_compute. reflexivity.
  - apply Hroute. assert (Hr : sample_route "src/app.py" = Some (ROUTE_AUTO_REPAIR_CANDIDATE, true))
      by (vm_compute; reflexivity).
    unfold sample_route in Hr. rewrite Hd in Hr. by injection Hr.
  - assert (Hr : sample_route "src/app.py" = Some (ROUTE_AUTO_REPAIR_CANDIDATE, true))
      by (vm_compute; reflexivity).
    unfold sample_route in Hr. by rewrite He in Hr.
Defined.

(** ** Reading [git merge-tree -z]

    What Git prints for files and messages: the tree, a record
    [mode object stage TAB path] per stage, an empty record, the messages, and
    a NUL after each record. *)
Definition tab : ascii := ascii_of_nat 9.
Definition stage_record (path : string) (stage : MergeConflictStage) : string :=
  (mcs_mode stage +:+ " " +:+ mcs_object_id stage +:+ " " +:+ str_of_Z (mcs_stage stage))
  +:+ String tab "" +:+ path.
Definition file_records (file : MergeConflictFile) : list string :=
  stage_record (mcf_path file) <$> mcf_stages file.
Definition message_records (m : MergeConflictMessage) : list string :=
  str_of_Z (Z.of_nat (length (mcm_paths m)))
  :: mcm_paths m ++ [mcm_conflict_type m; mcm_message m].
Definition merge_records (tree : string) (files : list MergeConflictFile)
    (messages : list MergeConflictMessage) : list string :=
  tree :: mjoin (file_records <$> files) ++ "" :: mjoin (message_records <$> messages) ++ [""].
Definition merge_output (tree : string) (files : list MergeConflictFile)
    (messages : list MergeConflictMessage) : string :=
  join (String nul "") (merge_records tree files messages).

(** Text that Git may print in a record and the decoder keeps. *)
Definition record_text (s : string) : bool := ascii_only s && negb (in_string nul s).
Definition file_printable (file : MergeConflictFile) : bool :=
  bool_decide (MergeConflictFile_new file = Ok file)
  && forallb (λ st, bool_decide (MergeConflictStage_new st = Ok st)) (mcf_stages file)
  && record_text (mcf_path file).
Definition message_printable (m : MergeConflictMessage) : bool :=
  bool_decide (MergeConflictMessage_new m = Ok m) && (length (mcm_paths m) <=? 1000)%nat
  && forallb record_text (mcm_conflict_type m :: mcm_message m :: mcm_paths m)
  && bool_decide (strip (mcm_conflict_type m) = mcm_conflict_type m)
  && bool_decide (strip (mcm_message m) = mcm_message m).

(** *** Records and words *)
Lemma split_chars_app sep a l : sep ∉ a →
  split_chars sep (a ++ sep :: l) = a :: split_chars sep l.
Proof.
  induction a as [|c a IH]; intros Ha; cbn.
  - by rewrite decide_True.
  - rewrite decide_False by set_solver. rewrite IH by set_solver. done.
Qed.
Lemma split_chars_last sep a : sep ∉ a → split_chars sep a = [a].
Proof.
  induction a as [|c a IH]; intros Ha; cbn; [done|].
  rewrite decide_False by set_solver. by rewrite IH by set_solver.
Qed.
Lemma split_on_join sep parts : parts ≠ [] → Forall (λ p, sep ∉ chars p) parts →
  split_on sep (join (String sep "") parts) = parts.
Proof.
  intros Hne Hall. unfold split_on.
  assert (Hs : split_chars sep (chars (join (String sep "") parts)) = chars <$> parts).
  { induction Hall as [|p parts Hp Hps IH]; [done|]. destruct parts as [|q parts].
    - cbn [join]. by apply split_chars_last.
    - change (join (String sep "") (p :: q :: parts))
        with (p +:+ String sep "" +:+ join (String sep "") (q :: parts)).
      rewrite !chars_app. change (chars (String sep "")) with [sep]. cbn [app].
      by rewrite split_chars_app, IH. }
  rewrite Hs, <- list_fmap_compose. rewrite (list_fmap_ext _ id), list_fmap_id; [done|].
  intros i p _. apply of_chars_chars.
Qed.

Definition word (s : string) : bool :=
  negb (bool_decide (s = "")) && forallb (λ c, negb (is_c_space c)) (chars s).
Lemma split_bytes_word cur a l : forallb (λ c, negb (is_c_space c)) a = true → cur ++ a ≠ [] →
  split_bytes_space cur (a ++ " "%char :: l) = (reverse cur ++ a) :: split_bytes_space [] l.
Proof.
  revert cur. induction a as [|c a IH]; intros cur Ha Hne.
  - rewrite app_nil_r in *. cbn. by destruct cur.
  - cbn in Ha. apply andb_true_iff in Ha as [Hc Ha]. to_prop. cbn. rewrite Hc.
    rewrite IH; [by rewrite reverse_cons, <- app_assoc|done|done].
Qed.
Lemma split_bytes_final cur a : forallb (λ c, negb (is_c_space c)) a = true → cur ++ a ≠ [] →
  split_bytes_space cur a = [reverse cur ++ a].
Proof.
  revert cur. induction a as [|c a IH]; intros cur Ha Hne.
  - rewrite app_nil_r in *. cbn. by destruct cur.
  - cbn in Ha. apply andb_true_iff in Ha as [Hc Ha]. to_prop. cbn. rewrite Hc.
    rewrite IH; [by rewrite reverse_cons, <- app_assoc|done|done].
Qed.
Lemma split_three a b c : word a = true → word b = true → word c = true →
  split_bytes (a +:+ " " +:+ b +:+ " " +:+ c) = [a; b; c].
Proof.
  unfold word. intros Ha Hb Hc. to_prop.
  assert (Hne : ∀ s, s ≠ "" → chars s ≠ []) by (by intros []).
  unfold split_bytes. rewrite !chars_app. change (chars " ") with [" "%char]. cbn [app].
  rewrite split_bytes_word, split_bytes_word, split_bytes_final by (done || by apply Hne).
  cbn. by rewrite !of_chars_chars.
Qed.
Lemma partition_app sep a l : sep ∉ a → partition_chars sep (a ++ sep :: l) = Some (a, l).
Proof.
  induction a as [|c a IH]; intros Ha; cbn; [by rewrite decide_True|].
  rewrite decide_False by set_solver. by rewrite IH by set_solver.
Qed.

(** *** Modes, object ids and counts are plain words *)
Lemma hex_plain c : is_any_hex c = true → plain_char c = true.
Proof. destruct c as [[] [] [] [] [] [] [] []]; vm_compute; congruence. Qed.
Lemma octal_hex c : is_octal c = true → is_any_hex c = true.
Proof. destruct c as [[] [] [] [] [] [] [] []]; vm_compute; congruence. Qed.
Lemma plain_tab c : plain_char c = true → c ≠ tab.
Proof. by intros Hc ->. Qed.
Lemma plain_of s (p : ascii → bool) :
  (∀ c, p c = true → plain_char c = true) → (1 <= str_len s)%nat → forallb p (chars s) = true → plain s.
Proof.
  intros Hp Hlen Hs. split; [intros ->; cbn in Hlen; lia|]. rewrite forallb_forall in *. auto.
Qed.
Lemma mode_plain s : mode_ok s = true → plain s.
Proof.
  unfold mode_ok. intros [Hl%Nat.eqb_eq Hs]%andb_true_iff.
  apply (plain_of s is_octal); [|lia|done]. intros c Hc. by apply hex_plain, octal_hex.
Qed.
Lemma oid_plain s : any_oid s = true → plain s.
Proof.
  unfold any_oid, hex_string. intros [[Hl _]%andb_true_iff Hs]%andb_true_iff.
  apply Nat.leb_le in Hl. apply (plain_of s is_any_hex); [apply hex_plain|lia|done].
Qed.
Lemma plain_chars s c : plain s → c ∈ chars s → plain_char c = true.
Proof. intros [_ Hs] Hc. rewrite forallb_forall in Hs. by apply Hs, list_elem_of_In. Qed.
Lemma plain_word s : plain s → word s = true.
Proof.
  intros Hs. unfold word. apply andb_true_iff. split; [apply negb_true_iff, bool_decide_eq_false, Hs|].
  apply forallb_forall. intros c Hc%list_elem_of_In. apply (plain_chars _ _ Hs) in Hc.
  unfold plain_char in Hc. to_prop. by apply negb_true_iff.
Qed.
Lemma plain_ascii s : plain s → ascii_only s = true.
Proof.
  intros Hs. apply forallb_forall. intros c Hc%list_elem_of_In. apply (plain_chars _ _ Hs) in Hc.
  unfold plain_char in Hc. by to_prop.
Qed.
Lemma plain_nul s : plain s → nul ∉ chars s.
Proof. by intros Hs Hc%(plain_chars _ _ Hs). Qed.
Lemma record_text_nul s : record_text s = true → nul ∉ chars s.
Proof. unfold record_text, in_string. intros H. by to_prop. Qed.
Lemma record_text_ascii s : record_text s = true → ascii_only s = true.
Proof. unfold record_text. intros H. by to_prop. Qed.
(** The numbers that occur: stages and counts of paths. *)
Lemma count_reads n : (0 <= n <= 1000)%Z → python_int (str_of_Z n) = Some n ∧ plain (str_of_Z n).
Proof.
  intros Hn.
  assert (Hall : forallb (λ k, bool_decide (python_int (str_of_Z (Z.of_nat k)) = Some (Z.of_nat k))
            && negb (bool_decide (str_of_Z (Z.of_nat k) = ""))
            && forallb plain_char (chars (str_of_Z (Z.of_nat k)))) (seq 0 1001) = true)
    by (vm_compute; reflexivity).
  rewrite forallb_forall in Hall. specialize (Hall (Z.to_nat n)).
  rewrite Z2Nat.id in Hall by lia.
  assert (Hin : In (Z.to_nat n) (seq 0 1001)) by (apply in_seq; lia).
  specialize (Hall Hin). by to_prop.
Qed.

(** *** Stages *)
Lemma MergeConflictStage_inv st : MergeConflictStage_new st = Ok st →
  mode_ok (mcs_mode st) = true ∧ any_oid (mcs_object_id st) = true
  ∧ mcs_stage st ∈ [1; 2; 3] ∧ _STAGE_SIDE (mcs_stage st) = Some (mcs_side st).
Proof.
  unfold MergeConflictStage_new, validate_stage_side, valid_if. intros H. inv_monad. by to_prop.
Qed.
Lemma stage_number_reads st : mcs_stage st ∈ [1; 2; 3] →
  python_int (str_of_Z (mcs_stage st)) = Some (mcs_stage st) ∧ plain (str_of_Z (mcs_stage st)).
Proof. intros H. apply count_reads. set_unfold. lia. Qed.

(** *** Files *)
Lemma MergeConflictFile_inv f : MergeConflictFile_new f = Ok f →
  mcf_path f ≠ "" ∧ mcf_stages f ≠ [] ∧ NoDup (stage_numbers f)
  ∧ stage_numbers f = merge_sort Z.le (stage_numbers f).
Proof.
  unfold MergeConflictFile_new, validate_stage_order, valid_if, text_ok. intros H. inv_monad. to_prop.
  split_and!; [|by destruct (mcf_stages f)|done|done]. intros Heq. rewrite Heq in *. done.
Qed.
Lemma file_printable_inv f : file_printable f = true →
  MergeConflictFile_new f = Ok f ∧ Forall (λ st, MergeConflictStage_new st = Ok st) (mcf_stages f)
  ∧ record_text (mcf_path f) = true.
Proof.
  unfold file_printable. intros H. to_prop. split_and!; [done| |done].
  apply Forall_forall. intros st Hin%list_elem_of_In.
  match goal with H : forallb _ _ = true |- _ => rewrite forallb_forall in H; specialize (H st Hin) end.
  by to_prop.
Qed.
Lemma file_of_sorted f : MergeConflictFile_new f = Ok f → file_of (mcf_path f, mcf_stages f) = Ok f.
Proof.
  intros Hf. unfold file_of. cbn [fst snd].
  enough (merge_sort stage_le (mcf_stages f) = mcf_stages f) as -> by (by destruct f).
  apply MergeConflictFile_inv in Hf as (_ & _ & Hnd & Hsort). unfold stage_numbers in *.
  apply (StronglySorted_unique_strong stage_le).
  - intros a b Ha Hb Hab Hba. assert (mcs_stage a = mcs_stage b) as Heq by (unfold stage_le in *; lia).
    apply merge_sort_Permutation in Ha || rewrite merge_sort_Permutation in Ha.
    apply list_elem_of_lookup in Ha as [i Hi]. apply list_elem_of_lookup in Hb as [j Hj].
    assert (i = j) as ->; [|congruence].
    apply (NoDup_lookup _ i j (mcs_stage a) Hnd); rewrite list_lookup_fmap;
      [by rewrite Hi|by rewrite Hj, Heq].
  - apply StronglySorted_merge_sort; [intros a b c; unfold stage_le; lia|intros a b; unfold stage_le; lia].
  - assert (Hs : StronglySorted Z.le (mcs_stage <$> mcf_stages f)).
    { rewrite Hsort. apply StronglySorted_merge_sort; apply _. }
    clear -Hs. revert Hs. generalize (mcf_stages f). intros l.
    induction l as [|st sts IH]; intros Hs; [constructor|].
    apply StronglySorted_inv in Hs as [Hs Hall]. constructor; [by apply IH|].
    by apply (proj1 (Forall_fmap mcs_stage (Z.le (mcs_stage st)) sts)) in Hall.
  - by rewrite merge_sort_Permutation.
Qed.

Section reading_records.
Context `{Laws : CodecLaws}.

Lemma parse_stage_record path st :
  MergeConflictStage_new st = Ok st → record_text path = true → path ≠ "" →
  _parse_stage_record (stage_record path st) = Ok (path, st).
Proof using Laws.
  intros Hst Hpath Hne. pose proof (MergeConflictStage_inv _ Hst) as (Hmode & Hoid & Hin & Hside).
  destruct (stage_number_reads st Hin) as [Hint Hstage].
  pose proof (mode_plain _ Hmode) as Pm. pose proof (oid_plain _ Hoid) as Po.
  unfold _parse_stage_record, stage_record, partition_on. cbv zeta.
  rewrite !chars_app. change (chars (String tab "")) with [tab]. change (chars " ") with [" "%char].
  rewrite <- !app_assoc. cbn [app].
  match goal with |- context [partition_chars _ ?l] =>
    replace l with ((chars (mcs_mode st) ++ " "%char :: chars (mcs_object_id st) ++ " "%char
      :: chars (str_of_Z (mcs_stage st))) ++ tab :: chars path)
      by (by rewrite <- !app_assoc; cbn; rewrite <- !app_assoc) end.
  rewrite partition_app.
  2:{ rewrite elem_of_app, elem_of_cons, elem_of_app, elem_of_cons.
      intros [Hc|[|[Hc|[|Hc]]]]; try done;
        [apply (plain_chars _ _ Pm) in Hc|apply (plain_chars _ _ Po) in Hc
        |apply (plain_chars _ _ Hstage) in Hc]; by apply plain_tab in Hc. }
  cbn [mbind option_bind of_option result_bind]. rewrite of_chars_chars.
  rewrite (bool_decide_eq_false_2 (path = "")) by done. cbn [negb check mbind result_bind].
  assert (Hwords : split_bytes (of_chars (chars (mcs_mode st) ++ " "%char :: chars (mcs_object_id st)
      ++ " "%char :: chars (str_of_Z (mcs_stage st))))
    = [mcs_mode st; mcs_object_id st; str_of_Z (mcs_stage st)]).
  { rewrite <- split_three by (by apply plain_word). f_equal.
    rewrite <- (of_chars_chars (_ +:+ _)), !chars_app. done. }
  rewrite Hwords. unfold decode_ascii. rewrite !plain_ascii by done.
  cbn [mbind option_bind]. rewrite Hint. cbn [mbind option_bind of_option result_bind].
  rewrite Hside, Hmode, Hoid. cbn [of_option check mbind result_bind].
  rewrite fsdecode_ascii by (by apply record_text_ascii).
  rewrite (bool_decide_eq_false_2 (path = "")) by done. cbn [negb check mbind result_bind].
  destruct st as [n side mode oid]. cbn in *. by rewrite Hst.
Qed.

(** The stages of one file are read into one group. *)
Lemma read_stages_file path sts : ∀ grouped gs rest,
  Forall (λ st, MergeConflictStage_new st = Ok st) sts → record_text path = true → path ≠ "" →
  path ∉ grouped.*1 → NoDup (mcs_stage <$> gs ++ sts) → gs ≠ [] →
  read_stages (grouped ++ [(path, gs)]) ((stage_record path <$> sts) ++ rest)
  = read_stages (grouped ++ [(path, gs ++ sts)]) rest.
Proof using Laws.
  induction sts as [|st sts IH]; intros grouped gs rest Hall Hpath Hne Hfresh Hnd Hgs;
    [by rewrite app_nil_r|].
  apply Forall_cons in Hall as [Hst Hall]. cbn [fmap list_fmap app read_stages].
  rewrite bool_decide_eq_false_2.
  2:{ unfold stage_record. intros Heq%(f_equal str_len). rewrite !str_len_app in Heq. cbn in Heq. lia. }
  rewrite parse_stage_record by done. cbn [mbind result_bind].
  assert (Hadd : add_stage path st (grouped ++ [(path, gs)]) = Ok (grouped ++ [(path, gs ++ [st])])).
  { clear IH. induction grouped as [|[p ss] grouped IHg]; cbn [app add_stage].
    - rewrite decide_True by done. rewrite (proj2 (existsb_false_forall _ _)); [done|].
      intros a Ha. apply Z.eqb_neq. intros Heq.
      rewrite fmap_app in Hnd. apply NoDup_app in Hnd as (_ & Hnd & _). apply (Hnd (mcs_stage a)).
      + by apply list_elem_of_fmap_2.
      + rewrite Heq. cbn. by left.
    - cbn in Hfresh. rewrite decide_False by set_solver. by rewrite IHg by set_solver. }
  rewrite Hadd. cbn [mbind result_bind].
  rewrite IH by (done || (by rewrite <- app_assoc) || (by destruct gs)). by rewrite <- app_assoc.
Qed.
Definition group_of (f : MergeConflictFile) : string * list MergeConflictStage :=
  (mcf_path f, mcf_stages f).
Lemma read_stages_files files : ∀ grouped rest,
  Forall (λ f, file_printable f = true) files → NoDup (mcf_path <$> files) →
  (∀ f, f ∈ files → mcf_path f ∉ grouped.*1) →
  read_stages grouped (mjoin (file_records <$> files) ++ "" :: rest)
  = Ok (grouped ++ (group_of <$> files), "" :: rest).
Proof using Laws.
  induction files as [|f files IH]; intros grouped rest Hall Hnd Hfresh.
  { cbn. by rewrite app_nil_r. }
  apply Forall_cons in Hall as [Hf Hall]. apply file_printable_inv in Hf as (Hf & Hsts & Hpath).
  pose proof (MergeConflictFile_inv _ Hf) as (Hne & Hst & Hndst & _).
  cbn [fmap list_fmap] in Hnd. apply NoDup_cons in Hnd as [Hnot Hnd].
  cbn [fmap list_fmap mjoin list_join]. rewrite <- app_assoc. unfold file_records at 1.
  destruct (mcf_stages f) as [|st sts] eqn:Estages; [done|].
  unfold stage_numbers in Hndst. rewrite Estages in Hndst.
  apply Forall_cons in Hsts as [Hst1 Hsts]. cbn [fmap list_fmap app read_stages].
  rewrite bool_decide_eq_false_2.
  2:{ unfold stage_record. intros Heq%(f_equal str_len). rewrite !str_len_app in Heq. cbn in Heq. lia. }
  rewrite parse_stage_record by done. cbn [mbind result_bind].
  assert (Hadd : add_stage (mcf_path f) st grouped = Ok (grouped ++ [(mcf_path f, [st])])).
  { assert (Hin : mcf_path f ∉ grouped.*1) by (apply Hfresh; by left). clear -Hin.
    induction grouped as [|[p ss] grouped IHg]; [done|]. cbn in *.
    rewrite decide_False by set_solver. by rewrite IHg by set_solver. }
  rewrite Hadd. cbn [mbind result_bind].
  rewrite read_stages_file by (done || (apply Hfresh; by left)).
  rewrite IH; [|done|done|].
  - rewrite <- app_assoc. cbn. unfold group_of at 2. by rewrite Estages.
  - intros g Hg. rewrite fmap_app, elem_of_app. cbn. intros [Hin|Hin].
    + by apply (Hfresh g (list_elem_of_further _ _ _ Hg)).
    + apply list_elem_of_singleton in Hin. apply Hnot. rewrite <- Hin. by apply list_elem_of_fmap_2.
Qed.

(** The messages are read back. *)
Lemma message_printable_inv m : message_printable m = true →
  MergeConflictMessage_new m = Ok m ∧ (length (mcm_paths m) <= 1000)%nat
  ∧ record_text (mcm_conflict_type m) = true ∧ record_text (mcm_message m) = true
  ∧ Forall (λ p, record_text p = true) (mcm_paths m)
  ∧ strip (mcm_conflict_type m) = mcm_conflict_type m ∧ strip (mcm_message m) = mcm_message m
  ∧ mcm_conflict_type m ≠ "" ∧ mcm_message m ≠ "".
Proof using.
  unfold message_printable. intros Hm. to_prop. cbn [forallb] in *. to_prop.
  match goal with H : forallb record_text _ = true |- _ => rename H into Hps end.
  assert (Hne : mcm_conflict_type m ≠ "" ∧ mcm_message m ≠ "").
  { unfold MergeConflictMessage_new, valid_if, text_ok in *. inv_monad. to_prop.
    split; intros Heq; rewrite Heq in *; done. }
  split_and!; try done; [by apply Nat.leb_le| |apply Hne|apply Hne].
  apply Forall_forall. intros p Hp%list_elem_of_In. rewrite forallb_forall in Hps. by apply Hps.
Qed.
Lemma read_messages_all ms : ∀ fuel,
  Forall (λ m, message_printable m = true) ms →
  (length (mjoin (message_records <$> ms)) < fuel)%nat →
  read_messages fuel (mjoin (message_records <$> ms) ++ [""]) = Ok ms.
Proof using Laws.
  induction ms as [|m ms IH]; intros [|fuel] Hall Hfuel; [lia|done|lia|].
  apply Forall_cons in Hall as [Hm Hall].
  apply message_printable_inv in Hm as (Hm & Hlen & Ht & Hmsg & Hps & St & Sm & Nt & Nm).
  destruct (count_reads (Z.of_nat (length (mcm_paths m)))) as [Hint Hplain]; [lia|].
  cbn [fmap list_fmap mjoin list_join] in *. unfold message_records at 1.
  rewrite length_app in Hfuel.
  assert (1 <= length (message_records m))%nat as Hm1 by (cbn; lia).
  assert (Hrest : ((str_of_Z (Z.of_nat (length (mcm_paths m)))
      :: mcm_paths m ++ [mcm_conflict_type m; mcm_message m]) ++ mjoin (message_records <$> ms)) ++ [""]
    = str_of_Z (Z.of_nat (length (mcm_paths m)))
      :: (mcm_paths m ++ mcm_conflict_type m :: mcm_message m
          :: mjoin (message_records <$> ms) ++ [""])) by (cbn; by rewrite <- !app_assoc).
  etrans; [apply f_equal; exact Hrest|]. clear Hrest. cbn [read_messages].
  destruct (mcm_paths m ++ mcm_conflict_type m :: _) as [|x rest] eqn:Er; [by destruct (mcm_paths m)|].
  rewrite <- Er. clear x rest Er.
  rewrite bool_decide_eq_false_2 by apply Hplain.
  unfold _decode_count, decode_ascii. rewrite plain_ascii by done.
  cbn [mbind option_bind result_bind of_option]. rewrite Hint. cbn [of_option mbind result_bind].
  rewrite (proj2 (Z.ltb_ge _ 0)), (proj2 (Z.ltb_ge 1000 _)) by lia.
  cbn [orb negb check mbind result_bind]. rewrite Nat2Z.id.
  rewrite (proj2 (Nat.leb_le _ _)) by (rewrite length_app; cbn; lia).
  cbn [check mbind result_bind]. unfold _decode_text.
  rewrite app_nth2 by lia. rewrite Nat.sub_diag. rewrite app_nth2 by lia.
  rewrite Nat.sub_succ_l, Nat.sub_diag by lia. cbn [nth].
  rewrite !decode_replace_ascii, St, Sm by (by apply record_text_ascii).
  rewrite !bool_decide_eq_false_2 by done. cbn [orb negb check mbind result_bind].
  rewrite take_app_length.
  assert (Hfs : fsdecode <$> mcm_paths m = mcm_paths m).
  { clear -Hps Laws. induction Hps as [|p ps Hp _ IH]; [done|]. cbn.
    by rewrite IH, fsdecode_ascii by (by apply record_text_ascii). }
  rewrite Hfs. replace {| mcm_conflict_type := _; mcm_paths := _; mcm_message := _ |} with m
    by (by destruct m). rewrite Hm. cbn [mbind result_bind].
  rewrite drop_app_ge by lia. rewrite Nat.add_comm, Nat.add_sub. cbn [drop skipn].
  rewrite IH; [done|done|].
  apply Nat.succ_lt_mono. eapply Nat.le_lt_trans; [|exact Hfuel]. exact (proj1 (Nat.add_le_mono_r _ _ _) Hm1).
Qed.
End reading_records.


(** *** Kinds and raw text *)
Lemma append_new_spec l : ∀ acc,
  NoDup acc → NoDup (foldl append_new acc l)
  ∧ ∀ t, t ∈ foldl append_new acc l ↔ t ∈ acc ∨ t ∈ l.
Proof.
  induction l as [|a l IH]; intros acc Hacc; cbn.
  { split; [done|]. intros t. rewrite elem_of_nil. tauto. }
  unfold append_new at 2 4. case_decide as Ha.
  - destruct (IH acc Hacc) as [H1 H2]. split; [done|]. intros t. rewrite H2, elem_of_cons.
    split; [tauto|]. intros [?|[->|?]]; tauto.
  - destruct (IH (acc ++ [a])) as [H1 H2].
    { apply NoDup_app. split_and!; [done| |apply NoDup_singleton].
      intros x Hx ->%list_elem_of_singleton. done. }
    split; [done|]. intros t. rewrite H2, elem_of_app, list_elem_of_singleton, elem_of_cons. tauto.
Qed.
Lemma conflict_types_spec ms :
  NoDup (_conflict_types ms) ∧ ∀ t, t ∈ _conflict_types ms → t ∈ mcm_conflict_type <$> ms.
Proof.
  assert (H : ∀ p, NoDup (foldl append_new [] (List.filter p (mcm_conflict_type <$> ms)))
    ∧ ∀ t, t ∈ foldl append_new [] (List.filter p (mcm_conflict_type <$> ms)) →
        t ∈ mcm_conflict_type <$> ms).
  { intros p. destruct (append_new_spec (List.filter p (mcm_conflict_type <$> ms)) [] (NoDup_nil_2))
      as [H1 H2]. split; [done|]. intros t [?%not_elem_of_nil|Ht]%H2; [done|].
    apply list_elem_of_In, filter_In in Ht as [Ht _]. by apply list_elem_of_In. }
  unfold _conflict_types. cbv zeta. case_match; apply H.
Qed.
Lemma raw_evidence_bound `{Machine, Codec} self out err :
  (256 <= mcc_raw_evidence_limit self <= 16000)%nat →
  text_ok 1 16000 (_bounded_raw_evidence self out err).1 = true.
Proof.
  intros Hl. unfold text_ok, _bounded_raw_evidence. cbv zeta. apply len_between.
  case_match eqn:Hle; cbn [fst].
  - apply Nat.leb_le in Hle. split; [|lia]. rewrite str_len_app. cbn. lia.
  - apply Nat.leb_gt in Hle. rewrite str_len_app. unfold str_take. rewrite str_len_of_chars, length_take.
    change (str_len (newline +:+ "...[truncated]")) with 15%nat.
    match type of Hle with (_ < str_len ?s)%nat => change (length (chars s)) with (str_len s) end.
    lia.
Qed.

(** The fuel of the second loop is never exhausted: the reader ends, with the
    messages or with one of two exceptions. *)
Lemma read_messages_ends `{Codec} parts : ∀ fuel e,
  (length parts < fuel)%nat → read_messages fuel parts = Raise e →
  exn_kind e = MergeConflictClassificationError ∨ exn_kind e = ValidationError.
Proof.
  intros fuel. revert parts. induction fuel as [|fuel IH]; intros parts e Hlen Hr; [lia|].
  destruct parts as [|record [|next rest]]; [done|done|]. cbn [read_messages] in Hr.
  case_bool_decide; [inv_raise; by left|].
  apply bind_Raise_inv in Hr as [Hr|(count & _ & Hr)].
  { left. unfold _decode_count in Hr. apply bind_Raise_inv in Hr as [Hr|(c & _ & Hr)].
    - destruct (decode_ascii record ≫= _); [done|]. by injection Hr as <-.
    - by inv_raise. }
  apply bind_Raise_inv in Hr as [Hr|(u & Hu & Hr)]; [inv_raise; by left|].
  apply bind_Raise_inv in Hr as [Hr|(u' & Hu' & Hr)]; [inv_raise; by left|].
  apply bind_Raise_inv in Hr as [Hr|(m & _ & Hr)].
  { right. unfold MergeConflictMessage_new, valid_if in Hr. by inv_raise. }
  apply bind_Raise_inv in Hr as [Hr|(ms & _ & Hr)]; [|done].
  eapply IH; [|exact Hr]. rewrite length_drop. cbn [length] in *. lia.
Qed.

Lemma merge_records_nul tree files messages :
  any_oid tree = true → Forall (λ f, file_printable f = true) files →
  Forall (λ m, message_printable m = true) messages →
  Forall (λ p, nul ∉ chars p) (merge_records tree files messages).
Proof.
  intros Htree%oid_plain%plain_nul Hfiles Hmessages. unfold merge_records.
  assert (He : nul ∉ chars "") by apply not_elem_of_nil.
  constructor; [done|]. apply Forall_app. split; [|constructor; [done|]; apply Forall_app; split; [|by repeat constructor]].
  - apply Forall_join, Forall_fmap. eapply Forall_impl; [exact Hfiles|]. intros f Hf. cbn.
    apply file_printable_inv in Hf as (_ & Hsts & Hpath). apply Forall_fmap.
    eapply Forall_impl; [exact Hsts|]. intros st Hst. cbn.
    apply MergeConflictStage_inv in Hst as (Hm%mode_plain%plain_nul & Ho%oid_plain%plain_nul & Hn & _).
    apply stage_number_reads in Hn as [_ Hn%plain_nul]. apply record_text_nul in Hpath.
    unfold stage_record. rewrite !chars_app, !elem_of_app.
    assert (nul ∉ chars " " ∧ nul ∉ chars (String tab "")) as [? ?].
    { split; intros Hc%list_elem_of_singleton; done. }
    tauto.
  - apply Forall_join, Forall_fmap. eapply Forall_impl; [exact Hmessages|]. intros m Hm. cbn.
    apply message_printable_inv in Hm as (_ & Hlen & Ht%record_text_nul & Hg%record_text_nul & Hps & _).
    constructor; [apply plain_nul, count_reads; lia|]. apply Forall_app. split; [|by repeat constructor].
    eapply Forall_impl; [exact Hps|]. apply record_text_nul.
Qed.

(** C30.  Reading [git merge-tree -z] recovers what Git printed.  For every
    non-empty list of conflicted files with distinct paths and well-formed
    stages and every list of messages, in ASCII, the classifier returns an
    evidence with exactly these files, in order, with their stages, and
    exactly these messages; its conflict types are those of the messages and
    its raw text, however long the output, fits the limit of the model. *)
Theorem merge_output_roundtrip `{Machine, Laws : CodecLaws} self tree files messages err ihead commit ref
    marker
    (Hl : (256 <= mcc_raw_evidence_limit self <= 16000)%nat)
    (Htree : any_oid tree = true) (Hhead : any_oid ihead = true) (Hcommit : any_oid commit = true)
    (Hmarker : any_oid marker = true) (Href : text_ok 1 512 ref = true)
    (Hne : files ≠ []) (Hnd : NoDup (mcf_path <$> files))
    (Hfiles : Forall (λ f, file_printable f = true) files)
    (Hmessages : Forall (λ m, message_printable m = true) messages) :
  ∃ e, _parse_conflicted_merge_output self (merge_output tree files messages) err ihead commit ref marker
       = Ok e
  ∧ mce_files e = files ∧ mce_messages e = messages
  ∧ mce_conflicting_paths e = mcf_path <$> files ∧ mce_conflicted_tree e = tree
  ∧ (mce_integration_head e, mce_task_commit e, mce_conflict_ref e, mce_marker_commit e)
    = (ihead, commit, ref, marker)
  ∧ mce_conflict_types e = _conflict_types messages.
Proof.
  unfold _parse_conflicted_merge_output, merge_output.
  rewrite split_on_join; [|done|by apply merge_records_nul]. unfold merge_records. cbv zeta.
  rewrite check_true.
  2:{ apply andb_true_iff. split.
      - apply Nat.leb_le. cbn [length]. rewrite length_app. cbn [length]. rewrite length_app. cbn. lia.
      - apply bool_decide_eq_true. rewrite last_cons, last_app_cons, last_cons, last_snoc. done. }
  cbn [mbind result_bind tail List.tl head default from_option]. unfold _decode_oid, decode_ascii.
  rewrite plain_ascii by by apply oid_plain. cbn [of_option mbind result_bind].
  unfold _require_oid. cbn [id]. rewrite Htree. cbn [check mbind result_bind].
  rewrite read_stages_files by (done || (intros f _; apply not_elem_of_nil)).
  cbn [app mbind result_bind]. cbn [bool_decide decide_rel negb check mbind result_bind tail List.tl].
  rewrite read_messages_all by (done || (cbn [length]; rewrite length_app; lia)).
  cbn [mbind result_bind].
  rewrite (bool_decide_eq_false_2 (_ <$> files = [])) by (by destruct files). cbn [negb check mbind result_bind].
  assert (Hof : map_result file_of (group_of <$> files) = Ok files).
  { apply map_result_Ok, Forall2_fmap_l, Forall_Forall2_diag. eapply Forall_impl; [exact Hfiles|].
    intros f (Hf & _)%file_printable_inv. by apply file_of_sorted. }
  rewrite Hof. cbn [mbind result_bind].
  pose proof (raw_evidence_bound self
    (join (String nul "") (merge_records tree files messages)) err Hl) as Hraw.
  unfold merge_records in Hraw. destruct (_bounded_raw_evidence self _ err) as [raw truncated].
  destruct (conflict_types_spec messages) as [Hct1 Hct2].
  eexists. split.
  - by apply MergeConflictEvidence_intro.
  - done.
Qed.

#[local] Instance plain_codec : Codec := {|
  fsdecode := id; decode_replace := id; decode_backslashreplace := id |}.
#[local] Instance plain_codec_laws : CodecLaws.
Proof. by split. Qed.
Lemma merge_output_roundtrip_witness :
  ∃ e, _parse_conflicted_merge_output {| mcc_workspace := {| ws_root := "/repo" |};
           mcc_raw_evidence_limit := 256 |}
         (merge_output (sample_oid "e") [sample_file "src/app.py"; sample_file "b"]
            [sample_message "src/app.py"; sample_message "b"]) "warning" (sample_oid "a") (sample_oid "c")
         "refs/devflow/integration-conflicts/run-1" (sample_oid "d") = Ok e
  ∧ mce_files e = [sample_file "src/app.py"; sample_file "b"]
  ∧ mce_conflict_types e = ["CONFLICT (contents)"].
Proof.
  destruct (merge_output_roundtrip {| mcc_workspace := {| ws_root := "/repo" |};
      mcc_raw_evidence_limit := 256 |} (sample_oid "e") [sample_file "src/app.py"; sample_file "b"]
      [sample_message "src/app.py"; sample_message "b"] "warning" (sample_oid "a") (sample_oid "c")
      "refs/devflow/integration-conflicts/run-1" (sample_oid "d"))
    as (e & He & Hf & _ & _ & _ & _ & Ht).
  - cbn. lia.
  - vm_compute. reflexivity.
  - vm_compute. reflexivity.
  - vm_compute. reflexivity.
  - vm_compute. reflexivity.
  - vm_compute. reflexivity.
  - done.
  - by_compute.
  - by_compute.
  - by_compute.
  - exists e. split; [exact He|]. split; [exact Hf|]. rewrite Ht. vm_compute. reflexivity.
Defined.
