(* ===== verification/ToyGate.v ===== *)
(** * ToyGate: the small repository under the human gate

    [GitBytes] for the repository of [ToyGit]: the [-z] output of a conflicting
    merge and ref transactions, which satisfy [RefsLaws]; ASCII for the codec;
    a reader of JSON strings without escapes; and the conflict of
    [QueueExample] behind a gate. *)
From stdpp Require Import options.
From S2P Require Import Prelude Contracts Dag DagFacts Scheduler RunModels Json Merge Git Scope Worktree MergeQueue ToyGit QueueExample Conflict Classifier ConflictFacts HumanGate.
Open Scope Z_scope.

(** ** Transactions *)
Definition parse_command (line : string) : option ref_command :=
  match split_on " " line with
  | [verb; ref; oid] =>
      if bool_decide (verb = "verify") then Some (VerifyRef ref oid)
      else if bool_decide (verb = "create") then Some (CreateRef ref oid)
      else None
  | _ => None
  end.
Fixpoint parse_lines (lines : list string) : option (list ref_command) :=
  match lines with
  | [""] => Some []
  | line :: lines => c ← parse_command line; cs ← parse_lines lines; Some (c :: cs)
  | [] => None
  end.
Definition parse_transaction (input : string) : option (list ref_command) :=
  parse_lines (split_on (ascii_of_nat 10) input).
Definition run_command (c : ref_command) (repo : toy_repo) : option toy_repo :=
  match c with
  | VerifyRef ref oid =>
      if decide (commit_oid <$> tr_refs repo !! ref = Some oid) then Some repo else None
  | CreateRef ref oid =>
      k ← index_where (λ k, bool_decide (commit_oid k = oid)) (length (tr_commits repo));
      if decide (tr_refs repo !! ref = None) then Some (set_ref ref k repo) else None
  end.
Fixpoint run_commands (commands : list ref_command) (repo : toy_repo) : option toy_repo :=
  match commands with
  | [] => Some repo
  | c :: commands => repo ← run_command c repo; run_commands commands repo
  end.
Definition run_transaction (input : string) (repo : toy_repo) : process_result * toy_repo :=
  match commands ← parse_transaction input; run_commands commands repo with
  | Some repo => answer 0 "" repo
  | None => answer 128 "" repo
  end.

(** ** The conflicts of a merge *)
Definition blob_stage (n : Z) (side : MergeConflictStageSide) (content : option string)
    : list MergeConflictStage :=
  match content with
  | Some c => [{| mcs_stage := n; mcs_side := side; mcs_mode := "100644";
                  mcs_object_id := blob_oid c |}]
  | None => []
  end.
Definition conflict_of (base ours theirs : toy_tree) (f : string) : list MergeConflictFile :=
  match merge_file (base !! f) (ours !! f) (theirs !! f) with
  | Some _ => []
  | None => [{| mcf_path := f;
                mcf_stages := blob_stage 1 SIDE_BASE (base !! f)
                  ++ blob_stage 2 SIDE_INTEGRATION (ours !! f)
                  ++ blob_stage 3 SIDE_TASK (theirs !! f) |}]
  end.
Definition content_message (f : MergeConflictFile) : MergeConflictMessage := {|
  mcm_conflict_type := "CONFLICT (contents)"; mcm_paths := [mcf_path f];
  mcm_message := "CONFLICT (content): Merge conflict in " +:+ mcf_path f |}.
Definition merge_tree_z (ours theirs : string) (repo : toy_repo) : process_result * toy_repo :=
  match commit_named repo ours, commit_named repo theirs with
  | Some o, Some t =>
      match merge_commits repo o t with
      | Some tree => let '(k, repo) := add_tree tree repo in
                     answer 0 (tree_oid k +:+ of_chars [nul]) repo
      | None =>
          let base := match parents_of repo t with p :: _ => tree_of repo p | [] => ∅ end in
          let files := mjoin (conflict_of base (tree_of repo o) (tree_of repo t)
            <$> elements (dom base ∪ dom (tree_of repo o) ∪ dom (tree_of repo t))) in
          answer 1 (merge_output (tree_oid (tree_index repo o)) files (content_message <$> files)) repo
      end
  | _, _ => fails repo
  end.
Definition toy_bytes (args : list string) (input : option string) (repo : toy_repo)
    : process_result * toy_repo :=
  if bool_decide (args = ["update-ref"; "--stdin"]) then run_transaction (default "" input) repo
  else if bool_decide (take 3 args = ["merge-tree"; "--write-tree"; "-z"])
  then merge_tree_z (default "" (args !! 4%nat)) (default "" (args !! 5%nat)) repo
  else toy_git args repo.
#[export] Instance toy_git_bytes : @GitBytes toy_machine := {|
  run_git_bytes _ args input repo := toy_bytes args input repo |}.
#[export] Instance toy_refs : @Refs toy_machine := {|
  ref_map (repo : @Host toy_machine) := commit_oid <$> tr_refs repo |}.

(** ** The laws *)
Lemma encode_ascii s : ascii_only s = true → encode_utf8 s = s.
Proof.
  unfold ascii_only, encode_utf8. intros Hs. rewrite <- (of_chars_chars s) at 2. f_equal.
  induction (chars s) as [|c l IH]; [done|]. cbn [forallb] in Hs. apply andb_true_iff in Hs as [Hc Hl].
  change (utf8_char c ++ mjoin (utf8_char <$> l) = c :: l). rewrite IH by done.
  unfold utf8_char. cbv zeta. by rewrite Hc.
Qed.
Lemma plain_avoids s c : plain s → plain_char c = false → c ∉ chars s.
Proof. intros Hs Hc Hin%(plain_chars _ _ Hs). congruence. Qed.
Definition command_words (c : ref_command) : list string :=
  match c with VerifyRef ref oid => ["verify"; ref; oid] | CreateRef ref oid => ["create"; ref; oid] end.
Lemma words_plain c : ref_command_plain c → Forall plain (command_words c).
Proof. destruct c; intros [? ?]; repeat apply Forall_cons_2; done || by split. Qed.
Lemma line_words c : ref_command_line c = join " " (command_words c).
Proof. by destruct c. Qed.
Lemma parse_line c : ref_command_plain c → parse_command (ref_command_line c) = Some c.
Proof.
  intros Hc. unfold parse_command. rewrite line_words, split_on_join.
  - by destruct c.
  - by destruct c.
  - eapply Forall_impl; [by apply words_plain|]. intros s Hs. by apply plain_avoids.
Qed.
Lemma chars_join sep words x : x ∈ chars (join (String sep "") words) →
  x = sep ∨ ∃ w, w ∈ words ∧ x ∈ chars w.
Proof.
  induction words as [|w [|w' words] IH]; [by intros ?%not_elem_of_nil| |].
  - cbn [join]. right. exists w. split; [by left|done].
  - change (join (String sep "") (w :: w' :: words))
      with (w +:+ String sep "" +:+ join (String sep "") (w' :: words)).
    rewrite !chars_app, !elem_of_app. intros [Hx|[Hx|Hx]].
    + right. exists w. split; [by left|done].
    + apply list_elem_of_singleton in Hx. by left.
    + destruct (IH Hx) as [->|(v & Hv & Hxv)]; [by left|]. right. exists v. split; [by right|done].
Qed.
Lemma line_chars c x : ref_command_plain c → x ∈ chars (ref_command_line c) →
  plain_char x = true ∨ x = " "%char.
Proof.
  intros Hc. rewrite line_words. intros [->|(w & Hw & Hx)]%chars_join; [by right|]. left.
  pose proof (words_plain c Hc) as Hp. rewrite Forall_forall in Hp. by apply (plain_chars w), Hx; apply Hp.
Qed.
Lemma text_chars commands x : Forall ref_command_plain commands →
  x ∈ chars (transaction_text commands) → plain_char x = true ∨ x = " "%char ∨ x = ascii_of_nat 10.
Proof.
  intros Hc. rewrite Forall_forall in Hc. unfold transaction_text.
  intros [->|(w & Hw & Hx)]%(chars_join (ascii_of_nat 10)); [by right; right|].
  apply elem_of_app in Hw as [(c & -> & Hin)%list_elem_of_fmap|Hw].
  - apply line_chars in Hx as [Hx| ->]; [by left|by right; left|by apply Hc].
  - apply list_elem_of_singleton in Hw as ->. by apply not_elem_of_nil in Hx.
Qed.
Lemma parse_transaction_text commands : Forall ref_command_plain commands →
  parse_transaction (encode_utf8 (transaction_text commands)) = Some commands.
Proof.
  intros Hc. rewrite encode_ascii.
  2:{ apply forallb_forall. intros x Hx%list_elem_of_In.
      apply text_chars in Hx as [Hx|[->| ->]]; [|done|done|done].
      unfold plain_char in Hx. by to_prop. }
  unfold parse_transaction, transaction_text. rewrite split_on_join.
  - induction Hc as [|c commands Hc _ IH]; [done|]. cbn [fmap list_fmap app].
    assert (Hl : parse_lines (ref_command_line c :: (ref_command_line <$> commands) ++ [""])
      = (c' ← parse_command (ref_command_line c);
         cs ← parse_lines ((ref_command_line <$> commands) ++ [""]); Some (c' :: cs))).
    { destruct (ref_command_line c) eqn:El; [|done]. by destruct c. }
    change (parse_lines (ref_command_line c :: (ref_command_line <$> commands) ++ [""])
      = Some (c :: commands)).
    rewrite Hl, parse_line by done. cbn [mbind option_bind]. by rewrite IH.
  - by destruct commands.
  - apply Forall_app. split; [|repeat constructor; apply not_elem_of_nil].
    apply Forall_fmap. eapply Forall_impl; [exact Hc|]. intros c Hp Hx.
    by apply line_chars in Hx as [Hx|Hx].
Qed.
Lemma run_commands_refs commands : ∀ repo repo', run_commands commands repo = Some repo' →
  apply_commands commands (commit_oid <$> tr_refs repo) = Some (commit_oid <$> tr_refs repo').
Proof.
  induction commands as [|c commands IH]; intros repo repo' H; cbn in *; [by injection H as ->|].
  apply bind_Some in H as (repo1 & H1 & H).
  enough (apply_command c (commit_oid <$> tr_refs repo) = Some (commit_oid <$> tr_refs repo1)) as ->
    by by apply IH.
  destruct c as [ref oid|ref oid]; cbn in *.
  - rewrite lookup_fmap. case_decide as Hd; [|done]. by injection H1 as <-.
  - apply bind_Some in H1 as (k & Hk & H1). case_decide as Hd; [|done]. injection H1 as <-.
    rewrite decide_True by (by rewrite lookup_fmap, Hd). unfold set_ref. cbn [tr_refs]. rewrite fmap_insert.
    unfold index_where in Hk. apply head_Some_elem_of, list_elem_of_In, filter_In in Hk as [_ Hk].
    by to_prop; subst.
Qed.
Lemma add_tree_refs t repo : tr_refs (add_tree t repo).2 = tr_refs repo.
Proof. unfold add_tree. by case_match. Qed.
Ltac same_refs :=
  repeat match goal with
    | |- ?x = ?x => reflexivity
    | |- context [add_tree ?t ?r] =>
        pose proof (add_tree_refs t r); destruct (add_tree t r); cbn [snd tr_refs] in *; assumption
    | H : ∀ t a, tr_refs (commit_tree t a ?r).2 = _ |- tr_refs (commit_tree _ _ ?r).2 = _ => apply H
    | |- context [match ?x with _ => _ end] => destruct x; cbn [snd tr_refs]
    end.
Lemma toy_git_refs command args repo : command ≠ "update-ref" →
  tr_refs (toy_git (command :: args) repo).2 = tr_refs repo.
Proof.
  intros Hne. assert (Htree : ∀ t a, tr_refs (commit_tree t a repo).2 = tr_refs repo).
  { intros t a. unfold commit_tree, add_commit, print, fails, answer. same_refs. }
  unfold toy_git. rewrite !(bool_decide_eq_false_2 (command = "update-ref")) by done.
  unfold rev_parse, rev_list, cat_file, merge_tree_command, is_ancestor, print, fails, answer.
  repeat (case_bool_decide; [by same_refs|]). same_refs.
Qed.
Lemma update_ref_writes : "update-ref" ∉ reading_commands.
Proof. by_compute. Qed.
#[export] Instance toy_refs_laws : RefsLaws.
Proof.
  split.
  - intros root env command args h Hc. change (commit_oid <$> tr_refs (toy_git (command :: args) h).2
      = commit_oid <$> tr_refs h). f_equal. apply toy_git_refs. intros ->. by apply update_ref_writes in Hc.
  - intros root command args input h Hc.
    change (commit_oid <$> tr_refs (toy_bytes (command :: args) input h).2 = commit_oid <$> tr_refs h).
    f_equal. unfold toy_bytes. rewrite bool_decide_eq_false_2 by (intros [= -> ->]; by apply update_ref_writes in Hc).
    case_bool_decide; [|apply toy_git_refs; intros ->; by apply update_ref_writes in Hc].
    unfold merge_tree_z, fails, answer. same_refs.
  - intros root commands h Hp after. subst after.
    change (run_git_bytes root ["update-ref"; "--stdin"]
      (Some (encode_utf8 (transaction_text commands))) h)
      with (run_transaction (encode_utf8 (transaction_text commands)) h).
    unfold run_transaction. rewrite parse_transaction_text by done. cbn [mbind option_bind].
    destruct (run_commands commands h) as [repo|] eqn:Hr; cbn [answer fst snd Git.returncode]; [|done].
    by apply run_commands_refs.
Qed.

(** ** A gate at work *)
#[export] Instance toy_codec : Codec := {|
  fsdecode := id; decode_replace := id; decode_backslashreplace := id |}.
#[export] Instance toy_codec_laws : CodecLaws.
Proof. by split. Qed.
(** JSON strings without escapes; every other text is no JSON. *)
Definition toy_json_loads (text : string) : result JSON :=
  match chars text with
  | q :: l =>
      match reverse l with
      | q' :: body =>
          if bool_decide (q = quote_char) && bool_decide (q' = quote_char)
             && forallb (λ c, negb (bool_decide (c = quote_char)) && negb (bool_decide (c = "\"%char))) body
          then Ok (JStr (of_chars (reverse body)))
          else raise JSONDecodeError "Expecting value"
      | [] => raise JSONDecodeError "Expecting value"
      end
  | [] => raise JSONDecodeError "Expecting value"
  end.

Definition gate_queue : MergeQueueSnapshot :=
  match queue_snapshot second_queue.1 with
  | Ok s => s
  | Raise _ => {| mqs_integration_ref := ""; mqs_run_base_commit := ""; mqs_head_commit := "";
                  mqs_integrated_task_ids := []; mqs_attempts := []; mqs_stopped := false |}
  end.
Definition gate_classifier : GitMergeConflictClassifier :=
  {| mcc_workspace := example_workspace; mcc_raw_evidence_limit := 8000 |}.
Definition gate_evidence : result MergeConflictEvidence :=
  (classify gate_classifier gate_queue second_queue.2).1.
Definition gate_of (enabled : bool) : result IntegrationHumanGate :=
  evidence ← gate_evidence;
  (IntegrationHumanGate_init toy_sha256 toy_json_loads example_workspace gate_queue example_scheduler
    evidence (Some (default_policy enabled)) second_queue.2).1.

Example classified :
  (e ← gate_evidence; Ok (mce_conflicting_paths e, mce_conflict_types e, stage_shape <$> mce_files e))
  = Ok (["src/x.py"], ["CONFLICT (contents)"], [THREE_WAY]).
Proof. vm_compute. reflexivity. Qed.
(** What the gate says, before and after a decision. *)
Definition gate_run (enabled : bool) (decide_as : option HumanGateDecision)
    : result (IntegrationGateState * bool * option string) :=
  self ← gate_of enabled;
  match decide_as with
  | None =>
      s ← (gate_snapshot toy_sha256 toy_json_loads self example_scheduler second_queue.2).1;
      Ok (igs_state s, igs_repair_may_start s, hid_actor <$> igs_human_decision s)
  | Some d =>
      s ← (record_human_decision toy_sha256 toy_json_loads self example_scheduler d " ada " ""
             second_queue.2).1;
      Ok (igs_state s, igs_repair_may_start s, hid_actor <$> igs_human_decision s)
  end.
Example gate_runs :
  [gate_run true None; gate_run false None; gate_run false (Some AUTHORIZE_REPAIR);
   gate_run false (Some ABORT)]
  = [Ok (AUTO_REPAIR_CANDIDATE, true, None); Ok (AWAITING_HUMAN, false, None);
     Ok (REPAIR_AUTHORIZED, true, Some "ada"); Ok (ABORTED, false, Some "ada")].
Proof. vm_compute. reflexivity. Qed.
