(* ===== verification/HumanGateFacts.v ===== *)
(** * HumanGateFacts: what the human gate guarantees

    The gate changes no ref but the decision's, permits a repair only with the
    authority of the policy or of a recorded decision, reads back the decision
    it wrote, and is locked by a name with a line break that it accepts. *)
From stdpp Require Import options.
From S2P Require Import Prelude Contracts Dag DagFacts Scheduler RunModels Lease Json Merge Git Scope Worktree MergeQueue ToyGit QueueExample MergeMessages Conflict Classifier ConflictFacts HumanGate ToyGate.
Open Scope Z_scope.

(** ** Refs *)
Section refs.
Context `{Machine, GB : !GitBytes, !Codec, !Refs, Laws : !RefsLaws}.
Context (sha256 : string → string) (json_loads : string → result JSON).

Definition same_refs (h h' : Host) : Prop := ref_map h' = ref_map h.
#[local] Instance same_refs_preorder : PreOrder same_refs.
Proof using. unfold same_refs. split; [done|]. intros a b c -> ->. done. Qed.

(** The command of a call is one that only reads. *)
Definition reads (arguments : list string) : Prop :=
  match arguments with command :: _ => command ∈ reading_commands | [] => False end.
Lemma git_command_reads error missing timeout root env arguments :
  reads arguments → keeps same_refs (git_command error missing timeout root env arguments).
Proof using Laws.
  destruct arguments as [|command args]; [done|]. intros Hc h. unfold git_command, same_refs.
  pose proof (run_git_reads root env command args h Hc) as Hr.
  by destruct (run_git root env (command :: args) h) as [[]].
Qed.
Lemma bytes_command_reads error missing timeout root input arguments :
  reads arguments → keeps same_refs (bytes_command error missing timeout root input arguments).
Proof using Laws.
  destruct arguments as [|command args]; [done|]. intros Hc h. unfold bytes_command, same_refs.
  pose proof (run_git_bytes_reads root command args input h Hc) as Hr.
  by destruct (run_git_bytes root (command :: args) input h) as [[]].
Qed.
#[local] Hint Extern 1 (keeps _ (git_command _ _ _ _ _ _)) =>
  apply git_command_reads; by_compute : devflow.
#[local] Hint Extern 1 (keeps _ (bytes_command _ _ _ _ _ _)) =>
  apply bytes_command_reads; by_compute : devflow.

Lemma gate_git_reads ws env arguments b :
  reads arguments → keeps same_refs (gate_git ws env arguments b).
Proof using Laws.
  intros Hr. unfold gate_git. apply keeps_bind; [apply _|by apply git_command_reads|].
  intros c. keep_steps.
Qed.
Lemma changed_files_reads ws : keeps same_refs (changed_files ws).
Proof using Laws.
  unfold changed_files, untracked_files, workspace_git, _git_completed. keep_steps.
Qed.
Lemma classifier_git_reads self arguments b :
  reads arguments → keeps same_refs (classifier_git self arguments b).
Proof using Laws.
  intros Hr. unfold classifier_git. apply keeps_bind; [apply _|by apply bytes_command_reads|].
  intros c. keep_steps.
Qed.
#[local] Hint Extern 1 (keeps _ (gate_git _ _ _ _)) => apply gate_git_reads; by_compute : devflow.
#[local] Hint Extern 1 (keeps _ (classifier_git _ _ _)) =>
  apply classifier_git_reads; by_compute : devflow.
#[local] Hint Resolve changed_files_reads : devflow.

Lemma assert_clean_reads self error : keeps same_refs (assert_clean self error).
Proof using Laws. unfold assert_clean. keep_steps. Qed.
#[local] Hint Resolve assert_clean_reads : devflow.
Lemma check_marker_reads self snapshot attempt ref :
  keeps same_refs (check_marker self snapshot attempt ref).
Proof using Laws.
  unfold check_marker, classifier_resolve_commit, classifier_resolve_tree,
    classifier_commit_parents, _parse_marker_metadata, classifier_resolve. keep_steps.
Qed.
#[local] Hint Resolve check_marker_reads : devflow.
Lemma classify_reads self snapshot : keeps same_refs (classify self snapshot).
Proof using Laws. unfold classify. keep_steps. Qed.
Lemma blob_reads ws oid : keeps same_refs (_blob_is_safe_text ws oid).
Proof using Laws. unfold _blob_is_safe_text, _git_bytes. keep_steps. Qed.
#[local] Hint Resolve classify_reads blob_reads : devflow.
Lemma evaluate_reads ws policy task evidence :
  keeps same_refs (_evaluate_policy sha256 ws policy task evidence).
Proof using Laws.
  unfold _evaluate_policy, evaluate.
  assert (Hany : ∀ l, keeps same_refs
    (any_fails (λ stage, _blob_is_safe_text ws (mcs_object_id stage)) l)).
  { induction l as [|st l IH]; cbn [any_fails]; keep_steps. }
  assert (Hfiles : ∀ l, keeps same_refs (files_blockers policy (Some (_blob_is_safe_text ws)) l)).
  { induction l as [|f l IH]; cbn [files_blockers]; unfold file_blockers; keep_steps. }
  keep_steps.
Qed.
Lemma current_evidence_reads ws scheduler snapshot fingerprint :
  keeps same_refs (_assert_current_evidence sha256 ws scheduler snapshot fingerprint).
Proof using Laws. unfold _assert_current_evidence. keep_steps. Qed.
Lemma authoritative_reads self : keeps same_refs (_assert_authoritative_refs self).
Proof using Laws.
  unfold _assert_authoritative_refs, gate_resolve_commit, gate_resolve. keep_steps.
Qed.
Lemma show_ref_reads ws ref : keeps same_refs (show_ref ws ref).
Proof using Laws. unfold show_ref. keep_steps. Qed.
Lemma resolve_reads ws spec error : keeps same_refs (gate_resolve ws spec error).
Proof using Laws. unfold gate_resolve. keep_steps. Qed.
Lemma parents_reads ws commit : keeps same_refs (gate_commit_parents ws commit).
Proof using Laws. unfold gate_commit_parents. keep_steps. Qed.
#[local] Hint Resolve show_ref_reads resolve_reads parents_reads : devflow.
Lemma recover_reads self required : keeps same_refs (_recover_human_decision json_loads self required).
Proof using Laws.
  unfold _recover_human_decision, read_decision, gate_resolve_commit, gate_resolve_tree,
    _parse_decision_metadata. keep_steps.
Qed.
Lemma base_clean_reads ws error : keeps same_refs (gate_assert_base_clean ws error).
Proof using Laws. unfold gate_assert_base_clean. keep_steps. Qed.
#[local] Hint Resolve evaluate_reads current_evidence_reads authoritative_reads recover_reads
  base_clean_reads : devflow.
Lemma gate_revalidate_reads self scheduler e1 e2 : keeps same_refs (revalidate sha256 self scheduler e1 e2).
Proof using Laws. unfold revalidate. keep_steps. Qed.
#[local] Hint Resolve gate_revalidate_reads : devflow.
Lemma gate_snapshot_reads self scheduler :
  keeps same_refs (gate_snapshot sha256 json_loads self scheduler).
Proof using Laws. unfold gate_snapshot. keep_steps. Qed.
Lemma gate_init_reads ws snapshot scheduler evidence policy :
  keeps same_refs (IntegrationHumanGate_init sha256 json_loads ws snapshot scheduler evidence policy).
Proof using Laws. unfold IntegrationHumanGate_init, gate_validate_ref_name. keep_steps. Qed.

(** *** The transaction *)
Lemma apply_decision self attempt oid refs refs' :
  apply_commands (decision_transaction self attempt oid) refs = Some refs' ↔
  refs !! mqs_integration_ref (ihg_queue_snapshot self) = Some (mce_integration_head (ihg_evidence self))
  ∧ refs !! mce_conflict_ref (ihg_evidence self) = Some (mce_marker_commit (ihg_evidence self))
  ∧ refs !! ("refs/heads/" +:+ mqa_task_branch attempt) = Some (mqa_task_commit attempt)
  ∧ refs !! ihg_decision_ref self = None ∧ refs' = <[ihg_decision_ref self := oid]> refs.
Proof using.
  unfold decision_transaction. cbn [apply_commands apply_command].
  split.
  - intros Ha. repeat (case_decide; [cbn [mbind option_bind] in Ha|done]).
    split_and!; try done. by injection Ha.
  - intros (-> & H2 & H3 & H4 & ->). rewrite decide_True by done. cbn [mbind option_bind].
    rewrite H2, decide_True by done. cbn [mbind option_bind].
    rewrite H3, decide_True by done. cbn [mbind option_bind]. by rewrite H4, decide_True by done.
Qed.
(** Every run of an operation of the gate leaves the refs or makes the one
    transaction. *)
Definition decides self attempt (h h' : Host) : Prop :=
  same_refs h h' ∨ ∃ oid, apply_commands (decision_transaction self attempt oid) (ref_map h)
                          = Some (ref_map h').
#[local] Instance decides_preorder self attempt : PreOrder (decides self attempt).
Proof using.
  split; [by left|]. intros a b c [Hab|(o & Hab)] [Hbc|(o' & Hbc)].
  - left. by trans b.
  - right. exists o'. by rewrite <- Hab.
  - right. exists o. by rewrite Hbc.
  - exfalso. apply apply_decision in Hab as (_ & _ & _ & _ & Hb).
    apply apply_decision in Hbc as (_ & _ & _ & Hn & _). by rewrite Hb, lookup_insert_eq in Hn.
Qed.
Lemma keeps_reads {A} self attempt (m : M Host A) : keeps same_refs m → keeps (decides self attempt) m.
Proof using. intros Hm h. left. apply Hm. Qed.
Lemma keeps_lift_bind {A B} (R : Host → Host → Prop) `{!PreOrder R} (r : result A) (f : A → M Host B) :
  (∀ a, r = Ok a → keeps R (f a)) → keeps R (lift r ≫= f).
Proof using. intros Hf h. destruct r as [a|e]; [by apply Hf|]. cbn. reflexivity. Qed.

Section decision.
Context (self : IntegrationHumanGate) (attempt : MergeQueueAttempt).
Context (Hlast : last (mqs_attempts (ihg_queue_snapshot self)) = Some attempt).
Context (Hplain : ∀ oid, plain oid → Forall ref_command_plain (decision_transaction self attempt oid)).

Lemma create_decides oid : plain oid → keeps (decides self attempt) (_create_decision_ref_transactionally self oid).
Proof using Laws Hlast Hplain.
  intros Ho h. unfold _create_decision_ref_transactionally, _terminal_attempt. rewrite Hlast.
  cbn [of_option]. unfold _git_with_input, bytes_command.
  pose proof (ref_transaction (ws_root (ihg_workspace self)) _ h (Hplain oid Ho)) as Ht. cbv zeta in Ht.
  unfold mbind, M_bind, lift.
  destruct (run_git_bytes _ _ _ h) as [[c| |] h']; cbn [fst snd] in *.
  - destruct (returncode c =? 0); cbn; [right; by exists oid|by left].
  - by left.
  - destruct Ht as [Ht|Ht]; [by left|right; by exists oid].
Qed.
Lemma create_Ok oid h u h' : plain oid →
  _create_decision_ref_transactionally self oid h = (Ok u, h') →
  apply_commands (decision_transaction self attempt oid) (ref_map h) = Some (ref_map h').
Proof using Laws Hlast Hplain.
  intros Ho. unfold _create_decision_ref_transactionally, _terminal_attempt. rewrite Hlast.
  cbn [of_option]. unfold _git_with_input, bytes_command.
  pose proof (ref_transaction (ws_root (ihg_workspace self)) _ h (Hplain oid Ho)) as Ht. cbv zeta in Ht.
  unfold mbind, M_bind, lift.
  destruct (run_git_bytes _ _ _ h) as [[c| |] h1]; cbn [fst snd] in *; [|done|done].
  destruct (returncode c =? 0); cbn; [|done]. by intros [= _ <-].
Qed.
Lemma required_oid oid label u : gate_require_oid oid label = Ok u → plain oid.
Proof using. unfold gate_require_oid. intros Ho%check_Ok. by apply oid_plain. Qed.

(** [record_human_decision] around its transaction. *)
Lemma record_decides scheduler decision actor note :
  keeps (decides self attempt)
    (record_human_decision sha256 json_loads self scheduler decision actor note).
Proof using Laws Hlast Hplain.
  unfold record_human_decision.
  assert (Hr : ∀ A (m : M Host A), keeps same_refs m → keeps (decides self attempt) m)
    by (intros A m; apply keeps_reads).
  repeat lazymatch goal with
    | |- keeps _ (lift _ ≫= _) => apply keeps_lift_bind; [apply _|intros ? ?]
    | |- keeps _ (ensure _ _ _ ≫= _) => apply keeps_lift_bind; [apply _|intros ? ?]
    | |- keeps _ (_create_decision_ref_transactionally _ _ ≫= _) =>
        apply keeps_bind; [apply _|apply create_decides; by eapply required_oid|intros ?]
    | |- keeps _ (_ ≫= _) => apply keeps_bind; [apply _|apply Hr|intros ?]
    end; try (apply Hr, gate_snapshot_reads).
  all: unfold _assert_decision_ref_absent, show_ref, gate_resolve_tree, gate_resolve; keep_steps.
Qed.
Lemma keeps_run {A} (m : M Host A) (R : Host → Host → Prop) h r h' :
  keeps R m → m h = (r, h') → R h h'.
Proof using. intros Hm Hr. specialize (Hm h). by rewrite Hr in Hm. Qed.
(** A decision that is returned was written by its transaction. *)
Lemma record_Ok scheduler decision actor note h s h' :
  record_human_decision sha256 json_loads self scheduler decision actor note h = (Ok s, h') →
  ∃ oid, plain oid
  ∧ apply_commands (decision_transaction self attempt oid) (ref_map h) = Some (ref_map h').
Proof using Laws Hlast Hplain.
  unfold record_human_decision. intros Hrun. inv_monad.
  repeat match goal with
    | Ho : gate_require_oid _ _ = Ok _ |- _ => apply required_oid in Ho
    | Hr : _recover_human_decision _ _ _ ?x = (_, ?y) |- _ =>
        apply (keeps_run _ same_refs) in Hr; [|apply recover_reads]
    | Hr : revalidate _ _ _ _ _ ?x = (_, ?y) |- _ =>
        apply (keeps_run _ same_refs) in Hr; [|apply gate_revalidate_reads]
    | Hr : _assert_decision_ref_absent _ ?x = (_, ?y) |- _ =>
        apply (keeps_run _ same_refs) in Hr; [|unfold _assert_decision_ref_absent, show_ref; keep_steps]
    | Hr : gate_resolve_tree _ _ ?x = (_, ?y) |- _ =>
        apply (keeps_run _ same_refs) in Hr; [|unfold gate_resolve_tree, gate_resolve; keep_steps]
    | Hr : gate_git _ _ _ _ ?x = (_, ?y) |- _ =>
        apply (keeps_run _ same_refs) in Hr; [|apply gate_git_reads; by_compute]
    | Hr : _assert_authoritative_refs _ ?x = (_, ?y) |- _ =>
        apply (keeps_run _ same_refs) in Hr; [|apply authoritative_reads]
    | Hr : gate_assert_base_clean _ _ ?x = (_, ?y) |- _ =>
        apply (keeps_run _ same_refs) in Hr; [|apply base_clean_reads]
    | Hr : gate_snapshot _ _ _ _ ?x = (_, ?y) |- _ =>
        apply (keeps_run _ same_refs) in Hr; [|apply gate_snapshot_reads]
    end.
  match goal with Hc : _create_decision_ref_transactionally _ ?oid _ = _ |- _ =>
    exists oid; apply create_Ok in Hc; [|done]; rename Hc into Hcreate end.
  split; [done|]. unfold same_refs in *. congruence.
Qed.
End decision.
End refs.

(** The names of the transaction are words: object ids and refs without
    spaces. *)
#[export] Instance plain_dec s : Decision (plain s).
Proof. unfold plain. apply _. Defined.
Definition gate_names (self : IntegrationHumanGate) (attempt : MergeQueueAttempt) : list string :=
  [mqs_integration_ref (ihg_queue_snapshot self); mce_integration_head (ihg_evidence self);
   mce_conflict_ref (ihg_evidence self); mce_marker_commit (ihg_evidence self);
   "refs/heads/" +:+ mqa_task_branch attempt; mqa_task_commit attempt; ihg_decision_ref self].
Lemma transaction_plain self attempt : Forall plain (gate_names self attempt) →
  ∀ oid, plain oid → Forall ref_command_plain (decision_transaction self attempt oid).
Proof.
  unfold gate_names. intros Hn oid Ho. rewrite !Forall_cons in Hn.
  destruct Hn as (? & ? & ? & ? & ? & ? & ? & _).
  unfold decision_transaction. repeat apply Forall_cons_2; by split || constructor.
Qed.

(** C28.  The gate never moves a ref of the run.  Building a gate and taking a
    snapshot leave every ref as it was.  Recording a decision leaves them as
    they were or, in one transaction, creates the decision ref, which did not
    exist, while the integration ref, the conflict marker and the task branch
    are where the evidence says; this is so on every path, exceptions and
    timeouts included, and a decision that is returned has been written. *)
Theorem gate_moves_one_ref `{Machine, !GitBytes, !Codec, !Refs, !RefsLaws} sha256 json_loads self
    attempt scheduler decision actor note h
    (Hlast : last (mqs_attempts (ihg_queue_snapshot self)) = Some attempt)
    (Hnames : Forall plain (gate_names self attempt)) :
  let run := record_human_decision sha256 json_loads self scheduler decision actor note h in
  (ref_map run.2 = ref_map h ∧ is_ok run.1 = false
   ∨ ∃ oid, ref_map run.2 = <[ihg_decision_ref self := oid]> (ref_map h)
     ∧ ref_map h !! ihg_decision_ref self = None
     ∧ ref_map h !! mqs_integration_ref (ihg_queue_snapshot self)
       = Some (mce_integration_head (ihg_evidence self))
     ∧ ref_map h !! mce_conflict_ref (ihg_evidence self) = Some (mce_marker_commit (ihg_evidence self))
     ∧ ref_map h !! ("refs/heads/" +:+ mqa_task_branch attempt) = Some (mqa_task_commit attempt))
  ∧ ref_map (gate_snapshot sha256 json_loads self scheduler h).2 = ref_map h
  ∧ ref_map (IntegrationHumanGate_init sha256 json_loads (ihg_workspace self) (ihg_queue_snapshot self)
               scheduler (ihg_evidence self) (Some (ihg_policy self)) h).2 = ref_map h.
Proof.
  pose proof (transaction_plain _ _ Hnames) as Hplain.
  intros run. split; [|split; [apply gate_snapshot_reads|apply gate_init_reads]].
  pose proof (record_decides sha256 json_loads self attempt Hlast Hplain scheduler decision actor note h)
    as Hd. fold run in Hd.
  assert (Hmoved : ∀ oid, apply_commands (decision_transaction self attempt oid) (ref_map h)
    = Some (ref_map run.2) → ∃ oid, ref_map run.2 = <[ihg_decision_ref self := oid]> (ref_map h)
     ∧ ref_map h !! ihg_decision_ref self = None
     ∧ ref_map h !! mqs_integration_ref (ihg_queue_snapshot self)
       = Some (mce_integration_head (ihg_evidence self))
     ∧ ref_map h !! mce_conflict_ref (ihg_evidence self) = Some (mce_marker_commit (ihg_evidence self))
     ∧ ref_map h !! ("refs/heads/" +:+ mqa_task_branch attempt) = Some (mqa_task_commit attempt)).
  { intros oid (? & ? & ? & ? & ?)%apply_decision. by exists oid. }
  destruct run as [[s|e] h'] eqn:Hrun.
  - right. apply (record_Ok sha256 json_loads self attempt Hlast Hplain) in Hrun as (oid & _ & Ho).
    by apply (Hmoved oid).
  - destruct Hd as [Hd|(oid & Ho)]; [by left|right]. by apply (Hmoved oid).
Qed.

Definition toy_gate : IntegrationHumanGate :=
  match gate_of false with
  | Ok g => g
  | Raise _ => {| ihg_workspace := example_workspace; ihg_queue_snapshot := gate_queue;
      ihg_evidence := sample_evidence ""; ihg_policy := default_policy false;
      ihg_decision_ref := ""; ihg_task := sample_contract "c"; ihg_evidence_fingerprint := "";
      ihg_policy_decision := {| ipd_route := HUMAN_REQUIRED; ipd_evidence_fingerprint := "";
        ipd_automatic_repair_enabled := false; ipd_human_repair_authorizable := false;
        ipd_conflicting_paths := []; ipd_reasons := [] |};
      ihg_policy_fingerprint := "" |}
  end.
Definition toy_attempt : MergeQueueAttempt :=
  default (sample_attempt 0 "" "" INTEGRATED None) (last (mqs_attempts gate_queue)).
Lemma gate_moves_one_ref_witness :
  let run := record_human_decision toy_sha256 toy_json_loads toy_gate example_scheduler ABORT "ada" "no"
               second_queue.2 in
  is_ok run.1 = true
  ∧ ∃ oid, ref_map run.2 = <[ihg_decision_ref toy_gate := oid]> (ref_map second_queue.2).
Proof.
  intros run. assert (Hok : is_ok run.1 = true) by (vm_compute; reflexivity). split; [exact Hok|].
  destruct (gate_moves_one_ref toy_sha256 toy_json_loads toy_gate toy_attempt example_scheduler ABORT
    "ada" "no" second_queue.2) as [[[_ Hno]|(oid & Ho & _)] _].
  - vm_compute. reflexivity.
  - by_compute.
  - fold run in Hno. rewrite Hok in Hno. discriminate Hno.
  - exists oid. exact Ho.
Defined.

(** ** Authority *)
(** What every repair may touch, whoever permits it. *)
Definition repair_allowed (policy : IntegrationConflictPolicy) (task : TaskContract)
    (file : MergeConflictFile) : Prop :=
  may_write task (strip (mcf_path file))
  ∧ _is_protected_path policy (mcf_path file) = false
  ∧ Forall (λ stage, mcs_mode stage = "100644") (mcf_stages file).

Lemma files_blockers_nil {S} policy (cb : option (string → M S bool)) files : ∀ s s',
  files_blockers policy cb files s = (Ok [], s') →
  Forall (λ f, _is_protected_path policy (mcf_path f) = false
               ∧ Forall (λ stage, mcs_mode stage = "100644") (mcf_stages f)) files.
Proof.
  induction files as [|f files IH]; intros s s' H; [constructor|]. cbn [files_blockers] in H.
  apply M_bind_Ok_inv in H as (b & s1 & Hb & H). apply M_bind_Ok_inv in H as (bs & s2 & Hbs & H).
  injection H as H _. apply app_nil_iff in H as [-> ->]. constructor; [|by eapply IH].
  unfold file_blockers in Hb. apply M_bind_Ok_inv in Hb as (unsafe & s3 & _ & Hb).
  injection Hb as Hb _. apply app_nil_iff in Hb as [Hmode%blocker_nil Hb].
  apply app_nil_iff in Hb as [Hprot%blocker_nil _]. split; [done|].
  apply Forall_forall. intros st Hin. rewrite existsb_false_forall in Hmode.
  specialize (Hmode st Hin). by to_prop.
Qed.
Lemma evaluate_bounds {S} sha256 policy evidence task (cb : option (string → M S bool)) s d s' :
  MergeConflictEvidence_new evidence = Ok evidence →
  evaluate sha256 policy evidence task cb s = (Ok d, s') →
  (ipd_human_repair_authorizable d = true → Forall (repair_allowed policy task) (mce_files evidence))
  ∧ (ipd_route d = ROUTE_AUTO_REPAIR_CANDIDATE →
     ipd_human_repair_authorizable d = true ∧ automatic policy evidence).
Proof.
  intros He H. apply MergeConflictEvidence_inv in He as (_ & _ & _ & Hpaths).
  unfold evaluate in H. apply M_bind_Ok_inv in H as (scope & s1 & Hscope & H).
  apply lift_Ok_inv in Hscope as [Hscope ->].
  apply M_bind_Ok_inv in H as (of_files & s2 & Hfiles & H).
  assert (Hhard : scope_blockers scope ++ blocker (is_none cb)
    "repair authorization requires bounded Git blob text inspection" ++ of_files = [] →
    Forall (repair_allowed policy task) (mce_files evidence)).
  { intros [Hs [_ ->]%app_nil_iff]%app_nil_iff. apply files_blockers_nil in Hfiles.
    apply blocker_nil, negb_false_iff in Hs.
    pose proof Hscope as (paths & Hn & _ & _)%scope_check_paths.
    rewrite (passed_spec _ _ _ _ Hscope Hn) in Hs. apply map_result_Ok in Hn. rewrite Hpaths in Hn.
    rewrite Forall_forall in *. intros f Hf. split; [|by apply Hfiles].
    apply list_elem_of_lookup in Hf as [i Hi].
    destruct (Forall2_lookup_l _ _ _ i (mcf_path f) Hn) as (q & Hq & Hnq).
    { by rewrite list_lookup_fmap, Hi. }
    apply normalize_changed_path_Ok in Hnq as (-> & _). apply Hs. by eapply list_elem_of_lookup_2. }
  assert (Hnew : ∀ raw d, IntegrationPolicyDecision_new raw = Ok d → d = raw).
  { intros raw d'. unfold IntegrationPolicyDecision_new, validate_route, valid_if. intros Hr. inv_monad.
    case_decide; by inv_monad. }
  case_bool_decide as Hb; apply lift_Ok_inv in H as [->%Hnew _]; cbn.
  - apply app_nil_iff in Hb as [Hb1 Hb2%automatic_blockers_nil]. by auto.
  - split; [intros Ha; to_prop; by apply Hhard|done].
Qed.

(** ** What a message says *)
(** A line of the message has the prefix and, without the white space around
    it, the value. *)
Definition says (message prefix value : string) : Prop :=
  ∃ text, prefix +:+ text ∈ splitlines message ∧ strip text = value.
Definition metadata_says (lines : list string) (prefixes : list (string * string))
    (metadata : gmap string string) : Prop :=
  ∀ key value, metadata !! key = Some value →
    ∃ prefix text, (prefix, key) ∈ prefixes ∧ prefix +:+ text ∈ lines ∧ strip text = value.
Lemma read_prefix_says duplicate line lines prefixes md p md' :
  line ∈ lines → p ∈ prefixes → metadata_says lines prefixes md →
  read_prefix duplicate line md p = Ok md' → metadata_says lines prefixes md'.
Proof.
  destruct p as [prefix key]. intros Hl Hp Hmd Hr. unfold read_prefix in Hr.
  case_match eqn:Hs; [by injection Hr as <-|]. apply negb_false_iff in Hs.
  case_bool_decide; [|done]. injection Hr as <-. intros k v Hk.
  apply lookup_insert_Some in Hk as [[<- <-]|[_ Hk]]; [|by apply Hmd].
  apply startswith_prefix in Hs as [rest Hrest]. exists prefix, (of_chars rest). split; [done|].
  assert (Hline : line = prefix +:+ of_chars rest).
  { etrans; [symmetry; apply of_chars_chars|].
    rewrite <- (of_chars_chars (prefix +:+ of_chars rest)). f_equal. by rewrite chars_app, chars_of_chars. }
  split; [by rewrite <- Hline|]. rewrite Hrest. by rewrite drop_app_length'.
Qed.
Lemma read_fields_says duplicate missing prefixes lines md :
  read_fields duplicate missing prefixes lines = Ok md → metadata_says lines prefixes md.
Proof.
  unfold read_fields. intros Hr. inv_monad. case_match; [|done]. injection Hr as <-.
  match goal with Hf : fold_result _ _ _ = Ok _ |- _ =>
    refine (fold_result_inv (metadata_says lines prefixes) _ _ _ _ _ _ Hf) end; [|done].
  intros m line m' Hline Hm. apply (fold_result_inv (metadata_says lines prefixes)); [|done].
  intros x p x' Hp. by apply read_prefix_says.
Qed.
Lemma decision_metadata_says message md prefix key value :
  (list_to_map decision_prefixes : gmap string string) !! prefix = Some key →
  decision_metadata_of message = Ok md → md !! key = Some value → says message prefix value.
Proof.
  unfold decision_metadata_of. intros Hp%elem_of_list_to_map_2 Hm Hk. inv_monad.
  match goal with Hr : read_fields _ _ _ _ = Ok _ |- _ =>
    destruct (read_fields_says _ _ _ _ _ Hr key value Hk) as (q & text & Hq & Hin & Hv) end.
  exists text. split; [|done]. replace prefix with q; [done|].
  assert (Hinj : Forall (λ p, Forall (λ p', p.2 = p'.2 → p.1 = p'.1) decision_prefixes) decision_prefixes)
    by by_compute.
  rewrite Forall_forall in Hinj. specialize (Hinj _ Hq). rewrite Forall_forall in Hinj. by apply (Hinj _ Hp).
Qed.

(** ** Authority *)
(** What Git prints in the repository, its refs as in [h]. *)
Definition git_prints `{Machine, !GitBytes, !Refs} (root : string) (h : Host)
    (arguments : list string) (out : string) : Prop :=
  ∃ h1 h2 c, ref_map h1 = ref_map h ∧ run_git root [] arguments h1 = (Finished c, h2)
  ∧ returncode c = 0 ∧ Git.stdout c = out.
(** The lines of a commit message that authorises the repair. *)
Definition authorization_lines (self : IntegrationHumanGate) (attempt : MergeQueueAttempt)
    : list (string * string) :=
  [("DevFlow-Human-Decision: ", "AUTHORIZE_REPAIR");
   ("DevFlow-Evidence-Fingerprint: ", ihg_evidence_fingerprint self);
   ("DevFlow-Policy-Fingerprint: ", ihg_policy_fingerprint self);
   ("DevFlow-Policy-Route: ", "HUMAN_REQUIRED");
   ("DevFlow-Conflict-Marker: ", mce_marker_commit (ihg_evidence self));
   ("DevFlow-Conflict-Ref: ", mce_conflict_ref (ihg_evidence self));
   ("DevFlow-Integration-Head: ", mce_integration_head (ihg_evidence self));
   ("DevFlow-Task: ", tc_task_id (ihg_task self));
   ("DevFlow-Task-Branch: ", mqa_task_branch attempt);
   ("DevFlow-Task-Commit: ", mce_task_commit (ihg_evidence self))].
(** The decision [d] is what the repository records: the decision ref exists
    and names the commit of [d], whose only parent is the conflict marker,
    whose tree is the marker's and whose message has all the lines. *)
Record decision_recorded `{Machine, !GitBytes, !Refs} (json_loads : string → result JSON)
    (self : IntegrationHumanGate) (h : Host) (d : HumanIntegrationDecision) : Prop := {
  dr_ref : ∃ out, git_prints (ws_root (ihg_workspace self)) h
    ["show-ref"; "--verify"; "--quiet"; ihg_decision_ref self] out;
  dr_commit : ∃ out, git_prints (ws_root (ihg_workspace self)) h
    ["rev-parse"; "--verify"; ihg_decision_ref self +:+ "^{commit}"] out
    ∧ strip out = hid_decision_commit d;
  dr_parent : ∃ out, git_prints (ws_root (ihg_workspace self)) h
    ["rev-list"; "--parents"; "-n"; "1"; hid_decision_commit d] out
    ∧ split (strip out) = [hid_decision_commit d; mce_marker_commit (ihg_evidence self)];
  dr_tree : ∃ out out', git_prints (ws_root (ihg_workspace self)) h
    ["rev-parse"; "--verify"; hid_decision_commit d +:+ "^{tree}"] out
    ∧ git_prints (ws_root (ihg_workspace self)) h
        ["rev-parse"; "--verify"; mce_marker_commit (ihg_evidence self) +:+ "^{tree}"] out'
    ∧ strip out = strip out';
  dr_message : ∃ message attempt, git_prints (ws_root (ihg_workspace self)) h
    ["show"; "-s"; "--format=%B"; hid_decision_commit d] message
    ∧ last (mqs_attempts (ihg_queue_snapshot self)) = Some attempt
    ∧ Forall (λ p, says message p.1 p.2) (authorization_lines self attempt)
    ∧ (∃ actor, says message "DevFlow-Decision-Actor-JSON: " actor
                ∧ json_loads actor = Ok (JStr (hid_actor d)))
    ∧ ∃ note, says message "DevFlow-Decision-Note-JSON: " note
              ∧ json_loads note = Ok (JStr (hid_note d));
}.
(** The evidence [e] is what Git says of the conflict: [classify] gives it at
    a host with the refs of [h], where [merge-tree] of the queue's head and
    the task's commit conflicts and prints [e]. *)
Definition reproduced `{Machine, !GitBytes, !Codec, !Refs} (self : IntegrationHumanGate) (h : Host)
    (e : MergeConflictEvidence) : Prop :=
  let snapshot := ihg_queue_snapshot self in
  ∃ classifier, GitMergeConflictClassifier_init (ihg_workspace self) _DEFAULT_RAW_EVIDENCE_LIMIT
                = Ok classifier
  ∧ (∃ h1 h2, ref_map h1 = ref_map h ∧ classify classifier snapshot h1 = (Ok e, h2))
  ∧ ∃ h1 h2 c, ref_map h1 = ref_map h
    ∧ run_git_bytes (ws_root (ihg_workspace self))
        ["merge-tree"; "--write-tree"; "-z"; "--messages"; mqs_head_commit snapshot;
         mce_task_commit e] None h1 = (Finished c, h2)
    ∧ returncode c = 1
    ∧ _parse_conflicted_merge_output classifier (Git.stdout c) (Git.stderr c)
        (mqs_head_commit snapshot) (mce_task_commit e) (mce_conflict_ref e) (mce_marker_commit e) = Ok e.

Section authority.
Context `{Machine, !GitBytes, !Codec, !Refs, Laws : !RefsLaws}.
Lemma parse_output_valid self out err ihead commit ref marker e :
  _parse_conflicted_merge_output self out err ihead commit ref marker = Ok e →
  MergeConflictEvidence_new e = Ok e
  ∧ mce_integration_head e = ihead ∧ mce_task_commit e = commit ∧ mce_conflict_ref e = ref
  ∧ mce_marker_commit e = marker.
Proof using.
  unfold _parse_conflicted_merge_output. intros Hp. inv_monad.
  pose proof Hp as (-> & _)%MergeConflictEvidence_inv. done.
Qed.
Lemma classifier_git_Ok self arguments b h c h' :
  classifier_git self arguments b h = (Ok c, h') →
  run_git_bytes (ws_root (mcc_workspace self)) arguments None h = (Finished c, h').
Proof using.
  unfold classifier_git, bytes_command. intros Hc. apply M_bind_Ok_inv in Hc as (d & h1 & Hr & Hc).
  destruct (run_git_bytes _ _ _ _) as [[] ?]; try done. injection Hr as -> ->.
  case_match; [done|]. by injection Hc as -> ->.
Qed.
Lemma classify_sound self snapshot h e h' :
  classify self snapshot h = (Ok e, h') →
  MergeConflictEvidence_new e = Ok e
  ∧ mce_integration_head e = mqs_head_commit snapshot
  ∧ (∃ attempt, terminal_conflict snapshot = Ok attempt ∧ mce_task_commit e = mqa_task_commit attempt)
  ∧ ∃ h1 h2 c, ref_map h1 = ref_map h
    ∧ run_git_bytes (ws_root (mcc_workspace self))
        ["merge-tree"; "--write-tree"; "-z"; "--messages"; mqs_head_commit snapshot;
         mce_task_commit e] None h1 = (Finished c, h2)
    ∧ returncode c = 1
    ∧ _parse_conflicted_merge_output self (Git.stdout c) (Git.stderr c)
        (mqs_head_commit snapshot) (mce_task_commit e) (mce_conflict_ref e) (mce_marker_commit e) = Ok e.
Proof using Laws.
  unfold classify. intros Hc. inv_monad. injection Hc as -> ->.
  match goal with Hp : _parse_conflicted_merge_output _ _ _ _ _ _ _ = Ok _ |- _ =>
    pose proof (parse_output_valid _ _ _ _ _ _ _ _ Hp) as (Hv & Hh & Hk & Hr & Hm); rename Hp into Hparse end.
  match goal with
  | Hcl : assert_clean _ _ _ = (Ok _, ?h1), Hmk : check_marker _ _ _ _ ?h1 = (Ok _, ?h2),
    Hg : classifier_git _ _ _ ?h2 = _ |- _ =>
      apply (keeps_run _ same_refs) in Hcl; [|apply assert_clean_reads];
      apply (keeps_run _ same_refs) in Hmk; [|apply check_marker_reads];
      apply classifier_git_Ok in Hg; unfold same_refs in Hcl, Hmk
  end.
  to_prop. rewrite Hk, Hr, Hm. split; [done|]. split; [done|]. split; [by eauto|].
  eexists _, _, _. split; [|split; [eassumption|by split]]. congruence.
Qed.
Lemma revalidate_sound sha256 self scheduler e1 e2 h u h' :
  revalidate sha256 self scheduler e1 e2 h = (Ok u, h') →
  ∃ e, reproduced self h e
  ∧ conflict_evidence_fingerprint sha256 e = ihg_evidence_fingerprint self
  ∧ mce_integration_head e = mqs_head_commit (ihg_queue_snapshot self)
  ∧ (ipd_human_repair_authorizable (ihg_policy_decision self) = true →
       Forall (repair_allowed (ihg_policy self) (ihg_task self)) (mce_files e))
  ∧ (ipd_route (ihg_policy_decision self) = ROUTE_AUTO_REPAIR_CANDIDATE →
       ipd_human_repair_authorizable (ihg_policy_decision self) = true
       ∧ automatic (ihg_policy self) e).
Proof using Laws.
  unfold revalidate, _assert_current_evidence, _evaluate_policy. intros Hr. inv_monad.
  match goal with Hm : mret _ _ = (Ok _, _) |- _ => injection Hm as -> -> end. to_prop. subst.
  match goal with Hi : GitMergeConflictClassifier_init _ _ = Ok ?cl, Hc : classify ?cl _ _ = (Ok ?e, _) |- _ =>
    exists e; pose proof (classify_sound _ _ _ _ _ Hc) as (Hv & Hh & _ & Hm);
    assert (Hrep : reproduced self h e) end.
  { match goal with Hi : GitMergeConflictClassifier_init _ _ = Ok ?cl |- _ =>
      exists cl; split; [exact Hi|]; unfold GitMergeConflictClassifier_init in Hi; inv_monad end.
    split; [eexists _, _; split; [|eassumption]; done|exact Hm]. }
  match goal with Hev : evaluate _ _ _ _ _ _ = (Ok _, _) |- _ =>
    apply (evaluate_bounds _ _ _ _ _ _ _ _ Hv) in Hev as [Ha Hauto] end.
  by split_and!.
Qed.
Lemma IntegrationGateSnapshot_inv raw s : IntegrationGateSnapshot_new raw = Ok s →
  s = raw ∧ validate_gate_state raw = Ok s.
Proof using.
  unfold IntegrationGateSnapshot_new, valid_if. intros Hs. inv_monad. split; [|done].
  unfold validate_gate_state, validate_decided, valid_if in Hs.
  repeat (inv_monad || case_match || done).
Qed.

(** What the calls of the reader give. *)
Lemma gate_git_prints ws arguments b h0 h c h' : reads arguments → ref_map h = ref_map h0 →
  gate_git ws [] arguments b h = (Ok c, h') →
  (b = false → returncode c =? 0 = true) →
  git_prints (ws_root ws) h0 arguments (Git.stdout c) ∧ ref_map h' = ref_map h0.
Proof using Laws.
  intros Ha Hh Hg Hc. pose proof (keeps_run _ same_refs _ _ _ (gate_git_reads ws [] arguments b Ha) Hg) as Hs.
  unfold same_refs in Hs. split; [|congruence]. exists h, h'.
  unfold gate_git, git_command in Hg. apply M_bind_Ok_inv in Hg as (d & h1 & Hr & Hg).
  destruct (run_git _ _ _ _) as [[] ?]; try done. injection Hr as -> ->.
  destruct b; cbn in Hg.
  - destruct (returncode d =? 0) eqn:Hd; [|done]. injection Hg as -> ->. exists c. by to_prop.
  - injection Hg as -> ->. exists c. specialize (Hc eq_refl). by to_prop.
Qed.
Lemma gate_resolve_prints ws spec error h0 h oid h' : ref_map h = ref_map h0 →
  gate_resolve ws spec error h = (Ok oid, h') →
  (∃ out, git_prints (ws_root ws) h0 ["rev-parse"; "--verify"; spec] out ∧ strip out = oid)
  ∧ ref_map h' = ref_map h0.
Proof using Laws.
  intros Hh Hg. unfold gate_resolve in Hg. inv_monad. injection Hg as <- <-. to_prop.
  match goal with Hr : gate_git _ _ _ _ _ = _ |- _ => eapply gate_git_prints in Hr as [Hp ?]; try done end.
  - split; [|done]. by eexists.
  - by_compute.
  - intros _. by apply Z.eqb_eq.
Qed.
Lemma gate_parents_print ws commit h0 h parents h' : ref_map h = ref_map h0 →
  gate_commit_parents ws commit h = (Ok parents, h') →
  (∃ out, git_prints (ws_root ws) h0 ["rev-list"; "--parents"; "-n"; "1"; commit] out
          ∧ split (strip out) = commit :: parents) ∧ ref_map h' = ref_map h0.
Proof using Laws.
  intros Hh Hg. unfold gate_commit_parents in Hg. inv_monad.
  match goal with Hr : gate_git _ _ _ _ _ = _ |- _ => eapply gate_git_prints in Hr as [Hp ?]; try done end.
  - split; [|done]. eexists. split; [exact Hp|]. unfold parents_line in Hg. case_match; [done|].
    case_bool_decide; [|done]. by injection Hg as -> ; subst.
  - by_compute.
Qed.
Lemma show_ref_prints ws ref h0 h h' : ref_map h = ref_map h0 → show_ref ws ref h = (Ok 0, h') →
  (∃ out, git_prints (ws_root ws) h0 ["show-ref"; "--verify"; "--quiet"; ref] out)
  ∧ ref_map h' = ref_map h0.
Proof using Laws.
  intros Hh Hg. unfold show_ref in Hg. inv_monad. injection Hg as Hc <-.
  match goal with Hr : gate_git _ _ _ _ _ = _ |- _ => eapply gate_git_prints in Hr as [Hp ?]; try done end.
  - split; [|done]. by eexists.
  - by_compute.
  - intros _. by rewrite Hc.
Qed.

Lemma matches_fields md l : fold_result (matches_field md) tt l = Ok tt →
  ∀ key value, (key, value) ∈ l → md !! key = Some value.
Proof using.
  induction l as [|p l IH]; intros Hf key value Hin; [by apply not_elem_of_nil in Hin|].
  cbn in Hf. inv_monad. units. apply elem_of_cons in Hin as [<-|Hin]; [|by apply IH].
  match goal with Hm : matches_field _ _ _ = Ok _ |- _ => unfold matches_field, field_of in Hm; inv_monad end.
  cbn [fst snd] in *. destruct (md !! key) as [v|]; [|done].
  match goal with Ho : of_option _ _ = Ok _ |- _ => injection Ho as -> end. to_prop. by subst.
Qed.
Lemma decision_record_inv json_loads self attempt commit message md d :
  decision_metadata_of message = Ok md → decision_record json_loads self attempt commit md = Ok d →
  hid_decision d = AUTHORIZE_REPAIR →
  hid_decision_commit d = commit ∧ hid_decision_ref d = ihg_decision_ref self
  ∧ ipd_human_repair_authorizable (ihg_policy_decision self) = true
  ∧ Forall (λ p, says message p.1 p.2) (authorization_lines self attempt)
  ∧ (∃ actor, says message "DevFlow-Decision-Actor-JSON: " actor
              ∧ json_loads actor = Ok (JStr (hid_actor d)))
  ∧ ∃ note, says message "DevFlow-Decision-Note-JSON: " note
            ∧ json_loads note = Ok (JStr (hid_note d)).
Proof using.
  intros Hmd Hrec Hd. unfold decision_record in Hrec. inv_monad. units.
  match goal with Hf : fold_result _ _ _ = Ok _ |- _ => pose proof (matches_fields _ _ Hf) as Hexp end.
  match goal with Hn : HumanIntegrationDecision_new _ = Ok d |- _ =>
    unfold HumanIntegrationDecision_new in Hn; inv_monad end.
  cbn [hid_decision hid_decision_commit hid_decision_ref hid_actor hid_note] in *. subst.
  assert (Hfield : ∀ key value, field_of md key = Ok value → md !! key = Some value).
  { intros key value Hk. unfold field_of in Hk. destruct (md !! key); [|done]. by injection Hk as ->. }
  assert (Hsays : ∀ prefix key value,
    (list_to_map decision_prefixes : gmap string string) !! prefix = Some key →
    md !! key = Some value → says message prefix value).
  { intros prefix key value Hp. by apply decision_metadata_says. }
  assert (Hstr : ∀ text label s, _decode_json_text json_loads text label = Ok s →
    json_loads text = Ok (JStr s)).
  { intros text label s. unfold _decode_json_text.
    destruct (json_loads text) as [[]|]; intros Ht; try discriminate Ht; [by injection Ht as ->|].
    case_match; discriminate Ht. }
  split; [done|]. split; [done|].
  split. { destruct (ipd_human_repair_authorizable _); [done|]. 
    match goal with Hb : negb _ = true |- _ => by rewrite bool_decide_eq_true_2 in Hb end. }
  split.
  - unfold authorization_lines, expected_fields in *. repeat apply Forall_cons_2; [| |..|by apply Forall_nil]; cbn [fst snd].
    { eapply Hsays; [reflexivity|]. apply Hfield.
      match goal with Ha : field_of md "decision" = Ok ?a, Ht : match HumanGateDecision_of ?a with _ => _ end = _ |- _ =>
        replace "AUTHORIZE_REPAIR" with a; [exact Ha|]; unfold HumanGateDecision_of in Ht end.
      by repeat (case_bool_decide || done). }
    all: eapply Hsays; [reflexivity|]; apply Hexp;
      repeat (apply elem_of_cons; first [left; reflexivity|right]).
  - split; eexists; (split; [eapply Hsays; [reflexivity|by apply Hfield]|by eapply Hstr]).
Qed.

Lemma read_decision_recorded json_loads self h0 h d h' : ref_map h = ref_map h0 →
  (∃ out, git_prints (ws_root (ihg_workspace self)) h0
    ["show-ref"; "--verify"; "--quiet"; ihg_decision_ref self] out) →
  read_decision json_loads self h = (Ok d, h') → hid_decision d = AUTHORIZE_REPAIR →
  decision_recorded json_loads self h0 d
  ∧ ipd_human_repair_authorizable (ihg_policy_decision self) = true.
Proof using Laws.
  intros Hh Href Hread Hd. unfold read_decision, gate_resolve_commit, gate_resolve_tree,
    _parse_decision_metadata in Hread. inv_monad. to_prop. subst.
  match goal with
  | H1 : gate_resolve _ _ _ h = (Ok ?a, ?s1), H2 : gate_commit_parents _ ?a ?s1 = (_, ?s2),
    H3 : gate_resolve _ _ _ ?s2 = (_, ?s3), H4 : gate_resolve _ _ _ ?s3 = (_, ?s4),
    H5 : gate_git _ _ _ _ ?s4 = (Ok ?m, _), H6 : decision_metadata_of _ = Ok _,
    H7 : _terminal_attempt _ = Ok ?attempt |- _ =>
      destruct (gate_resolve_prints _ _ _ _ _ _ _ Hh H1) as [Hc Hs1];
      destruct (gate_parents_print _ _ _ _ _ _ Hs1 H2) as [Hp Hs2];
      destruct (gate_resolve_prints _ _ _ _ _ _ _ Hs2 H3) as [(out & Ht & <-) Hs3];
      destruct (gate_resolve_prints _ _ _ _ _ _ _ Hs3 H4) as [(out' & Ht' & Heq) Hs4];
      eapply gate_git_prints in H5 as [Hm _]; [|by_compute|exact Hs4|done];
      destruct (decision_record_inv _ _ _ _ _ _ _ H6 Hread Hd)
        as (<- & _ & Hauth & Hlines & Hactor & Hnote);
      rename H7 into Hlast
  end.
  split; [|done]. split; [done|done|done|by eexists _, _|].
  eexists _, _. split; [exact Hm|]. split; [|by split_and!].
  unfold _terminal_attempt in Hlast. destruct (last _); [|done]. by injection Hlast as ->.
Qed.
Lemma recovered_decision json_loads self required h0 h d h' : ref_map h = ref_map h0 →
  _recover_human_decision json_loads self required h = (Ok (Some d), h') →
  hid_decision d = AUTHORIZE_REPAIR →
  decision_recorded json_loads self h0 d
  ∧ ipd_human_repair_authorizable (ihg_policy_decision self) = true.
Proof using Laws.
  intros Hh Hr Hd. unfold _recover_human_decision in Hr. apply M_bind_Ok_inv in Hr as (n & h1 & Hshow & Hr).
  case_match; [by inv_monad|]. inv_monad. to_prop. subst.
  apply (show_ref_prints _ _ h0) in Hshow as [Href Hs]; [|done].
  match goal with Hm : mret _ _ = (Ok _, _) |- _ => injection Hm as -> -> end.
  by eapply read_decision_recorded.
Qed.
End authority.

(** C29.  A repair starts only with authority.  When a snapshot of the gate
    permits a repair, the conflict was reproduced from the repository:
    [classify], run again with the refs as they are, gives evidence that is
    what [git merge-tree] of the head of the queue and the task's commit
    prints, and it has the fingerprint the gate was built for.  All its files
    are in the write scope of the task, unprotected and regular; and either
    the policy is enabled and the conflict is a three-way content conflict of
    one supported text file, or a human authorised the repair: the decision
    ref exists and names the commit of the decision, whose only parent is the
    conflict marker, whose tree is the marker's, and whose message says
    [AUTHORIZE_REPAIR] for this evidence, policy, marker, head, task and
    commit and names the actor and the note of the decision.  Git's reading
    commands move no ref ([RefsLaws]). *)
Theorem repair_starts_with_authority `{Machine, !GitBytes, !Codec, !Refs, !RefsLaws} sha256 json_loads
    self scheduler h s h'
    (Hrun : gate_snapshot sha256 json_loads self scheduler h = (Ok s, h'))
    (Hstart : igs_repair_may_start s = true) :
  (∃ e, reproduced self h e
   ∧ conflict_evidence_fingerprint sha256 e = igs_evidence_fingerprint s
   ∧ mce_integration_head e = mqs_head_commit (ihg_queue_snapshot self)
   ∧ Forall (repair_allowed (ihg_policy self) (ihg_task self)) (mce_files e)
   ∧ (igs_state s = AUTO_REPAIR_CANDIDATE → automatic (ihg_policy self) e))
  ∧ (igs_state s = AUTO_REPAIR_CANDIDATE
     ∨ igs_state s = REPAIR_AUTHORIZED
       ∧ ∃ d, igs_human_decision s = Some d ∧ hid_decision d = AUTHORIZE_REPAIR
         ∧ decision_recorded json_loads self h d
         ∧ hid_evidence_fingerprint d = igs_evidence_fingerprint s
         ∧ hid_policy_fingerprint d = igs_policy_fingerprint s
         ∧ hid_conflict_marker_commit d = igs_conflict_marker_commit s).
Proof.
  unfold gate_snapshot in Hrun. apply M_bind_Ok_inv in Hrun as (u & h1 & Hval & Hrun).
  pose proof (keeps_run _ same_refs _ _ _ (gate_revalidate_reads sha256 self scheduler _ _) Hval) as Hrefs.
  unfold same_refs in Hrefs.
  apply revalidate_sound in Hval as (e & Hv & Hf & Hh & Ha & Hauto).
  apply M_bind_Ok_inv in Hrun as (human & h2 & Hrec & Hrun).
  apply M_bind_Ok_inv in Hrun as (u1 & h3 & _ & Hrun). apply M_bind_Ok_inv in Hrun as (u2 & h4 & _ & Hrun).
  destruct (gate_state _ human) as [st start] eqn:Hst.
  apply M_bind_Ok_inv in Hrun as (attempt & h5 & _ & Hrun). apply lift_Ok_inv in Hrun as [Hnew _].
  apply IntegrationGateSnapshot_inv in Hnew as [-> Hnew].
  cbn [igs_repair_may_start igs_state igs_human_decision igs_evidence_fingerprint
       igs_policy_fingerprint igs_conflict_marker_commit] in *. subst start.
  unfold gate_state in Hst. case_decide as Hroute.
  - injection Hst as <-. destruct (Hauto Hroute) as [Hok Hc]. split; [|by left].
    exists e. split_and!; auto.
  - destruct human as [d|]; [|done]. case_decide as Hd; [|done]. injection Hst as <-.
    destruct (recovered_decision _ _ _ _ _ _ _ Hrefs Hrec Hd) as [Hdr Hok].
    unfold validate_gate_state, validate_decided, valid_if in Hnew. cbn in Hnew. inv_monad. to_prop.
    split; [|right; split; [done|]; exists d; by split_and!].
    exists e. split_and!; try done. by apply Ha.
Qed.

(** The toy conflict behind a disabled policy, after a decision. *)
Definition decided_repo : @Host toy_machine :=
  (record_human_decision toy_sha256 toy_json_loads toy_gate example_scheduler AUTHORIZE_REPAIR "ada" "go on"
     second_queue.2).2.
Lemma repair_starts_with_authority_witness :
  ∃ s h' d, gate_snapshot toy_sha256 toy_json_loads toy_gate example_scheduler decided_repo = (Ok s, h')
  ∧ igs_repair_may_start s = true ∧ igs_human_decision s = Some d ∧ hid_actor d = "ada"
  ∧ decision_recorded toy_json_loads toy_gate decided_repo d
  ∧ ∃ e, reproduced toy_gate decided_repo e
         ∧ conflict_evidence_fingerprint toy_sha256 e = igs_evidence_fingerprint s.
Proof.
  destruct (gate_snapshot toy_sha256 toy_json_loads toy_gate example_scheduler decided_repo)
    as [[s|x] h'] eqn:Hrun.
  - assert (Hs : (s ← (gate_snapshot toy_sha256 toy_json_loads toy_gate example_scheduler decided_repo).1;
        Ok (igs_repair_may_start s, bool_decide (igs_state s = AUTO_REPAIR_CANDIDATE),
            hid_actor <$> igs_human_decision s)) = Ok (true, false, Some "ada")) by (vm_compute; reflexivity).
    rewrite Hrun in Hs. cbn [fst mbind result_bind] in Hs. injection Hs as H1 H2 H3.
    apply bool_decide_eq_false in H2.
    destruct (repair_starts_with_authority toy_sha256 toy_json_loads toy_gate example_scheduler
      decided_repo s h' Hrun H1) as [(e & He & Hf & _) [Hst|(_ & d & Hd & _ & Hrec & _)]];
      [contradiction|].
    exists s, h', d. rewrite Hd in H3. injection H3 as H3.
    split; [reflexivity|]. split; [exact H1|]. split; [exact Hd|]. split; [exact H3|].
    split; [exact Hrec|]. exists e. split; [exact He|exact Hf].
  - exfalso.
    assert (Hok : is_ok (gate_snapshot toy_sha256 toy_json_loads toy_gate example_scheduler
                    decided_repo).1 = true) by (vm_compute; reflexivity).
    rewrite Hrun in Hok. discriminate Hok.
Defined.

(** ** The decision in the commit message *)
Definition nel : ascii := ascii_of_nat 133.
Lemma escape_one_line c : c ≠ nel → forallb (λ d, negb (is_line_break d)) (escape_char c) = true.
Proof.
  intros Hc. destruct c as [[] [] [] [] [] [] [] []]; try (vm_compute; reflexivity). by destruct Hc.
Qed.
Lemma quoted_one_line s : in_string nel s = false → one_line (quoted s) = true.
Proof.
  unfold in_string, one_line, quoted. intros Hn. to_prop. rewrite chars_of_chars.
  cbn [forallb]. rewrite forallb_app. cbn [forallb]. rewrite andb_true_r.
  apply andb_true_iff. split; [done|].
  induction (chars s) as [|c l IH]; [done|].
  change (forallb (λ d, negb (is_line_break d)) (escape_char c ++ mjoin (escape_char <$> l)) = true).
  rewrite forallb_app, escape_one_line, IH by set_solver. done.
Qed.
Lemma strip_quoted s : strip (quoted s) = quoted s.
Proof.
  unfold strip, quoted. rewrite chars_of_chars.
  rewrite (drop_spaces_fixed (quote_char :: _)) by done.
  rewrite reverse_cons, reverse_app, <- app_assoc. cbn [reverse rev_append app].
  rewrite (drop_spaces_fixed (quote_char :: _)) by done.
  rewrite reverse_cons, reverse_app, reverse_involutive. done.
Qed.

(** A message that is a subject, a blank line and one line per field. *)
Definition field_lines (prefixes : list (string * string)) (values : list string) : list string :=
  zip_with (λ p v, p.1 +:+ v) prefixes values.
Definition message_of (subject : string) (prefixes : list (string * string)) (values : list string)
    : string :=
  subject +:+ newline +:+ newline +:+ join newline (field_lines prefixes values).
Definition fields_of (md : gmap string string) (prefixes : list (string * string))
    (values : list string) : gmap string string :=
  foldl (λ m kv, <[kv.1 := kv.2]> m) md (zip prefixes.*2 values).
Fixpoint prefixes_differ (done rest : list (string * string)) : bool :=
  match rest with
  | [] => true
  | p :: rest =>
      other_prefixes p.1 done && other_prefixes p.1 rest && negb (bool_decide (p.2 ∈ done.*2))
      && one_line p.1 && negb (bool_decide (p.1 = "")) && prefixes_differ (done ++ [p]) rest
  end.
Lemma read_field_lines duplicate rest : ∀ done values md,
  prefixes_differ done rest = true → length values = length rest →
  Forall (λ v, strip v = v) values → (∀ k, k ∈ dom md → k ∈ done.*2) →
  fold_result (read_line duplicate (done ++ rest)) md (field_lines rest values)
  = Ok (fields_of md rest values).
Proof.
  induction rest as [|[p k] rest IH]; intros done values md Hd Hlen Hv Hmd.
  { destruct values; [reflexivity|discriminate Hlen]. }
  destruct values as [|v values]; [discriminate Hlen|]. cbn [prefixes_differ] in Hd. to_prop. cbn [fst snd] in *.
  apply Forall_cons in Hv as [Hv Hvs].
  cbn [field_lines zip_with fold_result fst].
  rewrite read_line_text; [|assumption|assumption| |assumption].
  2:{ apply not_elem_of_dom. intros Hk%Hmd. contradiction. }
  cbn [mbind result_bind]. replace (done ++ (p, k) :: rest) with ((done ++ [(p, k)]) ++ rest)
    by (by rewrite <- app_assoc).
  etrans; [apply IH|reflexivity]; [assumption|cbn in Hlen; lia|assumption|].
  intros k'. rewrite dom_insert, fmap_app, elem_of_union, elem_of_singleton, elem_of_app. cbn.
  intros [->|Hk]; [right; by left|left; by apply Hmd].
Qed.
Lemma splitlines_join lines n :
  lines ≠ [] → Forall (λ l, one_line l = true) lines → (∀ l, last lines = Some l → l ≠ "") →
  splitlines (join newline lines +:+ newlines n) = lines ++ replicate (Nat.pred n) "".
Proof.
  induction lines as [|l lines IH]; [done|]. intros _ [Hl Hls]%Forall_cons Hlast.
  destruct lines as [|l' lines].
  - cbn [join app]. apply splitlines_last; [by apply Hlast|done].
  - change (join newline (l :: l' :: lines)) with (l +:+ newline +:+ join newline (l' :: lines)).
    rewrite !str_app_assoc, splitlines_newline by done. rewrite IH; [done|done|done|].
    intros x Hx. apply Hlast. by rewrite last_cons_cons.
Qed.
Lemma read_message duplicate missing subject prefixes values n :
  prefixes ≠ [] → prefixes_differ [] prefixes = true → length values = length prefixes →
  one_line subject = true → (∃ q v, subject = q +:+ v ∧ other_prefixes q prefixes = true) →
  Forall (λ v, strip v = v ∧ one_line v = true) values →
  dom (fields_of ∅ prefixes values) = list_to_set (prefixes.*2) →
  read_fields duplicate missing prefixes (splitlines (message_of subject prefixes values +:+ newlines n))
  = Ok (fields_of ∅ prefixes values).
Proof.
  intros Hne Hd Hlen Hsub (q & v & -> & Hq) Hvs Hdom. apply read_fields_intro; [|done].
  unfold message_of. rewrite !str_app_assoc, <- (str_app_assoc q v), splitlines_newline by done.
  change (newline +:+ ?s) with ("" +:+ newline +:+ s). rewrite splitlines_newline by done.
  assert (Hp : ∀ acc rest, prefixes_differ acc rest = true →
    Forall (λ p, one_line p.1 = true ∧ p.1 ≠ "") rest).
  { intros acc rest. revert acc. induction rest as [|p rest IH]; intros acc Hr; [constructor|].
    cbn in Hr. to_prop. constructor; [done|by eapply IH]. }
  specialize (Hp _ _ Hd). assert (Hlines : Forall (λ l, one_line l = true ∧ l ≠ "") (field_lines prefixes values)).
  { clear -Hp Hvs. revert values Hvs. induction Hp as [|p ps [Hp1 Hp2] _ IH]; intros values Hvs; [constructor|].
    destruct Hvs as [|v vs [_ Hv] Hvs]; [constructor|]. constructor; [|by apply IH]. split.
    - unfold one_line in *. by rewrite chars_app, forallb_app, Hp1, Hv.
    - by destruct (p.1). }
  rewrite splitlines_join.
  - cbn [fold_result]. rewrite read_line_other by done. cbn [mbind result_bind].
    assert (Hblank : forallb (λ p, negb (bool_decide (p.1 = ""))) prefixes = true).
    { apply forallb_forall. intros p Hin%list_elem_of_In. rewrite Forall_forall in Hp.
      apply negb_true_iff, bool_decide_eq_false. by apply Hp. }
    rewrite read_line_empty by done. cbn [mbind result_bind]. rewrite fold_result_app.
    rewrite (read_field_lines duplicate prefixes [] values ∅); [|done|done| |set_solver].
    + by apply read_blank_lines.
    + eapply Forall_impl; [exact Hvs|]. by intros ? [? _].
  - destruct prefixes, values; done.
  - eapply Forall_impl; [exact Hlines|]. by intros ? [? _].
  - intros l Hl%last_Some_elem_of. rewrite Forall_forall in Hlines. by apply Hlines.
Qed.

Definition decision_values (self : IntegrationHumanGate) (attempt : MergeQueueAttempt)
    (decision : HumanGateDecision) (actor note : string) : list string :=
  let e := ihg_evidence self in
  [HumanGateDecision_value decision; quoted actor; quoted note; ihg_evidence_fingerprint self;
   ihg_policy_fingerprint self; IntegrationPolicyRoute_value (ipd_route (ihg_policy_decision self));
   mce_marker_commit e; mce_conflict_ref e; mce_integration_head e; mqa_task_id attempt;
   mqa_task_branch attempt; mqa_task_commit attempt].
Lemma decision_message_shape self attempt decision actor note :
  _decision_message self attempt decision actor note
  = message_of ("DevFlow human integration decision: " +:+ HumanGateDecision_value decision)
      decision_prefixes (decision_values self attempt decision actor note).
Proof.
  unfold _decision_message, message_of. cbv zeta. cbn [field_lines zip_with decision_prefixes decision_values join fst].
  by rewrite !str_app_assoc.
Qed.

(** What a built gate satisfies. *)
Record gate_wf (sha256 : string → string) (self : IntegrationHumanGate) (attempt : MergeQueueAttempt)
    : Prop := {
  wf_last : last (mqs_attempts (ihg_queue_snapshot self)) = Some attempt;
  wf_evidence : MergeConflictEvidence_new (ihg_evidence self) = Ok (ihg_evidence self);
  wf_commit : mce_task_commit (ihg_evidence self) = mqa_task_commit attempt;
  wf_task : tc_task_id (ihg_task self) = mqa_task_id attempt;
  wf_fingerprint : ihg_evidence_fingerprint self = conflict_evidence_fingerprint sha256 (ihg_evidence self);
  wf_policy : ihg_policy_fingerprint self
              = integration_policy_fingerprint sha256 (ihg_policy_decision self);
}.
Lemma node_named d t n : node d t = Ok n → node_id n = t.
Proof.
  assert (Hfold : ∀ l (m : gmap string TaskNode), (∀ k x, m !! k = Some x → node_id x = k) →
    ∀ k x, foldl (λ m n, <[node_id n := n]> m) m l !! k = Some x → node_id x = k).
  { induction l as [|y l IH]; intros m Hm; [done|]. cbn. apply IH. intros k x Hx.
    apply lookup_insert_Some in Hx as [[<- <-]|[_ Hx]]; [done|by apply Hm]. }
  unfold node, _nodes_by_id, of_option. intros Hn. destruct (_ !! t) as [x|] eqn:Hx; [|done].
  injection Hn as ->. apply (Hfold _ _) in Hx; [done|]. intros k x ?%lookup_empty_Some. done.
Qed.
Lemma gate_init_wf `{Machine, !GitBytes, !Codec} sha256 json_loads ws snapshot scheduler evidence
    policy h self h' :
  MergeConflictEvidence_new evidence = Ok evidence →
  IntegrationHumanGate_init sha256 json_loads ws snapshot scheduler evidence policy h = (Ok self, h') →
  ∃ attempt, gate_wf sha256 self attempt.
Proof.
  intros He Hinit. unfold IntegrationHumanGate_init in Hinit. inv_monad.
  injection Hinit as <- <-.
  match goal with Hb : _validate_snapshot_binding _ _ _ = Ok ?a |- _ =>
    exists a; rename Hb into Hbind end.
  unfold _validate_snapshot_binding in Hbind. inv_monad. to_prop.
  match goal with Ho : of_option _ (if mqs_stopped _ then _ else _) = Ok _ |- _ => rename Ho into Hlast end.
  destruct (mqs_stopped snapshot); [|done]. destruct (last _) as [a'|] eqn:El; [|done].
  injection Hlast as ->. split; cbn; try done.
  match goal with Hn : node _ _ = Ok _ |- _ => by apply node_named in Hn end.
Qed.

Lemma no_space_text s : no_space s = true → strip s = s ∧ one_line s = true.
Proof.
  intros Hs. split; [by apply strip_no_space|]. unfold one_line. apply forallb_forall.
  intros c Hc%list_elem_of_In. by rewrite (line_break_space c) by by eapply no_space_char.
Qed.
Lemma any_oid_text s : any_oid s = true → strip s = s ∧ one_line s = true.
Proof. intros Hs. apply no_space_text. by apply no_space_commit. Qed.
Lemma sha_no_space s : is_sha256_hex s = true → no_space s = true.
Proof.
  unfold is_sha256_hex, hex_string. intros [_ Hs]%andb_true_iff. apply no_space_Forall. intros c Hc.
  apply hex_space. rewrite forallb_forall in Hs. unfold is_any_hex.
  by rewrite Hs by (by apply list_elem_of_In).
Qed.
Lemma quoted_text s : in_string nel s = false → strip (quoted s) = quoted s ∧ one_line (quoted s) = true.
Proof. split; [apply strip_quoted|by apply quoted_one_line]. Qed.
Lemma evidence_oids e : MergeConflictEvidence_new e = Ok e →
  any_oid (mce_marker_commit e) = true ∧ any_oid (mce_integration_head e) = true
  ∧ any_oid (mce_task_commit e) = true.
Proof.
  unfold MergeConflictEvidence_new, validate_evidence_consistency, valid_if. intros H. by inv_monad.
Qed.
Lemma decision_values_text sha256 self attempt decision actor note :
  (∀ s, is_sha256_hex (sha256 s) = true) → gate_wf sha256 self attempt →
  in_string nel actor = false → in_string nel note = false →
  no_space (mqa_task_id attempt) = true → no_space (mqa_task_branch attempt) = true →
  no_space (mce_conflict_ref (ihg_evidence self)) = true →
  Forall (λ v, strip v = v ∧ one_line v = true) (decision_values self attempt decision actor note).
Proof.
  intros Hsha [_ He Hc _ Hf Hp] Ha Hn Ht Hb Hr.
  apply evidence_oids in He as (Hm & Hh & Hk). rewrite Hc in Hk. unfold decision_values. cbv zeta.
  repeat apply Forall_cons_2; [..|constructor].
  - by destruct decision.
  - by apply quoted_text.
  - by apply quoted_text.
  - rewrite Hf. apply no_space_text, sha_no_space, Hsha.
  - rewrite Hp. apply no_space_text, sha_no_space, Hsha.
  - by destruct (ipd_route _).
  - by apply any_oid_text.
  - by apply no_space_text.
  - by apply any_oid_text.
  - by apply no_space_text.
  - by apply no_space_text.
  - by apply any_oid_text.
Qed.
(** A field of the metadata, by its position. *)
Lemma field_of_fields prefixes values key v :
  fields_of ∅ prefixes values !! key = Some v → field_of (fields_of ∅ prefixes values) key = Ok v.
Proof. unfold field_of. by intros ->. Qed.
Ltac read_field_of :=
  match goal with |- context [field_of ?md ?key] =>
    erewrite (field_of_fields _ _ key);
      [|cbn [fields_of zip zip_with decision_prefixes decision_values fmap list_fmap snd fst foldl];
        simplify_map_eq; reflexivity]
  end; cbn [mbind result_bind].

Section decision_fields.
Context `{Machine, !GitBytes, !Codec}.
Context (sha256 : string → string) (json_loads : string → result JSON).
Context (self : IntegrationHumanGate) (attempt : MergeQueueAttempt) (decision : HumanGateDecision).
Context (actor note commit : string).
Context (Hsha : ∀ s, is_sha256_hex (sha256 s) = true) (Hwf : gate_wf sha256 self attempt).
Notation fields := (fields_of ∅ decision_prefixes (decision_values self attempt decision actor note)).

Lemma decision_fields_checked message :
  read_fields (gate_error "human decision commit contains duplicate DevFlow metadata")
    (gate_error "human decision commit is missing required DevFlow metadata")
    decision_prefixes (splitlines message) = Ok fields →
  decision_metadata_of message = Ok fields.
Proof using Hsha Hwf.
  intros Hread. unfold decision_metadata_of. rewrite Hread. cbn [mbind result_bind].
  unfold require_oid_field, require_sha_field, gate_require_oid. repeat read_field_of.
  destruct Hwf as [_ He Hc _ Hf Hp]. apply evidence_oids in He as (Hm & Hh & Hk). rewrite Hc in Hk.
  rewrite Hm, Hh, Hk, Hf, Hp. unfold conflict_evidence_fingerprint, integration_policy_fingerprint.
  by rewrite !Hsha.
Qed.
Lemma decision_fields_bound :
  ipd_route (ihg_policy_decision self) = HUMAN_REQUIRED →
  fold_result (matches_field fields) tt (expected_fields self attempt) = Ok tt.
Proof using Hwf.
  intros Hroute. destruct Hwf as [_ _ Hc Ht _ _].
  unfold expected_fields, matches_field. cbv zeta. cbn [fold_result fst snd]. repeat read_field_of.
  rewrite Hroute, Ht, Hc. rewrite !bool_decide_eq_true_2 by done. done.
Qed.
Lemma decision_fields_record :
  ipd_route (ihg_policy_decision self) = HUMAN_REQUIRED →
  (decision = AUTHORIZE_REPAIR → ipd_human_repair_authorizable (ihg_policy_decision self) = true) →
  _validate_human_metadata actor note = Ok tt →
  json_loads (quoted actor) = Ok (JStr actor) → json_loads (quoted note) = Ok (JStr note) →
  text_ok 1 512 (ihg_decision_ref self) = true → any_oid commit = true →
  decision_record json_loads self attempt commit fields
  = Ok {| hid_decision := decision; hid_actor := actor; hid_note := note;
          hid_decision_ref := ihg_decision_ref self; hid_decision_commit := commit;
          hid_evidence_fingerprint := ihg_evidence_fingerprint self;
          hid_policy_fingerprint := ihg_policy_fingerprint self;
          hid_conflict_marker_commit := mce_marker_commit (ihg_evidence self) |}.
Proof using Hsha Hwf.
  intros Hroute Hauth Hmeta Hja Hjn Href Hcommit. unfold decision_record.
  rewrite decision_fields_bound by done. cbn [mbind result_bind]. repeat read_field_of.
  assert (Hd : HumanGateDecision_of (HumanGateDecision_value decision) = Ok decision) by by destruct decision.
  rewrite Hd. cbn [mbind result_bind]. rewrite check_true.
  2:{ case_bool_decide; [by rewrite Hauth|done]. }
  cbn [mbind result_bind]. unfold _decode_json_text. rewrite Hja, Hjn. cbn [mbind result_bind].
  pose proof Hmeta as Hmeta'. unfold _validate_human_metadata in Hmeta'. inv_monad. to_prop.
  destruct Hwf as [_ He _ _ Hf Hp]. apply evidence_oids in He as (Hm & _ & _).
  unfold HumanIntegrationDecision_new, require_single_line_metadata, valid_if.
  cbn [hid_actor hid_note hid_decision_ref hid_decision_commit hid_evidence_fingerprint
       hid_policy_fingerprint hid_conflict_marker_commit].
  rewrite !check_true; try done; cbn [mbind result_bind hid_actor hid_note].
  - by rewrite Hmeta.
  - apply len_between. match goal with Hl : (128 <? _)%nat = false |- _ => apply Nat.ltb_ge in Hl end. split; [|done]. destruct actor; [done|cbn; lia].
  - apply Nat.leb_le. by apply Nat.ltb_ge.
  - rewrite Hf. apply Hsha.
  - rewrite Hp. apply Hsha.
Qed.
End decision_fields.

(** C31.  The decision that is recorded is the decision that is read.  Take a
    gate built by the constructor, whose refs and ids are words, that requires
    a human decision; and a decision it admits, whose actor and note pass the
    gate's checks and have no NEL (U+0085).  The message written for it,
    whatever blank lines Git adds, gives back the decision, the actor and the
    note, bound to the evidence, the policy and the marker of the gate. *)
Theorem decision_roundtrip `{Machine, !GitBytes, !Codec} sha256 json_loads ws snapshot scheduler
    evidence policy h self h' decision actor note commit n
    (Hsha : ∀ s, is_sha256_hex (sha256 s) = true)
    (He : MergeConflictEvidence_new evidence = Ok evidence)
    (Hinit : IntegrationHumanGate_init sha256 json_loads ws snapshot scheduler evidence policy h
             = (Ok self, h'))
    (Hroute : ipd_route (ihg_policy_decision self) = HUMAN_REQUIRED)
    (Hauth : decision = AUTHORIZE_REPAIR →
             ipd_human_repair_authorizable (ihg_policy_decision self) = true)
    (Hmeta : _validate_human_metadata actor note = Ok tt)
    (Hnel : in_string nel actor = false ∧ in_string nel note = false)
    (Hjson : json_loads (quoted actor) = Ok (JStr actor) ∧ json_loads (quoted note) = Ok (JStr note))
    (Href : text_ok 1 512 (ihg_decision_ref self) = true) (Hcommit : any_oid commit = true) :
  ∃ attempt, last (mqs_attempts (ihg_queue_snapshot self)) = Some attempt
  ∧ (no_space (mqa_task_id attempt) = true → no_space (mqa_task_branch attempt) = true →
     no_space (mce_conflict_ref (ihg_evidence self)) = true →
     (metadata ← decision_metadata_of (_decision_message self attempt decision actor note +:+ newlines n);
      decision_record json_loads self attempt commit metadata)
     = Ok {| hid_decision := decision; hid_actor := actor; hid_note := note;
             hid_decision_ref := ihg_decision_ref self; hid_decision_commit := commit;
             hid_evidence_fingerprint := ihg_evidence_fingerprint self;
             hid_policy_fingerprint := ihg_policy_fingerprint self;
             hid_conflict_marker_commit := mce_marker_commit (ihg_evidence self) |}).
Proof.
  destruct (gate_init_wf _ _ _ _ _ _ _ _ _ _ He Hinit) as (attempt & Hwf).
  exists attempt. split; [apply Hwf|]. intros Ht Hb Hr.
  rewrite decision_message_shape.
  pose proof (decision_values_text sha256 self attempt decision actor note Hsha Hwf (proj1 Hnel)
    (proj2 Hnel) Ht Hb Hr) as Hvalues.
  rewrite (decision_fields_checked sha256 self attempt decision actor note Hsha Hwf).
  { cbn [mbind result_bind]. by apply (decision_fields_record sha256); destruct Hjson. }
  apply read_message; [done|vm_compute; reflexivity|done|by destruct decision| |exact Hvalues|].
  - exists "DevFlow human integration decision: ", (HumanGateDecision_value decision).
    split; [done|vm_compute; reflexivity].
  - cbn [fields_of zip zip_with decision_prefixes decision_values fmap list_fmap snd fst foldl].
    rewrite !dom_insert_L, dom_empty_L. cbn. set_solver.
Qed.

Definition toy_evidence : MergeConflictEvidence :=
  match gate_evidence with Ok e => e | Raise _ => sample_evidence "" end.
Definition toy_init (h : toy_repo) : result IntegrationHumanGate * toy_repo :=
  IntegrationHumanGate_init toy_sha256 toy_json_loads example_workspace gate_queue example_scheduler
    toy_evidence (Some (default_policy false)) h.
Lemma decision_roundtrip_witness :
  ∃ self attempt, (toy_init second_queue.2).1 = Ok self
  ∧ (metadata ← decision_metadata_of
       (_decision_message self attempt AUTHORIZE_REPAIR "ada" "go on" +:+ newlines 2);
     record ← decision_record toy_json_loads self attempt (commit_oid 1) metadata;
     Ok (hid_decision record, hid_actor record, hid_note record))
    = Ok (AUTHORIZE_REPAIR, "ada", "go on").
Proof.
  destruct (toy_init second_queue.2) as [[self|e] h'] eqn:Hinit.
  - assert (Hself : (g ← (toy_init second_queue.2).1;
        Ok (ipd_route (ihg_policy_decision g), ipd_human_repair_authorizable (ihg_policy_decision g),
            text_ok 1 512 (ihg_decision_ref g),
            no_space (mce_conflict_ref (ihg_evidence g)),
            match last (mqs_attempts (ihg_queue_snapshot g)) with
            | Some a => no_space (mqa_task_id a) && no_space (mqa_task_branch a)
            | None => false
            end)) = Ok (HUMAN_REQUIRED, true, true, true, true)) by (vm_compute; reflexivity).
    rewrite Hinit in Hself. cbn [fst mbind result_bind] in Hself.
    injection Hself as H1 H2 H3 H4 H5.
    destruct (decision_roundtrip toy_sha256 toy_json_loads example_workspace gate_queue example_scheduler
      toy_evidence (Some (default_policy false)) second_queue.2 self h' AUTHORIZE_REPAIR "ada" "go on"
      (commit_oid 1) 2) as (attempt & Hlast & Hround).
    + intros s. vm_compute. reflexivity.
    + vm_compute. reflexivity.
    + exact Hinit.
    + exact H1.
    + intros _. exact H2.
    + vm_compute. reflexivity.
    + split; vm_compute; reflexivity.
    + split; vm_compute; reflexivity.
    + exact H3.
    + vm_compute. reflexivity.
    + rewrite Hlast in H5. apply andb_true_iff in H5 as [H5 H6].
      exists self, attempt. split; [reflexivity|].
      specialize (Hround H5 H6 H4). destruct (decision_metadata_of _) as [md|]; [|discriminate Hround].
      cbn [mbind result_bind] in *. rewrite Hround. reflexivity.
  - exfalso. assert (Hok : is_ok (toy_init second_queue.2).1 = true) by (vm_compute; reflexivity).
    rewrite Hinit in Hok. discriminate Hok.
Defined.

(** A name with a NEL (U+0085) locks the gate.  The checks on the actor
    look for LF and CR only, and [json.dumps(ensure_ascii=False)] keeps NEL,
    at which [splitlines] ends a line.  The decision ref of such an actor is
    created, the call raises, and from then on the recorded decision cannot be
    read: no snapshot, no other decision, no new gate. *)
Theorem nel_name_locks_gate :
  let actor := of_chars ["a"%char; nel; "b"%char] in
  _validate_human_metadata actor "" = Ok tt
  ∧ let run := record_human_decision toy_sha256 toy_json_loads toy_gate example_scheduler ABORT actor ""
                 second_queue.2 in
    is_ok run.1 = false ∧ bool_decide (is_Some (ref_map run.2 !! ihg_decision_ref toy_gate)) = true
    ∧ is_ok (gate_snapshot toy_sha256 toy_json_loads toy_gate example_scheduler run.2).1 = false
    ∧ is_ok (record_human_decision toy_sha256 toy_json_loads toy_gate example_scheduler ABORT "ada" ""
               run.2).1 = false
    ∧ is_ok (toy_init run.2).1 = false.
Proof. vm_compute. split_and!; reflexivity. Qed.
