(* ===== verification/IntegrationRepair.v ===== *)
(** * IntegrationRepair: the repair of a conflict a human has authorized

    [models/integration_repair.py] and [runtime/integration_repair.py].  The
    service works on the machine of [Git] and on a ledger of evidence.  The
    ledger, the resolver of workspaces, the developer agent, the verifier and
    the source of fresh identifiers are the collaborators of its constructor:
    fields of a record of operations.  Git's effect on the refs is stated as
    laws; timeouts have no value. *)
From stdpp Require Import options.
From S2P Require Import Prelude Contracts RunModels Lease Json Recovery Merge Git Worktree Tools MergeQueue Conflict Classifier HumanGate.
Open Scope Z_scope.

(** ** [models/integration_repair.py] *)
Record IntegrationConflictRepairEvidence : Set := {
  icr_run_id : UUID;
  icr_task_id : string;
  icr_integration_head : string;
  icr_task_commit : string;
  icr_conflict_marker_commit : string;
  icr_conflict_evidence_fingerprint : string;
  icr_policy_fingerprint : string;
  icr_human_decision_commit : string;
  icr_conflicting_paths : list string;
  icr_repair_commit : string;
  icr_changed_files : list string;
  icr_developer_run : DeveloperRunResult;
  icr_verification : VerificationResult;
}.
Definition validate_repair_evidence (self : IntegrationConflictRepairEvidence)
    : result IntegrationConflictRepairEvidence :=
  valid_if (no_duplicates (icr_conflicting_paths self))
    "integration repair conflicting paths must be unique" ;;
  valid_if (no_duplicates (icr_changed_files self))
    "integration repair changed files must be unique" ;;
  valid_if (bool_decide (sorted_strings (icr_changed_files self) = icr_changed_files self))
    "integration repair changed files must be sorted" ;;
  valid_if (vr_passed (icr_verification self))
    "accepted integration repair requires deterministic verification" ;;
  Ok self.
Definition IntegrationConflictRepairEvidence_new (raw : IntegrationConflictRepairEvidence)
    : result IntegrationConflictRepairEvidence :=
  valid_if (text_ok 1 128 (icr_task_id raw)) "task_id" ;;
  valid_if (oid_ok (icr_integration_head raw)) "integration_head" ;;
  valid_if (oid_ok (icr_task_commit raw)) "task_commit" ;;
  valid_if (oid_ok (icr_conflict_marker_commit raw)) "conflict_marker_commit" ;;
  valid_if (is_sha256_hex (icr_conflict_evidence_fingerprint raw)) "conflict_evidence_fingerprint" ;;
  valid_if (is_sha256_hex (icr_policy_fingerprint raw)) "policy_fingerprint" ;;
  valid_if (oid_ok (icr_human_decision_commit raw)) "human_decision_commit" ;;
  valid_if (min_length 1 (icr_conflicting_paths raw)) "conflicting_paths" ;;
  valid_if (oid_ok (icr_repair_commit raw)) "repair_commit" ;;
  valid_if (min_length 1 (icr_changed_files raw)) "changed_files" ;;
  validate_repair_evidence raw.

(** ** [runtime/integration_repair.py] *)
Definition _CONFLICT_MARKERS : list string := ["<<<<<<<"; "======="; ">>>>>>>"].
Definition repair_error (message : string) : exn := Exn IntegrationRepairError message.
(** [uuid.hex]: 32 hexadecimal digits. *)
Definition hex_digit (n : N) : ascii :=
  ascii_of_nat (N.to_nat (if (n <? 10)%N then 48 + n else 87 + n)%N).
Fixpoint hex_digits (k : nat) (n : N) : list ascii :=
  match k with
  | O => []
  | S k => hex_digits k (n / 16)%N ++ [hex_digit (n mod 16)%N]
  end.
Definition uuid_hex (u : UUID) : string := of_chars (hex_digits 32 u).
Definition _validate_gate_shape (gate : IntegrationGateSnapshot) (queue : MergeQueueSnapshot)
    : result unit :=
  check (bool_decide (igs_state gate = REPAIR_AUTHORIZED)) IntegrationRepairError
    "integration repair requires REPAIR_AUTHORIZED Human Gate" ;;
  decision ← of_option (repair_error "Human Gate does not authorize a repair stage")
    (if igs_repair_may_start gate then igs_human_decision gate else None);
  check (bool_decide (hid_decision decision = AUTHORIZE_REPAIR)) IntegrationRepairError
    "Human Gate decision is not AUTHORIZE_REPAIR" ;;
  terminal ← of_option (repair_error "integration repair requires a stopped merge queue")
    (if mqs_stopped queue then last (mqs_attempts queue) else None);
  check (bool_decide (mqa_task_id terminal = igs_task_id gate)
         && bool_decide (mqa_task_commit terminal = igs_task_commit gate)
         && bool_decide (mqa_previous_integration_commit terminal = igs_integration_head gate))
    IntegrationRepairError "Human Gate does not match the stopped merge queue".
Definition _task_contract (snapshot : PersistedRunSnapshot) (task_id : string) : result TaskContract :=
  match filter (λ t, tc_task_id t = task_id) (pt_task <$> prs_tasks snapshot) with
  | [task] => Ok task
  | _ => corrupt "repair task identity is not unique in persisted Run"
  end.
(** [dict.fromkeys(l)] as a list: the first of equal entries. *)
Fixpoint first_of_each (seen : list string) (l : list string) : list string :=
  match l with
  | [] => []
  | x :: l => if decide (x ∈ seen) then first_of_each seen l else x :: first_of_each (x :: seen) l
  end.
Definition conflict_objective : string :=
  "Resolve only the already-classified Git integration conflicts for this task. "
  +:+ "Preserve the intended task behavior and both sides' compatible changes. Do not "
  +:+ "edit non-conflicting files. Original objective: ".
Definition _conflict_only_task (task : TaskContract) (gate : IntegrationGateSnapshot)
    : result TaskContract :=
  let conflict_paths := ipd_conflicting_paths (igs_policy gate) in
  TaskContract_new {|
    tc_task_id := tc_task_id task;
    tc_objective := conflict_objective +:+ tc_objective task;
    tc_readable_files :=
      first_of_each [] (tc_readable_files task ++ tc_writable_files task ++ conflict_paths);
    tc_writable_files := conflict_paths;
    tc_readonly_files := tc_readonly_files task;
    tc_acceptance_criteria := tc_acceptance_criteria task;
    tc_verification_commands := tc_verification_commands task;
    tc_max_retries := 0 |}.
Definition _repair_staging_ref (run_id : UUID) (gate : IntegrationGateSnapshot) : string :=
  "refs/devflow/integration-repairs/" +:+ uuid_hex run_id +:+ "/" +:+ igs_conflict_marker_commit gate.
(** [_repair_path] with the fresh [uuid4().hex[:12]]. *)
Definition repair_path (repair_root fresh : string) (run_id : UUID) (task_id : string) : string :=
  path_join (path_join repair_root (uuid_hex run_id)) (task_slug task_id +:+ "-" +:+ fresh).
(** [_repair_message], given the decision. *)
Definition _repair_message (gate : IntegrationGateSnapshot) (task : TaskContract)
    (branch_name task_base decision_commit : string) : string :=
  "DevFlow repair integration conflict for " +:+ tc_task_id task +:+ newline +:+ newline
  +:+ "DevFlow-Task: " +:+ tc_task_id task +:+ newline
  +:+ "DevFlow-Task-Branch: " +:+ branch_name +:+ newline
  +:+ "DevFlow-Task-Base: " +:+ task_base +:+ newline
  +:+ "DevFlow-Task-Commit: " +:+ igs_task_commit gate +:+ newline
  +:+ "DevFlow-Integration-Repair: true" +:+ newline
  +:+ "DevFlow-Conflict-Marker: " +:+ igs_conflict_marker_commit gate +:+ newline
  +:+ "DevFlow-Conflict-Evidence-Fingerprint: " +:+ igs_evidence_fingerprint gate +:+ newline
  +:+ "DevFlow-Policy-Fingerprint: " +:+ igs_policy_fingerprint gate +:+ newline
  +:+ "DevFlow-Human-Decision-Commit: " +:+ decision_commit.
(** The lines [_validate_repair_commit] expects in the message. *)
Definition expected_lines (evidence : IntegrationConflictRepairEvidence) (branch_name : string)
    : list string :=
  ["DevFlow-Task: " +:+ icr_task_id evidence;
   "DevFlow-Task-Branch: " +:+ branch_name;
   "DevFlow-Task-Commit: " +:+ icr_task_commit evidence;
   "DevFlow-Integration-Repair: true";
   "DevFlow-Conflict-Marker: " +:+ icr_conflict_marker_commit evidence;
   "DevFlow-Conflict-Evidence-Fingerprint: " +:+ icr_conflict_evidence_fingerprint evidence;
   "DevFlow-Policy-Fingerprint: " +:+ icr_policy_fingerprint evidence;
   "DevFlow-Human-Decision-Commit: " +:+ icr_human_decision_commit evidence].
Definition repair_require_oid (value label : string) : result unit :=
  sound_if (oid_ok value) (label +:+ " is not a full lowercase Git object id").
(** [integration_ref.removeprefix("refs/devflow/integration/")], if it has the
    prefix and something follows. *)
Definition integration_id_of (integration_ref : string) : result string :=
  of_option (Exn PersistenceCorruptionError "Human Gate integration ref has unexpected namespace")
    (if str_startswith _INTEGRATION_PREFIX integration_ref
     then let id := of_chars (drop (str_len _INTEGRATION_PREFIX) (chars integration_ref)) in
          if bool_decide (id = "") then None else Some id
     else None).
Definition conflict_archive (integration_id marker : string) : string :=
  "refs/devflow/integration-conflict-history/" +:+ integration_id +:+ "/" +:+ marker.
Definition decision_archive (integration_id marker : string) : string :=
  "refs/devflow/integration-decision-history/" +:+ integration_id +:+ "/" +:+ marker.
(** [try: m finally: cleanup] *)
Definition finally {S A} (m : M S A) (cleanup : M S unit) : M S A := λ s,
  let '(r, s1) := m s in
  match cleanup s1 with
  | (Ok _, s2) => (r, s2)
  | (Raise e, s2) => (Raise e, s2)
  end.

(** The collaborators of the service.  [L] is the ledger of evidence. *)
Record Collaborators `{Machine} (L : Type) : Type := {
  load_run : UUID → L → result PersistedRunSnapshot;
  record_integration_repair : IntegrationConflictRepairEvidence → M L (Z * string);
  resolve_workspace : UUID → M Host LocalGitWorkspace;
  developer_run : TaskContract → LocalGitWorkspace → M Host DeveloperRunResult;
  verify : TaskContract → LocalGitWorkspace → M Host VerificationResult;
  (** [uuid4().hex[:12]] *)
  fresh_suffix : M Host string;
  (** [shutil.rmtree(path, ignore_errors=True)] *)
  remove_tree : string → M Host unit;
  repair_root : string;
}.
Arguments load_run {_ _}. Arguments record_integration_repair {_ _}.
Arguments resolve_workspace {_ _}. Arguments developer_run {_ _}. Arguments verify {_ _}.
Arguments fresh_suffix {_ _}. Arguments remove_tree {_ _}. Arguments repair_root {_ _}.

Section repair.
Context `{Files} {L : Type}.
(** How Pydantic reads the fields of the two evidence payloads. *)
Context (read_execution : JSON → result WorkerExecutionEvidence).
Context (read_repair : JSON → result IntegrationConflictRepairEvidence).
Implicit Types (self : Collaborators L) (ws : LocalGitWorkspace) (gate : IntegrationGateSnapshot).
Implicit Types evidence : IntegrationConflictRepairEvidence.

(** ** What the snapshot of the run says *)
Definition worker_rows (snapshot : PersistedRunSnapshot) (task_id : string) : list PersistedEvidence :=
  filter (λ item, pe_kind item = WORKER_EXECUTION ∧ pe_task_id item = Some task_id)
    (prs_evidence snapshot).
Definition _successful_worker (snapshot : PersistedRunSnapshot) (task_id : string)
    : result WorkerExecutionEvidence :=
  decoded ← map_result (λ item, raw ← read_execution (pe_payload item); WorkerExecutionEvidence_new raw)
              (worker_rows snapshot task_id);
  match filter (λ e, we_status e = WE_SUCCEEDED) decoded with
  | [worker] =>
      if is_none (we_commit_sha worker) || negb (truthy (we_branch_name worker))
      then corrupt "integration repair requires exactly one successful worker commit evidence"
      else Ok worker
  | _ => corrupt "integration repair requires exactly one successful worker commit evidence"
  end.
Definition repair_rows (snapshot : PersistedRunSnapshot) : list PersistedEvidence :=
  filter (λ item, pe_kind item = INTEGRATION_REPAIR) (prs_evidence snapshot).
Definition _existing_repair (snapshot : PersistedRunSnapshot) gate
    : result (option IntegrationConflictRepairEvidence) :=
  decoded ← map_result
              (λ item, raw ← read_repair (pe_payload item); IntegrationConflictRepairEvidence_new raw)
              (repair_rows snapshot);
  match filter (λ e, icr_task_id e = igs_task_id gate
                     ∧ icr_conflict_evidence_fingerprint e = igs_evidence_fingerprint gate) decoded with
  | [] => Ok None
  | [repair] => Ok (Some repair)
  | _ => corrupt "one Human Gate conflict contains multiple integration repair results"
  end.

(** ** Git *)
Definition repair_git ws (env : list (string * string)) (arguments : list string)
    (must_succeed : bool) : M Host CompletedProcess :=
  completed ← git_command IntegrationRepairError "git executable is not available"
                "integration repair Git command timed out" (ws_root ws) env arguments;
  if must_succeed && negb (returncode completed =? 0) then
    let err := strip (Git.stderr completed) in
    throw IntegrationRepairError ("integration repair Git command failed: "
      +:+ (if bool_decide (err = "") then "exit_code=" +:+ str_of_Z (returncode completed) else err))
  else mret completed.
Definition _resolve_ref ws (ref : string) : M Host string :=
  completed ← repair_git ws [] ["rev-parse"; "--verify"; ref +:+ "^{commit}"] true;
  let value := strip (Git.stdout completed) in
  lift (repair_require_oid value "Git ref") ;;
  mret value.
Definition _resolve_optional_ref ws (ref : string) : M Host (option string) :=
  completed ← repair_git ws [] ["rev-parse"; "--verify"; ref +:+ "^{commit}"] false;
  if negb (returncode completed =? 0) then mret None
  else
    let value := strip (Git.stdout completed) in
    lift (repair_require_oid value "optional Git ref") ;;
    mret (Some value).
Definition _unmerged_paths ws : M Host (list string) :=
  completed ← repair_git ws [] ["diff"; "--name-only"; "--diff-filter=U"; "-z"; "--"] true;
  mret (sorted_strings (_split_nul (Git.stdout completed))).
Definition repair_assert_base_clean ws : M Host unit :=
  changed ← changed_files ws;
  ensure (bool_decide (changed = [])) IntegrationRepairError
    "base workspace must remain clean before integration repair".
Definition _add_repair_worktree ws (path integration_head : string) : M Host unit :=
  present ← exists_path path;
  ensure (negb present) IntegrationRepairError
    "fresh integration repair path unexpectedly exists" ;;
  make_dirs (path_parent path) ;;
  result ← repair_git ws [] ["worktree"; "add"; "--detach"; path; integration_head] false;
  ensure (returncode result =? 0) IntegrationRepairError
    "Git could not create isolated integration repair worktree".
Definition _remove_repair_worktree self ws (path : string) : M Host unit :=
  present ← exists_path path;
  (if present : bool
   then repair_git ws [] ["worktree"; "remove"; "--force"; path] false ;; mret tt else mret tt) ;;
  present ← exists_path path;
  if present : bool then remove_tree self path else mret tt.
Definition _anchor_repair_commit ws (staging_ref repair_commit : string) : M Host unit :=
  current ← _resolve_optional_ref ws staging_ref;
  if bool_decide (current = Some repair_commit) then mret tt
  else
    ensure (is_none current) PersistenceConflictError
      "integration repair staging ref already protects a different commit" ;;
    created ← repair_git ws []
      ["update-ref"; "-m"; "DevFlow durable integration repair staging"; staging_ref; repair_commit;
       zeros (str_len repair_commit)] false;
    ensure (returncode created =? 0) PersistenceConflictError
      "could not create durable integration repair staging ref" ;;
    landed ← _resolve_ref ws staging_ref;
    ensure (bool_decide (landed = repair_commit)) PersistenceCorruptionError
      "integration repair staging ref did not protect the expected commit".
Definition _release_repair_anchor ws (staging_ref repair_commit : string) : M Host unit :=
  current ← _resolve_optional_ref ws staging_ref;
  match current with
  | None => mret tt
  | Some current =>
      ensure (bool_decide (current = repair_commit)) PersistenceConflictError
        "integration repair staging ref changed before cleanup" ;;
      deleted ← repair_git ws [] ["update-ref"; "-d"; staging_ref; repair_commit] false;
      ensure (returncode deleted =? 0) PersistenceConflictError
        "could not release durable integration repair staging ref" ;;
      remaining ← _resolve_optional_ref ws staging_ref;
      ensure (is_none remaining) PersistenceCorruptionError
        "integration repair staging ref remained after cleanup"
  end.
Definition _advance_ref ws (integration_ref : string) evidence : M Host unit :=
  current ← _resolve_ref ws integration_ref;
  if bool_decide (current = icr_repair_commit evidence) then mret tt
  else
    ensure (bool_decide (current = icr_integration_head evidence)) PersistenceConflictError
      "integration ref moved before the persisted repair could be applied" ;;
    update ← repair_git ws []
      ["update-ref"; "-m"; "DevFlow repair " +:+ icr_task_id evidence; integration_ref;
       icr_repair_commit evidence; icr_integration_head evidence] false;
    ensure (returncode update =? 0) PersistenceConflictError
      "integration repair CAS update lost a concurrent race" ;;
    landed ← _resolve_ref ws integration_ref;
    ensure (bool_decide (landed = icr_repair_commit evidence)) PersistenceCorruptionError
      "integration ref did not land on persisted repair commit".
(** The loop body of [_archive_live_gate_refs]. *)
Definition archive_ref ws (live_ref expected_oid archive_ref : string) : M Host unit :=
  live ← _resolve_optional_ref ws live_ref;
  archive ← _resolve_optional_ref ws archive_ref;
  ensure (match archive with Some oid => bool_decide (oid = expected_oid) | None => true end)
    PersistenceCorruptionError "integration repair archive ref changed unexpectedly" ;;
  (match archive with
   | Some _ => mret tt
   | None =>
       created ← repair_git ws []
         ["update-ref"; archive_ref; expected_oid; zeros (str_len expected_oid)] false;
       ensure (returncode created =? 0) PersistenceConflictError
         "could not archive durable Human Gate Git ref"
   end) ;;
  match live with
  | None => mret tt
  | Some live =>
      ensure (bool_decide (live = expected_oid)) PersistenceConflictError
        "live Human Gate Git ref changed before archival" ;;
      deleted ← repair_git ws [] ["update-ref"; "-d"; live_ref; expected_oid] false;
      ensure (returncode deleted =? 0) PersistenceConflictError
        "could not release live Human Gate Git ref"
  end.
Definition _archive_live_gate_refs ws gate : M Host unit :=
  integration_id ← lift (integration_id_of (igs_integration_ref gate));
  decision ← lift (of_option (Exn PersistenceCorruptionError "repair gate lost its human decision")
                     (igs_human_decision gate));
  let marker := igs_conflict_marker_commit gate in
  archive_ref ws (igs_conflict_ref gate) marker (conflict_archive integration_id marker) ;;
  archive_ref ws (hid_decision_ref decision) (hid_decision_commit decision)
    (decision_archive integration_id marker).
Definition _validate_repair_commit ws evidence (branch_name : string) : M Host unit :=
  parents ← repair_git ws [] ["show"; "-s"; "--format=%P"; icr_repair_commit evidence] true;
  ensure (bool_decide (split (strip (Git.stdout parents))
                       = [icr_integration_head evidence; icr_task_commit evidence]))
    PersistenceCorruptionError "persisted integration repair commit parents changed" ;;
  message ← repair_git ws [] ["show"; "-s"; "--format=%B"; icr_repair_commit evidence] true;
  ensure (forallb (λ line, bool_decide (line ∈ splitlines (Git.stdout message)))
            (expected_lines evidence branch_name))
    PersistenceCorruptionError "persisted integration repair commit metadata changed".
Definition marker_free ws (repository_path : string) : M Host unit := λ h,
  (path ← resolve_path ws repository_path h;
   if negb (path_exists h path) then Ok tt
   else
     check (path_is_file h path) IntegrationRepairError
       ("conflict path is not a regular file after repair: " +:+ repository_path) ;;
     read ← decoded_text h path;
     text ← of_option (repair_error
              ("conflict path is not UTF-8 text after repair: " +:+ repository_path)) read;
     check (negb (existsb (λ marker, RunModels.contains marker text) _CONFLICT_MARKERS))
       IntegrationRepairError ("conflict marker remains after Agent repair: " +:+ repository_path),
   h).
Definition _assert_no_text_conflict_markers ws (paths : list string) : M Host unit :=
  for_each paths (marker_free ws).

(** ** The repair *)
Definition on_machine {A} (m : M Host A) : M (Host * L) A := λ w,
  let '(r, h) := m w.1 in (r, (h, w.2)).
Definition on_ledger {A} (m : M L A) : M (Host * L) A := λ w,
  let '(r, l) := m w.2 in (r, (w.1, l)).
(** The calls that follow the recording of the evidence, and that finish an
    interrupted repair. *)
Definition finish_repair ws gate (queue : MergeQueueSnapshot) (staging_ref : string) evidence
    : M Host IntegrationConflictRepairEvidence :=
  _advance_ref ws (mqs_integration_ref queue) evidence ;;
  _archive_live_gate_refs ws gate ;;
  _release_repair_anchor ws staging_ref (icr_repair_commit evidence) ;;
  mret evidence.
(** The body of the [try] up to the evidence. *)
Definition resolve_conflict self ws gate (run_id : UUID) (task repair_task : TaskContract)
    (worker : WorkerExecutionEvidence) (staging_ref path : string)
    : M Host IntegrationConflictRepairEvidence :=
  let conflicting := ipd_conflicting_paths (igs_policy gate) in
  repair_ws ← LocalGitWorkspace_init path;
  merge ← repair_git repair_ws [] ["merge"; "--no-commit"; "--no-ff"; igs_task_commit gate] false;
  ensure (returncode merge =? 1) IntegrationRepairError
    "authorized repair did not reproduce the exact Git merge conflict" ;;
  unresolved ← _unmerged_paths repair_ws;
  ensure (bool_decide (sorted_strings unresolved = sorted_strings conflicting))
    IntegrationRepairError "reproduced conflict paths differ from the Human Gate evidence" ;;
  run ← developer_run self repair_task repair_ws;
  ensure (bool_decide (dr_stop_reason run = DEV_MODEL_STOP)) IntegrationRepairError
    "integration repair Agent did not terminate within its bounded success path" ;;
  _assert_no_text_conflict_markers repair_ws conflicting ;;
  repair_git repair_ws [] ("add" :: "-A" :: "--" :: conflicting) true ;;
  remaining ← _unmerged_paths repair_ws;
  ensure (bool_decide (remaining = [])) IntegrationRepairError
    ("integration repair left unresolved Git index stages: " +:+ join ", " remaining) ;;
  verification ← verify self task repair_ws;
  ensure (vr_passed verification) IntegrationRepairError
    "human-authorized integration repair failed deterministic verification" ;;
  changed ← changed_files repair_ws;
  ensure (negb (bool_decide (changed = []))) IntegrationRepairError
    "integration repair produced no repository changes" ;;
  written ← repair_git repair_ws [] ["write-tree"] true;
  let tree := strip (Git.stdout written) in
  lift (repair_require_oid tree "repair tree") ;;
  decision ← lift (of_option (repair_error "repair message requires Human Gate decision")
                     (igs_human_decision gate));
  committed ← repair_git repair_ws Worktree._commit_environment
    ["commit-tree"; tree; "-p"; igs_integration_head gate; "-p"; igs_task_commit gate; "-m";
     _repair_message gate task (default "" (we_branch_name worker)) (we_base_commit worker)
       (hid_decision_commit decision)] true;
  let repair_commit := strip (Git.stdout committed) in
  lift (repair_require_oid repair_commit "integration repair commit") ;;
  _anchor_repair_commit ws staging_ref repair_commit ;;
  lift (IntegrationConflictRepairEvidence_new {|
    icr_run_id := run_id; icr_task_id := igs_task_id gate;
    icr_integration_head := igs_integration_head gate; icr_task_commit := igs_task_commit gate;
    icr_conflict_marker_commit := igs_conflict_marker_commit gate;
    icr_conflict_evidence_fingerprint := igs_evidence_fingerprint gate;
    icr_policy_fingerprint := igs_policy_fingerprint gate;
    icr_human_decision_commit := hid_decision_commit decision;
    icr_conflicting_paths := conflicting; icr_repair_commit := repair_commit;
    icr_changed_files := changed; icr_developer_run := run; icr_verification := verification |}).
Definition repair self (run_id : UUID) gate (queue : MergeQueueSnapshot)
    : M (Host * L) IntegrationConflictRepairEvidence :=
  lift (_validate_gate_shape gate queue) ;;
  snapshot ← on_ledger (λ l, (load_run self run_id l, l));
  task ← lift (_task_contract snapshot (igs_task_id gate));
  worker ← lift (_successful_worker snapshot (igs_task_id gate));
  ensure (bool_decide (we_commit_sha worker = Some (igs_task_commit gate)))
    PersistenceCorruptionError
    "Human Gate task commit disagrees with accepted worker execution evidence" ;;
  ws ← on_machine (resolve_workspace self (prs_project_id snapshot));
  on_machine (repair_assert_base_clean ws) ;;
  let staging_ref := _repair_staging_ref run_id gate in
  existing ← lift (_existing_repair snapshot gate);
  match existing with
  | Some existing =>
      on_machine (
        _validate_repair_commit ws existing (default "" (we_branch_name worker)) ;;
        _anchor_repair_commit ws staging_ref (icr_repair_commit existing) ;;
        finish_repair ws gate queue staging_ref existing)
  | None =>
      repair_task ← lift (_conflict_only_task task gate);
      path ← on_machine (
        fresh ← fresh_suffix self;
        make_dirs (repair_root self) ;;
        mret (repair_path (repair_root self) fresh run_id (igs_task_id gate)));
      on_machine (_add_repair_worktree ws path (igs_integration_head gate)) ;;
      finally
        (evidence ← on_machine (resolve_conflict self ws gate run_id task repair_task worker
                                  staging_ref path);
         on_ledger (record_integration_repair self evidence) ;;
         on_machine (finish_repair ws gate queue staging_ref evidence))
        (on_machine (_remove_repair_worktree self ws path))
  end.
End repair.
