(* ===== verification/RepairRefs.v ===== *)
(** * RepairRefs: Git's refs under the repair of a conflict

    The laws of [git rev-parse] and [git update-ref] the service of
    [runtime/integration_repair.py] relies on, the laws of its collaborators,
    and what each of its steps does to the refs: the anchor, the advance of
    the integration ref, the archives and the release, and their composition. *)
From stdpp Require Import options.
From S2P Require Import Prelude Contracts RunModels Lease Json Recovery Merge Git Worktree Tools MergeQueue MergeMessages Conflict Classifier HumanGate ToolsFacts ConflictFacts IntegrationRepair.
Open Scope Z_scope.

(** ** Refs as Git updates them *)
Abbreviation ref_table := (gmap string string).
Definition is_zero (oid : string) : bool := forallb (λ c, bool_decide (c = "0"%char)) (chars oid).
Definition old_matches (refs : ref_table) (ref old : string) : Prop :=
  if is_zero old then refs !! ref = None else refs !! ref = Some old.
Definition write_ref (ref new : string) (refs : ref_table) : ref_table :=
  if is_zero new then delete ref refs else <[ref := new]> refs.
(** A full ref name that [rev-parse] reads as a name and nothing else. *)
Definition ref_char (c : ascii) : bool := is_slug_char c || bool_decide (c = "/"%char).
Definition full_ref (ref : string) : Prop :=
  str_startswith "refs/" ref = true ∧ forallb ref_char (chars ref) = true.
(** What a call that may write leaves: a call killed by the timeout may have
    written. *)
Definition outcome (r : process_result) (same wrote : Prop) : Prop :=
  match r with
  | Finished c => if returncode c =? 0 then wrote else same
  | ExecutableNotFound => same
  | TimeoutExpired => same ∨ wrote
  end.
Definition update_flags (flags : list string) : Prop := flags = [] ∨ ∃ text, flags = ["-m"; text].
(** Commands that leave every ref under [refs/] alone: the ones that read, or
    write objects, the index or the working tree only; a merge that stops
    before its commit, a worktree on a detached head, and the removal of one. *)
Definition quiet_commands : list string :=
  ["diff"; "ls-files"; "rev-parse"; "show"; "add"; "write-tree"; "commit-tree"].
Definition keeps_refs (arguments : list string) : bool :=
  match arguments with
  | [] => false
  | command :: options =>
      bool_decide (command ∈ quiet_commands)
      || bool_decide (command = "merge" ∧ take 2 options = ["--no-commit"; "--no-ff"] ∧ length options = 3%nat)
      || bool_decide (command = "worktree"
           ∧ (take 2 options = ["add"; "--detach"] ∧ length options = 4%nat
              ∨ take 2 options = ["remove"; "--force"] ∧ length options = 3%nat))
  end.
Class RefUpdateLaws `{Machine, !Refs} : Prop := {
  repair_reads root env args h : keeps_refs args = true →
    ref_map (run_git root env args h).2 = ref_map h;
  rev_parse_ref root ref h c : full_ref ref →
    (run_git root [] ["rev-parse"; "--verify"; ref +:+ "^{commit}"] h).1 = Finished c →
    returncode c = 0 →
    is_zero (strip (Git.stdout c)) = false ∧ ref_map h !! ref = Some (strip (Git.stdout c));
  update_ref_writes root flags ref new old h : update_flags flags → full_ref ref →
    any_oid new = true → any_oid old = true →
    let after := run_git root [] ("update-ref" :: flags ++ [ref; new; old]) h in
    outcome after.1 (ref_map after.2 = ref_map h)
      (old_matches (ref_map h) ref old ∧ ref_map after.2 = write_ref ref new (ref_map h));
  delete_ref_writes root ref old h : full_ref ref → any_oid old = true →
    let after := run_git root [] ["update-ref"; "-d"; ref; old] h in
    outcome after.1 (ref_map after.2 = ref_map h)
      (old_matches (ref_map h) ref old ∧ ref_map after.2 = delete ref (ref_map h));
}.
(** A Git that answers every call: it knows its refs and refuses an update
    only when the old value does not match. *)
Class WorkingGit `{Machine, !Refs} : Prop := {
  rev_parse_answers root ref h : full_ref ref →
    ∃ c, (run_git root [] ["rev-parse"; "--verify"; ref +:+ "^{commit}"] h).1 = Finished c
    ∧ match ref_map h !! ref with
      | Some oid => returncode c = 0 ∧ strip (Git.stdout c) = oid
      | None => returncode c ≠ 0
      end;
  update_ref_answers root flags ref new old h : update_flags flags → full_ref ref →
    old_matches (ref_map h) ref old → (∃ other, ref_map h !! other = Some new) →
    ∃ c, (run_git root [] ("update-ref" :: flags ++ [ref; new; old]) h).1 = Finished c
    ∧ returncode c = 0;
  delete_ref_answers root ref old h : full_ref ref → old_matches (ref_map h) ref old →
    ∃ c, (run_git root [] ["update-ref"; "-d"; ref; old] h).1 = Finished c ∧ returncode c = 0;
}.

Lemma oid_any s : oid_ok s = true → any_oid s = true.
Proof.
  unfold oid_ok, any_oid, hex_string. intros H.
  apply andb_true_iff in H as [-> H]. apply forallb_forall. rewrite forallb_forall in H.
  intros c Hc. unfold is_any_hex. by rewrite (H c Hc).
Qed.
Lemma zeros_oid s : oid_ok s = true → any_oid (zeros (str_len s)) = true.
Proof.
  unfold oid_ok, any_oid, hex_string, zeros. intros [H _]%andb_true_iff.
  rewrite str_len_of_chars, length_replicate, H, chars_of_chars.
  apply forallb_forall. intros c Hc%list_elem_of_In%elem_of_replicate. by destruct Hc as [-> _].
Qed.
Lemma zeros_zero n : is_zero (zeros n) = true.
Proof.
  unfold is_zero, zeros. rewrite chars_of_chars. apply forallb_forall.
  intros c Hc%list_elem_of_In%elem_of_replicate. by destruct Hc as [-> _].
Qed.

Section git.
Context `{Machine, R : !Refs, Laws : !RefUpdateLaws}.
(** [works] is a promise that Git answers: with it no call below fails. *)
Context (works : Prop) (Hworks : works → WorkingGit).
Implicit Types (ws : LocalGitWorkspace) (refs : ref_table) (h : Host).

Lemma wp_git ws env args (same wrote : Host → Prop) h :
  outcome (run_git (ws_root ws) env args h).1 (same (run_git (ws_root ws) env args h).2)
    (wrote (run_git (ws_root ws) env args h).2) →
  wp (repair_git ws env args false)
    (λ c h', (run_git (ws_root ws) env args h).1 = Finished c
             ∧ if returncode c =? 0 then wrote h' else same h')
    (λ _ h', (∀ c, (run_git (ws_root ws) env args h).1 ≠ Finished c) ∧ (same h' ∨ wrote h')) h.
Proof using.
  unfold wp, repair_git, git_command, mbind, M_bind.
  destruct (run_git (ws_root ws) env args h) as [[c| |] h']; cbn; auto.
Qed.
Lemma git_reads ws env args b : keeps_refs args = true →
  keeps (λ h h', ref_map h' = ref_map h) (repair_git ws env args b).
Proof using Laws.
  intros Hc h. unfold repair_git, git_command, mbind, M_bind.
  pose proof (repair_reads (ws_root ws) env args h Hc) as Hr.
  destruct (run_git (ws_root ws) env args h) as [[c| |] h']; cbn in *; [|done..].
  by destruct (b && _).
Qed.

Lemma wp_update ws flags ref new old h : update_flags flags → full_ref ref →
  any_oid new = true → any_oid old = true →
  wp (repair_git ws [] ("update-ref" :: flags ++ [ref; new; old]) false)
    (λ c h', if returncode c =? 0
             then old_matches (ref_map h) ref old ∧ ref_map h' = write_ref ref new (ref_map h)
             else ref_map h' = ref_map h
                  ∧ ¬ (works ∧ old_matches (ref_map h) ref old ∧ ∃ other, ref_map h !! other = Some new))
    (λ _ h', (ref_map h' = ref_map h
              ∨ old_matches (ref_map h) ref old ∧ ref_map h' = write_ref ref new (ref_map h))
             ∧ ¬ (works ∧ old_matches (ref_map h) ref old ∧ ∃ other, ref_map h !! other = Some new)) h.
Proof using Laws Hworks.
  intros Hf Href Hnew Hold. pose proof (update_ref_writes (ws_root ws) flags ref new old h Hf Href Hnew Hold) as Ho.
  eapply wp_mono; [by apply (wp_git ws [] _ (λ h', ref_map h' = ref_map h)
    (λ h', old_matches (ref_map h) ref old ∧ ref_map h' = write_ref ref new (ref_map h)) h Ho)|..].
  - intros c h' [Hc Hr]. destruct (returncode c =? 0) eqn:E; [done|]. split; [done|].
    intros (Hw & Hm & Hk). destruct (update_ref_answers (WorkingGit := Hworks Hw) (ws_root ws) flags ref new old h Hf Href Hm Hk)
      as (c' & Hc' & Hz). rewrite Hc in Hc'. injection Hc' as <-. by rewrite Hz in E.
  - intros e h' [Hc Hr]. split; [done|]. intros (Hw & Hm & Hk).
    destruct (update_ref_answers (WorkingGit := Hworks Hw) (ws_root ws) flags ref new old h Hf Href Hm Hk)
      as (c' & Hc' & Hz). by apply (Hc c').
Qed.
Lemma wp_delete ws ref old h : full_ref ref → any_oid old = true →
  wp (repair_git ws [] ["update-ref"; "-d"; ref; old] false)
    (λ c h', if returncode c =? 0
             then old_matches (ref_map h) ref old ∧ ref_map h' = delete ref (ref_map h)
             else ref_map h' = ref_map h ∧ ¬ (works ∧ old_matches (ref_map h) ref old))
    (λ _ h', (ref_map h' = ref_map h
              ∨ old_matches (ref_map h) ref old ∧ ref_map h' = delete ref (ref_map h))
             ∧ ¬ (works ∧ old_matches (ref_map h) ref old)) h.
Proof using Laws Hworks.
  intros Href Hold. pose proof (delete_ref_writes (ws_root ws) ref old h Href Hold) as Ho.
  eapply wp_mono; [by apply (wp_git ws [] _ (λ h', ref_map h' = ref_map h)
    (λ h', old_matches (ref_map h) ref old ∧ ref_map h' = delete ref (ref_map h)) h Ho)|..].
  - intros c h' [Hc Hr]. destruct (returncode c =? 0) eqn:E; [done|]. split; [done|].
    intros (Hw & Hm). destruct (delete_ref_answers (WorkingGit := Hworks Hw) (ws_root ws) ref old h Href Hm)
      as (c' & Hc' & Hz). rewrite Hc in Hc'. injection Hc' as <-. by rewrite Hz in E.
  - intros e h' [Hc Hr]. split; [done|]. intros (Hw & Hm).
    destruct (delete_ref_answers (WorkingGit := Hworks Hw) (ws_root ws) ref old h Href Hm) as (c' & Hc' & Hz).
    by apply (Hc c').
Qed.
(** A reading call of [rev-parse]. *)
Lemma wp_rev_parse ws ref h : full_ref ref →
  wp (repair_git ws [] ["rev-parse"; "--verify"; ref +:+ "^{commit}"] false)
    (λ c h', ref_map h' = ref_map h
             ∧ if returncode c =? 0
               then is_zero (strip (Git.stdout c)) = false
                    ∧ ref_map h !! ref = Some (strip (Git.stdout c))
               else works → ref_map h !! ref = None)
    (λ _ h', ref_map h' = ref_map h ∧ ¬ works) h.
Proof using Laws Hworks.
  intros Href. set (args := ["rev-parse"; "--verify"; ref +:+ "^{commit}"]).
  assert (Hreads : ref_map (run_git (ws_root ws) [] args h).2 = ref_map h)
    by (by apply repair_reads).
  assert (Hanswers : works → ∃ c, (run_git (ws_root ws) [] args h).1 = Finished c
    ∧ match ref_map h !! ref with
      | Some oid => returncode c = 0 ∧ strip (Git.stdout c) = oid
      | None => returncode c ≠ 0
      end) by (intros Hw; by apply (rev_parse_answers (WorkingGit := Hworks Hw))).
  eapply wp_mono; [apply (wp_git ws [] args (λ h', ref_map h' = ref_map h) (λ h', ref_map h' = ref_map h))|..].
  { unfold outcome. destruct (run_git _ _ _ _) as [[c| |] h']; cbn in *; [by destruct (_ =? _)|done|by left]. }
  - cbv beta. intros c h' [Hc Hr]. split; [by destruct (returncode c =? 0)|].
    destruct (returncode c =? 0) eqn:E.
    + apply Z.eqb_eq in E. by apply (rev_parse_ref (ws_root ws) ref h c).
    + intros Hw. destruct (Hanswers Hw) as (c' & Hc' & Hm). rewrite Hc in Hc'. injection Hc' as <-.
      apply Z.eqb_neq in E. destruct (ref_map h !! ref); [|done]. by destruct Hm.
  - intros e h' [Hc Hr]. split; [by destruct Hr|]. intros Hw.
    destruct (Hanswers Hw) as (c & Hc' & _). by apply (Hc c).
Qed.
(** What the two readers return is there, and a Git that answers returns what
    is there. *)
Lemma wp_resolve_optional ws ref h : full_ref ref →
  wp (_resolve_optional_ref ws ref)
    (λ o h', ref_map h' = ref_map h ∧ (works → o = ref_map h !! ref)
             ∧ match o with
               | Some oid => is_zero oid = false ∧ ref_map h !! ref = Some oid
               | None => True
               end)
    (λ _ h', ref_map h' = ref_map h
             ∧ ¬ (works ∧ ∀ oid, ref_map h !! ref = Some oid → oid_ok oid = true)) h.
Proof using Laws Hworks.
  intros Href. unfold _resolve_optional_ref. apply wp_bind.
  eapply wp_mono; [by apply wp_rev_parse|..]; cbv beta; [|by intros e h' [-> Hn]; split; [|intros [? _]]].
  intros c h' [Hh Hr]. destruct (returncode c =? 0); cbn [negb].
  - destruct Hr as [Hz Hv]. apply wp_lift_bind; [intros u _|intros e He].
    + apply wp_ret. by split_and!.
    + split; [done|]. intros [Hw Hok]. unfold repair_require_oid, sound_if in He. by rewrite (Hok _ Hv) in He.
  - apply wp_ret. split_and!; [done| |done]. intros Hw. symmetry. by apply Hr.
Qed.
Lemma wp_resolve ws ref h : full_ref ref →
  wp (_resolve_ref ws ref)
    (λ oid h', ref_map h' = ref_map h ∧ is_zero oid = false ∧ ref_map h !! ref = Some oid)
    (λ _ h', ref_map h' = ref_map h
             ∧ ¬ (works ∧ ∃ oid, ref_map h !! ref = Some oid ∧ oid_ok oid = true)) h.
Proof using Laws Hworks.
  intros Href. unfold _resolve_ref. apply wp_bind.
  enough (Hg : wp (repair_git ws [] ["rev-parse"; "--verify"; ref +:+ "^{commit}"] true)
    (λ c h', ref_map h' = ref_map h ∧ is_zero (strip (Git.stdout c)) = false
             ∧ ref_map h !! ref = Some (strip (Git.stdout c)))
    (λ _ h', ref_map h' = ref_map h ∧ ¬ (works ∧ is_Some (ref_map h !! ref))) h).
  { eapply wp_mono; [exact Hg|..]; cbv beta.
    - intros c h' (Hh & Hz & Hv). apply wp_lift_bind; [intros u _|intros e He].
      + by apply wp_ret.
      + split; [done|]. intros (_ & oid & Ho & Hok). rewrite Hv in Ho. injection Ho as <-.
        unfold repair_require_oid, sound_if in He. by rewrite Hok in He.
    - intros e h' [Hh Hn]. split; [done|]. intros (Hw & oid & Ho & _). apply Hn. by split. }
  pose proof (wp_rev_parse ws ref h Href) as Hp. revert Hp.
  unfold wp, repair_git, git_command, mbind, M_bind.
  destruct (run_git _ _ _ h) as [[c| |] h']; cbn; [|by intros [? Hn]; split; [|intros [? _]]..].
  destruct (returncode c =? 0); cbn; [by intros (? & ? & ?)|]. intros [Hh Hn]. split; [done|].
  intros [Hw [oid Ho]]. by rewrite (Hn Hw) in Ho.
Qed.

(** ** The four writing steps *)
Lemma old_none refs ref n : old_matches refs ref (zeros n) ↔ refs !! ref = None.
Proof using. unfold old_matches. by rewrite zeros_zero. Qed.
Lemma old_some refs ref oid : is_zero oid = false → old_matches refs ref oid ↔ refs !! ref = Some oid.
Proof using. unfold old_matches. by intros ->. Qed.
Lemma write_some ref oid refs : is_zero oid = false → write_ref ref oid refs = <[ref := oid]> refs.
Proof using. unfold write_ref. by intros ->. Qed.

Lemma wp_anchor ws s c h : full_ref s → oid_ok c = true →
  wp (_anchor_repair_commit ws s c)
    (λ _ h', is_zero c = false ∧ (ref_map h !! s = None ∨ ref_map h !! s = Some c)
             ∧ ref_map h' = <[s := c]> (ref_map h))
    (λ _ h', (ref_map h' = ref_map h ∨ ref_map h !! s = None ∧ ref_map h' = write_ref s c (ref_map h))
             ∧ ¬ (works ∧ is_zero c = false
                  ∧ (ref_map h !! s = Some c
                     ∨ ref_map h !! s = None ∧ ∃ other, ref_map h !! other = Some c))) h.
Proof using Laws Hworks.
  intros Hs Hc. unfold _anchor_repair_commit. apply wp_bind.
  eapply wp_mono; [by apply wp_resolve_optional|..]; cbv beta.
  2:{ intros e h' [Hh Hn]. split; [by left|]. intros (Hw & _ & Hr). apply Hn. split; [done|].
      intros oid Ho. destruct Hr as [Hr|[Hr _]]; rewrite Hr in Ho; [by injection Ho as <-|done]. }
  intros o h1 (H1 & Hw & Ho). case_bool_decide as Hd.
  { subst o. destruct Ho as [Hz Ho]. apply wp_ret. rewrite H1, insert_id by done. by split_and!; [|right|]. }
  apply wp_lift_bind; [intros _ Hu%check_Ok|intros e He].
  2:{ split; [by left|]. intros (Hwk & _ & Hr). specialize (Hw Hwk). subst o.
      destruct Hr as [Hr|[Hr _]]; [by rewrite Hr in Hd|by rewrite Hr in He]. }
  destruct o as [oid|]; [done|]. clear Hu Ho.
  apply wp_bind. eapply wp_mono.
  { apply (wp_update ws ["-m"; "DevFlow durable integration repair staging"] s c (zeros (str_len c)) h1);
      [right; eauto|done|by apply oid_any|by apply zeros_oid]. }
  all: cbv beta; rewrite H1.
  2:{ intros e h' [Hh Hn]. rewrite old_none in Hh, Hn. split; [naive_solver|].
      intros (Hwk & _ & Hr). apply Hn. specialize (Hw Hwk). split_and!; [done|done|].
      destruct Hr as [Hr|[_ Hr]]; [congruence|done]. }
  intros r h2 H2. destruct (returncode r =? 0).
  - destruct H2 as [Hm H2]. rewrite old_none in Hm. apply wp_lift_bind; [intros _ _|done].
    apply wp_bind. eapply wp_mono; [by apply wp_resolve|..]; cbv beta; rewrite H2.
    + intros landed h3 (H3 & Hz & Hl). unfold write_ref in H3, Hl. destruct (is_zero c) eqn:Ez.
      { by rewrite lookup_delete_eq in Hl. }
      rewrite lookup_insert_eq in Hl. injection Hl as <-. rewrite bool_decide_eq_true_2 by done.
      apply wp_lift. by split_and!; [|left|].
    + intros e h3 [H3 Hn]. split; [by right|]. intros (Hwk & Hz & _). apply Hn. split; [done|].
      exists c. by rewrite write_some, lookup_insert_eq.
  - destruct H2 as [H2 Hn]. apply wp_lift_bind; [done|]. intros e _. split; [by left|].
    intros (Hwk & _ & Hr). apply Hn. specialize (Hw Hwk). rewrite old_none. split_and!; [done|done|].
    destruct Hr as [Hr|[_ Hr]]; [congruence|done].
Qed.

Lemma wp_release ws s c h : full_ref s → oid_ok c = true →
  wp (_release_repair_anchor ws s c)
    (λ _ h', (ref_map h' = ref_map h ∨ ref_map h !! s = Some c ∧ ref_map h' = delete s (ref_map h))
             ∧ (works → ref_map h' = delete s (ref_map h)))
    (λ _ h', (ref_map h' = ref_map h ∨ ref_map h !! s = Some c ∧ ref_map h' = delete s (ref_map h))
             ∧ ¬ (works ∧ (ref_map h !! s = None ∨ ref_map h !! s = Some c))) h.
Proof using Laws Hworks.
  intros Hs Hc. unfold _release_repair_anchor. apply wp_bind.
  eapply wp_mono; [by apply wp_resolve_optional|..]; cbv beta.
  2:{ intros e h' [Hh Hn]. split; [by left|]. intros (Hw & Hr). apply Hn. split; [done|].
      intros oid Ho. destruct Hr as [Hr|Hr]; rewrite Hr in Ho; [done|by injection Ho as <-]. }
  intros [oid|] h1 (H1 & Hw & Ho).
  2:{ apply wp_ret. split; [by left|]. intros Hwk. by rewrite H1, delete_id by (symmetry; by apply Hw). }
  destruct Ho as [Hz Ho]. apply wp_lift_bind; [intros _ Hd%check_Ok|intros e He].
  2:{ split; [by left|]. intros (_ & [Hr|Hr]); [congruence|].
      by rewrite bool_decide_eq_true_2 in He by congruence. }
  apply bool_decide_eq_true in Hd as ->.
  apply wp_bind. eapply wp_mono; [by apply (wp_delete ws s c h1); [|apply oid_any]|..]; cbv beta;
    rewrite H1.
  2:{ intros e h' [Hh Hn]. rewrite (old_some _ s c Hz) in Hh, Hn. split; [naive_solver|].
      intros [Hwk _]. by apply Hn. }
  intros r h2 H2. destruct (returncode r =? 0).
  2:{ destruct H2 as [H2 Hn]. rewrite (old_some _ s c Hz) in Hn. apply wp_lift_bind; [done|]. intros e _. split; [by left|].
      intros [Hwk _]. by apply Hn. }
  destruct H2 as [Hm%(old_some _ _ _ Hz) H2]. apply wp_lift_bind; [intros _ _|done].
  apply wp_bind. eapply wp_mono; [by apply wp_resolve_optional|..]; cbv beta; rewrite H2.
  - intros o h3 (H3 & Hw3 & Ho3). destruct o as [oid|].
    { destruct Ho3 as [_ Ho3]. by rewrite lookup_delete_eq in Ho3. }
    apply wp_lift. split; [by right|]. done.
  - intros e h3 [H3 Hn]. split; [by right|]. intros [Hwk _]. apply Hn. split; [done|].
    intros oid Hoid. by rewrite lookup_delete_eq in Hoid.
Qed.

Lemma wp_advance ws i evidence h : full_ref i → oid_ok (icr_repair_commit evidence) = true →
  oid_ok (icr_integration_head evidence) = true → is_zero (icr_repair_commit evidence) = false →
  let moved refs := ref_map h !! i = Some (icr_integration_head evidence)
                    ∧ refs = <[i := icr_repair_commit evidence]> (ref_map h) in
  wp (_advance_ref ws i evidence)
    (λ _ h', ref_map h' !! i = Some (icr_repair_commit evidence)
             ∧ (ref_map h' = ref_map h ∨ moved (ref_map h')))
    (λ _ h', (ref_map h' = ref_map h ∨ moved (ref_map h'))
             ∧ ¬ (works ∧ (ref_map h !! i = Some (icr_repair_commit evidence)
                  ∨ ref_map h !! i = Some (icr_integration_head evidence)
                    ∧ ∃ other, ref_map h !! other = Some (icr_repair_commit evidence)))) h.
Proof using Laws Hworks.
  intros Hi Hc Hhead Hz moved. unfold _advance_ref. apply wp_bind.
  eapply wp_mono; [by apply wp_resolve|..]; cbv beta.
  2:{ intros e h' [Hh Hn]. split; [by left|]. intros (Hw & Hr). apply Hn. split; [done|].
      destruct Hr as [Hr|[Hr _]]; eauto. }
  intros current h1 (H1 & Hcz & Hcur). case_bool_decide as Hd.
  { apply wp_ret. subst current. split; [by rewrite H1|by left]. }
  apply wp_lift_bind; [intros _ Hd2%check_Ok|intros e He].
  2:{ split; [by left|]. intros (_ & [Hr|[Hr _]]); [congruence|].
      by rewrite bool_decide_eq_true_2 in He by congruence. }
  apply bool_decide_eq_true in Hd2 as ->.
  apply wp_bind. eapply wp_mono.
  { apply (wp_update ws ["-m"; "DevFlow repair " +:+ icr_task_id evidence] i (icr_repair_commit evidence)
      (icr_integration_head evidence) h1); [right; eauto|done|by apply oid_any|by apply oid_any]. }
  all: cbv beta; rewrite H1, (write_some _ _ _ Hz).
  2:{ intros e h' [Hh Hn]. rewrite (old_some _ _ _ Hcz) in Hh, Hn. split; [naive_solver|]. intros (Hwk & [Hr|[_ Hr]]); [congruence|].
      by apply Hn. }
  intros r h2 H2. destruct (returncode r =? 0).
  2:{ destruct H2 as [H2 Hn]. rewrite (old_some _ _ _ Hcz) in Hn. apply wp_lift_bind; [done|]. intros e _. split; [by left|].
      intros (Hwk & [Hr|[_ Hr]]); [congruence|]. by apply Hn. }
  destruct H2 as [Hm%(old_some _ _ _ Hcz) H2]. apply wp_lift_bind; [intros _ _|done].
  apply wp_bind. eapply wp_mono; [by apply wp_resolve|..]; cbv beta; rewrite H2, lookup_insert_eq.
  - intros landed h3 (H3 & _ & [= <-]). rewrite bool_decide_eq_true_2 by done. apply wp_lift.
    rewrite H3, lookup_insert_eq. split; [done|by right].
  - intros e h3 [H3 Hn]. split; [by right|]. intros [Hwk _]. apply Hn. split; [done|]. eauto.
Qed.

(** One pair of live and archive refs for the object [x]. *)
Definition archived (l a x : string) (refs refs' : ref_table) : Prop :=
  refs' = refs ∨ refs !! a = None ∧ refs' = <[a := x]> refs
  ∨ refs !! l = Some x ∧ (refs !! a = None ∨ refs !! a = Some x) ∧ refs' = delete l (<[a := x]> refs).
Definition archivable (l a x : string) (refs : ref_table) : Prop :=
  (refs !! l = Some x ∨ refs !! l = None ∧ refs !! a = Some x)
  ∧ (refs !! a = None ∨ refs !! a = Some x).
Lemma wp_archive ws l a x h : full_ref l → full_ref a → l ≠ a → oid_ok x = true → is_zero x = false →
  wp (archive_ref ws l x a)
    (λ _ h', archived l a x (ref_map h) (ref_map h')
             ∧ (works → ref_map h' = delete l (<[a := x]> (ref_map h))))
    (λ _ h', archived l a x (ref_map h) (ref_map h') ∧ ¬ (works ∧ archivable l a x (ref_map h))) h.
Proof using Laws Hworks.
  intros Hl Ha Hne Hx Hz. unfold archive_ref. apply wp_bind.
  eapply wp_mono; [by apply wp_resolve_optional|..]; cbv beta.
  2:{ intros e h' [Hh Hn]. split; [by left|]. intros (Hw & [[Hr|[Hr _]] _]); apply Hn; split; [done| |done|];
      intros oid Ho; rewrite Hr in Ho; [by injection Ho as <-|done]. }
  intros live h1 (H1 & Hwl & Hlive). apply wp_bind.
  eapply wp_mono; [by apply wp_resolve_optional|..]; cbv beta; rewrite H1.
  2:{ intros e h' [Hh Hn]. split; [by left|]. intros (Hw & [_ [Hr|Hr]]); apply Hn; split; [done| |done|];
      intros oid Ho; rewrite Hr in Ho; [done|by injection Ho as <-]. }
  intros archive h2 (H2 & Hwa & Harch).
  apply wp_lift_bind; [intros _ Hd%check_Ok|intros e He].
  2:{ split; [by left|]. intros (Hw & [_ Hr]). rewrite <- (Hwa Hw) in Hr.
      destruct Hr as [-> | ->]; [done|]. by rewrite bool_decide_eq_true_2 in He. }
  apply wp_bind. eapply (wp_mono _ (λ _ h', (ref_map h !! a = None ∨ ref_map h !! a = Some x)
    ∧ ref_map h' = <[a := x]> (ref_map h)) _
    (λ _ h', archived l a x (ref_map h) (ref_map h') ∧ ¬ (works ∧ archivable l a x (ref_map h)))).
  { destruct archive as [oid|].
    { apply bool_decide_eq_true in Hd as ->. destruct Harch as [_ Harch]. apply wp_ret.
      split; [by right|]. by rewrite H2, insert_id. }
    apply wp_bind. eapply wp_mono; [by apply (wp_update ws [] a x (zeros (str_len x)) h2);
      [left|..|apply oid_any|apply zeros_oid]|..]; cbv beta; rewrite H2, (write_some _ _ _ Hz).
    - intros r h3 H3. destruct (returncode r =? 0).
      + destruct H3 as [Hm%old_none H3]. apply wp_lift. by split; [left|].
      + destruct H3 as [H3 Hn]. rewrite old_none in Hn. apply wp_lift. split; [by left|].
        intros (Hw & [Hr _]). apply Hn. split_and!; [done|by rewrite (Hwa Hw)|].
        destruct Hr as [Hr|[_ Hr]]; eauto.
    - intros e h3 [H3 Hn]. rewrite old_none in H3, Hn. split; [|intros (Hw & [Hr _]); apply Hn].
      + destruct H3 as [H3|[Hm H3]]; [by left|by right; left].
      + split_and!; [done|by rewrite (Hwa Hw)|]. destruct Hr as [Hr|[_ Hr]]; eauto. }
  2: done.
  intros _ h3 [Hm H3]. destruct live as [oid|].
  2:{ apply wp_ret. split.
      - destruct Hm as [Hm|Hm]; [by right; left|]. left. by rewrite H3, insert_id.
      - intros Hw. rewrite H3, delete_id; [done|]. rewrite lookup_insert_ne by done. by rewrite (Hwl Hw). }
  destruct Hlive as [Hlz Hlive].
  assert (Hstep : archived l a x (ref_map h) (ref_map h3)).
  { destruct Hm as [Hm|Hm]; [by right; left|]. left. by rewrite H3, insert_id. }
  apply wp_lift_bind; [intros _ Hd2%check_Ok|intros e He].
  2:{ split; [done|]. intros (_ & [[Hr|[Hr _]] _]); [|congruence].
      by rewrite bool_decide_eq_true_2 in He by congruence. }
  apply bool_decide_eq_true in Hd2 as ->.
  assert (Hrel : ref_map h3 !! l = Some x) by (rewrite H3, lookup_insert_ne; done).
  apply wp_bind. eapply wp_mono; [by apply (wp_delete ws l x h3); [|apply oid_any]|..]; cbv beta.
  - intros r h4 H4. destruct (returncode r =? 0).
    + destruct H4 as [_ H4]. rewrite H3 in H4. apply wp_lift. split; [by right; right|done].
    + destruct H4 as [H4 Hn]. rewrite (old_some _ _ _ Hz) in Hn. apply wp_lift. rewrite H4.
      split; [done|]. intros [Hw _]. by apply Hn.
  - intros e h4 [H4 Hn]. rewrite (old_some _ _ _ Hz) in H4, Hn. split; [|intros [Hw _]; by apply Hn].
    destruct H4 as [-> |[_ H4]]; [done|]. rewrite H3 in H4. by right; right.
Qed.

(** ** The steps in order *)
Section finish.
Context (s i cl ca dl da head_oid repair_oid ce de : string).
Notation names := [s; i; cl; ca; dl; da].
Context (Hnames : NoDup names) (Hfull : Forall full_ref names).

(** What a repair may do to one pair of refs of the gate: archive before it
    releases, and release only when the integration ref has moved. *)
Definition pair_progress (l a x : string) (refs refs' : ref_table) : Prop :=
  (refs' !! a = refs !! a ∨ refs !! a = None ∧ refs' !! a = Some x)
  ∧ (refs' !! l = refs !! l
     ∨ refs !! l = Some x ∧ refs' !! l = None ∧ refs' !! a = Some x ∧ refs' !! i = Some repair_oid).
Definition progress (refs refs' : ref_table) : Prop :=
  (∀ ref, ref ∉ names → refs' !! ref = refs !! ref)
  ∧ (refs' !! i = refs !! i ∨ refs !! i = Some head_oid ∧ refs' !! i = Some repair_oid)
  ∧ pair_progress cl ca ce refs refs' ∧ pair_progress dl da de refs refs'
  ∧ (refs' !! s = refs !! s ∨ refs' !! s = Some repair_oid
     ∨ refs' !! s = None ∧ refs' !! i = Some repair_oid).
(** Where a repair whose evidence is recorded can be found. *)
Definition resumable (refs : ref_table) : Prop :=
  (refs !! i = Some head_oid ∧ refs !! s = Some repair_oid
   ∨ refs !! i = Some repair_oid ∧ (refs !! s = None ∨ refs !! s = Some repair_oid))
  ∧ archivable cl ca ce refs ∧ archivable dl da de refs.
Definition settled (refs : ref_table) : ref_table :=
  delete s (delete dl (<[da := de]> (delete cl (<[ca := ce]> (<[i := repair_oid]> refs))))).

Lemma names_distinct : s ≠ i ∧ s ≠ cl ∧ s ≠ ca ∧ s ≠ dl ∧ s ≠ da ∧ i ≠ cl ∧ i ≠ ca ∧ i ≠ dl ∧ i ≠ da
  ∧ cl ≠ ca ∧ cl ≠ dl ∧ cl ≠ da ∧ ca ≠ dl ∧ ca ≠ da ∧ dl ≠ da.
Proof using Hnames.
  rewrite !NoDup_cons, !not_elem_of_cons in Hnames. naive_solver.
Qed.
Ltac distinct := destruct names_distinct as (?&?&?&?&?&?&?&?&?&?&?&?&?&?&?).
Ltac outside := intros ref Href; rewrite !not_elem_of_cons in Href; destruct Href as (?&?&?&?&?&?&_).

Ltac inside Ho := apply Ho; rewrite !not_elem_of_cons; split_and!; solve [done|apply not_elem_of_nil].

Lemma pair_frame l a x refs refs1 refs2 : pair_progress l a x refs refs1 →
  refs2 !! l = refs1 !! l → refs2 !! a = refs1 !! a →
  refs2 !! i = refs1 !! i ∨ refs2 !! i = Some repair_oid →
  pair_progress l a x refs refs2.
Proof using.
  intros [Ha Hl] El Ea Hi. unfold pair_progress. rewrite El, Ea. split; [done|].
  destruct Hl as [Hl|(? & ? & ? & Hr)]; [by left|right]. split_and!; [done..|].
  destruct Hi as [-> |Hi]; done.
Qed.
Lemma progress_refl refs : progress refs refs.
Proof using. unfold progress, pair_progress. split_and!; auto. Qed.
Lemma progress_anchor refs refs1 : progress refs refs1 →
  progress refs (<[s := repair_oid]> refs1).
Proof using Hnames.
  distinct. intros (Ho & Hi & [Hc1 Hc2] & [Hd1 Hd2] & Hs). unfold progress, pair_progress.
  rewrite lookup_insert_eq, !(lookup_insert_ne _ s) by done. split_and!; auto.
  outside. rewrite lookup_insert_ne by done. inside Ho.
Qed.
Lemma progress_advance refs refs1 : progress refs refs1 → refs1 !! i = Some head_oid →
  progress refs (<[i := repair_oid]> refs1).
Proof using Hnames.
  intros (Ho & Hi & Hc & Hd & Hs) H1. distinct. unfold progress.
  split_and!.
  - outside. rewrite lookup_insert_ne by done. inside Ho.
  - right. rewrite lookup_insert_eq. destruct Hi as [Hi|[Hi _]]; split; congruence.
  - eapply pair_frame; [exact Hc|by rewrite lookup_insert_ne..|right; apply lookup_insert_eq].
  - eapply pair_frame; [exact Hd|by rewrite lookup_insert_ne..|right; apply lookup_insert_eq].
  - rewrite lookup_insert_eq, lookup_insert_ne by done. destruct Hs as [Hs|[Hs|[Hs _]]]; auto.
Qed.
Lemma archived_frame l a x refs refs' ref : archived l a x refs refs' → ref ≠ l → ref ≠ a →
  refs' !! ref = refs !! ref.
Proof using. intros [->|[[_ ->]|(_ & _ & ->)]] Hl Ha; by rewrite ?lookup_delete_ne, ?lookup_insert_ne. Qed.
Lemma pair_archived l a x refs refs1 refs2 : l ≠ a → i ≠ l → i ≠ a → refs1 !! i = Some repair_oid →
  pair_progress l a x refs refs1 → archived l a x refs1 refs2 → pair_progress l a x refs refs2.
Proof using.
  intros Hla Hil Hia Hi [Ha Hl] [->|[[Hn ->]|(Hs & Hn & ->)]]; [by split|..]; unfold pair_progress;
    rewrite ?lookup_delete_eq, ?(lookup_delete_ne _ l), lookup_insert_eq, !(lookup_insert_ne _ a) by done.
  - split.
    + right. destruct Ha as [Ha|[_ Ha]]; [by rewrite <- Ha|congruence].
    + destruct Hl as [Hl|(_ & _ & Hl & _)]; [by left|congruence].
  - split.
    + destruct Ha as [Ha|[Ha _]]; [|by right]. rewrite Ha in Hn. destruct Hn as [Hn|Hn]; [by right|by left].
    + right. destruct Hl as [Hl|(_ & Hl & _)]; [|congruence]. by rewrite <- Hl.
Qed.
Lemma progress_archive refs refs1 refs2 l a x :
  (l, a, x) = (cl, ca, ce) ∨ (l, a, x) = (dl, da, de) →
  progress refs refs1 → refs1 !! i = Some repair_oid → archived l a x refs1 refs2 →
  progress refs refs2 ∧ refs2 !! i = Some repair_oid.
Proof using Hnames.
  intros Hpair (Ho & Hi & Hc & Hd & Hs) H1 Ha.
  assert (Hne : i ≠ l ∧ i ≠ a ∧ s ≠ l ∧ s ≠ a ∧ ∀ ref, ref ∉ names → ref ≠ l ∧ ref ≠ a).
  { distinct. destruct Hpair as [[= -> -> ->]|[= -> -> ->]]; (split_and!; [done..|]); by outside. }
  destruct Hne as (Hil & Hia & Hsl & Hsa & Hout).
  pose proof (λ ref, archived_frame l a x refs1 refs2 ref Ha) as Hf.
  assert (Hi2 : refs2 !! i = Some repair_oid) by (by rewrite Hf).
  split; [|done]. unfold progress. split_and!.
  - intros ref Href. rewrite Hf by (by apply Hout). by apply Ho.
  - rewrite (eq_trans Hi2 (eq_sym H1)). exact Hi.
  - distinct. destruct Hpair as [[= -> -> ->]|[= -> -> ->]];
      [by apply (pair_archived cl ca ce refs refs1 refs2)|].
    eapply pair_frame; [exact Hc|by apply Hf..|left; by apply Hf].
  - distinct. destruct Hpair as [[= -> -> ->]|[= -> -> ->]];
      [|by apply (pair_archived dl da de refs refs1 refs2)].
    eapply pair_frame; [exact Hd|by apply Hf..|left; by apply Hf].
  - rewrite (Hf s), (eq_trans Hi2 (eq_sym H1)) by done. exact Hs.
Qed.
Lemma progress_release refs refs1 : progress refs refs1 → refs1 !! i = Some repair_oid →
  progress refs (delete s refs1).
Proof using Hnames.
  intros (Ho & Hi & Hc & Hd & Hs) H1. distinct. unfold progress.
  split_and!.
  - outside. rewrite lookup_delete_ne by done. inside Ho.
  - by rewrite lookup_delete_ne.
  - eapply pair_frame; [exact Hc|by rewrite lookup_delete_ne..|left; by rewrite lookup_delete_ne].
  - eapply pair_frame; [exact Hd|by rewrite lookup_delete_ne..|left; by rewrite lookup_delete_ne].
  - right; right. by rewrite lookup_delete_eq, lookup_delete_ne.
Qed.

Lemma archivable_frame l a x refs refs' : archivable l a x refs →
  refs' !! l = refs !! l → refs' !! a = refs !! a → archivable l a x refs'.
Proof using. unfold archivable. by intros ? -> ->. Qed.
Lemma settled_staging c refs : settled (<[s := c]> refs) = settled refs.
Proof using Hnames.
  distinct. unfold settled. rewrite !(delete_delete _ s dl), !(delete_insert_ne _ s da) by done.
  rewrite !(delete_delete _ s cl), !(delete_insert_ne _ s ca), !(delete_insert_ne _ s i) by done.
  by rewrite delete_insert_eq.
Qed.
Lemma resumable_anchored refs : resumable refs → resumable (<[s := repair_oid]> refs).
Proof using Hnames.
  distinct. intros (Hs & Hc & Hd). unfold resumable. rewrite lookup_insert_eq, lookup_insert_ne by done.
  split_and!.
  - destruct Hs as [[Hi _]|[Hi _]]; auto.
  - eapply archivable_frame; [exact Hc|by rewrite lookup_insert_ne..].
  - eapply archivable_frame; [exact Hd|by rewrite lookup_insert_ne..].
Qed.
(** The steps of [finish_repair] on the machine. *)
Lemma wp_finish_steps ws evidence base h : icr_integration_head evidence = head_oid →
  icr_repair_commit evidence = repair_oid →
  oid_ok head_oid = true → oid_ok repair_oid = true → oid_ok ce = true → oid_ok de = true →
  is_zero repair_oid = false → is_zero ce = false → is_zero de = false →
  progress base (ref_map h) →
  wp (_advance_ref ws i evidence ;;
      (archive_ref ws cl ce ca ;; archive_ref ws dl de da) ;;
      _release_repair_anchor ws s repair_oid ;;
      mret evidence)
    (λ r h', r = evidence ∧ progress base (ref_map h') ∧ ref_map h' !! i = Some repair_oid
             ∧ (works → ref_map h' = settled (ref_map h)))
    (λ _ h', progress base (ref_map h') ∧ ¬ (works ∧ resumable (ref_map h))) h.
Proof using Laws Hworks Hnames Hfull.
  intros Ehead Erep Hhead Hrep Hce Hde Zrep Zce Zde P0. distinct.
  rewrite !Forall_cons in Hfull. destruct Hfull as (Fs & Fi & Fcl & Fca & Fdl & Fda & _).
  apply wp_bind. eapply wp_mono.
  { apply wp_advance; by rewrite ?Erep, ?Ehead. }
  all: cbv beta; rewrite Erep, Ehead.
  2:{ intros e h1 [Hm Hn]. split.
      - destruct Hm as [-> |[Hh ->]]; [done|by apply progress_advance].
      - intros (Hw & Hr & _). apply Hn. split; [done|]. destruct Hr as [[Hr Hs]|[Hr _]]; eauto. }
  intros _ h1 [Hi1 Hm]. assert (P1 : progress base (ref_map h1)).
  { destruct Hm as [-> |[Hh ->]]; [done|by apply progress_advance]. }
  assert (E1 : ref_map h1 = <[i := repair_oid]> (ref_map h)).
  { destruct Hm as [Hm|[_ Hm]]; [|done]. rewrite Hm in *. by rewrite insert_id. }
  clear Hm. apply wp_bind, wp_bind.
  eapply wp_mono; [by apply wp_archive|..]; cbv beta.
  2:{ intros e h2 [Ha Hn]. split; [by apply (progress_archive _ _ _ cl ca ce (or_introl eq_refl) P1 Hi1 Ha)|].
      intros (Hw & _ & Hc & _). apply Hn. split; [done|].
      eapply archivable_frame; [exact Hc|by rewrite E1, lookup_insert_ne..]. }
  intros _ h2 [Ha2 Hw2].
  destruct (progress_archive _ _ _ cl ca ce (or_introl eq_refl) P1 Hi1 Ha2) as [P2 Hi2].
  eapply wp_mono; [by apply wp_archive|..]; cbv beta.
  2:{ intros e h3 [Ha Hn]. split; [by apply (progress_archive _ _ _ dl da de (or_intror eq_refl) P2 Hi2 Ha)|].
      intros (Hw & _ & _ & Hd). apply Hn. split; [done|].
      eapply archivable_frame; [exact Hd|rewrite (Hw2 Hw), E1..];
        by rewrite lookup_delete_ne, !lookup_insert_ne. }
  intros _ h3 [Ha3 Hw3].
  destruct (progress_archive _ _ _ dl da de (or_intror eq_refl) P2 Hi2 Ha3) as [P3 Hi3].
  apply wp_bind. eapply wp_mono; [by apply wp_release|..]; cbv beta.
  - intros _ h4 [Hr Hw4]. apply wp_ret. split_and!; [done|..].
    + destruct Hr as [-> |[_ ->]]; [done|by apply progress_release].
    + destruct Hr as [-> |[_ ->]]; [done|by rewrite lookup_delete_ne].
    + intros Hw. unfold settled. by rewrite (Hw4 Hw), (Hw3 Hw), (Hw2 Hw), E1.
  - intros e h4 [Hr Hn]. split.
    + destruct Hr as [-> |[_ ->]]; [done|by apply progress_release].
    + intros (Hw & Hs & _). apply Hn. split; [done|].
      rewrite (Hw3 Hw), (Hw2 Hw), E1, lookup_delete_ne, lookup_insert_ne, lookup_delete_ne, !lookup_insert_ne by done.
      destruct Hs as [[_ Hs]|[_ [Hs|Hs]]]; auto.
Qed.
End finish.
End git.

(** ** The whole repair *)

(** The names of a gate: all derive from one integration id. *)
Record authorized (gate : IntegrationGateSnapshot) (queue : MergeQueueSnapshot)
    (decision : HumanIntegrationDecision) (id : string) : Prop := {
  au_decision : igs_human_decision gate = Some decision;
  au_ref : igs_integration_ref gate = _INTEGRATION_PREFIX +:+ id;
  au_queue : mqs_integration_ref queue = _INTEGRATION_PREFIX +:+ id;
  au_conflict : igs_conflict_ref gate = _CONFLICT_PREFIX +:+ id;
  au_decision_ref : hid_decision_ref decision = _DECISION_PREFIX +:+ id;
  au_id : id ≠ "";
  au_id_chars : forallb ref_char (chars id) = true;
  au_marker : oid_ok (igs_conflict_marker_commit gate) = true;
  au_decision_commit : oid_ok (hid_decision_commit decision) = true;
  au_marker_real : is_zero (igs_conflict_marker_commit gate) = false;
  au_decision_real : is_zero (hid_decision_commit decision) = false;
}.
Section names.
Context (run_id : UUID) (gate : IntegrationGateSnapshot) (queue : MergeQueueSnapshot)
  (decision : HumanIntegrationDecision) (id : string).
Definition staging : string := _repair_staging_ref run_id gate.
Definition conflict_history : string := conflict_archive id (igs_conflict_marker_commit gate).
Definition decision_history : string := decision_archive id (igs_conflict_marker_commit gate).
Definition repair_names : list string :=
  [staging; mqs_integration_ref queue; igs_conflict_ref gate; conflict_history;
   hid_decision_ref decision; decision_history].
(** The relations of the section above at these names. *)
Definition repair_progress (e : IntegrationConflictRepairEvidence) : ref_table → ref_table → Prop :=
  progress staging (mqs_integration_ref queue) (igs_conflict_ref gate) conflict_history
    (hid_decision_ref decision) decision_history (icr_integration_head e) (icr_repair_commit e)
    (igs_conflict_marker_commit gate) (hid_decision_commit decision).
Definition repair_resumable (e : IntegrationConflictRepairEvidence) : ref_table → Prop :=
  resumable staging (mqs_integration_ref queue) (igs_conflict_ref gate) conflict_history
    (hid_decision_ref decision) decision_history (icr_integration_head e) (icr_repair_commit e)
    (igs_conflict_marker_commit gate) (hid_decision_commit decision).
Definition repair_settled (e : IntegrationConflictRepairEvidence) : ref_table → ref_table :=
  settled staging (mqs_integration_ref queue) (igs_conflict_ref gate) conflict_history
    (hid_decision_ref decision) decision_history (icr_repair_commit e)
    (igs_conflict_marker_commit gate) (hid_decision_commit decision).
Context (Hau : authorized gate queue decision id).

Lemma full_ref_prefix p s : str_startswith "refs/" p && forallb ref_char (chars p) = true →
  forallb ref_char (chars s) = true → full_ref (p +:+ s).
Proof using.
  intros [Hp Hc]%andb_true_iff Hs. unfold str_startswith in Hp.
  apply startswith_prefix in Hp as (k & Hk). split.
  - apply startswith_prefix. exists (k ++ chars s). by rewrite chars_app, Hk, <- app_assoc.
  - by rewrite chars_app, forallb_app, Hc, Hs.
Qed.
Lemma prefix_ne p q a b : differ (chars p) (chars q) = true → p +:+ a ≠ q +:+ b.
Proof using.
  intros Hd He. pose proof (differ_startswith _ _ (chars b) Hd) as Hs.
  by rewrite <- chars_app, <- He, chars_app, startswith_app in Hs.
Qed.
Lemma hex_digit_plain n : (n < 16)%N → ref_char (hex_digit n) = true.
Proof using.
  intros Hn. assert (Hin : n ∈ (N.of_nat <$> seq 0 16)).
  { apply list_elem_of_fmap. exists (N.to_nat n). rewrite elem_of_seq. lia. }
  assert (Hall : forallb (λ n, ref_char (hex_digit n)) (N.of_nat <$> seq 0 16) = true)
    by (vm_compute; reflexivity).
  rewrite forallb_forall in Hall. by apply Hall, list_elem_of_In.
Qed.
Lemma uuid_plain u : forallb ref_char (chars (uuid_hex u)) = true.
Proof using.
  unfold uuid_hex. rewrite chars_of_chars. generalize 32%nat as k. intros k. revert u.
  induction k as [|k IH]; intros u; [done|].
  cbn [hex_digits]. rewrite forallb_app, IH. cbn [forallb andb].
  by rewrite hex_digit_plain by (apply N.mod_lt; lia).
Qed.
Lemma oid_ref_char oid : oid_ok oid = true → forallb ref_char (chars oid) = true.
Proof using.
  unfold oid_ok, hex_string. intros [_ Ho]%andb_true_iff. apply forallb_forall. rewrite forallb_forall in Ho.
  intros c Hc%Ho. enough (Ha : is_alnum c = true) by (unfold ref_char, is_slug_char; by rewrite Ha).
  unfold is_lower_hex, is_alnum in *. cbv zeta in *.
  rewrite ?orb_true_iff, ?andb_true_iff, ?Nat.leb_le in *. lia.
Qed.
Lemma id_plain : forallb ref_char (chars id) = true.
Proof using Hau. apply Hau. Qed.
Lemma marker_plain : forallb ref_char (chars (igs_conflict_marker_commit gate)) = true.
Proof using Hau. apply oid_ref_char, Hau. Qed.
Lemma history_plain : forallb ref_char (chars (id +:+ "/" +:+ igs_conflict_marker_commit gate)) = true.
Proof using Hau. by rewrite !chars_app, !forallb_app, id_plain, marker_plain. Qed.
Lemma names_full : Forall full_ref repair_names.
Proof using Hau.
  unfold repair_names, staging, conflict_history, decision_history, _repair_staging_ref, conflict_archive,
    decision_archive.
  rewrite (au_queue _ _ _ _ Hau), (au_conflict _ _ _ _ Hau), (au_decision_ref _ _ _ _ Hau).
  pose proof id_plain. pose proof history_plain.
  repeat (apply Forall_cons; split; [apply full_ref_prefix; [vm_compute; reflexivity|]|]); try done.
  by rewrite !chars_app, !forallb_app, uuid_plain, marker_plain.
Qed.
Lemma names_nodup : NoDup repair_names.
Proof using Hau.
  unfold repair_names, staging, conflict_history, decision_history, _repair_staging_ref, conflict_archive,
    decision_archive.
  rewrite (au_queue _ _ _ _ Hau), (au_conflict _ _ _ _ Hau), (au_decision_ref _ _ _ _ Hau).
  repeat (apply NoDup_cons; split; [rewrite ?not_elem_of_cons; split_and?;
    first [apply prefix_ne; vm_compute; reflexivity|apply not_elem_of_nil]|]).
  apply NoDup_nil_2.
Qed.
End names.

(** What the service relies on.  Its collaborators leave the refs alone: the
    Developer agent has no tool that reaches [.git], the verifier is taken to
    run commands that move no ref.  The ledger keeps what it has accepted and
    accepts nothing else. *)
Class CollaboratorLaws `{Files, !Refs} {L : Type} (self : Collaborators L) : Prop := {
  make_dirs_refs p h : ref_map (make_dirs p h).2 = ref_map h;
  resolve_refs p h : ref_map (resolve_workspace self p h).2 = ref_map h;
  developer_refs task ws h : ref_map (developer_run self task ws h).2 = ref_map h;
  verify_refs task ws h : ref_map (verify self task ws h).2 = ref_map h;
  suffix_refs h : ref_map (fresh_suffix self h).2 = ref_map h;
  remove_refs p h : ref_map (remove_tree self p h).2 = ref_map h;
}.
Class LedgerLaws `{Machine} {L : Type} (read_repair : JSON → result IntegrationConflictRepairEvidence)
    (self : Collaborators L) (recorded : L → list IntegrationConflictRepairEvidence) : Prop := {
  record_keeps e l : recorded l ⊆ recorded (record_integration_repair self e l).2;
  record_adds e l : is_ok (record_integration_repair self e l).1 = true →
    e ∈ recorded (record_integration_repair self e l).2;
  record_only e l e' : e' ∈ recorded (record_integration_repair self e l).2 → e' ∈ recorded l ∨ e' = e;
  load_recorded run_id l snapshot gate e : load_run self run_id l = Ok snapshot →
    _existing_repair read_repair snapshot gate = Ok (Some e) → e ∈ recorded l;
}.

Lemma repair_new_inv raw e : IntegrationConflictRepairEvidence_new raw = Ok e →
  raw = e ∧ oid_ok (icr_integration_head e) = true ∧ oid_ok (icr_repair_commit e) = true
  ∧ vr_passed (icr_verification e) = true.
Proof.
  unfold IntegrationConflictRepairEvidence_new, validate_repair_evidence, valid_if. intros H. inv_monad.
  done.
Qed.
Lemma existing_inv read_repair snapshot gate e : _existing_repair read_repair snapshot gate = Ok (Some e) →
  (∃ item raw, item ∈ prs_evidence snapshot ∧ pe_kind item = INTEGRATION_REPAIR
     ∧ read_repair (pe_payload item) = Ok raw ∧ IntegrationConflictRepairEvidence_new raw = Ok e)
  ∧ icr_task_id e = igs_task_id gate
  ∧ icr_conflict_evidence_fingerprint e = igs_evidence_fingerprint gate.
Proof.
  unfold _existing_repair. intros (decoded & Hd & H)%bind_Ok_inv.
  assert (Hin : e ∈ filter (λ e, icr_task_id e = igs_task_id gate
    ∧ icr_conflict_evidence_fingerprint e = igs_evidence_fingerprint gate) decoded).
  { destruct (filter _ _) as [|x [|]]; [done| |done]. injection H as ->. by left. }
  apply list_elem_of_filter in Hin as [Hf Hin]. split; [|done].
  apply map_result_Ok in Hd. apply list_elem_of_lookup in Hin as [k Hk].
  eapply Forall2_lookup_r in Hd as (item & Hitem & Hi); [|exact Hk].
  apply list_elem_of_lookup_2, list_elem_of_filter in Hitem as [Hkind Hitem].
  apply bind_Ok_inv in Hi as (raw & Hr & Hi). exists item, raw. by split_and!.
Qed.

