(* ===== verification/ToyRepair.v ===== *)
(** * ToyRepair: a small site to run a repair on

    The repository of [ToyGit] with a linked worktree in which a merge
    conflicts, a ledger that keeps evidence, and collaborators that resolve
    the conflict of [ToyGate]: they satisfy the laws of [RepairRefs].  A flaky
    site loses the answer of the update that advances the integration ref. *)
From stdpp Require Import options.
From S2P Require Import Prelude Contracts RunModels Lease Json Recovery Merge Git Worktree Tools MergeQueue RepairQueue ToyGit QueueExample Conflict Classifier HumanGate ToyGate ToolsFacts IntegrationRepair RepairRefs.
Open Scope Z_scope.

Record toy_site : Set := { st_repo : toy_repo; st_tree : bool; st_unmerged : bool }.
Definition with_repo (repo : toy_repo) (h : toy_site) : toy_site :=
  {| st_repo := repo; st_tree := st_tree h; st_unmerged := st_unmerged h |}.
Definition with_tree (b : bool) (h : toy_site) : toy_site :=
  {| st_repo := st_repo h; st_tree := b; st_unmerged := st_unmerged h |}.
Definition with_unmerged (b : bool) (h : toy_site) : toy_site :=
  {| st_repo := st_repo h; st_tree := st_tree h; st_unmerged := b |}.
Definition site_answer (code : Z) (out : string) (h : toy_site) : process_result * toy_site :=
  (Finished {| returncode := code; stdout := out; stderr := "" |}, h).
Definition on_repo (f : toy_repo → process_result * toy_repo) (h : toy_site)
    : process_result * toy_site :=
  let '(r, repo) := f (st_repo h) in (r, with_repo repo h).

(** Refs are numbers of commits; an object id is known when a commit or a ref
    has it. *)
Definition known_oid (repo : toy_repo) (oid : string) : option nat :=
  head (List.filter (λ k, bool_decide (commit_oid k = oid))
    ((map_to_list (tr_refs repo)).*2 ++ seq 0 (length (tr_commits repo)))).
Definition all_zero (oid : string) : bool := forallb (λ c, bool_decide (c = "0"%char)) (chars oid).
Definition current_matches (repo : toy_repo) (ref old : string) : bool :=
  match tr_refs repo !! ref with
  | Some k => bool_decide (commit_oid k = old)
  | None => all_zero old
  end.
Definition drop_ref (ref : string) (repo : toy_repo) : toy_repo :=
  {| tr_trees := tr_trees repo; tr_commits := tr_commits repo; tr_refs := delete ref (tr_refs repo) |}.
Definition site_update (ref new old : string) (h : toy_site) : process_result * toy_site :=
  match known_oid (st_repo h) new with
  | Some k =>
      if current_matches (st_repo h) ref old
      then site_answer 0 "" (with_repo (set_ref ref k (st_repo h)) h) else site_answer 128 "" h
  | None => site_answer 128 "" h
  end.
Definition site_delete (ref old : string) (h : toy_site) : process_result * toy_site :=
  if current_matches (st_repo h) ref old
  then site_answer 0 "" (with_repo (drop_ref ref (st_repo h)) h) else site_answer 128 "" h.
Definition update_command (flaky : bool) (rest : list string) (h : toy_site)
    : process_result * toy_site :=
  match rest with
  | [flag; ref; old] =>
      if bool_decide (flag = "-d") then site_delete ref old h else site_update flag ref old h
  | [flag; text; ref; new; old] =>
      if bool_decide (flag = "-m") then
        if flaky && str_startswith "DevFlow repair" text then (TimeoutExpired, h)
        else site_update ref new old h
      else site_answer 128 "" h
  | _ => site_answer 128 "" h
  end.
Definition spec_ref (spec : string) : string :=
  of_chars (take (str_len spec - str_len "^{commit}") (chars spec)).
Definition site_rev_parse (spec : string) (h : toy_site) : process_result * toy_site :=
  match tr_refs (st_repo h) !! spec_ref spec with
  | Some k => site_answer 0 (commit_oid k +:+ line_feed) h
  | None => site_answer 128 "" h
  end.
Definition site_show (format commit : string) (h : toy_site) : process_result * toy_site :=
  match known_oid (st_repo h) commit ≫= λ k, tr_commits (st_repo h) !! k with
  | Some c =>
      site_answer 0 ((if bool_decide (format = "--format=%P")
                      then join " " (commit_oid <$> tc_parents c) else tc_message c) +:+ line_feed) h
  | None => site_answer 128 "" h
  end.
Definition resolved_tree : toy_tree := <["src/y.py" := "a"]> {["src/x.py" := "resolved"]}.
Definition conflict_file : string := "src/x.py" +:+ of_chars [nul].
Definition site_git (flaky : bool) (root : string) (args : list string) (h : toy_site)
    : process_result * toy_site :=
  let named c := bool_decide (head args = Some c) in
  let in_worktree := negb (bool_decide (root = "/repo")) in
  if named "update-ref" then update_command flaky (tail args) h
  else if named "rev-parse" then
    if bool_decide (args !! 1%nat = Some "--is-inside-work-tree") then site_answer 0 "true" h
    else if bool_decide (args !! 1%nat = Some "--show-toplevel") then site_answer 0 root h
    else if bool_decide (args !! 2%nat = Some "HEAD") then site_answer 0 (commit_oid 0) h
    else site_rev_parse (List.last args "") h
  else if named "show" then site_show (default "" (args !! 2%nat)) (List.last args "") h
  else if named "diff" then
    if bool_decide (args !! 2%nat = Some "--diff-filter=U")
    then site_answer 0 (if st_unmerged h then conflict_file else "") h
    else site_answer 0 (if in_worktree then conflict_file else "") h
  else if named "ls-files" then site_answer 0 "" h
  else if named "worktree" then
    site_answer 0 "" (with_tree (bool_decide (args !! 1%nat = Some "add")) h)
  else if named "merge" then site_answer 1 "" (with_unmerged true h)
  else if named "add" then site_answer 0 "" (with_unmerged false h)
  else if named "write-tree" then
    on_repo (λ repo, let '(k, repo) := add_tree resolved_tree repo in print (tree_oid k) repo) h
  else if named "commit-tree" then
    on_repo (commit_tree (default "" (args !! 1%nat)) (drop 2 args)) h
  else site_answer 128 "" h.
#[export] Instance site_machine (flaky : bool) : Machine := {|
  Host := toy_site;
  run_git root _ args h := site_git flaky root args h;
  path_resolve _ p := p;
  path_is_symlink _ _ := false;
  path_exists h p := if str_startswith "/repairs" p then st_tree h else true;
  path_is_dir _ _ := true;
|}.
#[export] Instance site_files flaky : @Files (site_machine flaky) :=
  @Build_Files (site_machine flaky) (λ _ _, true) (λ _ _, []) (λ _ _, Ok 0)
    (λ _ _, Ok (Some "resolved")) (λ _, mret tt) (λ _ _, mret tt).
#[export] Instance site_refs flaky : @Refs (site_machine flaky) := {|
  ref_map (h : @Host (site_machine flaky)) := commit_oid <$> tr_refs (st_repo h) |}.

(** ** The laws *)
Lemma commit_oid_real k : is_zero (commit_oid k) = false.
Proof. done. Qed.
Lemma digit_not_space n : (0 <= n < 10) → is_py_space (digit n) = false.
Proof.
  intros Hn. assert (Hin : n ∈ (Z.of_nat <$> seq 0 10)).
  { apply list_elem_of_fmap. exists (Z.to_nat n). rewrite elem_of_seq. lia. }
  assert (Hall : forallb (λ n, negb (is_py_space (digit n))) (Z.of_nat <$> seq 0 10) = true)
    by (vm_compute; reflexivity).
  rewrite forallb_forall in Hall. apply negb_true_iff. by apply Hall, list_elem_of_In.
Qed.
Lemma strip_oid k : strip (commit_oid k +:+ line_feed) = commit_oid k.
Proof.
  unfold commit_oid, toy_oid. set (d := digit (Z.of_nat k mod 10)). set (e := digit (Z.of_nat k / 10)).
  assert (Hd : is_py_space d = false) by (apply digit_not_space, Z.mod_pos_bound; lia).
  set (body := "c"%char :: replicate 37 "0"%char ++ [e]).
  assert (Hb : "c"%char :: replicate 37 "0"%char ++ [e; d] = body ++ [d])
    by (unfold body; cbn [app]; by rewrite <- app_assoc).
  rewrite Hb. unfold strip. rewrite chars_app, chars_of_chars.
  assert (H1 : drop_spaces ((body ++ [d]) ++ chars line_feed) = (body ++ [d]) ++ chars line_feed) by done.
  rewrite H1, !reverse_app. cbn [chars line_feed]. 
  assert (H2 : drop_spaces (reverse (chars line_feed) ++ reverse [d] ++ reverse body) = d :: reverse body).
  { cbn. by rewrite Hd. }
  by rewrite H2, reverse_cons, reverse_involutive.
Qed.
Lemma spec_ref_app ref : spec_ref (ref +:+ "^{commit}") = ref.
Proof.
  unfold spec_ref. rewrite str_len_app, chars_app. unfold str_len at 1 2.
  rewrite Nat.add_sub, take_app_length. apply of_chars_chars.
Qed.
Lemma known_oid_oid repo oid k : known_oid repo oid = Some k → commit_oid k = oid.
Proof.
  unfold known_oid. intros H%head_Some_elem_of%list_elem_of_In%filter_In. destruct H as [_ H]. by to_prop.
Qed.
Lemma known_oid_of_ref repo ref k : tr_refs repo !! ref = Some k →
  ∃ k', known_oid repo (commit_oid k) = Some k'.
Proof.
  intros Hr. unfold known_oid. destruct (List.filter _ _) as [|k' l] eqn:Hf; [|by exists k'].
  assert (Hin : k ∈ List.filter (λ k', bool_decide (commit_oid k' = commit_oid k))
    ((map_to_list (tr_refs repo)).*2 ++ seq 0 (length (tr_commits repo)))).
  { apply list_elem_of_In, filter_In. split; [|by apply bool_decide_eq_true_2].
    apply list_elem_of_In, elem_of_app. left. apply list_elem_of_fmap. exists (ref, k).
    split; [done|]. by apply elem_of_map_to_list. }
  rewrite Hf in Hin. by apply not_elem_of_nil in Hin.
Qed.
Lemma tail_ref p ref : full_ref ref → str_startswith "refs/" p = false → ref ≠ p.
Proof. intros [Hr _] Hp ->. congruence. Qed.
Lemma matches_old repo ref old :
  current_matches repo ref old = true ↔ old_matches (commit_oid <$> tr_refs repo) ref old.
Proof.
  unfold current_matches, old_matches, is_zero. change (forallb _ (chars old)) with (all_zero old).
  rewrite lookup_fmap. destruct (tr_refs repo !! ref) as [k|]; cbn.
  - destruct (all_zero old) eqn:Hz; rewrite bool_decide_eq_true.
    + split; [|done]. by intros <-.
    + split; [by intros ->|by intros [= ->]].
  - by destruct (all_zero old).
Qed.
Lemma site_update_outcome ref new old h :
  let after := site_update ref new old h in
  let refs h := commit_oid <$> tr_refs (st_repo h) in
  outcome after.1 (refs after.2 = refs h)
    (old_matches (refs h) ref old ∧ refs after.2 = write_ref ref new (refs h)).
Proof.
  cbv zeta. unfold site_update. destruct (known_oid (st_repo h) new) as [k|] eqn:Hk; [|done].
  apply known_oid_oid in Hk as <-.
  destruct (current_matches (st_repo h) ref old) eqn:Hm; [|done]. cbn. apply matches_old in Hm.
  split; [done|]. by rewrite fmap_insert.
Qed.
Lemma site_delete_outcome ref old h :
  let after := site_delete ref old h in
  let refs h := commit_oid <$> tr_refs (st_repo h) in
  outcome after.1 (refs after.2 = refs h)
    (old_matches (refs h) ref old ∧ refs after.2 = delete ref (refs h)).
Proof.
  cbv zeta. unfold site_delete.
  destruct (current_matches (st_repo h) ref old) eqn:Hm; [|done]. cbn. apply matches_old in Hm.
  split; [done|]. by rewrite fmap_delete.
Qed.
Lemma commit_tree_refs tree args repo : tr_refs (commit_tree tree args repo).2 = tr_refs repo.
Proof. unfold commit_tree. repeat (case_match; try done). Qed.
Lemma on_repo_refs f h : tr_refs (st_repo (on_repo f h).2) = tr_refs (f (st_repo h)).2.
Proof. unfold on_repo. by destruct (f (st_repo h)). Qed.
Lemma write_tree_refs repo :
  tr_refs (let '(k, repo) := add_tree resolved_tree repo in print (tree_oid k) repo).2 = tr_refs repo.
Proof. pose proof (add_tree_refs resolved_tree repo). by destruct (add_tree resolved_tree repo). Qed.
Definition site_reading : list string := "worktree" :: "merge" :: quiet_commands.
Lemma site_git_reads flaky root command args h : command ∈ site_reading →
  tr_refs (st_repo (site_git flaky root (command :: args) h).2) = tr_refs (st_repo h).
Proof.
  intros Hc. unfold site_git. cbn [head].
  unfold site_reading, quiet_commands in Hc. repeat (apply elem_of_cons in Hc as [->|Hc]; [|]);
    [..|by apply not_elem_of_nil in Hc].
  all: repeat (case_match; try discriminate); rewrite ?on_repo_refs;
    try (apply write_tree_refs || apply commit_tree_refs).
  all: unfold site_rev_parse, site_show, site_answer; by repeat case_match.
Qed.
(** The commands at full refs. *)
Lemma site_rev_parse_ref flaky root ref h : full_ref ref →
  site_git flaky root ["rev-parse"; "--verify"; ref +:+ "^{commit}"] h
  = match tr_refs (st_repo h) !! ref with
    | Some k => site_answer 0 (commit_oid k +:+ line_feed) h
    | None => site_answer 128 "" h
    end.
Proof.
  intros [Href _]. rewrite <- (spec_ref_app ref) at 2.
  assert (Hne : bool_decide (Some (ref +:+ "^{commit}") = Some "HEAD") = false).
  { apply bool_decide_eq_false. intros [= He]. unfold str_startswith in Href.
    apply startswith_prefix in Href as (k & Hk). apply (f_equal chars) in He.
    rewrite chars_app, Hk in He. discriminate. }
  unfold site_git. cbn [head lookup list_lookup].
  change (["rev-parse"; "--verify"; ref +:+ "^{commit}"] !! 2%nat) with (Some (ref +:+ "^{commit}")).
  by rewrite Hne.
Qed.
Lemma site_update_ref flaky root flags ref new old h : update_flags flags → full_ref ref →
  site_git flaky root ("update-ref" :: flags ++ [ref; new; old]) h
  = (if flaky && str_startswith "DevFlow repair" (List.last flags "") then (TimeoutExpired, h)
     else site_update ref new old h).
Proof.
  intros [->|[text ->]] Href.
  - change (site_git flaky root ("update-ref" :: [] ++ [ref; new; old]) h)
      with (update_command flaky [ref; new; old] h).
    unfold update_command. rewrite bool_decide_eq_false_2 by (by apply tail_ref).
    by rewrite andb_false_r.
  - done.
Qed.
#[export] Instance site_ref_laws flaky : @RefUpdateLaws (site_machine flaky) (site_refs flaky).
Proof.
  split.
  - intros root env [|command args] h Hc; [done|]. cbn. f_equal. apply site_git_reads.
    cbn [keeps_refs] in Hc. unfold site_reading. rewrite !elem_of_cons.
    apply orb_prop in Hc as [Hc|Hc]; [apply orb_prop in Hc as [Hc|Hc]|]; apply bool_decide_eq_true in Hc; tauto.
  - intros root ref h c Href Hf Hz.
    change (run_git root [] ["rev-parse"; "--verify"; ref +:+ "^{commit}"] h)
      with (site_git flaky root ["rev-parse"; "--verify"; ref +:+ "^{commit}"] h) in Hf.
    rewrite site_rev_parse_ref in Hf by done. destruct (tr_refs (st_repo h) !! ref) as [k|] eqn:Hk;
      injection Hf as <-; [|discriminate Hz]. cbn [Git.stdout].
    rewrite strip_oid. split; [apply commit_oid_real|]. cbn. by rewrite lookup_fmap, Hk.
  - intros root flags ref new old h Hflags Href _ _. cbv zeta.
    change (run_git root [] ("update-ref" :: flags ++ [ref; new; old]) h)
      with (site_git flaky root ("update-ref" :: flags ++ [ref; new; old]) h).
    rewrite site_update_ref by done.
    destruct (_ && _); [by left|]. apply site_update_outcome.
  - intros root ref old h Href _. exact (site_delete_outcome ref old h).
Qed.
#[export] Instance site_works : @WorkingGit (site_machine false) (site_refs false).
Proof.
  split.
  - intros root ref h Href.
    change (run_git root [] ["rev-parse"; "--verify"; ref +:+ "^{commit}"] h)
      with (site_git false root ["rev-parse"; "--verify"; ref +:+ "^{commit}"] h).
    rewrite site_rev_parse_ref by done. cbn [ref_map site_refs]. rewrite lookup_fmap.
    destruct (tr_refs (st_repo h) !! ref) as [k|]; eexists; (split; [reflexivity|]); [|done].
    split; [done|]. apply strip_oid.
  - intros root flags ref new old h Hflags Href Hold [other Hother].
    change (run_git root [] ("update-ref" :: flags ++ [ref; new; old]) h)
      with (site_git false root ("update-ref" :: flags ++ [ref; new; old]) h).
    rewrite site_update_ref by done. unfold site_update. cbn [andb].
    cbn [ref_map site_refs] in Hother. rewrite lookup_fmap in Hother.
    destruct (tr_refs (st_repo h) !! other) as [k|] eqn:Hk; [|done]. injection Hother as <-.
    destruct (known_oid_of_ref _ _ _ Hk) as [k' ->]. apply matches_old in Hold. rewrite Hold. by eexists.
  - intros root ref old h Href Hold. apply matches_old in Hold.
    change (run_git root [] ["update-ref"; "-d"; ref; old] h) with (site_delete ref old h).
    unfold site_delete. rewrite Hold. by eexists.
Qed.

(** ** An authorized conflict *)
Definition authorized_run : result IntegrationGateSnapshot * toy_repo :=
  match gate_of false with
  | Ok self => record_human_decision toy_sha256 toy_json_loads self example_scheduler AUTHORIZE_REPAIR
                 " ada " "" second_queue.2
  | Raise e => (Raise e, second_queue.2)
  end.
Definition blank_policy : IntegrationPolicyDecision := {|
  ipd_route := HUMAN_REQUIRED; ipd_evidence_fingerprint := ""; ipd_automatic_repair_enabled := false;
  ipd_human_repair_authorizable := false; ipd_conflicting_paths := []; ipd_reasons := [] |}.
Definition toy_gate : IntegrationGateSnapshot :=
  match authorized_run.1 with
  | Ok gate => gate
  | Raise _ => {| igs_task_id := ""; igs_task_branch := ""; igs_task_commit := "";
      igs_integration_ref := ""; igs_integration_head := ""; igs_conflict_ref := "";
      igs_conflict_marker_commit := ""; igs_evidence_fingerprint := ""; igs_policy_fingerprint := "";
      igs_policy := blank_policy; igs_state := ABORTED; igs_human_decision := None;
      igs_repair_may_start := false |}
  end.
Definition toy_decision : HumanIntegrationDecision :=
  default {| hid_decision := ABORT; hid_actor := ""; hid_note := ""; hid_decision_ref := "";
             hid_decision_commit := ""; hid_evidence_fingerprint := ""; hid_policy_fingerprint := "";
             hid_conflict_marker_commit := "" |} (igs_human_decision toy_gate).
Definition toy_start : toy_site :=
  {| st_repo := authorized_run.2; st_tree := false; st_unmerged := false |}.

(** ** The collaborators *)
Definition toy_run : DeveloperRunResult := {|
  dr_stop_reason := DEV_MODEL_STOP; dr_iterations := 1; dr_tool_calls := 1;
  dr_final_message := "done"; dr_changed_files := ["src/x.py"];
  dr_usage := {| prompt_tokens := 1; completion_tokens := 1; total_tokens := 2 |}; dr_latency_ms := 1;
  dr_execution_budget := None; dr_tool_failure_evidence := [] |}.
Definition toy_verification : VerificationResult := {| vr_passed := true; vr_checks := [] |}.
Definition toy_task (objective : string) : TaskContract := {|
  tc_task_id := "c"; tc_objective := objective; tc_readable_files := []; tc_writable_files := ["src/x.py"];
  tc_readonly_files := []; tc_acceptance_criteria := ["it works"]; tc_verification_commands := ["pytest"];
  tc_max_retries := 2 |}.
Definition toy_worker : WorkerExecutionEvidence := {|
  we_dispatch_id := 2%N; we_run_id := 1%N; we_task_id := "c"; we_status := WE_SUCCEEDED;
  we_base_commit := commit_oid 0; we_branch_name := Some (igs_task_branch toy_gate);
  we_commit_sha := Some (igs_task_commit toy_gate); we_checkpoint := None; we_continuation := None;
  we_run_result := Some (example_run "c"); we_failures := []; we_duration_ms := 1 |}.
(** The evidence of a repair of this conflict by the commit [c]. *)
Definition toy_evidence (c : string) : IntegrationConflictRepairEvidence := {|
  icr_run_id := 1%N; icr_task_id := igs_task_id toy_gate;
  icr_integration_head := igs_integration_head toy_gate; icr_task_commit := igs_task_commit toy_gate;
  icr_conflict_marker_commit := igs_conflict_marker_commit toy_gate;
  icr_conflict_evidence_fingerprint := igs_evidence_fingerprint toy_gate;
  icr_policy_fingerprint := igs_policy_fingerprint toy_gate;
  icr_human_decision_commit := hid_decision_commit toy_decision;
  icr_conflicting_paths := ipd_conflicting_paths (igs_policy toy_gate); icr_repair_commit := c;
  icr_changed_files := ["src/x.py"]; icr_developer_run := toy_run;
  icr_verification := toy_verification |}.
#[local] Instance Qq_eq_dec : EqDecision QArith_base.Q.
Proof. solve_decision. Defined.
#[local] Instance TokenUsage_eq_dec : EqDecision TokenUsage.
Proof. solve_decision. Defined.
#[local] Instance ExecutionBudget_eq_dec : EqDecision DeveloperExecutionBudget.
Proof. solve_decision. Defined.
#[local] Instance DeveloperRunResult_eq_dec : EqDecision DeveloperRunResult.
Proof. solve_decision. Defined.
#[local] Instance CheckType_eq_dec : EqDecision CheckType.
Proof. solve_decision. Defined.
#[local] Instance VerificationBackend_eq_dec : EqDecision VerificationBackend.
Proof. solve_decision. Defined.
#[local] Instance CheckResult_eq_dec : EqDecision CheckResult.
Proof. solve_decision. Defined.
#[local] Instance VerificationResult_eq_dec : EqDecision VerificationResult.
Proof. solve_decision. Defined.
#[local] Instance RepairEvidence_eq_dec : EqDecision IntegrationConflictRepairEvidence.
Proof. solve_decision. Defined.

(** A ledger of repair commits that may refuse evidence; payloads name the
    worker or a repair commit. *)
Record toy_ledger : Set := { tl_objective : string; tl_accepts : bool; tl_commits : list string }.
Definition toy_row (kind : PersistenceEvidenceKind) (payload : string) : PersistedEvidence := {|
  pe_id := 1; pe_run_id := 1%N; pe_task_id := Some "c"; pe_evidence_key := payload; pe_kind := kind;
  pe_stage := None; pe_sequence := None; pe_schema_version := 1; pe_payload := JStr payload;
  pe_payload_sha256 := ""; pe_created_at := 0 |}.
Definition toy_snapshot (l : toy_ledger) : PersistedRunSnapshot := {|
  prs_run_id := 1%N; prs_project_id := 1%N; prs_repository_url := "url"; prs_default_branch := "main";
  prs_base_commit := commit_oid 0; prs_status := PRS_RUNNING; prs_display_status := "RUNNING";
  prs_recovery_reason := None; prs_recovery_checked_at := None;
  prs_tasks := [{| pt_task := toy_task (tl_objective l); pt_contract_sha256 := ""; pt_created_at := 0 |}];
  prs_evidence := toy_row WORKER_EXECUTION "worker" :: (toy_row INTEGRATION_REPAIR <$> tl_commits l);
  prs_terminal_result := None; prs_terminal_result_sha256 := None; prs_started_at := 0;
  prs_finished_at := None |}.
Definition read_toy_worker (_ : JSON) : result WorkerExecutionEvidence := Ok toy_worker.
Definition read_toy_repair (payload : JSON) : result IntegrationConflictRepairEvidence :=
  match payload with JStr c => Ok (toy_evidence c) | _ => invalid "IntegrationConflictRepairEvidence" end.
Definition toy_recorded (l : toy_ledger) : list IntegrationConflictRepairEvidence :=
  toy_evidence <$> tl_commits l.
Definition toy_record (e : IntegrationConflictRepairEvidence) : M toy_ledger (Z * string) := λ l,
  if tl_accepts l && bool_decide (e = toy_evidence (icr_repair_commit e))
  then (Ok (1, "digest"), {| tl_objective := tl_objective l; tl_accepts := tl_accepts l;
                             tl_commits := tl_commits l ++ [icr_repair_commit e] |})
  else (raise PersistenceConflictError "refused", l).
Definition toy_team (flaky : bool) : @Collaborators (site_machine flaky) toy_ledger :=
  @Build_Collaborators (site_machine flaky) toy_ledger
    (λ _ l, Ok (toy_snapshot l)) toy_record (λ _, mret example_workspace) (λ _ _, mret toy_run)
    (λ _ _, mret toy_verification) (mret "0123456789ab") (λ _, mret tt) "/repairs".
#[export] Instance toy_team_laws flaky :
  @CollaboratorLaws (site_machine flaky) (site_files flaky) (site_refs flaky) toy_ledger (toy_team flaky).
Proof. by split. Qed.
#[export] Instance toy_ledger_laws flaky :
  @LedgerLaws (site_machine flaky) toy_ledger read_toy_repair (toy_team flaky) toy_recorded.
Proof.
  split.
  - intros e l e' He. unfold toy_team, record_integration_repair, toy_record. case_match; [|done].
    unfold toy_recorded. cbn [snd tl_commits]. rewrite fmap_app, elem_of_app. by left.
  - intros e l. unfold toy_team, record_integration_repair, toy_record.
    destruct (_ && _) eqn:H; [|done]. intros _. apply andb_true_iff in H as [_ H].
    apply bool_decide_eq_true in H. unfold toy_recorded. cbn [snd tl_commits].
    rewrite fmap_app, elem_of_app. right. apply list_elem_of_fmap. exists (icr_repair_commit e).
    split; [done|by left].
  - intros e l e'. unfold toy_team, record_integration_repair, toy_record.
    destruct (_ && _) eqn:H; [|by left]. apply andb_true_iff in H as [_ H].
    apply bool_decide_eq_true in H. unfold toy_recorded. cbn [snd tl_commits].
    rewrite fmap_app, elem_of_app. intros [He|He]; [by left|right].
    apply list_elem_of_fmap in He as (c & -> & ->%list_elem_of_singleton). by symmetry.
  - intros run l snapshot gate e [= <-] ((item & raw & Hitem & Hkind & Hread & Hnew) & _)%existing_inv.
    unfold toy_snapshot in Hitem. cbn [prs_evidence] in Hitem.
    apply elem_of_cons in Hitem as [->|(c & -> & Hc)%list_elem_of_fmap]; [done|].
    apply list_elem_of_fmap. exists c. split; [|done]. injection Hread as <-.
    by apply repair_new_inv in Hnew as (<- & _).
Qed.

Definition toy_repair (flaky : bool) (w : toy_site * toy_ledger)
    : result IntegrationConflictRepairEvidence * (toy_site * toy_ledger) :=
  @repair (site_machine flaky) (site_files flaky) toy_ledger read_toy_worker read_toy_repair
    (toy_team flaky) 1%N toy_gate gate_queue w.
Definition empty_ledger (accepts : bool) : toy_ledger :=
  {| tl_objective := "resolve it"; tl_accepts := accepts; tl_commits := [] |}.
Lemma toy_authorized : authorized toy_gate gate_queue toy_decision "run-1".
Proof. split; vm_compute; (reflexivity || discriminate). Qed.

(** The first call loses the answer of the advance; the ledger has the
    evidence, and the next call finishes the repair. *)
Definition interrupted : toy_site * toy_ledger := (toy_repair true (toy_start, empty_ledger true)).2.
Definition repair_oid : string := commit_oid 8.
Example first_call :
  is_ok (toy_repair false (toy_start, empty_ledger true)).1 = true.
Proof. vm_compute. reflexivity. Qed.
Example interruption :
  is_ok (toy_repair true (toy_start, empty_ledger true)).1 = false
  ∧ interrupted.2 = {| tl_objective := "resolve it"; tl_accepts := true; tl_commits := [repair_oid] |}
  ∧ is_ok (toy_repair false interrupted).1 = true.
Proof. vm_compute. split; [|split]; reflexivity. Qed.
(** A ledger that refuses the evidence leaves the anchor behind, and the next
    call is blocked by it. *)
Definition abandoned : toy_site * toy_ledger := (toy_repair false (toy_start, empty_ledger false)).2.
Example blocked :
  (toy_repair false (abandoned.1, empty_ledger true)).1
  = raise PersistenceConflictError "integration repair staging ref already protects a different commit".
Proof. vm_compute. reflexivity. Qed.
(** The merge queue that starts on the repaired repository sees the repair. *)
Definition repaired_queue : result MergeQueueSnapshot :=
  q ← (RepairAwareTopologicalMergeQueue_init example_scheduler example_view example_workspace "run-1"
         (st_repo (toy_repair false interrupted).2.1)).1;
  queue_snapshot q.
Example repaired_history :
  (s ← repaired_queue; Ok ((λ a, (mqa_task_id a, mqa_outcome a)) <$> mqs_attempts s,
                           mqs_head_commit s, mqs_stopped s))
  = Ok ([("a", INTEGRATED); ("b", INTEGRATED); ("c", CONFLICT); ("c", REPAIRED)], repair_oid, false).
Proof. vm_compute. reflexivity. Qed.
