(* ===== verification/IntegrationRepairFacts.v ===== *)
(** * IntegrationRepairFacts: what an authorized repair guarantees

    The integration ref moves only to a repair whose verified evidence is in
    the ledger, nothing of the gate is lost, and an interrupted repair is
    finished by the next run once its evidence is recorded; before that, the
    anchor of an abandoned repair blocks the conflict, and so does a long
    objective. *)
From stdpp Require Import options.
From S2P Require Import Prelude Contracts RunModels Lease Json Recovery Merge Git Worktree Tools MergeQueue MergeMessages Conflict Classifier HumanGate ToolsFacts ConflictFacts IntegrationRepair RepairRefs ToyGit QueueExample ToyGate ToyRepair.
Open Scope Z_scope.

Section repair.
Context `{HF : Files, R : !Refs, Laws : !RefUpdateLaws} {L : Type} (self : Collaborators L)
  {CL : CollaboratorLaws self}.
Definition unmoved (h h' : Host) : Prop := ref_map h' = ref_map h.
#[local] Instance unmoved_preorder : PreOrder unmoved.
Proof using. unfold unmoved. split; [done|]. intros a b c -> ->. done. Qed.
Lemma wp_keeps_bind {A B} (m : M Host A) (f : A → M Host B) Q E h :
  keeps unmoved m → (∀ a h', ref_map h' = ref_map h → wp (f a) Q E h') →
  (∀ e h', ref_map h' = ref_map h → E e h') → wp (m ≫= f) Q E h.
Proof using.
  intros Hm Hf He. apply wp_bind. unfold wp at 1. specialize (Hm h).
  destruct (m h) as [[a|e] h']; [by apply Hf|by apply He].
Qed.
Lemma command_unmoved error missing timeout root env args : keeps_refs args = true →
  keeps unmoved (git_command error missing timeout root env args).
Proof using Laws.
  intros Hc h. unfold git_command, unmoved. pose proof (repair_reads root env args h Hc) as Hr.
  by destruct (run_git root env args h) as [[]].
Qed.
#[local] Hint Extern 1 (keeps _ (git_command _ _ _ _ _ (_ :: _))) =>
  apply command_unmoved; reflexivity : devflow.
#[local] Hint Extern 1 (keeps _ (repair_git _ _ (_ :: _) _)) => apply git_reads; reflexivity : devflow.
Lemma reading_host_unmoved {A} (f : Host → A) : keeps unmoved (reading_host f).
Proof using. by intros h. Qed.
Lemma changed_unmoved ws : keeps unmoved (changed_files ws).
Proof using Laws. unfold changed_files, untracked_files, workspace_git, _git_completed. keep_steps. Qed.
Lemma workspace_unmoved root : keeps unmoved (LocalGitWorkspace_init root).
Proof using Laws.
  unfold LocalGitWorkspace_init, _assert_repository, _assert_head, workspace_git, _git_completed.
  keep_steps; apply reading_host_unmoved.
Qed.
Lemma unmerged_unmoved ws : keeps unmoved (_unmerged_paths ws).
Proof using Laws. unfold _unmerged_paths. keep_steps. Qed.
Lemma markers_unmoved ws paths : keeps unmoved (_assert_no_text_conflict_markers ws paths).
Proof using. unfold _assert_no_text_conflict_markers. keep_steps. by intros h. Qed.
Lemma developer_unmoved task ws : keeps unmoved (developer_run self task ws).
Proof using CL. intros h. apply developer_refs. Qed.
Lemma verify_unmoved task ws : keeps unmoved (verify self task ws).
Proof using CL. intros h. apply verify_refs. Qed.
Lemma worktree_unmoved ws path head : keeps unmoved (_add_repair_worktree ws path head).
Proof using Laws CL.
  unfold _add_repair_worktree, exists_path. keep_steps; [apply reading_host_unmoved|].
  intros h. apply make_dirs_refs.
Qed.
Lemma cleanup_unmoved ws path : keeps unmoved (_remove_repair_worktree self ws path).
Proof using Laws CL.
  unfold _remove_repair_worktree, exists_path. keep_steps; try apply reading_host_unmoved.
  intros h. apply remove_refs.
Qed.
#[local] Hint Resolve changed_unmoved workspace_unmoved unmerged_unmoved markers_unmoved
  developer_unmoved verify_unmoved : devflow.
Lemma base_clean_unmoved ws : keeps unmoved (repair_assert_base_clean ws).
Proof using Laws. unfold repair_assert_base_clean. keep_steps. Qed.
Lemma validate_unmoved ws e branch : keeps unmoved (_validate_repair_commit ws e branch).
Proof using Laws. unfold _validate_repair_commit. keep_steps. Qed.

(** A step before the anchor: the refs have not moved. *)
Definition only_staging (s : string) (refs refs' : ref_table) : Prop :=
  refs' = refs ∨ refs !! s = None ∧ ∀ ref, ref ≠ s → refs' !! ref = refs !! ref.
Lemma anchor_only_staging s c refs refs' :
  refs' = refs ∨ refs !! s = None ∧ refs' = write_ref s c refs → only_staging s refs refs'.
Proof using.
  intros [->|[Hn ->]]; [by left|right]. split; [done|]. intros ref Hne. unfold write_ref.
  case_match; by rewrite ?lookup_delete_ne, ?lookup_insert_ne.
Qed.
Lemma inserted_only_staging s c refs : refs !! s = None ∨ refs !! s = Some c →
  only_staging s refs (<[s := c]> refs).
Proof using.
  intros [Hn|Hs]; [right|left; by apply insert_id]. split; [done|]. intros ref Hne. by rewrite lookup_insert_ne.
Qed.

Definition repairs (gate : IntegrationGateSnapshot) (e : IntegrationConflictRepairEvidence) : Prop :=
  icr_task_id e = igs_task_id gate ∧ icr_conflict_evidence_fingerprint e = igs_evidence_fingerprint gate
  ∧ oid_ok (icr_integration_head e) = true ∧ oid_ok (icr_repair_commit e) = true
  ∧ vr_passed (icr_verification e) = true.
Lemma wp_resolve_conflict ws gate run task repair_task worker s path h : full_ref s →
  wp (resolve_conflict self ws gate run task repair_task worker s path)
    (λ e h', repairs gate e ∧ icr_integration_head e = igs_integration_head gate
             ∧ is_zero (icr_repair_commit e) = false
             ∧ (ref_map h !! s = None ∨ ref_map h !! s = Some (icr_repair_commit e))
             ∧ ref_map h' = <[s := icr_repair_commit e]> (ref_map h))
    (λ _ h', only_staging s (ref_map h) (ref_map h')) h.
Proof using Laws CL.
  intros Hs. unfold resolve_conflict.
  repeat lazymatch goal with
    | |- wp (lift _ ≫= _) _ _ _ =>
        apply wp_lift_bind; [intros ? ?|intros ? _; left; congruence]
    | |- wp (ensure _ _ _ ≫= _) _ _ _ =>
        apply wp_lift_bind; [intros ? ?|intros ? _; left; congruence]
    | |- wp (_anchor_repair_commit _ _ _ ≫= _) _ _ _ => fail
    | |- wp (_ ≫= _) _ _ _ =>
        apply wp_keeps_bind; [by auto with devflow|intros ? ? ?|intros ? ? ?; left; congruence]
    end.
  match goal with
  | Ho : repair_require_oid ?c "integration repair commit" = Ok _ |- context [wp _ _ _ ?hn] =>
      assert (Hn : ref_map hn = ref_map h) by congruence;
      apply check_Ok in Ho;
      apply wp_bind; eapply wp_mono; [apply (wp_anchor False (False_ind _) ws s c hn Hs Ho)|..]
  end; cbv beta; rewrite Hn.
  2:{ intros e h2 [Hw _]. by eapply anchor_only_staging. }
  intros _ h2 (Hz & Hbefore & Hafter). apply wp_lift.
  destruct (IntegrationConflictRepairEvidence_new _) as [e|e] eqn:He.
  - apply repair_new_inv in He as (<- & Hok & Hrep & Hpass). by split_and!.
  - rewrite Hafter. by apply inserted_only_staging.
Qed.

(** ** The ledger and the machine together *)
Context (read_execution : JSON → result WorkerExecutionEvidence)
  (read_repair : JSON → result IntegrationConflictRepairEvidence)
  (recorded : L → list IntegrationConflictRepairEvidence) {LL : LedgerLaws read_repair self recorded}.
Lemma wp_on_machine {A} (m : M Host A) (Q : A → Host * L → Prop) E h l :
  wp m (λ a h', Q a (h', l)) (λ e h', E e (h', l)) h → wp (on_machine m) Q E (h, l).
Proof using. unfold wp, on_machine. cbn. by destruct (m h) as [[a|e] h']. Qed.
Lemma wp_on_machine_keeps {A B} (m : M Host A) (f : A → M (Host * L) B) Q E h l :
  keeps unmoved m → (∀ a h', m h = (Ok a, h') → ref_map h' = ref_map h → wp (f a) Q E (h', l)) →
  (∀ e h', ref_map h' = ref_map h → E e (h', l)) → wp (on_machine m ≫= f) Q E (h, l).
Proof using.
  intros Hm Hf He. apply wp_bind, wp_on_machine. unfold wp at 1. specialize (Hm h).
  destruct (m h) as [[a|e] h'] eqn:Em; [by apply Hf|by apply He].
Qed.
Lemma wp_finally {S A} (m : M S A) cleanup (Q : A → S → Prop) (E : exn → S → Prop) s :
  wp m (λ a s', wp cleanup (λ _ s'', Q a s'') E s') (λ e s', wp cleanup (λ _ s'', E e s'') E s') s →
  wp (finally m cleanup) Q E s.
Proof using.
  unfold wp, finally. destruct (m s) as [[a|e] s1]; destruct (cleanup s1) as [[u|e'] s2]; done.
Qed.
Lemma wp_cleanup ws path (Q : unit → Host * L → Prop) E h l :
  (∀ h', ref_map h' = ref_map h → Q tt (h', l)) → (∀ e h', ref_map h' = ref_map h → E e (h', l)) →
  wp (on_machine (_remove_repair_worktree self ws path)) Q E (h, l).
Proof using Laws CL.
  intros Hq He. apply wp_on_machine. unfold wp. pose proof (cleanup_unmoved ws path h) as Hk.
  destruct (_remove_repair_worktree self ws path h) as [[[]|e] h']; [by apply Hq|by apply He].
Qed.

Section authorized_repair.
Context (run_id : UUID) (gate : IntegrationGateSnapshot) (queue : MergeQueueSnapshot)
  (decision : HumanIntegrationDecision) (id : string) (Hau : authorized gate queue decision id).
Notation s := (_repair_staging_ref run_id gate).
Notation i := (mqs_integration_ref queue).
Notation moves := (repair_progress run_id gate queue decision id).
Lemma wp_finish (works : Prop) (Hworks : works → WorkingGit) ws e base h :
  repairs gate e → is_zero (icr_repair_commit e) = false → moves e base (ref_map h) →
  wp (finish_repair ws gate queue s e)
    (λ r h', r = e ∧ moves e base (ref_map h') ∧ ref_map h' !! i = Some (icr_repair_commit e)
             ∧ (works → ref_map h' = repair_settled run_id gate queue decision id e (ref_map h)))
    (λ _ h', moves e base (ref_map h')
             ∧ ¬ (works ∧ repair_resumable run_id gate queue decision id e (ref_map h))) h.
Proof using Laws Hau.
  intros (_ & _ & Hhead & Hrep & _) Hz Hbase. unfold finish_repair, _archive_live_gate_refs.
  rewrite (au_ref _ _ _ _ Hau), (au_decision _ _ _ _ Hau).
  pose proof (names_nodup run_id gate queue decision id Hau) as Hnd.
  pose proof (names_full run_id gate queue decision id Hau) as Hfull.
  assert (Hid : integration_id_of (_INTEGRATION_PREFIX +:+ id) = Ok id).
  { unfold integration_id_of, str_startswith, str_len. rewrite chars_app, startswith_app, drop_app_length.
    rewrite of_chars_chars, bool_decide_eq_false_2; [done|]. apply (au_id _ _ _ _ Hau). }
  rewrite Hid. 
  apply (wp_finish_steps works Hworks _ _ _ _ _ _ (icr_integration_head e) (icr_repair_commit e) _ _ Hnd Hfull ws e base h);
    solve [done|apply Hau].
Qed.
Lemma staging_full : full_ref s.
Proof using Hau.
  pose proof (names_full run_id gate queue decision id Hau) as Hf. unfold repair_names in Hf.
  by apply Forall_cons in Hf as [Hf _].
Qed.
Lemma moves_anchored e refs : moves e refs (<[s := icr_repair_commit e]> refs).
Proof using Hau.
  apply progress_anchor; [apply (names_nodup run_id gate queue decision id Hau)|apply progress_refl].
Qed.
Notation anchored e refs := (<[s := icr_repair_commit e]> refs).
Lemma moves_refl e refs : moves e refs refs.
Proof using. apply progress_refl. Qed.
(** An interrupted repair whose evidence is recorded. *)
Lemma wp_existing (works : Prop) (Hworks : works → WorkingGit) ws e branch h : repairs gate e →
  wp (_validate_repair_commit ws e branch ;;
      _anchor_repair_commit ws s (icr_repair_commit e) ;;
      finish_repair ws gate queue s e)
    (λ r h', r = e ∧ moves e (anchored e (ref_map h)) (ref_map h')
             ∧ ref_map h' !! i = Some (icr_repair_commit e)
             ∧ (works → ref_map h' = repair_settled run_id gate queue decision id e (ref_map h)))
    (λ _ h', (only_staging s (ref_map h) (ref_map h')
              ∨ moves e (anchored e (ref_map h)) (ref_map h'))
             ∧ ¬ (works ∧ is_zero (icr_repair_commit e) = false
                  ∧ is_ok (_validate_repair_commit ws e branch h).1 = true
                  ∧ repair_resumable run_id gate queue decision id e (ref_map h))) h.
Proof using Laws Hau.
  intros He. pose proof He as (_ & _ & _ & Hrep & _).
  apply wp_bind. unfold wp at 1. pose proof (validate_unmoved ws e branch h) as Hv.
  destruct (_validate_repair_commit ws e branch h) as [[[]|x] h1]; cbn in Hv; unfold unmoved in Hv.
  2:{ split; [left; by left|]. by intros (_ & _ & ? & _). }
  apply wp_bind. eapply wp_mono; [by apply (wp_anchor works Hworks ws s _ h1 staging_full)|..];
    cbv beta; rewrite Hv.
  2:{ intros x h2 [Hw Hn]. split; [left; by eapply anchor_only_staging|].
      intros (Hwk & Hz & _ & Hr & _). apply Hn. split_and!; [done..|].
      destruct Hr as [[_ Hr]|[Hi [Hr|Hr]]]; eauto. }
  intros _ h2 (Hz & _ & H2). pose proof (names_nodup run_id gate queue decision id Hau) as Hnd.
  eapply wp_mono; [apply (wp_finish works Hworks ws e (ref_map h2) h2 He Hz), moves_refl|..]; rewrite H2.
  - intros r h3 (-> & Hm & Hi & Hs). split_and!; [done..|]. intros Hw. rewrite (Hs Hw).
    by apply settled_staging.
  - intros x h3 [Hm Hn]. split; [by right|]. intros (Hw & _ & _ & Hr). apply Hn. split; [done|].
    by apply resumable_anchored.
Qed.

(** Every way a repair can end.  [anchored_run e w w']: [e] is the evidence of
    this conflict, it is in the ledger, and the refs are on their way. *)
Definition anchored_run (e : IntegrationConflictRepairEvidence) (w w' : Host * L) : Prop :=
  repairs gate e ∧ e ∈ recorded w'.2
  ∧ (e ∈ recorded w.2 ∨ icr_integration_head e = igs_integration_head gate
       ∧ is_zero (icr_repair_commit e) = false
       ∧ (ref_map w.1 !! s = None ∨ ref_map w.1 !! s = Some (icr_repair_commit e)))
  ∧ moves e (anchored e (ref_map w.1)) (ref_map w'.1).
Definition repair_run (w w' : Host * L) : Prop :=
  recorded w.2 ⊆ recorded w'.2
  ∧ (∀ e, e ∈ recorded w'.2 → e ∈ recorded w.2 ∨ anchored_run e w w')
  ∧ (only_staging s (ref_map w.1) (ref_map w'.1) ∨ ∃ e, anchored_run e w w').
Lemma run_before h l h' : only_staging s (ref_map h) (ref_map h') → repair_run (h, l) (h', l).
Proof using. intros Ho. split_and!; [done|by left|by left]. Qed.
(** The [try] of a fresh repair with its [finally]. *)
Lemma wp_attempt ws task repair_task worker path h h4 l : ref_map h4 = ref_map h →
  wp (finally
        (evidence ← on_machine (resolve_conflict self ws gate run_id task repair_task worker s path);
         on_ledger (record_integration_repair self evidence) ;;
         on_machine (finish_repair ws gate queue s evidence))
        (on_machine (_remove_repair_worktree self ws path)))
    (λ r w', repair_run (h, l) w' ∧ anchored_run r (h, l) w'
             ∧ ref_map w'.1 !! i = Some (icr_repair_commit r))
    (λ _ w', repair_run (h, l) w') (h4, l).
Proof using Laws CL LL Hau.
  intros H4'. apply wp_finally. apply wp_bind, wp_on_machine.
  eapply wp_mono; [apply (wp_resolve_conflict _ gate _ _ _ _ s _ h4 staging_full)|..]; cbv beta; rewrite H4'.
  2:{ intros e h5 Ho. apply wp_cleanup; intros; apply run_before; congruence. }
  intros e h5 (Hr & Hhead & Hz & Hbefore & H5).
  apply wp_bind. unfold wp at 1, on_ledger. cbn [snd fst].
  pose proof (record_keeps e l) as Hkeep. pose proof (record_adds e l) as Hadds.
  pose proof (record_only e l) as Honly.
  destruct (record_integration_repair self e l) as [receipt l'] eqn:Hrec. cbn in Hkeep, Hadds, Honly.
  assert (Hrun : ∀ h', moves e (anchored e (ref_map h)) (ref_map h') → e ∈ recorded l' →
    anchored_run e (h, l) (h', l')) by (intros h' Hm Hin; split_and!; [done..| |done]; by right).
  assert (Hends : ∀ h', moves e (anchored e (ref_map h)) (ref_map h') →
    only_staging s (ref_map h) (ref_map h') ∨ e ∈ recorded l' → repair_run (h, l) (h', l')).
  { intros h' Hm Hor. split_and!; [done|..].
    - intros e' He'. destruct (Honly e' He') as [Hl| ->]; [by left|right; by apply Hrun].
    - destruct Hor as [Ho|Hin]; [by left|right; exists e; by apply Hrun]. }
  destruct receipt as [receipt|x].
  2:{ apply wp_cleanup; intros; (apply Hends; [|left]);
      match goal with H : ref_map _ = ref_map h5 |- _ => rewrite H, H5 end;
      [apply moves_refl|by apply inserted_only_staging|apply moves_refl|by apply inserted_only_staging]. }
  specialize (Hadds eq_refl).
  apply wp_on_machine. eapply wp_mono;
    [apply (wp_finish False (False_ind _) ws e (ref_map h5) h5 Hr Hz), moves_refl|..]; rewrite H5.
  - intros r h6 (-> & Hm & Hi & _). apply wp_cleanup; [|intros x]; intros h' Hh; rewrite <- Hh in Hm, Hi.
    + split_and!; [apply Hends; auto|by apply Hrun|done].
    + apply Hends; auto.
  - intros x h6 [Hm _]. apply wp_cleanup; [|intros y]; intros h' Hh; rewrite <- Hh in Hm; apply Hends; auto.
Qed.
Lemma wp_repair w :
  wp (repair read_execution read_repair self run_id gate queue)
    (λ r w', repair_run w w' ∧ anchored_run r w w' ∧ ref_map w'.1 !! i = Some (icr_repair_commit r))
    (λ _ w', repair_run w w') w.
Proof using Laws CL LL Hau.
  destruct w as [h l].
  assert (Hstay : ∀ h', ref_map h' = ref_map h → repair_run (h, l) (h', l)).
  { intros h' Hh. apply run_before. by left. }
  unfold repair.
  apply wp_lift_bind; [intros _ _|intros e _; by apply Hstay].
  apply wp_bind. unfold wp at 1, on_ledger. cbn [snd fst].
  destruct (load_run self run_id l) as [snapshot|e] eqn:Hload; [|by apply Hstay].
  apply wp_lift_bind; [intros task _|intros e _; by apply Hstay].
  apply wp_lift_bind; [intros worker _|intros e _; by apply Hstay].
  apply wp_lift_bind; [intros _ _|intros e _; by apply Hstay].
  apply wp_on_machine_keeps; [intros h'; apply resolve_refs| |intros e h' Hh; by apply Hstay].
  intros ws h1 _ H1.
  apply wp_on_machine_keeps; [apply base_clean_unmoved| |intros e h' Hh; apply Hstay; congruence].
  intros _ h2 _ H2. assert (H2' : ref_map h2 = ref_map h) by congruence. clear h1 H1 H2.
  apply wp_lift_bind; [intros existing Hex|intros e _; by apply Hstay].
  destruct existing as [e|].
  { pose proof (existing_inv _ _ _ _ Hex) as ((item & raw & _ & _ & _ & He) & Ht & Hf).
    apply repair_new_inv in He as (_ & Hhead & Hrep & Hpass).
    assert (Hr : repairs gate e) by by split_and!.
    assert (Hin : e ∈ recorded l) by by eapply load_recorded.
    apply wp_on_machine. eapply wp_mono; [by apply (wp_existing False (False_ind _) ws e)|..]; rewrite H2'.
    - intros r h3 (-> & Hm & Hi & _).
      assert (anchored_run e (h, l) (h3, l)) by (split_and!; [done..|by left|done]).
      split_and!; [split_and!; [done|by left|right; by exists e]|done|done].
    - intros x h3 [[Ho|Hm] _]; [by apply run_before|].
      split_and!; [done|by left|right; exists e; by split_and!; [..|left|]]. }
  apply wp_lift_bind; [intros repair_task _|intros e _; by apply Hstay].
  apply wp_on_machine_keeps; [| |intros e h' Hh; apply Hstay; congruence].
  { keep_steps; [intros h'; apply suffix_refs|intros h'; apply make_dirs_refs]. }
  intros path h3 _ H3.
  apply wp_on_machine_keeps; [apply worktree_unmoved| |intros e h' Hh; apply Hstay; congruence].
  intros _ h4 _ H4. apply wp_attempt. congruence.
Qed.
End authorized_repair.
End repair.

(** ** What a repair guarantees *)

(** C18.  A repair moves the integration ref only to a commit that verified
    evidence in the ledger vouches for.  However a call ends, exceptions and
    timeouts included, the ledger has lost nothing, and either only the
    staging ref may have been created and the call has failed, or evidence of
    this very conflict with a passed verification is in the ledger and the
    refs are on its way: the integration ref is where it was or went from the
    evidence's head to the repair commit, a live ref of the gate is where it
    was or was archived before it was released, after the integration ref had
    moved, and no other ref has changed.  Git behaves as documented for the
    exact commands the service sends ([RefUpdateLaws]); the agent, the
    verifier and the other collaborators move no ref ([CollaboratorLaws]) and
    the ledger keeps what it accepted ([LedgerLaws]). *)
Theorem repair_moves_verified_only `{Files, !Refs, !RefUpdateLaws} {L} (self : Collaborators L)
    `{!CollaboratorLaws self} read_execution read_repair recorded `{!LedgerLaws read_repair self recorded}
    run_id gate queue decision id w (Hau : authorized gate queue decision id) :
  let run := repair read_execution read_repair self run_id gate queue w in
  recorded w.2 ⊆ recorded run.2.2
  ∧ (is_ok run.1 = false ∧ only_staging (staging run_id gate) (ref_map w.1) (ref_map run.2.1)
     ∨ ∃ e, e ∈ recorded run.2.2 ∧ repairs gate e
       ∧ (run.1 = Ok e ∧ ref_map run.2.1 !! mqs_integration_ref queue = Some (icr_repair_commit e)
          ∨ is_ok run.1 = false)
       ∧ repair_progress run_id gate queue decision id e
           (<[staging run_id gate := icr_repair_commit e]> (ref_map w.1)) (ref_map run.2.1)).
Proof.
  cbv zeta. pose proof (wp_repair self read_execution read_repair recorded run_id gate queue decision id Hau w) as Hw.
  unfold wp in Hw. destruct (repair _ _ _ _ _ _ w) as [[e|x] w']; cbn [fst snd is_ok].
  - destruct Hw as ((Hl & _) & (He & Hin & _ & Hm) & Hi). split; [done|]. right. exists e. eauto 10.
  - destruct Hw as (Hl & _ & [Ho|(e & He & Hin & _ & Hm)]); (split; [done|]); [by left|right].
    exists e. eauto 10.
Qed.

(** The refs of a conflict that nobody has begun to repair. *)
Record fresh_conflict (run_id : UUID) (gate : IntegrationGateSnapshot) (queue : MergeQueueSnapshot)
    (decision : HumanIntegrationDecision) (id : string) (refs : ref_table) : Prop := {
  fc_head : refs !! mqs_integration_ref queue = Some (igs_integration_head gate);
  fc_conflict : refs !! igs_conflict_ref gate = Some (igs_conflict_marker_commit gate);
  fc_conflict_history : refs !! conflict_history gate id = None;
  fc_decision : refs !! hid_decision_ref decision = Some (hid_decision_commit decision);
  fc_decision_history : refs !! decision_history gate id = None;
}.
(** What a later call reads before it looks at the refs. *)
Record finds_evidence `{Machine} {L} (self : Collaborators L) read_execution read_repair run_id gate
    queue (h : Host) (l : L) snapshot task worker ws h1 h2 e : Prop := {
  fe_shape : _validate_gate_shape gate queue = Ok tt;
  fe_load : load_run self run_id l = Ok snapshot;
  fe_task : _task_contract snapshot (igs_task_id gate) = Ok task;
  fe_worker : _successful_worker read_execution snapshot (igs_task_id gate) = Ok worker;
  fe_commit : we_commit_sha worker = Some (igs_task_commit gate);
  fe_workspace : resolve_workspace self (prs_project_id snapshot) h = (Ok ws, h1);
  fe_clean : repair_assert_base_clean ws h1 = (Ok tt, h2);
  fe_existing : _existing_repair read_repair snapshot gate = Ok (Some e);
  fe_valid : is_ok (_validate_repair_commit ws e (default "" (we_branch_name worker)) h2).1 = true;
}.
Lemma pair_archivable i r l a x refs refs' : refs !! l = Some x → refs !! a = None →
  pair_progress i r l a x refs refs' → archivable l a x refs'.
Proof.
  intros Hl Ha [Pa Pl]. split.
  - destruct Pl as [->|(_ & -> & -> & _)]; auto.
  - destruct Pa as [->|[_ ->]]; auto.
Qed.
Lemma anchored_resumable `{HF : Files, R : !Refs} {L} (recorded : L → list IntegrationConflictRepairEvidence)
    run_id gate queue decision id (Hau : authorized gate queue decision id) e w w' :
  fresh_conflict run_id gate queue decision id (ref_map w.1) →
  anchored_run recorded run_id gate queue decision id e w w' → e ∉ recorded w.2 →
  is_zero (icr_repair_commit e) = false
  ∧ repair_resumable run_id gate queue decision id e (ref_map w'.1).
Proof.
  intros [F1 F2 F3 F4 F5] (_ & _ & [Hin|(Hhead & Hz & _)] & Hm) Hnew; [done|]. split; [done|].
  destruct (names_distinct _ _ _ _ _ _ (names_nodup run_id gate queue decision id Hau))
    as (?&?&?&?&?&?&?&?&?&?&?&?&?&?&?).
  unfold staging in *. destruct Hm as (_ & Hi & Hc & Hd & Hs).
  rewrite lookup_insert_ne in Hi by done. rewrite lookup_insert_eq in Hs.
  split; [|split].
  - rewrite F1, <- Hhead in Hi. unfold staging. destruct Hi as [Hi|[_ Hi]]; destruct Hs as [Hs|[Hs|[Hs Hi']]]; auto.
  - eapply pair_archivable, Hc; by rewrite lookup_insert_ne.
  - eapply pair_archivable, Hd; by rewrite lookup_insert_ne.
Qed.
Lemma found_repair_runs `{HF : Files, R : !Refs, !RefUpdateLaws, HG : !WorkingGit} {L} (self : Collaborators L)
    `{!CollaboratorLaws self} read_execution read_repair run_id gate queue decision id
    (Hau : authorized gate queue decision id) h l snapshot task worker ws h1 h2 e :
  finds_evidence self read_execution read_repair run_id gate queue h l snapshot task worker ws h1 h2 e →
  is_zero (icr_repair_commit e) = false →
  repair_resumable run_id gate queue decision id e (ref_map h) →
  let run := repair read_execution read_repair self run_id gate queue (h, l) in
  run.1 = Ok e ∧ run.2.2 = l
  ∧ ref_map run.2.1 = repair_settled run_id gate queue decision id e (ref_map h).
Proof.
  intros [F1 F2 F3 F4 F5 F6 F7 F8 F9] Hz Hres. cbv zeta.
  assert (Hr : repairs gate e).
  { pose proof (existing_inv _ _ _ _ F8) as ((item & raw & _ & _ & _ & He) & Ht & Hf).
    apply repair_new_inv in He as (_ & ? & ? & ?). by split_and!. }
  assert (H1 : ref_map h1 = ref_map h) by (by rewrite <- (resolve_refs (self := self) (prs_project_id snapshot) h), F6).
  assert (H2 : ref_map h2 = ref_map h) by (rewrite <- H1; pose proof (base_clean_unmoved ws h1) as Hb; by rewrite F7 in Hb).
  pose proof (wp_existing run_id gate queue decision id Hau True (λ _, HG) ws e
    (default "" (we_branch_name worker)) h2 Hr) as Hw.
  assert (Heq : repair read_execution read_repair self run_id gate queue (h, l) =
    on_machine (_validate_repair_commit ws e (default "" (we_branch_name worker)) ;;
                _anchor_repair_commit ws (_repair_staging_ref run_id gate) (icr_repair_commit e) ;;
                finish_repair ws gate queue (_repair_staging_ref run_id gate) e) (h2, l)).
  { unfold repair. rewrite (lift_run _ _ tt) by done.
    erewrite M_bind_run by (unfold on_ledger; cbn; by rewrite F2).
    rewrite (lift_run _ _ task) by done. rewrite (lift_run _ _ worker) by done.
    rewrite ensure_run by (by apply bool_decide_eq_true_2).
    erewrite M_bind_run by (unfold on_machine; cbn; by rewrite F6).
    erewrite M_bind_run by (unfold on_machine; cbn; by rewrite F7).
    by rewrite (lift_run _ _ (Some e)) by done. }
  rewrite Heq. unfold on_machine. cbn [fst snd]. unfold wp in Hw. rewrite H2 in Hw.
  revert Hw. match goal with |- match ?p with _ => _ end → _ => destruct p as [[r|x] h3] end; intros Hw; cbn.
  - destruct Hw as (-> & _ & _ & Hs). split_and!; [done..|]. by apply Hs.
  - destruct Hw as [_ []]. by split_and!.
Qed.

Lemma repair_moves_verified_only_witness :
  ∃ e, e ∈ toy_recorded (toy_repair false (toy_start, empty_ledger true)).2.2 ∧ repairs toy_gate e
  ∧ repair_progress 1%N toy_gate gate_queue toy_decision "run-1" e
      (<[staging 1%N toy_gate := icr_repair_commit e]> (commit_oid <$> tr_refs (st_repo toy_start)))
      (commit_oid <$> tr_refs (st_repo (toy_repair false (toy_start, empty_ledger true)).2.1)).
Proof.
  destruct (@repair_moves_verified_only (site_machine false) (site_files false) (site_refs false) _ _
    (toy_team false) _ read_toy_worker read_toy_repair toy_recorded _ 1%N toy_gate gate_queue toy_decision
    "run-1" (toy_start, empty_ledger true) toy_authorized) as [_ [[Hf _]|(e & Hin & He & _ & Hm)]].
  - exfalso. exact (diff_true_false (eq_trans (eq_sym first_call) Hf)).
  - exists e. by split_and!.
Defined.

(** C19.  A repair that was interrupted after its evidence reached the ledger
    is finished by the next call.  Start with a conflict that nobody has begun
    to repair and let the first call end in any way, at any of its Git calls;
    if it brought evidence into the ledger, then a call that finds it, on a
    Git that answers, returns that evidence without a new repair and leaves
    exactly these refs: the integration ref on the repair, the refs of the
    gate archived and released, the staging ref gone.  In both calls the
    collaborators move no ref ([CollaboratorLaws]), and the ledger of the
    first one keeps what it accepted. *)
Theorem interrupted_repair_resumes {L} (recorded : L → list IntegrationConflictRepairEvidence)
    read_execution read_repair (M1 M2 : Machine) (F1 : @Files M1) (F2 : @Files M2) (R1 : @Refs M1)
    (R2 : @Refs M2) `(!@RefUpdateLaws M1 R1, !@RefUpdateLaws M2 R2, !@WorkingGit M2 R2)
    (flaky : @Collaborators M1 L) (restarted : @Collaborators M2 L)
    `(!@CollaboratorLaws M1 F1 R1 L flaky, !@CollaboratorLaws M2 F2 R2 L restarted,
      !@LedgerLaws M1 L read_repair flaky recorded)
    run_id gate queue decision id (w : @Host M1 * L) (h : @Host M2) snapshot task worker ws h1 h2 e
    (Hau : authorized gate queue decision id)
    (Hfresh : fresh_conflict run_id gate queue decision id (@ref_map M1 R1 w.1)) (Hnew : e ∉ recorded w.2) :
  let first := (@repair M1 F1 L read_execution read_repair flaky run_id gate queue w).2 in
  e ∈ recorded first.2 → @ref_map M2 R2 h = @ref_map M1 R1 first.1 →
  finds_evidence restarted read_execution read_repair run_id gate queue h first.2 snapshot task worker
    ws h1 h2 e →
  let again := @repair M2 F2 L read_execution read_repair restarted run_id gate queue (h, first.2) in
  again.1 = Ok e ∧ again.2.2 = first.2
  ∧ @ref_map M2 R2 again.2.1
    = repair_settled run_id gate queue decision id e (@ref_map M1 R1 first.1).
Proof.
  cbv zeta. intros Hin Hh Hfe.
  pose proof (@wp_repair M1 F1 R1 _ L flaky _ read_execution read_repair recorded _ run_id gate queue
                decision id Hau w) as Hw.
  assert (Hrun : @anchored_run M1 R1 L recorded run_id gate queue decision id e w
    (@repair M1 F1 L read_execution read_repair flaky run_id gate queue w).2).
  { unfold wp in Hw. destruct (@repair M1 F1 L _ _ _ _ _ _ w) as [[r|x] w']; cbn [snd] in *.
    - destruct Hw as ((_ & Hall & _) & _). by destruct (Hall e Hin).
    - destruct Hw as (_ & Hall & _). by destruct (Hall e Hin). }
  destruct (@anchored_resumable M1 F1 R1 L recorded run_id gate queue decision id Hau e _ _ Hfresh Hrun Hnew)
    as [Hz Hres].
  rewrite <- Hh in *. by eapply (@found_repair_runs M2 F2 R2).
Qed.

Lemma toy_fresh : fresh_conflict 1%N toy_gate gate_queue toy_decision "run-1"
  (commit_oid <$> tr_refs (st_repo toy_start)).
Proof. split; vm_compute; reflexivity. Qed.
Lemma interrupted_repair_resumes_witness :
  (toy_repair false interrupted).1 = Ok (toy_evidence repair_oid).
Proof.
  refine (proj1 (@interrupted_repair_resumes toy_ledger toy_recorded read_toy_worker read_toy_repair
    (site_machine true) (site_machine false) (site_files true) (site_files false) (site_refs true)
    (site_refs false) _ _ _ (toy_team true) (toy_team false) _ _ _ 1%N toy_gate gate_queue toy_decision
    "run-1" (toy_start, empty_ledger true) interrupted.1 (toy_snapshot interrupted.2)
    (toy_task "resolve it") toy_worker example_workspace interrupted.1 interrupted.1
    (toy_evidence repair_oid) toy_authorized toy_fresh _ _ eq_refl _)).
  - apply not_elem_of_nil.
  - apply list_elem_of_fmap. exists repair_oid. split; [done|]. 
    change (repair_oid ∈ tl_commits interrupted.2). rewrite (proj1 (proj2 interruption)). by left.
  - split; vm_compute; reflexivity.
Defined.

(** An anchor whose evidence is not in the ledger blocks the conflict.
    The commit of a repair is anchored before its evidence is recorded, so
    that a call can leave such an anchor behind.  Whenever the staging ref
    stands and the ledger holds no repair of the conflict, a call fails and
    leaves the refs as they are, unless the new repair happens to be the very
    commit of the anchor.  The collaborators move no ref, and the ledger
    accepts nothing on its own ([CollaboratorLaws], [LedgerLaws]). *)
Theorem orphan_anchor_blocks_repair `{Files, !Refs, !RefUpdateLaws} {L} (self : Collaborators L)
    `{!CollaboratorLaws self} read_execution read_repair recorded `{!LedgerLaws read_repair self recorded}
    run_id gate queue decision id w c (Hau : authorized gate queue decision id)
    (Hanchor : ref_map w.1 !! staging run_id gate = Some c)
    (Hnone : ∀ e, e ∈ recorded w.2 → ¬ repairs gate e) :
  let run := repair read_execution read_repair self run_id gate queue w in
  is_ok run.1 = false ∧ ref_map run.2.1 = ref_map w.1
  ∨ ∃ e, e ∈ recorded run.2.2 ∧ icr_repair_commit e = c.
Proof.
  cbv zeta.
  pose proof (wp_repair self read_execution read_repair recorded run_id gate queue decision id Hau w) as Hw.
  assert (Hsame : ∀ e w', anchored_run recorded run_id gate queue decision id e w w' → icr_repair_commit e = c).
  { intros e w' (He & _ & [Hin|(_ & _ & [Hn|Hs])] & _); [by destruct (Hnone e Hin)|..];
      unfold staging in *; congruence. }
  unfold wp in Hw. destruct (repair _ _ _ _ _ _ w) as [[e|x] w']; cbn [fst snd is_ok].
  - destruct Hw as (_ & Ha & _). right. exists e. split; [apply Ha|by eapply Hsame].
  - destruct Hw as (_ & _ & [[Ho|[Ho _]]|(e & Ha)]).
    + by left.
    + unfold staging in *. congruence.
    + right. exists e. split; [apply Ha|by eapply Hsame].
Qed.

Lemma orphan_anchor_blocks_repair_witness :
  is_ok (toy_repair false (abandoned.1, empty_ledger true)).1 = false
  ∧ tr_refs (st_repo (toy_repair false (abandoned.1, empty_ledger true)).2.1) = tr_refs (st_repo abandoned.1).
Proof.
  destruct (@orphan_anchor_blocks_repair (site_machine false) (site_files false) (site_refs false) _ _
    (toy_team false) _ read_toy_worker read_toy_repair toy_recorded _ 1%N toy_gate gate_queue toy_decision
    "run-1" (abandoned.1, empty_ledger true) repair_oid toy_authorized) as [[Hf Hr]|(e & Hin & He)].
  - vm_compute. reflexivity.
  - intros e He. by apply not_elem_of_nil in He.
  - split; [exact Hf|]. vm_compute. reflexivity.
  - exfalso. assert (Hn : tl_commits (toy_repair false (abandoned.1, empty_ledger true)).2.2 = [])
      by (vm_compute; reflexivity).
    assert (Hl : e ∈ toy_recorded (toy_repair false (abandoned.1, empty_ledger true)).2.2) by exact Hin.
    unfold toy_recorded in Hl. rewrite Hn in Hl. by apply not_elem_of_nil in Hl.
Defined.

(** A task whose objective has more than 3796 characters can never be
    repaired: the narrowed contract puts 204 characters in front of it, which
    the bound of 4000 rejects after a human has authorized the repair. *)
Theorem long_objective_blocks_repair `{Files, !Refs, !RefUpdateLaws} {L} (self : Collaborators L)
    `{!CollaboratorLaws self} read_execution read_repair run_id gate queue h l snapshot task
    (Hload : load_run self run_id l = Ok snapshot)
    (Htask : _task_contract snapshot (igs_task_id gate) = Ok task)
    (Hnone : _existing_repair read_repair snapshot gate = Ok None)
    (Hlong : (3796 < str_len (tc_objective task))%nat) :
  let run := repair read_execution read_repair self run_id gate queue (h, l) in
  is_ok run.1 = false ∧ ref_map run.2.1 = ref_map h ∧ run.2.2 = l.
Proof.
  cbv zeta.
  assert (Hc : is_ok (_conflict_only_task task gate) = false).
  { unfold _conflict_only_task, TaskContract_new. cbn [tc_task_id tc_objective].
    destruct (valid_if _ "task_id"); [|done]. cbn [mbind result_bind].
    unfold valid_if at 1, check. rewrite str_len_app. assert (Hp : str_len conflict_objective = 204%nat)
      by (vm_compute; reflexivity). rewrite Hp.
    destruct (str_len (tc_objective task)) as [|n]; [lia|].
    replace (204 + S n <=? 4000)%nat with false by (symmetry; apply Nat.leb_gt; lia).
    by rewrite andb_false_r. }
  enough (Hw : wp (repair read_execution read_repair self run_id gate queue) (λ _ _, False)
    (λ _ w', ref_map w'.1 = ref_map h ∧ w'.2 = l) (h, l)).
  { unfold wp in Hw. by destruct (repair _ _ _ _ _ _ (h, l)) as [[e|x] w']. }
  unfold repair. apply wp_lift_bind; [intros _ _|done].
  apply wp_bind. unfold wp at 1, on_ledger. cbn [fst snd]. rewrite Hload.
  rewrite Htask. apply wp_lift_bind; [intros ? [= <-]|done].
  apply wp_lift_bind; [intros worker _|done]. apply wp_lift_bind; [intros _ _|done].
  apply wp_on_machine_keeps; [intros h'; apply resolve_refs| |done].
  intros ws h1 _ Eh1. apply wp_on_machine_keeps; [apply base_clean_unmoved| |].
  2:{ intros e h2 Eh2. cbn. split; [congruence|done]. }
  intros _ h2 _ Eh2. rewrite Hnone. apply wp_lift_bind; [intros ? [= <-]|done].
  apply wp_lift_bind; [intros t Ht; by rewrite Ht in Hc|]. intros e _. cbn. split; [congruence|done].
Qed.

Definition long_objective : string := of_chars (replicate 4000 "x"%char).
Definition long_ledger : toy_ledger :=
  {| tl_objective := long_objective; tl_accepts := true; tl_commits := [] |}.
Lemma long_objective_blocks_repair_witness :
  is_ok (TaskContract_new (toy_task long_objective)) = true
  ∧ is_ok (toy_repair false (toy_start, long_ledger)).1 = false.
Proof.
  split; [vm_compute; reflexivity|].
  refine (proj1 (@long_objective_blocks_repair (site_machine false) (site_files false) (site_refs false) _ _
    (toy_team false) _ read_toy_worker read_toy_repair 1%N toy_gate gate_queue toy_start long_ledger
    (toy_snapshot long_ledger) (toy_task long_objective) eq_refl _ _ _)); [vm_compute; reflexivity..|].
  apply Nat.ltb_lt. vm_compute. reflexivity.
Defined.
