(* ===== verification/EvidenceStore.v ===== *)
(** * EvidenceStore: the transactional store of runtime evidence

    [persistence/repository.py], [persistence/serialization.py],
    [trace/persistence.py] and [persistence/operator.py].  The store keeps
    runs, their tasks and the evidence accepted for them, and projects every
    accepted fact into the runtime event log.

    A [Ledger] is the relational store with the projects and the evidence
    table.  The subclasses of the store differ in one method, the event draft
    of an evidence row: it is an argument of the operations here, as the
    method is of the class.  What Pydantic does ([model_dump] and reading the
    fields of a model) is the interface [Pydantic]; the validators it runs on
    the fields are those of the models.  [ensure_project] is overridden by
    every store the system composes and is left out. *)
From stdpp Require Import options.
From S2P Require Import Prelude Contracts Json Store Events Lease RunModels AgentModels Developer Recovery Merge Conflict Dispatch IntegrationRepair.
Open Scope Z_scope.

(** ** Equality of JSON values *)
Fixpoint json_eqb (a b : JSON) : bool :=
  match a, b with
  | JNull, JNull => true
  | JBool x, JBool y => eqb x y
  | JInt x, JInt y => x =? y
  | JStr x, JStr y => bool_decide (x = y)
  | JList l, JList k =>
      (fix go l k := match l, k with
                     | [], [] => true
                     | x :: l, y :: k => json_eqb x y && go l k
                     | _, _ => false
                     end) l k
  | JObj l, JObj k =>
      (fix go l k := match l, k with
                     | [], [] => true
                     | x :: l, y :: k => bool_decide (x.1 = y.1) && json_eqb x.2 y.2 && go l k
                     | _, _ => false
                     end) l k
  | _, _ => false
  end.
Lemma json_eqb_spec a b : json_eqb a b = true ↔ a = b.
Proof.
  revert b. induction a as [| | | |l IH|fs IH] using JSON_nested_ind; intros [| | | |k|gs]; cbn; try done.
  - rewrite eqb_true_iff. by split; [intros ->|intros [= ->]].
  - rewrite Z.eqb_eq. by split; [intros ->|intros [= ->]].
  - rewrite bool_decide_eq_true. by split; [intros ->|intros [= ->]].
  - revert k. induction IH as [|x l Hx _ IH]; intros [|y k]; try done.
    rewrite andb_true_iff, Hx, IH. split; [by intros [-> [= ->]]|by intros [= -> ->]].
  - revert gs. induction IH as [|[x v] l Hx _ IH]; intros [|[y w] k]; try done. cbn in *.
    rewrite !andb_true_iff, bool_decide_eq_true, Hx, IH.
    split; [by intros [[-> ->] [= ->]]|by intros [= -> -> ->]].
Qed.
#[export] Instance JSON_eq_dec : EqDecision JSON.
Proof.
  intros a b. destruct (json_eqb a b) eqn:E; [left|right].
  - by apply json_eqb_spec.
  - intros H%json_eqb_spec. congruence.
Defined.

(** ** [PersistenceEvidenceKind] *)
Definition evidence_kind_value (k : PersistenceEvidenceKind) : string :=
  match k with
  | STATE_TRANSITION => "STATE_TRANSITION" | DEVELOPER_RUN => "DEVELOPER_RUN"
  | VERIFICATION_RESULT => "VERIFICATION_RESULT" | REVIEW_DECISION => "REVIEW_DECISION"
  | REPAIR_RUN => "REPAIR_RUN" | FAILURE_REPORT => "FAILURE_REPORT"
  | MERGE_QUEUE_SNAPSHOT => "MERGE_QUEUE_SNAPSHOT" | EK_MERGE_CONFLICT => "MERGE_CONFLICT"
  | INTEGRATION_GATE => "INTEGRATION_GATE" | HUMAN_DECISION => "HUMAN_DECISION"
  | INTEGRATION_REPAIR => "INTEGRATION_REPAIR" | CONTEXT_REFERENCE => "CONTEXT_REFERENCE"
  | DISPATCH_EVENT => "DISPATCH_EVENT" | WORKER_EXECUTION => "WORKER_EXECUTION"
  | TRACE_BATCH => "TRACE_BATCH" | OPERATOR_ACTION => "OPERATOR_ACTION"
  | TASK_CHECKPOINT => "TASK_CHECKPOINT" | WORKFLOW_MATCH => "WORKFLOW_MATCH"
  | WORKFLOW_EXECUTION => "WORKFLOW_EXECUTION"
  end.
Definition all_evidence_kinds : list PersistenceEvidenceKind := [
  STATE_TRANSITION; DEVELOPER_RUN; VERIFICATION_RESULT; REVIEW_DECISION; REPAIR_RUN; FAILURE_REPORT;
  MERGE_QUEUE_SNAPSHOT; EK_MERGE_CONFLICT; INTEGRATION_GATE; HUMAN_DECISION; INTEGRATION_REPAIR;
  CONTEXT_REFERENCE; DISPATCH_EVENT; WORKER_EXECUTION; TRACE_BATCH; OPERATOR_ACTION; TASK_CHECKPOINT;
  WORKFLOW_MATCH; WORKFLOW_EXECUTION].
Definition all_run_statuses : list PersistedRunStatus := [PRS_RUNNING; PRS_SUCCEEDED; PRS_FAILED].

(** ** [models/multi_run.py] *)
Record MultiTaskRunResult : Set := {
  mtr_run_id : UUID;
  mtr_status : TaskRunState;
  mtr_task_ids : list string;
  mtr_succeeded_task_ids : list string;
  mtr_failed_task_ids : list string;
  mtr_aborted_task_ids : list string;
  mtr_blocked_task_ids : list string;
  mtr_abort_evidence_fingerprints : list string;
  mtr_integration_head : option string;
  mtr_merge_evidence_id : option Z;
  mtr_merge_evidence_sha256 : option string;
}.
Definition disjoint_groups (groups : list (list string)) : bool :=
  no_duplicates (mjoin (elements <$> (list_to_set (C := gset string) <$> groups))).
Definition multi_terminal_shape (self : MultiTaskRunResult) : result MultiTaskRunResult :=
  let groups := [mtr_succeeded_task_ids self; mtr_failed_task_ids self;
                 mtr_aborted_task_ids self; mtr_blocked_task_ids self] in
  let succeeded := list_to_set (C := gset string) (mtr_succeeded_task_ids self) in
  let failed := mtr_failed_task_ids self in
  let aborted := mtr_aborted_task_ids self in
  let task_ids := list_to_set (C := gset string) (mtr_task_ids self) in
  valid_if (bool_decide (mtr_status self = RUN_SUCCEEDED ∨ mtr_status self = RUN_FAILED))
    "MultiTaskRunResult status must be terminal" ;;
  valid_if (no_duplicates (mtr_task_ids self)) "task_ids must be unique" ;;
  valid_if (forallb no_duplicates groups) "terminal task groups must not contain duplicates" ;;
  valid_if (disjoint_groups groups) "terminal task groups must be disjoint" ;;
  valid_if (bool_decide (list_to_set (mjoin groups) = task_ids))
    "terminal task groups must cover the complete DAG" ;;
  valid_if (length (mtr_abort_evidence_fingerprints self) =? length aborted)%nat
    "each aborted task requires one human-decision evidence fingerprint" ;;
  valid_if (no_duplicates (mtr_abort_evidence_fingerprints self))
    "abort evidence fingerprints must be unique" ;;
  valid_if (forallb is_sha256_hex (mtr_abort_evidence_fingerprints self))
    "abort evidence fingerprints must be lowercase SHA-256 values" ;;
  valid_if (eqb (is_none (mtr_merge_evidence_id self)) (is_none (mtr_merge_evidence_sha256 self)))
    "merge evidence id and digest must be present together" ;;
  if decide (mtr_status self = RUN_SUCCEEDED) then
    valid_if (bool_decide (failed = []) && bool_decide (aborted = [])
              && bool_decide (mtr_blocked_task_ids self = []) && bool_decide (succeeded = task_ids))
      "successful DAG Runs require every task to succeed" ;;
    valid_if (bool_decide (mtr_abort_evidence_fingerprints self = []))
      "successful DAG Runs cannot contain human abort evidence" ;;
    valid_if (negb (is_none (mtr_integration_head self)) && negb (is_none (mtr_merge_evidence_id self)))
      "successful DAG Runs require complete integration evidence" ;;
    Ok self
  else
    valid_if (negb (bool_decide (failed = []) && bool_decide (aborted = [])))
      "failed DAG Runs require a failed worker or explicit human abort" ;;
    Ok self.
Definition MultiTaskRunResult_new (raw : MultiTaskRunResult) : result MultiTaskRunResult :=
  valid_if (min_length 1 (mtr_task_ids raw)) "task_ids" ;;
  valid_if (match mtr_integration_head raw with Some h => oid_ok h | None => true end)
    "integration_head" ;;
  valid_if (opt_ge 1 (mtr_merge_evidence_id raw)) "merge_evidence_id" ;;
  valid_if (opt_sha256_ok (mtr_merge_evidence_sha256 raw)) "merge_evidence_sha256" ;;
  multi_terminal_shape raw.

(** ** [persistence/serialization.py] *)
Class OtherModels : Type := {
  (** Evidence models of parts outside this development: context references,
      trace batches, operator requests and workflow records. *)
  OtherEvidence : Set;
}.
Inductive EvidenceModel `{OtherModels} : Set :=
  | EM_RunEvent (x : RunEvent)
  | EM_DeveloperRunResult (x : DeveloperRunResult)
  | EM_VerificationResult (x : VerificationResult)
  | EM_ReviewDecision (x : ReviewDecision)
  | EM_RepairRunResult (x : RepairRunResult)
  | EM_FailureReport (x : FailureReport)
  | EM_MergeQueueSnapshot (x : MergeQueueSnapshot)
  | EM_MergeConflictEvidence (x : MergeConflictEvidence)
  | EM_IntegrationGateSnapshot (x : IntegrationGateSnapshot)
  | EM_HumanIntegrationDecision (x : HumanIntegrationDecision)
  | EM_IntegrationConflictRepairEvidence (x : IntegrationConflictRepairEvidence)
  | EM_WorkerDispatchEvent (x : WorkerDispatchEvent)
  | EM_WorkerExecutionEvidence (x : WorkerExecutionEvidence)
  | EM_TaskCheckpoint (x : TaskCheckpoint)
  | EM_Other (x : OtherEvidence).
Inductive TerminalRunResult : Set :=
  | SingleTask (x : SingleTaskRunResult)
  | MultiTask (x : MultiTaskRunResult).
Definition terminal_status (r : TerminalRunResult) : TaskRunState :=
  match r with SingleTask x => sr_status x | MultiTask x => mtr_status x end.

(** Pydantic: what a model is as JSON, and the fields it reads from JSON. *)
Class Pydantic `{OtherModels} : Type := {
  dump_evidence : EvidenceModel → JSON;
  dump_terminal : TerminalRunResult → JSON;
  dump_task : TaskContract → JSON;
  read_task : JSON → result TaskContract;
  read_single : JSON → result SingleTaskRunResult;
  read_multi : JSON → result MultiTaskRunResult;
  read_run_event : JSON → result RunEvent;
  read_developer : JSON → result DeveloperRunResult;
  read_verification : JSON → result VerificationResult;
  read_review : JSON → result ReviewDecision;
  read_repair_run : JSON → result RepairRunResult;
  read_failure : JSON → result FailureReport;
  read_queue : JSON → result MergeQueueSnapshot;
  read_conflict : JSON → result MergeConflictEvidence;
  read_gate : JSON → result IntegrationGateSnapshot;
  read_decision : JSON → result HumanIntegrationDecision;
  read_integration_repair : JSON → result IntegrationConflictRepairEvidence;
  read_dispatch_event : JSON → result WorkerDispatchEvent;
  read_worker_execution : JSON → result WorkerExecutionEvidence;
  read_checkpoint : JSON → result TaskCheckpoint;
  read_other : PersistenceEvidenceKind → JSON → result OtherEvidence;
}.
Definition RepairRunResult_new (raw : RepairRunResult) : result RepairRunResult :=
  valid_if (1 <=? rpr_attempt raw) "attempt" ;;
  valid_if (min_length 1 (rpr_failure_types raw)) "failure_types" ;;
  valid_if (0 <=? rpr_iterations raw) "iterations" ;;
  valid_if (0 <=? rpr_tool_calls raw) "tool_calls" ;;
  valid_if (0 <=? rpr_latency_ms raw) "latency_ms" ;;
  Ok raw.
Definition TaskCheckpoint_new (raw : TaskCheckpoint) : result TaskCheckpoint :=
  let summary_ok s := (str_len s <=? 512)%nat in
  valid_if (text_ok 1 128 (cpt_task_id raw)) "task_id" ;;
  valid_if (oid_ok (cpt_base_commit raw)) "base_commit" ;;
  valid_if (oid_ok (cpt_commit_sha raw)) "commit_sha" ;;
  valid_if ((1 <=? length (cpt_changed_files raw)) && (length (cpt_changed_files raw) <=? 512))%nat
    "changed_files" ;;
  valid_if (text_ok 1 512 (cpt_summary raw)) "summary" ;;
  valid_if ((1 <=? cpt_slice_index raw) && (cpt_slice_index raw <=? 20)) "slice_index" ;;
  valid_if ((1 <=? cpt_max_slices raw) && (cpt_max_slices raw <=? 20)) "max_slices" ;;
  valid_if (0 <=? cpt_elapsed_ms raw) "elapsed_ms" ;;
  valid_if (match cpt_resume_from_commit raw with Some c => oid_ok c | None => true end)
    "resume_from_commit" ;;
  valid_if (summary_ok (cpt_completed_summary raw)) "completed_summary" ;;
  valid_if (summary_ok (cpt_remaining_summary raw)) "remaining_summary" ;;
  valid_if (summary_ok (cpt_verification_summary raw)) "verification_summary" ;;
  valid_if (summary_ok (cpt_failure_summary raw)) "failure_summary" ;;
  valid_if (length (cpt_completed_interfaces raw) <=? 16)%nat "completed_interfaces" ;;
  valid_if (length (cpt_remaining_interfaces raw) <=? 16)%nat "remaining_interfaces" ;;
  valid_if (opt_ge 0 (cpt_remaining_budget_tokens raw)) "remaining_budget_tokens" ;;
  Ok raw.

(** [_CURRENT_SCHEMA_VERSION[kind]] *)
Definition evidence_schema_version (kind : PersistenceEvidenceKind) : Z :=
  if decide (kind = DEVELOPER_RUN) then 2 else 1.

Section serialization.
Context (sha256 : string → string) `{Pydantic}.

Definition canonical_payload (payload : JSON) : JSON * string := (payload, payload_sha256 sha256 payload).

(** [model.model_validate(payload)]: the fields are read, then the validators run. *)
Definition validates {A} (read : JSON → result A) (new : A → result A) (wrap : A → EvidenceModel)
    (payload : JSON) : result EvidenceModel :=
  raw ← read payload;
  x ← new raw;
  Ok (wrap x).
(** [_EVIDENCE_MODELS[kind].model_validate] *)
Definition _EVIDENCE_MODELS (kind : PersistenceEvidenceKind) : JSON → result EvidenceModel :=
  match kind with
  | STATE_TRANSITION => validates read_run_event RunEvent_new EM_RunEvent
  | DEVELOPER_RUN => validates read_developer DeveloperRunResult_new EM_DeveloperRunResult
  | VERIFICATION_RESULT => validates read_verification VerificationResult_new EM_VerificationResult
  | REVIEW_DECISION => validates read_review ReviewDecision_new EM_ReviewDecision
  | REPAIR_RUN => validates read_repair_run RepairRunResult_new EM_RepairRunResult
  | FAILURE_REPORT => validates read_failure FailureReport_new EM_FailureReport
  | MERGE_QUEUE_SNAPSHOT => validates read_queue MergeQueueSnapshot_validate EM_MergeQueueSnapshot
  | EK_MERGE_CONFLICT => validates read_conflict MergeConflictEvidence_new EM_MergeConflictEvidence
  | INTEGRATION_GATE => validates read_gate IntegrationGateSnapshot_new EM_IntegrationGateSnapshot
  | HUMAN_DECISION =>
      validates read_decision HumanIntegrationDecision_new EM_HumanIntegrationDecision
  | INTEGRATION_REPAIR =>
      validates read_integration_repair IntegrationConflictRepairEvidence_new
        EM_IntegrationConflictRepairEvidence
  | DISPATCH_EVENT => validates read_dispatch_event WorkerDispatchEvent_new EM_WorkerDispatchEvent
  | WORKER_EXECUTION =>
      validates read_worker_execution WorkerExecutionEvidence_new EM_WorkerExecutionEvidence
  | TASK_CHECKPOINT => validates read_checkpoint TaskCheckpoint_new EM_TaskCheckpoint
  | CONTEXT_REFERENCE | TRACE_BATCH | OPERATOR_ACTION | WORKFLOW_MATCH | WORKFLOW_EXECUTION =>
      λ payload, x ← read_other kind payload; Ok (EM_Other x)
  end.

(** [normalized_payload.setdefault("execution_budget", None)] *)
Definition set_default (key : string) (payload : JSON) : JSON :=
  match payload with
  | JObj fields => if is_none (get_field key fields) then JObj (fields ++ [(key, JNull)]) else payload
  | _ => payload
  end.
Definition decode_evidence (kind : PersistenceEvidenceKind) (payload : JSON)
    (schema_version : option Z) : result EvidenceModel :=
  let current_version := evidence_schema_version kind in
  let version := default current_version schema_version in
  check (negb ((version <? 1) || (current_version <? version))) PersistenceCorruptionError
    ("unsupported " +:+ evidence_kind_value kind +:+ " payload schema version "
     +:+ str_of_Z version) ;;
  let normalized := if decide (kind = DEVELOPER_RUN ∧ version = 1)
                    then set_default "execution_budget" payload else payload in
  corruption ("persisted " +:+ evidence_kind_value kind +:+ " payload failed typed validation")
    (_EVIDENCE_MODELS kind normalized).

Definition validate_single (payload : JSON) : result TerminalRunResult :=
  raw ← read_single payload;
  x ← SingleTaskRunResult_new raw;
  Ok (SingleTask x).
Definition validate_multi (payload : JSON) : result TerminalRunResult :=
  raw ← read_multi payload;
  x ← MultiTaskRunResult_new raw;
  Ok (MultiTask x).
Definition decode_terminal_result (payload : JSON) : result TerminalRunResult :=
  match validate_single payload with
  | Ok r => Ok r
  | Raise e =>
      if subclass (exn_kind e) ValueError then
        corruption "persisted terminal run result failed both single-task and multi-task typed validation"
          (validate_multi payload)
      else Raise e
  end.
End serialization.

(** ** [persistence/models.py]: projects and evidence *)
Record ProjectRow : Set := {
  pj_id : UUID;
  pj_repository_url : string;
  pj_canonical_repository_url : string;
  pj_default_branch : string;
  pj_provision_status : string;
  pj_lifecycle_state : string;
  pj_provision_error_code : option string;
  pj_provision_error_message : option string;
  pj_last_provisioned_at : option Z;
  pj_last_synced_at : option Z;
  pj_last_synced_commit : option string;
  pj_created_at : Z;
}.
Record Ledger : Set := {
  lg_db : Database;
  lg_projects : gmap UUID ProjectRow;
  lg_evidence : list EvidenceRow;
  lg_next_evidence_id : Z;
}.
Definition lg_set_db (db : Database) (l : Ledger) : Ledger :=
  {| lg_db := db; lg_projects := lg_projects l; lg_evidence := lg_evidence l;
     lg_next_evidence_id := lg_next_evidence_id l |}.
Definition add_evidence_row (r : EvidenceRow) (l : Ledger) : Ledger :=
  {| lg_db := lg_db l; lg_projects := lg_projects l; lg_evidence := lg_evidence l ++ [r];
     lg_next_evidence_id := lg_next_evidence_id l + 1 |}.
Definition in_db {A} (m : DB A) : M Ledger A := λ l,
  let '(r, db) := m (lg_db l) in (r, lg_set_db db l).

(** The constraints of [evidence_records]. *)
Definition evidence_row_ok (r : EvidenceRow) (l : Ledger) : bool :=
  forallb (λ x, negb (bool_decide (evr_run_id x = evr_run_id r ∧ evr_evidence_key x = evr_evidence_key r)))
    (lg_evidence l)
  && bool_decide (is_Some (db_runs (lg_db l) !! evr_run_id r))
  && match evr_task_id r with
     | Some t => bool_decide (is_Some (db_tasks (lg_db l) !! (evr_run_id r, t)))
     | None => true
     end
  && match evr_sequence r with Some n => int4 n | None => true end.
Definition insert_evidence (r : EvidenceRow) : M Ledger unit :=
  l ← get;
  ensure (evidence_row_ok r l) IntegrityError "evidence_records" ;;
  modify (add_evidence_row r).

(** ** Event drafts of evidence *)
Definition opt_json {A} (f : A → JSON) (o : option A) : JSON :=
  match o with Some a => f a | None => JNull end.
(** [task.lease_generation if task is not None and task.lease_generation else None] *)
Definition draft_generation (task : option TaskRow) : option Z :=
  g ← lease_generation <$> task;
  if g =? 0 then None else Some g.
Definition draft_dispatch (task : option TaskRow) : option UUID := task ≫= lease_dispatch_id.
(** [_EVIDENCE_EVENT_SOURCES] *)
Definition _EVIDENCE_EVENT_SOURCES (kind : PersistenceEvidenceKind) : option RuntimeEventSource :=
  match kind with
  | STATE_TRANSITION | FAILURE_REPORT | CONTEXT_REFERENCE | TASK_CHECKPOINT | WORKFLOW_MATCH
  | WORKFLOW_EXECUTION => Some SRC_RUNTIME
  | DEVELOPER_RUN => Some SRC_AGENT
  | VERIFICATION_RESULT => Some SRC_VERIFICATION
  | REVIEW_DECISION => Some SRC_REVIEW
  | REPAIR_RUN => Some SRC_REPAIR
  | MERGE_QUEUE_SNAPSHOT | EK_MERGE_CONFLICT | INTEGRATION_GATE | HUMAN_DECISION =>
      Some SRC_INTEGRATION
  | DISPATCH_EVENT => Some SRC_DISPATCH
  | WORKER_EXECUTION => Some SRC_WORKER
  | INTEGRATION_REPAIR | TRACE_BATCH | OPERATOR_ACTION => None
  end.
(** A method [_evidence_event_draft]. *)
Definition EventDraft : Type :=
  EvidenceRow → option TaskRow → PersistenceEvidenceKind → result RuntimeEventDraft.
Definition _evidence_event_draft : EventDraft := λ row task kind,
  source ← of_option (Exn KeyError (evidence_kind_value kind)) (_EVIDENCE_EVENT_SOURCES kind);
  RuntimeEventDraft_new {|
    ed_event_key := "evidence:" +:+ str_of_Z (evr_id row);
    ed_kind := EVIDENCE_RECORDED;
    ed_source := source;
    ed_level := match kind with
                | FAILURE_REPORT => ERROR
                | EK_MERGE_CONFLICT => WARNING
                | _ => INFO
                end;
    ed_task_id := evr_task_id row;
    ed_dispatch_id := draft_dispatch task;
    ed_generation := draft_generation task;
    ed_message := "Accepted " +:+ evidence_kind_value kind +:+ " evidence.";
    ed_attributes := [
      ("evidence_id", JInt (evr_id row));
      ("evidence_key", JStr (evr_evidence_key row));
      ("evidence_kind", JStr (evidence_kind_value kind));
      ("stage", opt_json JStr (evr_stage row));
      ("evidence_sequence", opt_json JInt (evr_sequence row));
      ("payload_sha256", JStr (evr_payload_sha256 row))] |}.

(** *** [trace/persistence.py] *)
(** [data.get(key, absent)] *)
Definition get_default (key : string) (absent : JSON) (payload : JSON) : JSON :=
  match payload with JObj fields => default absent (get_field key fields) | _ => absent end.
Definition safe_path (j : JSON) : bool :=
  match j with
  | JStr path => negb (bool_decide (path = "")) && (str_len path <=? 512)%nat
  | _ => false
  end.
Definition _activity_summary (payload : JSON) : JSON :=
  let files := match get_default "changed_files" JNull payload with JList l => l | _ => [] end in
  JObj [("iterations", get_default "iterations" (JInt 0) payload);
        ("tool_calls", get_default "tool_calls" (JInt 0) payload);
        ("latency_ms", get_default "latency_ms" (JInt 0) payload);
        ("changed_files", JList (filter safe_path (take 20 files)));
        ("changed_file_count", JInt (Z.of_nat (length files)))].
Definition continuation_summary (payload : JSON) : JSON :=
  JObj [("slice_index", get_default "slice_index" (JInt 1) payload);
        ("max_slices", get_default "max_slices" (JInt 1) payload);
        ("elapsed_ms", get_default "elapsed_ms" (JInt 0) payload);
        ("resume_from_commit", get_default "resume_from_commit" JNull payload);
        ("remaining_summary", get_default "remaining_summary" (JStr "") payload)].
(** [draft.model_copy(update={"attributes": {**draft.attributes, key: value}})] *)
Definition with_attribute (key : string) (value : JSON) (d : RuntimeEventDraft) : RuntimeEventDraft := {|
  ed_event_key := ed_event_key d; ed_kind := ed_kind d; ed_source := ed_source d;
  ed_level := ed_level d; ed_task_id := ed_task_id d; ed_dispatch_id := ed_dispatch_id d;
  ed_generation := ed_generation d; ed_message := ed_message d;
  ed_attributes := ed_attributes d ++ [(key, value)] |}.
Definition trace_event_draft : EventDraft := λ row task kind,
  match kind with
  | TRACE_BATCH =>
      RuntimeEventDraft_new {|
        ed_event_key := "evidence:" +:+ str_of_Z (evr_id row);
        ed_kind := EVIDENCE_RECORDED; ed_source := SRC_AGENT; ed_level := INFO;
        ed_task_id := evr_task_id row; ed_dispatch_id := draft_dispatch task;
        ed_generation := draft_generation task;
        ed_message := "Diagnostic trace batch recorded.";
        ed_attributes := [
          ("evidence_id", JInt (evr_id row)); ("evidence_key", JStr (evr_evidence_key row));
          ("kind", JStr (evidence_kind_value kind)); ("stage", opt_json JStr (evr_stage row));
          ("sequence", opt_json JInt (evr_sequence row));
          ("payload_sha256", JStr (evr_payload_sha256 row));
          ("diagnostic_only", JBool true); ("privacy_mode", JStr "METADATA_ONLY")] |}
  | TASK_CHECKPOINT =>
      draft ← _evidence_event_draft row task kind;
      Ok (with_attribute "continuation" (continuation_summary (evr_payload row)) draft)
  | DEVELOPER_RUN | REPAIR_RUN =>
      draft ← _evidence_event_draft row task kind;
      Ok (with_attribute "activity" (_activity_summary (evr_payload row)) draft)
  | _ => _evidence_event_draft row task kind
  end.
(** *** [persistence/operator.py] *)
Definition operator_event_draft : EventDraft := λ row task kind,
  if decide (kind = OPERATOR_ACTION) then
    RuntimeEventDraft_new {|
      ed_event_key := "evidence:" +:+ str_of_Z (evr_id row);
      ed_kind := EVIDENCE_RECORDED; ed_source := SRC_RUNTIME; ed_level := INFO;
      ed_task_id := None; ed_dispatch_id := None; ed_generation := None;
      ed_message := "Accepted OPERATOR_ACTION request evidence.";
      ed_attributes := [
        ("evidence_id", JInt (evr_id row)); ("evidence_key", JStr (evr_evidence_key row));
        ("evidence_kind", JStr (evidence_kind_value kind)); ("stage", opt_json JStr (evr_stage row));
        ("evidence_sequence", opt_json JInt (evr_sequence row));
        ("payload_sha256", JStr (evr_payload_sha256 row));
        ("request_only", JBool true); ("fresh_revalidation_required", JBool true)] |}
  else _evidence_event_draft row task kind.

(** ** [persistence/repository.py] *)
Definition _optional_text (value : option string) (name : string) (max_length : nat)
    : result (option string) :=
  match value with
  | None => Ok None
  | Some value => text ← _required_text value name max_length; Ok (Some text)
  end.
(** [str(uuid)] *)
Definition uuid_str (u : UUID) : string :=
  let h := chars (uuid_hex u) in
  let part i n := of_chars (take n (drop i h)) in
  part 0%nat 8%nat +:+ "-" +:+ part 8%nat 4%nat +:+ "-" +:+ part 12%nat 4%nat +:+ "-"
  +:+ part 16%nat 4%nat +:+ "-" +:+ part 20%nat 12%nat.
(** [PostgresEvidenceStore._locked_task] *)
Definition evidence_task (run_id : UUID) (task_id : string) : DB TaskRow := λ db,
  (of_option (Exn ValueError ("evidence task '" +:+ task_id +:+ "' does not belong to run"))
     (db_tasks db !! (run_id, task_id)), db).
Definition _same_evidence (row : EvidenceRow) (task_id : option string)
    (kind : PersistenceEvidenceKind) (stage : option string) (sequence : option Z)
    (payload_sha256 : string) : bool :=
  bool_decide (evr_task_id row = task_id)
  && bool_decide (evr_kind row = evidence_kind_value kind)
  && bool_decide (evr_stage row = stage)
  && bool_decide (evr_sequence row = sequence)
  && (evr_schema_version row =? evidence_schema_version kind)
  && bool_decide (evr_payload_sha256 row = payload_sha256).
Definition find_evidence (run_id : UUID) (key : string) (l : list EvidenceRow) : option EvidenceRow :=
  find (λ r, bool_decide (evr_run_id r = run_id ∧ evr_evidence_key r = key)) l.

Definition new_run_row (run_id project_id : UUID) (commit : string) (now : Z) : RunRow := {|
  rr_id := run_id; rr_project_id := project_id; rr_base_commit := commit; rr_status := "RUNNING";
  rr_display_status := "RUNNING"; rr_recovery_reason := None; rr_recovery_checked_at := None;
  rr_recovery_run_id := None; rr_visibility_status := "VISIBLE"; rr_event_sequence := 0;
  rr_dag_sha256 := None; rr_terminal_result := None; rr_terminal_result_sha256 := None;
  rr_started_at := now; rr_finished_at := None |}.
Definition new_task_row (run_id : UUID) (task_id : string) (contract : JSON) (digest : string)
    (now : Z) : TaskRow := {|
  tr_run_id := run_id; tr_task_id := task_id; tr_contract := contract; tr_contract_sha256 := digest;
  tr_depends_on := None; tr_node_metadata := None; lease_owner := None; lease_dispatch_id := None;
  lease_generation := 0; run_token := None; lease_acquired_at := None; heartbeat_at := None;
  lease_until := None; lease_released_at := None; tr_created_at := now |}.
Definition insert_run (r : RunRow) : DB unit :=
  db ← get;
  check_sql (bool_decide (db_runs db !! rr_id r = None)) "runs_pkey" ;;
  modify (set_runs (<[rr_id r := r]> (db_runs db))).
Definition insert_task (t : TaskRow) : DB unit :=
  db ← get;
  check_sql (bool_decide (db_tasks db !! (tr_run_id t, tr_task_id t) = None)) "tasks_pkey" ;;
  check_sql (bool_decide (is_Some (db_runs db !! tr_run_id t))) "tasks_run_id_fkey" ;;
  modify (set_tasks (<[(tr_run_id t, tr_task_id t) := t]> (db_tasks db))).
(** [except IntegrityError as exc: raise PersistenceConflictError(message) from exc] *)
Definition integrity_conflict {S A} (message : string) (m : M S A) : M S A := λ s,
  match m s with
  | (Raise e, s') =>
      (if subclass (exn_kind e) IntegrityError then raise PersistenceConflictError message
       else Raise e, s')
  | r => r
  end.
(** The terminal columns of a run. *)
Definition with_terminal (status : PersistedRunStatus) (payload : JSON) (digest : string) (now : Z)
    (r : RunRow) : RunRow := {|
  rr_id := rr_id r; rr_project_id := rr_project_id r; rr_base_commit := rr_base_commit r;
  rr_status := PersistedRunStatus_value status; rr_display_status := rr_display_status r;
  rr_recovery_reason := rr_recovery_reason r; rr_recovery_checked_at := rr_recovery_checked_at r;
  rr_recovery_run_id := rr_recovery_run_id r; rr_visibility_status := rr_visibility_status r;
  rr_event_sequence := rr_event_sequence r; rr_dag_sha256 := rr_dag_sha256 r;
  rr_terminal_result := Some payload; rr_terminal_result_sha256 := Some digest;
  rr_started_at := rr_started_at r; rr_finished_at := Some now |}.

Section store.
Context (sha256 : string → string) `{Pydantic}.
(** The method of the class. *)
Context (evidence_event_draft : EventDraft).

Definition started_draft (project_id : UUID) (commit : string) (task_count : nat)
    : RuntimeEventDraft := {|
  ed_event_key := "run:started"; ed_kind := RUN_STARTED; ed_source := SRC_PERSISTENCE;
  ed_level := INFO; ed_task_id := None; ed_dispatch_id := None; ed_generation := None;
  ed_message := "Persisted run started.";
  ed_attributes := [("project_id", JStr (uuid_str project_id)); ("base_commit", JStr commit);
                    ("task_count", JInt (Z.of_nat task_count))] |}.
Definition start_run (e : Env) (project_id : UUID) (tasks : list TaskContract) (base_commit : string)
    (run_id : option UUID) : M Ledger UUID :=
  let commit := lower (strip base_commit) in
  ensure (oid_ok commit) ValueError
    "base_commit must be a 40-64 character lowercase Git object id" ;;
  ensure (negb (bool_decide (tasks = []))) ValueError
    "persisted runs require at least one TaskContract" ;;
  ensure (no_duplicates (tc_task_id <$> tasks)) ValueError "persisted run task ids must be unique" ;;
  let candidate_run_id := default (env_uuid4 e 0) run_id in
  integrity_conflict "run identity already exists or violates persistence constraints" (transaction (
    l ← get;
    ensure (bool_decide (is_Some (lg_projects l !! project_id))) ValueError
      "unknown persistence project" ;;
    in_db (insert_run (new_run_row candidate_run_id project_id commit (env_now e))) ;;
    for_each tasks (λ task,
      let '(payload, digest) := canonical_payload sha256 (dump_task task) in
      in_db (insert_task (new_task_row candidate_run_id (tc_task_id task) payload digest (env_now e)))) ;;
    draft ← lift (RuntimeEventDraft_new (started_draft project_id commit (length tasks)));
    in_db (append_runtime_event sha256 (env_uuid4 e 1) (env_now e) candidate_run_id draft))) ;;
  mret candidate_run_id.

(** The fence of a task-scoped write. *)
Definition fenced (e : Env) (task : TaskRow) (token : option UUID) : M Ledger unit :=
  if negb (is_none token) || negb (is_none (run_token task)) then
    observed_at ← lift (database_time e);
    lift (assert_live_current_run_token task token observed_at)
  else mret tt.
Definition append_evidence (e : Env) (run_id : UUID) (evidence_key : string)
    (kind : PersistenceEvidenceKind) (payload_model : EvidenceModel) (task_id stage : option string)
    (sequence : option Z) (token : option UUID) : M Ledger Z :=
  key ← lift (_required_text evidence_key "evidence_key" 255);
  normalized_task ← lift (_optional_text task_id "task_id" 128);
  normalized_stage ← lift (_optional_text stage "stage" 64);
  ensure (opt_ge 0 sequence) ValueError "evidence sequence must be non-negative" ;;
  let '(payload, digest) := canonical_payload sha256 (dump_evidence payload_model) in
  let schema_version := evidence_schema_version kind in
  lift (decode_evidence kind payload (Some schema_version)) ;;
  transaction (
    run ← in_db (_locked_run run_id);
    ensure (bool_decide (rr_status run = "RUNNING")) PersistenceConflictError
      "terminal persisted runs are append-closed" ;;
    task ← match normalized_task with
           | None => mret None
           | Some name =>
               task ← in_db (evidence_task run_id name);
               fenced e task token ;;
               mret (Some task)
           end;
    l ← get;
    match find_evidence run_id key (lg_evidence l) with
    | Some existing =>
        if _same_evidence existing normalized_task kind normalized_stage sequence digest
        then mret (evr_id existing)
        else throw PersistenceConflictError
          ("evidence key '" +:+ key +:+ "' was reused for different evidence")
    | None =>
        let row := {|
          evr_id := lg_next_evidence_id l; evr_run_id := run_id; evr_task_id := normalized_task;
          evr_evidence_key := key; evr_kind := evidence_kind_value kind;
          evr_stage := normalized_stage; evr_sequence := sequence;
          evr_schema_version := schema_version; evr_payload := payload;
          evr_payload_sha256 := digest; evr_created_at := env_now e |} in
        insert_evidence row ;;
        draft ← lift (evidence_event_draft row task kind);
        in_db (append_runtime_event sha256 (env_uuid4 e 0) (env_now e) run_id draft) ;;
        mret (evr_id row)
    end).

(** [record_context_reference], given the fields of the reference it uses. *)
Definition record_context_reference (e : Env) (run_id : UUID) (reference : OtherEvidence)
    (reference_task_id reference_stage evidence_key : string) (sequence : option Z)
    (token : option UUID) : M Ledger Z :=
  append_evidence e run_id evidence_key CONTEXT_REFERENCE (EM_Other reference)
    (Some reference_task_id) (Some reference_stage) sequence token.

(** [f"{n:04d}"] *)
Definition pad4 (n : Z) : string :=
  let s := str_of_Z n in
  of_chars (replicate (4 - str_len s) "0"%char) +:+ s.
Definition finalized_draft (status : PersistedRunStatus) (digest : string) (task_id : option string)
    (dispatch_id : option UUID) (generation : option Z) (message : string)
    (counts : list (string * JSON)) : RuntimeEventDraft := {|
  ed_event_key := "run:finalized"; ed_kind := RUN_FINALIZED; ed_source := SRC_PERSISTENCE;
  ed_level := if decide (status = PRS_FAILED) then ERROR else INFO;
  ed_task_id := task_id; ed_dispatch_id := dispatch_id; ed_generation := generation;
  ed_message := message +:+ PersistedRunStatus_value status +:+ ".";
  ed_attributes := [("status", JStr (PersistedRunStatus_value status));
                    ("terminal_result_sha256", JStr digest)] ++ counts |}.
(** The last statements of a finalisation. *)
Definition set_terminal (e : Env) (run : RunRow) (status : PersistedRunStatus) (payload : JSON)
    (digest : string) (draft : RuntimeEventDraft) : M Ledger unit :=
  in_db (update_run (with_terminal status payload digest (env_now e) run)) ;;
  draft ← lift (RuntimeEventDraft_new draft);
  in_db (append_runtime_event sha256 (env_uuid4 e 0) (env_now e) (rr_id run) draft) ;;
  mret tt.
(** The same terminal evidence may be written again. *)
Definition already_final (run : RunRow) (status : PersistedRunStatus) (payload : JSON)
    (digest message : string) : M Ledger unit :=
  ensure (bool_decide (rr_status run = PersistedRunStatus_value status)
          && bool_decide (rr_terminal_result_sha256 run = Some digest)
          && bool_decide (rr_terminal_result run = Some payload)) PersistenceConflictError message.
(** [select(TaskRow).where(run_id).order_by(task_id)] *)
Definition run_tasks (run_id : UUID) (db : Database) : list TaskRow :=
  select_tasks (λ t, bool_decide (tr_run_id t = run_id)) db.
Definition finalize_single_task_run (e : Env) (run_id : UUID) (result : SingleTaskRunResult)
    (token : option UUID) : M Ledger unit :=
  let '(payload, digest) := canonical_payload sha256 (dump_terminal (SingleTask result)) in
  persisted_status ← lift (from_task_state (sr_status result));
  transaction (
    run ← in_db (_locked_run run_id);
    l ← get;
    task ← lift (match run_tasks run_id (lg_db l) with
                 | [task] => if decide (tr_task_id task = sr_task_id result) then Ok task
                             else raise PersistenceConflictError
                               "SingleTaskRunResult can finalize only a run containing exactly that task"
                 | _ => raise PersistenceConflictError
                          "SingleTaskRunResult can finalize only a run containing exactly that task"
                 end);
    fenced e task token ;;
    if negb (bool_decide (rr_status run = "RUNNING")) then
      already_final run persisted_status payload digest
        "persisted run was already finalized with different terminal evidence"
    else
      set_terminal e run persisted_status payload digest
        (finalized_draft persisted_status digest (Some (sr_task_id result)) (lease_dispatch_id task)
           (draft_generation (Some task)) "Persisted run finalized as " [])).
(** [record_single_task_result_evidence]; [envs] is what the transaction of an
    evidence key finds. *)
Definition record_single_task_result_evidence (envs : string → Env) (run_id : UUID)
    (result : SingleTaskRunResult) (token : option UUID) : M Ledger unit :=
  let append key kind model stage sequence :=
    append_evidence (envs key) run_id key kind model (Some (sr_task_id result)) (Some stage)
      (Some sequence) token ;; mret tt in
  for_each (sr_events result) (λ event,
    append ("state:" +:+ pad4 (re_sequence event)) STATE_TRANSITION (EM_RunEvent event) "runtime"
      (re_sequence event)) ;;
  match sr_developer result with
  | Some developer =>
      append "developer:0000" DEVELOPER_RUN (EM_DeveloperRunResult developer) "developer" 0
  | None => mret tt
  end ;;
  for_each (imap pair (sr_verifications result)) (λ '(index, verification),
    append ("verification:" +:+ pad4 (Z.of_nat index)) VERIFICATION_RESULT
      (EM_VerificationResult verification) "verification" (Z.of_nat index)) ;;
  for_each (imap pair (sr_reviews result)) (λ '(index, review),
    append ("review:" +:+ pad4 (Z.of_nat index)) REVIEW_DECISION (EM_ReviewDecision review) "review"
      (Z.of_nat index)) ;;
  for_each (sr_repairs result) (λ repair,
    append ("repair:" +:+ pad4 (rpr_attempt repair)) REPAIR_RUN (EM_RepairRunResult repair) "repair"
      (rpr_attempt repair)) ;;
  for_each (imap pair (sr_failures result)) (λ '(index, failure),
    append ("failure:" +:+ pad4 (Z.of_nat index)) FAILURE_REPORT (EM_FailureReport failure) "terminal"
      (Z.of_nat index)) ;;
  finalize_single_task_run (envs "run:finalized") run_id result token.

(** *** Reading a run back *)
Definition _decode_task (row : TaskRow) : result PersistedTask :=
  verify_payload_hash sha256 (tr_contract row) (tr_contract_sha256 row) ("task " +:+ tr_task_id row) ;;
  task ← corruption ("persisted task '" +:+ tr_task_id row +:+ "' failed TaskContract validation")
           (raw ← read_task (tr_contract row); TaskContract_new raw);
  check (bool_decide (tc_task_id task = tr_task_id row)) PersistenceCorruptionError
    "persisted task id disagrees with contract payload" ;;
  valid_if (is_sha256_hex (tr_contract_sha256 row)) "contract_sha256" ;;
  Ok {| pt_task := task; pt_contract_sha256 := tr_contract_sha256 row;
        pt_created_at := tr_created_at row |}.
Definition PersistedEvidence_new (raw : PersistedEvidence) : result PersistedEvidence :=
  valid_if (1 <=? pe_id raw) "id" ;;
  valid_if (match pe_task_id raw with Some t => str_len t <=? 128 | None => true end)%nat "task_id" ;;
  valid_if (text_ok 1 255 (pe_evidence_key raw)) "evidence_key" ;;
  valid_if (match pe_stage raw with Some t => str_len t <=? 64 | None => true end)%nat "stage" ;;
  valid_if (opt_ge 0 (pe_sequence raw)) "sequence" ;;
  valid_if (1 <=? pe_schema_version raw) "schema_version" ;;
  valid_if (is_dict (pe_payload raw)) "payload" ;;
  valid_if (is_sha256_hex (pe_payload_sha256 raw)) "payload_sha256" ;;
  Ok raw.
Definition _decode_evidence_row (row : EvidenceRow) : result PersistedEvidence :=
  verify_payload_hash sha256 (evr_payload row) (evr_payload_sha256 row)
    ("evidence " +:+ str_of_Z (evr_id row)) ;;
  kind ← corruption ("persisted evidence " +:+ str_of_Z (evr_id row) +:+ " has unknown kind")
           (enum_of all_evidence_kinds evidence_kind_value (evr_kind row));
  decode_evidence kind (evr_payload row) (Some (evr_schema_version row)) ;;
  PersistedEvidence_new {|
    pe_id := evr_id row; pe_run_id := evr_run_id row; pe_task_id := evr_task_id row;
    pe_evidence_key := evr_evidence_key row; pe_kind := kind; pe_stage := evr_stage row;
    pe_sequence := evr_sequence row; pe_schema_version := evr_schema_version row;
    pe_payload := evr_payload row; pe_payload_sha256 := evr_payload_sha256 row;
    pe_created_at := evr_created_at row |}.
(** [select(EvidenceRow).where(run_id).order_by(id)] *)
Definition run_evidence (run_id : UUID) (l : Ledger) : list EvidenceRow :=
  merge_sort evidence_le (filter (λ r, evr_run_id r = run_id) (lg_evidence l)).
Definition all_display_statuses : list string :=
  ["RUNNING"; "WAITING_EXTERNAL"; "RECOVERY_REQUIRED"; "FAILED"; "SUCCEEDED"].
(** The checks of [load_run] on the terminal result. *)
Definition check_terminal (run : RunRow) (status : PersistedRunStatus) : result unit :=
  match rr_terminal_result run with
  | None => Ok tt
  | Some terminal_result =>
      terminal_sha ← of_option (Exn PersistenceCorruptionError
                       "terminal result is missing its SHA-256 evidence")
                       (rr_terminal_result_sha256 run);
      verify_payload_hash sha256 terminal_result terminal_sha "terminal run result" ;;
      decoded ← decode_terminal_result terminal_result;
      expected ← from_task_state (terminal_status decoded);
      check (bool_decide (expected = status)) PersistenceCorruptionError
        "persisted run status disagrees with validated terminal result"
  end.
Definition load_run (run_id : UUID) (l : Ledger) : result PersistedRunSnapshot :=
  '(run, project) ← of_option (Exn ValueError "unknown persistence run")
    (run ← db_runs (lg_db l) !! run_id;
     project ← lg_projects l !! rr_project_id run;
     Some (run, project));
  tasks ← map_result _decode_task (run_tasks run_id (lg_db l));
  evidence ← map_result _decode_evidence_row (run_evidence run_id l);
  status ← corruption "persisted run has unknown status"
             (enum_of all_run_statuses PersistedRunStatus_value (rr_status run));
  check_terminal run status ;;
  display_status ← enum_of all_display_statuses id (rr_display_status run);
  PersistedRunSnapshot_new {|
    prs_run_id := rr_id run; prs_project_id := pj_id project;
    prs_repository_url := pj_repository_url project;
    prs_default_branch := pj_default_branch project;
    prs_base_commit := rr_base_commit run; prs_status := status; prs_display_status := display_status;
    prs_recovery_reason := rr_recovery_reason run;
    prs_recovery_checked_at := rr_recovery_checked_at run;
    prs_tasks := tasks; prs_evidence := evidence;
    prs_terminal_result := rr_terminal_result run;
    prs_terminal_result_sha256 := rr_terminal_result_sha256 run;
    prs_started_at := rr_started_at run; prs_finished_at := rr_finished_at run |}.
Definition list_evidence (run_id : UUID) (kind : option PersistenceEvidenceKind) (l : Ledger)
    : result (list PersistedEvidence) :=
  let selected (r : EvidenceRow) :=
    match kind with Some k => bool_decide (evr_kind r = evidence_kind_value k) | None => true end in
  map_result _decode_evidence_row (filter selected (run_evidence run_id l)).
Definition event_le (r s : RuntimeEventRow) : Prop := er_sequence r ≤ er_sequence s.
#[global] Instance event_le_dec : RelDecision event_le.
Proof. intros r s. unfold event_le. apply _. Defined.
Definition list_runtime_events (run_id : UUID) (task_id : option string) (dispatch_id : option UUID)
    (kind : option RuntimeEventKind) (source : option RuntimeEventSource) (after_sequence limit : Z)
    (l : Ledger) : result (list PersistedRuntimeEvent) :=
  check (0 <=? after_sequence) ValueError "after_sequence must be non-negative" ;;
  check ((1 <=? limit) && (limit <=? 1000)) ValueError
    "runtime event query limit must be between 1 and 1000" ;;
  normalized_task ← _optional_text task_id "task_id" 128;
  check (bool_decide (is_Some (db_runs (lg_db l) !! run_id))) ValueError "unknown persistence run" ;;
  let selected (r : RuntimeEventRow) :=
    bool_decide (er_run_id r = run_id) && (after_sequence <? er_sequence r)
    && match normalized_task with Some t => bool_decide (er_task_id r = Some t) | None => true end
    && match dispatch_id with Some d => bool_decide (er_dispatch_id r = Some d) | None => true end
    && match kind with Some k => bool_decide (er_kind r = kind_value k) | None => true end
    && match source with Some s => bool_decide (er_source r = source_value s) | None => true end in
  map_result (decode_runtime_event sha256)
    (take (Z.to_nat limit) (merge_sort event_le (filter selected (db_events (lg_db l))))).
End store.
