(* ===== verification/Completion.v ===== *)
(** * Completion: repair evidence and the end of a multi-task run

    [persistence/multi_completion.py] and [persistence/repair_completion.py]:
    the two subclasses of the evidence store that record an accepted conflict
    repair and finalise a run of several tasks.  A success is written only
    after the evidence of the run has been read again and found to support
    it; the repair-aware subclass extends that validation by one method, an
    argument of [finalize_multi_task_run] here.  Error messages do not carry
    the identifiers of the source. *)
From Stdlib Require QArith_base.
From stdpp Require Import options.
From S2P Require Import Prelude Contracts Dag Json Store Events Lease RunModels AgentModels Developer Recovery Merge Conflict Dispatch Reconcile IntegrationRepair EvidenceStore.
Open Scope Z_scope.

(** ** Equality of evidence models, field by field *)
#[export] Instance Q_structural_eq_dec : EqDecision QArith_base.Q. Proof. solve_decision. Defined.
#[export] Instance TokenUsage_eq_dec : EqDecision TokenUsage. Proof. solve_decision. Defined.
#[export] Instance DeveloperExecutionBudget_eq_dec : EqDecision DeveloperExecutionBudget.
Proof. solve_decision. Defined.
#[export] Instance DeveloperRunResult_eq_dec : EqDecision DeveloperRunResult.
Proof. solve_decision. Defined.
#[export] Instance CheckType_eq_dec : EqDecision CheckType. Proof. solve_decision. Defined.
#[export] Instance VerificationBackend_eq_dec : EqDecision VerificationBackend.
Proof. solve_decision. Defined.
#[export] Instance CheckResult_eq_dec : EqDecision CheckResult. Proof. solve_decision. Defined.
#[export] Instance VerificationResult_eq_dec : EqDecision VerificationResult.
Proof. solve_decision. Defined.
#[export] Instance ReviewSeverity_eq_dec : EqDecision ReviewSeverity. Proof. solve_decision. Defined.
#[export] Instance ReviewIssue_eq_dec : EqDecision ReviewIssue. Proof. solve_decision. Defined.
#[export] Instance ReviewDecision_eq_dec : EqDecision ReviewDecision. Proof. solve_decision. Defined.
#[export] Instance RepairProgressEvidence_eq_dec : EqDecision RepairProgressEvidence.
Proof. solve_decision. Defined.
#[export] Instance RepairRunResult_eq_dec : EqDecision RepairRunResult. Proof. solve_decision. Defined.
#[export] Instance RunEvent_eq_dec : EqDecision RunEvent. Proof. solve_decision. Defined.
#[export] Instance AgentUsageSummary_eq_dec : EqDecision AgentUsageSummary.
Proof. solve_decision. Defined.
#[export] Instance ContextFileDigest_eq_dec : EqDecision ContextFileDigest.
Proof. solve_decision. Defined.
#[export] Instance ContextContinuationState_eq_dec : EqDecision ContextContinuationState.
Proof. solve_decision. Defined.
#[export] Instance SingleTaskRunResult_eq_dec : EqDecision SingleTaskRunResult.
Proof. solve_decision. Defined.
#[export] Instance CheckpointReason_eq_dec : EqDecision CheckpointReason. Proof. solve_decision. Defined.
#[export] Instance TaskCheckpoint_eq_dec : EqDecision TaskCheckpoint. Proof. solve_decision. Defined.
#[export] Instance TaskContinuationSummary_eq_dec : EqDecision TaskContinuationSummary.
Proof. solve_decision. Defined.
#[export] Instance WorkerExecutionEvidence_eq_dec : EqDecision WorkerExecutionEvidence.
Proof. solve_decision. Defined.
#[export] Instance IntegrationConflictRepairEvidence_eq_dec :
  EqDecision IntegrationConflictRepairEvidence.
Proof. solve_decision. Defined.

(** The first field whose binding fails names the error. *)
Fixpoint bound_fields (c : exn_class) (msg : string) (fields : list (string * bool)) : result unit :=
  match fields with
  | [] => Ok tt
  | (field, same) :: fields => check same c (msg +:+ field) ;; bound_fields c msg fields
  end.
(** The members of a list that satisfy a test, when there is exactly one. *)
Definition exactly_one {A} (l : list A) (msg : string) : result A :=
  match l with [x] => Ok x | _ => raise PersistenceConflictError msg end.

Definition _SCHEMA_VERSION : Z := 1.
Section completion.
Context (sha256 : string → string) `{Pydantic}.

Definition repair_key (evidence : IntegrationConflictRepairEvidence) : string :=
  "integration:repair:" +:+ icr_task_id evidence +:+ ":"
  +:+ icr_conflict_evidence_fingerprint evidence.
Definition repair_draft (row_id : Z) (digest : string) (evidence : IntegrationConflictRepairEvidence)
    : RuntimeEventDraft := {|
  ed_event_key := "evidence:" +:+ str_of_Z row_id; ed_kind := EVIDENCE_RECORDED;
  ed_source := SRC_INTEGRATION; ed_level := INFO; ed_task_id := Some (icr_task_id evidence);
  ed_dispatch_id := None; ed_generation := None;
  ed_message := "Accepted human-authorized integration repair evidence recorded.";
  ed_attributes := [
    ("evidence_id", JInt row_id); ("evidence_kind", JStr (evidence_kind_value INTEGRATION_REPAIR));
    ("payload_sha256", JStr digest); ("repair_commit", JStr (icr_repair_commit evidence));
    ("conflict_evidence_fingerprint", JStr (icr_conflict_evidence_fingerprint evidence))] |}.
Definition record_integration_repair (e : Env) (evidence : IntegrationConflictRepairEvidence)
    : M Ledger (Z * string) :=
  let '(payload, digest) :=
    canonical_payload sha256 (dump_evidence (EM_IntegrationConflictRepairEvidence evidence)) in
  lift (decode_evidence INTEGRATION_REPAIR payload None) ;;
  let key := repair_key evidence in
  let run_id := icr_run_id evidence in
  transaction (
    run ← in_db (_locked_run run_id);
    ensure (bool_decide (rr_status run = "RUNNING")) PersistenceConflictError
      "terminal persisted runs are append-closed" ;;
    in_db (evidence_task run_id (icr_task_id evidence)) ;;
    l ← get;
    match find_evidence run_id key (lg_evidence l) with
    | Some existing =>
        lift (verify_payload_hash sha256 (evr_payload existing) (evr_payload_sha256 existing)
                ("integration repair evidence " +:+ str_of_Z (evr_id existing))) ;;
        ensure (bool_decide (evr_kind existing = evidence_kind_value INTEGRATION_REPAIR)
                && bool_decide (evr_task_id existing = Some (icr_task_id evidence))
                && bool_decide (evr_payload_sha256 existing = digest)
                && bool_decide (evr_payload existing = payload)) PersistenceConflictError
          "integration repair idempotency key was reused for different evidence" ;;
        mret (evr_id existing, digest)
    | None =>
        let row := {|
          evr_id := lg_next_evidence_id l; evr_run_id := run_id;
          evr_task_id := Some (icr_task_id evidence); evr_evidence_key := key;
          evr_kind := evidence_kind_value INTEGRATION_REPAIR;
          evr_stage := Some "integration_repair"; evr_sequence := None;
          evr_schema_version := _SCHEMA_VERSION; evr_payload := payload;
          evr_payload_sha256 := digest; evr_created_at := env_now e |} in
        insert_evidence row ;;
        draft ← lift (RuntimeEventDraft_new (repair_draft (evr_id row) digest evidence));
        in_db (append_runtime_event sha256 (env_uuid4 e 0) (env_now e) run_id draft) ;;
        mret (evr_id row, digest)
    end).

(** ** Reading the run again *)
Definition plain_node (task : TaskContract) (depends_on : list string) : TaskNode := {|
  tn_task := task; tn_depends_on := depends_on; tn_execution_mode := AGENT; tn_produces := [];
  tn_consumes := []; tn_complexity := None; tn_budget_allocation := None;
  tn_complexity_assessment := None; tn_resume_context := None |}.
Definition decode_node (row : TaskRow) : result TaskNode :=
  verify_payload_hash sha256 (tr_contract row) (tr_contract_sha256 row)
    ("task contract " +:+ tr_task_id row) ;;
  task ← validated read_task TaskContract_new "persisted task contract failed validation"
           (tr_contract row);
  sound_if (bool_decide (tc_task_id task = tr_task_id row))
    "persisted task row identity disagrees with its contract" ;;
  TaskNode_new (plain_node task (default [] (tr_depends_on row))).
Definition _decode_dag (rows : list TaskRow) : result TaskDAG :=
  check (2 <=? length rows)%nat PersistenceConflictError
    "MultiTaskRunResult can finalize only a persisted multi-task Run" ;;
  nodes ← map_result decode_node rows;
  TaskDAG_new nodes.
Definition worker_row (run_id : UUID) (decoded : gmap string WorkerExecutionEvidence)
    (row : EvidenceRow) : result (gmap string WorkerExecutionEvidence) :=
  if negb (bool_decide (evr_kind row = evidence_kind_value WORKER_EXECUTION)) then Ok decoded
  else
    verify_payload_hash sha256 (evr_payload row) (evr_payload_sha256 row)
      ("worker execution evidence " +:+ str_of_Z (evr_id row)) ;;
    item ← validated read_worker_execution WorkerExecutionEvidence_new
             "worker execution evidence failed validation" (evr_payload row);
    sound_if (bool_decide (we_run_id item = run_id)
              && bool_decide (evr_task_id row = Some (we_task_id item)))
      "worker execution evidence identity disagrees with persistence row" ;;
    sound_if (match decoded !! we_task_id item with
              | Some existing => bool_decide (existing = item)
              | None => true
              end) "task has conflicting terminal worker evidence" ;;
    Ok (<[we_task_id item := item]> decoded).
Definition _worker_evidence (rows : list EvidenceRow) (run_id : UUID)
    : result (gmap string WorkerExecutionEvidence) :=
  fold_result (worker_row run_id) ∅ rows.

Definition conflict_if_not (b : bool) (msg : string) : result unit := check b PersistenceConflictError msg.
(** [next((item for item in evidence_rows if item.id == id), None)] *)
Definition row_by_id (id : Z) (rows : list EvidenceRow) : option EvidenceRow :=
  find (λ r, evr_id r =? id) rows.
Definition of_worker (status : WorkerExecutionStatus) (worker : option WorkerExecutionEvidence) : bool :=
  match worker with Some x => bool_decide (we_status x = status) | None => false end.
(** [{item.task_id: item for item in merge.attempts}] *)
Definition attempts_by_task (attempts : list MergeQueueAttempt) : gmap string MergeQueueAttempt :=
  foldl (λ m a, <[mqa_task_id a := a]> m) ∅ attempts.
Definition attempt_matches (attempts : gmap string MergeQueueAttempt)
    (worker : string * WorkerExecutionEvidence) : bool :=
  match attempts !! worker.1 with
  | Some attempt =>
      bool_decide (we_commit_sha worker.2 = Some (mqa_task_commit attempt))
      && bool_decide (mqa_task_base_commit attempt = we_base_commit worker.2)
  | None => false
  end.
Definition _validate_success (terminal : MultiTaskRunResult) (dag : TaskDAG)
    (evidence_rows : list EvidenceRow) (workers : gmap string WorkerExecutionEvidence)
    : result unit :=
  conflict_if_not (bool_decide (dom workers = task_id_set dag))
    "successful DAG finalization requires terminal worker evidence for every task" ;;
  conflict_if_not (forallb (λ p, bool_decide (we_status p.2 = WE_SUCCEEDED)) (map_to_list workers))
    "successful DAG finalization cannot include failed worker evidence" ;;
  '(merge_id, merge_sha) ← of_option (Exn PersistenceConflictError
      "successful DAG finalization requires merge evidence identity")
    (i ← mtr_merge_evidence_id terminal; s ← mtr_merge_evidence_sha256 terminal; Some (i, s));
  row ← of_option (Exn PersistenceConflictError
            "successful DAG finalization references unavailable merge evidence")
          (row_by_id merge_id evidence_rows);
  conflict_if_not (bool_decide (evr_kind row = evidence_kind_value MERGE_QUEUE_SNAPSHOT))
    "successful DAG finalization references unavailable merge evidence" ;;
  conflict_if_not (bool_decide (evr_payload_sha256 row = merge_sha))
    "successful DAG finalization merge digest does not match persistence" ;;
  verify_payload_hash sha256 (evr_payload row) (evr_payload_sha256 row) "terminal merge snapshot" ;;
  merge ← validated read_queue MergeQueueSnapshot_validate
            "terminal merge queue evidence failed validation" (evr_payload row);
  conflict_if_not (negb (mqs_stopped merge)
                   && bool_decide (list_to_set (mqs_integrated_task_ids merge) = task_id_set dag))
    "successful DAG finalization requires every task to be integrated" ;;
  conflict_if_not (bool_decide (Some (mqs_head_commit merge) = mtr_integration_head terminal))
    "successful DAG finalization integration head changed" ;;
  conflict_if_not (forallb (attempt_matches (attempts_by_task (mqs_attempts merge)))
                     (map_to_list workers))
    "merge evidence does not match worker terminal evidence".

(** The human decisions on a task that name a conflict. *)
Definition decision_row (task_id : string) (row : EvidenceRow) : bool :=
  bool_decide (evr_kind row = evidence_kind_value HUMAN_DECISION)
  && bool_decide (evr_task_id row = Some task_id).
Definition read_human_decision (row : EvidenceRow) : result HumanIntegrationDecision :=
  verify_payload_hash sha256 (evr_payload row) (evr_payload_sha256 row)
    ("human decision evidence " +:+ str_of_Z (evr_id row)) ;;
  validated read_decision HumanIntegrationDecision_new "human decision evidence failed validation"
    (evr_payload row).
Definition _require_abort_decision (evidence_rows : list EvidenceRow) (task_id fingerprint : string)
    : result unit :=
  decisions ← map_result read_human_decision (filter (decision_row task_id) evidence_rows);
  decision ← exactly_one (filter (λ d, hid_evidence_fingerprint d = fingerprint) decisions)
               "aborted DAG task requires exactly one bound human decision";
  conflict_if_not (bool_decide (hid_decision decision = ABORT))
    "aborted DAG task is not backed by an ABORT decision".
Definition _validate_failure (terminal : MultiTaskRunResult) (dag : TaskDAG)
    (evidence_rows : list EvidenceRow) (workers : gmap string WorkerExecutionEvidence)
    : result unit :=
  blocked ← blocked_task_ids dag
              (list_to_set (mtr_failed_task_ids terminal ++ mtr_aborted_task_ids terminal));
  conflict_if_not (bool_decide (list_to_set (C := gset string) blocked
                                = list_to_set (mtr_blocked_task_ids terminal)))
    "failed DAG terminal result does not match dependency-derived blocked tasks" ;;
  conflict_if_not (forallb (λ t, of_worker WE_FAILED (workers !! t)) (mtr_failed_task_ids terminal))
    "failed DAG task lacks failed worker evidence" ;;
  conflict_if_not (forallb (λ t, of_worker WE_SUCCEEDED (workers !! t))
                     (mtr_succeeded_task_ids terminal))
    "successful DAG task lacks successful worker evidence" ;;
  conflict_if_not (forallb (λ t, is_none (workers !! t)) (mtr_blocked_task_ids terminal))
    "blocked DAG task unexpectedly has worker terminal evidence" ;;
  check (length (mtr_aborted_task_ids terminal)
         =? length (mtr_abort_evidence_fingerprints terminal))%nat ValueError
    "zip() arguments have different lengths" ;;
  fold_result (λ _ '(task_id, fingerprint),
    conflict_if_not (of_worker WE_SUCCEEDED (workers !! task_id))
      "human-aborted integration task lacks successful worker evidence" ;;
    _require_abort_decision evidence_rows task_id fingerprint) tt
    (zip (mtr_aborted_task_ids terminal) (mtr_abort_evidence_fingerprints terminal)).

(** ** [persistence/repair_completion.py] *)
Definition read_repair_evidence (row : EvidenceRow) : result IntegrationConflictRepairEvidence :=
  verify_payload_hash sha256 (evr_payload row) (evr_payload_sha256 row)
    ("integration repair evidence " +:+ str_of_Z (evr_id row)) ;;
  validated read_integration_repair IntegrationConflictRepairEvidence_new
    "integration repair evidence failed validation" (evr_payload row).
(** One row of the loop of [_require_repair_authority]. *)
Definition authority_row (attempt : MergeQueueAttempt)
    (found : list IntegrationConflictRepairEvidence * list HumanIntegrationDecision)
    (row : EvidenceRow)
    : result (list IntegrationConflictRepairEvidence * list HumanIntegrationDecision) :=
  let fingerprint := mqa_conflict_evidence_fingerprint attempt in
  if negb (bool_decide (evr_task_id row = Some (mqa_task_id attempt))) then Ok found
  else if decide (evr_kind row = evidence_kind_value INTEGRATION_REPAIR) then
    repair ← read_repair_evidence row;
    Ok (if decide (Some (icr_conflict_evidence_fingerprint repair) = fingerprint)
        then (found.1 ++ [repair], found.2) else found)
  else if decide (evr_kind row = evidence_kind_value HUMAN_DECISION) then
    decision ← read_human_decision row;
    Ok (if decide (Some (hid_evidence_fingerprint decision) = fingerprint)
        then (found.1, found.2 ++ [decision]) else found)
  else Ok found.
Definition _require_repair_authority (terminal : MultiTaskRunResult) (attempt : MergeQueueAttempt)
    (evidence_rows : list EvidenceRow) : result unit :=
  sound_if (negb (is_none (mqa_integration_commit attempt)
                  || is_none (mqa_conflict_marker_commit attempt)
                  || is_none (mqa_conflict_evidence_fingerprint attempt)
                  || is_none (mqa_policy_fingerprint attempt)
                  || is_none (mqa_human_decision_commit attempt)))
    "repaired merge attempt lacks complete durable authority identity" ;;
  '(repairs, decisions) ← fold_result (authority_row attempt) ([], []) evidence_rows;
  repair ← exactly_one repairs "repaired task requires exactly one typed repair evidence";
  decision ← exactly_one decisions "repaired task requires exactly one human decision";
  bound_fields PersistenceConflictError "terminal repair evidence binding changed: " [
    ("run_id", bool_decide (icr_run_id repair = mtr_run_id terminal));
    ("task_id", bool_decide (icr_task_id repair = mqa_task_id attempt));
    ("integration_head",
      bool_decide (icr_integration_head repair = mqa_previous_integration_commit attempt));
    ("task_commit", bool_decide (icr_task_commit repair = mqa_task_commit attempt));
    ("conflict_marker_commit",
      bool_decide (Some (icr_conflict_marker_commit repair) = mqa_conflict_marker_commit attempt));
    ("conflict_evidence_fingerprint",
      bool_decide (Some (icr_conflict_evidence_fingerprint repair)
                   = mqa_conflict_evidence_fingerprint attempt));
    ("policy_fingerprint",
      bool_decide (Some (icr_policy_fingerprint repair) = mqa_policy_fingerprint attempt));
    ("human_decision_commit",
      bool_decide (Some (icr_human_decision_commit repair) = mqa_human_decision_commit attempt));
    ("repair_commit",
      bool_decide (Some (icr_repair_commit repair) = mqa_integration_commit attempt))] ;;
  conflict_if_not (bool_decide (hid_decision decision = AUTHORIZE_REPAIR))
    "repaired terminal integration is not backed by AUTHORIZE_REPAIR" ;;
  bound_fields PersistenceConflictError "terminal human repair decision binding changed: " [
    ("decision_commit",
      bool_decide (Some (hid_decision_commit decision) = mqa_human_decision_commit attempt));
    ("evidence_fingerprint",
      bool_decide (Some (hid_evidence_fingerprint decision)
                   = mqa_conflict_evidence_fingerprint attempt));
    ("policy_fingerprint",
      bool_decide (Some (hid_policy_fingerprint decision) = mqa_policy_fingerprint attempt));
    ("conflict_marker_commit",
      bool_decide (Some (hid_conflict_marker_commit decision)
                   = mqa_conflict_marker_commit attempt))].
(** [RepairAwarePostgresMultiTaskCompletionStore._validate_success] *)
Definition repair_aware_validate_success (terminal : MultiTaskRunResult) (dag : TaskDAG)
    (evidence_rows : list EvidenceRow) (workers : gmap string WorkerExecutionEvidence)
    : result unit :=
  _validate_success terminal dag evidence_rows workers ;;
  merge_id ← of_option (Exn PersistenceConflictError
               "successful DAG finalization requires merge evidence identity")
             (mtr_merge_evidence_id terminal);
  merge_row ← of_option (Exn PersistenceConflictError
                "terminal merge evidence disappeared during validation")
              (row_by_id merge_id evidence_rows);
  merge ← validated read_queue MergeQueueSnapshot_validate
            "terminal merge queue evidence failed repair-aware validation" (evr_payload merge_row);
  fold_result (λ _ attempt, _require_repair_authority terminal attempt evidence_rows) tt
    (filter (λ a, mqa_outcome a = Merge.REPAIRED) (mqs_attempts merge)).

(** ** The terminal write *)
Section finalize.
(** The method [_validate_success] of the class. *)
Context (validate_success : MultiTaskRunResult → TaskDAG → list EvidenceRow
                            → gmap string WorkerExecutionEvidence → result unit).
(** What is checked before a RUNNING run becomes terminal. *)
Definition supports (terminal : MultiTaskRunResult) (dag : TaskDAG) (rows : list EvidenceRow)
    : result unit :=
  workers ← _worker_evidence rows (mtr_run_id terminal);
  if decide (mtr_status terminal = RUN_SUCCEEDED) then validate_success terminal dag rows workers
  else _validate_failure terminal dag rows workers.
Definition finalize_multi_task_run (e : Env) (terminal : MultiTaskRunResult) : M Ledger unit :=
  let '(payload, digest) := canonical_payload sha256 (dump_terminal (MultiTask terminal)) in
  persisted_status ← lift (from_task_state (mtr_status terminal));
  let run_id := mtr_run_id terminal in
  transaction (
    run ← in_db (_locked_run run_id);
    l ← get;
    dag ← lift (_decode_dag (run_tasks run_id (lg_db l)));
    order ← lift (topological_order dag);
    ensure (bool_decide (order = mtr_task_ids terminal)) PersistenceConflictError
      "multi-task terminal result does not match the persisted DAG identity" ;;
    if negb (bool_decide (rr_status run = "RUNNING")) then
      already_final run persisted_status payload digest
        "persisted DAG Run was already finalized with different terminal evidence"
    else
      lift (supports terminal dag (run_evidence run_id l)) ;;
      set_terminal sha256 e run persisted_status payload digest
        (finalized_draft persisted_status digest None None None "Persisted DAG Run finalized as "
           [("task_count", JInt (Z.of_nat (length (mtr_task_ids terminal))));
            ("aborted_task_count", JInt (Z.of_nat (length (mtr_aborted_task_ids terminal))))])).
End finalize.
End completion.
