(* ===== verification/WorkPackages.v ===== *)
(** * WorkPackages: from a Planner's proposal to a task graph

    [models/work_package.py], [planning/work_packages.py] and
    [planning/complexity.py]: the validated packages of a proposal, the
    deterministic checks it has to pass, the conversion of the packages into
    a [TaskDAG] whose dependencies are derived from the interfaces they
    produce and consume, and the complexity heuristic of a task.

    The patterns of the delivery layers are alternatives of ASCII words
    between word boundaries, and of Chinese words; the latter never occur in
    the strings of this development, whose code points are below 256. *)
From stdpp Require Import options.
From S2P Require Import Prelude Contracts Dag Json.
Open Scope Z_scope.

(** ** [models/work_package.py] *)
Inductive WorkPackageRoutingMode : Set := SINGLE | MULTI.
Definition PlanningComplexity_value (c : PlanningComplexity) : string :=
  match c with LOW => "LOW" | MEDIUM => "MEDIUM" | HIGH => "HIGH" end.

Definition package_id_ok (s : string) : bool := (str_len s <=? 128)%nat && matches_id_pattern s.
Definition text_of (lo hi : nat) (s : string) : bool := ((lo <=? str_len s) && (str_len s <=? hi))%nat.
Definition size_in {A} (lo hi : nat) (l : list A) : bool := ((lo <=? length l) && (length l <=? hi))%nat.
Definition budget_ok (n : Z) : bool := (1000 <=? n) && (n <=? 20000).

Definition TaskBudgetAllocation_new (raw : TaskBudgetAllocation) : result TaskBudgetAllocation :=
  valid_if (package_id_ok (tba_package_id raw)) "package_id" ;;
  valid_if (budget_ok (tba_recommended_token_budget raw)) "recommended_token_budget" ;;
  Ok raw.

Record InterfaceContract : Set := {
  ic_interface_id : string;
  ic_producer_package_id : string;
  ic_consumer_package_ids : list string;
}.
Definition InterfaceContract_new (raw : InterfaceContract) : result InterfaceContract :=
  valid_if (text_of 1 256 (ic_interface_id raw)) "interface_id" ;;
  valid_if (package_id_ok (ic_producer_package_id raw)) "producer_package_id" ;;
  Ok raw.

Definition PlanningComplexityAssessment_new (raw : PlanningComplexityAssessment)
    : result PlanningComplexityAssessment :=
  valid_if (package_id_ok (pca_package_id raw)) "package_id" ;;
  valid_if ((0 <=? pca_score raw) && (pca_score raw <=? 100)) "score" ;;
  valid_if (size_in 1 8 (pca_reasons raw)) "reasons" ;;
  Ok raw.

Record WorkPackageRoutingAudit : Set := {
  wra_mode : WorkPackageRoutingMode;
  wra_reasons : list string;
  wra_delivery_layers : list string;
  wra_package_count : Z;
}.
Definition WorkPackageRoutingAudit_new (raw : WorkPackageRoutingAudit)
    : result WorkPackageRoutingAudit :=
  valid_if (size_in 1 8 (wra_reasons raw)) "reasons" ;;
  valid_if (size_in 0 4 (wra_delivery_layers raw)) "delivery_layers" ;;
  valid_if ((1 <=? wra_package_count raw) && (wra_package_count raw <=? 32)) "package_count" ;;
  Ok raw.

Record WorkPackage : Set := {
  wp_package_id : string;
  wp_objective : string;
  wp_deliverable : string;
  wp_owned_paths : list string;
  wp_readable_paths : list string;
  wp_produces : list string;
  wp_consumes : list string;
  wp_acceptance_criteria : list string;
  wp_verification_commands : list string;
  wp_estimated_complexity : PlanningComplexity;
  wp_recommended_token_budget : Z;
}.
Definition normalize_paths (values : list string) : result (list string) :=
  normalized ← map_result _normalize_scope_pattern values;
  valid_if (no_duplicates normalized) "work package paths must not contain duplicates" ;;
  Ok normalized.
Definition normalize_items (values : list string) : result (list string) :=
  normalized ← map_result _normalize_non_empty_text values;
  valid_if (no_duplicates normalized) "work package declarations must not contain duplicates" ;;
  Ok normalized.
Definition validate_boundaries (self : WorkPackage) : result WorkPackage :=
  valid_if (bool_decide ((list_to_set (wp_owned_paths self) : gset string)
                         ∩ list_to_set (wp_readable_paths self) = ∅))
    "owned_paths and readable_paths must not overlap" ;;
  valid_if (negb (bool_decide (wp_estimated_complexity self = LOW)
                  && (4000 <? wp_recommended_token_budget self)))
    "LOW work packages may not request more than 4000 tokens" ;;
  Ok self.
Definition WorkPackage_new (raw : WorkPackage) : result WorkPackage :=
  valid_if (package_id_ok (wp_package_id raw)) "package_id" ;;
  valid_if (text_of 1 1500 (wp_objective raw)) "objective" ;;
  objective ← _normalize_non_empty_text (wp_objective raw);
  valid_if (text_of 1 256 (wp_deliverable raw)) "deliverable" ;;
  deliverable ← _normalize_non_empty_text (wp_deliverable raw);
  valid_if (size_in 1 5 (wp_owned_paths raw)) "owned_paths" ;;
  owned_paths ← normalize_paths (wp_owned_paths raw);
  valid_if (size_in 0 32 (wp_readable_paths raw)) "readable_paths" ;;
  readable_paths ← normalize_paths (wp_readable_paths raw);
  valid_if (size_in 1 16 (wp_produces raw)) "produces" ;;
  produces ← normalize_items (wp_produces raw);
  valid_if (size_in 0 16 (wp_consumes raw)) "consumes" ;;
  consumes ← normalize_items (wp_consumes raw);
  valid_if (size_in 1 4 (wp_acceptance_criteria raw)) "acceptance_criteria" ;;
  acceptance_criteria ← normalize_items (wp_acceptance_criteria raw);
  valid_if (size_in 1 3 (wp_verification_commands raw)) "verification_commands" ;;
  verification_commands ← normalize_items (wp_verification_commands raw);
  valid_if (budget_ok (wp_recommended_token_budget raw)) "recommended_token_budget" ;;
  validate_boundaries {|
    wp_package_id := wp_package_id raw; wp_objective := objective; wp_deliverable := deliverable;
    wp_owned_paths := owned_paths; wp_readable_paths := readable_paths; wp_produces := produces;
    wp_consumes := consumes; wp_acceptance_criteria := acceptance_criteria;
    wp_verification_commands := verification_commands;
    wp_estimated_complexity := wp_estimated_complexity raw;
    wp_recommended_token_budget := wp_recommended_token_budget raw |}.

Record WorkPackagePlan : Set := { packages : list WorkPackage }.
Definition validate_unique_packages_and_interfaces (self : WorkPackagePlan)
    : result WorkPackagePlan :=
  valid_if (no_duplicates (wp_package_id <$> packages self)) "work package ids must be unique" ;;
  valid_if (no_duplicates (mjoin (wp_produces <$> packages self)))
    "each produced interface must have exactly one producer" ;;
  Ok self.
Definition WorkPackagePlan_new (raw : WorkPackagePlan) : result WorkPackagePlan :=
  valid_if (size_in 1 16 (packages raw)) "packages" ;;
  validate_unique_packages_and_interfaces raw.

(** ** The patterns of [planning/work_packages.py] *)
(** The class [\w] of a [str] pattern. *)
Definition is_word (c : ascii) : bool := is_latin1_alnum c || bool_decide (c = "_"%char).
Definition word_here (c : option ascii) : bool := match c with Some c => is_word c | None => false end.
(** [\b] between two neighbours *)
Definition boundary (before after : option ascii) : bool := xorb (word_here before) (word_here after).
(** The pattern is in lower case; [re.IGNORECASE]. *)
Fixpoint matches_ignorecase (w l : list ascii) : bool :=
  match w, l with
  | [], _ => true
  | c :: w, d :: l => bool_decide (lower_char d = c) && matches_ignorecase w l
  | _, [] => false
  end.
Definition word_at (before : option ascii) (l w : list ascii) : bool :=
  boundary before (head l) && matches_ignorecase w l
  && boundary (last (take (length w) l)) (head (drop (length w) l)).
Fixpoint search_words (words : list string) (before : option ascii) (l : list ascii) : bool :=
  existsb (λ w, word_at before l (chars w)) words
  || match l with [] => false | c :: l => search_words words (Some c) l end.
(** [pattern.search(text)] *)
Definition search (words : list string) (text : string) : bool :=
  search_words words None (chars text).

Definition _DELIVERY_LAYERS : list (string * list string) := [
  ("ui", ["ui"; "frontend"; "react"; "vue"; "html"; "css"]);
  ("data", ["database"; "storage"; "model"; "schema"]);
  ("algorithm", ["ai"; "algorithm"; "search"; "heuristic"]);
  ("interface", ["api"; "endpoint"; "route"; "server"])].
Definition _CORE_DELIVERABLE : list string := ["core"; "domain"; "model"; "algorithm"; "logic"].
Definition _INTERFACE_DELIVERABLE : list string :=
  ["ui"; "api"; "route"; "interface"; "frontend"; "server"].
Definition _INTEGRATION_DELIVERABLE : list string := ["test"; "integration"; "verify"].
(** The layers named by a text, in the order of [_DELIVERY_LAYERS]. *)
Definition layers_of (text : string) : list string :=
  fst <$> List.filter (λ layer, search layer.2 text) _DELIVERY_LAYERS.
Definition _delivery_layers (requirement : string) : list string := layers_of (strip requirement).

(** ** [WorkPackagePlanValidator] *)
Record WorkPackagePlanningResult : Set := {
  pr_dag : TaskDAG;
  pr_interface_contracts : list InterfaceContract;
  pr_budget_allocations : list TaskBudgetAllocation;
  pr_complexity_assessments : list PlanningComplexityAssessment;
  pr_routing_audit : WorkPackageRoutingAudit;
}.
Definition nat_str (n : nat) : string := str_of_Z (Z.of_nat n).

Definition package_text (package : WorkPackage) : string :=
  wp_objective package +:+ of_chars [ascii_of_nat 10] +:+ wp_deliverable package.
Definition _validate_single_deliverable (package : WorkPackage) : result unit :=
  let layers := layers_of (package_text package) in
  check (negb (2 <=? length layers)%nat) WorkPackagePlanError
    (wp_package_id package +:+ " combines multiple delivery layers (" +:+ join ", " layers
     +:+ "); split it into one primary deliverable per work package.").
Definition _validate_required_package_roles (plan : WorkPackagePlan) : result unit :=
  let texts := package_text <$> packages plan in
  check (existsb (search _CORE_DELIVERABLE) texts && existsb (search _INTERFACE_DELIVERABLE) texts
         && existsb (search _INTEGRATION_DELIVERABLE) texts) WorkPackagePlanError
    ("A multi-layer requirement must include distinct core, interface, and "
     +:+ "test/integration work packages.").

Definition declared_weight (c : PlanningComplexity) : Z :=
  match c with LOW => 5 | MEDIUM => 20 | HIGH => 40 end.
Definition _assessment (package : WorkPackage) : result PlanningComplexityAssessment :=
  let score := Z.of_nat (length (wp_owned_paths package)) * 5
               + Z.of_nat (length (wp_consumes package)) * 4 in
  let score := score + Z.of_nat (length (wp_verification_commands package)) * 3 in
  let score := score + declared_weight (wp_estimated_complexity package) in
  let reasons := [
    "owned_paths=" +:+ nat_str (length (wp_owned_paths package));
    "consumes=" +:+ nat_str (length (wp_consumes package));
    "verification_commands=" +:+ nat_str (length (wp_verification_commands package));
    "declared_complexity=" +:+ PlanningComplexity_value (wp_estimated_complexity package)] in
  PlanningComplexityAssessment_new {|
    pca_package_id := wp_package_id package; pca_complexity := wp_estimated_complexity package;
    pca_score := score; pca_reasons := reasons |}.

(** [path.split("/", 1)[0]] of the paths that contain a slash *)
Definition owned_root (path : string) : option string :=
  if in_string "/"%char path then head (split_on "/"%char path) else None.
(** [sum(bool(left & right) for each pair of packages)] *)
Fixpoint overlaps (sets : list (gset string)) : nat :=
  match sets with
  | [] => O
  | s :: rest => length (List.filter (λ s', negb (bool_decide (s ∩ s' = ∅))) rest) + overlaps rest
  end.
Definition _routing_audit (plan : WorkPackagePlan) (delivery_layers : list string)
    : result WorkPackageRoutingAudit :=
  let ps := packages plan in
  let owned_roots : gset string :=
    list_to_set (mjoin ((λ p, omap owned_root (wp_owned_paths p)) <$> ps)) in
  let dependencies := length (mjoin (wp_consumes <$> ps)) in
  let verification_sets : gset (list string) :=
    list_to_set ((λ p, sorted_strings (wp_verification_commands p)) <$> ps) in
  let parallel_packages := length (List.filter (λ p, bool_decide (wp_consumes p = [])) ps) in
  let readable_by_package := (λ p, list_to_set (wp_readable_paths p) : gset string) <$> ps in
  let overlap := overlaps readable_by_package in
  let single := (length ps =? 1)%nat in
  let reasons := [
    "delivery_layers=" +:+ (match delivery_layers with [] => "none" | l => join "," l end);
    "owned_path_roots=" +:+ nat_str (size owned_roots);
    "declared_interface_dependencies=" +:+ nat_str dependencies;
    "independent_verification_sets=" +:+ nat_str (size verification_sets);
    "parallel_candidates=" +:+ nat_str parallel_packages +:+ "; readable_overlap=" +:+ nat_str overlap;
    if single then "one bounded ownership/interface boundary; kept as a single package"
    else "Planner declared independent ownership/interface boundaries"] in
  WorkPackageRoutingAudit_new {|
    wra_mode := if single then SINGLE else MULTI; wra_reasons := reasons;
    wra_delivery_layers := delivery_layers; wra_package_count := Z.of_nat (length ps) |}.

(** A dict comprehension: a later item replaces an earlier one. *)
Definition dict_of {A} (items : list (string * A)) : gmap string A :=
  foldl (λ m item, <[item.1 := item.2]> m) ∅ items.
Definition produced_by (plan : WorkPackagePlan) : gmap string string :=
  dict_of (mjoin ((λ p, (λ interface, (interface, wp_package_id p)) <$> wp_produces p) <$> packages plan)).
(** [sorted(produced_by.items())]: the keys are distinct. *)
Definition sorted_items {A} (m : gmap string A) : list (string * A) := merge_sort key_le (map_to_list m).

Definition check_interface (produced : gmap string string) (package : WorkPackage)
    (interface : string) : result unit :=
  if str_startswith "repository:" interface then Ok tt
  else
    match produced !! interface with
    | None => raise WorkPackagePlanError
                (wp_package_id package +:+ " consumes undeclared interface '" +:+ interface +:+ "'.")
    | Some producer =>
        check (negb (bool_decide (producer = wp_package_id package))) WorkPackagePlanError
          (wp_package_id package +:+ " cannot consume its own produced interface '"
           +:+ interface +:+ "'.")
    end.
Definition check_package (produced : gmap string string) (package : WorkPackage) : result unit :=
  _validate_single_deliverable package ;;
  fold_result (λ _, check_interface produced package) tt (wp_consumes package).

Definition package_contract (package : WorkPackage) : result TaskContract :=
  TaskContract_new {|
    tc_task_id := wp_package_id package; tc_objective := wp_objective package;
    tc_readable_files := wp_readable_paths package; tc_writable_files := wp_owned_paths package;
    tc_readonly_files := []; tc_acceptance_criteria := wp_acceptance_criteria package;
    tc_verification_commands := wp_verification_commands package;
    tc_max_retries := if decide (wp_estimated_complexity package = LOW) then 1 else 2 |}.
Definition package_budget (package : WorkPackage) : result TaskBudgetAllocation :=
  TaskBudgetAllocation_new {|
    tba_package_id := wp_package_id package;
    tba_recommended_token_budget := wp_recommended_token_budget package |}.
Definition package_dependencies (produced : gmap string string) (package : WorkPackage)
    : list string :=
  sorted_set (list_to_set (omap (λ interface, produced !! interface) (wp_consumes package))).
Definition package_node (produced : gmap string string)
    (assessments : gmap string PlanningComplexityAssessment) (package : WorkPackage)
    : result TaskNode :=
  task ← package_contract package;
  allocation ← package_budget package;
  assessment ← of_option (Exn KeyError (wp_package_id package))
                 (assessments !! wp_package_id package);
  TaskNode_new {|
    tn_task := task; tn_depends_on := package_dependencies produced package;
    tn_execution_mode := AGENT; tn_produces := wp_produces package;
    tn_consumes := wp_consumes package; tn_complexity := Some (wp_estimated_complexity package);
    tn_budget_allocation := Some allocation; tn_complexity_assessment := Some assessment;
    tn_resume_context := None |}.
Definition interface_contract (plan : WorkPackagePlan) (item : string * string)
    : result InterfaceContract :=
  InterfaceContract_new {|
    ic_interface_id := item.1; ic_producer_package_id := item.2;
    ic_consumer_package_ids :=
      wp_package_id <$> List.filter (λ p, bool_decide (item.1 ∈ wp_consumes p)) (packages plan) |}.

Definition validate_and_convert (adaptive_routing_enabled : bool) (plan : WorkPackagePlan)
    (requirement : string) (max_tasks : Z) : result WorkPackagePlanningResult :=
  let ps := packages plan in
  check (negb (max_tasks <? Z.of_nat (length ps))) WorkPackagePlanError
    ("WorkPackagePlan contains " +:+ nat_str (length ps) +:+ " packages; maximum is "
     +:+ str_of_Z max_tasks +:+ ".") ;;
  let delivery_layers := _delivery_layers requirement in
  check (negb (negb adaptive_routing_enabled && (180 <? str_len (strip requirement))%nat
               && (length ps <? 3)%nat)) WorkPackagePlanError
    "Legacy routing requires a long requirement to be split into at least three packages." ;;
  let produced := produced_by plan in
  fold_result (λ _, check_package produced) tt ps ;;
  assessed ← map_result (λ p, a ← _assessment p; Ok (wp_package_id p, a)) ps;
  let assessments := dict_of assessed in
  tasks ← map_result (package_node produced assessments) ps;
  dag ← match TaskDAG_new tasks with
        | Ok dag => Ok dag
        | Raise e => if subclass (exn_kind e) ValueError
                     then raise WorkPackagePlanError (exn_message e) else Raise e
        end;
  interface_contracts ← map_result (interface_contract plan) (sorted_items produced);
  budget_allocations ← map_result package_budget ps;
  complexity_assessments ← map_result (λ p,
    of_option (Exn KeyError (wp_package_id p)) (assessments !! wp_package_id p)) ps;
  routing_audit ← _routing_audit plan delivery_layers;
  Ok {| pr_dag := dag; pr_interface_contracts := interface_contracts;
        pr_budget_allocations := budget_allocations;
        pr_complexity_assessments := complexity_assessments;
        pr_routing_audit := routing_audit |}.

(** ** [planning/complexity.py] *)
Record TaskComplexity : Set := {
  cx_task_id : string;
  cx_score : Z;
  cx_reasons : list string;
}.
Definition oversized (c : TaskComplexity) : bool := 6 <=? cx_score c.
(** A step adds to the score and may give a reason. *)
Abbreviation scored := (Z * list string)%type.
Definition add_score (n : Z) (reason : string) (s : scored) : scored := (s.1 + n, s.2 ++ [reason]).
Definition assess_task_complexity (task : TaskContract) : TaskComplexity :=
  let objective := str_len (tc_objective task) in
  let writable_count := length (tc_writable_files task) in
  let broad_scopes := Z.of_nat (length (List.filter (in_string "*"%char) (tc_writable_files task))) in
  let criteria := length (tc_acceptance_criteria task) in
  let commands := length (tc_verification_commands task) in
  let s : scored := (0, []) in
  let s := if (900 <? objective)%nat then add_score 2 "objective is longer than 900 characters" s
           else if (450 <? objective)%nat then add_score 1 "objective is longer than 450 characters" s
           else s in
  let owns := "owns " +:+ nat_str writable_count +:+ " writable scopes" in
  let s := if (4 <? writable_count)%nat then add_score 3 owns s
           else if (2 <? writable_count)%nat then add_score 1 owns s else s in
  let s := if broad_scopes =? 0 then s
           else add_score (2 `min` broad_scopes) "writable scope uses broad glob patterns" s in
  let contains := "contains " +:+ nat_str criteria +:+ " acceptance criteria" in
  let s := if (4 <? criteria)%nat then add_score 2 contains s
           else if (2 <? criteria)%nat then add_score 1 contains s else s in
  let s := if (3 <? commands)%nat
           then add_score 1 ("requires " +:+ nat_str commands +:+ " verification commands") s else s in
  {| cx_task_id := tc_task_id task; cx_score := s.1; cx_reasons := s.2 |}.

Record DAGComplexityReport : Set := { report_tasks : list TaskComplexity }.
Definition oversized_tasks (r : DAGComplexityReport) : list TaskComplexity :=
  List.filter oversized (report_tasks r).
Definition acceptable (r : DAGComplexityReport) : bool := bool_decide (length (oversized_tasks r) = O).
Definition summary (r : DAGComplexityReport) : string :=
  if acceptable r then "All tasks fit the single-agent implementation budget."
  else
    let detail c := cx_task_id c +:+ " (score=" +:+ str_of_Z (cx_score c) +:+ ": "
                    +:+ join ", " (cx_reasons c) +:+ ")" in
    "The following tasks are too broad for one bounded Developer Agent and must be "
    +:+ "split into independently verifiable tasks: " +:+ join "; " (detail <$> oversized_tasks r)
    +:+ ".".
Definition assess_dag_complexity (dag : TaskDAG) : DAGComplexityReport :=
  {| report_tasks := (λ n, assess_task_complexity (tn_task n)) <$> tasks dag |}.
