(* ===== verification/WorkPackageFacts.v ===== *)
(** * WorkPackageFacts: what an accepted proposal becomes

    A valid proposal is converted exactly when it passes the documented
    checks, and the graph it becomes has the packages as its tasks and the
    producer-consumer relation of their interfaces as its edges.  Three
    limits of the target types are tighter than those of the packages; they
    are the hypotheses [sized_plan] of the main theorem, and
    [large_package_raises] shows the first of them at work. *)
From stdpp Require Import options.
From S2P Require Import Prelude Contracts Dag DagFacts Json MergeMessages WorkPackages.
Open Scope Z_scope.
#[local] Arguments size_in : simpl never.

(** ** Dicts *)
Lemma dict_of_lookup {A} (items : list (string * A)) k v : NoDup (fst <$> items) →
  dict_of items !! k = Some v ↔ (k, v) ∈ items.
Proof.
  unfold dict_of. assert (Hgen : ∀ m : gmap string A, NoDup (fst <$> items) →
    foldl (λ m item, <[item.1 := item.2]> m) m items !! k = Some v
    ↔ (k, v) ∈ items ∨ k ∉ fst <$> items ∧ m !! k = Some v).
  { induction items as [|[x y] items IH]; intros m; cbn.
    { intros _. rewrite !elem_of_nil. naive_solver. }
    rewrite NoDup_cons. intros [Hx Hnd]. rewrite IH, lookup_insert_Some, !elem_of_cons by done.
    split.
    - intros [Hin|[Hk [[<- <-]|[Hne Hm]]]]; [by left; right|by left; left|right]. naive_solver.
    - intros [[[= -> ->]|Hin]|[Hk Hm]]; [right|by left|right]; naive_solver. }
  intros Hnd. rewrite Hgen by done. rewrite lookup_empty. naive_solver.
Qed.
Lemma elem_of_sorted_items {A} (m : gmap string A) k v : (k, v) ∈ sorted_items m ↔ m !! k = Some v.
Proof. unfold sorted_items. by rewrite merge_sort_Permutation, elem_of_map_to_list. Qed.

(** ** Valid packages *)
Record package_wf (p : WorkPackage) : Prop := {
  pw_id : package_id_ok (wp_package_id p) = true;
  pw_objective : _normalize_non_empty_text (wp_objective p) = Ok (wp_objective p);
  pw_objective_len : (str_len (wp_objective p) ≤ 1500)%nat;
  pw_owned : validate_scope_patterns (wp_owned_paths p) = Ok (wp_owned_paths p);
  pw_owned_len : size_in 1 5 (wp_owned_paths p) = true;
  pw_readable : validate_scope_patterns (wp_readable_paths p) = Ok (wp_readable_paths p);
  pw_produces : validate_non_empty_items (wp_produces p) = Ok (wp_produces p);
  pw_produces_len : size_in 1 16 (wp_produces p) = true;
  pw_consumes : validate_non_empty_items (wp_consumes p) = Ok (wp_consumes p);
  pw_consumes_len : size_in 0 16 (wp_consumes p) = true;
  pw_criteria : validate_non_empty_items (wp_acceptance_criteria p) = Ok (wp_acceptance_criteria p);
  pw_criteria_len : size_in 1 4 (wp_acceptance_criteria p) = true;
  pw_commands : validate_non_empty_items (wp_verification_commands p) = Ok (wp_verification_commands p);
  pw_commands_len : size_in 1 3 (wp_verification_commands p) = true;
  pw_budget : budget_ok (wp_recommended_token_budget p) = true;
}.
Lemma normalize_paths_valid l k : normalize_paths l = Ok k →
  validate_scope_patterns k = Ok k ∧ length k = length l.
Proof.
  intros H. assert (Hv : validate_scope_patterns l = Ok k).
  { unfold normalize_paths in H. unfold validate_scope_patterns. inv_valid. rewrite H0. cbn. by rewrite H1. }
  split; [by eapply validate_scope_patterns_fixed|]. by destruct (validate_scope_patterns_safe _ _ Hv) as (_ & _ & ?).
Qed.
Lemma normalize_items_valid l k : normalize_items l = Ok k →
  validate_non_empty_items k = Ok k ∧ length k = length l.
Proof.
  intros H. assert (Hv : validate_non_empty_items l = Ok k).
  { unfold normalize_items in H. unfold validate_non_empty_items. inv_valid. rewrite H0. cbn. by rewrite H1. }
  split; [by eapply validate_non_empty_items_fixed|]. by destruct (validate_non_empty_items_length _ _ Hv).
Qed.
Lemma size_in_same {A B} lo hi (l : list A) (k : list B) :
  length k = length l → size_in lo hi l = true → size_in lo hi k = true.
Proof. unfold size_in. by intros ->. Qed.
Lemma normalized_length lo hi v p : text_of lo hi v = true → _normalize_non_empty_text v = Ok p →
  (str_len p ≤ hi)%nat.
Proof.
  intros [_ Hv%Nat.leb_le]%andb_true_iff Hp. destruct (normalize_text_fixed _ _ Hp) as [_ ->].
  etrans; [apply str_len_strip|done].
Qed.
Lemma WorkPackage_new_wf raw p : WorkPackage_new raw = Ok p → package_wf p.
Proof.
  unfold WorkPackage_new, validate_boundaries. intros H. inv_valid.
  repeat match goal with
  | H : normalize_paths _ = Ok _ |- _ => apply normalize_paths_valid in H as [? ?]
  | H : normalize_items _ = Ok _ |- _ => apply normalize_items_valid in H as [? ?]
  | H : _normalize_non_empty_text (wp_deliverable _) = Ok _ |- _ => clear H
  end.
  split; cbn; try done; try (by eapply size_in_same; [|eassumption]).
  - by apply (normalize_text_fixed (wp_objective raw)).
  - by eapply normalized_length.
Qed.

(** A valid proposal: what [WorkPackagePlan(...)] accepts of valid packages. *)
Definition valid_plan (plan : WorkPackagePlan) : Prop :=
  WorkPackagePlan_new plan = Ok plan ∧ Forall (λ p, ∃ raw, WorkPackage_new raw = Ok p) (packages plan).
Record plan_wf (plan : WorkPackagePlan) : Prop := {
  pl_size : (1 ≤ length (packages plan) ≤ 16)%nat;
  pl_ids : NoDup (wp_package_id <$> packages plan);
  pl_interfaces : NoDup (mjoin (wp_produces <$> packages plan));
  pl_packages : ∀ p, p ∈ packages plan → package_wf p;
}.
Lemma valid_plan_wf plan : valid_plan plan → plan_wf plan.
Proof.
  unfold valid_plan, WorkPackagePlan_new, validate_unique_packages_and_interfaces.
  intros [H Hps]. inv_valid. to_prop. split; try done.
  - match goal with H : size_in _ _ _ = true |- _ => apply andb_true_iff in H as [?%Nat.leb_le ?%Nat.leb_le] end.
    done.
  - intros p Hp. rewrite Forall_forall in Hps. destruct (Hps p Hp) as [raw Hraw]. by eapply WorkPackage_new_wf.
Qed.

(** [feeds plan u t]: package [u] produces an interface package [t] consumes. *)
Definition feeds (plan : WorkPackagePlan) (u t : string) : Prop :=
  ∃ p q i, p ∈ packages plan ∧ wp_package_id p = u ∧ i ∈ wp_produces p
    ∧ q ∈ packages plan ∧ wp_package_id q = t ∧ i ∈ wp_consumes q.
Definition repository_interface (i : string) : bool := str_startswith "repository:" i.
(** The documented checks. *)
Record acceptable_plan (adaptive : bool) (plan : WorkPackagePlan) (requirement : string)
    (max_tasks : Z) : Prop := {
  ap_count : Z.of_nat (length (packages plan)) <= max_tasks;
  ap_legacy : adaptive = true ∨ (str_len (strip requirement) ≤ 180)%nat ∨ (3 ≤ length (packages plan))%nat;
  ap_layers : ∀ p, p ∈ packages plan → (length (layers_of (package_text p)) ≤ 1)%nat;
  ap_declared : ∀ p i, p ∈ packages plan → i ∈ wp_consumes p → repository_interface i = false →
    ∃ q, q ∈ packages plan ∧ i ∈ wp_produces q ∧ wp_package_id q ≠ wp_package_id p;
  ap_acyclic : ∀ t, ¬ tc (feeds plan) t t;
}.
(** The limits of the models the packages are converted to. *)
Definition package_score (p : WorkPackage) : Z :=
  5 * Z.of_nat (length (wp_owned_paths p)) + 4 * Z.of_nat (length (wp_consumes p))
  + 3 * Z.of_nat (length (wp_verification_commands p)) + declared_weight (wp_estimated_complexity p).
Record sized_plan (plan : WorkPackagePlan) : Prop := {
  sz_scores : ∀ p, p ∈ packages plan → package_score p <= 100;
  sz_names : ∀ p i, p ∈ packages plan → i ∈ wp_produces p → (str_len i ≤ 256)%nat;
  sz_own : ∀ p i, p ∈ packages plan → i ∈ wp_produces p → i ∈ wp_consumes p → repository_interface i = false;
}.

(** ** Who produces what *)
Definition produced_items (plan : WorkPackagePlan) : list (string * string) :=
  mjoin ((λ p, (λ interface, (interface, wp_package_id p)) <$> wp_produces p) <$> packages plan).
Lemma produced_items_keys plan : fst <$> produced_items plan = mjoin (wp_produces <$> packages plan).
Proof.
  unfold produced_items. induction (packages plan) as [|p ps IH]; [done|].
  rewrite !fmap_cons. cbn [mjoin list_join foldr]. rewrite fmap_app. f_equal; [|exact IH].
  rewrite <- list_fmap_compose. apply list_fmap_id.
Qed.
Lemma elem_of_produced_items plan i u : (i, u) ∈ produced_items plan ↔
  ∃ p, p ∈ packages plan ∧ wp_package_id p = u ∧ i ∈ wp_produces p.
Proof.
  unfold produced_items. rewrite list_elem_of_join. split.
  - intros (l & Hin & (p & -> & Hp)%list_elem_of_fmap). apply list_elem_of_fmap in Hin as (j & [= -> ->] & Hj). eauto.
  - intros (p & Hp & <- & Hi). eexists. split; [|by apply list_elem_of_fmap; eauto].
    apply list_elem_of_fmap. eauto.
Qed.
(** ** The conversion of one package *)
Lemma id_ok_strip s : package_id_ok s = true → strip s = s ∧ s ≠ "" ∧ (1 ≤ str_len s ≤ 128)%nat.
Proof.
  intros [Hl%Nat.leb_le Hm]%andb_true_iff. assert (s ≠ "") as Hne by by intros ->.
  split_and!; [by apply strip_no_space, no_space_id|done|by apply str_len_nonempty|done].
Qed.
Lemma validate_dependencies_fixed l : Forall (λ s, package_id_ok s = true) l → NoDup l →
  validate_dependencies l = Ok l.
Proof.
  intros Hl Hnd. unfold validate_dependencies.
  rewrite (proj2 (map_result_Ok _ l l)).
  { cbn [mbind result_bind]. by rewrite valid_if_true by by apply bool_decide_eq_true_2. }
  clear Hnd. induction Hl as [|s l Hs _ IH]; constructor; [|exact IH].
  cbv beta zeta. destruct (id_ok_strip s Hs) as (-> & Hne & _).
  rewrite (valid_if_true (negb (bool_decide (s = "")))) by by rewrite bool_decide_false.
  cbn [mbind result_bind].
  by rewrite valid_if_true.
Qed.
Definition contract_of (p : WorkPackage) : TaskContract := {|
  tc_task_id := wp_package_id p; tc_objective := wp_objective p;
  tc_readable_files := wp_readable_paths p; tc_writable_files := wp_owned_paths p;
  tc_readonly_files := []; tc_acceptance_criteria := wp_acceptance_criteria p;
  tc_verification_commands := wp_verification_commands p;
  tc_max_retries := if decide (wp_estimated_complexity p = LOW) then 1 else 2 |}.
Definition allocation_of (p : WorkPackage) : TaskBudgetAllocation := {|
  tba_package_id := wp_package_id p; tba_recommended_token_budget := wp_recommended_token_budget p |}.
Lemma min_length_size {A} hi (l : list A) : size_in 1 hi l = true → min_length 1 l = true.
Proof. by intros [? _]%andb_true_iff. Qed.
Lemma package_contract_Ok p : package_wf p → package_contract p = Ok (contract_of p).
Proof.
  intros [Hid Ho Hol Hw Hwl Hr _ _ _ _ Hc Hcl Hv Hvl _]. unfold package_contract, TaskContract_new, contract_of.
  cbn [tc_task_id tc_objective tc_readable_files tc_writable_files tc_readonly_files
    tc_acceptance_criteria tc_verification_commands tc_max_retries].
  destruct (id_ok_strip _ Hid) as (_ & _ & Hlen). apply andb_true_iff in Hid as [_ Hid].
  rewrite (valid_if_true (_ && matches_id_pattern _)) by (rewrite Hid, andb_true_r; by apply len_between).
  cbn [mbind result_bind]. rewrite (valid_if_true (_ && (str_len (wp_objective p) <=? 4000)%nat)).
  2:{ apply len_between. pose proof (str_len_nonempty _ (normalize_text_nonempty _ _ Ho)). split; [done|].
      etrans; [exact Hol|]. apply Nat.leb_le. by vm_compute. }
  cbn [mbind result_bind]. rewrite Ho. cbn [mbind result_bind]. rewrite Hr. cbn [mbind result_bind].
  rewrite (valid_if_true (min_length 1 (wp_owned_paths p))) by by eapply min_length_size.
  cbn [mbind result_bind]. rewrite Hw. cbn [mbind result_bind].
  change (validate_scope_patterns []) with (Ok (A := list string) []). cbn [mbind result_bind].
  rewrite (valid_if_true (min_length 1 (wp_acceptance_criteria p))) by by eapply min_length_size.
  cbn [mbind result_bind]. rewrite Hc. cbn [mbind result_bind].
  rewrite (valid_if_true (min_length 1 (wp_verification_commands p))) by by eapply min_length_size.
  cbn [mbind result_bind]. rewrite Hv. cbn [mbind result_bind].
  rewrite (valid_if_true ((0 <=? _) && _)) by by case_decide.
  cbn [mbind result_bind]. unfold validate_scope_boundaries.
  rewrite valid_if_true; [done|]. apply bool_decide_eq_true_2. set_solver.
Qed.
Lemma package_budget_Ok p : package_wf p → package_budget p = Ok (allocation_of p).
Proof.
  intros Hp. unfold package_budget, TaskBudgetAllocation_new. cbn [tba_package_id tba_recommended_token_budget].
  rewrite (valid_if_true (package_id_ok _)) by apply Hp. cbn [mbind result_bind].
  by rewrite valid_if_true by apply Hp.
Qed.
(** The assessment of a package. *)
Definition assesses (p : WorkPackage) (a : PlanningComplexityAssessment) : Prop :=
  pca_package_id a = wp_package_id p ∧ pca_complexity a = wp_estimated_complexity p
  ∧ pca_score a = package_score p.
Lemma assessment_cases p : package_wf p →
  (package_score p <= 100 → ∃ a, _assessment p = Ok a ∧ assesses p a)
  ∧ (100 < package_score p → ∃ msg, _assessment p = invalid msg).
Proof.
  intros Hp. unfold _assessment, PlanningComplexityAssessment_new, assesses, package_score.
  cbn [pca_package_id pca_complexity pca_score pca_reasons].
  rewrite (valid_if_true (package_id_ok _)) by apply Hp. cbn [mbind result_bind].
  assert (0 <= declared_weight (wp_estimated_complexity p)) by by destruct (wp_estimated_complexity p).
  split; intros Hs.
  - rewrite (valid_if_true ((0 <=? _) && _)) by (apply andb_true_iff; split; apply Z.leb_le; lia).
    cbn [mbind result_bind]. rewrite valid_if_true by done. cbn [mbind result_bind]. eexists. split; [done|]. cbn. split_and!; [done|done|lia].
  - rewrite (valid_if_false ((0 <=? _) && _)) by (apply andb_false_iff; right; apply Z.leb_gt; lia). by eexists.
Qed.

Section plan.
Context (plan : WorkPackagePlan) (Hwf : plan_wf plan).
Abbreviation ps := (packages plan).
Abbreviation produced := (produced_by plan).

Lemma produced_lookup i u : produced !! i = Some u ↔
  ∃ p, p ∈ ps ∧ wp_package_id p = u ∧ i ∈ wp_produces p.
Proof using Hwf.
  rewrite <- elem_of_produced_items. apply dict_of_lookup.
  pose proof (pl_interfaces plan Hwf) as Hnd. by rewrite <- produced_items_keys in Hnd.
Qed.
Lemma package_by_id p q : p ∈ ps → q ∈ ps → wp_package_id p = wp_package_id q → p = q.
Proof using Hwf. intros Hp Hq. by apply (NoDup_fmap_eq wp_package_id ps p q (pl_ids plan Hwf)). Qed.
Lemma elem_of_dependencies p u : u ∈ package_dependencies produced p ↔
  ∃ q i, q ∈ ps ∧ wp_package_id q = u ∧ i ∈ wp_produces q ∧ i ∈ wp_consumes p.
Proof using Hwf.
  unfold package_dependencies. rewrite elem_of_sorted_set, elem_of_list_to_set, list_elem_of_omap. split.
  - intros (i & Hi & (q & ? & ? & ?)%produced_lookup). eauto 7.
  - intros (q & i & Hq & Hu & Hiq & Hi). exists i. split; [done|]. apply produced_lookup. eauto.
Qed.
Lemma feeds_dependencies p u : p ∈ ps → feeds plan u (wp_package_id p) ↔ u ∈ package_dependencies produced p.
Proof using Hwf.
  intros Hp. rewrite elem_of_dependencies. split.
  - intros (q & p' & i & Hq & Hu & Hi & Hp' & Hid & Hc). rewrite (package_by_id p p') by done. eauto 7.
  - intros (q & i & Hq & Hu & Hi & Hc). exists q, p, i. split_and!; done.
Qed.

(** ** The checks of the packages *)
Lemma interface_checks p : checks WorkPackagePlanError (check_interface produced p).
Proof using.
  intros i. unfold check_interface. destruct (str_startswith _ i); [by left|].
  destruct (produced !! i); [|by right; eexists]. case_bool_decide; cbn; [right; by eexists|by left].
Qed.
Lemma interface_check p i : p ∈ ps → check_interface produced p i = Ok tt ↔
  (repository_interface i = false → ∃ q, q ∈ ps ∧ i ∈ wp_produces q ∧ wp_package_id q ≠ wp_package_id p).
Proof using Hwf.
  intros Hp. unfold check_interface, repository_interface. destruct (str_startswith _ i); [done|].
  destruct (produced !! i) as [u|] eqn:Hi.
  - apply produced_lookup in Hi as (q & Hq & <- & Hiq). case_bool_decide as He; cbn.
    + split; [done|]. intros H. destruct (H eq_refl) as (q' & Hq' & Hi' & Hne).
      assert (produced !! i = Some (wp_package_id q')) as H1 by (apply produced_lookup; eauto).
      assert (produced !! i = Some (wp_package_id q)) as H2 by (apply produced_lookup; eauto). congruence.
    + split; [|done]. intros _ _. eauto.
  - split; [done|]. intros H. destruct (H eq_refl) as (q & Hq & Hiq & _).
    assert (produced !! i = Some (wp_package_id q)) as H1 by (apply produced_lookup; eauto). congruence.
Qed.
Lemma package_checks : checks WorkPackagePlanError (check_package produced).
Proof using.
  apply checks_bind.
  - intros p. unfold _validate_single_deliverable. destruct (negb _); cbn; [by left|right; by eexists].
  - intros p. destruct (fold_checks _ _ (wp_consumes p) (interface_checks p)) as [[-> _]|[[msg ->] _]];
      [by left|right; by exists msg].
Qed.
Lemma package_check p : p ∈ ps → check_package produced p = Ok tt ↔
  (length (layers_of (package_text p)) ≤ 1)%nat
  ∧ ∀ i, i ∈ wp_consumes p → repository_interface i = false →
      ∃ q, q ∈ ps ∧ i ∈ wp_produces q ∧ wp_package_id q ≠ wp_package_id p.
Proof using Hwf.
  intros Hp. unfold check_package, _validate_single_deliverable.
  destruct (2 <=? length (layers_of (package_text p)))%nat eqn:Hl; cbn [negb check].
  - apply Nat.leb_le in Hl. split; [done|]. intros [? _]. lia.
  - apply Nat.leb_gt in Hl. cbn [mbind result_bind].
    destruct (fold_checks _ _ (wp_consumes p) (interface_checks p)) as [[-> Hall]|[[msg ->] (i & Hi & Hn)]].
    + split; [|done]. intros _. split; [lia|]. intros i Hi. by apply interface_check, Hall.
    + split; [done|]. intros [_ H]. destruct Hn. apply interface_check; [done|]. by apply H.
Qed.


(** ** The nodes *)
Record node_of (p : WorkPackage) (n : TaskNode) : Prop := {
  no_task : tn_task n = contract_of p;
  no_depends : tn_depends_on n = package_dependencies produced p;
  no_interfaces : tn_produces n = wp_produces p ∧ tn_consumes n = wp_consumes p;
  no_complexity : tn_complexity n = Some (wp_estimated_complexity p);
  no_budget : tn_budget_allocation n = Some (allocation_of p);
  no_assessment : ∃ a, tn_complexity_assessment n = Some a ∧ assesses p a;
  no_mode : tn_execution_mode n = AGENT ∧ tn_resume_context n = None;
}.
Lemma dependencies_ok p : Forall (λ s, package_id_ok s = true) (package_dependencies produced p).
Proof using Hwf.
  apply Forall_forall. intros u (q & i & Hq & <- & _)%elem_of_dependencies.
  by apply (pw_id q), (pl_packages plan Hwf).
Qed.
Lemma package_node_Ok (assessments : gmap string PlanningComplexityAssessment) p a : p ∈ ps →
  assessments !! wp_package_id p = Some a → assesses p a →
  wp_package_id p ∉ package_dependencies produced p →
  ∃ n, package_node produced assessments p = Ok n ∧ node_of p n.
Proof using Hwf.
  intros Hp Ha Has Hself. pose proof (pl_packages plan Hwf p Hp) as Hpw. unfold package_node.
  rewrite package_contract_Ok, package_budget_Ok by done. cbn [mbind result_bind]. rewrite Ha.
  cbn [of_option mbind result_bind]. unfold TaskNode_new.
  cbn [tn_task tn_depends_on tn_produces tn_consumes tn_complexity tn_budget_allocation
    tn_complexity_assessment tn_resume_context tn_execution_mode].
  rewrite validate_dependencies_fixed; [|apply dependencies_ok|apply NoDup_sorted_set].
  cbn [mbind result_bind].
  rewrite (valid_if_true (length (wp_produces p) <=? 16)%nat).
  2:{ pose proof (pw_produces_len p Hpw) as Hx. by apply andb_true_iff in Hx as [_ ?]. }
  cbn [mbind result_bind]. rewrite (valid_if_true (length (wp_consumes p) <=? 16)%nat).
  2:{ pose proof (pw_consumes_len p Hpw) as Hx. by apply andb_true_iff in Hx as [_ ?]. }
  cbn [mbind result_bind]. unfold reject_self_dependency, validate_work_package_metadata.
  destruct Has as (Hid & Hc & Hs). set (n := Build_TaskNode (contract_of p) _ _ _ _ _ _ _ _).
  change (node_id n) with (wp_package_id p). change (tn_depends_on n) with (package_dependencies produced p).
  rewrite (valid_if_true (bool_decide (_ ∉ _))) by by apply bool_decide_eq_true_2. cbn [mbind result_bind].
  destruct (validate_non_empty_items_length _ _ (pw_produces p Hpw)) as [Hnp _].
  destruct (validate_non_empty_items_length _ _ (pw_consumes p Hpw)) as [Hnc _].
  rewrite (valid_if_true (no_duplicates (tn_produces n))) by by apply bool_decide_eq_true_2.
  cbn [mbind result_bind].
  rewrite (valid_if_true (no_duplicates (tn_consumes n))) by by apply bool_decide_eq_true_2.
  cbn [mbind result_bind].
  rewrite (valid_if_true (match tn_budget_allocation n with Some _ => _ | None => _ end))
    by by apply bool_decide_eq_true_2.
  cbn [mbind result_bind].
  rewrite (valid_if_true (match tn_complexity_assessment n with Some _ => _ | None => _ end))
    by by apply bool_decide_eq_true_2.
  cbn [mbind result_bind].
  rewrite valid_if_true by by apply bool_decide_eq_true_2.
  exists n. split; [done|]. split; try done. exists a. by split_and!.
Qed.

Context (adaptive : bool) (requirement : string) (max_tasks : Z) (Hsize : sized_plan plan).
Abbreviation acceptable := (acceptable_plan adaptive plan requirement max_tasks).
Abbreviation convert := (validate_and_convert adaptive plan requirement max_tasks).

Lemma no_own_dependency p : p ∈ ps → check_package produced p = Ok tt →
  wp_package_id p ∉ package_dependencies produced p.
Proof using Hwf Hsize.
  intros Hp Hc (q & i & Hq & Hid & Hiq & Hip)%elem_of_dependencies.
  assert (q = p) as -> by by apply package_by_id. apply package_check in Hc as [_ Hc]; [|done].
  destruct (Hc i Hip) as (q & Hq' & Hi & Hne); [by eapply (sz_own plan Hsize)|].
  assert (produced !! i = Some (wp_package_id q)) as H1 by (apply produced_lookup; eauto).
  assert (produced !! i = Some (wp_package_id p)) as H2 by (apply produced_lookup; eauto). congruence.
Qed.
Lemma assessments_Ok : ∃ assessed,
  map_result (λ p, a ← _assessment p; Ok (wp_package_id p, a)) ps = Ok assessed
  ∧ ∀ p, p ∈ ps → ∃ a, dict_of assessed !! wp_package_id p = Some a ∧ assesses p a.
Proof using Hwf Hsize.
  destruct (map_result_each (λ p, a ← _assessment p; Ok (wp_package_id p, a)) ps) as (l & Hl & H2).
  { intros p Hp. destruct (assessment_cases p (pl_packages plan Hwf p Hp)) as [Ha _].
    destruct Ha as (a & -> & _); [by apply (sz_scores plan Hsize)|]. by eexists. }
  exists l. split; [done|]. intros p Hp. apply list_elem_of_lookup in Hp as [k Hk].
  destruct (Forall2_lookup_l _ _ _ _ _ H2 Hk) as ([u a] & Hl' & Hpa).
  apply list_elem_of_lookup_2 in Hk as Hp.
  destruct (assessment_cases p (pl_packages plan Hwf p Hp)) as [Ha _].
  destruct Ha as (a' & Ha & Has); [by apply (sz_scores plan Hsize)|]. rewrite Ha in Hpa. injection Hpa as <- <-.
  exists a'. split; [|done]. apply dict_of_lookup; [|by eapply list_elem_of_lookup_2].
  enough (fst <$> l = wp_package_id <$> ps) as -> by apply pl_ids, Hwf.
  clear -H2. induction H2 as [|q [v b] ps l Hq _ IH]; [done|]. rewrite !fmap_cons, IH. f_equal.
  destruct (_assessment q); [|done]. by injection Hq as <- <-.
Qed.
Lemma nodes_Ok assessments :
  (∀ p, p ∈ ps → ∃ a, assessments !! wp_package_id p = Some a ∧ assesses p a) →
  (∀ p, p ∈ ps → check_package produced p = Ok tt) →
  ∃ nodes, map_result (package_node produced assessments) ps = Ok nodes ∧ Forall2 node_of ps nodes.
Proof using Hwf Hsize.
  intros Ha Hc. destruct (map_result_each (package_node produced assessments) ps) as (l & Hl & H2).
  { intros p Hp. destruct (Ha p Hp) as (a & Hpa & Has).
    destruct (package_node_Ok assessments p a) as (n & Hn & _); [done..|by apply no_own_dependency, Hc|by exists n]. }
  exists l. split; [done|]. eapply Forall2_impl; [|intros p n H; exact H].
  apply Forall2_same_length_lookup_2; [by eapply Forall2_length|]. intros k p n Hp Hn.
  pose proof (list_elem_of_lookup_2 _ _ _ Hp) as Hin. destruct (Ha p Hin) as (a & Hpa & Has).
  destruct (package_node_Ok assessments p a) as (n' & Hn' & Hof); [done..|by apply no_own_dependency, Hc|].
  pose proof (Forall2_lookup_lr _ _ _ _ _ _ H2 Hp Hn) as Hx. cbn in Hx.
  assert (n = n') as -> by congruence. done.
Qed.

(** ** The graph *)
Section graph.
Context (nodes : list TaskNode) (Hnodes : Forall2 node_of ps nodes).
Abbreviation d := {| tasks := nodes |}.
Lemma nodes_ids : task_ids d = wp_package_id <$> ps.
Proof using Hnodes.
  unfold task_ids. cbn [tasks]. enough (∀ l k, Forall2 node_of l k → node_id <$> k = wp_package_id <$> l) by auto.
  induction 1 as [|p n l k Hpn _ IH]; [done|].
  rewrite !fmap_cons, IH. f_equal. unfold node_id. by rewrite (no_task p n Hpn).
Qed.
Lemma node_of_package n : n ∈ nodes → ∃ p, p ∈ ps ∧ node_of p n.
Proof using Hnodes.
  intros [k Hk]%list_elem_of_lookup. destruct (Forall2_lookup_r _ _ _ _ _ Hnodes Hk) as (p & Hp & Hof).
  exists p. split; [by eapply list_elem_of_lookup_2|done].
Qed.
Lemma nodes_wf : graph_wf d.
Proof using Hwf Hnodes.
  split.
  - rewrite nodes_ids. apply Hwf.
  - intros n (p & _ & Hof)%node_of_package. rewrite (no_depends p n Hof). apply NoDup_sorted_set.
  - intros n u (p & _ & Hof)%node_of_package. rewrite (no_depends p n Hof), nodes_ids.
    intros (q & i & Hq & <- & _)%elem_of_dependencies. apply list_elem_of_fmap. eauto.
Qed.
Lemma nodes_edge u t : edge d u t ↔ feeds plan u t.
Proof using Hwf Hnodes.
  unfold edge. split.
  - intros Hu. destruct (deps_known d nodes_wf t u Hu) as [_ Ht].
    apply list_elem_of_fmap in Ht as (n & -> & Hn). rewrite (node_deps d nodes_wf n Hn), elem_of_list_to_set in Hu.
    destruct (node_of_package n Hn) as (p & Hp & Hof). rewrite (no_depends p n Hof) in Hu.
    unfold node_id. rewrite (no_task p n Hof). by apply feeds_dependencies.
  - intros Hf. assert (∃ p, p ∈ ps ∧ wp_package_id p = t) as (p & Hp & <-).
    { destruct Hf as (q & p & i & _ & _ & _ & Hp & Hid & _). eauto. }
    apply feeds_dependencies in Hf; [|done]. apply list_elem_of_lookup in Hp as [k Hk].
    destruct (Forall2_lookup_l _ _ _ _ _ Hnodes Hk) as (n & Hn & Hof).
    apply list_elem_of_lookup_2 in Hn.
    assert (wp_package_id p = node_id n) as -> by (unfold node_id; by rewrite (no_task p n Hof)).
    rewrite (node_deps d nodes_wf n Hn), elem_of_list_to_set. by rewrite (no_depends p n Hof).
Qed.
Lemma nodes_downstream t : downstream d t t ↔ tc (feeds plan) t t.
Proof using Hwf Hnodes.
  unfold downstream. split; intros Ht.
  - eapply (tc_congruence id); [|exact Ht]. intros x y. apply nodes_edge.
  - eapply (tc_congruence id); [|exact Ht]. intros x y. apply nodes_edge.
Qed.
End graph.

(** ** The rest of the result *)
Lemma routing_audit_Ok layers : (length layers ≤ 4)%nat → ∃ a, _routing_audit plan layers = Ok a
  ∧ wra_delivery_layers a = layers ∧ wra_package_count a = Z.of_nat (length ps).
Proof using Hwf.
  intros Hl. unfold _routing_audit, WorkPackageRoutingAudit_new. cbv zeta.
  cbn [wra_reasons wra_delivery_layers wra_package_count].
  rewrite (valid_if_true (size_in 1 8 _)) by done. cbn [mbind result_bind].
  rewrite (valid_if_true (size_in 0 4 layers)) by (apply andb_true_iff; split; apply Nat.leb_le; lia).
  cbn [mbind result_bind]. destruct (pl_size plan Hwf).
  rewrite valid_if_true by (apply andb_true_iff; split; apply Z.leb_le; lia). by eexists.
Qed.
Lemma layers_bound text : (length (layers_of text) ≤ 4)%nat.
Proof using. unfold layers_of. rewrite length_fmap. apply (List.filter_length_le _ _DELIVERY_LAYERS). Qed.
(** The contract of an interface. *)
Definition contract_of_interface (c : InterfaceContract) : Prop :=
  (∃ p, p ∈ ps ∧ wp_package_id p = ic_producer_package_id c ∧ ic_interface_id c ∈ wp_produces p)
  ∧ ∀ q, q ∈ ps → wp_package_id q ∈ ic_consumer_package_ids c ↔ ic_interface_id c ∈ wp_consumes q.
Lemma interface_contracts_Ok : ∃ cs, map_result (interface_contract plan) (sorted_items produced) = Ok cs
  ∧ (∀ c, c ∈ cs → contract_of_interface c)
  ∧ ∀ p i, p ∈ ps → i ∈ wp_produces p → ∃ c, c ∈ cs ∧ ic_interface_id c = i.
Proof using Hwf Hsize.
  assert (Hone : ∀ item, item ∈ sorted_items produced → ∃ c, interface_contract plan item = Ok c
    ∧ ic_interface_id c = item.1 ∧ contract_of_interface c).
  { intros [i u] (p & Hp & Hu & Hi)%elem_of_sorted_items%produced_lookup.
    unfold interface_contract, InterfaceContract_new. cbn [ic_interface_id ic_producer_package_id fst snd].
    pose proof (pl_packages plan Hwf p Hp) as Hpw. rewrite (valid_if_true (text_of 1 256 i)).
    2:{ apply len_between. split; [|by eapply (sz_names plan Hsize)].
        pose proof (pw_produces p Hpw) as Hn. unfold validate_non_empty_items in Hn.
        apply bind_Ok_inv in Hn as (l & Hl%map_result_Ok & Hn). apply list_elem_of_lookup in Hi as [k Hk].
        destruct (Forall2_lookup_l _ _ _ _ _ Hl Hk) as (j & _ & Hj).
        destruct (normalize_text_fixed _ _ Hj) as [_ Heq]. pose proof (normalize_text_nonempty _ _ Hj) as Hne.
        etrans; [by apply str_len_nonempty|]. rewrite Heq. apply str_len_strip. }
    cbn [mbind result_bind]. rewrite valid_if_true by (rewrite <- Hu; apply Hpw). cbn [mbind result_bind].
    eexists. split_and!; [done|done|]. split; cbn; [by eauto|]. intros q Hq. rewrite list_elem_of_fmap. split.
    - intros (q' & Hid & Hin%list_elem_of_In). apply filter_In in Hin as [Hq'%list_elem_of_In Hc].
      to_prop. by rewrite (package_by_id q q').
    - intros Hc. exists q. split; [done|]. apply list_elem_of_In, filter_In.
      split; [by apply list_elem_of_In|]. by apply bool_decide_eq_true_2. }
  destruct (map_result_each (interface_contract plan) (sorted_items produced)) as (cs & Hcs & H2).
  { intros item Hin. destruct (Hone item Hin) as (c & Hc & _). by exists c. }
  exists cs. split; [done|]. split.
  - intros c [k Hk]%list_elem_of_lookup. destruct (Forall2_lookup_r _ _ _ _ _ H2 Hk) as (item & Hi & Hc).
    destruct (Hone item) as (c' & Hc' & _ & Hp); [by eapply list_elem_of_lookup_2|]. congruence.
  - intros p i Hp Hi. assert ((i, wp_package_id p) ∈ sorted_items produced) as Hin.
    { apply elem_of_sorted_items, produced_lookup. eauto. }
    destruct (Hone _ Hin) as (c' & Hc' & Hid & _). apply list_elem_of_lookup in Hin as [k Hk].
    destruct (Forall2_lookup_l _ _ _ _ _ H2 Hk) as (c & Hck & Hc). exists c.
    split; [by eapply list_elem_of_lookup_2|]. assert (c = c') as -> by congruence. done.
Qed.

(** What a conversion means. *)
Record conversion (res : WorkPackagePlanningResult) : Prop := {
  cv_nodes : Forall2 node_of ps (tasks (pr_dag res));
  cv_edges : ∀ u t, edge (pr_dag res) u t ↔ feeds plan u t;
  cv_order : ∃ order, topological_order (pr_dag res) = Ok order ∧ order ≡ₚ wp_package_id <$> ps
    ∧ ∀ u t l1 l2, feeds plan u t → order = l1 ++ (t :: l2) → u ∈ l1;
  cv_contracts : (∀ c, c ∈ pr_interface_contracts res → contract_of_interface c)
    ∧ ∀ p i, p ∈ ps → i ∈ wp_produces p → ∃ c, c ∈ pr_interface_contracts res ∧ ic_interface_id c = i;
  cv_budgets : pr_budget_allocations res = allocation_of <$> ps;
  cv_assessments : Forall2 assesses ps (pr_complexity_assessments res);
}.
Lemma convert_cases :
  (acceptable ∧ ∃ res, convert = Ok res ∧ conversion res)
  ∨ (¬ acceptable ∧ ∃ msg, convert = raise WorkPackagePlanError msg).
Proof using Hwf Hsize.
  unfold validate_and_convert. cbv zeta.
  destruct (max_tasks <? Z.of_nat (length ps)) eqn:Hcount; cbn [negb check mbind result_bind].
  { right. apply Z.ltb_lt in Hcount. split; [intros [? _ _ _ _]; lia|by eexists]. }
  apply Z.ltb_ge in Hcount.
  destruct (negb (_ && _ && _)) eqn:Hlegacy; cbn [check mbind result_bind].
  2:{ right. apply negb_false_iff in Hlegacy.
      apply andb_true_iff in Hlegacy as [[Ha H1%Nat.ltb_lt]%andb_true_iff H0%Nat.ltb_lt].
      apply negb_true_iff in Ha. split; [|by eexists]. intros [_ Hl _ _ _].
      destruct Hl as [|[?|?]]; [congruence|lia..]. }
  destruct (fold_checks _ _ ps package_checks) as [[-> Hall]|[[msg ->] (p & Hp & Hn)]]; cbn [mbind result_bind].
  2:{ right. split; [|by exists msg]. intros [_ _ Hlay Hdec _]. destruct Hn. apply package_check; [done|].
      split; [by apply Hlay|]. intros i. by apply Hdec. }
  destruct assessments_Ok as (assessed & -> & Hass). cbn [mbind result_bind].
  destruct (nodes_Ok (dict_of assessed) Hass Hall) as (nodes & -> & Hnodes). cbn [mbind result_bind].
  assert (Hnd : Forall (λ n, NoDup (tn_depends_on n)) nodes).
  { apply Forall_forall. apply (nodes_wf nodes Hnodes). }
  destruct (TaskDAG_new_cases nodes Hnd) as [(Hd & Hne & _ & Hok)|(msg & Hd & Hnot)]; rewrite Hd; cbn [mbind result_bind].
  2:{ right. cbn [exn_kind exn_message subclass]. split; [|by exists msg]. intros [_ _ _ _ Hac]. apply Hnot.
      split_and!.
      - intros ->. apply Forall2_length in Hnodes. cbn in Hnodes. destruct (pl_size plan Hwf). lia.
      - by apply nodes_wf.
      - apply topological_order_acyclic; [by apply nodes_wf|]. intros t Ht%nodes_downstream; [|done]. by apply (Hac t). }
  destruct interface_contracts_Ok as (cs & -> & Hcs). cbn [mbind result_bind].
  assert (map_result package_budget ps = Ok (allocation_of <$> ps)) as ->.
  { apply map_result_Ok, Forall2_fmap_r, Forall_Forall2_diag, Forall_forall. intros p Hp.
    by apply package_budget_Ok, (pl_packages plan Hwf). }
  cbn [mbind result_bind].
  destruct (map_result_each (λ p, of_option (Exn KeyError (wp_package_id p)) (dict_of assessed !! wp_package_id p)) ps)
    as (al & -> & H2).
  { intros p Hp. destruct (Hass p Hp) as (a & -> & _). by exists a. }
  cbn [mbind result_bind]. destruct (routing_audit_Ok (_delivery_layers requirement)) as (audit & -> & _);
    [apply layers_bound|]. cbn [mbind result_bind].
  left. pose proof (nodes_wf nodes Hnodes) as Hgwf. split.
  - split.
    + lia.
    + apply negb_true_iff in Hlegacy. destruct adaptive; [by left|right]. cbn [negb andb] in Hlegacy.
      apply andb_false_iff in Hlegacy as [H%Nat.ltb_ge|H%Nat.ltb_ge]; [by left|by right].
    + intros p Hp. by destruct (proj1 (package_check p Hp) (Hall p Hp)).
    + intros p i Hp. destruct (proj1 (package_check p Hp) (Hall p Hp)) as [_ H]. apply H.
    + intros t Ht%(nodes_downstream nodes Hnodes). revert Ht. by apply topological_order_acyclic.
  - eexists. split; [done|]. split; cbn [pr_dag pr_interface_contracts pr_budget_allocations pr_complexity_assessments].
    + done.
    + intros u t. by apply nodes_edge.
    + destruct (topological_order {| tasks := nodes |}) as [order|] eqn:Ho; [|done].
      pose (V := valid_dag_of _ Hgwf order Ho). exists order. split; [done|]. split.
      * rewrite <- (nodes_ids nodes Hnodes). apply (vd_perm _ (Hd:=V)).
      * intros u t l1 l2 Hf%(nodes_edge nodes Hnodes). by apply (vd_edge _ (Hd:=V)).
    + exact Hcs.
    + done.
    + apply Forall2_same_length_lookup_2; [by eapply Forall2_length|]. intros k p a Hp Ha.
      pose proof (Forall2_lookup_lr _ _ _ _ _ _ H2 Hp Ha) as Hx. cbn in Hx.
      destruct (Hass p) as (a' & Ha' & Has); [by eapply list_elem_of_lookup_2|]. rewrite Ha' in Hx.
      injection Hx as <-. done.
Qed.
End plan.

(** ** Properties *)

(** C8.  A Planner's proposal is converted exactly when it passes the
    documented checks: not more packages than tasks allowed, the legacy split
    of long requirements, one delivery layer per package, every consumed
    interface declared by another package or by the repository, and no
    producer-consumer cycle; any other proposal is refused with a
    [WorkPackagePlanError].  The graph has one task per package with the
    scope, criteria, commands and budget of the package, its edges are the
    producer-consumer pairs, its order puts every producer before its
    consumers, and the interface contracts name the producer and all
    consumers.  [sized_plan] excludes what the target models refuse. *)
Theorem converted_plan_correct adaptive plan requirement max_tasks
    (Hplan : valid_plan plan) (Hsize : sized_plan plan) :
  (acceptable_plan adaptive plan requirement max_tasks →
     ∃ res, validate_and_convert adaptive plan requirement max_tasks = Ok res ∧ conversion plan res)
  ∧ (¬ acceptable_plan adaptive plan requirement max_tasks →
     ∃ msg, validate_and_convert adaptive plan requirement max_tasks = raise WorkPackagePlanError msg).
Proof.
  destruct (convert_cases plan (valid_plan_wf plan Hplan) adaptive requirement max_tasks Hsize)
    as [[Ha Hres]|[Ha Hres]]; by split.
Qed.

(** A valid proposal that passes every documented check is refused with
    a bare [ValidationError] when the platform's own score of one of its
    packages exceeds 100: the score of a package within its limits reaches
    138 (five owned paths, sixteen consumed interfaces, three commands, HIGH),
    but the field that stores it accepts at most 100. *)
Theorem large_package_raises adaptive plan requirement max_tasks p
    (Hplan : valid_plan plan) (Hchecks : acceptable_plan adaptive plan requirement max_tasks)
    (Hp : p ∈ packages plan) (Hscore : 100 < package_score p) :
  ∃ msg, validate_and_convert adaptive plan requirement max_tasks = invalid msg.
Proof.
  pose proof (valid_plan_wf plan Hplan) as Hwf. destruct Hchecks as [Hcount Hlegacy Hlay Hdec _].
  unfold validate_and_convert. cbv zeta. rewrite (proj2 (Z.ltb_ge _ _) Hcount). cbn [negb check mbind result_bind].
  assert (negb (negb adaptive && (180 <? str_len (strip requirement))%nat && (length (packages plan) <? 3)%nat) = true) as ->.
  { apply negb_true_iff. destruct Hlegacy as [->|[H%Nat.ltb_ge|H%Nat.ltb_ge]]; rewrite ?H, ?andb_false_r; done. }
  cbn [check mbind result_bind].
  destruct (fold_checks _ _ (packages plan) (package_checks plan)) as [[-> _]|[_ (q & Hq & Hn)]]; cbn [mbind result_bind].
  2:{ destruct Hn. apply (package_check plan Hwf q Hq). split; [by apply Hlay|]. intros i. by apply Hdec. }
  destruct (assessment_cases p (pl_packages plan Hwf p Hp)) as [_ [msg Hmsg]]; [done|].
  destruct (map_result_raises ValidationError (λ p, a ← _assessment p; Ok (wp_package_id p, a)) (packages plan) p)
    as [msg' ->]; [|done| |by exists msg'].
  - intros q. unfold _assessment, PlanningComplexityAssessment_new, valid_if. cbv zeta.
    repeat match goal with |- context [check ?b _ _] => destruct b; cbn; [|right; by eexists] end.
    left. by eexists.
  - intros b. by rewrite Hmsg.
Qed.

(** ** Witnesses *)
Definition sample_package (id : string) (produces consumes : list string) (c : PlanningComplexity)
    (owned : list string) : WorkPackage := {|
  wp_package_id := id; wp_objective := "Write the parser."; wp_deliverable := "One module.";
  wp_owned_paths := owned; wp_readable_paths := ["docs/**"]; wp_produces := produces;
  wp_consumes := consumes; wp_acceptance_criteria := ["It works."];
  wp_verification_commands := ["pytest -q"; "ruff check ."; "mypy ."];
  wp_estimated_complexity := c; wp_recommended_token_budget := 4000 |}.
Definition sample_plan : WorkPackagePlan := {| packages := [
  sample_package "cli" ["cli.main"] ["lib.parse"; "repository:config"] MEDIUM ["src/cli.py"];
  sample_package "lib" ["lib.parse"] [] LOW ["src/lib/a.py"; "src/lib/b.py"]] |}.
Definition large_plan : WorkPackagePlan := {| packages := [
  sample_package "all" ["all.run"]
    ["repository:a"; "repository:b"; "repository:c"; "repository:d"; "repository:e"; "repository:f";
     "repository:g"] HIGH ["src/a.py"; "src/b.py"; "src/c.py"; "src/d.py"; "src/e.py"]] |}.
Ltac each_package :=
  repeat match goal with H : _ ∈ packages _ |- _ =>
    cbn in H; repeat (apply elem_of_cons in H as [->|H]); [..|by apply elem_of_nil in H] end.
Ltac valid_plan_by_compute :=
  split; [by vm_compute|apply Forall_forall; intros p Hp; exists p; each_package; by vm_compute].
Lemma converted_plan_correct_witness :
  is_ok (validate_and_convert true sample_plan "a parser" 8) = true
  ∧ (acceptable_plan true sample_plan "a parser" 8 →
     ∃ res, validate_and_convert true sample_plan "a parser" 8 = Ok res ∧ conversion sample_plan res)
  ∧ (¬ acceptable_plan true sample_plan "a parser" 8 →
     ∃ msg, validate_and_convert true sample_plan "a parser" 8 = raise WorkPackagePlanError msg).
Proof.
  split; [by vm_compute|]. apply (converted_plan_correct true sample_plan "a parser" 8).
  - valid_plan_by_compute.
  - split.
    + intros p Hp. each_package; by vm_compute.
    + intros p i Hp Hi. each_package; cbn in Hi; apply list_elem_of_singleton in Hi as ->; apply Nat.leb_le; by vm_compute.
    + intros p i Hp Hi Hc. each_package; cbn in Hi; apply list_elem_of_singleton in Hi as ->; by vm_compute.
Defined.
Lemma large_package_raises_witness :
  ∃ msg, validate_and_convert true large_plan "everything" 8 = invalid msg.
Proof.
  apply (large_package_raises true large_plan "everything" 8 (nth 0 (packages large_plan) (sample_package "" [] [] LOW []))).
  - valid_plan_by_compute.
  - split.
    + by vm_compute.
    + by left.
    + intros p Hp. each_package. apply Nat.leb_le. by vm_compute.
    + intros p i Hp Hi Hr. each_package. cbn in Hi.
      repeat (apply elem_of_cons in Hi as [->|Hi]; [by vm_compute in Hr|]). by apply elem_of_nil in Hi.
    + intros t Ht. assert (∀ x y, ¬ feeds large_plan x y) as Hno.
      { intros x y (p & q & i & Hp & _ & Hi & Hq & _ & Hc). each_package. cbn in Hi.
        apply list_elem_of_singleton in Hi as ->. revert Hc. cbn. set_solver. }
      by destruct Ht as [? ? ?%Hno|? ? ? ?%Hno _].
  - by left.
  - by vm_compute.
Defined.
