(* ===== verification/PlannerAgentFacts.v ===== *)
(** * PlannerAgentFacts: what a planning run can do

    The planning agent of [PlannerAgent] calls the model a bounded number of
    times, fails only in known ways, and returns a graph only if it is the
    conversion of a valid proposal of the model. *)
From stdpp Require Import options.
From S2P Require Import Prelude Contracts Dag DagFacts RunModels PyFloat AgentModels WorkPackages WorkPackageFacts PlannerAgent.
Open Scope Z_scope.

(** ** Code that raises only [ValueError] *)
Definition value_error {A} (r : result A) : Prop := ∀ e, r = Raise e → subclass (exn_kind e) ValueError = true.
Lemma ve_ok {A} (a : A) : value_error (Ok a). Proof. done. Qed.
Lemma ve_raise {A} c msg : subclass c ValueError = true → value_error (@raise A c msg).
Proof. by intros Hc e [= <-]. Qed.
Lemma ve_check b c msg : subclass c ValueError = true → value_error (check b c msg).
Proof. destruct b; [by intros _ e|]. by apply ve_raise. Qed.
Lemma ve_valid b msg : value_error (valid_if b msg).
Proof. by apply ve_check. Qed.
Lemma ve_bind {A B} (r : result A) (k : A → result B) :
  value_error r → (∀ a, r = Ok a → value_error (k a)) → value_error (r ≫= k).
Proof.
  intros Hr Hk e. destruct r as [a|x]; cbn; [by apply Hk|]. intros [= <-]. by apply Hr.
Qed.
Lemma ve_map {A B} (f : A → result B) (l : list A) : (∀ a, a ∈ l → value_error (f a)) → value_error (map_result f l).
Proof.
  intros Hf. induction l as [|a l IH]; [done|]. cbn. apply ve_bind; [apply Hf; by left|]. intros b _.
  apply ve_bind; [apply IH; intros x Hx; apply Hf; by right|]. by intros bs _.
Qed.
Lemma ve_fold {A B} (f : B → A → result B) (l : list A) b : (∀ b a, value_error (f b a)) → value_error (fold_result f b l).
Proof.
  intros Hf. revert b. induction l as [|a l IH]; intros b; [done|]. cbn. apply ve_bind; [apply Hf|]. intros c _. apply IH.
Qed.
Ltac ve_steps :=
  repeat match goal with
  | |- value_error (valid_if _ _) => apply ve_valid
  | |- value_error (check _ _ _) => apply ve_check; reflexivity
  | |- value_error (raise _ _) => apply ve_raise; reflexivity
  | |- value_error (invalid _) => apply ve_raise; reflexivity
  | |- value_error (Ok _) => apply ve_ok
  | |- value_error (_ ≫= _) => apply ve_bind; [|intros ? ?]
  | |- value_error (map_result _ _) => apply ve_map; intros ? ?
  | |- value_error (fold_result _ _ _) => apply ve_fold; intros ? ?
  | |- value_error (if _ then _ else _) => case_match
  | |- value_error (match _ with _ => _ end) => case_match
  | |- value_error (let _ := _ in _) => cbv zeta
  end.
Lemma ve_pattern v : value_error (_normalize_scope_pattern v).
Proof. unfold _normalize_scope_pattern. ve_steps. Qed.
Lemma ve_text v : value_error (_normalize_non_empty_text v).
Proof. unfold _normalize_non_empty_text. ve_steps. Qed.
#[local] Hint Resolve ve_pattern ve_text : devflow.
Lemma ve_package raw : value_error (WorkPackage_new raw).
Proof.
  unfold WorkPackage_new, normalize_paths, normalize_items, validate_boundaries. ve_steps; auto with devflow.
Qed.
Lemma ve_contract raw : value_error (TaskContract_new raw).
Proof.
  unfold TaskContract_new, validate_scope_patterns, validate_non_empty_items, validate_scope_boundaries.
  ve_steps; auto with devflow.
Qed.
Lemma ve_node raw : value_error (TaskNode_new raw).
Proof.
  unfold TaskNode_new, validate_dependencies, reject_self_dependency, validate_work_package_metadata. ve_steps.
Qed.
Lemma ve_assessment p : value_error (_assessment p).
Proof. unfold _assessment, PlanningComplexityAssessment_new. ve_steps. Qed.
Lemma assessed_lookup ps assessed p : NoDup (wp_package_id <$> ps) →
  map_result (λ p, a ← _assessment p; Ok (wp_package_id p, a)) ps = Ok assessed → p ∈ ps →
  is_Some (dict_of assessed !! wp_package_id p).
Proof.
  intros Hnd Hm%map_result_Ok Hp.
  assert (Hids : fst <$> assessed = wp_package_id <$> ps).
  { clear -Hm. induction Hm as [|q [v b] ps l Hq _ IH]; [done|]. rewrite !fmap_cons, IH. f_equal.
    destruct (_assessment q); [|done]. by injection Hq as <- <-. }
  apply list_elem_of_lookup in Hp as [k Hk]. destruct (Forall2_lookup_l _ _ _ _ _ Hm Hk) as ([v a] & Hv & Hpa).
  exists a. apply dict_of_lookup; [by rewrite Hids|]. apply list_elem_of_lookup_2 in Hv.
  destruct (_assessment p); [|done]. by injection Hpa as <- <-.
Qed.
Lemma ve_convert adaptive plan requirement max_tasks : NoDup (wp_package_id <$> packages plan) →
  value_error (validate_and_convert adaptive plan requirement max_tasks).
Proof.
  intros Hnd. unfold validate_and_convert. cbv zeta.
  apply ve_bind; [by apply ve_check|intros _ _]. apply ve_bind; [by apply ve_check|intros _ _].
  apply ve_bind.
  { apply ve_fold. intros _ p. unfold check_package, _validate_single_deliverable, check_interface. ve_steps. }
  intros _ _. apply ve_bind.
  { apply ve_map. intros p _. apply ve_bind; [apply ve_assessment|by intros a _]. }
  intros assessed Hass. assert (Hlook : ∀ p, p ∈ packages plan → value_error
    (of_option (Exn KeyError (wp_package_id p)) (dict_of assessed !! wp_package_id p))).
  { intros p Hp. by destruct (assessed_lookup _ _ _ Hnd Hass Hp) as [a ->]. }
  apply ve_bind.
  { apply ve_map. intros p Hp. unfold package_node, package_contract, package_budget, TaskBudgetAllocation_new.
    ve_steps; auto using ve_contract, ve_node. }
  intros nodes Hnodes. apply ve_bind.
  { assert (Hdeps : Forall (λ n, NoDup (tn_depends_on n)) nodes).
    { apply map_result_Ok in Hnodes. apply Forall_forall. intros n [k Hk]%list_elem_of_lookup.
      destruct (Forall2_lookup_r _ _ _ _ _ Hnodes Hk) as (p & _ & Hp). unfold package_node in Hp.
      apply bind_Ok_inv in Hp as (t & _ & Hp). apply bind_Ok_inv in Hp as (b & _ & Hp).
      apply bind_Ok_inv in Hp as (a & _ & Hp). by eapply TaskNode_new_nodup. }
    destruct (TaskDAG_new_cases nodes Hdeps) as [(-> & _)|(msg & -> & _)]; [done|]. cbn. by apply ve_raise. }
  intros dag _. unfold interface_contract, InterfaceContract_new, package_budget, TaskBudgetAllocation_new,
    _routing_audit, WorkPackageRoutingAudit_new. ve_steps; auto.
Qed.

(** ** Requests are well formed *)
Definition valid_planner (self : MultiTaskPlannerAgent) : Prop :=
  (∃ raw, MultiTaskPlannerAgent_init raw = Ok self) ∧ (str_len (pa_model self) ≤ 256)%nat.
Record planner_wf (self : MultiTaskPlannerAgent) : Prop := {
  pf_model : strip (pa_model self) = pa_model self ∧ pa_model self ≠ "";
  pf_attempts : 0 <= pa_max_schema_repair_attempts self <= 3;
  pf_temperature : fleb (of_int 0) (pa_temperature self) && fleb (pa_temperature self) (of_int 2) = true;
  pf_tokens : tokens_ok (pa_initial_max_output_tokens self) = true
    ∧ tokens_ok (pa_json_repair_max_output_tokens self) = true
    ∧ tokens_ok (pa_budget_replan_max_output_tokens self) = true;
}.
Lemma init_wf raw self : MultiTaskPlannerAgent_init raw = Ok self → planner_wf self.
Proof.
  unfold MultiTaskPlannerAgent_init. intros H. inv_monad.
  repeat match goal with H : check _ _ _ = Ok _ |- _ => apply check_Ok in H end.
  to_prop. split; cbn [pa_model pa_max_schema_repair_attempts pa_temperature pa_initial_max_output_tokens
    pa_json_repair_max_output_tokens pa_budget_replan_max_output_tokens]; try done; [by rewrite strip_idemp|by apply andb_true_iff].
Qed.
Lemma message_Ok role text : (role = MR_SYSTEM ∨ role = MR_USER) → strip text ≠ "" →
  AgentMessage_new {| am_role := role; am_content := text; am_tool_call_id := None; am_tool_calls := [] |}
  = Ok {| am_role := role; am_content := strip text; am_tool_call_id := None; am_tool_calls := [] |}.
Proof.
  intros Hrole Ht. unfold AgentMessage_new, normalize_tool_call_id, validate_role_payload.
  cbn [am_tool_call_id mbind result_bind am_content am_role am_tool_calls].
  destruct Hrole as [-> | ->]; cbn [length]; rewrite (bool_decide_false (strip text = "")) by done;
    by rewrite !valid_if_true.
Qed.
Section requests.
Context (self : MultiTaskPlannerAgent) (Hself : planner_wf self) (Hlen : (str_len (pa_model self) ≤ 256)%nat).
Lemma planner_request_Ok temperature tokens system user :
  fleb (of_int 0) temperature && fleb temperature (of_int 2) = true → tokens_ok tokens = true →
  strip system ≠ "" → strip user ≠ "" → ∃ r, planner_request self temperature tokens system user = Ok r.
Proof using Hself Hlen.
  intros Ht Hk Hs Hu. unfold planner_request. rewrite !message_Ok by auto. cbn [mbind result_bind].
  unfold AgentRequest_new, validate_unique_tools.
  cbn [ar_model ar_messages ar_temperature ar_max_output_tokens ar_context_estimated_tokens
    ar_execution_iteration ar_tools ar_role ar_enable_thinking ar_budget_progress ar_liveness_credit].
  destruct (pf_model self Hself) as [Hm Hne]. rewrite Hm.
  rewrite (valid_if_true (str_between 1 256 _)) by (apply len_between; split; [by apply str_len_nonempty|done]).
  cbn [mbind result_bind]. rewrite (valid_if_true (negb (bool_decide (pa_model self = "")))) by by rewrite bool_decide_false.
  cbn [mbind result_bind]. rewrite (valid_if_true (negb (bool_decide (_ = 0%nat)))) by done. cbn [mbind result_bind].
  rewrite (valid_if_true (fleb _ _ && _)) by done. cbn [mbind result_bind].
  rewrite (valid_if_true (_ && (tokens <=? 32768))) by done. cbn [mbind result_bind].
  rewrite !valid_if_true by done. by eexists.
Qed.
Lemma chars_head a b : chars a ≠ [] → head (chars (a +:+ b)) = head (chars a).
Proof using. rewrite chars_app. by destruct (chars a). Qed.
Lemma starts_text c s : head (chars s) = Some c → is_py_space c = false → strip s ≠ "".
Proof using.
  intros Hh. apply strip_nonempty. destruct (chars s) as [|d l]; [done|]. injection Hh as ->. by left.
Qed.
Lemma initial_request_Ok requirement context : ∃ r, _build_initial_request self requirement context = Ok r.
Proof using Hself Hlen.
  apply planner_request_Ok; [apply Hself|apply Hself|by eapply (starts_text "Y"%char)|by eapply (starts_text "P"%char)].
Qed.
Lemma zero_ok : fleb (of_int 0) (of_int 0) && fleb (of_int 0) (of_int 2) = true.
Proof using. by vm_compute. Qed.
Lemma repair_request_Ok requirement output error n :
  ∃ r, _build_repair_request self requirement output error n = Ok r.
Proof using Hself Hlen.
  apply planner_request_Ok; [apply zero_ok|apply Hself|by eapply (starts_text "R"%char)|by eapply (starts_text "R"%char)].
Qed.
Lemma replan_request_Ok json requirement plan error :
  ∃ r, _build_budget_replan_request json self requirement plan error = Ok r.
Proof using Hself Hlen.
  apply planner_request_Ok; [apply zero_ok|apply Hself|by eapply (starts_text "R"%char)|by eapply (starts_text "R"%char)].
Qed.
End requests.
Lemma invalid_output_kind self output error :
  exn_kind (invalid_output_error self output error) = InvalidPlannerOutputError.
Proof.
  unfold invalid_output_error, _build_invalid_output_failure, FailureReport_new.
  cbn [message evidence failure_type source retryable].
  rewrite (valid_if_true (_ && _)) by by vm_compute. cbn [mbind result_bind].
  assert (∃ m, normalize_message ("Multi-Agent Planner output failed WorkPackagePlan structural validation after "
    +:+ "the single permitted re-decomposition attempt was exhausted.") = Ok m) as [m ->].
  { eexists. by vm_compute. }
  cbn [mbind result_bind]. unfold normalize_evidence. rewrite valid_if_true; [done|].
  apply negb_true_iff, existsb_false_forall. intros v Hv. apply bool_decide_eq_false.
  rewrite !fmap_cons, fmap_nil in Hv.
  repeat (apply elem_of_cons in Hv as [->|Hv]; [by eapply starts_text|]). by apply elem_of_nil in Hv.
Qed.

(** ** The loop *)
Definition usage_ok (u : TokenUsage) : Prop :=
  0 <= prompt_tokens u ∧ 0 <= completion_tokens u ∧ 0 <= total_tokens u.
Section loop.
Context (read_plan : string → result (list WorkPackage)) (plan_json : WorkPackagePlan → string)
  {D : Type} (driver : AgentRequest → M D AgentResponse) (self : MultiTaskPlannerAgent) (calls : D → nat).
(** Reading a JSON text fails with a [ValidationError]; a call is counted;
    the usage of a response is not negative. *)
Context (Hread : ∀ content, value_error (read_plan content))
  (Hcalls : ∀ request d, calls (driver request d).2 = S (calls d))
  (Husage : ∀ request d response d', driver request d = (Ok response, d') → usage_ok (as_usage response))
  (Hself : planner_wf self) (Hlen : (str_len (pa_model self) ≤ 256)%nat).
Definition driver_error (e : exn) : Prop := ∃ request d d', driver request d = (Raise e, d').
(** What is remembered of an accepted answer. *)
Definition answered (p : Planning) (dag : TaskDAG) (requirement : string) : Prop :=
  ∃ plan res, last_work_package_plan p = Some plan ∧ last_planning_result p = Some res
    ∧ dag = pr_dag res ∧ valid_plan plan
    ∧ validate_and_convert (pa_adaptive_work_package_routing_enabled self) plan requirement
        (pa_max_tasks self) = Ok res.

(** One call more. *)
Definition called (s s' : Planning * D) : Prop :=
  calls s'.2 = S (calls s.2) ∧ _planning_call_count s'.1 = _planning_call_count s.1 + 1
  ∧ usage_ok (last_usage s'.1).
Lemma wp_complete request req s (Q : AgentResponse → Planning * D → Prop) E :
  request = Ok req → usage_ok (last_usage s.1) → (∀ response s', called s s' → Q response s') →
  (∀ e s', driver_error e → calls s'.2 = S (calls s.2) → E e s') → wp (_complete driver request) Q E s.
Proof using Hcalls Husage.
  clear Hself Hlen. intros -> Hu HQ HE. unfold _complete. apply wp_lift_bind; [intros r [= <-]|done].
  apply wp_bind. unfold wp at 1, with_driver_state. pose proof (Hcalls req s.2) as Hc.
  destruct (driver req s.2) as [[response|e] d'] eqn:Hd; cbn in Hc.
  2:{ apply HE; [by exists req, s.2, d'|done]. }
  destruct (Husage _ _ _ _ Hd) as (H1 & H2 & H3). destruct Hu as (U1 & U2 & U3).
  unfold set_planning. apply wp_modify_bind. cbn [fst snd]. apply wp_bind. unfold _add_usage. apply wp_get_bind.
  cbn [fst snd last_usage]. apply wp_lift_bind.
  - intros total Ht. assert (usage_ok total) as Hok.
    { unfold TokenUsage_new in Ht. inv_valid. to_prop. by split_and!. }
    unfold set_planning, wp, modify. cbn [fst snd]. apply wp_ret, HQ. by split_and!.
  - intros e Ht. unfold TokenUsage_new in Ht. cbn [prompt_tokens completion_tokens total_tokens] in Ht.
    rewrite !valid_if_true in Ht by (apply Z.leb_le; lia). done.
Qed.
Lemma wp_refused {A} (r : result A) (k : A → M (Planning * D) (TaskDAG + string)) s Q E :
  value_error r → (∀ a, r = Ok a → wp (k a) Q E s) → (∀ msg, Q (inr msg) s) → wp (refused r k) Q E s.
Proof using.
  intros Hv Hk Hm. unfold refused. destruct r as [a|e]; [by apply Hk|].
  rewrite (Hv e eq_refl). apply wp_ret, Hm.
Qed.
Lemma ve_model content : value_error (model_validate_json read_plan content).
Proof using Hread.
  unfold model_validate_json, WorkPackagePlan_new, validate_unique_packages_and_interfaces.
  apply ve_bind; [apply Hread|intros raw _]. apply ve_bind; [apply ve_map; intros; apply ve_package|intros ps _].
  ve_steps.
Qed.
Lemma model_valid content plan : model_validate_json read_plan content = Ok plan → valid_plan plan.
Proof using.
  unfold model_validate_json. intros H. apply bind_Ok_inv in H as (raw & _ & H).
  apply bind_Ok_inv in H as (ps & Hps%map_result_Ok & Hp).
  assert (plan = {| packages := ps |}) as ->.
  { revert Hp. unfold WorkPackagePlan_new, validate_unique_packages_and_interfaces. intros Hp. by inv_valid. }
  split; [done|]. cbn [packages]. apply Forall_forall. intros p [k Hk]%list_elem_of_lookup.
  destruct (Forall2_lookup_r _ _ _ _ _ Hps Hk) as (r & _ & Hr). by exists r.
Qed.
(** The planning state after an accepted or a refused answer. *)
Lemma wp_candidate content requirement (s : Planning * D) (Q : TaskDAG + string → Planning * D → Prop) E :
  (∀ dag p', answered p' dag requirement → _planning_call_count p' = _planning_call_count s.1 →
     usage_ok (last_usage p') → Q (inl dag) (p', s.2)) →
  (∀ msg, Q (inr msg) s) → usage_ok (last_usage s.1) →
  wp (_validated_candidate read_plan self content requirement) Q E s.
Proof using Hread.
  intros Hok Hno Hu. unfold _validated_candidate. apply wp_refused; [apply ve_model| |done].
  intros plan Hplan%model_valid. apply wp_refused; [apply ve_convert, (pl_ids _ (valid_plan_wf _ Hplan))| |done].
  intros res Hres. unfold set_planning. apply wp_modify_bind, wp_ret, Hok; [|done|done].
  exists plan, res. by split_and!.
Qed.
(** The calls made between two states. *)
Definition calls_within (n : nat) (s s' : Planning * D) : Prop := (calls s'.2 ≤ calls s.2 + n)%nat.
Lemma wp_repair_loop fuel attempt requirement output error s : usage_ok (last_usage s.1) →
  wp (repair_loop read_plan driver self fuel attempt requirement output error)
    (λ dag s', calls_within fuel s s' ∧ answered s'.1 dag requirement
       ∧ _planning_call_count s'.1 - _planning_call_count s.1 = Z.of_nat (calls s'.2) - Z.of_nat (calls s.2)
       ∧ usage_ok (last_usage s'.1))
    (λ e s', calls_within fuel s s' ∧ (exn_kind e = InvalidPlannerOutputError ∨ driver_error e)) s.
Proof using All.
  revert attempt output error s. induction fuel as [|fuel IH]; intros attempt output error s Hu; cbn [repair_loop].
  { apply wp_lift. split; [unfold calls_within; lia|]. left. apply invalid_output_kind. }
  destruct (repair_request_Ok self Hself Hlen requirement output error attempt) as [req Hreq].
  apply wp_bind. eapply wp_complete; [exact Hreq|exact Hu| |].
  2:{ intros e s' He Hc. split; [unfold calls_within; lia|by right]. }
  intros response s1 (Hc & Hn & Hu1). cbv zeta. apply wp_bind, wp_candidate; [| |done].
  - intros dag p' Ha Hn' Hu'. apply wp_ret. unfold calls_within. cbn [fst snd]. split_and!; [lia|done|lia|done].
  - intros msg. eapply wp_mono; [by apply IH| |].
    + intros dag s' (H1 & H2 & H3 & H4). unfold calls_within in *. split_and!; [lia|done|lia|done].
    + intros e s' (H1 & H2). unfold calls_within in *. split; [lia|done].
Qed.
Lemma wp_plan requirement context s :
  wp (plan read_plan driver self requirement context)
    (λ dag s', calls_within (S (Z.to_nat (pa_max_schema_repair_attempts self))) s s'
       ∧ answered s'.1 dag (strip requirement)
       ∧ _planning_call_count s'.1 = Z.of_nat (calls s'.2) - Z.of_nat (calls s.2)
       ∧ usage_ok (last_usage s'.1))
    (λ e s', calls_within (S (Z.to_nat (pa_max_schema_repair_attempts self))) s s'
       ∧ (strip requirement = "" ∧ exn_kind e = ValueError ∧ s' = s
          ∨ exn_kind e = InvalidPlannerOutputError ∨ driver_error e)) s.
Proof using All.
  unfold plan. cbv zeta. apply wp_lift_bind.
  2:{ intros e He. apply check_Raise in He as He'. split; [unfold calls_within; lia|left].
      destruct (decide (strip requirement = "")) as [Hs|Hs]; [by rewrite He'|].
      by rewrite (bool_decide_false _ Hs) in He. }
  intros _ _. unfold set_planning. apply wp_modify_bind. cbn [fst snd].
  destruct (initial_request_Ok self Hself Hlen (strip requirement)
    (if truthy context then strip <$> context else None)) as [req Hreq].
  apply wp_bind. eapply wp_complete; [exact Hreq|by split_and!| |].
  2:{ intros e s' He Hc. cbn in Hc. split; [unfold calls_within; lia|by right; right]. }
  intros response s1 (Hc & Hn & Hu1). cbn in Hc, Hn. cbv zeta. apply wp_bind, wp_candidate; [| |done].
  - intros dag p' Ha Hn' Hu'. apply wp_ret. unfold calls_within. cbn [fst snd]. split_and!; [lia|done|lia|done].
  - intros msg. eapply wp_mono; [by apply wp_repair_loop| |].
    + intros dag s' (H1 & H2 & H3 & H4). unfold calls_within in *. split_and!; [lia|done|lia|done].
    + intros e s' (H1 & H2). unfold calls_within in *. split; [lia|by right].
Qed.
(** A re-decomposition uses a call that is left, or none. *)
Lemma wp_replan requirement error s : usage_ok (last_usage s.1) →
  _planning_call_count s.1 <= pa_max_schema_repair_attempts self + 1 →
  let left := pa_max_schema_repair_attempts self + 1 - _planning_call_count s.1 in
  wp (replan_for_budget read_plan plan_json driver self requirement error)
    (λ dag s', calls_within (Z.to_nat left) s s' ∧ calls s'.2 = S (calls s.2)
       ∧ _planning_call_count s'.1 = _planning_call_count s.1 + 1
       ∧ _planning_call_count s'.1 <= pa_max_schema_repair_attempts self + 1
       ∧ answered s'.1 dag (strip requirement))
    (λ e s', calls_within (Z.to_nat left) s s'
       ∧ (exn_kind e = InvalidPlannerOutputError ∨ driver_error e)) s.
Proof using All.
  intros Hu Hcount left. unfold replan_for_budget. apply wp_get_bind. unfold can_replan_for_budget.
  destruct (_planning_call_count s.1 <? pa_max_schema_repair_attempts self + 1) eqn:Hlt.
  2:{ apply wp_lift. split; [unfold calls_within; lia|]. left. apply invalid_output_kind. }
  apply Z.ltb_lt in Hlt. destruct (last_work_package_plan s.1) as [existing|].
  2:{ apply wp_lift. split; [unfold calls_within; lia|]. left. apply invalid_output_kind. }
  destruct (replan_request_Ok self Hself Hlen plan_json (strip requirement) existing error) as [req Hreq].
  apply wp_bind. eapply wp_complete; [exact Hreq|exact Hu| |].
  2:{ intros e s' He Hc. split; [unfold calls_within; lia|by right]. }
  intros response s1 (Hc & Hn & Hu1). apply wp_bind, wp_candidate; [| |done].
  - intros dag p' Ha Hn' Hu'. apply wp_ret. unfold calls_within. cbn [fst snd]. split_and!; [lia|lia|lia|lia|done].
  - intros msg. apply wp_lift. split; [unfold calls_within; lia|]. left. apply invalid_output_kind.
Qed.
End loop.

(** ** Properties *)

(** A planning run asks the model at most once more than the number of
    repair attempts, re-decomposition included.  It returns a graph only if
    the answer of the model is a valid proposal whose conversion is that
    graph, and it fails only on a blank requirement, with an exception of the
    model, or with [InvalidPlannerOutputError]; an answer the validation
    refuses, whatever its text, never escapes as another exception. *)
Theorem planning_bounded read_plan plan_json {D} (driver : AgentRequest → M D AgentResponse) self
    (calls : D → nat) requirement context s r s'
    (Hself : valid_planner self)
    (Hread : ∀ content, value_error (read_plan content))
    (Hcalls : ∀ request d, calls (driver request d).2 = S (calls d))
    (Husage : ∀ request d response d', driver request d = (Ok response, d') → usage_ok (as_usage response))
    (Hrun : plan read_plan driver self requirement context s = (r, s')) :
  let most := S (Z.to_nat (pa_max_schema_repair_attempts self)) in
  (calls s'.2 ≤ calls s.2 + most)%nat
  ∧ match r with
    | Ok dag =>
        answered self s'.1 dag (strip requirement)
        ∧ ∀ error r' s'', replan_for_budget read_plan plan_json driver self requirement error s' = (r', s'') →
            (calls s''.2 ≤ calls s.2 + most)%nat
            ∧ ∀ dag', r' = Ok dag' → answered self s''.1 dag' (strip requirement)
    | Raise e =>
        strip requirement = "" ∧ exn_kind e = ValueError ∧ s' = s
        ∨ exn_kind e = InvalidPlannerOutputError ∨ driver_error driver e
    end.
Proof.
  destruct Hself as [[raw Hinit] Hlen]. pose proof (init_wf _ _ Hinit) as Hwf. intros most.
  pose proof (wp_plan read_plan plan_json driver self calls Hread Hcalls Husage Hwf Hlen requirement context s) as Hp.
  unfold wp in Hp. rewrite Hrun in Hp. destruct r as [dag|e]; [|exact Hp].
  destruct Hp as (Hc & Ha & Hn & Hu). split; [exact Hc|]. split; [exact Ha|]. intros error r' s'' Hre.
  unfold calls_within in Hc. destruct (pf_attempts self Hwf).
  pose proof (wp_replan read_plan plan_json driver self calls Hread Hcalls Husage Hwf Hlen requirement error s' Hu) as Hr.
  unfold wp in Hr. rewrite Hre in Hr. specialize (Hr ltac:(lia)). unfold calls_within in Hr.
  destruct r' as [dag'|e]; [destruct Hr as (Hc' & _ & _ & _ & Ha')|destruct Hr as (Hc' & _)].
  - split; [lia|]. by intros ? [= <-].
  - split; [lia|done].
Qed.

(** ** Witness: a model whose first answer is refused *)
Definition toy_planner : MultiTaskPlannerAgent := {|
  pa_model := "planner"; pa_max_tasks := 8; pa_max_schema_repair_attempts := 1;
  pa_temperature := literal 1 10; pa_initial_max_output_tokens := 1000;
  pa_json_repair_max_output_tokens := 700; pa_budget_replan_max_output_tokens := 800;
  pa_enable_thinking := false; pa_adaptive_work_package_routing_enabled := true |}.
Definition toy_read (content : string) : result (list WorkPackage) :=
  if decide (content = "plan") then Ok (packages sample_plan) else invalid "json".
(** The state of the model is the number of its calls. *)
Definition toy_driver (request : AgentRequest) : M nat AgentResponse := λ n,
  (Ok {| as_model := "planner"; as_content := if decide (n = 0%nat) then "Sure!" else "plan";
         as_tool_calls := []; as_usage := {| prompt_tokens := 10; completion_tokens := 5; total_tokens := 15 |};
         as_latency_ms := 1; as_finish_reason := None |}, S n).
Definition toy_run := plan toy_read toy_driver toy_planner " a parser " None (Planning_init, O).
Lemma planning_bounded_witness :
  is_ok toy_run.1 = true ∧ toy_run.2.2 = 2%nat
  ∧ (id toy_run.2.2 ≤ id 0%nat + S (Z.to_nat (pa_max_schema_repair_attempts toy_planner)))%nat.
Proof.
  split; [by vm_compute|]. split; [by vm_compute|].
  refine (proj1 (planning_bounded toy_read (λ _, "{}") toy_driver toy_planner id " a parser " None (Planning_init, 0%nat)
    toy_run.1 toy_run.2 _ _ _ _ _)).
  - split; [exists toy_planner; by vm_compute|]. apply Nat.leb_le. by vm_compute.
  - intros content. unfold toy_read. case_decide; [done|by apply ve_raise].
  - reflexivity.
  - intros request d response d' [= <- _]. by split_and!.
  - apply surjective_pairing.
Defined.
