(* ===== verification/StoredDag.v ===== *)
(** * StoredDag: the immutable graph of a run

    [persistence/dag.py] ([PostgresDAGStore]): a run is started together with
    its tasks, their dependencies and planning facts, and the hash of the
    normalised graph; the graph is read back, validated and checked against
    the hash; a run of an earlier version can be given its graph once.

    How Pydantic dumps a task contract is part of the interface [Pydantic] of
    the evidence store; the other fields of a node are dumped here.  How it
    reads the three nested models of a node, and the dump of a resume
    context, is the interface [NodeModels]. *)
From stdpp Require Import options.
From S2P Require Import Prelude Contracts Dag DagFacts WorkPackages Json Store Events Lease RunModels AgentModels Developer Recovery Merge Conflict Dispatch Reconcile IntegrationRepair EvidenceStore Completion.
Open Scope Z_scope.

(** ** A graph as JSON *)
Definition WorkflowExecutionMode_value (m : WorkflowExecutionMode) : string :=
  match m with WORKFLOW => "WORKFLOW" | AGENT => "AGENT" | HYBRID => "HYBRID" end.
Definition all_modes : list WorkflowExecutionMode := [WORKFLOW; AGENT; HYBRID].
Definition all_complexities : list PlanningComplexity := [LOW; MEDIUM; HIGH].
Class NodeModels : Type := {
  dump_resume : TaskResumeContext → JSON;
  read_allocation : JSON → result TaskBudgetAllocation;
  read_assessment : JSON → result PlanningComplexityAssessment;
  read_resume : JSON → result TaskResumeContext;
}.
Definition dump_allocation (a : TaskBudgetAllocation) : JSON :=
  JObj [("package_id", JStr (tba_package_id a));
        ("recommended_token_budget", JInt (tba_recommended_token_budget a))].
Definition dump_assessment (a : PlanningComplexityAssessment) : JSON :=
  JObj [("package_id", JStr (pca_package_id a));
        ("complexity", JStr (PlanningComplexity_value (pca_complexity a)));
        ("score", JInt (pca_score a)); ("reasons", JList (JStr <$> pca_reasons a))].

Inductive PersistedDAGSource : Set := PERSISTED | IMPLICIT_SINGLE_TASK.
Record PersistedDAGSnapshot : Set := {
  pd_run_id : UUID;
  pd_dag : TaskDAG;
  pd_dag_sha256 : string;
  pd_source : PersistedDAGSource;
}.
Definition PersistedDAGSnapshot_new (raw : PersistedDAGSnapshot) : result PersistedDAGSnapshot :=
  valid_if (is_sha256_hex (pd_dag_sha256 raw)) "dag_sha256" ;;
  Ok raw.

(** [normalize_task_dag] *)
Definition normal_node (dag : TaskDAG) (task_id : string) : result TaskNode :=
  n ← node dag task_id;
  TaskNode_new {|
    tn_task := tn_task n; tn_depends_on := sorted_strings (tn_depends_on n);
    tn_execution_mode := tn_execution_mode n; tn_produces := tn_produces n;
    tn_consumes := tn_consumes n; tn_complexity := tn_complexity n;
    tn_budget_allocation := tn_budget_allocation n;
    tn_complexity_assessment := tn_complexity_assessment n;
    tn_resume_context := tn_resume_context n |}.
Definition normalize_task_dag (dag : TaskDAG) : result TaskDAG :=
  order ← topological_order dag;
  nodes ← map_result (normal_node dag) order;
  TaskDAG_new nodes.

(** ** Node metadata *)
Section metadata.
Context `{NodeModels}.

Definition metadata_fields (n : TaskNode) : list (string * JSON) := [
  ("execution_mode", JStr (WorkflowExecutionMode_value (tn_execution_mode n)));
  ("produces", JList (JStr <$> tn_produces n));
  ("consumes", JList (JStr <$> tn_consumes n));
  ("complexity", opt_json (λ c, JStr (PlanningComplexity_value c)) (tn_complexity n));
  ("budget_allocation", opt_json dump_allocation (tn_budget_allocation n));
  ("complexity_assessment", opt_json dump_assessment (tn_complexity_assessment n));
  ("resume_context", opt_json dump_resume (tn_resume_context n))].
(** [value not in (None, [], "AGENT")] *)
Definition significant (value : JSON) : bool :=
  negb (bool_decide (value = JNull ∨ value = JList [] ∨ value = JStr "AGENT")).
Definition _node_metadata (n : TaskNode) : option JSON :=
  if existsb (λ f, significant f.2) (metadata_fields n) then Some (JObj (metadata_fields n)) else None.

(** [dict(value)]: of an object, or of an iterable of pairs. *)
Definition pair_of (j : JSON) : result (JSON * JSON) :=
  match j with
  | JList [k; v] => Ok (k, v)
  | JObj [f; g] => Ok (JStr f.1, JStr g.1)
  | JStr s => match chars s with
              | [c; d] => Ok (JStr (of_chars [c]), JStr (of_chars [d]))
              | _ => raise ValueError "dictionary update sequence element has the wrong length"
              end
  | JList _ | JObj _ => raise ValueError "dictionary update sequence element has the wrong length"
  | _ => raise TypeError "cannot convert dictionary update sequence element to a sequence"
  end.
Definition hashable_pair (j : JSON) : result (option (string * JSON)) :=
  p ← pair_of j;
  match p.1 with
  | JStr k => Ok (Some (k, p.2))
  | JList _ | JObj _ => raise TypeError "unhashable type"
  | _ => Ok None
  end.
Definition items_of (j : JSON) : result (list JSON) :=
  match j with
  | JList l => Ok l
  | JStr s => Ok ((λ c, JStr (of_chars [c])) <$> chars s)
  | JObj fs => Ok ((λ f, JStr f.1) <$> fs)
  | _ => raise TypeError "object is not iterable"
  end.
(** The items with a [str] key; a later item replaces an earlier one. *)
Definition py_dict (j : JSON) : result (list (string * JSON)) :=
  match j with
  | JObj fs => Ok fs
  | _ =>
      items ← items_of j;
      pairs ← map_result hashable_pair items;
      Ok (reverse (omap id pairs))
  end.
(** [payload.get(key, absent)] *)
Definition py_get (key : string) (absent : JSON) (fs : list (string * JSON)) : JSON :=
  default absent (get_field key fs).

(** What Pydantic reads for a field of a node. *)
Definition read_str (j : JSON) : result string :=
  match j with JStr s => Ok s | _ => invalid "str" end.
Definition read_enum {A} (all : list A) (value_of : A → string) (j : JSON) : result A :=
  match j with
  | JStr s => match find (λ a, bool_decide (value_of a = s)) all with
              | Some a => Ok a
              | None => invalid "enum"
              end
  | _ => invalid "enum"
  end.
Definition read_optional {A} (read : JSON → result A) (j : JSON) : result (option A) :=
  match j with JNull => Ok None | _ => a ← read j; Ok (Some a) end.
(** A decoded payload: the arguments of [TaskNode] besides the task and its
    dependencies. *)
Record NodePayload : Set := {
  np_execution_mode : JSON;
  np_produces : list JSON;
  np_consumes : list JSON;
  np_complexity : JSON;
  np_budget_allocation : JSON;
  np_complexity_assessment : JSON;
  np_resume_context : JSON;
}.
Definition _decode_node_metadata (metadata : option JSON) : result (option NodePayload) :=
  match metadata with
  | None => Ok None
  | Some value =>
      let decoded :=
        payload ← py_dict value;
        produces ← items_of (py_get "produces" (JList []) payload);
        consumes ← items_of (py_get "consumes" (JList []) payload);
        Ok (Some {|
          np_execution_mode := py_get "execution_mode" (JStr "AGENT") payload;
          np_produces := produces; np_consumes := consumes;
          np_complexity := py_get "complexity" JNull payload;
          np_budget_allocation := py_get "budget_allocation" JNull payload;
          np_complexity_assessment := py_get "complexity_assessment" JNull payload;
          np_resume_context := py_get "resume_context" JNull payload |}) in
      match decoded with
      | Raise e => if subclass (exn_kind e) TypeError || subclass (exn_kind e) ValueError
                   then raise PersistenceCorruptionError "persisted task has invalid DAG node metadata"
                   else Raise e
      | r => r
      end
  end.
(** [TaskNode(task=task, depends_on=depends_on, **metadata)] *)
Definition TaskNode_of (task : TaskContract) (depends_on : list string) (payload : option NodePayload)
    : result TaskNode :=
  match payload with
  | None => TaskNode_new (plain_node task depends_on)
  | Some p =>
      execution_mode ← read_enum all_modes WorkflowExecutionMode_value (np_execution_mode p);
      produces ← map_result read_str (np_produces p);
      consumes ← map_result read_str (np_consumes p);
      complexity ← read_optional (read_enum all_complexities PlanningComplexity_value) (np_complexity p);
      budget_allocation ← read_optional (λ j, raw ← read_allocation j; TaskBudgetAllocation_new raw)
                            (np_budget_allocation p);
      complexity_assessment ← read_optional
        (λ j, raw ← read_assessment j; PlanningComplexityAssessment_new raw) (np_complexity_assessment p);
      resume_context ← read_optional read_resume (np_resume_context p);
      TaskNode_new {|
        tn_task := task; tn_depends_on := depends_on; tn_execution_mode := execution_mode;
        tn_produces := produces; tn_consumes := consumes; tn_complexity := complexity;
        tn_budget_allocation := budget_allocation; tn_complexity_assessment := complexity_assessment;
        tn_resume_context := resume_context |}
  end.
End metadata.

Section stored_dag.
Context (sha256 : string → string) `{Pydantic} `{!NodeModels}.

(** ** [model_dump(mode="json")] of a graph *)
Definition dump_node (n : TaskNode) : JSON :=
  JObj ([("task", dump_task (tn_task n)); ("depends_on", JList (JStr <$> tn_depends_on n))]
        ++ metadata_fields n).
Definition dump_dag (dag : TaskDAG) : JSON := JObj [("tasks", JList (dump_node <$> tasks dag))].

(** ** Reading a graph *)
Definition _decode_task_contract (row : TaskRow) : result TaskContract :=
  verify_payload_hash sha256 (tr_contract row) (tr_contract_sha256 row) ("task " +:+ tr_task_id row) ;;
  task ← corruption ("persisted task '" +:+ tr_task_id row +:+ "' failed TaskContract validation")
           (raw ← read_task (tr_contract row); TaskContract_new raw);
  check (bool_decide (tc_task_id task = tr_task_id row)) PersistenceCorruptionError
    "persisted task id disagrees with contract payload" ;;
  Ok task.
Definition decode_stored_node (row : TaskRow) : result TaskNode :=
  task ← _decode_task_contract row;
  payload ← _decode_node_metadata (tr_node_metadata row);
  TaskNode_of task (default [] (tr_depends_on row)) payload.
(** The keys that graphs stored before node metadata do not have. *)
Definition later_keys : list string := [
  "execution_mode"; "produces"; "consumes"; "complexity"; "budget_allocation"; "complexity_assessment"].
Definition legacy_item (item : JSON) : JSON :=
  match item with
  | JObj fields => JObj (List.filter (λ f, negb (bool_decide (f.1 ∈ later_keys))) fields)
  | _ => item
  end.
Definition legacy_payload (dag : TaskDAG) : JSON :=
  JObj [("tasks", JList ((λ n, legacy_item (dump_node n)) <$> tasks dag))].
Definition _decode_persisted_dag (rows : list TaskRow) (digest : string) : result TaskDAG :=
  check (negb (existsb (λ row, is_none (tr_depends_on row)) rows)) PersistenceCorruptionError
    "Run DAG integrity hash exists but one or more dependency rows are missing" ;;
  dag ← corruption "persisted Run DAG failed TaskDAG validation"
          (nodes ← map_result decode_stored_node rows; TaskDAG_new nodes);
  normalized ← normalize_task_dag dag;
  let '(payload, _) := canonical_payload sha256 (dump_dag normalized) in
  match verify_payload_hash sha256 payload digest "Run DAG" with
  | Ok _ => Ok normalized
  | Raise e =>
      check (negb (existsb (λ row, negb (is_none (tr_node_metadata row))) rows)) (exn_kind e)
        (exn_message e) ;;
      verify_payload_hash sha256 (legacy_payload normalized) digest "legacy Run DAG" ;;
      Ok normalized
  end.
Definition snapshot_of (run_id : UUID) (dag : TaskDAG) (digest : string) (source : PersistedDAGSource)
    : result PersistedDAGSnapshot :=
  PersistedDAGSnapshot_new {| pd_run_id := run_id; pd_dag := dag; pd_dag_sha256 := digest;
                              pd_source := source |}.
Definition load_dag (run_id : UUID) (l : Ledger) : result PersistedDAGSnapshot :=
  run ← of_option (Exn ValueError "unknown persistence run") (db_runs (lg_db l) !! run_id);
  let rows := run_tasks run_id (lg_db l) in
  check (negb (bool_decide (length rows = O))) PersistenceCorruptionError
    "persisted Run contains no tasks" ;;
  match rr_dag_sha256 run with
  | None =>
      match rows with
      | [row] =>
          check (is_none (tr_depends_on row)) PersistenceCorruptionError
            "task dependency rows exist without the Run DAG integrity hash" ;;
          task ← _decode_task_contract row;
          n ← TaskNode_new (plain_node task []);
          dag ← TaskDAG_new [n];
          normalized ← normalize_task_dag dag;
          let '(_, digest) := canonical_payload sha256 (dump_dag normalized) in
          snapshot_of run_id normalized digest IMPLICIT_SINGLE_TASK
      | _ => raise PersistenceDAGUnavailableError
               "authoritative DAG topology is unavailable for this historical multi-task Run"
      end
  | Some digest =>
      dag ← _decode_persisted_dag rows digest;
      snapshot_of run_id dag digest PERSISTED
  end.

(** ** Writing a graph *)
Definition dag_run_row (run_id project_id : UUID) (commit : string) (digest : string) (now : Z)
    : RunRow := {|
  rr_id := run_id; rr_project_id := project_id; rr_base_commit := commit; rr_status := "RUNNING";
  rr_display_status := "RUNNING"; rr_recovery_reason := None; rr_recovery_checked_at := None;
  rr_recovery_run_id := None; rr_visibility_status := "VISIBLE"; rr_event_sequence := 0;
  rr_dag_sha256 := Some digest; rr_terminal_result := None; rr_terminal_result_sha256 := None;
  rr_started_at := now; rr_finished_at := None |}.
Definition with_graph (depends_on : list string) (metadata : option JSON) (t : TaskRow) : TaskRow := {|
  tr_run_id := tr_run_id t; tr_task_id := tr_task_id t; tr_contract := tr_contract t;
  tr_contract_sha256 := tr_contract_sha256 t; tr_depends_on := Some depends_on;
  tr_node_metadata := metadata; lease_owner := lease_owner t; lease_dispatch_id := lease_dispatch_id t;
  lease_generation := lease_generation t; run_token := run_token t;
  lease_acquired_at := lease_acquired_at t; heartbeat_at := heartbeat_at t;
  lease_until := lease_until t; lease_released_at := lease_released_at t;
  tr_created_at := tr_created_at t |}.
Definition dag_task_row (run_id : UUID) (now : Z) (n : TaskNode) : TaskRow :=
  let '(payload, contract_digest) := canonical_payload sha256 (dump_task (tn_task n)) in
  with_graph (tn_depends_on n) (_node_metadata n)
    (new_task_row run_id (node_id n) payload contract_digest now).
Definition dag_started_draft (project_id : UUID) (commit : string) (task_count : nat) (digest : string)
    : RuntimeEventDraft := {|
  ed_event_key := "run:started"; ed_kind := RUN_STARTED; ed_source := SRC_PERSISTENCE;
  ed_level := INFO; ed_task_id := None; ed_dispatch_id := None; ed_generation := None;
  ed_message := "Persisted run started.";
  ed_attributes := [("project_id", JStr (uuid_str project_id)); ("base_commit", JStr commit);
                    ("task_count", JInt (Z.of_nat task_count)); ("dag_sha256", JStr digest)] |}.
Definition start_dag_run (e : Env) (project_id : UUID) (dag : TaskDAG) (base_commit : string)
    (run_id : option UUID) : M Ledger UUID :=
  let commit := lower (strip base_commit) in
  ensure (oid_ok commit) ValueError
    "base_commit must be a 40-64 character lowercase Git object id" ;;
  normalized ← lift (normalize_task_dag dag);
  let '(_, dag_digest) := canonical_payload sha256 (dump_dag normalized) in
  let nodes := _nodes_by_id normalized in
  let candidate_run_id := default (env_uuid4 e 0) run_id in
  integrity_conflict "run identity already exists or violates DAG persistence constraints" (transaction (
    l ← get;
    ensure (bool_decide (is_Some (lg_projects l !! project_id))) ValueError
      "unknown persistence project" ;;
    in_db (insert_run (dag_run_row candidate_run_id project_id commit dag_digest (env_now e))) ;;
    order ← lift (topological_order normalized);
    for_each order (λ task_id,
      n ← lift (of_option (Exn KeyError task_id) (nodes !! task_id));
      in_db (insert_task (dag_task_row candidate_run_id (env_now e) n))) ;;
    draft ← lift (RuntimeEventDraft_new
      (dag_started_draft project_id commit (length (tasks normalized)) dag_digest));
    in_db (append_runtime_event sha256 (env_uuid4 e 1) (env_now e) candidate_run_id draft))) ;;
  mret candidate_run_id.

Definition _validate_task_identity (rows : list TaskRow) (dag : TaskDAG) : result unit :=
  check (bool_decide (tr_task_id <$> rows = sorted_strings (task_ids dag))) PersistenceConflictError
    "proposed DAG task ids must exactly match the persisted Run tasks" ;;
  let nodes := _nodes_by_id dag in
  fold_result (λ _ row,
    n ← of_option (Exn KeyError (tr_task_id row)) (nodes !! tr_task_id row);
    let '(_, digest) := canonical_payload sha256 (dump_task (tn_task n)) in
    check (bool_decide (digest = tr_contract_sha256 row)) PersistenceConflictError
      ("proposed DAG task contract differs from persisted task '" +:+ tr_task_id row +:+ "'")) tt rows.
Definition with_dag_sha256 (digest : string) (r : RunRow) : RunRow := {|
  rr_id := rr_id r; rr_project_id := rr_project_id r; rr_base_commit := rr_base_commit r;
  rr_status := rr_status r; rr_display_status := rr_display_status r;
  rr_recovery_reason := rr_recovery_reason r; rr_recovery_checked_at := rr_recovery_checked_at r;
  rr_recovery_run_id := rr_recovery_run_id r; rr_visibility_status := rr_visibility_status r;
  rr_event_sequence := rr_event_sequence r; rr_dag_sha256 := Some digest;
  rr_terminal_result := rr_terminal_result r; rr_terminal_result_sha256 := rr_terminal_result_sha256 r;
  rr_started_at := rr_started_at r; rr_finished_at := rr_finished_at r |}.
Definition persist_dag (run_id : UUID) (dag : TaskDAG) : M Ledger PersistedDAGSnapshot :=
  normalized ← lift (normalize_task_dag dag);
  let '(_, digest) := canonical_payload sha256 (dump_dag normalized) in
  frozen ← transaction (
    l ← get;
    run ← lift (of_option (Exn ValueError "unknown persistence run") (db_runs (lg_db l) !! run_id));
    let rows := run_tasks run_id (lg_db l) in
    lift (_validate_task_identity rows normalized) ;;
    match rr_dag_sha256 run with
    | Some stored =>
        existing ← lift (_decode_persisted_dag rows stored);
        let '(_, existing_digest) := canonical_payload sha256 (dump_dag existing) in
        ensure (bool_decide (existing_digest = digest)) PersistenceConflictError
          "persisted Run DAG is immutable and differs from the proposed topology" ;;
        snapshot ← lift (snapshot_of run_id existing stored PERSISTED);
        mret (Some snapshot)
    | None =>
        ensure (negb (existsb (λ row, negb (is_none (tr_depends_on row))) rows)) PersistenceCorruptionError
          "task dependency rows exist without the Run DAG integrity hash" ;;
        ensure (bool_decide (rr_status run = "RUNNING")) PersistenceConflictError
          "authoritative DAG topology cannot be added after a Run is terminal" ;;
        let nodes := _nodes_by_id normalized in
        for_each rows (λ row,
          n ← lift (of_option (Exn KeyError (tr_task_id row)) (nodes !! tr_task_id row));
          in_db (update_task (with_graph (tn_depends_on n) (_node_metadata n) row))) ;;
        in_db (update_run (with_dag_sha256 digest run)) ;;
        mret None
    end);
  match frozen with
  | Some snapshot => mret snapshot
  | None => lift (snapshot_of run_id normalized digest PERSISTED)
  end.
End stored_dag.

(** ** The nodes of a normalised graph *)
Lemma nodes_by_id_sub d t n : _nodes_by_id d !! t = Some n → n ∈ tasks d ∧ node_id n = t.
Proof.
  unfold _nodes_by_id. assert (Hgen : ∀ l (m : gmap string TaskNode),
    foldl (λ m n, <[node_id n := n]> m) m l !! t = Some n → (n ∈ l ∧ node_id n = t) ∨ m !! t = Some n).
  { induction l as [|x l IH]; intros m; cbn; [by right|].
    intros [[? ?]|[[<- <-]|[_ Hm]]%lookup_insert_Some]%IH; [left|left|by right]; set_solver. }
  intros [?|Hn]%Hgen; [done|]. by rewrite lookup_empty in Hn.
Qed.
Lemma TaskNode_new_task raw n : TaskNode_new raw = Ok n → tn_task n = tn_task raw.
Proof.
  unfold TaskNode_new, reject_self_dependency, validate_work_package_metadata. intros H. by inv_valid.
Qed.
(** A normalised graph has the tasks of the graph. *)
Lemma normalize_inv dag d : normalize_task_dag dag = Ok d →
  Forall (λ n, NoDup (tn_depends_on n)) (tasks d) ∧ TaskDAG_new (tasks d) = Ok d
  ∧ ∀ n, n ∈ tasks d → ∃ m, m ∈ tasks dag ∧ tn_task n = tn_task m.
Proof.
  unfold normalize_task_dag. intros H. apply bind_Ok_inv in H as (order & _ & H).
  apply bind_Ok_inv in H as (nodes & Hnodes%map_result_Ok & Hd).
  assert (Hnd : Forall (λ n, NoDup (tn_depends_on n)) nodes).
  { apply Forall_forall. intros n [k Hk]%list_elem_of_lookup.
    destruct (Forall2_lookup_r _ _ _ _ _ Hnodes Hk) as (t & _ & Ht). unfold normal_node in Ht.
    apply bind_Ok_inv in Ht as (m & _ & Hm). by eapply TaskNode_new_nodup. }
  destruct (TaskDAG_new_inv _ _ Hnd Hd) as (-> & _ & _). cbn [tasks]. split_and!; [done|done|].
  intros n [k Hk]%list_elem_of_lookup. destruct (Forall2_lookup_r _ _ _ _ _ Hnodes Hk) as (t & _ & Ht).
  unfold normal_node in Ht. apply bind_Ok_inv in Ht as (m & Hm & Ht). exists m. split.
  - unfold node, of_option in Hm. destruct (_nodes_by_id dag !! t) eqn:E; [|done]. injection Hm as ->.
    by apply nodes_by_id_sub in E as [? _].
  - by apply TaskNode_new_task in Ht.
Qed.
