(* ===== verification/LedgerFacts.v ===== *)
(** * LedgerFacts: what the evidence store guarantees

    A step of the ledger is a call of an operation of the evidence store, of
    its completion subclasses, of the graph store or of the leases, or another
    writer that leaves the evidence and the rows of the tasks alone (runtime
    events and dispatch attempts are such writers).  By induction over the
    steps: every run the store has written can be loaded, a terminal run
    is closed, and a task that was leased once stays fenced. *)
From Stdlib Require QArith_base.
From stdpp Require Import options.
From S2P Require Import Prelude Contracts Dag DagFacts Json Store Events Lease RunModels AgentModels Developer Recovery Merge Conflict Dispatch Reconcile IntegrationRepair EvidenceStore Completion StoredDag.
Open Scope Z_scope.

(** ** What other writers leave alone *)
Definition same_task (t t' : TaskRow) : Prop :=
  Lease.row_key t' = Lease.row_key t ∧ tr_contract t' = tr_contract t
  ∧ tr_contract_sha256 t' = tr_contract_sha256 t ∧ tr_depends_on t' = tr_depends_on t
  ∧ tr_created_at t' = tr_created_at t ∧ (run_token t ≠ None → run_token t' ≠ None)
  ∧ tr_node_metadata t' = tr_node_metadata t.
Definition same_run (r r' : RunRow) : Prop := ∃ n, r' = with_event_sequence n r.
Record db_frame (db db' : Database) : Prop := {
  df_tasks : ∀ k, option_Forall2 same_task (db_tasks db !! k) (db_tasks db' !! k);
  df_runs : ∀ k, option_Forall2 same_run (db_runs db !! k) (db_runs db' !! k);
}.
#[export] Instance same_task_preorder : PreOrder same_task.
Proof.
  split; [by intros t; split_and!|]. intros t u v (? & ? & ? & ? & ? & ? & ?) (? & ? & ? & ? & ? & ? & ?).
  split_and!; [congruence..|auto|congruence].
Qed.
#[export] Instance same_run_preorder : PreOrder same_run.
Proof.
  split; [by intros []; eexists|]. intros r s t [n ->] [m ->]. by exists m.
Qed.
#[export] Instance option_Forall2_preorder {A} (R : relation A) `{!PreOrder R} :
  PreOrder (option_Forall2 R).
Proof.
  split; [by intros [x|]; constructor|]. intros x y z Hxy Hyz. inversion Hxy; subst; [|by inversion Hyz].
  inversion Hyz; subst. constructor. by etrans.
Qed.
#[export] Instance db_frame_preorder : PreOrder db_frame.
Proof.
  split; [intros db; split; reflexivity|]. intros x y z [T1 R1] [T2 R2].
  split; intros k; [by rewrite T1|by rewrite R1].
Qed.

(** The primary keys of the rows, and the foreign key of a task. *)
Record keyed (db : Database) : Prop := {
  ky_tasks : ∀ k t, db_tasks db !! k = Some t → Lease.row_key t = k;
  ky_runs : ∀ k r, db_runs db !! k = Some r → rr_id r = k;
  ky_run_of : ∀ k t, db_tasks db !! k = Some t → is_Some (db_runs db !! k.1);
}.
Lemma frame_keyed db db' : db_frame db db' → keyed db → keyed db'.
Proof.
  intros [T R] [HT HR HF]. split.
  - intros k t' Ht'. specialize (T k). rewrite Ht' in T. inversion T as [t u Hs Ht Heq|]; subst.
    destruct Hs as [-> _]. by apply HT.
  - intros k r' Hr'. specialize (R k). rewrite Hr' in R. inversion R as [r u Hs Hr Heq|]; subst.
    destruct Hs as [n ->]. by apply (HR k r).
  - intros k t' Ht'. specialize (T k). rewrite Ht' in T. inversion T as [t u Hs Ht Heq|]; subst.
    destruct (HF k t) as [r Hr]; [done|]. specialize (R k.1). rewrite Hr in R.
    inversion R as [x y Hxy Hx Hy|]; subst. by eexists.
Qed.
Definition framed (db db' : Database) : Prop := keyed db → db_frame db db'.
#[export] Instance framed_preorder : PreOrder framed.
Proof.
  split; [by intros db _|]. intros x y z Hxy Hyz Hk. etrans; [by apply Hxy|].
  apply Hyz. eapply frame_keyed; eauto.
Qed.

Lemma frame_insert_task db k t t' : db_tasks db !! k = Some t → same_task t t' →
  db_frame db (set_tasks (<[k := t']> (db_tasks db)) db).
Proof.
  intros Ht Hs. split; [|done]. intros k'. cbn. destruct (decide (k' = k)) as [->|Hne].
  - rewrite lookup_insert_eq, Ht. by constructor.
  - by rewrite lookup_insert_ne.
Qed.
Lemma frame_insert_run db r n : db_runs db !! rr_id r = Some r →
  db_frame db (set_runs (<[rr_id r := with_event_sequence n r]> (db_runs db)) db).
Proof.
  intros Hr. split; [done|]. intros k. cbn. destruct (decide (k = rr_id r)) as [->|Hne].
  - rewrite lookup_insert_eq, Hr. constructor. by exists n.
  - by rewrite lookup_insert_ne.
Qed.

(** Writes, as weakest preconditions. *)
Lemma keeps_wp {S A} (R : S → S → Prop) (m : M S A) :
  (∀ s, wp m (λ _, R s) (λ _, R s) s) → keeps R m.
Proof. intros H s. specialize (H s). unfold wp in H. by destruct (m s) as [[a|e] s']. Qed.
Lemma wp_of_keeps {S A} (R : S → S → Prop) (m : M S A) s : keeps R m → wp m (λ _, R s) (λ _, R s) s.
Proof. intros H. specialize (H s). unfold wp. by destruct (m s) as [[a|e] s']. Qed.
Lemma wp_lift_any {S A} (r : result A) (P : S → Prop) s : P s → wp (lift r) (λ _, P) (λ _, P) s.
Proof. by destruct r. Qed.
Lemma wp_update_run r db : wp (update_run r)
  (λ _ db', db' = set_runs (<[rr_id r := r]> (db_runs db)) db) (λ _ db', db' = db) db.
Proof.
  unfold update_run, check_sql. apply wp_get_bind. by do 2 (apply wp_lift_bind; [intros _ _|done]).
Qed.
Lemma wp_insert_event r db :
  wp (insert_event r) (λ _ db', db' = add_event_row r db) (λ _ db', db' = db) db.
Proof. unfold insert_event, check_sql. apply wp_get_bind. by apply wp_lift_bind; [intros _ _|]. Qed.
Lemma wp_update_task t db : wp (update_task t)
  (λ _ db', db' = set_tasks (<[Lease.row_key t := t]> (db_tasks db)) db) (λ _ db', db' = db) db.
Proof.
  unfold update_task, check_sql. apply wp_get_bind. by do 3 (apply wp_lift_bind; [intros _ _|done]).
Qed.
Lemma frame_add_event r db : db_frame db (add_event_row r db).
Proof. done. Qed.

Section writers.
Context (sha256 : string → string).
Lemma append_framed event_id now run_id draft :
  keeps framed (append_runtime_event sha256 event_id now run_id draft).
Proof using.
  apply keeps_wp. intros db. unfold append_runtime_event. apply wp_get_bind.
  destruct (find_event _ _ _) as [row|]; [destruct (_same_event _ _ _); by apply wp_lift_any|].
  apply wp_bind. unfold wp at 1, run_row. destruct (db_runs db !! run_id) as [run|] eqn:Hr; cbn; [|done].
  apply wp_bind. eapply wp_mono; [apply wp_update_run| |by intros ? ? ->]. intros _ db1 ->.
  assert (Hf : framed db (set_runs (<[rr_id run := with_event_sequence (rr_event_sequence run + 1) run]>
    (db_runs db)) db)).
  { intros Hk. apply frame_insert_run. by rewrite (ky_runs db Hk run_id run Hr). }
  apply wp_bind. eapply wp_mono; [apply wp_insert_event| |by intros ? ? ->]. intros _ db2 ->.
  apply wp_lift_any. intros Hk. etrans; [by apply Hf|apply frame_add_event].
Qed.

(** The leases. *)
Lemma wp_transaction {S A} (m : M S A) (Q : A → S → Prop) (E : exn → S → Prop) s :
  wp m Q (λ _ _, True) s → (∀ x, E x s) → wp (transaction m) Q E s.
Proof using. unfold wp, transaction. destruct (m s) as [[a|x] s']; auto. Qed.
Lemma wp_locked_run run_id (Q : RunRow → Database → Prop) E db :
  (∀ r, db_runs db !! run_id = Some r → Q r db) → (∀ x, E x db) → wp (_locked_run run_id) Q E db.
Proof using. unfold wp, _locked_run. destruct (db_runs db !! run_id); cbn; auto. Qed.
Lemma wp_locked_task run_id name (Q : TaskRow → Database → Prop) E db :
  (∀ t, db_tasks db !! (run_id, name) = Some t → Q t db) → (∀ x, E x db) →
  wp (_locked_task run_id name) Q E db.
Proof using. unfold wp, _locked_task. destruct (db_tasks db !! _); cbn; auto. Qed.
(** A lease write: a new row for a task that was read, then an event. *)
Lemma wp_lease_write {B} run_id name t t' (rest : M Database B) db :
  db_tasks db !! (run_id, name) = Some t → same_task t t' → keeps framed rest →
  wp (update_task t' ;; rest) (λ _, framed db) (λ _ _, True) db.
Proof using.
  intros Ht Hs Hrest. apply wp_bind. eapply wp_mono; [apply wp_update_task| |done]. intros _ db1 ->.
  eapply wp_mono; [by apply wp_of_keeps| |done]. intros b db2 H2 Hk.
  assert (Hf : db_frame db (set_tasks (<[Lease.row_key t' := t']> (db_tasks db)) db)).
  { apply frame_insert_task with t; [|done]. destruct Hs as [-> _].
    by rewrite (ky_tasks db Hk _ _ Ht). }
  etrans; [exact Hf|]. by apply H2, (frame_keyed db).
Qed.
#[local] Hint Resolve append_framed : devflow.
Lemma acquire_framed e run_id task_id owner_id d ls :
  keeps framed (acquire_task_lease sha256 e run_id task_id owner_id d ls).
Proof using.
  apply keeps_wp. intros db. unfold acquire_task_lease.
  do 3 (apply wp_lift_bind; [intros ? ?|done]). apply wp_transaction; [|done].
  apply wp_bind, wp_locked_run; [|done]. intros run Hr. apply wp_lift_bind; [intros _ _|done].
  apply wp_bind, wp_locked_task; [|done]. intros t Ht. do 2 (apply wp_lift_bind; [intros ? ?|done]).
  case_match. cbv zeta. eapply wp_lease_write; [exact Ht|by split_and!|]. keep_steps.
Qed.
Lemma renew_framed e run_id task_id owner_id d token ls :
  keeps framed (renew_task_lease sha256 e run_id task_id owner_id d token ls).
Proof using.
  apply keeps_wp. intros db. unfold renew_task_lease.
  do 3 (apply wp_lift_bind; [intros ? ?|done]). apply wp_transaction; [|done].
  apply wp_bind, wp_locked_run; [|done]. intros run Hr.
  apply wp_bind, wp_locked_task; [|done]. intros t Ht. do 3 (apply wp_lift_bind; [intros ? ?|done]).
  unfold require_unexpired. apply wp_bind. apply wp_lift_bind; [intros ? ?|done].
  apply wp_lift. case_match; [|done].
  cbv zeta. eapply wp_lease_write; [exact Ht|by split_and!|]. keep_steps.
Qed.
Lemma release_framed e run_id task_id owner_id d token :
  keeps framed (release_task_lease sha256 e run_id task_id owner_id d token).
Proof using.
  apply keeps_wp. intros db. unfold release_task_lease.
  do 2 (apply wp_lift_bind; [intros ? ?|done]). apply wp_transaction; [|done].
  apply wp_bind, wp_locked_run; [|done]. intros run Hr.
  apply wp_bind, wp_locked_task; [|done]. intros t Ht. do 2 (apply wp_lift_bind; [intros ? ?|done]).
  case_match; [apply wp_lift; by case_match|].
  unfold require_unexpired. apply wp_bind. apply wp_lift_bind; [intros ? ?|done].
  apply wp_lift. case_match; [|done].
  cbv zeta. eapply wp_lease_write; [exact Ht|by split_and!|]. keep_steps.
Qed.
End writers.

(** ** The states of a ledger *)
Section ledger.
Context (sha256 : string → string) `{Pydantic}.
Implicit Types (l : Ledger) (row : EvidenceRow) (run : RunRow).

Definition running (run : RunRow) : Prop := rr_status run = "RUNNING".
(** The terminal columns agree with the status. *)
Definition status_wf run : Prop :=
  (running run ∧ rr_terminal_result run = None ∧ rr_terminal_result_sha256 run = None
   ∧ rr_finished_at run = None)
  ∨ ∃ result status now, decode_terminal_result (dump_terminal result) = Ok result
      ∧ from_task_state (terminal_status result) = Ok status
      ∧ rr_status run = PersistedRunStatus_value status
      ∧ rr_terminal_result run = Some (dump_terminal result)
      ∧ rr_terminal_result_sha256 run = Some (payload_sha256 sha256 (dump_terminal result))
      ∧ rr_finished_at run = Some now.
Record run_wf l run : Prop := {
  rw_commit : oid_ok (rr_base_commit run) = true;
  rw_project : is_Some (lg_projects l !! rr_project_id run);
  rw_reason : opt_str_ok 1024 (rr_recovery_reason run) = true;
  rw_display : rr_display_status run ∈ all_display_statuses;
  rw_tasks : ∃ t, db_tasks (lg_db l) !! (rr_id run, t) ≠ None;
  rw_status : status_wf run;
}.
Definition row_wf row : Prop := is_ok (_decode_evidence_row sha256 row) = true.
Record ledger_wf l : Prop := {
  lw_keyed : keyed (lg_db l);
  lw_next : 1 <= lg_next_evidence_id l;
  lw_ids : StronglySorted Z.lt (evr_id <$> lg_evidence l);
  lw_bound : Forall (λ r, evr_id r < lg_next_evidence_id l) (lg_evidence l);
  lw_rows : Forall row_wf (lg_evidence l);
  lw_keys : NoDup ((λ r, (evr_run_id r, evr_evidence_key r)) <$> lg_evidence l);
  lw_contracts : ∀ k t, db_tasks (lg_db l) !! k = Some t → is_ok (_decode_task sha256 t) = true;
  lw_runs : ∀ k r, db_runs (lg_db l) !! k = Some r → run_wf l r;
  lw_projects : ∀ k p, lg_projects l !! k = Some p →
    text_ok 1 2000 (pj_repository_url p) = true ∧ text_ok 1 255 (pj_default_branch p) = true;
}.

Lemma fk_insert (m : gmap UUID RunRow) i r k : is_Some (m !! k) → is_Some (<[i := r]> m !! k).
Proof using.
  intros [x Hx]. destruct (decide (i = k)) as [->|Hne]; [by rewrite lookup_insert_eq|].
  rewrite lookup_insert_ne by done. by exists x.
Qed.
(** Rows inserted one after the other. *)
Definition add_tasks (m : gmap (UUID * string) TaskRow) (rows : list TaskRow)
    : gmap (UUID * string) TaskRow := foldl (λ m t, <[Lease.row_key t := t]> m) m rows.
Lemma add_tasks_inv m rows k t : add_tasks m rows !! k = Some t →
  (Lease.row_key t = k ∧ t ∈ rows) ∨ m !! k = Some t.
Proof using.
  revert m. induction rows as [|u rows IH]; intros m; cbn; [by right|].
  intros [[? ?]|[[<- <-]|[_ Hm]]%lookup_insert_Some]%IH; [left|left|by right]; set_solver.
Qed.
Lemma add_tasks_kept m rows k t : m !! k = Some t → Forall (λ u, m !! Lease.row_key u = None) rows →
  add_tasks m rows !! k = Some t.
Proof using.
  intros Hm Hnone. assert (Hne : Forall (λ u, Lease.row_key u ≠ k) rows).
  { eapply Forall_impl; [exact Hnone|]. cbn. intros u Hu Hk. congruence. }
  clear Hnone. revert m Hm. induction Hne as [|u rows Hu _ IH]; intros m Hm; cbn; [done|].
  apply IH. by rewrite lookup_insert_ne.
Qed.
Lemma add_tasks_has m rows t : t ∈ rows → add_tasks m rows !! Lease.row_key t ≠ None.
Proof using.
  assert (Hkeep : ∀ rows m k, m !! k ≠ None → add_tasks m rows !! k ≠ None).
  { clear. induction rows as [|u rows IH]; intros m k Hk; cbn; [done|]. apply IH.
    destruct (decide (k = Lease.row_key u)) as [->|Hne]; [by rewrite lookup_insert_eq|].
    by rewrite lookup_insert_ne. }
  revert m. induction rows as [|u rows IH]; intros m; [by intros ?%elem_of_nil|].
  intros [->|Hin]%elem_of_cons; cbn; [|by apply IH].
  apply Hkeep. by rewrite lookup_insert_eq.
Qed.

(** A task that gets its place in the graph. *)
Definition graphed (t t' : TaskRow) : Prop :=
  t' = t ∨ tr_depends_on t = None ∧ ∃ depends_on metadata, t' = with_graph depends_on metadata t.
Lemma graphed_row t t' : graphed t t' → Lease.row_key t' = Lease.row_key t ∧ run_token t' = run_token t
  ∧ _decode_task sha256 t' = _decode_task sha256 t.
Proof using. by intros [->|(_ & ds & md & ->)]. Qed.
Definition graph_frame (db db' : Database) : Prop :=
  ∀ k, option_Forall2 graphed (db_tasks db !! k) (db_tasks db' !! k).
Lemma graph_frame_kept db db' k t : graph_frame db db' → db_tasks db !! k = Some t →
  ∃ t', db_tasks db' !! k = Some t' ∧ graphed t t'.
Proof using. intros T Ht. specialize (T k). rewrite Ht in T. inversion T; subst. by eexists. Qed.
Lemma graph_frame_inv db db' k t' : graph_frame db db' → db_tasks db' !! k = Some t' →
  ∃ t, db_tasks db !! k = Some t ∧ graphed t t'.
Proof using. intros T Ht. specialize (T k). rewrite Ht in T. inversion T; subst. by eexists. Qed.

(** How an operation changes the ledger. *)
Inductive change l : Ledger → Prop :=
  | ch_frame db' : db_frame (lg_db l) db' → change l (lg_set_db db' l)
  | ch_row row run db' :
      evr_id row = lg_next_evidence_id l → evidence_row_ok row l = true → row_wf row →
      db_runs (lg_db l) !! evr_run_id row = Some run → running run →
      db_frame (lg_db l) db' → change l (lg_set_db db' (add_evidence_row row l))
  | ch_terminal run status result now db' :
      db_runs (lg_db l) !! rr_id run = Some run → running run →
      decode_terminal_result (dump_terminal result) = Ok result →
      from_task_state (terminal_status result) = Ok status →
      db_frame (set_runs (<[rr_id run := with_terminal status (dump_terminal result)
                              (payload_sha256 sha256 (dump_terminal result)) now run]>
                            (db_runs (lg_db l))) (lg_db l)) db' →
      change l (lg_set_db db' l)
  | ch_start run new db1 db' :
      db_runs (lg_db l) !! rr_id run = None → running run → rr_event_sequence run = 0 →
      db_runs db1 = <[rr_id run := run]> (db_runs (lg_db l)) →
      db_tasks db1 = add_tasks (db_tasks (lg_db l)) new →
      new ≠ [] → Forall (λ t, db_tasks (lg_db l) !! Lease.row_key t = None) new →
      Forall (λ t, tr_run_id t = rr_id run ∧ is_ok (_decode_task sha256 t) = true) new →
      run_wf {| lg_db := db1; lg_projects := lg_projects l; lg_evidence := lg_evidence l;
                lg_next_evidence_id := lg_next_evidence_id l |} run →
      db_frame db1 db' → change l (lg_set_db db' l)
  | ch_graph run digest db' :
      db_runs (lg_db l) !! rr_id run = Some run → running run → rr_dag_sha256 run = None →
      db_runs db' = <[rr_id run := with_dag_sha256 digest run]> (db_runs (lg_db l)) →
      graph_frame (lg_db l) db' → change l (lg_set_db db' l).

Lemma frame_task db db' k t' : db_frame db db' → db_tasks db' !! k = Some t' →
  ∃ t, db_tasks db !! k = Some t ∧ same_task t t'.
Proof using.
  intros [T _] Ht'. specialize (T k). rewrite Ht' in T. inversion T; subst. by eexists.
Qed.
Lemma frame_task_kept db db' k t : db_frame db db' → db_tasks db !! k = Some t →
  ∃ t', db_tasks db' !! k = Some t' ∧ same_task t t'.
Proof using.
  intros [T _] Ht. specialize (T k). rewrite Ht in T. inversion T; subst. by eexists.
Qed.
Lemma frame_run db db' k r' : db_frame db db' → db_runs db' !! k = Some r' →
  ∃ r n, db_runs db !! k = Some r ∧ r' = with_event_sequence n r.
Proof using.
  intros [_ R] Hr'. specialize (R k). rewrite Hr' in R. inversion R as [r u [n ->] Hr Hu|]; subst.
  by exists r, n.
Qed.
Lemma frame_run_kept db db' k r : db_frame db db' → db_runs db !! k = Some r →
  ∃ n, db_runs db' !! k = Some (with_event_sequence n r).
Proof using.
  intros [_ R] Hr. specialize (R k). rewrite Hr in R. inversion R as [x u [n ->] Hx Hu|]; subst.
  by exists n.
Qed.
Lemma decode_task_same t t' : same_task t t' → _decode_task sha256 t' = _decode_task sha256 t.
Proof using.
  intros (Hk & Hc & Hs & _ & Ha & _). unfold _decode_task. rewrite Hc, Hs, Ha.
  assert (tr_task_id t' = tr_task_id t) as -> by by injection Hk. done.
Qed.
Lemma run_wf_frame l l' run n : lg_projects l' = lg_projects l → db_frame (lg_db l) (lg_db l') →
  run_wf l run → run_wf l' (with_event_sequence n run).
Proof using.
  intros Hp Hf [Hc Hpr Hre Hd [t Ht] Hs]. split; cbn; [done|by rewrite Hp|done|done| |done].
  exists t. destruct (db_tasks (lg_db l) !! _) as [x|] eqn:Hx; [|done].
  destruct (frame_task_kept _ _ _ _ Hf Hx) as (t' & -> & _). done.
Qed.
Lemma frame_wf l l' : lg_projects l' = lg_projects l → db_frame (lg_db l) (lg_db l') →
  ledger_wf l → (∀ k t, db_tasks (lg_db l') !! k = Some t → is_ok (_decode_task sha256 t) = true)
  ∧ (∀ k r, db_runs (lg_db l') !! k = Some r → run_wf l' r) ∧ keyed (lg_db l').
Proof using.
  intros Hp Hf Hwf. split_and!.
  - intros k t' Ht'. destruct (frame_task _ _ _ _ Hf Ht') as (t & Ht & Hs).
    rewrite (decode_task_same _ _ Hs). by apply (lw_contracts l Hwf k).
  - intros k r' Hr'. destruct (frame_run _ _ _ _ Hf Hr') as (r & n & Hr & ->).
    eapply run_wf_frame; [done|done|]. by apply (lw_runs l Hwf k).
  - eapply frame_keyed; [done|apply (lw_keyed l Hwf)].
Qed.

Lemma change_wf l l' : change l l' → ledger_wf l → ledger_wf l'.
Proof using.
  intros Hch Hwf. destruct Hch as [db' Hf|row run db' Hid Hok Hrow Hrun Hr Hf
    |run status result now db' Hrun Hr Hdec Hst Hf|run new db1 db' Hnone Hr Hz Hruns Htasks Hne Hnew Hok Hrw Hf
    |run digest db' Hrun Hr Hnone Hruns Hf].
  - destruct (frame_wf l (lg_set_db db' l) eq_refl Hf Hwf) as (H1 & H2 & H3).
    destruct Hwf. by split.
  - destruct (frame_wf l (lg_set_db db' (add_evidence_row row l)) eq_refl Hf Hwf) as (H1 & H2 & H3).
    unfold evidence_row_ok in Hok. to_prop. destruct Hwf as [? ? Hids Hb ? Hkeys ? ? ?].
    split; cbn; [done|lia| | | | |done|done|done].
    + rewrite fmap_app. apply StronglySorted_app. split_and!; [|done|by repeat constructor].
      intros x y (r & -> & Hin)%list_elem_of_fmap Hy. apply list_elem_of_singleton in Hy as ->.
      rewrite Forall_forall in Hb. specialize (Hb r Hin). lia.
    + apply Forall_app. split; [|by repeat constructor; lia]. eapply Forall_impl; [exact Hb|]. cbn. lia.
    + apply Forall_app. split; [done|by repeat constructor].
    + rewrite fmap_app. apply NoDup_app. split_and!; [done| |apply NoDup_singleton].
      intros p (r & -> & Hin)%list_elem_of_fmap [= Hp1 Hp2]%list_elem_of_singleton.
      match goal with Hall : forallb _ (lg_evidence l) = true |- _ =>
        rewrite forallb_forall in Hall; specialize (Hall r); rewrite <- list_elem_of_In in Hall;
        specialize (Hall Hin); to_prop; by apply Hall end.
  - set (run' := with_terminal status (dump_terminal result)
                   (payload_sha256 sha256 (dump_terminal result)) now run) in *.
    set (l1 := lg_set_db (set_runs (<[rr_id run := run']> (db_runs (lg_db l))) (lg_db l)) l).
    assert (Hwf1 : ledger_wf l1).
    { destruct Hwf as [[Hkt Hkr Hfk] ? ? ? ? ? ? Hruns ?]. split; cbn; try done.
      - split; cbn; [done| |by intros k t Hk; apply fk_insert, (Hfk k t)].
        intros k r. by intros [[<- <-]|[_ Hk]]%lookup_insert_Some; [|apply Hkr].
      - intros k r [[<- <-]|[_ Hk]]%lookup_insert_Some.
        + destruct (Hruns _ _ Hrun) as [? ? ? ? ? _]. split; cbn; try done.
          right. exists result, status, now. by split_and!.
        + destruct (Hruns _ _ Hk). by split. }
    destruct (frame_wf l1 (lg_set_db db' l) eq_refl Hf Hwf1) as (H1 & H2 & H3). destruct Hwf. by split.
  - set (l1 := lg_set_db db1 l). assert (Hwf1 : ledger_wf l1).
    { rewrite Forall_forall in Hok. destruct Hwf as [[Hkt Hkr Hfk] ? ? ? ? ? Hcon Hruns' ?].
      assert (Hin : ∀ k t, db_tasks db1 !! k = Some t →
        (Lease.row_key t = k ∧ t ∈ new) ∨ db_tasks (lg_db l) !! k = Some t).
      { intros k t. rewrite Htasks. apply add_tasks_inv. }
      split; cbn; try done.
      - split; [intros k t [[? _]|Ht]%Hin; [done|by apply Hkt]| |].
        + intros k r. rewrite Hruns. by intros [[<- <-]|[_ Hk]]%lookup_insert_Some; [|apply Hkr].
        + intros k t [[<- Ht]|Ht]%Hin; rewrite Hruns; [|by apply fk_insert, (Hfk k t)].
          cbn. destruct (Hok t Ht) as [-> _]. by rewrite lookup_insert_eq.
      - intros k t [[_ Ht]|Ht]%Hin; [by apply Hok|by eapply Hcon].
      - intros k r. rewrite Hruns. intros [[<- <-]|[_ Hk]]%lookup_insert_Some; [done|].
        destruct (Hruns' _ _ Hk) as [? ? ? ? [t Ht] ?]. split; cbn; try done. exists t. rewrite Htasks.
        destruct (db_tasks (lg_db l) !! _) as [u|] eqn:Hu; [|done]. by rewrite (add_tasks_kept _ _ _ u). }
    destruct (frame_wf l1 (lg_set_db db' l) eq_refl Hf Hwf1) as (H1 & H2 & H3). destruct Hwf. by split.
  - assert (Hrw : ∀ r, run_wf l r → run_wf (lg_set_db db' l) r).
    { intros r [Hc Hp Hre Hd [t Ht] Hs]. split; try done. exists t. cbn.
      destruct (db_tasks (lg_db l) !! _) as [u|] eqn:Hu; [|done].
      by destruct (graph_frame_kept _ _ _ _ Hf Hu) as (u' & -> & _). }
    destruct Hwf as [[Hkt Hkr Hfk] ? ? ? ? ? Hcon Hruns' ?]. split; cbn; try done.
    + split.
      * intros k t' (t & Ht & (-> & _ & _)%graphed_row)%(graph_frame_inv _ _ _ _ Hf). by apply Hkt.
      * intros k r. rewrite Hruns. by intros [[<- <-]|[_ Hk]]%lookup_insert_Some; [|apply Hkr].
      * intros k t' (t & Ht & _)%(graph_frame_inv _ _ _ _ Hf). rewrite Hruns. by apply fk_insert, (Hfk k t).
    + intros k t' (t & Ht & (_ & _ & ->)%graphed_row)%(graph_frame_inv _ _ _ _ Hf). by eapply Hcon.
    + intros k r. rewrite Hruns. intros [[<- <-]|[_ Hk]]%lookup_insert_Some; [|by apply Hrw, (Hruns' k)].
      destruct (Hrw run (Hruns' _ _ Hrun)) as [? ? ? ? ? ?]. by split.
Qed.

(** ** The operations *)
Lemma wp_in_db {A} (m : DB A) (Q : A → Ledger → Prop) E l :
  wp m (λ a db, Q a (lg_set_db db l)) (λ x db, E x (lg_set_db db l)) (lg_db l) → wp (in_db m) Q E l.
Proof using. unfold wp, in_db. by destruct (m (lg_db l)) as [[a|x] db]. Qed.
Lemma set_same l : lg_set_db (lg_db l) l = l.
Proof using. by destruct l. Qed.
Lemma wp_run_of run_id (Q : RunRow → Ledger → Prop) E l :
  (∀ r, db_runs (lg_db l) !! run_id = Some r → Q r l) → (∀ x, E x l) →
  wp (in_db (_locked_run run_id)) Q E l.
Proof using. intros HQ HE. apply wp_in_db, wp_locked_run; intros *; rewrite set_same; auto. Qed.
Lemma wp_task_of run_id name (Q : TaskRow → Ledger → Prop) E l :
  (∀ t, db_tasks (lg_db l) !! (run_id, name) = Some t → Q t l) → (∀ x, E x l) →
  wp (in_db (evidence_task run_id name)) Q E l.
Proof using.
  intros HQ HE. apply wp_in_db. unfold wp, evidence_task. destruct (db_tasks (lg_db l) !! _) eqn:Ht; cbn;
    rewrite set_same; auto.
Qed.
Lemma wp_fenced e task token (Q : unit → Ledger → Prop) E l :
  ((token ≠ None ∨ run_token task ≠ None → ∃ obs, database_time e = Ok obs
     ∧ assert_live_current_run_token task token obs = Ok tt) → Q tt l) →
  (∀ x, E x l) → wp (fenced e task token) Q E l.
Proof using.
  intros HQ HE. unfold fenced. destruct (negb (is_none token) || negb (is_none (run_token task))) eqn:Hf.
  - apply wp_lift_bind; [intros obs Hobs|auto]. apply wp_lift.
    destruct (assert_live_current_run_token task token obs) as [[]|x] eqn:Ha; [|auto].
    apply HQ. intros _. by exists obs.
  - apply wp_ret, HQ. by destruct token, (run_token task); intros [?|?].
Qed.
Lemma wp_insert_evidence row (Q : unit → Ledger → Prop) E l :
  (evidence_row_ok row l = true → Q tt (add_evidence_row row l)) → (∀ x, E x l) →
  wp (insert_evidence row) Q E l.
Proof using.
  intros HQ HE. unfold insert_evidence. apply wp_get_bind.
  apply wp_lift_bind; [intros u Hu%check_Ok; by apply HQ|auto].
Qed.
(** The event that closes a transaction. *)
Lemma wp_event {B} event_id now run_id draft (b : B) (Q : B → Ledger → Prop) l :
  keyed (lg_db l) → (∀ db', db_frame (lg_db l) db' → Q b (lg_set_db db' l)) →
  wp (in_db (append_runtime_event sha256 event_id now run_id draft) ;; mret b) Q (λ _ _, True) l.
Proof using.
  intros Hk HQ. apply wp_bind, wp_in_db. eapply wp_mono; [by apply wp_of_keeps, append_framed| |done].
  intros ev db' Hf. by apply wp_ret, HQ, Hf.
Qed.

(** The row [append_evidence] writes. *)
Definition evidence_row (e : Env) (id : Z) (run_id : UUID) (key : string)
    (kind : PersistenceEvidenceKind) (model : EvidenceModel) (task_id stage : option string)
    (sequence : option Z) : EvidenceRow := {|
  evr_id := id; evr_run_id := run_id; evr_task_id := task_id; evr_evidence_key := key;
  evr_kind := evidence_kind_value kind; evr_stage := stage; evr_sequence := sequence;
  evr_schema_version := evidence_schema_version kind; evr_payload := dump_evidence model;
  evr_payload_sha256 := payload_sha256 sha256 (dump_evidence model); evr_created_at := env_now e |}.
Definition loaded_row row kind : PersistedEvidence := {|
  pe_id := evr_id row; pe_run_id := evr_run_id row; pe_task_id := evr_task_id row;
  pe_evidence_key := evr_evidence_key row; pe_kind := kind; pe_stage := evr_stage row;
  pe_sequence := evr_sequence row; pe_schema_version := evr_schema_version row;
  pe_payload := evr_payload row; pe_payload_sha256 := evr_payload_sha256 row;
  pe_created_at := evr_created_at row |}.

Context (Hsha : ∀ s, is_sha256_hex (sha256 s) = true) (Hdict : ∀ m, is_dict (dump_evidence m) = true).
Lemma evidence_kind_read kind : enum_of all_evidence_kinds evidence_kind_value (evidence_kind_value kind) = Ok kind.
Proof using. by destruct kind. Qed.
Lemma decode_new_evidence e id run_id key kind model task_id stage sequence m :
  1 <= id → text_ok 1 255 key = true →
  (∀ t, task_id = Some t → (str_len t ≤ 128)%nat) → (∀ t, stage = Some t → (str_len t ≤ 64)%nat) →
  opt_ge 0 sequence = true →
  decode_evidence kind (dump_evidence model) (Some (evidence_schema_version kind)) = Ok m →
  let row := evidence_row e id run_id key kind model task_id stage sequence in
  _decode_evidence_row sha256 row = Ok (loaded_row row kind).
Proof using Hsha Hdict.
  intros Hid Hkey Ht Hs Hseq Hm row. unfold _decode_evidence_row.
  assert (Hh : verify_payload_hash sha256 (evr_payload row) (evr_payload_sha256 row)
    ("evidence " +:+ str_of_Z (evr_id row)) = Ok tt).
  { unfold verify_payload_hash. by rewrite bool_decide_true. }
  rewrite Hh. cbn [mbind result_bind]. cbn [row evidence_row evr_kind evr_payload evr_schema_version].
  rewrite evidence_kind_read. cbn [corruption mbind result_bind]. rewrite Hm. cbn [mbind result_bind].
  fold row. change (PersistedEvidence_new (loaded_row row kind) = Ok (loaded_row row kind)).
  unfold PersistedEvidence_new, payload_sha256.
  repeat (rewrite valid_if_true; [cbn [mbind result_bind]|]); try done; cbn; try by apply Z.leb_le.
  - destruct task_id as [t|]; [apply Nat.leb_le; by apply Ht|done].
  - destruct stage as [t|]; [apply Nat.leb_le; by apply Hs|done].
  - unfold evidence_schema_version. by case_decide.
  - apply Hdict.
  - apply Hsha.
Qed.
Lemma optional_text_inv value name n s : _optional_text value name n = Ok s →
  ∀ t, s = Some t → (str_len t ≤ n)%nat.
Proof using.
  unfold _optional_text. destruct value as [v|]; [|by intros [= <-]].
  intros H1 t ->. apply bind_Ok_inv in H1 as (x & Hx & [= ->]).
  by apply required_text_inv in Hx as (-> & _ & ?).
Qed.

(** What a write of evidence does: its key was free and the row is added, or
    an old row under the key is found to agree and nothing changes. *)
Definition written (agrees : EvidenceRow → Prop) row (kind : PersistenceEvidenceKind) l (id : Z) l' : Prop :=
  (∃ old, find_evidence (evr_run_id row) (evr_evidence_key row) (lg_evidence l) = Some old
     ∧ agrees old ∧ id = evr_id old ∧ l' = l)
  ∨ (find_evidence (evr_run_id row) (evr_evidence_key row) (lg_evidence l) = None ∧ id = evr_id row
     ∧ evidence_row_ok row l = true ∧ _decode_evidence_row sha256 row = Ok (loaded_row row kind)
     ∧ ∃ db', db_frame (lg_db l) db' ∧ l' = lg_set_db db' (add_evidence_row row l)).
(** The fence of a task-scoped write was passed. *)
Definition fence_passed (e : Env) (run_id : UUID) (name : string) (token : option UUID) l : Prop :=
  ∃ t, db_tasks (lg_db l) !! (run_id, name) = Some t
  ∧ (token ≠ None ∨ run_token t ≠ None → ∃ obs, database_time e = Ok obs
       ∧ assert_live_current_run_token t token obs = Ok tt).
(** A successful [append_evidence]. *)
Definition appended (e : Env) (run_id : UUID) (evidence_key : string) (kind : PersistenceEvidenceKind)
    (model : EvidenceModel) (task_id stage : option string) (sequence : option Z)
    (token : option UUID) l (id : Z) l' : Prop :=
  ∃ key task stage' run, _required_text evidence_key "evidence_key" 255 = Ok key
  ∧ _optional_text task_id "task_id" 128 = Ok task ∧ _optional_text stage "stage" 64 = Ok stage'
  ∧ opt_ge 0 sequence = true
  ∧ is_ok (decode_evidence kind (dump_evidence model) (Some (evidence_schema_version kind))) = true
  ∧ db_runs (lg_db l) !! run_id = Some run ∧ running run
  ∧ (∀ name, task = Some name → fence_passed e run_id name token l)
  ∧ let row := evidence_row e (lg_next_evidence_id l) run_id key kind model task stage' sequence in
    written (λ old, _same_evidence old task kind stage' sequence (evr_payload_sha256 row) = true)
      row kind l id l'.
Lemma wp_append_evidence method e run_id evidence_key kind model task_id stage sequence token l :
  ledger_wf l →
  wp (append_evidence sha256 method e run_id evidence_key kind model task_id stage sequence token)
    (appended e run_id evidence_key kind model task_id stage sequence token l) (λ _ l', l' = l) l.
Proof using Hsha Hdict.
  intros Hwf. unfold append_evidence. apply wp_lift_bind; [intros key Hkey|done].
  apply wp_lift_bind; [intros task Htask|done]. apply wp_lift_bind; [intros stage' Hstage|done].
  apply wp_lift_bind; [intros ? Hseq%check_Ok|done]. cbn [canonical_payload].
  apply wp_lift_bind; [intros m Hm|done]. apply wp_transaction; [|done].
  apply wp_bind, wp_run_of; [|done]. intros run Hrun.
  apply wp_lift_bind; [intros ? Hr%check_Ok|done]. to_prop.
  set (row := evidence_row e (lg_next_evidence_id l) run_id key kind model task stage' sequence).
  assert (Hall : ∀ topt, (∀ name, task = Some name → fence_passed e run_id name token l) →
    wp (l0 ← get;
        match find_evidence run_id key (lg_evidence l0) with
        | Some existing =>
            if _same_evidence existing task kind stage' sequence (payload_sha256 sha256 (dump_evidence model))
            then mret (evr_id existing)
            else throw PersistenceConflictError
              ("evidence key '" +:+ key +:+ "' was reused for different evidence")
        | None =>
            let row := evidence_row e (lg_next_evidence_id l0) run_id key kind model task stage' sequence in
            insert_evidence row ;;
            draft ← lift (method row topt kind);
            in_db (append_runtime_event sha256 (env_uuid4 e 0) (env_now e) run_id draft) ;;
            mret (evr_id row)
        end) (appended e run_id evidence_key kind model task_id stage sequence token l) (λ _ _, True) l).
  { intros topt Hfence. apply wp_get_bind.
    assert (Hin : ∀ id l', written (λ old, _same_evidence old task kind stage' sequence
        (evr_payload_sha256 row) = true) row kind l id l' →
      appended e run_id evidence_key kind model task_id stage sequence token l id l').
    { intros id l' Hcase. exists key, task, stage', run. rewrite Hm. by split_and!. }
    destruct (find_evidence _ _ _) as [old|] eqn:Hfind.
    - destruct (_same_evidence _ _ _ _ _ _) eqn:Hsame; [|done]. apply wp_ret, Hin. left. by exists old.
    - cbv zeta. apply wp_bind, wp_insert_evidence; [|done]. intros Hok.
      apply wp_lift_bind; [intros draft _|done]. apply wp_event; [apply (lw_keyed l Hwf)|].
      intros db' Hf. apply Hin. right. split_and!; try done; [|by exists db'].
      apply required_text_inv in Hkey as [-> Hkey].
      apply decode_new_evidence with m; [apply (lw_next l Hwf)|by apply len_between| | |done|done];
        by eapply optional_text_inv. }
  destruct task as [name|].
  - apply wp_bind, wp_bind, wp_task_of; [|done]. intros t Ht. apply wp_bind, wp_fenced; [|done].
    intros Hf. apply wp_ret, Hall. intros ? [= <-]. by exists t.
  - apply wp_bind, wp_ret, Hall. done.
Qed.
Lemma written_change agrees row kind run l id l' :
  db_runs (lg_db l) !! evr_run_id row = Some run → running run → evr_id row = lg_next_evidence_id l →
  written agrees row kind l id l' → l' = l ∨ change l l'.
Proof using.
  intros Hrun Hr Hid [(old & _ & _ & _ & ->)|(_ & _ & Hok & Hd & db' & Hf & ->)]; [by left|right].
  eapply ch_row; try done. unfold row_wf. by rewrite Hd.
Qed.

Definition repair_row (e : Env) (id : Z) (x : IntegrationConflictRepairEvidence) : EvidenceRow :=
  evidence_row e id (icr_run_id x) (repair_key x) INTEGRATION_REPAIR
    (EM_IntegrationConflictRepairEvidence x) (Some (icr_task_id x)) (Some "integration_repair") None.
Definition repair_agrees (x : IntegrationConflictRepairEvidence) (old : EvidenceRow) : Prop :=
  evr_kind old = evidence_kind_value INTEGRATION_REPAIR ∧ evr_task_id old = Some (icr_task_id x)
  ∧ evr_payload old = dump_evidence (EM_IntegrationConflictRepairEvidence x).
Lemma repair_key_len x : (1 ≤ str_len (icr_task_id x) ≤ 128)%nat →
  str_len (icr_conflict_evidence_fingerprint x) = 64%nat → text_ok 1 255 (repair_key x) = true.
Proof using.
  intros Ht Hf. unfold text_ok, repair_key. apply len_between. rewrite !str_len_app, Hf.
  change (str_len "integration:repair:") with 19%nat. change (str_len ":") with 1%nat. lia.
Qed.
Lemma sha256_hex_len s : is_sha256_hex s = true → str_len s = 64%nat.
Proof using. unfold is_sha256_hex, hex_string. intros Hs. to_prop.
  repeat match goal with H : (_ <=? _)%nat = true |- _ => apply Nat.leb_le in H end. unfold str_len in *. lia.
Qed.
Lemma wp_record_repair e x l : ledger_wf l → IntegrationConflictRepairEvidence_new x = Ok x →
  wp (record_integration_repair sha256 e x)
    (λ r l', ∃ run task, db_runs (lg_db l) !! icr_run_id x = Some run ∧ running run
       ∧ db_tasks (lg_db l) !! (icr_run_id x, icr_task_id x) = Some task
       ∧ written (repair_agrees x) (repair_row e (lg_next_evidence_id l) x) INTEGRATION_REPAIR l r.1 l')
    (λ _ l', l' = l) l.
Proof using Hsha Hdict.
  intros Hwf Hx. unfold record_integration_repair. cbn [canonical_payload].
  apply wp_lift_bind; [intros m Hm|done]. apply wp_transaction; [|done].
  apply wp_bind, wp_run_of; [|done]. intros run Hrun.
  apply wp_lift_bind; [intros ? Hr%check_Ok|done]. to_prop.
  apply wp_bind, wp_task_of; [|done]. intros task Htask. apply wp_get_bind.
  destruct (find_evidence _ _ _) as [old|] eqn:Hfind.
  - apply wp_lift_bind; [intros ? _|done]. apply wp_lift_bind; [intros ? Hsame%check_Ok|done]. to_prop.
    apply wp_ret. exists run, task. split_and!; try done. left. by exists old.
  - cbv zeta. apply wp_bind, wp_insert_evidence; [|done]. intros Hok.
    apply wp_lift_bind; [intros draft _|done]. apply wp_event; [apply (lw_keyed l Hwf)|].
    intros db' Hf. exists run, task. split_and!; try done. right. cbn [fst].
    split_and!; try done; [|by exists db'].
    unfold IntegrationConflictRepairEvidence_new in Hx. inv_valid. unfold text_ok in *. to_prop.
    repeat match goal with Hl : (_ <=? _)%nat = true |- _ => apply Nat.leb_le in Hl end.
    apply (decode_new_evidence e _ _ _ INTEGRATION_REPAIR _ _ _ _ m);
      [apply (lw_next l Hwf)|by apply repair_key_len, sha256_hex_len| | |done|exact Hm].
    + by intros t [= <-].
    + intros t [= <-]. vm_compute. lia.
Qed.

(** The end of a run. *)
Definition finalized run (result : TerminalRunResult) (status : PersistedRunStatus) (now : Z) l l' : Prop :=
  from_task_state (terminal_status result) = Ok status ∧ db_runs (lg_db l) !! rr_id run = Some run
  ∧ ((l' = l ∧ ¬ running run ∧ rr_status run = PersistedRunStatus_value status
      ∧ rr_terminal_result run = Some (dump_terminal result))
     ∨ (running run ∧ ∃ db', l' = lg_set_db db' l
        ∧ db_frame (set_runs (<[rr_id run := with_terminal status (dump_terminal result)
                              (payload_sha256 sha256 (dump_terminal result)) now run]>
                            (db_runs (lg_db l))) (lg_db l)) db')).
Lemma wp_set_terminal e run result status digest draft l :
  keyed (lg_db l) → db_runs (lg_db l) !! rr_id run = Some run →
  digest = payload_sha256 sha256 (dump_terminal result) →
  wp (set_terminal sha256 e run status (dump_terminal result) digest draft)
    (λ _ l', ∃ db', l' = lg_set_db db' l
       ∧ db_frame (set_runs (<[rr_id run := with_terminal status (dump_terminal result) digest
                                 (env_now e) run]> (db_runs (lg_db l))) (lg_db l)) db')
    (λ _ _, True) l.
Proof using.
  intros [Ht Hr Hfk] Hrun ->. unfold set_terminal.
  apply wp_bind, wp_in_db. eapply wp_mono; [apply wp_update_run| |done]. intros _ db1 ->.
  apply wp_lift_bind; [intros d _|done]. apply wp_event.
  - split; cbn; [done| |by intros k t Hk; apply fk_insert, (Hfk k t)].
    intros k r. by intros [[<- <-]|[_ Hk]]%lookup_insert_Some; [|apply Hr].
  - cbn. intros db' Hf. by exists db'.
Qed.
Lemma wp_already_final run status payload digest message l :
  wp (already_final run status payload digest message)
    (λ _ l', l' = l ∧ rr_status run = PersistedRunStatus_value status ∧ rr_terminal_result run = Some payload)
    (λ _ _, True) l.
Proof using.
  unfold already_final. apply wp_lift. destruct (check _ _ _) eqn:Hc; [|done].
  apply check_Ok in Hc. by to_prop.
Qed.
Lemma wp_finalize_multi validate e x l : ledger_wf l →
  wp (finalize_multi_task_run sha256 validate e x)
    (λ _ l', ∃ run status dag, rr_id run = mtr_run_id x
       ∧ finalized run (MultiTask x) status (env_now e) l l'
       ∧ _decode_dag sha256 (run_tasks (mtr_run_id x) (lg_db l)) = Ok dag
       ∧ topological_order dag = Ok (mtr_task_ids x)
       ∧ (running run → supports sha256 validate x dag (run_evidence (mtr_run_id x) l) = Ok tt))
    (λ _ l', l' = l) l.
Proof using.
  intros Hwf. unfold finalize_multi_task_run. cbn [canonical_payload].
  apply wp_lift_bind; [intros status Hst|done]. cbv zeta. apply wp_transaction; [|done].
  apply wp_bind, wp_run_of; [|done]. intros run Hrun. apply wp_get_bind.
  apply wp_lift_bind; [intros dag Hdag|done]. apply wp_lift_bind; [intros order Ho|done].
  apply wp_lift_bind; [intros ? Hids%check_Ok|done]. to_prop. subst order.
  pose proof (ky_runs _ (lw_keyed l Hwf) _ _ Hrun) as Hid. rewrite <- Hid in Hrun.
  case_bool_decide as Hr; cbn [negb].
  - apply wp_lift_bind; [intros [] Hsup|done].
    eapply wp_mono; [apply wp_set_terminal with (result := MultiTask x);
      [apply (lw_keyed l Hwf)|done|done]| |done].
    intros ? l' Hl. exists run, status, dag. split_and!; try done. split_and!; try done. by right.
  - eapply wp_mono; [apply wp_already_final| |done]. intros ? l' (-> & Hs & Ht).
    exists run, status, dag. split_and!; try done. split_and!; try done. by left.
Qed.
Lemma wp_finalize_single e run_id x token l : ledger_wf l →
  wp (finalize_single_task_run sha256 e run_id x token)
    (λ _ l', ∃ run status, rr_id run = run_id ∧ finalized run (SingleTask x) status (env_now e) l l')
    (λ _ l', l' = l) l.
Proof using.
  intros Hwf. unfold finalize_single_task_run. cbn [canonical_payload].
  apply wp_lift_bind; [intros status Hst|done]. apply wp_transaction; [|done].
  apply wp_bind, wp_run_of; [|done]. intros run Hrun. apply wp_get_bind.
  apply wp_lift_bind; [intros task _|done]. apply wp_bind, wp_fenced; [|done]. intros _.
  pose proof (ky_runs _ (lw_keyed l Hwf) _ _ Hrun) as Hid. rewrite <- Hid in Hrun.
  case_bool_decide as Hr; cbn [negb].
  - eapply wp_mono; [apply wp_set_terminal with (result := SingleTask x);
      [apply (lw_keyed l Hwf)|done|done]| |done].
    intros ? l' Hl. exists run, status. split_and!; try done. split_and!; try done. by right.
  - eapply wp_mono; [apply wp_already_final| |done]. intros ? l' (-> & Hs & Ht).
    exists run, status. split_and!; try done. split_and!; try done. by left.
Qed.
Lemma finalized_change run result status now l l' :
  decode_terminal_result (dump_terminal result) = Ok result → finalized run result status now l l' →
  l' = l ∨ change l l'.
Proof using.
  intros Hd (Hst & Hrun & [(-> & _)|(Hr & db' & -> & Hf)]); [by left|right].
  by eapply ch_terminal.
Qed.

(** [TaskContract] reads its own JSON back. *)
Definition task_reads (t : TaskContract) : Prop :=
  (raw ← read_task (dump_task t); TaskContract_new raw) = Ok t.
Definition started_row (run_id : UUID) (now : Z) (t : TaskContract) : TaskRow :=
  new_task_row run_id (tc_task_id t) (dump_task t) (payload_sha256 sha256 (dump_task t)) now.
Lemma started_row_reads run_id now t : task_reads t → is_ok (_decode_task sha256 (started_row run_id now t)) = true.
Proof using Hsha.
  intros Ht. unfold _decode_task, started_row, new_task_row. cbn [tr_contract tr_contract_sha256 tr_task_id].
  unfold verify_payload_hash. rewrite bool_decide_true by done. cbn [check mbind result_bind].
  unfold task_reads in Ht. cbn [mbind result_bind] in Ht |- *. rewrite Ht. cbn [corruption mbind result_bind].
  rewrite bool_decide_true by done. cbn [check mbind result_bind]. unfold payload_sha256.
  by rewrite valid_if_true by apply Hsha.
Qed.
(** Rows inserted in a loop, each computed from an item. *)
Lemma wp_insert_rows {A} (row : A → result TaskRow) (body : A → M Ledger unit) (items : list A) l
    (Q : unit → Ledger → Prop) :
  (∀ a s, body a s = (t ← lift (row a); in_db (insert_task t)) s) →
  (∀ rows, Forall2 (λ a t, row a = Ok t) items rows →
   Forall (λ t, db_tasks (lg_db l) !! Lease.row_key t = None) rows →
   Q tt (lg_set_db (set_tasks (add_tasks (db_tasks (lg_db l)) rows) (lg_db l)) l)) →
  wp (for_each items body) Q (λ _ _, True) l.
Proof using.
  intros Hbody. revert l Q. induction items as [|a items IH]; intros l Q HQ; cbn [for_each].
  { apply wp_ret. specialize (HQ [] ltac:(constructor) (Forall_nil_2 _)). cbn in HQ.
    destruct l as [db ? ? ?], db. exact HQ. }
  apply wp_bind. unfold wp at 1. rewrite Hbody.
  match goal with |- match ?m l with _ => _ end => change (wp m (λ _, wp (for_each items body) Q (λ _ _, True)) (λ _ _, True) l) end.
  apply wp_lift_bind; [intros t Ht|done]. apply wp_in_db. unfold insert_task, check_sql. apply wp_get_bind.
  apply wp_lift_bind; [intros ? Hnone%check_Ok|done]. to_prop. apply wp_lift_bind; [intros ? _|done].
  unfold wp at 1, modify. cbn [fst snd]. apply IH. cbn. intros rows Hrows Hall.
  apply (HQ (t :: rows)); [by constructor|]. constructor; [done|].
  eapply Forall_impl; [exact Hall|]. intros u Hu%lookup_insert_None. by destruct Hu.
Qed.
Lemma wp_insert_tasks run_id now (tasks : list TaskContract) l (Q : unit → Ledger → Prop) :
  (let rows := started_row run_id now <$> tasks in
   Forall (λ t, db_tasks (lg_db l) !! Lease.row_key t = None) rows →
   Q tt (lg_set_db (set_tasks (add_tasks (db_tasks (lg_db l)) rows) (lg_db l)) l)) →
  wp (for_each tasks (λ task,
        let '(payload, digest) := canonical_payload sha256 (dump_task task) in
        in_db (insert_task (new_task_row run_id (tc_task_id task) payload digest now))))
    Q (λ _ _, True) l.
Proof using.
  intros HQ. apply (wp_insert_rows (λ t, Ok (started_row run_id now t))); [done|]. intros rows Hrows. assert (rows = started_row run_id now <$> tasks) as ->; [|exact HQ].
  clear HQ. induction Hrows as [|t row ts rows Ht _ IH]; [done|]. cbn. injection Ht as <-. by f_equal.
Qed.
Lemma wp_integrity {S A} message (m : M S A) (Q : A → S → Prop) (P : S → Prop) s :
  wp m Q (λ _, P) s → wp (integrity_conflict message m) Q (λ _, P) s.
Proof using. unfold wp, integrity_conflict. destruct (m s) as [[a|x] s']; [done|]. by destruct (subclass _ _). Qed.
Lemma wp_start_run e project_id tasks base_commit run_id l : ledger_wf l → Forall task_reads tasks →
  wp (start_run sha256 e project_id tasks base_commit run_id) (λ _, change l) (λ _ l', l' = l) l.
Proof using Hsha.
  intros Hwf Htasks. unfold start_run. apply wp_lift_bind; [intros ? Hc%check_Ok|done].
  apply wp_lift_bind; [intros ? Hne%check_Ok|done]. apply wp_lift_bind; [intros ? Hnd%check_Ok|done]. to_prop.
  set (id := default (env_uuid4 e 0) run_id). set (commit := lower (strip base_commit)) in *.
  set (run := new_run_row id project_id commit (env_now e)).
  set (rows := started_row id (env_now e) <$> tasks).
  apply wp_bind, (wp_integrity _ _ _ (λ l', l' = l)), wp_transaction; [|done].
  apply wp_get_bind. apply wp_lift_bind; [intros ? Hp%check_Ok|done]. to_prop.
  apply wp_bind, wp_in_db. unfold insert_run, check_sql. apply wp_get_bind.
  apply wp_lift_bind; [intros ? Hfree%check_Ok|done]. to_prop. unfold wp at 1, modify. cbn [fst snd].
  apply wp_bind, wp_insert_tasks. cbn. intros Hrows.
  apply wp_lift_bind; [intros draft _|done]. apply wp_in_db.
  set (db1 := set_tasks (add_tasks (db_tasks (lg_db l)) rows) (set_runs (<[id := run]> (db_runs (lg_db l))) (lg_db l))).
  eapply wp_mono; [by apply wp_of_keeps, append_framed| |done]. cbn. intros ev db' Hf.
  assert (Hk1 : keyed db1).
  { destruct (lw_keyed l Hwf) as [Hkt Hkr Hfk]. split.
    - intros k t [[? _]|Ht]%add_tasks_inv; [done|by apply Hkt].
    - intros k r. cbn. by intros [[<- <-]|[_ Hk]]%lookup_insert_Some; [|apply Hkr].
    - cbn. intros k t [[<- Ht]|Ht]%add_tasks_inv; [|by apply fk_insert, (Hfk k t)].
      cbn. unfold rows in Ht. apply list_elem_of_fmap in Ht as (u & -> & _). by rewrite lookup_insert_eq. }
  cbn. apply (ch_start l run rows db1); try done.
  - unfold rows. by destruct tasks.
  - apply Forall_forall. intros t (u & -> & Hu)%list_elem_of_fmap. split; [done|].
    apply started_row_reads. rewrite Forall_forall in Htasks. by apply Htasks.
  - split; try done; cbn.
    + by left.
    + destruct tasks as [|t ts]; [done|]. exists (tc_task_id t).
      apply (add_tasks_has _ rows (started_row id (env_now e) t)). unfold rows. cbn. by left.
    + by left.
  - by apply Hf.
Qed.

(** The graph store starts a run. *)
Lemma dag_row_reads `{!NodeModels} run_id now n : task_reads (tn_task n) →
  is_ok (_decode_task sha256 (dag_task_row sha256 run_id now n)) = true.
Proof using Hsha. apply started_row_reads. Qed.
(** The run [id] has the graph [d]. *)
Record dag_started `{!NodeModels} (id : UUID) (now : Z) (d : TaskDAG) l : Prop := {
  ds_run : ∃ run, db_runs (lg_db l) !! id = Some run
    ∧ rr_dag_sha256 run = Some (payload_sha256 sha256 (dump_dag d));
  ds_rows : ∀ k t, db_tasks (lg_db l) !! k = Some t → k.1 = id →
    ∃ n, n ∈ tasks d ∧ same_task (dag_task_row sha256 id now n) t;
  ds_nodes : ∀ n, n ∈ tasks d → is_Some (db_tasks (lg_db l) !! (id, node_id n));
}.
Lemma wp_start_dag_run `{!NodeModels} e project_id dag base_commit run_id l : ledger_wf l →
  Forall (λ n, task_reads (tn_task n)) (tasks dag) →
  wp (start_dag_run sha256 e project_id dag base_commit run_id)
    (λ id l', change l l' ∧ ∃ d, normalize_task_dag dag = Ok d ∧ dag_started id (env_now e) d l')
    (λ _ l', l' = l) l.
Proof using Hsha.
  intros Hwf Htasks. unfold start_dag_run. apply wp_lift_bind; [intros ? Hc%check_Ok|done].
  apply wp_lift_bind; [intros d Hd|done]. cbn [canonical_payload].
  destruct (normalize_inv _ _ Hd) as (Hnd & Hnew & Hsame). destruct (TaskDAG_new_inv _ _ Hnd Hnew) as (_ & Hgwf & _).
  set (id := default (env_uuid4 e 0) run_id). set (commit := lower (strip base_commit)) in *.
  set (run := dag_run_row id project_id commit (payload_sha256 sha256 (dump_dag d)) (env_now e)).
  set (row := λ t, n ← of_option (Exn KeyError t) (_nodes_by_id d !! t); Ok (dag_task_row sha256 id (env_now e) n)).
  apply wp_bind, (wp_integrity _ _ _ (λ l', l' = l)), wp_transaction; [|done].
  apply wp_get_bind. apply wp_lift_bind; [intros ? Hp%check_Ok|done]. to_prop.
  apply wp_bind, wp_in_db. unfold insert_run, check_sql. apply wp_get_bind.
  apply wp_lift_bind; [intros ? Hfree%check_Ok|done]. to_prop. unfold wp at 1, modify. cbn [fst snd].
  apply wp_lift_bind; [intros order Ho|done]. apply topological_order_Ok in Ho as [Hperm _]; [|done].
  apply wp_bind, (wp_insert_rows row).
  { intros t s. unfold row. by destruct (_nodes_by_id d !! t). }
  intros rows Hrows Hnone. cbn in Hnone |- *.
  assert (Hall : Forall (λ t, tr_run_id t = id ∧ is_ok (_decode_task sha256 t) = true) rows).
  { apply Forall_forall. intros t [k Hk]%list_elem_of_lookup.
    destruct (Forall2_lookup_r _ _ _ _ _ Hrows Hk) as (name & _ & Ht). unfold row in Ht.
    destruct (_nodes_by_id d !! name) as [n|] eqn:Hn; [|done]. injection Ht as <-. split; [done|].
    apply dag_row_reads. apply nodes_by_id_sub in Hn as [Hn _]. destruct (Hsame n Hn) as (m & Hm & ->).
    rewrite Forall_forall in Htasks. by apply Htasks. }
  assert (Hne : rows ≠ []).
  { intros ->. apply Forall2_nil_inv_r in Hrows as ->. apply Permutation_nil in Hperm.
    unfold TaskDAG_new in Hnew. apply bind_Ok_inv in Hnew as (u & Hmin%valid_if_Ok & _).
    unfold task_ids in Hperm. by destruct (tasks d). }
  apply wp_lift_bind; [intros draft _|done]. apply wp_in_db.
  set (db1 := set_tasks (add_tasks (db_tasks (lg_db l)) rows) (set_runs (<[id := run]> (db_runs (lg_db l))) (lg_db l))).
  eapply wp_mono; [by apply wp_of_keeps, append_framed| |done]. cbn. intros ev db' Hf.
  assert (Hk1 : keyed db1).
  { destruct (lw_keyed l Hwf) as [Hkt Hkr Hfk]. split.
    - intros k t [[? _]|Ht]%add_tasks_inv; [done|by apply Hkt].
    - intros k r. cbn. by intros [[<- <-]|[_ Hk]]%lookup_insert_Some; [|apply Hkr].
    - cbn. intros k t [[<- Ht]|Ht]%add_tasks_inv; [|by apply fk_insert, (Hfk k t)].
      cbn. rewrite Forall_forall in Hall. destruct (Hall t Ht) as [-> _]. by rewrite lookup_insert_eq. }
  cbn. split.
  - apply (ch_start l run rows db1); try done; [|by apply Hf].
    split; try done; cbn; [by left| |by left].
    destruct rows as [|t ts]; [done|]. apply Forall_cons in Hall as [[<- _] _]. exists (tr_task_id t).
    apply (add_tasks_has _ (t :: ts) t). by left.
  - exists d. split; [done|]. specialize (Hf Hk1). split.
    + destruct (frame_run_kept db1 db' id run) as [n Hn]; [done|by apply lookup_insert_eq|].
      by exists (with_event_sequence n run).
    + intros k t' Ht' Hk. destruct (frame_task _ _ _ _ Hf Ht') as (t & Ht & Hs).
      apply add_tasks_inv in Ht as [[_ Ht]|Ht].
      * apply list_elem_of_lookup in Ht as [i Hi]. destruct (Forall2_lookup_r _ _ _ _ _ Hrows Hi) as (name & _ & Hrow).
        unfold row in Hrow. destruct (_nodes_by_id d !! name) as [n|] eqn:Hn; [|done]. injection Hrow as <-.
        exists n. split; [by apply nodes_by_id_sub in Hn as [? _]|done].
      * destruct (ky_run_of _ (lw_keyed l Hwf) k t Ht) as [r Hr]. rewrite Hk in Hr. unfold run in Hfree. cbn in Hfree. congruence.
    + intros n Hn. assert (∃ t, t ∈ rows ∧ Lease.row_key t = (id, node_id n)) as (t & Ht & Hkey).
      { assert (node_id n ∈ order) as Hin by (rewrite Hperm; by apply list_elem_of_fmap_2).
        apply list_elem_of_lookup in Hin as [i Hi]. destruct (Forall2_lookup_l _ _ _ _ _ Hrows Hi) as (t & Ht & Hrow).
        exists t. split; [by eapply list_elem_of_lookup_2|]. unfold row in Hrow.
        destruct (_nodes_by_id d !! node_id n) as [m|] eqn:Hm; [|done]. injection Hrow as <-.
        apply nodes_by_id_sub in Hm as [_ Hm]. unfold Lease.row_key. cbn. by rewrite Hm. }
      pose proof (add_tasks_has (db_tasks (lg_db l)) rows t Ht) as Hx. rewrite Hkey in Hx.
      destruct (add_tasks _ _ !! (id, node_id n)) as [u|] eqn:Hu; [|done].
      destruct (frame_task_kept db1 db' (id, node_id n) u Hf Hu) as (u' & Hu' & _). by exists u'.
Qed.

(** The graph of a run is frozen. *)
Lemma wp_freeze_rows `{!NodeModels} (nodes : gmap string TaskNode) (rows : list TaskRow) (db0 : Database) l
    (Q : unit → Ledger → Prop) :
  (∀ t, t ∈ rows → db_tasks db0 !! Lease.row_key t = Some t ∧ tr_depends_on t = None) →
  graph_frame db0 (lg_db l) →
  (∀ db', db_runs db' = db_runs (lg_db l) → graph_frame db0 db' → Q tt (lg_set_db db' l)) →
  wp (for_each rows (λ t,
        n ← lift (of_option (Exn KeyError (tr_task_id t)) (nodes !! tr_task_id t));
        in_db (update_task (with_graph (tn_depends_on n) (_node_metadata n) t)))) Q (λ _ _, True) l.
Proof using.
  revert l Q. induction rows as [|row rows IH]; intros l Q Hrows Hf HQ; cbn [for_each].
  { apply wp_ret. rewrite <- (set_same l). by apply HQ. }
  destruct (Hrows row) as [Hrow Hnone]; [by left|].
  apply wp_bind, wp_lift_bind; [intros n _|done]. apply wp_in_db.
  eapply wp_mono; [apply wp_update_task| |done]. intros _ db1 ->. apply IH.
  - intros r Hr. apply Hrows. by right.
  - cbn. intros k. destruct (decide (k = Lease.row_key row)) as [->|Hne].
    + change (Lease.row_key (with_graph _ _ row)) with (Lease.row_key row).
      cbn. rewrite lookup_insert_eq, Hrow. constructor. right. split; [done|]. by eexists _, _.
    + cbn. rewrite lookup_insert_ne by (intros <-; by apply Hne). apply Hf.
  - intros db' Hr Hf'. apply HQ; [|done]. by rewrite Hr.
Qed.
Lemma wp_persist_dag `{!NodeModels} run_id dag l : ledger_wf l →
  wp (persist_dag sha256 run_id dag) (λ _ l', l' = l ∨ change l l') (λ _ l', l' = l ∨ change l l') l.
Proof using.
  intros Hwf. unfold persist_dag. apply wp_lift_bind; [intros d _|by left]. cbn [canonical_payload].
  apply wp_bind, wp_transaction; [|by left]. apply wp_get_bind.
  apply wp_lift_bind; [intros run Hrun|done]. unfold of_option in Hrun.
  destruct (db_runs (lg_db l) !! run_id) as [r|] eqn:Hr; [|done]. injection Hrun as ->.
  pose proof (ky_runs _ (lw_keyed l Hwf) _ _ Hr) as Hid. apply wp_lift_bind; [intros _ _|done].
  destruct (rr_dag_sha256 run) as [stored|] eqn:Hstored.
  - apply wp_lift_bind; [intros existing _|done]. cbn [canonical_payload].
    apply wp_lift_bind; [intros _ _|done]. apply wp_lift_bind; [intros snap _|done].
    apply wp_ret, wp_ret. by left.
  - apply wp_lift_bind; [intros _ Hnone%check_Ok|done]. apply wp_lift_bind; [intros _ Hrunning%check_Ok|done].
    apply negb_true_iff in Hnone. to_prop. cbv zeta. apply wp_bind.
    apply wp_freeze_rows with (db0 := lg_db l); [|intros k; destruct (_ !! k); constructor; by left|].
    + intros row Hrow. assert (tr_depends_on row = None) as Hdep.
      { destruct (tr_depends_on row) eqn:E; [|done].
        pose proof (proj1 (existsb_false_forall _ _) Hnone row Hrow) as Hx. cbn in Hx. by rewrite E in Hx. }
      split; [|done]. unfold run_tasks, select_tasks in Hrow. rewrite merge_sort_Permutation in Hrow.
      apply list_elem_of_filter in Hrow as [_ Hrow].
      apply list_elem_of_fmap in Hrow as ([k u] & -> & Hk%elem_of_map_to_list). cbn.
      by rewrite (ky_tasks _ (lw_keyed l Hwf) _ _ Hk).
    + intros db' Hruns Hf. apply wp_bind, wp_in_db. eapply wp_mono; [apply wp_update_run| |done].
      intros _ db1 ->. apply wp_ret. apply wp_lift_any. right. cbn.
      apply (ch_graph l run (payload_sha256 sha256 (dump_dag d))); [by rewrite Hid|done|done| |done].
      cbn. by rewrite Hruns.
Qed.

(** ** Steps of the ledger *)
Definition terminal_reads (r : TerminalRunResult) : Prop := decode_terminal_result (dump_terminal r) = Ok r.
(** Writers of other tables: no row of a task changes, and of a run only the
    counter of its events. *)
Definition quiet (db db' : Database) : Prop :=
  db_tasks db' = db_tasks db ∧ ∀ k, option_Forall2 same_run (db_runs db !! k) (db_runs db' !! k).
Inductive ledger_step l l' : Prop :=
  | ls_start e project_id tasks base_commit run_id r : Forall task_reads tasks →
      start_run sha256 e project_id tasks base_commit run_id l = (r, l') → ledger_step l l'
  | ls_start_dag (NM : NodeModels) e project_id dag base_commit run_id r :
      Forall (λ n, task_reads (tn_task n)) (tasks dag) →
      start_dag_run sha256 e project_id dag base_commit run_id l = (r, l') → ledger_step l l'
  | ls_persist_dag (NM : NodeModels) run_id dag r :
      persist_dag sha256 run_id dag l = (r, l') → ledger_step l l'
  | ls_append method e run_id key kind model task_id stage sequence token r :
      append_evidence sha256 method e run_id key kind model task_id stage sequence token l = (r, l') →
      ledger_step l l'
  | ls_repair e x r : IntegrationConflictRepairEvidence_new x = Ok x →
      record_integration_repair sha256 e x l = (r, l') → ledger_step l l'
  | ls_single e run_id x token r : terminal_reads (SingleTask x) →
      finalize_single_task_run sha256 e run_id x token l = (r, l') → ledger_step l l'
  | ls_multi validate e x r : terminal_reads (MultiTask x) →
      finalize_multi_task_run sha256 validate e x l = (r, l') → ledger_step l l'
  | ls_acquire e run_id task_id owner_id dispatch_id seconds r db' :
      acquire_task_lease sha256 e run_id task_id owner_id dispatch_id seconds (lg_db l) = (r, db') →
      l' = lg_set_db db' l → ledger_step l l'
  | ls_renew e run_id task_id owner_id dispatch_id token seconds r db' :
      renew_task_lease sha256 e run_id task_id owner_id dispatch_id token seconds (lg_db l) = (r, db') →
      l' = lg_set_db db' l → ledger_step l l'
  | ls_release e run_id task_id owner_id dispatch_id token r db' :
      release_task_lease sha256 e run_id task_id owner_id dispatch_id token (lg_db l) = (r, db') →
      l' = lg_set_db db' l → ledger_step l l'
  | ls_other db' : quiet (lg_db l) db' → l' = lg_set_db db' l → ledger_step l l'.
Definition ledger_steps := rtc ledger_step.
Lemma quiet_frame db db' : quiet db db' → db_frame db db'.
Proof using. intros [Ht Hr]. split; [|done]. intros k. by rewrite Ht. Qed.

Lemma wp_outcome {S A} (m : M S A) (Q : A → S → Prop) (E : exn → S → Prop) s r s' (P : Prop) :
  wp m Q E s → m s = (r, s') → (∀ a, r = Ok a → Q a s' → P) → (∀ x, r = Raise x → E x s' → P) → P.
Proof using. unfold wp. intros Hwp Hm. rewrite Hm in Hwp. destruct r; eauto. Qed.
Lemma step_change l l' : ledger_wf l → ledger_step l l' → l' = l ∨ change l l'.
Proof using Hsha Hdict.
  intros Hwf [e p ts b id r Hts Hm|NM e p d b id r Hts Hm|NM id d r Hm|method e id key kind model task stage sq token r Hm|e x r Hx Hm
    |e id x token r Hx Hm|validate e x r Hx Hm|e id t o d n r db' Hm ->|e id t o d k n r db' Hm ->
    |e id t o d k r db' Hm ->|db' Hf ->].
  - eapply wp_outcome; [by eapply wp_start_run|exact Hm|by right|by left].
  - eapply wp_outcome; [by eapply wp_start_dag_run|exact Hm|intros a _ [? _]; by right|by left].
  - eapply wp_outcome; [by eapply wp_persist_dag|exact Hm|done|done].
  - eapply wp_outcome; [by eapply wp_append_evidence|exact Hm| |by left].
    intros a _ (k & t & s & run & _ & _ & _ & _ & _ & Hrun & Hr & _ & Hw). by eapply written_change in Hw.
  - eapply wp_outcome; [by eapply wp_record_repair|exact Hm| |by left].
    intros a _ (run & task & Hrun & Hr & _ & Hw). by eapply written_change in Hw.
  - eapply wp_outcome; [by eapply wp_finalize_single|exact Hm| |by left].
    intros a _ (run & st & _ & Hf). by eapply finalized_change.
  - eapply wp_outcome; [by eapply wp_finalize_multi|exact Hm| |by left].
    intros a _ (run & st & dag & _ & Hf & _). by eapply finalized_change.
  - right. apply ch_frame. pose proof (acquire_framed sha256 e id t o d n (lg_db l)) as Hf. rewrite Hm in Hf.
    apply Hf, (lw_keyed l Hwf).
  - right. apply ch_frame. pose proof (renew_framed sha256 e id t o d k n (lg_db l)) as Hf. rewrite Hm in Hf.
    apply Hf, (lw_keyed l Hwf).
  - right. apply ch_frame. pose proof (release_framed sha256 e id t o d k (lg_db l)) as Hf. rewrite Hm in Hf.
    apply Hf, (lw_keyed l Hwf).
  - right. by apply ch_frame, quiet_frame.
Qed.
Lemma steps_wf l l' : ledger_steps l l' → ledger_wf l → ledger_wf l'.
Proof using Hsha Hdict.
  induction 1 as [l|l l1 l' Hstep _ IH]; [done|]. intros Hwf.
  destruct (step_change l l1 Hwf Hstep) as [->|Hch]; [auto|]. by eapply IH, change_wf.
Qed.
(** A relation that every change establishes holds along the steps. *)
Lemma steps_ind (R : Ledger → Ledger → Prop) `{!PreOrder R} :
  (∀ l l', ledger_wf l → change l l' → R l l') → ∀ l l', ledger_wf l → ledger_steps l l' → R l l'.
Proof using Hsha Hdict.
  intros HR l l' Hwf Hsteps. revert Hwf. induction Hsteps as [l|l l1 l' Hstep _ IH]; [done|]. intros Hwf.
  destruct (step_change l l1 Hwf Hstep) as [->|Hch]; [auto|]. etrans; [by apply HR|].
  by eapply IH, change_wf.
Qed.

(** *** A terminal run is closed *)
Definition closed_run l l' : Prop := ∀ id run, db_runs (lg_db l) !! id = Some run → ¬ running run →
  (∃ n, db_runs (lg_db l') !! id = Some (with_event_sequence n run))
  ∧ filter (λ r, evr_run_id r = id) (lg_evidence l') = filter (λ r, evr_run_id r = id) (lg_evidence l).
#[export] Instance closed_run_preorder : PreOrder closed_run.
Proof using.
  split.
  - intros l id run Hr _. split; [|done]. exists (rr_event_sequence run). by destruct run.
  - intros x y z Hxy Hyz id run Hr Hn. destruct (Hxy id run Hr Hn) as [[n Hy] He].
    destruct (Hyz id _ Hy Hn) as [[m Hz] He']. split; [by exists m|congruence].
Qed.
Lemma change_closed l l' : ledger_wf l → change l l' → closed_run l l'.
Proof using.
  intros Hwf [db' Hf|row run db' Hid Hok Hrow Hrun Hr Hf
    |run status result now db' Hrun Hr Hdec Hst Hf|run new db1 db' Hnone Hr Hz Hruns Htasks Hne Hnew Hok Hrw Hf
    |run digest db' Hrun Hr Hnone Hruns Hf]
    id r Hl Hn; (split; [|try done]).
  - by eapply frame_run_kept.
  - by eapply frame_run_kept.
  - cbn. rewrite filter_app, filter_cons_False, filter_nil, app_nil_r; [done|]. intros <-.
    assert (run = r) as -> by congruence. done.
  - eapply frame_run_kept; [exact Hf|]. cbn. rewrite lookup_insert_ne; [done|]. intros <-.
    assert (run = r) as -> by congruence. done.
  - eapply frame_run_kept; [exact Hf|]. rewrite Hruns, lookup_insert_ne; [done|]. intros <-. congruence.
  - exists (rr_event_sequence r). cbn. rewrite Hruns, lookup_insert_ne; [by destruct r|]. intros <-.
    assert (run = r) as -> by congruence. done.
Qed.

(** *** A leased task stays fenced *)
Definition fence_kept l l' : Prop := ∀ k t, db_tasks (lg_db l) !! k = Some t → run_token t ≠ None →
  ∃ t', db_tasks (lg_db l') !! k = Some t' ∧ run_token t' ≠ None.
#[export] Instance fence_kept_preorder : PreOrder fence_kept.
Proof using.
  split; [by intros l k t Ht Hn; exists t|]. intros x y z Hxy Hyz k t Ht Hn.
  destruct (Hxy k t Ht Hn) as (u & Hu & Hun). by apply (Hyz k u).
Qed.
Lemma frame_fence db db' k t : db_frame db db' → db_tasks db !! k = Some t → run_token t ≠ None →
  ∃ t', db_tasks db' !! k = Some t' ∧ run_token t' ≠ None.
Proof using.
  intros Hf Ht Hn. destruct (frame_task_kept _ _ _ _ Hf Ht) as (t' & Ht' & _ & _ & _ & _ & _ & Hk & _).
  exists t'. auto.
Qed.
Lemma change_fence l l' : ledger_wf l → change l l' → fence_kept l l'.
Proof using.
  intros Hwf [db' Hf|row run db' Hid Hok Hrow Hrun Hr Hf
    |run status result now db' Hrun Hr Hdec Hst Hf|run new db1 db' Hnone Hr Hz Hruns Htasks Hne Hnew Hok Hrw Hf
    |run digest db' Hrun Hr Hnone Hruns Hf]
    k t Ht Hn; [by eapply frame_fence..| |].
  - eapply frame_fence; [done| |done]. rewrite Htasks. by apply add_tasks_kept.
  - destruct (graph_frame_kept _ _ _ _ Hf Ht) as (t' & Ht' & (_ & Htok & _)%graphed_row).
    exists t'. split; [done|]. by rewrite Htok.
Qed.
End ledger.
