(* ===== verification/ToyLedger.v ===== *)
(** * ToyLedger: a small run, for concrete inputs

    Two tasks: [a] integrates, [b] conflicts and is repaired with a human
    decision.  The models are dumped to a tag and read back from it. *)
From stdpp Require Import options.
From S2P Require Import Prelude Contracts DagFacts Json Store Events Lease RunModels Recovery Merge Conflict Dispatch IntegrationRepair EvidenceStore Completion LedgerFacts.
Open Scope Z_scope.

Definition toy_digest (_ : string) : string := of_chars (replicate 64 "0"%char).
Definition conflict_digest : string := of_chars (replicate 64 "a"%char).
Definition policy_digest : string := of_chars (replicate 64 "b"%char).

(** ** The evidence of the run *)
Definition worked (t : string) : WorkerExecutionEvidence := {|
  we_dispatch_id := 5%N; we_run_id := 1%N; we_task_id := t; we_status := WE_SUCCEEDED;
  we_base_commit := commit_id 1; we_branch_name := None; we_commit_sha := Some (commit_id 2);
  we_checkpoint := None; we_continuation := None;
  we_run_result := Some {|
    sr_task_id := t; sr_status := RUN_SUCCEEDED; sr_events := []; sr_developer := None;
    sr_verifications := []; sr_reviews := []; sr_repairs := []; sr_failures := [];
    sr_changed_files := []; sr_repair_attempts := 0; sr_agent_models := []; sr_agent_usage := [];
    sr_context_state := None |};
  we_failures := []; we_duration_ms := 5 |}.
Definition repaired_queue : MergeQueueSnapshot := {|
  mqs_integration_ref := "refs/devflow/integration/r"; mqs_run_base_commit := commit_id 1;
  mqs_head_commit := commit_id 6; mqs_integrated_task_ids := ["a"; "b"];
  mqs_attempts := [
    sample_attempt 0 "a" (commit_id 1) INTEGRATED (Some (commit_id 5));
    sample_attempt 1 "b" (commit_id 5) CONFLICT None;
    sample_attempt 2 "b" (commit_id 5) Merge.REPAIRED (Some (commit_id 6))];
  mqs_stopped := false |}.
Definition authorized : HumanIntegrationDecision := {|
  hid_decision := AUTHORIZE_REPAIR; hid_actor := "ada"; hid_note := ""; hid_decision_ref := "refs/d";
  hid_decision_commit := commit_id 4; hid_evidence_fingerprint := conflict_digest;
  hid_policy_fingerprint := policy_digest; hid_conflict_marker_commit := commit_id 3 |}.
Definition developer_stop : DeveloperRunResult := {|
  dr_stop_reason := DEV_MODEL_STOP; dr_iterations := 1; dr_tool_calls := 1;
  dr_final_message := "done"; dr_changed_files := ["src/x.py"];
  dr_usage := {| prompt_tokens := 1; completion_tokens := 1; total_tokens := 2 |}; dr_latency_ms := 1;
  dr_execution_budget := None; dr_tool_failure_evidence := [] |}.
Definition repair_of_b : IntegrationConflictRepairEvidence := {|
  icr_run_id := 1%N; icr_task_id := "b"; icr_integration_head := commit_id 5;
  icr_task_commit := commit_id 2; icr_conflict_marker_commit := commit_id 3;
  icr_conflict_evidence_fingerprint := conflict_digest; icr_policy_fingerprint := policy_digest;
  icr_human_decision_commit := commit_id 4; icr_conflicting_paths := ["src/x.py"];
  icr_repair_commit := commit_id 6; icr_changed_files := ["src/x.py"];
  icr_developer_run := developer_stop;
  icr_verification := {| vr_passed := true; vr_checks := [] |} |}.
Definition completed : MultiTaskRunResult := {|
  mtr_run_id := 1%N; mtr_status := RUN_SUCCEEDED; mtr_task_ids := ["a"; "b"];
  mtr_succeeded_task_ids := ["a"; "b"]; mtr_failed_task_ids := []; mtr_aborted_task_ids := [];
  mtr_blocked_task_ids := []; mtr_abort_evidence_fingerprints := [];
  mtr_integration_head := Some (commit_id 6); mtr_merge_evidence_id := Some 3;
  mtr_merge_evidence_sha256 := Some (toy_digest "") |}.
Definition failure_of (text : string) : FailureReport := {|
  failure_type := TEST_FAILURE; source := VERIFICATION; message := text; retryable := true;
  evidence := [] |}.

(** ** The models as JSON *)
Definition tag (kind name : string) : JSON := JObj [(kind, JStr name)].
Definition untag {A} (kind : string) (f : string → A) (payload : JSON) : result A :=
  match payload with
  | JObj [(k, JStr name)] => if decide (k = kind) then Ok (f name) else invalid kind
  | _ => invalid kind
  end.
#[export] Instance toy_models : OtherModels := {| OtherEvidence := unit |}.
#[export] Instance toy_pydantic : Pydantic := {|
  dump_evidence m := match m with
                     | EM_WorkerExecutionEvidence x => tag "worker" (we_task_id x)
                     | EM_MergeQueueSnapshot _ => tag "queue" ""
                     | EM_HumanIntegrationDecision _ => tag "decision" ""
                     | EM_IntegrationConflictRepairEvidence _ => tag "repair" ""
                     | EM_FailureReport x => tag "failure" (message x)
                     | _ => JObj []
                     end;
  dump_terminal r := match r with SingleTask x => tag "single" (sr_task_id x) | MultiTask _ => tag "multi" "" end;
  dump_task t := tag "task" (tc_task_id t);
  read_task := untag "task" sample_contract;
  read_single _ := invalid "SingleTaskRunResult";
  read_multi := untag "multi" (λ _, completed);
  read_run_event _ := invalid "RunEvent";
  read_developer _ := invalid "DeveloperRunResult";
  read_verification _ := invalid "VerificationResult";
  read_review _ := invalid "ReviewDecision";
  read_repair_run _ := invalid "RepairRunResult";
  read_failure := untag "failure" failure_of;
  read_queue := untag "queue" (λ _, repaired_queue);
  read_conflict _ := invalid "MergeConflictEvidence";
  read_gate _ := invalid "IntegrationGateSnapshot";
  read_decision := untag "decision" (λ _, authorized);
  read_integration_repair := untag "repair" (λ _, repair_of_b);
  read_dispatch_event _ := invalid "WorkerDispatchEvent";
  read_worker_execution := untag "worker" worked;
  read_checkpoint _ := invalid "TaskCheckpoint";
  read_other _ _ := invalid "OtherEvidence" |}.
Lemma toy_dict m : is_dict (dump_evidence m) = true.
Proof. by destruct m. Qed.
Lemma toy_digest_hex s : is_sha256_hex (toy_digest s) = true.
Proof. vm_compute. reflexivity. Qed.

(** ** The run *)
Definition at_time (us : Z) : Env := lease_env us (Z.to_N (1000 + us)) (Z.to_N (2000 + us)).
Definition toy_project : ProjectRow := {|
  pj_id := 7%N; pj_repository_url := "https://git/x"; pj_canonical_repository_url := "https://git/x";
  pj_default_branch := "main"; pj_provision_status := "READY"; pj_lifecycle_state := "ACTIVE";
  pj_provision_error_code := None; pj_provision_error_message := None; pj_last_provisioned_at := None;
  pj_last_synced_at := None; pj_last_synced_commit := None; pj_created_at := 0 |}.
Definition no_runs : Ledger := {|
  lg_db := {| db_runs := ∅; db_tasks := ∅; db_events := []; db_next_event_id := 1 |};
  lg_projects := {[ 7%N := toy_project ]}; lg_evidence := []; lg_next_evidence_id := 1 |}.
Definition toy_start : M Ledger UUID :=
  start_run toy_digest (at_time 1) 7%N [sample_contract "a"; sample_contract "b"] (commit_id 1) (Some 1%N).
Definition record (us : Z) (key : string) (kind : PersistenceEvidenceKind) (m : EvidenceModel)
    (task : option string) : M Ledger Z :=
  append_evidence toy_digest trace_event_draft (at_time us) 1%N key kind m task (Some "stage") None None.
Definition started : Ledger := (toy_start no_runs).2.
Definition with_a : Ledger :=
  (record 2 "worker:a" WORKER_EXECUTION (EM_WorkerExecutionEvidence (worked "a")) (Some "a") started).2.
Definition with_b : Ledger :=
  (record 3 "worker:b" WORKER_EXECUTION (EM_WorkerExecutionEvidence (worked "b")) (Some "b") with_a).2.
Definition with_queue : Ledger :=
  (record 4 "queue" MERGE_QUEUE_SNAPSHOT (EM_MergeQueueSnapshot repaired_queue) None with_b).2.
Definition with_verdict : Ledger :=
  (record 5 "decision" HUMAN_DECISION (EM_HumanIntegrationDecision authorized) (Some "b") with_queue).2.
Definition with_repair : Ledger :=
  (record_integration_repair toy_digest (at_time 6) repair_of_b with_verdict).2.
Definition finish : M Ledger unit :=
  finalize_multi_task_run toy_digest (repair_aware_validate_success toy_digest) (at_time 7) completed.
Definition finished : Ledger := (finish with_repair).2.
