(* ===== verification/StoreFacts.v ===== *)
(** * StoreFacts: the guarantees of the evidence store, as theorems

    What the steps of [LedgerFacts] add up to: a run is read back with exactly
    the evidence that was accepted, an append is idempotent by its key, a
    terminal run is closed, and a task that was leased once accepts no
    evidence without a live token. *)
From Stdlib Require QArith_base.
From stdpp Require Import options.
From S2P Require Import Prelude Contracts Dag Json Store Events Lease RunModels AgentModels Developer Recovery Merge Conflict Dispatch Reconcile IntegrationRepair EvidenceStore Completion LedgerFacts ToyLedger.
Open Scope Z_scope.

Section reading.
Context (sha256 : string → string) `{Pydantic}.
Implicit Types (l : Ledger) (row : EvidenceRow) (run : RunRow).

(** The evidence of a run, in the order of its acceptance. *)
Definition accepted (run_id : UUID) l : list EvidenceRow :=
  filter (λ r, evr_run_id r = run_id) (lg_evidence l).
(** [p] is what reading [row] gives. *)
Definition reads_row row (p : PersistedEvidence) : Prop :=
  p = loaded_row row (pe_kind p) ∧ evidence_kind_value (pe_kind p) = evr_kind row
  ∧ is_ok (decode_evidence (pe_kind p) (evr_payload row) (Some (evr_schema_version row))) = true.

#[export] Instance evidence_le_total : Total evidence_le.
Proof. intros r s. unfold evidence_le. lia. Qed.
#[export] Instance evidence_le_trans : Transitive evidence_le.
Proof. intros r s t. unfold evidence_le. lia. Qed.
Lemma ids_sorted (rows : list EvidenceRow) : StronglySorted Z.lt (evr_id <$> rows) →
  StronglySorted evidence_le rows ∧ NoDup (evr_id <$> rows).
Proof using.
  induction rows as [|r rows IH]; cbn; [by repeat constructor|].
  intros [Hs Hall]%StronglySorted_inv. destruct (IH Hs) as [Hs' Hnd]. rewrite Forall_fmap in Hall. split.
  - constructor; [done|]. eapply Forall_impl; [exact Hall|]. intros s. unfold evidence_le. cbn. lia.
  - constructor; [|done]. intros (s & Hrs & Hin)%list_elem_of_fmap.
    rewrite Forall_forall in Hall. specialize (Hall s Hin). cbn in Hall. lia.
Qed.
Lemma run_evidence_accepted l run_id : ledger_wf sha256 l → run_evidence run_id l = accepted run_id l.
Proof using.
  intros Hwf. unfold run_evidence. change (filter _ (lg_evidence l)) with (accepted run_id l).
  destruct (ids_sorted _ (lw_ids _ _ Hwf)) as [Hs Hnd].
  assert (Hsub : ∀ r, r ∈ accepted run_id l → r ∈ lg_evidence l).
  { intros r. by intros [_ ?]%list_elem_of_filter. }
  apply (StronglySorted_unique_strong evidence_le).
  - intros r s Hr Hs'. rewrite merge_sort_Permutation in Hr. unfold evidence_le. intros H1 H2.
    apply (NoDup_fmap_eq evr_id (lg_evidence l)); [done|by apply Hsub|by apply Hsub|lia].
  - apply StronglySorted_merge_sort; apply _.
  - eapply StronglySorted_sublist; [apply sublist_filter|done].
  - apply merge_sort_Permutation.
Qed.
Lemma corruption_Ok {A} msg (r : result A) a : corruption msg r = Ok a → r = Ok a.
Proof using. destruct r as [x|x]; cbn; [done|]. by destruct (subclass _ _). Qed.
Lemma enum_of_Ok {A} (all : list A) (value_of : A → string) s a : enum_of all value_of s = Ok a → value_of a = s.
Proof using.
  unfold enum_of. destruct (find _ all) as [x|] eqn:Hf; [|done]. intros [= ->].
  apply find_some in Hf as [_ Hf]. by to_prop.
Qed.
Lemma evidence_row_inv row p : _decode_evidence_row sha256 row = Ok p → reads_row row p.
Proof using.
  unfold _decode_evidence_row. intros H1. apply bind_Ok_inv in H1 as (u & _ & H1).
  apply bind_Ok_inv in H1 as (kind & Hk%corruption_Ok%enum_of_Ok & H1).
  apply bind_Ok_inv in H1 as (m & Hm & H1).
  change (PersistedEvidence_new (loaded_row row kind) = Ok p) in H1.
  assert (p = loaded_row row kind) as ->.
  { revert H1. unfold PersistedEvidence_new. intros H1. by inv_valid. }
  split_and!; [done|done|]. cbn. by rewrite Hm.
Qed.
Lemma row_loads row : row_wf sha256 row → ∃ p, _decode_evidence_row sha256 row = Ok p ∧ reads_row row p.
Proof using.
  unfold row_wf. destruct (_decode_evidence_row sha256 row) as [p|] eqn:Hp; [|done].
  intros _. exists p. split; [done|by apply evidence_row_inv].
Qed.
Lemma rows_load (rows : list EvidenceRow) : Forall (row_wf sha256) rows →
  ∃ ps, map_result (_decode_evidence_row sha256) rows = Ok ps ∧ Forall2 reads_row rows ps.
Proof using.
  induction 1 as [|row rows Hrow _ (ps & Hps & H2)]; [by exists []|].
  destruct (row_loads row Hrow) as (p & Hp & Hr). exists (p :: ps). cbn.
  rewrite Hp. cbn. rewrite Hps. cbn. split; [done|by constructor].
Qed.

Lemma elem_of_run_tasks l run_id t : t ∈ run_tasks run_id (lg_db l) ↔
  tr_run_id t = run_id ∧ ∃ k, db_tasks (lg_db l) !! k = Some t.
Proof using.
  unfold run_tasks, select_tasks. rewrite merge_sort_Permutation, list_elem_of_filter, list_elem_of_fmap.
  split.
  - intros [Hid%Is_true_true_1 ([k u] & -> & Hin%elem_of_map_to_list)]. to_prop. eauto.
  - intros [Hid [k Hk]]. split; [by apply Is_true_true_2, bool_decide_eq_true_2|].
    exists (k, t). by rewrite elem_of_map_to_list.
Qed.
Lemma run_tasks_keys l run_id : keyed (lg_db l) → NoDup (tr_task_id <$> run_tasks run_id (lg_db l)).
Proof using.
  intros [Hk _].
  assert (Hnd : NoDup (Lease.row_key <$> run_tasks run_id (lg_db l))).
  { unfold run_tasks, select_tasks. rewrite merge_sort_Permutation.
    eapply sublist_NoDup; [|apply fmap_sublist, sublist_filter].
    assert (Lease.row_key <$> (snd <$> map_to_list (db_tasks (lg_db l))) = fst <$> map_to_list (db_tasks (lg_db l))) as ->.
    { rewrite <- list_fmap_compose. apply list_fmap_ext. intros i [k t] Hin%list_elem_of_lookup_2. cbn.
      by apply Hk, elem_of_map_to_list. }
    apply NoDup_fst_map_to_list. }
  assert (Hall : Forall (λ t, tr_run_id t = run_id) (run_tasks run_id (lg_db l))).
  { apply Forall_forall. by intros t [? _]%elem_of_run_tasks. }
  revert Hnd Hall. generalize (run_tasks run_id (lg_db l)). clear.
  induction l as [|t l IH]; cbn; [by constructor|]. rewrite !NoDup_cons. intros [Hn Hnd] [Ht Hall]%Forall_cons.
  split; [|by apply IH]. intros (u & Hu & Hin)%list_elem_of_fmap. apply Hn, list_elem_of_fmap. exists u.
  split; [|done]. unfold Lease.row_key. rewrite Forall_forall in Hall. rewrite (Hall u Hin). congruence.
Qed.
Lemma tasks_load (rows : list TaskRow) : Forall (λ t, is_ok (_decode_task sha256 t) = true) rows →
  ∃ ps, map_result (_decode_task sha256) rows = Ok ps ∧ (tc_task_id ∘ pt_task) <$> ps = tr_task_id <$> rows.
Proof using.
  induction 1 as [|t rows Ht _ (ps & Hps & Hids)]; [by exists []|].
  destruct (_decode_task sha256 t) as [q|] eqn:Hq; [|done]. exists (q :: ps). cbn. rewrite Hq. cbn.
  rewrite Hps. cbn. split; [done|]. f_equal; [|done]. revert Hq. unfold _decode_task.
  intros H1. apply bind_Ok_inv in H1 as (u & _ & H1). apply bind_Ok_inv in H1 as (c & _ & H1).
  apply bind_Ok_inv in H1 as (u2 & Hc%check_Ok & H1). apply bind_Ok_inv in H1 as (u3 & _ & [= <-]).
  by to_prop.
Qed.
Lemma status_loads run : status_wf sha256 run → ∃ st,
  enum_of all_run_statuses PersistedRunStatus_value (rr_status run) = Ok st
  ∧ PersistedRunStatus_value st = rr_status run ∧ check_terminal sha256 run st = Ok tt
  ∧ (st = PRS_RUNNING ∧ rr_terminal_result run = None ∧ rr_terminal_result_sha256 run = None
       ∧ rr_finished_at run = None
     ∨ st ≠ PRS_RUNNING ∧ ∃ payload now, rr_terminal_result run = Some payload
         ∧ rr_terminal_result_sha256 run = Some (payload_sha256 sha256 payload) ∧ rr_finished_at run = Some now).
Proof using.
  intros [(Hr & Hp & Hs & Hf)|(result & st & now & Hd & Hst & Hr & Hp & Hs & Hf)].
  - exists PRS_RUNNING. unfold check_terminal. rewrite Hr, Hp. split_and!; try done. by left.
  - exists st. unfold check_terminal. rewrite Hr, Hp, Hs. unfold verify_payload_hash.
    cbn [of_option mbind result_bind]. rewrite bool_decide_true by done. cbn [check mbind result_bind]. rewrite Hd.
    cbn [mbind result_bind]. rewrite Hst. cbn [mbind result_bind]. rewrite bool_decide_true by done.
    split_and!; [by destruct st|done|done|]. right. split; [by destruct (terminal_status result), st|by eauto].
Qed.

Lemma enum_display s : s ∈ all_display_statuses → enum_of all_display_statuses id s = Ok s.
Proof using.
  unfold all_display_statuses. intros Hs. repeat (apply elem_of_cons in Hs as [->|Hs]; [by vm_compute|]).
  by apply not_elem_of_nil in Hs.
Qed.
Context (Hsha : ∀ s, is_sha256_hex (sha256 s) = true).
(** What a run is when it is read. *)
Record run_loaded l run_id run (snap : PersistedRunSnapshot) : Prop := {
  ld_load : load_run sha256 run_id l = Ok snap;
  ld_id : prs_run_id snap = run_id;
  ld_evidence : Forall2 reads_row (accepted run_id l) (prs_evidence snap);
  ld_status : PersistedRunStatus_value (prs_status snap) = rr_status run;
  ld_terminal : prs_terminal_result snap = rr_terminal_result run
    ∧ prs_terminal_result_sha256 snap = rr_terminal_result_sha256 run
    ∧ prs_finished_at snap = rr_finished_at run;
  ld_tasks : ∀ t, t ∈ snapshot_task_ids snap ↔ is_Some (db_tasks (lg_db l) !! (run_id, t));
}.
Lemma run_loads l run_id run : ledger_wf sha256 l → db_runs (lg_db l) !! run_id = Some run →
  ∃ snap, run_loaded l run_id run snap.
Proof using Hsha.
  intros Hwf Hrun. pose proof (lw_runs _ _ Hwf _ _ Hrun) as [Hc [project Hp] Hre Hdis [t0 Ht0] Hst].
  pose proof (ky_runs _ (lw_keyed _ _ Hwf) _ _ Hrun) as Hid. rewrite Hid in Ht0.
  destruct (lw_projects _ _ Hwf _ _ Hp) as [Hurl Hbr].
  destruct (tasks_load (run_tasks run_id (lg_db l))) as (ts & Hts & Hids).
  { apply Forall_forall. intros t [_ [k Hk]]%elem_of_run_tasks. by eapply (lw_contracts _ _ Hwf). }
  destruct (rows_load (accepted run_id l)) as (ps & Hps & Hreads).
  { apply Forall_forall. intros r [_ Hin]%list_elem_of_filter. pose proof (lw_rows _ _ Hwf) as Hall.
    rewrite Forall_forall in Hall. by apply Hall. }
  destruct (status_loads run Hst) as (st & Henum & Hval & Hcheck & Hcase).
  assert (Hin : ∀ t, t ∈ tr_task_id <$> run_tasks run_id (lg_db l) ↔ is_Some (db_tasks (lg_db l) !! (run_id, t))).
  { intros t. rewrite list_elem_of_fmap. split.
    - intros (u & -> & [Hu [k Hk]]%elem_of_run_tasks). exists u.
      pose proof (ky_tasks _ (lw_keyed _ _ Hwf) _ _ Hk) as <-. unfold Lease.row_key in Hk. by rewrite <- Hu.
    - intros [u Hu]. exists u. pose proof (ky_tasks _ (lw_keyed _ _ Hwf) _ _ Hu) as Hk. injection Hk as H1 H2.
      split; [done|]. apply elem_of_run_tasks. eauto. }
  eexists. split.
  - unfold load_run. rewrite Hrun. cbn. rewrite Hp. cbn [of_option mbind option_bind result_bind].
    rewrite Hts. cbn [mbind result_bind]. rewrite run_evidence_accepted, Hps by done. cbn [mbind result_bind].
    rewrite Henum. cbn [corruption mbind result_bind]. rewrite Hcheck. cbn [mbind result_bind].
    rewrite (enum_display _ Hdis). cbn [mbind result_bind]. unfold PersistedRunSnapshot_new.
    cbn [prs_repository_url prs_default_branch prs_base_commit prs_recovery_reason prs_tasks
      prs_terminal_result_sha256 prs_status prs_terminal_result prs_finished_at].
    rewrite (valid_if_true _ _ Hurl), (valid_if_true _ _ Hbr), (valid_if_true _ _ Hc), (valid_if_true _ _ Hre).
    assert (Hne : min_length 1 ts = true).
    { destruct ts as [|x ts']; [|done]. exfalso. destruct (db_tasks (lg_db l) !! (run_id, t0)) eqn:E; [|done].
      assert (Hx : t0 ∈ tr_task_id <$> run_tasks run_id (lg_db l)) by by apply Hin; rewrite E.
      rewrite <- Hids in Hx. by apply not_elem_of_nil in Hx. }
    rewrite (valid_if_true _ _ Hne). cbn [mbind result_bind].
    assert (Hsh : opt_sha256_ok (rr_terminal_result_sha256 run) = true).
    { destruct Hcase as [(_ & _ & -> & _)|(_ & payload & now & _ & -> & _)]; [done|]. apply Hsha. }
    rewrite (valid_if_true _ _ Hsh). cbn [mbind result_bind].
    rewrite (valid_if_true (no_duplicates _)); [|unfold snapshot_task_ids; cbn; apply bool_decide_eq_true_2;
      change (NoDup (tc_task_id ∘ pt_task <$> ts)); rewrite Hids; apply run_tasks_keys, (lw_keyed _ _ Hwf)].
    cbn [mbind result_bind].
    case_decide; destruct Hcase as [(Hr & E1 & E2 & E3)|(Hr & payload & now & E1 & E2 & E3)]; try done.
    + rewrite (valid_if_true (_ && _)) by (by rewrite E1, E2). cbn [mbind result_bind].
      rewrite valid_if_true by (by rewrite E3). reflexivity.
    + rewrite (valid_if_true (negb (_ || _))) by (by rewrite E1, E2). cbn [mbind result_bind].
      rewrite valid_if_true by (by rewrite E3). reflexivity.
  - done.
  - done.
  - done.
  - by split_and!.
  - intros t. unfold snapshot_task_ids. cbn. rewrite <- Hin, <- Hids. done.
Qed.

(** *** Evidence is only added *)
Definition extends l l' : Prop := lg_evidence l `prefix_of` lg_evidence l'
  ∧ ∀ run_id, is_Some (db_runs (lg_db l) !! run_id) → is_Some (db_runs (lg_db l') !! run_id).
#[export] Instance extends_preorder : PreOrder extends.
Proof using.
  split; [by intros l|]. intros x y z [H1 R1] [H2 R2]. split; [by etrans|auto].
Qed.
Lemma change_extends l l' : ledger_wf sha256 l → change sha256 l l' → extends l l'.
Proof using.
  intros Hwf [db' Hf|row run db' Hid Hok Hrow Hrun Hr Hf
    |run status result now db' Hrun Hr Hdec Hst Hf|run new db1 db' Hnone Hr Hz Hruns Htasks Hne Hnew Hok Hrw Hf
    |run digest db' Hrun Hr Hnone Hruns Hf];
    (split; [try done; by eexists|]); intros k [r Hk].
  - destruct (frame_run_kept _ _ _ _ Hf Hk) as [n Hn]. by eexists.
  - destruct (frame_run_kept _ _ _ _ Hf Hk) as [n Hn]. by eexists.
  - destruct (decide (k = rr_id run)) as [->|Hne].
    + destruct (frame_run_kept _ _ (rr_id run) _ Hf (lookup_insert_eq _ _ _)) as [n Hn]. by eexists.
    + destruct (frame_run_kept _ _ k r Hf) as [n Hn]; [cbn; by rewrite lookup_insert_ne|by eexists].
  - destruct (frame_run_kept _ _ k r Hf) as [n Hn]; [|by eexists]. rewrite Hruns, lookup_insert_ne; [done|].
    intros <-. congruence.
  - cbn. rewrite Hruns. destruct (decide (k = rr_id run)) as [->|Hne]; [by rewrite lookup_insert_eq|].
    by rewrite lookup_insert_ne, Hk.
Qed.
Context (Hdict : ∀ m, is_dict (dump_evidence m) = true).
Lemma steps_extend l l' : ledger_wf sha256 l → ledger_steps sha256 l l' → extends l l'.
Proof using Hsha Hdict. apply (steps_ind sha256 Hsha Hdict extends), change_extends. Qed.

Lemma find_evidence_Some run_id key l row : ledger_wf sha256 l →
  find_evidence run_id key (lg_evidence l) = Some row ↔
  row ∈ lg_evidence l ∧ evr_run_id row = run_id ∧ evr_evidence_key row = key.
Proof using.
  intros Hwf. split.
  - intros [Hin Hb]%find_some. to_prop. split; [by apply list_elem_of_In|done].
  - intros (Hin & Hr & Hk). destruct (find_evidence run_id key (lg_evidence l)) as [r|] eqn:Hf.
    + apply find_some in Hf as [Hin' Hb]. apply list_elem_of_In in Hin'. to_prop. f_equal.
      eapply (NoDup_fmap_eq (λ r, (evr_run_id r, evr_evidence_key r))); [apply (lw_keys _ _ Hwf)|done|done|].
      destruct Hb as [-> ->]. by rewrite Hr, Hk.
    + pose proof (find_none _ _ Hf row) as Hn. apply list_elem_of_In in Hin. specialize (Hn Hin). cbn in Hn.
      to_prop. by destruct Hn.
Qed.
(** The row a successful append leaves under its key. *)
Lemma appended_row e run_id evidence_key kind model task_id stage sequence token l id l1 :
  ledger_wf sha256 l → ledger_wf sha256 l1 →
  appended sha256 e run_id evidence_key kind model task_id stage sequence token l id l1 →
  ∃ key task stage' row, _required_text evidence_key "evidence_key" 255 = Ok key
  ∧ _optional_text task_id "task_id" 128 = Ok task ∧ _optional_text stage "stage" 64 = Ok stage'
  ∧ row ∈ lg_evidence l1 ∧ evr_run_id row = run_id ∧ evr_evidence_key row = key ∧ evr_id row = id
  ∧ _same_evidence row task kind stage' sequence (payload_sha256 sha256 (dump_evidence model)) = true
  ∧ (id = lg_next_evidence_id l → evr_payload row = dump_evidence model).
Proof using.
  intros Hwf Hwf1 (key & task & stage' & run & Hkey & Htask & Hstage & _ & _ & _ & _ & _ & Hw).
  exists key, task, stage'. destruct Hw as [(old & Hfind & Hsame & -> & ->)|(_ & -> & _ & _ & db' & _ & ->)].
  - apply find_evidence_Some in Hfind as (Hin & Hr & Hk); [|done]. exists old. split_and!; try done.
    intros Hid. pose proof (lw_bound _ _ Hwf) as Hb. rewrite Forall_forall in Hb. specialize (Hb old Hin). lia.
  - exists (evidence_row sha256 e (lg_next_evidence_id l) run_id key kind model task stage' sequence).
    split_and!; try done; [apply elem_of_app; right; by apply list_elem_of_singleton|].
    unfold _same_evidence. cbn. rewrite !bool_decide_true, Z.eqb_refl by done. done.
Qed.

(** Writing the same evidence again changes nothing and gives the same id. *)
Lemma fenced_ok e t token l :
  (token ≠ None ∨ run_token t ≠ None → ∃ obs, database_time e = Ok obs
     ∧ assert_live_current_run_token t token obs = Ok tt) → fenced e t token l = (Ok tt, l).
Proof using.
  intros Hf. unfold fenced. destruct (negb (is_none token) || negb (is_none (run_token t))) eqn:E; [|done].
  destruct Hf as (obs & Hobs & Ha); [by destruct token, (run_token t); auto|].
  unfold mbind, M_bind, lift. rewrite Hobs. cbn. by rewrite Ha.
Qed.
Lemma append_again method e run_id evidence_key kind model task_id stage sequence token l run key task stage' row :
  ledger_wf sha256 l → _required_text evidence_key "evidence_key" 255 = Ok key →
  _optional_text task_id "task_id" 128 = Ok task → _optional_text stage "stage" 64 = Ok stage' →
  opt_ge 0 sequence = true →
  is_ok (decode_evidence kind (dump_evidence model) (Some (evidence_schema_version kind))) = true →
  db_runs (lg_db l) !! run_id = Some run → running run →
  (∀ name, task = Some name → fence_passed e run_id name token l) →
  row ∈ lg_evidence l → evr_run_id row = run_id → evr_evidence_key row = key →
  _same_evidence row task kind stage' sequence (payload_sha256 sha256 (dump_evidence model)) = true →
  append_evidence sha256 method e run_id evidence_key kind model task_id stage sequence token l
    = (Ok (evr_id row), l).
Proof using.
  intros Hwf Hkey Htask Hstage Hseq Hdec Hrun Hr Hfence Hin Hid Hk Hsame.
  assert (Hfind : find_evidence run_id key (lg_evidence l) = Some row) by by apply find_evidence_Some.
  destruct (decode_evidence kind _ _) as [m|] eqn:Hm; [|done].
  unfold append_evidence, ensure, mbind, M_bind, mret, M_ret, lift. rewrite Hkey, Htask, Hstage, Hseq.
  cbn [check canonical_payload]. rewrite Hm. cbv beta iota zeta.
  unfold transaction, in_db, _locked_run. rewrite Hrun. cbn [of_option fst snd]. rewrite set_same.
  rewrite bool_decide_true by done. cbn [check].
  destruct task as [name|].
  - destruct (Hfence name eq_refl) as (t & Ht & Hf). unfold evidence_task. rewrite Ht. cbn [of_option].
    rewrite set_same, (fenced_ok _ _ _ _ Hf). cbn. by rewrite Hfind, Hsame.
  - cbn. by rewrite Hfind, Hsame.
Qed.

(** *** From a store without runs *)
Definition fresh_ledger (projects : gmap UUID ProjectRow) : Ledger := {|
  lg_db := {| db_runs := ∅; db_tasks := ∅; db_events := []; db_next_event_id := 1 |};
  lg_projects := projects; lg_evidence := []; lg_next_evidence_id := 1 |}.
Definition project_ok (p : ProjectRow) : bool :=
  text_ok 1 2000 (pj_repository_url p) && text_ok 1 255 (pj_default_branch p).
Definition reachable_ledger l : Prop := ∃ projects,
  map_Forall (λ _ p, project_ok p = true) projects ∧ ledger_steps sha256 (fresh_ledger projects) l.
Lemma fresh_wf projects : map_Forall (λ _ p, project_ok p = true) projects →
  ledger_wf sha256 (fresh_ledger projects).
Proof using.
  intros Hp. split; cbn; try done; try by constructor.
  intros k p Hk. specialize (Hp k p Hk). cbn in Hp. unfold project_ok in Hp. by to_prop.
Qed.
Lemma reachable_wf l : reachable_ledger l → ledger_wf sha256 l.
Proof using Hsha Hdict. intros (projects & Hp & Hs). eapply steps_wf; [done|done|exact Hs|by apply fresh_wf]. Qed.
Lemma reachable_steps l l' : reachable_ledger l → ledger_steps sha256 l l' → reachable_ledger l'.
Proof using. intros (projects & Hp & Hs) Hs'. exists projects. split; [done|]. by etrans. Qed.

(** A row that stays is read by every later [load_run]. *)
Lemma row_stays l l' row : ledger_wf sha256 l → ledger_steps sha256 l l' → row ∈ lg_evidence l →
  row ∈ lg_evidence l'.
Proof using Hsha Hdict.
  intros Hwf Hs Hin. destruct (steps_extend l l' Hwf Hs) as [[k ->] _]. apply elem_of_app. by left.
Qed.
Lemma evidence_kind_inj k k' : evidence_kind_value k = evidence_kind_value k' → k = k'.
Proof using. by destruct k, k'. Qed.
Lemma reads_key row p : reads_row row p → pe_evidence_key p = evr_evidence_key row.
Proof using. by intros (-> & _). Qed.
Lemma reads_row_inj row p q : reads_row row p → reads_row row q → p = q.
Proof using.
  intros (Hp & Hk & _) (Hq & Hk' & _). rewrite Hp, Hq. f_equal. apply evidence_kind_inj. congruence.
Qed.
Lemma reads_rows_inj rows ps qs : Forall2 reads_row rows ps → Forall2 reads_row rows qs → ps = qs.
Proof using.
  intros Hp. revert qs. induction Hp as [|row p rows ps Hp _ IH]; intros qs Hq; inversion Hq as [|? q ? qs' Hrow Hrows];
    subst; [done|]. f_equal; [by eapply reads_row_inj|]. by apply IH.
Qed.
Lemma same_key_row l row row' : ledger_wf sha256 l → row ∈ lg_evidence l → row' ∈ lg_evidence l →
  evr_run_id row = evr_run_id row' → evr_evidence_key row = evr_evidence_key row' → row = row'.
Proof using.
  intros Hwf Hin Hin' Hr Hk. eapply (NoDup_fmap_eq (λ r, (evr_run_id r, evr_evidence_key r)));
    [apply (lw_keys _ _ Hwf)|done|done|]. by rewrite Hr, Hk.
Qed.
Lemma loaded_rows l run_id run snap row : run_loaded l run_id run snap → row ∈ lg_evidence l →
  evr_run_id row = run_id → ∃ p, p ∈ prs_evidence snap ∧ reads_row row p.
Proof using.
  intros Hl Hin Hid. assert (Ha : row ∈ accepted run_id l) by by apply list_elem_of_filter.
  apply list_elem_of_lookup in Ha as [i Hi].
  destruct (Forall2_lookup_l _ _ _ _ _ (ld_evidence _ _ _ _ Hl) Hi) as (p & Hp & Hr).
  exists p. split; [by eapply list_elem_of_lookup_2|done].
Qed.
Lemma rows_loaded l run_id run snap p : run_loaded l run_id run snap → p ∈ prs_evidence snap →
  ∃ row, row ∈ lg_evidence l ∧ evr_run_id row = run_id ∧ reads_row row p.
Proof using.
  intros Hl [i Hi]%list_elem_of_lookup.
  destruct (Forall2_lookup_r _ _ _ _ _ (ld_evidence _ _ _ _ Hl) Hi) as (row & Hrow & Hr).
  apply list_elem_of_lookup_2, list_elem_of_filter in Hrow as [? ?]. by exists row.
Qed.
End reading.

(** C23.  Whatever the store and its completion subclasses did, in any order
    and with any failures, starting from a store without runs: every run it
    knows can be loaded, and the snapshot holds exactly the evidence rows of
    the run, in the order of their acceptance, each validated by the typed
    model of its kind; its status and terminal columns are those of the run,
    its tasks those persisted for it. *)
Theorem store_reads_what_it_wrote sha256 `{Pydantic} l run_id run
    (Hsha : ∀ s, is_sha256_hex (sha256 s) = true) (Hdict : ∀ m, is_dict (dump_evidence m) = true)
    (Hl : reachable_ledger sha256 l) (Hrun : db_runs (lg_db l) !! run_id = Some run) :
  ∃ snap, run_loaded sha256 l run_id run snap.
Proof. eapply run_loads; [done|by apply reachable_wf|done]. Qed.

(** C21.  Accepted evidence is durable.  When [append_evidence] returned an
    id, then after any further operations the run loads with an item of that
    id, of the kind, task, stage, sequence and digest that were given, and of
    the payload of the model when the id was new; no other item of the run
    has its key. *)
Theorem accepted_evidence_is_durable sha256 `{Pydantic} method e run_id evidence_key kind model task_id
    stage sequence token l id l1 l2
    (Hsha : ∀ s, is_sha256_hex (sha256 s) = true) (Hdict : ∀ m, is_dict (dump_evidence m) = true)
    (Hl : reachable_ledger sha256 l)
    (Happend : append_evidence sha256 method e run_id evidence_key kind model task_id stage sequence token l
               = (Ok id, l1))
    (Hsteps : ledger_steps sha256 l1 l2) :
  ∃ snap p, load_run sha256 run_id l2 = Ok snap ∧ p ∈ prs_evidence snap ∧ pe_id p = id
  ∧ pe_run_id p = run_id ∧ pe_kind p = kind ∧ pe_sequence p = sequence
  ∧ _required_text evidence_key "evidence_key" 255 = Ok (pe_evidence_key p)
  ∧ _optional_text task_id "task_id" 128 = Ok (pe_task_id p)
  ∧ _optional_text stage "stage" 64 = Ok (pe_stage p)
  ∧ pe_payload_sha256 p = payload_sha256 sha256 (dump_evidence model)
  ∧ (id = lg_next_evidence_id l → pe_payload p = dump_evidence model)
  ∧ ∀ q, q ∈ prs_evidence snap → pe_evidence_key q = pe_evidence_key p → q = p.
Proof.
  pose proof (reachable_wf _ Hsha Hdict _ Hl) as Hwf.
  assert (Hstep : ledger_steps sha256 l l1) by by eapply rtc_once, ls_append.
  assert (Hwf1 : ledger_wf sha256 l1) by by eapply steps_wf.
  assert (Hwf2 : ledger_wf sha256 l2) by by eapply steps_wf.
  pose proof (wp_append_evidence sha256 Hsha Hdict method e run_id evidence_key kind model task_id stage sequence token l Hwf)
    as Hwp. unfold wp in Hwp. rewrite Happend in Hwp. pose proof Hwp as (_ & _ & _ & run & _ & _ & _ & _ & _ & Hrun & _).
  apply appended_row in Hwp as (key & task & stage' & row & Hkey & Htask & Hstage & Hin & Hrid & Hk & Hid & Hsame & Hp);
    [|done|done].
  apply (row_stays _ Hsha Hdict l1 l2) in Hin; [|done|done].
  destruct (steps_extend _ Hsha Hdict l l2 Hwf) as [_ Hkept]; [by etrans|].
  destruct (Hkept run_id) as [run2 Hrun2]; [by eexists|].
  destruct (run_loads _ Hsha l2 run_id run2 Hwf2 Hrun2) as [snap Hload].
  destruct (loaded_rows _ _ _ _ _ _ Hload Hin Hrid) as (p & Hpin & Hread).
  assert (Hq : ∀ q, q ∈ prs_evidence snap → pe_evidence_key q = pe_evidence_key p → q = p).
  { intros q (row' & Hin' & Hrid' & Hread')%(rows_loaded _ _ _ _ _ _ Hload) Hqk.
    apply (reads_row_inj row); [|done]. assert (row' = row) as -> by (apply (same_key_row _ l2 row' row Hwf2 Hin' Hin); [congruence|];
      by rewrite <- (reads_key _ _ Hread'), <- (reads_key _ _ Hread)). done. }
  exists snap, p. destruct Hread as (Heq & Hkind & _). unfold _same_evidence in Hsame. to_prop.
  assert (pe_kind p = kind) as Hpk by (apply evidence_kind_inj; congruence).
  pose proof (ld_load _ _ _ _ _ Hload). rewrite Heq in Hq |- *. cbn in *. rewrite Hpk in *.
  split_and!; try done; congruence.
Qed.

(** C24.  Appends are idempotent by their key.  After [append_evidence]
    returned an id, a later append under the same key changes nothing,
    whatever it wants to write; it returns the first id or raises, and it
    returns the id when it brings the same evidence, the run is still running
    and the fence lets it pass. *)
Theorem appends_are_idempotent sha256 `{Pydantic} method method' e e' run_id evidence_key kind kind'
    model model' task_id task_id' stage stage' sequence sequence' token token' l id l1 l2 r l3
    (Hsha : ∀ s, is_sha256_hex (sha256 s) = true) (Hdict : ∀ m, is_dict (dump_evidence m) = true)
    (Hl : reachable_ledger sha256 l)
    (Happend : append_evidence sha256 method e run_id evidence_key kind model task_id stage sequence token l
               = (Ok id, l1))
    (Hsteps : ledger_steps sha256 l1 l2)
    (Hagain : append_evidence sha256 method' e' run_id evidence_key kind' model' task_id' stage' sequence'
                token' l2 = (r, l3)) :
  l3 = l2 ∧ (∀ id', r = Ok id' → id' = id)
  ∧ (kind' = kind → model' = model → task_id' = task_id → stage' = stage → sequence' = sequence →
     ∀ run, db_runs (lg_db l2) !! run_id = Some run → running run →
     (∀ name, _optional_text task_id "task_id" 128 = Ok (Some name) → fence_passed e' run_id name token' l2) →
     r = Ok id).
Proof.
  pose proof (reachable_wf _ Hsha Hdict _ Hl) as Hwf.
  assert (Hwf1 : ledger_wf sha256 l1) by (eapply steps_wf; [done|done|by eapply rtc_once, ls_append|done]).
  assert (Hwf2 : ledger_wf sha256 l2) by by eapply steps_wf.
  pose proof (wp_append_evidence sha256 Hsha Hdict method e run_id evidence_key kind model task_id stage sequence token l Hwf)
    as Hwp. unfold wp in Hwp. rewrite Happend in Hwp.
  pose proof Hwp as (_ & _ & _ & _ & _ & _ & _ & Hseq & Hdec & _).
  apply appended_row in Hwp as (key & task & stg & row & Hkey & Htask & Hstage & Hin & Hrid & Hk & Hid & Hsame & _);
    [|done|done].
  apply (row_stays _ Hsha Hdict l1 l2) in Hin; [|done|done].
  pose proof (wp_append_evidence sha256 Hsha Hdict method' e' run_id evidence_key kind' model' task_id' stage' sequence'
    token' l2 Hwf2) as Hwp'. unfold wp in Hwp'. rewrite Hagain in Hwp'.
  assert (l3 = l2 ∧ ∀ id', r = Ok id' → id' = id) as [-> Hsameid].
  { destruct r as [id'|x]; [|done].
    destruct Hwp' as (key' & t' & s' & run & Hkey' & _ & _ & _ & _ & _ & _ & _ & Hw).
    assert (key' = key) as -> by congruence.
    assert (Hfind : find_evidence run_id key (lg_evidence l2) = Some row) by by apply (find_evidence_Some sha256).
    destruct Hw as [(old & Hold & _ & -> & ->)|(Hnone & _)]; cbn in *; [|congruence].
    assert (old = row) as -> by congruence. split; [done|]. intros ? [= <-]. done. }
  split_and!; [done|done|]. intros -> -> -> -> -> run Hrun Hr Hfence.
  rewrite (append_again sha256 method' e' run_id evidence_key kind model task_id stage sequence token' l2 run
    key task stg row) in Hagain; try done.
  - injection Hagain as <-. by rewrite Hid.
  - intros name ->. by apply Hfence.
Qed.

(** C22.  A finished run is closed.  Once its status is terminal, no operation
    of the store changes what is read of it: its evidence, status, terminal
    result, digest and time stay those of the moment it ended, and an append
    of evidence raises. *)
Theorem finished_runs_are_closed sha256 `{Pydantic} l l' run_id run
    (Hsha : ∀ s, is_sha256_hex (sha256 s) = true) (Hdict : ∀ m, is_dict (dump_evidence m) = true)
    (Hl : reachable_ledger sha256 l) (Hrun : db_runs (lg_db l) !! run_id = Some run)
    (Hfinal : ¬ running run) (Hsteps : ledger_steps sha256 l l') :
  (∃ snap snap', load_run sha256 run_id l = Ok snap ∧ load_run sha256 run_id l' = Ok snap'
     ∧ prs_evidence snap' = prs_evidence snap ∧ prs_status snap' = prs_status snap
     ∧ prs_status snap ≠ PRS_RUNNING ∧ prs_terminal_result snap' = prs_terminal_result snap
     ∧ prs_terminal_result snap ≠ None
     ∧ prs_terminal_result_sha256 snap' = prs_terminal_result_sha256 snap
     ∧ prs_finished_at snap' = prs_finished_at snap)
  ∧ ∀ method e key kind model task_id stage sequence token,
      ∃ x, append_evidence sha256 method e run_id key kind model task_id stage sequence token l' = (Raise x, l').
Proof.
  pose proof (reachable_wf _ Hsha Hdict _ Hl) as Hwf.
  assert (Hwf' : ledger_wf sha256 l') by by eapply steps_wf.
  destruct (steps_ind sha256 Hsha Hdict closed_run (change_closed sha256) l l' Hwf Hsteps run_id run Hrun Hfinal)
    as [[n Hrun'] He].
  destruct (run_loads _ Hsha _ _ _ Hwf Hrun) as [snap Hs], (run_loads _ Hsha _ _ _ Hwf' Hrun') as [snap' Hs'].
  split.
  - exists snap, snap'. pose proof (ld_load _ _ _ _ _ Hs). pose proof (ld_load _ _ _ _ _ Hs').
    destruct (ld_terminal _ _ _ _ _ Hs) as (T1 & T2 & T3), (ld_terminal _ _ _ _ _ Hs') as (T1' & T2' & T3').
    pose proof (ld_status _ _ _ _ _ Hs) as S1. pose proof (ld_status _ _ _ _ _ Hs') as S2. cbn in *.
    assert (Hev : prs_evidence snap' = prs_evidence snap).
    { pose proof (ld_evidence _ _ _ _ _ Hs') as E1. pose proof (ld_evidence _ _ _ _ _ Hs) as E2.
      unfold accepted in *. rewrite He in E1. by eapply reads_rows_inj. }
    assert (prs_status snap' = prs_status snap) as -> by (destruct (prs_status snap), (prs_status snap'); cbn in *; congruence).
    split_and!; try done; try congruence.
    + intros E. rewrite E in S1. apply Hfinal. symmetry. exact S1.
    + rewrite T1. destruct (rw_status _ _ _ (lw_runs _ _ Hwf _ _ Hrun)) as [[? _]|(? & ? & ? & _ & _ & _ & -> & _)]; done.
  - intros method e key kind model task_id stage sequence token.
    pose proof (wp_append_evidence sha256 Hsha Hdict method e run_id key kind model task_id stage sequence token l' Hwf') as Hwp.
    unfold wp in Hwp. destruct (append_evidence _ _ _ _ _ _ _ _ _ _ _ l') as [[id|x] l''].
    + destruct Hwp as (_ & _ & _ & run2 & _ & _ & _ & _ & _ & Hrun2 & Hr & _). exfalso. apply Hfinal.
      assert (run2 = with_event_sequence n run) as -> by congruence. done.
    + subst l''. by exists x.
Qed.

(** C25.  The fence of a task never falls.  The token of a lease is replaced
    by the next acquisition and is never cleared: once a task of a run was
    leased, every later append for it that brings no token raises and changes
    nothing, whatever the evidence.  The product controller and the human
    gate append MERGE_CONFLICT and HUMAN_DECISION evidence for the task of a
    conflict in this way, and a task conflicts only after a worker leased it. *)
Theorem leased_tasks_refuse_unfenced_evidence sha256 `{Pydantic} l l' run_id name t method e key kind model
    task_id stage sequence
    (Hsha : ∀ s, is_sha256_hex (sha256 s) = true) (Hdict : ∀ m, is_dict (dump_evidence m) = true)
    (Hl : reachable_ledger sha256 l) (Htask : db_tasks (lg_db l) !! (run_id, name) = Some t)
    (Hleased : run_token t ≠ None) (Hsteps : ledger_steps sha256 l l')
    (Hname : _required_text task_id "task_id" 128 = Ok name) :
  ∃ x, append_evidence sha256 method e run_id key kind model (Some task_id) stage sequence None l' = (Raise x, l').
Proof.
  pose proof (reachable_wf _ Hsha Hdict _ Hl) as Hwf.
  assert (Hwf' : ledger_wf sha256 l') by by eapply steps_wf.
  destruct (steps_ind sha256 Hsha Hdict fence_kept (change_fence sha256) l l' Hwf Hsteps (run_id, name) t Htask Hleased)
    as (t' & Ht' & Hn).
  pose proof (wp_append_evidence sha256 Hsha Hdict method e run_id key kind model (Some task_id) stage sequence None l' Hwf')
    as Hwp. unfold wp in Hwp.
  destruct (append_evidence _ _ _ _ _ _ _ _ _ _ _ l') as [[id|x] l'']; [exfalso|subst l''; by exists x].
  destruct Hwp as (k & task & s & run & _ & Hopt & _ & _ & _ & _ & _ & Hfence & _).
  unfold _optional_text in Hopt. rewrite Hname in Hopt. injection Hopt as <-.
  destruct (Hfence name eq_refl) as (u & Hu & Hpass). assert (u = t') as -> by congruence.
  destruct (Hpass (or_intror Hn)) as (obs & _ & Ha). unfold assert_live_current_run_token, assert_current_run_token in Ha.
  destruct (run_token t') as [tok|]; [|done]. cbn in Ha. done.
Qed.

(** ** Concrete steps *)
Lemma no_runs_reachable : reachable_ledger toy_digest no_runs.
Proof.
  exists {[ 7%N := toy_project ]}. split; [|done].
  intros k p Hk. apply lookup_singleton_Some in Hk as [_ <-]. vm_compute. reflexivity.
Qed.
Lemma started_step : ledger_step toy_digest no_runs started.
Proof.
  eapply ls_start; [|apply surjective_pairing]. repeat constructor; vm_compute; reflexivity.
Qed.
Lemma record_step us key kind m task l : ledger_step toy_digest l (record us key kind m task l).2.
Proof. eapply ls_append, surjective_pairing. Qed.
Lemma after_a : ledger_steps toy_digest with_a with_repair.
Proof.
  eapply rtc_l; [apply (record_step 3 "worker:b")|]. eapply rtc_l; [apply (record_step 4 "queue")|].
  eapply rtc_l; [apply (record_step 5 "decision")|]. apply rtc_once. eapply ls_repair; [|apply surjective_pairing].
  vm_compute. reflexivity.
Qed.
Lemma finish_step : ledger_step toy_digest with_repair finished.
Proof. eapply ls_multi; [|apply surjective_pairing]. vm_compute. reflexivity. Qed.
Lemma started_reachable : reachable_ledger toy_digest started.
Proof. eapply reachable_steps; [apply no_runs_reachable|]. apply rtc_once, started_step. Qed.
Lemma with_repair_reachable : reachable_ledger toy_digest with_repair.
Proof.
  eapply reachable_steps; [apply started_reachable|]. eapply rtc_l; [apply (record_step 2 "worker:a")|].
  apply after_a.
Qed.
Definition run_in (l : Ledger) : RunRow := default (sample_run 1%N) (db_runs (lg_db l) !! 1%N).

Lemma store_reads_what_it_wrote_witness :
  ∃ snap, run_loaded toy_digest with_repair 1%N (run_in with_repair) snap.
Proof.
  apply (store_reads_what_it_wrote toy_digest with_repair 1%N (run_in with_repair) toy_digest_hex toy_dict
    with_repair_reachable).
  vm_compute. reflexivity.
Defined.
Lemma accepted_evidence_is_durable_witness :
  ∃ snap p, load_run toy_digest 1%N with_repair = Ok snap ∧ p ∈ prs_evidence snap ∧ pe_id p = 1
  ∧ pe_kind p = WORKER_EXECUTION ∧ pe_payload p = tag "worker" "a".
Proof.
  destruct (accepted_evidence_is_durable toy_digest trace_event_draft (at_time 2) 1%N "worker:a"
    WORKER_EXECUTION (EM_WorkerExecutionEvidence (worked "a")) (Some "a") (Some "stage") None None
    started 1 with_a with_repair toy_digest_hex toy_dict started_reachable)
    as (snap & p & Hload & Hin & Hid & _ & Hkind & _ & _ & _ & _ & _ & Hp & _).
  - vm_compute. reflexivity.
  - apply after_a.
  - exists snap, p. refine (conj Hload (conj Hin (conj Hid (conj Hkind _)))). apply Hp. vm_compute. reflexivity.
Defined.
Lemma appends_are_idempotent_witness :
  record 9 "worker:a" WORKER_EXECUTION (EM_WorkerExecutionEvidence (worked "a")) (Some "a") with_repair
    = (Ok 1, with_repair).
Proof.
  destruct (appends_are_idempotent toy_digest trace_event_draft trace_event_draft (at_time 2) (at_time 9) 1%N
    "worker:a" WORKER_EXECUTION WORKER_EXECUTION (EM_WorkerExecutionEvidence (worked "a"))
    (EM_WorkerExecutionEvidence (worked "a")) (Some "a") (Some "a") (Some "stage") (Some "stage") None None
    None None started 1 with_a with_repair
    (record 9 "worker:a" WORKER_EXECUTION (EM_WorkerExecutionEvidence (worked "a")) (Some "a") with_repair).1
    (record 9 "worker:a" WORKER_EXECUTION (EM_WorkerExecutionEvidence (worked "a")) (Some "a") with_repair).2
    toy_digest_hex toy_dict started_reachable) as (Hsame & _ & Hok).
  - vm_compute. reflexivity.
  - apply after_a.
  - apply surjective_pairing.
  - rewrite (surjective_pairing (record _ _ _ _ _ _)), Hsame, (Hok eq_refl eq_refl eq_refl eq_refl eq_refl
      (run_in with_repair)); [reflexivity|vm_compute; reflexivity|vm_compute; reflexivity|].
    intros name Hname. vm_compute in Hname. injection Hname as <-. eexists. split; [vm_compute; reflexivity|].
    intros [Hn|Hn]; vm_compute in Hn; by destruct Hn.
Defined.
Lemma finished_runs_are_closed_witness :
  ∃ x, record 9 "late" FAILURE_REPORT (EM_FailureReport (failure_of "late")) (Some "a") finished
         = (Raise x, finished).
Proof.
  destruct (finished_runs_are_closed toy_digest finished finished 1%N (run_in finished) toy_digest_hex toy_dict)
    as [_ Hclosed].
  - eapply reachable_steps; [apply with_repair_reachable|]. apply rtc_once, finish_step.
  - vm_compute. reflexivity.
  - intros Hr. vm_compute in Hr. discriminate.
  - reflexivity.
  - apply Hclosed.
Defined.
(** Task [a] is leased; the failure of a conflict cannot be recorded for it. *)
Definition leased : Ledger :=
  lg_set_db (acquire_task_lease toy_digest (at_time 50) 1%N "a" "worker-1" 100%N ten_seconds
               (lg_db started)).2 started.
Lemma leased_tasks_refuse_unfenced_evidence_witness :
  ∃ x, record 60 "conflict" FAILURE_REPORT (EM_FailureReport (failure_of "conflict")) (Some "a") leased
         = (Raise x, leased).
Proof.
  apply (leased_tasks_refuse_unfenced_evidence toy_digest leased leased 1%N "a"
    (default (sample_task 1%N "a") (db_tasks (lg_db leased) !! (1%N, "a"))) trace_event_draft (at_time 60)
    "conflict" FAILURE_REPORT (EM_FailureReport (failure_of "conflict")) "a" (Some "stage") None
    toy_digest_hex toy_dict).
  - eapply reachable_steps; [apply started_reachable|]. apply rtc_once.
    by eapply (ls_acquire _ _ _ (at_time 50) 1%N "a" "worker-1" 100%N ten_seconds); [apply surjective_pairing|].
  - vm_compute. reflexivity.
  - vm_compute. discriminate.
  - reflexivity.
  - vm_compute. reflexivity.
Defined.
