(* ===== verification/CompletionFacts.v ===== *)
(** * CompletionFacts: what a completed run proves

    A multi-task run becomes SUCCEEDED only when the evidence in the store
    supports it: every task has a successful worker outcome which the final
    merge snapshot integrates, and every repaired conflict has its verified
    repair evidence and the human decision that authorized it. *)
From Stdlib Require QArith_base.
From stdpp Require Import options.
From S2P Require Import Prelude Contracts Dag DagFacts Json Store Events Lease RunModels AgentModels Developer Recovery Merge Conflict Dispatch Reconcile ReconcileFacts IntegrationRepair RepairRefs EvidenceStore Completion LedgerFacts ToyLedger StoreFacts.
Open Scope Z_scope.

(** An invariant of the steps holds for the fold. *)
Lemma fold_result_each {A} (f : A → result unit) (l : list A) :
  fold_result (λ _ a, f a) tt l = Ok tt → ∀ a, a ∈ l → f a = Ok tt.
Proof.
  induction l as [|x l IH]; cbn [fold_result]; [by intros _ a ?%not_elem_of_nil|].
  intros ([] & Hx & H)%bind_Ok_inv a [->|Ha]%elem_of_cons; [done|by apply IH].
Qed.
Lemma bound_fields_Ok c msg fields : bound_fields c msg fields = Ok tt ↔ Forall (λ f, f.2 = true) fields.
Proof.
  induction fields as [|[name same] fields IH]; cbn; [done|]. rewrite Forall_cons. cbn. rewrite <- IH.
  destruct same; cbn; [|by split; [|intros [? _]]]. split; [done|by intros [_ ?]].
Qed.

Section completion.
Context (sha256 : string → string) `{Pydantic}.
Implicit Types (l : Ledger) (row : EvidenceRow).

(** ** The evidence of the workers *)
Definition worker_outcome (run_id : UUID) row (t : string) (w : WorkerExecutionEvidence) : Prop :=
  evr_kind row = evidence_kind_value WORKER_EXECUTION ∧ evr_task_id row = Some t
  ∧ (∃ raw, read_worker_execution (evr_payload row) = Ok raw ∧ WorkerExecutionEvidence_new raw = Ok w)
  ∧ we_run_id w = run_id ∧ we_task_id w = t.
Lemma worker_evidence_inv rows run_id workers t w : _worker_evidence sha256 rows run_id = Ok workers →
  workers !! t = Some w → ∃ row, row ∈ rows ∧ worker_outcome run_id row t w.
Proof using.
  unfold _worker_evidence. intros Hf. revert t w.
  refine (fold_result_inv (λ m, ∀ t w, m !! t = Some w → ∃ row, row ∈ rows ∧ worker_outcome run_id row t w)
    _ _ _ _ _ _ Hf); [|by intros t w; rewrite lookup_empty].
  intros m row m' Hin IH. unfold worker_row. case_bool_decide as Hk; cbn [negb]; [|by intros [= <-]].
  intros H1. apply bind_Ok_inv in H1 as (u & _ & H1). apply bind_Ok_inv in H1 as (x & Hx & H1).
  apply validated_inv in Hx. apply bind_Ok_inv in H1 as (u1 & Hid & H1).
  apply bind_Ok_inv in H1 as (u2 & _ & [= <-]). apply check_Ok in Hid. to_prop.
  intros t w [[<- <-]|[_ Hl]]%lookup_insert_Some; [|by apply IH]. exists row. split; [done|].
  split_and!; try done; tauto.
Qed.
Lemma attempts_by_task_inv attempts t a : attempts_by_task attempts !! t = Some a →
  a ∈ attempts ∧ mqa_task_id a = t.
Proof using.
  unfold attempts_by_task. induction attempts as [|x attempts IH] using rev_ind; cbn; [done|].
  rewrite foldl_app. cbn. intros [[<- <-]|[_ Hl]]%lookup_insert_Some.
  - split; [|done]. apply elem_of_app. right. by left.
  - destruct (IH Hl). split; [|done]. apply elem_of_app. by left.
Qed.

(** The DAG is that of the persisted tasks. *)
Lemma node_new_task raw node : TaskNode_new raw = Ok node → tn_task node = tn_task raw.
Proof using.
  unfold TaskNode_new. intros H1. apply bind_Ok_inv in H1 as (deps & _ & H1).
  apply bind_Ok_inv in H1 as (u1 & _ & H1). apply bind_Ok_inv in H1 as (u2 & _ & H1).
  apply bind_Ok_inv in H1 as (self & Hs & H1). unfold reject_self_dependency in Hs.
  unfold validate_work_package_metadata in H1. inv_valid. done.
Qed.
Lemma decode_dag_ids rows dag : _decode_dag sha256 rows = Ok dag → task_ids dag = tr_task_id <$> rows.
Proof using.
  unfold _decode_dag. intros H1. apply bind_Ok_inv in H1 as (u1 & _ & H1).
  apply bind_Ok_inv in H1 as (nodes & Hn & H1).
  assert (tasks dag = nodes) as Hnodes.
  { unfold TaskDAG_new, validate_graph in H1. apply bind_Ok_inv in H1 as (u2 & _ & H1).
    apply bind_Ok_inv in H1 as (u3 & _ & H1). apply bind_Ok_inv in H1 as (u4 & _ & H1).
    destruct (topological_order _); [by injection H1 as <-|by destruct (subclass _ _)]. }
  unfold task_ids. rewrite Hnodes. apply map_result_Ok in Hn. clear H1 Hnodes u1.
  induction Hn as [|row node rows nodes Hrow _ IH]; [done|]. cbn. f_equal; [|done].
  unfold decode_node in Hrow. apply bind_Ok_inv in Hrow as (u1 & _ & Hrow).
  apply bind_Ok_inv in Hrow as (task & _ & Hrow). apply bind_Ok_inv in Hrow as (u2 & Hid%check_Ok & Hrow).
  to_prop. unfold node_id. by rewrite (node_new_task _ _ Hrow).
Qed.

(** ** A validated success *)
Record success_evidence (run_id : UUID) (x : MultiTaskRunResult) (dag : TaskDAG) (rows : list EvidenceRow)
    (merge : MergeQueueSnapshot) : Prop := {
  se_row : ∃ row raw, row ∈ rows ∧ Some (evr_id row) = mtr_merge_evidence_id x
    ∧ row_by_id (evr_id row) rows = Some row
    ∧ evr_kind row = evidence_kind_value MERGE_QUEUE_SNAPSHOT
    ∧ Some (evr_payload_sha256 row) = mtr_merge_evidence_sha256 x
    ∧ read_queue (evr_payload row) = Ok raw ∧ MergeQueueSnapshot_validate raw = Ok merge;
  se_head : Some (mqs_head_commit merge) = mtr_integration_head x ∧ mqs_stopped merge = false;
  se_tasks : ∀ t, t ∈ task_id_set dag → t ∈ mqs_integrated_task_ids merge
    ∧ ∃ row w a, row ∈ rows ∧ worker_outcome run_id row t w ∧ we_status w = WE_SUCCEEDED
      ∧ a ∈ mqs_attempts merge ∧ mqa_task_id a = t
      ∧ we_commit_sha w = Some (mqa_task_commit a) ∧ we_base_commit w = mqa_task_base_commit a;
}.
Lemma validate_success_inv x dag rows workers run_id :
  _worker_evidence sha256 rows run_id = Ok workers →
  _validate_success sha256 x dag rows workers = Ok tt → ∃ merge, success_evidence run_id x dag rows merge.
Proof using.
  intros Hw H1. unfold _validate_success, conflict_if_not in H1.
  apply bind_Ok_inv in H1 as (u1 & Hdom%check_Ok & H1). apply bind_Ok_inv in H1 as (u2 & Hall%check_Ok & H1).
  apply bind_Ok_inv in H1 as ([merge_id merge_sha] & Hid & H1). apply bind_Ok_inv in H1 as (row & Hrow & H1).
  apply bind_Ok_inv in H1 as (u3 & Hk%check_Ok & H1). apply bind_Ok_inv in H1 as (u4 & Hs%check_Ok & H1).
  apply bind_Ok_inv in H1 as (u5 & _ & H1). apply bind_Ok_inv in H1 as (merge & (raw & Hraw & Hm)%validated_inv & H1).
  apply bind_Ok_inv in H1 as (u6 & Hint%check_Ok & H1). apply bind_Ok_inv in H1 as (u7 & Hhead%check_Ok & H1).
  apply check_Ok in H1. apply andb_prop in Hint as [Hstop Hint]. to_prop.
  exists merge. split.
  - destruct (row_by_id merge_id rows) as [r|] eqn:Hr; [|done]. injection Hrow as ->.
    pose proof Hr as [Hin%list_elem_of_In Heq]%find_some. to_prop.
    destruct (mtr_merge_evidence_id x); [|done]. destruct (mtr_merge_evidence_sha256 x); [|done].
    injection Hid as -> ->. exists row, raw. split_and!; try done; congruence.
  - split; [done|]. by destruct (mqs_stopped merge).
  - intros t Ht. split.
    + assert (t ∈ (list_to_set (mqs_integrated_task_ids merge) : gset string)) as Hx by by rewrite Hint.
      by apply elem_of_list_to_set in Hx.
    + assert (t ∈ dom workers) as [w Hwt]%elem_of_dom by by rewrite Hdom.
      destruct (worker_evidence_inv _ _ _ _ _ Hw Hwt) as (r & Hr & Ho).
      rewrite forallb_forall in Hall, H1.
      assert (Hpair : (t, w) ∈ map_to_list workers) by by apply elem_of_map_to_list.
      apply list_elem_of_In in Hpair. specialize (Hall _ Hpair). specialize (H1 _ Hpair). cbn in *.
      unfold attempt_matches in H1. cbn in H1.
      destruct (attempts_by_task (mqs_attempts merge) !! t) as [a|] eqn:Ha; [|done].
      apply attempts_by_task_inv in Ha as [Ha Hat]. to_prop. exists r, w, a. split_and!; try done; tauto || (symmetry; tauto).
Qed.

(** ** The authority of a repair *)
Definition repair_item (a : MergeQueueAttempt) row (r : IntegrationConflictRepairEvidence) : Prop :=
  evr_task_id row = Some (mqa_task_id a) ∧ evr_kind row = evidence_kind_value INTEGRATION_REPAIR
  ∧ read_repair_evidence sha256 row = Ok r
  ∧ Some (icr_conflict_evidence_fingerprint r) = mqa_conflict_evidence_fingerprint a.
Definition decision_item (a : MergeQueueAttempt) row (d : HumanIntegrationDecision) : Prop :=
  evr_task_id row = Some (mqa_task_id a) ∧ evr_kind row = evidence_kind_value HUMAN_DECISION
  ∧ read_human_decision sha256 row = Ok d
  ∧ Some (hid_evidence_fingerprint d) = mqa_conflict_evidence_fingerprint a.
Lemma authority_rows a rows acc out : fold_result (authority_row sha256 a) acc rows = Ok out →
  (∀ r, r ∈ out.1 ↔ r ∈ acc.1 ∨ ∃ row, row ∈ rows ∧ repair_item a row r)
  ∧ (∀ d, d ∈ out.2 ↔ d ∈ acc.2 ∨ ∃ row, row ∈ rows ∧ decision_item a row d).
Proof using.
  revert acc. induction rows as [|row rows IH]; intros acc; cbn [fold_result].
  { intros [= <-]. split; intros; set_solver. }
  intros (acc1 & H1 & Hf)%bind_Ok_inv. destruct (IH _ Hf) as [HR HD].
  assert ((∀ r, r ∈ acc1.1 ↔ r ∈ acc.1 ∨ repair_item a row r)
          ∧ (∀ d, d ∈ acc1.2 ↔ d ∈ acc.2 ∨ decision_item a row d)) as [R1 D1].
  { unfold authority_row in H1. unfold repair_item, decision_item.
    case_bool_decide as Ht; cbn [negb] in H1;
      [|injection H1 as <-; split; intros y; (split; [by left|]); by intros [?|(? & _)]].
    case_decide as Hk; [|case_decide as Hk'].
    - apply bind_Ok_inv in H1 as (r & Hr & [= <-]). split; intros y; (split; [|intros [Hy|(_ & Hky & Hy & Hyf)]]).
      + case_decide as Hfp; cbn; [|by left]. rewrite elem_of_app, list_elem_of_singleton.
        intros [?| ->]; [by left|right]. by split_and!.
      + case_decide; cbn; [apply elem_of_app; by left|done].
      + assert (r = y) as -> by congruence. rewrite decide_True by done. apply elem_of_app. right. by left.
      + case_decide; by left.
      + by case_decide.
      + by rewrite Hk in Hky.
    - apply bind_Ok_inv in H1 as (d & Hd & [= <-]). split; intros y; (split; [|intros [Hy|(_ & Hky & Hy & Hyf)]]).
      + case_decide; by left.
      + by case_decide.
      + congruence.
      + case_decide as Hfp; cbn; [|by left]. rewrite elem_of_app, list_elem_of_singleton.
        intros [?| ->]; [by left|right]. by split_and!.
      + case_decide; cbn; [apply elem_of_app; by left|done].
      + assert (d = y) as -> by congruence. rewrite decide_True by done. apply elem_of_app. right. by left.
    - injection H1 as <-. split; intros y; (split; [by left|]); by intros [?|(_ & ? & _)]. }
  split; intros y; [rewrite HR, R1|rewrite HD, D1]; set_solver.
Qed.
Lemma exactly_one_Ok {A} (xs : list A) msg x : exactly_one xs msg = Ok x → xs = [x].
Proof using. destruct xs as [|y [|]]; cbn; [done| |done]. by intros [= ->]. Qed.

(** The repair behind an attempt: its verified evidence and the decision that
    authorized it, the only ones of that conflict. *)
Record repair_authority (run_id : UUID) (rows : list EvidenceRow) (a : MergeQueueAttempt)
    (r : IntegrationConflictRepairEvidence) (d : HumanIntegrationDecision) : Prop := {
  au_repair : ∃ row, row ∈ rows ∧ repair_item a row r;
  au_decision : ∃ row, row ∈ rows ∧ decision_item a row d;
  au_unique : (∀ row r', row ∈ rows → repair_item a row r' → r' = r)
    ∧ (∀ row d', row ∈ rows → decision_item a row d' → d' = d);
  au_verified : vr_passed (icr_verification r) = true ∧ icr_run_id r = run_id ∧ icr_task_id r = mqa_task_id a;
  au_commits : icr_integration_head r = mqa_previous_integration_commit a
    ∧ icr_task_commit r = mqa_task_commit a ∧ mqa_integration_commit a = Some (icr_repair_commit r);
  au_authorized : hid_decision d = AUTHORIZE_REPAIR
    ∧ hid_decision_commit d = icr_human_decision_commit r
    ∧ hid_policy_fingerprint d = icr_policy_fingerprint r
    ∧ hid_conflict_marker_commit d = icr_conflict_marker_commit r
    ∧ hid_evidence_fingerprint d = icr_conflict_evidence_fingerprint r;
}.
Lemma require_authority_inv x a rows : _require_repair_authority sha256 x a rows = Ok tt →
  ∃ r d, repair_authority (mtr_run_id x) rows a r d.
Proof using.
  unfold _require_repair_authority, conflict_if_not. intros H1. apply bind_Ok_inv in H1 as (u1 & _ & H1).
  apply bind_Ok_inv in H1 as ([rs ds] & Hf & H1). apply authority_rows in Hf as [HR HD]. cbn [fst snd] in *.
  apply bind_Ok_inv in H1 as (r & Hr%exactly_one_Ok & H1). apply bind_Ok_inv in H1 as (d & Hd%exactly_one_Ok & H1).
  apply bind_Ok_inv in H1 as ([] & Hb%bound_fields_Ok & H1). apply bind_Ok_inv in H1 as (u2 & Hauth%check_Ok & H1).
  apply bound_fields_Ok in H1. repeat (apply Forall_cons in Hb as [? Hb]).
  repeat (apply Forall_cons in H1 as [? H1]). cbn [snd] in *. to_prop. subst rs ds.
  assert (Hr1 : ∃ row, row ∈ rows ∧ repair_item a row r).
  { destruct (proj1 (HR r)) as [Hx|?]; [by left|by apply not_elem_of_nil in Hx|done]. }
  assert (Hd1 : ∃ row, row ∈ rows ∧ decision_item a row d).
  { destruct (proj1 (HD d)) as [Hx|?]; [by left|by apply not_elem_of_nil in Hx|done]. }
  exists r, d. split; try done.
  - split; intros row y Hin Hy.
    + apply list_elem_of_singleton, HR. right. by exists row.
    + apply list_elem_of_singleton, HD. right. by exists row.
  - destruct Hr1 as (row & _ & _ & _ & Hread & _). unfold read_repair_evidence in Hread.
    apply bind_Ok_inv in Hread as (u & _ & (raw & _ & (-> & _ & _ & Hv)%repair_new_inv)%validated_inv). done.
  - split_and!; congruence.
Qed.
End completion.

(** C20.  What a completed run proves.  When the repair-aware store writes
    the SUCCEEDED terminal result of a running multi-task run, the store holds
    accepted evidence for all of it: a merge snapshot, named by the result,
    that is not stopped and ends at the integration head of the result; for
    every persisted task a successful worker outcome which an attempt of that
    snapshot integrated; and for every repaired conflict exactly one repair
    whose verification passed, with the AUTHORIZE_REPAIR decision it is bound
    to.  The run then loads as SUCCEEDED with this result. *)
Theorem completed_runs_are_supported sha256 `{Pydantic} e x l l' run
    (Hsha : ∀ s, is_sha256_hex (sha256 s) = true) (Hdict : ∀ m, is_dict (dump_evidence m) = true)
    (Hl : reachable_ledger sha256 l) (Hreads : terminal_reads (MultiTask x))
    (Hrun : db_runs (lg_db l) !! mtr_run_id x = Some run) (Hrunning : running run)
    (Hstatus : mtr_status x = RUN_SUCCEEDED)
    (Hfinal : finalize_multi_task_run sha256 (repair_aware_validate_success sha256) e x l = (Ok tt, l')) :
  (∃ dag merge, task_ids dag = tr_task_id <$> run_tasks (mtr_run_id x) (lg_db l)
     ∧ topological_order dag = Ok (mtr_task_ids x)
     ∧ success_evidence (mtr_run_id x) x dag (accepted (mtr_run_id x) l) merge
     ∧ ∀ a, a ∈ mqs_attempts merge → mqa_outcome a = Merge.REPAIRED →
         ∃ r d, repair_authority sha256 (mtr_run_id x) (accepted (mtr_run_id x) l) a r d)
  ∧ ∃ snap, load_run sha256 (mtr_run_id x) l' = Ok snap ∧ prs_status snap = PRS_SUCCEEDED
     ∧ prs_terminal_result snap = Some (dump_terminal (MultiTask x)).
Proof.
  pose proof (reachable_wf _ Hsha Hdict _ Hl) as Hwf.
  assert (Hwf' : ledger_wf sha256 l') by (eapply steps_wf; [done|done|by eapply rtc_once, ls_multi|done]).
  pose proof (wp_finalize_multi sha256 (repair_aware_validate_success sha256) e x l Hwf) as Hwp.
  unfold wp in Hwp. rewrite Hfinal in Hwp.
  destruct Hwp as (run' & st & dag & Hid & (Hst & Hrun' & Hcase) & Hdag & Horder & Hsup).
  rewrite Hid in Hrun'. assert (run' = run) as -> by congruence. split.
  - specialize (Hsup Hrunning). unfold supports in Hsup. apply bind_Ok_inv in Hsup as (workers & Hw & Hsup).
    rewrite decide_True in Hsup by done. rewrite (run_evidence_accepted sha256) in Hw, Hsup by done.
    unfold repair_aware_validate_success in Hsup. apply bind_Ok_inv in Hsup as ([] & Hok & Hsup).
    destruct (validate_success_inv _ _ _ _ _ _ Hw Hok) as [merge Hse]. exists dag, merge.
    split_and!; [by eapply decode_dag_ids|done|done|]. intros a Ha Hrep.
    apply bind_Ok_inv in Hsup as (id & Hmid & Hsup). apply bind_Ok_inv in Hsup as (row & Hrow & Hsup).
    apply bind_Ok_inv in Hsup as (merge' & (raw & Hraw & Hm)%validated_inv & Hsup).
    assert (merge' = merge) as ->.
    { destruct (se_row _ _ _ _ _ Hse) as (row1 & raw1 & _ & Hid1 & Hrow1 & _ & _ & Hraw1 & Hm1).
      rewrite <- Hid1 in Hmid. injection Hmid as <-. rewrite Hrow1 in Hrow. injection Hrow as <-. congruence. }
    eapply require_authority_inv, (fold_result_each _ _ Hsup). by apply list_elem_of_filter.
  - destruct Hcase as [(_ & Hn & _)|(_ & db' & -> & Hf)]; [done|].
    destruct (frame_run_kept _ _ (rr_id run) _ Hf (lookup_insert_eq _ _ _)) as [n Hrun2]. rewrite Hid in Hrun2.
    destruct (run_loads _ Hsha _ _ _ Hwf' Hrun2) as [snap Hs]. exists snap.
    split_and!; [apply (ld_load _ _ _ _ _ Hs)| |by apply (ld_terminal _ _ _ _ _ Hs)].
    pose proof (ld_status _ _ _ _ _ Hs) as Hst2. cbn in Hst, Hst2. rewrite Hstatus in Hst. injection Hst as <-.
    by destruct (prs_status snap).
Qed.
Lemma completed_runs_are_supported_witness :
  ∃ snap, load_run toy_digest 1%N finished = Ok snap ∧ prs_status snap = PRS_SUCCEEDED
    ∧ prs_terminal_result snap = Some (tag "multi" "").
Proof.
  apply (completed_runs_are_supported toy_digest (at_time 7) completed with_repair finished (run_in with_repair)
    toy_digest_hex toy_dict with_repair_reachable).
  - vm_compute. reflexivity.
  - vm_compute. reflexivity.
  - vm_compute. reflexivity.
  - reflexivity.
  - vm_compute. reflexivity.
Defined.
