(* ===== verification/RepairBase.v ===== *)
(** * RepairBase: execution bases of runs with repaired integrations

    [runtime/repair_execution_base.py]: the resolver of execution bases of
    [Reconcile] extended to histories in which a human-authorized repair
    resolved a conflict.  A REPAIRED attempt is accepted only with its typed
    repair evidence and the AUTHORIZE_REPAIR decision behind it; the head it
    left is a base like any other. *)
From stdpp Require Import options.
From S2P Require Import Prelude Contracts Dag Json Store Lease RunModels Recovery Merge Conflict Dispatch Reconcile IntegrationRepair EvidenceStore Completion.
Open Scope Z_scope.

(** Repair evidence by task and conflict, and the repairs a human authorized:
    task, conflict evidence and decision commit. *)
Notation Repairs := (gmap (string * string) IntegrationConflictRepairEvidence).
Notation RepairDecisions := (gset (string * string * string)).

Section repair_execution_base.
(** How Pydantic reads the fields of the evidence payloads. *)
Context (read_execution : JSON → result WorkerExecutionEvidence).
Context (read_merge_snapshot : JSON → result MergeQueueSnapshot).
Context (read_repair : JSON → result IntegrationConflictRepairEvidence).
Context (read_decision : JSON → result HumanIntegrationDecision).

Definition repair_key_of (repair : IntegrationConflictRepairEvidence) : string * string :=
  (icr_task_id repair, icr_conflict_evidence_fingerprint repair).
(** One row of [_repair_evidence]. *)
Definition repair_evidence_row (snapshot : PersistedRunSnapshot) (repairs : Repairs)
    (item : PersistedEvidence) : result Repairs :=
  if negb (bool_decide (pe_kind item = INTEGRATION_REPAIR)) then Ok repairs
  else
    repair ← validated read_repair IntegrationConflictRepairEvidence_new
               "integration repair evidence failed schema validation" (pe_payload item);
    sound_if (bool_decide (icr_run_id repair = prs_run_id snapshot)
              && bool_decide (icr_task_id repair ∈ snapshot_task_ids snapshot))
      "integration repair evidence identity mismatch" ;;
    sound_if (match repairs !! repair_key_of repair with
              | Some existing => bool_decide (existing = repair)
              | None => true
              end) "one conflict contains conflicting integration repair evidence" ;;
    Ok (<[repair_key_of repair := repair]> repairs).
Definition _repair_evidence (snapshot : PersistedRunSnapshot) : result Repairs :=
  fold_result (repair_evidence_row snapshot) ∅ (prs_evidence snapshot).
(** One row of [_repair_decisions]. *)
Definition repair_decision_row (decisions : RepairDecisions) (item : PersistedEvidence)
    : result RepairDecisions :=
  match pe_kind item, pe_task_id item with
  | HUMAN_DECISION, Some task_id =>
      decision ← validated read_decision HumanIntegrationDecision_new
                   "human decision evidence failed schema validation" (pe_payload item);
      Ok (if decide (hid_decision decision = AUTHORIZE_REPAIR)
          then {[ (task_id, hid_evidence_fingerprint decision, hid_decision_commit decision) ]}
               ∪ decisions
          else decisions)
  | _, _ => Ok decisions
  end.
Definition _repair_decisions (snapshot : PersistedRunSnapshot) : result RepairDecisions :=
  fold_result repair_decision_row ∅ (prs_evidence snapshot).

Definition _validate_repair_binding (attempt : MergeQueueAttempt)
    (repair : IntegrationConflictRepairEvidence) (decisions : RepairDecisions) : result unit :=
  bound_fields PersistenceCorruptionError "integration repair evidence binding changed: " [
    ("task_id", bool_decide (icr_task_id repair = mqa_task_id attempt));
    ("integration_head",
      bool_decide (icr_integration_head repair = mqa_previous_integration_commit attempt));
    ("task_commit", bool_decide (icr_task_commit repair = mqa_task_commit attempt));
    ("repair_commit",
      bool_decide (Some (icr_repair_commit repair) = mqa_integration_commit attempt));
    ("conflict_marker_commit",
      bool_decide (Some (icr_conflict_marker_commit repair) = mqa_conflict_marker_commit attempt));
    ("conflict_evidence_fingerprint",
      bool_decide (Some (icr_conflict_evidence_fingerprint repair)
                   = mqa_conflict_evidence_fingerprint attempt));
    ("policy_fingerprint",
      bool_decide (Some (icr_policy_fingerprint repair) = mqa_policy_fingerprint attempt));
    ("human_decision_commit",
      bool_decide (Some (icr_human_decision_commit repair) = mqa_human_decision_commit attempt))] ;;
  sound_if (bool_decide ((mqa_task_id attempt, icr_conflict_evidence_fingerprint repair,
                          icr_human_decision_commit repair) ∈ decisions))
    "integration repair lacks matching AUTHORIZE_REPAIR human decision evidence".

(** The variables of the loop of [_validate_repair_aware_history]. *)
Record RepairScan : Set := {
  rs_integrated : gset string;
  rs_heads : gmap string (gset string);
  rs_last_index : Z;
  rs_pending : option MergeQueueAttempt;
}.
(** What the loop checks of every attempt: its index in the order. *)
Definition attempt_index (dag : TaskDAG) (order_index : gmap string Z)
    (successful_workers : gmap string (string * string)) (run_base_commit : string)
    (st : RepairScan) (attempt : MergeQueueAttempt) : result Z :=
  _require_oid (mqa_task_base_commit attempt) "merge task base" ;;
  _require_oid (mqa_task_commit attempt) "merge task commit" ;;
  _require_oid (mqa_previous_integration_commit attempt) "previous integration commit" ;;
  index ← of_option (Exn PersistenceCorruptionError
                       "merge queue snapshot references an unknown DAG task")
            (order_index !! mqa_task_id attempt);
  node ← Dag.node dag (mqa_task_id attempt);
  let depends_on := set_of (tn_depends_on node) in
  sound_if (bool_decide (successful_workers !! mqa_task_id attempt
                         = Some (mqa_task_base_commit attempt, mqa_task_commit attempt)))
    "merge attempt lacks matching successful worker evidence" ;;
  (if decide (tn_depends_on node = []) then
     sound_if (bool_decide (mqa_task_base_commit attempt = run_base_commit))
       "dependency-free task commit must descend from the frozen Run base"
   else
     sound_if (match rs_heads st !! mqa_task_base_commit attempt with
               | Some base_integrated => bool_decide (depends_on ⊆ base_integrated)
               | None => false
               end) "dependent task base is not a prior integration head containing dependencies") ;;
  sound_if (bool_decide (depends_on ⊆ rs_integrated st))
    "merge attempt precedes integrated dependencies" ;;
  Ok index.
(** The assignments that follow an accepted integration. *)
Definition accept_integration (attempt : MergeQueueAttempt) (commit : string) (index : Z) (st : RepairScan)
    : RepairScan :=
  let integrated := {[mqa_task_id attempt]} ∪ rs_integrated st in
  {| rs_integrated := integrated; rs_heads := <[commit := integrated]> (rs_heads st);
     rs_last_index := index; rs_pending := None |}.
Definition scan_conflict (index : Z) (st : RepairScan) (attempt : MergeQueueAttempt)
    : result RepairScan :=
  sound_if (is_none (rs_pending st) && (rs_last_index st <? index))
    "merge conflict violates deterministic topological ordering" ;;
  Ok {| rs_integrated := rs_integrated st; rs_heads := rs_heads st;
        rs_last_index := rs_last_index st; rs_pending := Some attempt |}.
Definition scan_repaired (order_index : gmap string Z) (repairs : Repairs)
    (decisions : RepairDecisions) (index : Z) (st : RepairScan) (attempt : MergeQueueAttempt)
    : result RepairScan :=
  let unpaired := "repaired merge attempt lacks its immediately preceding conflict" in
  pending ← of_option (Exn PersistenceCorruptionError unpaired) (rs_pending st);
  sound_if (bool_decide (mqa_task_id pending = mqa_task_id attempt)) unpaired ;;
  (if index <=? rs_last_index st then
     corrupt "repaired merge attempt violates deterministic topological ordering"
   else
     pending_index ← of_option (Exn KeyError "") (order_index !! mqa_task_id pending);
     sound_if (index =? pending_index)
       "repaired merge attempt violates deterministic topological ordering") ;;
  sound_if (bool_decide (mqa_previous_integration_commit attempt
                         = mqa_previous_integration_commit pending))
    "repair does not chain from the conflicted integration head" ;;
  '(commit, fingerprint) ← of_option (Exn PersistenceCorruptionError
      "repaired merge attempt lacks repair identity")
    (c ← mqa_integration_commit attempt; f ← mqa_conflict_evidence_fingerprint attempt; Some (c, f));
  repair ← of_option (Exn PersistenceCorruptionError
             "repaired merge attempt lacks matching typed integration-repair evidence")
             (repairs !! (mqa_task_id attempt, fingerprint));
  _validate_repair_binding attempt repair decisions ;;
  Ok (accept_integration attempt commit index st).
Definition scan_integrated (index : Z) (st : RepairScan) (attempt : MergeQueueAttempt)
    : result RepairScan :=
  sound_if (is_none (rs_pending st))
    "naturally clean integration cannot skip an unresolved prior conflict" ;;
  sound_if (rs_last_index st <? index)
    "merge queue snapshot violates deterministic topological task order" ;;
  commit ← of_option (Exn PersistenceCorruptionError
                        "integrated merge attempt lacks integration commit")
             (mqa_integration_commit attempt);
  Ok (accept_integration attempt commit index st).
Definition repair_scan_attempt (dag : TaskDAG) (order_index : gmap string Z)
    (successful_workers : gmap string (string * string)) (run_base_commit : string)
    (repairs : Repairs) (decisions : RepairDecisions) (st : RepairScan)
    (attempt : MergeQueueAttempt) : result RepairScan :=
  index ← attempt_index dag order_index successful_workers run_base_commit st attempt;
  match mqa_outcome attempt with
  | CONFLICT => scan_conflict index st attempt
  | Merge.REPAIRED => scan_repaired order_index repairs decisions index st attempt
  | INTEGRATED => scan_integrated index st attempt
  end.
Definition _validate_repair_aware_history (merge_snapshot : MergeQueueSnapshot) (dag : TaskDAG)
    (order_index : gmap string Z) (successful_workers : gmap string (string * string))
    (run_base_commit : string) (repairs : Repairs) (decisions : RepairDecisions)
    : result RepairScan :=
  fold_result
    (repair_scan_attempt dag order_index successful_workers run_base_commit repairs decisions)
    {| rs_integrated := ∅; rs_heads := {[run_base_commit := ∅]}; rs_last_index := -1;
       rs_pending := None |}
    (mqs_attempts merge_snapshot).

(** A stopped history goes on with the repair of its last conflict. *)
Definition _assert_stopped_history_resumed_by_repair (previous current : MergeQueueSnapshot)
    : result unit :=
  let n := length (mqs_attempts previous) in
  match last (mqs_attempts previous), mqs_attempts current !! n with
  | Some conflict, Some first_new =>
      sound_if (bool_decide (mqa_outcome conflict = CONFLICT)
                && bool_decide (mqa_outcome first_new = Merge.REPAIRED)
                && bool_decide (mqa_task_id first_new = mqa_task_id conflict)
                && bool_decide (mqa_previous_integration_commit first_new
                                = mqa_previous_integration_commit conflict))
        "stopped merge queue history resumed without resolving its exact conflict"
  | _, _ => corrupt "stopped merge queue history advanced without a repair attempt"
  end.
(** [_validated_merge_snapshots] of the subclass. *)
Definition repair_aware_merge_snapshots (snapshot : PersistedRunSnapshot)
    (persisted_dag : PersistedDAGSnapshot) (successful_workers : gmap string (string * string))
    : result (list (PersistedEvidence * MergeQueueSnapshot)) :=
  let dag := pds_dag persisted_dag in
  order ← topological_order dag;
  repairs ← _repair_evidence snapshot;
  decisions ← _repair_decisions snapshot;
  decoded ← fold_result (decode_merge_by read_merge_snapshot (λ merge_snapshot,
      _validate_repair_aware_history merge_snapshot dag (order_index order) successful_workers
        (prs_base_commit snapshot) repairs decisions ;;
      Ok tt) snapshot) [] (prs_evidence snapshot);
  fold_result (extends_previous_by _assert_stopped_history_resumed_by_repair) None decoded ;;
  Ok decoded.

Definition repair_verify_attempt (commit_parents : string → result (list string))
    (_ : unit) (attempt : MergeQueueAttempt) : result unit :=
  task_parents ← commit_parents (mqa_task_commit attempt);
  sound_if (bool_decide (task_parents = [mqa_task_base_commit attempt]))
    "persisted task commit no longer matches its evidence-bound task base" ;;
  if decide (mqa_outcome attempt = INTEGRATED ∨ mqa_outcome attempt = Merge.REPAIRED) then
    integration_commit ← of_option (Exn PersistenceCorruptionError
                           "successful merge attempt lacks integration commit")
                         (mqa_integration_commit attempt);
    integration_parents ← commit_parents integration_commit;
    sound_if (bool_decide (integration_parents
                           = [mqa_previous_integration_commit attempt; mqa_task_commit attempt]))
      "persisted integration commit no longer matches its parent evidence"
  else Ok tt.
(** [_verify_git] of the subclass. *)
Definition repair_verify_git (commit_parents : string → result (list string)) :=
  verify_git_by (repair_verify_attempt commit_parents) commit_parents.

(** [RepairAwareEvidenceBoundTaskExecutionBaseResolver.resolve] *)
Definition repair_aware_resolve :=
  resolve_by (select_base_by read_execution repair_aware_merge_snapshots) repair_verify_git.
End repair_execution_base.
