(* ===== verification/RepairBaseFacts.v ===== *)
(** * RepairBaseFacts: execution bases after repairs

    The repair-aware resolver starts a task only from a head whose history is
    complete: every repaired conflict has its verified evidence and its human
    authorization.  On histories without repairs it is the base resolver. *)
From Stdlib Require QArith_base.
From stdpp Require Import options.
From S2P Require Import Prelude Contracts Dag DagFacts Json Store Lease RunModels Recovery Merge Conflict Dispatch Reconcile ReconcileFacts IntegrationRepair RepairRefs EvidenceStore Completion ToyLedger CompletionFacts RepairBase.
Open Scope Z_scope.

Section repair_base.
Context (read_execution : JSON → result WorkerExecutionEvidence).
Context (read_merge_snapshot : JSON → result MergeQueueSnapshot).
Context (read_repair : JSON → result IntegrationConflictRepairEvidence).
Context (read_decision : JSON → result HumanIntegrationDecision).

(** ** The evidence of repairs *)
Definition recorded_repair (snapshot : PersistedRunSnapshot) (r : IntegrationConflictRepairEvidence) : Prop :=
  ∃ item raw, item ∈ prs_evidence snapshot ∧ pe_kind item = INTEGRATION_REPAIR
  ∧ read_repair (pe_payload item) = Ok raw ∧ IntegrationConflictRepairEvidence_new raw = Ok r
  ∧ icr_run_id r = prs_run_id snapshot.
Definition recorded_decision (snapshot : PersistedRunSnapshot) (t : string) (d : HumanIntegrationDecision) : Prop :=
  ∃ item raw, item ∈ prs_evidence snapshot ∧ pe_kind item = HUMAN_DECISION ∧ pe_task_id item = Some t
  ∧ read_decision (pe_payload item) = Ok raw ∧ HumanIntegrationDecision_new raw = Ok d.
Lemma repair_evidence_inv snapshot repairs k r : _repair_evidence read_repair snapshot = Ok repairs →
  repairs !! k = Some r → recorded_repair snapshot r.
Proof using.
  unfold _repair_evidence. intros Hf. revert k r.
  refine (fold_result_inv (λ m, ∀ k r, m !! k = Some r → recorded_repair snapshot r) _ _ _ _ _ _ Hf);
    [|by intros k r; rewrite lookup_empty].
  intros m item m' Hin IH. unfold repair_evidence_row. case_bool_decide as Hk; cbn [negb]; [|by intros [= <-]].
  intros (x & (raw & Hraw & Hx)%validated_inv & (u & Hid%check_Ok & (u1 & _ & [= <-])%bind_Ok_inv)%bind_Ok_inv)%bind_Ok_inv.
  to_prop. intros k r [[<- <-]|[_ Hl]]%lookup_insert_Some; [|by eapply IH].
  exists item, raw. split_and!; try done; tauto.
Qed.
Lemma repair_decisions_inv snapshot decisions t fp c : _repair_decisions read_decision snapshot = Ok decisions →
  (t, fp, c) ∈ decisions → ∃ d, recorded_decision snapshot t d ∧ hid_decision d = AUTHORIZE_REPAIR
    ∧ hid_evidence_fingerprint d = fp ∧ hid_decision_commit d = c.
Proof using.
  unfold _repair_decisions. intros Hf. revert t fp c.
  refine (fold_result_inv (λ m, ∀ t fp c, (t, fp, c) ∈ m → ∃ d, recorded_decision snapshot t d
    ∧ hid_decision d = AUTHORIZE_REPAIR ∧ hid_evidence_fingerprint d = fp ∧ hid_decision_commit d = c)
    _ _ _ _ _ _ Hf); [|set_solver].
  intros m item m' Hin IH Hrow. unfold repair_decision_row in Hrow.
  destruct (pe_kind item) eqn:Hk; try (by injection Hrow as <-).
  destruct (pe_task_id item) as [t|] eqn:Ht; [|by injection Hrow as <-].
  apply bind_Ok_inv in Hrow as (d & (raw & Hraw & Hd)%validated_inv & [= <-]).
  intros t' fp c. case_decide as Ha; [|apply IH]. intros [[= -> -> ->]%elem_of_singleton|?]%elem_of_union; [|by apply IH].
  exists d. split_and!; try done. by exists item, raw.
Qed.

(** What stands behind a repaired attempt. *)
Definition authorized_repair (snapshot : PersistedRunSnapshot) (a : MergeQueueAttempt) : Prop :=
  ∃ r d, recorded_repair snapshot r ∧ vr_passed (icr_verification r) = true
  ∧ icr_task_id r = mqa_task_id a ∧ icr_integration_head r = mqa_previous_integration_commit a
  ∧ icr_task_commit r = mqa_task_commit a ∧ mqa_integration_commit a = Some (icr_repair_commit r)
  ∧ mqa_policy_fingerprint a = Some (icr_policy_fingerprint r)
  ∧ mqa_conflict_marker_commit a = Some (icr_conflict_marker_commit r)
  ∧ recorded_decision snapshot (mqa_task_id a) d ∧ hid_decision d = AUTHORIZE_REPAIR
  ∧ hid_evidence_fingerprint d = icr_conflict_evidence_fingerprint r
  ∧ hid_decision_commit d = icr_human_decision_commit r
  ∧ mqa_conflict_evidence_fingerprint a = Some (icr_conflict_evidence_fingerprint r)
  ∧ mqa_human_decision_commit a = Some (icr_human_decision_commit r).
Lemma repair_binding_inv snapshot repairs decisions a fp r :
  _repair_evidence read_repair snapshot = Ok repairs → _repair_decisions read_decision snapshot = Ok decisions →
  repairs !! (mqa_task_id a, fp) = Some r → _validate_repair_binding a r decisions = Ok tt → authorized_repair snapshot a.
Proof using.
  intros Hrs Hds Hr. unfold _validate_repair_binding.
  intros ([] & Hb%bound_fields_Ok & Hd%check_Ok)%bind_Ok_inv. repeat (apply Forall_cons in Hb as [? Hb]).
  cbn [snd] in *. to_prop. destruct (repair_decisions_inv _ _ _ _ _ Hds Hd) as (d & Hrec & Ha & Hfp & Hc).
  pose proof (repair_evidence_inv _ _ _ _ Hrs Hr) as Hrr. exists r, d.
  assert (vr_passed (icr_verification r) = true).
  { destruct Hrr as (item & raw & _ & _ & _ & Hnew & _). by apply repair_new_inv in Hnew as (_ & _ & _ & ?). }
  split_and!; try done; congruence.
Qed.

(** ** The scan *)
Section scan.
Context (snapshot : PersistedRunSnapshot) (d : TaskDAG) (order : list string).
Context (workers : gmap string (string * string)) (base : string) (repairs : Repairs) (decisions : RepairDecisions).
Context (Hrepairs : _repair_evidence read_repair snapshot = Ok repairs).
Context (Hdecisions : _repair_decisions read_decision snapshot = Ok decisions).
Notation scan := (repair_scan_attempt d (order_index order) workers base repairs decisions).
Notation start := {| rs_integrated := ∅; rs_heads := {[base := ∅]}; rs_last_index := -1; rs_pending := None |}.

Lemma attempt_index_inv st a i : attempt_index d (order_index order) workers base st a = Ok i →
  order_index order !! mqa_task_id a = Some i
  ∧ workers !! mqa_task_id a = Some (mqa_task_base_commit a, mqa_task_commit a).
Proof using.
  unfold attempt_index, sound_if, _require_oid, sound_if. intros H1.
  apply bind_Ok_inv in H1 as (u1 & _ & H1). apply bind_Ok_inv in H1 as (u2 & _ & H1).
  apply bind_Ok_inv in H1 as (u3 & _ & H1). apply bind_Ok_inv in H1 as (j & Hj & H1).
  apply bind_Ok_inv in H1 as (n & _ & H1). apply bind_Ok_inv in H1 as (u4 & Hw%check_Ok & H1).
  apply bind_Ok_inv in H1 as (u5 & _ & H1). apply bind_Ok_inv in H1 as (u6 & _ & [= <-]). to_prop.
  split; [|done]. by destruct (order_index order !! mqa_task_id a); [injection Hj as ->|].
Qed.
(** The accepted attempts: integrated tasks in topological order, each with
    worker evidence, each repair authorized. *)
Record scanned_ok (l : list MergeQueueAttempt) (st : RepairScan) : Prop := {
  so_order : mqa_task_id <$> filter advances l `sublist_of` take (Z.to_nat (rs_last_index st + 1)) order;
  so_index : -1 <= rs_last_index st;
  so_workers : Forall (λ a, workers !! mqa_task_id a = Some (mqa_task_base_commit a, mqa_task_commit a)) l;
  so_repairs : Forall (λ a, mqa_outcome a = Merge.REPAIRED → authorized_repair snapshot a) l;
}.
Lemma scanned_snoc l st a i : scanned_ok l st → order_index order !! mqa_task_id a = Some i →
  workers !! mqa_task_id a = Some (mqa_task_base_commit a, mqa_task_commit a) →
  rs_last_index st < i → advances a = true →
  (mqa_outcome a = Merge.REPAIRED → authorized_repair snapshot a) →
  ∀ c, scanned_ok (l ++ [a]) (accept_integration a c i st).
Proof using.
  intros [Hs Hge Hw Hr] [Hix Hi0]%order_index_lookup Hwa Hlt Hadv Hra c.
  split; cbn; [|lia|by apply Forall_snoc|by apply Forall_snoc].
  rewrite filter_app, fmap_app, filter_cons_True, filter_nil by (by rewrite Hadv). cbn.
  replace (Z.to_nat (i + 1)) with (S (Z.to_nat i)) by lia.
  rewrite (take_S_r _ _ _ Hix). apply sublist_app; [|done].
  transitivity (take (Z.to_nat (rs_last_index st + 1)) order); [done|].
  replace (take (Z.to_nat (rs_last_index st + 1)) order)
    with (take (Z.to_nat (rs_last_index st + 1)) (take (Z.to_nat i) order))
    by (rewrite take_take; f_equal; lia).
  apply sublist_take.
Qed.
Lemma repair_scan_ok l st : fold_result scan start l = Ok st → scanned_ok l st.
Proof using Hrepairs Hdecisions.
  revert st. induction l as [|a l IH] using rev_ind; intros st.
  { intros [= <-]. split; cbn; try done. }
  rewrite fold_result_app. intros (st0 & H0 & H1)%bind_Ok_inv. specialize (IH _ H0). cbn [fold_result] in H1.
  apply bind_Ok_inv in H1 as (st1 & H1 & [= ->]). unfold repair_scan_attempt in H1.
  apply bind_Ok_inv in H1 as (i & [Hi Hw]%attempt_index_inv & H1).
  destruct (mqa_outcome a) eqn:Ho.
  - unfold scan_integrated in H1. apply bind_Ok_inv in H1 as (u & _ & H1).
    apply bind_Ok_inv in H1 as (u1 & Hlt%check_Ok & H1). apply bind_Ok_inv in H1 as (c & _ & [= <-]). to_prop.
    apply scanned_snoc; try done; [by unfold advances; rewrite Ho|congruence].
  - unfold scan_conflict in H1. apply bind_Ok_inv in H1 as (u & _ & [= <-]). destruct IH as [Hs Hge Hws Hr].
    split; cbn; [|done|by apply Forall_snoc|apply Forall_snoc; split; [done|congruence]].
    rewrite filter_app, filter_cons_False, filter_nil, app_nil_r; [done|].
    assert (advances a = false) as -> by (unfold advances; by rewrite Ho). by intros [].
  - unfold scan_repaired in H1. apply bind_Ok_inv in H1 as (p & _ & H1). apply bind_Ok_inv in H1 as (u & _ & H1).
    apply bind_Ok_inv in H1 as (u1 & Hlt & H1). apply bind_Ok_inv in H1 as (u2 & _ & H1).
    apply bind_Ok_inv in H1 as ([c fp] & _ & H1). apply bind_Ok_inv in H1 as (r & Hr & H1).
    apply bind_Ok_inv in H1 as ([] & Hb & [= <-]).
    destruct (Z.leb_spec i (rs_last_index st0)); [done|].
    apply scanned_snoc; try done; [by unfold advances; rewrite Ho|]. intros _.
    destruct (repairs !! _) as [r'|] eqn:Hl; [injection Hr as ->|done]. by eapply repair_binding_inv.
Qed.
End scan.

Lemma history_advances base l ids head pending : history base l ids head pending →
  ids = mqa_task_id <$> filter advances l.
Proof using.
  assert (Hadv : ∀ a, mqa_outcome a = INTEGRATED ∨ mqa_outcome a = Merge.REPAIRED → advances a).
  { intros a [Ho|Ho]; unfold advances; by rewrite Ho. }
  induction 1 as [|l ids head a c _ -> Ho|l ids head a _ -> Ho|l ids head p a c _ -> Ho]; [done|..];
    rewrite filter_app, fmap_app.
  - by rewrite filter_cons_True by auto.
  - rewrite filter_cons_False, filter_nil, app_nil_r; [done|].
    assert (advances a = false) as -> by (unfold advances; by rewrite Ho). by intros [].
  - by rewrite filter_cons_True by auto.
Qed.
(** The accepted history behind an execution base. *)
Record repaired_history (snapshot : PersistedRunSnapshot) (order : list string) (e : PersistedEvidence)
    (s : MergeQueueSnapshot) : Prop := {
  rh_row : e ∈ prs_evidence snapshot ∧ pe_kind e = MERGE_QUEUE_SNAPSHOT;
  rh_read : ∃ raw, read_merge_snapshot (pe_payload e) = Ok raw ∧ MergeQueueSnapshot_validate raw = Ok s;
  rh_history : history (prs_base_commit snapshot) (mqs_attempts s) (mqs_integrated_task_ids s)
    (mqs_head_commit s) None;
  rh_order : mqs_integrated_task_ids s `sublist_of` order;
  rh_workers : ∀ a, a ∈ mqs_attempts s →
    worker_success read_execution snapshot (mqa_task_id a) (mqa_task_base_commit a) (mqa_task_commit a);
  rh_repairs : ∀ a, a ∈ mqs_attempts s → mqa_outcome a = Merge.REPAIRED → authorized_repair snapshot a;
}.
Lemma repaired_history_ok snapshot pd workers decoded e s order :
  _successful_worker_pairs read_execution snapshot (Dag.task_ids (pds_dag pd)) = Ok workers →
  repair_aware_merge_snapshots read_merge_snapshot read_repair read_decision snapshot pd workers = Ok decoded →
  (e, s) ∈ decoded → mqs_stopped s = false → topological_order (pds_dag pd) = Ok order →
  repaired_history snapshot order e s.
Proof using.
  intros Hw Hd Hin Hst Ho. unfold repair_aware_merge_snapshots in Hd.
  apply bind_Ok_inv in Hd as (order' & Ho' & Hd). assert (order' = order) as -> by congruence.
  apply bind_Ok_inv in Hd as (repairs & Hrs & Hd). apply bind_Ok_inv in Hd as (decisions & Hds & Hd).
  apply bind_Ok_inv in Hd as (decoded' & Hd & H1). apply bind_Ok_inv in H1 as (u & _ & [= ->]).
  destruct (decode_merge_inv _ _ _ _ _ _ Hd e s Hin) as [Hx|(He & Hk & (raw & Hraw & Hval) & Hb & Hscan)].
  { by apply not_elem_of_nil in Hx. }
  apply bind_Ok_inv in Hscan as (st & Hscan & _).
  eapply (repair_scan_ok snapshot) in Hscan as [Hs _ Hws Hr]; [|done|done].
  destruct (snapshot_validate_history _ _ Hval) as (pending & Hh & Hstop). rewrite Hst in Hstop.
  destruct pending; [done|]. rewrite Hb in Hh. rewrite Forall_forall in Hws, Hr. split; try done.
  - by exists raw.
  - rewrite (history_advances _ _ _ _ _ Hh). etrans; [exact Hs|apply sublist_take].
  - intros a Ha. eapply worker_pairs_inv; [exact Hw|]. by apply Hws.
Qed.
(** What Git was asked about an attempt. *)
Definition git_agrees (parents : string → result (list string)) (a : MergeQueueAttempt) : Prop :=
  parents (mqa_task_commit a) = Ok [mqa_task_base_commit a]
  ∧ (advances a = true → ∃ c, mqa_integration_commit a = Some c
      ∧ parents c = Ok [mqa_previous_integration_commit a; mqa_task_commit a]).
Lemma repair_verify_inv parents base s c : repair_verify_git parents base (Some s) c = Ok tt →
  ∀ a, a ∈ mqs_attempts s → git_agrees parents a.
Proof using.
  unfold repair_verify_git, verify_git_by. intros (u & _ & ([] & Hf & _)%bind_Ok_inv)%bind_Ok_inv a Ha.
  assert (Ha' : repair_verify_attempt parents tt a = Ok tt).
  { apply (fold_result_each (repair_verify_attempt parents tt) (mqs_attempts s)); [|done].
    rewrite <- Hf. clear. generalize (mqs_attempts s). induction l as [|x l IH]; [done|].
    cbn [fold_result]. destruct (repair_verify_attempt parents tt x) as [[]|]; cbn; [apply IH|done]. }
  clear Hf. unfold repair_verify_attempt in Ha'. apply bind_Ok_inv in Ha' as (tp & Ht & H1).
  apply bind_Ok_inv in H1 as (u1 & Htp%check_Ok & H1). to_prop. subst tp. split; [done|].
  unfold advances. intros Hadv. rewrite decide_True in H1.
  - apply bind_Ok_inv in H1 as (ic & Hic & H1). apply bind_Ok_inv in H1 as (ip & Hip & H1%check_Ok). to_prop.
    exists ic. split; [by destruct (mqa_integration_commit a); [injection Hic as ->|]|by rewrite Hip, H1].
  - apply orb_prop in Hadv as [?|?]; to_prop; auto.
Qed.
End repair_base.

(** The Git base a task starts from in a run with repairs.  A task
    without dependencies starts at the base of the run.  Any other task
    starts at the head of the latest accepted merge snapshot, which is not
    stopped: that head ends an integration history from the run base that
    holds every dependency of the task and integrated the tasks in
    topological order, each attempt from a commit that accepted worker
    evidence names.  Each repaired attempt of the history is backed by
    recorded repair evidence whose verification passed, bound to its commits
    and conflict, and by the recorded AUTHORIZE_REPAIR decision of a human
    for that conflict.  With a workspace resolver, Git confirmed the parents of
    every task commit and of every integration commit, repairs included. *)
Theorem repair_base_correct read_execution read_merge_snapshot read_repair read_decision load_dag workspaces
    snapshot t base
    (H : repair_aware_resolve read_execution read_merge_snapshot read_repair read_decision load_dag workspaces
           snapshot t = Ok base) :
  ∃ pd n, load_dag (prs_run_id snapshot) = Ok pd ∧ Dag.node (pds_dag pd) t = Ok n
  ∧ teb_run_id base = prs_run_id snapshot ∧ teb_task_id base = t
  ∧ (tn_depends_on n = [] ∧ teb_basis base = RUN_BASE ∧ teb_commit_sha base = prs_base_commit snapshot
     ∨ ∃ order e s, topological_order (pds_dag pd) = Ok order
       ∧ tn_depends_on n ≠ [] ∧ teb_basis base = TEB_MERGE_QUEUE_SNAPSHOT
       ∧ latest_merge_row snapshot e
       ∧ repaired_history read_execution read_merge_snapshot read_repair read_decision snapshot order e s
       ∧ (∀ u, u ∈ tn_depends_on n → u ∈ mqs_integrated_task_ids s)
       ∧ teb_commit_sha base = mqs_head_commit s ∧ teb_source_evidence_id base = Some (pe_id e)
       ∧ teb_integration_ref base = Some (mqs_integration_ref s)
       ∧ ∀ resolver, workspaces = Some resolver → ∃ parents, resolver (prs_project_id snapshot) = Ok parents
           ∧ ∀ a, a ∈ mqs_attempts s → git_agrees parents a).
Proof.
  apply resolve_by_inv in H as (pd & n & Hpd & Hn & Hrun & Ht & Hcase). exists pd, n. split_and!; try done.
  destruct Hcase as [?|(workers & decoded & e & s & Hw & Hdec & Hlast & Hne & Hbasis & Hst & Hrest)]; [by left|].
  right. pose proof Hdec as Hord. unfold repair_aware_merge_snapshots in Hord.
  apply bind_Ok_inv in Hord as (order & Hord & Hfold). destruct Hrest as (? & ? & ? & ? & Hgit).
  apply bind_Ok_inv in Hfold as (repairs & _ & Hfold). apply bind_Ok_inv in Hfold as (decisions & _ & Hfold).
  apply bind_Ok_inv in Hfold as (decoded' & Hfold & Hext). apply bind_Ok_inv in Hext as (u & _ & [= ->]).
  exists order, e, s. split_and!; try done.
  - by eapply decode_merge_latest.
  - eapply repaired_history_ok; eauto. by apply last_Some_elem_of.
  - intros resolver Hres. destruct (Hgit resolver Hres) as (parents & Hp & Hv). exists parents.
    split; [done|]. by eapply repair_verify_inv.
Qed.

(** ** Histories without repairs *)
Section conservative.
Context (d : TaskDAG) (order : list string) (workers : gmap string (string * string)) (base : string).
Context (repairs : Repairs) (decisions : RepairDecisions).
Notation base_scan := (scan_attempt d (order_index order) workers base).
Notation scan := (repair_scan_attempt d (order_index order) workers base repairs decisions).

(** What both scans ask of an attempt with the index [i]. *)
Definition attempt_fits (integrated : gset string) (heads : gmap string (gset string)) (a : MergeQueueAttempt)
    (i : Z) : Prop :=
  oid_ok (mqa_task_base_commit a) = true ∧ oid_ok (mqa_task_commit a) = true
  ∧ oid_ok (mqa_previous_integration_commit a) = true ∧ order_index order !! mqa_task_id a = Some i
  ∧ workers !! mqa_task_id a = Some (mqa_task_base_commit a, mqa_task_commit a)
  ∧ ∃ n, Dag.node d (mqa_task_id a) = Ok n ∧ set_of (tn_depends_on n) ⊆ integrated
    ∧ (if decide (tn_depends_on n = []) then bool_decide (mqa_task_base_commit a = base)
       else match heads !! mqa_task_base_commit a with
            | Some base_integrated => bool_decide (set_of (tn_depends_on n) ⊆ base_integrated)
            | None => false
            end) = true.
Lemma of_option_Ok {A} (e : exn) (o : option A) a : of_option e o = Ok a ↔ o = Some a.
Proof using. destruct o; cbn; [|done]. split; congruence. Qed.
Lemma attempt_index_fits st a i : attempt_index d (order_index order) workers base st a = Ok i ↔
  attempt_fits (rs_integrated st) (rs_heads st) a i.
Proof using.
  unfold attempt_index, attempt_fits, sound_if, _require_oid, sound_if. split.
  - intros (u1 & H1%check_Ok & (u2 & H2%check_Ok & (u3 & H3%check_Ok & (j & Hj%of_option_Ok & (n & Hn &
      (u4 & Hw%check_Ok & (u5 & Hb & (u6 & Hs%check_Ok & [= ->])%bind_Ok_inv)%bind_Ok_inv)%bind_Ok_inv)%bind_Ok_inv
      )%bind_Ok_inv)%bind_Ok_inv)%bind_Ok_inv)%bind_Ok_inv.
    to_prop. split_and!; try done. exists n. split_and!; try done. by case_decide; apply check_Ok in Hb.
  - intros (H1 & H2 & H3 & Hi & Hw & n & Hn & Hs & Hb). rewrite H1, H2, H3, Hi. cbn [check of_option mbind result_bind].
    rewrite Hn. cbn [mbind result_bind]. rewrite (bool_decide_true _ Hw). cbn [check mbind result_bind].
    rewrite (bool_decide_true _ Hs). case_decide; rewrite Hb; reflexivity.
Qed.
Definition after (st : HistoryScan) (a : MergeQueueAttempt) (i : Z) (st1 : HistoryScan) : Prop :=
  if decide (mqa_outcome a = INTEGRATED) then
    ∃ c, mqa_integration_commit a = Some c ∧ oid_ok c = true
    ∧ let integrated := {[mqa_task_id a]} ∪ hs_integrated st in
      st1 = {| hs_integrated := integrated; hs_heads := <[c := integrated]> (hs_heads st); hs_last_index := i |}
  else st1 = {| hs_integrated := hs_integrated st; hs_heads := hs_heads st; hs_last_index := i |}.
Lemma scan_attempt_fits st a st1 : base_scan st a = Ok st1 ↔
  ∃ i, attempt_fits (hs_integrated st) (hs_heads st) a i ∧ hs_last_index st < i ∧ after st a i st1.
Proof using.
  unfold scan_attempt, attempt_fits, after, sound_if, _require_oid, sound_if. split.
  - intros (u1 & H1%check_Ok & (u2 & H2%check_Ok & (u3 & H3%check_Ok & (i & Hi%of_option_Ok & (u4 & Hlt%check_Ok &
      (n & Hn & (u5 & Hs%check_Ok & (u6 & Hw%check_Ok & (u7 & Hb%check_Ok & Hrest)%bind_Ok_inv)%bind_Ok_inv)%bind_Ok_inv
      )%bind_Ok_inv)%bind_Ok_inv)%bind_Ok_inv)%bind_Ok_inv)%bind_Ok_inv)%bind_Ok_inv.
    to_prop. exists i. split_and!; try done; [by exists n|]. case_decide; [|by injection Hrest as <-].
    apply bind_Ok_inv in Hrest as (c & Hc%of_option_Ok & (u8 & Ho%check_Ok & [= <-])%bind_Ok_inv). by exists c.
  - intros (i & (H1 & H2 & H3 & Hi & Hw & n & Hn & Hs & Hb) & Hlt%Z.ltb_lt & Ha).
    rewrite H1, H2, H3, Hi. cbn [check of_option mbind result_bind]. rewrite Hlt. cbn [check mbind result_bind].
    rewrite Hn. cbn [mbind result_bind]. rewrite (bool_decide_true _ Hs), (bool_decide_true _ Hw), Hb.
    cbn [check mbind result_bind]. case_decide; [|by rewrite Ha].
    destruct Ha as (c & -> & Ho & ->). cbn. by rewrite Ho.
Qed.

Definition agree (st : HistoryScan) (st' : RepairScan) : Prop :=
  hs_integrated st = rs_integrated st' ∧ hs_heads st = rs_heads st'
  ∧ hs_last_index st = rs_last_index st' ∧ rs_pending st' = None.
Notation base_start := {| hs_integrated := ∅; hs_heads := {[base := ∅]}; hs_last_index := -1 |}.
Notation start := {| rs_integrated := ∅; rs_heads := {[base := ∅]}; rs_last_index := -1; rs_pending := None |}.
(** Both scans accept the same attempts. *)
Definition similar (l : list MergeQueueAttempt) (pending : option MergeQueueAttempt) : Prop :=
  (∀ st, fold_result base_scan base_start l = Ok st →
     ∃ st', fold_result scan start l = Ok st' ∧ (pending = None → agree st st'))
  ∧ (∀ st', fold_result scan start l = Ok st' →
     ∃ st, fold_result base_scan base_start l = Ok st ∧ (pending = None → agree st st')).
Lemma integrated_step st st' a c : agree st st' → mqa_outcome a = INTEGRATED →
  mqa_integration_commit a = Some c → oid_ok c = true →
  (∀ st1, base_scan st a = Ok st1 → ∃ st1', scan st' a = Ok st1' ∧ agree st1 st1')
  ∧ (∀ st1', scan st' a = Ok st1' → ∃ st1, base_scan st a = Ok st1 ∧ agree st1 st1').
Proof using.
  intros (Hi & Hh & Hx & Hp) Ho Hc Hoid. unfold repair_scan_attempt. rewrite Ho. split.
  - intros st1 (i & Hfit & Hlt & Ha)%scan_attempt_fits. rewrite Hi, Hh in Hfit. rewrite Hx in Hlt.
    apply attempt_index_fits in Hfit. rewrite Hfit. cbn [mbind result_bind]. unfold scan_integrated, sound_if.
    rewrite Hp. cbn [is_none check mbind result_bind]. apply Z.ltb_lt in Hlt. rewrite Hlt, Hc. cbn.
    eexists. split; [done|]. unfold after in Ha. rewrite decide_True in Ha by done.
    destruct Ha as (c' & Hc' & _ & ->). assert (c' = c) as -> by congruence. by rewrite Hi, Hh.
  - intros st1' (i & Hfit%attempt_index_fits & Hs)%bind_Ok_inv. unfold scan_integrated, sound_if in Hs.
    apply bind_Ok_inv in Hs as (u & _ & (u1 & Hlt%check_Ok & (c' & Hc'%of_option_Ok & [= <-])%bind_Ok_inv)%bind_Ok_inv).
    assert (c' = c) as -> by congruence. to_prop. rewrite <- Hi, <- Hh in Hfit. rewrite <- Hx in Hlt.
    eexists. split; [apply scan_attempt_fits; exists i; split_and!; [done|done|]|].
    + unfold after. rewrite decide_True by done. by exists c.
    + unfold agree. cbn. by rewrite Hi, Hh.
Qed.
Lemma conflict_step st st' a : agree st st' → mqa_outcome a = CONFLICT →
  (∀ st1, base_scan st a = Ok st1 → ∃ st1', scan st' a = Ok st1')
  ∧ (∀ st1', scan st' a = Ok st1' → ∃ st1, base_scan st a = Ok st1).
Proof using.
  intros (Hi & Hh & Hx & Hp) Ho. unfold repair_scan_attempt. rewrite Ho. split.
  - intros st1 (i & Hfit & Hlt & _)%scan_attempt_fits. rewrite Hi, Hh in Hfit. rewrite Hx in Hlt.
    apply attempt_index_fits in Hfit. rewrite Hfit. cbn [mbind result_bind]. unfold scan_conflict, sound_if.
    rewrite Hp. cbn [is_none andb]. apply Z.ltb_lt in Hlt. rewrite Hlt. by eexists.
  - intros st1' (i & Hfit%attempt_index_fits & Hs)%bind_Ok_inv. unfold scan_conflict, sound_if in Hs.
    apply bind_Ok_inv in Hs as (u & Hlt%check_Ok & _). to_prop. rewrite <- Hi, <- Hh in Hfit.
    eexists. apply scan_attempt_fits. exists i. split_and!; [done|rewrite Hx; tauto|].
    unfold after. rewrite decide_False by (by rewrite Ho). reflexivity.
Qed.
Lemma fold_snoc {A B} (f : B → A → result B) b l a b' : fold_result f b (l ++ [a]) = Ok b' ↔
  ∃ b1, fold_result f b l = Ok b1 ∧ f b1 a = Ok b'.
Proof using.
  rewrite fold_result_app. split.
  - intros (b1 & H1 & (b2 & H2 & [= ->])%bind_Ok_inv)%bind_Ok_inv. by exists b1.
  - intros (b1 & -> & H1). cbn. by rewrite H1.
Qed.
Lemma scans_similar l ids head pending : history base l ids head pending →
  Forall (λ a, opt_oid_ok (mqa_integration_commit a) = true ∧ mqa_outcome a ≠ Merge.REPAIRED) l → similar l pending.
Proof using.
  induction 1 as [|l ids head a c _ IH Ho _ _ Hc _|l ids head a _ IH Ho|l ids head p a c _ IH Ho]; intros Hl.
  - split; intros ? [= <-]; eexists; (split; [done|]); by intros _.
  - apply Forall_app in Hl as [Hl [[Hoid _] _]%Forall_cons]. rewrite Hc in Hoid. destruct (IH Hl) as [IHb IHr].
    split; intros y (y1 & Hy & Hstep)%fold_snoc.
    + destruct (IHb _ Hy) as (st' & Hst' & Hag). specialize (Hag eq_refl).
      destruct (proj1 (integrated_step _ _ _ _ Hag Ho Hc Hoid) _ Hstep) as (z & Hz & ?). exists z.
      split; [|done]. apply fold_snoc. eauto.
    + destruct (IHr _ Hy) as (st' & Hst' & Hag). specialize (Hag eq_refl).
      destruct (proj2 (integrated_step _ _ _ _ Hag Ho Hc Hoid) _ Hstep) as (z & Hz & ?). exists z.
      split; [|done]. apply fold_snoc. eauto.
  - apply Forall_app in Hl as [Hl _]. destruct (IH Hl) as [IHb IHr].
    split; intros y (y1 & Hy & Hstep)%fold_snoc.
    + destruct (IHb _ Hy) as (st' & Hst' & Hag). specialize (Hag eq_refl).
      destruct (proj1 (conflict_step _ _ _ Hag Ho) _ Hstep) as (z & Hz). exists z.
      split; [|done]. apply fold_snoc. eauto.
    + destruct (IHr _ Hy) as (st' & Hst' & Hag). specialize (Hag eq_refl).
      destruct (proj2 (conflict_step _ _ _ Hag Ho) _ Hstep) as (z & Hz). exists z.
      split; [|done]. apply fold_snoc. eauto.
  - apply Forall_app in Hl as [_ [[_ Hn] _]%Forall_cons]. done.
Qed.
End conservative.

(** ** From the scans to the resolvers *)
Section mono.
Context (read_execution : JSON → result WorkerExecutionEvidence).
Context (read_merge_snapshot : JSON → result MergeQueueSnapshot).
Lemma fold_result_mono {A B} (f g : B → A → result B) l b b' :
  (∀ b a b', a ∈ l → f b a = Ok b' → g b a = Ok b') → fold_result f b l = Ok b' → fold_result g b l = Ok b'.
Proof using.
  revert b. induction l as [|a l IH]; intros b Hfg; cbn [fold_result]; [done|].
  intros (b1 & Hf & H1)%bind_Ok_inv. rewrite (Hfg b a b1) by (done || by left). cbn. apply IH; [|done].
  intros x y z Hy. apply Hfg. by right.
Qed.
(** A merge snapshot of the run, as it is read. *)
Definition merge_read (snapshot : PersistedRunSnapshot) (s : MergeQueueSnapshot) : Prop :=
  ∃ item raw, item ∈ prs_evidence snapshot ∧ pe_kind item = MERGE_QUEUE_SNAPSHOT
  ∧ read_merge_snapshot (pe_payload item) = Ok raw ∧ MergeQueueSnapshot_validate raw = Ok s.
Lemma decode_mono (v1 v2 : MergeQueueSnapshot → result unit) snapshot out :
  (∀ s, merge_read snapshot s → mqs_run_base_commit s = prs_base_commit snapshot → v1 s = Ok tt → v2 s = Ok tt) →
  fold_result (decode_merge_by read_merge_snapshot v1 snapshot) [] (prs_evidence snapshot) = Ok out →
  fold_result (decode_merge_by read_merge_snapshot v2 snapshot) [] (prs_evidence snapshot) = Ok out.
Proof using.
  intros Hv. apply fold_result_mono. intros acc e acc' He. unfold decode_merge_by, sound_if.
  case_bool_decide as Hk; cbn [negb]; [|done].
  intros (s & Hs & (u1 & Hb%check_Ok & (u2 & Hn%check_Ok & ([] & Hval & [= <-])%bind_Ok_inv)%bind_Ok_inv)%bind_Ok_inv)%bind_Ok_inv.
  rewrite Hs. cbn [mbind result_bind]. rewrite Hb, Hn. cbn [check mbind result_bind]. to_prop.
  pose proof Hs as (raw & Hraw & Hm)%validated_inv. rewrite Hv; [done| |done|done].
  by exists e, raw.
Qed.
Lemma extends_mono r1 r2 decoded x (previous : option MergeQueueSnapshot) :
  (∀ p row, row ∈ decoded → r1 p row.2 = Ok tt → r2 p row.2 = Ok tt) →
  fold_result (extends_previous_by r1) previous decoded = Ok x →
  fold_result (extends_previous_by r2) previous decoded = Ok x.
Proof using.
  intros Hr. apply fold_result_mono. intros p row p' Hrow. unfold extends_previous_by. destruct p as [p|]; [|done].
  intros (u1 & -> & (u2 & -> & (u3 & -> & (u4 & -> & (u5 & H5 & [= <-])%bind_Ok_inv)%bind_Ok_inv)%bind_Ok_inv
    )%bind_Ok_inv)%bind_Ok_inv.
  cbn [mbind result_bind]. destruct (_ && _); [|done]. destruct u5. by rewrite (Hr _ _ Hrow H5).
Qed.
Lemma verify_mono v1 v2 parents base s c :
  (∀ a, a ∈ mqs_attempts s → v1 tt a = Ok tt → v2 tt a = Ok tt) →
  verify_git_by v1 parents base (Some s) c = Ok tt → verify_git_by v2 parents base (Some s) c = Ok tt.
Proof using.
  intros Hv. unfold verify_git_by. intros (u & -> & ([] & Hf & H1)%bind_Ok_inv)%bind_Ok_inv. cbn [mbind result_bind].
  rewrite (fold_result_mono v1 v2 _ tt tt) by (done || by intros [] a [] Ha; apply Hv). done.
Qed.
Lemma resolve_mono validated1 validated2 verify1 verify2 load_dag workspaces snapshot t base :
  (∀ pd w decoded, validated1 snapshot pd w = Ok decoded → validated2 snapshot pd w = Ok decoded
     ∧ ∀ e s parents c, (e, s) ∈ decoded → verify1 parents (prs_base_commit snapshot) (Some s) c = Ok tt →
         verify2 parents (prs_base_commit snapshot) (Some s) c = Ok tt) →
  (∀ parents c, verify1 parents (prs_base_commit snapshot) None c = Ok tt →
     verify2 parents (prs_base_commit snapshot) None c = Ok tt) →
  resolve_by (select_base_by read_execution validated1) verify1 load_dag workspaces snapshot t = Ok base →
  resolve_by (select_base_by read_execution validated2) verify2 load_dag workspaces snapshot t = Ok base.
Proof using.
  intros Hv Hnone. unfold resolve_by. intros (pd & Hpd & (u & Hu & ([b m] & Hsel & H1)%bind_Ok_inv)%bind_Ok_inv)%bind_Ok_inv.
  rewrite Hpd. cbn [mbind result_bind]. rewrite Hu. cbn [mbind result_bind].
  assert (select_base_by read_execution validated2 snapshot pd t = Ok (b, m)
    ∧ ∀ parents c, verify1 parents (prs_base_commit snapshot) m c = Ok tt →
        verify2 parents (prs_base_commit snapshot) m c = Ok tt) as [-> Hver].
  { revert Hsel. unfold select_base_by. intros (n & -> & H2)%bind_Ok_inv. cbn [mbind result_bind].
    case_decide as Hd.
    - split; [done|]. apply bind_Ok_inv in H2 as (u1 & _ & (b1 & _ & [= _ <-])%bind_Ok_inv). apply Hnone.
    - apply bind_Ok_inv in H2 as (w & -> & (decoded & Hdec & H2)%bind_Ok_inv). cbn [mbind result_bind].
      destruct (Hv _ _ _ Hdec) as [-> Hver]. cbn [mbind result_bind]. split; [done|].
      destruct (last decoded) as [[e s]|] eqn:Hlast; [|done].
      apply bind_Ok_inv in H2 as (u1 & _ & (u2 & _ & (u3 & _ & (b1 & _ & [= _ <-])%bind_Ok_inv)%bind_Ok_inv)%bind_Ok_inv).
      intros parents c. eapply Hver. by apply last_Some_elem_of. }
  cbn [mbind result_bind]. destruct workspaces as [ws|]; [|done]. destruct (ws _) as [parents|x]; cbn in *; [|done].
  destruct (verify1 _ _ m _) as [[]|x] eqn:Hv1; [|by destruct (_ || _)]. by rewrite (Hver _ _ Hv1).
Qed.
End mono.

(** No repaired attempt, and full object ids as integration commits. *)
Definition plain_history (s : MergeQueueSnapshot) : Prop :=
  Forall (λ a, opt_oid_ok (mqa_integration_commit a) = true ∧ mqa_outcome a ≠ Merge.REPAIRED) (mqs_attempts s).
Lemma validate_plain snapshot d order workers repairs decisions read_merge s :
  merge_read read_merge snapshot s → mqs_run_base_commit s = prs_base_commit snapshot → plain_history s →
  (_validate_merge_history s d (order_index order) workers (prs_base_commit snapshot) ;; Ok tt) = Ok tt ↔
  (_validate_repair_aware_history s d (order_index order) workers (prs_base_commit snapshot) repairs decisions ;;
   Ok tt) = Ok tt.
Proof.
  intros (item & raw & _ & _ & _ & Hval) Hb Hplain.
  destruct (snapshot_validate_history _ _ Hval) as (pending & Hh & _). rewrite Hb in Hh.
  destruct (scans_similar d order workers (prs_base_commit snapshot) repairs decisions _ _ _ _ Hh Hplain) as [H1 H2].
  unfold _validate_merge_history, _validate_repair_aware_history. split.
  - intros (st & Hst & _)%bind_Ok_inv. by destruct (H1 _ Hst) as (st' & -> & _).
  - intros (st & Hst & _)%bind_Ok_inv. by destruct (H2 _ Hst) as (st' & -> & _).
Qed.
Lemma verify_plain parents a : mqa_outcome a ≠ Merge.REPAIRED →
  verify_attempt parents tt a = Ok tt ↔ repair_verify_attempt parents tt a = Ok tt.
Proof.
  intros Hn. unfold verify_attempt, repair_verify_attempt. destruct (parents (mqa_task_commit a)); cbn; [|done].
  destruct (sound_if _ _); cbn; [|done].
  destruct (decide (mqa_outcome a = INTEGRATED)) as [Ho|Ho].
  - rewrite decide_True by auto. by destruct (mqa_integration_commit a).
  - rewrite decide_False by (by intros [?|?]). done.
Qed.
Lemma resumed_plain p s : plain_history s → _assert_stopped_history_resumed_by_repair p s ≠ Ok tt.
Proof.
  intros Hs. unfold _assert_stopped_history_resumed_by_repair.
  destruct (last _) as [c|]; [|done]. destruct (mqs_attempts s !! _) as [a|] eqn:Ha; [|done].
  intros H1%check_Ok. to_prop. apply list_elem_of_lookup_2 in Ha.
  unfold plain_history in Hs. rewrite Forall_forall in Hs. destruct (Hs _ Ha). tauto.
Qed.

(** C27.  The repair-aware resolver is conservative.  For a run whose merge
    snapshots hold no repaired attempt and name full object ids as integration
    commits, and whose repair evidence and human decisions can be read, it
    gives exactly the bases the base resolver gives.  The object-id condition
    is needed: the subclass dropped that check of the base class. *)
Theorem repair_base_conservative read_execution read_merge_snapshot read_repair read_decision load_dag workspaces
    snapshot t base repairs decisions
    (Hplain : ∀ s, merge_read read_merge_snapshot snapshot s → plain_history s)
    (Hrepairs : _repair_evidence read_repair snapshot = Ok repairs)
    (Hdecisions : _repair_decisions read_decision snapshot = Ok decisions) :
  repair_aware_resolve read_execution read_merge_snapshot read_repair read_decision load_dag workspaces snapshot t
    = Ok base
  ↔ resolve read_execution read_merge_snapshot load_dag workspaces snapshot t = Ok base.
Proof.
  assert (Hread : ∀ v decoded e s,
    fold_result (decode_merge_by read_merge_snapshot v snapshot) [] (prs_evidence snapshot) = Ok decoded →
    (e, s) ∈ decoded → plain_history s).
  { intros v decoded e s Hd Hin. destruct (decode_merge_inv _ _ _ _ _ _ Hd e s Hin) as [Hx|(He & Hk & (raw & Hraw & Hval) & _)].
    - by apply not_elem_of_nil in Hx.
    - apply Hplain. by exists e, raw. }
  split; apply resolve_mono; try done; intros pd w decoded Hval.
  - unfold repair_aware_merge_snapshots in Hval. unfold _validated_merge_snapshots.
    apply bind_Ok_inv in Hval as (order & -> & Hval). rewrite Hrepairs, Hdecisions in Hval. cbn [mbind result_bind] in *.
    apply bind_Ok_inv in Hval as (decoded' & Hd & (x & Hext & [= ->])%bind_Ok_inv). split.
    + unfold decode_merge. erewrite decode_mono; [|..|exact Hd].
      * cbn [mbind result_bind]. unfold extends_previous. erewrite extends_mono; [done| |exact Hext].
        intros p [e s] Hrow Hr. exfalso. by eapply resumed_plain, Hr; eapply Hread.
      * intros s Hs Hb. apply (validate_plain _ _ _ _ repairs decisions _ s Hs Hb (Hplain s Hs)).
    + intros e s parents c Hin. apply verify_mono. intros a Ha. apply verify_plain.
      pose proof (Hread _ _ _ _ Hd Hin) as Hp. unfold plain_history in Hp. rewrite Forall_forall in Hp. by apply Hp.
  - unfold _validated_merge_snapshots in Hval. unfold repair_aware_merge_snapshots.
    apply bind_Ok_inv in Hval as (order & -> & Hval). rewrite Hrepairs, Hdecisions. cbn [mbind result_bind] in *.
    apply bind_Ok_inv in Hval as (decoded' & Hd & (x & Hext & [= ->])%bind_Ok_inv). split.
    + erewrite decode_mono; [|..|exact Hd].
      * cbn [mbind result_bind]. erewrite extends_mono; [done| |exact Hext]. done.
      * intros s Hs Hb. apply (validate_plain _ _ _ _ repairs decisions _ s Hs Hb (Hplain s Hs)).
    + intros e s parents c Hin. apply verify_mono. intros a Ha. apply verify_plain.
      pose proof (Hread _ _ _ _ Hd Hin) as Hp. unfold plain_history in Hp. rewrite Forall_forall in Hp. by apply Hp.
Qed.

(** ** Concrete runs *)
Definition repaired_snapshot : PersistedRunSnapshot :=
  with_history [evidence_row 1 (Some "a") WORKER_EXECUTION (tag "worker" "a");
                evidence_row 2 (Some "b") WORKER_EXECUTION (tag "worker" "b");
                evidence_row 3 None MERGE_QUEUE_SNAPSHOT (tag "queue" "");
                evidence_row 4 (Some "b") HUMAN_DECISION (tag "decision" "");
                evidence_row 5 (Some "b") INTEGRATION_REPAIR (tag "repair" "")].
Lemma repair_base_correct_witness :
  ∃ base e s, repair_aware_resolve read_worker_execution read_queue read_integration_repair read_decision
    (λ _, Ok small_pd) None repaired_snapshot "c" = Ok base
  ∧ teb_commit_sha base = mqs_head_commit s
  ∧ repaired_history read_worker_execution read_queue read_integration_repair read_decision repaired_snapshot
      ["a"; "b"; "c"] e s.
Proof.
  destruct (repair_aware_resolve read_worker_execution read_queue read_integration_repair read_decision
    (λ _, Ok small_pd) None repaired_snapshot "c") as [base|] eqn:Hb; [|vm_compute in Hb; discriminate].
  pose proof Hb as Hc. vm_compute in Hc. injection Hc as Hc.
  destruct (repair_base_correct _ _ _ _ _ _ _ _ _ Hb) as (pd & n & Hpd & Hn & Hr & Ht & [(_ & Hbasis & _)|Hcase]).
  { rewrite <- Hc in Hbasis. vm_compute in Hbasis. discriminate. }
  destruct Hcase as (order & e & s & Ho & _ & _ & _ & Hh & _ & Hhead & _). exists base, e, s.
  injection Hpd as <-. vm_compute in Ho. injection Ho as <-. by split_and!.
Defined.
Lemma repair_base_conservative_witness :
  repair_aware_resolve (λ _, Ok succeeded_a) (λ _, Ok a_integrated) read_integration_repair read_decision
    (λ _, Ok small_pd) None a_snapshot "c"
  = resolve (λ _, Ok succeeded_a) (λ _, Ok a_integrated) (λ _, Ok small_pd) None a_snapshot "c".
Proof.
  destruct (resolve (λ _, Ok succeeded_a) (λ _, Ok a_integrated) (λ _, Ok small_pd) None a_snapshot "c")
    as [base|] eqn:Hb; [|vm_compute in Hb; discriminate].
  refine (proj2 (repair_base_conservative _ _ _ _ _ None a_snapshot "c" base ∅ ∅ _ _ _) Hb).
  - intros s (item & raw & _ & _ & [= <-] & Hval). vm_compute in Hval. injection Hval as <-.
    apply Forall_cons. split; [|by apply Forall_nil]. split; [vm_compute; reflexivity|discriminate].
  - vm_compute. reflexivity.
  - vm_compute. reflexivity.
Defined.
