(* ===== verification/StoredDagFacts.v ===== *)
(** * StoredDagFacts: the graph of a run is immutable and reads back

    The graph a run was started with is read back, normalised, from every
    later state of the ledger, and [persist_dag] can only confirm it. *)
From Stdlib Require QArith_base.
From stdpp Require Import options.
From S2P Require Import Prelude Contracts Dag DagFacts WorkPackages Json Store Events Lease RunModels AgentModels Developer Recovery Merge Conflict Dispatch Reconcile IntegrationRepair EvidenceStore Completion StoredDag LedgerFacts QueueExample ToyLedger StoreFacts.
Open Scope Z_scope.

(** ** Nodes *)
(** What Pydantic promises of the two nested models of the planner. *)
Class LawfulNodes `{NodeModels} : Prop := {
  allocation_reads : ∀ a, read_allocation (dump_allocation a) = Ok a;
  assessment_reads : ∀ a, read_assessment (dump_assessment a) = Ok a;
}.
Section nodes.
Context `{NM : NodeModels}.
(** A node as its constructor makes it; its resume context is dumped to an
    object and reads back. *)
Record valid_node (n : TaskNode) : Prop := {
  vn_new : TaskNode_new n = Ok n;
  vn_allocation : ∀ a, tn_budget_allocation n = Some a → TaskBudgetAllocation_new a = Ok a;
  vn_assessment : ∀ a, tn_complexity_assessment n = Some a → PlanningComplexityAssessment_new a = Ok a;
  vn_resume : ∀ r, tn_resume_context n = Some r →
    is_dict (dump_resume r) = true ∧ read_resume (dump_resume r) = Ok r;
}.
Definition dependency_ok (s : string) : Prop :=
  strip s = s ∧ s ≠ "" ∧ (str_len s <=? 128)%nat && matches_id_pattern s = true.
Lemma validate_dependencies_iff l k : validate_dependencies l = Ok k → NoDup k ∧ Forall dependency_ok k.
Proof.
  unfold validate_dependencies. intros H. apply bind_Ok_inv in H as (m & Hm%map_result_Ok & H).
  apply bind_Ok_inv in H as (u & Hnd%valid_if_Ok & [= ->]). to_prop. split; [done|].
  apply Forall_forall. intros s [i Hi]%list_elem_of_lookup.
  destruct (Forall2_lookup_r _ _ _ _ _ Hm Hi) as (v & _ & Hv). cbv beta zeta in Hv.
  apply bind_Ok_inv in Hv as (u1 & Hne%valid_if_Ok & Hv). apply bind_Ok_inv in Hv as (u2 & Hp%valid_if_Ok & [= <-]).
  to_prop. split_and!; [apply strip_idemp|done|by apply andb_true_iff].
Qed.
Lemma validate_dependencies_Ok l : NoDup l → Forall dependency_ok l → validate_dependencies l = Ok l.
Proof.
  intros Hnd Hall. unfold validate_dependencies. rewrite (proj2 (map_result_Ok _ l l)).
  { cbn [mbind result_bind]. by rewrite valid_if_true by by apply bool_decide_eq_true_2. }
  clear Hnd. induction Hall as [|s l (Hs & Hne & Hp) _ IH]; constructor; [|exact IH]. cbv beta zeta. rewrite Hs.
  rewrite (valid_if_true (negb (bool_decide (s = "")))) by by rewrite bool_decide_false.
  cbn [mbind result_bind]. by rewrite valid_if_true.
Qed.
(** The conditions of a node besides its dependencies. *)
Definition metadata_ok (n : TaskNode) : Prop :=
  (length (tn_produces n) <=? 16)%nat = true ∧ (length (tn_consumes n) <=? 16)%nat = true
  ∧ no_duplicates (tn_produces n) = true ∧ no_duplicates (tn_consumes n) = true
  ∧ match tn_budget_allocation n with
    | Some b => bool_decide (tba_package_id b = node_id n) | None => true end = true
  ∧ match tn_complexity_assessment n with
    | Some a => bool_decide (pca_package_id a = node_id n) | None => true end = true
  ∧ match tn_complexity n, tn_complexity_assessment n with
    | Some c, Some a => bool_decide (c = pca_complexity a) | _, _ => true end = true.
Definition with_dependencies (k : list string) (n : TaskNode) : TaskNode := {|
  tn_task := tn_task n; tn_depends_on := k; tn_execution_mode := tn_execution_mode n;
  tn_produces := tn_produces n; tn_consumes := tn_consumes n; tn_complexity := tn_complexity n;
  tn_budget_allocation := tn_budget_allocation n; tn_complexity_assessment := tn_complexity_assessment n;
  tn_resume_context := tn_resume_context n |}.
Lemma TaskNode_new_cases raw n : TaskNode_new raw = Ok n ↔
  ∃ ds, validate_dependencies (tn_depends_on raw) = Ok ds ∧ node_id raw ∉ ds ∧ metadata_ok raw
    ∧ n = with_dependencies ds raw.
Proof.
  unfold TaskNode_new, reject_self_dependency, validate_work_package_metadata, metadata_ok. split.
  - intros H. apply bind_Ok_inv in H as (ds & Hds & H). exists ds. split; [done|]. inv_valid.
    match goal with H : bool_decide (_ ∉ _) = true |- _ => apply bool_decide_eq_true in H end. by split_and!.
  - intros (ds & -> & Hself & (H1 & H2 & H3 & H4 & H5 & H6 & H7) & ->). cbn [mbind result_bind].
    rewrite (valid_if_true _ _ H1). cbn [mbind result_bind]. rewrite (valid_if_true _ _ H2). cbn [mbind result_bind].
    rewrite valid_if_true by by apply bool_decide_eq_true_2. cbn [mbind result_bind].
    rewrite (valid_if_true _ _ H3). cbn [mbind result_bind]. rewrite (valid_if_true _ _ H4). cbn [mbind result_bind].
    rewrite (valid_if_true _ _ H5). cbn [mbind result_bind]. rewrite (valid_if_true _ _ H6). cbn [mbind result_bind].
    by rewrite (valid_if_true _ _ H7).
Qed.
Lemma with_dependencies_same n : with_dependencies (tn_depends_on n) n = n.
Proof. by destruct n. Qed.
Lemma node_fixed n : TaskNode_new n = Ok n ↔
  NoDup (tn_depends_on n) ∧ Forall dependency_ok (tn_depends_on n) ∧ node_id n ∉ tn_depends_on n ∧ metadata_ok n.
Proof.
  rewrite TaskNode_new_cases. split.
  - intros (ds & Hds & Hself & Hm & Heq). apply (f_equal tn_depends_on) in Heq. cbn in Heq. subst ds.
    by destruct (validate_dependencies_iff _ _ Hds).
  - intros (Hnd & Hall & Hself & Hm). exists (tn_depends_on n).
    split_and!; [by apply validate_dependencies_Ok|done|done|by rewrite with_dependencies_same].
Qed.
Lemma TaskNode_new_fixed raw n : TaskNode_new raw = Ok n → TaskNode_new n = Ok n.
Proof.
  intros (ds & Hds & Hself & Hm & ->)%TaskNode_new_cases. apply node_fixed.
  by destruct (validate_dependencies_iff _ _ Hds).
Qed.
Definition sorted_node (n : TaskNode) : TaskNode := with_dependencies (sorted_strings (tn_depends_on n)) n.
Lemma sorted_node_valid n : valid_node n → valid_node (sorted_node n).
Proof.
  intros [(Hnd & Hall & Hself & Hm)%node_fixed Ha Has Hre]. split; [|exact Ha|exact Has|exact Hre].
  apply node_fixed. unfold sorted_node. cbn [with_dependencies tn_depends_on]. split_and!.
  - by apply NoDup_sorted_strings.
  - by rewrite sorted_strings_perm.
  - by rewrite elem_of_sorted_strings.
  - exact Hm.
Qed.
Lemma sorted_strings_idemp l : sorted_strings (sorted_strings l) = sorted_strings l.
Proof. apply sorted_strings_proper, sorted_strings_perm. Qed.
Lemma sorted_node_idemp n : sorted_node (sorted_node n) = sorted_node n.
Proof. unfold sorted_node, with_dependencies. cbn. by rewrite sorted_strings_idemp. Qed.

(** ** Normal graphs *)
(** A graph of valid nodes. *)
Definition valid_graph (d : TaskDAG) : Prop := Forall valid_node (tasks d) ∧ TaskDAG_new (tasks d) = Ok d.
Lemma valid_graph_wf d : valid_graph d → graph_wf d ∧ ∃ order, topological_order d = Ok order.
Proof.
  intros [Hall Hnew]. assert (Hnd : Forall (λ n, NoDup (tn_depends_on n)) (tasks d)).
  { eapply Forall_impl; [exact Hall|]. intros n Hn. by apply (node_fixed n), vn_new. }
  destruct (TaskDAG_new_inv _ _ Hnd Hnew) as (_ & Hwf & Hok). split; [by destruct d|].
  destruct d as [ns]. cbn [tasks] in Hok. destruct (topological_order _) as [l|]; [by exists l|done].
Qed.

(** The order depends on the task ids and their dependencies only. *)
Lemma topological_order_same d d' : graph_wf d → graph_wf d' → task_ids d ≡ₚ task_ids d' →
  (∀ t, deps d t = deps d' t) → is_ok (topological_order d) = true → is_ok (topological_order d') = true →
  topological_order d = topological_order d'.
Proof.
  intros Hwf Hwf' Hids Hdeps Hok Hok'.
  destruct (topological_order d) as [l|] eqn:Hl; [|done]. destruct (topological_order d') as [l'|] eqn:Hl'; [|done].
  apply topological_order_Ok in Hl as [Hp Hg]; [|done]. apply topological_order_Ok in Hl' as [Hp' Hg']; [|done].
  f_equal. assert (Hav : ∀ l t, available d l t ↔ available d' l t).
  { intros k t. unfold available. by rewrite Hdeps, Hids. }
  assert (Hg2 : greedy d l').
  { intros l1 t l2 Heq. destruct (Hg' l1 t l2 Heq) as [? Hmin].
    split; [by apply Hav|]. intros u Hu. by apply Hmin, Hav. }
  assert (length l = length l') as Hlen by by rewrite Hp, Hp', Hids.
  apply prefix_length_eq; [|lia]. apply (greedy_prefix _ _ _ Hg Hg2). lia.
Qed.

(** *** The same graph, listed differently *)
Section same.
Context (d d' : TaskDAG) (Hd : valid_graph d) (Hvalid : Forall valid_node (tasks d'))
  (Hsame : sorted_node <$> tasks d ≡ₚ sorted_node <$> tasks d').
Lemma same_nodes n' : n' ∈ tasks d' → ∃ n, n ∈ tasks d ∧ sorted_node n = sorted_node n'.
Proof using Hsame.
  intros Hn. assert (sorted_node n' ∈ sorted_node <$> tasks d) as (n & Heq & Hin)%list_elem_of_fmap.
  { rewrite Hsame. by apply list_elem_of_fmap_2. }
  by exists n.
Qed.
Lemma same_node_deps n n' : sorted_node n = sorted_node n' →
  node_id n = node_id n' ∧ ∀ u, u ∈ tn_depends_on n ↔ u ∈ tn_depends_on n'.
Proof using.
  intros Heq. split; [by apply (f_equal node_id) in Heq|]. intros u. apply (f_equal tn_depends_on) in Heq.
  unfold sorted_node, with_dependencies in Heq. cbn [tn_depends_on] in Heq.
  by rewrite <- (elem_of_sorted_strings u (tn_depends_on n)), Heq, elem_of_sorted_strings.
Qed.
Lemma same_ids : task_ids d ≡ₚ task_ids d'.
Proof using Hsame.
  unfold task_ids. assert (∀ l : list TaskNode, node_id <$> l = node_id <$> (sorted_node <$> l)) as Hs.
  { intros l. rewrite <- list_fmap_compose. by apply list_fmap_ext. }
  by rewrite (Hs (tasks d)), (Hs (tasks d')), Hsame.
Qed.
Lemma same_wf : graph_wf d'.
Proof using All.
  destruct (valid_graph_wf d Hd) as [[Hids Hdeps Hknown] _]. rewrite Forall_forall in Hvalid. split.
  - by rewrite <- same_ids.
  - intros n Hn. by apply (node_fixed n), vn_new, Hvalid.
  - intros n' u Hn' Hu. destruct (same_nodes n' Hn') as (n & Hn & [_ Heq]%same_node_deps).
    rewrite <- same_ids. by eapply Hknown, Heq.
Qed.
Lemma same_deps t : deps d t = deps d' t.
Proof using All.
  destruct (valid_graph_wf d Hd) as [Hwf _]. pose proof same_wf as Hwf'.
  destruct (decide (t ∈ task_ids d')) as [Ht|Ht].
  - apply list_elem_of_fmap in Ht as (n' & -> & Hn'). destruct (same_nodes n' Hn') as (n & Hn & [Hid Heq]%same_node_deps).
    rewrite (node_deps d' Hwf' n' Hn'), <- Hid, (node_deps d Hwf n Hn). apply set_eq. intros u.
    by rewrite !elem_of_list_to_set.
  - assert (t ∉ task_ids d) as Ht' by by rewrite same_ids. apply set_eq. intros u. split; intros Hu; exfalso.
    + by destruct (deps_known d Hwf t u Hu).
    + by destruct (deps_known d' Hwf' t u Hu).
Qed.
Lemma same_accepted : TaskDAG_new (tasks d') = Ok d' ∧ topological_order d' = topological_order d.
Proof using All.
  destruct (valid_graph_wf d Hd) as [Hwf [order Ho]]. pose proof same_wf as Hwf'.
  assert (Hac : ∀ t, ¬ downstream d' t t).
  { intros t Ht. apply (proj1 (topological_order_acyclic d Hwf)) with t; [by rewrite Ho|].
    eapply (tc_congruence id); [|exact Ht]. intros x y. unfold edge. by rewrite same_deps. }
  apply topological_order_acyclic in Hac; [|done].
  assert (Hnd : Forall (λ n, NoDup (tn_depends_on n)) (tasks d')) by (apply Forall_forall, Hwf').
  destruct (TaskDAG_new_cases (tasks d') Hnd) as [(Hnew & _)|(msg & _ & Hno)].
  - split; [by destruct d'|]. symmetry. apply topological_order_same; [done|done|apply same_ids|apply same_deps|by rewrite Ho|done].
  - destruct Hno. split_and!; [|by destruct d'|by destruct d'].
    intros Hnil. pose proof same_ids as Hp. unfold task_ids in Hp. rewrite Hnil in Hp.
    symmetry in Hp. apply Permutation_nil in Hp. destruct Hd as [_ Hnew]. unfold TaskDAG_new in Hnew.
    apply bind_Ok_inv in Hnew as (u & Hmin%valid_if_Ok & _). by destruct (tasks d).
Qed.
End same.

Lemma lookup_node d n : graph_wf d → n ∈ tasks d → _nodes_by_id d !! node_id n = Some n.
Proof. intros Hwf Hn. by apply nodes_lookup. Qed.
Lemma normal_node_of d n : graph_wf d → n ∈ tasks d → normal_node d (node_id n) = TaskNode_new (sorted_node n).
Proof. intros Hwf Hn. unfold normal_node, node. by rewrite (lookup_node d n Hwf Hn). Qed.
Lemma NoDup_node_ids (l : list TaskNode) : NoDup (node_id <$> l) → NoDup l.
Proof. apply NoDup_fmap_1. Qed.
Lemma sorted_ids (l : list TaskNode) : node_id <$> (sorted_node <$> l) = node_id <$> l.
Proof. rewrite <- list_fmap_compose. by apply list_fmap_ext. Qed.

(** A valid graph has a normal form: the same nodes in topological order,
    dependencies sorted. *)
Record normal_form (d nd : TaskDAG) : Prop := {
  nf_normal : normalize_task_dag d = Ok nd;
  nf_valid : valid_graph nd;
  nf_nodes : sorted_node <$> tasks d ≡ₚ tasks nd;
  nf_order : topological_order d = Ok (task_ids nd) ∧ topological_order nd = Ok (task_ids nd);
}.
Lemma normalize_Ok d : valid_graph d → ∃ nd, normal_form d nd.
Proof.
  intros Hd. destruct (valid_graph_wf d Hd) as [Hwf [order Ho]].
  pose proof (topological_order_Ok d Hwf order Ho) as [Hperm Hg].
  assert (Hfix : ∀ n, n ∈ tasks d → TaskNode_new (sorted_node n) = Ok (sorted_node n)).
  { intros n Hn. apply vn_new, sorted_node_valid. destruct Hd as [Hall _]. rewrite Forall_forall in Hall. auto. }
  assert (Hone : ∀ t, t ∈ order → ∃ n, n ∈ tasks d ∧ node_id n = t ∧ normal_node d t = Ok (sorted_node n)).
  { intros t. rewrite Hperm. intros (n & -> & Hn)%list_elem_of_fmap. exists n.
    rewrite normal_node_of by done. auto. }
  destruct (map_result_each (normal_node d) order) as (ns & Hns & H2).
  { intros t Ht. destruct (Hone t Ht) as (n & _ & _ & ->). by eexists. }
  assert (Hids : node_id <$> ns = order).
  { clear -H2 Hone. induction H2 as [|t n order ns Ht _ IH]; [done|]. rewrite fmap_cons. f_equal.
    - destruct (Hone t) as (m & _ & Hmt & Hm); [by left|]. assert (n = sorted_node m) as -> by congruence. done.
    - apply IH. intros x Hx. apply Hone. by right. }
  assert (Hin : ∀ n, n ∈ ns → ∃ m, m ∈ tasks d ∧ n = sorted_node m).
  { intros n [k Hk]%list_elem_of_lookup. destruct (Forall2_lookup_r _ _ _ _ _ H2 Hk) as (t & Ht & Hn).
    destruct (Hone t) as (m & Hm & _ & Hm'); [by eapply list_elem_of_lookup_2|]. exists m. split; [done|congruence]. }
  assert (Hp : sorted_node <$> tasks d ≡ₚ ns).
  { assert (NoDup (node_id <$> ns)) as Hnd.
    { rewrite Hids, Hperm. apply Hwf. }
    apply NoDup_Permutation; [apply NoDup_node_ids; rewrite sorted_ids; apply Hwf|by apply NoDup_node_ids|].
    intros x. split.
    - intros (n & -> & Hn)%list_elem_of_fmap.
      assert (node_id n ∈ node_id <$> ns) as (m & Hm & Hmin)%list_elem_of_fmap.
      { rewrite Hids, Hperm. by apply list_elem_of_fmap_2. }
      destruct (Hin m Hmin) as (n' & Hn' & ->). replace n with n'; [done|].
      apply (NoDup_fmap_eq node_id (tasks d)); [apply Hwf|done|done|done].
    - intros (m & Hm & ->)%Hin. by apply list_elem_of_fmap_2. }
  assert (Hsorted : sorted_node <$> ns = ns).
  { rewrite <- (list_fmap_id ns) at 2. apply list_fmap_ext. intros i n Hi.
    destruct (Hin n) as (m & _ & ->); [by eapply list_elem_of_lookup_2|]. apply sorted_node_idemp. }
  assert (Hvalid : Forall valid_node ns).
  { apply Forall_forall. intros n (m & Hm & ->)%Hin. apply sorted_node_valid.
    destruct Hd as [Hall _]. rewrite Forall_forall in Hall. auto. }
  destruct (same_accepted d {| tasks := ns |} Hd Hvalid) as [Hnew Hord]; [cbn [tasks]; by rewrite Hsorted|].
  exists {| tasks := ns |}. split.
  - unfold normalize_task_dag. rewrite Ho. cbn [mbind result_bind]. rewrite Hns. cbn [mbind result_bind]. exact Hnew.
  - done.
  - done.
  - unfold task_ids. cbn [tasks]. rewrite Hids. split; [done|]. by rewrite Hord.
Qed.
(** The normal form ignores the order of the nodes and of their dependencies. *)
Lemma normalize_same d d' : valid_graph d → valid_graph d' →
  sorted_node <$> tasks d ≡ₚ sorted_node <$> tasks d' → normalize_task_dag d' = normalize_task_dag d.
Proof.
  intros Hd Hd' Hsame. destruct (valid_graph_wf d Hd) as [Hwf [order Ho]]. destruct (valid_graph_wf d' Hd') as [Hwf' _].
  destruct (same_accepted d d' Hd (proj1 Hd') Hsame) as [_ Hord]. unfold normalize_task_dag. rewrite Hord, Ho.
  cbn [mbind result_bind]. apply topological_order_Ok in Ho as [Hperm _]; [|done].
  enough (map_result (normal_node d') order = map_result (normal_node d) order) as -> by done.
  assert (Hext : ∀ t, t ∈ order → normal_node d' t = normal_node d t).
  { intros t. rewrite Hperm. rewrite (same_ids d d' Hsame). intros (n' & -> & Hn')%list_elem_of_fmap.
    destruct (same_nodes d d' Hsame n' Hn') as (n & Hn & Heq). rewrite (normal_node_of d' n' Hwf' Hn').
    destruct (same_node_deps n n' Heq) as [<- _]. by rewrite (normal_node_of d n Hwf Hn), Heq. }
  clear -Hext. induction order as [|t order IH]; [done|]. cbn. rewrite Hext by by left.
  rewrite IH; [done|]. intros x Hx. apply Hext. by right.
Qed.
Lemma normal_fixed d nd : normal_form d nd → Forall (λ n, sorted_node n = n) (tasks nd).
Proof.
  intros [_ _ Hn _]. apply Forall_forall. intros n. rewrite <- Hn. intros (m & -> & _)%list_elem_of_fmap.
  apply sorted_node_idemp.
Qed.
Lemma normal_again d nd : valid_graph d → normal_form d nd → normalize_task_dag nd = Ok nd.
Proof.
  intros Hd Hn. pose proof (normal_fixed d nd Hn) as Hfix. destruct Hn as [Hn Hv Hp _]. rewrite <- Hn.
  apply normalize_same; [done|done|]. rewrite Hp. apply reflexive_eq. symmetry.
  rewrite <- (list_fmap_id (tasks nd)) at 2. apply list_fmap_ext. intros i n Hi.
  rewrite Forall_forall in Hfix. by eapply Hfix, list_elem_of_lookup_2.
Qed.

End nodes.

(** ** The metadata of a node reads back *)
Section reads.
Context (sha256 : string → string) `{Pydantic} `{!NodeModels} `{Hlaw : !LawfulNodes}.

Lemma read_strings l : map_result read_str (JStr <$> l) = Ok l.
Proof using. apply map_result_Ok. induction l; [constructor|by constructor]. Qed.
Lemma read_mode m : read_enum all_modes WorkflowExecutionMode_value (JStr (WorkflowExecutionMode_value m)) = Ok m.
Proof using. by destruct m. Qed.
Lemma read_complexity o : read_optional (read_enum all_complexities PlanningComplexity_value)
  (opt_json (λ c, JStr (PlanningComplexity_value c)) o) = Ok o.
Proof using. by destruct o as [[]|]. Qed.
Lemma read_model {A} (dump : A → JSON) (read : JSON → result A) o :
  (∀ a, o = Some a → dump a ≠ JNull ∧ read (dump a) = Ok a) → read_optional read (opt_json dump o) = Ok o.
Proof using.
  intros Ho. destruct o as [a|]; [|done]. destruct (Ho a eq_refl) as [Hn Ha]. cbn. unfold read_optional.
  destruct (dump a) eqn:E; [done|..]; by rewrite Ha.
Qed.
(** A node without significant metadata is a plain node. *)
Lemma insignificant n : valid_node n → _node_metadata n = None → n = plain_node (tn_task n) (tn_depends_on n).
Proof using All.
  intros [_ _ _ Hre]. unfold _node_metadata. destruct (existsb _ _) eqn:Hex; [done|]. intros _.
  pose proof (proj1 (existsb_false_forall _ _) Hex) as Hall. clear Hex.
  assert (Hf : ∀ f, f ∈ metadata_fields n → f.2 = JNull ∨ f.2 = JList [] ∨ f.2 = JStr "AGENT").
  { intros f Hf. specialize (Hall f Hf). cbv beta in Hall. unfold significant in Hall.
    apply negb_false_iff in Hall. by to_prop. }
  clear Hall. destruct n as [t ds m ps cs c b a r]. cbn in Hf, Hre. unfold plain_node. f_equal; cbn.
  - destruct (Hf ("execution_mode", JStr (WorkflowExecutionMode_value m))) as [|[|]]; [set_solver|done..|by destruct m].
  - destruct (Hf ("produces", JList (JStr <$> ps))) as [|[|]]; [set_solver|done| |done]. by destruct ps.
  - destruct (Hf ("consumes", JList (JStr <$> cs))) as [|[|]]; [set_solver|done| |done]. by destruct cs.
  - destruct c as [c|]; [|done].
    by destruct (Hf ("complexity", JStr (PlanningComplexity_value c))) as [|[|]]; [set_solver|..|destruct c].
  - destruct b as [b|]; [|done].
    by destruct (Hf ("budget_allocation", dump_allocation b)) as [|[|]]; [set_solver|..].
  - destruct a as [a|]; [|done].
    by destruct (Hf ("complexity_assessment", dump_assessment a)) as [|[|]]; [set_solver|..].
  - destruct r as [r|]; [|done]. destruct (Hre r eq_refl) as [Hd _].
    by destruct (Hf ("resume_context", dump_resume r)) as [E|[E|E]]; [set_solver|..]; cbn in E; rewrite E in Hd.
Qed.
Definition payload_of (n : TaskNode) : NodePayload := {|
  np_execution_mode := JStr (WorkflowExecutionMode_value (tn_execution_mode n));
  np_produces := JStr <$> tn_produces n; np_consumes := JStr <$> tn_consumes n;
  np_complexity := opt_json (λ c, JStr (PlanningComplexity_value c)) (tn_complexity n);
  np_budget_allocation := opt_json dump_allocation (tn_budget_allocation n);
  np_complexity_assessment := opt_json dump_assessment (tn_complexity_assessment n);
  np_resume_context := opt_json dump_resume (tn_resume_context n) |}.
Lemma decode_fields n : _decode_node_metadata (Some (JObj (metadata_fields n))) = Ok (Some (payload_of n)).
Proof using. reflexivity. Qed.
Lemma metadata_roundtrip n : valid_node n →
  (p ← _decode_node_metadata (_node_metadata n); TaskNode_of (tn_task n) (tn_depends_on n) p) = Ok n.
Proof using All.
  intros Hv. pose proof Hv as [Hn Ha Has Hre]. destruct (_node_metadata n) as [md|] eqn:Hmd.
  - unfold _node_metadata in Hmd. destruct (existsb _ _); [|done]. injection Hmd as <-.
    rewrite decode_fields. cbn [mbind result_bind TaskNode_of payload_of np_execution_mode np_produces
      np_consumes np_complexity np_budget_allocation np_complexity_assessment np_resume_context].
    rewrite read_mode. cbn [mbind result_bind]. rewrite !read_strings. cbn [mbind result_bind].
    rewrite read_complexity. cbn [mbind result_bind].
    rewrite (read_model dump_allocation); [cbn [mbind result_bind]|].
    2: { intros a E. split; [discriminate|]. rewrite allocation_reads. by apply Ha. }
    rewrite (read_model dump_assessment); [cbn [mbind result_bind]|].
    2: { intros a E. split; [discriminate|]. rewrite assessment_reads. by apply Has. }
    rewrite (read_model dump_resume); [cbn [mbind result_bind]|].
    2: { intros r E. destruct (Hre r E) as [Hd Hr]. split; [intros Hnull; by rewrite Hnull in Hd|done]. }
    rewrite <- Hn. by destruct n.
  - cbn [_decode_node_metadata mbind result_bind TaskNode_of]. by rewrite <- insignificant by done.
Qed.

(** ** The graph of a run stays *)
Context (Hsha : ∀ s, is_sha256_hex (sha256 s) = true) (Hdict : ∀ m, is_dict (dump_evidence m) = true).
Implicit Types l : Ledger.
Lemma graph_framed id now d l l' : db_frame (lg_db l) (lg_db l') →
  dag_started sha256 id now d l → dag_started sha256 id now d l'.
Proof using.
  intros Hf [(run & Hrun & Hdag) Hrows Hnodes]. split.
  - destruct (frame_run_kept _ _ _ _ Hf Hrun) as [k Hk]. by eexists.
  - intros k t' Ht' Hk. destruct (frame_task _ _ _ _ Hf Ht') as (t & Ht & Hs).
    destruct (Hrows k t Ht Hk) as (n & Hn & Hs'). exists n. split; [done|]. by etrans.
  - intros n Hn. destruct (Hnodes n Hn) as [t Ht]. destruct (frame_task_kept _ _ _ _ Hf Ht) as (t' & Ht' & _).
    by exists t'.
Qed.
Lemma change_graph id now d l l' : ledger_wf sha256 l → change sha256 l l' →
  dag_started sha256 id now d l → dag_started sha256 id now d l'.
Proof using.
  intros Hwf [db' Hf|row run db' Hid Hok Hrow Hrun Hr Hf
    |run status result now' db' Hrun Hr Hdec Hst Hf|run new db1 db' Hnone Hr Hz Hruns Htasks Hne Hnew Hok Hrw Hf
    |run digest db' Hrun Hr Hnone Hruns Hf] Hd; [by apply (graph_framed id now d l)..| | |].
  - eapply (graph_framed id now d (lg_set_db _ l)); [exact Hf|]. destruct Hd as [(r & Hr' & Hdag) Hrows Hnodes].
    split; cbn; [|done..]. destruct (decide (rr_id run = id)) as [<-|Hne].
    + rewrite lookup_insert_eq. eexists. split; [done|]. cbn. congruence.
    + rewrite lookup_insert_ne by done. by exists r.
  - eapply (graph_framed id now d (lg_set_db db1 l)); [exact Hf|]. destruct Hd as [(r & Hr' & Hdag) Hrows Hnodes].
    split; cbn.
    + rewrite Hruns, lookup_insert_ne; [by exists r|]. intros <-. congruence.
    + rewrite Htasks. intros k t [[<- Ht]|Ht]%add_tasks_inv Hk; [|by eapply Hrows].
      rewrite Forall_forall in Hok. destruct (Hok t Ht) as [Ht' _]. cbn in Hk. congruence.
    + intros n Hn. destruct (Hnodes n Hn) as [t Ht]. rewrite Htasks.
      exists t. by apply add_tasks_kept.
  - destruct Hd as [(r & Hr' & Hdag) Hrows Hnodes]. split; cbn.
    + rewrite Hruns, lookup_insert_ne; [by exists r|]. intros <-. congruence.
    + intros k t' Ht' Hk. destruct (graph_frame_inv _ _ _ _ Hf Ht') as (t & Ht & Hg).
      destruct (Hrows k t Ht Hk) as (n & Hn & Hs). exists n. split; [done|].
      destruct Hg as [->|[Hnodep _]]; [done|]. destruct Hs as (_ & _ & _ & Hdep & _). rewrite Hnodep in Hdep. done.
    + intros n Hn. destruct (Hnodes n Hn) as [t Ht]. destruct (graph_frame_kept _ _ _ _ Hf Ht) as (t' & Ht' & _).
      by exists t'.
Qed.
Definition graph_kept l l' : Prop := ∀ id now d, dag_started sha256 id now d l → dag_started sha256 id now d l'.
#[export] Instance graph_kept_preorder : PreOrder graph_kept.
Proof using. split; [by intros l id now d Hd|]. intros x y z Hxy Hyz id now d Hd. by apply Hyz, Hxy. Qed.
Lemma steps_graph l l' : ledger_wf sha256 l → ledger_steps sha256 l l' → graph_kept l l'.
Proof using Hsha Hdict.
  apply (steps_ind sha256 Hsha Hdict graph_kept). intros x y Hx Hxy id now d. by apply change_graph.
Qed.

(** ** The graph of a run reads back *)
Lemma stored_node_reads id now n row : valid_node n → task_reads (tn_task n) →
  same_task (dag_task_row sha256 id now n) row → decode_stored_node sha256 row = Ok n.
Proof using Hlaw.
  intros Hn Ht (Hkey & Hc & Hs & Hdep & _ & _ & Hmd). unfold decode_stored_node, _decode_task_contract.
  assert (tr_task_id row = node_id n) as Hid by by injection Hkey.
  rewrite Hc, Hs, Hmd, Hdep, Hid. unfold dag_task_row. cbn [canonical_payload with_graph new_task_row tr_contract
    tr_contract_sha256 tr_depends_on tr_node_metadata default].
  unfold verify_payload_hash. rewrite bool_decide_true by done. cbn [check mbind result_bind].
  unfold task_reads in Ht. cbn [mbind result_bind] in Ht. rewrite Ht. cbn [corruption mbind result_bind].
  rewrite bool_decide_true by done. cbn [check mbind result_bind]. by apply metadata_roundtrip.
Qed.
Lemma rows_read_back id now d l : keyed (lg_db l) → dag_started sha256 id now d l →
  Forall valid_node (tasks d) → Forall (λ n, task_reads (tn_task n)) (tasks d) → NoDup (task_ids d) →
  ∃ ns, map_result (decode_stored_node sha256) (run_tasks id (lg_db l)) = Ok ns ∧ ns ≡ₚ tasks d.
Proof using Hlaw.
  intros Hk [_ Hrows Hnodes] Hvalid Hreads Hnd. rewrite Forall_forall in Hvalid, Hreads.
  assert (Hone : ∀ row, row ∈ run_tasks id (lg_db l) → ∃ n, n ∈ tasks d ∧ tr_task_id row = node_id n
    ∧ decode_stored_node sha256 row = Ok n).
  { intros row [Hr [k Hrow]]%elem_of_run_tasks. pose proof (ky_tasks _ Hk _ _ Hrow) as Hkey.
    destruct (Hrows k row Hrow) as (n & Hn & Hs); [by rewrite <- Hkey|]. exists n. split; [done|].
    split; [destruct Hs as [Hs _]; by injection Hs|]. eapply stored_node_reads; eauto. }
  destruct (map_result_each (decode_stored_node sha256) (run_tasks id (lg_db l))) as (ns & Hns & H2').
  { intros row Hrow. destruct (Hone row Hrow) as (n & _ & _ & ->). by eexists. }
  exists ns. split; [done|]. pose proof (run_tasks_keys l id Hk) as Hkeys.
  assert (Hids : node_id <$> ns = tr_task_id <$> run_tasks id (lg_db l)).
  { clear Hkeys Hns. revert Hone. induction H2' as [|row n rows ns Hr _ IH]; intros Hone; [done|]. rewrite !fmap_cons.
    f_equal; [|apply IH; intros x Hx; apply Hone; by right].
    destruct (Hone row) as (m & _ & Hm & Hrow); [by left|]. congruence. }
  assert (Hin : ∀ n, n ∈ ns → n ∈ tasks d).
  { intros n [i Hi]%list_elem_of_lookup. destruct (Forall2_lookup_r _ _ _ _ _ H2' Hi) as (row & Hrow & Hr).
    destruct (Hone row) as (m & Hm & _ & Hm'); [by eapply list_elem_of_lookup_2|]. congruence. }
  apply NoDup_Permutation; [apply NoDup_node_ids; by rewrite Hids|by apply NoDup_node_ids|].
  intros n. split; [apply Hin|]. intros Hn. destruct (Hnodes n Hn) as [row Hrow].
  assert (node_id n ∈ node_id <$> ns) as (m & Hm & Hmin)%list_elem_of_fmap.
  { pose proof (ky_tasks _ Hk _ _ Hrow) as Hkey. injection Hkey as Hid Hname. rewrite Hids, <- Hname.
    apply list_elem_of_fmap_2, elem_of_run_tasks. eauto. }
  replace n with m; [done|]. symmetry. by apply (NoDup_fmap_eq node_id (tasks d)); [|done|apply Hin|].
Qed.
Lemma stored_rows_depend id now d l : dag_started sha256 id now d l → keyed (lg_db l) →
  existsb (λ row, is_none (tr_depends_on row)) (run_tasks id (lg_db l)) = false.
Proof using.
  intros [_ Hrows _] Hk. apply existsb_false_forall. intros row [Hr [k Hrow]]%elem_of_run_tasks.
  pose proof (ky_tasks _ Hk _ _ Hrow) as Hkey.
  destruct (Hrows k row Hrow) as (n & _ & _ & _ & _ & -> & _); [by rewrite <- Hkey|]. done.
Qed.
Definition snapshot_for (id : UUID) (d : TaskDAG) : PersistedDAGSnapshot := {|
  pd_run_id := id; pd_dag := d; pd_dag_sha256 := payload_sha256 sha256 (dump_dag d); pd_source := PERSISTED |}.
Lemma snapshot_for_Ok id d :
  snapshot_of id d (payload_sha256 sha256 (dump_dag d)) PERSISTED = Ok (snapshot_for id d).
Proof using Hsha. unfold snapshot_of, PersistedDAGSnapshot_new. cbn [pd_dag_sha256]. by rewrite valid_if_true by apply Hsha. Qed.
Lemma persisted_reads id now dag d l : keyed (lg_db l) → valid_graph dag → normal_form dag d →
  Forall (λ n, task_reads (tn_task n)) (tasks d) → dag_started sha256 id now d l →
  _decode_persisted_dag sha256 (run_tasks id (lg_db l)) (payload_sha256 sha256 (dump_dag d)) = Ok d.
Proof using Hlaw.
  intros Hk Hdag Hn Hreads Hstarted. pose proof (nf_valid _ _ Hn) as Hvalid.
  destruct (valid_graph_wf d Hvalid) as [[Hids _ _] _].
  destruct (rows_read_back id now d l Hk Hstarted (proj1 Hvalid) Hreads Hids) as (ns & Hns & Hp).
  assert (Hsame : sorted_node <$> tasks d ≡ₚ sorted_node <$> ns) by by rewrite Hp.
  assert (Hvn : Forall valid_node ns) by (rewrite Hp; apply Hvalid).
  destruct (same_accepted d {| tasks := ns |} Hvalid Hvn Hsame) as [Hnew _].
  unfold _decode_persisted_dag. rewrite (stored_rows_depend id now d l Hstarted Hk). cbn [negb check mbind result_bind].
  rewrite Hns. cbn [mbind result_bind]. cbn [tasks] in Hnew. rewrite Hnew. cbn [corruption mbind result_bind].
  rewrite (normalize_same d {| tasks := ns |}) by done.
  rewrite (normal_again dag d) by done. cbn [mbind result_bind canonical_payload].
  unfold verify_payload_hash at 1. by rewrite bool_decide_true by done.
Qed.
Lemma graph_loads id now dag d l : keyed (lg_db l) → valid_graph dag → normal_form dag d →
  Forall (λ n, task_reads (tn_task n)) (tasks d) → dag_started sha256 id now d l →
  load_dag sha256 id l = Ok (snapshot_for id d).
Proof using Hlaw Hsha.
  intros Hk Hdag Hn Hreads Hstarted. pose proof Hstarted as [(run & Hrun & Hdigest) _ Hnodes].
  unfold load_dag. rewrite Hrun. cbn [of_option mbind result_bind].
  assert (Hne : length (run_tasks id (lg_db l)) ≠ O).
  { intros Hnil%nil_length_inv. destruct (nf_valid _ _ Hn) as [_ Hnew]. unfold TaskDAG_new in Hnew.
    apply bind_Ok_inv in Hnew as (u & Hmin%valid_if_Ok & _). destruct (tasks d) as [|n ns] eqn:E; [done|].
    destruct (Hnodes n) as [row Hrow]; [by left|]. pose proof (ky_tasks _ Hk _ _ Hrow) as Hkey.
    assert (row ∈ run_tasks id (lg_db l)) as Hin.
    { apply elem_of_run_tasks. injection Hkey as Hid _. eauto. }
    rewrite Hnil in Hin. by apply not_elem_of_nil in Hin. }
  rewrite bool_decide_false by done.
  cbn [check negb mbind result_bind]. rewrite Hdigest. rewrite (persisted_reads id now dag d l) by done.
  apply snapshot_for_Ok.
Qed.
(** The rows come back sorted by task id. *)
#[local] Instance row_le_total : Total row_le.
Proof using.
  intros s t. unfold row_le. destruct (N.lt_total (tr_run_id s) (tr_run_id t)) as [?|[Heq|?]]; [auto| |auto].
  destruct (total String.le (tr_task_id s) (tr_task_id t)); auto.
Qed.
#[local] Instance row_le_trans : Transitive row_le.
Proof using.
  intros s t u. unfold row_le. intros [Hs|[Hs Hst]] [Ht|[Ht Htu]]; [left; lia..|].
  right. split; [congruence|by etrans].
Qed.
Lemma rows_identity id now d l : keyed (lg_db l) → dag_started sha256 id now d l → graph_wf d →
  _validate_task_identity sha256 (run_tasks id (lg_db l)) d = Ok tt.
Proof using.
  intros Hk [_ Hrows Hnodes] Hwf. destruct (Hwf) as [Hnd _ _].
  assert (Hone : ∀ row, row ∈ run_tasks id (lg_db l) → tr_run_id row = id ∧ ∃ n, n ∈ tasks d
    ∧ tr_task_id row = node_id n ∧ tr_contract_sha256 row = payload_sha256 sha256 (dump_task (tn_task n))).
  { intros row [Hr [k Hrow]]%elem_of_run_tasks. split; [done|]. pose proof (ky_tasks _ Hk _ _ Hrow) as Hkey.
    destruct (Hrows k row Hrow) as (n & Hn & Hs); [by rewrite <- Hkey|]. exists n. split; [done|].
    destruct Hs as (Hid & _ & Hdigest & _). injection Hid as _ Hid. by split. }
  unfold _validate_task_identity. rewrite bool_decide_true; [cbn [check mbind result_bind]|].
  - assert (Hall : ∀ row, row ∈ run_tasks id (lg_db l) →
      (n ← of_option (Exn KeyError (tr_task_id row)) (_nodes_by_id d !! tr_task_id row);
       let '(_, digest) := canonical_payload sha256 (dump_task (tn_task n)) in
       check (bool_decide (digest = tr_contract_sha256 row)) PersistenceConflictError
         ("proposed DAG task contract differs from persisted task '" +:+ tr_task_id row +:+ "'")) = Ok tt).
    { intros row Hrow. destruct (Hone row Hrow) as (_ & n & Hn & -> & ->).
      rewrite (lookup_node d n) by done. cbn [of_option mbind result_bind canonical_payload].
      by rewrite bool_decide_true. }
    revert Hall. generalize (run_tasks id (lg_db l)) as rows. clear. induction rows as [|row rows IH]; intros Hall; [done|].
    cbn [fold_result]. rewrite (Hall row) by by left. cbn [mbind result_bind]. apply IH. intros x Hx. apply Hall. by right.
  - apply (StronglySorted_unique String.le); [|apply sorted_strings_sorted|].
    + assert (Hs : StronglySorted row_le (run_tasks id (lg_db l))) by (apply StronglySorted_merge_sort; apply _).
      revert Hone. induction Hs as [|row rows _ IH Hle]; intros Hone; [constructor|]. rewrite fmap_cons.
      constructor; [apply IH; intros x Hx; apply Hone; by right|]. apply Forall_fmap.
      rewrite Forall_forall in *. intros x Hx. cbn. destruct (Hone row) as [Hr _]; [by left|].
      destruct (Hone x) as [Hx' _]; [by right|]. destruct (Hle x Hx) as [Hlt|[_ Hle']]; [|done]. rewrite Hr, Hx' in Hlt. lia.
    + rewrite sorted_strings_perm. apply NoDup_Permutation; [by apply run_tasks_keys|done|]. intros t. split.
      * intros (row & -> & Hrow)%list_elem_of_fmap. destruct (Hone row Hrow) as (_ & n & Hn & -> & _).
        by apply list_elem_of_fmap_2.
      * intros (n & -> & Hn)%list_elem_of_fmap. destruct (Hnodes n Hn) as [row Hrow].
        pose proof (ky_tasks _ Hk _ _ Hrow) as Hkey. injection Hkey as Hid Hname. rewrite <- Hname.
        apply list_elem_of_fmap_2, elem_of_run_tasks. eauto.
Qed.
(** A proposal is only compared with the graph of the run. *)
Lemma persist_confirms id now dag d l proposal : keyed (lg_db l) → valid_graph dag → normal_form dag d →
  Forall (λ n, task_reads (tn_task n)) (tasks d) → dag_started sha256 id now d l →
  (persist_dag sha256 id proposal l).2 = l ∧ ∀ snapshot, (persist_dag sha256 id proposal l).1 = Ok snapshot →
    snapshot = snapshot_for id d ∧ ∃ d', normalize_task_dag proposal = Ok d'
      ∧ payload_sha256 sha256 (dump_dag d') = payload_sha256 sha256 (dump_dag d).
Proof using Hlaw Hsha.
  intros Hk Hdag Hn Hreads Hstarted. pose proof Hstarted as [(run & Hrun & Hdigest) _ _].
  assert (Hwp : wp (persist_dag sha256 id proposal) (λ snapshot l', l' = l ∧ snapshot = snapshot_for id d
    ∧ ∃ d', normalize_task_dag proposal = Ok d' ∧ payload_sha256 sha256 (dump_dag d') = payload_sha256 sha256 (dump_dag d))
    (λ _ l', l' = l) l); [|unfold wp in Hwp; destruct (persist_dag sha256 id proposal l) as [[a|x] l']; cbn].
  - unfold persist_dag. apply wp_lift_bind; [intros d' Hd'|done]. cbn [canonical_payload].
    apply wp_bind, wp_transaction; [|done]. apply wp_get_bind. rewrite Hrun.
    apply wp_lift_bind; [intros r [= ->]|done]. apply wp_lift_bind; [intros _ _|done]. rewrite Hdigest.
    rewrite (persisted_reads id now dag d l) by done. apply wp_lift_bind; [intros ? [= ->]|done].
    cbn [canonical_payload]. apply wp_lift_bind; [intros _ Heq%check_Ok|done]. rewrite snapshot_for_Ok.
    apply wp_lift_bind; [intros ? [= ->]|done]. apply wp_ret, wp_ret. to_prop. eauto.
  - destruct Hwp as (-> & -> & Hp). split; [done|]. by intros ? [= <-].
  - split; [done|]. by intros ? [=].
Qed.
Lemma persist_again id now dag d l : keyed (lg_db l) → valid_graph dag → normal_form dag d →
  Forall (λ n, task_reads (tn_task n)) (tasks d) → dag_started sha256 id now d l →
  persist_dag sha256 id dag l = (Ok (snapshot_for id d), l).
Proof using Hlaw Hsha.
  intros Hk Hdag Hn Hreads Hstarted. pose proof Hstarted as [(run & Hrun & Hdigest) _ _].
  destruct (valid_graph_wf d (nf_valid _ _ Hn)) as [Hwf _].
  unfold persist_dag. rewrite (nf_normal _ _ Hn). cbn [lift canonical_payload].
  unfold transaction, mbind, M_bind, lift. cbn [canonical_payload get]. rewrite Hrun. cbn [of_option].
  rewrite (rows_identity id now d l Hk Hstarted Hwf), Hdigest. rewrite (persisted_reads id now dag d l) by done.
  cbn [canonical_payload]. unfold ensure, lift. rewrite bool_decide_true by done. cbn [check]. by rewrite snapshot_for_Ok.
Qed.
End reads.

(** ** Properties *)
(** C26.  The graph of a run is immutable and reads back: after a run was
    started with a valid graph, every later state of the ledger, whatever
    operations came between, loads the normal form of that graph with its
    hash (the rows come back sorted by id, the nodes in topological order),
    and [persist_dag] never changes the ledger again: it confirms the graph
    itself and refuses a proposal with another hash.  Pydantic reads back the
    task contracts and the planning facts that it dumped ([Hreads],
    [LawfulNodes]) and a resume context of the graph is one that reads back
    ([valid_graph]). *)
Theorem stored_graph_reads_back sha256 `{Pydantic} `{!NodeModels} `{!LawfulNodes} e project_id dag base_commit
    run_id id l l1 l2
    (Hsha : ∀ s, is_sha256_hex (sha256 s) = true) (Hdict : ∀ m, is_dict (dump_evidence m) = true)
    (Hl : reachable_ledger sha256 l) (Hvalid : valid_graph dag)
    (Hreads : Forall (λ n, task_reads (tn_task n)) (tasks dag))
    (Hstart : start_dag_run sha256 e project_id dag base_commit run_id l = (Ok id, l1))
    (Hsteps : ledger_steps sha256 l1 l2) :
  ∃ d, normalize_task_dag dag = Ok d ∧ load_dag sha256 id l2 = Ok (snapshot_for sha256 id d)
    ∧ persist_dag sha256 id dag l2 = (Ok (snapshot_for sha256 id d), l2)
    ∧ ∀ proposal, (persist_dag sha256 id proposal l2).2 = l2
      ∧ ∀ snapshot, (persist_dag sha256 id proposal l2).1 = Ok snapshot → snapshot = snapshot_for sha256 id d
        ∧ ∃ d', normalize_task_dag proposal = Ok d'
          ∧ payload_sha256 sha256 (dump_dag d') = payload_sha256 sha256 (dump_dag d).
Proof.
  pose proof (reachable_wf _ Hsha Hdict _ Hl) as Hwf.
  pose proof (wp_start_dag_run sha256 Hsha e project_id dag base_commit run_id l Hwf Hreads) as Hwp.
  unfold wp in Hwp. rewrite Hstart in Hwp. destruct Hwp as (Hch & d & Hd & Hstarted).
  assert (Hwf1 : ledger_wf sha256 l1) by by eapply change_wf.
  assert (Hwf2 : ledger_wf sha256 l2) by by eapply steps_wf.
  pose proof (steps_graph sha256 Hsha Hdict l1 l2 Hwf1 Hsteps _ _ _ Hstarted) as Hstarted2.
  destruct (normalize_Ok dag Hvalid) as [nd Hn]. assert (nd = d) as -> by (pose proof (nf_normal _ _ Hn); congruence).
  assert (Hr : Forall (λ n, task_reads (tn_task n)) (tasks d)).
  { destruct (normalize_inv _ _ Hd) as (_ & _ & Hsame). apply Forall_forall. intros n Hn'.
    destruct (Hsame n Hn') as (m & Hm & ->). rewrite Forall_forall in Hreads. auto. }
  exists d. pose proof (lw_keyed _ _ Hwf2) as Hk. split_and!; [done|by eapply graph_loads|by eapply persist_again|].
  intros proposal. by eapply persist_confirms.
Qed.

(** Two tasks, the second with planning facts, and two more steps. *)
#[export] Instance toy_nodes : NodeModels := {|
  dump_resume _ := JObj [];
  read_allocation j :=
    match j with
    | JObj [(_, JStr p); (_, JInt n)] =>
        Ok {| tba_package_id := p; tba_recommended_token_budget := n |}
    | _ => invalid "TaskBudgetAllocation"
    end;
  read_assessment j :=
    match j with
    | JObj [(_, JStr p); (_, c); (_, JInt s); (_, JList rs)] =>
        complexity ← read_enum all_complexities PlanningComplexity_value c;
        reasons ← map_result read_str rs;
        Ok {| pca_package_id := p; pca_complexity := complexity; pca_score := s; pca_reasons := reasons |}
    | _ => invalid "PlanningComplexityAssessment"
    end;
  read_resume _ := invalid "TaskResumeContext" |}.
#[export] Instance toy_nodes_lawful : LawfulNodes.
Proof.
  split; [by intros []|]. intros [p c s rs].
  trans (reasons ← map_result read_str (JStr <$> rs);
         Ok {| pca_package_id := p; pca_complexity := c; pca_score := s; pca_reasons := reasons |}).
  - by destruct c.
  - by rewrite read_strings.
Qed.
Definition planned_node : TaskNode := {|
  tn_task := sample_contract "b"; tn_depends_on := ["a"]; tn_execution_mode := AGENT;
  tn_produces := ["symbol:b"]; tn_consumes := []; tn_complexity := Some HIGH;
  tn_budget_allocation := Some {| tba_package_id := "b"; tba_recommended_token_budget := 4000 |};
  tn_complexity_assessment := Some {| pca_package_id := "b"; pca_complexity := HIGH; pca_score := 80;
                                      pca_reasons := ["large"] |};
  tn_resume_context := None |}.
Definition planned_graph : TaskDAG := {| tasks := [planned_node; plain_node (sample_contract "a") []] |}.
Definition start_planned : result UUID * Ledger :=
  start_dag_run toy_digest (at_time 1) 7%N planned_graph (commit_id 1) (Some 1%N) no_runs.
Lemma stored_graph_reads_back_witness :
  ∃ d, normalize_task_dag planned_graph = Ok d ∧ task_ids d = ["a"; "b"]
  ∧ load_dag toy_digest 1%N
      (record 3 "worker:b" WORKER_EXECUTION (EM_WorkerExecutionEvidence (worked "b")) (Some "b")
        (record 2 "worker:a" WORKER_EXECUTION (EM_WorkerExecutionEvidence (worked "a")) (Some "a")
          start_planned.2).2).2
    = Ok (snapshot_for toy_digest 1%N d).
Proof.
  destruct (stored_graph_reads_back toy_digest (at_time 1) 7%N planned_graph (commit_id 1) (Some 1%N) 1%N
    no_runs start_planned.2
    (record 3 "worker:b" WORKER_EXECUTION (EM_WorkerExecutionEvidence (worked "b")) (Some "b")
        (record 2 "worker:a" WORKER_EXECUTION (EM_WorkerExecutionEvidence (worked "a")) (Some "a")
          start_planned.2).2).2 toy_digest_hex toy_dict no_runs_reachable) as (d & Hd & Hload & _).
  - split; [|vm_compute; reflexivity].
    apply Forall_cons_2; [|apply Forall_cons_2; [|apply Forall_nil_2]].
    all: split; [vm_compute; reflexivity| | |]; intros x Hx; try discriminate Hx.
    all: injection Hx as <-; vm_compute; reflexivity.
  - repeat constructor; vm_compute; reflexivity.
  - vm_compute. reflexivity.
  - eapply rtc_l; [apply record_step|]. apply rtc_once, record_step.
  - exists d. split; [exact Hd|]. split; [|exact Hload].
    assert (Hids : (d ← normalize_task_dag planned_graph; Ok (task_ids d)) = Ok ["a"; "b"])
      by (vm_compute; reflexivity).
    rewrite Hd in Hids. by injection Hids.
Defined.
